(* ===== verification/_CoqProject ===== *)
-Q . S2P
Prelude.v
ByteOrder.v
Chksum.v
MemHeap.v
Memp.v
Alloc.v
Pbuf.v
AllocImpl.v
PbufSpec.v
PbufData.v
IpAddr.v
PbufOwn.v
IpHdr.v
IpReass.v
ReassQueue.v
ReassInput.v
ReassTimer.v
Etharp.v
EtharpTable.v
EtharpOps.v
EtharpSpec.v
EtharpPbuf.v
Netif.v
NetifSpec.v
NetifEtharp.v
Ip.v
IpPacket.v
IpOut.v
Icmp.v
IpSteps.v
IcmpSpec.v
IpInput.v
IpInputSpec.v
IcmpError.v
IpEtharp.v
SysTimers.v
SysMbox.v
PppFsm.v
PppFsmSpec.v
PppRfc.v
PppHost.v
PppFcs.v
PppFrame.v
PppFrameSpec.v
UdpPcb.v
UdpPcbSpec.v
Udp.v
UdpSend.v
UdpRecv.v
UdpTrip.v
Lseg.v
Timeouts.v
TimeoutsSpec.v
TimeoutsRun.v
TcpPcb.v
TcpRecv.v
TcpOut.v
TcpAck.v
TcpProcess.v
TcpStream.v
TcpRecvSpec.v
TcpInseq.v
TcpFrame.v
TcpSend.v
TcpAckSpec.v
TcpFlush.v
TcpWriteSpec.v
TcpReceive.v
TcpInput.v
TcpSim.v
TcpConn.v
TcpCalls.v
TcpDeliver.v
TcpExamples.v
