(* ===== verification/Prelude.v ===== *)
(** * A verification of the lwIP core of this repository

    The program is lwIP 1.4.1 with the options of include/lwip/lwipopts.h, compiled
    by cwrap/build_lwip.ps1 to a DLL: checksums and byte order, the heap and the
    memory pools, packet buffers, network interfaces, IPv4 with reassembly, ICMP and ARP,
    over a port (cwrap/sys_arch.c) with timers and mailboxes.  The repository also holds the
    rest of lwIP, which the DLL replaces by stubs (cwrap/lwip_stubs.c): UDP, TCP, the
    timeouts, PPP.  This library models the C code of these parts with executable
    definitions and proves them correct.  Unless said otherwise a path below is relative to
    lwip-1.4.1/src of the repository.

    ** How C is modelled

    An integer is a [Z] kept in the range of its C type, with [u8], [u16], [u32], ...
    wherever an assignment or a cast wraps.  A function that changes state is a
    computation of the monad [M]: from a state to [Done] with a result and the new
    state, or to a [Crash].  [Crash AssertFailed] is a failed LWIP_ASSERT or LWIP_ERROR,
    both of which abort the process (include/arch/cc.h), so the handler of an
    LWIP_ERROR is never reached; [Crash Undefined] is an access outside of the
    modelled memory; [Crash OutOfFuel] ends a loop whose bound was too small.  A
    theorem that an operation is [Done] says that none of these happens.  Loops that
    are not structural recursions take fuel: the number of pbufs plus one for the
    walks along chains ([pbuf_fuel]), the length asked for plus one for pools
    ([pool_fuel]), the size of the heap for walks over it ([heap_fuel]), the number of
    queued fragments for the reassembly, the number of nodes for the lists of PCBs, timers
    and messages, the bytes of the option field for the options of TCP, the bytes to write
    for the new segments of tcp_write.  The theorems of the operations say that the
    result is [Done], so the fuel is always enough; [sys_check_timeouts], whose handlers may
    set timeouts, has its bound as a theorem.  LWIP_DEBUGF and the counters that the
    configuration leaves out are not modelled; the statistics of lwip_stats that it
    keeps are.

    ** The files

    - Prelude.v: integers, outcomes, the monad and its rules ([wp]), lists of bytes.
    - ByteOrder.v (core/def.c), Chksum.v (core/ipv4/inet_chksum.c, ipv4/lwip/inet_chksum.h):
      pure functions on buffers with their address.  The three versions of
      lwip_standard_chksum equal the sum of RFC 1071; sums over chains of pbufs and with
      pseudo headers equal the sum over the bytes on the wire.
    - MemHeap.v (core/mem.c): the blocks of the heap by offset.  mem_malloc is first fit
      and mem_free merges, against the list of blocks in order of address; every
      history of a client is safe.
    - Memp.v (core/memp.c): the free lists threaded through the elements; no element is
      given out twice, and memp_sanity is right.
    - Alloc.v: the interface [Allocator] with its laws [AllocatorSpec], what the packet
      buffers need from the two allocators; AllocImpl.v: the heap and the pools side by
      side are an instance.
    - Pbuf.v (core/pbuf.c, the lists), PbufSpec.v (what they promise): chains that end,
      tot_len that is the sum of the lengths, exact reference counts, data inside of
      live blocks.  PbufData.v (core/pbuf.c, the contents): copies and searches through
      chains cut in any way.  All of it is over any [Allocator] with its laws.
    - PbufOwn.v: the interface [Packets] with its laws, packets with one owner; the packet
      buffers are an instance.
    - IpAddr.v (core/ipv4/ip_addr.c, ipv4/lwip/ip_addr.h): classification, netmasks,
      printing and parsing.  IpHdr.v: struct ip_hdr.
    - IpReass.v, ReassQueue.v, ReassInput.v, ReassTimer.v (core/ipv4/ip_frag.c, the
      receiving half): the queue of datagrams, over [Packets].  The state of the code, with
      helper structs that overlay the IP headers in the packets, refines lists of
      fragments; a datagram is delivered when its last hole is filled, times out, or is
      dropped to make room.
    - Etharp.v, EtharpTable.v, EtharpOps.v, EtharpSpec.v (netif/etharp.c): the ARP table, over
      the interface [LinkPackets] with its laws; EtharpPbuf.v: the part of etharp_query that
      copies a packet, and the packet buffers as an instance.
    - Netif.v, NetifSpec.v (core/netif.c, ip_route of core/ipv4/ip.c): the structs threaded into
      a list, over the interface [NetifArp] with its laws [NetifArpSpec] for the calls into ARP;
      they refine a list of addresses with a table.  NetifEtharp.v: ARP is an instance.
    - Ip.v: the variables of core/ipv4/ip.c, headers as bytes of packets, ip_output and
      ip_output_if, over [PacketHost], the packet buffers inside of a larger state.
      IpPacket.v: packets with room for headers.  IpOut.v: the header written with its
      checksum, what reaches netif->output, and the laws [IpLinkSpec] of netif->output.
    - Icmp.v (core/ipv4/icmp.c), IpSteps.v (lemmas on the steps of IP and ICMP), IcmpSpec.v
      (echo replies).  IpInput.v, IpInputSpec.v (ip_input of core/ipv4/ip.c and the stubs of
      cwrap/lwip_stubs.c): what is dropped, and pings.  IcmpError.v: messages about packets.
    - IpEtharp.v: ARP over the packet buffers keeps the laws of netif->output; the whole
      stack at boot, with the packets that witness the theorems and the defects.
    - SysTimers.v, SysMbox.v (cwrap/sys_arch.c): the timer thread with its list, and the
      mailboxes with their condition variables, as step relations over threads.
    - PppFsm.v (netif/ppp/fsm.c) over [FsmHost], the link and the timer, with a record of
      callbacks; PppFsmSpec.v: its laws [FsmHostSpec] and the timer; PppRfc.v: the table of
      RFC 1661; PppHost.v: the timers of the port are an instance.
    - PppFcs.v, PppFrame.v, PppFrameSpec.v (netif/ppp/ppp.c): the check sequence, frames on a
      serial line, and that a frame sent is received.
    - UdpPcb.v, UdpPcbSpec.v (core/udp.c, the PCBs), Udp.v (core/udp.c, input and output over
      Ip.v), UdpSend.v, UdpRecv.v, UdpTrip.v: what is sent, what becomes of what is received,
      and both.
    - Lseg.v: segments of linked lists.  Timeouts.v, TimeoutsSpec.v, TimeoutsRun.v
      (core/timers.c): the list of timeouts with relative times, and its histories.
    - TcpPcb.v, TcpRecv.v, TcpOut.v, TcpAck.v, TcpProcess.v (core/tcp.c, core/tcp_in.c,
      core/tcp_out.c): one connection.  TcpStream.v, TcpRecvSpec.v, TcpInseq.v,
      TcpReceive.v: pieces of a stream, the queue out of sequence, and what the receiver does
      with a segment.  TcpFrame.v: what functions leave alone.  TcpSend.v, TcpAckSpec.v,
      TcpFlush.v, TcpWriteSpec.v: the queues of the sender through acknowledgements, output
      and writing.  TcpInput.v, TcpConn.v, TcpCalls.v, TcpDeliver.v: both directions, the
      timers and the histories.  TcpSim.v, TcpExamples.v: runs.

    ** The theorems

    Each component has an invariant that every operation keeps in every history of its
    clients: [heap_client_safe], [memp_client_safe], [pbuf_history_safe],
    [etharp_calls_safe], [udp_one_receiver], [mbox_no_lost_wakeup], [timeouts_in_order],
    [fsm_timer_discipline] (with callbacks that may call the automaton again),
    [ppp_input_safe], [tcp_window_bounds] and the laws of the interfaces.

    What the operations do is stated against a simpler description, which they refine:
    [mem_malloc_first_fit] and [mem_free_coalesces] (blocks in order of address),
    [pbuf_free_spec] (a chain and its counts), [netif_refines] and [udp_refines] (a list of
    addresses with a table), [port_timers_in_order] (a sorted list, with threads between
    the clock and the lock), [mbox_fifo] (a queue), [fsm_follows_rfc1661] (the table of the
    RFC), [lwip_standard_chksum_correct] and [fcs_protects_frames] (the sum and the CRC).

    What becomes of packets: [ip_reass_waits] and [ip_reass_delivers], [ip_input_drops],
    [ip_input_answers_ping] and [ip_input_unreachable] (from ip_input through ICMP to the
    packet the driver is given), [ip_output_sends], [udp_input_fate], [etharp_resolves] (the
    bytes queued for an address are the bytes sent when it answers).  Round trips:
    [udp_roundtrip], [ppp_frame_roundtrip], [ntoa_aton_roundtrip].

    TCP: a history of an open connection is any sequence of segments, of writes and reads of
    the application, of output and of the timers.  [tcp_delivers_stream]: the application is
    given the stream of the other end without a gap; [tcp_sends_stream]: what it writes is
    sent at its place in its own stream, is kept until it is acknowledged, and no further
    than the window; [tcp_window_bounds]: the windows announced only move forward and are
    kept.  A segment carries a piece of the stream of the other end.  It must lie in a window
    that was announced, its acknowledgement must be within 2^30 of what was sent and must not
    take back the window, and the windows must not straddle the wrap of the sequence numbers
    where the code compares them without wrapping ([segment_ok], [fair_to]); outside of these
    conditions the code fails, as TcpExamples.v shows.

    What happens in time: [ip_reass_drains], [etharp_ages_out], [sys_check_timeouts_returns]
    and [fsm_gives_up].  Some lemmas state defects of the code: [ip_reass_hole_delivered],
    [ip_reass_aborts], [inet_chksum_pseudo_partial_covers], [mem_calloc_overflow],
    [netif_add_twice_loops], [sys_timeout_early], [port_timers_wrap], [termack_opened], and
    the runs of TcpExamples.v.  Where a property has hypotheses, a lemma whose name ends in
    [_witness] applies it at a state that is reached from boot or at a concrete one.

    ** What is outside of the model

    Pointers into the heap and the pools are a region and an offset; the bytes of client
    data are modelled for pbuf payloads ([pdata]) only; a byte that was never written is
    absent, and reading it is [Undefined].  IP, ICMP and UDP read and write their headers as
    such bytes.  The headers inside of packets that reassembly and ARP write (the overlaid
    struct ip_reass_helper, struct ip_hdr, struct etharp_hdr) are values kept next to the
    packet, not bytes of it, so ip_input takes ip_reass as a parameter; it also takes
    ip_frag as one.  A packet of PPP or TCP is the list of its bytes or of its payloads, and
    whether memory is left for it is the answer of the host.  The driver
    (netif->linkoutput), the functions of applications and the callbacks of PPP protocols
    are parameters, and the theorems hold for all of them that keep the laws stated.  NO_SYS
    is 1, so SYS_ARCH_PROTECT is empty and the calls of the stack do not interleave; those of
    the port do.

    ** Not modelled

    ip_frag() of core/ipv4/ip_frag.c, the sending half, is part of the DLL; ip_output takes it
    as a parameter, since its fragments refer into the packet that they are made from, which
    the packet model of IpPacket.v (one owner for every byte) does not cover.  Of TCP the
    lists of PCBs, the search for the PCB of a segment, listening and the making of
    connections from SYNs, and the calls of the application for them are left out.  Of PPP
    the protocols above the automaton (LCP, IPCP, authentication), compression and PPPoE are
    left out.  Raw sockets, DHCP, DNS, AutoIP, IGMP, SNMP, SLIP, IPv6 and the APIs of api/ are
    not linked into the program or switched off in the configuration.  The wrapper
    (cwrap/wrapper_lwip.c) forwards calls; threads, semaphores and clocks of the port are
    those of the host. *)

From Stdlib Require Export ZArith Lia ZifyBool.
From stdpp Require Export base numbers list gmap option.

#[global] Open Scope Z_scope.

(** ** Machine integers

    Every C integer is a [Z] kept in the range of its type; the wrap-around of
    an assignment or a cast is written with one of these functions. *)

Definition u8 (z : Z) : Z := z mod 2 ^ 8.

Definition u16 (z : Z) : Z := z mod 2 ^ 16.

Definition u32 (z : Z) : Z := z mod 2 ^ 32.

(** size_t of the 64-bit host. *)
Definition u64 (z : Z) : Z := z mod 2 ^ 64.

Definition s8 (z : Z) : Z := (z + 2 ^ 7) mod 2 ^ 8 - 2 ^ 7.

Definition s16 (z : Z) : Z := (z + 2 ^ 15) mod 2 ^ 16 - 2 ^ 15.

Definition s32 (z : Z) : Z := (z + 2 ^ 31) mod 2 ^ 32 - 2 ^ 31.

Definition is_u8 (z : Z) : Prop := 0 <= z < 256.

Definition is_u16 (z : Z) : Prop := 0 <= z < 65536.

Definition is_u32 (z : Z) : Prop := 0 <= z < 4294967296.

(** A buffer of bytes. *)
Abbreviation bytes := (list Z).

Definition is_bytes (bs : bytes) : Prop := Forall is_u8 bs.

(** A truth value as the C code tests it. *)
Definition nz (z : Z) : bool := negb (z =? 0).

(** ** Outcomes

    [Crash AssertFailed] is a failed LWIP_ASSERT or LWIP_ERROR (both call
    LWIP_PLATFORM_ASSERT, which aborts the process in arch/cc.h),
    [Crash Undefined] is a NULL dereference or an access outside of the
    modelled memory, and [Crash OutOfFuel] ends a loop whose bound was too
    small. *)

Inductive crash : Set :=
| AssertFailed
| Undefined
| OutOfFuel.

Inductive outcome (A : Type) : Type :=
| Done (a : A)
| Crash (c : crash).

Arguments Done {A} a.
Arguments Crash {A} c.

#[global] Instance crash_eq_dec : EqDecision crash.
Proof. solve_decision. Defined.

(** ** A state monad over outcomes *)

Definition M (S A : Type) : Type := S -> outcome (A * S).

#[global] Instance M_ret {S} : MRet (M S) := fun A a s => Done (a, s).

#[global] Instance M_bind {S} : MBind (M S) :=
  fun A B k m s =>
    match m s with
    | Done (a, s') => k a s'
    | Crash c => Crash c
    end.

Definition get {S} : M S S := fun s => Done (s, s).

Definition put {S} (s : S) : M S unit := fun _ => Done (tt, s).

Definition modify {S} (f : S -> S) : M S unit := fun s => Done (tt, f s).

Definition fail {S A} (c : crash) : M S A := fun _ => Crash c.

(** LWIP_ASSERT: continue when the condition holds, abort otherwise. *)
Definition lwip_assert {S} (b : bool) : M S unit :=
  if b then mret tt else fail AssertFailed.

(** Reading through a pointer that must be valid. *)
Definition deref {S A} (o : option A) : M S A :=
  match o with
  | Some a => mret a
  | None => fail Undefined
  end.

Lemma bind_done {S A B} (m : M S A) (k : A -> M S B) s a s' :
  m s = Done (a, s') -> (m ≫= k) s = k a s'.
Proof. intros E. unfold mbind, M_bind. by rewrite E. Qed.

Lemma bind_crash {S A B} (m : M S A) (k : A -> M S B) s c :
  m s = Crash c -> (m ≫= k) s = Crash c.
Proof. intros E. unfold mbind, M_bind. by rewrite E. Qed.

Lemma bind_inv {S A B} (m : M S A) (k : A -> M S B) s r :
  (m ≫= k) s = Done r ->
  exists a s', m s = Done (a, s') /\ k a s' = Done r.
Proof.
  unfold mbind, M_bind. destruct (m s) as [[a s']|c] eqn:E; [|done].
  intros H. by exists a, s'.
Qed.

Lemma ret_done {S A} (a : A) (s : S) : (mret a : M S A) s = Done (a, s).
Proof. done. Qed.

Lemma lwip_assert_true {S} (b : bool) (s : S) :
  b = true -> lwip_assert b s = Done (tt, s).
Proof. by intros ->. Qed.

Lemma lwip_assert_bind {S A} (b : bool) (k : unit -> M S A) s :
  b = true -> (lwip_assert b ≫= k) s = k tt s.
Proof. by intros ->. Qed.

Lemma get_bind {S A} (k : S -> M S A) s : (get ≫= k) s = k s s.
Proof. done. Qed.

Lemma put_bind {S A} (s' : S) (k : unit -> M S A) s : (put s' ≫= k) s = k tt s'.
Proof. done. Qed.

Lemma modify_bind {S A} f (k : unit -> M S A) s : (modify f ≫= k) s = k tt (f s).
Proof. done. Qed.

Lemma ret_bind {S A B} (a : A) (k : A -> M S B) s : ((mret a : M S A) ≫= k) s = k a s.
Proof. done. Qed.

Lemma deref_bind {S A B} (o : option A) (a : A) (k : A -> M S B) s :
  o = Some a -> (deref o ≫= k) s = k a s.
Proof. by intros ->. Qed.

Lemma bind_assoc {S A B C} (m : M S A) (f : A -> M S B) (g : B -> M S C) s :
  ((m ≫= f) ≫= g) s = (m ≫= fun a => f a ≫= g) s.
Proof. unfold mbind, M_bind. by destruct (m s) as [[a s']|c]. Qed.

(** ** Computations that return

    [wp m s Q]: from [s], [m] returns, and the result and the state after it are
    in [Q]. *)

Definition wp {S A} (m : M S A) (s : S) (Q : A -> S -> Prop) : Prop :=
  exists a s', m s = Done (a, s') /\ Q a s'.

Lemma wp_bind {S A B} (m : M S A) (k : A -> M S B) s Q :
  wp m s (fun a s' => wp (k a) s' Q) -> wp (m ≫= k) s Q.
Proof.
  intros (a & s' & E & b & s2 & E2 & HQ). exists b, s2. split; [|done]. by rewrite (bind_done _ _ _ _ _ E).
Qed.

Lemma wp_ret {S A} (a : A) (s : S) (Q : A -> S -> Prop) : Q a s -> wp (mret a) s Q.
Proof. intros HQ. by exists a, s. Qed.

Lemma wp_mono {S A} (m : M S A) s (P Q : A -> S -> Prop) :
  wp m s P -> (forall a s', P a s' -> Q a s') -> wp m s Q.
Proof. intros (a & s' & E & HP) HPQ. exists a, s'. split; [done|]. by apply HPQ. Qed.

Lemma wp_modify {S} (f : S -> S) s Q : Q tt (f s) -> wp (modify f) s Q.
Proof. intros HQ. by exists tt, (f s). Qed.

Lemma wp_get {S} (s : S) Q : Q s s -> wp get s Q.
Proof. intros HQ. by exists s, s. Qed.

Lemma wp_assert {S} (b : bool) (s : S) Q : b = true -> Q tt s -> wp (lwip_assert b) s Q.
Proof. intros -> HQ. by exists tt, s. Qed.

Lemma wp_deref {S A} (o : option A) a (s : S) Q : o = Some a -> Q a s -> wp (deref o) s Q.
Proof. intros -> HQ. by exists a, s. Qed.

(** One step of a computation that returns. *)
Ltac wp_step :=
  lazymatch goal with
  | |- wp (_ ≫= _) _ _ => apply wp_bind
  | |- wp (mret _) _ _ => apply wp_ret
  | |- wp (modify _) _ _ => apply wp_modify
  | |- wp get _ _ => apply wp_get
  end.

(** Runs the steps at the head of a computation that need no case analysis. *)
Ltac mrun :=
  repeat first
    [ rewrite get_bind | rewrite put_bind | rewrite modify_bind | rewrite ret_bind
    | rewrite lwip_assert_bind by (done || lia)
    | erewrite deref_bind by eassumption ];
  cbv beta.

(** Symbolic execution of one monadic step in the goal. *)
Ltac mstep :=
  first
    [ rewrite ret_done
    | rewrite (lwip_assert_true _ _) by (done || lia)
    | erewrite bind_done by (done || eassumption) ].

(** ** Shifts and masks as arithmetic *)

Create Rewrite HintDb bits.

Create Rewrite HintDb width.

Create Rewrite HintDb zlen.

Lemma land_mask (z k : Z) : 0 <= k -> Z.land z (2 ^ k - 1) = z mod 2 ^ k.
Proof. intros. rewrite <- Z.land_ones by done. f_equal. by rewrite Z.ones_equiv. Qed.

Lemma land_ff (z : Z) : Z.land z 0xff = z mod 256.
Proof. exact (land_mask z 8 ltac:(lia)). Qed.

Lemma land_ffff (z : Z) : Z.land z 0xffff = z mod 65536.
Proof. exact (land_mask z 16 ltac:(lia)). Qed.

Lemma land_3 (z : Z) : Z.land z 3 = z mod 4.
Proof. exact (land_mask z 2 ltac:(lia)). Qed.

Lemma shiftr_8 (z : Z) : Z.shiftr z 8 = z / 256.
Proof. by rewrite Z.shiftr_div_pow2. Qed.

Lemma shiftr_16 (z : Z) : Z.shiftr z 16 = z / 65536.
Proof. by rewrite Z.shiftr_div_pow2. Qed.

Lemma shiftr_24 (z : Z) : Z.shiftr z 24 = z / 16777216.
Proof. by rewrite Z.shiftr_div_pow2. Qed.

Lemma shiftl_8 (z : Z) : Z.shiftl z 8 = z * 256.
Proof. by rewrite Z.shiftl_mul_pow2. Qed.

Lemma shiftl_16 (z : Z) : Z.shiftl z 16 = z * 65536.
Proof. by rewrite Z.shiftl_mul_pow2. Qed.

Lemma shiftl_24 (z : Z) : Z.shiftl z 24 = z * 16777216.
Proof. by rewrite Z.shiftl_mul_pow2. Qed.

(** Masking out a byte lane leaves a multiple of the lane's weight. *)
Lemma land_lane (z k w : Z) :
  0 <= k -> 0 <= w ->
  Z.land z ((2 ^ w - 1) * 2 ^ k) = ((z / 2 ^ k) mod 2 ^ w) * 2 ^ k.
Proof.
  intros Hk Hw. rewrite <- !Z.shiftl_mul_pow2 by done.
  rewrite <- Z.shiftr_div_pow2, <- land_mask by done.
  apply Z.bits_inj'. intros n Hn.
  rewrite Z.land_spec, !Z.shiftl_spec by done.
  destruct (Z.ltb_spec n k).
  - rewrite !(Z.testbit_neg_r _ (n - k)) by lia. by rewrite andb_false_r.
  - rewrite Z.land_spec, Z.shiftr_spec by lia. do 2 f_equal. lia.
Qed.

(** A disjunction of disjoint lanes is their sum. *)
Lemma lor_add (a b k : Z) :
  0 <= k -> 0 <= b < 2 ^ k -> Z.lor (a * 2 ^ k) b = a * 2 ^ k + b.
Proof.
  intros Hk Hb. rewrite <- Z.shiftl_mul_pow2 by done.
  symmetry. rewrite <- Z.lxor_lor, Z.add_nocarry_lxor; try done.
  all: apply Z.bits_inj'; intros n Hn;
    rewrite Z.land_spec, Z.shiftl_spec, Z.bits_0 by done;
    destruct (Z.ltb_spec n k);
    [ rewrite Z.testbit_neg_r by lia; done
    | rewrite <- (Z.mod_small b (2 ^ k)), Z.mod_pow2_bits_high by lia;
      by rewrite andb_false_r ].
Qed.

(** Bitwise complement at 16 bits, the [(u16_t)~x] of the source. *)
Definition not16 (z : Z) : Z := u16 (Z.lnot z).

Lemma not16_sub (z : Z) : is_u16 z -> not16 z = 65535 - z.
Proof.
  unfold is_u16, not16, u16, Z.lnot. intros Hz.
  rewrite <- Z.sub_1_r.
  replace (- z - 1) with (65535 - z + (-1) * 2 ^ 16) by lia.
  rewrite Z.mod_add by lia. apply Z.mod_small. lia.
Qed.

#[export] Hint Rewrite land_ff land_ffff shiftr_8 shiftr_16 shiftr_24
  shiftl_8 shiftl_16 shiftl_24 : bits.

(** Turn masks and shifts into div/mod and let [lia] see through them. *)
Ltac zdm := Z.div_mod_to_equations; lia.

Ltac unfold_width :=
  unfold u8, u16, u32, is_u8, is_u16, is_u32 in *;
  change (2 ^ 8) with 256 in *; change (2 ^ 16) with 65536 in *;
  change (2 ^ 32) with 4294967296 in *.

Lemma u16_range z : is_u16 (u16 z).
Proof. unfold is_u16, u16. pose proof (Z.mod_pos_bound z (2 ^ 16)). lia. Qed.

Lemma u16_id z : is_u16 z -> u16 z = z.
Proof. apply Z.mod_small. Qed.

Lemma u8_range z : is_u8 (u8 z).
Proof. unfold is_u8, u8. pose proof (Z.mod_pos_bound z (2 ^ 8)). lia. Qed.

Lemma u8_id z : is_u8 z -> u8 z = z.
Proof. apply Z.mod_small. Qed.

Lemma u32_range z : is_u32 (u32 z).
Proof. unfold is_u32, u32. pose proof (Z.mod_pos_bound z (2 ^ 32)). lia. Qed.

Lemma u32_id z : is_u32 z -> u32 z = z.
Proof. apply Z.mod_small. Qed.

Lemma u64_id z : 0 <= z < 2 ^ 64 -> u64 z = z.
Proof. apply Z.mod_small. Qed.

#[export] Hint Resolve u16_range u8_range u32_range : core.
#[export] Hint Rewrite u16_id u8_id u32_id using (unfold is_u8, is_u16, is_u32 in *; lia) : width.

(** ** Alignment

    LWIP_MEM_ALIGN_SIZE of mem.h with MEM_ALIGNMENT = 4 (arch/cc.h), computed in
    int; an assignment to a narrower type truncates afterwards. *)
Definition LWIP_MEM_ALIGN_SIZE (size : Z) : Z := Z.land (size + 4 - 1) (Z.lnot (4 - 1)).

Lemma align_arith z : LWIP_MEM_ALIGN_SIZE z = (z + 3) / 4 * 4.
Proof.
  unfold LWIP_MEM_ALIGN_SIZE. replace (z + 4 - 1) with (z + 3) by lia.
  change (4 - 1) with (Z.ones 2). rewrite <- Z.ldiff_land, Z.ldiff_ones_r by lia.
  rewrite Z.shiftr_div_pow2, Z.shiftl_mul_pow2 by lia. done.
Qed.

(** ** Lists indexed by [Z] *)

(** The length of a list as the integer the C code keeps. *)
Definition zlen {A} (l : list A) : Z := Z.of_nat (length l).

Lemma zlen_nil {A} : zlen (@nil A) = 0.
Proof. done. Qed.

Lemma zlen_cons {A} (x : A) l : zlen (x :: l) = 1 + zlen l.
Proof. unfold zlen. simpl. lia. Qed.

Lemma zlen_app {A} (l k : list A) : zlen (l ++ k) = zlen l + zlen k.
Proof. unfold zlen. rewrite length_app. lia. Qed.

Lemma zlen_nonneg {A} (l : list A) : 0 <= zlen l.
Proof. unfold zlen. lia. Qed.

#[export] Hint Rewrite @zlen_nil @zlen_cons @zlen_app : zlen.

(** [n] elements of [l] from index [off], fewer when [l] ends before. *)
Definition slice {A} (off n : Z) (l : list A) : list A :=
  take (Z.to_nat n) (drop (Z.to_nat off) l).

Lemma zlen_slice {A} (off n : Z) (l : list A) :
  0 <= off -> 0 <= n -> off + n <= zlen l -> zlen (slice off n l) = n.
Proof.
  unfold zlen, slice. intros. rewrite length_take, length_drop. lia.
Qed.

Lemma slice_app_split {A} (off n m : Z) (l : list A) :
  0 <= off -> 0 <= n -> 0 <= m ->
  slice off (n + m) l = slice off n l ++ slice (off + n) m l.
Proof.
  intros. unfold slice.
  rewrite !Z2Nat.inj_add by done.
  rewrite <- drop_drop. by rewrite take_take_drop.
Qed.

Lemma slice_all {A} (l : list A) : slice 0 (zlen l) l = l.
Proof. unfold slice, zlen. rewrite Nat2Z.id, drop_0. by apply take_ge. Qed.

Lemma slice_app_ge {A} (n : Z) (l k : list A) :
  zlen l <= n -> slice 0 n (l ++ k) = l ++ slice 0 (n - zlen l) k.
Proof.
  unfold slice, zlen. intros. rewrite !drop_0, take_app.
  rewrite take_ge by lia. do 2 f_equal. lia.
Qed.

Lemma slice_app_le {A} (n : Z) (l k : list A) :
  n <= zlen l -> slice 0 n (l ++ k) = slice 0 n l.
Proof.
  unfold slice, zlen. intros. rewrite !drop_0, take_app_le by lia. done.
Qed.

Lemma slice_0 {A} (off : Z) (l : list A) : slice off 0 l = [].
Proof. done. Qed.

Lemma slice_nil {A} (off n : Z) : slice off n (@nil A) = [].
Proof. unfold slice. by rewrite drop_nil, take_nil. Qed.

Lemma is_bytes_app (a b : bytes) : is_bytes (a ++ b) <-> is_bytes a /\ is_bytes b.
Proof. apply Forall_app. Qed.

Lemma is_bytes_cons (b : Z) (l : bytes) : is_bytes (b :: l) <-> is_u8 b /\ is_bytes l.
Proof. apply Forall_cons_iff. Qed.

Lemma is_bytes_slice off n l : is_bytes l -> is_bytes (slice off n l).
Proof. intros. unfold is_bytes, slice. by apply Forall_take, Forall_drop. Qed.

(** Concrete buffers are decided by computation. *)
Definition is_bytesb (bs : bytes) : bool :=
  forallb (fun b => (0 <=? b) && (b <? 256)) bs.

Lemma is_bytesb_spec bs : is_bytesb bs = true -> is_bytes bs.
Proof.
  unfold is_bytesb, is_bytes. intros H. apply List.Forall_forall. intros b Hb.
  rewrite forallb_forall in H. specialize (H b Hb). unfold is_u8. lia.
Qed.

(** Discharges range hypotheses at concrete inputs. *)
Ltac concrete :=
  lazymatch goal with
  | |- is_bytes _ => apply is_bytesb_spec; vm_compute; reflexivity
  | |- _ => first [ vm_compute; repeat split; (reflexivity || discriminate || congruence) | lia ]
  end.

#[export] Hint Resolve is_bytes_slice zlen_nonneg : core.

(** Induction two elements at a time, for loops over 16-bit words. *)
Lemma list_pair_ind {A} (P : list A -> Prop) :
  P [] -> (forall x, P [x]) -> (forall x y l, P l -> P (x :: y :: l)) ->
  forall l, P l.
Proof.
  intros Hn H1 H2. fix IH 1. intros [|x [|y l]]; [done|done|].
  apply H2, IH.
Qed.

(** Induction on the length of a list, for loops that consume several elements
    per round. *)
Lemma list_len_ind {A} (P : list A -> Prop) :
  (forall l, (forall k, (length k < length l)%nat -> P k) -> P l) ->
  forall l, P l.
Proof.
  intros H. assert (forall n l, (length l < n)%nat -> P l) as Hn.
  { induction n as [|n IH]; intros l Hl; [lia|].
    apply H. intros k Hk. apply IH. lia. }
  intros l. by apply (Hn (S (length l))), Nat.lt_succ_diag_r.
Qed.

Lemma exists_last_inv {A} (l : list A) : l = [] \/ exists l0 x, l = l0 ++ [x].
Proof.
  destruct l as [|x l] using rev_ind; [by left|]. right. by exists l, x.
Qed.

(** A key that is not in a map. *)
Definition free_key {V} (m : gmap Z V) : Z := 1 + map_fold (fun a _ n => Z.max a n) 0 m.

Lemma free_key_fresh {V} (m : gmap Z V) : m !! free_key m = None.
Proof.
  assert (forall b, is_Some (m !! b) -> b <= map_fold (fun a _ n => Z.max a n) 0 m) as Hb.
  { apply (map_fold_weak_ind (fun n m => forall b, is_Some (m !! b) -> b <= n)).
    - intros b. rewrite lookup_empty. by intros [].
    - intros i x m' r _ IH b [<-|[_ Hm]]%lookup_insert_is_Some; [lia|]. specialize (IH b Hm). lia. }
  destruct (m !! free_key m) eqn:E; [|done]. specialize (Hb _ (ex_intro _ _ E)). unfold free_key in Hb. lia.
Qed.
