(* ===== verification/ByteOrder.v ===== *)
(** * Byte order conversion

    core/def.c: the reference implementations used on this little-endian port
    (LWIP_PLATFORM_BYTESWAP = 0), and SWAP_BYTES_IN_WORD of inet_chksum.h. *)

From S2P Require Import Prelude.

(** lwip_htons: the argument is promoted to int, so nothing is lost before the
    result is returned as a u16_t. *)
Definition lwip_htons (n : Z) : Z :=
  u16 (Z.lor (Z.shiftl (Z.land n 0xff) 8) (Z.shiftr (Z.land n 0xff00) 8)).

Definition lwip_ntohs (n : Z) : Z := lwip_htons n.

Definition lwip_htonl (n : Z) : Z :=
  u32 (Z.lor (Z.lor (Z.lor (Z.shiftl (Z.land n 0xff) 24)
                           (Z.shiftl (Z.land n 0xff00) 8))
                    (Z.shiftr (Z.land n 0xff0000) 8))
             (Z.shiftr (Z.land n 0xff000000) 24)).

Definition lwip_ntohl (n : Z) : Z := lwip_htonl n.

(** The macro is not parenthesised as a whole; every use in the source is the
    complete right-hand side of an assignment. *)
Definition SWAP_BYTES_IN_WORD (w : Z) : Z :=
  Z.lor (Z.shiftl (Z.land w 0xff) 8) (Z.shiftr (Z.land w 0xff00) 8).

(** Little-endian loads of the host, and the big-endian reading of the wire. *)
Definition le16 (b0 b1 : Z) : Z := b0 + 256 * b1.

Definition le32 (b0 b1 b2 b3 : Z) : Z :=
  b0 + 256 * b1 + 65536 * b2 + 16777216 * b3.

(** ** Arithmetic characterisations *)

Lemma land_ff00 (z : Z) : Z.land z 0xff00 = ((z / 256) mod 256) * 256.
Proof. exact (land_lane z 8 8 ltac:(lia) ltac:(lia)). Qed.

Lemma land_ff0000 (z : Z) : Z.land z 0xff0000 = ((z / 65536) mod 256) * 65536.
Proof. exact (land_lane z 16 8 ltac:(lia) ltac:(lia)). Qed.

Lemma land_ff000000 (z : Z) :
  Z.land z 0xff000000 = ((z / 16777216) mod 256) * 16777216.
Proof. exact (land_lane z 24 8 ltac:(lia) ltac:(lia)). Qed.

#[export] Hint Rewrite land_ff00 land_ff0000 land_ff000000 : bits.

Lemma mod256_u8 z : is_u8 (z mod 256).
Proof. unfold is_u8. pose proof (Z.mod_pos_bound z 256). lia. Qed.

#[export] Hint Resolve mod256_u8 : core.

Lemma swap_bytes_arith w :
  SWAP_BYTES_IN_WORD w = 256 * (w mod 256) + (w / 256) mod 256.
Proof.
  unfold SWAP_BYTES_IN_WORD. autorewrite with bits.
  rewrite Z.div_mul by lia.
  pose proof (mod256_u8 (w / 256)) as Hb. unfold is_u8 in Hb.
  pose proof (lor_add (w mod 256) ((w / 256) mod 256) 8 ltac:(lia) ltac:(lia)) as E.
  change (2 ^ 8) with 256 in E. rewrite E. lia.
Qed.

Lemma swap_bytes_le16 b0 b1 :
  is_u8 b0 -> is_u8 b1 -> SWAP_BYTES_IN_WORD (le16 b0 b1) = le16 b1 b0.
Proof.
  unfold is_u8, le16. intros. rewrite swap_bytes_arith.
  Z.div_mod_to_equations. lia.
Qed.

Lemma swap_bytes_u16 w : is_u16 (SWAP_BYTES_IN_WORD w).
Proof.
  rewrite swap_bytes_arith. unfold is_u16.
  pose proof (mod256_u8 w). pose proof (mod256_u8 (w / 256)). unfold is_u8 in *. lia.
Qed.

Lemma htons_arith n : lwip_htons n = 256 * (n mod 256) + (n / 256) mod 256.
Proof.
  change (lwip_htons n) with (u16 (SWAP_BYTES_IN_WORD n)).
  rewrite u16_id by apply swap_bytes_u16. apply swap_bytes_arith.
Qed.

Lemma htons_swap n : lwip_htons n = SWAP_BYTES_IN_WORD n.
Proof. by rewrite htons_arith, swap_bytes_arith. Qed.

Lemma htons_u16 n : is_u16 (lwip_htons n).
Proof. rewrite htons_swap. apply swap_bytes_u16. Qed.

Lemma lwip_htonl_lanes b0 b1 b2 b3 :
  is_u8 b0 -> is_u8 b1 -> is_u8 b2 -> is_u8 b3 ->
  Z.lor (Z.lor (Z.lor (b0 * 16777216) (b1 * 65536)) (b2 * 256)) b3
  = le32 b3 b2 b1 b0.
Proof.
  unfold is_u8, le32. intros.
  replace (b1 * 65536) with (b1 * 2 ^ 16) by lia.
  replace (b0 * 16777216) with ((b0 * 256) * 2 ^ 16) by lia.
  assert (Z.lor (b0 * 256) b1 = b0 * 256 + b1) as E1.
  { exact (lor_add b0 b1 8 ltac:(lia) ltac:(lia)). }
  replace (Z.lor (b0 * 256 * 2 ^ 16) (b1 * 2 ^ 16)) with ((b0 * 256 + b1) * 2 ^ 16).
  2: { rewrite <- !Z.shiftl_mul_pow2 by lia.
       rewrite <- Z.shiftl_lor. by rewrite E1. }
  replace ((b0 * 256 + b1) * 2 ^ 16) with (((b0 * 256 + b1) * 256) * 2 ^ 8) by lia.
  replace (b2 * 256) with (b2 * 2 ^ 8) by lia.
  replace (Z.lor ((b0 * 256 + b1) * 256 * 2 ^ 8) (b2 * 2 ^ 8))
    with (((b0 * 256 + b1) * 256 + b2) * 2 ^ 8).
  2: { rewrite <- !Z.shiftl_mul_pow2 by lia. rewrite <- Z.shiftl_lor.
       f_equal. symmetry. exact (lor_add (b0 * 256 + b1) b2 8 ltac:(lia) ltac:(lia)). }
  rewrite lor_add by lia. lia.
Qed.

Lemma htonl_bytes b0 b1 b2 b3 :
  is_u8 b0 -> is_u8 b1 -> is_u8 b2 -> is_u8 b3 ->
  lwip_htonl (le32 b0 b1 b2 b3) = le32 b3 b2 b1 b0.
Proof.
  intros H0 H1 H2 H3. unfold lwip_htonl. autorewrite with bits.
  assert (le32 b0 b1 b2 b3 mod 256 = b0) as ->.
  { unfold le32, is_u8 in *. Z.div_mod_to_equations. lia. }
  assert ((le32 b0 b1 b2 b3 / 256) mod 256 = b1) as ->.
  { unfold le32, is_u8 in *. Z.div_mod_to_equations. lia. }
  assert ((le32 b0 b1 b2 b3 / 65536) mod 256 = b2) as ->.
  { unfold le32, is_u8 in *. Z.div_mod_to_equations. lia. }
  assert ((le32 b0 b1 b2 b3 / 16777216) mod 256 = b3) as ->.
  { unfold le32, is_u8 in *. Z.div_mod_to_equations. lia. }
  rewrite Z.div_mul by lia.
  replace (b2 * 65536 / 256) with (b2 * 256) by (replace (b2 * 65536) with (b2 * 256 * 256) by lia; by rewrite Z.div_mul).
  replace (b1 * 256 * 256) with (b1 * 65536) by lia.
  rewrite lwip_htonl_lanes by done. apply u32_id.
  unfold is_u32, le32, is_u8 in *. lia.
Qed.

(** Every 32-bit word is made of four bytes. *)
Lemma u32_bytes n :
  is_u32 n -> exists b0 b1 b2 b3,
    is_u8 b0 /\ is_u8 b1 /\ is_u8 b2 /\ is_u8 b3 /\ n = le32 b0 b1 b2 b3.
Proof.
  unfold is_u32, le32. intros Hn.
  exists (n mod 256), ((n / 256) mod 256), ((n / 65536) mod 256), (n / 16777216).
  repeat split; unfold is_u8; Z.div_mod_to_equations; lia.
Qed.

Lemma u16_bytes n :
  is_u16 n -> exists b0 b1, is_u8 b0 /\ is_u8 b1 /\ n = le16 b0 b1.
Proof.
  unfold is_u16, le16. intros Hn. exists (n mod 256), (n / 256).
  repeat split; unfold is_u8; Z.div_mod_to_equations; lia.
Qed.

Lemma htons_le16 b0 b1 :
  is_u8 b0 -> is_u8 b1 -> lwip_htons (le16 b0 b1) = le16 b1 b0.
Proof. intros. rewrite htons_swap. by apply swap_bytes_le16. Qed.

Lemma htons_invol n : is_u16 n -> lwip_ntohs (lwip_htons n) = n.
Proof.
  intros (b0 & b1 & ? & ? & ->)%u16_bytes. unfold lwip_ntohs.
  by rewrite !htons_le16.
Qed.

Lemma htonl_invol n : is_u32 n -> lwip_ntohl (lwip_htonl n) = n.
Proof.
  intros (b0 & b1 & b2 & b3 & ? & ? & ? & ? & ->)%u32_bytes.
  unfold lwip_ntohl. by rewrite !htonl_bytes.
Qed.

Lemma htonl_u32 n : is_u32 (lwip_htonl n).
Proof. apply u32_range. Qed.

#[export] Hint Resolve htons_u16 htonl_u32 swap_bytes_u16 : core.

(** Lwip_htons and lwip_htonl reverse the bytes of their argument on this
    little-endian host, so that the lowest-addressed byte becomes the most
    significant one, and ntohs and ntohl undo them. *)
Theorem byte_order_roundtrip :
  (forall n, is_u16 n ->
     lwip_ntohs (lwip_htons n) = n /\ is_u16 (lwip_htons n)) /\
  (forall n, is_u32 n ->
     lwip_ntohl (lwip_htonl n) = n /\ is_u32 (lwip_htonl n)) /\
  (forall b0 b1, is_u8 b0 -> is_u8 b1 ->
     lwip_htons (le16 b0 b1) = le16 b1 b0) /\
  (forall b0 b1 b2 b3, is_u8 b0 -> is_u8 b1 -> is_u8 b2 -> is_u8 b3 ->
     lwip_htonl (le32 b0 b1 b2 b3) = le32 b3 b2 b1 b0).
Proof.
  repeat split; intros.
  all: auto using htons_invol, htonl_invol, htons_le16, htonl_bytes.
  all: first [apply htons_u16 | apply htonl_u32].
Qed.

Lemma byte_order_roundtrip_witness : lwip_ntohs (lwip_htons 0x1234) = 0x1234.
Proof. apply (proj1 byte_order_roundtrip). concrete. Defined.
