(* ===== verification/Chksum.v ===== *)
(** * Internet checksum

    core/ipv4/inet_chksum.c and the macros of inet_chksum.h: the three
    implementations of the 16-bit ones' complement sum, the checksum of a
    buffer, of a pbuf chain, and of a chain with a pseudo header.  A buffer is
    its start address (its alignment matters to versions 2 and 3) with its
    bytes; a pbuf chain is the list of its payload buffers. *)

From S2P Require Import Prelude ByteOrder.

(** ** Ones' complement arithmetic *)

(** RFC 1071: the sum of the 16-bit words of a buffer, read in host (little
    endian) order, an odd last byte padded with zero. *)
Fixpoint word_sum (data : bytes) : Z :=
  match data with
  | b0 :: b1 :: rest => le16 b0 b1 + word_sum rest
  | [b0] => b0
  | [] => 0
  end.

(** The 16-bit representative of a sum with its carries folded back: zero only
    for zero, 0xffff for the other multiples of 65535. *)
Definition oc_canon (n : Z) : Z := if n =? 0 then 0 else (n - 1) mod 65535 + 1.

Definition oc_sum (data : bytes) : Z := oc_canon (word_sum data).

(** Two non-negative sums that fold to the same 16 bits. *)
Definition oc (a b : Z) : Prop :=
  0 <= a /\ 0 <= b /\ a mod 65535 = b mod 65535 /\ (a = 0 <-> b = 0).

#[export] Instance oc_sym : Symmetric oc.
Proof. intros a b (?&?&?&?). unfold oc. intuition. Qed.

#[export] Instance oc_trans : Transitive oc.
Proof. unfold oc. intros a b c (?&?&?&?) (?&?&?&?). intuition congruence. Qed.

Lemma oc_refl a : 0 <= a -> oc a a.
Proof. unfold oc. intuition. Qed.

Lemma oc_of_eq a b : 0 <= a -> a = b -> oc a b.
Proof. intros ? <-. by apply oc_refl. Qed.

Lemma oc_intro k a b :
  0 <= a -> 0 <= b -> a = b + 65535 * k -> (a = 0 <-> b = 0) -> oc a b.
Proof.
  intros ? ? -> ?. unfold oc. repeat split; try tauto.
  rewrite (Z.mul_comm 65535). by rewrite Z.mod_add.
Qed.

Lemma oc_add a a' b b' : oc a a' -> oc b b' -> oc (a + b) (a' + b').
Proof.
  intros (?&?&Ea&?) (?&?&Eb&?). unfold oc. repeat split; try lia.
  rewrite Z.add_mod, Ea, Eb, <- Z.add_mod by lia. done.
Qed.

#[export] Instance oc_add_proper : Proper (oc ==> oc ==> oc) Z.add.
Proof. intros a a' Ha b b' Hb. by apply oc_add. Qed.

Lemma oc_mul k a b : 0 < k -> oc a b -> oc (k * a) (k * b).
Proof.
  intros Hk (?&?&E&?). unfold oc. repeat split; try nia.
  rewrite Z.mul_mod, E, <- Z.mul_mod by lia. done.
Qed.

(** A carry out of 16 bits comes back as one. *)
Lemma oc_carry a : 0 <= a -> oc (65536 * a) a.
Proof.
  intros Ha. unfold oc. repeat split; try lia.
  replace (65536 * a) with (a + a * 65535) by lia. by rewrite Z.mod_add.
Qed.

Lemma oc_canon_u16 n : 0 <= n -> is_u16 (oc_canon n).
Proof.
  intros. unfold oc_canon, is_u16. destruct (Z.eqb_spec n 0); [lia|].
  pose proof (Z.mod_pos_bound (n - 1) 65535). lia.
Qed.

Lemma oc_canon_oc n : 0 <= n -> oc (oc_canon n) n.
Proof.
  intros. unfold oc_canon. destruct (Z.eqb_spec n 0) as [->|]; [by apply oc_refl|].
  pose proof (Z.mod_pos_bound (n - 1) 65535). unfold oc. repeat split; try lia.
  rewrite Zplus_mod_idemp_l. f_equal. lia.
Qed.

Lemma oc_unique a b : is_u16 a -> is_u16 b -> oc a b -> a = b.
Proof.
  unfold is_u16. intros Ha Hb (_&_&E&Hz).
  destruct (Z.eq_dec a 0), (Z.eq_dec b 0); try lia.
  Z.div_mod_to_equations. lia.
Qed.

Lemma oc_canon_eq a n : is_u16 a -> oc a n -> a = oc_canon n.
Proof.
  intros Ha Ho. assert (0 <= n) by apply Ho.
  apply oc_unique; [done|by apply oc_canon_u16|].
  etrans; [done|]. symmetry. by apply oc_canon_oc.
Qed.

Lemma oc_canon_proper a b : oc a b -> oc_canon a = oc_canon b.
Proof.
  intros Ho. pose proof Ho as (?&?&_). apply oc_canon_eq; [by apply oc_canon_u16|].
  etrans; [by apply oc_canon_oc|done].
Qed.

Lemma word_sum_bounds data :
  is_bytes data ->
  0 <= word_sum data <= 65535 * (zlen data / 2) + 255 * (zlen data mod 2).
Proof.
  induction data as [|x|x y l IH] using list_pair_ind; intros Hb.
  - done.
  - inversion_clear Hb as [|? ? Hx _]. unfold is_u8 in Hx.
    change (zlen [x]) with 1. simpl. change (1 / 2) with 0. change (1 mod 2) with 1. lia.
  - inversion_clear Hb as [|? ? Hx Hb']. inversion_clear Hb' as [|? ? Hy Hb].
    specialize (IH Hb). unfold is_u8 in *.
    assert (zlen (x :: y :: l) = zlen l + 1 * 2) as -> by (rewrite !zlen_cons; lia).
    rewrite Z.div_add, Z.mod_add by lia. simpl. unfold le16. lia.
Qed.

(** The buffer as one little-endian number: 256 * 256 folds to one, so this is
    the word sum again, and it splits at any byte. *)
Fixpoint le_num (data : bytes) : Z :=
  match data with
  | b :: rest => b + 256 * le_num rest
  | [] => 0
  end.

Lemma le_num_nonneg data : is_bytes data -> 0 <= le_num data.
Proof.
  induction 1 as [|b l Hb _ IH]; simpl; [done|]. unfold is_u8 in Hb. lia.
Qed.

Lemma oc_carry_add a b : 0 <= a -> 0 <= b -> oc (a + 65536 * b) (a + b).
Proof. intros. apply oc_add; [by apply oc_refl|by apply oc_carry]. Qed.

Lemma le_num_word_sum data : is_bytes data -> oc (le_num data) (word_sum data).
Proof.
  induction data as [|x|x y l IH] using list_pair_ind; intros Hb.
  - by apply oc_refl.
  - inversion_clear Hb as [|? ? Hx _]. unfold is_u8 in Hx. simpl.
    apply oc_of_eq; lia.
  - inversion_clear Hb as [|? ? Hx Hb']. inversion_clear Hb' as [|? ? Hy Hb].
    specialize (IH Hb). pose proof (le_num_nonneg l Hb). unfold is_u8 in *.
    simpl. unfold le16.
    replace (x + 256 * (y + 256 * le_num l))
      with ((x + 256 * y) + 65536 * le_num l) by lia.
    etrans; [apply oc_carry_add; lia|].
    apply oc_add; [apply oc_refl; lia|done].
Qed.

(** Appending after an even number of bytes adds, after an odd number it adds
    the byte-swapped sum. *)
Lemma le_num_app a b :
  is_bytes a -> is_bytes b ->
  oc (le_num (a ++ b))
     (le_num a + (if zlen a mod 2 =? 0 then 1 else 256) * le_num b).
Proof.
  intros Ha Hb. pose proof (le_num_nonneg b Hb).
  induction Ha as [|x l Hx Hl IH]; simpl.
  - apply oc_of_eq; [lia|]. change (zlen (@nil Z) mod 2 =? 0) with true. simpl. lia.
  - pose proof (le_num_nonneg l Hl). unfold is_u8 in Hx.
    pose proof (oc_mul 256 _ _ ltac:(lia) IH) as IH'.
    assert (oc x x) as Hxx by (apply oc_refl; lia).
    etrans; [apply oc_add; [exact Hxx|exact IH']|].
    rewrite zlen_cons.
    destruct (Z.eqb_spec (zlen l mod 2) 0) as [E|E],
      (Z.eqb_spec ((1 + zlen l) mod 2) 0) as [E'|E'];
      try (exfalso; Z.div_mod_to_equations; lia).
    + apply oc_of_eq; lia.
    + replace (x + 256 * (le_num l + 256 * le_num b))
        with ((x + 256 * le_num l) + 65536 * le_num b) by lia.
      etrans; [apply oc_carry_add; lia|]. apply oc_of_eq; lia.
Qed.

(** ** Folding and swapping *)

(** FOLD_U32T: the macro's sum of two 16-bit halves cannot carry. *)
Definition FOLD_U32T (u : Z) : Z := u32 (Z.shiftr u 16 + Z.land u 0xffff).

Lemma fold_oc u : is_u32 u -> oc (FOLD_U32T u) u /\ 0 <= FOLD_U32T u <= 131070.
Proof.
  unfold FOLD_U32T. intros Hu. autorewrite with bits.
  unfold is_u32 in Hu.
  rewrite u32_id by (unfold is_u32; Z.div_mod_to_equations; lia).
  split; [|Z.div_mod_to_equations; lia].
  pose proof (Z.div_mod u 65536 ltac:(lia)).
  pose proof (Z.mod_pos_bound u 65536 ltac:(lia)).
  pose proof (Z.div_pos u 65536 ltac:(lia) ltac:(lia)).
  symmetry. rewrite (Z.div_mod u 65536) at 1 by lia. rewrite (Z.add_comm (65536 * _)).
  rewrite (Z.add_comm (u / 65536)). apply oc_carry_add; lia.
Qed.

Lemma fold_u16 u : 0 <= u <= 131070 -> is_u16 (FOLD_U32T u).
Proof.
  unfold FOLD_U32T. intros Hu. autorewrite with bits.
  rewrite u32_id by (unfold is_u32; Z.div_mod_to_equations; lia).
  unfold is_u16. Z.div_mod_to_equations. lia.
Qed.

Lemma fold_twice u :
  is_u32 u -> oc (FOLD_U32T (FOLD_U32T u)) u /\ is_u16 (FOLD_U32T (FOLD_U32T u)).
Proof.
  intros Hu. destruct (fold_oc u Hu) as [Ho Hb].
  destruct (fold_oc (FOLD_U32T u)) as [Ho' _]; [unfold is_u32; lia|].
  split; [by etrans|by apply fold_u16].
Qed.

Lemma swap_oc w : is_u16 w -> oc (SWAP_BYTES_IN_WORD w) (256 * w).
Proof.
  intros (b0 & b1 & Hb0 & Hb1 & ->)%u16_bytes.
  rewrite swap_bytes_le16 by done. unfold le16, is_u8 in *.
  symmetry. replace (256 * (b0 + 256 * b1)) with (256 * b0 + 65536 * b1) by lia.
  etrans; [apply oc_carry_add; lia|]. apply oc_of_eq; lia.
Qed.

(** ** lwip_standard_chksum, version 1

    One big-endian word at a time in a 32-bit accumulator. *)

Fixpoint chksum1_loop (acc : Z) (octetptr : bytes) : Z :=
  match octetptr with
  | b0 :: b1 :: rest =>
      (* while (len > 1) *)
      let src := u16 (Z.shiftl b0 8) in
      let src := Z.lor src b1 in
      chksum1_loop (u32 (acc + src)) rest
  | [b0] =>
      (* if (len > 0) *)
      u32 (acc + u16 (Z.shiftl b0 8))
  | [] => acc
  end.

Definition lwip_standard_chksum_1 (dataptr : bytes) : Z :=
  let acc := chksum1_loop 0 dataptr in
  let acc := u32 (Z.shiftr acc 16 + Z.land acc 0xffff) in
  let acc := if nz (Z.land acc 0xffff0000)
             then u32 (Z.shiftr acc 16 + Z.land acc 0xffff)
             else acc in
  lwip_htons (u16 acc).

(** ** lwip_standard_chksum, version 2

    Host-order words from the first even address; the bytes before and after
    the aligned part are collected in [t], and the sum is swapped back when the
    buffer started at an odd address. *)

Fixpoint add_words (sum : Z) (ps : bytes) : Z * bytes :=
  match ps with
  | b0 :: b1 :: rest => add_words (u32 (sum + le16 b0 b1)) rest
  | _ => (sum, ps)
  end.

(** The unaligned first byte goes to the high half of [t]. *)
Definition align_u16 (odd : bool) (pb : bytes) : Z * bytes :=
  match odd, pb with
  | true, b :: rest => (b, rest)
  | _, _ => (0, pb)
  end.

(** The left-over byte goes to the low half of [t]. *)
Definition leftover (ps : bytes) : Z :=
  match ps with
  | b :: _ => b
  | [] => 0
  end.

Definition lwip_standard_chksum_2 (addr : Z) (dataptr : bytes) : Z :=
  let odd := nz (Z.land addr 1) in
  let '(t1, pb) := align_u16 odd dataptr in
  let '(sum, ps) := add_words 0 pb in
  let t0 := leftover ps in
  let sum := u32 (sum + le16 t0 t1) in
  let sum := FOLD_U32T sum in
  let sum := FOLD_U32T sum in
  let sum := if odd then SWAP_BYTES_IN_WORD sum else sum in
  u16 sum.

(** ** lwip_standard_chksum, version 3

    As version 2, with a 32-bit inner loop that adds the carry back. *)

Definition add_carry32 (sum w : Z) : Z :=
  let tmp := u32 (sum + w) in
  if tmp <? sum then u32 (tmp + 1) else tmp.

Fixpoint add_longs (sum : Z) (pl : bytes) : Z * bytes :=
  match pl with
  | b0 :: b1 :: b2 :: b3 :: b4 :: b5 :: b6 :: b7 :: rest =>
      let tmp := add_carry32 sum (le32 b0 b1 b2 b3) in
      let sum := add_carry32 tmp (le32 b4 b5 b6 b7) in
      add_longs sum rest
  | _ => (sum, pl)
  end.

(** One 16-bit word when [ps] is not aligned to four bytes. *)
Definition align_u32 (addr : Z) (ps : bytes) : Z * bytes :=
  match ps with
  | b0 :: b1 :: rest => if nz (Z.land addr 3) then (le16 b0 b1, rest) else (0, ps)
  | _ => (0, ps)
  end.

Definition lwip_standard_chksum_3 (addr : Z) (dataptr : bytes) : Z :=
  let odd := nz (Z.land addr 1) in
  let '(t1, ps) := align_u16 odd dataptr in
  let addr := if odd && (0 <? zlen dataptr) then addr + 1 else addr in
  let '(sum, pl) := align_u32 addr ps in
  let '(sum, ps) := add_longs sum pl in
  let sum := FOLD_U32T sum in
  let '(sum, ps) := add_words sum ps in
  let t0 := leftover ps in
  let sum := u32 (sum + le16 t0 t1) in
  let sum := FOLD_U32T sum in
  let sum := FOLD_U32T sum in
  let sum := if odd then SWAP_BYTES_IN_WORD sum else sum in
  u16 sum.

(** ** The loops *)

Lemma chksum1_loop_sum data : forall acc,
  is_bytes data -> 0 <= acc ->
  acc + 65535 * ((zlen data + 1) / 2) < 4294967296 ->
  exists s, chksum1_loop acc data = acc + s /\ 0 <= s <= 65535 * ((zlen data + 1) / 2) /\
    oc s (256 * le_num data).
Proof.
  induction data as [|x|x y l IH] using list_pair_ind; intros acc Hb Hacc Hlt; simpl.
  - exists 0. split; [lia|]. split; [done|]. by apply oc_refl.
  - inversion_clear Hb as [|? ? Hx _]. change ((zlen [x] + 1) / 2) with 1 in *.
    unfold is_u8 in Hx. autorewrite with bits.
    rewrite u16_id, u32_id by (unfold is_u16, is_u32; lia).
    exists (x * 256). split; [lia|]. split; [lia|]. apply oc_of_eq; lia.
  - inversion_clear Hb as [|? ? Hx Hb']. inversion_clear Hb' as [|? ? Hy Hb].
    pose proof (le_num_nonneg l Hb). pose proof (zlen_nonneg l).
    assert ((zlen (x :: y :: l) + 1) / 2 = (zlen l + 1) / 2 + 1) as E.
    { rewrite !zlen_cons. replace (1 + (1 + zlen l) + 1) with (zlen l + 1 + 1 * 2) by lia.
      by rewrite Z.div_add. }
    rewrite E in *. unfold is_u8 in *. autorewrite with bits.
    pose proof (Z.div_pos (zlen l + 1) 2 ltac:(lia) ltac:(lia)).
    rewrite u16_id by (unfold is_u16; lia).
    pose proof (lor_add x y 8 ltac:(lia) ltac:(lia)) as El. change (2 ^ 8) with 256 in El.
    rewrite El, u32_id by (unfold is_u32; lia).
    destruct (IH (acc + (x * 256 + y)) Hb ltac:(lia) ltac:(lia)) as (s & -> & Hs & Ho).
    exists (x * 256 + y + s). split; [lia|]. split; [lia|].
    replace (256 * (x + 256 * (y + 256 * le_num l)))
      with ((x * 256 + 65536 * y) + 65536 * (256 * le_num l)) by lia.
    apply oc_add.
    + symmetry. apply oc_carry_add; lia.
    + etrans; [exact Ho|]. symmetry. apply oc_carry. lia.
Qed.

Lemma add_words_sum ps : forall sum,
  is_bytes ps -> 0 <= sum ->
  sum + 65535 * (zlen ps / 2) < 4294967296 ->
  exists s r, add_words sum ps = (s, r) /\
    s + leftover r = sum + word_sum ps /\
    0 <= leftover r <= 255 * (zlen ps mod 2) /\
    sum <= s <= sum + 65535 * (zlen ps / 2).
Proof.
  induction ps as [|x|x y l IH] using list_pair_ind; intros sum Hb Hs Hlt; simpl.
  - exists sum, []. change (zlen [] / 2) with 0. change (zlen [] mod 2) with 0.
    simpl. repeat split; lia.
  - inversion_clear Hb as [|? ? Hx _]. unfold is_u8 in Hx. exists sum, [x].
    change (zlen [x]) with 1. change (1 mod 2) with 1. change (1 / 2) with 0.
    simpl. repeat split; lia.
  - inversion_clear Hb as [|? ? Hx Hb']. inversion_clear Hb' as [|? ? Hy Hb].
    pose proof (zlen_nonneg l).
    assert (zlen (x :: y :: l) = zlen l + 1 * 2) as E by (rewrite !zlen_cons; lia).
    rewrite E, Z.div_add, Z.mod_add in * by lia.
    pose proof (Z.div_pos (zlen l) 2 ltac:(lia) ltac:(lia)).
    unfold is_u8 in *. unfold le16.
    rewrite u32_id by (unfold is_u32; lia).
    destruct (IH (sum + (x + 256 * y)) Hb ltac:(lia) ltac:(lia)) as (s & r & -> & ? & ? & ?).
    exists s, r. repeat split; lia.
Qed.

Lemma add_carry32_oc sum w :
  is_u32 sum -> is_u32 w -> oc (add_carry32 sum w) (sum + w) /\ is_u32 (add_carry32 sum w).
Proof.
  unfold is_u32, add_carry32. intros Hs Hw.
  assert (u32 (sum + w) = if sum + w <? 4294967296 then sum + w else sum + w - 4294967296) as E.
  { unfold u32. change (2 ^ 32) with 4294967296.
    destruct (Z.ltb_spec (sum + w) 4294967296); Z.div_mod_to_equations; lia. }
  rewrite E. destruct (Z.ltb_spec (sum + w) 4294967296) as [Hlt|Hge].
  - assert ((sum + w <? sum) = false) as -> by lia. split; [|lia]. apply oc_refl. lia.
  - assert ((sum + w - 4294967296 <? sum) = true) as -> by lia.
    rewrite u32_id by (unfold is_u32; lia). split; [|lia].
    unfold oc. repeat split; try lia.
    replace (sum + w) with (sum + w - 4294967296 + 1 + 65537 * 65535) at 2 by lia.
    by rewrite Z.mod_add.
Qed.

Lemma le32_u32 b0 b1 b2 b3 :
  is_u8 b0 -> is_u8 b1 -> is_u8 b2 -> is_u8 b3 -> is_u32 (le32 b0 b1 b2 b3).
Proof. unfold is_u8, is_u32, le32. lia. Qed.

Lemma add_longs_spec data : forall sum,
  is_bytes data -> is_u32 sum ->
  exists s r, add_longs sum data = (s, r) /\ is_u32 s /\ is_bytes r /\ (length r < 8)%nat /\
    zlen r mod 2 = zlen data mod 2 /\
    oc (s + le_num r) (sum + le_num data).
Proof.
  induction data as [data IH] using list_len_ind. intros sum Hb Hs.
  destruct data as [|b0 [|b1 [|b2 [|b3 [|b4 [|b5 [|b6 [|b7 rest]]]]]]]].
  1-8: eexists sum, _; split; [reflexivity|]; do 2 (split; [done|]);
       split; [simpl; lia|]; split; [done|]; apply oc_refl, Z.add_nonneg_nonneg;
       [apply Hs|by apply le_num_nonneg].
  cbn [add_longs].
  rewrite !is_bytes_cons in Hb.
  destruct Hb as (H0 & H1 & H2 & H3 & H4 & H5 & H6 & H7 & Hb).
  destruct (add_carry32_oc sum (le32 b0 b1 b2 b3)) as [Ho1 Hu1]; [done|by apply le32_u32|].
  set (tmp := add_carry32 sum (le32 b0 b1 b2 b3)) in *.
  destruct (add_carry32_oc tmp (le32 b4 b5 b6 b7)) as [Ho2 Hu2]; [done|by apply le32_u32|].
  destruct (IH rest ltac:(simpl; lia) (add_carry32 tmp (le32 b4 b5 b6 b7)) Hb Hu2)
    as (s & r & -> & Hsu & Hr & Hlr & Hpar & Ho).
  exists s, r. split; [done|]. split; [done|]. split; [done|]. split; [done|].
  pose proof (le_num_nonneg rest Hb) as Hn.
  pose proof (le32_u32 _ _ _ _ H0 H1 H2 H3). pose proof (le32_u32 _ _ _ _ H4 H5 H6 H7).
  split.
  { rewrite Hpar. rewrite !zlen_cons.
    replace (1 + (1 + (1 + (1 + (1 + (1 + (1 + (1 + zlen rest))))))))
      with (zlen rest + 4 * 2) by lia. by rewrite Z.mod_add. }
  etrans; [exact Ho|].
  assert (oc (add_carry32 tmp (le32 b4 b5 b6 b7))
             (sum + le32 b0 b1 b2 b3 + le32 b4 b5 b6 b7)) as Ho3.
  { etrans; [exact Ho2|]. apply oc_add; [exact Ho1|]. apply oc_refl. unfold is_u32 in *. lia. }
  etrans; [apply oc_add; [exact Ho3|apply oc_refl, Hn]|].
  unfold is_u32 in *. symmetry.
  apply (oc_intro (65537 * le32 b4 b5 b6 b7 + 281479271743489 * le_num rest));
    simpl le_num; unfold le32, is_u8 in *; lia.
Qed.

(** ** The three versions compute the ones' complement sum *)

Lemma align_u16_spec odd data t1 pb :
  align_u16 odd data = (t1, pb) -> is_bytes data ->
  is_bytes pb /\ is_u8 t1 /\
  (zlen pb = zlen data /\ t1 = 0 \/ odd = true /\ zlen data = 1 + zlen pb) /\
  oc ((if odd then 256 else 1) * (256 * t1 + le_num pb)) (le_num data).
Proof.
  intros E Hb. pose proof (le_num_nonneg data Hb).
  destruct odd, data as [|b rest]; simpl in E; injection E as <- <-.
  1, 3, 4: (split; [done|]; split; [unfold is_u8; lia|]; split; [by left|];
            apply oc_of_eq; simpl; simpl in *; lia).
  rewrite is_bytes_cons in Hb. destruct Hb as [Hb Hr].
  pose proof (le_num_nonneg rest Hr). unfold is_u8 in *.
  split; [done|]. split; [done|]. split; [right; by rewrite zlen_cons|].
  simpl. replace (256 * (256 * b + le_num rest)) with (256 * le_num rest + 65536 * b) by lia.
  etrans; [apply oc_carry_add; lia|]. apply oc_of_eq; lia.
Qed.

(** The folds, the swap and the cast that end versions 2 and 3. *)
Lemma finish_spec (odd : bool) s data :
  is_u32 s -> is_bytes data ->
  oc ((if odd then 256 else 1) * s) (le_num data) ->
  u16 (if odd then SWAP_BYTES_IN_WORD (FOLD_U32T (FOLD_U32T s))
       else FOLD_U32T (FOLD_U32T s)) = oc_sum data.
Proof.
  intros Hs Hb Ho. destruct (fold_twice s Hs) as [Hf Hu].
  unfold oc_sum. rewrite <- (oc_canon_proper _ _ (le_num_word_sum data Hb)).
  destruct odd.
  - rewrite u16_id by apply swap_bytes_u16.
    apply oc_canon_eq; [apply swap_bytes_u16|].
    etrans; [by apply swap_oc|]. etrans; [|exact Ho]. by apply oc_mul.
  - rewrite u16_id by done. apply oc_canon_eq; [done|].
    etrans; [exact Hf|]. etrans; [|exact Ho]. apply oc_of_eq; [|lia]. apply Hf.
Qed.

Lemma chksum_2_spec addr data :
  is_bytes data -> zlen data <= 0x20000 ->
  lwip_standard_chksum_2 addr data = oc_sum data.
Proof.
  intros Hb Hl. unfold lwip_standard_chksum_2.
  set (odd := nz (Z.land addr 1)).
  destruct (align_u16 odd data) as [t1 pb] eqn:E.
  destruct (align_u16_spec _ _ _ _ E Hb) as (Hpb & Ht & Hlen & Ho).
  pose proof (zlen_nonneg pb). unfold is_u8 in Ht.
  destruct (add_words_sum pb 0 Hpb ltac:(lia)) as (s & r & -> & Hs & Hr & Hb');
    [Z.div_mod_to_equations; lia|].
  pose proof (word_sum_bounds pb Hpb) as Hw.
  assert (is_u32 (s + le16 (leftover r) t1)) as Hu.
  { unfold is_u32, le16. Z.div_mod_to_equations. lia. }
  rewrite u32_id by done.
  apply finish_spec; [done|done|].
  etrans; [|exact Ho]. apply oc_mul; [destruct odd; lia|].
  replace (s + le16 (leftover r) t1) with (256 * t1 + word_sum pb) by (unfold le16; lia).
  apply oc_add; [apply oc_refl; lia|]. symmetry. by apply le_num_word_sum.
Qed.

Lemma chksum_1_spec data :
  is_bytes data -> zlen data <= 0xffff -> lwip_standard_chksum_1 data = oc_sum data.
Proof.
  intros Hb Hl. unfold lwip_standard_chksum_1.
  pose proof (zlen_nonneg data).
  destruct (chksum1_loop_sum data 0 Hb ltac:(lia)) as (s & -> & Hs & Ho);
    [Z.div_mod_to_equations; lia|].
  change (0 + s) with s.
  assert (is_u32 s) as Hu by (unfold is_u32; Z.div_mod_to_equations; lia).
  fold (FOLD_U32T s). fold (FOLD_U32T (FOLD_U32T s)).
  destruct (fold_oc s Hu) as [Hf Hfb].
  set (acc := FOLD_U32T s) in *.
  assert (is_u16 (if nz (Z.land acc 0xffff0000) then FOLD_U32T acc else acc) /\
          oc (if nz (Z.land acc 0xffff0000) then FOLD_U32T acc else acc) s) as [H16 Hoc].
  { pose proof (land_lane acc 16 16 ltac:(lia) ltac:(lia)) as El.
    change ((2 ^ 16 - 1) * 2 ^ 16) with 0xffff0000 in El. rewrite El.
    change (2 ^ 16) with 65536 in *.
    destruct (nz _) eqn:En; unfold nz in En.
    - split; [by apply fold_u16|]. etrans; [|exact Hf]. apply fold_oc. unfold is_u32; lia.
    - split; [|exact Hf]. unfold is_u16. Z.div_mod_to_equations. lia. }
  set (a := if nz _ then _ else _) in *.
  rewrite u16_id, htons_swap by done.
  unfold oc_sum. rewrite <- (oc_canon_proper _ _ (le_num_word_sum data Hb)).
  apply oc_canon_eq; [apply swap_bytes_u16|].
  pose proof (le_num_nonneg data Hb).
  etrans; [by apply swap_oc|]. etrans; [apply oc_mul; [lia|etrans; [exact Hoc|exact Ho]]|].
  replace (256 * (256 * le_num data)) with (65536 * le_num data) by lia. by apply oc_carry.
Qed.

Lemma align_u32_spec addr ps s pl :
  align_u32 addr ps = (s, pl) -> is_bytes ps ->
  is_u16 s /\ is_bytes pl /\ zlen pl mod 2 = zlen ps mod 2 /\ oc (s + le_num pl) (le_num ps).
Proof.
  intros E Hb. pose proof (le_num_nonneg ps Hb).
  assert (s = 0 /\ pl = ps \/
          exists b0 b1, ps = b0 :: b1 :: pl /\ s = le16 b0 b1) as Hc.
  { destruct ps as [|b0 [|b1 rest]]; cbn in E; [left; by injection E as <- <-..|].
    destruct (nz (Z.land addr 3)); injection E as <- <-; eauto. }
  destruct Hc as [[-> ->]|(b0 & b1 & -> & ->)].
  - split; [unfold is_u16; lia|]. split; [done|]. split; [done|]. apply oc_of_eq; lia.
  - rewrite !is_bytes_cons in Hb. destruct Hb as (H0 & H1 & Hb).
    pose proof (le_num_nonneg pl Hb).
    split; [unfold is_u16, le16, is_u8 in *; lia|]. split; [done|].
    split; [rewrite !zlen_cons; Z.div_mod_to_equations; lia|].
    unfold is_u8 in *. symmetry.
    apply (oc_intro (le_num pl)); simpl; unfold le16; lia.
Qed.

Lemma chksum_3_spec addr data :
  is_bytes data -> lwip_standard_chksum_3 addr data = oc_sum data.
Proof.
  intros Hb. unfold lwip_standard_chksum_3.
  set (odd := nz (Z.land addr 1)).
  destruct (align_u16 odd data) as [t1 ps] eqn:E.
  destruct (align_u16_spec _ _ _ _ E Hb) as (Hps & Ht & _ & Ho). unfold is_u8 in Ht.
  destruct (align_u32 _ ps) as [s0 pl] eqn:E2.
  destruct (align_u32_spec _ _ _ _ E2 Hps) as (Hs0 & Hpl & _ & Ho2).
  destruct (add_longs_spec pl s0 Hpl) as (s & r & -> & Hsu & Hr & Hrl & _ & Ho3);
    [unfold is_u32, is_u16 in *; lia|].
  destruct (fold_oc s Hsu) as [Hf Hfb].
  destruct (add_words_sum r (FOLD_U32T s) Hr ltac:(lia)) as (s' & r' & -> & Hs' & Hr' & Hb');
    [unfold zlen; Z.div_mod_to_equations; lia|].
  pose proof (word_sum_bounds r Hr) as Hw.
  rewrite u32_id by (unfold is_u32, le16, zlen in *; Z.div_mod_to_equations; lia).
  apply finish_spec; [unfold is_u32, le16, zlen in *; Z.div_mod_to_equations; lia|done|].
  etrans; [|exact Ho]. apply oc_mul; [destruct odd; lia|].
  replace (s' + le16 (leftover r') t1) with (256 * t1 + (FOLD_U32T s + word_sum r))
    by (unfold le16; lia).
  apply oc_add; [apply oc_refl; lia|].
  etrans; [|exact Ho2]. etrans; [|exact Ho3].
  apply oc_add; [done|]. symmetry. by apply le_num_word_sum.
Qed.

(** ** LWIP_CHKSUM: the algorithm the build selects

    Every caller goes through the macro LWIP_CHKSUM, which a port may redefine;
    the class states what the callers rely on. *)

Class LwipChksum := {
  LWIP_CHKSUM : Z -> bytes -> Z;
  LWIP_CHKSUM_sum : forall addr data,
    is_bytes data -> zlen data <= 0xffff -> LWIP_CHKSUM addr data = oc_sum data
}.

(** LWIP_CHKSUM_ALGORITHM = 1, 2 (the default) and 3. *)
#[export] Instance chksum_algorithm_1 : LwipChksum | 2 :=
  {| LWIP_CHKSUM := fun _ data => lwip_standard_chksum_1 data;
     LWIP_CHKSUM_sum := fun _ data Hb Hl => chksum_1_spec data Hb Hl |}.

#[export] Instance chksum_algorithm_3 : LwipChksum | 2 :=
  {| LWIP_CHKSUM := lwip_standard_chksum_3;
     LWIP_CHKSUM_sum := fun addr data Hb _ => chksum_3_spec addr data Hb |}.

#[export] Instance chksum_algorithm_2 : LwipChksum | 1.
Proof.
  refine {| LWIP_CHKSUM := lwip_standard_chksum_2 |}.
  intros addr data Hb Hl. apply chksum_2_spec; [done|lia].
Defined.

(** A pbuf chain: the payload buffer (address and the q->len bytes there) of
    each pbuf. *)
Abbreviation chain := (list (Z * bytes)).

Definition chain_bytes (q : chain) : bytes := concat (map snd q).

Section Checksums.
  Context {C : LwipChksum}.

Definition inet_chksum (addr : Z) (data : bytes) : Z :=
  not16 (LWIP_CHKSUM addr data).

(** The loop shared by inet_chksum_pbuf and inet_chksum_pseudo. *)
Fixpoint chksum_chain (acc swapped : Z) (q : chain) : Z * Z :=
  match q with
  | [] => (acc, swapped)
  | (payload, data) :: next =>
      let acc := u32 (acc + LWIP_CHKSUM payload data) in
      let acc := FOLD_U32T acc in
      if negb (zlen data mod 2 =? 0)
      then chksum_chain (SWAP_BYTES_IN_WORD acc) (u8 (1 - swapped)) next
      else chksum_chain acc swapped next
  end.

Definition inet_chksum_pbuf (p : chain) : Z :=
  let '(acc, swapped) := chksum_chain 0 0 p in
  let acc := if nz swapped then SWAP_BYTES_IN_WORD acc else acc in
  not16 (Z.land acc 0xffff).

(** The pseudo header added after the chain; [src] and [dest] are in network
    order, that is the little-endian reading of their bytes on the wire. *)
Definition chksum_pseudo_hdr (acc src dest proto proto_len : Z) : Z :=
  let acc := u32 (acc + Z.land src 0xffff) in
  let acc := u32 (acc + Z.land (Z.shiftr src 16) 0xffff) in
  let acc := u32 (acc + Z.land dest 0xffff) in
  let acc := u32 (acc + Z.land (Z.shiftr dest 16) 0xffff) in
  let acc := u32 (acc + lwip_htons (u16 proto)) in
  let acc := u32 (acc + lwip_htons proto_len) in
  let acc := FOLD_U32T acc in
  let acc := FOLD_U32T acc in
  not16 (Z.land acc 0xffff).

Definition inet_chksum_pseudo (p : chain) (src dest proto proto_len : Z) : Z :=
  let '(acc, swapped) := chksum_chain 0 0 p in
  let acc := if nz swapped then SWAP_BYTES_IN_WORD acc else acc in
  chksum_pseudo_hdr acc src dest proto proto_len.

(** The loop of inet_chksum_pseudo_partial, with its LWIP_ASSERT on the number
    of bytes still to do. *)
Fixpoint chksum_chain_partial (acc swapped chksum_len : Z) (q : chain)
    : outcome (Z * Z) :=
  match q with
  | [] => Done (acc, swapped)
  | (payload, data) :: next =>
      if negb (0 <? chksum_len) then Done (acc, swapped) else
      let chklen := if chksum_len <? zlen data then chksum_len else zlen data in
      let acc := u32 (acc + LWIP_CHKSUM payload (slice 0 chklen data)) in
      let chksum_len := u16 (chksum_len - chklen) in
      if negb (chksum_len <? 0x7fff) then Crash AssertFailed else
      let acc := FOLD_U32T acc in
      if negb (zlen data mod 2 =? 0)
      then chksum_chain_partial (SWAP_BYTES_IN_WORD acc) (u8 (1 - swapped)) chksum_len next
      else chksum_chain_partial acc swapped chksum_len next
  end.

Definition inet_chksum_pseudo_partial (p : chain) (src dest proto proto_len chksum_len : Z)
    : outcome Z :=
  match chksum_chain_partial 0 0 chksum_len p with
  | Done (acc, swapped) =>
      let acc := if nz swapped then SWAP_BYTES_IN_WORD acc else acc in
      Done (chksum_pseudo_hdr acc src dest proto proto_len)
  | Crash c => Crash c
  end.

(** lwip_chksum_copy: MEMCPY, then the sum of the copy; [dst] is the memory at
    the destination, the result its new content and the sum. *)
Definition lwip_chksum_copy (dst_addr : Z) (dst src : bytes) (len : Z) : bytes * Z :=
  let dst := slice 0 len src ++ drop (Z.to_nat len) dst in
  (dst, LWIP_CHKSUM dst_addr (slice 0 len dst)).

(** ** The chain loop

    While [swapped] is set the accumulator holds the byte-swapped sum of the
    bytes so far. *)

Definition acc_ok (acc swapped : Z) (done : bytes) : Prop :=
  is_u16 acc /\ swapped = zlen done mod 2 /\
  oc ((if swapped =? 0 then 1 else 256) * acc) (le_num done).

(** One buffer more, before the parity of the buffer is looked at. *)
Lemma acc_sum_step acc swapped done data addr :
  acc_ok acc swapped done -> is_bytes done -> is_bytes data -> zlen data <= 0xffff ->
  let acc' := FOLD_U32T (u32 (acc + LWIP_CHKSUM addr data)) in
  is_u16 acc' /\ oc ((if swapped =? 0 then 1 else 256) * acc') (le_num (done ++ data)).
Proof.
  intros (Ha & Hsw & Ho) Hd Hb Hl acc'.
  pose proof (word_sum_bounds data Hb) as Hw.
  pose proof (oc_canon_u16 (word_sum data) ltac:(lia)) as Hc.
  pose proof (le_num_nonneg data Hb) as Hn. pose proof (le_num_nonneg done Hd) as Hn'.
  assert (Hacc' : is_u16 acc' /\ oc acc' (acc + le_num data)).
  { subst acc'. rewrite LWIP_CHKSUM_sum by done. unfold oc_sum, is_u16 in *.
    rewrite u32_id by (unfold is_u32; lia).
    split; [apply fold_u16; lia|].
    etrans; [apply fold_oc; unfold is_u32; lia|].
    apply oc_add; [apply oc_refl; lia|]. etrans; [apply oc_canon_oc; lia|].
    symmetry. by apply le_num_word_sum. }
  destruct Hacc' as [Hu Ho']. unfold is_u16 in Ha. split; [done|].
  etrans; [apply oc_mul; [destruct (swapped =? 0); lia|exact Ho']|].
  symmetry. etrans; [by apply le_num_app|]. rewrite <- Hsw.
  rewrite Z.mul_add_distr_l. apply oc_add; [by symmetry|].
  apply oc_refl. destruct (swapped =? 0); lia.
Qed.

Lemma acc_ok_step acc swapped done data addr :
  acc_ok acc swapped done -> is_bytes done -> is_bytes data -> zlen data <= 0xffff ->
  let acc' := FOLD_U32T (u32 (acc + LWIP_CHKSUM addr data)) in
  if negb (zlen data mod 2 =? 0)
  then acc_ok (SWAP_BYTES_IN_WORD acc') (u8 (1 - swapped)) (done ++ data)
  else acc_ok acc' swapped (done ++ data).
Proof.
  intros Hok Hd Hb Hl acc'.
  destruct (acc_sum_step _ _ _ _ addr Hok Hd Hb Hl) as [Hu Hall]. fold acc' in Hu, Hall.
  destruct Hok as (_ & Hsw & _).
  assert (swapped = 0 \/ swapped = 1) as Hs01 by (rewrite Hsw; Z.div_mod_to_equations; lia).
  destruct (Z.eqb_spec (zlen data mod 2) 0) as [E|E]; simpl.
  - split; [done|]. split; [|done]. rewrite zlen_app. Z.div_mod_to_equations; lia.
  - split; [apply swap_bytes_u16|].
    assert (u8 (1 - swapped) = 1 - swapped) as Eu by (apply u8_id; unfold is_u8; lia).
    rewrite Eu. split; [rewrite zlen_app; Z.div_mod_to_equations; lia|].
    etrans; [apply oc_mul; [destruct (1 - swapped =? 0); lia|by apply swap_oc]|].
    etrans; [|exact Hall]. unfold is_u16 in Hu.
    destruct Hs01 as [-> | ->]; simpl.
    + replace (256 * (256 * acc')) with (65536 * acc') by lia.
      etrans; [apply oc_carry; lia|]. apply oc_of_eq; lia.
    + apply oc_of_eq; lia.
Qed.

Lemma chksum_chain_ok q : forall acc swapped done,
  acc_ok acc swapped done -> is_bytes done ->
  Forall (fun s => is_bytes s.2 /\ zlen s.2 <= 0xffff) q ->
  let '(acc', swapped') := chksum_chain acc swapped q in
  acc_ok acc' swapped' (done ++ chain_bytes q).
Proof.
  induction q as [|[addr data] q IH]; intros acc swapped done Ha Hd Hq.
  - unfold chain_bytes. simpl. by rewrite app_nil_r.
  - inversion_clear Hq as [|? ? [Hb Hl] Hq'].
    pose proof (acc_ok_step _ _ _ _ addr Ha Hd Hb Hl) as Hst. simpl in Hst |- *.
    replace (done ++ chain_bytes ((addr, data) :: q))
      with ((done ++ data) ++ chain_bytes q) by (unfold chain_bytes; simpl; by rewrite <- app_assoc).
    assert (is_bytes (done ++ data)) by (by apply is_bytes_app).
    destruct (negb _); by apply IH.
Qed.

(** The sum at the end of either loop, swapped back. *)
Lemma acc_ok_final acc swapped data :
  acc_ok acc swapped data -> is_bytes data ->
  let acc' := if nz swapped then SWAP_BYTES_IN_WORD acc else acc in
  is_u16 acc' /\ oc acc' (le_num data).
Proof.
  intros (Ha & Hsw & Ho) Hb. unfold nz. destruct (swapped =? 0); simpl.
  - split; [done|]. etrans; [|exact Ho]. unfold is_u16 in Ha. apply oc_of_eq; lia.
  - split; [apply swap_bytes_u16|]. etrans; [by apply swap_oc|done].
Qed.

Lemma acc_ok_init : acc_ok 0 0 [].
Proof. split; [unfold is_u16; lia|]. split; [done|]. by apply oc_refl. Qed.

Lemma chksum_chain_sum q :
  Forall (fun s => is_bytes s.2 /\ zlen s.2 <= 0xffff) q ->
  let '(acc, swapped) := chksum_chain 0 0 q in
  let acc' := if nz swapped then SWAP_BYTES_IN_WORD acc else acc in
  acc' = oc_sum (chain_bytes q).
Proof.
  intros Hq. pose proof (chksum_chain_ok q 0 0 [] acc_ok_init (Forall_nil_2 _) Hq) as H.
  assert (is_bytes (chain_bytes q)) as Hb.
  { unfold chain_bytes. clear H. induction Hq as [|[a d] q [Hd _] _ IH]; simpl; [constructor|].
    by apply is_bytes_app. }
  destruct (chksum_chain 0 0 q) as [acc swapped]. simpl in H.
  destruct (acc_ok_final _ _ _ H Hb) as [Hu Ho]. simpl.
  unfold oc_sum. apply oc_canon_eq; [done|]. etrans; [exact Ho|]. by apply le_num_word_sum.
Qed.

(** Swapping back at the end does not depend on whether the last buffer toggled
    the flag: toggling swaps the accumulator too. *)
Lemma swap_toggle acc swapped :
  is_u16 acc -> swapped = 0 \/ swapped = 1 ->
  (if nz (u8 (1 - swapped)) then SWAP_BYTES_IN_WORD (SWAP_BYTES_IN_WORD acc)
   else SWAP_BYTES_IN_WORD acc)
  = (if nz swapped then SWAP_BYTES_IN_WORD acc else acc).
Proof.
  intros Ha [-> | ->]; [|done]. change (nz (u8 (1 - 0))) with true.
  change (nz 0) with false. cbv iota.
  apply u16_bytes in Ha as (b0 & b1 & ? & ? & ->). by rewrite !swap_bytes_le16.
Qed.

Lemma acc_ok_sum acc swapped done :
  acc_ok acc swapped done -> is_bytes done ->
  (if nz swapped then SWAP_BYTES_IN_WORD acc else acc) = oc_sum done.
Proof.
  intros Ha Hd. destruct (acc_ok_final _ _ _ Ha Hd) as [Hu Ho].
  apply oc_canon_eq; [done|]. etrans; [exact Ho|]. by apply le_num_word_sum.
Qed.

Lemma chksum_chain_partial_0 acc swapped q :
  chksum_chain_partial acc swapped 0 q = Done (acc, swapped).
Proof. by destruct q as [|[]]. Qed.

(** One round of the loop: the buffer is summed whole, cut (and the loop ends),
    or too many bytes are left for the assertion. *)
Lemma chksum_partial_round acc swapped done n addr data q :
  acc_ok acc swapped done -> is_bytes done -> is_bytes data -> zlen data <= 0xffff ->
  0 < n <= 0xffff ->
  (zlen data <= n -> n - zlen data < 0x7fff -> exists acc' swapped',
     chksum_chain_partial acc swapped n ((addr, data) :: q)
       = chksum_chain_partial acc' swapped' (n - zlen data) q /\
     acc_ok acc' swapped' (done ++ data)) /\
  (n < zlen data -> exists acc' swapped',
     chksum_chain_partial acc swapped n ((addr, data) :: q) = Done (acc', swapped') /\
     (if nz swapped' then SWAP_BYTES_IN_WORD acc' else acc')
       = oc_sum (done ++ slice 0 n data)) /\
  (0x7fff <= n - zlen data ->
     chksum_chain_partial acc swapped n ((addr, data) :: q) = Crash AssertFailed).
Proof.
  intros Ha Hd Hb Hl Hn. pose proof (zlen_nonneg data) as Hnn. cbn [chksum_chain_partial].
  assert ((0 <? n) = true) as -> by lia. cbn [negb].
  split; [|split].
  - intros Hge Hlt. assert ((n <? zlen data) = false) as -> by lia.
    rewrite slice_all. rewrite (u16_id (n - zlen data)) by (unfold is_u16; lia).
    assert ((n - zlen data <? 0x7fff) = true) as -> by lia. cbn [negb].
    pose proof (acc_ok_step _ _ _ _ addr Ha Hd Hb Hl) as Hst. cbv zeta in Hst.
    destruct (negb (zlen data mod 2 =? 0)); eauto.
  - intros Hlt. assert ((n <? zlen data) = true) as -> by lia.
    rewrite Z.sub_diag. change (u16 0) with 0. cbn [negb Z.ltb Z.compare].
    assert (is_bytes (slice 0 n data)) as Hb' by auto.
    assert (zlen (slice 0 n data) = n) as Hl' by (apply zlen_slice; lia).
    destruct (acc_sum_step acc swapped done (slice 0 n data) addr) as [Hu Ho]; [done..|lia|].
    set (acc' := FOLD_U32T _) in *.
    assert ((if nz swapped then SWAP_BYTES_IN_WORD acc' else acc')
            = oc_sum (done ++ slice 0 n data)) as Hfin.
    { assert (is_bytes (done ++ slice 0 n data)) by (by apply is_bytes_app).
      unfold nz. destruct (swapped =? 0); cbn [negb].
      - apply oc_canon_eq; [done|]. etrans; [|by apply le_num_word_sum].
        etrans; [|exact Ho]. unfold is_u16 in Hu. apply oc_of_eq; lia.
      - apply oc_canon_eq; [apply swap_bytes_u16|]. etrans; [|by apply le_num_word_sum].
        etrans; [by apply swap_oc|done]. }
    assert (swapped = 0 \/ swapped = 1) as Hs01.
    { destruct Ha as (_ & -> & _). Z.div_mod_to_equations; lia. }
    destruct (negb (zlen data mod 2 =? 0)); rewrite chksum_chain_partial_0.
    + eexists _, _. split; [reflexivity|]. by rewrite swap_toggle.
    + eexists _, _. by split.
  - intros Hge. assert ((n <? zlen data) = false) as -> by lia.
    rewrite (u16_id (n - zlen data)) by (unfold is_u16; lia).
    by assert ((n - zlen data <? 0x7fff) = false) as -> by lia.
Qed.

Lemma chksum_chain_partial_ok q : forall acc swapped done n,
  acc_ok acc swapped done -> is_bytes done ->
  Forall (fun s => is_bytes s.2 /\ zlen s.2 <= 0xffff) q ->
  0 <= n < 0x7fff ->
  exists acc' swapped',
    chksum_chain_partial acc swapped n q = Done (acc', swapped') /\
    (if nz swapped' then SWAP_BYTES_IN_WORD acc' else acc')
      = oc_sum (done ++ slice 0 n (chain_bytes q)).
Proof.
  induction q as [|[addr data] q IH]; intros acc swapped done n Ha Hd Hq Hn.
  { eexists _, _. split; [reflexivity|]. unfold chain_bytes. simpl.
    rewrite slice_nil, app_nil_r. by apply acc_ok_sum. }
  destruct (Z.eq_dec n 0) as [->|Hn0].
  { eexists _, _. rewrite chksum_chain_partial_0. split; [reflexivity|].
    rewrite slice_0, app_nil_r. by apply acc_ok_sum. }
  inversion_clear Hq as [|? ? [Hb Hl] Hq']. simpl in Hb, Hl.
  pose proof (zlen_nonneg data).
  destruct (chksum_partial_round acc swapped done n addr data q) as (Hwhole & Hcut & _);
    [done..|lia|].
  change (chain_bytes ((addr, data) :: q)) with (data ++ chain_bytes q).
  destruct (Z.le_gt_cases (zlen data) n) as [Hge|Hlt].
  - destruct (Hwhole Hge ltac:(lia)) as (acc' & sw' & -> & Ha').
    rewrite slice_app_ge, app_assoc by done.
    apply IH; [done| |done|lia]. by apply is_bytes_app.
  - rewrite slice_app_le by lia. apply Hcut. lia.
Qed.

(** ** The pseudo header *)

(** The bytes of the pseudo header on the wire, the addresses as the little
    endian words the structures hold. *)
Definition u32_wire (a : Z) : bytes :=
  [a mod 256; (a / 256) mod 256; (a / 65536) mod 256; (a / 16777216) mod 256].

Definition pseudo_hdr (src dest proto proto_len : Z) : bytes :=
  u32_wire src ++ u32_wire dest ++ [0; proto; proto_len / 256; proto_len mod 256].

Lemma u32_wire_bytes a : is_bytes (u32_wire a).
Proof.
  unfold u32_wire, is_bytes. repeat (apply Forall_cons_2; [apply mod256_u8|]).
  apply Forall_nil_2.
Qed.

Lemma pseudo_hdr_bytes src dest proto len :
  is_u8 proto -> is_u16 len -> is_bytes (pseudo_hdr src dest proto len).
Proof.
  intros Hp Hl. unfold pseudo_hdr. rewrite !is_bytes_app.
  split; [apply u32_wire_bytes|]. split; [apply u32_wire_bytes|].
  rewrite !is_bytes_cons. split; [unfold is_u8; lia|]. split; [done|].
  split; [|split; [apply mod256_u8|constructor]].
  unfold is_u8, is_u16 in *. Z.div_mod_to_equations. lia.
Qed.

Lemma chksum_pseudo_hdr_spec acc src dest proto len data :
  is_u32 src -> is_u32 dest -> is_u8 proto -> is_u16 len -> is_bytes data ->
  acc = oc_sum data ->
  chksum_pseudo_hdr acc src dest proto len
  = not16 (oc_sum (pseudo_hdr src dest proto len ++ data)).
Proof.
  intros Hs Hd Hp Hl Hb Hacc. pose proof (word_sum_bounds data Hb) as Hw.
  assert (is_u16 acc) as Hau by (subst; apply oc_canon_u16; lia).
  unfold chksum_pseudo_hdr. autorewrite with bits.
  assert (u16 proto = proto) as -> by (apply u16_id; unfold is_u16, is_u8 in *; lia).
  rewrite !htons_arith.
  unfold is_u8, is_u16, is_u32 in *.
  pose proof (Z.mod_pos_bound src 65536 ltac:(lia)).
  pose proof (Z.mod_pos_bound (src / 65536) 65536 ltac:(lia)).
  pose proof (Z.mod_pos_bound dest 65536 ltac:(lia)).
  pose proof (Z.mod_pos_bound (dest / 65536) 65536 ltac:(lia)).
  assert (256 * (proto mod 256) + (proto / 256) mod 256 = 256 * proto) as ->
    by (Z.div_mod_to_equations; lia).
  assert (256 * (len mod 256) + (len / 256) mod 256 = 256 * (len mod 256) + len / 256) as ->
    by (Z.div_mod_to_equations; lia).
  assert (0 <= 256 * (len mod 256) + len / 256 < 65536) by (Z.div_mod_to_equations; lia).
  assert (word_sum (pseudo_hdr src dest proto len)
          = src mod 65536 + (src / 65536) mod 65536 + dest mod 65536
            + (dest / 65536) mod 65536 + 256 * proto
            + (256 * (len mod 256) + len / 256)) as Eh.
  { unfold pseudo_hdr, u32_wire. simpl. unfold le16. clear -Hs Hd Hp Hl.
    Z.div_mod_to_equations. lia. }
  set (s0 := src mod 65536) in *. set (s1 := (src / 65536) mod 65536) in *.
  set (d0 := dest mod 65536) in *. set (d1 := (dest / 65536) mod 65536) in *.
  set (pl := 256 * (len mod 256) + len / 256) in *.
  rewrite (u32_id (acc + s0)), (u32_id (acc + s0 + s1)), (u32_id (acc + s0 + s1 + d0)),
    (u32_id (acc + s0 + s1 + d0 + d1)), (u32_id (acc + s0 + s1 + d0 + d1 + 256 * proto)),
    (u32_id (acc + s0 + s1 + d0 + d1 + 256 * proto + pl))
    by (unfold is_u32; lia).
  set (t := acc + s0 + s1 + d0 + d1 + 256 * proto + pl).
  assert (word_sum (pseudo_hdr src dest proto len ++ data)
          = (t - acc) + word_sum data) as E.
  { transitivity (word_sum (pseudo_hdr src dest proto len) + word_sum data); [|lia].
    unfold pseudo_hdr, u32_wire. simpl. lia. }
  assert (is_u32 t /\ acc <= t) as [Ht Hat].
  { subst t. unfold is_u32. lia. }
  destruct (fold_twice t Ht) as [Hf Hu].
  rewrite Z.mod_small by done. f_equal. unfold oc_sum. rewrite E.
  apply oc_canon_eq; [done|]. etrans; [exact Hf|].
  unfold is_u32 in Ht. transitivity ((t - acc) + acc); [apply oc_of_eq; lia|].
  apply oc_add; [apply oc_refl; lia|]. subst acc. apply oc_canon_oc. lia.
Qed.

(** ** Properties *)

Lemma chain_bytes_ok q :
  Forall (fun s => is_bytes s.2 /\ zlen s.2 <= 0xffff) q -> is_bytes (chain_bytes q).
Proof.
  unfold chain_bytes. induction 1 as [|[a d] q [Hd _] _ IH]; simpl; [constructor|].
  by apply is_bytes_app.
Qed.

Lemma chksum_pbuf_sum (q : chain) :
  Forall (fun s => is_bytes s.2 /\ zlen s.2 <= 0xffff) q -> inet_chksum_pbuf q = not16 (oc_sum (chain_bytes q)).
Proof.
  intros Hq. pose proof (chksum_chain_sum q Hq) as H. pose proof (chain_bytes_ok q Hq) as Hb.
  pose proof (word_sum_bounds _ Hb) as Hw. pose proof (oc_canon_u16 (word_sum (chain_bytes q)) ltac:(lia)) as Hu.
  unfold inet_chksum_pbuf. destruct (chksum_chain 0 0 q) as [acc sw]. cbv zeta in H.
  rewrite H, land_ffff. by rewrite Z.mod_small.
Qed.

(** Inet_chksum_pbuf over a chain is the checksum of the concatenated
    payloads: where the chain is cut, the parity of the pieces and the alignment
    of their buffers do not matter. *)
Theorem inet_chksum_pbuf_concat (q : chain) :
  Forall (fun s => is_bytes s.2 /\ zlen s.2 <= 0xffff) q ->
  inet_chksum_pbuf q = not16 (oc_sum (chain_bytes q)) /\
  (zlen (chain_bytes q) <= 0xffff ->
   forall addr, inet_chksum_pbuf q = inet_chksum addr (chain_bytes q)).
Proof.
  intros Hq. pose proof (chain_bytes_ok q Hq) as Hb. pose proof (chksum_pbuf_sum q Hq) as E.
  split; [done|]. intros Hl addr. rewrite E. unfold inet_chksum.
  by rewrite LWIP_CHKSUM_sum.
Qed.

(** Inet_chksum_pseudo is the checksum of the pseudo header of RFC 768/793
    (addresses, zero, protocol, length, as bytes on the wire) followed by the
    payloads of the chain. *)
Theorem inet_chksum_pseudo_wire (q : chain) src dest proto len :
  Forall (fun s => is_bytes s.2 /\ zlen s.2 <= 0xffff) q ->
  is_u32 src -> is_u32 dest -> is_u8 proto -> is_u16 len ->
  inet_chksum_pseudo q src dest proto len
  = not16 (oc_sum (pseudo_hdr src dest proto len ++ chain_bytes q)).
Proof.
  intros Hq Hs Hd Hp Hl. pose proof (chksum_chain_sum q Hq) as H.
  unfold inet_chksum_pseudo. destruct (chksum_chain 0 0 q) as [acc sw]. cbv zeta in H.
  apply chksum_pseudo_hdr_spec; try done. by apply chain_bytes_ok.
Qed.

(** Inet_chksum_pseudo_partial covers exactly the first chksum_len bytes of
    the chain, whatever the parity of the pbuf it stops in; but it aborts, on
    the assertion labelled delete me, as soon as the first pbuf leaves 0x7fff
    bytes or more to sum. *)
Theorem inet_chksum_pseudo_partial_covers addr data (q : chain) src dest proto len n :
  Forall (fun s => is_bytes s.2 /\ zlen s.2 <= 0xffff) ((addr, data) :: q) ->
  is_u32 src -> is_u32 dest -> is_u8 proto -> is_u16 len -> 0 < n <= 0xffff ->
  inet_chksum_pseudo_partial ((addr, data) :: q) src dest proto len n
  = if n - zlen data <? 0x7fff
    then Done (not16 (oc_sum (pseudo_hdr src dest proto len
                              ++ slice 0 n (chain_bytes ((addr, data) :: q)))))
    else Crash AssertFailed.
Proof.
  intros Hq Hs Hd Hp Hl Hn. pose proof (chain_bytes_ok _ Hq) as Hb.
  pose proof Hq as Hq0. inversion_clear Hq0 as [|? ? [Hdb Hdl] Hq']. simpl in Hdb, Hdl.
  destruct (chksum_partial_round 0 0 [] n addr data q acc_ok_init)
    as (Hwhole & Hcut & Hcrash); [constructor|done..|].
  unfold inet_chksum_pseudo_partial.
  assert (forall bs, is_bytes (slice 0 n bs) -> forall acc sw,
    (if nz sw then SWAP_BYTES_IN_WORD acc else acc) = oc_sum (slice 0 n bs) ->
    Done (chksum_pseudo_hdr (if nz sw then SWAP_BYTES_IN_WORD acc else acc) src dest proto len)
    = Done (not16 (oc_sum (pseudo_hdr src dest proto len ++ slice 0 n bs)))) as Hfin.
  { intros bs Hbs acc sw E. f_equal. by apply chksum_pseudo_hdr_spec. }
  destruct (Z.ltb_spec (n - zlen data) 0x7fff) as [Hlt|Hge].
  2: { by rewrite Hcrash. }
  destruct (Z.le_gt_cases (zlen data) n) as [Hle|Hgt].
  - destruct (Hwhole Hle Hlt) as (acc & sw & -> & Hacc).
    destruct (chksum_chain_partial_ok q acc sw data (n - zlen data) Hacc Hdb Hq' ltac:(lia))
      as (acc' & sw' & -> & E).
    apply Hfin; [auto|]. rewrite E.
    change (chain_bytes ((addr, data) :: q)) with (data ++ chain_bytes q).
    by rewrite slice_app_ge.
  - destruct (Hcut Hgt) as (acc & sw & -> & E). apply Hfin; [auto|]. rewrite E.
    change (chain_bytes ((addr, data) :: q)) with (data ++ chain_bytes q).
    by rewrite slice_app_le by lia.
Qed.

(** A buffer whose checksum field, at an even offset, was filled with the
    inet_chksum of the buffer with a zero field has inet_chksum 0: what
    ip_output writes, ip_input accepts. *)
Theorem inet_chksum_verifies addr addr' pre post :
  is_bytes pre -> is_bytes post -> zlen pre mod 2 = 0 ->
  zlen (pre ++ 0 :: 0 :: post) <= 0xffff ->
  let sum := inet_chksum addr (pre ++ 0 :: 0 :: post) in
  inet_chksum addr' (pre ++ sum mod 256 :: sum / 256 :: post) = 0.
Proof.
  intros Hpre Hpost Hev Hl sum.
  assert (is_bytes (pre ++ 0 :: 0 :: post)) as Hb0.
  { rewrite is_bytes_app, !is_bytes_cons. unfold is_u8. repeat split; try done; lia. }
  pose proof (word_sum_bounds _ Hb0) as Hw.
  assert (forall x y, word_sum (pre ++ x :: y :: post) = le16 x y + word_sum (pre ++ post)) as Hins.
  { intros x y. clear -Hev. induction pre as [|a|a b l IH] using list_pair_ind; [done|done|].
    simpl. rewrite IH; [lia|]. rewrite !zlen_cons in Hev. Z.div_mod_to_equations; lia. }
  pose proof (oc_canon_u16 (word_sum (pre ++ 0 :: 0 :: post)) ltac:(lia)) as Hu.
  assert (sum = 65535 - oc_sum (pre ++ 0 :: 0 :: post)) as Es.
  { subst sum. unfold inet_chksum. rewrite LWIP_CHKSUM_sum by done. by apply not16_sub. }
  unfold oc_sum in Es. rewrite Hins in Es, Hu, Hw. change (le16 0 0) with 0 in *.
  set (w := word_sum (pre ++ post)) in *. unfold is_u16 in Hu.
  assert (0 <= sum < 65536) as Hsum by lia.
  assert (is_bytes (pre ++ sum mod 256 :: sum / 256 :: post)) as Hb1.
  { rewrite is_bytes_app, !is_bytes_cons. split; [done|]. split; [apply mod256_u8|].
    split; [|done]. unfold is_u8. Z.div_mod_to_equations; lia. }
  unfold inet_chksum. rewrite LWIP_CHKSUM_sum; [|done|].
  2: { revert Hl. rewrite !zlen_app, !zlen_cons. done. }
  unfold oc_sum. rewrite Hins. fold w.
  assert (le16 (sum mod 256) (sum / 256) = sum) as ->
    by (unfold le16; Z.div_mod_to_equations; lia).
  assert (oc_canon (sum + w) = 65535) as ->; [|done].
  symmetry. apply oc_canon_eq; [unfold is_u16; lia|].
  pose proof (oc_canon_oc (0 + w) ltac:(lia)) as (_ & _ & Em & Hz).
  unfold oc. repeat split; try lia.
  replace (sum + w) with (65535 - oc_canon (0 + w) + (0 + w)) by lia.
  Z.div_mod_to_equations; lia.
Qed.
End Checksums.

(** C32: the three implementations of lwip_standard_chksum agree with the ones'
    complement sum of the 16-bit words, at any alignment: version 1 up to the
    64k its comment promises, version 2 up to 0x20000 bytes, version 3 at any
    length. *)
Theorem lwip_standard_chksum_correct addr data :
  is_bytes data ->
  (zlen data <= 0xffff -> lwip_standard_chksum_1 data = oc_sum data) /\
  (zlen data <= 0x20000 -> lwip_standard_chksum_2 addr data = oc_sum data) /\
  lwip_standard_chksum_3 addr data = oc_sum data.
Proof.
  intros Hb. split; [|split]; intros;
    auto using chksum_1_spec, chksum_2_spec, chksum_3_spec.
Qed.

Lemma lwip_standard_chksum_correct_witness :
  lwip_standard_chksum_3 1 [0x45; 0; 0xff; 0xff; 7; 8; 9; 10; 11; 12; 13]
  = oc_sum [0x45; 0; 0xff; 0xff; 7; 8; 9; 10; 11; 12; 13].
Proof. apply lwip_standard_chksum_correct. concrete. Defined.

Lemma inet_chksum_pbuf_concat_witness :
  inet_chksum_pbuf [(1, [1; 2; 3]); (4, [5; 6])]
  = not16 (oc_sum (chain_bytes [(1, [1; 2; 3]); (4, [5; 6])])).
Proof.
  apply inet_chksum_pbuf_concat.
  repeat (apply Forall_cons_2; [split; concrete|]). apply Forall_nil_2.
Defined.

Lemma inet_chksum_pseudo_wire_witness :
  inet_chksum_pseudo [(1, [1; 2; 3])] 0x0100a8c0 0x0200a8c0 17 3
  = not16 (oc_sum (pseudo_hdr 0x0100a8c0 0x0200a8c0 17 3 ++ [1; 2; 3])).
Proof.
  apply (inet_chksum_pseudo_wire [(1, [1; 2; 3])]); try concrete.
  apply Forall_cons_2; [split; concrete|]. apply Forall_nil_2.
Defined.

Lemma inet_chksum_pseudo_partial_covers_witness :
  inet_chksum_pseudo_partial [(1, [1; 2; 3])] 0x0100a8c0 0x0200a8c0 136 3 2
  = Done (not16 (oc_sum (pseudo_hdr 0x0100a8c0 0x0200a8c0 136 3 ++ [1; 2]))).
Proof.
  apply (inet_chksum_pseudo_partial_covers 1 [1; 2; 3] []); try concrete.
  apply Forall_cons_2; [split; concrete|]. apply Forall_nil_2.
Defined.

Lemma inet_chksum_verifies_witness :
  let sum := inet_chksum 0 [0x45; 0; 0; 0; 9] in
  inet_chksum 1 [0x45; 0; sum mod 256; sum / 256; 9] = 0.
Proof. apply (inet_chksum_verifies 0 1 [0x45; 0] [9]); concrete. Defined.
