(* ===== verification/MemHeap.v ===== *)
(** * Heap allocator

    core/mem.c in the configuration of the build (MEM_LIBC_MALLOC = 0,
    MEM_USE_POOLS = 0, MEM_SIZE = 16000, NO_SYS = 1): the heap is a list of
    blocks, each with a struct mem in front of its data.  The state is the map
    from offsets into [ram] to the struct mem stored there, the lowest-free
    pointer and the counters of lwip_stats.mem.  A pointer is an offset into
    [ram]; the bytes of the user data are not part of the state. *)

From S2P Require Import Prelude.

(** struct mem *)
Record mem := Mem { next : Z; prev : Z; used : Z }.

(** lwip_stats.mem (avail is constant) *)
Record mem_stats := MemStats { st_used : Z; st_max : Z; st_err : Z; st_illegal : Z }.

(** The static variables of mem.c: ram, lfree, and the statistics. *)
Record heap := Heap { ram : gmap Z mem; lfree : Z; stats : mem_stats }.

Definition MIN_SIZE_ALIGNED : Z := LWIP_MEM_ALIGN_SIZE 12.

(** sizeof(struct mem) = 6: two u16_t and a u8_t, padded to two bytes. *)
Definition SIZEOF_STRUCT_MEM : Z := LWIP_MEM_ALIGN_SIZE 6.

Definition MEM_SIZE_ALIGNED : Z := LWIP_MEM_ALIGN_SIZE 16000.

(** ram_end = &ram[MEM_SIZE_ALIGNED] *)
Definition ram_end : Z := MEM_SIZE_ALIGNED.

(** ** Access to the heap *)

Definition rd (a : Z) : M heap mem :=
  h ← get; deref (ram h !! a).

Definition set_ram (f : gmap Z mem -> gmap Z mem) (h : heap) : heap :=
  Heap (f (ram h)) (lfree h) (stats h).

Definition set_lfree (a : Z) : M heap unit :=
  modify (fun h => Heap (ram h) a (stats h)).

(** Overwrite the whole struct mem at [a]. *)
Definition wr (a : Z) (m : mem) : M heap unit :=
  modify (set_ram (insert a m)).

(** Assign one field of the struct mem at [a]. *)
Definition wr_next (a v : Z) : M heap unit := m ← rd a; wr a (Mem v (prev m) (used m)).

Definition wr_prev (a v : Z) : M heap unit := m ← rd a; wr a (Mem (next m) v (used m)).

Definition wr_used (a v : Z) : M heap unit := m ← rd a; wr a (Mem (next m) (prev m) v).

(** MEM_STATS_INC_USED, MEM_STATS_DEC_USED and MEM_STATS_INC of stats.h;
    mem_size_t and STAT_COUNTER are u16_t. *)
Definition stats_inc_used (y : Z) : M heap unit :=
  modify (fun h =>
    let s := stats h in
    let u := u16 (st_used s + y) in
    Heap (ram h) (lfree h)
      (MemStats u (if st_max s <? u then u else st_max s) (st_err s) (st_illegal s))).

Definition stats_dec_used (y : Z) : M heap unit :=
  modify (fun h =>
    let s := stats h in
    Heap (ram h) (lfree h)
      (MemStats (u16 (st_used s - y)) (st_max s) (st_err s) (st_illegal s))).

Definition stats_inc_err : M heap unit :=
  modify (fun h =>
    let s := stats h in
    Heap (ram h) (lfree h)
      (MemStats (st_used s) (st_max s) (u16 (st_err s + 1)) (st_illegal s))).

Definition stats_inc_illegal : M heap unit :=
  modify (fun h =>
    let s := stats h in
    Heap (ram h) (lfree h)
      (MemStats (st_used s) (st_max s) (st_err s) (u16 (st_illegal s + 1)))).

(** ** Operations *)

(** mem_init: one free block and the end marker, whatever the memory held. *)
Definition mem_init (h : heap) : heap :=
  Heap (<[ram_end := Mem MEM_SIZE_ALIGNED MEM_SIZE_ALIGNED 1]>
          (<[0 := Mem MEM_SIZE_ALIGNED 0 0]> (ram h)))
       0 (stats h).

(** The first half of plug_holes: join [mem] with a free block after it. *)
Definition plug_forward (mem : Z) : M heap unit :=
  m ← rd mem;
  let nmem := next m in
  nm ← rd nmem;
  if negb (mem =? nmem) && (used nm =? 0) && negb (nmem =? ram_end) then
    h ← get;
    (if lfree h =? nmem then set_lfree mem else mret tt);;
    wr_next mem (next nm);;
    wr_prev (next nm) (u16 mem)
  else mret tt.

(** The second half: join [mem] with a free block before it. *)
Definition plug_backward (mem : Z) : M heap unit :=
  m ← rd mem;
  let pmem := prev m in
  pm ← rd pmem;
  if negb (pmem =? mem) && (used pm =? 0) then
    h ← get;
    (if lfree h =? mem then set_lfree pmem else mret tt);;
    wr_next pmem (next m);;
    wr_prev (next m) (u16 pmem)
  else mret tt.

Definition plug_holes (mem : Z) : M heap unit :=
  lwip_assert (0 <=? mem);;
  lwip_assert (mem <? ram_end);;
  m ← rd mem;
  lwip_assert (used m =? 0);;
  lwip_assert (next m <=? MEM_SIZE_ALIGNED);;
  plug_forward mem;;
  plug_backward mem.

(** [rmem] is NULL or an offset into ram; offsets outside of the heap are
    pointers outside of it. *)
Definition mem_free (rmem : option Z) : M heap unit :=
  match rmem with
  | None => mret tt
  | Some rmem =>
      lwip_assert (Z.land rmem 3 =? 0);;
      lwip_assert ((0 <=? rmem) && (rmem <? ram_end));;
      if (rmem <? 0) || (ram_end <=? rmem) then stats_inc_illegal
      else
        let mem := rmem - SIZEOF_STRUCT_MEM in
        m ← rd mem;
        lwip_assert (nz (used m));;
        wr_used mem 0;;
        h ← get;
        (if mem <? lfree h then set_lfree mem else mret tt);;
        stats_dec_used (next m - u16 mem);;
        plug_holes mem
  end.

Definition mem_trim (rmem newsize : Z) : M heap (option Z) :=
  let newsize := u16 (LWIP_MEM_ALIGN_SIZE newsize) in
  let newsize := if newsize <? MIN_SIZE_ALIGNED then MIN_SIZE_ALIGNED else newsize in
  if MEM_SIZE_ALIGNED <? newsize then mret None else
  lwip_assert ((0 <=? rmem) && (rmem <? ram_end));;
  if (rmem <? 0) || (ram_end <=? rmem) then stats_inc_illegal;; mret (Some rmem)
  else
    let mem := rmem - SIZEOF_STRUCT_MEM in
    let ptr := u16 mem in
    m ← rd mem;
    let size := u16 (next m - ptr - SIZEOF_STRUCT_MEM) in
    lwip_assert (newsize <=? size);;
    if size <? newsize then mret None else
    if newsize =? size then mret (Some rmem) else
    let mem2 := next m in
    m2 ← rd mem2;
    (if used m2 =? 0 then
       (* the next struct is unused: move it *)
       let next2 := next m2 in
       let ptr2 := u16 (ptr + SIZEOF_STRUCT_MEM + newsize) in
       h ← get;
       (if lfree h =? mem2 then set_lfree ptr2 else mret tt);;
       wr ptr2 (Mem next2 ptr 0);;
       wr_next mem ptr2;;
       (if negb (next2 =? MEM_SIZE_ALIGNED) then wr_prev next2 ptr2 else mret tt);;
       stats_dec_used (size - newsize)
     else if newsize + SIZEOF_STRUCT_MEM + MIN_SIZE_ALIGNED <=? size then
       (* the next struct is used but there is room for another one *)
       let ptr2 := u16 (ptr + SIZEOF_STRUCT_MEM + newsize) in
       h ← get;
       (if ptr2 <? lfree h then set_lfree ptr2 else mret tt);;
       wr ptr2 (Mem mem2 ptr 0);;
       wr_next mem ptr2;;
       (if negb (mem2 =? MEM_SIZE_ALIGNED) then wr_prev mem2 ptr2 else mret tt);;
       stats_dec_used (size - newsize)
     else mret tt);;
    mret (Some rmem).

(** The search for the next free block after an allocation at lfree. *)
Fixpoint next_free (fuel : nat) (cur : Z) : M heap Z :=
  match fuel with
  | O => fail OutOfFuel
  | S fuel =>
      c ← rd cur;
      if nz (used c) && negb (cur =? ram_end) then next_free fuel (next c) else mret cur
  end.

(** A block takes at least 20 bytes, so no list of blocks is longer. *)
Definition heap_fuel : nat := 801.

(** The body of the scan once block [ptr] is known to fit. *)
Definition mem_take (ptr size : Z) (m : mem) : M heap (option Z) :=
  (if size + SIZEOF_STRUCT_MEM + MIN_SIZE_ALIGNED
        <=? u64 (next m - (ptr + SIZEOF_STRUCT_MEM)) then
     (* split large block, create empty remainder *)
     let ptr2 := u16 (ptr + SIZEOF_STRUCT_MEM + size) in
     wr ptr2 (Mem (next m) ptr 0);;
     wr_next ptr ptr2;;
     wr_used ptr 1;;
     (if negb (next m =? MEM_SIZE_ALIGNED) then wr_prev (next m) ptr2 else mret tt);;
     stats_inc_used (size + SIZEOF_STRUCT_MEM)
   else
     (* near fit or exact fit: do not split *)
     wr_used ptr 1;;
     stats_inc_used (next m - u16 ptr));;
  h ← get;
  (if ptr =? lfree h then
     cur ← next_free heap_fuel (lfree h);
     set_lfree cur;;
     c ← rd cur;
     lwip_assert ((cur =? ram_end) || (used c =? 0))
   else mret tt);;
  lwip_assert (ptr + SIZEOF_STRUCT_MEM + size <=? ram_end);;
  lwip_assert ((ptr + SIZEOF_STRUCT_MEM) mod 4 =? 0);;
  lwip_assert (Z.land ptr 3 =? 0);;
  mret (Some (ptr + SIZEOF_STRUCT_MEM)).

Fixpoint mem_scan (fuel : nat) (ptr size : Z) : M heap (option Z) :=
  match fuel with
  | O => fail OutOfFuel
  | S fuel =>
      if negb (ptr <? MEM_SIZE_ALIGNED - size) then
        stats_inc_err;; mret None
      else
        m ← rd ptr;
        if (used m =? 0) && (size <=? u64 (next m - (ptr + SIZEOF_STRUCT_MEM)))
        then mem_take ptr size m
        else mem_scan fuel (next m) size
  end.

Definition mem_malloc (size : Z) : M heap (option Z) :=
  if size =? 0 then mret None else
  let size := u16 (LWIP_MEM_ALIGN_SIZE size) in
  let size := if size <? MIN_SIZE_ALIGNED then MIN_SIZE_ALIGNED else size in
  if MEM_SIZE_ALIGNED <? size then mret None else
  h ← get;
  mem_scan heap_fuel (u16 (lfree h)) size.

(** mem_calloc: the product is computed in int (where it may overflow), the
    argument of mem_malloc is truncated to a mem_size_t, and the length given to
    memset is not.  memset writes inside of the block or outside of what was
    allocated. *)
Definition mem_calloc (count size : Z) : M heap (option Z) :=
  if 2 ^ 31 <=? count * size then fail Undefined else
  p ← mem_malloc (u16 (count * size));
  match p with
  | None => mret None
  | Some p =>
      m ← rd (p - SIZEOF_STRUCT_MEM);
      (if p + count * size <=? next m then mret tt else fail Undefined);;
      mret (Some p)
  end.

(** ** Abstract heap

    The blocks in address order, each with its size (header included) and
    whether it is in use. *)

Abbreviation block := (Z * bool)%type.

Implicit Types (bl l k : list block).

Definition bsum (bl : list block) : Z := foldr (fun (b : block) acc => b.1 + acc) 0 bl.

(** What lwip_stats.mem.used should say. *)
Definition used_sum (bl : list block) : Z :=
  foldr (fun (b : block) acc => (if b.2 then b.1 else 0) + acc) 0 bl.

(** The address of the first free block, or of the end. *)
Fixpoint first_free (s : Z) (bl : list block) : Z :=
  match bl with
  | [] => s
  | (n, u) :: bl => if (u : bool) then first_free (s + n) bl else s
  end.

(** No two neighbours are both free. *)
Fixpoint no_adj (bl : list block) : Prop :=
  match bl with
  | (_, false) :: (((_, false) :: _)) => False
  | _ :: bl => no_adj bl
  | [] => True
  end.

Definition block_ok (b : block) : Prop := 20 <= b.1 /\ b.1 mod 4 = 0.

(** The struct mems of the blocks from address [s] on, [p] being the address of
    the block before. *)
Fixpoint seg (r : gmap Z mem) (p s : Z) (bl : list block) : Prop :=
  match bl with
  | [] => True
  | (n, u) :: bl =>
      r !! s = Some (Mem (s + n) p (Z.b2z u)) /\ block_ok (n, u) /\ seg r s (s + n) bl
  end.

(** The address of the last block. *)
Fixpoint last_addr (p s : Z) (bl : list block) : Z :=
  match bl with
  | [] => p
  | (n, _) :: bl => last_addr s (s + n) bl
  end.

Definition sentinel (r : gmap Z mem) : Prop :=
  exists q, r !! 16000 = Some (Mem 16000 q 1).

(** The struct mems describe exactly the blocks [bl]. *)
Definition shape (r : gmap Z mem) (bl : list block) : Prop :=
  seg r 0 0 bl /\ bsum bl = 16000 /\ sentinel r.

(** The invariant up to neighbouring free blocks. *)
Definition heap_pre (h : heap) (bl : list block) : Prop :=
  shape (ram h) bl /\ lfree h = first_free 0 bl /\ st_used (stats h) = used_sum bl.

(** The invariant: the heap [h] holds the blocks [bl]. *)
Definition heap_rep (h : heap) (bl : list block) : Prop :=
  heap_pre h bl /\ no_adj bl.

(** First fit. *)
Definition take_block (size n : Z) : list block :=
  if size + 28 <=? n then [(8 + size, true); (n - 8 - size, false)] else [(n, true)].

Fixpoint first_fit (size s : Z) (bl : list block) : option (Z * list block) :=
  match bl with
  | [] => None
  | (n, u) :: bl =>
      if negb u && (size + 8 <=? n) then Some (s, take_block size n ++ bl)
      else match first_fit size (s + n) bl with
           | Some (a, bl') => Some (a, (n, u) :: bl')
           | None => None
           end
  end.

(** Merge neighbouring free blocks. *)
Fixpoint coalesce (bl : list block) : list block :=
  match bl with
  | [] => []
  | (n, u) :: bl =>
      match u, coalesce bl with
      | false, (m, false) :: bl' => (n + m, false) :: bl'
      | _, bl' => (n, u) :: bl'
      end
  end.

(** The size a request is rounded to. *)
Definition round_size (size : Z) : Z :=
  let size := u16 (LWIP_MEM_ALIGN_SIZE size) in
  if size <? 12 then 12 else size.

(** ** Lemmas on the abstract heap *)

Lemma bsum_app l k : bsum (l ++ k) = bsum l + bsum k.
Proof. unfold bsum. induction l as [|b l IH]; simpl; lia. Qed.

Lemma used_sum_app l k : used_sum (l ++ k) = used_sum l + used_sum k.
Proof. unfold used_sum. induction l as [|b l IH]; simpl; lia. Qed.

Lemma seg_app r l : forall p s k,
  seg r p s (l ++ k) <-> seg r p s l /\ seg r (last_addr p s l) (s + bsum l) k.
Proof.
  induction l as [|[n u] l IH]; intros p s k; simpl.
  - rewrite Z.add_0_r. tauto.
  - rewrite IH. unfold bsum. simpl. rewrite Z.add_assoc. tauto.
Qed.

Lemma seg_ok r p s bl : seg r p s bl -> Forall block_ok bl.
Proof.
  revert p s. induction bl as [|[n u] bl IH]; intros p s H; [constructor|].
  destruct H as (_ & Hb & H). constructor; [done|]. by eapply IH.
Qed.

Lemma bsum_ge bl : Forall block_ok bl -> 20 * zlen bl <= bsum bl.
Proof.
  induction 1 as [|[n u] bl [Hn _] _ IH]; [done|].
  unfold bsum in *. rewrite zlen_cons. simpl in *. lia.
Qed.

Lemma bsum_nonneg bl : Forall block_ok bl -> 0 <= bsum bl.
Proof. intros H%bsum_ge. pose proof (zlen_nonneg bl). lia. Qed.

Lemma bsum_mod4 bl : Forall block_ok bl -> bsum bl mod 4 = 0.
Proof.
  induction 1 as [|[n u] bl [_ Hn] _ IH]; [done|].
  unfold bsum in *. simpl in *. rewrite Z.add_mod, Hn, IH by lia. done.
Qed.

Lemma used_sum_bounds bl : Forall block_ok bl -> 0 <= used_sum bl <= bsum bl.
Proof.
  induction 1 as [|[n u] bl [Hn _] _ IH]; [done|].
  unfold bsum, used_sum in *. simpl in *. destruct u; lia.
Qed.

Lemma seg_frame r r' bl : forall p s,
  (forall a, s <= a < s + bsum bl -> r' !! a = r !! a) ->
  seg r p s bl -> seg r' p s bl.
Proof.
  induction bl as [|[n u] bl IH]; intros p s Hf H; [done|].
  destruct H as (H & Hb & Hr). pose proof (bsum_nonneg bl (seg_ok _ _ _ _ Hr)).
  destruct Hb as [Hn Hm]. change (bsum ((n, u) :: bl)) with (n + bsum bl) in Hf. simpl in Hn.
  split; [|split; [done|]].
  - rewrite Hf; [done|lia].
  - apply IH; [|done]. intros a Ha. apply Hf. lia.
Qed.

(** Redirecting the back pointer of the block (or end marker) at [s]. *)
Lemma seg_relink r p q s k :
  seg r p s k -> s + bsum k = 16000 -> sentinel r ->
  exists m, r !! s = Some m /\ next m = s + match k with (n, _) :: _ => n | [] => 0 end /\
    used m = match k with (_, u) :: _ => Z.b2z u | [] => 1 end /\
    seg (<[s := Mem (next m) q (used m)]> r) q s k /\
    sentinel (<[s := Mem (next m) q (used m)]> r).
Proof.
  intros Hs Hsum [w Hw]. destruct k as [|[n u] k].
  - unfold bsum in Hsum. simpl in Hsum. rewrite Z.add_0_r in Hsum. subst s.
    exists (Mem 16000 w 1). repeat split; try done. exists q. by rewrite lookup_insert_eq.
  - destruct Hs as (H & Hb & Hr). pose proof (bsum_nonneg k (seg_ok _ _ _ _ Hr)).
    change (bsum ((n, u) :: k)) with (n + bsum k) in Hsum. pose proof Hb as [Hn _]. simpl in Hn.
    exists (Mem (s + n) p (Z.b2z u)). repeat split; try done.
    + by rewrite lookup_insert_eq.
    + apply Hb.
    + eapply seg_frame; [|exact Hr]. intros a Ha. rewrite lookup_insert_ne; [done|lia].
    + exists w. rewrite lookup_insert_ne; [done|lia].
Qed.

Lemma first_free_bounds bl : forall s,
  Forall block_ok bl -> s <= first_free s bl <= s + bsum bl.
Proof.
  induction bl as [|[n u] bl IH]; intros s Hok; simpl; [unfold bsum; simpl; lia|].
  inversion_clear Hok as [|? ? [Hn _] Hok']. simpl in Hn. pose proof (bsum_nonneg bl Hok').
  change (bsum ((n, u) :: bl)) with (n + bsum bl). destruct u; [|lia].
  specialize (IH (s + n) Hok'). lia.
Qed.

Definition all_used (l : list block) : Prop := Forall (fun b => b.2 = true) l.

Lemma first_free_app l : forall s k,
  Forall block_ok l ->
  (all_used l /\ first_free s (l ++ k) = first_free (s + bsum l) k) \/
  (~ all_used l /\ first_free s (l ++ k) = first_free s l /\ first_free s l < s + bsum l).
Proof.
  induction l as [|[n u] l IH]; intros s k Hok; simpl.
  - left. split; [constructor|]. f_equal. unfold bsum. simpl. lia.
  - inversion_clear Hok as [|? ? [Hn _] Hok']. simpl in Hn.
    pose proof (bsum_nonneg l Hok'). change (bsum ((n, u) :: l)) with (n + bsum l).
    destruct u.
    + destruct (IH (s + n) k Hok') as [[Hu ->]|(Hu & -> & Hlt)].
      * left. split; [by constructor|]. f_equal. lia.
      * right. split; [|split; [done|lia]]. intros Ha. apply Hu. by inversion Ha.
    + right. split; [|split; [done|lia]]. intros Ha. inversion Ha. done.
Qed.

Lemma first_free_all_used l s k :
  all_used l -> first_free s (l ++ k) = first_free (s + bsum l) k.
Proof.
  revert s. induction l as [|[n u] l IH]; intros s Hu; simpl.
  - f_equal. unfold bsum. simpl. lia.
  - inversion_clear Hu as [|? ? Hn Hu']. simpl in Hn. subst u. rewrite IH by done.
    f_equal. unfold bsum. simpl. lia.
Qed.

(** ** The map of struct mems under the writes of the operations *)

(** The effect of wr_prev on the map. *)
Definition relink (a q : Z) (r : gmap Z mem) : gmap Z mem :=
  match r !! a with
  | Some m => <[a := Mem (next m) q (used m)]> r
  | None => r
  end.

Lemma shape_block_ok r bl : shape r bl -> Forall block_ok bl.
Proof. intros (H & _). by eapply seg_ok. Qed.

Lemma shape_lookup r l n u k :
  shape r (l ++ (n, u) :: k) ->
  r !! bsum l = Some (Mem (bsum l + n) (last_addr 0 0 l) (Z.b2z u)).
Proof. intros (H & _). apply seg_app in H as [_ H]. apply H. Qed.

(** The bounds every block obeys. *)
Lemma shape_bounds r l n u k :
  shape r (l ++ (n, u) :: k) ->
  0 <= bsum l /\ 20 <= n /\ bsum l + n + bsum k = 16000 /\ 0 <= bsum k /\
  bsum l mod 4 = 0 /\ n mod 4 = 0 /\ Forall block_ok l /\ Forall block_ok k.
Proof.
  intros Hs. pose proof (shape_block_ok _ _ Hs) as Hok. destruct Hs as (_ & Hsum & _).
  apply Forall_app in Hok as [Hl Hk]. inversion_clear Hk as [|? ? [Hn Hm] Hk'].
  rewrite bsum_app in Hsum. change (bsum ((n, u) :: k)) with (n + bsum k) in Hsum.
  pose proof (bsum_nonneg l Hl). pose proof (bsum_nonneg k Hk').
  pose proof (bsum_mod4 l Hl). simpl in *. repeat split; try done; lia.
Qed.

(** Two maps that agree on the blocks of [l] and describe the rest. *)
Lemma shape_app_frame r r' l bl :
  seg r 0 0 l -> Forall block_ok l ->
  (forall a, 0 <= a < bsum l -> r' !! a = r !! a) ->
  seg r' (last_addr 0 0 l) (bsum l) bl -> seg r' 0 0 (l ++ bl).
Proof.
  intros Hs Hok Hf Hr. apply seg_app. split; [|done]. eapply seg_frame; [|done].
  intros a Ha. apply Hf. lia.
Qed.

Lemma shape_use r l n u u' k :
  shape r (l ++ (n, u) :: k) ->
  shape (<[bsum l := Mem (bsum l + n) (last_addr 0 0 l) (Z.b2z u')]> r) (l ++ (n, u') :: k).
Proof.
  intros Hs. destruct (shape_bounds _ _ _ _ _ Hs) as (? & ? & ? & ? & ? & ? & Hl & Hk).
  destruct Hs as (Hs & Hsum & [w Hw]). apply seg_app in Hs as [Hsl (Hm & Hb & Hsk)].
  split; [|split].
  - apply (shape_app_frame r); [done|done| |].
    + intros a Ha. rewrite lookup_insert_ne; [done|lia].
    + split; [by rewrite lookup_insert_eq|]. split; [done|].
      eapply seg_frame; [|exact Hsk]. intros a Ha. rewrite lookup_insert_ne; [done|lia].
  - rewrite bsum_app in *. done.
  - exists w. rewrite lookup_insert_ne; [done|lia].
Qed.

(** Replacing the block at the end of [l] by other blocks of the same total size
    that the map [r'] describes, [r'] having been changed nowhere else. *)
Lemma shape_replace r r' l b mid k :
  shape r (l ++ b :: k) ->
  bsum mid = b.1 -> Forall block_ok mid ->
  (forall a, a < bsum l -> r' !! a = r !! a) ->
  (forall a, bsum l + b.1 <= a -> r' !! a = r !! a) ->
  seg r' (last_addr 0 0 l) (bsum l) mid ->
  let q := last_addr (last_addr 0 0 l) (bsum l) mid in
  shape (relink (bsum l + b.1) q r') (l ++ mid ++ k).
Proof.
  intros Hs Hmid Hmok Hlo Hhi Hseg q. destruct b as [n u]. simpl in *.
  destruct (shape_bounds _ _ _ _ _ Hs) as (? & ? & Hsum' & ? & ? & ? & Hl & Hk).
  destruct Hs as (Hs & Hsum & Hsent). apply seg_app in Hs as [Hsl (Hm & Hb & Hsk)].
  simpl in *. change (0 + bsum l) with (bsum l) in *.
  assert (seg r' (bsum l) (bsum l + n) k) as Hsk'.
  { eapply seg_frame; [|exact Hsk]. intros a Ha. apply Hhi. lia. }
  assert (sentinel r') as Hsent'.
  { destruct Hsent as [w Hw]. exists w. rewrite Hhi; [done|lia]. }
  destruct (seg_relink r' (bsum l) q (bsum l + n) k Hsk' ltac:(lia) Hsent')
    as (m & Hm' & Hnx & Hus & Hk' & Hse).
  unfold relink. rewrite Hm'. split; [|split; [|exact Hse]].
  - apply (shape_app_frame r); [done|done| |].
    + intros a Ha. rewrite lookup_insert_ne by lia. apply Hlo. lia.
    + apply seg_app. split.
      * eapply seg_frame; [|exact Hseg]. intros a Ha. rewrite lookup_insert_ne; [done|lia].
      * rewrite Hmid. exact Hk'.
  - rewrite !bsum_app, Hmid. lia.
Qed.

(** At the end marker the operations leave out the back link. *)
Lemma shape_relink_end r bl q :
  shape (relink 16000 q r) bl -> is_Some (r !! 16000) -> sentinel r -> shape r bl.
Proof.
  intros (Hs & Hsum & _) Hin Hse. split; [|by split].
  eapply seg_frame; [|exact Hs]. intros a Ha. unfold relink.
  destruct (r !! 16000); [|done]. rewrite lookup_insert_ne; [done|lia].
Qed.

(** Splitting a block in two. *)
Lemma shape_split r l n u n1 u1 n2 u2 k :
  shape r (l ++ (n, u) :: k) -> n1 + n2 = n -> block_ok (n1, u1) -> block_ok (n2, u2) ->
  let s := bsum l in
  shape (relink (s + n) (s + n1)
           (<[s := Mem (s + n1) (last_addr 0 0 l) (Z.b2z u1)]>
              (<[s + n1 := Mem (s + n) s (Z.b2z u2)]> r)))
        (l ++ (n1, u1) :: (n2, u2) :: k).
Proof.
  intros Hs Hn H1 H2 s. pose proof H1 as [H1n _]. pose proof H2 as [H2n _]. simpl in *.
  refine (shape_replace r _ l (n, u) [(n1, u1); (n2, u2)] k Hs _ _ _ _ _).
  - unfold bsum. simpl. lia.
  - by repeat (apply Forall_cons_2; [done|]).
  - intros a Ha. fold s in Ha. rewrite !lookup_insert_ne by lia. done.
  - intros a Ha. simpl in Ha. fold s in Ha. rewrite !lookup_insert_ne by lia. done.
  - simpl. fold s. rewrite lookup_insert_eq. split; [done|]. split; [done|].
    rewrite lookup_insert_ne, lookup_insert_eq by lia.
    split; [|done]. do 2 f_equal. lia.
Qed.

(** Merging a block with the one after it. *)
Lemma shape_merge r l n1 u1 n2 u2 k :
  shape r (l ++ (n1, u1) :: (n2, u2) :: k) ->
  shape (relink (bsum l + n1 + n2) (bsum l)
           (<[bsum l := Mem (bsum l + n1 + n2) (last_addr 0 0 l) (Z.b2z u1)]> r))
        (l ++ (n1 + n2, u1) :: k).
Proof.
  intros Hs.
  pose proof (shape_bounds _ _ _ _ _ Hs) as (? & ? & Hsum' & ? & ? & ? & Hl & Hk).
  apply Forall_cons_iff in Hk as [[Hn2 Hm2] Hk']. simpl in Hn2, Hm2.
  change (bsum ((n2, u2) :: k)) with (n2 + bsum k) in *.
  pose proof (bsum_nonneg k Hk').
  destruct Hs as (Hseg & Hsum & Hse).
  apply seg_app in Hseg as [Hsl (Hm & Hb & Hm' & Hb' & Hsk)].
  change (0 + bsum l) with (bsum l) in *.
  remember (bsum l) as s eqn:Es.
  set (r1 := <[s := Mem (s + n1 + n2) (last_addr 0 0 l) (Z.b2z u1)]> r).
  assert (forall a, a <> s -> r1 !! a = r !! a) as Hr1.
  { intros a Ha. subst r1. by rewrite lookup_insert_ne. }
  assert (seg r1 (s + n1) (s + n1 + n2) k) as Hsk1.
  { eapply seg_frame; [|exact Hsk]. intros a Ha. apply Hr1. lia. }
  assert (sentinel r1) as Hse1.
  { destruct Hse as [w Hw]. exists w. rewrite Hr1; [done|lia]. }
  destruct (seg_relink r1 (s + n1) s (s + n1 + n2) k Hsk1 ltac:(lia) Hse1)
    as (m & Hm1 & _ & _ & Hk1 & Hse2).
  unfold relink. rewrite Hm1. split; [|split; [|exact Hse2]].
  - apply (shape_app_frame r); [done|done| |]; rewrite <- ?Es.
    + intros a Ha. rewrite lookup_insert_ne by lia. apply Hr1. lia.
    + split; [|split].
      * rewrite lookup_insert_ne by lia. subst r1. rewrite lookup_insert_eq. do 2 f_equal. lia.
      * unfold block_ok. simpl. split; [lia|]. rewrite Z.add_mod by lia.
        destruct Hb as [_ Hb]. simpl in Hb. by rewrite Hb, Hm2.
      * replace (s + (n1 + n2)) with (s + n1 + n2) by lia. exact Hk1.
  - rewrite bsum_app, <- Es. change (bsum ((n1 + n2, u1) :: k)) with (n1 + n2 + bsum k). lia.
Qed.

(** ** Symbolic execution *)

Lemma rd_eq a m r lf st :
  r !! a = Some m -> rd a (Heap r lf st) = Done (m, Heap r lf st).
Proof. intros E. unfold rd, get, mbind, M_bind. simpl. by rewrite E. Qed.

Lemma wr_eq a m r lf st : wr a m (Heap r lf st) = Done (tt, Heap (<[a := m]> r) lf st).
Proof. done. Qed.

Lemma wr_next_eq a v m r lf st :
  r !! a = Some m ->
  wr_next a v (Heap r lf st) = Done (tt, Heap (<[a := Mem v (prev m) (used m)]> r) lf st).
Proof. intros E. unfold wr_next. by rewrite (bind_done _ _ _ _ _ (rd_eq _ _ _ _ _ E)). Qed.

Lemma wr_used_eq a v m r lf st :
  r !! a = Some m ->
  wr_used a v (Heap r lf st) = Done (tt, Heap (<[a := Mem (next m) (prev m) v]> r) lf st).
Proof. intros E. unfold wr_used. by rewrite (bind_done _ _ _ _ _ (rd_eq _ _ _ _ _ E)). Qed.

Lemma wr_prev_eq a v r lf st :
  is_Some (r !! a) -> wr_prev a v (Heap r lf st) = Done (tt, Heap (relink a v r) lf st).
Proof.
  intros [m E]. unfold wr_prev, relink. rewrite E.
  by rewrite (bind_done _ _ _ _ _ (rd_eq _ _ _ _ _ E)).
Qed.

Lemma set_lfree_eq a r lf st : set_lfree a (Heap r lf st) = Done (tt, Heap r a st).
Proof. done. Qed.

(** One step of an operation whose head is known to succeed. *)
Ltac hstep :=
  lazymatch goal with
  | |- context [(rd _ ≫= _) _] => erewrite (bind_done (rd _)) by (apply rd_eq; eassumption)
  | _ => mstep
  end.

(** ** Merging *)

Lemma first_free_prefix l s n k : forall n' k',
  first_free s (l ++ (n, false) :: k) = first_free s (l ++ (n', false) :: k').
Proof.
  revert s. induction l as [|[m u] l IH]; intros s n' k'; simpl; [done|].
  destruct u; [apply IH|done].
Qed.

Lemma first_free_le l s n k :
  Forall block_ok l -> first_free s (l ++ (n, false) :: k) <= s + bsum l.
Proof.
  intros Hl. destruct (first_free_app l s ((n, false) :: k) Hl) as [[_ ->]|(_ & -> & ?)].
  - simpl. lia.
  - lia.
Qed.

Lemma heap_pre_bounds h l n u k :
  heap_pre h (l ++ (n, u) :: k) ->
  0 <= bsum l /\ 20 <= n /\ bsum l + n + bsum k = 16000 /\ 0 <= bsum k /\
  bsum l mod 4 = 0 /\ n mod 4 = 0 /\ Forall block_ok l /\ Forall block_ok k.
Proof. intros [Hs _]. by eapply shape_bounds. Qed.

(** The struct mem after a block exists: the next block or the end marker. *)
Lemma shape_next r l n u k :
  shape r (l ++ (n, u) :: k) ->
  exists m, r !! (bsum l + n) = Some m /\
    used m = match k with (_, v) :: _ => Z.b2z v | [] => 1 end /\
    match k with (n', _) :: _ => next m = bsum l + n + n' | [] => bsum l + n = 16000 end.
Proof.
  intros Hs. pose proof (shape_bounds _ _ _ _ _ Hs) as (? & ? & Hsum & ? & _).
  destruct k as [|[n' v] k].
  - unfold bsum in Hsum at 2. simpl in Hsum.
    destruct Hs as (_ & _ & [q Hq]). exists (Mem 16000 q 1).
    replace (bsum l + n) with 16000 by lia. done.
  - destruct Hs as (Hs & _). apply seg_app in Hs as [_ (_ & _ & Hm & _)].
    eexists. split; [exact Hm|]. done.
Qed.

Lemma relink_is_Some a q r b : is_Some (r !! b) -> is_Some (relink a q r !! b).
Proof.
  intros Hb. unfold relink. destruct (r !! a); [|done].
  destruct (decide (a = b)) as [->|]; [rewrite lookup_insert_eq|rewrite lookup_insert_ne by done]; done.
Qed.

(** ** plug_holes *)

Definition join_next (n : Z) (k : list block) : Z * list block :=
  match k with
  | (m, false) :: k => (n + m, k)
  | _ => (n, k)
  end.

Lemma plug_forward_ok h l n k :
  heap_pre h (l ++ (n, false) :: k) ->
  exists h', plug_forward (bsum l) h = Done (tt, h') /\
    heap_pre h' (l ++ ((join_next n k).1, false) :: (join_next n k).2) /\
    stats h' = stats h.
Proof.
  destruct h as [r lf st]. intros Hp.
  pose proof (heap_pre_bounds _ _ _ _ _ Hp) as (? & ? & Hsum & ? & Hmod & ? & Hl & Hk).
  pose proof Hp as (Hs & Hlf & Hst). simpl in Hs, Hlf, Hst.
  pose proof (shape_lookup _ _ _ _ _ Hs) as Hm.
  destruct (shape_next _ _ _ _ _ Hs) as (nm & Hnm & Hu & Hnx).
  pose proof (first_free_le l 0 n k Hl).
  unfold plug_forward. hstep. simpl. hstep. rewrite Hu.
  destruct k as [|[n' v] k].
  - simpl. rewrite andb_false_r. by exists (Heap r lf st).
  - apply Forall_cons_iff in Hk as [[Hn' _] Hk]. simpl in Hn'.
    change (bsum ((n', v) :: k)) with (n' + bsum k) in *. pose proof (bsum_nonneg k Hk).
    destruct v; simpl.
    + rewrite andb_false_r. by exists (Heap r lf st).
    + rewrite Hnx. unfold ram_end. change MEM_SIZE_ALIGNED with 16000.
      rewrite (proj2 (Z.eqb_neq (bsum l) _)), (proj2 (Z.eqb_neq (bsum l + n) 16000)) by lia.
      simpl. rewrite get_bind. simpl. rewrite (proj2 (Z.eqb_neq lf _)) by lia.
      rewrite ret_bind, (bind_done _ _ _ _ _ (wr_next_eq _ _ _ _ _ _ Hm)). simpl.
      pose proof (shape_merge _ _ _ _ _ _ _ Hs) as Hs'.
      rewrite u16_id by (unfold is_u16; lia).
      rewrite wr_prev_eq.
      * eexists. split; [done|]. split; [|done].
        split; [exact Hs'|]. simpl. split.
        -- rewrite Hlf. apply first_free_prefix.
        -- rewrite Hst, !used_sum_app. done.
      * rewrite lookup_insert_ne by lia.
        destruct (shape_next r (l ++ [(n, false)]) n' false k) as (m2 & Hm2 & _).
        { by rewrite <- app_assoc. }
        rewrite bsum_app in Hm2. unfold bsum in Hm2 at 2. simpl in Hm2.
        exists m2. rewrite <- Hm2. f_equal. lia.
Qed.

Lemma last_addr_snoc l p s n u : last_addr p s (l ++ [(n, u)]) = s + bsum l.
Proof.
  revert p s. induction l as [|[m v] l IH]; intros p s; simpl.
  - unfold bsum. simpl. lia.
  - rewrite IH. unfold bsum. simpl. lia.
Qed.

Lemma bsum_snoc l n u : bsum (l ++ [(n, u)]) = bsum l + n.
Proof. rewrite bsum_app. unfold bsum. simpl. lia. Qed.

(** A block joined to a free block that ends the list [l] before it. *)
Inductive join_prev (l : list block) (n : Z) : list block -> Z -> Prop :=
| join_first : l = [] -> join_prev l n [] n
| join_used l0 p : l = l0 ++ [(p, true)] -> join_prev l n l n
| join_free l0 p : l = l0 ++ [(p, false)] -> join_prev l n l0 (p + n).

Lemma join_prev_total l n : exists l' n', join_prev l n l' n'.
Proof.
  destruct (exists_last_inv l) as [->|(l0 & [p [|]] & ->)].
  - eexists _, _. by constructor.
  - eexists _, _. by eapply join_used.
  - eexists _, _. by eapply join_free.
Qed.

Lemma plug_backward_ok h l n k l' n' :
  heap_pre h (l ++ (n, false) :: k) -> join_prev l n l' n' ->
  exists h', plug_backward (bsum l) h = Done (tt, h') /\
    heap_pre h' (l' ++ (n', false) :: k) /\ stats h' = stats h.
Proof.
  destruct h as [r lf st]. intros Hp Hj.
  pose proof (heap_pre_bounds _ _ _ _ _ Hp) as (? & ? & Hsum & ? & Hmod & ? & Hl & Hk).
  pose proof Hp as (Hs & Hlf & Hst). simpl in Hs, Hlf, Hst.
  pose proof (shape_lookup _ _ _ _ _ Hs) as Hm.
  unfold plug_backward. hstep. simpl.
  destruct Hj as [->|l0 p ->|l0 p ->].
  - simpl. hstep. by exists (Heap r lf st).
  - rewrite last_addr_snoc in *. rewrite bsum_snoc in *.
    assert (r !! (0 + bsum l0) = Some (Mem (bsum l0 + p) (last_addr 0 0 l0) 1)) as Hpm.
    { apply (shape_lookup r l0 p true ((n, false) :: k)). by rewrite <- app_assoc in Hs. }
    hstep. simpl. rewrite andb_false_r. by exists (Heap r lf st).
  - rewrite last_addr_snoc in *. rewrite bsum_snoc in *.
    rewrite <- app_assoc in Hs, Hlf, Hst. simpl in Hs, Hlf, Hst.
    pose proof (shape_lookup r l0 p false ((n, false) :: k) Hs) as Hpm.
    change (0 + bsum l0) with (bsum l0) in *.
    pose proof (shape_bounds _ _ _ _ _ Hs) as (? & ? & _ & _ & _ & _ & Hl0 & _).
    pose proof (first_free_le l0 0 p ((n, false) :: k) Hl0).
    hstep. simpl. rewrite (proj2 (Z.eqb_neq (bsum l0) _)) by lia.
    simpl. rewrite get_bind. simpl. rewrite (proj2 (Z.eqb_neq lf _)) by lia.
    rewrite ret_bind, (bind_done _ _ _ _ _ (wr_next_eq _ _ _ _ _ _ Hpm)). simpl.
    pose proof (shape_merge _ _ _ _ _ _ _ Hs) as Hs'.
    rewrite u16_id by (unfold is_u16; lia).
    rewrite wr_prev_eq.
    + eexists. split; [done|]. split; [|done]. split; [exact Hs'|]. simpl. split.
      * rewrite Hlf. apply first_free_prefix.
      * rewrite Hst, !used_sum_app. done.
    + rewrite lookup_insert_ne by lia.
      destruct (shape_next r (l0 ++ [(p, false)]) n false k) as (m2 & Hm2 & _).
      { by rewrite <- app_assoc. }
      exists m2. rewrite <- Hm2, bsum_snoc. done.
Qed.

(** *** coalesce *)

Definition head_free (bl : list block) : bool :=
  match bl with (_, false) :: _ => true | _ => false end.

Lemma no_adj_cons b bl : no_adj (b :: bl) <-> (b.2 || negb (head_free bl) = true /\ no_adj bl).
Proof. destruct b as [n [|]], bl as [|[m [|]] bl]; simpl; intuition congruence. Qed.

Lemma coalesce_cons b bl :
  b.2 || negb (head_free (coalesce bl)) = true -> coalesce (b :: bl) = b :: coalesce bl.
Proof. destruct b as [n [|]]; simpl; [done|]. by destruct (coalesce bl) as [|[m [|]] ?]. Qed.

Lemma coalesce_id bl : no_adj bl -> coalesce bl = bl.
Proof.
  induction bl as [|b bl IH]; [done|]. intros [H1 H2]%no_adj_cons.
  rewrite coalesce_cons by (by rewrite IH). by rewrite IH.
Qed.

Lemma no_adj_coalesce bl : no_adj (coalesce bl).
Proof.
  induction bl as [|[n [|]] bl IH]; simpl; [done|done|].
  destruct (coalesce bl) as [|[m [|]] k] eqn:E; simpl; [done|done|].
  apply no_adj_cons in IH as [Hh Hk]. by destruct k as [|[? [|]] ?].
Qed.

Lemma coalesce_free n k :
  no_adj k -> coalesce ((n, false) :: k) = ((join_next n k).1, false) :: (join_next n k).2.
Proof. intros H. simpl. rewrite coalesce_id by done. by destruct k as [|[m [|]] k]. Qed.

Lemma coalesce_join l n k l' n' :
  no_adj l -> no_adj k -> join_prev l (join_next n k).1 l' n' ->
  coalesce (l ++ (n, false) :: k) = l' ++ (n', false) :: (join_next n k).2.
Proof.
  intros Hl Hk. pose proof (coalesce_free n k Hk) as Hb.
  remember (join_next n k) as j eqn:Ej. destruct j as [m k2]. simpl in *. clear Ej.
  intros Hj. destruct Hj as [->|l0 p ->|l0 p ->]; [done| |].
  - induction l0 as [|b l0 IH]; [simpl; by rewrite Hb|].
    cbn [app] in Hl. apply no_adj_cons in Hl as [H1 H2]. specialize (IH H2). cbn [app].
    rewrite coalesce_cons; [by rewrite IH|]. rewrite IH. by destruct l0 as [|[? ?] ?].
  - induction l0 as [|b l0 IH]; [simpl; by rewrite Hb|].
    cbn [app] in Hl. apply no_adj_cons in Hl as [H1 H2]. specialize (IH H2). cbn [app].
    rewrite coalesce_cons; [by rewrite IH|]. rewrite IH. by destruct l0 as [|[? ?] ?].
Qed.

Lemma no_adj_app_l l k : no_adj (l ++ k) -> no_adj l.
Proof.
  induction l as [|b l IH]; [done|]. simpl app. rewrite !no_adj_cons.
  intros [H1 H2]. split; [|by apply IH]. destruct l as [|[? ?] ?]; [|done].
  simpl. apply orb_true_r.
Qed.

Lemma no_adj_app_r l k : no_adj (l ++ k) -> no_adj k.
Proof. induction l as [|b l IH]; [done|]. simpl app. rewrite no_adj_cons. tauto. Qed.

(** What the blocks become when the one at the end of [l] is given back. *)
Lemma plug_holes_ok h l n k :
  heap_pre h (l ++ (n, false) :: k) -> no_adj l -> no_adj k ->
  exists h', plug_holes (bsum l) h = Done (tt, h') /\
    heap_rep h' (coalesce (l ++ (n, false) :: k)) /\ stats h' = stats h.
Proof.
  intros Hp Hnl Hnk.
  pose proof (heap_pre_bounds _ _ _ _ _ Hp) as (? & ? & Hsum & ? & Hmod & ? & Hl & Hk).
  destruct (plug_forward_ok h l n k Hp) as (h1 & E1 & Hp1 & Hs1).
  destruct (join_prev_total l (join_next n k).1) as (l' & n' & Hj).
  destruct (plug_backward_ok h1 _ _ _ _ _ Hp1 Hj) as (h2 & E2 & Hp2 & Hs2).
  exists h2. split; [|split; [|congruence]].
  - destruct h as [r lf st]. pose proof (shape_lookup _ _ _ _ _ (proj1 Hp)) as Hm. simpl in Hm.
    unfold plug_holes, ram_end. change MEM_SIZE_ALIGNED with 16000.
    rewrite !lwip_assert_bind by lia. hstep. simpl.
    rewrite ret_bind, lwip_assert_bind by lia.
    by rewrite (bind_done _ _ _ _ _ E1).
  - rewrite (coalesce_join l n k l' n') by done. split; [done|].
    rewrite <- (coalesce_join l n k l' n') by done. apply no_adj_coalesce.
Qed.

(** ** mem_free *)

(** A block in use starts at [a]. *)
Definition live (bl : list block) (a : Z) : Prop :=
  exists l n k, bl = l ++ (n, true) :: k /\ a = bsum l.

(** Mark the block at [a], seen from address [s], as free. *)
Fixpoint unmark (a s : Z) (bl : list block) : list block :=
  match bl with
  | [] => []
  | (n, u) :: bl => if a =? s then (n, false) :: bl else (n, u) :: unmark a (s + n) bl
  end.

Definition release (a : Z) (bl : list block) : list block := coalesce (unmark a 0 bl).

Lemma unmark_app l n u k s :
  Forall block_ok l -> unmark (s + bsum l) s (l ++ (n, u) :: k) = l ++ (n, false) :: k.
Proof.
  revert s. induction l as [|[m v] l IH]; intros s Hok; simpl.
  - unfold bsum. simpl. by rewrite Z.add_0_r, Z.eqb_refl.
  - apply Forall_cons_iff in Hok as [[Hm _] Hok]. simpl in Hm. pose proof (bsum_nonneg l Hok).
    change (bsum ((m, v) :: l)) with (m + bsum l).
    rewrite (proj2 (Z.eqb_neq _ _)) by lia. rewrite Z.add_assoc, IH by done. done.
Qed.

Lemma used_sum_cons n u k : used_sum ((n, u) :: k) = (if u then n else 0) + used_sum k.
Proof. done. Qed.

Lemma first_free_unuse l n k s :
  Forall block_ok l -> 20 <= n -> Forall block_ok k ->
  first_free s (l ++ (n, false) :: k) = Z.min (s + bsum l) (first_free s (l ++ (n, true) :: k)).
Proof.
  intros Hl Hn Hk.
  destruct (first_free_app l s ((n, false) :: k) Hl) as [[Hu ->]|(Hu & -> & Hlt)].
  - rewrite first_free_all_used by done. simpl.
    pose proof (first_free_bounds k (s + bsum l + n) Hk). lia.
  - destruct (first_free_app l s ((n, true) :: k) Hl) as [[Hu' _]|(_ & -> & _)]; [done|]. lia.
Qed.

(** mem_free on a block in use. *)
Lemma mem_free_ok h l n k :
  heap_rep h (l ++ (n, true) :: k) ->
  exists h', mem_free (Some (bsum l + 8)) h = Done (tt, h') /\
    heap_rep h' (coalesce (l ++ (n, false) :: k)) /\
    st_err (stats h') = st_err (stats h) /\ st_illegal (stats h') = st_illegal (stats h).
Proof.
  destruct h as [r lf st]. intros [Hp Hadj].
  pose proof (heap_pre_bounds _ _ _ _ _ Hp) as (? & ? & Hsum & ? & Hmod & Hnmod & Hl & Hk).
  destruct Hp as (Hs & Hlf & Hst). simpl in Hs, Hlf, Hst.
  pose proof (shape_lookup _ _ _ _ _ Hs) as Hm. simpl in Hm.
  pose proof (used_sum_bounds l Hl). pose proof (used_sum_bounds k Hk).
  rewrite used_sum_app, used_sum_cons in Hst. simpl in Hst.
  set (lf' := if bsum l <? lf then bsum l else lf).
  set (st' := MemStats (u16 (st_used st - n)) (st_max st) (st_err st) (st_illegal st)).
  assert (heap_pre (Heap (<[bsum l := Mem (bsum l + n) (last_addr 0 0 l) 0]> r) lf' st')
            (l ++ (n, false) :: k)) as Hp.
  { split; [exact (shape_use _ _ _ _ false _ Hs)|]. split; simpl.
    - subst lf'. rewrite Hlf, first_free_unuse by (done || lia).
      destruct (Z.ltb_spec (bsum l) (first_free 0 (l ++ (n, true) :: k))); lia.
    - rewrite used_sum_app, used_sum_cons, u16_id by (unfold is_u16; lia). simpl. lia. }
  destruct (plug_holes_ok _ _ _ _ Hp (no_adj_app_l _ _ Hadj)) as (h' & E & Hrep & Hst').
  { eapply (no_adj_app_r [(n, true)]), (no_adj_app_r l). exact Hadj. }
  exists h'. split; [|split; [done|by rewrite Hst']].
  unfold mem_free, ram_end. change MEM_SIZE_ALIGNED with 16000.
  change SIZEOF_STRUCT_MEM with 8.
  rewrite land_3, lwip_assert_bind by zdm.
  rewrite lwip_assert_bind by lia.
  rewrite (proj2 (Z.ltb_nlt (bsum l + 8) 0)), (proj2 (Z.leb_nle 16000 (bsum l + 8))) by lia.
  simpl. replace (bsum l + 8 - 8) with (bsum l) by lia. hstep. simpl. rewrite ret_bind.
  rewrite (bind_done _ _ _ _ _ (wr_used_eq _ _ _ _ _ _ Hm)), get_bind. simpl.
  assert ((if bsum l <? lf then set_lfree (bsum l) else mret tt)
            (Heap (<[bsum l := Mem (bsum l + n) (last_addr 0 0 l) 0]> r) lf st) =
          Done (tt, Heap (<[bsum l := Mem (bsum l + n) (last_addr 0 0 l) 0]> r) lf' st)) as E1.
  { subst lf'. by destruct (bsum l <? lf). }
  rewrite (bind_done _ _ _ _ _ E1).
  rewrite u16_id by (unfold is_u16; lia).
  replace (bsum l + n - bsum l) with n by lia. exact E.
Qed.

(** ** mem_malloc *)

Lemma shape_zlen r bl : shape r bl -> (length bl <= 800)%nat.
Proof.
  intros Hs. pose proof (bsum_ge bl (shape_block_ok _ _ Hs)).
  destruct Hs as (_ & Hsum & _). unfold zlen in *. lia.
Qed.

(** The struct mem at the start of the blocks [k]. *)
Lemma shape_at r l k :
  shape r (l ++ k) ->
  match k with
  | (n, u) :: _ => r !! bsum l = Some (Mem (bsum l + n) (last_addr 0 0 l) (Z.b2z u))
  | [] => bsum l = 16000 /\ exists q, r !! 16000 = Some (Mem 16000 q 1)
  end.
Proof.
  intros Hs. destruct k as [|[n u] k]; [|by eapply shape_lookup].
  rewrite app_nil_r in Hs. destruct Hs as (_ & ? & ?). done.
Qed.

Lemma next_free_ok r lf st k : forall fuel l,
  shape r (l ++ k) -> (length k < fuel)%nat ->
  next_free fuel (bsum l) (Heap r lf st) = Done (first_free (bsum l) k, Heap r lf st) /\
  exists c, r !! first_free (bsum l) k = Some c /\
    (first_free (bsum l) k =? 16000) || (used c =? 0) = true.
Proof.
  induction k as [|[n u] k IH]; intros [|fuel] l Hs Hf; try (simpl in Hf; lia).
  - apply shape_at in Hs as (Hl & q & Hq). simpl. rewrite Hl. erewrite bind_done by (by apply rd_eq).
    simpl. by eauto.
  - pose proof (shape_at _ _ _ Hs) as Hm. simpl in Hm, Hf. simpl next_free.
    erewrite bind_done by (by apply rd_eq).
    destruct (shape_bounds _ _ _ _ _ Hs) as (? & ? & Hsum & ? & _).
    destruct u; simpl.
    + unfold ram_end. change MEM_SIZE_ALIGNED with 16000.
      rewrite (proj2 (Z.eqb_neq _ _)) by lia. simpl.
      rewrite <- (bsum_snoc l n true).
      apply IH; [by rewrite <- app_assoc|lia].
    + split; [done|]. eexists. split; [exact Hm|]. simpl. apply orb_true_r.
Qed.

Lemma first_fit_take_first_free size l n k s :
  first_free s (l ++ (n, false) :: k) <> s + bsum l ->
  Forall block_ok l ->
  first_free s (l ++ take_block size n ++ k) = first_free s (l ++ (n, false) :: k).
Proof.
  intros Hne Hl.
  destruct (first_free_app l s ((n, false) :: k) Hl) as [[Hu E]|(Hu & E & _)].
  - rewrite E in Hne. done.
  - rewrite E. by destruct (first_free_app l s (take_block size n ++ k) Hl) as [[? _]|(_ & -> & _)].
Qed.

Lemma take_block_sum size n : bsum (take_block size n) = n.
Proof. unfold take_block, bsum. destruct (_ <=? _); simpl; lia. Qed.

(** The bytes a request takes out of a block of [n] bytes. *)
Definition taken (size n : Z) : Z := used_sum (take_block size n).

Lemma taken_bounds size n : 12 <= size -> size + 8 <= n -> 0 <= taken size n <= n.
Proof. unfold taken, take_block. intros. destruct (Z.leb_spec (size + 28) n); unfold used_sum; simpl; lia. Qed.

(** The struct mems after the block at the end of [l] has been taken. *)
Definition take_map (r : gmap Z mem) (l : list block) (size n : Z) : gmap Z mem :=
  if size + 28 <=? n then
    (if bsum l + n =? 16000 then id else relink (bsum l + n) (bsum l + 8 + size))
      (<[bsum l := Mem (bsum l + 8 + size) (last_addr 0 0 l) 1]>
         (<[bsum l + 8 + size := Mem (bsum l + n) (bsum l) 0]> r))
  else <[bsum l := Mem (bsum l + n) (last_addr 0 0 l) 1]> r.

Lemma take_map_ok r l n k size :
  shape r (l ++ (n, false) :: k) -> 12 <= size -> size mod 4 = 0 -> size + 8 <= n ->
  shape (take_map r l size n) (l ++ take_block size n ++ k).
Proof.
  intros Hs Hlo Hmod Hfit. unfold take_map, take_block.
  destruct (shape_bounds _ _ _ _ _ Hs) as (? & ? & Hsum & ? & ? & Hn & Hl & Hk).
  destruct (Z.leb_spec (size + 28) n).
  - assert (shape (relink (bsum l + n) (bsum l + (8 + size))
              (<[bsum l := Mem (bsum l + (8 + size)) (last_addr 0 0 l) 1]>
               (<[bsum l + (8 + size) := Mem (bsum l + n) (bsum l) 0]> r)))
              (l ++ [(8 + size, true); (n - 8 - size, false)] ++ k)) as Hs'.
    { apply (shape_split r l n false (8 + size) true (n - 8 - size) false k Hs); [lia| |];
        unfold block_ok; simpl; (split; [lia|zdm]). }
    rewrite !Z.add_assoc in Hs'. destruct (Z.eqb_spec (bsum l + n) 16000) as [E|]; [|exact Hs'].
    rewrite E in Hs' |- *. simpl.
    assert (sentinel (<[bsum l := Mem (bsum l + 8 + size) (last_addr 0 0 l) 1]>
             (<[bsum l + 8 + size := Mem 16000 (bsum l) 0]> r))) as Hse.
    { destruct Hs as (_ & _ & [q Hq]). exists q. rewrite !lookup_insert_ne by lia. done. }
    eapply shape_relink_end; [exact Hs'| |exact Hse]. destruct Hse as [q ->]. done.
  - exact (shape_use _ _ _ _ true _ Hs).
Qed.

Definition inc_used (y : Z) (st : mem_stats) : mem_stats :=
  let u := u16 (st_used st + y) in
  MemStats u (if st_max st <? u then u else st_max st) (st_err st) (st_illegal st).

(** The first half of the body: the block is marked and split. *)
Lemma mem_take_marks r lf st l n k size (K : unit -> M heap (option Z)) :
  shape r (l ++ (n, false) :: k) -> 12 <= size -> size mod 4 = 0 -> size + 8 <= n ->
  let m := Mem (bsum l + n) (last_addr 0 0 l) 0 in
  ((if size + SIZEOF_STRUCT_MEM + MIN_SIZE_ALIGNED
         <=? u64 (next m - (bsum l + SIZEOF_STRUCT_MEM)) then
      let ptr2 := u16 (bsum l + SIZEOF_STRUCT_MEM + size) in
      wr ptr2 (Mem (next m) (bsum l) 0);;
      wr_next (bsum l) ptr2;;
      wr_used (bsum l) 1;;
      (if negb (next m =? MEM_SIZE_ALIGNED) then wr_prev (next m) ptr2 else mret tt);;
      stats_inc_used (size + SIZEOF_STRUCT_MEM)
    else
      wr_used (bsum l) 1;;
      stats_inc_used (next m - u16 (bsum l))) ≫= K) (Heap r lf st) =
  K tt (Heap (take_map r l size n) lf (inc_used (taken size n) st)).
Proof.
  intros Hs Hlo Hmod Hfit m.
  destruct (shape_bounds _ _ _ _ _ Hs) as (? & ? & Hsum & ? & ? & Hn & Hl & Hk).
  pose proof (shape_lookup _ _ _ _ _ Hs) as Hm. destruct (shape_next _ _ _ _ _ Hs) as (m2 & Hm2 & _).
  change MEM_SIZE_ALIGNED with 16000. change SIZEOF_STRUCT_MEM with 8. change MIN_SIZE_ALIGNED with 12.
  subst m. simpl next. rewrite u64_id by lia.
  replace (bsum l + n - (bsum l + 8)) with (n - 8) by lia.
  unfold take_map, taken, take_block.
  destruct (Z.leb_spec (size + 28) n) as [Hge|Hlt].
  - assert (used_sum [(8 + size, true); (n - 8 - size, false)] = size + 8) as E28.
    { unfold used_sum. simpl. lia. }
    rewrite (proj2 (Z.leb_le (size + 8 + 12) (n - 8))) by lia. cbv zeta.
    rewrite u16_id by (unfold is_u16; lia).
    rewrite bind_assoc. erewrite bind_done by (by apply wr_eq).
    rewrite bind_assoc. erewrite bind_done by (apply wr_next_eq; rewrite lookup_insert_ne by lia; exact Hm).
    rewrite bind_assoc. erewrite bind_done by (apply wr_used_eq, lookup_insert_eq). cbn [next prev used].
    rewrite insert_insert_eq. rewrite bind_assoc.
    destruct (Z.eqb_spec (bsum l + n) 16000); cbn [negb].
    + by rewrite ret_bind, E28.
    + erewrite bind_done.
      2: { apply wr_prev_eq. rewrite !lookup_insert_ne by lia. by eexists. }
      by rewrite E28.
  - rewrite (proj2 (Z.leb_nle (size + 8 + 12) (n - 8))) by lia.
    rewrite u16_id by (unfold is_u16; lia). rewrite bind_assoc.
    erewrite bind_done by (apply wr_used_eq; exact Hm). cbn [next prev used].
    replace (used_sum [(n, true)]) with (bsum l + n - bsum l) by (unfold used_sum; simpl; lia). done.
Qed.

Lemma mem_take_ok r lf st l n k size :
  heap_pre (Heap r lf st) (l ++ (n, false) :: k) ->
  12 <= size -> size mod 4 = 0 -> size + 8 <= n ->
  exists h', mem_take (bsum l) size (Mem (bsum l + n) (last_addr 0 0 l) 0) (Heap r lf st) =
      Done (Some (bsum l + 8), h') /\
    heap_pre h' (l ++ take_block size n ++ k) /\
    st_err (stats h') = st_err st /\ st_illegal (stats h') = st_illegal st.
Proof.
  intros (Hs & Hlf & Hst) Hlo Hmod Hfit. simpl in Hs, Hlf, Hst.
  destruct (shape_bounds _ _ _ _ _ Hs) as (? & ? & Hsum & ? & Hlm & Hn & Hl & Hk).
  pose proof (used_sum_bounds l Hl). pose proof (used_sum_bounds k Hk).
  pose proof (taken_bounds size n Hlo Hfit).
  pose proof (take_map_ok r l n k size Hs Hlo Hmod Hfit) as Hs2.
  set (lf' := if bsum l =? lf then first_free (bsum l) (take_block size n ++ k) else lf).
  exists (Heap (take_map r l size n) lf' (inc_used (taken size n) st)).
  split; [|split; [split; [exact Hs2|split]|done]]; simpl.
  - unfold mem_take. rewrite mem_take_marks with (k := k) by done.
    rewrite get_bind. simpl.
    assert (forall K : unit -> M heap (option Z),
      ((if bsum l =? lf then
          cur ← next_free heap_fuel lf;
          set_lfree cur;;
          c ← rd cur;
          lwip_assert ((cur =? ram_end) || (used c =? 0))
        else mret tt) ≫= K) (Heap (take_map r l size n) lf (inc_used (taken size n) st)) =
      K tt (Heap (take_map r l size n) lf' (inc_used (taken size n) st))) as ->.
    { intros K. subst lf'. destruct (Z.eqb_spec (bsum l) lf) as [<-|]; [|done].
      destruct (next_free_ok (take_map r l size n) (bsum l) (inc_used (taken size n) st)
                  (take_block size n ++ k) heap_fuel l Hs2) as (E & c & Hc & Hb).
      { pose proof (shape_zlen _ _ Hs2) as Hlen. rewrite length_app in Hlen.
        unfold heap_fuel. lia. }
      rewrite bind_assoc, (bind_done _ _ _ _ _ E), bind_assoc.
      rewrite (bind_done _ _ _ _ _ (set_lfree_eq _ _ _ _)), bind_assoc.
      rewrite (bind_done _ _ _ _ _ (rd_eq _ _ _ _ _ Hc)).
      rewrite lwip_assert_bind by done. done. }
    change ram_end with 16000. change SIZEOF_STRUCT_MEM with 8.
    rewrite land_3. rewrite !lwip_assert_bind by zdm. done.
  - subst lf'. destruct (Z.eqb_spec (bsum l) lf) as [E|E].
    + destruct (first_free_app l 0 ((n, false) :: k) Hl) as [[Hu E']|(Hu & E' & ?)].
      * by rewrite (first_free_all_used l).
      * lia.
    + rewrite first_fit_take_first_free by (done || lia). done.
  - rewrite u16_id.
    + rewrite Hst, !used_sum_app. fold (taken size n). rewrite used_sum_cons. simpl. lia.
    + rewrite Hst, used_sum_app, used_sum_cons. simpl. unfold is_u16. lia.
Qed.

Lemma no_adj_take l n k size :
  no_adj (l ++ (n, false) :: k) -> no_adj (l ++ take_block size n ++ k).
Proof.
  induction l as [|b l IH]; cbn [app]; rewrite !no_adj_cons.
  - intros [H1 H2]. unfold take_block. destruct (_ <=? _); cbn [app]; rewrite !no_adj_cons; auto.
  - intros [H1 H2]. split; [|by apply IH].
    destruct l as [|[? ?] ?]; [|exact H1]. unfold take_block in *.
    destruct (_ <=? _); cbn [app head_free negb]; by rewrite orb_true_r.
Qed.

Lemma first_fit_none size bl : forall s,
  Forall block_ok bl -> bsum bl <= size + 7 -> first_fit size s bl = None.
Proof.
  induction bl as [|[n u] bl IH]; intros s Hok Hsum; [done|].
  apply Forall_cons_iff in Hok as [[Hn _] Hok]. simpl in Hn. pose proof (bsum_nonneg bl Hok).
  change (bsum ((n, u) :: bl)) with (n + bsum bl) in Hsum. simpl.
  rewrite (proj2 (Z.leb_nle _ _)) by lia. rewrite andb_false_r, IH by (done || lia). done.
Qed.

Lemma first_fit_skip size l : forall s k,
  all_used l ->
  first_fit size s (l ++ k) =
    match first_fit size (s + bsum l) k with
    | Some (a, k') => Some (a, l ++ k')
    | None => None
    end.
Proof.
  induction l as [|[n u] l IH]; intros s k Hu; cbn [app].
  - unfold bsum. simpl. rewrite Z.add_0_r. by destruct (first_fit size s k) as [[? ?]|].
  - apply Forall_cons_iff in Hu as [Hn Hu]. simpl in Hn. subst u. simpl.
    rewrite IH by done. change (bsum ((n, true) :: l)) with (n + bsum l).
    rewrite Z.add_assoc. by destruct (first_fit size (s + n + bsum l) k) as [[? ?]|].
Qed.

Definition count_err (h : heap) : heap :=
  Heap (ram h) (lfree h)
    (MemStats (st_used (stats h)) (st_max (stats h)) (u16 (st_err (stats h) + 1))
       (st_illegal (stats h))).

(** The outcome a first-fit search asks for. *)
Definition alloc_post (h : heap) (fit : option (Z * list block))
    (o : outcome (option Z * heap)) : Prop :=
  match fit with
  | Some (a, bl') =>
      exists h', o = Done (Some (a + 8), h') /\ heap_rep h' bl' /\
        st_err (stats h') = st_err (stats h) /\ st_illegal (stats h') = st_illegal (stats h)
  | None => o = Done (None, count_err h)
  end.

Lemma mem_scan_ok h size k : forall fuel l,
  heap_rep h (l ++ k) -> 12 <= size <= 16000 -> size mod 4 = 0 -> (length k < fuel)%nat ->
  alloc_post h
    (match first_fit size (bsum l) k with
     | Some (a, k') => Some (a, l ++ k')
     | None => None
     end)
    (mem_scan fuel (bsum l) size h).
Proof.
  destruct h as [r lf st].
  induction k as [|[n u] k IH]; intros [|fuel] l [Hp Hadj] Hsz Hmod Hf; try (simpl in Hf; lia).
  - destruct (shape_at _ _ _ (proj1 Hp)) as [Hl _]. simpl in *. rewrite Hl.
    change MEM_SIZE_ALIGNED with 16000. by rewrite (proj2 (Z.ltb_nlt _ _)) by lia.
  - destruct (heap_pre_bounds _ _ _ _ _ Hp) as (? & ? & Hsum & ? & ? & ? & Hl & Hk).
    pose proof (shape_lookup _ _ _ _ _ (proj1 Hp)) as Hm. simpl in Hm, Hf.
    simpl mem_scan. change MEM_SIZE_ALIGNED with 16000. change SIZEOF_STRUCT_MEM with 8.
    destruct (Z.ltb_spec (bsum l) (16000 - size)) as [Hlt|Hge]; cbn [negb].
    + erewrite bind_done by (by apply rd_eq). cbn [next used].
      rewrite u64_id by lia. replace (bsum l + n - (bsum l + 8)) with (n - 8) by lia.
      simpl first_fit.
      destruct u; simpl.
      * specialize (IH fuel (l ++ [(n, true)])). rewrite <- app_assoc in IH.
        rewrite bsum_snoc in IH. specialize (IH (conj Hp Hadj) Hsz Hmod ltac:(lia)).
        destruct (first_fit size (bsum l + n) k) as [[a k']|]; [|exact IH].
        rewrite <- app_assoc in IH. exact IH.
      * destruct (Z.leb_spec size (n - 8)).
        -- rewrite (proj2 (Z.leb_le _ _)) by lia.
           destruct (mem_take_ok r lf st l n k size Hp ltac:(lia) Hmod ltac:(lia))
             as (h' & E & Hp' & Hst). exists h'. split; [exact E|]. split; [|exact Hst].
           split; [exact Hp'|]. by apply no_adj_take.
        -- rewrite (proj2 (Z.leb_nle _ _)) by lia.
           specialize (IH fuel (l ++ [(n, false)])). rewrite <- app_assoc in IH.
           rewrite bsum_snoc in IH. specialize (IH (conj Hp Hadj) Hsz Hmod ltac:(lia)).
           destruct (first_fit size (bsum l + n) k) as [[a k']|]; [|exact IH].
           rewrite <- app_assoc in IH. exact IH.
    + rewrite first_fit_none; [done| |].
      * constructor; [split; [simpl; lia|done]|done].
      * change (bsum ((n, u) :: k)) with (n + bsum k). lia.
Qed.

(** lfree splits the blocks after a prefix that is in use. *)
Lemma first_free_split bl : forall s,
  exists l k, bl = l ++ k /\ all_used l /\ first_free s bl = s + bsum l.
Proof.
  induction bl as [|[n u] bl IH]; intros s.
  - exists [], []. unfold bsum. simpl. split; [done|]. split; [constructor|lia].
  - destruct u.
    + destruct (IH (s + n)) as (l & k & -> & Hu & E). exists ((n, true) :: l), k.
      split; [done|]. split; [by constructor|]. simpl. rewrite E.
      change (bsum ((n, true) :: l)) with (n + bsum l). lia.
    + exists [], ((n, false) :: bl). split; [done|]. split; [constructor|].
      unfold bsum. simpl. lia.
Qed.

Lemma round_size_props size : 0 <= size -> 12 <= round_size size /\ round_size size mod 4 = 0.
Proof.
  intros H. unfold round_size, u16. rewrite align_arith.
  destruct (Z.ltb_spec (((size + 3) / 4 * 4) mod 2 ^ 16) 12); [done|].
  split; [done|]. change (2 ^ 16) with 65536. zdm.
Qed.

(** mem_malloc finds the first fit for the rounded size; a request that cannot
    fit in any heap is refused before the search. *)
Lemma mem_malloc_ok h bl size :
  heap_rep h bl -> 0 < size ->
  (round_size size <= 16000 ->
   alloc_post h (first_fit (round_size size) 0 bl) (mem_malloc size h)) /\
  (16000 < round_size size -> mem_malloc size h = Done (None, h)).
Proof.
  intros Hrep Hsz. pose proof (round_size_props size ltac:(lia)) as [Hlo Hmod].
  unfold mem_malloc. rewrite (proj2 (Z.eqb_neq size 0)) by lia. cbv zeta.
  change MIN_SIZE_ALIGNED with 12. fold (round_size size).
  change MEM_SIZE_ALIGNED with 16000. split; intros Hle.
  - rewrite (proj2 (Z.ltb_nlt 16000 _)) by lia. rewrite get_bind.
    pose proof Hrep as [(Hs & Hlf & _) _].
    destruct (first_free_split bl 0) as (l & k & -> & Hu & E).
    pose proof (shape_block_ok _ _ Hs) as Hok.
    pose proof (bsum_nonneg l (proj1 (proj1 (Forall_app _ _ _) Hok))).
    pose proof (first_free_bounds (l ++ k) 0 Hok). destruct Hs as (Hseg & Hsum & Hs).
    rewrite Hlf, E, u16_id by (unfold is_u16; lia).
    rewrite first_fit_skip by done. change (0 + bsum l) with (bsum l).
    apply mem_scan_ok; [done|lia|done|].
    pose proof (shape_zlen (ram h) (l ++ k) (conj Hseg (conj Hsum Hs))) as Hlen.
    rewrite length_app in Hlen. unfold heap_fuel. lia.
  - by rewrite (proj2 (Z.ltb_lt 16000 _)) by lia.
Qed.

(** ** mem_trim *)

(** The blocks after the one at the end of [l], of [n] bytes, has been shrunk to
    [size] bytes of data. *)
Definition shrink_block (size n : Z) (k : list block) : list block :=
  match k with
  | (m, false) :: k' =>
      if size + 8 =? n then (n, true) :: k
      else (size + 8, true) :: (m + (n - 8 - size), false) :: k'
  | _ =>
      if size + 28 <=? n then (size + 8, true) :: (n - 8 - size, false) :: k
      else (n, true) :: k
  end.

Lemma relink_insert a q b m r : a <> b -> relink a q (<[b := m]> r) = <[b := m]> (relink a q r).
Proof.
  intros Hab. unfold relink. rewrite lookup_insert_ne by done.
  destruct (r !! a); [|done]. by rewrite insert_insert_ne.
Qed.

Lemma relink_relink a q q' r : relink a q (relink a q' r) = relink a q r.
Proof.
  unfold relink at 2 3. destruct (r !! a) as [m|] eqn:E.
  - unfold relink. rewrite lookup_insert_eq. by rewrite insert_insert_eq.
  - unfold relink. by rewrite E.
Qed.

(** Moving the boundary between a block and the next one. *)
Lemma shape_move r l n1 u1 n2 u2 k m1 m2 v1 v2 :
  shape r (l ++ (n1, u1) :: (n2, u2) :: k) -> m1 + m2 = n1 + n2 ->
  block_ok (m1, v1) -> block_ok (m2, v2) ->
  shape (relink (bsum l + n1 + n2) (bsum l + m1)
           (<[bsum l := Mem (bsum l + m1) (last_addr 0 0 l) (Z.b2z v1)]>
              (<[bsum l + m1 := Mem (bsum l + n1 + n2) (bsum l) (Z.b2z v2)]> r)))
        (l ++ (m1, v1) :: (m2, v2) :: k).
Proof.
  intros Hs Hsum H1 H2. pose proof (shape_merge _ _ _ _ _ _ _ Hs) as Hm.
  pose proof (shape_split _ _ (n1 + n2) u1 m1 v1 m2 v2 k Hm Hsum H1 H2) as Hm2.
  pose proof (shape_bounds _ _ _ _ _ Hs) as (? & ? & _ & ? & _ & _ & _ & Hk).
  apply Forall_cons_iff in Hk as [[Hn2 _] _]. destruct H1 as [H1 _], H2 as [H2 _]. simpl in *.
  rewrite Z.add_assoc in Hm2. revert Hm2.
  rewrite !relink_insert by lia. rewrite relink_relink.
  rewrite (insert_insert_ne _ (bsum l) (bsum l + m1)) by lia. rewrite insert_insert_eq.
  rewrite (insert_insert_ne _ (bsum l + m1) (bsum l)) by lia. done.
Qed.

(** The struct mems after a boundary at [b] has been set between [s] and [e]:
    the link of the end marker is not maintained. *)
Definition cut_map (r : gmap Z mem) (s p b e : Z) : gmap Z mem :=
  (if e =? 16000 then id else relink e b) (<[s := Mem b p 1]> (<[b := Mem e s 0]> r)).

Lemma cut_map_shape r s p b e bl :
  sentinel r -> s < 16000 -> b < 16000 ->
  shape (relink e b (<[s := Mem b p 1]> (<[b := Mem e s 0]> r))) bl ->
  shape (cut_map r s p b e) bl.
Proof.
  intros [q Hq] Hs Hb Hsh. unfold cut_map. destruct (Z.eqb_spec e 16000) as [->|]; [|exact Hsh].
  assert (sentinel (<[s := Mem b p 1]> (<[b := Mem 16000 s 0]> r))) as Hse.
  { exists q. by rewrite !lookup_insert_ne by lia. }
  unfold id. eapply shape_relink_end; [exact Hsh| |exact Hse]. destruct Hse as [q' ->]. done.
Qed.

Definition dec_used (y : Z) (st : mem_stats) : mem_stats :=
  MemStats (u16 (st_used st - y)) (st_max st) (st_err st) (st_illegal st).

(** The common tail of the two ways mem_trim cuts a block. *)
Lemma cut_ok r lf st s x p b e d (K : unit -> M heap (option Z)) :
  r !! s = Some (Mem x p 1) -> is_Some (r !! e) -> s <> b ->
  ((wr b (Mem e s 0);;
    wr_next s b;;
    (if negb (e =? MEM_SIZE_ALIGNED) then wr_prev e b else mret tt);;
    stats_dec_used d) ≫= K) (Heap r lf st) =
  K tt (Heap (cut_map r s p b e) lf (dec_used d st)).
Proof.
  intros Hs He Hne. rewrite bind_assoc. erewrite bind_done by (by apply wr_eq).
  rewrite bind_assoc. erewrite bind_done by (apply wr_next_eq; rewrite lookup_insert_ne by lia; exact Hs).
  cbn [prev used]. rewrite bind_assoc. change MEM_SIZE_ALIGNED with 16000. unfold cut_map.
  destruct (Z.eqb_spec e 16000); cbn [negb]; [done|].
  erewrite bind_done; [|apply wr_prev_eq]; [done|].
  destruct (decide (s = e)) as [->|]; [rewrite lookup_insert_eq; by eexists|].
  rewrite lookup_insert_ne by done.
  destruct (decide (b = e)) as [->|]; [rewrite lookup_insert_eq; by eexists|].
  by rewrite lookup_insert_ne.
Qed.

Lemma used_sum_mid l n u k : used_sum (l ++ (n, u) :: k) = used_sum l + (if u then n else 0) + used_sum k.
Proof. rewrite used_sum_app, used_sum_cons. lia. Qed.

Lemma all_usedb l : forallb (fun b => b.2) l = true <-> all_used l.
Proof. unfold all_used. by rewrite forallb_forall, List.Forall_forall. Qed.

Lemma first_free_used_free l n m k s :
  Forall block_ok l ->
  first_free s (l ++ (n, true) :: (m, false) :: k) =
    if forallb (fun b => b.2) l then s + bsum l + n else first_free s l.
Proof.
  intros Hl.
  destruct (first_free_app l s ((n, true) :: (m, false) :: k) Hl) as [[Hu ->]|(Hu & -> & _)];
    destruct (forallb _ l) eqn:E; try done.
  - apply all_usedb in Hu. congruence.
  - destruct Hu. by apply all_usedb.
Qed.

(** The part of mem_trim that every refusal precedes. *)
Lemma mem_trim_enter h l n k newsize :
  heap_rep h (l ++ (n, true) :: k) -> 0 <= newsize ->
  let size := round_size newsize in
  (16000 < size -> mem_trim (bsum l + 8) newsize h = Done (None, h)) /\
  (size <= 16000 -> n < size + 8 -> mem_trim (bsum l + 8) newsize h = Crash AssertFailed) /\
  (size + 8 = n -> mem_trim (bsum l + 8) newsize h = Done (Some (bsum l + 8), h)).
Proof.
  destruct h as [r lf st]. intros [Hp _] Hsz size.
  destruct (heap_pre_bounds _ _ _ _ _ Hp) as (? & ? & Hsum & ? & _).
  pose proof (shape_lookup _ _ _ _ _ (proj1 Hp)) as Hm. simpl in Hm.
  pose proof (round_size_props newsize Hsz) as [Hlo _]. fold size in Hlo.
  unfold mem_trim. cbv zeta. change MIN_SIZE_ALIGNED with 12. fold (round_size newsize). fold size.
  change ram_end with 16000. change MEM_SIZE_ALIGNED with 16000. change SIZEOF_STRUCT_MEM with 8.
  split; [intros; by rewrite (proj2 (Z.ltb_lt 16000 size)) by lia|].
  rewrite (proj2 (Z.ltb_nlt (bsum l + 8) 0)), (proj2 (Z.leb_nle 16000 (bsum l + 8))) by lia.
  replace (bsum l + 8 - 8) with (bsum l) by lia. cbn [orb].
  split; intros; rewrite (proj2 (Z.ltb_nlt 16000 size)) by lia;
    rewrite lwip_assert_bind by lia; erewrite bind_done by (by apply rd_eq); cbn [next];
    rewrite !u16_id by (unfold is_u16; rewrite ?u16_id by (unfold is_u16; lia); lia);
    replace (bsum l + n - bsum l - 8) with (n - 8) by lia.
  - by rewrite (proj2 (Z.leb_nle size (n - 8))) by lia.
  - rewrite lwip_assert_bind, (proj2 (Z.ltb_nlt (n - 8) size)), (proj2 (Z.eqb_eq size (n - 8))) by lia.
    done.
Qed.

Lemma no_adj_replace l x y :
  head_free x = head_free y -> no_adj (l ++ x) -> no_adj y -> no_adj (l ++ y).
Proof.
  intros Hh Hx Hy. induction l as [|b l IH]; [done|]. cbn [app] in *.
  rewrite no_adj_cons in *. destruct Hx as [H1 H2]. split; [|by apply IH].
  destruct l as [|[? ?] ?]; [|done]. simpl in *. by rewrite <- Hh.
Qed.

Definition cut_heap (h : heap) (l : list block) (size n e lf : Z) : heap :=
  Heap (cut_map (ram h) (bsum l) (last_addr 0 0 l) (bsum l + 8 + size) e) lf
    (dec_used (n - 8 - size) (stats h)).

Lemma dec_used_ok st l n k size m :
  st_used st = used_sum (l ++ (n, true) :: k) -> Forall block_ok l -> Forall block_ok k ->
  bsum l + n + bsum k = 16000 -> 12 <= size -> size + 8 <= n ->
  st_used (dec_used (n - 8 - size) st) = used_sum (l ++ (size + 8, true) :: (m, false) :: k).
Proof.
  intros Hst Hl Hk Hsum Hlo Hle.
  pose proof (used_sum_bounds l Hl). pose proof (used_sum_bounds k Hk).
  rewrite used_sum_mid in *. rewrite used_sum_cons. simpl in *.
  rewrite u16_id by (unfold is_u16; lia). lia.
Qed.

(** The boundary behind a block moved down, with the next block in use. *)
Lemma shrink_used_ok h l n k size :
  heap_rep h (l ++ (n, true) :: k) -> 12 <= size -> size mod 4 = 0 -> size + 28 <= n ->
  head_free k = false ->
  heap_rep (cut_heap h l size n (bsum l + n) (Z.min (bsum l + 8 + size) (lfree h)))
    (l ++ (size + 8, true) :: (n - 8 - size, false) :: k).
Proof.
  destruct h as [r lf st]. intros [Hp Hadj] Hlo Hmod Hle Hk0.
  destruct (heap_pre_bounds _ _ _ _ _ Hp) as (? & ? & Hsum & ? & ? & Hnm & Hl & Hk).
  destruct Hp as (Hs & Hlf & Hst). simpl in Hs, Hlf, Hst.
  pose proof Hs as (_ & _ & Hse). split; [split; [|split]|].
  - apply cut_map_shape; [done|lia|lia|].
    replace (bsum l + 8 + size) with (bsum l + (size + 8)) by lia.
    apply (shape_split r l n true (size + 8) true (n - 8 - size) false k); [done|lia| |];
      (split; simpl; [lia|zdm]).
  - simpl. rewrite Hlf, first_free_used_free by done.
    destruct (first_free_app l 0 ((n, true) :: k) Hl) as [[Hu ->]|(Hu & -> & ?)].
    + rewrite (proj2 (all_usedb l)) by done. cbn [first_free].
      pose proof (first_free_bounds k (0 + bsum l + n) Hk). lia.
    + destruct (forallb _ l) eqn:E; [by apply all_usedb in E|]. lia.
  - apply (dec_used_ok st l n k size); try done; lia.
  - apply no_adj_replace with ((n, true) :: k); [done|done|].
    apply no_adj_cons. split; [done|]. apply no_adj_cons. rewrite Hk0. split; [done|].
    eapply (no_adj_app_r [(n, true)]), (no_adj_app_r l). exact Hadj.
Qed.

(** The boundary behind a block moved down, with the next block free. *)
Lemma shrink_free_ok h l n m k size :
  heap_rep h (l ++ (n, true) :: (m, false) :: k) -> 12 <= size -> size mod 4 = 0 -> size + 8 < n ->
  heap_rep (cut_heap h l size n (bsum l + n + m)
             (if lfree h =? bsum l + n then bsum l + 8 + size else lfree h))
    (l ++ (size + 8, true) :: (m + (n - 8 - size), false) :: k).
Proof.
  destruct h as [r lf st]. intros [Hp Hadj] Hlo Hmod Hle.
  destruct (heap_pre_bounds _ _ _ _ _ Hp) as (? & ? & Hsum & ? & ? & Hnm & Hl & Hk).
  destruct Hp as (Hs & Hlf & Hst). simpl in Hs, Hlf, Hst.
  apply Forall_cons_iff in Hk as [[Hm Hmm] Hk]. simpl in Hm, Hmm.
  change (bsum ((m, false) :: k)) with (m + bsum k) in *. pose proof (bsum_nonneg k Hk).
  pose proof Hs as (_ & _ & Hse). split; [split; [|split]|].
  - apply cut_map_shape; [done|lia|lia|].
    replace (bsum l + 8 + size) with (bsum l + (size + 8)) by lia.
    apply (shape_move r l n true m false k (size + 8) (m + (n - 8 - size)) true false); [done|lia| |];
      (split; simpl; [lia|zdm]).
  - simpl. rewrite Hlf, !first_free_used_free by done.
    destruct (forallb _ l) eqn:E; simpl.
    + rewrite Z.eqb_refl. lia.
    + assert (~ all_used l) as Hu by (rewrite <- all_usedb; congruence).
      destruct (first_free_app l 0 [] Hl) as [[? _]|(_ & _ & ?)]; [done|].
      by rewrite (proj2 (Z.eqb_neq _ _)) by lia.
  - etrans; [apply (dec_used_ok st l n ((m, false) :: k) size m)|].
    all: try done; try (change (bsum ((m, false) :: k)) with (m + bsum k)); try lia.
    + by constructor.
    + by rewrite !used_sum_mid, !used_sum_cons.
  - apply no_adj_replace with ((n, true) :: (m, false) :: k); [done|done|].
    apply no_adj_app_r in Hadj. apply no_adj_cons in Hadj as [_ Hadj].
    by rewrite !no_adj_cons in *.
Qed.

Lemma mem_trim_ok h l n k newsize :
  heap_rep h (l ++ (n, true) :: k) -> 0 <= newsize -> round_size newsize + 8 <= n ->
  exists h', mem_trim (bsum l + 8) newsize h = Done (Some (bsum l + 8), h') /\
    heap_rep h' (l ++ shrink_block (round_size newsize) n k) /\
    st_err (stats h') = st_err (stats h) /\ st_illegal (stats h') = st_illegal (stats h).
Proof.
  destruct h as [r lf st]. intros Hrep Hsz Hle.
  pose proof (round_size_props newsize Hsz) as [Hlo Hmod].
  destruct (mem_trim_enter _ _ _ _ _ Hrep Hsz) as (_ & _ & Heq).
  set (size := round_size newsize) in *.
  destruct (decide (size + 8 = n)) as [E|Hne].
  { exists (Heap r lf st). split; [by apply Heq|]. split; [|done]. unfold shrink_block.
    rewrite (proj2 (Z.eqb_eq _ _)), (proj2 (Z.leb_nle (size + 28) n)) by lia.
    by destruct k as [|[m [|]] k]. }
  clear Heq. pose proof Hrep as [Hp _].
  destruct (heap_pre_bounds _ _ _ _ _ Hp) as (? & ? & Hsum & ? & _ & _ & Hl & Hk).
  destruct Hp as (Hs & _). simpl in Hs.
  pose proof (shape_lookup _ _ _ _ _ Hs) as Hm. simpl in Hm.
  destruct (shape_next _ _ _ _ _ Hs) as (m2 & Hm2 & Hu2 & Hx2).
  unfold mem_trim. cbv zeta. change MIN_SIZE_ALIGNED with 12. fold (round_size newsize). fold size.
  change ram_end with 16000. change MEM_SIZE_ALIGNED with 16000. change SIZEOF_STRUCT_MEM with 8.
  rewrite (proj2 (Z.ltb_nlt 16000 size)) by lia. rewrite lwip_assert_bind by lia.
  rewrite (proj2 (Z.ltb_nlt (bsum l + 8) 0)), (proj2 (Z.leb_nle 16000 (bsum l + 8))) by lia.
  cbn [orb]. replace (bsum l + 8 - 8) with (bsum l) by lia.
  erewrite bind_done by (by apply rd_eq). cbn [next].
  rewrite (u16_id (bsum l)) by (unfold is_u16; lia).
  replace (bsum l + n - bsum l - 8) with (n - 8) by lia.
  rewrite (u16_id (n - 8)), (u16_id (bsum l + 8 + size)) by (unfold is_u16; lia).
  rewrite lwip_assert_bind, (proj2 (Z.ltb_nlt (n - 8) size)), (proj2 (Z.eqb_neq size (n - 8))) by lia.
  erewrite bind_done by (by apply rd_eq). rewrite Hu2.
  destruct (head_free k) eqn:Hk0.
  - destruct k as [|[m [|]] k]; try done. simpl Z.b2z. cbn [Z.eqb].
    pose proof (shrink_free_ok _ _ _ _ _ _ Hrep Hlo Hmod ltac:(lia)) as Hrep'.
    destruct (shape_next r (l ++ [(n, true)]) m false k) as (m3 & Hm3 & _).
    { by rewrite <- app_assoc. }
    rewrite bsum_snoc in Hm3.
    eexists. split; [|split; [cbn [shrink_block]; rewrite (proj2 (Z.eqb_neq _ _)) by lia; exact Hrep'|done]].
    rewrite bind_assoc, get_bind, bind_assoc. cbn [lfree].
    erewrite (bind_done _ _ _ tt).
    2: { by instantiate (1 := Heap r (if lf =? bsum l + n then bsum l + 8 + size else lf) st);
         destruct (lf =? bsum l + n). }
    rewrite Hx2. rewrite (cut_ok _ _ _ _ (bsum l + n) (last_addr 0 0 l)); [done|done|by eexists|lia].
  - assert ((if match k with (_, v) :: _ => Z.b2z v | [] => 1 end =? 0 then true else false) = false) as Hk1.
    { by destruct k as [|[m [|]] k]. }
    replace (match k with (_, v) :: _ => Z.b2z v | [] => 1 end =? 0) with false
      by (by destruct (_ =? 0)).
    assert (shrink_block size n k =
            if size + 28 <=? n then (size + 8, true) :: (n - 8 - size, false) :: k
            else (n, true) :: k) as -> by (by destruct k as [|[m [|]] k]).
    replace (size + 8 + 12 <=? n - 8) with (size + 28 <=? n) by lia.
    destruct (Z.leb_spec (size + 28) n).
    + pose proof (shrink_used_ok _ _ _ _ _ Hrep Hlo Hmod ltac:(lia) Hk0) as Hrep'.
      eexists. split; [|split; [exact Hrep'|done]].
      rewrite bind_assoc, get_bind, bind_assoc. cbn [lfree].
      erewrite (bind_done _ _ _ tt).
      2: { instantiate (1 := Heap r (Z.min (bsum l + 8 + size) lf) st).
           destruct (Z.ltb_spec (bsum l + 8 + size) lf);
             [rewrite Z.min_l by lia|rewrite Z.min_r by lia]; done. }
      rewrite (cut_ok _ _ _ _ (bsum l + n) (last_addr 0 0 l)); [done|done|by eexists|lia].
    + rewrite ret_bind. by exists (Heap r lf st).
Qed.

(** ** Properties *)

Definition stats_zero : mem_stats := MemStats 0 0 0 0.

(** The heap after boot. *)
Definition heap_boot : heap := mem_init (Heap ∅ 0 stats_zero).

Lemma heap_boot_rep : heap_rep heap_boot [(16000, false)].
Proof.
  split; [split; [split; [|split]|]|]; try done.
  - exists 16000. reflexivity.
Qed.

Lemma first_fit_some size bl : forall s a bl',
  first_fit size s bl = Some (a, bl') ->
  exists l n k, bl = l ++ (n, false) :: k /\ a = s + bsum l /\ size + 8 <= n /\
    bl' = l ++ take_block size n ++ k.
Proof.
  induction bl as [|[n u] bl IH]; intros s a bl' E; [done|]. simpl in E.
  destruct (negb u && (size + 8 <=? n)) eqn:Hc.
  - simplify_eq. apply andb_prop in Hc as [Hu Hn%Z.leb_le]. destruct u; [done|].
    exists [], n, bl. unfold bsum. simpl. split; [done|]. split; [lia|done].
  - destruct (first_fit size (s + n) bl) as [[a' k']|] eqn:E'; [|done]. simplify_eq.
    apply IH in E' as (l & m & k & -> & -> & Hm & ->).
    exists ((n, u) :: l), m, k. split; [done|]. split; [|done].
    change (bsum ((n, u) :: l)) with (n + bsum l). lia.
Qed.

Lemma release_mid l n u k :
  Forall block_ok l -> release (bsum l) (l ++ (n, u) :: k) = coalesce (l ++ (n, false) :: k).
Proof. intros Hl. unfold release. by rewrite <- (unmark_app l n u k 0 Hl). Qed.

Lemma coalesce_split l n m k :
  no_adj (l ++ (n, false) :: k) ->
  coalesce (l ++ (n - m, false) :: (m, false) :: k) = l ++ (n, false) :: k.
Proof.
  intros Hadj. pose proof (no_adj_app_r _ _ Hadj) as Hk. apply no_adj_cons in Hk as [Hh Hk].
  simpl in Hh. induction l as [|b l IH]; cbn [app].
  - change (coalesce ((n - m, false) :: (m, false) :: k)) with
      (match coalesce ((m, false) :: k) with
       | (p, false) :: bl' => (n - m + p, false) :: bl'
       | bl' => (n - m, false) :: bl'
       end).
    rewrite coalesce_cons by (rewrite coalesce_id by done; done).
    rewrite coalesce_id by done. do 2 f_equal. lia.
  - cbn [app] in Hadj. apply no_adj_cons in Hadj as [H1 H2].
    rewrite coalesce_cons; rewrite IH by done; done.
Qed.

(** The block an address is given for. *)
Definition block_at (h : heap) (p : Z) : option Z :=
  match ram h !! (p - 8) with
  | Some m => Some (next m - p)
  | None => None
  end.

(** C30: mem_malloc implements first fit: on a heap that holds the blocks [bl]
    it takes the first free block of at least the rounded size plus a header,
    splits off a remainder of at least 20 bytes, returns the address behind the
    header and leaves a heap that satisfies the invariant (statistics and
    lowest-free pointer included); when no block fits it returns NULL, changing
    only the error counter.  No assertion fails and the loops end. *)
Theorem mem_malloc_first_fit h bl size :
  heap_rep h bl -> 0 < size ->
  match first_fit (round_size size) 0 bl with
  | Some (a, bl') =>
      exists h', mem_malloc size h = Done (Some (a + 8), h') /\ heap_rep h' bl'
  | None =>
      mem_malloc size h =
        Done (None, if 16000 <? round_size size then h else count_err h)
  end.
Proof.
  intros Hrep Hsz. destruct (mem_malloc_ok h bl size Hrep Hsz) as [Hlo Hhi].
  pose proof Hrep as [(Hs & _) _]. pose proof (shape_block_ok _ _ Hs) as Hok.
  destruct Hs as (_ & Hsum & _). destruct (Z.ltb_spec 16000 (round_size size)).
  - rewrite first_fit_none by (done || lia). auto.
  - specialize (Hlo ltac:(lia)). unfold alloc_post in Hlo.
    destruct (first_fit _ _ _) as [[a bl']|]; [|done].
    destruct Hlo as (h' & E & Hr & _). by exists h'.
Qed.

Lemma mem_malloc_first_fit_witness :
  exists h', mem_malloc 100 heap_boot = Done (Some 8, h') /\
    heap_rep h' [(108, true); (15892, false)].
Proof.
  apply (mem_malloc_first_fit heap_boot [(16000, false)] 100 heap_boot_rep). lia.
Defined.

(** C31: mem_free gives back a block in use: the heap afterwards holds the same
    blocks with this one free and joined with its free neighbours, the
    lowest-free pointer and the statistics follow, no assertion fails. *)
Theorem mem_free_coalesces h bl a :
  heap_rep h bl -> live bl a ->
  exists h', mem_free (Some (a + 8)) h = Done (tt, h') /\ heap_rep h' (release a bl).
Proof.
  intros Hrep (l & n & k & -> & ->).
  destruct (heap_pre_bounds _ _ _ _ _ (proj1 Hrep)) as (_ & _ & _ & _ & _ & _ & Hl & _).
  destruct (mem_free_ok _ _ _ _ Hrep) as (h' & E & Hr & _).
  exists h'. rewrite release_mid by done. done.
Qed.

(** A heap with one block handed out, for the witnesses. *)
Lemma heap_one :
  exists h, mem_malloc 100 heap_boot = Done (Some 8, h) /\
    heap_rep h [(108, true); (15892, false)].
Proof.
  destruct (mem_malloc_ok heap_boot _ 100 heap_boot_rep ltac:(lia)) as [H _].
  destruct (H ltac:(vm_compute; discriminate)) as (h & E & Hr & _). by exists h.
Qed.

Lemma mem_free_coalesces_witness :
  exists h h', mem_malloc 100 heap_boot = Done (Some 8, h) /\
    mem_free (Some 8) h = Done (tt, h') /\ heap_rep h' [(16000, false)].
Proof.
  destruct heap_one as (h & E & Hr). exists h.
  destruct (mem_free_coalesces h _ 0 Hr) as (h' & E' & Hr').
  - exists [], 108, [(15892, false)]. split; reflexivity.
  - exists h'. split; [exact E|]. split; [exact E'|exact Hr'].
Defined.

(** Mem_trim on a block of [n] bytes: a rounded size that no heap can hold is
    refused with NULL, one above the block's size aborts, and otherwise the same
    pointer comes back and the block ends after the rounded size, the rest going
    to the free block behind it, or becoming a block of its own when it has room
    for one, or staying unused inside of the block. *)
Theorem mem_trim_shrinks h l n k newsize :
  heap_rep h (l ++ (n, true) :: k) -> 0 <= newsize ->
  let size := round_size newsize in
  if 16000 <? size then mem_trim (bsum l + 8) newsize h = Done (None, h)
  else if n <? size + 8 then mem_trim (bsum l + 8) newsize h = Crash AssertFailed
  else exists h', mem_trim (bsum l + 8) newsize h = Done (Some (bsum l + 8), h') /\
         heap_rep h' (l ++ shrink_block size n k).
Proof.
  intros Hrep Hsz size. destruct (mem_trim_enter _ _ _ _ _ Hrep Hsz) as (H1 & H2 & _).
  fold size in H1, H2. destruct (Z.ltb_spec 16000 size); [auto|].
  destruct (Z.ltb_spec n (size + 8)); [auto|].
  destruct (mem_trim_ok _ _ _ _ _ Hrep Hsz ltac:(fold size; lia)) as (h' & E & Hr & _).
  by exists h'.
Qed.

Lemma mem_trim_shrinks_witness :
  exists h h', mem_malloc 100 heap_boot = Done (Some 8, h) /\
    mem_trim 8 50 h = Done (Some 8, h') /\ heap_rep h' [(60, true); (15940, false)].
Proof.
  destruct heap_one as (h & E & Hr). exists h.
  destruct (mem_trim_shrinks h [] 108 [(15892, false)] 50 Hr ltac:(lia)) as (h' & E' & Hr').
  exists h'. split; [exact E|]. split; [exact E'|exact Hr'].
Defined.

(** Mem_free undoes mem_malloc: freeing the block just obtained leaves a heap
    that holds exactly the blocks there were before. *)
Theorem mem_malloc_free_roundtrip h bl size p h1 :
  heap_rep h bl -> 0 < size -> mem_malloc size h = Done (Some p, h1) ->
  exists h2, mem_free (Some p) h1 = Done (tt, h2) /\ heap_rep h2 bl.
Proof.
  intros Hrep Hsz E. destruct (mem_malloc_ok h bl size Hrep Hsz) as [Hlo Hhi].
  destruct (Z.ltb_spec 16000 (round_size size)); [rewrite Hhi in E by lia; done|].
  specialize (Hlo ltac:(lia)). unfold alloc_post in Hlo.
  destruct (first_fit _ _ _) as [[a bl']|] eqn:Ef; [|congruence].
  destruct Hlo as (h' & E' & Hr & _). rewrite E in E'. simplify_eq.
  apply first_fit_some in Ef as (l & n & k & -> & -> & Hn & ->).
  pose proof Hrep as [_ Hadj]. pose proof (no_adj_app_r _ _ Hadj) as Hk.
  unfold take_block in Hr. change (0 + bsum l) with (bsum l).
  destruct (_ <=? _); cbn [app] in Hr.
  - destruct (mem_free_ok _ _ _ _ Hr) as (h2 & E2 & Hr2 & _). exists h2. split; [done|].
    replace (8 + round_size size) with (n - (n - 8 - round_size size)) in Hr2 by lia.
    by rewrite coalesce_split in Hr2.
  - destruct (mem_free_ok _ _ _ _ Hr) as (h2 & E2 & Hr2 & _). exists h2. split; [done|].
    by rewrite coalesce_id in Hr2.
Qed.

Lemma mem_malloc_free_roundtrip_witness :
  exists h h', mem_malloc 100 heap_boot = Done (Some 8, h) /\
    mem_free (Some 8) h = Done (tt, h') /\ heap_rep h' [(16000, false)].
Proof.
  destruct heap_one as (h & E & Hr).
  destruct (mem_malloc_free_roundtrip heap_boot _ 100 8 h heap_boot_rep ltac:(lia) E) as (h' & E' & Hr').
  exists h, h'. split; [exact E|]. split; [exact E'|exact Hr'].
Defined.

(** *** Histories of the heap *)

(** The pointers given out for the blocks in use. *)
Fixpoint used_ptrs (s : Z) (bl : list block) : list Z :=
  match bl with
  | [] => []
  | (n, u) :: bl => (if (u : bool) then [s + 8] else []) ++ used_ptrs (s + n) bl
  end.

Lemma used_ptrs_app l : forall s k,
  used_ptrs s (l ++ k) = used_ptrs s l ++ used_ptrs (s + bsum l) k.
Proof.
  induction l as [|[n u] l IH]; intros s k; cbn [app used_ptrs].
  - unfold bsum. simpl. by rewrite Z.add_0_r.
  - rewrite IH, app_assoc. change (bsum ((n, u) :: l)) with (n + bsum l). by rewrite Z.add_assoc.
Qed.

Lemma used_ptrs_coalesce bl : forall s, used_ptrs s (coalesce bl) = used_ptrs s bl.
Proof.
  induction bl as [|[n [|]] bl IH]; intros s; [done| |].
  - simpl. by rewrite IH.
  - cbn [used_ptrs]. rewrite <- IH. simpl coalesce.
    destruct (coalesce bl) as [|[m [|]] k]; [done|done|]. simpl. by rewrite Z.add_assoc.
Qed.

Lemma used_ptrs_take s size n k :
  used_ptrs s (take_block size n ++ k) = s + 8 :: used_ptrs (s + n) k.
Proof.
  unfold take_block. destruct (_ <=? _); cbn [app used_ptrs]; [|done].
  cbn [app]. do 2 f_equal. lia.
Qed.

Lemma used_ptrs_shrink s size n k :
  used_ptrs s (shrink_block size n k) = s + 8 :: used_ptrs (s + n) k.
Proof.
  unfold shrink_block.
  destruct k as [|[m [|]] k]; [destruct (_ <=? _)|destruct (_ <=? _)|destruct (_ =? _)];
    cbn [app used_ptrs]; try done; cbn [app]; repeat (f_equal; try lia).
Qed.

Lemma used_ptrs_live bl p :
  p ∈ used_ptrs 0 bl -> live bl (p - 8).
Proof.
  unfold live. intros Hp.
  assert (forall s, p ∈ used_ptrs s bl ->
    exists l n k, bl = l ++ (n, true) :: k /\ p - 8 = s + bsum l) as H.
  { clear Hp. induction bl as [|[n u] bl IH]; intros s; simpl; [by rewrite elem_of_nil|].
    rewrite elem_of_app. intros [Hp|Hp].
    - destruct u; [|by rewrite elem_of_nil in Hp]. apply list_elem_of_singleton in Hp.
      exists [], n, bl. split; [done|]. unfold bsum. simpl. lia.
    - destruct (IH _ Hp) as (l & m & k & -> & E). exists ((n, u) :: l), m, k.
      split; [done|]. change (bsum ((n, u) :: l)) with (n + bsum l). lia. }
  destruct (H 0 Hp) as (l & n & k & -> & E). exists l, n, k. split; [done|lia].
Qed.

Lemma used_ptrs_range bl : forall s p,
  Forall block_ok bl -> p ∈ used_ptrs s bl -> s + 8 <= p /\ p + 12 <= s + bsum bl.
Proof.
  induction bl as [|[n u] bl IH]; intros s p Hok; simpl; [by rewrite elem_of_nil|].
  apply Forall_cons_iff in Hok as [[Hn _] Hok]. simpl in Hn. pose proof (bsum_nonneg bl Hok).
  change (bsum ((n, u) :: bl)) with (n + bsum bl). rewrite elem_of_app. intros [Hp|Hp].
  - destruct u; [|by rewrite elem_of_nil in Hp]. apply list_elem_of_singleton in Hp. lia.
  - specialize (IH _ _ Hok Hp). lia.
Qed.

Lemma used_ptrs_NoDup bl : forall s, Forall block_ok bl -> NoDup (used_ptrs s bl).
Proof.
  induction bl as [|[n u] bl IH]; intros s Hok; simpl; [constructor|].
  apply Forall_cons_iff in Hok as [[Hn _] Hok]. simpl in Hn.
  destruct u; simpl; [|by apply IH]. constructor; [|by apply IH].
  intros Hp. apply used_ptrs_range in Hp; [lia|done].
Qed.

(** The states a client can bring the heap to that frees and trims only what it
    was given: the heap, and the pointers it holds. *)
Inductive client : heap -> list Z -> Prop :=
| client_boot : client heap_boot []
| client_malloc h ps size p h' :
    client h ps -> is_u16 size -> mem_malloc size h = Done (Some p, h') -> client h' (p :: ps)
| client_full h ps size h' :
    client h ps -> is_u16 size -> mem_malloc size h = Done (None, h') -> client h' ps
| client_free h ps1 p ps2 h' :
    client h (ps1 ++ p :: ps2) -> mem_free (Some p) h = Done (tt, h') -> client h' (ps1 ++ ps2)
| client_trim h ps p newsize q h' :
    client h ps -> p ∈ ps -> is_u16 newsize -> mem_trim p newsize h = Done (q, h') -> client h' ps.

Definition client_inv (h : heap) (ps : list Z) : Prop :=
  exists bl, heap_rep h bl /\ ps ≡ₚ used_ptrs 0 bl.

Lemma mem_malloc_zero h : mem_malloc 0 h = Done (None, h).
Proof. done. Qed.

Lemma heap_rep_count_err h bl : heap_rep h bl -> heap_rep (count_err h) bl.
Proof. done. Qed.

Lemma client_inv_malloc h ps size r h' :
  client_inv h ps -> is_u16 size -> mem_malloc size h = Done (r, h') ->
  client_inv h' (match r with Some p => p :: ps | None => ps end).
Proof.
  intros (bl & Hrep & Hps) Hsz E. destruct (decide (size = 0)) as [->|Hnz].
  { rewrite mem_malloc_zero in E. simplify_eq. by exists bl. }
  destruct (mem_malloc_ok h bl size Hrep ltac:(unfold is_u16 in *; lia)) as [Hlo Hhi].
  destruct (Z.ltb_spec 16000 (round_size size)).
  { rewrite Hhi in E by lia. simplify_eq. by exists bl. }
  specialize (Hlo ltac:(lia)). rewrite E in Hlo. unfold alloc_post in Hlo.
  destruct (first_fit _ _ _) as [[a bl']|] eqn:Ef.
  - destruct Hlo as (h2 & E2 & Hr & _). simplify_eq. exists bl'. split; [done|].
    apply first_fit_some in Ef as (l & n & k & -> & -> & Hn & ->).
    rewrite Hps, (used_ptrs_app l 0 (_ :: _)), (used_ptrs_app l 0 (take_block _ _ ++ _)).
    rewrite used_ptrs_take. cbn [used_ptrs app].
    by rewrite Permutation_middle.
  - simplify_eq. exists bl. split; [by apply heap_rep_count_err|done].
Qed.

Lemma client_inv_free h p ps :
  client_inv h (p :: ps) ->
  exists h', mem_free (Some p) h = Done (tt, h') /\ client_inv h' ps.
Proof.
  intros (bl & Hrep & Hps).
  destruct (used_ptrs_live bl p) as (l & n & k & -> & Hp).
  { rewrite <- Hps. apply list_elem_of_here. }
  assert (p = bsum l + 8) as -> by lia.
  destruct (mem_free_ok _ _ _ _ Hrep) as (h' & E & Hr & _).
  exists h'. split; [done|]. eexists. split; [exact Hr|].
  rewrite used_ptrs_coalesce. rewrite used_ptrs_app in *. cbn [used_ptrs app] in *.
  change (0 + bsum l) with (bsum l) in *.
  rewrite <- Permutation_middle in Hps. by apply Permutation_cons_inv in Hps.
Qed.

Lemma client_inv_trim h p ps newsize :
  client_inv h ps -> p ∈ ps -> is_u16 newsize ->
  (mem_trim p newsize h = Crash AssertFailed /\
   exists n, block_at h p = Some n /\ n < round_size newsize <= 16000) \/
  exists r h', mem_trim p newsize h = Done (r, h') /\ client_inv h' ps.
Proof.
  intros (bl & Hrep & Hps) Hp Hsz.
  destruct (used_ptrs_live bl p) as (l & n & k & -> & Hpl); [by rewrite <- Hps|].
  assert (p = bsum l + 8) as -> by lia. unfold is_u16 in Hsz.
  destruct (mem_trim_enter _ _ _ _ newsize Hrep ltac:(lia)) as (H1 & H2 & _).
  destruct (Z.ltb_spec 16000 (round_size newsize)).
  { right. exists None, h. split; [by apply H1|]. by eexists. }
  destruct (Z.ltb_spec n (round_size newsize + 8)).
  { left. split; [by apply H2|]. exists (n - 8). split; [|lia]. unfold block_at.
    replace (bsum l + 8 - 8) with (bsum l) by lia.
    rewrite (shape_lookup _ _ _ _ _ (proj1 (proj1 Hrep))). simpl. f_equal. lia. }
  destruct (mem_trim_ok _ _ _ _ newsize Hrep ltac:(lia) ltac:(lia)) as (h' & E & Hr & _).
  right. exists (Some (bsum l + 8)), h'. split; [done|]. eexists. split; [exact Hr|].
  rewrite used_ptrs_app in *. by rewrite used_ptrs_shrink.
Qed.

Lemma client_reachable h ps : client h ps -> client_inv h ps.
Proof.
  induction 1 as [|h ps size p h' _ IH Hsz E|h ps size h' _ IH Hsz E|h ps1 p ps2 h' _ IH E
    |h ps p newsize q h' _ IH Hp Hsz E].
  - exists [(16000, false)]. split; [apply heap_boot_rep|done].
  - exact (client_inv_malloc _ _ _ _ _ IH Hsz E).
  - exact (client_inv_malloc _ _ _ _ _ IH Hsz E).
  - assert (client_inv h (p :: ps1 ++ ps2)) as IH'.
    { destruct IH as (bl & Hr & Hps). exists bl. split; [done|].
      by rewrite <- Hps, Permutation_middle. }
    destruct (client_inv_free _ _ _ IH') as (h2 & E2 & Hi). congruence.
  - destruct (client_inv_trim _ _ _ _ IH Hp Hsz) as [[E2 _]|(r & h2 & E2 & Hi)]; congruence.
Qed.

Lemma round_size_ge size : 0 <= size <= 65532 -> size <= round_size size.
Proof.
  intros H. unfold round_size. rewrite align_arith, u16_id by (unfold is_u16; zdm).
  destruct (Z.ltb_spec ((size + 3) / 4 * 4) 12); zdm.
Qed.

Lemma round_size_wrap size : 65532 < size < 65536 -> round_size size = 12.
Proof.
  intros H. unfold round_size. rewrite align_arith.
  assert ((size + 3) / 4 = 16384) as -> by zdm. done.
Qed.

(** What a successful mem_malloc says of the block. *)
Lemma mem_malloc_block h bl size p h' :
  heap_rep h bl -> 0 < size -> mem_malloc size h = Done (Some p, h') ->
  exists n, block_at h' p = Some n /\ round_size size <= n /\ 8 <= p /\ p + n <= 16000.
Proof.
  intros Hrep Hsz E. destruct (mem_malloc_ok h bl size Hrep Hsz) as [Hlo Hhi].
  destruct (Z.ltb_spec 16000 (round_size size)); [rewrite Hhi in E by lia; done|].
  specialize (Hlo ltac:(lia)). rewrite E in Hlo. unfold alloc_post in Hlo.
  destruct (first_fit _ _ _) as [[a bl']|] eqn:Ef; [|congruence].
  destruct Hlo as (h2 & E2 & Hr & _). simplify_eq.
  apply first_fit_some in Ef as (l & n & k & -> & -> & Hn & ->).
  destruct Hr as [Hp _].
  assert (exists m k', take_block (round_size size) n ++ k = (m, true) :: k' /\ round_size size + 8 <= m)
    as (m & k' & E' & Hm).
  { unfold take_block. destruct (_ <=? _); cbn [app]; eexists _, _; (split; [done|lia]). }
  rewrite E' in Hp. destruct (heap_pre_bounds _ _ _ _ _ Hp) as (? & ? & ? & ? & _).
  exists (m - 8). unfold block_at. replace (0 + bsum l + 8 - 8) with (bsum l) by lia.
  rewrite (shape_lookup _ _ _ _ _ (proj1 Hp)). simpl. split; [f_equal; lia|lia].
Qed.

(** C2: however a client uses the heap, as long as it frees and trims only what
    it was given: the pointers it holds are distinct, 4-aligned, at least 12
    bytes inside of the heap, and their blocks (with the header in front of the
    later one) do not overlap; mem_malloc returns for every request, mem_free
    for every pointer the client holds, and mem_trim for every such pointer and
    every size its block has room for, or that is larger than the heap: no
    assertion aborts, no access is outside of the heap and no search runs
    forever.  A size in between makes the assertion of mem_trim fail that it
    only shrinks. *)
Theorem heap_client_safe h ps :
  client h ps ->
  NoDup ps /\
  (forall p, p ∈ ps -> p mod 4 = 0 /\
     exists n, block_at h p = Some n /\ 8 <= p /\ 12 <= n /\ p + n <= 16000) /\
  (forall p q n, p ∈ ps -> q ∈ ps -> p < q -> block_at h p = Some n -> p + n + 8 <= q) /\
  (forall size, is_u16 size -> exists r h', mem_malloc size h = Done (r, h')) /\
  (forall p, p ∈ ps -> exists h', mem_free (Some p) h = Done (tt, h')) /\
  (forall p newsize, p ∈ ps -> is_u16 newsize ->
     (exists r h', mem_trim p newsize h = Done (r, h')) \/
     mem_trim p newsize h = Crash AssertFailed /\
       exists n, block_at h p = Some n /\ n < round_size newsize <= 16000).
Proof.
  intros Hc%client_reachable. pose proof Hc as (bl & Hrep & Hps).
  pose proof (shape_block_ok _ _ (proj1 (proj1 Hrep))) as Hok.
  assert (forall p, p ∈ ps -> exists l n k, bl = l ++ (n, true) :: k /\ p = bsum l + 8 /\
    block_at h p = Some (n - 8)) as Hb.
  { intros p Hp. rewrite Hps in Hp. destruct (used_ptrs_live _ _ Hp) as (l & n & k & -> & E).
    exists l, n, k. split; [done|]. split; [lia|]. unfold block_at. rewrite E.
    rewrite (shape_lookup _ _ _ _ _ (proj1 (proj1 Hrep))). simpl. f_equal. lia. }
  split; [|split; [|split; [|split; [|split]]]].
  - rewrite Hps. by apply used_ptrs_NoDup.
  - intros p Hp. destruct (Hb p Hp) as (l & n & k & -> & -> & E).
    destruct (heap_pre_bounds _ _ _ _ _ (proj1 Hrep)) as (? & ? & ? & ? & ? & _).
    split; [zdm|]. exists (n - 8). split; [done|lia].
  - intros p q n Hp Hq Hlt En. destruct (Hb p Hp) as (l & m & k & -> & -> & E).
    rewrite E in En. simplify_eq. rewrite Hps, used_ptrs_app, elem_of_app in Hq.
    destruct Hq as [Hq|Hq].
    + apply used_ptrs_range in Hq; [lia|]. by apply Forall_app in Hok as [? _].
    + cbn [used_ptrs app] in Hq. apply elem_of_cons in Hq as [->|Hq]; [lia|].
      apply used_ptrs_range in Hq; [lia|].
      apply Forall_app in Hok as [_ Hok]. by inversion Hok.
  - intros size Hsz. destruct (decide (size = 0)) as [->|]; [by exists None, h|].
    pose proof (mem_malloc_ok h bl size Hrep ltac:(unfold is_u16 in *; lia)) as [Hlo Hhi].
    destruct (Z.ltb_spec 16000 (round_size size)); [eexists _, _; by apply Hhi|].
    specialize (Hlo ltac:(lia)). unfold alloc_post in Hlo.
    destruct (first_fit _ _ _) as [[a bl']|]; [destruct Hlo as (h' & -> & _)|rewrite Hlo]; by eexists _, _.
  - intros p (ps1 & ps2 & ->)%list_elem_of_split.
    destruct (client_inv_free h p (ps1 ++ ps2)) as (h' & E & _); [|by exists h'].
    exists bl. split; [done|]. by rewrite <- Hps, Permutation_middle.
  - intros p newsize Hp Hsz. destruct (client_inv_trim h p ps newsize Hc Hp Hsz) as [?|(r & h' & E & _)]; [by right|].
    left. by exists r, h'.
Qed.

Lemma heap_client_safe_witness :
  exists h, client h [8] /\ NoDup [8].
Proof.
  destruct heap_one as (h & E & _). exists h.
  assert (client h [8]) as Hc.
  { eapply client_malloc; [exact client_boot| |exact E]. concrete. }
  split; [exact Hc|]. apply (heap_client_safe h [8] Hc).
Defined.

(** The memory mem_malloc returns is inside of the heap and as long as
    requested, for requests up to 65532 bytes; the three larger values of
    mem_size_t wrap to 0 when they are aligned, and get a block for 12 bytes. *)
Theorem mem_malloc_usable h bl size p h' :
  heap_rep h bl -> 0 < size < 65536 -> mem_malloc size h = Done (Some p, h') ->
  exists n, block_at h' p = Some n /\ 8 <= p /\ p + n <= 16000 /\
    (if size <=? 65532 then size <= n else round_size size = 12).
Proof.
  intros Hrep Hsz E. destruct (mem_malloc_block h bl size p h' Hrep ltac:(lia) E)
    as (n & En & Hn & Hp & He).
  exists n. split; [done|]. split; [lia|]. split; [lia|].
  destruct (Z.leb_spec size 65532).
  - pose proof (round_size_ge size). lia.
  - apply round_size_wrap. lia.
Qed.

Lemma mem_malloc_usable_witness :
  exists h n, mem_malloc 100 heap_boot = Done (Some 8, h) /\ block_at h 8 = Some n /\ 100 <= n.
Proof.
  destruct heap_one as (h & E & _). exists h.
  destruct (mem_malloc_usable heap_boot _ 100 8 h heap_boot_rep ltac:(lia) E)
    as (n & En & _ & _ & Hn). exists n. split; [exact E|]. split; [exact En|exact Hn].
Defined.

(** Mem_calloc: a product that overflows int is undefined; otherwise the
    request is the product modulo 2^16 and fails as mem_malloc fails; when it
    succeeds the memset of the untruncated product stays inside of the block
    exactly for products up to 65532. *)
Theorem mem_calloc_overflow h bl count size :
  heap_rep h bl -> is_u16 count -> is_u16 size ->
  mem_calloc count size h =
    if 2 ^ 31 <=? count * size then Crash Undefined else
    match mem_malloc (u16 (count * size)) h with
    | Done (Some p, h') => if count * size <=? 65532 then Done (Some p, h') else Crash Undefined
    | o => o
    end.
Proof.
  intros Hrep Hc Hs. unfold mem_calloc, is_u16 in *.
  destruct (Z.leb_spec (2 ^ 31) (count * size)) as [|Hlt]; [done|].
  assert (0 <= count * size) by nia.
  unfold mbind at 1, M_bind at 1.
  destruct (mem_malloc (u16 (count * size)) h) as [[[p|] h']|c] eqn:E; [|done|done].
  assert (0 < u16 (count * size)) as Hpos.
  { destruct (decide (u16 (count * size) = 0)) as [E0|]; [by rewrite E0 in E|].
    pose proof (u16_range (count * size)) as Hr. unfold is_u16 in Hr. lia. }
  destruct (mem_malloc_block h bl _ p h' Hrep Hpos E) as (n & En & Hn & Hp & He).
  destruct h' as [r lf st]. unfold block_at in En. simpl in En.
  destruct (r !! (p - 8)) as [m|] eqn:Em; [|done]. simplify_eq.
  change SIZEOF_STRUCT_MEM with 8. erewrite bind_done by (by apply rd_eq).
  destruct (Z.leb_spec (count * size) 65532).
  - rewrite u16_id in Hn by (unfold is_u16; lia). pose proof (round_size_ge (count * size)).
    by rewrite (proj2 (Z.leb_le _ _)) by lia.
  - by rewrite (proj2 (Z.leb_nle _ _)) by lia.
Qed.

Lemma mem_calloc_overflow_witness : mem_calloc 256 257 heap_boot = Crash Undefined.
Proof.
  rewrite (mem_calloc_overflow heap_boot _ 256 257 heap_boot_rep); [|concrete|concrete].
  vm_compute. reflexivity.
Defined.
