(* ===== verification/Memp.v ===== *)
(** * Memory pools

    core/memp.c without MEMP_OVERFLOW_CHECK (the default): every pool is a
    singly linked list of free elements that is threaded through the elements
    themselves, and memp_tab holds the heads.  The state is the array of heads,
    the first word of every element (the next pointer while the element is
    free, client data while it is allocated) and the counters of
    lwip_stats.memp.  A pointer is an offset into memp_memory.

    The list of pools is generated from memp_std.h; its numbers and sizes
    (memp_num and memp_sizes) are a parameter. *)

From Stdlib Require ListDec.
From S2P Require Import Prelude.

(** A row of memp_num and memp_sizes. *)
Record pool_desc := PoolDesc { memp_num : Z; memp_sizes : Z }.

(** lwip_stats.memp[i] *)
Record memp_stats := MempStats { ms_avail : Z; ms_used : Z; ms_max : Z; ms_err : Z }.

(** memp_tab, the next pointers in memp_memory, and the statistics. *)
Record pools := Pools {
  memp_tab : list (option Z);
  memp_next : gmap Z (option Z);
  memp_stat : list memp_stats
}.

Implicit Types (P : pools) (nx : gmap Z (option Z)).

(** ** Operations *)

(** memp->next, for a memp that has to be an element. *)
Definition rd_memp_next (nx : gmap Z (option Z)) (p : Z) : outcome (option Z) :=
  match nx !! p with
  | Some q => Done q
  | None => Crash Undefined
  end.

(** The two-speed walk of memp_sanity over one list (Floyd). *)
Fixpoint memp_sanity_list (fuel : nat) (nx : gmap Z (option Z)) (t h : option Z) : outcome bool :=
  match fuel with
  | O => Crash OutOfFuel
  | S fuel =>
      match t, h with
      | Some t, Some h =>
          if t =? h then Done false
          else
            match rd_memp_next nx t, rd_memp_next nx h with
            | Done t', Done None => memp_sanity_list fuel nx t' None
            | Done t', Done (Some h1) =>
                match rd_memp_next nx h1 with
                | Done h2 => memp_sanity_list fuel nx t' h2
                | Crash c => Crash c
                end
            | _, _ => Crash Undefined
            end
      | _, _ => Done true
      end
  end.

(** Enough rounds for any list threaded through the elements of [nx]. *)
Definition sanity_fuel (nx : gmap Z (option Z)) : nat := S (S (size nx)).

Fixpoint memp_sanity_tab (tab : list (option Z)) (nx : gmap Z (option Z)) : outcome bool :=
  match tab with
  | [] => Done true
  | None :: tab => memp_sanity_tab tab nx
  | Some t :: tab =>
      match rd_memp_next nx t with
      | Crash c => Crash c
      | Done h =>
          match memp_sanity_list (sanity_fuel nx) nx (Some t) h with
          | Done true => memp_sanity_tab tab nx
          | o => o
          end
      end
  end.

Definition memp_sanity (P : pools) : outcome bool := memp_sanity_tab (memp_tab P) (memp_next P).

(** The inner loop of memp_init: push [n] elements of [size] bytes from [memp]
    on, in front of [head]. *)
Fixpoint carve (n : nat) (memp size : Z) (head : option Z) (nx : gmap Z (option Z))
    : option Z * gmap Z (option Z) :=
  match n with
  | O => (head, nx)
  | S n => carve n (memp + size) size (Some memp) (<[memp := head]> nx)
  end.

(** The outer loop of memp_init. *)
Fixpoint carve_pools (ds : list pool_desc) (memp : Z) (nx : gmap Z (option Z))
    : list (option Z) * gmap Z (option Z) :=
  match ds with
  | [] => ([], nx)
  | d :: ds =>
      let '(head, nx) := carve (Z.to_nat (memp_num d)) memp (memp_sizes d) None nx in
      let '(tab, nx) := carve_pools ds (memp + memp_num d * memp_sizes d) nx in
      (head :: tab, nx)
  end.

(** memp_init; the memory starts zeroed (static storage). *)
Definition memp_init (ds : list pool_desc) : pools :=
  let '(tab, nx) := carve_pools ds 0 ∅ in
  Pools tab nx (map (fun d => MempStats (memp_num d) 0 0 0) ds).

Definition upd_stat (f : memp_stats -> memp_stats) (type : nat) : M pools unit :=
  modify (fun P => Pools (memp_tab P) (memp_next P) (alter f type (memp_stat P))).

(** MEMP_STATS_INC_USED, MEMP_STATS_DEC and MEMP_STATS_INC. *)
Definition stat_inc_used (s : memp_stats) : memp_stats :=
  let u := u16 (ms_used s + 1) in
  MempStats (ms_avail s) u (if ms_max s <? u then u else ms_max s) (ms_err s).

Definition stat_dec_used (s : memp_stats) : memp_stats :=
  MempStats (ms_avail s) (u16 (ms_used s - 1)) (ms_max s) (ms_err s).

Definition stat_inc_err (s : memp_stats) : memp_stats :=
  MempStats (ms_avail s) (ms_used s) (ms_max s) (u16 (ms_err s + 1)).

Definition set_tab (type : nat) (p : option Z) : M pools unit :=
  modify (fun P => Pools (<[type := p]> (memp_tab P)) (memp_next P) (memp_stat P)).

Definition memp_malloc (type : nat) : M pools (option Z) :=
  P ← get;
  lwip_assert (Z.of_nat type <? zlen (memp_tab P));;
  head ← deref (memp_tab P !! type);
  match head with
  | Some memp =>
      next ← deref (memp_next P !! memp);
      set_tab type next;;
      upd_stat stat_inc_used type;;
      lwip_assert (memp mod 4 =? 0);;
      mret (Some memp)
  | None =>
      upd_stat stat_inc_err type;;
      mret None
  end.

(** With MEMP_SANITY_CHECK set the lists are checked after every free. *)
Definition memp_free (sanity_check : bool) (type : nat) (mem : option Z) : M pools unit :=
  match mem with
  | None => mret tt
  | Some mem =>
      lwip_assert (mem mod 4 =? 0);;
      upd_stat stat_dec_used type;;
      P ← get;
      head ← deref (memp_tab P !! type);
      deref (memp_next P !! mem);;
      put (Pools (memp_tab P) (<[mem := head]> (memp_next P)) (memp_stat P));;
      set_tab type (Some mem);;
      if sanity_check then
        P ← get;
        match memp_sanity P with
        | Done b => lwip_assert b
        | Crash c => fail c
        end
      else mret tt
  end.

(** ** Linked lists *)

(** [nx] links the elements [l] from the head [p] on, down to NULL. *)
Fixpoint chain (nx : gmap Z (option Z)) (p : option Z) (l : list Z) : Prop :=
  match l with
  | [] => p = None
  | a :: l => p = Some a /\ exists q, nx !! a = Some q /\ chain nx q l
  end.

Lemma chain_frame nx a q l : forall p,
  a ∉ l -> chain nx p l -> chain (<[a := q]> nx) p l.
Proof.
  induction l as [|b l IH]; intros p Hn; [done|].
  apply not_elem_of_cons in Hn as [Hab Hn]. intros (-> & r & Hr & Hc).
  split; [done|]. exists r. rewrite lookup_insert_ne by done. auto.
Qed.

Lemma chain_elem nx l : forall p a, chain nx p l -> a ∈ l -> is_Some (nx !! a).
Proof.
  induction l as [|b l IH]; intros p a Hc Ha; [by apply elem_of_nil in Ha|].
  destruct Hc as (-> & q & Hq & Hc). apply elem_of_cons in Ha as [->|Ha]; eauto.
Qed.

(** ** Floyd's algorithm *)

(** The list pointer after [n] steps from [p]. *)
Fixpoint walk (nx : gmap Z (option Z)) (n : nat) (p : option Z) : option Z :=
  match n with
  | O => p
  | S n => match walk nx n p with Some a => mjoin (nx !! a) | None => None end
  end.

(** Every pointer stored in [nx] is NULL or an element. *)
Definition closed (nx : gmap Z (option Z)) : Prop :=
  forall a b, nx !! a = Some (Some b) -> is_Some (nx !! b).

Lemma walk_add nx m n p : walk nx (m + n) p = walk nx m (walk nx n p).
Proof. induction m as [|m IH]; [done|]. simpl. by rewrite IH. Qed.

Lemma walk_none nx m : walk nx m None = None.
Proof. induction m as [|m IH]; [done|]. simpl. by rewrite IH. Qed.

Lemma walk_mono nx m n p : (m <= n)%nat -> walk nx m p = None -> walk nx n p = None.
Proof.
  intros Hle H. replace n with (n - m + m)%nat by lia. by rewrite walk_add, H, walk_none.
Qed.

(** The way from [p] stays within the elements. *)
Definition tracked (nx : gmap Z (option Z)) (p : option Z) : Prop :=
  forall n a, walk nx n p = Some a -> is_Some (nx !! a).

Lemma closed_tracked nx p :
  closed nx -> (forall b, p = Some b -> is_Some (nx !! b)) -> tracked nx p.
Proof.
  intros Hc Hp n a. destruct n as [|n]; simpl; [by apply Hp|].
  destruct (walk nx n p) as [b|]; [|done].
  destruct (nx !! b) as [q|] eqn:E; [|done]. simpl. intros ->. by eapply Hc.
Qed.

(** Two equal pointers on the way make the way periodic. *)
Lemma walk_period nx (p : option Z) (a d : nat) : forall k,
  walk nx a p = walk nx (a + d) p -> walk nx (a + k * d) p = walk nx a p.
Proof.
  induction k as [|k IH]; intros E; [by rewrite Nat.add_0_r|].
  replace (a + S k * d)%nat with (k * d + (a + d))%nat by lia.
  rewrite walk_add, <- E, <- walk_add. rewrite Nat.add_comm. by apply IH.
Qed.

(** If the pointer is not NULL after as many steps as there are elements, two
    pointers on the way are equal. *)
Lemma walk_collision nx p :
  tracked nx p -> walk nx (size nx) p <> None ->
  exists a d, (0 < d)%nat /\ (a + d <= size nx)%nat /\ walk nx a p = walk nx (a + d) p /\
    walk nx a p <> None.
Proof.
  intros Hp Hn. set (N := size nx) in *.
  assert (forall i, (i <= N)%nat -> walk nx i p <> None) as Hsome.
  { intros i Hi E. apply Hn. by eapply walk_mono. }
  set (l := map (fun i => default 0 (walk nx i p)) (seq 0 (S N))).
  assert (forall i, (i < S N)%nat -> nth_error l i = Some (default 0 (walk nx i p))) as Hl.
  { intros i Hi. subst l. rewrite nth_error_map, nth_error_seq.
    by rewrite (proj2 (Nat.ltb_lt i (S N))). }
  assert (~ List.NoDup l) as Hdup.
  { intros Hd. assert (length l <= length (elements (dom nx)))%nat as Hlen.
    { apply NoDup_incl_length; [done|]. intros x (i & <- & Hi%in_seq)%in_map_iff.
      apply list_elem_of_In, elem_of_elements, elem_of_dom.
      destruct (walk nx i p) as [y|] eqn:E; [|by destruct (Hsome i ltac:(lia))].
      by eapply Hp. }
    subst l. rewrite length_map, length_seq in Hlen.
    change (length (elements (dom nx))) with (size (dom nx)) in Hlen. rewrite size_dom in Hlen.
    fold N in Hlen. lia. }
  apply (ListDec.not_NoDup Z.eq_decidable) in Hdup as (x & l1 & l2 & l3 & E).
  assert (length l = S N) as Hlen by (subst l; by rewrite length_map, length_seq).
  cbn [app] in E. rewrite E in Hlen. repeat (rewrite length_app in Hlen || simpl in Hlen).
  exists (length l1), (S (length l2)). split; [lia|]. split; [lia|].
  pose proof (Hl (length l1) ltac:(lia)) as H1.
  pose proof (Hl (length l1 + S (length l2))%nat ltac:(lia)) as H2.
  rewrite E in H1, H2. rewrite nth_error_app2, Nat.sub_diag in H1 by lia. simpl in H1.
  rewrite nth_error_app2 in H2 by lia.
  replace (length l1 + S (length l2) - length l1)%nat with (S (length l2)) in H2 by lia.
  simpl in H2. rewrite nth_error_app2, Nat.sub_diag in H2 by lia. simpl in H2.
  pose proof (Hsome (length l1) ltac:(lia)). pose proof (Hsome (length l1 + S (length l2))%nat ltac:(lia)).
  split; [|done].
  destruct (walk nx (length l1) p), (walk nx (length l1 + S (length l2)) p); simpl in *; congruence.
Qed.

(** The meeting point of the two walkers on a circle. *)
Lemma walk_meet nx p (a d : nat) :
  (0 < d)%nat -> walk nx a p = walk nx (a + d) p ->
  exists i, (a <= i < a + d)%nat /\ walk nx i p = walk nx (2 * i + 1) p.
Proof.
  intros Hd E.
  assert (exists i q, (a <= i < a + d)%nat /\ (i + 1 = q * d)%nat) as (i & q & Hi & Hq).
  { pose proof (Nat.div_mod_eq (a + d) d) as Hm. pose proof (Nat.mod_upper_bound (a + d) d).
    exists (d * ((a + d) / d) - 1)%nat, ((a + d) / d)%nat. lia. }
  exists i. split; [done|]. replace (2 * i + 1)%nat with (i + q * d)%nat by lia.
  symmetry. apply walk_period.
  replace i with ((i - a) + a)%nat by lia. rewrite walk_add, E, <- walk_add. f_equal. lia.
Qed.

Lemma walk_next nx i p t :
  walk nx i p = Some t -> is_Some (nx !! t) -> rd_memp_next nx t = Done (walk nx (S i) p).
Proof. intros E [q Hq]. unfold rd_memp_next. simpl. by rewrite E, Hq. Qed.

(** One round of the loop advances the walkers by one and two elements. *)
Lemma sanity_round nx p i fuel t h :
  tracked nx p ->
  walk nx i p = Some t -> walk nx (2 * i + 1) p = Some h -> t <> h ->
  memp_sanity_list (S fuel) nx (walk nx i p) (walk nx (2 * i + 1) p) =
  memp_sanity_list fuel nx (walk nx (S i) p) (walk nx (2 * S i + 1) p).
Proof.
  intros Hin Et Eh Hne. rewrite Et, Eh. cbn [memp_sanity_list].
  rewrite (proj2 (Z.eqb_neq t h)) by done.
  rewrite (walk_next _ _ _ _ Et) by eauto. rewrite (walk_next _ _ _ _ Eh) by eauto.
  replace (2 * S i + 1)%nat with (S (S (2 * i + 1))) by lia.
  destruct (walk nx (S (2 * i + 1)) p) as [h1|] eqn:E1.
  - by rewrite (walk_next _ _ _ _ E1) by eauto.
  - cbn [walk]. cbn [walk] in E1. by rewrite E1.
Qed.

(** On a list that ends, the two walkers never meet. *)
Lemma sanity_ends nx p L :
  tracked nx p -> walk nx L p = None ->
  forall fuel i, (i <= L < fuel + i)%nat ->
  memp_sanity_list fuel nx (walk nx i p) (walk nx (2 * i + 1) p) = Done true.
Proof.
  intros Hp HL. induction fuel as [|fuel IH]; intros i Hi; [lia|].
  destruct (walk nx i p) as [t|] eqn:Et; [|done].
  destruct (walk nx (2 * i + 1) p) as [h|] eqn:Eh; [|done].
  assert (i < L)%nat as HiL.
  { destruct (decide (i < L)%nat); [done|]. rewrite (walk_mono nx L i p) in Et by (done || lia). done. }
  assert (t <> h) as Hne.
  { intros ->. assert (walk nx (i + L * (i + 1)) p = walk nx i p) as E.
    { apply walk_period. replace (i + (i + 1))%nat with (2 * i + 1)%nat by lia. congruence. }
    rewrite (walk_mono nx L (i + L * (i + 1)) p) in E by (done || lia). congruence. }
  rewrite <- Et, <- Eh. erewrite sanity_round by eassumption. apply IH. lia.
Qed.

(** On a list that does not end, they meet. *)
Lemma sanity_meets nx p i0 :
  tracked nx p ->
  (forall n, walk nx n p <> None) -> walk nx i0 p = walk nx (2 * i0 + 1) p ->
  forall fuel i, (i <= i0 < fuel + i)%nat ->
  memp_sanity_list fuel nx (walk nx i p) (walk nx (2 * i + 1) p) = Done false.
Proof.
  intros Hp Hn Hm. induction fuel as [|fuel IH]; intros i Hi; [lia|].
  destruct (walk nx i p) as [t|] eqn:Et; [|by destruct (Hn i)].
  destruct (walk nx (2 * i + 1) p) as [h|] eqn:Eh; [|by destruct (Hn (2 * i + 1)%nat)].
  destruct (Z.eq_dec t h) as [->|Hne].
  - simpl. by rewrite Z.eqb_refl.
  - assert (i <> i0) by (intros ->; congruence).
    rewrite <- Et, <- Eh. erewrite sanity_round by eassumption. apply IH. lia.
Qed.

(** The list from [p] reaches NULL. *)
Definition ends (nx : gmap Z (option Z)) (p : option Z) : Prop := exists n, walk nx n p = None.

Lemma sanity_list_correct nx t :
  tracked nx (Some t) ->
  exists h, rd_memp_next nx t = Done h /\
    ((memp_sanity_list (sanity_fuel nx) nx (Some t) h = Done true /\ ends nx (Some t)) \/
     (memp_sanity_list (sanity_fuel nx) nx (Some t) h = Done false /\ ~ ends nx (Some t))).
Proof.
  set (p := Some t). intros Hp.
  exists (walk nx 1 p). split; [by apply (walk_next nx 0), (Hp 0%nat)|].
  change (Some t) with (walk nx 0 p). change (walk nx 1 p) with (walk nx (2 * 0 + 1) p).
  destruct (walk nx (size nx) p) as [a|] eqn:E.
  - right. destruct (walk_collision nx p Hp ltac:(congruence)) as (x & d & Hd & Hle & Ex & Hx).
    assert (forall n, walk nx n p <> None) as Hn.
    { intros n En. apply Hx. rewrite <- (walk_period nx p x d n Ex).
      apply (walk_mono nx n); [nia|done]. }
    destruct (walk_meet nx p x d Hd Ex) as (i0 & Hi0 & Hm). split.
    + apply (sanity_meets nx p i0 Hp Hn Hm _ 0). unfold sanity_fuel. lia.
    + intros [n En]. by apply (Hn n).
  - left. split; [|by exists (size nx)].
    apply (sanity_ends nx p (size nx) Hp E _ 0). unfold sanity_fuel. lia.
Qed.

Lemma memp_sanity_tab_correct nx tab :
  Forall (tracked nx) tab ->
  (memp_sanity_tab tab nx = Done true /\ Forall (ends nx) tab) \/
  (memp_sanity_tab tab nx = Done false /\ ~ Forall (ends nx) tab).
Proof.
  induction tab as [|[t|] tab IH]; intros Ht; cbn [memp_sanity_tab];
    try (apply Forall_cons_iff in Ht as [Ht Htab]).
  - left. split; [done|constructor].
  - destruct (sanity_list_correct nx t Ht) as (h & -> & [[-> He]|[-> He]]).
    + destruct IH as [[-> Hf]|[-> Hf]]; [done| |].
      * left. split; [done|by constructor].
      * right. split; [done|]. by intros [_ ?]%Forall_cons_iff.
    + right. split; [done|]. by intros [? _]%Forall_cons_iff.
  - destruct IH as [[-> Hf]|[-> Hf]]; [done| |].
    + left. split; [done|]. constructor; [by exists 0%nat|done].
    + right. split; [done|]. by intros [_ ?]%Forall_cons_iff.
Qed.

Lemma chain_walk nx l : forall p, chain nx p l -> forall n, walk nx n p = l !! n.
Proof.
  induction l as [|a l IH]; intros p Hc n.
  - rewrite Hc, walk_none. done.
  - destruct Hc as (-> & q & Hq & Hc). destruct n as [|n]; [done|].
    rewrite <- Nat.add_1_r, walk_add. simpl walk at 2. rewrite Hq. simpl mjoin.
    rewrite (IH _ Hc). by rewrite Nat.add_1_r.
Qed.

Lemma chain_tracked nx p l : chain nx p l -> tracked nx p /\ ends nx p.
Proof.
  intros Hc. split.
  - intros n a E. rewrite (chain_walk nx l p Hc) in E.
    eapply chain_elem; [exact Hc|]. by eapply list_elem_of_lookup_2.
  - exists (length l). rewrite (chain_walk nx l p Hc). by apply lookup_ge_None.
Qed.

(** ** The elements of a pool *)

Fixpoint elems (n : nat) (base size : Z) : list Z :=
  match n with
  | O => []
  | S n => base :: elems n (base + size) size
  end.

Lemma elems_range n size a : forall base,
  0 < size -> a ∈ elems n base size ->
  base <= a /\ a + size <= base + Z.of_nat n * size /\ (size | a - base).
Proof.
  induction n as [|n IH]; intros base Hs Ha; [by apply elem_of_nil in Ha|].
  apply elem_of_cons in Ha as [->|Ha].
  - rewrite Z.sub_diag. split; [lia|]. split; [nia|]. apply Z.divide_0_r.
  - destruct (IH _ Hs Ha) as (H1 & H2 & H3). split; [lia|]. split; [nia|].
    replace (a - base) with (a - (base + size) + size) by lia.
    apply Z.divide_add_r; [done|apply Z.divide_refl].
Qed.

Lemma elems_NoDup n size : forall base, 0 < size -> NoDup (elems n base size).
Proof.
  induction n as [|n IH]; intros base Hs; simpl; [constructor|].
  constructor; [|by apply IH]. intros Ha%elems_range; [lia|done].
Qed.

Lemma length_elems n base size : length (elems n base size) = n.
Proof. revert base. induction n as [|n IH]; intros; simpl; by rewrite ?IH. Qed.

Definition desc_ok (d : pool_desc) : Prop :=
  is_u16 (memp_num d) /\ 4 <= memp_sizes d /\ memp_sizes d mod 4 = 0.

Definition pool_elems (base : Z) (d : pool_desc) : list Z :=
  elems (Z.to_nat (memp_num d)) base (memp_sizes d).

(** The first address of pool [i]. *)
Fixpoint pool_base (base : Z) (ds : list pool_desc) (i : nat) : Z :=
  match i, ds with
  | S i, d :: ds => pool_base (base + memp_num d * memp_sizes d) ds i
  | _, _ => base
  end.

(** carve threads the new elements in front of the list. *)
Lemma carve_spec size n : forall memp head nx l,
  0 < size -> chain nx head l -> (forall a, a ∈ l -> a < memp) ->
  let '(head', nx') := carve n memp size head nx in
  chain nx' head' (rev (elems n memp size) ++ l) /\
  (forall a, a ∉ elems n memp size -> nx' !! a = nx !! a).
Proof.
  induction n as [|n IH]; intros memp head nx l Hs Hc Hl; cbn [carve elems].
  - done.
  - specialize (IH (memp + size) (Some memp) (<[memp := head]> nx) (memp :: l) Hs).
    destruct (carve n _ _ _ _) as [head' nx']. destruct IH as [H1 H2].
    + split; [done|]. exists head. rewrite lookup_insert_eq. split; [done|].
      apply chain_frame; [|done]. intros Ha%Hl. lia.
    + intros a [->|Ha%Hl]%elem_of_cons; lia.
    + split.
      * cbn [rev]. by rewrite <- app_assoc.
      * intros a [Hn Ha]%not_elem_of_cons. rewrite H2 by done. by rewrite lookup_insert_ne.
Qed.

Lemma free_chain_ext nx nx' l : forall p,
  (forall a, a ∈ l -> nx' !! a = nx !! a) -> chain nx p l -> chain nx' p l.
Proof.
  induction l as [|b l IH]; intros p Hf; [done|]. intros (-> & r & Hr & Hc).
  split; [done|]. exists r. rewrite Hf by apply list_elem_of_here. split; [done|].
  apply IH; [|done]. intros a Ha. apply Hf. by right.
Qed.

Lemma pool_elems_range base d a :
  desc_ok d -> a ∈ pool_elems base d ->
  base <= a /\ a + memp_sizes d <= base + memp_num d * memp_sizes d /\ (memp_sizes d | a - base).
Proof.
  intros (Hn & Hs & _) Ha. apply elems_range in Ha; [|lia].
  unfold is_u16 in Hn. rewrite Z2Nat.id in Ha by lia. done.
Qed.

Lemma carve_pools_spec ds : forall memp nx,
  Forall desc_ok ds ->
  let '(tab, nx') := carve_pools ds memp nx in
  length tab = length ds /\
  (forall i d, ds !! i = Some d -> exists hd, tab !! i = Some hd /\
     chain nx' hd (rev (pool_elems (pool_base memp ds i) d))) /\
  (forall a, a < memp -> nx' !! a = nx !! a).
Proof.
  induction ds as [|d ds IH]; intros memp nx Hok; cbn [carve_pools]; [done|].
  apply Forall_cons_iff in Hok as [Hd Hok].
  pose proof (carve_spec (memp_sizes d) (Z.to_nat (memp_num d)) memp None nx [] ) as Hc.
  destruct (carve _ _ _ _ _) as [head nx1].
  destruct Hc as [Hc Hf1]; [by destruct Hd; lia|done|by intros a Ha%elem_of_nil|].
  rewrite app_nil_r in Hc. fold (pool_elems memp d) in Hc, Hf1.
  specialize (IH (memp + memp_num d * memp_sizes d) nx1 Hok).
  destruct (carve_pools ds _ nx1) as [tab nx2]. destruct IH as (Hlen & Hch & Hf2).
  assert (0 <= memp_num d * memp_sizes d) as Hpos.
  { destruct Hd as (Hn & Hs & _). unfold is_u16 in Hn. nia. }
  split; [by simpl; rewrite Hlen|]. split.
  - intros [|i] d' Hi; [|by apply Hch]. injection Hi as <-. exists head. split; [done|].
    simpl. eapply free_chain_ext; [|exact Hc]. intros a Ha%list_elem_of_In%in_rev%list_elem_of_In.
    apply pool_elems_range in Ha; [|done]. destruct Hd as (_ & Hs & _). apply Hf2. lia.
  - intros a Ha. rewrite Hf2, Hf1; [done| |lia].
    intros Hin%pool_elems_range; [lia|done].
Qed.

(** ** The invariant *)

(** Pool [i] of the state, with the elements [al] given out. *)
Definition pool_at (ds : list pool_desc) (P : pools) (i : nat) (d : pool_desc) (al : list Z) : Prop :=
  exists hd fl st,
    memp_tab P !! i = Some hd /\ memp_stat P !! i = Some st /\
    chain (memp_next P) hd fl /\
    fl ++ al ≡ₚ pool_elems (pool_base 0 ds i) d /\
    (forall a, a ∈ al -> is_Some (memp_next P !! a)) /\
    ms_used st = zlen al /\ ms_avail st = memp_num d.

(** The invariant: [als] lists, pool by pool, the elements given out. *)
Definition pools_inv (ds : list pool_desc) (P : pools) (als : list (list Z)) : Prop :=
  length (memp_tab P) = length ds /\ length als = length ds /\
  forall i d al, ds !! i = Some d -> als !! i = Some al -> pool_at ds P i d al.

Section pools.
Context (ds : list pool_desc) (Hds : Forall desc_ok ds).

Lemma desc_at i d : ds !! i = Some d -> desc_ok d.
Proof. apply Forall_lookup_1, Hds. Qed.

(** Pools do not overlap. *)
Lemma pool_base_lt i j d :
  ds !! i = Some d -> (i < j)%nat -> (j < length ds)%nat ->
  pool_base 0 ds i + memp_num d * memp_sizes d <= pool_base 0 ds j.
Proof.
  revert Hds. generalize 0 as b. revert i j. induction ds as [|d0 ds0 IH]; intros i j b Hok; [done|].
  apply Forall_cons_iff in Hok as [[Hn [Hs _]] Hok]. unfold is_u16 in Hn.
  destruct j as [|j]; [lia|]. destruct i as [|i]; simpl.
  - intros [= ->] _ Hj.
    assert (forall (ds : list pool_desc) b j, Forall desc_ok ds -> b <= pool_base b ds j) as H.
    { clear. induction ds as [|d ds IH]; intros b [|j] Hok; simpl; try lia.
      apply Forall_cons_iff in Hok as [[Hn [Hs _]] Hok]. unfold is_u16 in Hn.
      specialize (IH (b + memp_num d * memp_sizes d) j Hok). nia. }
    by apply H.
  - intros Hi Hij Hj. apply IH; [done|done|lia|lia].
Qed.

Lemma pools_disjoint i j di dj a :
  ds !! i = Some di -> ds !! j = Some dj ->
  a ∈ pool_elems (pool_base 0 ds i) di -> a ∈ pool_elems (pool_base 0 ds j) dj -> i = j.
Proof.
  intros Hi Hj Ai%pool_elems_range Aj%pool_elems_range; [|by eapply desc_at..].
  pose proof (desc_at _ _ Hi) as (_ & Hsi & _). pose proof (desc_at _ _ Hj) as (_ & Hsj & _).
  pose proof (lookup_lt_Some _ _ _ Hi). pose proof (lookup_lt_Some _ _ _ Hj).
  destruct (decide (i < j)%nat); [pose proof (pool_base_lt i j di Hi); lia|].
  destruct (decide (j < i)%nat); [pose proof (pool_base_lt j i dj Hj); lia|]. lia.
Qed.

Lemma pool_elems_aligned i d a :
  ds !! i = Some d -> a ∈ pool_elems (pool_base 0 ds i) d -> a mod 4 = 0.
Proof.
  intros Hi Ha. pose proof (desc_at _ _ Hi) as Hd.
  apply pool_elems_range in Ha as (_ & _ & [k Hk]); [|done]. destruct Hd as (_ & _ & Hm).
  assert (forall (l : list pool_desc) b n, Forall desc_ok l -> b mod 4 = 0 ->
    pool_base b l n mod 4 = 0) as H.
  { clear. induction l as [|d l IH]; intros b [|n] Hok Hb; simpl; try done.
    apply Forall_cons_iff in Hok as [[_ [_ Hm]] Hok]. apply IH; [done|].
    rewrite Z.add_mod, Z.mul_mod, Hb, Hm, Z.mul_0_r by lia. done. }
  specialize (H ds 0 i Hds eq_refl).
  replace a with (pool_base 0 ds i + k * memp_sizes d) by lia.
  rewrite Z.add_mod, Z.mul_mod, H, Hm, Z.mul_0_r by lia. done.
Qed.

Lemma memp_init_inv : pools_inv ds (memp_init ds) (map (fun _ => []) ds).
Proof.
  pose proof (carve_pools_spec ds 0 ∅ Hds) as H. unfold memp_init.
  destruct (carve_pools ds 0 ∅) as [tab nx]. destruct H as (Hlen & Hch & _).
  split; [done|]. split; [by rewrite length_map|]. intros i d al Hi Hal.
  destruct (Hch i d Hi) as (hd & Ht & Hc).
  assert (al = []) as ->.
  { change (map (fun _ => []) ds) with ((fun _ : pool_desc => @nil Z) <$> ds) in Hal.
    rewrite list_lookup_fmap, Hi in Hal. by simplify_eq/=. }
  exists hd, (rev (pool_elems (pool_base 0 ds i) d)), (MempStats (memp_num d) 0 0 0).
  split; [done|]. simpl. split.
  { change (map ?f ds) with (f <$> ds). by rewrite list_lookup_fmap, Hi. }
  split; [done|]. split.
  { rewrite app_nil_r, <- Permutation_rev. done. }
  split; [|done]. intros a Ha%elem_of_nil. done.
Qed.

Lemma pools_at P als i d :
  pools_inv ds P als -> ds !! i = Some d ->
  exists al, als !! i = Some al /\ pool_at ds P i d al.
Proof.
  intros (Ht & Ha & Hp) Hi.
  destruct (lookup_lt_is_Some_2 als i) as [al Hal].
  { rewrite Ha. by eapply lookup_lt_Some. }
  exists al. split; [done|]. by apply Hp.
Qed.

Lemma pool_at_NoDup P i d al fl :
  ds !! i = Some d -> fl ++ al ≡ₚ pool_elems (pool_base 0 ds i) d -> NoDup (fl ++ al).
Proof.
  intros Hi ->. apply elems_NoDup. pose proof (desc_at _ _ Hi) as (_ & ? & _). lia.
Qed.

(** An element given out is on no free list. *)
Lemma al_not_free P als i d al p j dj alj fl hd :
  pools_inv ds P als -> ds !! i = Some d -> als !! i = Some al -> p ∈ al ->
  ds !! j = Some dj -> als !! j = Some alj ->
  chain (memp_next P) hd fl -> fl ++ alj ≡ₚ pool_elems (pool_base 0 ds j) dj -> p ∉ fl.
Proof.
  intros Hinv Hi Hal Hp Hj Halj Hc Hfl Hin.
  destruct Hinv as (_ & _ & Hat). destruct (Hat i d al Hi Hal) as (? & fl' & ? & _ & _ & _ & Hpe & _).
  assert (p ∈ pool_elems (pool_base 0 ds i) d) as H1.
  { rewrite <- Hpe. apply elem_of_app. by right. }
  assert (p ∈ pool_elems (pool_base 0 ds j) dj) as H2.
  { rewrite <- Hfl. apply elem_of_app. by left. }
  assert (i = j) as -> by (by eapply pools_disjoint). simplify_eq.
  apply (pool_at_NoDup P) in Hfl; [|done]. apply list.NoDup_app in Hfl as (_ & Hd & _).
  by apply (Hd p).
Qed.

Lemma inc_used_spec st n :
  ms_used st = n -> 0 <= n < 65535 ->
  ms_used (stat_inc_used st) = n + 1 /\ ms_avail (stat_inc_used st) = ms_avail st.
Proof. intros <- Hn. simpl. rewrite u16_id by (unfold is_u16; lia). done. Qed.

Lemma free_length fl al i d :
  ds !! i = Some d -> fl ++ al ≡ₚ pool_elems (pool_base 0 ds i) d ->
  zlen fl + zlen al = memp_num d.
Proof.
  intros Hi Hp%Permutation_length. unfold pool_elems in Hp.
  rewrite length_app, length_elems in Hp. pose proof (desc_at _ _ Hi) as (Hn & _).
  unfold zlen, is_u16 in *. lia.
Qed.

Lemma memp_malloc_ok P als i d al :
  pools_inv ds P als -> ds !! i = Some d -> als !! i = Some al ->
  (zlen al < memp_num d /\ exists p P', memp_malloc i P = Done (Some p, P') /\
     p ∈ pool_elems (pool_base 0 ds i) d /\ (p ∉ al) /\
     pools_inv ds P' (<[i := (p :: al)]> als)) \/
  (zlen al = memp_num d /\ exists P', memp_malloc i P = Done (None, P') /\
     pools_inv ds P' als /\ memp_tab P' = memp_tab P /\ memp_next P' = memp_next P).
Proof.
  intros Hinv Hi Hal. pose proof Hinv as (Htab & Hals & Hat).
  destruct (Hat i d al Hi Hal) as (hd & fl & st & Ht & Hst & Hc & Hpe & Halin & Hu & Hav).
  pose proof (free_length _ _ _ _ Hi Hpe) as Hlen. pose proof (zlen_nonneg fl).
  pose proof (lookup_lt_Some _ _ _ Ht) as Hlt.
  assert (Z.of_nat i < zlen (memp_tab P)) by (unfold zlen; lia).
  unfold memp_malloc. mrun.
  destruct fl as [|p fl].
  - simpl in Hc. subst hd. right. rewrite zlen_nil in Hlen. split; [lia|].
    unfold upd_stat. mrun. eexists. split; [reflexivity|]. split; [|done]. split; [done|]. split; [done|].
    intros j dj alj Hj Halj. destruct (Hat j dj alj Hj Halj)
      as (hdj & flj & stj & Htj & Hstj & Hcj & Hpj & Hij & Huj & Havj).
    unfold pool_at. cbn [memp_tab memp_stat memp_next]. destruct (decide (i = j)) as [<-|Hne].
    + simplify_eq. exists None, flj, (stat_inc_err st).
      rewrite list_lookup_alter_eq, Hst. done.
    + exists hdj, flj, stj. by rewrite list_lookup_alter_ne.
  - destruct Hc as (-> & q & Hq & Hc). left. rewrite zlen_cons in Hlen.
    pose proof (zlen_nonneg fl). pose proof (zlen_nonneg al). split; [lia|].
    assert (p ∈ pool_elems (pool_base 0 ds i) d) as Hpin.
    { rewrite <- Hpe. apply list_elem_of_here. }
    pose proof (pool_elems_aligned _ _ _ Hi Hpin) as Hmod.
    pose proof (pool_at_NoDup P _ _ _ _ Hi Hpe) as Hnd. cbn [app] in Hnd.
    apply list.NoDup_cons in Hnd as [Hpn Hnd]. apply not_elem_of_app in Hpn as [Hpf Hpa].
    pose proof (desc_at _ _ Hi) as [Hnum _]. unfold is_u16 in Hnum.
    destruct (inc_used_spec st (zlen al) Hu ltac:(lia)) as [Hu' Hav'].
    exists p. unfold set_tab, upd_stat. mrun. eexists. split; [reflexivity|].
    split; [done|]. split; [done|]. split; simpl; [by rewrite length_insert|].
    split; [by rewrite length_insert|]. intros j dj alj Hj Halj.
    destruct (decide (i = j)) as [<-|Hne].
    + rewrite (list_lookup_insert_eq als) in Halj by lia. simplify_eq.
      exists q, fl, (stat_inc_used st). cbn [memp_tab memp_stat memp_next].
      rewrite list_lookup_insert_eq by lia. rewrite list_lookup_alter_eq, Hst.
      split; [done|]. split; [done|]. split; [done|]. split.
      { rewrite <- Hpe. cbn [app]. by rewrite Permutation_middle. }
      split; [intros a [->|Ha]%elem_of_cons; eauto|].
      rewrite zlen_cons. split; [lia|congruence].
    + rewrite list_lookup_insert_ne in Halj by done.
      destruct (Hat j dj alj Hj Halj) as (hdj & flj & stj & Htj & Hstj & Hrest).
      exists hdj, flj, stj. cbn [memp_tab memp_stat memp_next].
      rewrite list_lookup_insert_ne, list_lookup_alter_ne by done. done.
Qed.

(** The state with the word at [p] overwritten. *)
Definition poke (p : Z) (v : option Z) (P : pools) : pools :=
  Pools (memp_tab P) (<[p := v]> (memp_next P)) (memp_stat P).

(** A client may use the memory it was given. *)
Lemma poke_inv P als i d al p v :
  pools_inv ds P als -> ds !! i = Some d -> als !! i = Some al -> p ∈ al ->
  pools_inv ds (poke p v P) als.
Proof.
  intros Hinv Hi Hal Hp. pose proof Hinv as (Htab & Hals & Hat).
  split; [done|]. split; [done|]. intros j dj alj Hj Halj.
  destruct (Hat j dj alj Hj Halj) as (hd & fl & st & Ht & Hst & Hc & Hpe & Hin & Hrest).
  exists hd, fl, st. cbn [memp_tab memp_stat memp_next poke].
  split; [done|]. split; [done|]. split; [|split; [done|split; [|done]]].
  - apply chain_frame; [|done]. eapply (al_not_free P als i); eassumption.
  - intros a Ha. destruct (decide (p = a)) as [->|].
    + rewrite lookup_insert_eq. by eexists.
    + rewrite lookup_insert_ne by done. by apply Hin.
Qed.

(** The state a free leads to. *)
Definition freed (i : nat) (p : Z) (hd : option Z) (P : pools) : pools :=
  Pools (<[i := Some p]> (memp_tab P)) (<[p := hd]> (memp_next P))
    (alter stat_dec_used i (memp_stat P)).

Lemma freed_inv P als i d hd l1 p l2 :
  pools_inv ds P als -> ds !! i = Some d -> als !! i = Some (l1 ++ p :: l2) ->
  memp_tab P !! i = Some hd ->
  pools_inv ds (freed i p hd P) (<[i := (l1 ++ l2)]> als).
Proof.
  intros Hinv Hi Hal Hhd. pose proof Hinv as (Htab & Hals & Hat).
  pose proof (lookup_lt_Some _ _ _ Hal). pose proof (lookup_lt_Some _ _ _ Hhd).
  assert (p ∈ l1 ++ p :: l2) as Hp by (apply elem_of_app; right; apply list_elem_of_here).
  split; [cbn; by rewrite length_insert|]. split; [by rewrite length_insert|].
  intros j dj alj Hj Halj.
  assert (exists alj', als !! j = Some alj') as [alj' Halj'].
  { apply lookup_lt_is_Some_2. rewrite Hals. by eapply lookup_lt_Some. }
  destruct (Hat j dj alj' Hj Halj') as (hdj & fl & st & Ht & Hst & Hc & Hpe & Hin & Hu & Hav).
  assert (p ∉ fl) as Hpf by (eapply (al_not_free P als i); eassumption).
  unfold pool_at. cbn [memp_tab memp_stat memp_next freed].
  destruct (decide (i = j)) as [<-|Hne].
  - rewrite (list_lookup_insert_eq als) in Halj by done. simplify_eq.
    exists (Some p), (p :: fl), (stat_dec_used st).
    rewrite list_lookup_insert_eq, list_lookup_alter_eq, Hst by done.
    split; [done|]. split; [done|]. split; [|split; [|split; [|split]]].
    + split; [done|]. exists hd. rewrite lookup_insert_eq. split; [done|].
      by apply chain_frame.
    + rewrite <- Hpe. cbn [app]. by rewrite <- Permutation_middle, <- Permutation_middle.
    + intros a Ha. destruct (decide (p = a)) as [->|].
      * rewrite lookup_insert_eq. by eexists.
      * rewrite lookup_insert_ne by done. apply Hin. apply elem_of_app in Ha as [Ha|Ha];
          apply elem_of_app; [by left|right; by right].
    + pose proof (free_length _ _ _ _ Hi Hpe) as Hlen. pose proof (desc_at _ _ Hi) as [Hn _].
      pose proof (zlen_nonneg fl). pose proof (zlen_nonneg l1). pose proof (zlen_nonneg l2).
      unfold is_u16 in Hn. autorewrite with zlen in *.
      simpl. rewrite u16_id by (unfold is_u16; lia). lia.
    + done.
  - rewrite list_lookup_insert_ne in Halj by done. simplify_eq.
    exists hdj, fl, st. rewrite list_lookup_insert_ne, list_lookup_alter_ne by done.
    split; [done|]. split; [done|]. split; [by apply chain_frame|]. split; [done|].
    split; [|done]. intros a Ha. destruct (decide (p = a)) as [->|].
    + rewrite lookup_insert_eq. by eexists.
    + rewrite lookup_insert_ne by done. by apply Hin.
Qed.

(** The sanity check passes on every state that satisfies the invariant. *)
Lemma sanity_inv P als : pools_inv ds P als -> memp_sanity P = Done true.
Proof.
  intros Hinv. pose proof Hinv as (Htab & Hals & Hat). unfold memp_sanity.
  assert (forall t, t ∈ memp_tab P -> tracked (memp_next P) t /\ ends (memp_next P) t) as H.
  { intros t (i & Ht)%list_elem_of_lookup.
    destruct (lookup_lt_is_Some_2 ds i) as [d Hd].
    { rewrite <- Htab. by eapply lookup_lt_Some. }
    destruct (pools_at _ _ _ _ Hinv Hd) as (al & _ & hd & fl & st & Ht' & _ & Hc & _).
    simplify_eq. by eapply chain_tracked. }
  destruct (memp_sanity_tab_correct (memp_next P) (memp_tab P)) as [[-> _]|[_ Hf]]; [|done|].
  - apply list.Forall_forall. intros t Ht. by apply H.
  - destruct Hf. apply list.Forall_forall. intros t Ht. by apply H.
Qed.

Lemma memp_free_ok P als i d l1 p l2 sc :
  pools_inv ds P als -> ds !! i = Some d -> als !! i = Some (l1 ++ p :: l2) ->
  exists P', memp_free sc i (Some p) P = Done (tt, P') /\
    pools_inv ds P' (<[i := (l1 ++ l2)]> als).
Proof.
  intros Hinv Hi Hal. pose proof Hinv as (Htab & Hals & Hat).
  destruct (Hat i d _ Hi Hal) as (hd & fl & st & Ht & Hst & Hc & Hpe & Hin & Hu & Hav).
  assert (p ∈ l1 ++ p :: l2) as Hp by (apply elem_of_app; right; apply list_elem_of_here).
  assert (p mod 4 = 0) as Hmod.
  { eapply pool_elems_aligned; [exact Hi|]. rewrite <- Hpe. apply elem_of_app. by right. }
  destruct (Hin p Hp) as [w Hw].
  pose proof (freed_inv P als i d hd l1 p l2 Hinv Hi Hal Ht) as Hinv'.
  exists (freed i p hd P). split; [|done].
  unfold memp_free, upd_stat, set_tab. mrun. cbn [memp_tab memp_next].
  destruct sc; [|done]. mrun.
  pose proof (sanity_inv _ _ Hinv') as Hs. unfold freed in Hs.
  cbn [memp_tab memp_next memp_stat]. by rewrite Hs.
Qed.

(** The states a client reaches that frees only what it was given, to the pool
    it came from, and writes only to memory it was given: [als] lists, pool by
    pool, what it holds. *)
Inductive client : pools -> list (list Z) -> Prop :=
| client_init : client (memp_init ds) (map (fun _ => []) ds)
| client_malloc P als i al p P' :
    client P als -> als !! i = Some al -> memp_malloc i P = Done (Some p, P') ->
    client P' (<[i := (p :: al)]> als)
| client_empty P als i P' :
    client P als -> (i < length ds)%nat -> memp_malloc i P = Done (None, P') -> client P' als
| client_free P als i l1 p l2 sc P' :
    client P als -> als !! i = Some (l1 ++ p :: l2) ->
    memp_free sc i (Some p) P = Done (tt, P') -> client P' (<[i := (l1 ++ l2)]> als)
| client_write P als i al p v :
    client P als -> als !! i = Some al -> p ∈ al -> client (poke p v P) als.

Lemma client_pools_inv P als : client P als -> pools_inv ds P als.
Proof.
  assert (forall P als i (al : list Z), pools_inv ds P als -> als !! i = Some al ->
    exists d, ds !! i = Some d) as Hd.
  { intros P0 als0 i al (_ & Hl & _) Ha. apply lookup_lt_is_Some_2. rewrite <- Hl.
    by eapply lookup_lt_Some. }
  induction 1 as [|P als i al p P' _ IH Ha E|P als i P' _ IH Hi E|P als i l1 p l2 sc P' _ IH Ha E
    |P als i al p v _ IH Ha Hp].
  - apply memp_init_inv.
  - destruct (Hd _ _ _ _ IH Ha) as [d Hi].
    destruct (memp_malloc_ok P als i d al IH Hi Ha)
      as [(_ & q & P2 & E2 & _ & _ & Hinv)|(_ & P2 & E2 & _)]; congruence.
  - destruct (lookup_lt_is_Some_2 ds i Hi) as [d Hi'].
    destruct (pools_at P als i d IH Hi') as (al & Ha & _).
    destruct (memp_malloc_ok P als i d al IH Hi' Ha)
      as [(_ & q & P2 & E2 & _)|(_ & P2 & E2 & Hinv & _)]; congruence.
  - destruct (Hd _ _ _ _ IH Ha) as [d Hi].
    destruct (memp_free_ok P als i d l1 p l2 sc IH Hi Ha) as (P2 & E2 & Hinv). congruence.
  - destruct (Hd _ _ _ _ IH Ha) as [d Hi]. by eapply poke_inv.
Qed.
End pools.

(** ** Properties *)

(** The pools of struct pbuf and of PBUF_POOL buffers in the build. *)
Definition pbuf_pools : list pool_desc := [PoolDesc 16 24; PoolDesc 16 616].

Lemma pbuf_pools_ok : Forall desc_ok pbuf_pools.
Proof. repeat constructor; unfold desc_ok, is_u16; simpl; lia. Qed.

(** Memp_sanity, run on any pointers inside of the elements, ends, and
    returns 1 exactly if every pool's list reaches NULL (the two walkers of
    Floyd's algorithm meet on every circle and on nothing else). *)
Theorem memp_sanity_correct P :
  Forall (tracked (memp_next P)) (memp_tab P) ->
  exists b, memp_sanity P = Done b /\ (b = true <-> Forall (ends (memp_next P)) (memp_tab P)).
Proof.
  intros Ht. unfold memp_sanity.
  destruct (memp_sanity_tab_correct _ _ Ht) as [[-> He]|[-> He]]; eexists; split; done.
Qed.

(** Elements 0, 4 and 8, of which 0 and 4 form a circle. *)
Definition looped : pools :=
  Pools [Some 8] (<[0 := Some 4]> (<[4 := Some 0]> (<[8 := Some 0]> ∅))) [].

Lemma looped_closed : closed (memp_next looped).
Proof.
  intros a b E. cbn [memp_next looped] in *. rewrite !lookup_insert in E.
  repeat (case_decide; [simplify_eq; eexists; reflexivity|]). by rewrite lookup_empty in E.
Qed.

Lemma memp_sanity_correct_witness :
  memp_sanity looped = Done false /\ ~ Forall (ends (memp_next looped)) (memp_tab looped).
Proof.
  assert (memp_sanity looped = Done false) as E by (vm_compute; reflexivity).
  split; [exact E|]. destruct (memp_sanity_correct looped) as (b & Eb & Hb).
  - constructor; [|constructor]. apply closed_tracked; [apply looped_closed|].
    intros b Eb. injection Eb as <-. eexists. reflexivity.
  - intros H. apply Hb in H. congruence.
Defined.

(** C28: however a client that frees only what it holds uses the pools, writing
    what it wants to its elements: the elements it holds are distinct, those of
    pool i are elements of pool i, and the counter of used elements is their
    number; memp_malloc returns a fresh element of the pool exactly while fewer
    than memp_num are out and NULL afterwards; memp_free succeeds, with and
    without the sanity check, which never fails. *)
Theorem memp_client_safe ds P als :
  Forall desc_ok ds -> client ds P als ->
  (forall i j al al' p, als !! i = Some al -> als !! j = Some al' -> p ∈ al -> p ∈ al' -> i = j) /\
  (forall i d al, ds !! i = Some d -> als !! i = Some al ->
     NoDup al /\ (forall p, p ∈ al -> p ∈ pool_elems (pool_base 0 ds i) d /\ p mod 4 = 0) /\
     ms_used <$> (memp_stat P !! i) = Some (zlen al) /\
     match memp_malloc i P with
     | Done (Some p, _) =>
         zlen al < memp_num d /\ p ∈ pool_elems (pool_base 0 ds i) d /\ (p ∉ al)
     | Done (None, _) => zlen al = memp_num d
     | Crash _ => False
     end /\
     (forall sc p, p ∈ al -> exists P', memp_free sc i (Some p) P = Done (tt, P'))).
Proof.
  intros Hds Hc%client_pools_inv; [|done]. pose proof Hc as (Htab & Hals & Hat).
  assert (forall i al p, als !! i = Some al -> p ∈ al ->
    exists d, ds !! i = Some d /\ p ∈ pool_elems (pool_base 0 ds i) d) as Hel.
  { intros i al p Hal Hp. destruct (lookup_lt_is_Some_2 ds i) as [d Hd].
    { rewrite <- Hals. by eapply lookup_lt_Some. }
    exists d. split; [done|]. destruct (Hat i d al Hd Hal) as (hd & fl & st & _ & _ & _ & Hpe & _).
    rewrite <- Hpe. apply elem_of_app. by right. }
  split.
  - intros i j al al' p Hi Hj Hp Hp'.
    destruct (Hel _ _ _ Hi Hp) as (d & Hd & H1). destruct (Hel _ _ _ Hj Hp') as (d' & Hd' & H2).
    by eapply pools_disjoint.
  - intros i d al Hi Hal. destruct (Hat i d al Hi Hal) as (hd & fl & st & Ht & Hst & Hch & Hpe & _ & Hu & _).
    split; [|split; [|split; [|split]]].
    + eapply (pool_at_NoDup ds Hds P) in Hpe; [|done]. by apply list.NoDup_app in Hpe as (_ & _ & ?).
    + intros p Hp. destruct (Hel _ _ _ Hal Hp) as (d' & Hd' & H1). simplify_eq.
      split; [done|]. by eapply pool_elems_aligned.
    + rewrite Hst. simpl. by rewrite Hu.
    + destruct (memp_malloc_ok ds Hds P als i d al Hc Hi Hal)
        as [(Hlt & p & P' & -> & Hp & Hn & _)|(Heq & P' & -> & _)]; done.
    + intros sc p (l1 & l2 & ->)%list_elem_of_split.
      destruct (memp_free_ok ds Hds P als i d l1 p l2 sc Hc Hi Hal) as (P' & E & _). by exists P'.
Qed.

Lemma memp_client_safe_witness :
  client pbuf_pools (memp_init pbuf_pools) [[]; []] /\
  match memp_malloc 1 (memp_init pbuf_pools) with
  | Done (Some p, _) => p ∈ pool_elems 384 (PoolDesc 16 616)
  | _ => False
  end.
Proof.
  assert (client pbuf_pools (memp_init pbuf_pools) [[]; []]) as Hc by exact (client_init pbuf_pools).
  split; [exact Hc|].
  destruct (memp_client_safe pbuf_pools _ _ pbuf_pools_ok Hc) as [_ H].
  destruct (H 1%nat (PoolDesc 16 616) [] eq_refl eq_refl) as (_ & _ & _ & Hm & _).
  destruct (memp_malloc 1 (memp_init pbuf_pools)) as [[[p|] P']|c].
  - apply Hm.
  - vm_compute in Hm. discriminate Hm.
  - destruct Hm.
Defined.
