(* ===== verification/Alloc.v ===== *)
(** * The interface between the allocators and their clients

    The packet buffers get memory from core/mem.c and core/memp.c.  [Allocator]
    is the set of operations they call; [AllocatorSpec] is what the operations
    promise, in terms of the map of live blocks.  AllocImpl.v proves that the
    heap and the pools keep the promise. *)

From S2P Require Import Prelude.

(** The memory a pointer points into: ram of mem.c, memp_memory of memp.c, or
    anything else. *)
Inductive region : Set := RHeap | RPool | RExt.

(** A pointer is an offset into one of them; every region starts aligned. *)
Abbreviation ptr := (region * Z)%type.

#[global] Instance region_eq_dec : EqDecision region.
Proof. solve_decision. Defined.

#[global] Instance region_countable : Countable region.
Proof.
  refine (inj_countable' (fun r => match r with RHeap => 0%nat | RPool => 1%nat | RExt => 2%nat end)
    (fun n => match n with O => RHeap | 1%nat => RPool | _ => RExt end) _).
  by intros [].
Defined.

(** Pointer arithmetic. *)
Definition padd (p : ptr) (n : Z) : ptr := (p.1, p.2 + n).

(** The pools the packet buffers use. *)
Inductive memp_t : Set := MEMP_PBUF | MEMP_PBUF_POOL.

#[global] Instance memp_t_eq_dec : EqDecision memp_t.
Proof. solve_decision. Defined.

(** Where a live block comes from. *)
Inductive origin : Set := FromHeap | FromPool (type : memp_t).

(** SIZEOF_STRUCT_PBUF: two pointers and eight bytes on the 64-bit host. *)
Definition SIZEOF_STRUCT_PBUF : Z := LWIP_MEM_ALIGN_SIZE 24.

(** PBUF_POOL_BUFSIZE: TCP_MSS + 40 + PBUF_LINK_HLEN. *)
Definition PBUF_POOL_BUFSIZE_ALIGNED : Z := LWIP_MEM_ALIGN_SIZE (536 + 40 + 14).

(** The element sizes of memp_std.h. *)
Definition memp_size (type : memp_t) : Z :=
  match type with
  | MEMP_PBUF => SIZEOF_STRUCT_PBUF
  | MEMP_PBUF_POOL => SIZEOF_STRUCT_PBUF + PBUF_POOL_BUFSIZE_ALIGNED
  end.

Class Allocator (A : Type) := {
  al_mem_malloc : Z -> M A (option Z);
  al_mem_free : Z -> M A unit;
  al_mem_trim : Z -> Z -> M A (option Z);
  al_memp_malloc : memp_t -> M A (option Z);
  al_memp_free : memp_t -> Z -> M A unit
}.

(** A live block: where it comes from and how many bytes it has. *)
Abbreviation blocks := (gmap ptr (origin * Z)).

(** What the clients rely on. *)
Class AllocatorSpec (A : Type) `{Allocator A} := {
  al_inv : A -> blocks -> Prop;
  al_mem_malloc_ok a L size :
    al_inv a L -> 0 < size < 65536 ->
    exists r a', al_mem_malloc size a = Done (r, a') /\
      match r with
      | None => al_inv a' L
      | Some p =>
          L !! (RHeap, p) = None /\ p mod 4 = 0 /\
          exists n, (size <= 65532 -> size <= n) /\ al_inv a' (<[(RHeap, p) := (FromHeap, n)]> L)
      end;
  al_mem_free_ok a L p n :
    al_inv a L -> L !! (RHeap, p) = Some (FromHeap, n) ->
    exists a', al_mem_free p a = Done (tt, a') /\ al_inv a' (delete (RHeap, p) L);
  al_mem_trim_ok a L p n newsize :
    al_inv a L -> L !! (RHeap, p) = Some (FromHeap, n) -> 0 <= newsize <= n ->
    exists m a', al_mem_trim p newsize a = Done (Some p, a') /\ newsize <= m <= n /\
      al_inv a' (<[(RHeap, p) := (FromHeap, m)]> L);
  al_memp_malloc_ok a L type :
    al_inv a L ->
    exists r a', al_memp_malloc type a = Done (r, a') /\
      match r with
      | None => al_inv a' L
      | Some p =>
          L !! (RPool, p) = None /\ p mod 4 = 0 /\
          al_inv a' (<[(RPool, p) := (FromPool type, memp_size type)]> L)
      end;
  al_memp_free_ok a L type p n :
    al_inv a L -> L !! (RPool, p) = Some (FromPool type, n) ->
    exists a', al_memp_free type p a = Done (tt, a') /\ al_inv a' (delete (RPool, p) L);
  al_size a L p o n : al_inv a L -> L !! p = Some (o, n) -> n < 65536;
  al_heap_size : Z;
  al_in_heap a L p o n : al_inv a L -> L !! (RHeap, p) = Some (o, n) -> 0 <= p /\ p + n <= al_heap_size;
  al_disjoint a L r p q o1 n1 o2 n2 :
    al_inv a L -> L !! (r, p) = Some (o1, n1) -> L !! (r, q) = Some (o2, n2) -> p < q ->
    p + n1 <= q
}.
