(* ===== verification/Pbuf.v ===== *)
(** * Packet buffers

    core/pbuf.c: the struct pbufs, by address, the bytes they point to, and the
    state of the allocators, which is reached through the interface of Alloc.v.
    The list operations are here, the operations on the contents are in
    PbufData.v. *)

From S2P Require Import Prelude Alloc.

Inductive pbuf_layer : Set := PBUF_TRANSPORT | PBUF_IP | PBUF_LINK | PBUF_RAW.

Inductive pbuf_type : Set := PBUF_RAM | PBUF_ROM | PBUF_REF | PBUF_POOL.

#[global] Instance pbuf_type_eq_dec : EqDecision pbuf_type.
Proof. solve_decision. Defined.

(** struct pbuf *)
Record pbuf := Pbuf {
  next : option ptr;
  payload : option ptr;
  tot_len : Z;
  len : Z;
  type : pbuf_type;
  flags : Z;
  ref : Z
}.

#[global] Instance pbuf_eq_dec : EqDecision pbuf.
Proof. solve_decision. Defined.

Definition PBUF_FLAG_IS_CUSTOM : Z := 0x02.

Definition PBUF_LINK_HLEN : Z := 14.

Definition PBUF_IP_HLEN : Z := 20.

Definition PBUF_TRANSPORT_HLEN : Z := 20.

(** The header room of a layer. *)
Definition layer_offset (layer : pbuf_layer) : Z :=
  match layer with
  | PBUF_TRANSPORT => PBUF_LINK_HLEN + PBUF_IP_HLEN + PBUF_TRANSPORT_HLEN
  | PBUF_IP => PBUF_LINK_HLEN + PBUF_IP_HLEN
  | PBUF_LINK => PBUF_LINK_HLEN
  | PBUF_RAW => 0
  end.

(** The memory the packet buffers use: the live struct pbufs, the bytes, the
    allocators, and pbuf_free_ooseq_pending. *)
Record pstate (A : Type) := PState {
  pbufs : gmap ptr pbuf;
  pdata : gmap ptr Z;
  palloc : A;
  pbuf_free_ooseq_pending : bool
}.

Arguments PState {A} _ _ _ _.
Arguments pbufs {A} _.
Arguments pdata {A} _.
Arguments palloc {A} _.
Arguments pbuf_free_ooseq_pending {A} _.

(** ** Access *)

Section access.
Context {A : Type}.

(** Read the struct pbuf at [p]; one that has been freed is not there. *)
Definition rdp (p : ptr) : M (pstate A) pbuf := s ← get; deref (pbufs s !! p).

Definition set_pbufs (f : gmap ptr pbuf -> gmap ptr pbuf) (s : pstate A) : pstate A :=
  PState (f (pbufs s)) (pdata s) (palloc s) (pbuf_free_ooseq_pending s).

Definition wrp (p : ptr) (b : pbuf) : M (pstate A) unit := modify (set_pbufs (insert p b)).

(** The struct at [p] goes back to an allocator with its block. *)
Definition kill (p : ptr) : M (pstate A) unit := modify (set_pbufs (delete p)).

Definition set_pending (v : bool) : M (pstate A) unit :=
  modify (fun s => PState (pbufs s) (pdata s) (palloc s) v).

(** A call of an allocator. *)
Definition call {B} (m : M A B) : M (pstate A) B := fun s =>
  match m (palloc s) with
  | Done (b, a) => Done (b, PState (pbufs s) (pdata s) a (pbuf_free_ooseq_pending s))
  | Crash c => Crash c
  end.
End access.

(** Field assignments. *)
Definition upd_next (v : option ptr) (b : pbuf) : pbuf :=
  Pbuf v (payload b) (tot_len b) (len b) (type b) (flags b) (ref b).

Definition upd_tot (v : Z) (b : pbuf) : pbuf :=
  Pbuf (next b) (payload b) v (len b) (type b) (flags b) (ref b).

Definition upd_len (v : Z) (b : pbuf) : pbuf :=
  Pbuf (next b) (payload b) (tot_len b) v (type b) (flags b) (ref b).

Definition upd_ref (v : Z) (b : pbuf) : pbuf :=
  Pbuf (next b) (payload b) (tot_len b) (len b) (type b) (flags b) v.

Definition upd_flags (v : Z) (b : pbuf) : pbuf :=
  Pbuf (next b) (payload b) (tot_len b) (len b) (type b) v (ref b).

Definition upd_payload (v : option ptr) (b : pbuf) : pbuf :=
  Pbuf (next b) v (tot_len b) (len b) (type b) (flags b) (ref b).

(** LWIP_MEM_ALIGN on a pointer. *)
Definition mem_align (p : ptr) : ptr := (p.1, LWIP_MEM_ALIGN_SIZE p.2).

(** ** Operations

    [stale_flags] is what the flags byte of a pool element holds when memp_malloc
    returns it, and [custom_free_function] the function pointer stored behind a
    struct pbuf with PBUF_FLAG_IS_CUSTOM (NULL is [None]). *)

Section operations.
Context {A : Type} `{Allocator A}.
Context (stale_flags : ptr -> Z).
Context (custom_free_function : ptr -> option (M (pstate A) unit)).

(** Hand the memory of [p] back, as pbuf_free does at reference count 0. *)
Definition dealloc (p : ptr) (b : pbuf) : M (pstate A) unit :=
  if nz (Z.land (flags b) PBUF_FLAG_IS_CUSTOM) then
    match custom_free_function p with
    | Some f => f
    | None => fail AssertFailed
    end
  else
    kill p;;
    match type b with
    | PBUF_POOL => call (al_memp_free MEMP_PBUF_POOL p.2)
    | PBUF_ROM | PBUF_REF => call (al_memp_free MEMP_PBUF p.2)
    | PBUF_RAM => call (al_mem_free p.2)
    end.

Fixpoint pbuf_free_loop (fuel : nat) (p : option ptr) (count : Z) : M (pstate A) Z :=
  match p with
  | None => mret count
  | Some p =>
      match fuel with
      | O => fail OutOfFuel
      | S fuel =>
          b ← rdp p;
          lwip_assert (0 <? ref b);;
          let r := u16 (ref b - 1) in
          let b := upd_ref r b in
          wrp p b;;
          if r =? 0 then
            let q := next b in
            dealloc p b;;
            pbuf_free_loop fuel q (u8 (count + 1))
          else mret count
      end
  end.

(** A bound for the loops over the pbufs of a chain. *)
Definition pbuf_fuel (s : pstate A) : nat := S (size (pbufs s)).

Definition pbuf_free (p : option ptr) : M (pstate A) Z :=
  match p with
  | None => fail AssertFailed
  | Some p =>
      rdp p;;
      s ← get;
      pbuf_free_loop (pbuf_fuel s) (Some p) 0
  end.

(** The loop of pbuf_alloc that allocates the tail of a pool chain. *)
Fixpoint pool_tail (fuel : nat) (p r : ptr) (rem_len : Z) : M (pstate A) (option ptr) :=
  if 0 <? rem_len then
    match fuel with
    | O => fail OutOfFuel
    | S fuel =>
        q ← call (al_memp_malloc MEMP_PBUF_POOL);
        match q with
        | None =>
            set_pending true;;
            pbuf_free (Some p);;
            mret None
        | Some a =>
            let q := (RPool, a) in
            rb ← rdp r;
            wrp r (upd_next (Some q) rb);;
            lwip_assert (rem_len <? 0xffff);;
            let qlen := Z.min (u16 rem_len) PBUF_POOL_BUFSIZE_ALIGNED in
            let pay := padd q SIZEOF_STRUCT_PBUF in
            lwip_assert (pay.2 mod 4 =? 0);;
            pb ← rdp p;
            pp ← deref (payload pb);
            lwip_assert (pp.2 + len pb <=? p.2 + SIZEOF_STRUCT_PBUF + PBUF_POOL_BUFSIZE_ALIGNED);;
            wrp q (Pbuf None (Some pay) (u16 rem_len) qlen PBUF_POOL 0 1);;
            pool_tail fuel p q (rem_len - qlen)
        end
    end
  else mret (Some p).

(** Every pool pbuf takes at least one byte of a u16_t length. *)
Definition pool_fuel (length : Z) : nat := S (Z.to_nat length).

(** The common end of pbuf_alloc: reference count and flags. *)
Definition finish_alloc (p : ptr) : M (pstate A) (option ptr) :=
  b ← rdp p;
  wrp p (upd_flags 0 (upd_ref 1 b));;
  mret (Some p).

Definition pbuf_alloc (layer : pbuf_layer) (length : Z) (t : pbuf_type)
    : M (pstate A) (option ptr) :=
  let offset := layer_offset layer in
  match t with
  | PBUF_POOL =>
      p ← call (al_memp_malloc MEMP_PBUF_POOL);
      match p with
      | None => set_pending true;; mret None
      | Some a =>
          let p := (RPool, a) in
          let pay := mem_align (padd p (SIZEOF_STRUCT_PBUF + offset)) in
          lwip_assert (pay.2 mod 4 =? 0);;
          let plen := Z.min length (PBUF_POOL_BUFSIZE_ALIGNED - LWIP_MEM_ALIGN_SIZE offset) in
          lwip_assert (pay.2 + plen <=? p.2 + SIZEOF_STRUCT_PBUF + PBUF_POOL_BUFSIZE_ALIGNED);;
          lwip_assert (0 <? PBUF_POOL_BUFSIZE_ALIGNED - LWIP_MEM_ALIGN_SIZE offset);;
          wrp p (Pbuf None (Some pay) length plen PBUF_POOL (stale_flags p) 1);;
          r ← pool_tail (pool_fuel length) p p (length - plen);
          match r with
          | None => mret None
          | Some p => finish_alloc p
          end
      end
  | PBUF_RAM =>
      p ← call (al_mem_malloc
            (u16 (LWIP_MEM_ALIGN_SIZE (SIZEOF_STRUCT_PBUF + offset) + LWIP_MEM_ALIGN_SIZE length)));
      match p with
      | None => mret None
      | Some a =>
          let p := (RHeap, a) in
          let pay := mem_align (padd p (SIZEOF_STRUCT_PBUF + offset)) in
          wrp p (Pbuf None (Some pay) length length PBUF_RAM (stale_flags p) 1);;
          lwip_assert (pay.2 mod 4 =? 0);;
          finish_alloc p
      end
  | PBUF_ROM | PBUF_REF =>
      p ← call (al_memp_malloc MEMP_PBUF);
      match p with
      | None => mret None
      | Some a =>
          let p := (RPool, a) in
          wrp p (Pbuf None None length length t (stale_flags p) 1);;
          finish_alloc p
      end
  end.

(** [p] is the struct pbuf inside of the caller's struct pbuf_custom. *)
Definition pbuf_alloced_custom (l : pbuf_layer) (length : Z) (t : pbuf_type) (p : ptr)
    (payload_mem : option ptr) (payload_mem_len : Z) : M (pstate A) (option ptr) :=
  let offset := LWIP_MEM_ALIGN_SIZE (layer_offset l) in
  if payload_mem_len <? offset + length then mret None
  else
    let pay := match payload_mem with Some m => Some (padd m offset) | None => None end in
    wrp p (Pbuf None pay length length t PBUF_FLAG_IS_CUSTOM 1);;
    mret (Some p).

(** The step over the pbufs that stay: the new last pbuf and its length. *)
Fixpoint realloc_skip (fuel : nat) (q : ptr) (rem_len grow : Z) : M (pstate A) (ptr * Z) :=
  b ← rdp q;
  if len b <? rem_len then
    match fuel with
    | O => fail OutOfFuel
    | S fuel =>
        lwip_assert (grow <? 0xffff);;
        wrp q (upd_tot (u16 (tot_len b + u16 grow)) b);;
        match next b with
        | None => fail AssertFailed
        | Some q => realloc_skip fuel q (u16 (rem_len - len b)) grow
        end
    end
  else mret (q, rem_len).

Definition pbuf_realloc (p : ptr) (new_len : Z) : M (pstate A) unit :=
  b ← rdp p;
  if tot_len b <=? new_len then mret tt
  else
    s ← get;
    qr ← realloc_skip (pbuf_fuel s) p new_len (new_len - tot_len b);
    let '(q, rem_len) := qr in
    b ← rdp q;
    q ← (if bool_decide (type b = PBUF_RAM) && negb (rem_len =? len b) then
           pay ← deref (payload b);
           r ← call (al_mem_trim q.2 (u16 (u16 (pay.2 - q.2) + rem_len)));
           match r with
           | Some a => mret (RHeap, a)
           | None => fail AssertFailed
           end
         else mret q);
    b ← rdp q;
    let b := upd_tot rem_len (upd_len rem_len b) in
    wrp q b;;
    (match next b with
     | Some n => pbuf_free (Some n);; mret tt
     | None => mret tt
     end);;
    b ← rdp q;
    wrp q (upd_next None b).

(** [header_size_increment] is an s16_t.  The result is the u8_t the function
    returns. *)
Definition pbuf_header (p : option ptr) (header_size_increment : Z) : M (pstate A) Z :=
  match p with
  | None => fail AssertFailed
  | Some p =>
      if header_size_increment =? 0 then mret 0
      else
        b ← rdp p;
        (if header_size_increment <? 0
         then lwip_assert (u16 (- header_size_increment) <=? len b)
         else mret tt);;
        let moved := upd_tot (u16 (tot_len b + header_size_increment))
                       (upd_len (u16 (len b + header_size_increment)) b) in
        match type b with
        | PBUF_RAM | PBUF_POOL =>
            pay ← deref (payload b);
            let pay' := padd pay (- header_size_increment) in
            if pay'.2 <? p.2 + SIZEOF_STRUCT_PBUF then mret 1
            else wrp p (upd_payload (Some pay') moved);; mret 0
        | PBUF_REF | PBUF_ROM =>
            if header_size_increment <? 0 then
              pay ← deref (payload b);
              wrp p (upd_payload (Some (padd pay (- header_size_increment))) moved);; mret 0
            else mret 1
        end
  end.

Fixpoint clen_loop (fuel : nat) (p : option ptr) (n : Z) : M (pstate A) Z :=
  match p with
  | None => mret n
  | Some p =>
      match fuel with
      | O => fail OutOfFuel
      | S fuel => b ← rdp p; clen_loop fuel (next b) (u8 (n + 1))
      end
  end.

Definition pbuf_clen (p : option ptr) : M (pstate A) Z :=
  s ← get; clen_loop (pbuf_fuel s) p 0.

Definition pbuf_ref (p : option ptr) : M (pstate A) unit :=
  match p with
  | None => mret tt
  | Some p => b ← rdp p; wrp p (upd_ref (u16 (ref b + 1)) b)
  end.

(** The walk of pbuf_cat to the last pbuf, which it returns. *)
Fixpoint cat_walk (fuel : nat) (p t : ptr) : M (pstate A) ptr :=
  b ← rdp p;
  match next b with
  | None => mret p
  | Some n =>
      match fuel with
      | O => fail OutOfFuel
      | S fuel =>
          tb ← rdp t;
          wrp p (upd_tot (u16 (tot_len b + tot_len tb)) b);;
          cat_walk fuel n t
      end
  end.

Definition pbuf_cat (h t : option ptr) : M (pstate A) unit :=
  match h, t with
  | Some h, Some t =>
      s ← get;
      p ← cat_walk (pbuf_fuel s) h t;
      b ← rdp p;
      lwip_assert (tot_len b =? len b);;
      lwip_assert (match next b with None => true | Some _ => false end);;
      tb ← rdp t;
      wrp p (upd_next (Some t) (upd_tot (u16 (tot_len b + tot_len tb)) b))
  | _, _ => fail AssertFailed
  end.

Definition pbuf_chain (h t : option ptr) : M (pstate A) unit :=
  pbuf_cat h t;; pbuf_ref t.

(** The LWIP_ASSERT compares in int: p->tot_len - p->len may be negative. *)
Definition pbuf_dechain (p : ptr) : M (pstate A) (option ptr) :=
  b ← rdp p;
  r ← (match next b with
       | None => mret None
       | Some q =>
           qb ← rdp q;
           lwip_assert (tot_len qb =? tot_len b - len b);;
           wrp q (upd_tot (u16 (tot_len b - len b)) qb);;
           b ← rdp p;
           wrp p (upd_tot (len b) (upd_next None b));;
           tail_gone ← pbuf_free (Some q);
           mret (if 0 <? tail_gone then None else Some q)
       end);
  b ← rdp p;
  lwip_assert (tot_len b =? len b);;
  mret r.
End operations.

(** ** Chains and reference counts *)

Implicit Types (m : gmap ptr pbuf) (p : ptr) (b : pbuf).

(** [l] are the pbufs on the way from [p] to NULL. *)
Fixpoint chain (m : gmap ptr pbuf) (p : option ptr) (l : list (ptr * pbuf)) : Prop :=
  match l with
  | [] => p = None
  | (a, b) :: l => p = Some a /\ m !! a = Some b /\ chain m (next b) l
  end.

(** The bytes of a chain. *)
Definition lsum (l : list (ptr * pbuf)) : Z := foldr (fun ab acc => len ab.2 + acc) 0 l.

(** tot_len is the length of the rest of the chain. *)
Fixpoint tot_ok (l : list (ptr * pbuf)) : Prop :=
  match l with
  | [] => True
  | (a, b) :: l => tot_len b = len b + lsum l /\ tot_ok l
  end.

Definition links_to (p : ptr) (b : pbuf) : bool := bool_decide (next b = Some p).

(** How many pbufs link to [p]. *)
Definition nrefs (m : gmap ptr pbuf) (p : ptr) : Z :=
  Z.of_nat (size (filter (fun kb => next kb.2 = Some p) m)).

(** How many of the pointers [ext] held outside of the chains are [p]. *)
Definition held (p : ptr) (ext : list ptr) : Z := zlen (filter (fun q => q = p) ext).

(** The pbufs of a chain that pbuf_free gives back: the leading ones with one
    reference. *)
Fixpoint lead (l : list (ptr * pbuf)) : list ptr :=
  match l with
  | (a, b) :: l => if ref b =? 1 then a :: lead l else []
  | [] => []
  end.

(** What pbuf_free does to the struct pbufs: the first pbuf with more than one
    reference loses one. *)
Fixpoint drop (l : list (ptr * pbuf)) (m : gmap ptr pbuf) : gmap ptr pbuf :=
  match l with
  | (a, b) :: l =>
      if ref b =? 1 then drop l (delete a m) else <[a := upd_ref (ref b - 1) b]> m
  | [] => m
  end.

(** The block of memory a pbuf lives in. *)
Definition home (b : pbuf) : region * origin :=
  match type b with
  | PBUF_RAM => (RHeap, FromHeap)
  | PBUF_POOL => (RPool, FromPool MEMP_PBUF_POOL)
  | PBUF_ROM | PBUF_REF => (RPool, FromPool MEMP_PBUF)
  end.

(** The payload of a pbuf that carries its own data lies in its block. *)
Definition payload_ok (p : ptr) (n : Z) (b : pbuf) : Prop :=
  match type b with
  | PBUF_RAM | PBUF_POOL =>
      exists a, payload b = Some (p.1, a) /\ p.2 + SIZEOF_STRUCT_PBUF <= a /\ a + len b <= p.2 + n
  | _ => True
  end.

Definition pbuf_ok (L : blocks) (p : ptr) (b : pbuf) : Prop :=
  p.1 = (home b).1 /\ Z.land (flags b) PBUF_FLAG_IS_CUSTOM = 0 /\
  is_u16 (len b) /\ is_u16 (tot_len b) /\
  exists n, L !! p = Some ((home b).2, n) /\ payload_ok p n b.

(** Every pbuf is in a live block and has a positive reference count, and its
    next pointer is valid. *)
Definition nodes_ok (L : blocks) (m : gmap ptr pbuf) : Prop :=
  forall p b, m !! p = Some b ->
    pbuf_ok L p b /\ 0 < ref b < 65536 /\
    match next b with Some q => is_Some (m !! q) | None => True end.

(** Reference counts are exact: the links in the chains and the pointers held
    outside. *)
Definition refs_ok (m : gmap ptr pbuf) (ext : list ptr) : Prop :=
  (forall p b, m !! p = Some b -> ref b = nrefs m p + held p ext) /\
  Forall (fun p => is_Some (m !! p)) ext.

(** Every chain ends. *)
Definition ends_ok (m : gmap ptr pbuf) : Prop := forall p b, m !! p = Some b -> exists l, chain m (Some p) l.

(** tot_len of all pbufs. *)
Definition tots_ok (m : gmap ptr pbuf) : Prop :=
  forall p b, m !! p = Some b ->
    match next b with
    | None => tot_len b = len b
    | Some q => exists qb, m !! q = Some qb /\ tot_len b = len b + tot_len qb
    end.

(** ** Counting links *)

Lemma nrefs_nonneg m p : 0 <= nrefs m p.
Proof. unfold nrefs. lia. Qed.

Lemma nrefs_insert_new m k b p :
  m !! k = None -> nrefs (<[k := b]> m) p = nrefs m p + Z.b2z (links_to p b).
Proof.
  intros Hk. unfold nrefs, links_to. rewrite map_filter_insert. simpl.
  case_decide as Hn.
  - rewrite bool_decide_true by done. rewrite map_size_insert_None; [simpl; lia|].
    apply map_lookup_filter_None. by left.
  - rewrite bool_decide_false by done. rewrite delete_id by done. simpl. lia.
Qed.

Lemma nrefs_delete m k b p :
  m !! k = Some b -> nrefs m p = nrefs (delete k m) p + Z.b2z (links_to p b).
Proof.
  intros Hk. rewrite <- (nrefs_insert_new (delete k m) k b p) by apply lookup_delete_eq.
  by rewrite insert_delete_id.
Qed.

Lemma nrefs_update m k b b' p :
  m !! k = Some b ->
  nrefs (<[k := b']> m) p = nrefs m p - Z.b2z (links_to p b) + Z.b2z (links_to p b').
Proof.
  intros Hk. rewrite (nrefs_delete m k b p Hk).
  rewrite <- insert_delete_eq, nrefs_insert_new by apply lookup_delete_eq. lia.
Qed.

Lemma nrefs_update_same m k b b' p :
  m !! k = Some b -> next b' = next b -> nrefs (<[k := b']> m) p = nrefs m p.
Proof. intros Hk Hn. rewrite (nrefs_update _ _ b) by done. unfold links_to. rewrite Hn. lia. Qed.

Lemma nrefs_zero m p k b : nrefs m p = 0 -> m !! k = Some b -> next b <> Some p.
Proof.
  intros Hz Hk Hn. rewrite (nrefs_delete m k b p Hk) in Hz.
  unfold links_to in Hz. rewrite bool_decide_true in Hz by done.
  pose proof (nrefs_nonneg (delete k m) p). simpl in Hz. lia.
Qed.

Lemma held_cons p q ext : held p (q :: ext) = Z.b2z (bool_decide (q = p)) + held p ext.
Proof.
  unfold held. rewrite filter_cons. case_decide as Hd.
  - rewrite bool_decide_true by done. by rewrite zlen_cons.
  - by rewrite bool_decide_false.
Qed.

Lemma held_nonneg p ext : 0 <= held p ext.
Proof. unfold held, zlen. lia. Qed.

(** ** pbuf_free *)

Definition opt_cons (q : option ptr) (ext : list ptr) : list ptr :=
  match q with Some q => q :: ext | None => ext end.

Lemma drop_delete L m ext p b :
  nodes_ok L m -> refs_ok m (p :: ext) -> m !! p = Some b -> ref b = 1 ->
  nodes_ok (delete p L) (delete p m) /\ refs_ok (delete p m) (opt_cons (next b) ext) /\
  nrefs m p = 0.
Proof.
  intros Hn [Hr Hx] Hp H1. pose proof (Hr p b Hp) as Hc. rewrite H1, held_cons in Hc.
  rewrite bool_decide_true in Hc by done. simpl in Hc.
  pose proof (nrefs_nonneg m p). pose proof (held_nonneg p ext).
  assert (nrefs m p = 0) as Hz by lia. assert (held p ext = 0) as Hh by lia.
  split; [|split; [split|done]].
  - intros x c Hxc. rewrite lookup_delete_Some in Hxc. destruct Hxc as [Hne Hxc].
    destruct (Hn x c Hxc) as ((Ho & Hf & Hl & Ht & n & HL & Hpay) & Hrc & Hnx).
    split; [|split; [done|]].
    + split; [done|]. split; [done|]. split; [done|]. split; [done|].
      exists n. by rewrite lookup_delete_ne.
    + destruct (next c) as [q|] eqn:Eq; [|done].
      rewrite lookup_delete_ne; [done|]. intros ->. by apply (nrefs_zero m q x c).
  - intros x c Hxc. rewrite lookup_delete_Some in Hxc. destruct Hxc as [Hne Hxc].
    rewrite (Hr x c Hxc), (nrefs_delete m p b x Hp), held_cons.
    rewrite bool_decide_false by done. unfold links_to, opt_cons.
    destruct (next b) as [q|].
    + rewrite held_cons. destruct (decide (q = x)) as [->|].
      * rewrite !bool_decide_true by done. simpl. lia.
      * rewrite !bool_decide_false by congruence. simpl. lia.
    + rewrite bool_decide_false by done. simpl. lia.
  - assert (Forall (fun x => is_Some (delete p m !! x)) ext) as Hext.
    { apply list.Forall_cons in Hx as [_ Hx]. rewrite !list.Forall_forall in *. intros x Hin.
      rewrite lookup_delete_ne; [by apply Hx|]. intros ->.
      unfold held in Hh. assert (x ∈ filter (fun q => q = x) ext) as Hf.
      { by apply list_elem_of_filter. }
      destruct (filter _ ext); [by apply elem_of_nil in Hf|]. rewrite zlen_cons in Hh.
      pose proof (zlen_nonneg l). lia. }
    destruct (next b) as [q|] eqn:Eq; [|done]. constructor; [|done].
    destruct (Hn p b Hp) as (_ & _ & Hnx). rewrite Eq in Hnx.
    rewrite lookup_delete_ne; [done|]. intros ->. by apply (nrefs_zero m q q b).
Qed.

Lemma nodes_ok_update L m p b b' :
  nodes_ok L m -> m !! p = Some b -> pbuf_ok L p b' -> 0 < ref b' < 65536 ->
  match next b' with Some q => is_Some (m !! q) | None => True end ->
  nodes_ok L (<[p := b']> m).
Proof.
  intros Hn Hp Hb Hr Hx.
  assert (forall q, is_Some (m !! q) -> is_Some (<[p := b']> m !! q)) as Hs.
  { intros q Hq. destruct (decide (p = q)) as [->|]; [rewrite lookup_insert_eq; by eexists|].
    by rewrite lookup_insert_ne. }
  intros x c Hxc. destruct (decide (p = x)) as [->|Hne].
  - rewrite lookup_insert_eq in Hxc. simplify_eq. split; [done|]. split; [done|].
    destruct (next c); [by apply Hs|done].
  - rewrite lookup_insert_ne in Hxc by done. destruct (Hn x c Hxc) as (H1 & H2 & H3).
    split; [done|]. split; [done|]. destruct (next c); [by apply Hs|done].
Qed.

(** Giving up one of several references. *)
Lemma drop_dec L m ext p b :
  nodes_ok L m -> refs_ok m (p :: ext) -> m !! p = Some b -> ref b <> 1 ->
  nodes_ok L (<[p := upd_ref (ref b - 1) b]> m) /\ refs_ok (<[p := upd_ref (ref b - 1) b]> m) ext.
Proof.
  intros Hn [Hr Hx] Hp H1. destruct (Hn p b Hp) as (Hb & Hrc & Hnx).
  split; [eapply nodes_ok_update; try done; simpl; lia|]. split.
  - intros x c Hxc. rewrite (nrefs_update_same m p b) by done.
    destruct (decide (p = x)) as [->|Hne].
    + rewrite lookup_insert_eq in Hxc. simplify_eq. simpl. rewrite (Hr x b Hp), held_cons.
      rewrite bool_decide_true by done. simpl. lia.
    + rewrite lookup_insert_ne in Hxc by done. rewrite (Hr x c Hxc), held_cons.
      rewrite bool_decide_false by done. simpl. lia.
  - apply list.Forall_cons in Hx as [_ Hx]. eapply list.Forall_impl; [exact Hx|]. intros x Hs. simpl in *.
    destruct (decide (p = x)) as [->|]; [rewrite lookup_insert_eq; by eexists|].
    by rewrite lookup_insert_ne.
Qed.


(** ** Chains under the updates *)

Lemma chain_det m (q : option ptr) l l' : chain m q l -> chain m q l' -> l = l'.
Proof.
  revert q l'. induction l as [|[a b] l IH]; intros q [|[a' b'] l']; simpl.
  - done.
  - intros -> (? & _). done.
  - intros (-> & _) ?. done.
  - intros (-> & Ha & Hc) (? & Ha' & Hc'). simplify_eq. f_equal. by eapply IH.
Qed.


(** A pbuf nothing links to is on no chain that starts elsewhere. *)
Lemma chain_avoid m p l : forall q,
  nrefs m p = 0 -> q <> Some p -> chain m q l -> p ∉ l.*1.
Proof.
  induction l as [|[a b] l IH]; intros q Hz Hq Hc; simpl; [apply not_elem_of_nil|].
  destruct Hc as (-> & Ha & Hc). apply not_elem_of_cons. split; [congruence|].
  eapply IH; [done| |exact Hc]. by eapply nrefs_zero.
Qed.

Lemma chain_ext m m' l : forall q,
  (forall a, a ∈ l.*1 -> m' !! a = m !! a) -> chain m q l -> chain m' q l.
Proof.
  induction l as [|[a b] l IH]; intros q Hf; [done|]. intros (-> & Ha & Hc).
  split; [done|]. rewrite Hf by apply list_elem_of_here. split; [done|].
  apply IH; [|done]. intros x Hx. apply Hf. by right.
Qed.

Lemma chain_delete m p l q : p ∉ l.*1 -> chain m q l -> chain (delete p m) q l.
Proof.
  intros Hp. apply chain_ext. intros a Ha. rewrite lookup_delete_ne; [done|]. by intros ->.
Qed.

Lemma chain_insert_ne m p b l q : p ∉ l.*1 -> chain m q l -> chain (<[p := b]> m) q l.
Proof.
  intros Hp. apply chain_ext. intros a Ha. rewrite lookup_insert_ne; [done|]. by intros ->.
Qed.

Lemma chain_update m p b b' l : forall q,
  m !! p = Some b -> next b' = next b -> chain m q l ->
  exists l', chain (<[p := b']> m) q l' /\ l'.*1 = l.*1.
Proof.
  induction l as [|[a c] l IH]; intros q Hp Hn Hc.
  - exists []. done.
  - destruct Hc as (-> & Ha & Hc). destruct (IH _ Hp Hn Hc) as (l' & Hc' & Hl').
    destruct (decide (p = a)) as [->|Hne].
    + simplify_eq. exists ((a, b') :: l'). split; [|by rewrite !fmap_cons, Hl'].
      split; [done|]. rewrite lookup_insert_eq. split; [done|]. by rewrite Hn.
    + exists ((a, c) :: l'). split; [|by rewrite !fmap_cons, Hl'].
      split; [done|]. by rewrite lookup_insert_ne.
Qed.

Lemma ends_update m p b b' :
  ends_ok m -> m !! p = Some b -> next b' = next b -> ends_ok (<[p := b']> m).
Proof.
  intros He Hp Hn x c Hxc.
  assert (exists d, m !! x = Some d) as [d Hd].
  { destruct (decide (p = x)) as [->|]; [by eexists|]. rewrite lookup_insert_ne in Hxc by done. by eexists. }
  destruct (He x d Hd) as [l Hl]. destruct (chain_update m p b b' l _ Hp Hn Hl) as (l' & Hl' & _).
  by exists l'.
Qed.

Lemma ends_delete m p : ends_ok m -> nrefs m p = 0 -> ends_ok (delete p m).
Proof.
  intros He Hz x c Hxc. rewrite lookup_delete_Some in Hxc. destruct Hxc as [Hne Hxc].
  destruct (He x c Hxc) as [l Hl]. exists l. apply chain_delete; [|done].
  eapply chain_avoid; [done| |exact Hl]. congruence.
Qed.

Lemma tots_update m p b b' :
  tots_ok m -> m !! p = Some b -> next b' = next b -> tot_len b' = tot_len b -> len b' = len b ->
  tots_ok (<[p := b']> m).
Proof.
  intros Ht Hp Hn Htt Hl x c Hxc.
  assert (exists d, m !! x = Some d /\ next c = next d /\ tot_len c = tot_len d /\ len c = len d)
    as (d & Hd & -> & -> & ->).
  { destruct (decide (p = x)) as [->|].
    - rewrite lookup_insert_eq in Hxc. simplify_eq. by exists b.
    - rewrite lookup_insert_ne in Hxc by done. by exists c. }
  specialize (Ht x d Hd). destruct (next d) as [q|]; [|done].
  destruct Ht as (qb & Hq & Ht). destruct (decide (p = q)) as [->|].
  - exists b'. rewrite lookup_insert_eq. split; [done|]. simplify_eq. by rewrite Htt.
  - exists qb. by rewrite lookup_insert_ne.
Qed.

Lemma tots_delete m p : tots_ok m -> nrefs m p = 0 -> tots_ok (delete p m).
Proof.
  intros Ht Hz x c Hxc. rewrite lookup_delete_Some in Hxc. destruct Hxc as [Hne Hxc].
  specialize (Ht x c Hxc). destruct (next c) as [q|] eqn:E; [|done].
  destruct Ht as (qb & Hq & Ht). exists qb. split; [|done].
  rewrite lookup_delete_ne; [done|]. intros ->. by apply (nrefs_zero m q x c).
Qed.

(** The way to NULL does not come back. *)
Lemma chain_NoDup m (q : option ptr) l : chain m q l -> NoDup l.*1.
Proof.
  revert q. induction l as [|[a b] l IH]; intros q Hc; [constructor|].
  destruct Hc as (-> & Ha & Hc). rewrite fmap_cons. constructor; [|by eapply IH].
  intros Hin. simpl in Hin. apply list_elem_of_fmap in Hin as ([a' b'] & E & Hin). simpl in E. subst a'.
  apply list_elem_of_split in Hin as (l1 & l2 & ->).
  assert (forall l1 q l2, chain m q (l1 ++ (a, b') :: l2) -> chain m (Some a) ((a, b') :: l2)) as Hsuf.
  { clear. induction l1 as [|[x c] l1 IH]; intros q l2; [by intros (-> & H)|].
    intros (_ & _ & Hc). by apply (IH _ _ Hc). }
  pose proof (Hsuf _ _ _ Hc) as H1.
  assert (chain m (Some a) ((a, b) :: l1 ++ (a, b') :: l2)) as H2 by done.
  pose proof (chain_det _ _ _ _ H1 H2) as E. apply (f_equal length) in E. simpl in E.
  rewrite length_app in E. simpl in E. lia.
Qed.

Lemma chain_in m (q : option ptr) l a b : chain m q l -> (a, b) ∈ l -> m !! a = Some b.
Proof.
  revert q. induction l as [|[x c] l IH]; intros q Hc Hin; [by apply elem_of_nil in Hin|].
  destruct Hc as (_ & Hx & Hc). apply elem_of_cons in Hin as [E|Hin]; [by simplify_eq|by eapply IH].
Qed.

Lemma chain_in_fst m (q : option ptr) l a :
  chain m q l -> a ∈ l.*1 -> exists b, (a, b) ∈ l /\ m !! a = Some b.
Proof.
  intros Hc ([a' b] & -> & Hin)%list_elem_of_fmap. exists b. split; [done|]. by eapply chain_in.
Qed.

Lemma chain_length m (q : option ptr) l : chain m q l -> (length l <= size m)%nat.
Proof.
  intros Hc. rewrite <- size_dom. rewrite <- (length_fmap fst l).
  rewrite <- (size_list_to_set (C := gset ptr)) by (by eapply chain_NoDup).
  apply subseteq_size. intros a Ha%elem_of_list_to_set.
  destruct (chain_in_fst _ _ _ _ Hc Ha) as (b & _ & Hb). apply elem_of_dom. by eexists.
Qed.

(** The live blocks without those at [fr]. *)
Definition release (L : blocks) (fr : list ptr) : blocks := foldl (fun L p => delete p L) L fr.

Section free.
Context {A : Type} `{AllocatorSpec A}.
Context (stale_flags : ptr -> Z).
Context (custom_free_function : ptr -> option (M (pstate A) unit)).
Implicit Types (s : pstate A).

(** The invariant of the packet buffers: [L] are the live blocks of the
    allocators, [ext] the references held outside of the chains. *)
Definition pbufs_inv (s : pstate A) (L : blocks) (ext : list ptr) : Prop :=
  al_inv (palloc s) L /\ nodes_ok L (pbufs s) /\ refs_ok (pbufs s) ext.

Lemma rdp_bind {B} s p b (k : pbuf -> M (pstate A) B) :
  pbufs s !! p = Some b -> (rdp p ≫= k) s = k b s.
Proof. intros E. unfold rdp. rewrite bind_assoc, get_bind. by apply deref_bind. Qed.

Lemma wrp_bind {B} s p b (k : unit -> M (pstate A) B) :
  (wrp p b ≫= k) s = k tt (set_pbufs (insert p b) s).
Proof. done. Qed.

Lemma call_bind {B C} (m : M A B) (k : B -> M (pstate A) C) s v a :
  m (palloc s) = Done (v, a) ->
  (call m ≫= k) s = k v (PState (pbufs s) (pdata s) a (pbuf_free_ooseq_pending s)).
Proof. intros E. unfold mbind, M_bind, call. by rewrite E. Qed.

(** The block of a pbuf goes back to where it came from. *)
Lemma dealloc_ok s L p b :
  al_inv (palloc s) L -> pbuf_ok L p b ->
  exists a, al_inv a (delete p L) /\
    dealloc custom_free_function p b s =
      Done (tt, PState (delete p (pbufs s)) (pdata s) a (pbuf_free_ooseq_pending s)).
Proof.
  intros Hal (Ho & Hf & _ & _ & n & HL & _). destruct p as [r o]. simpl in Ho. subst r.
  unfold dealloc. rewrite Hf. simpl nz. cbn iota.
  unfold home in *. destruct (type b); simpl in *.
  - destruct (al_mem_free_ok _ _ _ _ Hal HL) as (a & E & Ha).
    exists a. split; [done|]. unfold kill. rewrite modify_bind. unfold call. simpl. by rewrite E.
  - destruct (al_memp_free_ok _ _ _ _ _ Hal HL) as (a & E & Ha).
    exists a. split; [done|]. unfold kill. rewrite modify_bind. unfold call. simpl. by rewrite E.
  - destruct (al_memp_free_ok _ _ _ _ _ Hal HL) as (a & E & Ha).
    exists a. split; [done|]. unfold kill. rewrite modify_bind. unfold call. simpl. by rewrite E.
  - destruct (al_memp_free_ok _ _ _ _ _ Hal HL) as (a & E & Ha).
    exists a. split; [done|]. unfold kill. rewrite modify_bind. unfold call. simpl. by rewrite E.
Qed.

Lemma u8_step c n : u8 (u8 c + n) = u8 (c + n).
Proof. unfold u8. by rewrite Zplus_mod_idemp_l. Qed.

Lemma pbuf_free_loop_ok l : forall fuel s L (p : option ptr) c,
  al_inv (palloc s) L -> chain (pbufs s) p l -> (length l <= fuel)%nat ->
  (forall a b, (a, b) ∈ l -> pbuf_ok L a b /\ 0 < ref b < 65536) ->
  exists a, pbuf_free_loop custom_free_function fuel p (u8 c) s =
      Done (u8 (c + zlen (lead l)),
            PState (drop l (pbufs s)) (pdata s) a (pbuf_free_ooseq_pending s)) /\
    al_inv a (release L (lead l)).
Proof.
  induction l as [|[x b] l IH]; intros fuel s L p c Hal Hc Hf Hok.
  - simpl in Hc. subst p. exists (palloc s). destruct s, fuel; simpl; by rewrite Z.add_0_r.
  - pose proof (chain_NoDup _ _ _ Hc) as Hnd. apply list.NoDup_cons in Hnd as [Hxl Hnd].
    destruct fuel as [|fuel]; simpl in Hf; [lia|].
    destruct Hc as (-> & Hb & Hc). cbn [pbuf_free_loop lead drop].
    rewrite (rdp_bind _ _ b) by done.
    destruct (Hok x b ltac:(by left)) as [Hpb Hrc].
    rewrite lwip_assert_bind by lia. rewrite u16_id by (unfold is_u16; lia).
    rewrite wrp_bind. replace (ref b - 1 =? 0) with (ref b =? 1) by lia.
    destruct (Z.eqb_spec (ref b) 1) as [E1|E1].
    + destruct (dealloc_ok (set_pbufs (insert x (upd_ref (ref b - 1) b)) s) L x
                  (upd_ref (ref b - 1) b) Hal Hpb) as (a & Ha & E).
      rewrite (bind_done _ _ _ _ _ E). simpl next. simpl pbufs. rewrite delete_insert_eq.
      simpl pdata. simpl pbuf_free_ooseq_pending.
      destruct (IH fuel (PState (delete x (pbufs s)) (pdata s) a (pbuf_free_ooseq_pending s))
                  (delete x L) (next b) (c + 1)) as (a' & E' & Ha').
      * done.
      * by apply chain_delete.
      * lia.
      * intros y d Hy. destruct (Hok y d ltac:(by right)) as [(H1 & H2 & H3 & H4 & n & H5 & H6) H7].
        split; [|done]. split; [done|]. split; [done|]. split; [done|]. split; [done|].
        exists n. split; [|done]. rewrite lookup_delete_ne; [done|]. intros ->. apply Hxl.
        apply list_elem_of_fmap. by exists (y, d).
      * exists a'. rewrite u8_step, E', zlen_cons. split; [|done]. do 3 f_equal. lia.
    + exists (palloc s). split; [|done]. rewrite zlen_nil, Z.add_0_r. done.
Qed.

Lemma pbuf_free_ok s L p l :
  al_inv (palloc s) L -> chain (pbufs s) (Some p) l ->
  (forall a b, (a, b) ∈ l -> pbuf_ok L a b /\ 0 < ref b < 65536) ->
  exists a, pbuf_free custom_free_function (Some p) s =
      Done (u8 (zlen (lead l)),
            PState (drop l (pbufs s)) (pdata s) a (pbuf_free_ooseq_pending s)) /\
    al_inv a (release L (lead l)).
Proof.
  intros Hal Hc Hok. unfold pbuf_free.
  destruct l as [|[x b] l]; [done|]. pose proof Hc as (E & Hb & _). simplify_eq.
  rewrite (rdp_bind _ _ b), get_bind by done. change 0 with (u8 0).
  destruct (pbuf_free_loop_ok ((x, b) :: l) (pbuf_fuel s) s L (Some x) 0) as (a & E & Ha); try done.
  - pose proof (chain_length _ _ _ Hc). unfold pbuf_fuel. lia.
  - by exists a.
Qed.
End free.

(** drop gives up one reference to the head of the chain. *)
Lemma drop_inv l : forall L m ext (p : option ptr),
  nodes_ok L m -> refs_ok m (opt_cons p ext) -> chain m p l ->
  nodes_ok (release L (lead l)) (drop l m) /\ refs_ok (drop l m) ext /\
  (ends_ok m -> ends_ok (drop l m)) /\ (tots_ok m -> tots_ok (drop l m)).
Proof.
  induction l as [|[a b] l IH]; intros L m ext p Hn Hr Hc.
  - simpl in Hc. subst p. done.
  - pose proof (chain_NoDup _ _ _ Hc) as Hnd. apply list.NoDup_cons in Hnd as [Hal Hnd].
    destruct Hc as (-> & Ha & Hc). cbn [drop lead].
    destruct (Z.eqb_spec (ref b) 1) as [E1|E1].
    + destruct (drop_delete L _ ext a b Hn Hr Ha E1) as (Hn' & Hr' & Hz).
      destruct (IH _ _ ext (next b) Hn' Hr' (chain_delete _ _ _ _ Hal Hc)) as (H1 & H2 & H3 & H4).
      split; [done|]. split; [done|]. split; intros.
      * by apply H3, ends_delete.
      * by apply H4, tots_delete.
    + destruct (drop_dec L _ ext a b Hn Hr Ha E1) as (Hn' & Hr').
      split; [done|]. split; [done|]. split; intros; [by eapply ends_update|by eapply tots_update].
Qed.

Lemma drop_lookup_ne l : forall m a, a ∉ l.*1 -> drop l m !! a = m !! a.
Proof.
  induction l as [|[x b] l IH]; intros m a Ha; [done|].
  rewrite fmap_cons in Ha. apply not_elem_of_cons in Ha as [Hx Ha]. cbn [drop]. simpl in Hx.
  destruct (_ =? _).
  - rewrite IH by done. by rewrite lookup_delete_ne.
  - by rewrite lookup_insert_ne.
Qed.

Lemma drop_insert l : forall m a b, a ∉ l.*1 -> drop l (<[a := b]> m) = <[a := b]> (drop l m).
Proof.
  induction l as [|[x c] l IH]; intros m a b Ha; [done|].
  rewrite fmap_cons in Ha. apply not_elem_of_cons in Ha as [Hx Ha]. cbn [drop]. simpl in Hx.
  destruct (_ =? _).
  - rewrite delete_insert_ne by done. by apply IH.
  - by rewrite insert_insert_ne.
Qed.

(** ** Updates that leave the links and counts alone *)

Definition skel (b : pbuf) : option ptr * Z := (next b, ref b).

Lemma nrefs_skel m m' p : skel <$> m = skel <$> m' -> nrefs m p = nrefs m' p.
Proof.
  intros E. assert (forall m, nrefs m p =
    Z.of_nat (size (filter (fun kb : ptr * (option ptr * Z) => kb.2.1 = Some p) (skel <$> m)))) as H.
  { intros m0. rewrite map_filter_fmap, map_size_fmap. done. }
  by rewrite !H, E.
Qed.

Lemma skel_lookup m m' a b :
  skel <$> m = skel <$> m' -> m' !! a = Some b ->
  exists c, m !! a = Some c /\ next c = next b /\ ref c = ref b.
Proof.
  intros E Hb. assert ((skel <$> m') !! a = Some (skel b)) as H by (by rewrite lookup_fmap, Hb).
  rewrite <- E, lookup_fmap in H. destruct (m !! a) as [c|]; [|done].
  exists c. unfold skel in H. simpl in H. by simplify_eq.
Qed.

Lemma refs_skel m m' ext : skel <$> m = skel <$> m' -> refs_ok m ext -> refs_ok m' ext.
Proof.
  intros E [Hr Hx]. split.
  - intros p b Hb. destruct (skel_lookup m m' p b E Hb) as (c & Hc & _ & <-).
    rewrite (Hr p c Hc). by rewrite (nrefs_skel m m').
  - eapply list.Forall_impl; [exact Hx|]. intros p [c Hc]. symmetry in E.
    destruct (skel_lookup m' m p c E Hc) as (b & Hb & _). by exists b.
Qed.

Lemma ends_skel m m' : skel <$> m = skel <$> m' -> ends_ok m -> ends_ok m'.
Proof.
  intros E He p b Hb. destruct (skel_lookup m m' p b E Hb) as (c & Hc & _).
  destruct (He p c Hc) as [l Hl]. clear c Hc.
  assert (forall l q, chain m q l -> exists l', chain m' q l') as H.
  { clear -E. induction l as [|[a c] l IH]; intros q Hc; [by exists []|].
    destruct Hc as (-> & Ha & Hc). symmetry in E.
    destruct (skel_lookup m' m a c E Ha) as (d & Hd & Hn & _).
    destruct (IH _ Hc) as [l' Hl']. exists ((a, d) :: l'). by rewrite <- Hn in Hl'. }
  by eapply H.
Qed.

Lemma skel_insert m p b b' :
  m !! p = Some b -> next b' = next b -> ref b' = ref b -> skel <$> <[p := b']> m = skel <$> m.
Proof.
  intros Hp Hn Hr. rewrite fmap_insert. apply insert_id. rewrite lookup_fmap, Hp. simpl.
  unfold skel. by rewrite Hn, Hr.
Qed.

(** The packet buffers as their clients see them: blocks, counts, finite chains,
    consistent lengths. *)
Definition wf_map (L : blocks) (m : gmap ptr pbuf) (ext : list ptr) : Prop :=
  nodes_ok L m /\ refs_ok m ext /\ ends_ok m /\ tots_ok m.

Lemma tots_chain m l : forall (q : option ptr), tots_ok m -> chain m q l -> tot_ok l.
Proof.
  induction l as [|[a b] l IH]; intros q Ht Hc; [done|]. destruct Hc as (-> & Ha & Hc).
  pose proof (IH _ Ht Hc) as Htl. split; [|done]. specialize (Ht a b Ha).
  destruct l as [|[x c] l]; simpl in Hc.
  - rewrite Hc in Ht. unfold lsum. simpl. lia.
  - destruct Hc as (E & Hx & _). rewrite E in Ht. destruct Ht as (qb & Hq & ->).
    simplify_eq. destruct Htl as [-> _]. done.
Qed.

Lemma lsum_nonneg L m (q : option ptr) l : nodes_ok L m -> chain m q l -> 0 <= lsum l.
Proof.
  intros Hn. revert q. induction l as [|[a b] l IH]; intros q Hc; [done|].
  destruct Hc as (-> & Ha & Hc). specialize (IH _ Hc).
  destruct (Hn a b Ha) as ((_ & _ & Hl & _) & _). unfold is_u16 in Hl.
  unfold lsum in *. simpl. lia.
Qed.

(** ** pbuf_cat *)

(** No pbuf outside of the chain links into it. *)
Definition unshared m (l : list (ptr * pbuf)) : Prop :=
  forall x c a, m !! x = Some c -> next c = Some a -> a ∈ l.*1 -> x ∈ l.*1.

(** tot_len of the pbufs of [l] changed by [d]. *)
Definition bump (d : Z) (l : list (ptr * pbuf)) m : gmap ptr pbuf :=
  foldl (fun m ab => <[ab.1 := upd_tot (u16 (tot_len ab.2 + d)) ab.2]> m) m l.

Lemma bump_lookup_ne d l : forall m a, a ∉ l.*1 -> bump d l m !! a = m !! a.
Proof.
  induction l as [|[x b] l IH]; intros m a Ha; [done|].
  rewrite fmap_cons in Ha. apply not_elem_of_cons in Ha as [Hx Ha]. simpl in Hx.
  unfold bump in *. simpl. rewrite IH by done. by rewrite lookup_insert_ne.
Qed.

Lemma bump_lookup d l : forall m a b,
  NoDup l.*1 -> (a, b) ∈ l -> bump d l m !! a = Some (upd_tot (u16 (tot_len b + d)) b).
Proof.
  induction l as [|[x c] l IH]; intros m a b Hnd Hin; [by apply elem_of_nil in Hin|].
  rewrite fmap_cons in Hnd. apply list.NoDup_cons in Hnd as [Hx Hnd].
  apply elem_of_cons in Hin as [E|Hin].
  - simplify_eq. change (bump d ((x, c) :: l) m) with
      (bump d l (<[x := upd_tot (u16 (tot_len c + d)) c]> m)).
    rewrite bump_lookup_ne by done. by rewrite lookup_insert_eq.
  - by apply IH.
Qed.

Lemma bump_skel d l : forall m,
  NoDup l.*1 -> (forall a b, (a, b) ∈ l -> m !! a = Some b) -> skel <$> bump d l m = skel <$> m.
Proof.
  induction l as [|[x c] l IH]; intros m Hnd Hin; [done|].
  rewrite fmap_cons in Hnd. apply list.NoDup_cons in Hnd as [Hx Hnd]. simpl in Hx.
  change (bump d ((x, c) :: l) m) with (bump d l (<[x := upd_tot (u16 (tot_len c + d)) c]> m)).
  rewrite IH; [|done|].
  - by apply (skel_insert m x c); [apply Hin; left|..].
  - intros a b Hab. rewrite lookup_insert_ne; [by apply Hin; right|].
    intros ->. apply Hx. apply list_elem_of_fmap. by exists (a, b).
Qed.

(** Linking [t] behind the last pbuf [z] of another chain moves one reference to
    [t] from outside into the chain. *)
Lemma link_ok L m ext z b t lt :
  nodes_ok L m -> refs_ok m (t :: ext) -> ends_ok m -> m !! z = Some b -> next b = None ->
  chain m (Some t) lt -> z ∉ lt.*1 ->
  nodes_ok L (<[z := upd_next (Some t) b]> m) /\ refs_ok (<[z := upd_next (Some t) b]> m) ext /\
  ends_ok (<[z := upd_next (Some t) b]> m).
Proof.
  intros Hn [Hr Hx] He Hz Hnx Ht Hzl. apply list.Forall_cons in Hx as [Hts Hx].
  destruct (Hn z b Hz) as (Hb & Hrc & _). split; [|split].
  - by eapply nodes_ok_update.
  - split.
    + intros x c Hxc. rewrite (nrefs_update m z b) by done.
      assert (ref c = nrefs m x + held x (t :: ext)) as ->.
      { destruct (decide (z = x)) as [->|].
        - rewrite lookup_insert_eq in Hxc. simplify_eq. by apply (Hr x b).
        - rewrite lookup_insert_ne in Hxc by done. by apply Hr. }
      rewrite held_cons. unfold links_to. rewrite Hnx. simpl.
      destruct (decide (t = x)) as [->|].
      * rewrite !bool_decide_true by done. simpl. lia.
      * rewrite !bool_decide_false by congruence. simpl. lia.
    + eapply list.Forall_impl; [exact Hx|]. intros x Hs. simpl in *.
      destruct (decide (z = x)) as [->|]; [rewrite lookup_insert_eq; by eexists|].
      by rewrite lookup_insert_ne.
  - assert (chain (<[z := upd_next (Some t) b]> m) (Some t) lt) as Ht' by (by apply chain_insert_ne).
    assert (forall l q, chain m q l -> exists l', chain (<[z := upd_next (Some t) b]> m) q l') as H.
    { clear -Ht' Hz Hnx. induction l as [|[a c] l IH]; intros q Hc; [by exists []|].
      destruct Hc as (-> & Ha & Hc). destruct (decide (z = a)) as [->|Hne].
      - exists ((a, upd_next (Some t) b) :: lt). split; [done|].
        rewrite lookup_insert_eq. done.
      - destruct (IH _ Hc) as [l' Hl']. exists ((a, c) :: l'). split; [done|].
        by rewrite lookup_insert_ne. }
    intros x c Hxc. destruct (decide (z = x)) as [->|Hne].
    + destruct (He x b Hz) as [l Hl]. by eapply H.
    + rewrite lookup_insert_ne in Hxc by done. destruct (He x c Hxc) as [l Hl]. by eapply H.
Qed.

(** A change of tot_len keeps the memory in order. *)
Lemma bump_nodes L d l : forall m,
  nodes_ok L m -> NoDup l.*1 -> (forall a b, (a, b) ∈ l -> m !! a = Some b) ->
  nodes_ok L (bump d l m).
Proof.
  induction l as [|[x c] l IH]; intros m Hn Hnd Hin; [done|].
  rewrite fmap_cons in Hnd. apply list.NoDup_cons in Hnd as [Hx Hnd]. simpl in Hx.
  change (bump d ((x, c) :: l) m) with (bump d l (<[x := upd_tot (u16 (tot_len c + d)) c]> m)).
  assert (m !! x = Some c) as Hxc by (apply Hin; left).
  apply IH; [|done|].
  - destruct (Hn x c Hxc) as ((H1 & H2 & H3 & H4 & H5) & H6 & H7).
    eapply nodes_ok_update; try done. unfold pbuf_ok. simpl. auto.
  - intros a b Hab. rewrite lookup_insert_ne; [by apply Hin; right|].
    intros ->. apply Hx. apply list_elem_of_fmap. by exists (a, b).
Qed.

Definition bump1 (d : Z) (b : pbuf) : pbuf := upd_tot (u16 (tot_len b + d)) b.

Lemma chain_suffix m a b l1 : forall (q : option ptr) l2,
  chain m q (l1 ++ (a, b) :: l2) -> chain m (Some a) ((a, b) :: l2).
Proof.
  induction l1 as [|[x c] l1 IH]; intros q l2; [by intros (-> & H)|].
  intros (_ & _ & Hc). by apply (IH _ _ Hc).
Qed.

Lemma tot_ok_in l a b : tot_ok l -> (forall x c, (x, c) ∈ l -> 0 <= len c) -> (a, b) ∈ l ->
  0 <= tot_len b <= lsum l.
Proof.
  induction l as [|[x c] l IH]; intros Ht Hl Hin; [by apply elem_of_nil in Hin|].
  destruct Ht as [Hc Ht]. pose proof (Hl x c ltac:(left)).
  assert (0 <= lsum l) as H0.
  { clear -Hl. assert (forall y d, (y, d) ∈ l -> 0 <= len d) as Hl' by (intros; eapply Hl; by right).
    clear Hl. induction l as [|[y d] l IH]; [done|]. pose proof (Hl' y d ltac:(left)).
    unfold lsum in *. simpl. specialize (IH ltac:(intros; eapply Hl'; by right)). lia. }
  change (lsum ((x, c) :: l)) with (len c + lsum l).
  apply elem_of_cons in Hin as [E|Hin].
  - simplify_eq. lia.
  - specialize (IH Ht ltac:(intros; eapply Hl; by right) Hin). lia.
Qed.

(** The map pbuf_cat leaves behind. *)
Definition cat_map m (l : list (ptr * pbuf)) (z : ptr) (zb : pbuf) (t : ptr) (tb : pbuf) : gmap ptr pbuf :=
  <[z := upd_next (Some t) (bump1 (tot_len tb) zb)]> (bump (tot_len tb) l m).

Lemma cat_map_lookup m l z zb t tb (q : option ptr) a b :
  chain m q (l ++ [(z, zb)]) -> (a, b) ∈ l ++ [(z, zb)] ->
  exists b', cat_map m l z zb t tb !! a = Some b' /\ len b' = len b /\
    tot_len b' = u16 (tot_len b + tot_len tb) /\
    next b' = match next b with Some n => Some n | None => Some t end.
Proof.
  intros Hc Hin. pose proof (chain_NoDup _ _ _ Hc) as Hnd. rewrite fmap_app in Hnd.
  apply list.NoDup_app in Hnd as (Hnd & Hd & _).
  assert (next zb = None) as Hz by (apply chain_suffix in Hc as (_ & _ & Hc); exact Hc).
  unfold cat_map. apply elem_of_app in Hin as [Hin|Hin%list_elem_of_singleton].
  - assert (z <> a) as Hne.
    { intros ->. apply (Hd a); [|by left]. apply list_elem_of_fmap. by exists (a, b). }
    rewrite lookup_insert_ne, (bump_lookup _ _ _ _ b) by done.
    eexists. split; [done|]. split; [done|]. split; [done|]. simpl.
    clear -Hc Hin Hz. apply list_elem_of_split in Hin as (l1 & l2 & ->).
    rewrite <- app_assoc in Hc. apply chain_suffix in Hc as (_ & _ & Hc).
    destruct l2 as [|[x c] l2]; destruct Hc as (-> & _); done.
  - simplify_eq. rewrite lookup_insert_eq. eexists. split; [done|]. simpl. by rewrite Hz.
Qed.

Lemma cat_map_ok L m ext h l z zb t tb lt :
  wf_map L m (t :: ext) -> chain m (Some h) (l ++ [(z, zb)]) -> unshared m (l ++ [(z, zb)]) ->
  chain m (Some t) lt -> m !! t = Some tb -> (forall a, a ∈ (l ++ [(z, zb)]).*1 -> a ∉ lt.*1) ->
  lsum (l ++ [(z, zb)]) + tot_len tb < 65536 ->
  wf_map L (cat_map m l z zb t tb) ext.
Proof.
  intros (Hn & Hr & He & Ht) Hc Hu Hct Htb Hdis Hmax.
  pose proof (chain_NoDup _ _ _ Hc) as Hnd.
  assert (forall a b, (a, b) ∈ l ++ [(z, zb)] -> m !! a = Some b) as Hin by (intros a b Hab; exact (chain_in m _ _ a b Hc Hab)).
  assert (next zb = None) as Hz by (apply chain_suffix in Hc as (_ & _ & Hz); exact Hz).
  assert (cat_map m l z zb t tb =
          <[z := upd_next (Some t) (bump1 (tot_len tb) zb)]> (bump (tot_len tb) (l ++ [(z, zb)]) m)) as E.
  { unfold cat_map, bump. rewrite foldl_app. simpl. by rewrite insert_insert_eq. }
  assert (skel <$> bump (tot_len tb) (l ++ [(z, zb)]) m = skel <$> m) as Hsk by (by apply bump_skel).
  assert (z ∈ (l ++ [(z, zb)]).*1) as Hzin.
  { rewrite fmap_app. apply elem_of_app. right. by left. }
  assert (chain (bump (tot_len tb) (l ++ [(z, zb)]) m) (Some t) lt) as Hct'.
  { eapply chain_ext; [|exact Hct]. intros a Ha. apply bump_lookup_ne. intros Hal. by apply (Hdis a). }
  rewrite E.
  destruct (link_ok L (bump (tot_len tb) (l ++ [(z, zb)]) m) ext z (bump1 (tot_len tb) zb) t lt)
    as (H1 & H2 & H3); try done.
  - by apply bump_nodes.
  - by eapply refs_skel; [symmetry|].
  - by eapply ends_skel; [symmetry|].
  - apply bump_lookup; [done|]. apply elem_of_app. right. by left.
  - by apply Hdis.
  - split; [done|]. split; [done|]. split; [done|]. rewrite <- E. clear H1 H2 H3 E.
    assert (forall a, a ∉ (l ++ [(z, zb)]).*1 -> cat_map m l z zb t tb !! a = m !! a) as Hout.
    { intros a Ha. unfold cat_map. rewrite lookup_insert_ne by (intros ->; done).
      apply bump_lookup_ne. rewrite fmap_app in Ha. by apply not_elem_of_app in Ha as [? _]. }
    pose proof (tots_chain _ _ _ Ht Hc) as Htc.
    assert (forall a b, (a, b) ∈ l ++ [(z, zb)] -> u16 (tot_len b + tot_len tb) = tot_len b + tot_len tb)
      as Hw.
    { intros a b Hab. destruct (Hn t tb Htb) as ((_ & _ & _ & Htu & _) & _). unfold is_u16 in Htu.
      destruct (tot_ok_in _ a b Htc) as [? ?]; [|done|apply u16_id; unfold is_u16; lia].
      intros x c Hxc. destruct (Hn x c (Hin _ _ Hxc)) as ((_ & _ & Hl & _) & _). apply Hl. }
    intros x c Hxc. destruct (decide (x ∈ (l ++ [(z, zb)]).*1)) as [Hx|Hx].
    + destruct (chain_in_fst _ _ _ _ Hc Hx) as (b & Hb & Hmb).
      destruct (cat_map_lookup m l z zb t tb _ x b Hc Hb) as (b' & Hb' & Hlb & Htot & Hnx).
      rewrite Hb' in Hxc. simplify_eq. rewrite Hnx, Hlb, Htot, (Hw _ _ Hb).
      specialize (Ht x b Hmb). destruct (next b) as [q|] eqn:Eq.
      * destruct Ht as (qb & Hq & Ht).
        assert ((q, qb) ∈ l ++ [(z, zb)]) as Hqin.
        { clear -Hc Hb Eq Hq. apply list_elem_of_split in Hb as (l1 & l2 & El). rewrite El in Hc |- *.
          apply chain_suffix in Hc as (_ & _ & Hc). rewrite Eq in Hc.
          destruct l2 as [|[y d] l2]; [done|]. destruct Hc as (Ey & Hd & _). simplify_eq.
          apply elem_of_app. right. right. by left. }
        destruct (cat_map_lookup m l z zb t tb _ q qb Hc Hqin) as (qb' & Hqb' & _ & Htq & _).
        exists qb'. split; [done|]. rewrite Htq, (Hw _ _ Hqin). lia.
      * exists tb. split; [|lia]. rewrite Hout; [done|].
        intros Htl. apply (Hdis t Htl). destruct lt as [|[y d] lt]; [done|].
        destruct Hct as (Ey & _). simplify_eq. by left.
    + rewrite Hout in Hxc by done. specialize (Ht x c Hxc).
      destruct (next c) as [q|] eqn:Eq; [|done]. destruct Ht as (qb & Hq & Ht).
      exists qb. rewrite Hout; [done|]. intros Hql. apply Hx. by eapply Hu.
Qed.

(** Taking the link to the rest of a chain out of [p] moves one reference out of
    the chain. *)
Lemma unlink_ok L m ext p b b' q l :
  nodes_ok L m -> refs_ok m ext -> ends_ok m -> m !! p = Some b -> next b = Some q ->
  chain m (Some q) l -> next b' = None -> ref b' = ref b -> pbuf_ok L p b' ->
  nodes_ok L (<[p := b']> m) /\ refs_ok (<[p := b']> m) (q :: ext) /\
  ends_ok (<[p := b']> m) /\ (p ∉ l.*1) /\ chain (<[p := b']> m) (Some q) l.
Proof.
  intros Hn [Hr Hx] He Hp Hq Hc Hn' Hr' Hb'. destruct (Hn p b Hp) as (Hb & Hrc & Hnx).
  assert (chain m (Some p) ((p, b) :: l)) as Hpc by (split; [done|]; split; [done|]; by rewrite Hq).
  pose proof (chain_NoDup _ _ _ Hpc) as Hnd. apply list.NoDup_cons in Hnd as [Hpl _].
  assert (chain (<[p := b']> m) (Some q) l) as Hc' by (by apply chain_insert_ne).
  assert (forall y, is_Some (m !! y) -> is_Some (<[p := b']> m !! y)) as Hs.
  { intros y Hy. destruct (decide (p = y)) as [->|]; [rewrite lookup_insert_eq; by eexists|].
    by rewrite lookup_insert_ne. }
  split; [|split; [split|split; [|done]]].
  - eapply nodes_ok_update; try done; [lia|]. by rewrite Hn'.
  - intros x c Hxc. rewrite (nrefs_update m p b) by done. rewrite held_cons.
    assert (ref c = nrefs m x + held x ext) as ->.
    { destruct (decide (p = x)) as [->|].
      - rewrite lookup_insert_eq in Hxc. simplify_eq. rewrite Hr'. by apply Hr.
      - rewrite lookup_insert_ne in Hxc by done. by apply Hr. }
    unfold links_to. rewrite Hn', Hq. rewrite (bool_decide_false (None = Some x)) by done.
    destruct (decide (q = x)) as [->|].
    + rewrite !bool_decide_true by done. simpl. lia.
    + rewrite !bool_decide_false by congruence. simpl. lia.
  - rewrite Hq in Hnx. constructor; [by apply Hs|]. eapply list.Forall_impl; [exact Hx|]. done.
  - assert (forall l q, chain m q l -> exists l', chain (<[p := b']> m) q l') as H.
    { clear -Hp Hn'. induction l as [|[a c] l IH]; intros q Hc; [by exists []|].
      destruct Hc as (-> & Ha & Hc). destruct (decide (p = a)) as [->|Hne].
      - exists [(a, b')]. split; [done|]. rewrite lookup_insert_eq. done.
      - destruct (IH _ Hc) as [l' Hl']. exists ((a, c) :: l'). split; [done|].
        by rewrite lookup_insert_ne. }
    intros x c Hxc. destruct (decide (p = x)) as [->|Hne].
    + destruct (He x b Hp) as [l' Hl']. by eapply H.
    + rewrite lookup_insert_ne in Hxc by done. destruct (He x c Hxc) as [l' Hl']. by eapply H.
Qed.

(** A pbuf that nothing links to may change its lengths. *)
Lemma tots_head m p b' :
  tots_ok m -> nrefs m p = 0 ->
  match next b' with
  | None => tot_len b' = len b'
  | Some q => exists qb, m !! q = Some qb /\ tot_len b' = len b' + tot_len qb /\ q <> p
  end -> tots_ok (<[p := b']> m).
Proof.
  intros Ht Hz Hb' x c Hxc. destruct (decide (p = x)) as [->|Hne].
  - rewrite lookup_insert_eq in Hxc. simplify_eq. destruct (next c) as [q|]; [|done].
    destruct Hb' as (qb & Hq & Htq & Hne). exists qb. by rewrite lookup_insert_ne.
  - rewrite lookup_insert_ne in Hxc by done. specialize (Ht x c Hxc).
    destruct (next c) as [q|] eqn:E; [|done]. destruct Ht as (qb & Hq & Ht). exists qb.
    rewrite lookup_insert_ne; [done|]. intros ->. by apply (nrefs_zero m q x c).
Qed.

(** *** Cutting a chain *)

Lemma chain_next_in m (q0 : option ptr) k x c k2 q :
  chain m q0 (k ++ (x, c) :: k2) -> next c = Some q ->
  exists d k3, k2 = (q, d) :: k3.
Proof.
  intros Hc Hn. apply chain_suffix in Hc as (_ & _ & Hc). rewrite Hn in Hc.
  destruct k2 as [|[y d] k2]; [done|]. destruct Hc as (E & _). simplify_eq. by eexists _, _.
Qed.

Lemma lsum_app l k : lsum (l ++ k) = lsum l + lsum k.
Proof. unfold lsum. induction l as [|[a b] l IH]; simpl; lia. Qed.

Lemma tot_ok_mid l a b k : tot_ok (l ++ (a, b) :: k) -> tot_len b = len b + lsum k /\ tot_ok k.
Proof. induction l as [|[x c] l IH]; [done|]. intros [_ H]. by apply IH. Qed.

(** The last pbuf of a chain that is cut down to [rem] bytes in it. *)
Definition cut_last (rem : Z) (b : pbuf) : pbuf := upd_next None (upd_tot rem (upd_len rem b)).

Definition cut_map (d rem : Z) (l1 : list (ptr * pbuf)) (z : ptr) (zb : pbuf) m : gmap ptr pbuf :=
  <[z := cut_last rem zb]> (bump d l1 m).

Lemma nodes_ok_blocks L L' m z b :
  nodes_ok L m -> m !! z = Some b -> (forall a, a <> z -> L' !! a = L !! a) -> pbuf_ok L' z b ->
  nodes_ok L' m.
Proof.
  intros Hn Hz HL Hb x c Hx. destruct (Hn x c Hx) as ((H1 & H2 & H3 & H4 & n & H5 & H6) & H7).
  split; [|done]. destruct (decide (x = z)) as [->|]; [by simplify_eq|].
  split; [done|]. split; [done|]. split; [done|]. split; [done|]. exists n. by rewrite HL.
Qed.

Lemma cut_tots L m ext p l1 z zb l2 new_len :
  wf_map L m ext -> chain m (Some p) (l1 ++ (z, zb) :: l2) -> unshared m (l1 ++ (z, zb) :: l2) ->
  lsum l1 <= new_len <= lsum l1 + len zb ->
  let d := u16 (new_len - lsum (l1 ++ (z, zb) :: l2)) in
  tots_ok (cut_map d (new_len - lsum l1) l1 z zb m).
Proof.
  intros (Hn & _ & _ & Ht) Hc Hu Hnew d.
  pose proof (chain_NoDup _ _ _ Hc) as Hnd. rewrite fmap_app in Hnd.
  apply list.NoDup_app in Hnd as (Hnd1 & Hd & Hnd2). rewrite fmap_cons in Hnd2, Hd.
  apply list.NoDup_cons in Hnd2 as [Hz2 Hnd2]. simpl in Hz2.
  assert (z ∉ l1.*1) as Hz1 by (intros Hz; apply (Hd z Hz); by left).
  pose proof (tots_chain _ _ _ Ht Hc) as Htc.
  (* tot_len of a pbuf before the cut *)
  assert (forall a b, (a, b) ∈ l1 -> m !! a = Some b /\ exists k1 k2, l1 = k1 ++ (a, b) :: k2 /\
    0 <= len b /\ 0 <= lsum k2 /\ u16 (tot_len b + d) = len b + lsum k2 + (new_len - lsum l1)) as Hl1.
  { intros a b Hin. pose proof Hin as Hin'. apply list_elem_of_split in Hin' as (k1 & k2 & ->).
    split. { eapply chain_in; [exact Hc|]. apply elem_of_app. by left. }
    exists k1, k2. split; [done|].
    assert (m !! a = Some b) as Ha by (eapply chain_in; [exact Hc|]; apply elem_of_app; by left).
    pose proof Hc as Hc'. rewrite <- app_assoc in Hc'. pose proof (chain_suffix _ _ _ _ _ _ Hc') as Hca.
    rewrite <- app_assoc in Htc. apply tot_ok_mid in Htc as [Htb _].
    destruct (Hn a b Ha) as ((_ & _ & Hlb & Htl & _) & _). unfold is_u16 in Hlb, Htl.
    destruct Hca as (_ & _ & Hck).
    assert (forall k q k', chain m q (k ++ k') -> 0 <= lsum k) as Hk.
    { clear -Hn. induction k as [|[y c] k IH]; intros q k' Hk; [done|].
      destruct Hk as (-> & Hy & Hk). specialize (IH _ _ Hk).
      destruct (Hn y c Hy) as ((_ & _ & Hl & _) & _). unfold is_u16 in Hl.
      change (lsum ((y, c) :: k)) with (len c + lsum k). lia. }
    pose proof (Hk _ _ _ Hck) as Hk2. split; [lia|]. split; [done|].
    rewrite Htb. subst d. rewrite !lsum_app in *.
    change (lsum ((a, b) :: k2)) with (len b + lsum k2) in *. unfold u16.
    rewrite Zplus_mod_idemp_r.
    match goal with |- ?z mod _ = _ => replace z with (len b + lsum k2 + (new_len - (lsum k1 + (len b + lsum k2)))) by (lia) end.
    apply Z.mod_small. 
    assert (len b + lsum k2 + lsum ((z, zb) :: l2) = tot_len b) as Htt.
    { rewrite Htb. rewrite ?lsum_app. lia. }
    assert (0 <= lsum ((z, zb) :: l2) - len zb) as Hl2.
    { change (lsum ((z, zb) :: l2)) with (len zb + lsum l2).
      assert (0 <= lsum l2); [|lia]. rewrite app_assoc in Hc'. apply chain_suffix in Hc as (_ & _ & Hc2).
      eapply (Hk _ _ []). by rewrite app_nil_r. }
    lia. }
  intros x c Hx. unfold cut_map in *.
  destruct (decide (z = x)) as [<-|Hzx].
  { rewrite lookup_insert_eq in Hx. by simplify_eq. }
  rewrite lookup_insert_ne in Hx by done.
  destruct (decide (x ∈ l1.*1)) as [Hxl|Hxl].
  - apply list_elem_of_fmap in Hxl as ([x' b] & E & Hin). simpl in E. subst x'.
    rewrite (bump_lookup d l1 m x b Hnd1 Hin) in Hx. simplify_eq. simpl.
    destruct (Hl1 x b Hin) as (Hb & k1 & k2 & El1 & Hb0 & Hk2 & Hdb).
    pose proof (Ht x b Hb) as Htb. destruct (next b) as [q|] eqn:Eq.
    + pose proof Hc as Hc'. rewrite El1, <- app_assoc in Hc'.
      destruct (chain_next_in _ _ _ _ _ _ _ Hc' Eq) as (e & k3 & Ek).
      destruct k2 as [|[y f] k2]; simpl in Ek; simplify_eq.
      * exists (cut_last (new_len - lsum (k1 ++ [(x, b)])) e). rewrite lookup_insert_eq.
        split; [done|]. simpl. unfold lsum in Hdb at 1. simpl in Hdb. lia.
      * assert ((q, e) ∈ k1 ++ (x, b) :: (q, e) :: k2) as Hqin.
        { apply elem_of_app. right. right. by left. }
        exists (bump1 d e). rewrite lookup_insert_ne.
        -- split; [by apply bump_lookup|]. unfold bump1. simpl.
           destruct (Hl1 q e Hqin) as (_ & k1' & k2' & El1' & _ & _ & Hdq).
           assert (k2' = k2) as ->.
           { clear -El1' Hnd1. replace (k1 ++ (x, b) :: (q, e) :: k2) with ((k1 ++ [(x, b)]) ++ (q, e) :: k2) in * by (by rewrite <- app_assoc).
             revert El1' Hnd1. generalize (k1 ++ [(x, b)]) as k. clear.
             intros k. revert k1'. induction k as [|[y f] k IH]; intros [|[y' f'] k'] E Hnd; simpl in E; simplify_eq; try done.
             - exfalso. simpl in Hnd. apply list.NoDup_cons in Hnd as [Hnd _]. apply Hnd.
               rewrite fmap_app. apply elem_of_app. right. by left.
             - exfalso. simpl in Hnd. apply list.NoDup_cons in Hnd as [Hnd _]. apply Hnd.
               rewrite fmap_app. apply elem_of_app. right. by left.
             - eapply IH; [done|]. simpl in Hnd. by apply list.NoDup_cons in Hnd as [_ Hnd]. }
           rewrite Hdb, Hdq. change (lsum ((q, e) :: k2)) with (len e + lsum k2). lia.
        -- intros ->. apply Hz1. rewrite !fmap_app. apply elem_of_app. right. right. by left.
    + exfalso. pose proof Hc as Hc'. rewrite El1, <- app_assoc in Hc'.
      apply chain_suffix in Hc' as (_ & _ & Hc'). rewrite Eq in Hc'. by destruct k2 as [|[? ?] ?]; destruct Hc' as (? & _).
  - rewrite bump_lookup_ne in Hx by done. specialize (Ht x c Hx).
    destruct (next c) as [q|] eqn:Eq; [|done]. destruct Ht as (qb & Hq & Ht).
    exists qb. split; [|done].
    assert (q ∉ (l1 ++ [(z, zb)]).*1) as Hq1.
    { intros Hq1. assert (x ∈ (l1 ++ (z, zb) :: l2).*1) as Hxin.
      { eapply Hu; [exact Hx|exact Eq|]. rewrite fmap_app in *. apply elem_of_app.
        apply elem_of_app in Hq1 as [?|Hq1]; [by left|right].
        apply list_elem_of_singleton in Hq1 as ->. by left. }
      assert (x ∈ l2.*1) as Hx2.
      { rewrite fmap_app in Hxin. apply elem_of_app in Hxin as [?|Hxin]; [done|].
        rewrite fmap_cons in Hxin. by apply elem_of_cons in Hxin as [->|?]. }
      apply list_elem_of_fmap in Hx2 as ([x' c'] & E & Hx2). simpl in E. subst x'.
      pose proof (chain_in _ _ _ _ _ Hc ltac:(apply elem_of_app; right; right; exact Hx2)) as Hxc.
      simplify_eq. apply list_elem_of_split in Hx2 as (k1 & k2 & ->).
      assert (chain m (Some p) ((l1 ++ (z, zb) :: k1) ++ (x, c) :: k2)) as Hc' by (by rewrite <- app_assoc).
      destruct (chain_next_in _ _ _ _ _ _ _ Hc' Eq) as (e & k3 & ->).
      rewrite fmap_app in Hq1. apply elem_of_app in Hq1 as [Hq1|Hq1].
      - apply (Hd q Hq1). right. rewrite fmap_app. apply elem_of_app. right. right. by left.
      - apply list_elem_of_singleton in Hq1 as ->. apply Hz2. rewrite fmap_app. apply elem_of_app.
        right. right. by left. }
    rewrite fmap_app in Hq1. apply not_elem_of_app in Hq1 as [Hq1 Hq2].
    rewrite lookup_insert_ne; [by rewrite bump_lookup_ne|]. intros ->. apply Hq2. by left.
Qed.

Lemma chain_bump d l : forall m (q : option ptr) l2,
  chain m q (l ++ l2) -> NoDup (l ++ l2).*1 ->
  chain (bump d l m) q (map (fun ab => (ab.1, bump1 d ab.2)) l ++ l2).
Proof.
  intros m q l2 Hc Hnd.
  assert (forall l0 q, chain m q (l0 ++ l2) -> (forall a b, (a, b) ∈ l0 -> (a, b) ∈ l) ->
    chain (bump d l m) q (map (fun ab => (ab.1, bump1 d ab.2)) l0 ++ l2)) as Hg.
  { clear Hc q. induction l0 as [|[a b] l0 IH]; intros q Hc Hin.
    - simpl. eapply chain_ext; [|exact Hc]. intros x Hx. apply bump_lookup_ne.
      rewrite fmap_app in Hnd. apply list.NoDup_app in Hnd as (_ & Hd & _).
      intros Hxl. by apply (Hd x).
    - destruct Hc as (-> & Ha & Hc). split; [done|]. split.
      + apply bump_lookup; [|apply Hin; by left]. rewrite fmap_app in Hnd.
        by apply list.NoDup_app in Hnd as (? & _).
      + apply IH; [exact Hc|]. intros x c Hx. apply Hin. by right. }
  by apply Hg.
Qed.

Lemma pbuf_ok_shrink L z b rem :
  pbuf_ok L z b -> 0 <= rem <= len b -> pbuf_ok L z (upd_tot rem (upd_len rem b)).
Proof.
  intros (H1 & H2 & H3 & H4 & n & H5 & H6) Hrem. unfold is_u16 in *.
  split; [done|]. split; [done|]. unfold is_u16. simpl. split; [lia|]. split; [lia|].
  exists n. split; [done|]. unfold payload_ok in *. simpl.
  destruct (type b); try done; destruct H6 as (a & ? & ? & ?); exists a; (split; [done|lia]).
Qed.

(** The map after the cut, with the rest of the chain not yet freed: the
    reference of the cut link is held outside. *)
Lemma cut_wf L m ext p l1 z zb l2 new_len :
  wf_map L m ext -> chain m (Some p) (l1 ++ (z, zb) :: l2) -> unshared m (l1 ++ (z, zb) :: l2) ->
  lsum l1 <= new_len <= lsum l1 + len zb ->
  let m' := cut_map (u16 (new_len - lsum (l1 ++ (z, zb) :: l2))) (new_len - lsum l1) l1 z zb m in
  wf_map L m' (opt_cons (next zb) ext) /\ chain m' (next zb) l2.
Proof.
  intros Hw Hc Hu Hnew m'. pose proof (cut_tots L m ext p l1 z zb l2 new_len Hw Hc Hu Hnew) as Htots.
  destruct Hw as (Hn & Hr & He & Ht). fold m' in Htots.
  pose proof (chain_NoDup _ _ _ Hc) as Hnd. rewrite fmap_app in Hnd.
  apply list.NoDup_app in Hnd as (Hnd1 & Hd & Hnd2). rewrite fmap_cons in Hnd2, Hd.
  apply list.NoDup_cons in Hnd2 as [Hz2 _]. simpl in Hz2.
  assert (z ∉ l1.*1) as Hz1 by (intros Hz; apply (Hd z Hz); by left).
  pose proof (chain_suffix _ _ _ _ _ _ Hc) as (_ & Hz & Hcz).
  assert (forall a b, (a, b) ∈ l1 -> m !! a = Some b) as Hin.
  { intros a b Hab. eapply chain_in; [exact Hc|]. apply elem_of_app. by left. }
  set (m1 := bump (u16 (new_len - lsum (l1 ++ (z, zb) :: l2))) l1 m) in *.
  assert (skel <$> m1 = skel <$> m) as Hsk by (by apply bump_skel).
  assert (m1 !! z = Some zb) as Hz' by (subst m1; by rewrite bump_lookup_ne).
  assert (chain m1 (next zb) l2) as Hc2.
  { eapply chain_ext; [|exact Hcz]. intros a Ha. apply bump_lookup_ne. intros Ha1.
    apply (Hd a Ha1). by right. }
  assert (nodes_ok L m1) as Hn1 by (by apply bump_nodes).
  assert (refs_ok m1 ext) as Hr1 by (by eapply refs_skel; [symmetry|]).
  assert (ends_ok m1) as He1 by (by eapply ends_skel; [symmetry|]).
  destruct (Hn1 z zb Hz') as (Hok & Hrz & _).
  assert (pbuf_ok L z (cut_last (new_len - lsum l1) zb)) as Hok'.
  { apply pbuf_ok_shrink; [done|lia]. }
  destruct (next zb) as [q|] eqn:Eq; simpl opt_cons.
  - destruct (unlink_ok L m1 ext z zb (cut_last (new_len - lsum l1) zb) q l2)
      as (H1 & H2 & H3 & H4 & H5); done.
  - split; [split; [|split; [|split; [|done]]]|].
    + by eapply nodes_ok_update.
    + eapply refs_skel; [symmetry; by apply (skel_insert m1 z zb)|done].
    + by apply (ends_update m1 z zb).
    + simpl in Hc2 |- *. destruct l2 as [|[? ?] ?]; [done|]. by destruct Hc2.
Qed.

(** *** New pbufs *)

Lemma nrefs_none m p : (forall x c, m !! x = Some c -> next c <> Some p) -> nrefs m p = 0.
Proof.
  intros H. unfold nrefs. rewrite map_empty_filter_2; [done|].
  intros x c Hx Hn. by apply (H x c).
Qed.

Lemma held_none p ext : p ∉ ext -> held p ext = 0.
Proof.
  induction ext as [|q ext IH]; [done|]. intros [Hne Hn]%not_elem_of_cons.
  rewrite held_cons, IH by done. by rewrite bool_decide_false by congruence.
Qed.

(** Putting a new pbuf in front of a chain whose head is held. *)
Lemma add_head L0 L m ext a b n :
  wf_map L0 m (opt_cons (next b) ext) -> m !! a = None -> L0 !! a = None ->
  L = <[a := ((home b).2, n)]> L0 -> pbuf_ok L a b -> ref b = 1 ->
  tot_len b = len b + match next b with Some q => match m !! q with Some qb => tot_len qb | None => 0 end | None => 0 end ->
  wf_map L (<[a := b]> m) (a :: ext).
Proof.
  intros (Hn & [Hr Hx] & He & Ht) Ha HL -> Hb Hr1 Htb.
  assert (forall x c, m !! x = Some c -> next c <> Some a) as Hno.
  { intros x c Hxc E. destruct (Hn x c Hxc) as (_ & _ & Hnx). rewrite E, Ha in Hnx. by destruct Hnx. }
  assert (forall y, is_Some (m !! y) -> is_Some (<[a := b]> m !! y) /\ y <> a) as Hs.
  { intros y Hy. assert (y <> a) by (intros ->; rewrite Ha in Hy; by destruct Hy).
    split; [|done]. by rewrite lookup_insert_ne. }
  assert (Forall (fun y => is_Some (m !! y)) ext) as Hx'.
  { destruct (next b); [by apply list.Forall_cons in Hx as [_ Hx]|done]. }
  assert (held a ext = 0) as Hha.
  { apply held_none. intros Hin. rewrite list.Forall_forall in Hx'. by apply (Hs a (Hx' a Hin)). }
  split; [|split; [split|split]].
  - intros x c Hxc. destruct (decide (a = x)) as [<-|Hne].
    + rewrite lookup_insert_eq in Hxc. simplify_eq. split; [done|]. split; [lia|].
      destruct (next c); [|done]. apply list.Forall_cons in Hx as [Hq _]. by apply Hs.
    + rewrite lookup_insert_ne in Hxc by done. destruct (Hn x c Hxc) as ((H1 & H2 & H3 & H4 & k & H5 & H6) & H7 & H8).
      split; [|split; [done|]].
      * split; [done|]. split; [done|]. split; [done|]. split; [done|]. exists k.
        by rewrite lookup_insert_ne.
      * destruct (next c); [|done]. by apply Hs.
  - intros x c Hxc. rewrite nrefs_insert_new, held_cons by done.
    destruct (decide (a = x)) as [<-|Hne].
    + rewrite lookup_insert_eq in Hxc. simplify_eq. rewrite (nrefs_none m a), Hha by done.
      rewrite bool_decide_true by done. unfold links_to. rewrite bool_decide_false; [done|].
      intros E. rewrite E in Hx. apply list.Forall_cons in Hx as [Hq _]. by apply (Hs a Hq).
    + rewrite lookup_insert_ne in Hxc by done. rewrite (Hr x c Hxc).
      rewrite (bool_decide_false (a = x)) by done. unfold links_to.
      destruct (next b) as [q|]; simpl opt_cons.
      * rewrite held_cons. destruct (decide (q = x)) as [->|].
        -- rewrite !bool_decide_true by done. simpl. lia.
        -- rewrite !bool_decide_false by congruence. simpl. lia.
      * rewrite bool_decide_false by done. simpl. lia.
  - constructor; [rewrite lookup_insert_eq; by eexists|].
    eapply list.Forall_impl; [exact Hx'|]. intros y Hy. by apply Hs.
  - assert (forall l q, chain m q l -> chain (<[a := b]> m) q l) as Hch.
    { intros l q Hc. eapply chain_ext; [|exact Hc]. intros y Hy.
      destruct (chain_in_fst _ _ _ _ Hc Hy) as (c & _ & Hyc).
      rewrite lookup_insert_ne; [done|]. intros ->. congruence. }
    intros x c Hxc. destruct (decide (a = x)) as [<-|Hne].
    + rewrite lookup_insert_eq in Hxc. simplify_eq.
      destruct (next c) as [q|] eqn:Eq.
      * apply list.Forall_cons in Hx as [[qb Hq] _]. destruct (He q qb Hq) as [l Hl].
        exists ((a, c) :: l). split; [done|]. rewrite lookup_insert_eq, Eq. split; [done|].
        by apply Hch.
      * exists [(a, c)]. split; [done|]. by rewrite lookup_insert_eq.
    + rewrite lookup_insert_ne in Hxc by done. destruct (He x c Hxc) as [l Hl].
      exists l. by apply Hch.
  - apply tots_head; [|by apply nrefs_none|].
    + intros x c Hxc. exact (Ht x c Hxc).
    + destruct (next b) as [q|]; [|lia]. apply list.Forall_cons in Hx as [[qb Hq] _].
      rewrite Hq in Htb. exists qb. split; [done|]. split; [done|]. apply Hs. by eexists.
Qed.

(** The blocks and pbufs without those of a list. *)
Definition without {V} (w : gmap ptr V) (l : list ptr) : gmap ptr V := foldl (fun w a => delete a w) w l.

Lemma without_lookup_ne {V} l : forall (w : gmap ptr V) a, a ∉ l -> without w l !! a = w !! a.
Proof.
  induction l as [|x l IH]; intros w a Ha; [done|]. apply not_elem_of_cons in Ha as [Hx Ha].
  unfold without in *. simpl. rewrite IH by done. by rewrite lookup_delete_ne.
Qed.

Lemma without_insert_ne {V} l : forall (w : gmap ptr V) a v,
  a ∉ l -> without (<[a := v]> w) l = <[a := v]> (without w l).
Proof.
  induction l as [|x l IH]; intros w a v Ha; [done|]. apply not_elem_of_cons in Ha as [Hx Ha].
  unfold without in *. simpl. rewrite delete_insert_ne by done. by apply IH.
Qed.

Lemma without_insert_eq {V} l : forall (w : gmap ptr V) a v,
  a ∈ l -> without (<[a := v]> w) l = without w l.
Proof.
  induction l as [|x l IH]; intros w a v Ha; [by apply elem_of_nil in Ha|].
  unfold without in *. simpl. destruct (decide (x = a)) as [->|Hne].
  - by rewrite delete_insert_eq.
  - rewrite delete_insert_ne by done. apply IH. by apply elem_of_cons in Ha as [?|?].
Qed.

Lemma without_app {V} (w : gmap ptr V) l k : without w (l ++ k) = without (without w l) k.
Proof. unfold without. apply foldl_app. Qed.

Lemma release_without L fr : release L fr = without L fr.
Proof. done. Qed.

(** A fresh chain joins the other pbufs. *)
Lemma graft l : forall L L0 m m0 ext (p : option ptr),
  wf_map L0 m0 ext -> chain m p l -> without m l.*1 = m0 -> without L l.*1 = L0 -> tot_ok l ->
  (forall a b, (a, b) ∈ l -> pbuf_ok L a b /\ ref b = 1 /\ m0 !! a = None) ->
  wf_map L m (opt_cons p ext).
Proof.
  induction l as [|[a b] l IH]; intros L L0 m m0 ext p Hw Hc Hm HL Ht Hl.
  - simpl in Hc. subst p. cbn in Hm, HL. by subst.
  - pose proof (chain_NoDup _ _ _ Hc) as Hnd. apply list.NoDup_cons in Hnd as [Hal _]. simpl in Hal.
    destruct Hc as (-> & Ha & Hc). destruct Ht as [Htb Ht].
    destruct (Hl a b ltac:(left)) as (Hok & Hr & Hm0).
    assert (wf_map (delete a L) (delete a m) (opt_cons (next b) ext)) as Hw'.
    { eapply (IH _ L0 _ m0); try done.
      - by apply chain_delete.
      - intros x c Hx. destruct (Hl x c ltac:(by right)) as ((H1 & H2 & H3 & H4 & n & H5 & H6) & H7).
        split; [|done]. split; [done|]. split; [done|]. split; [done|]. split; [done|]. exists n.
        split; [|done]. rewrite lookup_delete_ne; [done|]. intros ->. apply Hal.
        apply list_elem_of_fmap. by exists (x, c). }
    destruct Hok as (H1 & H2 & H3 & H4 & n & H5 & H6).
    rewrite <- (insert_delete_id m a b Ha). simpl opt_cons.
    apply (add_head (delete a L) L (delete a m) ext a b n); try done.
    + apply lookup_delete_eq.
    + apply lookup_delete_eq.
    + by rewrite insert_delete_id.
    + by split; [|split; [|split; [|split; [|exists n]]]].
    + rewrite Htb. f_equal. destruct l as [|[q c] l]; simpl in Hc.
      * by rewrite Hc.
      * destruct Hc as (-> & Hq & _). rewrite lookup_delete_ne.
        -- rewrite Hq. destruct Ht as [-> _]. done.
        -- intros ->. apply Hal. by left.
Qed.

(** ** The operations on the invariant *)

Section ops.
Context {A : Type} `{AllocatorSpec A}.
Context (custom_free_function : ptr -> option (M (pstate A) unit)).
Implicit Types (s : pstate A).

(** The client-visible invariant of a state. *)
Definition pinv (s : pstate A) (L : blocks) (ext : list ptr) : Prop :=
  al_inv (palloc s) L /\ wf_map L (pbufs s) ext.

Lemma pinv_chain s L ext p b :
  pinv s L ext -> pbufs s !! p = Some b -> exists l, chain (pbufs s) (Some p) l.
Proof. intros (_ & _ & _ & He & _) Hp. by eapply He. Qed.

Lemma pinv_nodes s L ext (q : option ptr) l a b :
  pinv s L ext -> chain (pbufs s) q l -> (a, b) ∈ l -> pbuf_ok L a b /\ 0 < ref b < 65536.
Proof.
  intros (_ & Hn & _) Hc Hin. pose proof (chain_in _ _ _ _ _ Hc Hin) as Hb.
  destruct (Hn a b Hb) as (H1 & H2 & _). done.
Qed.

(** pbuf_free gives up one reference. *)
Lemma pbuf_free_inv s L ext p l :
  pinv s L (p :: ext) -> chain (pbufs s) (Some p) l ->
  exists s', pbuf_free custom_free_function (Some p) s = Done (u8 (zlen (lead l)), s') /\
    pbufs s' = drop l (pbufs s) /\ pdata s' = pdata s /\
    pinv s' (release L (lead l)) ext.
Proof.
  intros Hi Hc. pose proof Hi as (Hal & Hn & Hr & He & Ht).
  destruct (pbuf_free_ok custom_free_function s L p l Hal Hc) as (a & E & Ha).
  { intros x b Hx. by eapply pinv_nodes. }
  destruct (drop_inv l L (pbufs s) ext (Some p) Hn Hr Hc) as (H1 & H2 & H3 & H4).
  eexists. split; [exact E|]. split; [done|]. split; [done|]. split; [done|].
  split; [done|]. split; [done|]. split; auto.
Qed.

Lemma pbuf_clen_ok s (p : option ptr) l :
  chain (pbufs s) p l -> pbuf_clen p s = Done (u8 (zlen l), s).
Proof.
  intros Hc. unfold pbuf_clen. rewrite get_bind. change 0 with (u8 0).
  assert (length l <= pbuf_fuel s)%nat as Hf.
  { pose proof (chain_length _ _ _ Hc). unfold pbuf_fuel. lia. }
  rewrite <- (Z.add_0_l (zlen l)). revert Hf Hc. generalize (pbuf_fuel s) as fuel, 0 as c.
  revert p. induction l as [|[a b] l IH]; intros p fuel c Hf Hc.
  - simpl in Hc. subst p. rewrite Z.add_0_r. by destruct fuel.
  - destruct fuel as [|fuel]; simpl in Hf; [lia|]. destruct Hc as (-> & Ha & Hc). simpl.
    rewrite (rdp_bind _ _ b) by done. rewrite u8_step.
    rewrite (IH _ fuel (c + 1)) by (done || lia). rewrite zlen_cons. do 3 f_equal. lia.
Qed.

(** pbuf_ref takes another reference. *)
Lemma pbuf_ref_inv s L ext p b :
  pinv s L ext -> pbufs s !! p = Some b -> ref b < 65535 ->
  pbuf_ref (Some p) s = Done (tt, set_pbufs (insert p (upd_ref (ref b + 1) b)) s) /\
  pinv (set_pbufs (insert p (upd_ref (ref b + 1) b)) s) L (p :: ext).
Proof.
  intros (Hal & Hn & [Hr Hx] & He & Ht) Hp Hb. destruct (Hn p b Hp) as (Hok & Hrc & Hnx). split.
  - unfold pbuf_ref. rewrite (rdp_bind _ _ b) by done. rewrite u16_id by (unfold is_u16; lia). done.
  - split; [done|]. split; [|split; [split|split]].
    + simpl. eapply nodes_ok_update; try done. simpl. lia.
    + intros x c Hxc. simpl in Hxc. simpl. rewrite (nrefs_update_same _ p b) by done.
      rewrite held_cons. destruct (decide (p = x)) as [->|Hne].
      * rewrite lookup_insert_eq in Hxc. simplify_eq. simpl. rewrite (Hr x b Hp).
        rewrite bool_decide_true by done. simpl. lia.
      * rewrite lookup_insert_ne in Hxc by done. rewrite (Hr x c Hxc).
        rewrite bool_decide_false by done. simpl. lia.
    + assert (forall y, is_Some (pbufs s !! y) ->
        is_Some (<[p := upd_ref (ref b + 1) b]> (pbufs s) !! y)) as Hs.
      { intros y Hy. destruct (decide (p = y)) as [->|]; [rewrite lookup_insert_eq; by eexists|].
        by rewrite lookup_insert_ne. }
      simpl. constructor; [apply Hs; by eexists|].
      eapply list.Forall_impl; [exact Hx|]. done.
    + simpl. by eapply ends_update.
    + simpl. by eapply tots_update.
Qed.

Lemma cat_walk_ok l : forall fuel s p t tb z zb,
  chain (pbufs s) (Some p) (l ++ [(z, zb)]) -> t ∉ (l ++ [(z, zb)]).*1 ->
  pbufs s !! t = Some tb -> (length l <= fuel)%nat ->
  cat_walk fuel p t s = Done (z, set_pbufs (bump (tot_len tb) l) s).
Proof.
  induction l as [|[a b] l IH]; intros fuel s p t tb z zb Hc Ht Htb Hf.
  - destruct Hc as (E & Hz & Hn). simplify_eq. destruct fuel; cbn [cat_walk];
      rewrite (rdp_bind _ _ zb) by done; rewrite Hn; by destruct s.
  - pose proof (chain_NoDup _ _ _ Hc) as Hnd. rewrite <- app_comm_cons, fmap_cons in Hnd, Ht.
    apply list.NoDup_cons in Hnd as [Ha Hnd]. apply not_elem_of_cons in Ht as [Hta Ht].
    simpl in Ha, Hta. destruct Hc as (E & Hb & Hc). simplify_eq.
    destruct fuel as [|fuel]; simpl in Hf; [lia|]. cbn [cat_walk].
    rewrite (rdp_bind _ _ b) by done.
    destruct (next b) as [n|] eqn:En; [|by destruct l as [|[? ?] l]; destruct Hc as (? & _)].
    rewrite (rdp_bind _ _ tb), wrp_bind by done.
    rewrite (IH fuel (set_pbufs (insert a (upd_tot (u16 (tot_len b + tot_len tb)) b)) s) n t tb z zb);
      [by destruct s| | | |lia].
    + simpl. by apply chain_insert_ne.
    + done.
    + simpl. by rewrite lookup_insert_ne.
Qed.

Definition cat_state s l z zb t tb : pstate A := set_pbufs (fun m => cat_map m l z zb t tb) s.

(** pbuf_cat takes over the reference to the tail. *)
Lemma pbuf_cat_inv s L ext h t l z zb tb lt :
  pinv s L (t :: ext) -> chain (pbufs s) (Some h) (l ++ [(z, zb)]) ->
  unshared (pbufs s) (l ++ [(z, zb)]) -> chain (pbufs s) (Some t) lt ->
  pbufs s !! t = Some tb -> (forall a, a ∈ (l ++ [(z, zb)]).*1 -> a ∉ lt.*1) ->
  lsum (l ++ [(z, zb)]) + tot_len tb < 65536 ->
  pbuf_cat (Some h) (Some t) s = Done (tt, cat_state s l z zb t tb) /\
  pinv (cat_state s l z zb t tb) L ext.
Proof.
  intros (Hal & Hw) Hc Hu Hct Htb Hdis Hmax.
  assert (t ∉ (l ++ [(z, zb)]).*1) as Ht.
  { intros Ht. apply (Hdis t Ht). destruct lt as [|[y d] lt]; [done|].
    destruct Hct as (E & _). simplify_eq. by left. }
  pose proof (chain_NoDup _ _ _ Hc) as Hnd. rewrite fmap_app in Hnd.
  apply list.NoDup_app in Hnd as (_ & Hnd & _).
  assert (z ∉ l.*1) as Hzl by (intros Hz; apply (Hnd z Hz); by left).
  assert ((t ∉ l.*1) /\ t <> z) as [Htl Htz].
  { rewrite fmap_app in Ht. apply not_elem_of_app in Ht as [? Ht]. split; [done|].
    intros ->. apply Ht. by left. }
  pose proof (chain_suffix _ _ _ _ _ _ Hc) as (_ & Hz & Hzn). simpl in Hzn.
  pose proof Hw as (Hn & _ & _ & Hts). pose proof (Hts z zb Hz) as Hzt. rewrite Hzn in Hzt.
  split; [|split; [done|by eapply cat_map_ok]].
  unfold pbuf_cat. rewrite get_bind.
  assert (length l <= pbuf_fuel s)%nat as Hf.
  { pose proof (chain_length _ _ _ Hc) as Hl. rewrite length_app in Hl. simpl in Hl.
    unfold pbuf_fuel. lia. }
  rewrite (bind_done _ _ _ _ _ (cat_walk_ok l _ _ _ _ _ _ _ Hc Ht Htb Hf)).
  rewrite (rdp_bind _ _ zb) by (simpl; by rewrite bump_lookup_ne).
  rewrite lwip_assert_bind by lia. rewrite Hzn, lwip_assert_bind by done.
  rewrite (rdp_bind _ _ tb) by (simpl; by rewrite bump_lookup_ne).
  unfold wrp, modify. by destruct s.
Qed.

(** pbuf_chain: both the caller and the chain hold the tail afterwards. *)
Lemma pbuf_chain_inv s L ext h t l z zb tb lt :
  pinv s L (t :: ext) -> chain (pbufs s) (Some h) (l ++ [(z, zb)]) ->
  unshared (pbufs s) (l ++ [(z, zb)]) -> chain (pbufs s) (Some t) lt ->
  pbufs s !! t = Some tb -> (forall a, a ∈ (l ++ [(z, zb)]).*1 -> a ∉ lt.*1) ->
  lsum (l ++ [(z, zb)]) + tot_len tb < 65536 -> ref tb < 65535 ->
  exists s', pbuf_chain (Some h) (Some t) s = Done (tt, s') /\ pinv s' L (t :: ext) /\
    s' = set_pbufs (insert t (upd_ref (ref tb + 1) tb)) (cat_state s l z zb t tb).
Proof.
  intros Hi Hc Hu Hct Htb Hdis Hmax Hrt.
  destruct (pbuf_cat_inv s L ext h t l z zb tb lt Hi Hc Hu Hct Htb Hdis Hmax) as (E & Hi').
  assert (pbufs (cat_state s l z zb t tb) !! t = Some tb) as Ht'.
  { assert (t ∉ (l ++ [(z, zb)]).*1) as Ht.
    { intros Ht. apply (Hdis t Ht). destruct lt as [|[y d] lt]; [done|].
      destruct Hct as (E' & _). simplify_eq. by left. }
    rewrite fmap_app in Ht. apply not_elem_of_app in Ht as [Ht1 Ht2].
    simpl. unfold cat_map. rewrite lookup_insert_ne; [by rewrite bump_lookup_ne|].
    intros ->. apply Ht2. by left. }
  destruct (pbuf_ref_inv _ L ext t tb Hi' Ht' Hrt) as (E2 & Hi2).
  eexists. split; [|split; [exact Hi2|done]]. unfold pbuf_chain.
  rewrite (bind_done _ _ _ _ _ E). exact E2.
Qed.

(** pbuf_dechain on the head of a chain. *)
Lemma pbuf_dechain_inv s L ext p b q l :
  pinv s L ext -> pbufs s !! p = Some b -> next b = Some q -> nrefs (pbufs s) p = 0 ->
  chain (pbufs s) (Some q) l ->
  exists s', pbuf_dechain custom_free_function p s =
      Done (if 0 <? u8 (zlen (lead l)) then None else Some q, s') /\
    pinv s' (release L (lead l)) ext /\
    pbufs s' = drop l (<[p := upd_tot (len b) (upd_next None b)]> (pbufs s)).
Proof.
  intros (Hal & Hn & Hr & He & Ht) Hp Hq Hz Hc.
  destruct (Hn p b Hp) as ((H1 & H2 & H3 & H4 & H5) & Hrc & _).
  destruct (unlink_ok L (pbufs s) ext p b (upd_tot (len b) (upd_next None b)) q l)
    as (Hn' & Hr' & He' & Hpl & Hc'); try done.
  pose proof (Ht p b Hp) as Htp. rewrite Hq in Htp. destruct Htp as (qb & Hqb & Htp).
  assert (q <> p) as Hqp.
  { intros ->. destruct l as [|[a c] l]; [done|]. destruct Hc as (E & _). simplify_eq.
    apply Hpl. by left. }
  set (s1 := set_pbufs (insert p (upd_tot (len b) (upd_next None b))) s).
  assert (pinv s1 L (q :: ext)) as Hi1.
  { split; [done|]. split; [done|]. split; [done|]. split; [done|]. simpl.
    apply tots_head; [done|done|]. by simpl. }
  destruct (pbuf_free_inv s1 L ext q l Hi1 Hc') as (s2 & E2 & Hm2 & _ & Hi2).
  exists s2. split; [|split; [done|by rewrite Hm2]].
  destruct (Hn q qb Hqb) as ((_ & _ & _ & Htq & _) & _).
  unfold pbuf_dechain. rewrite (rdp_bind _ _ b), Hq by done. rewrite bind_assoc.
  rewrite (rdp_bind _ _ qb) by done. rewrite bind_assoc, lwip_assert_bind by lia.
  rewrite bind_assoc, wrp_bind.
  replace (upd_tot (u16 (tot_len b - len b)) qb) with qb.
  2: { rewrite u16_id by (unfold is_u16 in *; lia). rewrite Htp.
       destruct qb; unfold upd_tot; simpl. f_equal. lia. }
  replace (set_pbufs (insert q qb) s) with s.
  2: { unfold set_pbufs. rewrite insert_id by done. by destruct s. }
  rewrite bind_assoc. rewrite (rdp_bind _ _ b) by done. rewrite bind_assoc, wrp_bind.
  fold s1. rewrite bind_assoc. rewrite (bind_done _ _ _ _ _ E2), ret_bind.
  rewrite (rdp_bind _ _ (upd_tot (len b) (upd_next None b))).
  - rewrite lwip_assert_bind by (simpl; lia). done.
  - rewrite Hm2, drop_lookup_ne by done. simpl. by rewrite lookup_insert_eq.
Qed.

(** What pbuf_header makes of a pbuf that it can move. *)
Definition moved (b : pbuf) (pay : ptr) (inc : Z) : pbuf :=
  upd_payload (Some (padd pay (- inc))) (upd_tot (tot_len b + inc) (upd_len (len b + inc) b)).

(** Does the block of [b] have room for [inc] more bytes in front? *)
Definition header_fits (p : ptr) (b : pbuf) (pay : ptr) (inc : Z) : bool :=
  match type b with
  | PBUF_RAM | PBUF_POOL => p.2 + SIZEOF_STRUCT_PBUF <=? pay.2 - inc
  | PBUF_REF | PBUF_ROM => inc <? 0
  end.

Lemma pbuf_header_eq s p b pay inc :
  pbufs s !! p = Some b -> payload b = Some pay ->
  is_u16 (len b) -> is_u16 (tot_len b) -> inc <> 0 -> -32768 <= inc <= 32767 ->
  - inc <= len b <= tot_len b -> len b + inc < 65536 -> tot_len b + inc < 65536 ->
  pbuf_header (Some p) inc s =
    if header_fits p b pay inc then Done (0, set_pbufs (insert p (moved b pay inc)) s)
    else Done (1, s).
Proof.
  intros Hp Hpay Hl Ht Hz Hr Hlen Hmax Hmaxt. unfold pbuf_header, is_u16 in *.
  rewrite (proj2 (Z.eqb_neq inc 0)) by done. rewrite (rdp_bind _ _ b) by done.
  assert (forall K : unit -> M (pstate A) Z,
    ((if inc <? 0 then lwip_assert (u16 (- inc) <=? len b) else mret tt) ≫= K) s = K tt s) as ->.
  { intros K. destruct (Z.ltb_spec inc 0); [|done].
    rewrite u16_id by (unfold is_u16; lia). by rewrite lwip_assert_bind by lia. }
  rewrite !u16_id by (unfold is_u16; lia). unfold header_fits, moved.
  destruct (type b); try rewrite (deref_bind _ _ _ _ Hpay).
  - unfold padd. simpl. change SIZEOF_STRUCT_PBUF with 24.
    destruct (Z.leb_spec (p.2 + 24) (pay.2 - inc)).
    + by rewrite (proj2 (Z.ltb_nlt _ _)) by lia.
    + by rewrite (proj2 (Z.ltb_lt _ _)) by lia.
  - destruct (inc <? 0); [|done]. by rewrite (deref_bind _ _ _ _ Hpay).
  - destruct (inc <? 0); [|done]. by rewrite (deref_bind _ _ _ _ Hpay).
  - unfold padd. simpl. change SIZEOF_STRUCT_PBUF with 24.
    destruct (Z.leb_spec (p.2 + 24) (pay.2 - inc)).
    + by rewrite (proj2 (Z.ltb_nlt _ _)) by lia.
    + by rewrite (proj2 (Z.ltb_lt _ _)) by lia.
Qed.

(** The payload of a pbuf that nothing links to may be moved. *)
Lemma moved_inv s L ext p b pay inc :
  pinv s L ext -> pbufs s !! p = Some b -> payload b = Some pay -> nrefs (pbufs s) p = 0 ->
  inc <> 0 -> header_fits p b pay inc = true -> - inc <= len b ->
  len b + inc < 65536 -> tot_len b + inc < 65536 ->
  pinv (set_pbufs (insert p (moved b pay inc)) s) L ext.
Proof.
  intros (Hal & Hn & Hr & He & Ht) Hp Hpay Hz Hinc Hfit Hlen Hmax Hmaxt.
  destruct (Hn p b Hp) as ((H1 & H2 & H3 & H4 & n & H5 & H6) & Hrc & Hnx).
  unfold is_u16 in *.
  assert (len b <= tot_len b) as Hlt.
  { specialize (Ht p b Hp). destruct (next b) as [q|]; [|lia].
    destruct Ht as (qb & Hq & ->). destruct (Hn q qb Hq) as ((_ & _ & _ & Hq4 & _) & _).
    unfold is_u16 in Hq4. lia. }
  split; [done|]. simpl. split; [|split; [|split]].
  - eapply nodes_ok_update; try done. split; [done|]. split; [done|].
    split; [unfold is_u16; simpl; lia|]. split; [unfold is_u16; simpl; lia|].
    exists n. split; [done|]. unfold payload_ok, header_fits in *. simpl.
    destruct (type b); try done; destruct H6 as (a & Ea & Ha1 & Ha2); rewrite Ea in Hpay;
      simplify_eq; exists (a + - inc); simpl in *; (split; [done|lia]).
  - eapply refs_skel; [symmetry; by apply (skel_insert _ p b)|done].
  - by apply (ends_update _ p b).
  - apply tots_head; [done|done|]. simpl. specialize (Ht p b Hp).
    destruct (next b) as [q|] eqn:Eq; [|lia]. destruct Ht as (qb & Hq & Ht).
    exists qb. split; [done|]. split; [lia|]. intros ->. by apply (nrefs_zero (pbufs s) p p b).
Qed.

Lemma chain_shift (k : list (ptr * pbuf)) : forall m (q : option ptr) a b b' l2,
  chain m q (k ++ (a, b) :: l2) -> next b' = next b -> NoDup (k ++ (a, b) :: l2).*1 ->
  chain (<[a := b']> m) q (k ++ (a, b') :: l2).
Proof.
  induction k as [|[x c] k IH]; intros m q a b b' l2 Hc Hn Hnd.
  - destruct Hc as (-> & Ha & Hc). apply list.NoDup_cons in Hnd as [Hal _].
    split; [done|]. rewrite lookup_insert_eq. split; [done|]. rewrite Hn.
    by apply chain_insert_ne.
  - rewrite <- app_comm_cons, fmap_cons in Hnd. apply list.NoDup_cons in Hnd as [Hx Hnd].
    destruct Hc as (-> & Hxc & Hc). split; [done|]. simpl in Hx.
    rewrite lookup_insert_ne.
    + split; [done|]. by eapply IH.
    + intros ->. apply Hx. rewrite fmap_app. apply elem_of_app. right. by left.
Qed.

(** The walk of pbuf_realloc to the new last pbuf. *)
Lemma realloc_skip_ok l1 : forall fuel s q z zb l2 rem grow,
  chain (pbufs s) (Some q) (l1 ++ (z, zb) :: l2) ->
  (forall a b, (a, b) ∈ l1 -> 0 <= len b) -> 0 <= rem < 65536 ->
  (* the new end is in z *)
  (forall k1 a b k2, l1 = k1 ++ (a, b) :: k2 -> lsum k1 + len b < rem) ->
  rem <= lsum l1 + len zb -> grow < 65535 -> (length l1 <= fuel)%nat ->
  realloc_skip fuel q rem grow s = Done ((z, rem - lsum l1), set_pbufs (bump (u16 grow) l1) s).
Proof.
  induction l1 as [|[a b] l1 IH]; intros fuel s q z zb l2 rem grow Hc Hpos Hrem Hlo Hhi Hg Hf.
  - destruct Hc as (E & Hz & _). simplify_eq. unfold lsum in *. simpl in Hhi.
    destruct fuel; cbn [realloc_skip]; rewrite (rdp_bind _ _ zb) by done;
      rewrite (proj2 (Z.ltb_nlt _ _)) by lia; simpl; rewrite Z.sub_0_r; by destruct s.
  - pose proof (chain_NoDup _ _ _ Hc) as Hnd. rewrite <- app_comm_cons, fmap_cons in Hnd.
    apply list.NoDup_cons in Hnd as [Ha Hnd]. simpl in Ha.
    destruct Hc as (E & Hb & Hc). simplify_eq.
    destruct fuel as [|fuel]; simpl in Hf; [lia|]. cbn [realloc_skip].
    rewrite (rdp_bind _ _ b) by done.
    pose proof (Hlo [] a b l1 eq_refl) as Hlb. unfold lsum in Hlb at 1. simpl in Hlb.
    pose proof (Hpos a b ltac:(left)) as Hb0.
    rewrite (proj2 (Z.ltb_lt _ _)) by lia. rewrite lwip_assert_bind by lia. rewrite wrp_bind.
    destruct (next b) as [n|] eqn:En; [|by destruct l1 as [|[? ?] ?]; destruct Hc as (? & _)].
    rewrite (u16_id (rem - len b)) by (unfold is_u16; lia).
    change (lsum ((a, b) :: l1)) with (len b + lsum l1) in *.
    rewrite (IH fuel _ n z zb l2 (rem - len b) grow); [| | | | | |done|lia].
    + replace (rem - len b - lsum l1) with (rem - (len b + lsum l1)) by lia. by destruct s.
    + simpl. by apply chain_insert_ne.
    + intros x c Hx. apply (Hpos x c). by right.
    + lia.
    + intros k1 x c k2 ->. specialize (Hlo ((a, b) :: k1) x c k2 eq_refl).
      change (lsum ((a, b) :: k1)) with (len b + lsum k1) in Hlo. lia.
    + lia.
Qed.

(** The blocks after the last pbuf has been shrunk. *)
Definition trimmed (L L' : blocks) (z : ptr) : Prop :=
  L' = L \/ exists n n', L !! z = Some (FromHeap, n) /\ n' <= n /\ L' = <[z := (FromHeap, n')]> L.

(** pbuf_realloc's call of mem_trim. *)
Lemma realloc_trim_ok s L z b rem :
  al_inv (palloc s) L -> pbuf_ok L z b -> 0 <= rem <= len b ->
  exists a L', trimmed L L' z /\ al_inv a L' /\ pbuf_ok L' z (upd_tot rem (upd_len rem b)) /\
    (if bool_decide (type b = PBUF_RAM) && negb (rem =? len b) then
       pay ← deref (payload b);
       r ← call (al_mem_trim z.2 (u16 (u16 (pay.2 - z.2) + rem)));
       match r with
       | Some a => mret (RHeap, a)
       | None => fail AssertFailed
       end
     else mret z) s = Done (z, PState (pbufs s) (pdata s) a (pbuf_free_ooseq_pending s)).
Proof.
  intros Hal (H1 & H2 & H3 & H4 & n & H5 & H6) Hrem. unfold is_u16 in *.
  assert (pbuf_ok L z (upd_tot rem (upd_len rem b))) as Hok.
  { split; [done|]. split; [done|]. unfold is_u16. simpl. split; [lia|]. split; [lia|].
    exists n. split; [done|]. unfold payload_ok in *. simpl.
    destruct (type b); try done; destruct H6 as (a & ? & ? & ?); exists a; (split; [done|lia]). }
  destruct (bool_decide (type b = PBUF_RAM) && negb (rem =? len b)) eqn:Ec.
  - apply andb_prop in Ec as [Et%bool_decide_eq_true Hne].
    unfold home in H1, H5. unfold payload_ok in H6. rewrite Et in H1, H5, H6. simpl in *.
    destruct H6 as (a & Ha & Ha1 & Ha2). destruct z as [r z]. simpl in *. subst r.
    pose proof (al_size _ _ _ _ _ Hal H5). change SIZEOF_STRUCT_PBUF with 24 in *.
    destruct (al_mem_trim_ok _ _ z n (u16 (u16 (a - z) + rem)) Hal H5) as (m & a' & E & Hm & Hal').
    { rewrite (u16_id (a - z)) by (unfold is_u16; lia). rewrite u16_id by (unfold is_u16; lia). lia. }
    rewrite (u16_id (a - z)), u16_id in Hm by (unfold is_u16; rewrite ?u16_id by (unfold is_u16; lia); lia).
    exists a', (<[(RHeap, z) := (FromHeap, m)]> L). split; [right; exists n, m; split; [done|]; split; [lia|done]|].
    split; [done|]. split.
    + split; [unfold home; simpl; by rewrite Et|]. split; [done|]. unfold is_u16. simpl.
      split; [lia|]. split; [lia|]. exists m. rewrite lookup_insert_eq. unfold home, payload_ok.
      simpl. rewrite Et. split; [done|]. exists a. change SIZEOF_STRUCT_PBUF with 24.
      split; [done|lia].
    + rewrite (deref_bind _ _ _ _ Ha). cbn [snd]. by rewrite (call_bind _ _ _ _ _ E).
  - exists (palloc s), L. split; [by left|]. split; [done|]. split; [done|]. by destruct s.
Qed.

(** Where a chain is cut down to [new_len] bytes. *)
Lemma cut_point l : forall new_len,
  (forall a b, (a, b) ∈ l -> 0 <= len b) -> 0 <= new_len < lsum l ->
  exists l1 z zb l2, l = l1 ++ (z, zb) :: l2 /\ lsum l1 <= new_len <= lsum l1 + len zb /\
    forall k1 a b k2, l1 = k1 ++ (a, b) :: k2 -> lsum k1 + len b < new_len.
Proof.
  induction l as [|[a b] l IH]; intros new_len Hpos Hnew; [unfold lsum in *; simpl in *; lia|].
  change (lsum ((a, b) :: l)) with (len b + lsum l) in Hnew.
  destruct (Z.leb_spec new_len (len b)).
  - exists [], a, b, l. split; [done|]. unfold lsum at 1 2. simpl. split; [lia|].
    intros [|? ?] ? ? ? E; done.
  - destruct (IH (new_len - len b)) as (l1 & z & zb & l2 & -> & Hb & Hk); [|lia|].
    { intros x c Hx. apply (Hpos x c). by right. }
    exists ((a, b) :: l1), z, zb, l2. split; [done|].
    change (lsum ((a, b) :: l1)) with (len b + lsum l1). split; [lia|].
    intros [|[y d] k1] x c k2 E; simpl in E; simplify_eq.
    + unfold lsum. simpl. lia.
    + change (lsum ((y, d) :: k1)) with (len d + lsum k1). specialize (Hk k1 x c k2 eq_refl). lia.
Qed.

(** The end of pbuf_realloc: shrink the last pbuf and free what follows. *)
Lemma realloc_tail_ok s L z zb rem l2 :
  al_inv (palloc s) L -> chain (pbufs s) (next zb) l2 -> z ∉ l2.*1 -> pbufs s !! z = Some zb ->
  (forall a b, (a, b) ∈ l2 -> pbuf_ok L a b /\ 0 < ref b < 65536) ->
  exists al, al_inv al (release L (lead l2)) /\
    (b ← rdp z;
     let b := upd_tot rem (upd_len rem b) in
     wrp z b;;
     (match next b with
      | Some n => pbuf_free custom_free_function (Some n);; mret tt
      | None => mret tt
      end);;
     b ← rdp z;
     wrp z (upd_next None b)) s =
    Done (tt, PState (drop l2 (<[z := cut_last rem zb]> (pbufs s))) (pdata s) al
                (pbuf_free_ooseq_pending s)).
Proof.
  intros Hal Hc Hz2 Hz Hok. rewrite (rdp_bind _ _ zb) by done. cbv zeta. rewrite wrp_bind.
  set (s1 := set_pbufs (insert z (upd_tot rem (upd_len rem zb))) s).
  change (next (upd_tot rem (upd_len rem zb))) with (next zb).
  destruct (next zb) as [n|] eqn:En.
  - destruct (pbuf_free_ok custom_free_function s1 L n l2) as (al & E & Hal'); [done| |done|].
    { simpl. by apply chain_insert_ne. }
    exists al. split; [done|]. rewrite bind_assoc, (bind_done _ _ _ _ _ E), ret_bind.
    rewrite (rdp_bind _ _ (upd_tot rem (upd_len rem zb))).
    + unfold wrp, modify, set_pbufs. simpl. rewrite <- drop_insert by done.
      by rewrite insert_insert_eq.
    + simpl. rewrite drop_lookup_ne by done. by rewrite lookup_insert_eq.
  - assert (l2 = []) as -> by (by destruct l2 as [|[? ?] ?]; [|destruct Hc as (? & _)]).
    exists (palloc s). split; [done|]. rewrite ret_bind.
    rewrite (rdp_bind _ _ (upd_tot rem (upd_len rem zb))).
    + unfold wrp, modify, set_pbufs. simpl. by rewrite insert_insert_eq.
    + simpl. by rewrite lookup_insert_eq.
Qed.

(** pbuf_realloc cuts a chain that nothing else links into. *)
Lemma pbuf_realloc_inv s L ext p l new_len :
  pinv s L ext -> chain (pbufs s) (Some p) l -> unshared (pbufs s) l -> 0 <= new_len < lsum l ->
  exists l1 z zb l2 s' L', l = l1 ++ (z, zb) :: l2 /\
    lsum l1 <= new_len <= lsum l1 + len zb /\ trimmed L L' z /\
    pbuf_realloc custom_free_function p new_len s = Done (tt, s') /\
    pinv s' (release L' (lead l2)) ext /\ pdata s' = pdata s /\
    pbufs s' = drop l2 (cut_map (u16 (new_len - lsum l)) (new_len - lsum l1) l1 z zb (pbufs s)).
Proof.
  intros Hi Hc Hu Hnew. pose proof Hi as (Hal & Hw). pose proof Hw as (Hn & Hr & He & Ht).
  assert (forall a b, (a, b) ∈ l -> 0 <= len b) as Hpos.
  { intros a b Hab. destruct (pinv_nodes _ _ _ _ _ _ _ Hi Hc Hab) as ((_ & _ & Hl & _) & _). apply Hl. }
  destruct (cut_point l new_len Hpos Hnew) as (l1 & z & zb & l2 & -> & Hcut & Hk).
  pose proof (chain_NoDup _ _ _ Hc) as Hnd.
  pose proof (chain_in _ _ _ z zb Hc ltac:(apply elem_of_app; right; by left)) as Hz.
  destruct (Hn z zb Hz) as (Hzok & Hzr & _).
  assert (exists b, pbufs s !! p = Some b /\ tot_len b = lsum (l1 ++ (z, zb) :: l2)) as (b & Hb & Htb).
  { pose proof (tots_chain _ _ _ Ht Hc) as Htc.
    destruct l1 as [|[a b] l1]; simpl in Hc, Htc; destruct Hc as (E & Ha & _), Htc as [Htb _];
      simplify_eq; by eexists. }
  destruct (Hn p b Hb) as ((_ & _ & _ & Htu & _) & _). unfold is_u16 in Htu.
  set (d := u16 (new_len - lsum (l1 ++ (z, zb) :: l2))). set (rem := new_len - lsum l1).
  assert ((z ∉ l1.*1) /\ (z ∉ l2.*1)) as (Hz1 & Hz2).
  { rewrite fmap_app in Hnd. apply list.NoDup_app in Hnd as (? & Hd & Hnd2).
    rewrite fmap_cons in Hnd2, Hd. apply list.NoDup_cons in Hnd2 as [? _].
    split; [|done]. intros Hzz. apply (Hd z Hzz). by left. }
  destruct (realloc_trim_ok (set_pbufs (bump d l1) s) L z zb rem Hal Hzok ltac:(subst rem; lia))
    as (al & L' & HL' & Hal' & Hok' & Etrim).
  destruct (cut_wf L (pbufs s) ext p l1 z zb l2 new_len Hw Hc Hu Hcut) as ((Hn3 & Hw3) & Hc3).
  fold d rem in Hn3, Hw3, Hc3. set (m3 := cut_map d rem l1 z zb (pbufs s)) in *.
  assert (nodes_ok L' m3) as Hn3'.
  { eapply (nodes_ok_blocks L); [exact Hn3|apply lookup_insert_eq| |exact Hok'].
    intros a Ha. destruct HL' as [->|(? & ? & _ & _ & ->)]; [done|]. by rewrite lookup_insert_ne. }
  assert (forall a b, (a, b) ∈ l2 -> pbuf_ok L' a b /\ 0 < ref b < 65536) as Hl2.
  { intros a c Hac. destruct (Hn3' a c) as (? & ? & _); [|done]. by eapply chain_in. }
  assert (pbufs (set_pbufs (bump d l1) s) !! z = Some zb) as Hz3.
  { simpl. by rewrite bump_lookup_ne. }
  assert (chain (bump d l1 (pbufs s)) (next zb) l2) as Hc4.
  { eapply chain_ext; [|exact Hc3]. intros a Ha. subst m3. unfold cut_map.
    rewrite lookup_insert_ne; [done|]. by intros ->. }
  destruct (realloc_tail_ok (PState (bump d l1 (pbufs s)) (pdata s) al (pbuf_free_ooseq_pending s))
              L' z zb rem l2 Hal' Hc4 Hz2 Hz3 Hl2) as (al2 & Hal2 & Etail).
  simpl pbufs in Etail. simpl pdata in Etail. simpl pbuf_free_ooseq_pending in Etail.
  exists l1, z, zb, l2, (PState (drop l2 m3) (pdata s) al2 (pbuf_free_ooseq_pending s)), L'.
  split; [done|]. split; [done|]. split; [done|].
  split; [|split; [|done]]; cycle 1.
  - destruct (drop_inv l2 L' m3 ext (next zb) Hn3') as (G1 & G2 & G3 & G4); [apply Hw3|done|].
    destruct Hw3 as (_ & He3 & Ht3).
    split; [exact Hal2|]. split; [exact G1|]. split; [done|]. split; [by apply G3|by apply G4].
  - unfold pbuf_realloc. rewrite (rdp_bind _ _ b) by done.
    rewrite (proj2 (Z.leb_nle _ _)) by lia. rewrite get_bind.
    erewrite bind_done.
    2: { rewrite Htb. apply (realloc_skip_ok l1 _ _ _ z zb l2); [done| |lia|done|lia|lia|].
         - intros x c Hx. apply (Hpos x c). apply elem_of_app. by left.
         - pose proof (chain_length _ _ _ Hc) as Hlen. rewrite length_app in Hlen.
           unfold pbuf_fuel. lia. }
    fold rem d. cbv beta iota. rewrite (rdp_bind _ _ zb) by done.
    rewrite (bind_done _ _ _ _ _ Etrim). exact Etail.
Qed.

(** *** pbuf_alloc *)

Lemma lead_all l : forall m,
  (forall a b, (a, b) ∈ l -> ref b = 1) -> lead l = l.*1 /\ drop l m = without m l.*1.
Proof.
  induction l as [|[a b] l IH]; intros m H1; [done|]. cbn [lead drop].
  rewrite (H1 a b) by left. simpl Z.eqb. cbn iota.
  destruct (IH (delete a m)) as [-> ->]; [|done]. intros x c Hx. apply (H1 x c). by right.
Qed.

(** tot_len of a chain that is still [rem] bytes short. *)
Fixpoint tot_from (rem : Z) (l : list (ptr * pbuf)) : Prop :=
  match l with
  | [] => True
  | (a, b) :: l => tot_len b = len b + lsum l + rem /\ tot_from rem l
  end.

Lemma tot_from_0 l : tot_from 0 l -> tot_ok l.
Proof. induction l as [|[a b] l IH]; [done|]. intros [H1 H2]. split; [lia|auto]. Qed.

(** A chain of new pool pbufs from [p], the states and blocks before it being
    [m0] and [L0]. *)
Definition growing (s : pstate A) (L L0 : blocks) (m0 : gmap ptr pbuf) (p : ptr)
    (l : list (ptr * pbuf)) (rem : Z) : Prop :=
  al_inv (palloc s) L /\ chain (pbufs s) (Some p) l /\
  without (pbufs s) l.*1 = m0 /\ without L l.*1 = L0 /\ tot_from rem l /\
  (forall a b, (a, b) ∈ l -> pbuf_ok L a b /\ ref b = 1 /\ type b = PBUF_POOL /\ m0 !! a = None /\
     L !! a = Some (FromPool MEMP_PBUF_POOL, memp_size MEMP_PBUF_POOL)).

(** Giving up on a growing chain restores the state before it. *)
Lemma growing_free s L L0 m0 p l rem :
  growing s L L0 m0 p l rem ->
  exists c s', pbuf_free custom_free_function (Some p) s = Done (c, s') /\
    pbufs s' = m0 /\ pdata s' = pdata s /\ al_inv (palloc s') L0.
Proof.
  intros (Hal & Hc & Hm & HL & _ & Hl).
  destruct (pbuf_free_ok custom_free_function s L p l Hal Hc) as (a & E & Ha).
  { intros x b Hx. destruct (Hl x b Hx) as (H1 & H2 & _). split; [done|lia]. }
  destruct (lead_all l (pbufs s)) as [Hlead Hdrop].
  { intros x b Hx. by destruct (Hl x b Hx) as (_ & ? & _). }
  rewrite Hlead in *. rewrite Hdrop, Hm in E. rewrite release_without, HL in Ha.
  eexists _, _. split; [exact E|]. done.
Qed.

Lemma without_none {V} (w : gmap ptr V) (l : list ptr) a : w !! a = None -> without w l !! a = None.
Proof.
  revert w. induction l as [|x l IH]; intros w Hw; [done|]. unfold without in *. simpl.
  apply IH. rewrite lookup_delete_None. by right.
Qed.

Lemma chain_snoc l : forall m (q0 : option ptr) r rb n qb,
  chain m q0 (l ++ [(r, rb)]) -> n ∉ (l ++ [(r, rb)]).*1 -> r ∉ l.*1 -> next qb = None ->
  chain (<[n := qb]> (<[r := upd_next (Some n) rb]> m)) q0
    (l ++ [(r, upd_next (Some n) rb); (n, qb)]).
Proof.
  induction l as [|[a b] l IH]; intros m q0 r rb n qb Hc Hn Hr Hq.
  - destruct Hc as (-> & Hr' & _). apply not_elem_of_cons in Hn as [Hn _]. simpl in Hn.
    split; [done|]. rewrite lookup_insert_ne, lookup_insert_eq by done. split; [done|].
    split; [done|]. rewrite lookup_insert_eq. done.
  - rewrite <- app_comm_cons in Hc, Hn. rewrite fmap_cons in Hn, Hr.
    apply not_elem_of_cons in Hn as [Hna Hn]. apply not_elem_of_cons in Hr as [Hra Hr].
    simpl in Hna, Hra. destruct Hc as (-> & Ha & Hc). split; [done|].
    rewrite !lookup_insert_ne by done. split; [done|]. by apply IH.
Qed.

(** Appending a fresh pool element. *)
Lemma growing_snoc s L L0 m0 p l r rb rem q :
  growing s L L0 m0 p (l ++ [(r, rb)]) rem -> nodes_ok L0 m0 ->
  L !! (RPool, q) = None -> 0 < rem < 65535 ->
  forall al, al_inv al (<[(RPool, q) := (FromPool MEMP_PBUF_POOL, memp_size MEMP_PBUF_POOL)]> L) ->
  let n := (RPool, q) in
  let qlen := Z.min rem PBUF_POOL_BUFSIZE_ALIGNED in
  let qb := Pbuf None (Some (padd n SIZEOF_STRUCT_PBUF)) rem qlen PBUF_POOL 0 1 in
  growing (PState (<[n := qb]> (<[r := upd_next (Some n) rb]> (pbufs s))) (pdata s) al
             (pbuf_free_ooseq_pending s))
    (<[n := (FromPool MEMP_PBUF_POOL, memp_size MEMP_PBUF_POOL)]> L) L0 m0 p
    ((l ++ [(r, upd_next (Some n) rb)]) ++ [(n, qb)]) (rem - qlen).
Proof.
  intros (Hal & Hc & Hm & HL & Ht & Hl) Hn0 Hq Hrem al Hal' n qlen qb.
  pose proof (chain_NoDup _ _ _ Hc) as Hnd.
  assert (n ∉ (l ++ [(r, rb)]).*1) as Hnl.
  { intros Hin. destruct (chain_in_fst _ _ _ _ Hc Hin) as (b & Hb & _).
    destruct (Hl _ _ Hb) as (_ & _ & _ & _ & HLn). subst n. congruence. }
  assert (m0 !! n = None) as Hm0.
  { destruct (m0 !! n) as [b|] eqn:Eb; [|done].
    destruct (Hn0 n b Eb) as ((_ & _ & _ & _ & k & Hk & _) & _).
    rewrite <- HL, (without_none L) in Hk by done. done. }
  pose proof Hnl as Hnl'. rewrite fmap_app in Hnl'. apply not_elem_of_app in Hnl' as [Hnl1 Hnr].
  apply not_elem_of_cons in Hnr as [Hnr _]. simpl in Hnr.
  assert (r ∉ l.*1) as Hrl.
  { rewrite fmap_app in Hnd. apply list.NoDup_app in Hnd as (_ & Hd & _).
    intros Hr. apply (Hd r Hr). by left. }
  assert (((l ++ [(r, upd_next (Some n) rb)]) ++ [(n, qb)]).*1 = (l ++ [(r, rb)]).*1 ++ [n]) as Efst.
  { by rewrite !fmap_app. }
  assert (forall V (w : gmap ptr V) v, w !! n = None ->
    without (<[n := v]> w) ((l ++ [(r, rb)]).*1 ++ [n]) = without w (l ++ [(r, rb)]).*1) as Hwo.
  { intros V w v Hw. rewrite without_app, without_insert_ne by done. unfold without at 1. simpl.
    rewrite delete_insert_eq. apply delete_id. by apply without_none. }
  assert (pbufs s !! n = None) as Hsn.
  { rewrite <- (without_lookup_ne ((l ++ [(r, rb)]).*1)) by done. by rewrite Hm. }
  split; [done|]. simpl pbufs. split; [|split; [|split; [|split]]].
  - rewrite <- app_assoc. by apply chain_snoc.
  - rewrite Efst, Hwo; [|rewrite lookup_insert_ne; [done|by intros ->]].
    rewrite without_insert_eq; [done|]. rewrite fmap_app. apply elem_of_app. right. by left.
  - by rewrite Efst, Hwo.
  - clear -Ht. rewrite <- app_assoc. cbn [app].
    assert (forall rb', len rb' = len rb -> lsum [(r, rb'); (n, qb)] = lsum [(r, rb)] + qlen) as Hs.
    { intros rb' E. unfold lsum. simpl. lia. }
    assert (len qb = qlen /\ tot_len qb = rem) as [Hq1 Hq2] by done.
    induction l as [|[a b] l IH]; simpl in Ht |- *.
    + unfold lsum in *. simpl in *. split; [lia|]. split; [lia|done].
    + destruct Ht as [Hb Ht]. split; [|by apply IH]. rewrite Hb, !lsum_app, Hs by done. lia.
  - intros x b Hx. rewrite <- app_assoc in Hx. apply elem_of_app in Hx as [Hx|Hx].
    + destruct (Hl x b) as ((H1 & H2 & H3 & H4 & k & H5 & H6) & H7 & H8 & H9 & H10).
      { apply elem_of_app. by left. }
      assert (n <> x). { intros ->. apply Hnl1. apply list_elem_of_fmap. by exists (x, b). }
      split; [|split; [done|split; [done|split; [done|by rewrite lookup_insert_ne]]]].
      split; [done|]. split; [done|]. split; [done|]. split; [done|]. exists k.
      by rewrite lookup_insert_ne.
    + cbn [app] in Hx. apply elem_of_cons in Hx as [E|Hx].
      * simplify_eq. destruct (Hl r rb) as ((H1 & H2 & H3 & H4 & k & H5 & H6) & H7 & H8 & H9 & H10).
        { apply elem_of_app. right. by left. }
        split; [|split; [done|split; [done|split; [done|by rewrite lookup_insert_ne]]]].
        split; [done|]. split; [done|]. split; [done|]. split; [done|]. exists k.
        by rewrite lookup_insert_ne.
      * apply list_elem_of_singleton in Hx. simplify_eq. rewrite lookup_insert_eq.
        change PBUF_POOL_BUFSIZE_ALIGNED with 592 in *.
        split; [|done]. split; [done|]. split; [done|]. unfold is_u16. simpl. split; [lia|].
        split; [lia|]. exists (memp_size MEMP_PBUF_POOL). rewrite lookup_insert_eq.
        split; [done|]. exists (q + SIZEOF_STRUCT_PBUF). split; [done|]. simpl.
        subst qlen. change PBUF_POOL_BUFSIZE_ALIGNED with 592. change SIZEOF_STRUCT_PBUF with 24. lia.
Qed.

(** The payload pointer and length of the first pbuf, which stay. *)
Definition first_is (l : list (ptr * pbuf)) (p : ptr) (pay : option ptr) (n : Z) : Prop :=
  match l with
  | (a, b) :: _ => a = p /\ payload b = pay /\ len b = n
  | [] => False
  end.

Lemma pool_tail_ok fuel : forall s L L0 m0 p l r rb rem pay plen,
  growing s L L0 m0 p (l ++ [(r, rb)]) rem -> nodes_ok L0 m0 -> 0 <= rem < 65535 ->
  first_is (l ++ [(r, rb)]) p pay plen -> rem < Z.of_nat fuel ->
  exists o s', pool_tail custom_free_function fuel p r rem s = Done (o, s') /\
    pdata s' = pdata s /\
    match o with
    | None => pbufs s' = m0 /\ al_inv (palloc s') L0
    | Some p' => p' = p /\ exists l' L', growing s' L' L0 m0 p l' 0 /\
        lsum l' = lsum (l ++ [(r, rb)]) + rem /\ first_is l' p pay plen
    end.
Proof.
  induction fuel as [|fuel IH]; intros s L L0 m0 p l r rb rem pay plen Hg Hn0 Hrem Hfst Hf; [lia|].
  cbn [pool_tail]. destruct (Z.ltb_spec 0 rem) as [Hpos|Hz].
  2: { assert (rem = 0) as -> by lia. exists (Some p), s. split; [done|]. split; [done|].
       split; [done|]. exists (l ++ [(r, rb)]), L. split; [done|]. split; [lia|done]. }
  pose proof Hg as (Hal & Hc & Hm & HL & Ht & Hl).
  destruct (al_memp_malloc_ok _ _ MEMP_PBUF_POOL Hal) as (o & al & E & Ho).
  rewrite (call_bind _ _ _ _ _ E). destruct o as [q|].
  - destruct Ho as (Hq & Hmod & Hal').
    pose proof (growing_snoc s L L0 m0 p l r rb rem q Hg Hn0 Hq ltac:(lia) al Hal') as Hg'.
    cbv zeta in Hg'. set (n := (RPool, q)) in *.
    set (qlen := Z.min rem PBUF_POOL_BUFSIZE_ALIGNED) in *.
    set (qb := Pbuf None (Some (padd n SIZEOF_STRUCT_PBUF)) rem qlen PBUF_POOL 0 1) in *.
    assert (pbufs s !! r = Some rb) as Hr.
    { eapply chain_in; [exact Hc|]. apply elem_of_app. right. by left. }
    cbv zeta. erewrite rdp_bind by exact Hr. rewrite wrp_bind, lwip_assert_bind by lia.
    rewrite lwip_assert_bind.
    2: { apply Z.eqb_eq. subst n. simpl. change SIZEOF_STRUCT_PBUF with (6 * 4).
         rewrite Z.mod_add by lia. done. }
    (* the assertion on the head *)
    assert (exists pb pp, <[r := upd_next (Some n) rb]> (pbufs s) !! p = Some pb /\
      payload pb = Some pp /\ pp.2 + len pb <= p.2 + SIZEOF_STRUCT_PBUF + PBUF_POOL_BUFSIZE_ALIGNED)
      as (pb & pp & Hpb & Hpp & Hle).
    { assert (exists hb, (p, hb) ∈ l ++ [(r, rb)]) as [hb Hhb].
      { destruct l as [|[a b] l]; simpl in Hfst; destruct Hfst as (-> & _); eexists; by left. }
      destruct (Hl p hb Hhb) as ((_ & _ & _ & _ & k & Hk & Hpay) & _ & Hty & _ & HLp).
      unfold home in Hk. rewrite Hty, HLp in Hk. unfold payload_ok in Hpay. rewrite Hty in Hpay.
      destruct Hpay as (a & Ha & _ & Hend). simplify_eq.
      assert (pbufs s !! p = Some hb) as Hps by (eapply chain_in; [exact Hc|exact Hhb]).
      assert (p.2 + memp_size MEMP_PBUF_POOL = p.2 + SIZEOF_STRUCT_PBUF + PBUF_POOL_BUFSIZE_ALIGNED)
        as Hms by (unfold memp_size; lia).
      destruct (decide (r = p)) as [->|Hne].
      - rewrite Hps in Hr. simplify_eq. exists (upd_next (Some n) rb), (p.1, a).
        rewrite lookup_insert_eq. split; [done|]. split; [done|]. simpl. lia.
      - exists hb, (p.1, a). rewrite lookup_insert_ne by done. split; [done|]. split; [done|]. simpl. lia. }
    erewrite rdp_bind by exact Hpb. rewrite (deref_bind _ _ _ _ Hpp).
    rewrite lwip_assert_bind by lia. rewrite wrp_bind, (u16_id rem) by (unfold is_u16; lia).
    fold qlen. fold qb.
    assert (0 < qlen <= rem) as Hql by (subst qlen; change PBUF_POOL_BUFSIZE_ALIGNED with 592; lia).
    assert (first_is ((l ++ [(r, upd_next (Some n) rb)]) ++ [(n, qb)]) p pay plen) as Hfst'.
    { by destruct l as [|[a b] l]. }
    destruct (IH _ _ L0 m0 p _ n qb (rem - qlen) pay plen Hg' Hn0 ltac:(lia) Hfst' ltac:(lia))
      as (o & s' & E' & Hd & Ho').
    exists o, s'. split; [exact E'|]. split; [done|]. destruct o as [p'|]; [|done].
    destruct Ho' as (-> & l' & L' & Hgl & Hsum & Hfl). split; [done|]. exists l', L'.
    split; [done|]. split; [|done]. rewrite Hsum, !lsum_app. unfold lsum. simpl. lia.
  - unfold set_pending. rewrite modify_bind.
    assert (growing (PState (pbufs s) (pdata s) al true) L L0 m0 p (l ++ [(r, rb)]) rem) as Hg'.
    { split; [exact Ho|]. by split. }
    destruct (growing_free _ _ _ _ _ _ _ Hg') as (c & s' & E' & Hm' & Hd' & Ha').
    exists None, s'. simpl palloc. simpl pbufs. simpl pdata.
    rewrite (bind_done _ _ _ _ _ E'). split; [done|]. split; [done|]. done.
Qed.

(** What pbuf_alloc promises: NULL and nothing changed, or a chain of fresh
    pbufs of type [t] for [length] bytes, held once, with [room] bytes in front
    of the first payload. *)
Definition alloc_post (s : pstate A) (L : blocks) (ext : list ptr) (t : pbuf_type)
    (length room : Z) (o : option ptr) (s' : pstate A) : Prop :=
  pdata s' = pdata s /\
  match o with
  | None => pbufs s' = pbufs s /\ pinv s' L ext
  | Some p =>
      exists l L', chain (pbufs s') (Some p) l /\ lsum l = length /\
        without (pbufs s') l.*1 = pbufs s /\ without L' l.*1 = L /\ pinv s' L' (p :: ext) /\
        (forall a b, (a, b) ∈ l -> pbufs s !! a = None /\ type b = t /\ ref b = 1) /\
        match t with
        | PBUF_RAM | PBUF_POOL =>
            exists b a, pbufs s' !! p = Some b /\ payload b = Some (p.1, a) /\
              p.2 + SIZEOF_STRUCT_PBUF + room <= a
        | _ => True
        end
  end.

Lemma finish_alloc_eq s p b :
  pbufs s !! p = Some b ->
  finish_alloc p s = Done (Some p, set_pbufs (insert p (upd_flags 0 (upd_ref 1 b))) s).
Proof. intros E. unfold finish_alloc. by rewrite (rdp_bind _ _ b). Qed.

(** A block fresh to the allocator holds no pbuf. *)
Lemma fresh_block s L ext p : pinv s L ext -> L !! p = None -> pbufs s !! p = None.
Proof.
  intros (_ & Hn & _) HL. destruct (pbufs s !! p) as [b|] eqn:E; [|done].
  destruct (Hn p b E) as ((_ & _ & _ & _ & k & Hk & _) & _). congruence.
Qed.

(** One new pbuf in its own block. *)
Lemma alloc_one s L ext p b al n :
  pinv s L ext -> L !! p = None -> al_inv al (<[p := ((home b).2, n)]> L) ->
  pbuf_ok (<[p := ((home b).2, n)]> L) p b -> next b = None -> ref b = 1 -> tot_len b = len b ->
  pinv (PState (<[p := b]> (pbufs s)) (pdata s) al (pbuf_free_ooseq_pending s))
    (<[p := ((home b).2, n)]> L) (p :: ext).
Proof.
  intros Hi HL Hal Hok Hn Hr Ht. pose proof (fresh_block _ _ _ _ Hi HL) as Hp.
  destruct Hi as (_ & Hw). split; [done|]. simpl.
  apply (add_head L _ (pbufs s) ext p b n); try done; rewrite Hn; [done|lia].
Qed.

Lemma without_one {V} (w : gmap ptr V) p v : w !! p = None -> without (<[p := v]> w) [p] = w.
Proof. intros E. unfold without. simpl. by rewrite delete_insert_id. Qed.

Lemma align_base (a off : Z) : a mod 4 = 0 -> LWIP_MEM_ALIGN_SIZE (a + off) = a + LWIP_MEM_ALIGN_SIZE off.
Proof. intros. rewrite !align_arith. zdm. Qed.

Lemma layer_offset_range layer : 0 <= layer_offset layer <= 54.
Proof. destruct layer; vm_compute; split; discriminate. Qed.

Context (stale_flags : ptr -> Z).

(** No pool element starts out with the flag of a custom pbuf. *)
Definition clean_flags : Prop := forall p, Z.land (stale_flags p) PBUF_FLAG_IS_CUSTOM = 0.

(** The largest length of a PBUF_RAM pbuf whose block size fits in mem_size_t. *)
Definition max_ram_length : Z := 65452.

Lemma pbuf_alloc_ram_ok s L ext layer length :
  pinv s L ext -> 0 <= length <= max_ram_length ->
  exists o s', pbuf_alloc stale_flags custom_free_function layer length PBUF_RAM s = Done (o, s') /\
    alloc_post s L ext PBUF_RAM length (layer_offset layer) o s'.
Proof.
  intros Hi Hlen. unfold max_ram_length in Hlen. pose proof Hi as (Hal & Hw).
  pose proof (layer_offset_range layer) as Hoff. cbn [pbuf_alloc].
  set (size := LWIP_MEM_ALIGN_SIZE (SIZEOF_STRUCT_PBUF + layer_offset layer) + LWIP_MEM_ALIGN_SIZE length).
  assert (24 + layer_offset layer + length <= size /\ size <= 65532 /\
    LWIP_MEM_ALIGN_SIZE (SIZEOF_STRUCT_PBUF + layer_offset layer) + length <= size /\
    24 + layer_offset layer <= LWIP_MEM_ALIGN_SIZE (SIZEOF_STRUCT_PBUF + layer_offset layer)) as Hsz.
  { subst size. change SIZEOF_STRUCT_PBUF with 24. rewrite !align_arith. zdm. }
  rewrite u16_id by (unfold is_u16; lia).
  destruct (al_mem_malloc_ok _ _ size Hal ltac:(lia)) as (o & al & E & Ho).
  rewrite (call_bind _ _ _ _ _ E). destruct o as [a|].
  - destruct Ho as (Hna & Hmod & n & Hn & Hal'). specialize (Hn ltac:(lia)).
    set (p := (RHeap, a)) in *.
    set (pay := mem_align (padd p (SIZEOF_STRUCT_PBUF + layer_offset layer))).
    assert (pay = (RHeap, a + LWIP_MEM_ALIGN_SIZE (SIZEOF_STRUCT_PBUF + layer_offset layer))) as Epay.
    { subst pay p. unfold mem_align, padd. simpl. by rewrite align_base. }
    set (b := Pbuf None (Some pay) length length PBUF_RAM 0 1).
    cbv zeta. rewrite wrp_bind, lwip_assert_bind.
    2: { rewrite Epay. cbn [snd]. rewrite align_arith. apply Z.eqb_eq. zdm. }
    erewrite finish_alloc_eq by apply lookup_insert_eq.
    unfold set_pbufs, upd_flags, upd_ref. simpl. rewrite insert_insert_eq. fold b.
    pose proof (fresh_block _ _ _ _ Hi Hna) as Hnp.
    eexists (Some p), _. split; [done|]. split; [done|].
    exists [(p, b)], (<[p := (FromHeap, n)]> L). simpl pbufs.
    split; [by split; [|rewrite lookup_insert_eq]|]. split; [unfold lsum; simpl; lia|].
    split; [by apply without_one|]. split; [by apply without_one|]. split; [|split].
    + apply (alloc_one s L ext p b al n); try done. split; [done|]. split; [done|].
      unfold is_u16. simpl. split; [lia|]. split; [lia|]. exists n. rewrite lookup_insert_eq.
      split; [done|]. exists (a + LWIP_MEM_ALIGN_SIZE (SIZEOF_STRUCT_PBUF + layer_offset layer)).
      split; [change (payload b) with (Some pay); by rewrite Epay|]. subst p. simpl. change SIZEOF_STRUCT_PBUF with 24 in *. lia.
    + intros x c Hx%list_elem_of_singleton. by simplify_eq.
    + exists b, pay.2. rewrite lookup_insert_eq. split; [done|]. rewrite Epay.
      split; [change (payload b) with (Some pay); by rewrite Epay|]. subst p. simpl. change SIZEOF_STRUCT_PBUF with 24 in *. lia.
  - eexists None, _. split; [done|]. split; [done|]. split; [done|]. by split.
Qed.

Lemma pbuf_alloc_ref_ok s L ext layer length t :
  pinv s L ext -> 0 <= length < 65536 -> t = PBUF_ROM \/ t = PBUF_REF ->
  exists o s', pbuf_alloc stale_flags custom_free_function layer length t s = Done (o, s') /\
    alloc_post s L ext t length (layer_offset layer) o s'.
Proof.
  intros Hi Hlen Ht. pose proof Hi as (Hal & Hw).
  destruct (al_memp_malloc_ok _ _ MEMP_PBUF Hal) as (o & al & E & Ho).
  assert (pbuf_alloc stale_flags custom_free_function layer length t =
    (p ← call (al_memp_malloc MEMP_PBUF);
     match p with
     | None => mret None
     | Some a =>
         let p := (RPool, a) in
         wrp p (Pbuf None None length length t (stale_flags p) 1);;
         finish_alloc p
     end)) as -> by (by destruct Ht as [->| ->]).
  rewrite (call_bind _ _ _ _ _ E). destruct o as [a|].
  - destruct Ho as (Hna & Hmod & Hal'). set (p := (RPool, a)) in *.
    set (b := Pbuf None None length length t 0 1).
    cbv zeta. rewrite wrp_bind. erewrite finish_alloc_eq by apply lookup_insert_eq.
    unfold set_pbufs, upd_flags, upd_ref. simpl. rewrite insert_insert_eq. fold b.
    eexists (Some p), _. split; [done|]. split; [done|].
    pose proof (fresh_block _ _ _ _ Hi Hna) as Hnp.
    assert (home b = (RPool, FromPool MEMP_PBUF)) as Hhome by (unfold home; by destruct Ht as [->| ->]).
    exists [(p, b)], (<[p := (FromPool MEMP_PBUF, memp_size MEMP_PBUF)]> L). simpl pbufs.
    split; [by split; [|rewrite lookup_insert_eq]|]. split; [unfold lsum; simpl; lia|].
    split; [by apply without_one|]. split; [by apply without_one|]. split; [|split].
    + change (FromPool MEMP_PBUF) with ((RPool, FromPool MEMP_PBUF).2). rewrite <- Hhome.
      apply (alloc_one s L ext p b al _); try done; [by rewrite Hhome|].
      split; [by rewrite Hhome|]. split; [done|].
      unfold is_u16. simpl. split; [lia|]. split; [lia|]. eexists. rewrite lookup_insert_eq.
      split; [done|]. unfold payload_ok. by destruct Ht as [->| ->].
    + intros x c Hx%list_elem_of_singleton. by simplify_eq.
    + by destruct Ht as [->| ->].
  - eexists None, _. split; [done|]. split; [done|]. split; [done|]. by split.
Qed.

(** Setting the flags of the first pbuf of a grown chain. *)
Lemma growing_flags s L L0 m0 p b l :
  growing s L L0 m0 p ((p, b) :: l) 0 ->
  growing (set_pbufs (insert p (upd_flags 0 (upd_ref 1 b))) s) L L0 m0 p
    ((p, upd_flags 0 (upd_ref 1 b)) :: l) 0.
Proof.
  intros (Hal & Hc & Hm & HL & Ht & Hl). pose proof (chain_NoDup _ _ _ Hc) as Hnd.
  rewrite fmap_cons in Hnd. apply list.NoDup_cons in Hnd as [Hpl _]. simpl in Hpl.
  destruct Hc as (_ & Hp & Hc). split; [done|]. split; [|split; [|split; [done|split]]].
  - split; [done|]. simpl. rewrite lookup_insert_eq. split; [done|]. by apply chain_insert_ne.
  - cbn [pbufs set_pbufs]. rewrite fmap_cons in Hm |- *. cbn [fst] in Hm |- *.
    by rewrite without_insert_eq by left.
  - destruct Ht as [Htb Ht]. by split.
  - intros x c [E|Hx]%elem_of_cons; [|by apply Hl; right]. simplify_eq.
    destruct (Hl p b ltac:(left)) as ((H1 & H2 & H3 & H4 & k & H5 & H6) & H7 & H8).
    split; [|done]. split; [done|]. split; [done|]. split; [done|]. split; [done|]. by exists k.
Qed.

Lemma pbuf_alloc_pool_ok s L ext layer length :
  clean_flags -> pinv s L ext -> 0 <= length < 65536 ->
  exists o s', pbuf_alloc stale_flags custom_free_function layer length PBUF_POOL s = Done (o, s') /\
    alloc_post s L ext PBUF_POOL length (layer_offset layer) o s'.
Proof.
  intros Hclean Hi Hlen. pose proof Hi as (Hal & Hw).
  pose proof (layer_offset_range layer) as Hoff. cbn [pbuf_alloc].
  destruct (al_memp_malloc_ok _ _ MEMP_PBUF_POOL Hal) as (o & al & E & Ho).
  rewrite (call_bind _ _ _ _ _ E). destruct o as [a|].
  2: { exists None. eexists. split; [done|]. split; [done|]. split; [done|]. by split. }
  destruct Ho as (Hna & Hmod & Hal'). set (p := (RPool, a)) in *.
  pose proof (fresh_block _ _ _ _ Hi Hna) as Hnp.
  set (off := LWIP_MEM_ALIGN_SIZE (layer_offset layer)).
  assert (layer_offset layer <= off <= 56 /\ off mod 4 = 0) as [Hoff' Hoffm].
  { subst off. rewrite align_arith. split; [zdm|]. by rewrite Z.mod_mul. }
  set (pay := mem_align (padd p (SIZEOF_STRUCT_PBUF + layer_offset layer))).
  assert (pay = (RPool, a + 24 + off)) as Epay.
  { subst pay p off. unfold mem_align, padd. simpl. change SIZEOF_STRUCT_PBUF with 24.
    rewrite !align_arith. f_equal. zdm. }
  change PBUF_POOL_BUFSIZE_ALIGNED with 592. change SIZEOF_STRUCT_PBUF with 24.
  set (plen := Z.min length (592 - off)). cbv zeta.
  rewrite Epay. cbn [fst snd]. change (p.2) with a.
  rewrite lwip_assert_bind by (apply Z.eqb_eq; zdm). rewrite lwip_assert_bind by lia.
  rewrite lwip_assert_bind by lia. rewrite wrp_bind. rewrite <- Epay.
  set (b := Pbuf None (Some pay) length plen PBUF_POOL (stale_flags p) 1).
  set (L1 := <[p := (FromPool MEMP_PBUF_POOL, memp_size MEMP_PBUF_POOL)]> L).
  set (s1 := set_pbufs (insert p b) (PState (pbufs s) (pdata s) al (pbuf_free_ooseq_pending s))).
  assert (growing s1 L1 L (pbufs s) p ([] ++ [(p, b)]) (length - plen)) as Hg.
  { split; [done|]. split; [by split; [|simpl; rewrite lookup_insert_eq]|].
    split; [by apply without_one|]. split; [by apply without_one|].
    split; [split; [unfold lsum; simpl; lia|done]|].
    intros x c Hx%list_elem_of_singleton. injection Hx as -> ->.
    split; [|split; [done|split; [done|]]].
    - split; [done|]. split; [apply Hclean|]. unfold is_u16. simpl. split; [lia|]. split; [lia|].
      exists (memp_size MEMP_PBUF_POOL). subst L1. rewrite lookup_insert_eq. split; [done|].
      exists (a + 24 + off). split; [change (payload b) with (Some pay); by rewrite Epay|].
      subst p. simpl. change SIZEOF_STRUCT_PBUF with 24. change PBUF_POOL_BUFSIZE_ALIGNED with 592. lia.
    - split; [done|]. subst L1. by rewrite lookup_insert_eq. }
  destruct (pool_tail_ok (pool_fuel length) s1 L1 L (pbufs s) p [] p b (length - plen)
              (Some pay) plen Hg (proj1 Hw) ltac:(lia)) as (o & s' & E' & Hd & Ho).
  { done. }
  { unfold pool_fuel. lia. }
  rewrite (bind_done _ _ _ _ _ E'). destruct o as [p'|].
  2: { exists None, s'. split; [done|]. split; [done|]. destruct Ho as [Hm Ha].
       split; [done|]. split; [done|]. by rewrite Hm. }
  destruct Ho as (-> & l & L' & Hgl & Hsum & Hfst).
  destruct l as [|[x c] l]; [done|]. destruct Hfst as (-> & Hpayc & Hlenc).
  pose proof Hgl as (_ & (_ & Hpc & _) & _). rewrite (finish_alloc_eq _ _ c) by done.
  pose proof (growing_flags _ _ _ _ _ _ _ Hgl) as Hg2. clear Hgl.
  pose proof Hg2 as (Hal2 & Hc2 & Hm2 & HL2 & Ht2 & Hl2).
  eexists (Some p), _. split; [done|]. split; [done|].
  exists ((p, upd_flags 0 (upd_ref 1 c)) :: l), L'. split; [done|]. split; [|split; [|split; [|split; [|split]]]].
  - change (lsum ((p, upd_flags 0 (upd_ref 1 c)) :: l)) with (lsum ((p, c) :: l)).
    rewrite Hsum. unfold lsum. simpl. lia.
  - done.
  - done.
  - split; [done|]. eapply (graft _ _ L _ (pbufs s) ext (Some p)); try done.
    + by apply tot_from_0.
    + intros y d Hy. destruct (Hl2 y d Hy) as (H1 & H2 & _ & H4 & _). done.
  - intros y d Hy. destruct (Hl2 y d Hy) as (_ & H2 & H3 & H4 & _). done.
  - exists (upd_flags 0 (upd_ref 1 c)), (a + 24 + off). simpl. rewrite lookup_insert_eq.
    split; [done|]. rewrite Hpayc, Epay. split; [done|].
    change SIZEOF_STRUCT_PBUF with 24. subst p. simpl. lia.
Qed.
End ops.
