(* ===== verification/AllocImpl.v ===== *)
(** * The allocators behind the packet buffers

    The heap of MemHeap.v and the pools of Memp.v, side by side, implement the
    interface of Alloc.v: the live blocks are the blocks in use of the heap and
    the elements of the two packet buffer pools that are given out. *)

From S2P Require Import Prelude MemHeap Memp Alloc.

(** The state of mem.c and memp.c. *)
Definition allocators : Type := heap * pools.

Definition on_heap {B} (m : M heap B) : M allocators B := fun s =>
  match m s.1 with
  | Done (b, h) => Done (b, (h, s.2))
  | Crash c => Crash c
  end.

Definition on_pools {B} (m : M pools B) : M allocators B := fun s =>
  match m s.2 with
  | Done (b, P) => Done (b, (s.1, P))
  | Crash c => Crash c
  end.

(** The place of a pool in memp_std.h (of those in [pbuf_pools]). *)
Definition memp_index (type : memp_t) : nat :=
  match type with MEMP_PBUF => 0%nat | MEMP_PBUF_POOL => 1%nat end.

#[export] Instance allocators_ops : Allocator allocators := {
  al_mem_malloc size := on_heap (mem_malloc size);
  al_mem_free p := on_heap (mem_free (Some p));
  al_mem_trim p newsize := on_heap (mem_trim p newsize);
  al_memp_malloc type := on_pools (memp_malloc (memp_index type));
  al_memp_free type p := on_pools (memp_free false (memp_index type) (Some p))
}.

(** The state after mem_init and memp_init. *)
Definition allocators_boot : allocators := (heap_boot, Memp.memp_init pbuf_pools).

(** ** The live blocks *)

(** The addresses given out for the blocks in use, with their sizes. *)
Fixpoint live_blocks (s : Z) (bl : list block) : list (Z * Z) :=
  match bl with
  | [] => []
  | (n, u) :: bl => (if (u : bool) then [(s + 8, n - 8)] else []) ++ live_blocks (s + n) bl
  end.

Lemma live_blocks_ptrs bl : forall s, (live_blocks s bl).*1 = used_ptrs s bl.
Proof.
  induction bl as [|[n [|]] bl IH]; intros s; [done| |]; simpl.
  - by rewrite IH.
  - apply IH.
Qed.

Lemma live_blocks_app l : forall s k,
  live_blocks s (l ++ k) = live_blocks s l ++ live_blocks (s + bsum l) k.
Proof.
  induction l as [|[n u] l IH]; intros s k; cbn [app live_blocks].
  - unfold bsum. simpl. by rewrite Z.add_0_r.
  - rewrite IH, app_assoc. change (bsum ((n, u) :: l)) with (n + bsum l). by rewrite Z.add_assoc.
Qed.

Lemma live_blocks_coalesce bl : forall s, live_blocks s (coalesce bl) = live_blocks s bl.
Proof.
  induction bl as [|[n [|]] bl IH]; intros s; [done| |].
  - simpl. by rewrite IH.
  - cbn [live_blocks]. rewrite <- IH. simpl coalesce.
    destruct (coalesce bl) as [|[m [|]] k]; [done|done|]. simpl. by rewrite Z.add_assoc.
Qed.

(** The block that remains of one of [n] bytes after a request for [size]. *)
Definition kept (size n : Z) : Z := if size + 28 <=? n then size else n - 8.

Lemma live_blocks_take s size n k :
  live_blocks s (take_block size n ++ k) = (s + 8, kept size n) :: live_blocks (s + n) k.
Proof.
  unfold take_block, kept. destruct (_ <=? _); cbn [app live_blocks]; [|done].
  cbn [app]. f_equal; [f_equal; lia|]. f_equal. lia.
Qed.

Lemma live_blocks_shrink s size n k :
  12 <= size -> size + 8 <= n ->
  exists m, live_blocks s (shrink_block size n k) = (s + 8, m) :: live_blocks (s + n) k /\
    size <= m <= n - 8.
Proof.
  intros Hlo Hle. unfold shrink_block.
  destruct k as [|[m [|]] k];
    [destruct (Z.leb_spec (size + 28) n)|destruct (Z.leb_spec (size + 28) n)
    |destruct (Z.eqb_spec (size + 8) n)]; cbn [app live_blocks]; cbn [app].
  - exists size. split; [repeat (f_equal; try lia)|lia].
  - exists (n - 8). split; [done|lia].
  - exists size. split; [repeat (f_equal; try lia)|lia].
  - exists (n - 8). split; [done|lia].
  - exists (n - 8). split; [done|lia].
  - exists size. split; [repeat (f_equal; try lia)|lia].
Qed.

(** The blocks of the heap and of the pools as one map. *)
Definition live_map (bl : list block) (als : list (list Z)) (L : blocks) : Prop :=
  (forall a o n, L !! (RHeap, a) = Some (o, n) <-> o = FromHeap /\ (a, n) ∈ live_blocks 0 bl) /\
  (forall a o n, L !! (RPool, a) = Some (o, n) <->
     exists t al, o = FromPool t /\ n = memp_size t /\ als !! memp_index t = Some al /\ a ∈ al) /\
  (forall a, L !! (RExt, a) = None).

Definition allocators_inv (s : allocators) (L : blocks) : Prop :=
  exists bl als, heap_rep s.1 bl /\ pools_inv pbuf_pools s.2 als /\ live_map bl als L.

Lemma memp_desc t : pbuf_pools !! memp_index t = Some (PoolDesc 16 (memp_size t)).
Proof. by destruct t. Qed.

Lemma memp_index_inj t t' : memp_index t = memp_index t' -> t = t'.
Proof. by destruct t, t'. Qed.

Lemma heap_ok_blocks h bl : heap_rep h bl -> Forall block_ok bl.
Proof. intros [[Hs _] _]. by eapply shape_block_ok. Qed.

(** A live address belongs to one block. *)
Lemma live_blocks_fun bl s a n n' :
  Forall block_ok bl -> (a, n) ∈ live_blocks s bl -> (a, n') ∈ live_blocks s bl -> n = n'.
Proof.
  intros Hok H1 H2. pose proof (used_ptrs_NoDup bl s Hok) as Hnd. rewrite <- live_blocks_ptrs in Hnd.
  revert Hnd H1 H2. generalize (live_blocks s bl) as l. clear. induction l as [|[x m] l IH]; [by intros _ H%elem_of_nil|].
  rewrite fmap_cons. intros [Hx Hnd]%list.NoDup_cons. simpl in Hx.
  assert (forall k, (x, k) ∈ l -> False) as Hno.
  { intros k Hk. apply Hx. apply list_elem_of_fmap. by exists (x, k). }
  intros [E|H1]%elem_of_cons [E'|H2]%elem_of_cons; simplify_eq; try done.
  - exfalso. by eapply Hno.
  - exfalso. by eapply Hno.
  - by apply IH.
Qed.

Lemma live_block_split bl a n :
  (a, n) ∈ live_blocks 0 bl -> exists l k, bl = l ++ (n + 8, true) :: k /\ a = bsum l + 8.
Proof.
  assert (forall s, (a, n) ∈ live_blocks s bl ->
    exists l k, bl = l ++ (n + 8, true) :: k /\ a = s + bsum l + 8) as H.
  { induction bl as [|[m u] bl IH]; intros s; simpl; [by intros H%elem_of_nil|].
    intros [H|H]%elem_of_app.
    - destruct u; [|by apply elem_of_nil in H]. apply list_elem_of_singleton in H. simplify_eq.
      exists [], bl. replace (m - 8 + 8) with m by lia. split; [done|]. unfold bsum. simpl. lia.
    - destruct (IH _ H) as (l & k & -> & ->). exists ((m, u) :: l), k. split; [done|].
      change (bsum ((m, u) :: l)) with (m + bsum l). lia. }
  intros Ha. destruct (H 0 Ha) as (l & k & -> & ->). exists l, k. split; [done|lia].
Qed.

(** ** The blocks under the operations *)

Lemma live_insert bl bl' als L a n :
  live_map bl als L ->
  (forall x m, (x, m) ∈ live_blocks 0 bl' <-> (x, m) = (a, n) \/ ((x, m) ∈ live_blocks 0 bl /\ x <> a)) ->
  live_map bl' als (<[(RHeap, a) := (FromHeap, n)]> L).
Proof.
  intros (Hh & Hp & Hx) Hbl. split; [|split].
  - intros x o m. rewrite Hbl. destruct (decide (x = a)) as [->|Hne].
    + rewrite lookup_insert_eq. split.
      * intros E. simplify_eq. split; [done|by left].
      * intros (-> & [E|[_ ?]]); [by simplify_eq|done].
    + rewrite lookup_insert_ne by congruence. rewrite Hh. split.
      * intros (-> & H). split; [done|]. by right.
      * intros (-> & [E|[? _]]); [by simplify_eq|done].
  - intros x o m. rewrite lookup_insert_ne by done. apply Hp.
  - intros x. by rewrite lookup_insert_ne.
Qed.

Lemma live_delete bl bl' als L a :
  live_map bl als L ->
  (forall x m, (x, m) ∈ live_blocks 0 bl' <-> (x, m) ∈ live_blocks 0 bl /\ x <> a) ->
  live_map bl' als (delete (RHeap, a) L).
Proof.
  intros (Hh & Hp & Hx) Hbl. split; [|split].
  - intros x o m. rewrite Hbl. destruct (decide (x = a)) as [->|Hne].
    + rewrite lookup_delete_eq. split; [done|]. by intros (_ & _ & ?).
    + rewrite lookup_delete_ne by congruence. rewrite Hh. tauto.
  - intros x o m. rewrite lookup_delete_ne by done. apply Hp.
  - intros x. by rewrite lookup_delete_ne.
Qed.

Lemma live_same bl bl' als L :
  live_map bl als L -> live_blocks 0 bl' = live_blocks 0 bl -> live_map bl' als L.
Proof. intros (Hh & Hp & Hx) E. split; [|done]. intros. rewrite E. apply Hh. Qed.

(** An element out of one pool is in no other. *)
Lemma pool_unique P als t t' al al' a :
  pools_inv pbuf_pools P als -> als !! memp_index t = Some al -> als !! memp_index t' = Some al' ->
  a ∈ pool_elems (pool_base 0 pbuf_pools (memp_index t)) (PoolDesc 16 (memp_size t)) ->
  a ∈ al' -> t = t'.
Proof.
  intros (_ & _ & Hat) Hal Hal' Ha Ha'. apply memp_index_inj.
  destruct (Hat _ _ _ (memp_desc t') Hal') as (_ & fl & _ & _ & _ & _ & Hpe & _).
  eapply (pools_disjoint pbuf_pools pbuf_pools_ok); [apply memp_desc|apply memp_desc|exact Ha|].
  rewrite <- Hpe. apply elem_of_app. by right.
Qed.

Lemma live_pool_insert bl P als L t al a :
  live_map bl als L -> pools_inv pbuf_pools P als -> als !! memp_index t = Some al ->
  a ∈ pool_elems (pool_base 0 pbuf_pools (memp_index t)) (PoolDesc 16 (memp_size t)) ->
  live_map bl (<[memp_index t := (a :: al)]> als) (<[(RPool, a) := (FromPool t, memp_size t)]> L).
Proof.
  intros (Hh & Hp & Hx) Hinv Hal Ha. pose proof (lookup_lt_Some _ _ _ Hal) as Hlt. split; [|split].
  - intros x o m. rewrite lookup_insert_ne by done. apply Hh.
  - intros x o m. destruct (decide (x = a)) as [->|Hne].
    + rewrite lookup_insert_eq. split.
      * intros E. simplify_eq. exists t, (a :: al). rewrite list_lookup_insert_eq by done.
        split; [done|]. split; [done|]. split; [done|by left].
      * intros (t' & al' & -> & -> & E & Hin). destruct (decide (t' = t)) as [->|Hne]; [done|].
        rewrite list_lookup_insert_ne in E by (intros Ei; by apply Hne, memp_index_inj).
        destruct Hne. symmetry. by eapply pool_unique.
    + rewrite lookup_insert_ne by congruence. rewrite Hp. split.
      * intros (t' & al' & -> & -> & E & Hin). destruct (decide (t' = t)) as [->|Hnt].
        -- simplify_eq. exists t, (a :: al). rewrite list_lookup_insert_eq by done.
           split; [done|]. split; [done|]. split; [done|by right].
        -- exists t', al'. rewrite list_lookup_insert_ne; [done|]. intros Ei. by apply Hnt, memp_index_inj.
      * intros (t' & al' & -> & -> & E & Hin). destruct (decide (t' = t)) as [->|Hnt].
        -- rewrite list_lookup_insert_eq in E by done. simplify_eq. exists t, al.
           split; [done|]. split; [done|]. split; [done|]. by apply elem_of_cons in Hin as [?|?].
        -- rewrite list_lookup_insert_ne in E by (intros Ei; by apply Hnt, memp_index_inj).
           by exists t', al'.
  - intros x. by rewrite lookup_insert_ne.
Qed.

Lemma live_pool_delete bl als L t l1 a l2 :
  live_map bl als L -> als !! memp_index t = Some (l1 ++ a :: l2) -> NoDup (l1 ++ a :: l2) ->
  (forall t' al', als !! memp_index t' = Some al' -> a ∈ al' -> t' = t) ->
  live_map bl (<[memp_index t := (l1 ++ l2)]> als) (delete (RPool, a) L).
Proof.
  intros (Hh & Hp & Hx) Hal Hnd Hun. pose proof (lookup_lt_Some _ _ _ Hal) as Hlt. split; [|split].
  - intros x o m. rewrite lookup_delete_ne by done. apply Hh.
  - intros x o m. destruct (decide (x = a)) as [->|Hne].
    + rewrite lookup_delete_eq. split; [done|]. intros (t' & al' & -> & -> & E & Hin).
      destruct (decide (t' = t)) as [->|Hnt].
      * rewrite list_lookup_insert_eq in E by done. simplify_eq.
        apply list.NoDup_app in Hnd as (Hn1 & Hd & Hn2). apply list.NoDup_cons in Hn2 as [Hn2 _].
        apply elem_of_app in Hin as [Hin|Hin]; [|done]. exfalso. apply (Hd a Hin). by left.
      * rewrite list_lookup_insert_ne in E by (intros Ei; by apply Hnt, memp_index_inj).
        destruct Hnt. by eapply Hun.
    + rewrite lookup_delete_ne by congruence. rewrite Hp. split.
      * intros (t' & al' & -> & -> & E & Hin). destruct (decide (t' = t)) as [->|Hnt].
        -- simplify_eq. exists t, (l1 ++ l2). rewrite list_lookup_insert_eq by done.
           split; [done|]. split; [done|]. split; [done|]. rewrite elem_of_app in *.
           rewrite elem_of_cons in Hin. tauto.
        -- exists t', al'. rewrite list_lookup_insert_ne; [done|]. intros Ei. by apply Hnt, memp_index_inj.
      * intros (t' & al' & -> & -> & E & Hin). destruct (decide (t' = t)) as [->|Hnt].
        -- rewrite list_lookup_insert_eq in E by done. simplify_eq. exists t, (l1 ++ a :: l2).
           split; [done|]. split; [done|]. split; [done|]. rewrite elem_of_app in *.
           rewrite elem_of_cons. tauto.
        -- rewrite list_lookup_insert_ne in E by (intros Ei; by apply Hnt, memp_index_inj).
           by exists t', al'.
  - intros x. by rewrite lookup_delete_ne.
Qed.

(** ** The promises *)

Lemma impl_malloc s L size :
  allocators_inv s L -> 0 < size < 65536 ->
  exists r s', al_mem_malloc size s = Done (r, s') /\
    match r with
    | None => allocators_inv s' L
    | Some p =>
        L !! (RHeap, p) = None /\ p mod 4 = 0 /\
        exists n, (size <= 65532 -> size <= n) /\
          allocators_inv s' (<[(RHeap, p) := (FromHeap, n)]> L)
    end.
Proof.
  destruct s as [h P]. intros (bl & als & Hr & Hp & HL) Hsz. simpl in Hr, Hp.
  destruct (mem_malloc_ok h bl size Hr ltac:(lia)) as [Hlo Hhi].
  unfold al_mem_malloc, allocators_ops, on_heap. cbn [fst snd].
  destruct (Z.ltb_spec 16000 (round_size size)).
  { rewrite Hhi by lia. exists None, (h, P). split; [done|]. by exists bl, als. }
  specialize (Hlo ltac:(lia)). unfold alloc_post in Hlo.
  destruct (first_fit (round_size size) 0 bl) as [[a bl']|] eqn:Ef.
  2: { rewrite Hlo. exists None, (count_err h, P). split; [done|]. by exists bl, als. }
  destruct Hlo as (h' & -> & Hr' & _). exists (Some (a + 8)), (h', P). split; [done|].
  apply first_fit_some in Ef as (l & n & k & -> & -> & Hn & ->). change (0 + bsum l) with (bsum l).
  pose proof (heap_pre_bounds _ _ _ _ _ (proj1 Hr)) as (? & ? & ? & ? & Hmod & _ & Hl & Hk).
  pose proof (round_size_props size ltac:(lia)) as [Hrlo _].
  assert (forall m, (bsum l + 8, m) ∉ live_blocks 0 l ++ live_blocks (bsum l + n) k) as Hfresh.
  { intros m Hin. apply elem_of_app in Hin as [Hin|Hin];
      apply (list_elem_of_fmap_2 fst) in Hin; rewrite live_blocks_ptrs in Hin;
      apply used_ptrs_range in Hin; simpl in *; (done || lia). }
  split; [|split; [zdm|]].
  - destruct (L !! (RHeap, bsum l + 8)) as [[o m]|] eqn:E; [|done].
    apply HL in E as [_ E]. rewrite live_blocks_app in E. by apply Hfresh in E.
  - exists (kept (round_size size) n). split.
    { intros. pose proof (round_size_ge size ltac:(lia)). unfold kept. destruct (Z.leb_spec (round_size size + 28) n); lia. }
    exists (l ++ take_block (round_size size) n ++ k), als. split; [done|]. split; [done|].
    eapply live_insert; [exact HL|]. intros x m.
    rewrite (live_blocks_app l 0 (_ :: _)), (live_blocks_app l 0 (take_block _ _ ++ _)).
    rewrite live_blocks_take. cbn [live_blocks app]. rewrite !elem_of_app, elem_of_cons.
    change (0 + bsum l) with (bsum l).
    split.
    + intros [Hin|[E|Hin]]; [right|by left|right].
      * split; [by left|]. intros ->. apply (Hfresh m). apply elem_of_app. by left.
      * split; [by right|]. intros ->. apply (Hfresh m). apply elem_of_app. by right.
    + intros [E|[[Hin|Hin] _]]; auto.
Qed.

Lemma impl_free s L p n :
  allocators_inv s L -> L !! (RHeap, p) = Some (FromHeap, n) ->
  exists s', al_mem_free p s = Done (tt, s') /\ allocators_inv s' (delete (RHeap, p) L).
Proof.
  destruct s as [h P]. intros (bl & als & Hr & Hp & HL) E. simpl in Hr, Hp.
  apply HL in E as [_ E]. pose proof (heap_ok_blocks _ _ Hr) as Hok.
  destruct (live_block_split _ _ _ E) as (l & k & -> & ->).
  destruct (mem_free_ok _ _ _ _ Hr) as (h' & Ef & Hr' & _).
  exists (h', P). split.
  { unfold al_mem_free, allocators_ops, on_heap. cbn [fst snd]. by rewrite Ef. }
  eexists _, als. split; [exact Hr'|]. split; [done|]. eapply live_delete; [exact HL|].
  intros x m. rewrite live_blocks_coalesce, !live_blocks_app. cbn [live_blocks app].
  change (0 + bsum l) with (bsum l). rewrite !elem_of_app, elem_of_cons.
  apply Forall_app in Hok as [Hl Hk]. apply Forall_cons_iff in Hk as [[Hn _] Hk]. simpl in Hn.
  split.
  - intros Hin. split; [tauto|]. intros ->.
    destruct Hin as [Hin|Hin]; apply (list_elem_of_fmap_2 fst) in Hin; rewrite live_blocks_ptrs in Hin;
      apply used_ptrs_range in Hin; simpl in *; (done || lia).
  - intros [[?|[E'|?]] Hne]; auto. by simplify_eq.
Qed.

Lemma live_block_size h bl a n : heap_rep h bl -> (a, n) ∈ live_blocks 0 bl ->
  12 <= n /\ n mod 4 = 0 /\ 8 <= a /\ a + n <= 16000.
Proof.
  intros Hr E. destruct (live_block_split _ _ _ E) as (l & k & -> & ->).
  pose proof (heap_pre_bounds _ _ _ _ _ (proj1 Hr)) as (? & ? & ? & ? & _ & Hm & _).
  split; [lia|]. split; [zdm|]. lia.
Qed.

Lemma impl_trim s L p n newsize :
  allocators_inv s L -> L !! (RHeap, p) = Some (FromHeap, n) -> 0 <= newsize <= n ->
  exists m s', al_mem_trim p newsize s = Done (Some p, s') /\ newsize <= m <= n /\
    allocators_inv s' (<[(RHeap, p) := (FromHeap, m)]> L).
Proof.
  destruct s as [h P]. intros (bl & als & Hr & Hp & HL) E Hnew. simpl in Hr, Hp.
  apply HL in E as [_ E]. pose proof (heap_ok_blocks _ _ Hr) as Hok.
  pose proof (live_block_size _ _ _ _ Hr E) as (Hn12 & Hn4 & Ha8 & Hn16).
  destruct (live_block_split _ _ _ E) as (l & k & -> & ->).
  assert (round_size newsize <= n /\ newsize <= round_size newsize) as [Hrs Hrn].
  { unfold round_size. rewrite align_arith, u16_id by (unfold is_u16; zdm).
    destruct (Z.ltb_spec ((newsize + 3) / 4 * 4) 12); zdm. }
  destruct (mem_trim_ok h l (n + 8) k newsize Hr ltac:(lia) ltac:(lia)) as (h' & Ef & Hr' & _).
  pose proof (round_size_props newsize ltac:(lia)) as [Hlo _].
  destruct (live_blocks_shrink (bsum l) (round_size newsize) (n + 8) k Hlo ltac:(lia)) as (m & Em & Hm).
  exists m, (h', P). split.
  { unfold al_mem_trim, allocators_ops, on_heap. cbn [fst snd]. by rewrite Ef. }
  split; [lia|]. eexists _, als. split; [exact Hr'|]. split; [done|].
  eapply live_insert; [exact HL|]. intros x i.
  rewrite (live_blocks_app l 0 (_ :: _)), (live_blocks_app l 0 (shrink_block _ _ _)).
  change (0 + bsum l) with (bsum l). rewrite Em. cbn [live_blocks app].
  rewrite !elem_of_app, !elem_of_cons.
  apply Forall_app in Hok as [Hl Hk]. apply Forall_cons_iff in Hk as [[Hn _] Hk]. simpl in Hn.
  assert (forall i, (bsum l + 8, i) ∈ live_blocks 0 l \/ (bsum l + 8, i) ∈ live_blocks (bsum l + (n + 8)) k -> False)
    as Hno.
  { intros j [Hin|Hin]; apply (list_elem_of_fmap_2 fst) in Hin; rewrite live_blocks_ptrs in Hin;
      apply used_ptrs_range in Hin; simpl in *; (done || lia). }
  split.
  - intros [Hin|[E'|Hin]]; [right|by left|right]; (split; [tauto|]); intros ->; eapply Hno; eauto.
  - intros [E'|[[?|[E'|?]] Hne]]; auto. by simplify_eq.
Qed.

Lemma impl_pool_malloc s L type :
  allocators_inv s L ->
  exists r s', al_memp_malloc type s = Done (r, s') /\
    match r with
    | None => allocators_inv s' L
    | Some p =>
        L !! (RPool, p) = None /\ p mod 4 = 0 /\
        allocators_inv s' (<[(RPool, p) := (FromPool type, memp_size type)]> L)
    end.
Proof.
  destruct s as [h P]. intros (bl & als & Hr & Hp & HL). simpl in Hr, Hp.
  destruct (pools_at pbuf_pools P als (memp_index type) _ Hp (memp_desc type)) as (al & Hal & _).
  unfold al_memp_malloc, allocators_ops, on_pools. cbn [fst snd].
  destruct (memp_malloc_ok pbuf_pools pbuf_pools_ok P als _ _ al Hp (memp_desc type) Hal)
    as [(_ & p & P' & -> & Hin & Hn & Hp')|(_ & P' & -> & Hp' & _)].
  - exists (Some p), (h, P'). split; [done|]. split; [|split].
    + destruct (L !! (RPool, p)) as [[o m]|] eqn:E; [|done].
      apply HL in E as (t & al' & -> & -> & E & Hp2).
      assert (type = t) as <- by (eapply (pool_unique P als type t); eassumption).
      assert (al' = al) as -> by congruence. by apply Hn in Hp2.
    + eapply pool_elems_aligned; [exact pbuf_pools_ok|apply memp_desc|exact Hin].
    + exists bl, (<[memp_index type := (p :: al)]> als). split; [done|]. split; [done|].
      by eapply live_pool_insert.
  - exists None, (h, P'). split; [done|]. by exists bl, als.
Qed.

Lemma impl_pool_free s L type p n :
  allocators_inv s L -> L !! (RPool, p) = Some (FromPool type, n) ->
  exists s', al_memp_free type p s = Done (tt, s') /\ allocators_inv s' (delete (RPool, p) L).
Proof.
  destruct s as [h P]. intros (bl & als & Hr & Hp & HL) E. simpl in Hr, Hp.
  apply HL in E as (t & al & Et & -> & Hal & Hin). injection Et as <-.
  apply list_elem_of_split in Hin as (l1 & l2 & ->).
  destruct (memp_free_ok pbuf_pools pbuf_pools_ok P als _ _ l1 p l2 false Hp (memp_desc type) Hal)
    as (P' & Ef & Hp'). unfold al_memp_free, allocators_ops, on_pools. cbn [fst snd].
  exists (h, P'). split; [by rewrite Ef|]. eexists bl, _. split; [done|]. split; [exact Hp'|].
  pose proof Hp as (_ & _ & Hat).
  destruct (Hat _ _ _ (memp_desc type) Hal) as (hd & fl & st & _ & _ & _ & Hpe & _).
  pose proof (pool_at_NoDup pbuf_pools pbuf_pools_ok P _ _ _ _ (memp_desc type) Hpe) as Hnd.
  apply list.NoDup_app in Hnd as (_ & _ & Hnd).
  eapply live_pool_delete; [exact HL|exact Hal|exact Hnd|].
  intros t' al' Hal' Hin'. symmetry. eapply (pool_unique P als type t'); [done|exact Hal|exact Hal'| |done].
  rewrite <- Hpe. apply elem_of_app. right. apply elem_of_app. right. by left.
Qed.

Lemma impl_disjoint s L r p q o1 n1 o2 n2 :
  allocators_inv s L -> L !! (r, p) = Some (o1, n1) -> L !! (r, q) = Some (o2, n2) -> p < q ->
  p + n1 <= q.
Proof.
  destruct s as [h P]. intros (bl & als & Hr & Hp & HL) E1 E2 Hlt. simpl in Hr, Hp. destruct r.
  - apply HL in E1 as [_ E1]. apply HL in E2 as [_ E2]. pose proof (heap_ok_blocks _ _ Hr) as Hok.
    destruct (live_block_split _ _ _ E1) as (l & k & -> & ->).
    apply (list_elem_of_fmap_2 fst) in E2. rewrite live_blocks_ptrs, used_ptrs_app in E2.
    apply Forall_app in Hok as [Hl Hk]. apply Forall_cons_iff in Hk as [[Hn _] Hk]. simpl in Hn, E2.
    apply elem_of_app in E2 as [E2|E2].
    + apply used_ptrs_range in E2; [lia|done].
    + apply elem_of_cons in E2 as [->|E2]; [lia|]. apply used_ptrs_range in E2; [lia|done].
  - apply HL in E1 as (t1 & al1 & -> & -> & Ha1 & Hi1). apply HL in E2 as (t2 & al2 & -> & -> & Ha2 & Hi2).
    destruct Hp as (_ & _ & Hat).
    assert (forall t al x, als !! memp_index t = Some al -> x ∈ al ->
      x ∈ pool_elems (pool_base 0 pbuf_pools (memp_index t)) (PoolDesc 16 (memp_size t))) as Hel.
    { intros t al x Ha Hx. destruct (Hat _ _ _ (memp_desc t) Ha) as (_ & fl & _ & _ & _ & _ & Hpe & _).
      rewrite <- Hpe. apply elem_of_app. by right. }
    pose proof (Hel _ _ _ Ha1 Hi1) as H1. pose proof (Hel _ _ _ Ha2 Hi2) as H2. clear -H1 H2 Hlt.
    apply pool_elems_range in H1 as (? & ? & [k1 Hk1]); [|by destruct t1; vm_compute].
    apply pool_elems_range in H2 as (? & ? & [k2 Hk2]); [|by destruct t2; vm_compute].
    destruct t1, t2; simpl in *; change SIZEOF_STRUCT_PBUF with 24 in *;
      change PBUF_POOL_BUFSIZE_ALIGNED with 592 in *; lia.
  - destruct HL as (_ & _ & Hx). by rewrite Hx in E1.
Qed.

Lemma impl_size s L p o n : allocators_inv s L -> L !! p = Some (o, n) -> n < 65536.
Proof.
  destruct s as [h P]. intros (bl & als & Hr & Hp & HL) E. simpl in Hr. destruct p as [[] p].
  - apply HL in E as [_ E]. pose proof (live_block_size _ _ _ _ Hr E). lia.
  - apply HL in E as (t & al & _ & -> & _). by destruct t.
  - destruct HL as (_ & _ & Hx). by rewrite Hx in E.
Qed.

Lemma impl_in_heap s L p o n : allocators_inv s L -> L !! (RHeap, p) = Some (o, n) -> 0 <= p /\ p + n <= MEM_SIZE_ALIGNED.
Proof.
  destruct s as [h P]. intros (bl & als & Hr & _ & HL) [_ E]%HL. simpl in Hr. pose proof (heap_ok_blocks _ _ Hr) as Hok.
  destruct (live_block_split _ _ _ E) as (l & k & -> & ->). destruct Hr as [[(_ & Hs & _) _] _].
  apply Forall_app in Hok as [Hl Hk]. apply Forall_cons_iff in Hk as [[Hn _] Hk].
  rewrite bsum_app in Hs. change (bsum ((n + 8, true) :: k)) with (n + 8 + bsum k) in Hs.
  change MEM_SIZE_ALIGNED with 16000. pose proof (bsum_nonneg l Hl). pose proof (bsum_nonneg k Hk). lia.
Qed.

#[export] Instance allocators_spec : AllocatorSpec allocators := {
  al_inv := allocators_inv;
  al_mem_malloc_ok := impl_malloc;
  al_mem_free_ok := impl_free;
  al_mem_trim_ok := impl_trim;
  al_memp_malloc_ok := impl_pool_malloc;
  al_memp_free_ok := impl_pool_free;
  al_size := impl_size;
  al_heap_size := MEM_SIZE_ALIGNED;
  al_in_heap := impl_in_heap;
  al_disjoint := impl_disjoint
}.

(** At boot nothing is live. *)
Lemma allocators_boot_inv : allocators_inv allocators_boot ∅.
Proof.
  exists [(16000, false)], [[]; []]. split; [apply heap_boot_rep|].
  split; [exact (memp_init_inv pbuf_pools pbuf_pools_ok)|]. split; [|split; [|done]].
  - intros a o n. rewrite lookup_empty. split; [done|]. intros (_ & H). simpl in H. by apply elem_of_nil in H.
  - intros a o n. rewrite lookup_empty. split; [done|]. intros (t & al & _ & _ & E & Hin).
    destruct t; simpl in E; simplify_eq; by apply elem_of_nil in Hin.
Qed.
