(* ===== verification/PbufSpec.v ===== *)
(** * What the packet buffers promise

    The properties of core/pbuf.c's list operations: each operation against the
    abstract view of a pbuf as a finite chain with exact reference counts, and
    the invariant of every history of a client that follows the rules of the
    documentation. *)

From S2P Require Import Prelude Alloc Pbuf AllocImpl.

(** ** Histories *)

Section histories.
Context {A : Type} `{AllocatorSpec A}.
Context (stale_flags : ptr -> Z).
Context (custom_free_function : ptr -> option (M (pstate A) unit)).

(** The states reached from [s0] by a client that holds the references [ext]:
    it frees and concatenates what it holds, changes the lengths of chains that
    no other chain shares, and keeps lengths and counts in their u16_t. *)
Inductive history (s0 : pstate A) : pstate A -> list ptr -> Prop :=
| h_start : history s0 s0 []
| h_swap s ext ext' : history s0 s ext -> ext ≡ₚ ext' -> history s0 s ext'
| h_alloc s ext layer length t o s' :
    history s0 s ext -> 0 <= length < 65536 -> (t = PBUF_RAM -> length <= max_ram_length) ->
    pbuf_alloc stale_flags custom_free_function layer length t s = Done (o, s') ->
    history s0 s' (opt_cons o ext)
| h_free s ext p n s' :
    history s0 s (p :: ext) -> pbuf_free custom_free_function (Some p) s = Done (n, s') ->
    history s0 s' ext
| h_ref s ext p b s' :
    history s0 s ext -> pbufs s !! p = Some b -> ref b < 65535 ->
    pbuf_ref (Some p) s = Done (tt, s') -> history s0 s' (p :: ext)
| h_cat s ext h t lh lt s' :
    history s0 s (t :: ext) -> chain (pbufs s) (Some h) lh -> unshared (pbufs s) lh ->
    chain (pbufs s) (Some t) lt -> (forall a, a ∈ lh.*1 -> a ∉ lt.*1) ->
    lsum lh + lsum lt < 65536 ->
    pbuf_cat (Some h) (Some t) s = Done (tt, s') -> history s0 s' ext
| h_chain s ext h t tb lh lt s' :
    history s0 s (t :: ext) -> chain (pbufs s) (Some h) lh -> unshared (pbufs s) lh ->
    chain (pbufs s) (Some t) lt -> pbufs s !! t = Some tb -> ref tb < 65535 ->
    (forall a, a ∈ lh.*1 -> a ∉ lt.*1) -> lsum lh + lsum lt < 65536 ->
    pbuf_chain (Some h) (Some t) s = Done (tt, s') -> history s0 s' (t :: ext)
| h_dechain s ext p b q r s' :
    history s0 s ext -> pbufs s !! p = Some b -> next b = Some q -> nrefs (pbufs s) p = 0 ->
    pbuf_dechain custom_free_function p s = Done (r, s') -> history s0 s' ext
| h_realloc s ext p l new_len s' :
    history s0 s ext -> chain (pbufs s) (Some p) l -> unshared (pbufs s) l ->
    0 <= new_len < lsum l ->
    pbuf_realloc custom_free_function p new_len s = Done (tt, s') -> history s0 s' ext
| h_header s ext p b pay inc s' :
    history s0 s ext -> pbufs s !! p = Some b -> payload b = Some pay -> nrefs (pbufs s) p = 0 ->
    inc <> 0 -> -32768 <= inc <= 32767 -> - inc <= len b ->
    len b + inc < 65536 -> tot_len b + inc < 65536 ->
    forall r, pbuf_header (Some p) inc s = Done (r, s') -> history s0 s' ext.

(** The references held may be listed in any order. *)
Lemma held_perm p ext ext' : ext ≡ₚ ext' -> held p ext = held p ext'.
Proof. intros E. unfold held, zlen. by rewrite E. Qed.

Lemma pinv_perm (s : pstate A) L ext ext' : ext ≡ₚ ext' -> pinv s L ext -> pinv s L ext'.
Proof.
  intros E (Hal & Hn & [Hr Hx] & Hw). split; [done|]. split; [done|]. split; [split|done].
  - intros p b Hp. rewrite (Hr p b Hp). by rewrite (held_perm p ext ext').
  - by rewrite <- E.
Qed.

Lemma tot_is_sum (s : pstate A) L ext p b l :
  pinv s L ext -> pbufs s !! p = Some b -> chain (pbufs s) (Some p) l ->
  tot_len b = lsum l /\ 0 <= len b <= tot_len b.
Proof.
  intros (_ & Hn & _ & _ & Ht) Hp Hc. pose proof (tots_chain _ _ _ Ht Hc) as Htc.
  destruct (Hn p b Hp) as ((_ & _ & Hl & _) & _). unfold is_u16 in Hl.
  destruct l as [|[a c] l]; [done|]. destruct Hc as (E & Ha & Hc). simplify_eq.
  destruct Htc as [Htc _]. split; [done|]. pose proof (lsum_nonneg _ _ _ _ Hn Hc). lia.
Qed.

Lemma pbuf_alloc_any s L ext layer length t :
  clean_flags stale_flags -> pinv s L ext -> 0 <= length < 65536 ->
  (t = PBUF_RAM -> length <= max_ram_length) ->
  exists o s', pbuf_alloc stale_flags custom_free_function layer length t s = Done (o, s') /\
    alloc_post s L ext t length (layer_offset layer) o s'.
Proof.
  intros Hc Hi Hlen Hram. destruct t.
  - apply pbuf_alloc_ram_ok; [done|]. specialize (Hram eq_refl). lia.
  - apply pbuf_alloc_ref_ok; auto.
  - apply pbuf_alloc_ref_ok; auto.
  - by apply pbuf_alloc_pool_ok.
Qed.

Lemma chain_nonempty m h l : chain m (Some h) l -> exists l0 z zb, l = l0 ++ [(z, zb)].
Proof.
  intros Hc. destruct (exists_last_inv l) as [->|(l0 & [z zb] & ->)]; [done|]. by exists l0, z, zb.
Qed.

Lemma history_pinv s0 s ext :
  clean_flags stale_flags -> (exists L, pinv s0 L []) -> history s0 s ext -> exists L, pinv s L ext.
Proof.
  intros Hcl Hstart. induction 1 as
    [|s ext ext' _ [L IH] E|s ext layer length t o s' _ [L IH] Hlen Hram E
    |s ext p n s' _ [L IH] E|s ext p b s' _ [L IH] Hp Hr E
    |s ext h t lh lt s' _ [L IH] Hh Hu Ht Hd Hs E
    |s ext h t tb lh lt s' _ [L IH] Hh Hu Ht Htb Hr Hd Hs E
    |s ext p b q r s' _ [L IH] Hp Hq Hz E|s ext p l new_len s' _ [L IH] Hc Hu Hn E
    |s ext p b pay inc s' _ [L IH] Hp Hpay Hz Hi Hr Hl Hm Ht r E].
  - done.
  - exists L. by eapply pinv_perm.
  - destruct (pbuf_alloc_any s L ext layer length t Hcl IH Hlen Hram) as (o' & s2 & E2 & _ & Ho).
    rewrite E in E2. simplify_eq. destruct o' as [p|].
    + destruct Ho as (l & L' & _ & _ & _ & _ & Hi & _). by exists L'.
    + destruct Ho as [_ Hi]. by exists L.
  - pose proof IH as (_ & _ & [_ Hx] & He & _). apply list.Forall_cons in Hx as [[b Hb] _].
    destruct (He p b Hb) as [l Hl].
    destruct (pbuf_free_inv custom_free_function s L ext p l IH Hl) as (s2 & E2 & _ & _ & Hi).
    rewrite E in E2. simplify_eq. by eexists.
  - destruct (pbuf_ref_inv s L ext p b IH Hp Hr) as [E2 Hi]. rewrite E in E2. simplify_eq. by exists L.
  - destruct (chain_nonempty _ _ _ Hh) as (l0 & z & zb & ->).
    destruct lt as [|[t' tb] lt]; [done|]. pose proof Ht as (Et & Htb & _). simplify_eq.
    destruct (tot_is_sum _ _ _ _ _ _ IH Htb Ht) as [Htot _].
    destruct (pbuf_cat_inv s L ext h t' l0 z zb tb _ IH Hh Hu Ht Htb Hd ltac:(lia)) as [E2 Hi].
    rewrite E in E2. simplify_eq. by exists L.
  - destruct (chain_nonempty _ _ _ Hh) as (l0 & z & zb & ->).
    destruct (tot_is_sum _ _ _ _ _ _ IH Htb Ht) as [Htot _].
    destruct (pbuf_chain_inv s L ext h t l0 z zb tb _ IH Hh Hu Ht Htb Hd ltac:(lia) Hr) as (s2 & E2 & Hi & _).
    rewrite E in E2. simplify_eq. by exists L.
  - pose proof IH as (_ & Hn & _ & He & _). destruct (Hn p b Hp) as (_ & _ & Hnx).
    rewrite Hq in Hnx. destruct Hnx as [qb Hqb]. destruct (He q qb Hqb) as [l Hl].
    destruct (pbuf_dechain_inv custom_free_function s L ext p b q l IH Hp Hq Hz Hl) as (s2 & E2 & Hi & _).
    rewrite E in E2. simplify_eq. by eexists.
  - destruct (pbuf_realloc_inv custom_free_function s L ext p l new_len IH Hc Hu Hn)
      as (l1 & z & zb & l2 & s2 & L' & _ & _ & _ & E2 & Hi & _).
    rewrite E in E2. simplify_eq. by eexists.
  - pose proof IH as (_ & Hn & _ & He & _). destruct (He p b Hp) as [l Hc].
    destruct (tot_is_sum _ _ _ _ _ _ IH Hp Hc) as [_ Hlt].
    destruct (Hn p b Hp) as ((_ & _ & Hlu & Htu & _) & _).
    rewrite (pbuf_header_eq s p b pay inc) in E by (done || lia).
    destruct (header_fits p b pay inc) eqn:Hfit; simplify_eq; [|by exists L].
    exists L. by apply (moved_inv s L ext p b pay inc).
Qed.
End histories.

(** ** The chains after an operation *)

(** What a reader of a chain sees of a pbuf. *)
Definition view (ab : ptr * pbuf) : ptr * option ptr * Z := (ab.1, payload ab.2, len ab.2).

Lemma lsum_view l l' : view <$> l = view <$> l' -> lsum l = lsum l'.
Proof.
  revert l'. induction l as [|[a b] l IH]; intros [|[a' b'] l'] E; simpl in E; simplify_eq; [done|].
  unfold lsum in *. simpl. rewrite (IH l') by done. unfold view in *. simpl in *. congruence.
Qed.

(** A chain seen through a map that keeps addresses, links and contents. *)
Lemma chain_view m m' l : forall q,
  chain m q l ->
  (forall a b, (a, b) ∈ l -> exists b', m' !! a = Some b' /\ next b' = next b /\
     payload b' = payload b /\ len b' = len b) ->
  exists l', chain m' q l' /\ view <$> l' = view <$> l.
Proof.
  induction l as [|[a b] l IH]; intros q Hc Hl; [by exists []|].
  destruct Hc as (-> & Ha & Hc). destruct (Hl a b ltac:(left)) as (b' & Hb' & Hn & Hp & Hlen).
  destruct (IH _ Hc) as (l' & Hc' & Hv); [intros; apply Hl; by right|].
  exists ((a, b') :: l'). split.
  - split; [done|]. split; [done|]. by rewrite Hn.
  - rewrite !fmap_cons, Hv. unfold view. simpl. by rewrite Hp, Hlen.
Qed.

Lemma cat_chain m l z zb t tb lt : forall q,
  chain m q (l ++ [(z, zb)]) -> chain m (Some t) lt ->
  (forall a, a ∈ (l ++ [(z, zb)]).*1 -> a ∉ lt.*1) ->
  exists l', chain (cat_map m l z zb t tb) q (l' ++ lt) /\ view <$> l' = view <$> (l ++ [(z, zb)]).
Proof.
  intros q0 Hc0 Ht Hd.
  assert (chain (cat_map m l z zb t tb) (Some t) lt) as Ht'.
  { eapply chain_ext; [|exact Ht]. intros a Ha. unfold cat_map.
    assert (a ∉ (l ++ [(z, zb)]).*1) as Hn by (intros H; by apply (Hd a H)).
    rewrite fmap_app in Hn. apply not_elem_of_app in Hn as [H1 H2].
    rewrite lookup_insert_ne; [by apply bump_lookup_ne|]. intros ->. apply H2. by left. }
  assert (forall k q, chain m q k -> k <> [] -> (exists k0, l ++ [(z, zb)] = k0 ++ k) ->
    exists k', chain (cat_map m l z zb t tb) q (k' ++ lt) /\ view <$> k' = view <$> k) as H.
  { induction k as [|[a b] k IH]; intros q Hc Hne [k0 Hk0]; [done|].
    destruct Hc as (-> & Ha & Hc).
    assert ((a, b) ∈ l ++ [(z, zb)]) as Hin.
    { rewrite Hk0. apply elem_of_app. right. by left. }
    destruct (cat_map_lookup m l z zb t tb q0 a b Hc0 Hin) as (b' & Hb' & Hlen & _ & Hn).
    assert (payload b' = payload b) as Hp.
    { unfold cat_map in Hb'. pose proof (chain_NoDup _ _ _ Hc0) as Hnd. rewrite fmap_app in Hnd.
      apply list.NoDup_app in Hnd as (Hnd & Hd' & _).
      apply elem_of_app in Hin as [Hin|Hin%list_elem_of_singleton].
      - rewrite lookup_insert_ne in Hb'.
        + rewrite (bump_lookup _ _ _ _ b) in Hb' by done. by simplify_eq.
        + intros ->. apply (Hd' a); [|by left]. apply list_elem_of_fmap. by exists (a, b).
      - simplify_eq. rewrite lookup_insert_eq in Hb'. by simplify_eq. }
    destruct k as [|[a2 b2] k].
    - simpl in Hc. rewrite Hc in Hn. exists [(a, b')]. split.
      + split; [done|]. split; [done|]. by rewrite Hn.
      + simpl. unfold view. simpl. by rewrite Hp, Hlen.
    - destruct (IH (next b) Hc ltac:(done)) as (k' & Hk' & Hv).
      { exists (k0 ++ [(a, b)]). by rewrite <- app_assoc. }
      exists ((a, b') :: k'). split.
      + split; [done|]. split; [done|]. destruct Hc as (E & _). rewrite Hn, E. rewrite <- E. rewrite E in Hk' |- *. exact Hk'.
      + rewrite !fmap_cons in *. rewrite Hv. unfold view. simpl. by rewrite Hp, Hlen. }
  apply H; [done|by destruct l|]. by exists [].
Qed.

(** The chain of the pbufs up to the cut. *)
Lemma cut_chain m p l1 z zb l2 d rem :
  chain m (Some p) (l1 ++ (z, zb) :: l2) ->
  exists l', chain (drop l2 (cut_map d rem l1 z zb m)) (Some p) (l' ++ [(z, cut_last rem zb)]) /\
    view <$> l' = view <$> l1.
Proof.
  intros Hc. pose proof (chain_NoDup _ _ _ Hc) as Hnd. rewrite fmap_app in Hnd.
  apply list.NoDup_app in Hnd as (Hnd1 & Hd & Hnd2). rewrite fmap_cons in Hnd2, Hd.
  apply list.NoDup_cons in Hnd2 as [Hz2 _]. simpl in Hz2, Hd.
  assert (forall q, q = Some z -> chain (drop l2 (cut_map d rem l1 z zb m)) q [(z, cut_last rem zb)]) as Hz.
  { intros q ->. split; [done|]. rewrite drop_lookup_ne by done. unfold cut_map.
    by rewrite lookup_insert_eq. }
  assert (forall a b, (a, b) ∈ l1 ->
    drop l2 (cut_map d rem l1 z zb m) !! a = Some (upd_tot (u16 (tot_len b + d)) b)) as Hl.
  { intros a b Hin. assert (a ∈ l1.*1) as Ha by (apply list_elem_of_fmap; by exists (a, b)).
    rewrite drop_lookup_ne by (intros H; apply (Hd a Ha); by right). unfold cut_map.
    rewrite lookup_insert_ne by (intros ->; apply (Hd a Ha); by left). by apply bump_lookup. }
  assert (forall k q, chain m q (k ++ (z, zb) :: l2) -> (forall a b, (a, b) ∈ k -> (a, b) ∈ l1) ->
    exists l', chain (drop l2 (cut_map d rem l1 z zb m)) q (l' ++ [(z, cut_last rem zb)]) /\
      view <$> l' = view <$> k) as H.
  { clear Hc. induction k as [|[a b] k IH]; intros q Hc Hin.
    - exists []. split; [|done]. apply Hz. by destruct Hc.
    - destruct Hc as (-> & _ & Hc).
      destruct (IH _ Hc) as (l' & Hl' & Hv); [intros; apply Hin; by right|].
      exists ((a, upd_tot (u16 (tot_len b + d)) b) :: l'). split.
      + split; [done|]. split; [apply Hl, Hin; by left|]. exact Hl'.
      + by rewrite !fmap_cons, Hv. }
  by apply H.
Qed.

(** pbuf_free by address. *)
Lemma drop_split l1 : forall l2 m,
  NoDup (l1 ++ l2).*1 -> (forall a b, (a, b) ∈ l1 -> ref b = 1) ->
  drop (l1 ++ l2) m = drop l2 (without m l1.*1).
Proof.
  induction l1 as [|[a b] l1 IH]; intros l2 m Hnd H1; [done|]. cbn [app drop].
  rewrite (H1 a b) by left. simpl Z.eqb. cbn iota. rewrite <- app_comm_cons, fmap_cons in Hnd.
  apply list.NoDup_cons in Hnd as [_ Hnd]. rewrite IH; [done|done|].
  intros x c Hx. apply (H1 x c). by right.
Qed.

(** The leading pbufs with one reference, and the rest. *)
Lemma lead_split l :
  exists l1 l2, l = l1 ++ l2 /\ lead l = l1.*1 /\ (forall a b, (a, b) ∈ l1 -> ref b = 1) /\
    match l2 with (_, b) :: _ => ref b <> 1 | [] => True end.
Proof.
  induction l as [|[a b] l (l1 & l2 & -> & El & H1 & H2)].
  - exists [], []. repeat split; try done. intros a b Hx%elem_of_nil. done.
  - cbn [lead]. destruct (Z.eqb_spec (ref b) 1) as [E|E].
    + exists ((a, b) :: l1), l2. split; [done|]. rewrite El. split; [done|]. split; [|done].
      intros x c [Ex|Hx]%elem_of_cons; [by simplify_eq|by apply (H1 x c)].
    + exists [], ((a, b) :: l1 ++ l2). split; [done|]. split; [done|]. split; [|done].
      intros x c Hx%elem_of_nil. done.
Qed.

Lemma without_lookup_in {V} l : forall (w : gmap ptr V) a, a ∈ l -> without w l !! a = None.
Proof.
  induction l as [|x l IH]; intros w a Ha; [by apply elem_of_nil in Ha|].
  unfold without in *. simpl. destruct (decide (a ∈ l)) as [Hl|Hl]; [by apply IH|].
  apply elem_of_cons in Ha as [->|Ha]; [|done].
  change (without (delete x w) l !! x = None). rewrite without_lookup_ne by done. apply lookup_delete_eq.
Qed.

(** ** Properties *)

(** The packet buffers at boot, over the allocators at boot. *)
Definition pboot : pstate allocators := PState ∅ ∅ allocators_boot false.

Definition zero_flags : ptr -> Z := fun _ => 0.

Definition no_custom : ptr -> option (M (pstate allocators) unit) := fun _ => None.

Lemma pboot_inv : pinv pboot ∅ [].
Proof.
  split; [exact allocators_boot_inv|]. split; [|split; [split|split]]; try (intros p b E; done).
  constructor.
Qed.

Lemma zero_flags_clean : clean_flags zero_flags.
Proof. intros p. reflexivity. Qed.

(** Pbuf_alloc on every type and layer, with the allocators working or
    exhausted: it returns, and gives either NULL, with every pbuf it had taken on
    the way given back, or a chain of fresh pbufs with one reference each whose
    lengths add up to the request, each in a block of its own that holds its
    data, with the room for the headers in front of the first payload. *)
Theorem pbuf_alloc_spec {A} `{AllocatorSpec A} stale custom (s : pstate A) L ext layer length t :
  clean_flags stale -> pinv s L ext -> 0 <= length < 65536 ->
  (t = PBUF_RAM -> length <= 65452) ->
  exists o s', pbuf_alloc stale custom layer length t s = Done (o, s') /\
    match o with
    | None => pbufs s' = pbufs s /\ pinv s' L ext
    | Some p =>
        exists l L', chain (pbufs s') (Some p) l /\ lsum l = length /\ tot_ok l /\
          without (pbufs s') l.*1 = pbufs s /\ without L' l.*1 = L /\ pinv s' L' (p :: ext) /\
          (forall a b, (a, b) ∈ l -> pbufs s !! a = None /\ type b = t /\ ref b = 1 /\ pbuf_ok L' a b) /\
          match t with
          | PBUF_RAM | PBUF_POOL =>
              exists b a, pbufs s' !! p = Some b /\ payload b = Some (p.1, a) /\
                p.2 + 24 + layer_offset layer <= a
          | _ => True
          end
    end.
Proof.
  intros Hc Hi Hlen Hram.
  destruct (pbuf_alloc_any stale custom s L ext layer length t Hc Hi Hlen Hram) as (o & s' & E & _ & Ho).
  exists o, s'. split; [done|]. destruct o as [p|]; [|done].
  destruct Ho as (l & L' & Hch & Hsum & Hw & HL & Hi' & Hl & Hroom). exists l, L'.
  split; [done|]. split; [done|]. pose proof Hi' as (_ & Hn & _ & _ & Ht).
  split; [by eapply tots_chain|]. split; [done|]. split; [done|]. split; [done|]. split; [|done].
  intros a b Hab. destruct (Hl a b Hab) as (H1 & H2 & H3). split; [done|]. split; [done|].
  split; [done|]. destruct (Hn a b) as (Hok & _); [by eapply chain_in|done].
Qed.

Lemma pbuf_alloc_spec_witness :
  exists o s', pbuf_alloc zero_flags no_custom PBUF_TRANSPORT 1000 PBUF_POOL pboot = Done (o, s') /\
    match o with
    | None => pbufs s' = ∅
    | Some p => exists l, chain (pbufs s') (Some p) l /\ lsum l = 1000
    end.
Proof.
  destruct (pbuf_alloc_spec zero_flags no_custom pboot ∅ [] PBUF_TRANSPORT 1000 PBUF_POOL
    zero_flags_clean pboot_inv ltac:(lia) ltac:(discriminate)) as (o & s' & E & Ho).
  exists o, s'. split; [exact E|]. destruct o as [p|].
  - destruct Ho as (l & L' & Hc & Hs & _). exists l. split; [exact Hc|exact Hs].
  - apply Ho.
Defined.

(** What a run shows: its result and the struct pbufs, in order of address. *)
Definition obs {B} (r : outcome (B * pstate allocators)) : option (B * list (ptr * pbuf)) :=
  match r with
  | Done (b, s) => Some (b, map_to_list (pbufs s))
  | Crash _ => None
  end.

Lemma obs_done {B} r (b : B) l :
  obs r = Some (b, l) -> exists s, r = Done (b, s) /\ pbufs s = list_to_map l.
Proof.
  destruct r as [[b' s]|c]; simpl; [|done]. intros E. simplify_eq. exists s. split; [done|].
  by rewrite list_to_map_to_list.
Qed.

(** One RAM pbuf of 10 bytes at boot, behind the header room of the link. *)
Lemma pboot_one :
  exists s L, pinv s L [(RHeap, 8)] /\
    pbufs s = list_to_map [((RHeap, 8), Pbuf None (Some (RHeap, 48)) 10 10 PBUF_RAM 0 1)].
Proof.
  destruct (pbuf_alloc_ram_ok no_custom zero_flags pboot ∅ [] PBUF_LINK 10 pboot_inv
    ltac:(unfold max_ram_length; lia)) as (o & s & E & _ & Ho).
  assert (obs (pbuf_alloc zero_flags no_custom PBUF_LINK 10 PBUF_RAM pboot) =
    Some (Some (RHeap, 8), [((RHeap, 8), Pbuf None (Some (RHeap, 48)) 10 10 PBUF_RAM 0 1)])) as Hc
    by (vm_compute; reflexivity).
  apply obs_done in Hc as (s' & E' & Hs). rewrite E in E'. simplify_eq.
  destruct Ho as (l & L & _ & _ & _ & _ & Hi & _). exists s', L. split; [done|]. by rewrite Hs.
Qed.

(** A second one, of 5 bytes, is the first to be concatenated to the other. *)
Lemma pboot_two :
  exists s L, pinv s L [(RHeap, 68); (RHeap, 8)] /\
    pbufs s = list_to_map
      [((RHeap, 68), Pbuf None (Some (RHeap, 92)) 5 5 PBUF_RAM 0 1);
       ((RHeap, 8), Pbuf None (Some (RHeap, 48)) 10 10 PBUF_RAM 0 1)].
Proof.
  destruct (pbuf_alloc_ram_ok no_custom zero_flags pboot ∅ [] PBUF_LINK 10 pboot_inv
    ltac:(unfold max_ram_length; lia)) as (o & s & E & _ & Ho).
  assert (exists s2, (a ← pbuf_alloc zero_flags no_custom PBUF_LINK 10 PBUF_RAM;
      b ← pbuf_alloc zero_flags no_custom PBUF_RAW 5 PBUF_RAM; mret (a, b)) pboot =
    Done ((Some (RHeap, 8), Some (RHeap, 68)), s2) /\ pbufs s2 = list_to_map
      [((RHeap, 68), Pbuf None (Some (RHeap, 92)) 5 5 PBUF_RAM 0 1);
       ((RHeap, 8), Pbuf None (Some (RHeap, 48)) 10 10 PBUF_RAM 0 1)]) as (s2 & E2 & Hs2).
  { apply obs_done. vm_compute. reflexivity. }
  rewrite (bind_done _ _ _ _ _ E) in E2.
  assert (o = Some (RHeap, 8)) as ->.
  { destruct (pbuf_alloc zero_flags no_custom PBUF_RAW 5 PBUF_RAM s) as [[b s3]|c] eqn:E3.
    - rewrite (bind_done _ _ _ _ _ E3) in E2. by injection E2.
    - unfold mbind, M_bind in E2. by rewrite E3 in E2. }
  destruct Ho as (l & L & _ & _ & _ & _ & Hi & _).
  destruct (pbuf_alloc_ram_ok no_custom zero_flags s L [(RHeap, 8)] PBUF_RAW 5 Hi
    ltac:(unfold max_ram_length; lia)) as (o' & s' & E' & _ & Ho').
  rewrite (bind_done _ _ _ _ _ E') in E2. injection E2 as -> ->.
  destruct Ho' as (l' & L' & _ & _ & _ & _ & Hi' & _). by exists s2, L'.
Qed.

Lemma zlen_fst {X Y} (l : list (X * Y)) : zlen l.*1 = zlen l.
Proof. unfold zlen. by rewrite length_fmap. Qed.

(** Pbufs without links. *)
Lemma unlinked (k : list (ptr * pbuf)) l :
  Forall (fun ab => next ab.2 = None) k -> unshared (list_to_map k) l.
Proof.
  intros Hk x c a Hx%elem_of_list_to_map_2 Hn.
  rewrite list.Forall_forall in Hk. apply Hk in Hx. simpl in Hx. congruence.
Qed.

(** Bytes of different pbufs are different. *)
Lemma payload_apart {A} `{AllocatorSpec A} (s : pstate A) L ext p q b c x y i j :
  pinv s L ext -> p <> q -> pbufs s !! p = Some b -> pbufs s !! q = Some c ->
  (type b = PBUF_RAM \/ type b = PBUF_POOL) -> (type c = PBUF_RAM \/ type c = PBUF_POOL) ->
  payload b = Some x -> payload c = Some y -> 0 <= i < len b -> 0 <= j < len c ->
  padd x i <> padd y j.
Proof.
  intros (Hal & Hn & _) Hpq Hp Hq Tb Tc Px Py Hi Hj.
  destruct (Hn p b Hp) as ((_ & _ & _ & _ & n & Ln & Pn) & _).
  destruct (Hn q c Hq) as ((_ & _ & _ & _ & k & Lk & Pk) & _).
  unfold payload_ok in Pn, Pk.
  assert (exists a, x = (p.1, a) /\ p.2 <= a /\ a + len b <= p.2 + n) as (a & -> & Ha).
  { destruct Tb as [E|E]; rewrite E in Pn; destruct Pn as (a & E' & H1 & H2); simplify_eq;
      exists a; unfold SIZEOF_STRUCT_PBUF in H1; change (LWIP_MEM_ALIGN_SIZE 24) with 24 in H1;
      (split; [congruence|lia]). }
  assert (exists a, y = (q.1, a) /\ q.2 <= a /\ a + len c <= q.2 + k) as (e & -> & He).
  { destruct Tc as [E|E]; rewrite E in Pk; destruct Pk as (e & E' & H1 & H2); simplify_eq;
      exists e; unfold SIZEOF_STRUCT_PBUF in H1; change (LWIP_MEM_ALIGN_SIZE 24) with 24 in H1;
      (split; [congruence|lia]). }
  destruct p as [r a1], q as [r' a2]. unfold padd. cbn [fst snd] in *. intros E. simplify_eq.
  assert (a1 <> a2) as Hne by congruence.
  destruct (Z.lt_total a1 a2) as [Hlt|[Heq|Hlt]]; [|done|].
  - pose proof (al_disjoint _ _ _ _ _ _ _ _ _ Hal Ln Lk Hlt). lia.
  - pose proof (al_disjoint _ _ _ _ _ _ _ _ _ Hal Lk Ln Hlt). lia.
Qed.

(** C1: In every history of a client that respects the documented rules, whatever
    chains it builds, shares, cuts and frees: each pbuf's reference count is the
    number of links and outside pointers to it, each chain ends and its tot_len is
    the sum of its lengths, pbuf_clen counts it, every pbuf lies in a live block
    with its data inside and the data of two pbufs never overlap; and giving up a
    held reference always succeeds, so no block is freed twice. *)
Theorem pbuf_history_safe {A} `{AllocatorSpec A} stale custom (s0 s : pstate A) ext :
  clean_flags stale -> (exists L, pinv s0 L []) -> history stale custom s0 s ext ->
  exists L, al_inv (palloc s) L /\
    (forall p b, pbufs s !! p = Some b ->
      0 < ref b /\ ref b = nrefs (pbufs s) p + held p ext /\
      (exists l, chain (pbufs s) (Some p) l /\ tot_len b = lsum l /\
         pbuf_clen (Some p) s = Done (u8 (zlen l), s)) /\
      exists n, L !! p = Some ((home b).2, n) /\ payload_ok p n b) /\
    (forall p q b c x y i j, p <> q -> pbufs s !! p = Some b -> pbufs s !! q = Some c ->
       (type b = PBUF_RAM \/ type b = PBUF_POOL) -> (type c = PBUF_RAM \/ type c = PBUF_POOL) ->
       payload b = Some x -> payload c = Some y -> 0 <= i < len b -> 0 <= j < len c ->
       padd x i <> padd y j) /\
    (forall p, p ∈ ext -> exists n s', pbuf_free custom (Some p) s = Done (n, s')).
Proof.
  intros Hc Hs Hh. destruct (history_pinv _ _ _ _ _ Hc Hs Hh) as [L Hi]. exists L.
  pose proof Hi as (Hal & Hn & [Hr Hx] & He & Ht). split; [done|]. split; [|split].
  - intros p b Hp. destruct (Hn p b Hp) as ((_ & _ & _ & _ & Hb) & Hr0 & _).
    split; [lia|]. split; [by apply Hr|]. split; [|done].
    destruct (He p b Hp) as [l Hl]. exists l. split; [done|].
    split; [by apply (tot_is_sum _ _ _ _ _ _ Hi Hp Hl)|]. by apply pbuf_clen_ok.
  - intros. by eapply payload_apart.
  - intros p Hp. apply elem_of_Permutation in Hp as [ext' Hp].
    apply (pinv_perm _ _ _ _ Hp) in Hi. pose proof Hi as (_ & _ & [_ Hx'] & _).
    apply list.Forall_cons in Hx' as [[b Hb] _]. destruct (He p b Hb) as [l Hl].
    destruct (pbuf_free_inv custom s L ext' p l Hi Hl) as (s' & E & _). eauto.
Qed.

Lemma pbuf_history_safe_witness :
  exists s ext, history zero_flags no_custom pboot s ext /\
    forall p, p ∈ ext -> exists n s', pbuf_free no_custom (Some p) s = Done (n, s').
Proof.
  destruct (pbuf_alloc_any zero_flags no_custom pboot ∅ [] PBUF_IP 700 PBUF_POOL
    zero_flags_clean pboot_inv ltac:(lia) ltac:(discriminate)) as (o & s & E & _).
  assert (history zero_flags no_custom pboot s (opt_cons o [])) as Hh.
  { eapply h_alloc; [apply h_start| | |exact E]; [lia|discriminate]. }
  exists s, (opt_cons o []). split; [exact Hh|].
  destruct (pbuf_history_safe zero_flags no_custom pboot s (opt_cons o []) zero_flags_clean
    (ex_intro (fun L => pinv pboot L []) ∅ pboot_inv) Hh) as (L & _ & _ & _ & Hf).
  exact Hf.
Defined.

(** C33: pbuf_free takes one reference from the first pbuf: it frees the leading
    pbufs of the chain that had only one, stops at the first pbuf with more, which
    loses one, leaves every other pbuf alone, and returns how many it freed, as an
    8-bit number. *)
Theorem pbuf_free_spec {A} `{AllocatorSpec A} custom (s : pstate A) L ext p l :
  pinv s L (p :: ext) -> chain (pbufs s) (Some p) l ->
  exists l1 l2 s', l = l1 ++ l2 /\ (forall a b, (a, b) ∈ l1 -> ref b = 1) /\
    pbuf_free custom (Some p) s = Done (u8 (zlen l1), s') /\
    pinv s' (without L l1.*1) ext /\
    match l2 with
    | [] => pbufs s' = without (pbufs s) l1.*1
    | (z, zb) :: _ => 1 < ref zb /\
        pbufs s' = <[z := upd_ref (ref zb - 1) zb]> (without (pbufs s) l1.*1)
    end.
Proof.
  intros Hi Hc. destruct (pbuf_free_inv custom s L ext p l Hi Hc) as (s' & E & Hs & _ & Hi').
  destruct (lead_split l) as (l1 & l2 & -> & Hl & H1 & H2).
  exists l1, l2, s'. split; [done|]. split; [done|]. rewrite Hl in *.
  split; [rewrite E; by rewrite zlen_fst|]. rewrite release_without in Hi'. split; [done|].
  rewrite drop_split in Hs; [|by eapply chain_NoDup|done].
  destruct l2 as [|[z zb] l2]; [done|]. cbn [drop] in Hs.
  destruct (pinv_nodes _ _ _ _ _ z zb Hi Hc) as [_ Hr]; [apply elem_of_app; right; left|].
  rewrite (proj2 (Z.eqb_neq _ _) H2) in Hs. split; [lia|done].
Qed.

Lemma pbuf_free_spec_witness :
  exists s s' : pstate allocators, pbufs s <> ∅ /\
    pbuf_free no_custom (Some (RHeap, 8)) s = Done (1, s') /\ pbufs s' = ∅.
Proof.
  destruct pboot_one as (s & L & Hi & Hs).
  destruct (pbuf_free_spec no_custom s L [] (RHeap, 8)
    [((RHeap, 8), Pbuf None (Some (RHeap, 48)) 10 10 PBUF_RAM 0 1)] Hi) as (l1 & l2 & s' & El & Hl1 & E & _ & Hr).
  { rewrite Hs. split; [reflexivity|]. split; reflexivity. }
  exists s, s'. rewrite Hs in *. split; [intros E0; apply (f_equal (lookup (RHeap, 8))) in E0; discriminate|].
  destruct l1 as [|[a b] l1]; [simpl in El; subst l2; destruct Hr as [Hr _]; simpl in Hr; lia|].
  injection El as <- <- El. symmetry in El. apply app_eq_nil in El as [? ?]. subst l1 l2.
  split; [exact E|]. rewrite Hr. reflexivity.
Defined.

(** Pbuf_cat appends: the pbufs of the first chain keep their data and
    order, the second chain follows unchanged, every tot_len is adjusted, and the
    caller's reference to the tail is now the head's. *)
Theorem pbuf_cat_concat {A} `{AllocatorSpec A} (s : pstate A) L ext h t lh lt :
  pinv s L (t :: ext) -> chain (pbufs s) (Some h) lh -> unshared (pbufs s) lh ->
  chain (pbufs s) (Some t) lt -> (forall a, a ∈ lh.*1 -> a ∉ lt.*1) ->
  lsum lh + lsum lt < 65536 ->
  exists s' l', pbuf_cat (Some h) (Some t) s = Done (tt, s') /\ pinv s' L ext /\
    chain (pbufs s') (Some h) (l' ++ lt) /\ view <$> l' = view <$> lh /\
    tot_ok (l' ++ lt) /\ lsum (l' ++ lt) = lsum lh + lsum lt.
Proof.
  intros Hi Hh Hu Ht Hd Hs. destruct (chain_nonempty _ _ _ Hh) as (l & z & zb & ->).
  destruct lt as [|[t' tb] lt]; [done|]. pose proof Ht as (Et & Htb & _). simplify_eq.
  destruct (tot_is_sum _ _ _ _ _ _ Hi Htb Ht) as [Htot _].
  destruct (pbuf_cat_inv s L ext h t' l z zb tb _ Hi Hh Hu Ht Htb Hd ltac:(lia)) as [E Hi'].
  destruct (cat_chain _ l z zb t' tb _ _ Hh Ht Hd) as (l' & Hc & Hv).
  exists (cat_state s l z zb t' tb), l'. split; [done|]. split; [done|]. split; [done|].
  split; [done|]. pose proof Hi' as (_ & _ & _ & _ & Htots).
  split; [by eapply tots_chain|]. by rewrite lsum_app, (lsum_view _ _ Hv).
Qed.

Lemma pbuf_cat_concat_witness :
  exists (s s' : pstate allocators) l, pbuf_cat (Some (RHeap, 8)) (Some (RHeap, 68)) s = Done (tt, s') /\
    chain (pbufs s') (Some (RHeap, 8)) l /\ lsum l = 15.
Proof.
  destruct pboot_two as (s & L & Hi & Hs).
  pose (b1 := Pbuf None (Some (RHeap, 48)) 10 10 PBUF_RAM 0 1).
  pose (b2 := Pbuf None (Some (RHeap, 92)) 5 5 PBUF_RAM 0 1).
  destruct (pbuf_cat_concat s L [(RHeap, 8)] (RHeap, 8) (RHeap, 68) [((RHeap, 8), b1)] [((RHeap, 68), b2)] Hi)
    as (s' & l' & E & _ & Hc & _ & _ & Hsum).
  - rewrite Hs. split; [reflexivity|]. split; reflexivity.
  - rewrite Hs. apply unlinked. repeat constructor.
  - rewrite Hs. split; [reflexivity|]. split; reflexivity.
  - intros a [->|Ha%elem_of_nil]%elem_of_cons; [|done]. apply not_elem_of_cons. split; [done|apply not_elem_of_nil].
  - simpl. lia.
  - exists s, s', (l' ++ [((RHeap, 68), b2)]). split; [exact E|]. split; [exact Hc|exact Hsum].
Defined.

(** Pbuf_realloc to a length that is not shorter changes nothing; to a
    shorter one it cuts the chain: the pbufs before the cut keep their data, the
    one that contains the new end is shortened to it, the rest is given up, and
    the chain is new_len bytes long with every tot_len right. *)
Theorem pbuf_realloc_cuts {A} `{AllocatorSpec A} custom (s : pstate A) L ext p l new_len :
  pinv s L ext -> chain (pbufs s) (Some p) l -> unshared (pbufs s) l -> 0 <= new_len ->
  if lsum l <=? new_len then pbuf_realloc custom p new_len s = Done (tt, s)
  else exists s' L' l' l1 z zb l2, pbuf_realloc custom p new_len s = Done (tt, s') /\
    pinv s' L' ext /\ chain (pbufs s') (Some p) l' /\ lsum l' = new_len /\ tot_ok l' /\
    l = l1 ++ (z, zb) :: l2 /\
    view <$> l' = (view <$> l1) ++ [(z, payload zb, new_len - lsum l1)].
Proof.
  intros Hi Hc Hu Hn. destruct (Z.leb_spec (lsum l) new_len) as [Hle|Hlt].
  - destruct l as [|[p' b] l]; [done|]. pose proof Hc as (E & Hb & _). simplify_eq.
    destruct (tot_is_sum _ _ _ _ _ _ Hi Hb Hc) as [Ht _]. unfold pbuf_realloc.
    rewrite (rdp_bind _ _ b) by done. by rewrite (proj2 (Z.leb_le _ _)) by lia.
  - destruct (pbuf_realloc_inv custom s L ext p l new_len Hi Hc Hu ltac:(lia))
      as (l1 & z & zb & l2 & s' & L' & -> & Hr & _ & E & Hi' & _ & Hs').
    destruct (cut_chain (pbufs s) p l1 z zb l2 (u16 (new_len - lsum (l1 ++ (z, zb) :: l2)))
      (new_len - lsum l1) Hc) as (l' & Hc' & Hv). rewrite <- Hs' in Hc'.
    exists s', (release L' (lead l2)), (l' ++ [(z, cut_last (new_len - lsum l1) zb)]), l1, z, zb, l2.
    split; [done|]. split; [done|]. split; [done|]. pose proof Hi' as (_ & _ & _ & _ & Htots).
    split; [|split; [by eapply tots_chain|split; [done|]]].
    + rewrite lsum_app, (lsum_view _ _ Hv). unfold lsum at 2. simpl. lia.
    + by rewrite fmap_app, Hv.
Qed.

Lemma pbuf_realloc_cuts_witness :
  exists (s s' : pstate allocators) l, pbuf_realloc no_custom (RHeap, 8) 4 s = Done (tt, s') /\
    chain (pbufs s') (Some (RHeap, 8)) l /\ lsum l = 4.
Proof.
  destruct pboot_one as (s & L & Hi & Hs).
  pose (b1 := Pbuf None (Some (RHeap, 48)) 10 10 PBUF_RAM 0 1).
  destruct (pbuf_realloc_cuts no_custom s L [(RHeap, 8)] (RHeap, 8) [((RHeap, 8), b1)] 4 Hi)
    as (s' & L' & l' & _ & _ & _ & _ & E & _ & Hc & Hsum & _).
  - rewrite Hs. split; [reflexivity|]. split; reflexivity.
  - rewrite Hs. apply unlinked. repeat constructor.
  - lia.
  - exists s, s', l'. split; [exact E|]. split; [exact Hc|exact Hsum].
Defined.

(** Pbuf_header moves the payload pointer by the header when the memory in
    front of it belongs to the pbuf (and refuses otherwise, touching nothing):
    both lengths follow, the invariant stays, and the opposite call undoes it. *)
Theorem pbuf_header_spec {A} `{AllocatorSpec A} (s : pstate A) L ext p b pay inc :
  pinv s L ext -> pbufs s !! p = Some b -> payload b = Some pay -> nrefs (pbufs s) p = 0 ->
  inc <> 0 -> -32767 <= inc <= 32767 -> - inc <= len b ->
  len b + inc < 65536 -> tot_len b + inc < 65536 ->
  if header_fits p b pay inc then
    exists s', pbuf_header (Some p) inc s = Done (0, s') /\ pinv s' L ext /\
      pbufs s' = <[p := moved b pay inc]> (pbufs s) /\
      (type b = PBUF_RAM \/ type b = PBUF_POOL -> pbuf_header (Some p) (- inc) s' = Done (0, s))
  else pbuf_header (Some p) inc s = Done (1, s).
Proof.
  intros Hi Hp Hpay Hz Hi0 Hir Hl Hm Ht. pose proof Hi as (_ & Hn & _ & He & _).
  destruct (He p b Hp) as [l Hc]. destruct (tot_is_sum _ _ _ _ _ _ Hi Hp Hc) as [_ Hlt].
  destruct (Hn p b Hp) as ((_ & _ & Hlu & Htu & n & _ & Hpl) & _).
  pose proof (pbuf_header_eq s p b pay inc Hp Hpay Hlu Htu Hi0 ltac:(lia) ltac:(lia) Hm Ht) as E.
  destruct (header_fits p b pay inc) eqn:Hfit; [|done].
  eexists. split; [exact E|]. split; [by apply moved_inv|]. split; [done|].
  intros Hty. unfold is_u16 in *.
  rewrite (pbuf_header_eq _ p (moved b pay inc) (padd pay (- inc)) (- inc)); simpl; try lia.
  - assert (header_fits p (moved b pay inc) (padd pay (- inc)) (- inc) = true) as ->.
    { unfold header_fits, moved, payload_ok in *. simpl. destruct Hty as [E1|E1]; rewrite E1 in *;
        destruct Hpl as (a & E2 & H1 & _); simplify_eq; simpl; lia. }
    do 2 f_equal. destruct s as [pb pd pa po]. unfold set_pbufs in *. simpl in *. f_equal.
    rewrite insert_insert_eq. apply insert_id. rewrite Hp. f_equal. destruct b as [nx py tl ln ty fl rf].
    unfold moved, upd_payload, upd_tot, upd_len, padd. simpl in *. simplify_eq. destruct pay as [r a]. simpl.
    repeat f_equal; lia.
  - unfold set_pbufs. simpl. apply lookup_insert_eq.
  - done.
  - unfold is_u16. lia.
  - unfold is_u16. lia.
Qed.

Lemma pbuf_header_spec_witness :
  exists s s' : pstate allocators, pbuf_header (Some (RHeap, 8)) 14 s = Done (0, s') /\
    pbuf_header (Some (RHeap, 8)) (-14) s' = Done (0, s).
Proof.
  destruct pboot_one as (s & L & Hi & Hs).
  destruct (pbuf_header_spec s L [(RHeap, 8)] (RHeap, 8)
    (Pbuf None (Some (RHeap, 48)) 10 10 PBUF_RAM 0 1) (RHeap, 48) 14 Hi) as (s' & E & _ & _ & U);
    try (rewrite Hs; reflexivity); try reflexivity; simpl; try lia.
  exists s, s'. split; [exact E|]. apply U. left. reflexivity.
Defined.

(** pbuf_alloc of a PBUF_RAM computes the size of the block in 16 bits: a
    request of 65535 bytes succeeds with a block of 24 bytes, no room for any data
    at all. *)
Theorem pbuf_alloc_ram_wraps :
  exists s : pstate allocators,
    pbuf_alloc zero_flags no_custom PBUF_RAW 65535 PBUF_RAM pboot = Done (Some (RHeap, 8), s) /\
    len <$> pbufs s !! (RHeap, 8) = Some 65535 /\
    MemHeap.next <$> MemHeap.ram (palloc s).1 !! 0 = Some 32.
Proof.
  assert (forall r, (match r : outcome (option ptr * pstate allocators) with
          | Done (o, s) => Some (o, len <$> pbufs s !! (RHeap, 8), MemHeap.next <$> MemHeap.ram (palloc s).1 !! 0)
          | Crash _ => None
          end) = Some (Some (RHeap, 8), Some 65535, Some 32) ->
    exists s, r = Done (Some (RHeap, 8), s) /\ len <$> pbufs s !! (RHeap, 8) = Some 65535 /\
      MemHeap.next <$> MemHeap.ram (palloc s).1 !! 0 = Some 32) as H.
  { intros [[o s]|c] E; simplify_eq. by exists s. }
  apply H. vm_compute. reflexivity.
Qed.
