(* ===== verification/PbufData.v ===== *)
(** * The contents of packet buffers

    The operations of core/pbuf.c on the data of a chain: pbuf_copy,
    pbuf_copy_partial, pbuf_take, pbuf_coalesce, pbuf_get_at, pbuf_memcmp,
    pbuf_memfind and pbuf_strstr.  The buffers of the application are pointers
    into the same memory. *)

From S2P Require Import Prelude Alloc Pbuf AllocImpl PbufSpec.

(** err_t *)
Definition ERR_OK : Z := 0.

Definition ERR_MEM : Z := -1.

Definition ERR_BUF : Z := -2.

Definition ERR_RTE : Z := -4.

Definition ERR_ARG : Z := -14.

(** ** Memory *)

Section memory.
Context {A : Type}.

Definition set_pdata (f : gmap ptr Z -> gmap ptr Z) (s : pstate A) : pstate A :=
  PState (pbufs s) (f (pdata s)) (palloc s) (pbuf_free_ooseq_pending s).

Definition rdb (a : ptr) : M (pstate A) Z := s ← get; deref (pdata s !! a).

Definition wrb (a : ptr) (b : Z) : M (pstate A) unit := modify (set_pdata (insert a b)).

Fixpoint memcpy (dst src : ptr) (n : nat) : M (pstate A) unit :=
  match n with
  | O => mret tt
  | S n => b ← rdb src; wrb dst b;; memcpy (padd dst 1) (padd src 1) n
  end.

(** strlen; the string is in the memory, so it is shorter than all of it. *)
Fixpoint strlen_loop (fuel : nat) (a : ptr) (n : Z) : M (pstate A) Z :=
  match fuel with
  | O => fail OutOfFuel
  | S fuel => b ← rdb a; if b =? 0 then mret n else strlen_loop fuel (padd a 1) (n + 1)
  end.

Definition strlen (a : ptr) : M (pstate A) Z :=
  s ← get; strlen_loop (S (size (pdata s))) a 0.
End memory.

(** ** Operations *)

Section operations.
Context {A : Type} `{Allocator A}.
Context (stale_flags : ptr -> Z).
Context (custom_free_function : ptr -> option (M (pstate A) unit)).

(** One of the two checks against packet queues at the end of pbuf_copy's loop. *)
Definition no_queue (p : option ptr) : M (pstate A) unit :=
  match p with
  | None => mret tt
  | Some p =>
      b ← rdp p;
      if len b =? tot_len b
      then lwip_assert (match next b with None => true | Some _ => false end)
      else mret tt
  end.

(** Each round finishes a pbuf of one of the two chains. *)
Fixpoint copy_loop (fuel : nat) (p_to p_from : ptr) (offset_to offset_from : Z)
    : M (pstate A) Z :=
  match fuel with
  | O => fail OutOfFuel
  | S fuel =>
      to ← rdp p_to;
      from ← rdp p_from;
      let n := if len from - offset_from <=? len to - offset_to
               then u16 (len from - offset_from) else u16 (len to - offset_to) in
      pt ← deref (payload to);
      pf ← deref (payload from);
      memcpy (padd pt offset_to) (padd pf offset_from) (Z.to_nat n);;
      let offset_to := u16 (offset_to + n) in
      let offset_from := u16 (offset_from + n) in
      lwip_assert (offset_to <=? len to);;
      lwip_assert (offset_from <=? len from);;
      let '(p_from, offset_from) :=
        if len from <=? offset_from then (next from, 0) else (Some p_from, offset_from) in
      let '(p_to, offset_to) :=
        if offset_to =? len to then (next to, 0) else (Some p_to, offset_to) in
      lwip_assert (match p_to, p_from with None, Some _ => false | _, _ => true end);;
      no_queue p_from;;
      no_queue p_to;;
      match p_from, p_to with
      | None, _ => mret ERR_OK
      | Some p_from, Some p_to => copy_loop fuel p_to p_from offset_to offset_from
      | Some _, None => fail Undefined
      end
  end.

Definition pbuf_copy (p_to p_from : option ptr) : M (pstate A) Z :=
  match p_to, p_from with
  | Some p_to, Some p_from =>
      to ← rdp p_to;
      from ← rdp p_from;
      lwip_assert (tot_len from <=? tot_len to);;
      s ← get;
      copy_loop (pbuf_fuel s + pbuf_fuel s) p_to p_from 0 0
  | _, _ => fail AssertFailed
  end.

Fixpoint copy_partial_loop (fuel : nat) (p : option ptr) (dataptr : ptr)
    (n offset left copied_total : Z) : M (pstate A) Z :=
  match p with
  | None => mret copied_total
  | Some p =>
      if n =? 0 then mret copied_total
      else
        match fuel with
        | O => fail OutOfFuel
        | S fuel =>
            b ← rdp p;
            if negb (offset =? 0) && (len b <=? offset) then
              copy_partial_loop fuel (next b) dataptr n (u16 (offset - len b)) left copied_total
            else
              let buf_copy_len := u16 (len b - offset) in
              let buf_copy_len := if n <? buf_copy_len then n else buf_copy_len in
              pay ← deref (payload b);
              memcpy (padd dataptr left) (padd pay offset) (Z.to_nat buf_copy_len);;
              copy_partial_loop fuel (next b) dataptr (u16 (n - buf_copy_len)) 0
                (u16 (left + buf_copy_len)) (u16 (copied_total + buf_copy_len))
        end
  end.

Definition pbuf_copy_partial (buf dataptr : option ptr) (n offset : Z) : M (pstate A) Z :=
  match buf, dataptr with
  | Some buf, Some dataptr =>
      s ← get; copy_partial_loop (pbuf_fuel s) (Some buf) dataptr n offset 0 0
  | _, _ => fail AssertFailed
  end.

Fixpoint take_loop (fuel : nat) (p : option ptr) (dataptr : ptr) (n total_copy_len copied_total : Z)
    : M (pstate A) Z :=
  if total_copy_len =? 0 then
    lwip_assert (copied_total =? n);;
    mret ERR_OK
  else
    match p with
    | None => fail AssertFailed
    | Some p =>
        match fuel with
        | O => fail OutOfFuel
        | S fuel =>
            b ← rdp p;
            let buf_copy_len := if len b <? total_copy_len then len b else total_copy_len in
            pay ← deref (payload b);
            memcpy pay (padd dataptr copied_total) (Z.to_nat buf_copy_len);;
            take_loop fuel (next b) dataptr n (u16 (total_copy_len - buf_copy_len))
              (u16 (copied_total + buf_copy_len))
        end
    end.

Definition pbuf_take (buf dataptr : option ptr) (n : Z) : M (pstate A) Z :=
  match buf, dataptr with
  | Some buf, Some dataptr =>
      b ← rdp buf;
      if tot_len b <? n then mret ERR_ARG
      else s ← get; take_loop (pbuf_fuel s) (Some buf) dataptr n n 0
  | _, _ => fail AssertFailed
  end.

Definition pbuf_coalesce (p : ptr) (layer : pbuf_layer) : M (pstate A) ptr :=
  b ← rdp p;
  match next b with
  | None => mret p
  | Some _ =>
      q ← pbuf_alloc stale_flags custom_free_function layer (tot_len b) PBUF_RAM;
      match q with
      | None => mret p
      | Some q =>
          err ← pbuf_copy (Some q) (Some p);
          lwip_assert (err =? ERR_OK);;
          pbuf_free custom_free_function (Some p);;
          mret q
      end
  end.

(** The first loop of pbuf_get_at and of pbuf_memcmp. *)
Fixpoint seek (fuel : nat) (q : option ptr) (off : Z) : M (pstate A) (option ptr * Z) :=
  match q with
  | None => mret (None, off)
  | Some p =>
      b ← rdp p;
      if len b <=? off then
        match fuel with
        | O => fail OutOfFuel
        | S fuel => seek fuel (next b) (u16 (off - len b))
        end
      else mret (Some p, off)
  end.

Definition pbuf_get_at (p : option ptr) (offset : Z) : M (pstate A) Z :=
  s ← get;
  qo ← seek (pbuf_fuel s) p offset;
  match qo with
  | (Some q, copy_from) => b ← rdp q; pay ← deref (payload b); rdb (padd pay copy_from)
  | (None, _) => mret 0
  end.

(** [k] bytes are left to compare, the next is number [i]. *)
Fixpoint memcmp_loop (k : nat) (q : ptr) (start : Z) (s2 : ptr) (i : Z) : M (pstate A) Z :=
  match k with
  | O => mret 0
  | S k =>
      a ← pbuf_get_at (Some q) (u16 (start + i));
      b ← rdb (padd s2 i);
      if a =? b then memcmp_loop k q start s2 (i + 1) else mret (u16 (i + 1))
  end.

Definition pbuf_memcmp (p : option ptr) (offset : Z) (s2 : ptr) (n : Z) : M (pstate A) Z :=
  s ← get;
  qs ← seek (pbuf_fuel s) p offset;
  match qs with
  | (Some q, start) => memcmp_loop (Z.to_nat n) q start s2 0
  | (None, _) => mret 0xffff
  end.

Fixpoint memfind_loop (fuel : nat) (p : ptr) (mem : ptr) (mem_len max i : Z) : M (pstate A) Z :=
  if i <=? max then
    match fuel with
    | O => fail OutOfFuel
    | S fuel =>
        plus ← pbuf_memcmp (Some p) i mem mem_len;
        if plus =? 0 then mret i else memfind_loop fuel p mem mem_len max (u16 (i + plus))
    end
  else mret 0xFFFF.

(** The index is a u16_t that grows. *)
Definition memfind_fuel : nat := Z.to_nat 65537.

Definition pbuf_memfind (p : ptr) (mem : ptr) (mem_len start_offset : Z) : M (pstate A) Z :=
  b ← rdp p;
  let max := u16 (tot_len b - mem_len) in
  if mem_len + start_offset <=? tot_len b
  then memfind_loop memfind_fuel p mem mem_len max start_offset
  else mret 0xFFFF.

Definition pbuf_strstr (p : ptr) (substr : option ptr) : M (pstate A) Z :=
  match substr with
  | None => mret 0xFFFF
  | Some substr =>
      c ← rdb substr;
      if c =? 0 then mret 0xFFFF
      else
        b ← rdp p;
        if tot_len b =? 0xFFFF then mret 0xFFFF
        else
          substr_len ← strlen substr;
          if 0xFFFF <=? substr_len then mret 0xFFFF
          else pbuf_memfind p substr (u16 substr_len) 0
  end.
End operations.

(** ** The bytes of a chain *)

(** [n] addresses from [x] on. *)
Fixpoint range (x : ptr) (n : nat) : list ptr :=
  match n with O => [] | S n => x :: range (padd x 1) n end.

(** The addresses of the bytes of a chain, in order. *)
Fixpoint addrs (l : list (ptr * pbuf)) : list ptr :=
  match l with
  | [] => []
  | (_, b) :: l =>
      match payload b with Some x => range x (Z.to_nat (len b)) | None => [] end ++ addrs l
  end.

(** Every pbuf of the chain has a payload pointer. *)
Definition pays (l : list (ptr * pbuf)) : Prop :=
  Forall (fun ab => is_Some (payload ab.2) /\ is_u16 (len ab.2) /\ is_u16 (tot_len ab.2)) l.

(** The memory [D] holds the bytes [bs] at the addresses [l]. *)
Definition holds (D : gmap ptr Z) (l : list ptr) (bs : bytes) : Prop :=
  Forall2 (fun a b => D !! a = Some b) l bs.

Fixpoint store (l : list ptr) (bs : bytes) (D : gmap ptr Z) : gmap ptr Z :=
  match l, bs with
  | a :: l, b :: bs => store l bs (<[a := b]> D)
  | _, _ => D
  end.

Lemma range_length n : forall x, length (range x n) = n.
Proof. induction n; intros; simpl; auto. Qed.

Lemma padd_0 x : padd x 0 = x.
Proof. destruct x. unfold padd. simpl. by rewrite Z.add_0_r. Qed.

Lemma padd_padd x i j : padd (padd x i) j = padd x (i + j).
Proof. unfold padd. simpl. by rewrite Z.add_assoc. Qed.

Lemma range_add n : forall x k, range x (n + k) = range x n ++ range (padd x (Z.of_nat n)) k.
Proof.
  induction n as [|n IH]; intros x k; simpl; [by rewrite padd_0|].
  rewrite IH, padd_padd. do 4 f_equal. lia.
Qed.

Lemma range_drop n : forall x k, (k <= n)%nat ->
  list.drop k (range x n) = range (padd x (Z.of_nat k)) (n - k).
Proof.
  intros x k Hk. replace n with (k + (n - k))%nat at 1 by lia. rewrite range_add.
  by rewrite drop_app_length' by (by rewrite range_length).
Qed.

Lemma range_take n x k : (k <= n)%nat -> take k (range x n) = range x k.
Proof.
  intros Hk. replace n with (k + (n - k))%nat by lia. rewrite range_add.
  by rewrite take_app_length' by (by rewrite range_length).
Qed.

Lemma range_in n : forall x a, a ∈ range x n <-> exists i, a = padd x i /\ 0 <= i < Z.of_nat n.
Proof.
  induction n as [|n IH]; intros x a; simpl.
  - split; [by intros ?%elem_of_nil|intros (i & _ & ?); lia].
  - rewrite elem_of_cons, IH. split.
    + intros [->|(i & -> & Hi)]; [exists 0|exists (1 + i)]; rewrite ?padd_0, ?padd_padd; (split; [done|lia]).
    + intros (i & -> & Hi). destruct (decide (i = 0)) as [->|Hn]; [left; apply padd_0|right].
      exists (i - 1). rewrite padd_padd. split; [f_equal; lia|lia].
Qed.

Lemma range_NoDup n : forall x, NoDup (range x n).
Proof.
  induction n as [|n IH]; intros x; simpl; [constructor|]. constructor; [|done].
  rewrite range_in. intros (i & E & Hi). rewrite padd_padd in E. destruct x. unfold padd in E.
  simpl in E. injection E. lia.
Qed.

Lemma addrs_length l : pays l -> zlen (addrs l) = lsum l.
Proof.
  induction l as [|[a b] l IH]; intros H; [done|]. apply list.Forall_cons in H as [([x Hx] & Hl & _) H].
  cbn [fst snd] in Hx, Hl. cbn [addrs]. rewrite Hx, zlen_app, IH by done. unfold zlen, lsum at 2.
  rewrite range_length. simpl. unfold lsum, is_u16 in *. lia.
Qed.

(** Constant data is outside of the heap and the pools. *)
Definition outside (ab : ptr * pbuf) : Prop :=
  type ab.2 = PBUF_ROM \/ type ab.2 = PBUF_REF -> forall x, payload ab.2 = Some x -> x.1 = RExt.

Lemma addrs_in l a : a ∈ addrs l <-> exists y c z j, (y, c) ∈ l /\ payload c = Some z /\ a = padd z j /\ 0 <= j < len c.
Proof.
  induction l as [|[y c] l IH]; cbn [addrs].
  - split; [by intros ?%elem_of_nil|]. by intros (? & ? & ? & ? & ?%elem_of_nil & _).
  - rewrite elem_of_app, IH. split.
    + intros [Ha|(y' & c' & z & j & Hin & Hr)].
      * destruct (payload c) as [z|] eqn:Hz; [|by apply elem_of_nil in Ha]. apply range_in in Ha as (j & -> & Hj).
        exists y, c, z, j. split; [by left|]. split; [done|]. split; [done|lia].
      * exists y', c', z, j. split; [by right|done].
    + intros (y' & c' & z & j & Hin & Hz & -> & Hj). apply elem_of_cons in Hin as [E|Hin].
      * simplify_eq. left. rewrite Hz. apply range_in. exists j. split; [done|lia].
      * right. by exists y', c', z, j.
Qed.

(** The memory of a pbuf is not memory of the other pbufs of a chain. *)
Lemma payload_outside {A} `{AllocatorSpec A} (s : pstate A) L ext p b x l (q : option ptr) i :
  pinv s L ext -> pbufs s !! p = Some b -> (type b = PBUF_RAM \/ type b = PBUF_POOL) -> payload b = Some x -> p ∉ l.*1 ->
  chain (pbufs s) q l -> Forall outside l -> 0 <= i < len b -> padd x i ∉ addrs l.
Proof.
  intros Hi Hp Ht Hx Hnp Hc Ho Hr (y & c & z & j & Hin & Hz & E & Hj)%addrs_in. rewrite list.Forall_forall in Ho.
  specialize (Ho _ Hin). pose proof (chain_in _ _ _ _ _ Hc Hin) as Hy. pose proof Hi as (_ & Hn & _).
  assert (p <> y) as Hne by (intros ->; apply Hnp, list_elem_of_fmap; by exists (y, c)).
  destruct (Hn p b Hp) as ((Hreg & _ & _ & _ & n & _ & Hpl) & _). unfold home in Hreg. unfold payload_ok in Hpl.
  destruct (type c) eqn:Etc; try (apply (payload_apart s L ext p y b c x z i j); auto; lia).
  all: specialize (Ho ltac:(simpl; auto) z Hz); destruct z, Ht as [Ht|Ht]; rewrite Ht in Hreg, Hpl;
    destruct Hpl as (a & Ha & _); rewrite Hx in Ha; injection Ha as ->; unfold padd in E; simpl in *; congruence.
Qed.

Lemma holds_app D l1 l2 bs1 bs2 : length l1 = length bs1 ->
  holds D (l1 ++ l2) (bs1 ++ bs2) <-> holds D l1 bs1 /\ holds D l2 bs2.
Proof.
  intros Hl. unfold holds. split.
  - intros H. by apply Forall2_app_inv in H.
  - intros [H1 H2]. by apply Forall2_app.
Qed.

Lemma store_lookup_ne l : forall bs D a, a ∉ l -> store l bs D !! a = D !! a.
Proof.
  induction l as [|x l IH]; intros [|b bs] D a Ha; simpl; try done.
  apply not_elem_of_cons in Ha as [Hx Ha]. rewrite IH by done. by rewrite lookup_insert_ne.
Qed.

Lemma store_app l1 : forall l2 bs1 bs2 D, length l1 = length bs1 ->
  store (l1 ++ l2) (bs1 ++ bs2) D = store l2 bs2 (store l1 bs1 D).
Proof.
  induction l1 as [|x l1 IH]; intros l2 [|b bs1] bs2 D E; simpl in E; try done. simpl. apply IH. lia.
Qed.

Lemma store_holds l : forall bs D, NoDup l -> length l = length bs -> holds (store l bs D) l bs.
Proof.
  induction l as [|x l IH]; intros [|b bs] D Hn E; simpl in E; try done; [constructor|].
  apply list.NoDup_cons in Hn as [Hx Hn]. constructor; [|apply IH; [done|lia]].
  simpl. rewrite store_lookup_ne by done. apply lookup_insert_eq.
Qed.

Lemma holds_ext D D' l bs : (forall a, a ∈ l -> D' !! a = D !! a) -> holds D l bs -> holds D' l bs.
Proof.
  intros He H. unfold holds in *. induction H as [|a b l bs Hab _ IH]; constructor.
  - rewrite He; [done|by left].
  - apply IH. intros. apply He. by right.
Qed.

Lemma holds_store D l l' bs bs' :
  (forall a, a ∈ l -> a ∉ l') -> holds D l bs -> holds (store l' bs' D) l bs.
Proof. intros Hd. apply holds_ext. intros a Ha. apply store_lookup_ne. by apply Hd. Qed.

Lemma holds_drop D l bs k : holds D l bs -> holds D (list.drop k l) (list.drop k bs).
Proof. apply Forall2_drop. Qed.

Lemma holds_take D l bs k : holds D l bs -> holds D (take k l) (take k bs).
Proof. apply Forall2_take. Qed.

Lemma holds_length D l bs : holds D l bs -> length l = length bs.
Proof. apply Forall2_length. Qed.

Lemma in_drop {A} k (l : list A) a : a ∈ list.drop k l -> a ∈ l.
Proof. intros Ha. rewrite <- (take_drop k l). apply elem_of_app. by right. Qed.

Lemma set_pdata_app {A} l1 l2 bs1 bs2 (s : pstate A) : length l1 = length bs1 ->
  set_pdata (store l2 bs2) (set_pdata (store l1 bs1) s) = set_pdata (store (l1 ++ l2) (bs1 ++ bs2)) s.
Proof. intros E. unfold set_pdata. simpl. by rewrite store_app. Qed.

Section data.
Context {A : Type} `{AllocatorSpec A}.
Implicit Types (s : pstate A).

Lemma rdb_bind {B} a b (k : Z -> M (pstate A) B) s :
  pdata s !! a = Some b -> (rdb a ≫= k) s = k b s.
Proof. intros E. unfold rdb. rewrite bind_assoc, get_bind. by rewrite (deref_bind _ b). Qed.

Lemma memcpy_ok n : forall dst src s bs,
  holds (pdata s) (range src n) bs -> (forall a, a ∈ range dst n -> a ∉ range src n) ->
  memcpy dst src n s = Done (tt, set_pdata (store (range dst n) bs) s).
Proof.
  induction n as [|n IH]; intros dst src s bs Hh Hd; simpl in *.
  - by destruct s.
  - apply Forall2_cons_inv_l in Hh as (b & bs' & Hb & Hh & ->).
    rewrite (rdb_bind _ b) by done. unfold wrb. rewrite modify_bind.
    rewrite (IH _ _ _ bs'); [done| |].
    + apply (holds_store _ _ [dst] _ [b]); [|done]. intros a Ha ->%list_elem_of_singleton.
      apply (Hd dst); [by left|by right].
    + intros a Ha Hs. apply (Hd a); by right.
Qed.

Lemma memcpy_bind {B} (k : unit -> M (pstate A) B) n dst src s bs :
  holds (pdata s) (range src n) bs -> (forall a, a ∈ range dst n -> a ∉ range src n) ->
  (memcpy dst src n ≫= k) s = k tt (set_pdata (store (range dst n) bs) s).
Proof. intros H1 H2. by apply bind_done, memcpy_ok. Qed.

(** The data of the first pbuf of a chain. *)
Lemma holds_head D a b x l bs :
  payload b = Some x -> is_u16 (len b) -> holds D (addrs ((a, b) :: l)) bs ->
  exists d bs', bs = d ++ bs' /\ zlen d = len b /\ holds D (range x (Z.to_nat (len b))) d /\
    holds D (addrs l) bs'.
Proof.
  intros Hx Hl Hh. cbn [addrs] in Hh. rewrite Hx in Hh.
  apply Forall2_app_inv_l in Hh as (d & bs' & Hd & Hb & ->). exists d, bs'.
  split; [done|]. split; [|done]. apply Forall2_length in Hd. rewrite range_length in Hd.
  unfold is_u16, zlen in *. lia.
Qed.

Lemma holds_range_slice D x n d off k :
  holds D (range x n) d -> 0 <= off -> 0 <= k -> off + k <= Z.of_nat n ->
  holds D (range (padd x off) (Z.to_nat k)) (slice off k d).
Proof.
  intros Hd Ho Hk Hn. unfold slice.
  apply (holds_drop _ _ _ (Z.to_nat off)) in Hd. rewrite range_drop in Hd by lia.
  apply (holds_take _ _ _ (Z.to_nat k)) in Hd. rewrite range_take in Hd by lia.
  by rewrite Z2Nat.id in Hd.
Qed.

Lemma slice_skip (d bs : bytes) off n :
  zlen d <= off -> slice off n (d ++ bs) = slice (off - zlen d) n bs.
Proof.
  unfold zlen, slice. intros Ho. rewrite drop_app_ge by lia. do 2 f_equal. lia.
Qed.

Lemma slice_cut (d bs : bytes) off n m :
  0 <= off <= zlen d -> 0 <= n -> m = Z.min n (zlen d - off) ->
  slice off n (d ++ bs) = slice off m d ++ slice 0 (n - m) bs.
Proof.
  unfold zlen, slice. intros Ho Hn ->. rewrite drop_app_le, take_app, drop_0 by lia.
  rewrite length_drop. f_equal; [|f_equal; lia].
  destruct (Z.leb_spec n (Z.of_nat (length d) - off)).
  - by rewrite Z.min_l by lia.
  - rewrite !take_ge; [done| |]; rewrite length_drop; lia.
Qed.

Lemma zlen_slice_le (bs : bytes) off n : 0 <= n -> zlen (slice off n bs) <= n.
Proof. unfold zlen, slice. intros. rewrite length_take. lia. Qed.

Lemma range_sub x n off k a :
  0 <= off -> 0 <= k -> off + k <= Z.of_nat n ->
  a ∈ range (padd x off) (Z.to_nat k) -> a ∈ range x n.
Proof.
  intros Ho Hk Hn. rewrite !range_in. intros (i & -> & Hi). exists (off + i).
  rewrite padd_padd. split; [done|lia].
Qed.

(** The rest of a destination is apart from what the whole is apart from. *)
Lemma copy_partial_loop_ok l : forall fuel s (p : option ptr) dataptr n offset left bs,
  chain (pbufs s) p l -> pays l -> (length l <= fuel)%nat ->
  holds (pdata s) (addrs l) bs ->
  (forall a, a ∈ range (padd dataptr left) (Z.to_nat n) -> a ∉ addrs l) ->
  0 <= n -> 0 <= offset < 65536 -> 0 <= left -> left + n < 65536 ->
  let d := slice offset n bs in
  copy_partial_loop fuel p dataptr n offset left left s =
    Done (left + zlen d, set_pdata (store (range (padd dataptr left) (length d)) d) s).
Proof.
  induction l as [|[a b] l IH]; intros fuel s p dataptr n offset left bs Hc Hp Hf Hh Hd Hn Ho Hl Hln; cbv zeta.
  - simpl in Hc. subst p. apply Forall2_nil_inv_l in Hh as ->. rewrite slice_nil.
    destruct fuel; simpl; rewrite Z.add_0_r; by destruct s.
  - destruct Hc as (-> & Ha & Hc). apply list.Forall_cons in Hp as [([x Hx] & Hlen & _) Hp].
    cbn [fst snd] in Hx, Hlen.
    assert (forall k, k ∈ addrs l -> k ∈ addrs ((a, b) :: l)) as Hsub
      by (intros k Hk; cbn [addrs]; apply elem_of_app; by right).
    destruct (holds_head _ _ _ _ _ _ Hx Hlen Hh) as (d & bs' & -> & Hdl & Hd1 & Hd2).
    unfold is_u16 in Hlen.
    destruct fuel as [|fuel]; simpl in Hf; [lia|]. cbn [copy_partial_loop].
    destruct (Z.eqb_spec n 0) as [->|Hn0].
    { rewrite slice_0. simpl. rewrite Z.add_0_r. by destruct s. }
    rewrite (rdp_bind _ _ b) by done.
    destruct (negb (offset =? 0) && (len b <=? offset)) eqn:Hskip.
    + rewrite u16_id by (unfold is_u16; lia). rewrite (slice_skip d), Hdl by lia.
      apply IH; [done|done|lia|done| |done|lia|done|done].
      intros k Hk Hk'. by apply (Hd k Hk), Hsub.
    + assert (offset <= len b) as Hol by lia. clear Hskip.
      rewrite (u16_id (len b - offset)) by (unfold is_u16; lia).
      rewrite (deref_bind _ x) by done.
      set (m := if n <? len b - offset then n else len b - offset).
      assert (m = Z.min n (zlen d - offset)) as Hm
        by (unfold m; rewrite Hdl; destruct (Z.ltb_spec n (len b - offset)); lia).
      assert (0 <= m <= n /\ offset + m <= len b) as Hmr by lia. clearbody m.
      assert (forall k j, 0 <= j -> j + Z.of_nat k <= n ->
        forall c, c ∈ range (padd dataptr (left + j)) k -> c ∉ addrs ((a, b) :: l)) as Hsd.
      { intros k j Hj Hk c (i & -> & Hi)%range_in. apply Hd, range_in. exists (j + i).
        rewrite !padd_padd. split; [f_equal; lia|lia]. }
      rewrite (memcpy_bind _ _ _ _ _ (slice offset m d)); cycle 1.
      { apply (holds_range_slice _ _ (Z.to_nat (len b))); (done || lia). }
      { intros c Hc1 Hc2. rewrite <- (Z.add_0_r left) in Hc1. eapply Hsd; [..|exact Hc1|]; [lia|lia|].
        cbn [addrs]. rewrite Hx. apply elem_of_app. left. eapply range_sub; [..|exact Hc2]; lia. }
      rewrite (u16_id (n - m)), (u16_id (left + m)) by (unfold is_u16; lia).
      rewrite (IH fuel _ (next b) dataptr (n - m) 0 (left + m) bs'); try (done || lia).
      2: { apply holds_store; [|done]. intros c Hc1 Hc2. rewrite <- (Z.add_0_r left) in Hc2.
           eapply Hsd; [..|exact Hc2|by apply Hsub]; lia. }
      2: { intros c Hc1 Hc2. eapply Hsd; [..|exact Hc1|by apply Hsub]; lia. }
      rewrite (slice_cut d bs' offset n m) by (done || lia).
      assert (zlen (slice offset m d) = m) as Hz by (apply zlen_slice; lia).
      assert (length (slice offset m d) = Z.to_nat m) as Hz' by (unfold zlen in Hz; lia).
      rewrite zlen_app, Hz, length_app, range_add, Hz', padd_padd, Z2Nat.id by lia.
      rewrite set_pdata_app by (by rewrite range_length). do 2 f_equal. lia.
Qed.

Lemma range_sub' x n off k a :
  0 <= off -> off + Z.of_nat k <= Z.of_nat n -> a ∈ range (padd x off) k -> a ∈ range x n.
Proof.
  intros Ho Hk. rewrite !range_in. intros (i & -> & Hi). exists (off + i).
  rewrite padd_padd. split; [done|lia].
Qed.

Lemma take_addrs a b x l n :
  payload b = Some x -> is_u16 (len b) -> 0 <= n ->
  let m := Z.min (len b) n in
  take (Z.to_nat n) (addrs ((a, b) :: l)) =
    range x (Z.to_nat m) ++ take (Z.to_nat (n - m)) (addrs l).
Proof.
  intros Hx Hl Hn m. unfold is_u16 in Hl. cbn [addrs]. rewrite Hx, take_app, range_length.
  f_equal; [|f_equal; lia]. destruct (Z.leb_spec (len b) n).
  - rewrite take_ge by (rewrite range_length; lia). f_equal. lia.
  - rewrite range_take by lia. f_equal. lia.
Qed.

Lemma take_loop_ok l : forall fuel s (p : option ptr) dataptr n tot c bs,
  chain (pbufs s) p l -> pays l -> (length l <= fuel)%nat ->
  holds (pdata s) (range (padd dataptr c) (Z.to_nat tot)) bs ->
  (forall a, a ∈ addrs l -> a ∉ range (padd dataptr c) (Z.to_nat tot)) ->
  0 <= tot <= lsum l -> 0 <= c -> c + tot = n -> n < 65536 ->
  take_loop fuel p dataptr n tot c s =
    Done (ERR_OK, set_pdata (store (take (Z.to_nat tot) (addrs l)) bs) s).
Proof.
  induction l as [|[a b] l IH]; intros fuel s p dataptr n tot c bs Hc Hp Hf Hh Hd Ht Hc0 Hn Hn16.
  - assert (tot = 0) as -> by (change (lsum []) with 0 in Ht; lia). apply Forall2_nil_inv_l in Hh as ->.
    assert (c = n) as -> by lia. destruct fuel; simpl; rewrite Z.eqb_refl; mrun; by destruct s.
  - destruct Hc as (-> & Ha & Hc). apply list.Forall_cons in Hp as [([x Hx] & Hlen & _) Hp].
    cbn [fst snd] in Hx, Hlen.
    destruct fuel as [|fuel]; simpl in Hf; [lia|]. cbn [take_loop].
    destruct (Z.eqb_spec tot 0) as [->|Ht0].
    { apply Forall2_nil_inv_l in Hh as ->. assert (c = n) as -> by lia. rewrite Z.eqb_refl. mrun.
      by destruct s. }
    rewrite (rdp_bind _ _ b) by done. unfold is_u16 in Hlen.
    set (m := if len b <? tot then len b else tot).
    assert (m = Z.min (len b) tot) as Hm by (unfold m; destruct (Z.ltb_spec (len b) tot); lia).
    clearbody m. change (lsum ((a, b) :: l)) with (len b + lsum l) in Ht.
    assert (0 <= m <= tot /\ tot - m <= lsum l) as Hmr.
    { pose proof (addrs_length l Hp). pose proof (zlen_nonneg (addrs l)). lia. }
    rewrite (deref_bind _ x) by done.
    assert (Z.to_nat tot = Z.to_nat m + Z.to_nat (tot - m))%nat as Hsplit by lia.
    rewrite Hsplit, range_add, padd_padd, Z2Nat.id in Hh by lia.
    apply Forall2_app_inv_l in Hh as (d & bs' & Hd1 & Hd2 & ->).
    assert (forall e, e ∈ range x (Z.to_nat m) -> e ∈ addrs ((a, b) :: l)) as Hin.
    { intros e He. cbn [addrs]. rewrite Hx. apply elem_of_app. left. rewrite <- (padd_0 x) in He.
      eapply range_sub'; [..|exact He]; lia. }
    assert (forall e, e ∈ range (padd dataptr c) (Z.to_nat m) \/
      e ∈ range (padd dataptr (c + m)) (Z.to_nat (tot - m)) ->
      e ∈ range (padd dataptr c) (Z.to_nat tot)) as Hsrc.
    { intros e He. rewrite Hsplit, range_add, padd_padd, Z2Nat.id by lia. by apply elem_of_app. }
    rewrite (memcpy_bind _ _ _ _ _ d); [|done|intros e He He'; apply (Hd e); auto].
    rewrite (u16_id (tot - m)), (u16_id (c + m)) by (unfold is_u16; lia).
    rewrite (IH fuel _ (next b) dataptr n (tot - m) (c + m) bs'); try (done || lia).
    2: { apply holds_store; [|done]. intros e He He'. apply (Hd e); auto. }
    2: { intros e He He'. apply (Hd e); [cbn [addrs]; apply elem_of_app; by right|auto]. }
    rewrite set_pdata_app by (by apply Forall2_length in Hd1; rewrite <- Hd1, !range_length).
    rewrite (take_addrs a b x) by (done || lia). by rewrite <- Hm.
Qed.

(** No empty pbuf but the first: what pbuf_copy's test for packet queues needs. *)
Definition solid (l : list (ptr * pbuf)) : Prop := Forall (fun ab => 0 < len ab.2) (tail l).

Lemma solid_lsum l : solid l -> pays l -> 0 <= lsum l /\ 0 <= lsum (tail l) /\ (lsum (tail l) = 0 -> tail l = []).
Proof.
  intros Hs Hp. assert (0 <= lsum (tail l) /\ (lsum (tail l) = 0 -> tail l = [])) as [H1 H2].
  { unfold solid in Hs. induction Hs as [|[a b] k Hb _ [IH1 _]]; [done|].
    change (lsum ((a, b) :: k)) with (len b + lsum k). simpl in Hb. split; [lia|lia]. }
  split; [|done]. destruct l as [|[a b] l]; [done|]. apply list.Forall_cons in Hp as [(_ & Hl & _) _].
  unfold is_u16 in Hl. simpl in *. change (lsum ((a, b) :: l)) with (len b + lsum l). lia.
Qed.

Lemma no_queue_ok s (p : option ptr) l : chain (pbufs s) p l -> solid l -> tot_ok l -> pays l ->
  no_queue p s = Done (tt, s).
Proof.
  intros Hc Hs Ht Hp. destruct l as [|[a b] l]; simpl in Hc; [by subst p|].
  destruct Hc as (-> & Ha & Hc). unfold no_queue. rewrite (rdp_bind _ _ b) by done.
  destruct (Z.eqb_spec (len b) (tot_len b)) as [E|E]; [|done].
  destruct Ht as [Ht _]. destruct (solid_lsum _ Hs Hp) as (_ & _ & H1). simpl in H1.
  rewrite H1 in Hc by lia. simpl in Hc. rewrite Hc. by rewrite lwip_assert_true.
Qed.

(** One side of a round of the loop: [m] bytes further in a chain. *)
Definition adv (l : list (ptr * pbuf)) (o m : Z) : list (ptr * pbuf) * Z :=
  match l with
  | (a, b) :: r => if len b <=? o + m then (r, 0) else (l, o + m)
  | [] => ([], 0)
  end.

Record side (s : pstate A) (p : option ptr) (l : list (ptr * pbuf)) (o : Z) : Prop := {
  side_chain : chain (pbufs s) p l;
  side_pays : pays l;
  side_tot : tot_ok l;
  side_solid : solid l;
  side_off : 0 <= o /\ match l with (_, b) :: _ => o <= len b | [] => o = 0 end
}.

Lemma side_lsum s (p : option ptr) l o : side s p l o -> o <= lsum l.
Proof.
  intros [_ Hp _ Hs Ho]. destruct (solid_lsum _ Hs Hp) as (H1 & H2 & _).
  destruct l as [|[a b] l]; simpl in *; [lia|]. change (lsum ((a, b) :: l)) with (len b + lsum l). lia.
Qed.

Lemma side_pdata s (p : option ptr) l o f : side s p l o -> side (set_pdata f s) p l o.
Proof. intros [? ? ? ? ?]. by split. Qed.

Lemma adv_side s p a b l o m :
  side s (Some p) ((a, b) :: l) o -> 0 <= m -> o + m <= len b ->
  let '(l', o') := adv ((a, b) :: l) o m in
  side s (if len b <=? o + m then next b else Some p) l' o' /\
  lsum l' - o' = lsum ((a, b) :: l) - o - m /\
  (length l' <= S (length l))%nat /\ (o + m = len b -> l' = l /\ o' = 0).
Proof.
  intros [Hc Hp Ht Hs Ho] Hm Hom. unfold adv. change (lsum ((a, b) :: l)) with (len b + lsum l).
  destruct Hc as (E & Ha & Hc). simplify_eq. destruct (Z.leb_spec (len b) (o + m)).
  - apply list.Forall_cons in Hp as [_ Hp]. destruct Ht as [_ Ht]. split; [|split; [lia|split; [lia|done]]].
    split; [done|done|done| |].
    + unfold solid in *. simpl in Hs. destruct Hs; [constructor|done].
    + split; [lia|]. destruct l as [|[a' b'] l]; [done|]. apply list.Forall_cons in Hp as [(_ & Hl & _) _].
      unfold is_u16 in Hl. simpl in Hl. lia.
  - split; [|split; [|split; [done|lia]]].
    + split; try done. lia.
    + change (lsum ((a, b) :: l)) with (len b + lsum l). lia.
Qed.

Lemma adv_addrs a b x l o m :
  payload b = Some x -> is_u16 (len b) -> 0 <= o -> 0 <= m -> o + m <= len b ->
  list.drop (Z.to_nat o) (addrs ((a, b) :: l)) =
    range (padd x o) (Z.to_nat m) ++
    list.drop (Z.to_nat (adv ((a, b) :: l) o m).2) (addrs (adv ((a, b) :: l) o m).1).
Proof.
  intros Hx Hl Ho Hm Hom. unfold is_u16 in Hl.
  assert (list.drop (Z.to_nat o) (addrs ((a, b) :: l)) =
    range (padd x o) (Z.to_nat m) ++ range (padd x (o + m)) (Z.to_nat (len b - o - m)) ++ addrs l) as ->.
  { cbn [addrs]. rewrite Hx, drop_app_le by (rewrite range_length; lia).
    rewrite range_drop, Z2Nat.id, app_assoc by lia. f_equal.
    replace (Z.to_nat (len b) - Z.to_nat o)%nat with (Z.to_nat m + Z.to_nat (len b - o - m))%nat by lia.
    rewrite range_add, padd_padd. do 3 f_equal. lia. }
  f_equal. unfold adv. destruct (Z.leb_spec (len b) (o + m)); cbn [fst snd].
  - replace (len b - o - m) with 0 by lia. done.
  - cbn [addrs]. rewrite Hx, drop_app_le by (rewrite range_length; lia).
    rewrite range_drop, Z2Nat.id by lia. do 2 f_equal. lia.
Qed.

(** A chain that still has to be read has a byte to read, or is its first, empty
    pbuf. *)
Lemma adv_pos a b l o m : solid ((a, b) :: l) -> pays ((a, b) :: l) -> o + m <= len b ->
  lsum (adv ((a, b) :: l) o m).1 - (adv ((a, b) :: l) o m).2 <= 0 -> (adv ((a, b) :: l) o m).1 = [].
Proof.
  intros Hs Hp Hom. destruct (solid_lsum _ Hs Hp) as (_ & H1 & H2). simpl tail in *. unfold adv.
  destruct (Z.leb_spec (len b) (o + m)); cbn [fst snd].
  - intros. apply H2. lia.
  - change (lsum ((a, b) :: l)) with (len b + lsum l). lia.
Qed.

Lemma adv_sub a b l o m e : e ∈ addrs (adv ((a, b) :: l) o m).1 -> e ∈ addrs ((a, b) :: l).
Proof.
  unfold adv. destruct (len b <=? o + m); [|done]. cbn [fst addrs]. intros He.
  apply elem_of_app. by right.
Qed.

(** The loop copies what is left of the source. *)
Lemma copy_loop_ok fuel : forall s pt pf lt lf oT oF bs,
  side s (Some pt) lt oT -> side s (Some pf) lf oF -> (length lt + length lf <= fuel)%nat ->
  lsum lf - oF <= lsum lt - oT -> (forall a, a ∈ addrs lt -> a ∉ addrs lf) ->
  holds (pdata s) (list.drop (Z.to_nat oF) (addrs lf)) bs ->
  copy_loop fuel pt pf oT oF s = Done (ERR_OK,
    set_pdata (store (take (length bs) (list.drop (Z.to_nat oT) (addrs lt))) bs) s).
Proof.
  induction fuel as [|fuel IH]; intros s pt pf lt lf oT oF bs St Sf Hf Hs Hd Hh.
  - destruct lf as [|x lf]; [by destruct Sf as [? _ _ _ _]|simpl in Hf; lia].
  - destruct lt as [|[at' tb] lt]; [by destruct St as [? _ _ _ _]|].
    destruct lf as [|[af fb] lf]; [by destruct Sf as [? _ _ _ _]|].
    pose proof St as [(Et & Ht & Hct) Hpt _ _ [Hot Hot']].
    pose proof Sf as [(Ef & Hfb & Hcf) Hpf _ _ [Hof Hof']]. simplify_eq.
    apply list.Forall_cons in Hpt as [([xt Hxt] & Hlt & _) _].
    apply list.Forall_cons in Hpf as [([xf Hxf] & Hlf & _) _].
    cbn [fst snd] in Hxt, Hxf, Hlt, Hlf. unfold is_u16 in Hlt, Hlf.
    cbn [copy_loop]. rewrite (rdp_bind _ _ tb), (rdp_bind _ _ fb) by done.
    set (m := if len fb - oF <=? len tb - oT then u16 (len fb - oF) else u16 (len tb - oT)).
    assert (m = Z.min (len fb - oF) (len tb - oT)) as Hm.
    { unfold m. rewrite !u16_id by (unfold is_u16; lia).
      destruct (Z.leb_spec (len fb - oF) (len tb - oT)); lia. }
    clearbody m. assert (0 <= m /\ oF + m <= len fb /\ oT + m <= len tb) as (Hm0 & Hmf & Hmt) by lia.
    rewrite (deref_bind _ xt), (deref_bind _ xf) by done.
    pose proof (adv_addrs af fb xf lf oF m Hxf Hlf Hof Hm0 Hmf) as Haf.
    pose proof (adv_addrs at' tb xt lt oT m Hxt Hlt Hot Hm0 Hmt) as Hat.
    pose proof (adv_side _ _ _ _ _ _ _ Sf Hm0 Hmf) as Hsf.
    pose proof (adv_side _ _ _ _ _ _ _ St Hm0 Hmt) as Hst.
    destruct (adv ((af, fb) :: lf) oF m) as [lf' oF'] eqn:Ef'. cbn [fst snd] in Haf.
    destruct (adv ((at', tb) :: lt) oT m) as [lt' oT'] eqn:Et'. cbn [fst snd] in Hat.
    destruct Hsf as (Sf' & Hsumf & Hlenf & Hendf). destruct Hst as (St' & Hsumt & Hlent & Hendt).
    rewrite Haf in Hh. apply Forall2_app_inv_l in Hh as (d & bs' & Hd1 & Hd2 & ->).
    assert (forall e, e ∈ range (padd xt oT) (Z.to_nat m) -> e ∈ addrs ((at', tb) :: lt)) as Hinr.
    { intros e He. apply (in_drop (Z.to_nat oT)). rewrite Hat.
      apply elem_of_app. by left. }
    assert (forall e, e ∈ range (padd xf oF) (Z.to_nat m) -> e ∈ addrs ((af, fb) :: lf)) as Hinf.
    { intros e He. apply (in_drop (Z.to_nat oF)). rewrite Haf. apply elem_of_app. by left. }
    rewrite (memcpy_bind _ _ _ _ _ d) by (try done; intros e He He'; apply (Hd e); auto).
    assert (length d = Z.to_nat m) as Hdm by (apply Forall2_length in Hd1; by rewrite <- Hd1, range_length).
    rewrite (u16_id (oT + m)), (u16_id (oF + m)) by (unfold is_u16; lia).
    rewrite !lwip_assert_bind by lia.
    assert ((if len fb <=? oF + m then (next fb, 0) else (Some af, oF + m)) =
      (if len fb <=? oF + m then next fb else Some af, oF')) as ->.
    { unfold adv in Ef'. destruct (len fb <=? oF + m); by simplify_eq. }
    assert ((if oT + m =? len tb then (next tb, 0) else (Some at', oT + m)) =
      (if len tb <=? oT + m then next tb else Some at', oT')) as ->.
    { unfold adv in Et'. destruct (Z.leb_spec (len tb) (oT + m)), (Z.eqb_spec (oT + m) (len tb));
        simplify_eq; try done; lia. }
    set (qf := if len fb <=? oF + m then next fb else Some af) in *.
    set (qt := if len tb <=? oT + m then next tb else Some at') in *.
    pose proof (adv_pos af fb lf oF m (side_solid _ _ _ _ Sf) (side_pays _ _ _ _ Sf) Hmf) as Hpos.
    rewrite Ef' in Hpos. cbn [fst snd] in Hpos.
    assert (qt = None -> qf = None) as Hnone.
    { intros E. destruct St' as [Hc' _ _ _ [_ Ho']]. rewrite E in Hc'.
      destruct lt' as [|[? ?] ?]; [|by destruct Hc']. change (lsum []) with 0 in Hsumt.
      rewrite Hpos in Sf' by lia. destruct Sf' as [Hc'' _ _ _ _]. exact Hc''. }
    rewrite lwip_assert_bind by (destruct qt; [done|by rewrite Hnone]).
    set (s1 := set_pdata (store (range (padd xt oT) (Z.to_nat m)) d) s).
    apply (side_pdata _ _ _ _ (store (range (padd xt oT) (Z.to_nat m)) d)) in Sf', St'.
    fold s1 in Sf', St'.
    rewrite (bind_done _ _ _ _ _ (no_queue_ok s1 qf lf' (side_chain _ _ _ _ Sf') (side_solid _ _ _ _ Sf')
      (side_tot _ _ _ _ Sf') (side_pays _ _ _ _ Sf'))).
    rewrite (bind_done _ _ _ _ _ (no_queue_ok s1 qt lt' (side_chain _ _ _ _ St') (side_solid _ _ _ _ St')
      (side_tot _ _ _ _ St') (side_pays _ _ _ _ St'))).
    rewrite length_app, Hat.
    destruct qf as [pf'|] eqn:Eqf.
    + destruct qt as [pt'|] eqn:Eqt; [|by specialize (Hnone eq_refl)].
      pose proof (adv_sub at' tb lt oT m) as Hsubt. rewrite Et' in Hsubt.
      pose proof (adv_sub af fb lf oF m) as Hsubf. rewrite Ef' in Hsubf. cbn [fst] in Hsubt, Hsubf.
      rewrite (IH s1 pt' pf' lt' lf' oT' oF' bs'); [|done|done| |lia| |].
      * unfold s1. rewrite set_pdata_app by (by rewrite range_length).
        rewrite take_app, range_length, Hdm, (take_ge (range _ _)) by (rewrite range_length; lia).
        do 6 f_equal. lia.
      * simpl in Hf. destruct (Z.min_spec (len fb - oF) (len tb - oT)) as [[_ E]|[_ E]]; rewrite E in Hm.
        -- destruct (Hendf ltac:(lia)) as [-> _]. lia.
        -- destruct (Hendt ltac:(lia)) as [-> _]. lia.
      * intros e He He'. apply (Hd e); auto.
      * apply holds_store; [|done]. intros e He%in_drop He'. apply (Hd e); auto.
    + destruct Sf' as [Hc' _ _ _ [_ Ho']]. destruct lf' as [|[? ?] ?]; [|by destruct Hc'].
      cbn [addrs] in Hd2. rewrite drop_nil in Hd2. apply Forall2_nil_inv_l in Hd2 as ->.
      unfold s1. rewrite app_nil_r, Nat.add_0_r, Hdm, take_app_le by (rewrite range_length; lia).
      rewrite take_ge by (rewrite range_length; lia). by destruct qt.
Qed.

(** ** Reading and searching *)

(** The byte at an index, 0 beyond the end. *)
Definition byte_at (bs : bytes) (i : Z) : Z := default 0 (bs !! Z.to_nat i).

Lemma byte_at_drop bs i j : 0 <= i -> 0 <= j ->
  byte_at (list.drop (Z.to_nat i) bs) j = byte_at bs (i + j).
Proof. intros Hi Hj. unfold byte_at. rewrite lookup_drop. do 2 f_equal. lia. Qed.

(** The pbufs before the offset are skipped. *)
Definition seek_post s bs off (q : option ptr) (off' : Z) : Prop :=
  match q with
  | None => zlen bs <= off
  | Some q => exists b l2 bs1 bs2, chain (pbufs s) (Some q) ((q, b) :: l2) /\ pays ((q, b) :: l2) /\
      bs = bs1 ++ bs2 /\ holds (pdata s) (addrs ((q, b) :: l2)) bs2 /\
      off = zlen bs1 + off' /\ 0 <= off' < len b
  end.

Lemma seek_ok l : forall fuel s (q : option ptr) off bs,
  chain (pbufs s) q l -> pays l -> holds (pdata s) (addrs l) bs -> (length l <= fuel)%nat ->
  0 <= off < 65536 ->
  exists q' off', seek fuel q off s = Done ((q', off'), s) /\ seek_post s bs off q' off'.
Proof.
  induction l as [|[a b] l IH]; intros fuel s q off bs Hc Hp Hh Hf Ho.
  - simpl in Hc. subst q. apply Forall2_nil_inv_l in Hh as ->. exists None, off.
    split; [by destruct fuel|]. unfold seek_post. rewrite zlen_nil. lia.
  - pose proof Hc as (-> & Ha & Hc'). pose proof Hp as Hp'.
    apply list.Forall_cons in Hp' as [([x Hx] & Hl & _) Hp']. cbn [fst snd] in Hx, Hl.
    destruct (holds_head _ _ _ _ _ _ Hx Hl Hh) as (d & bs' & -> & Hdl & Hd1 & Hd2). unfold is_u16 in Hl.
    destruct (Z.leb_spec (len b) off) as [Hlo|Hlo].
    + destruct fuel as [|fuel]; simpl in Hf; [lia|]. cbn [seek]. rewrite (rdp_bind _ _ b) by done.
      rewrite (proj2 (Z.leb_le _ _)) by done. rewrite u16_id by (unfold is_u16; lia).
      destruct (IH fuel s (next b) (off - len b) bs' Hc' Hp' Hd2 ltac:(lia) ltac:(lia)) as (q' & off' & E & Hpost).
      exists q', off'. split; [done|]. destruct q' as [q'|]; simpl in *.
      * destruct Hpost as (b2 & l2 & bs1 & bs2 & H1 & H2 & -> & H4 & H5 & H6).
        exists b2, l2, (d ++ bs1), bs2. rewrite app_assoc, zlen_app. do 4 (split; [done|]). lia.
      * rewrite zlen_app. lia.
    + exists (Some a), off. split.
      * destruct fuel; cbn [seek]; rewrite (rdp_bind _ _ b) by done;
          by rewrite (proj2 (Z.leb_gt _ _)).
      * exists b, l, [], (d ++ bs'). do 4 (split; [done|]). rewrite zlen_nil. lia.
Qed.

Lemma pbuf_get_at_ok s (q : option ptr) l off bs :
  chain (pbufs s) q l -> pays l -> holds (pdata s) (addrs l) bs -> 0 <= off < 65536 ->
  pbuf_get_at q off s = Done (byte_at bs off, s).
Proof.
  intros Hc Hp Hh Ho. unfold pbuf_get_at. rewrite get_bind.
  assert (length l <= pbuf_fuel s)%nat as Hf by (pose proof (chain_length _ _ _ Hc); unfold pbuf_fuel; lia).
  destruct (seek_ok l (pbuf_fuel s) s q off bs Hc Hp Hh Hf Ho) as (q' & off' & E & Hpost).
  rewrite (bind_done _ _ _ _ _ E). destruct q' as [q'|]; cbn [seek_post] in Hpost.
  - destruct Hpost as (b & l2 & bs1 & bs2 & (_ & Hb & _) & Hp2 & -> & Hh2 & -> & Ho').
    apply list.Forall_cons in Hp2 as [([x Hx] & Hl & _) _]. cbn [fst snd] in Hx, Hl.
    rewrite (rdp_bind _ _ b), (deref_bind _ x) by done.
    destruct (holds_head _ q' _ _ l2 _ Hx Hl Hh2) as (d & bs' & -> & Hdl & Hd1 & _).
    pose proof (holds_range_slice _ _ _ _ off' 1 Hd1 ltac:(lia) ltac:(lia) ltac:(lia)) as H1.
    destruct (lookup_lt_is_Some_2 d (Z.to_nat off')) as [v Hv]; [unfold zlen in Hdl; lia|].
    assert (slice off' 1 d = [v]) as Hs.
    { unfold slice. rewrite (drop_S _ v) by done. done. }
    rewrite Hs in H1. apply Forall2_cons_1 in H1 as [H1 _]. unfold rdb. rewrite get_bind.
    unfold byte_at. rewrite lookup_app_r by (unfold zlen; lia).
    replace (Z.to_nat (zlen bs1 + off') - length bs1)%nat with (Z.to_nat off') by (unfold zlen; lia).
    rewrite (lookup_app_l_Some _ _ _ v) by done. unfold deref. by rewrite H1.
  - unfold byte_at. rewrite lookup_ge_None_2 by (unfold zlen in Hpost; lia). done.
Qed.

(** Where [t] differs from [pat]: 0 when it does not, else 1 + the first index. *)
Fixpoint mismatch (t pat : bytes) (i : Z) : Z :=
  match pat with
  | [] => 0
  | b :: pat => if byte_at t i =? b then mismatch t pat (i + 1) else i + 1
  end.

Lemma memcmp_loop_ok pat : forall s q l start mem2 bs i,
  chain (pbufs s) (Some q) l -> pays l -> holds (pdata s) (addrs l) bs ->
  holds (pdata s) (range (padd mem2 i) (length pat)) pat -> 0 <= start -> 0 <= i ->
  start + i + zlen pat < 65536 ->
  memcmp_loop (length pat) q start mem2 i s = Done (mismatch (list.drop (Z.to_nat start) bs) pat i, s).
Proof.
  induction pat as [|b pat IH]; intros s q l start mem2 bs i Hc Hp Hh Hpat Hs Hi Hlen; [done|].
  rewrite zlen_cons in Hlen. pose proof (zlen_nonneg pat). cbn [length memcmp_loop mismatch].
  simpl in Hpat. apply Forall2_cons_1 in Hpat as [Hb Hpat].
  rewrite (u16_id (start + i)), (u16_id (i + 1)) by (unfold is_u16; lia).
  rewrite (bind_done _ _ _ _ _ (pbuf_get_at_ok s (Some q) l (start + i) bs Hc Hp Hh ltac:(lia))).
  rewrite (rdb_bind _ b) by done. rewrite byte_at_drop by lia.
  destruct (byte_at bs (start + i) =? b).
  - rewrite padd_padd in Hpat. by apply (IH _ _ l); try lia.
  - done.
Qed.

Lemma pbuf_memcmp_ok s (p : option ptr) l off mem2 bs pat :
  chain (pbufs s) p l -> pays l -> holds (pdata s) (addrs l) bs ->
  holds (pdata s) (range mem2 (length pat)) pat -> 0 <= off -> off + zlen pat < 65536 ->
  pbuf_memcmp p off mem2 (zlen pat) s =
    Done (if off <? zlen bs then mismatch (list.drop (Z.to_nat off) bs) pat 0 else 0xffff, s).
Proof.
  intros Hc Hp Hh Hpat Ho Hlen. unfold pbuf_memcmp. rewrite get_bind. pose proof (zlen_nonneg pat).
  assert (length l <= pbuf_fuel s)%nat as Hf by (pose proof (chain_length _ _ _ Hc); unfold pbuf_fuel; lia).
  destruct (seek_ok l (pbuf_fuel s) s p off bs Hc Hp Hh Hf ltac:(lia)) as (q' & off' & E & Hpost).
  rewrite (bind_done _ _ _ _ _ E). destruct q' as [q'|]; cbn [seek_post] in Hpost.
  - destruct Hpost as (b & l2 & bs1 & bs2 & Hc2 & Hp2 & -> & Hh2 & -> & Ho').
    pose proof (holds_length _ _ _ Hh2) as Hl2. pose proof (addrs_length _ Hp2) as Hal.
    assert (0 <= lsum l2) as Hls.
    { apply list.Forall_cons in Hp2 as [_ Hp2]. rewrite <- addrs_length by done. apply zlen_nonneg. }
    change (lsum ((q', b) :: l2)) with (len b + lsum l2) in Hal.
    pose proof (zlen_nonneg bs1).
    rewrite (proj2 (Z.ltb_lt _ _)) by (rewrite zlen_app; unfold zlen in *; lia).
    replace (Z.to_nat (zlen pat)) with (length pat) by (unfold zlen; lia).
    rewrite (memcmp_loop_ok pat s q' _ off' mem2 bs2 0 Hc2 Hp2 Hh2) by (rewrite ?padd_0; done || lia).
    rewrite drop_app_ge by (unfold zlen; lia). do 4 f_equal. unfold zlen. lia.
  - by rewrite (proj2 (Z.ltb_ge _ _)) by lia.
Qed.

Lemma mismatch_range t pat : forall i, 0 <= i -> mismatch t pat i <> 0 -> i < mismatch t pat i <= i + zlen pat.
Proof.
  induction pat as [|b pat IH]; intros i Hi Hm; simpl in *; [done|].
  rewrite zlen_cons. pose proof (zlen_nonneg pat). destruct (byte_at t i =? b); [|lia].
  specialize (IH (i + 1) ltac:(lia) Hm). lia.
Qed.

Lemma mismatch_0 t pat : forall i, 0 <= i -> i + zlen pat <= zlen t -> mismatch t pat i = 0 ->
  slice i (zlen pat) t = pat.
Proof.
  induction pat as [|b pat IH]; intros i Hi Hl Hm; simpl in *; [done|].
  rewrite zlen_cons in *. pose proof (zlen_nonneg pat).
  destruct (Z.eqb_spec (byte_at t i) b) as [E|E]; [|lia]. rewrite slice_app_split, IH by lia.
  change (b :: pat) with ([b] ++ pat). f_equal. unfold byte_at in E. unfold slice.
  destruct (lookup_lt_is_Some_2 t (Z.to_nat i)) as [v Hv]; [unfold zlen in Hl; lia|].
  rewrite (drop_S _ v) by done. rewrite Hv in E. simpl in *. by subst.
Qed.

(** What pbuf_memfind promises of its result [r]. *)
Definition found (bs pat : bytes) (start r : Z) : Prop :=
  (r = 0xFFFF \/ start <= r /\ r + zlen pat <= zlen bs /\ slice r (zlen pat) bs = pat) /\
  (zlen pat = 1 -> forall j, start <= j < zlen bs -> byte_at bs j = byte_at pat 0 -> r <= j).

Lemma memfind_loop_ok fuel : forall s p l mem bs pat i,
  chain (pbufs s) (Some p) l -> pays l -> holds (pdata s) (addrs l) bs ->
  holds (pdata s) (range mem (length pat)) pat -> 0 < zlen pat <= zlen bs -> zlen bs < 65536 -> 0 <= i ->
  zlen bs - zlen pat - i < Z.of_nat fuel ->
  exists r, memfind_loop fuel p mem (zlen pat) (zlen bs - zlen pat) i s = Done (r, s) /\
    found bs pat i r.
Proof.
  induction fuel as [|fuel IH]; intros s p l mem bs pat i Hc Hp Hh Hpat Hl Hbs Hi Hf.
  - exists 0xFFFF. simpl. rewrite (proj2 (Z.leb_gt _ _)) by lia. split; [done|].
    split; [by left|]. intros. lia.
  - cbn [memfind_loop]. destruct (Z.leb_spec i (zlen bs - zlen pat)) as [Him|Him].
    + rewrite (bind_done _ _ _ _ _ (pbuf_memcmp_ok s (Some p) l i mem bs pat Hc Hp Hh Hpat Hi ltac:(lia))).
      rewrite (proj2 (Z.ltb_lt _ _)) by lia.
      set (t := list.drop (Z.to_nat i) bs).
      assert (zlen t = zlen bs - i) as Ht by (unfold t, zlen in *; rewrite length_drop; lia).
      destruct (Z.eqb_spec (mismatch t pat 0) 0) as [E|E].
      * exists i. split; [done|]. split; [|intros; lia]. right. split; [lia|]. split; [lia|].
        rewrite <- (mismatch_0 t pat 0) at 2 by lia. unfold t, slice. by rewrite drop_drop, Nat.add_0_r.
      * pose proof (mismatch_range t pat 0 ltac:(lia) E) as Hr.
        rewrite u16_id by (unfold is_u16; lia).
        destruct (IH s p l mem bs pat (i + mismatch t pat 0) Hc Hp Hh Hpat Hl Hbs ltac:(lia) ltac:(lia))
          as (r & Er & H1 & H2).
        exists r. split; [done|]. split; [destruct H1 as [|(? & ? & ?)]; [by left|right; split; [lia|done]]|].
        intros Hone j Hj Hb. apply H2; [done| |done].
        destruct (decide (j = i)) as [->|]; [|lia]. exfalso. apply E.
        destruct pat as [|b [|c pat]]; try done; [|rewrite !zlen_cons in Hone; pose proof (zlen_nonneg pat); lia].
        simpl. unfold t. rewrite byte_at_drop, Z.add_0_r, Hb by lia. unfold byte_at. simpl.
        by rewrite Z.eqb_refl.
    + exists 0xFFFF. split; [done|]. split; [by left|]. intros. lia.
Qed.
End data.

(** ** Properties *)

(** Three bytes "aab" in one pbuf, and the strings "ab" and "b" outside. *)
Definition demo_bytes : bytes := [97; 97; 98].

Definition demo_chain : list (ptr * pbuf) :=
  [((RHeap, 8), Pbuf None (Some (RHeap, 48)) 3 3 PBUF_RAM 0 1)].

Definition demo : pstate allocators :=
  PState (list_to_map demo_chain)
    (store (range (RHeap, 48) 3 ++ range (RExt, 0) 2) (demo_bytes ++ [97; 98]) ∅) allocators_boot false.

Lemma demo_pays : pays demo_chain.
Proof. constructor; [|constructor]. split; [by exists (RHeap, 48)|]. unfold is_u16. simpl. lia. Qed.

(** Pbuf_take stores the application's bytes as the first bytes of the chain
    and changes nothing else, however the chain is cut into pbufs (or refuses with
    ERR_ARG when the chain is too short); and when it filled the chain,
    pbuf_copy_partial of any window reads back exactly that part of them. *)
Theorem pbuf_take_roundtrip {A} `{AllocatorSpec A} (s : pstate A) p l src n bs :
  chain (pbufs s) (Some p) l -> pays l -> tot_ok l -> NoDup (addrs l) ->
  zlen bs = n -> n < 65536 -> holds (pdata s) (range src (Z.to_nat n)) bs ->
  (forall a, a ∈ addrs l -> a ∉ range src (Z.to_nat n)) ->
  if lsum l <? n then pbuf_take (Some p) (Some src) n s = Done (ERR_ARG, s)
  else exists s1, pbuf_take (Some p) (Some src) n s = Done (ERR_OK, s1) /\
    s1 = set_pdata (store (take (Z.to_nat n) (addrs l)) bs) s /\
    (n = lsum l -> forall dst k offset, 0 <= k -> 0 <= offset < 65536 -> k < 65536 ->
       (forall a, a ∈ range dst (Z.to_nat k) -> a ∉ addrs l) ->
       exists s2, pbuf_copy_partial (Some p) (Some dst) k offset s1 = Done (zlen (slice offset k bs), s2) /\
         s2 = set_pdata (store (range dst (length (slice offset k bs))) (slice offset k bs)) s1).
Proof.
  intros Hc Hp Ht Hnd Hn Hn16 Hh Hd. pose proof (zlen_nonneg bs) as Hn0. rewrite Hn in Hn0.
  destruct l as [|[p' b] l]; [done|]. pose proof Hc as (E & Hb & _). simplify_eq.
  assert (length ((p', b) :: l) <= pbuf_fuel s)%nat as Hf
    by (pose proof (chain_length _ _ _ Hc); unfold pbuf_fuel; lia).
  assert (tot_len b = lsum ((p', b) :: l)) as Htot by apply Ht.
  unfold pbuf_take. rewrite (rdp_bind _ _ b), Htot by done.
  destruct (Z.ltb_spec (lsum ((p', b) :: l)) (zlen bs)) as [Hlt|Hge]; [done|].
  rewrite get_bind. eexists. split; [|split; [reflexivity|]].
  - apply take_loop_ok; rewrite ?padd_0; try done; lia.
  - intros En dst k offset Hk Ho Hk16 Hdst. unfold pbuf_copy_partial. rewrite get_bind. eexists.
    rewrite (copy_partial_loop_ok ((p', b) :: l) _ _ _ dst k offset 0 bs); rewrite ?padd_0; try done; try lia.
    pose proof (addrs_length _ Hp) as Hal. rewrite take_ge by (unfold zlen in *; lia).
    apply store_holds; [done|]. unfold zlen in *. lia.
Qed.

Lemma pbuf_take_roundtrip_witness :
  exists s1 s2, pbuf_take (Some (RHeap, 8)) (Some (RExt, 0)) 2 demo = Done (ERR_OK, s1) /\
    pdata s1 !! (RHeap, 49) = Some 98 /\ s2 = s1.
Proof.
  pose proof (pbuf_take_roundtrip demo (RHeap, 8) demo_chain (RExt, 0) 2 [97; 98]) as Hx.
  destruct Hx as (s1 & E & Hs & _).
  - split; [reflexivity|]. split; reflexivity.
  - exact demo_pays.
  - split; [reflexivity|exact I].
  - exact (range_NoDup 3 (RHeap, 48)).
  - reflexivity.
  - lia.
  - repeat constructor.
  - intros a Ha Hb. apply (range_in 3 (RHeap, 48)) in Ha as (i & -> & _).
    apply (range_in 2 (RExt, 0)) in Hb as (j & E & _).
    unfold padd in E. simpl in E. discriminate.
  - exists s1, s1. split; [exact E|]. split; [|reflexivity]. rewrite Hs. reflexivity.
Defined.

(** The whole of pbuf_copy. *)
Lemma pbuf_copy_ok {A} `{AllocatorSpec A} (s : pstate A) pt pf lt lf src :
  chain (pbufs s) (Some pt) lt -> pays lt -> tot_ok lt -> solid lt ->
  chain (pbufs s) (Some pf) lf -> pays lf -> tot_ok lf -> solid lf ->
  (forall a, a ∈ addrs lt -> a ∉ addrs lf) ->
  holds (pdata s) (addrs lf) src -> lsum lf <= lsum lt ->
  pbuf_copy (Some pt) (Some pf) s = Done (ERR_OK, set_pdata (store (take (length src) (addrs lt)) src) s).
Proof.
  intros Ht Hpt Htt Hst Hf Hpf Htf Hsf Hd Hh Hle.
  destruct lt as [|[pt' tb] lt]; [done|]. destruct lf as [|[pf' fb] lf]; [done|].
  pose proof Ht as (E1 & Htb & _). pose proof Hf as (E2 & Hfb & _). simplify_eq.
  pose proof (chain_length _ _ _ Ht). pose proof (chain_length _ _ _ Hf).
  assert (tot_len tb = lsum ((pt', tb) :: lt)) as E1 by apply Htt.
  assert (tot_len fb = lsum ((pf', fb) :: lf)) as E2 by apply Htf.
  unfold pbuf_copy. rewrite (rdp_bind _ _ tb), (rdp_bind _ _ fb) by done.
  rewrite lwip_assert_bind by lia. rewrite get_bind.
  assert (forall (q : option ptr) k, chain (pbufs s) q k -> pays k -> tot_ok k -> solid k -> side s q k 0) as Hside.
  { intros q k Hc Hp Htk Hs. split; try done. split; [lia|]. destruct k as [|[a b] k]; [done|].
    apply list.Forall_cons in Hp as [(_ & Hl & _) _]. unfold is_u16 in Hl. simpl in Hl. lia. }
  apply (copy_loop_ok _ s pt' pf' ((pt', tb) :: lt) ((pf', fb) :: lf) 0 0 src); auto.
  - unfold pbuf_fuel. lia.
  - lia.
Qed.

(** Pbuf_copy copies the whole content of one chain to the front of another
    that is large enough, for any two ways of cutting them into pbufs, and changes
    no other byte. *)
Theorem pbuf_copy_copies {A} `{AllocatorSpec A} (s : pstate A) pt pf lt lf src :
  chain (pbufs s) (Some pt) lt -> pays lt -> tot_ok lt -> solid lt ->
  chain (pbufs s) (Some pf) lf -> pays lf -> tot_ok lf -> solid lf ->
  (forall a, a ∈ addrs lt -> a ∉ addrs lf) -> NoDup (addrs lt) ->
  holds (pdata s) (addrs lf) src -> lsum lf <= lsum lt ->
  exists s', pbuf_copy (Some pt) (Some pf) s = Done (ERR_OK, s') /\
    pbufs s' = pbufs s /\ palloc s' = palloc s /\
    holds (pdata s') (take (length src) (addrs lt)) src /\
    (forall a, a ∉ take (length src) (addrs lt) -> pdata s' !! a = pdata s !! a).
Proof.
  intros Ht Hpt Htt Hst Hf Hpf Htf Hsf Hd Hnd Hh Hle.
  eexists. split; [by apply (pbuf_copy_ok s pt pf lt lf src)|]. cbn [pdata pbufs palloc set_pdata].
  split; [done|]. split; [done|]. split.
  - apply store_holds; [by eapply sublist_NoDup; [|apply sublist_take]|]. rewrite length_take.
    pose proof (addrs_length _ Hpt). pose proof (addrs_length _ Hpf).
    apply holds_length in Hh. unfold zlen in *. lia.
  - intros a Ha. by apply store_lookup_ne.
Qed.

Lemma pbuf_copy_copies_witness :
  exists s s' : pstate allocators, pbuf_copy (Some (RHeap, 68)) (Some (RHeap, 8)) s = Done (ERR_OK, s') /\
    pdata s' !! (RHeap, 94) = Some 98.
Proof.
  pose (b2 := Pbuf None (Some (RHeap, 92)) 5 5 PBUF_RAM 0 1).
  pose (s := set_pbufs (insert (RHeap, 68) b2) demo).
  assert (pays [((RHeap, 68), b2)]) as Hp2 by (constructor; [split; [by exists (RHeap, 92)|unfold is_u16; simpl; lia]|constructor]).
  destruct (pbuf_copy_copies s (RHeap, 68) (RHeap, 8) [((RHeap, 68), b2)] demo_chain demo_bytes)
    as (s' & E & _ & _ & Hh & _).
  - split; [reflexivity|]. split; reflexivity.
  - exact Hp2.
  - split; [reflexivity|exact I].
  - constructor.
  - split; [reflexivity|]. split; reflexivity.
  - exact demo_pays.
  - split; [reflexivity|exact I].
  - constructor.
  - intros a Ha Hb. apply (range_in 5 (RHeap, 92)) in Ha as (i & -> & Hi).
    apply (range_in 3 (RHeap, 48)) in Hb as (j & E & Hj).
    unfold padd in E. simpl in E. injection E. lia.
  - exact (range_NoDup 5 (RHeap, 92)).
  - repeat constructor.
  - unfold lsum. simpl. lia.
  - exists s, s'. split; [exact E|]. exact (Forall2_lookup_lr _ _ _ 2 (RHeap, 94) 98 Hh eq_refl eq_refl).
Defined.

(** Pbuf_memfind returns, for any chain and pattern, and what it returns is
    never wrong: 0xFFFF or an index from start_offset on where the pattern is.  For
    a pattern of one byte it is the first such index, and 0xFFFF only if there is
    none.  (pbuf_memfind_misses shows that this is not so for longer patterns.) *)
Theorem pbuf_memfind_sound {A} `{AllocatorSpec A} (s : pstate A) p l mem bs pat start :
  chain (pbufs s) (Some p) l -> pays l -> tot_ok l -> holds (pdata s) (addrs l) bs ->
  holds (pdata s) (range mem (length pat)) pat ->
  0 < zlen pat < 65536 -> 0 <= start < 65536 ->
  exists r, pbuf_memfind p mem (zlen pat) start s = Done (r, s) /\
    (r = 0xFFFF \/ start <= r /\ r + zlen pat <= zlen bs /\ slice r (zlen pat) bs = pat) /\
    (zlen pat = 1 -> forall j, start <= j < zlen bs -> byte_at bs j = byte_at pat 0 -> r <= j).
Proof.
  intros Hc Hp Ht Hh Hpat Hl Hs. destruct l as [|[p' b] l]; [done|]. pose proof Hc as (E & Hb & _). simplify_eq.
  assert (tot_len b = zlen bs) as Htot.
  { pose proof (addrs_length _ Hp) as Hal. pose proof (holds_length _ _ _ Hh). destruct Ht as [Ht _].
    change (lsum ((p', b) :: l)) with (len b + lsum l) in Hal. unfold zlen in *. lia. }
  assert (0 <= zlen bs < 65536) as Hbs.
  { apply list.Forall_cons in Hp as [(_ & _ & Hu) _]. unfold is_u16 in Hu. simpl in Hu. lia. }
  unfold pbuf_memfind. rewrite (rdp_bind _ _ b), Htot by done.
  destruct (Z.leb_spec (zlen pat + start) (zlen bs)) as [Hle|Hgt].
  - rewrite u16_id by (unfold is_u16; lia).
    destruct (memfind_loop_ok memfind_fuel s p' _ mem bs pat start Hc Hp Hh Hpat) as (r & E & H1 & H2);
      try lia; [unfold memfind_fuel; lia|]. by exists r.
  - exists 0xFFFF. split; [done|]. split; [by left|]. intros. lia.
Qed.

Lemma pbuf_memfind_sound_witness :
  exists r, pbuf_memfind (RHeap, 8) (RExt, 1) 1 0 demo = Done (r, demo) /\ r <= 2.
Proof.
  destruct (pbuf_memfind_sound demo (RHeap, 8) demo_chain (RExt, 1) demo_bytes [98] 0) as (r & E & _ & H).
  - split; [reflexivity|]. split; reflexivity.
  - exact demo_pays.
  - split; [reflexivity|exact I].
  - repeat constructor.
  - repeat constructor.
  - vm_compute. split; reflexivity.
  - lia.
  - exists r. split; [exact E|]. apply H; [reflexivity| |reflexivity]. vm_compute. split; [discriminate|reflexivity].
Defined.

(** pbuf_memfind does not find "ab" in "aab": after the mismatch at index 1 it goes
    on at index 2. *)
Theorem pbuf_memfind_misses : pbuf_memfind (RHeap, 8) (RExt, 0) 2 0 demo = Done (0xFFFF, demo) /\
  slice 1 2 demo_bytes = [97; 98].
Proof. split; vm_compute; reflexivity. Qed.
