(* ===== verification/IpAddr.v ===== *)
(** * IPv4 addresses

    core/ipv4/ip_addr.c and the macros of ip_addr.h, with the part of struct netif
    (netif.h) the IP layer looks at.  Addresses are u32_t in network byte order;
    strings are lists of character codes, what follows is the terminating 0. *)

From S2P Require Import Prelude ByteOrder.

(** struct netif, without the callbacks and the driver's own state. *)
Record netif := Netif {
  ip_addr : Z;
  netmask : Z;
  gw : Z;
  mtu : Z;
  hwaddr_len : Z;
  hwaddr : bytes;
  netif_flags : Z;
  name : Z * Z;
  num : Z
}.

Definition NETIF_FLAG_UP : Z := 0x01.

Definition NETIF_FLAG_BROADCAST : Z := 0x02.

Definition NETIF_FLAG_LINK_UP : Z := 0x10.

Definition NETIF_FLAG_ETHARP : Z := 0x20.

Definition IPADDR_ANY : Z := 0x00000000.

Definition IPADDR_BROADCAST : Z := 0xffffffff.

Definition IPADDR_NONE : Z := 0xffffffff.

Definition ip_addr_netcmp (addr1 addr2 mask : Z) : bool := Z.land addr1 mask =? Z.land addr2 mask.

(** PP_HTONL is lwip_htonl on constants. *)
Definition ip_addr_ismulticast (addr : Z) : bool :=
  Z.land addr (lwip_htonl 0xf0000000) =? lwip_htonl 0xe0000000.

Definition ip_addr_islinklocal (addr : Z) : bool :=
  Z.land addr (lwip_htonl 0xffff0000) =? lwip_htonl 0xa9fe0000.

(** The complement of a u32_t. *)
Definition not32 (z : Z) : Z := u32 (Z.lnot z).

Definition ip4_addr_isbroadcast (addr : Z) (nif : netif) : Z :=
  if (not32 addr =? IPADDR_ANY) || (addr =? IPADDR_ANY) then 1
  else if Z.land (netif_flags nif) NETIF_FLAG_BROADCAST =? 0 then 0
  else if addr =? ip_addr nif then 0
  else if ip_addr_netcmp addr (ip_addr nif) (netmask nif) &&
          (Z.land addr (not32 (netmask nif)) =? Z.land IPADDR_BROADCAST (not32 (netmask nif)))
  then 1
  else 0.

(** The two loops of ip4_addr_netmask_valid shift a bit out of 32. *)
Fixpoint first_zero (fuel : nat) (nm mask : Z) : Z :=
  match fuel with
  | O => mask
  | S fuel =>
      if negb (mask =? 0) then
        if Z.land nm mask =? 0 then mask else first_zero fuel nm (Z.shiftr mask 1)
      else mask
  end.

Fixpoint only_zeros (fuel : nat) (nm mask : Z) : Z :=
  match fuel with
  | O => 1
  | S fuel =>
      if negb (mask =? 0) then
        if negb (Z.land nm mask =? 0) then 0 else only_zeros fuel nm (Z.shiftr mask 1)
      else 1
  end.

Definition ip4_addr_netmask_valid (netmask : Z) : Z :=
  let nm_hostorder := lwip_htonl netmask in
  let mask := first_zero 33 nm_hostorder (Z.shiftl 1 31) in
  only_zeros 33 nm_hostorder mask.

(** ** Text *)

Definition in_range (c lo up : Z) : bool := (lo <=? u8 c) && (u8 c <=? up).

Definition isdigit (c : Z) : bool := in_range c 48 57.

Definition isxdigit (c : Z) : bool := isdigit c || in_range c 97 102 || in_range c 65 70.

Definition islower (c : Z) : bool := in_range c 97 122.

Definition isspace (c : Z) : bool :=
  (c =? 32) || (c =? 12) || (c =? 10) || (c =? 13) || (c =? 9) || (c =? 11).

(** The character a pointer into a string points to. *)
Definition deref_char (cp : list Z) : Z := match cp with c :: _ => c | [] => 0 end.

(** The inner loop of ipaddr_aton: the digits of a number. *)
Fixpoint aton_digits (base val : Z) (cp : list Z) : Z * list Z :=
  match cp with
  | c :: cp' =>
      if isdigit c then aton_digits base (u32 (val * base + (c - 48))) cp'
      else if (base =? 16) && isxdigit c then
        aton_digits base (u32 (Z.lor (u32 (Z.shiftl val 4)) (c + 10 - (if islower c then 97 else 65)))) cp'
      else (val, cp)
  | [] => (val, [])
  end.

(** One round of the outer loop: the number at [cp] and what follows it. *)
Definition aton_number (cp : list Z) : option (Z * list Z) :=
  if negb (isdigit (deref_char cp)) then None
  else if deref_char cp =? 48 then
    let cp := tail cp in
    if (deref_char cp =? 120) || (deref_char cp =? 88) then Some (aton_digits 16 0 (tail cp))
    else Some (aton_digits 8 0 cp)
  else Some (aton_digits 10 0 cp).

(** The outer loop; [n] is how many more dots may follow, at most 3. *)
Fixpoint aton_loop (n : nat) (cp : list Z) (parts : list Z) : option (list Z * Z * list Z) :=
  match aton_number cp with
  | None => None
  | Some (val, cp) =>
      if deref_char cp =? 46 then
        match n with
        | O => None
        | S n => aton_loop n (tail cp) (parts ++ [val])
        end
      else Some (parts, val, cp)
  end.

(** The switch over the number of parts. *)
Definition aton_concoct (parts : list Z) (val : Z) : option Z :=
  match parts with
  | [] => Some val
  | [p0] => if 0xffffff <? val then None else Some (Z.lor val (u32 (Z.shiftl p0 24)))
  | [p0; p1] =>
      if 0xffff <? val then None
      else Some (Z.lor val (Z.lor (u32 (Z.shiftl p0 24)) (u32 (Z.shiftl p1 16))))
  | [p0; p1; p2] =>
      if 0xff <? val then None
      else Some (Z.lor val (Z.lor (Z.lor (u32 (Z.shiftl p0 24)) (u32 (Z.shiftl p1 16))) (u32 (Z.shiftl p2 8))))
  | _ => None
  end.

(** [None] is the return value 0, [Some addr] is 1 and what is stored. *)
Definition ipaddr_aton (cp : list Z) : option Z :=
  match aton_loop 3 cp [] with
  | None => None
  | Some (parts, val, cp) =>
      let c := deref_char cp in
      if negb (c =? 0) && negb (isspace c) then None
      else
        match aton_concoct parts val with
        | None => None
        | Some val => Some (lwip_htonl val)
        end
  end.

Definition ipaddr_addr (cp : list Z) : Z :=
  match ipaddr_aton cp with Some val => val | None => IPADDR_NONE end.

(** The do-while loop of ipaddr_ntoa_r: the decimal digits of a byte, last first.
    The array inv has room for three, a fourth would be a bug. *)
Fixpoint ntoa_digits (room : nat) (ap : Z) : option (list Z) :=
  match room with
  | O => None
  | S room =>
      let rem := ap mod 10 in
      let ap := ap / 10 in
      if negb (ap =? 0) then
        match ntoa_digits room ap with Some inv => Some (48 + rem :: inv) | None => None end
      else Some [48 + rem]
  end.

(** Append characters to the buffer while there is room. *)
Fixpoint ntoa_emit (cs : list Z) (len buflen : Z) (buf : list Z) : option (list Z * Z) :=
  match cs with
  | [] => Some (buf, len)
  | c :: cs => if buflen <=? len then None else ntoa_emit cs (len + 1) buflen (buf ++ [c])
  end.

(** The loop over the bytes of the address. *)
Fixpoint ntoa_loop (ap : bytes) (len buflen : Z) (rp : list Z) : option (list Z) :=
  match ap with
  | [] => Some rp
  | b :: ap =>
      match ntoa_digits 3 b with
      | None => None
      | Some inv =>
          match ntoa_emit (reverse inv ++ [46]) len buflen rp with
          | None => None
          | Some (rp, len) => ntoa_loop ap len buflen rp
          end
      end
  end.

(** The string in the buffer (its last dot is overwritten with the 0 at its end),
    or NULL. *)
Definition ipaddr_ntoa_r (addr buflen : Z) : option (list Z) :=
  match ntoa_loop [addr mod 256; addr / 256 mod 256; addr / 65536 mod 256; addr / 16777216 mod 256] 0 buflen [] with
  | None => None
  | Some rp => Some (removelast rp)
  end.

Definition ipaddr_ntoa (addr : Z) : option (list Z) := ipaddr_ntoa_r addr 16.

(** ** Masks *)

Lemma testbit_u32 z n : 0 <= n -> Z.testbit (u32 z) n = (n <? 32) && Z.testbit z n.
Proof.
  intros Hn. unfold u32. destruct (Z.ltb_spec n 32).
  - by rewrite Z.mod_pow2_bits_low.
  - by rewrite Z.mod_pow2_bits_high by lia.
Qed.

Lemma testbit_not32 z n : 0 <= n -> Z.testbit (not32 z) n = (n <? 32) && negb (Z.testbit z n).
Proof. intros Hn. unfold not32. rewrite testbit_u32, Z.lnot_spec by done. done. Qed.

Lemma u32_high z n : is_u32 z -> 32 <= n -> Z.testbit z n = false.
Proof.
  intros Hz Hn. rewrite <- (u32_id z Hz), testbit_u32 by lia.
  by rewrite (proj2 (Z.ltb_ge n 32)).
Qed.

(** An address whose network part is that of [ip] and whose host part is all ones. *)
Lemma directed_broadcast addr ip mask :
  is_u32 addr -> is_u32 ip -> is_u32 mask ->
  ip_addr_netcmp addr ip mask && (Z.land addr (not32 mask) =? Z.land IPADDR_BROADCAST (not32 mask)) = true <->
  addr = Z.lor (Z.land ip mask) (not32 mask).
Proof.
  intros Ha Hi Hm. unfold ip_addr_netcmp, IPADDR_BROADCAST. change 0xffffffff with (Z.ones 32).
  rewrite andb_true_iff, !Z.eqb_eq. split.
  - intros [E1 E2]. apply Z.bits_inj'. intros n Hn. rewrite Z.lor_spec, Z.land_spec, testbit_not32 by done.
    apply (f_equal (fun z => Z.testbit z n)) in E1, E2.
    rewrite !Z.land_spec in E1, E2. rewrite testbit_not32 in E2 by done.
    destruct (Z.ltb_spec n 32).
    + rewrite Z.ones_spec_low in E2 by lia. destruct (Z.testbit mask n); simpl in *.
      * rewrite !andb_true_r in E1. by rewrite E1, andb_true_r, orb_false_r.
      * rewrite andb_true_r in E2. by rewrite E2, andb_false_r.
    + rewrite (u32_high mask), (u32_high addr) by done. by rewrite andb_false_r.
  - intros ->. split; apply Z.bits_inj'; intros n Hn;
      rewrite !Z.land_spec, Z.lor_spec, Z.land_spec, testbit_not32 by done.
    + destruct (n <? 32), (Z.testbit ip n), (Z.testbit mask n); done.
    + destruct (Z.ltb_spec n 32); [rewrite Z.ones_spec_low by lia|by rewrite !andb_false_r].
      destruct (Z.testbit ip n), (Z.testbit mask n); done.
Qed.

Lemma land_pow2_zero z k : 0 <= k -> (Z.land z (2 ^ k) =? 0) = negb (Z.testbit z k).
Proof.
  intros Hk. destruct (Z.testbit z k) eqn:E; simpl.
  - apply Z.eqb_neq. intros E0. apply (f_equal (fun x => Z.testbit x k)) in E0.
    by rewrite Z.land_spec, E, Z.pow2_bits_true, Z.bits_0 in E0.
  - apply Z.eqb_eq, Z.bits_inj'. intros n Hn. rewrite Z.land_spec, Z.bits_0, Z.pow2_bits_eqb by done.
    destruct (Z.eqb_spec k n) as [->|]; [by rewrite E|by rewrite andb_false_r].
Qed.

Lemma pow2_shift k : 0 < k -> Z.shiftr (2 ^ k) 1 = 2 ^ (k - 1).
Proof.
  intros Hk. rewrite Z.shiftr_div_pow2 by done. replace (2 ^ k) with (2 ^ (k - 1) * 2 ^ 1).
  - by rewrite Z.div_mul.
  - rewrite <- Z.pow_add_r by lia. f_equal. lia.
Qed.

Lemma first_zero_ok fuel : forall nm k, (k < 32)%nat -> (k + 2 <= fuel)%nat ->
  (first_zero fuel nm (2 ^ Z.of_nat k) = 0 /\ forall i, 0 <= i <= Z.of_nat k -> Z.testbit nm i = true) \/
  (exists j, (j <= k)%nat /\ first_zero fuel nm (2 ^ Z.of_nat k) = 2 ^ Z.of_nat j /\
     Z.testbit nm (Z.of_nat j) = false /\ forall i, Z.of_nat j < i <= Z.of_nat k -> Z.testbit nm i = true).
Proof.
  induction fuel as [|fuel IH]; intros nm k Hk Hf; [lia|]. cbn [first_zero].
  rewrite (proj2 (Z.eqb_neq _ 0)) by (pose proof (Z.pow_pos_nonneg 2 (Z.of_nat k)); lia).
  cbn [negb]. rewrite land_pow2_zero by lia. destruct (Z.testbit nm (Z.of_nat k)) eqn:E; cbn [negb].
  - destruct k as [|k].
    + left. split; [by destruct fuel|]. intros i Hi. by replace i with 0 by lia.
    + rewrite pow2_shift by lia. replace (Z.of_nat (S k) - 1) with (Z.of_nat k) by lia.
      destruct (IH nm k ltac:(lia) ltac:(lia)) as [[H1 H2]|(j & Hj & H1 & H2 & H3)].
      * left. split; [done|]. intros i Hi. destruct (decide (i = Z.of_nat (S k))) as [->|]; [done|]. apply H2. lia.
      * right. exists j. split; [lia|]. split; [done|]. split; [done|]. intros i Hi.
        destruct (decide (i = Z.of_nat (S k))) as [->|]; [done|]. apply H3. lia.
  - right. exists k. split; [done|]. split; [done|]. split; [done|]. lia.
Qed.

Lemma only_zeros_ok fuel : forall nm k, (k + 2 <= fuel)%nat ->
  (only_zeros fuel nm (2 ^ Z.of_nat k) = 1 <-> forall i, 0 <= i <= Z.of_nat k -> Z.testbit nm i = false) /\
  (only_zeros fuel nm (2 ^ Z.of_nat k) = 0 \/ only_zeros fuel nm (2 ^ Z.of_nat k) = 1).
Proof.
  induction fuel as [|fuel IH]; intros nm k Hf; [lia|]. cbn [only_zeros].
  rewrite (proj2 (Z.eqb_neq _ 0)) by (pose proof (Z.pow_pos_nonneg 2 (Z.of_nat k)); lia).
  cbn [negb]. rewrite land_pow2_zero by lia. destruct (Z.testbit nm (Z.of_nat k)) eqn:E; cbn [negb].
  - split; [|by left]. split; [done|]. intros H. rewrite (H (Z.of_nat k)) in E by lia. done.
  - destruct k as [|k].
    + assert (only_zeros fuel nm (Z.shiftr (2 ^ Z.of_nat 0) 1) = 1) as -> by (by destruct fuel).
      split; [|by right]. split; [|done]. intros _ i Hi. by replace i with 0 by lia.
    + rewrite pow2_shift by lia. replace (Z.of_nat (S k) - 1) with (Z.of_nat k) by lia.
      destruct (IH nm k ltac:(lia)) as [H1 H2]. split; [|done]. rewrite H1. split.
      * intros H i Hi. destruct (decide (i = Z.of_nat (S k))) as [->|]; [done|]. apply H. lia.
      * intros H i Hi. apply H. lia.
Qed.

(** Ones from bit [j] up to 31. *)
Lemma testbit_prefix j n : 0 <= j <= 32 -> 0 <= n ->
  Z.testbit (2 ^ 32 - 2 ^ j) n = (j <=? n) && (n <? 32).
Proof.
  intros Hj Hn. replace (2 ^ 32 - 2 ^ j) with (Z.shiftl (Z.ones (32 - j)) j).
  - rewrite Z.shiftl_spec by done. destruct (Z.leb_spec j n); simpl; [|by rewrite Z.testbit_neg_r by lia].
    destruct (Z.ltb_spec n 32); [rewrite Z.ones_spec_low by lia|rewrite Z.ones_spec_high by lia]; done.
  - rewrite Z.shiftl_mul_pow2, Z.ones_equiv by lia. rewrite Z.mul_pred_l, <- Z.pow_add_r by lia.
    do 2 f_equal. lia.
Qed.

Lemma prefix_bits nm j : is_u32 nm -> 0 <= j <= 32 ->
  nm = 2 ^ 32 - 2 ^ j <->
  (forall i, j <= i < 32 -> Z.testbit nm i = true) /\ (forall i, 0 <= i < j -> Z.testbit nm i = false).
Proof.
  intros Hu Hj. split.
  - intros ->. split; intros i Hi; rewrite testbit_prefix by lia; lia.
  - intros [H1 H2]. apply Z.bits_inj'. intros n Hn. rewrite testbit_prefix by lia.
    destruct (Z.leb_spec j n), (Z.ltb_spec n 32); simpl.
    + apply H1. lia.
    + by apply u32_high.
    + apply H2. lia.
    + apply H2. lia.
Qed.

Lemma netmask_valid_bits nm : is_u32 nm ->
  (only_zeros 33 nm (first_zero 33 nm (Z.shiftl 1 31)) = 1 <-> exists j, 0 <= j <= 32 /\ nm = 2 ^ 32 - 2 ^ j) /\
  (only_zeros 33 nm (first_zero 33 nm (Z.shiftl 1 31)) = 0 \/
   only_zeros 33 nm (first_zero 33 nm (Z.shiftl 1 31)) = 1).
Proof.
  intros Hu. change (Z.shiftl 1 31) with (2 ^ Z.of_nat 31).
  destruct (first_zero_ok 33 nm 31 ltac:(lia) ltac:(lia)) as [[-> H]|(j & Hj & -> & Hf & H)].
  - split; [|by right]. split; [|done]. intros _. exists 0. split; [lia|].
    apply prefix_bits; [done|lia|]. split; intros i Hi; [apply H; lia|lia].
  - destruct (only_zeros_ok 33 nm j ltac:(lia)) as [H1 H2]. split; [|done]. rewrite H1. split.
    + intros Hz. exists (Z.of_nat j + 1). split; [lia|]. apply prefix_bits; [done|lia|].
      split; intros i Hi; [apply H; lia|apply Hz; lia].
    + intros (k & Hk & E) i Hi. apply prefix_bits in E as [E1 E2]; [|done|lia].
      apply E2. split; [lia|]. destruct (Z.ltb_spec i k); [done|].
      rewrite (E1 (Z.of_nat j)) in Hf by lia. done.
Qed.

(** ** Text *)

(** The decimal representation of a byte. *)
Definition dec (b : Z) : list Z :=
  if b <? 10 then [48 + b]
  else if b <? 100 then [48 + b / 10; 48 + b mod 10]
  else [48 + b / 100; 48 + b / 10 mod 10; 48 + b mod 10].

Definition dotted (ap : bytes) : list Z := concat (map (fun b => dec b ++ [46]) ap).

(** The address in dotted-decimal notation. *)
Definition dotted_quad (b0 b1 b2 b3 : Z) : list Z :=
  dec b0 ++ 46 :: dec b1 ++ 46 :: dec b2 ++ 46 :: dec b3.

Lemma ntoa_digits_dec b : is_u8 b -> exists inv, ntoa_digits 3 b = Some inv /\ reverse inv = dec b.
Proof.
  unfold is_u8, dec. intros Hb. cbn [ntoa_digits].
  destruct (Z.eqb_spec (b / 10) 0) as [E|E]; cbn [negb].
  - rewrite (proj2 (Z.ltb_lt b 10)) by zdm. eexists. split; [done|].
    change (reverse [48 + b mod 10]) with [48 + b mod 10]. do 2 f_equal. apply Z.mod_small. zdm.
  - rewrite (proj2 (Z.ltb_ge b 10)) by zdm. destruct (Z.eqb_spec (b / 10 / 10) 0) as [E1|E1]; cbn [negb].
    + rewrite (proj2 (Z.ltb_lt b 100)) by zdm. eexists. split; [done|].
      change (reverse [48 + b mod 10; 48 + b / 10 mod 10]) with [48 + b / 10 mod 10; 48 + b mod 10].
      do 2 f_equal. apply Z.mod_small. zdm.
    + rewrite (proj2 (Z.ltb_ge b 100)) by zdm. rewrite (proj2 (Z.eqb_eq (b / 10 / 10 / 10) 0)) by zdm.
      cbn [negb]. eexists. split; [done|]. cbn. do 2 f_equal.
      rewrite Z.div_div by lia. apply Z.mod_small. zdm.
Qed.

Lemma ntoa_emit_ok cs : forall n buflen buf, n <= buflen ->
  ntoa_emit cs n buflen buf = if n + zlen cs <=? buflen then Some (buf ++ cs, n + zlen cs) else None.
Proof.
  induction cs as [|c cs IH]; intros n buflen buf Hn; cbn [ntoa_emit].
  - rewrite zlen_nil, Z.add_0_r, app_nil_r. by rewrite (proj2 (Z.leb_le _ _)).
  - rewrite zlen_cons. pose proof (zlen_nonneg cs). destruct (Z.leb_spec buflen n).
    + by rewrite (proj2 (Z.leb_gt _ _)) by lia.
    + rewrite IH, <- app_assoc by lia. by replace (n + 1 + zlen cs) with (n + (1 + zlen cs)) by lia.
Qed.

Lemma ntoa_loop_ok ap : forall n buflen rp, Forall is_u8 ap -> n <= buflen ->
  ntoa_loop ap n buflen rp = if n + zlen (dotted ap) <=? buflen then Some (rp ++ dotted ap) else None.
Proof.
  induction ap as [|b ap IH]; intros n buflen rp Hu Hn; cbn [ntoa_loop].
  - change (dotted []) with (@nil Z). rewrite zlen_nil, Z.add_0_r, app_nil_r. by rewrite (proj2 (Z.leb_le _ _)).
  - apply list.Forall_cons in Hu as [Hb Hu]. destruct (ntoa_digits_dec b Hb) as (inv & -> & ->).
    change (dotted (b :: ap)) with ((dec b ++ [46]) ++ dotted ap).
    rewrite ntoa_emit_ok, (zlen_app (dec b ++ [46])) by done. pose proof (zlen_nonneg (dotted ap)).
    destruct (Z.leb_spec (n + zlen (dec b ++ [46])) buflen).
    + rewrite IH, Z.add_assoc, <- !app_assoc by done. done.
    + by rewrite (proj2 (Z.leb_gt _ _)) by lia.
Qed.

Lemma removelast_dotted b0 b1 b2 b3 :
  removelast (dotted [b0; b1; b2; b3]) = dotted_quad b0 b1 b2 b3 /\
  zlen (dotted [b0; b1; b2; b3]) = zlen (dotted_quad b0 b1 b2 b3) + 1.
Proof.
  assert (dotted [b0; b1; b2; b3] = dotted_quad b0 b1 b2 b3 ++ [46]) as ->.
  { unfold dotted, dotted_quad. cbn [map concat]. rewrite app_nil_r.
    repeat (rewrite <- app_assoc; cbn [app]). done. }
  by rewrite removelast_last, zlen_app.
Qed.

Lemma dec_length b : 1 <= zlen (dec b) <= 3.
Proof. unfold dec. destruct (b <? 10), (b <? 100); unfold zlen; simpl; lia. Qed.

(** What may follow a number. *)
Definition ends_number (cp : list Z) : Prop :=
  isdigit (deref_char cp) = false /\ deref_char cp <> 120 /\ deref_char cp <> 88.

Lemma isdigit_dec d : 0 <= d < 10 -> isdigit (48 + d) = true.
Proof. intros Hd. unfold isdigit, in_range. rewrite u8_id by (unfold is_u8; lia). lia. Qed.

Lemma aton_digits_step base v d cp : base = 10 \/ base = 8 -> 0 <= d < 10 -> 0 <= v < 1000 ->
  aton_digits base v (48 + d :: cp) = aton_digits base (v * base + d) cp.
Proof.
  intros Hb Hd Hv. cbn [aton_digits]. rewrite isdigit_dec by done. f_equal.
  replace (48 + d - 48) with d by lia. apply u32_id. unfold is_u32. destruct Hb as [-> | ->]; lia.
Qed.

Lemma aton_digits_end base v cp : base <> 16 -> ends_number cp -> aton_digits base v cp = (v, cp).
Proof.
  intros Hb (Hd & _). destruct cp as [|c cp]; [done|]. cbn [aton_digits]. simpl in Hd. rewrite Hd.
  by rewrite (proj2 (Z.eqb_neq _ _)).
Qed.

Lemma aton_number_dec b cp : is_u8 b -> ends_number cp -> aton_number (dec b ++ cp) = Some (b, cp).
Proof.
  unfold is_u8. intros Hb He. unfold dec. destruct (Z.ltb_spec b 10) as [H1|H1]; [|destruct (Z.ltb_spec b 100) as [H2|H2]].
  all: unfold aton_number; cbn [app deref_char tail]; rewrite isdigit_dec by zdm; cbn [negb].
  - destruct (Z.eqb_spec (48 + b) 48) as [E|E].
    + destruct He as (Hd & Hx & HX). rewrite (proj2 (Z.eqb_neq _ 120)), (proj2 (Z.eqb_neq _ 88)) by done.
      cbn [orb]. rewrite aton_digits_end by done. do 2 f_equal. lia.
    + rewrite aton_digits_step, aton_digits_end by (auto; lia). done.
  - rewrite (proj2 (Z.eqb_neq _ 48)) by zdm.
    rewrite !aton_digits_step, aton_digits_end by (auto; zdm). do 2 f_equal. zdm.
  - rewrite (proj2 (Z.eqb_neq _ 48)) by zdm.
    rewrite !aton_digits_step, aton_digits_end by (auto; zdm). do 2 f_equal. zdm.
Qed.

Lemma aton_loop_dot n b cp parts : is_u8 b ->
  aton_loop (S n) (dec b ++ 46 :: cp) parts = aton_loop n cp (parts ++ [b]).
Proof. intros Hb. cbn [aton_loop]. rewrite aton_number_dec by done. done. Qed.

Lemma aton_quad b0 b1 b2 b3 : is_u8 b0 -> is_u8 b1 -> is_u8 b2 -> is_u8 b3 ->
  ipaddr_aton (dotted_quad b0 b1 b2 b3) = Some (le32 b0 b1 b2 b3).
Proof.
  intros H0 H1 H2 H3. unfold ipaddr_aton, dotted_quad.
  rewrite !aton_loop_dot by done. cbn [aton_loop app]. rewrite <- (app_nil_r (dec b3)).
  rewrite aton_number_dec by done. cbn [deref_char Z.eqb negb andb].
  unfold aton_concoct. unfold is_u8 in H3. rewrite (proj2 (Z.ltb_ge 0xff b3)) by lia.
  autorewrite with bits.
  rewrite (u32_id (b0 * 16777216)), (u32_id (b1 * 65536)), (u32_id (b2 * 256)) by (unfold is_u8, is_u32 in *; lia).
  rewrite Z.lor_comm, lwip_htonl_lanes by done. by rewrite htonl_bytes.
Qed.

(** ** Properties *)

(** Ip4_addr_isbroadcast answers 1 exactly for 0.0.0.0, 255.255.255.255, and,
    on an interface with broadcasts, for the address made of the interface's
    network bits and all-ones host bits, unless that is the interface's own
    address; it answers 0 otherwise. *)
Theorem isbroadcast_spec addr nif :
  is_u32 addr -> is_u32 (ip_addr nif) -> is_u32 (netmask nif) ->
  (ip4_addr_isbroadcast addr nif = 1 <->
     addr = 0 \/ addr = 2 ^ 32 - 1 \/
     (Z.testbit (netif_flags nif) 1 = true /\ addr <> ip_addr nif /\
      addr = Z.lor (Z.land (ip_addr nif) (netmask nif)) (not32 (netmask nif)))) /\
  (ip4_addr_isbroadcast addr nif = 0 \/ ip4_addr_isbroadcast addr nif = 1).
Proof.
  intros Ha Hi Hm. unfold ip4_addr_isbroadcast, IPADDR_ANY.
  assert ((not32 addr =? 0) = (addr =? 2 ^ 32 - 1)) as ->.
  { unfold not32, Z.lnot, u32, is_u32 in *. rewrite <- Z.sub_1_r.
    replace ((- addr - 1) mod 2 ^ 32) with (2 ^ 32 - 1 - addr); [lia|].
    replace (- addr - 1) with (2 ^ 32 - 1 - addr + (-1) * 2 ^ 32) by lia.
    rewrite Z.mod_add by lia. symmetry. apply Z.mod_small. lia. }
  change NETIF_FLAG_BROADCAST with (2 ^ 1). rewrite land_pow2_zero by lia.
  pose proof (directed_broadcast addr (ip_addr nif) (netmask nif) Ha Hi Hm) as Hd.
  destruct (Z.eqb_spec addr (2 ^ 32 - 1)); [split; [tauto|by right]|].
  destruct (Z.eqb_spec addr 0); [split; [tauto|by right]|]. cbn [orb].
  destruct (Z.testbit (netif_flags nif) 1); cbn [negb].
  2: { split; [|by left]. split; [done|]. intros [?|[?|(? & _)]]; done. }
  destruct (Z.eqb_spec addr (ip_addr nif)).
  { split; [|by left]. split; [done|]. intros [?|[?|(_ & ? & _)]]; done. }
  destruct (_ && _); split; try tauto.
  split; [done|]. intros [?|[?|(_ & _ & E)]]; [done|done|]. apply Hd in E. done.
Qed.

(** 10.0.0.1/24 in network byte order. *)
Definition nif_demo : netif :=
  Netif (le32 10 0 0 1) (le32 255 255 255 0) (le32 10 0 0 254) 1500 6 [2; 0; 0; 0; 0; 1] 0x33 (101, 110) 0.

Lemma isbroadcast_spec_witness : ip4_addr_isbroadcast (le32 10 0 0 255) nif_demo = 1.
Proof.
  apply (isbroadcast_spec (le32 10 0 0 255) nif_demo).
  - concrete.
  - concrete.
  - concrete.
  - right. right. split; [reflexivity|]. split; [discriminate|reflexivity].
Defined.

(** Ip4_addr_netmask_valid answers 1 exactly for the masks that are a prefix of
    ones (possibly empty) in host byte order, and 0 for all others. *)
Theorem netmask_valid_spec m : is_u32 m ->
  (ip4_addr_netmask_valid m = 1 <-> exists j, 0 <= j <= 32 /\ lwip_ntohl m = 2 ^ 32 - 2 ^ j) /\
  (ip4_addr_netmask_valid m = 0 \/ ip4_addr_netmask_valid m = 1).
Proof. intros Hm. apply netmask_valid_bits, htonl_u32. Qed.

Lemma netmask_valid_spec_witness :
  ip4_addr_netmask_valid (le32 255 255 240 0) = 1 /\ ip4_addr_netmask_valid (le32 255 0 255 0) <> 1.
Proof.
  split; [|discriminate]. apply (netmask_valid_spec (le32 255 255 240 0)); [concrete|].
  exists 12. split; [lia|reflexivity].
Defined.

(** C36: ipaddr_ntoa_r writes the dotted-decimal notation of every address when the
    buffer has room for it and its terminator, and returns NULL otherwise; 16
    bytes always suffice; and ipaddr_aton reads it back as the same address. *)
Theorem ntoa_aton_roundtrip b0 b1 b2 b3 buflen :
  is_u8 b0 -> is_u8 b1 -> is_u8 b2 -> is_u8 b3 -> 0 <= buflen ->
  let addr := le32 b0 b1 b2 b3 in
  let str := dotted_quad b0 b1 b2 b3 in
  ipaddr_ntoa_r addr buflen = (if zlen str <? buflen then Some str else None) /\
  zlen str < 16 /\ ipaddr_aton str = Some addr.
Proof.
  intros H0 H1 H2 H3 Hb addr str.
  assert (addr mod 256 = b0 /\ addr / 256 mod 256 = b1 /\ addr / 65536 mod 256 = b2 /\ addr / 16777216 mod 256 = b3)
    as (E0 & E1 & E2 & E3).
  { unfold addr, le32, is_u8 in *. split; [zdm|]. split; [zdm|]. split; zdm. }
  destruct (removelast_dotted b0 b1 b2 b3) as [Er El]. split; [|split].
  - unfold ipaddr_ntoa_r. rewrite E0, E1, E2, E3, ntoa_loop_ok by (done || by repeat apply list.Forall_cons_2).
    fold str in El, Er. rewrite El. cbn [app]. destruct (Z.ltb_spec (zlen str) buflen).
    + rewrite (proj2 (Z.leb_le _ _)) by lia. by rewrite Er.
    + by rewrite (proj2 (Z.leb_gt _ _)) by lia.
  - unfold str, dotted_quad. rewrite !zlen_app, !zlen_cons, !zlen_app, !zlen_cons, !zlen_app, !zlen_cons.
    pose proof (dec_length b0). pose proof (dec_length b1). pose proof (dec_length b2).
    pose proof (dec_length b3). lia.
  - by apply aton_quad.
Qed.

Lemma ntoa_aton_roundtrip_witness :
  ipaddr_ntoa_r (le32 192 168 0 7) 16 = Some (dotted_quad 192 168 0 7) /\
  ipaddr_aton (dotted_quad 192 168 0 7) = Some (le32 192 168 0 7).
Proof.
  destruct (ntoa_aton_roundtrip 192 168 0 7 16) as (E & _ & E').
  - concrete.
  - concrete.
  - concrete.
  - concrete.
  - lia.
  - split; [exact E|exact E'].
Defined.

(** ipaddr_aton checks the range of the last part only: it accepts "1.256.0.1", as
    1.0.0.1. *)
Theorem aton_part_overflow :
  ipaddr_aton [49; 46; 50; 53; 54; 46; 48; 46; 49] = Some (le32 1 0 0 1).
Proof. reflexivity. Qed.
