(* ===== verification/PbufOwn.v ===== *)
(** * Packets with one owner

    The protocols above the packet buffers mostly hold the only reference to each
    packet.  [Packets] is the set of operations they use on such packets and
    [PacketsSpec] what these promise, in terms of a map from the packets held to
    the memory their data is in.  The packet buffers implement it. *)

From S2P Require Import Prelude Alloc Pbuf AllocImpl PbufSpec.

(** The data of a packet: address and length of each segment. *)
Abbreviation segs := (list (ptr * Z)).

Definition segs_len (l : segs) : Z := foldr (fun x acc => x.2 + acc) 0 l.

(** ** The interface *)

Class Packets (S : Type) := {
  pk_alloc : pbuf_layer -> Z -> M S (option ptr);
  pk_clen : ptr -> M S Z;
  pk_free : ptr -> M S Z;
  pk_header : ptr -> Z -> M S Z;
  pk_cat : ptr -> ptr -> M S unit
}.

Class PacketsSpec (S : Type) `{Packets S} := {
  pk_inv : S -> gmap ptr segs -> Prop;
  pk_alloc_ok s own layer n :
    pk_inv s own -> 0 <= n <= max_ram_length ->
    exists o s', pk_alloc layer n s = Done (o, s') /\
      match o with
      | None => pk_inv s' own
      | Some p => own !! p = None /\ exists l, segs_len l = n /\ pk_inv s' (<[p := l]> own)
      end;
  pk_clen_ok s own p l :
    pk_inv s own -> own !! p = Some l -> pk_clen p s = Done (u8 (zlen l), s);
  pk_free_ok s own p l :
    pk_inv s own -> own !! p = Some l ->
    exists n s', pk_free p s = Done (n, s') /\ pk_inv s' (delete p own);
  pk_hide_ok s own p x n l k :
    pk_inv s own -> own !! p = Some ((x, n) :: l) -> 0 < k <= n -> k <= 32767 ->
    exists s', pk_header p (- k) s = Done (0, s') /\
      pk_inv s' (<[p := (padd x k, n - k) :: l]> own);
  pk_cat_ok s own h t lh lt :
    pk_inv s own -> own !! h = Some lh -> own !! t = Some lt -> h <> t ->
    segs_len lh + segs_len lt < 65536 ->
    exists s', pk_cat h t s = Done (tt, s') /\ pk_inv s' (<[h := lh ++ lt]> (delete t own));
  pk_len s own p l : pk_inv s own -> own !! p = Some l ->
    0 <= segs_len l < 65536 /\ l <> [] /\ Forall (fun x => 0 <= x.2) l
}.

(** ** Owned chains *)

Implicit Types (m : gmap ptr pbuf).

Definition segs_of (k : list (ptr * pbuf)) : segs :=
  (fun ab => (default (RExt, 0) (payload ab.2), len ab.2)) <$> k.

Lemma segs_of_view k k' : view <$> k = view <$> k' -> segs_of k = segs_of k'.
Proof.
  revert k'. induction k as [|[a b] k IH]; intros [|[a' b'] k'] E; simpl in E; simplify_eq; [done|].
  unfold segs_of in *. rewrite !fmap_cons, (IH k') by done. f_equal. unfold view in *. simpl in *. congruence.
Qed.

Lemma segs_len_of k : segs_len (segs_of k) = lsum k.
Proof. induction k as [|[a b] k IH]; [done|]. unfold lsum. simpl. f_equal. exact IH. Qed.

Lemma segs_len_app l k : segs_len (l ++ k) = segs_len l + segs_len k.
Proof. induction l as [|x l IH]; simpl; lia. Qed.

(** A pbuf linked to once is linked to by one pbuf. *)
Lemma nrefs_one m a x y bx by_ :
  nrefs m a <= 1 -> m !! x = Some bx -> next bx = Some a -> m !! y = Some by_ -> next by_ = Some a -> x = y.
Proof.
  intros Hn Hx Hnx Hy Hny. destruct (decide (x = y)) as [|Hne]; [done|]. exfalso.
  assert (nrefs (delete x m) a >= 1) as H1.
  { pose proof (nrefs_nonneg (delete x m) a). destruct (decide (nrefs (delete x m) a = 0)) as [E|]; [|lia].
    exfalso. eapply (nrefs_zero _ _ y by_ E); [by rewrite lookup_delete_ne|done]. }
  rewrite (nrefs_delete m x bx a Hx) in Hn. unfold links_to in Hn. rewrite bool_decide_true in Hn by done.
  simpl in Hn. lia.
Qed.

Lemma chain_prev m k1 : forall (q : option ptr) a b k2,
  chain m q (k1 ++ (a, b) :: k2) -> q = Some a \/ exists y c, (y, c) ∈ k1 /\ m !! y = Some c /\ next c = Some a.
Proof.
  induction k1 as [|[y c] k1 IH]; intros q a b k2 Hc.
  - left. by destruct Hc.
  - right. destruct Hc as (-> & Hy & Hc). destruct (IH _ _ _ _ Hc) as [E|(z & d & Hz & H1 & H2)].
    + exists y, c. split; [by left|done].
    + exists z, d. split; [by right|done].
Qed.

(** The chain of a pbuf nobody links to, with single references throughout, is
    nobody else's. *)
Lemma single_unshared m p k :
  chain m (Some p) k -> nrefs m p = 0 -> (forall a, a ∈ k.*1 -> nrefs m a <= 1) -> unshared m k.
Proof.
  intros Hc Hp H1 x c a Hx Hn ([a' b] & -> & Hin)%list_elem_of_fmap. simpl in *.
  apply list_elem_of_split in Hin as (k1 & k2 & ->).
  destruct (chain_prev _ _ _ _ _ _ Hc) as [E|(y & d & Hy & Hmy & Hny)].
  - simplify_eq. exfalso. by eapply (nrefs_zero m a' x).
  - assert (x = y) as ->.
    { eapply (nrefs_one m a'); try done. apply H1. rewrite fmap_app. apply elem_of_app. right. by left. }
    rewrite fmap_app. apply elem_of_app. left. apply list_elem_of_fmap. by exists (y, d).
Qed.

Lemma chain_back m k l : forall q a,
  chain m (Some q) l -> unshared m k -> a ∈ l.*1 -> a ∈ k.*1 -> q ∈ k.*1.
Proof.
  induction l as [|[x b] l IH]; intros q a Hc Hu Hl Hk; [done|].
  destruct Hc as (E & Hx & Hc). simplify_eq. rewrite fmap_cons in Hl.
  apply elem_of_cons in Hl as [->|Hl]; [done|].
  destruct (next b) as [n|] eqn:En.
  - by apply (Hu x b n Hx En), (IH n a).
  - destruct l as [|[? ?] ?]; [by apply elem_of_nil in Hl|by destruct Hc].
Qed.

Lemma chain_inner m p k q : chain m (Some p) k -> q ∈ k.*1 -> q <> p -> 0 < nrefs m q.
Proof.
  intros Hc ([a b] & -> & Hin)%list_elem_of_fmap Hne. simpl in *.
  apply list_elem_of_split in Hin as (k1 & k2 & ->).
  destruct (chain_prev _ _ _ _ _ _ Hc) as [E|(y & d & _ & Hmy & Hny)]; [by simplify_eq|].
  pose proof (nrefs_nonneg m a). destruct (decide (nrefs m a = 0)) as [E|]; [|lia].
  exfalso. by eapply (nrefs_zero m a y).
Qed.

Section own.
Context {A : Type} `{AllocatorSpec A}.
Context (stale_flags : ptr -> Z).
Context (custom : ptr -> option (M (pstate A) unit)).
Implicit Types (s : pstate A) (own : gmap ptr segs).

(** The chain of a packet: its data is [l], nobody else refers to any of it. *)
Definition owned s (p : ptr) (l : segs) (k : list (ptr * pbuf)) : Prop :=
  chain (pbufs s) (Some p) k /\ segs_of k = l /\
  Forall (fun ab => ref ab.2 = 1 /\ is_Some (payload ab.2)) k.

Definition own_inv s own : Prop :=
  exists L, pinv s L (map_to_list own).*1 /\
    forall p l, own !! p = Some l -> exists k, owned s p l k.

Lemma own_ext own p l : own !! p = Some l -> p ∈ (map_to_list own).*1.
Proof. intros Hp. apply list_elem_of_fmap. exists (p, l). split; [done|]. by apply elem_of_map_to_list. Qed.

Lemma held_in p ext : p ∈ ext -> 1 <= held p ext.
Proof.
  induction ext as [|q ext IH]; intros Hp; [by apply elem_of_nil in Hp|]. rewrite held_cons.
  pose proof (held_nonneg p ext). apply elem_of_cons in Hp as [->|Hp].
  - rewrite bool_decide_true by done. simpl. lia.
  - specialize (IH Hp). destruct (bool_decide _); simpl; lia.
Qed.

Lemma owned_refs s L own p l k :
  pinv s L (map_to_list own).*1 -> own !! p = Some l -> owned s p l k ->
  nrefs (pbufs s) p = 0 /\ unshared (pbufs s) k.
Proof.
  intros (_ & _ & [Hr _] & _) Hp (Hc & _ & H1). rewrite list.Forall_forall in H1.
  assert (nrefs (pbufs s) p = 0) as Hz.
  { destruct k as [|[p' b] k]; [done|]. pose proof Hc as (E & Hb & _). simplify_eq.
    destruct (H1 (p', b) ltac:(left)) as [Hb1 _]. simpl in Hb1.
    pose proof (Hr p' b Hb). pose proof (held_in p' _ (own_ext _ _ _ Hp)). pose proof (nrefs_nonneg (pbufs s) p'). lia. }
  split; [done|]. apply (single_unshared _ p); [done|done|].
  intros a ([a' b] & -> & Hin)%list_elem_of_fmap. simpl. destruct (H1 _ Hin) as [Hb1 _]. simpl in Hb1.
  pose proof (Hr a' b (chain_in _ _ _ _ _ Hc Hin)). pose proof (held_nonneg a' (map_to_list own).*1). lia.
Qed.

Lemma owned_apart s L own p q l l' k k' a :
  pinv s L (map_to_list own).*1 -> own !! p = Some l -> own !! q = Some l' -> p <> q ->
  owned s p l k -> owned s q l' k' -> a ∈ k.*1 -> a ∉ k'.*1.
Proof.
  intros Hi Hp Hq Hne Hk Hk' Ha Ha'. destruct (owned_refs _ _ _ _ _ _ Hi Hp Hk) as [_ Hu].
  destruct (owned_refs _ _ _ _ _ _ Hi Hq Hk') as [Hq0 _].
  pose proof (chain_back _ _ _ _ _ (proj1 Hk') Hu Ha' Ha) as Hin.
  pose proof (chain_inner _ _ _ _ (proj1 Hk) Hin ltac:(done)). lia.
Qed.

(** A packet is not touched by a change elsewhere. *)
Lemma owned_keep s s' p l k :
  owned s p l k -> (forall a, a ∈ k.*1 -> pbufs s' !! a = pbufs s !! a) -> owned s' p l k.
Proof. intros (Hc & Hl & H1) He. split; [by eapply chain_ext|done]. Qed.

Lemma own_delete_perm own p l : own !! p = Some l -> (map_to_list own).*1 ≡ₚ p :: (map_to_list (delete p own)).*1.
Proof.
  intros Hp. rewrite <- (insert_delete_id own p l Hp) at 1.
  rewrite map_to_list_insert by apply lookup_delete_eq. by rewrite fmap_cons.
Qed.

Lemma own_insert_perm own p l : own !! p = None -> (map_to_list (<[p := l]> own)).*1 ≡ₚ p :: (map_to_list own).*1.
Proof. intros Hp. rewrite map_to_list_insert by done. by rewrite fmap_cons. Qed.

Lemma own_replace_perm own p l l' : own !! p = Some l ->
  (map_to_list (<[p := l']> own)).*1 ≡ₚ (map_to_list own).*1.
Proof.
  intros Hp. rewrite (own_delete_perm own p l Hp), <- (own_insert_perm _ p l') by apply lookup_delete_eq.
  by rewrite insert_delete_eq.
Qed.

Lemma own_clen s own p l :
  own_inv s own -> own !! p = Some l -> pbuf_clen (Some p) s = Done (u8 (zlen l), s).
Proof.
  intros (L & _ & Ho) Hp. destruct (Ho p l Hp) as (k & Hc & <- & _).
  rewrite (pbuf_clen_ok s _ k Hc). unfold zlen, segs_of. by rewrite length_fmap.
Qed.

Lemma own_free s own p l :
  own_inv s own -> own !! p = Some l ->
  exists n s', pbuf_free custom (Some p) s = Done (n, s') /\ own_inv s' (delete p own).
Proof.
  intros (L & Hi & Ho) Hp. destruct (Ho p l Hp) as (k & Hk). pose proof Hk as (Hc & _ & H1).
  pose proof Hi as Hi'. apply (pinv_perm _ _ _ _ (own_delete_perm own p l Hp)) in Hi'.
  destruct (pbuf_free_inv custom s L _ p k Hi' Hc) as (s' & E & Hs & _ & Hi2).
  eexists _, s'. split; [exact E|]. eexists. split; [exact Hi2|].
  intros q l' Hq. apply lookup_delete_Some in Hq as [Hne Hq]. destruct (Ho q l' Hq) as (k' & Hk').
  exists k'. apply (owned_keep s); [done|]. intros a Ha. rewrite Hs. apply drop_lookup_ne.
  apply (owned_apart s L own q p l' l k' k a Hi); auto.
Qed.

Lemma own_hide s own p x n l j :
  own_inv s own -> own !! p = Some ((x, n) :: l) -> 0 < j <= n -> j <= 32767 ->
  exists s', pbuf_header (Some p) (- j) s = Done (0, s') /\
    own_inv s' (<[p := (padd x j, n - j) :: l]> own).
Proof.
  intros (L & Hi & Ho) Hp Hj Hj'. destruct (Ho p _ Hp) as (k & Hk). pose proof Hk as (Hc & Hl & H1).
  destruct k as [|[p' b] k]; [done|]. pose proof Hc as (E & Hb & Hck). simplify_eq.
  simpl in Hl. injection Hl as Hx Hn Hl. apply list.Forall_cons in H1 as [[Hr1 [pay Hpay]] H1].
  simpl in Hr1, Hpay. rewrite Hpay in Hx. simpl in Hx. subst pay n.
  destruct (owned_refs _ _ _ _ _ _ Hi Hp Hk) as [Hz _].
  destruct (tot_is_sum _ _ _ _ _ _ Hi Hb Hc) as [_ Hlt].
  pose proof Hi as (_ & Hno & _). destruct (Hno p' b Hb) as ((_ & _ & Hlu & Htu & nb & _ & Hpl) & _).
  unfold is_u16 in *.
  assert (header_fits p' b x (- j) = true) as Hfit.
  { unfold header_fits. unfold payload_ok in Hpl. destruct (type b); try (apply Z.ltb_lt; lia);
      destruct Hpl as (a & E & ? & _); simplify_eq; simpl; apply Z.leb_le; lia. }
  pose proof (pbuf_header_eq s p' b x (- j) Hb Hpay Hlu Htu ltac:(lia) ltac:(lia) ltac:(lia) ltac:(lia) ltac:(lia)) as E.
  rewrite Hfit in E. eexists. split; [exact E|]. eexists. split.
  - eapply pinv_perm; [symmetry; by eapply own_replace_perm|].
    apply (moved_inv s L _ p' b x (- j)); try done; lia.
  - intros q l' Hq. destruct (decide (p' = q)) as [<-|Hne].
    + rewrite lookup_insert_eq in Hq. simplify_eq. exists ((p', moved b x (- j)) :: k).
      split; [|split].
      * split; [done|]. split; [apply lookup_insert_eq|]. apply chain_insert_ne; [|exact Hck].
        pose proof (chain_NoDup _ _ _ Hc) as Hnd. by apply list.NoDup_cons in Hnd as [? _].
      * unfold segs_of. rewrite fmap_cons. simpl. by rewrite Z.opp_involutive.
      * constructor; [|done]. split; [done|by eexists].
    + rewrite lookup_insert_ne in Hq by done. destruct (Ho q l' Hq) as (k' & Hk'). exists k'.
      apply (owned_keep s); [done|]. intros a Ha. apply lookup_insert_ne. intros <-.
      apply (owned_apart s L own q p' _ _ _ _ p' Hi Hq Hp (not_eq_sym Hne) Hk' Hk Ha). by left.
Qed.

Lemma cat_map_ref m l z zb t tb a b :
  NoDup (l ++ [(z, zb)]).*1 -> (forall x c, (x, c) ∈ l ++ [(z, zb)] -> m !! x = Some c) ->
  cat_map m l z zb t tb !! a = Some b ->
  exists c, m !! a = Some c /\ ref b = ref c /\ payload b = payload c.
Proof.
  intros Hnd Hin Hb. unfold cat_map in Hb. rewrite fmap_app in Hnd.
  apply list.NoDup_app in Hnd as (Hnd & Hd & _). destruct (decide (z = a)) as [->|Hne].
  - rewrite lookup_insert_eq in Hb. simplify_eq. exists zb. split; [|done].
    apply Hin, elem_of_app. right. by left.
  - rewrite lookup_insert_ne in Hb by done. destruct (decide (a ∈ l.*1)) as [Ha|Ha].
    + apply list_elem_of_fmap in Ha as ([a' c] & -> & Ha). simpl in *.
      rewrite (bump_lookup _ _ _ _ c) in Hb by done. simplify_eq. exists c. split; [|done].
      apply Hin, elem_of_app. by left.
    + rewrite bump_lookup_ne in Hb by done. by exists b.
Qed.

(** The pbufs of a chain seen through another map. *)
Lemma chain_refs m m' k : forall (q : option ptr),
  chain m' q k -> (forall a b, m' !! a = Some b -> exists c, m !! a = Some c /\ ref b = ref c /\ payload b = payload c) ->
  (forall a, a ∈ k.*1 -> exists c, m !! a = Some c /\ ref c = 1 /\ is_Some (payload c)) ->
  Forall (fun ab => ref ab.2 = 1 /\ is_Some (payload ab.2)) k.
Proof.
  induction k as [|[a b] k IH]; intros q Hc Hm Hk; [constructor|]. destruct Hc as (-> & Ha & Hc).
  constructor.
  - destruct (Hm a b Ha) as (c & Hc1 & Hr & Hp). destruct (Hk a ltac:(left)) as (c' & Hc' & H1).
    simpl. rewrite Hc1 in Hc'. simplify_eq. by rewrite Hr, Hp.
  - apply (IH _ Hc Hm). intros x Hx. apply Hk. by right.
Qed.

Lemma own_cat s own h t lh lt :
  own_inv s own -> own !! h = Some lh -> own !! t = Some lt -> h <> t ->
  segs_len lh + segs_len lt < 65536 ->
  exists s', pbuf_cat (Some h) (Some t) s = Done (tt, s') /\ own_inv s' (<[h := lh ++ lt]> (delete t own)).
Proof.
  intros (L & Hi & Ho) Hh Ht Hne Hlen. destruct (Ho h lh Hh) as (kh & Hkh).
  destruct (Ho t lt Ht) as (kt & Hkt).
  destruct (owned_refs _ _ _ _ _ _ Hi Hh Hkh) as [_ Hu].
  assert (forall a, a ∈ kh.*1 -> a ∉ kt.*1) as Hd by (intros a Ha; exact (owned_apart s L own h t _ _ _ _ a Hi Hh Ht Hne Hkh Hkt Ha)).
  pose proof Hkh as (Hch & Hlh & Hrh). pose proof Hkt as (Hct & Hlt & Hrt).
  destruct (chain_nonempty _ _ _ Hch) as (l & z & zb & ->).
  destruct kt as [|[t' tb] kt]; [done|]. pose proof Hct as (Et & Htb & _). simplify_eq.
  destruct (tot_is_sum _ _ _ _ _ _ Hi Htb Hct) as [Htot _].
  rewrite !segs_len_of in Hlen. pose proof Hi as Hi'.
  apply (pinv_perm _ _ _ _ (own_delete_perm own t' _ Ht)) in Hi'.
  destruct (pbuf_cat_inv s L _ h t' l z zb tb _ Hi' Hch Hu Hct Htb Hd ltac:(lia)) as [E Hi2].
  eexists. split; [exact E|]. exists L. split.
  - eapply pinv_perm; [|exact Hi2]. symmetry. apply (own_replace_perm _ h (segs_of (l ++ [(z, zb)]))).
    by rewrite lookup_delete_ne.
  - intros q l' Hq. destruct (decide (h = q)) as [<-|Hnq].
    + rewrite lookup_insert_eq in Hq. simplify_eq.
      destruct (cat_chain _ l z zb t' tb _ _ Hch Hct Hd) as (l' & Hc' & Hv).
      exists (l' ++ (t', tb) :: kt). split; [exact Hc'|]. split.
      * unfold segs_of at 1. rewrite fmap_app. f_equal. by apply segs_of_view.
      * eapply (chain_refs (pbufs s)); [exact Hc'| |].
        -- intros a b Hb. eapply cat_map_ref; [by eapply chain_NoDup|intros x c Hx; exact (chain_in _ _ _ _ _ Hch Hx)|exact Hb].
        -- intros a Ha. rewrite fmap_app in Ha.
           assert (l'.*1 = (l ++ [(z, zb)]).*1) as El.
           { apply (f_equal (fmap (fun x => x.1.1))) in Hv. rewrite <- !list_fmap_compose in Hv. exact Hv. }
           rewrite El in Ha. rewrite list.Forall_forall in Hrh, Hrt.
           apply elem_of_app in Ha as [Ha|Ha]; apply list_elem_of_fmap in Ha as ([x c] & -> & Hin).
           ++ exists c. split; [exact (chain_in _ _ _ _ _ Hch Hin)|by apply (Hrh (x, c))].
           ++ exists c. split; [exact (chain_in _ _ _ _ _ Hct Hin)|by apply (Hrt (x, c))].
    + rewrite lookup_insert_ne in Hq by done. apply lookup_delete_Some in Hq as [Hnt Hq].
      destruct (Ho q l' Hq) as (k' & Hk'). exists k'. apply (owned_keep s); [done|].
      intros a Ha. assert (a ∉ (l ++ [(z, zb)]).*1) as Hna by (eapply (owned_apart s L own q h _ _ _ _ a Hi Hq Hh); eauto).
      rewrite fmap_app in Hna. apply not_elem_of_app in Hna as [Hna1 Hna2].
      unfold cat_state, cat_map, set_pbufs. simpl. rewrite lookup_insert_ne; [by apply bump_lookup_ne|].
      intros ->. apply Hna2. by left.
Qed.

Lemma own_alloc s own layer n :
  own_inv s own -> 0 <= n <= max_ram_length ->
  exists o s', pbuf_alloc stale_flags custom layer n PBUF_RAM s = Done (o, s') /\
    match o with
    | None => own_inv s' own
    | Some p => own !! p = None /\ exists l, segs_len l = n /\ own_inv s' (<[p := l]> own)
    end.
Proof.
  intros (L & Hi & Ho) Hn.
  destruct (pbuf_alloc_ram_ok custom stale_flags s L _ layer n Hi Hn) as (o & s' & E & _ & Hpost).
  exists o, s'. split; [exact E|]. destruct o as [p|].
  - destruct Hpost as (k & L' & Hc & Hsum & Hw & _ & Hi' & Hk & _).
    assert (own !! p = None) as Hp.
    { destruct (own !! p) as [l|] eqn:Hp; [|done]. exfalso. destruct (Ho p l Hp) as (k' & Hc' & _).
      destruct k as [|[p' b] k]; [done|]. destruct Hc as (E1 & _). simplify_eq.
      destruct (Hk p' b ltac:(left)) as (Hnone & _). destruct k' as [|[p2 b2] k']; [done|].
      destruct Hc' as (E2 & Hb2 & _). simplify_eq. }
    split; [done|]. exists (segs_of k). split; [by rewrite segs_len_of|]. exists L'. split.
    + eapply pinv_perm; [|exact Hi']. symmetry. by apply own_insert_perm.
    + intros q l Hq. destruct (decide (p = q)) as [<-|Hne].
      * rewrite lookup_insert_eq in Hq. simplify_eq. exists k. split; [done|]. split; [done|].
        apply list.Forall_forall. intros [a b] Hin. destruct (Hk a b Hin) as (_ & Ht & Hr). split; [done|].
        destruct Hi' as (_ & Hno & _). destruct (Hno a b) as ((_ & _ & _ & _ & nb & _ & Hpl) & _);
          [exact (chain_in _ _ _ _ _ Hc Hin)|]. unfold payload_ok in Hpl. rewrite Ht in Hpl.
        destruct Hpl as (x & Hx & _). simpl. rewrite Hx. by eexists.
      * rewrite lookup_insert_ne in Hq by done. destruct (Ho q l Hq) as (k' & Hk'). exists k'.
        apply (owned_keep s); [done|]. intros a Ha. rewrite <- Hw, without_lookup_ne; [done|].
        intros Hin. apply list_elem_of_fmap in Hin as ([a' b] & -> & Hin).
        destruct (Hk a' b Hin) as (Hnone & _). apply list_elem_of_fmap in Ha as ([a2 b2] & Ea & Hin2).
        simpl in *. subst a2. rewrite (chain_in _ _ _ _ _ (proj1 Hk') Hin2) in Hnone. done.
  - exists L. destruct Hpost as [Hs Hi']. split; [done|]. intros q l Hq. destruct (Ho q l Hq) as (k' & Hk').
    exists k'. apply (owned_keep s); [done|]. intros a _. by rewrite Hs.
Qed.

Lemma own_len s own p l : own_inv s own -> own !! p = Some l ->
  0 <= segs_len l < 65536 /\ l <> [] /\ Forall (fun x => 0 <= x.2) l.
Proof.
  intros (L & Hi & Ho) Hp. destruct (Ho p l Hp) as (k & Hc & <- & _). rewrite segs_len_of.
  destruct k as [|[p' b] k]; [done|]. pose proof Hc as (E & Hb & _). simplify_eq.
  destruct (tot_is_sum _ _ _ _ _ _ Hi Hb Hc) as [Ht Hl]. pose proof Hi as (_ & Hno & _).
  destruct (Hno p' b Hb) as ((_ & _ & _ & Htu & _) & _). unfold is_u16 in Htu.
  split; [lia|]. split; [done|]. apply list.Forall_forall. intros x Hx.
  unfold segs_of in Hx. apply list_elem_of_fmap in Hx as ([a c] & -> & Hin). simpl.
  destruct (Hno a c) as ((_ & _ & Hlu & _) & _); [exact (chain_in _ _ _ _ _ Hc Hin)|]. unfold is_u16 in Hlu. lia.
Qed.

Definition pbuf_packets : Packets (pstate A) := {|
  pk_alloc := fun layer n => pbuf_alloc stale_flags custom layer n PBUF_RAM;
  pk_clen := fun p => pbuf_clen (Some p);
  pk_free := fun p => pbuf_free custom (Some p);
  pk_header := fun p => pbuf_header (Some p);
  pk_cat := fun h t => pbuf_cat (Some h) (Some t)
|}.

Definition pbuf_packets_spec : @PacketsSpec (pstate A) pbuf_packets :=
  @Build_PacketsSpec (pstate A) pbuf_packets own_inv own_alloc own_clen own_free own_hide own_cat own_len.
End own.

(** The packets of the system at boot. *)
#[export] Instance boot_packets : Packets (pstate allocators) := pbuf_packets zero_flags no_custom.

#[export] Instance boot_packets_spec : PacketsSpec (pstate allocators) := pbuf_packets_spec zero_flags no_custom.

Lemma pboot_owned : pk_inv pboot ∅.
Proof. exists ∅. split; [exact pboot_inv|]. intros p l Hp. done. Qed.
