(* ===== verification/IpHdr.v ===== *)
(** * The IPv4 header

    struct ip_hdr of include/ipv4/lwip/ip.h: the fields as they are in the packet,
    multi-byte ones in network byte order. *)

From S2P Require Import Prelude ByteOrder Chksum.

Record ip_hdr := IpHdr {
  _v_hl : Z;
  _tos : Z;
  _len : Z;
  _id : Z;
  _offset : Z;
  _ttl : Z;
  _proto : Z;
  _chksum : Z;
  src : Z;
  dest : Z
}.

Definition IP_HLEN : Z := 20.

Definition IP_MF : Z := 0x2000.

Definition IP_OFFMASK : Z := 0x1fff.

Definition IPH_V (h : ip_hdr) : Z := Z.shiftr (_v_hl h) 4.

Definition IPH_HL (h : ip_hdr) : Z := Z.land (_v_hl h) 0x0f.

Definition IPH_LEN_SET (len : Z) (h : ip_hdr) : ip_hdr :=
  IpHdr (_v_hl h) (_tos h) len (_id h) (_offset h) (_ttl h) (_proto h) (_chksum h) (src h) (dest h).

Definition IPH_OFFSET_SET (off : Z) (h : ip_hdr) : ip_hdr :=
  IpHdr (_v_hl h) (_tos h) (_len h) (_id h) off (_ttl h) (_proto h) (_chksum h) (src h) (dest h).

Definition IPH_CHKSUM_SET (chksum : Z) (h : ip_hdr) : ip_hdr :=
  IpHdr (_v_hl h) (_tos h) (_len h) (_id h) (_offset h) (_ttl h) (_proto h) chksum (src h) (dest h).

(** The bytes of a little-endian field. *)
Definition bytes16 (v : Z) : bytes := [v mod 256; v / 256 mod 256].

Definition bytes32 (v : Z) : bytes := [v mod 256; v / 256 mod 256; v / 65536 mod 256; v / 16777216 mod 256].

(** The header in memory. *)
Definition hdr_bytes (h : ip_hdr) : bytes :=
  [_v_hl h mod 256; _tos h mod 256] ++ bytes16 (_len h) ++ bytes16 (_id h) ++ bytes16 (_offset h) ++
  [_ttl h mod 256; _proto h mod 256] ++ bytes16 (_chksum h) ++ bytes32 (src h) ++ bytes32 (dest h).

(** Are two fragments of the same datagram? *)
Definition IP_ADDRESSES_AND_ID_MATCH (a b : ip_hdr) : bool :=
  (src a =? src b) && (dest a =? dest b) && (_id a =? _id b).

(** The length of the data and its offset in the datagram. *)
Definition frag_len (h : ip_hdr) : Z := u16 (lwip_ntohs (_len h) - IPH_HL h * 4).

Definition frag_offset (h : ip_hdr) : Z := u16 (Z.land (lwip_ntohs (_offset h)) IP_OFFMASK * 8).

(** The bit is tested in network byte order: PP_NTOHS(IP_MF). *)
Definition frag_more (h : ip_hdr) : bool := nz (Z.land (_offset h) (lwip_htons IP_MF)).
