(* ===== verification/IpReass.v ===== *)
(** * Reassembly of IP fragments

    The first part of core/ipv4/ip_frag.c.  A queued fragment is a packet (a chain
    of pbufs) whose IP header was overwritten by a struct ip_reass_helper; [heads]
    says what is at the payload of each packet.  The operations on packets come
    through the interface of PbufOwn.v.  The ICMP messages sent on a timeout are
    recorded in [icmp_sent]. *)

From S2P Require Import Prelude ByteOrder Chksum Alloc Pbuf AllocImpl PbufSpec PbufOwn IpHdr.

(** What the first bytes of a packet are used as. *)
Inductive overlay :=
| Hdr (h : ip_hdr)
| Helper (next_pbuf : option ptr) (start end_ : Z).

(** struct ip_reassdata *)
Record ip_reassdata := ReassData {
  ipr_next : option Z;
  ipr_p : option ptr;
  iphdr : ip_hdr;
  datagram_len : Z;
  ipr_flags : Z;
  timer : Z
}.

(** lwip_stats.ip_frag, as far as it is counted. *)
Record frag_stats := FragStats { fs_recv : Z; fs_drop : Z; fs_memerr : Z; fs_err : Z; fs_cachehit : Z }.

Definition IP_REASS_MAXAGE : Z := 3.

Definition IP_REASS_MAX_PBUFS : Z := 10.

Definition IP_REASS_FLAG_LASTFRAG : Z := 0x01.

Definition ICMP_TE_FRAG : Z := 1.

(** The packets and the static variables of ip_frag.c; [reass_free] is the free
    list of the pool MEMP_REASSDATA. *)
Record rstate (S : Type) := RState {
  packets : S;
  heads : gmap ptr overlay;
  reass : gmap Z ip_reassdata;
  reassdatagrams : option Z;
  reass_free : list Z;
  ip_reass_pbufcount : Z;
  reass_stats : frag_stats;
  icmp_sent : list (ip_hdr * Z)
}.

Arguments RState {S} _ _ _ _ _ _ _ _.
Arguments packets {S} _.
Arguments heads {S} _.
Arguments reass {S} _.
Arguments reassdatagrams {S} _.
Arguments reass_free {S} _.
Arguments ip_reass_pbufcount {S} _.
Arguments reass_stats {S} _.
Arguments icmp_sent {S} _.

(** ** Access *)

Section access.
Context {S : Type}.
Implicit Types (s : rstate S).

Definition set_packets (k : S) s : rstate S :=
  RState k (heads s) (reass s) (reassdatagrams s) (reass_free s) (ip_reass_pbufcount s) (reass_stats s) (icmp_sent s).

Definition set_heads (f : gmap ptr overlay -> gmap ptr overlay) s : rstate S :=
  RState (packets s) (f (heads s)) (reass s) (reassdatagrams s) (reass_free s) (ip_reass_pbufcount s) (reass_stats s) (icmp_sent s).

Definition set_reass (f : gmap Z ip_reassdata -> gmap Z ip_reassdata) s : rstate S :=
  RState (packets s) (heads s) (f (reass s)) (reassdatagrams s) (reass_free s) (ip_reass_pbufcount s) (reass_stats s) (icmp_sent s).

Definition set_datagrams (v : option Z) : M (rstate S) unit :=
  modify (fun s => RState (packets s) (heads s) (reass s) v (reass_free s) (ip_reass_pbufcount s) (reass_stats s) (icmp_sent s)).

Definition set_free (l : list Z) : M (rstate S) unit :=
  modify (fun s => RState (packets s) (heads s) (reass s) (reassdatagrams s) l (ip_reass_pbufcount s) (reass_stats s) (icmp_sent s)).

Definition set_pbufcount (v : Z) : M (rstate S) unit :=
  modify (fun s => RState (packets s) (heads s) (reass s) (reassdatagrams s) (reass_free s) v (reass_stats s) (icmp_sent s)).

Definition set_stats (f : frag_stats -> frag_stats) : M (rstate S) unit :=
  modify (fun s => RState (packets s) (heads s) (reass s) (reassdatagrams s) (reass_free s) (ip_reass_pbufcount s) (f (reass_stats s)) (icmp_sent s)).

(** icmp_time_exceeded of icmp.c: the message quotes the header in front of the
    packet. *)
Definition icmp_time_exceeded (h : ip_hdr) (code : Z) : M (rstate S) unit :=
  modify (fun s => RState (packets s) (heads s) (reass s) (reassdatagrams s) (reass_free s) (ip_reass_pbufcount s) (reass_stats s) (icmp_sent s ++ [(h, code)])).

(** An operation on the packets. *)
Definition on_packets {B} (m : M S B) : M (rstate S) B := fun s =>
  match m (packets s) with
  | Done (b, k) => Done (b, set_packets k s)
  | Crash c => Crash c
  end.

Definition rd_ipr (a : Z) : M (rstate S) ip_reassdata := s ← get; deref (reass s !! a).

Definition wr_ipr (a : Z) (d : ip_reassdata) : M (rstate S) unit := modify (set_reass (insert a d)).

(** Read the header, or the helper, at the payload of [p]. *)
Definition rd_hdr (p : ptr) : M (rstate S) ip_hdr :=
  s ← get; match heads s !! p with Some (Hdr h) => mret h | _ => fail Undefined end.

Definition rd_helper (p : ptr) : M (rstate S) (option ptr * Z * Z) :=
  s ← get; match heads s !! p with Some (Helper n a b) => mret (n, a, b) | _ => fail Undefined end.

Definition wr_head (p : ptr) (o : overlay) : M (rstate S) unit := modify (set_heads (insert p o)).

Definition drop_head (p : ptr) : M (rstate S) unit := modify (set_heads (delete p)).

Definition wr_next_pbuf (p : ptr) (q : option ptr) : M (rstate S) unit :=
  h ← rd_helper p; let '(_, a, b) := h in wr_head p (Helper q a b).
End access.

Definition upd_ipr_next (v : option Z) (d : ip_reassdata) : ip_reassdata :=
  ReassData v (ipr_p d) (iphdr d) (datagram_len d) (ipr_flags d) (timer d).

Definition upd_ipr_p (v : option ptr) (d : ip_reassdata) : ip_reassdata :=
  ReassData (ipr_next d) v (iphdr d) (datagram_len d) (ipr_flags d) (timer d).

Definition upd_iphdr (v : ip_hdr) (d : ip_reassdata) : ip_reassdata :=
  ReassData (ipr_next d) (ipr_p d) v (datagram_len d) (ipr_flags d) (timer d).

Definition upd_timer (v : Z) (d : ip_reassdata) : ip_reassdata :=
  ReassData (ipr_next d) (ipr_p d) (iphdr d) (datagram_len d) (ipr_flags d) v.

(** IPFRAG_STATS_INC; STAT_COUNTER is a u16_t. *)
Definition inc_recv (f : frag_stats) : frag_stats :=
  FragStats (u16 (fs_recv f + 1)) (fs_drop f) (fs_memerr f) (fs_err f) (fs_cachehit f).

Definition inc_drop (f : frag_stats) : frag_stats :=
  FragStats (fs_recv f) (u16 (fs_drop f + 1)) (fs_memerr f) (fs_err f) (fs_cachehit f).

Definition inc_memerr (f : frag_stats) : frag_stats :=
  FragStats (fs_recv f) (fs_drop f) (u16 (fs_memerr f + 1)) (fs_err f) (fs_cachehit f).

Definition inc_err (f : frag_stats) : frag_stats :=
  FragStats (fs_recv f) (fs_drop f) (fs_memerr f) (u16 (fs_err f + 1)) (fs_cachehit f).

Definition inc_cachehit (f : frag_stats) : frag_stats :=
  FragStats (fs_recv f) (fs_drop f) (fs_memerr f) (fs_err f) (u16 (fs_cachehit f + 1)).

(** ** Operations *)

Section operations.
Context {S : Type} `{Packets S}.

(** Bounds for the loops over the datagrams and over the fragments of one. *)
Definition ipr_fuel (s : rstate S) : nat := Datatypes.S (size (reass s)).

Definition frag_fuel (s : rstate S) : nat := Datatypes.S (size (heads s)).

(** pbuf_free; what was at the payload is gone with the packet. *)
Definition free_packet (p : ptr) : M (rstate S) unit :=
  on_packets (pk_free p);; drop_head p.

Definition ip_reass_dequeue_datagram (ipr : Z) (prev : option Z) : M (rstate S) unit :=
  s ← get;
  d ← rd_ipr ipr;
  (if bool_decide (reassdatagrams s = Some ipr) then set_datagrams (ipr_next d)
   else
     match prev with
     | None => fail AssertFailed
     | Some prev => pd ← rd_ipr prev; wr_ipr prev (upd_ipr_next (ipr_next d) pd)
     end);;
  modify (set_reass (delete ipr));;
  s ← get;
  set_free (ipr :: reass_free s).

(** The loop that frees the fragments; the result is pbufs_freed. *)
Fixpoint free_frags (fuel : nat) (p : option ptr) (pbufs_freed : Z) : M (rstate S) Z :=
  match p with
  | None => mret pbufs_freed
  | Some p =>
      match fuel with
      | O => fail OutOfFuel
      | Datatypes.S fuel =>
          h ← rd_helper p;
          let '(next_pbuf, _, _) := h in
          clen ← on_packets (pk_clen p);
          lwip_assert (pbufs_freed + clen <=? 0xffff);;
          free_packet p;;
          free_frags fuel next_pbuf (u16 (pbufs_freed + clen))
      end
  end.

Definition ip_reass_free_complete_datagram (ipr : Z) (prev : option Z) : M (rstate S) Z :=
  lwip_assert (negb (bool_decide (prev = Some ipr)));;
  (match prev with
   | None => mret tt
   | Some prev => pd ← rd_ipr prev; lwip_assert (bool_decide (ipr_next pd = Some ipr))
   end);;
  d ← rd_ipr ipr;
  p ← deref (ipr_p d);
  h ← rd_helper p;
  let '(next_pbuf, start, _) := h in
  pbufs_freed ←
    (if start =? 0 then
       wr_ipr ipr (upd_ipr_p next_pbuf d);;
       wr_head p (Hdr (iphdr d));;
       icmp_time_exceeded (iphdr d) ICMP_TE_FRAG;;
       clen ← on_packets (pk_clen p);
       lwip_assert (clen <=? 0xffff);;
       free_packet p;;
       mret clen
     else mret 0);
  d ← rd_ipr ipr;
  s ← get;
  pbufs_freed ← free_frags (frag_fuel s) (ipr_p d) pbufs_freed;
  ip_reass_dequeue_datagram ipr prev;;
  s ← get;
  lwip_assert (pbufs_freed <=? ip_reass_pbufcount s);;
  set_pbufcount (u16 (ip_reass_pbufcount s - pbufs_freed));;
  mret pbufs_freed.

Fixpoint reass_tmr_loop (fuel : nat) (r prev : option Z) : M (rstate S) unit :=
  match r with
  | None => mret tt
  | Some r =>
      match fuel with
      | O => fail OutOfFuel
      | Datatypes.S fuel =>
          d ← rd_ipr r;
          if 0 <? timer d then
            wr_ipr r (upd_timer (u8 (timer d - 1)) d);;
            reass_tmr_loop fuel (ipr_next d) (Some r)
          else
            ip_reass_free_complete_datagram r prev;;
            reass_tmr_loop fuel (ipr_next d) prev
      end
  end.

Definition ip_reass_tmr : M (rstate S) unit :=
  s ← get; reass_tmr_loop (ipr_fuel s) (reassdatagrams s) None.

(** The inner loop of ip_reass_remove_oldest_datagram: the oldest datagram that is
    not [fraghdr]'s, [prev] and other_datagrams. *)
Fixpoint find_oldest (fuel : nat) (r oldest prev : option Z) (other_datagrams : Z) (fraghdr : ip_hdr)
    : M (rstate S) (option Z * option Z * Z) :=
  match r with
  | None => mret (oldest, prev, other_datagrams)
  | Some r =>
      match fuel with
      | O => fail OutOfFuel
      | Datatypes.S fuel =>
          d ← rd_ipr r;
          oo ← (if negb (IP_ADDRESSES_AND_ID_MATCH (iphdr d) fraghdr) then
                  match oldest with
                  | None => mret (Some r, other_datagrams + 1)
                  | Some o =>
                      od ← rd_ipr o;
                      mret (if timer d <=? timer od then Some r else Some o, other_datagrams + 1)
                  end
                else mret (oldest, other_datagrams));
          let '(oldest, other_datagrams) := oo in
          find_oldest fuel (ipr_next d) oldest
            (match ipr_next d with Some _ => Some r | None => prev end) other_datagrams fraghdr
      end
  end.

(** Each round removes one of the other datagrams. *)
Fixpoint remove_loop (fuel : nat) (fraghdr : ip_hdr) (pbufs_needed pbufs_freed : Z) : M (rstate S) Z :=
  match fuel with
  | O => fail OutOfFuel
  | Datatypes.S fuel =>
      s ← get;
      f ← find_oldest (ipr_fuel s) (reassdatagrams s) None None 0 fraghdr;
      let '(oldest, prev, other_datagrams) := f in
      pbufs_freed ←
        match oldest with
        | None => mret pbufs_freed
        | Some oldest =>
            n ← ip_reass_free_complete_datagram oldest prev;
            mret (pbufs_freed + n)
        end;
      if (pbufs_freed <? pbufs_needed) && (1 <? other_datagrams)
      then remove_loop fuel fraghdr pbufs_needed pbufs_freed
      else mret pbufs_freed
  end.

Definition ip_reass_remove_oldest_datagram (fraghdr : ip_hdr) (pbufs_needed : Z) : M (rstate S) Z :=
  s ← get; remove_loop (ipr_fuel s) fraghdr pbufs_needed 0.

(** memp_malloc(MEMP_REASSDATA) *)
Definition malloc_reassdata : M (rstate S) (option Z) :=
  s ← get;
  match reass_free s with
  | [] => mret None
  | a :: l => set_free l;; mret (Some a)
  end.

Definition ip_reass_enqueue_new_datagram (fraghdr : ip_hdr) (clen : Z) : M (rstate S) (option Z) :=
  ipr ← malloc_reassdata;
  ipr ← match ipr with
        | Some ipr => mret (Some ipr)
        | None =>
            n ← ip_reass_remove_oldest_datagram fraghdr clen;
            if clen <=? n then malloc_reassdata else mret None
        end;
  match ipr with
  | None => set_stats inc_memerr;; mret None
  | Some ipr =>
      s ← get;
      wr_ipr ipr (ReassData (reassdatagrams s) None fraghdr 0 0 IP_REASS_MAXAGE);;
      set_datagrams (Some ipr);;
      mret (Some ipr)
  end.

(** Where the loop of ip_reass_chain_frag_into_datagram_and_validate ends: at
    freepbuf, or behind the loop with q, iprh_prev and valid. *)
Inductive place :=
| FreePbuf
| Placed (q prev : option ptr) (valid : bool).

Fixpoint find_place (fuel : nat) (ipr : Z) (new_p : ptr) (start end_ : Z) (q prev : option ptr) (valid : bool)
    : M (rstate S) place :=
  match q with
  | None => mret (Placed None prev valid)
  | Some q =>
      match fuel with
      | O => fail OutOfFuel
      | Datatypes.S fuel =>
          t ← rd_helper q;
          let '(t_next, t_start, t_end) := t in
          if start <? t_start then
            wr_next_pbuf new_p (Some q);;
            match prev with
            | Some prev =>
                pv ← rd_helper prev;
                let '(_, _, prev_end) := pv in
                if (start <? prev_end) || (t_start <? end_) then mret FreePbuf
                else wr_next_pbuf prev (Some new_p);; mret (Placed (Some q) (Some prev) valid)
            | None =>
                d ← rd_ipr ipr;
                wr_ipr ipr (upd_ipr_p (Some new_p) d);;
                mret (Placed (Some q) None valid)
            end
          else if start =? t_start then mret FreePbuf
          else if start <? t_end then mret FreePbuf
          else
            valid ← match prev with
                    | Some prev =>
                        pv ← rd_helper prev;
                        let '(_, _, prev_end) := pv in
                        mret (if negb (prev_end =? t_start) then false else valid)
                    | None => mret valid
                    end;
            find_place fuel ipr new_p start end_ t_next (Some q) valid
      end
  end.

(** The check for holes behind the new fragment: the last fragment and valid. *)
Fixpoint check_rest (fuel : nat) (prev q : ptr) : M (rstate S) (ptr * bool) :=
  pv ← rd_helper prev;
  t ← rd_helper q;
  let '(_, _, prev_end) := pv in
  let '(t_next, t_start, _) := t in
  if negb (prev_end =? t_start) then mret (q, false)
  else
    match t_next with
    | None => mret (q, true)
    | Some n =>
        match fuel with
        | O => fail OutOfFuel
        | Datatypes.S fuel => check_rest fuel q n
        end
    end.

(** The first part of ip_reass_chain_frag_into_datagram_and_validate puts the
    fragment into the queue: the result is valid, or nothing at freepbuf. *)
Definition place_end (ipr : Z) (new_p : ptr) (start : Z) (pl : place) : M (rstate S) (option bool) :=
  match pl with
  | FreePbuf => mret None
  | Placed (Some _) _ valid => mret (Some valid)
  | Placed None (Some prev) valid =>
      pv ← rd_helper prev;
      let '(_, _, prev_end) := pv in
      lwip_assert (prev_end <=? start);;
      wr_next_pbuf prev (Some new_p);;
      mret (Some (if negb (prev_end =? start) then false else valid))
  | Placed None None valid =>
      d ← rd_ipr ipr;
      lwip_assert (match ipr_p d with None => true | Some _ => false end);;
      wr_ipr ipr (upd_ipr_p (Some new_p) d);;
      mret (Some valid)
  end.

Definition place_frag (ipr : Z) (new_p : ptr) (start end_ : Z) : M (rstate S) (option bool) :=
  d ← rd_ipr ipr;
  s ← get;
  pl ← find_place (frag_fuel s) ipr new_p start end_ (ipr_p d) None true;
  place_end ipr new_p start pl.

(** The second part: is the datagram complete? *)
Definition validate (ipr : Z) (new_p : ptr) (valid : bool) : M (rstate S) bool :=
  d ← rd_ipr ipr;
  if nz (Z.land (ipr_flags d) IP_REASS_FLAG_LASTFRAG) then
    if valid then
      first ← deref (ipr_p d);
      f ← rd_helper first;
      let '(_, first_start, _) := f in
      if negb (first_start =? 0) then mret false
      else
        nh ← rd_helper new_p;
        let '(new_next, _, _) := nh in
        s ← get;
        lv ← match new_next with
             | None => mret (new_p, true)
             | Some q => check_rest (frag_fuel s) new_p q
             end;
        let '(last, valid) := lv in
        if (valid : bool) then
          lwip_assert (negb (bool_decide (first = last)));;
          lh ← rd_helper last;
          let '(last_next, _, last_end) := lh in
          lwip_assert (match last_next with None => true | Some _ => false end);;
          lwip_assert (last_end =? datagram_len d);;
          mret true
        else mret false
    else mret false
  else mret false.

Definition ip_reass_chain_frag_into_datagram_and_validate (ipr : Z) (new_p : ptr) : M (rstate S) bool :=
  fraghdr ← rd_hdr new_p;
  let len := frag_len fraghdr in
  let start := frag_offset fraghdr in
  let end_ := u16 (start + len) in
  wr_head new_p (Helper None start end_);;
  placed ← place_frag ipr new_p start end_;
  match placed with
  | None =>
      clen ← on_packets (pk_clen new_p);
      s ← get;
      set_pbufcount (u16 (ip_reass_pbufcount s - clen));;
      free_packet new_p;;
      mret false
  | Some valid => validate ipr new_p valid
  end.

(** The search for the datagram of a fragment: the datagram and ipr_prev. *)
Fixpoint find_datagram (fuel : nat) (ipr prev : option Z) (fraghdr : ip_hdr) : M (rstate S) (option Z * option Z) :=
  match ipr with
  | None => mret (None, prev)
  | Some ipr =>
      match fuel with
      | O => fail OutOfFuel
      | Datatypes.S fuel =>
          d ← rd_ipr ipr;
          if IP_ADDRESSES_AND_ID_MATCH (iphdr d) fraghdr then
            set_stats inc_cachehit;; mret (Some ipr, prev)
          else find_datagram fuel (ipr_next d) (Some ipr) fraghdr
      end
  end.

(** The loop that chains the packets of a complete datagram together. *)
Fixpoint chain_frags (fuel : nat) (p : ptr) (r : option ptr) : M (rstate S) unit :=
  match r with
  | None => mret tt
  | Some r =>
      match fuel with
      | O => fail OutOfFuel
      | Datatypes.S fuel =>
          h ← rd_helper r;
          let '(next_pbuf, _, _) := h in
          on_packets (pk_header r (- IP_HLEN));;
          on_packets (pk_cat p r);;
          chain_frags fuel p next_pbuf
      end
  end.

(** The label nullreturn. *)
Definition nullreturn (p : ptr) : M (rstate S) (option ptr) :=
  set_stats inc_drop;; free_packet p;; mret None.

(** May [clen] more pbufs be queued, possibly after removing old datagrams? *)
Definition reass_room (fraghdr : ip_hdr) (clen : Z) : M (rstate S) bool :=
  s ← get;
  if IP_REASS_MAX_PBUFS <? ip_reass_pbufcount s + clen then
    n ← ip_reass_remove_oldest_datagram fraghdr clen;
    s ← get;
    mret (negb ((n =? 0) || (IP_REASS_MAX_PBUFS <? ip_reass_pbufcount s + clen)))
  else mret true.

(** The datagram is complete: rebuild its header and hand it over.  (The address
    given to inet_chksum stands for that of the payload; by
    lwip_standard_chksum_correct it does not matter.) *)
Definition reass_finish (ipr : Z) (ipr_prev : option Z) : M (rstate S) (option ptr) :=
  d ← rd_ipr ipr;
  let dlen := u16 (datagram_len d + IP_HLEN) in
  p ← deref (ipr_p d);
  h ← rd_helper p;
  let '(r, _, _) := h in
  let fraghdr := IPH_CHKSUM_SET 0 (IPH_OFFSET_SET 0 (IPH_LEN_SET (lwip_htons dlen) (iphdr d))) in
  let fraghdr := IPH_CHKSUM_SET (inet_chksum p.2 (hdr_bytes fraghdr)) fraghdr in
  wr_head p (Hdr fraghdr);;
  s ← get;
  chain_frags (frag_fuel s) p r;;
  ip_reass_dequeue_datagram ipr ipr_prev;;
  clen ← on_packets (pk_clen p);
  s ← get;
  set_pbufcount (u16 (ip_reass_pbufcount s - clen));;
  mret (Some p).

Definition ip_reass (p : ptr) : M (rstate S) (option ptr) :=
  set_stats inc_recv;;
  fraghdr ← rd_hdr p;
  if negb (IPH_HL fraghdr * 4 =? IP_HLEN) then
    set_stats inc_err;; nullreturn p
  else
    let offset := frag_offset fraghdr in
    let len := frag_len fraghdr in
    clen ← on_packets (pk_clen p);
    room ← reass_room fraghdr clen;
    if negb room then set_stats inc_memerr;; nullreturn p
    else
      s ← get;
      fd ← find_datagram (ipr_fuel s) (reassdatagrams s) None fraghdr;
      let '(ipr, ipr_prev) := fd in
      ipr ← match ipr with
            | None => ip_reass_enqueue_new_datagram fraghdr clen
            | Some ipr =>
                d ← rd_ipr ipr;
                (if (Z.land (lwip_ntohs (_offset fraghdr)) IP_OFFMASK =? 0) &&
                    negb (Z.land (lwip_ntohs (_offset (iphdr d))) IP_OFFMASK =? 0)
                 then wr_ipr ipr (upd_iphdr fraghdr d) else mret tt);;
                mret (Some ipr)
            end;
      match ipr with
      | None => nullreturn p
      | Some ipr =>
          s ← get;
          set_pbufcount (u16 (ip_reass_pbufcount s + clen));;
          d ← rd_ipr ipr;
          (if negb (frag_more fraghdr) then
             wr_ipr ipr (ReassData (ipr_next d) (ipr_p d) (iphdr d) (u16 (offset + len))
                           (Z.lor (ipr_flags d) IP_REASS_FLAG_LASTFRAG) (timer d))
           else mret tt);;
          complete ← ip_reass_chain_frag_into_datagram_and_validate ipr p;
          if (complete : bool) then reass_finish ipr ipr_prev else mret None
      end.
End operations.

(** ** The queue as lists

    A fragment is its packet with the range of the datagram it covers. *)

Definition frag : Type := ptr * Z * Z.

Definition fptr (f : frag) : ptr := f.1.1.

Definition fstart (f : frag) : Z := f.1.2.

Definition fend (f : frag) : Z := f.2.

(** Insertion into the queue of a datagram, with the check for holes in front of
    the place; [e] is where the fragment before [fs] ends. *)
Fixpoint insert_frag (f : frag) (e : option Z) (valid : bool) (fs : list frag) : option (list frag * bool) :=
  match fs with
  | [] => Some ([f], match e with Some e => if e =? fstart f then valid else false | None => valid end)
  | t :: fs' =>
      if fstart f <? fstart t then
        match e with
        | Some e =>
            if (fstart f <? e) || (fstart t <? fend f) then None else Some (f :: t :: fs', valid)
        | None => Some (f :: t :: fs', valid)
        end
      else if fstart f =? fstart t then None
      else if fstart f <? fend t then None
      else
        let valid := match e with Some e => if e =? fstart t then valid else false | None => valid end in
        match insert_frag f (Some (fend t)) valid fs' with
        | Some (l, v) => Some (t :: l, v)
        | None => None
        end
  end.

(** The fragments of [fs] follow each other without a hole from [e] on. *)
Fixpoint contiguous (e : Z) (fs : list frag) : bool :=
  match fs with
  | [] => true
  | f :: fs => (e =? fstart f) && contiguous (fend f) fs
  end.

Definition last_end (e : Z) (fs : list frag) : Z := match list.last fs with Some f => fend f | None => e end.

(** The queue from the packet [p] on. *)
Fixpoint from_frag (p : ptr) (fs : list frag) : list frag :=
  match fs with
  | [] => []
  | f :: fs' => if bool_decide (fptr f = p) then fs else from_frag p fs'
  end.

(** The pointers in memory form the list [fs]. *)
Fixpoint frags_at (H : gmap ptr overlay) (q : option ptr) (fs : list frag) : Prop :=
  match fs with
  | [] => q = None
  | f :: fs => exists n, q = Some (fptr f) /\ H !! fptr f = Some (Helper n (fstart f) (fend f)) /\ frags_at H n fs
  end.

(** A datagram being reassembled. *)
Record dgram := Dgram {
  dg_addr : Z;
  dg_hdr : ip_hdr;
  dg_len : Z;
  dg_flags : Z;
  dg_timer : Z;
  dg_frags : list frag
}.

Definition addr_of (ds : list dgram) (nxt : option Z) : option Z :=
  match ds with g :: _ => Some (dg_addr g) | [] => nxt end.

Definition dg_at (R : gmap Z ip_reassdata) (H : gmap ptr overlay) (nxt : option Z) (g : dgram) : Prop :=
  exists q, R !! dg_addr g = Some (ReassData nxt q (dg_hdr g) (dg_len g) (dg_flags g) (dg_timer g)) /\
    frags_at H q (dg_frags g).

(** The datagrams [ds] are in memory, followed by [nxt]. *)
Fixpoint dlist (R : gmap Z ip_reassdata) (H : gmap ptr overlay) (nxt : option Z) (ds : list dgram) : Prop :=
  match ds with
  | [] => True
  | g :: ds => dg_at R H (addr_of ds nxt) g /\ dlist R H nxt ds
  end.

Definition all_frags (ds : list dgram) : list frag := concat (dg_frags <$> ds).

(** The pbufs of the fragments. *)
Definition pcount (own : gmap ptr segs) (fs : list frag) : Z :=
  foldr (fun f acc => zlen (default [] (own !! fptr f)) + acc) 0 fs.

(** A queued packet is ours, starts with an IP header in one piece, and has the
    length of its range. *)
Definition frag_ok (own : gmap ptr segs) (f : frag) : Prop :=
  exists x n l, own !! fptr f = Some ((x, n) :: l) /\ IP_HLEN <= n /\
    segs_len ((x, n) :: l) = IP_HLEN + (fend f - fstart f) /\ 0 <= fstart f < fend f.

(** ** The memory of the queue *)

(** Changes of the queue leave the rest of the state alone. *)
Definition same {S} (s s' : rstate S) : Prop :=
  packets s' = packets s /\ reassdatagrams s' = reassdatagrams s /\ reass_free s' = reass_free s /\
  ip_reass_pbufcount s' = ip_reass_pbufcount s /\ reass_stats s' = reass_stats s /\ icmp_sent s' = icmp_sent s.

Lemma same_refl {S} (s : rstate S) : same s s.
Proof. by repeat split. Qed.

Lemma same_trans {S} (s1 s2 s3 : rstate S) : same s1 s2 -> same s2 s3 -> same s1 s3.
Proof. intros (? & ? & ? & ? & ? & ?) (? & ? & ? & ? & ? & ?). repeat split; congruence. Qed.

Lemma frags_at_ext H H' fs : forall q,
  frags_at H q fs -> (forall p, p ∈ fptr <$> fs -> H' !! p = H !! p) -> frags_at H' q fs.
Proof.
  induction fs as [|f fs IH]; intros q Hq He; [done|]. destruct Hq as (n & -> & Hf & Hn).
  exists n. split; [done|]. split; [by rewrite He by left|]. apply IH; [done|]. intros p Hp. apply He. by right.
Qed.

Section queue.
Context {S : Type}.
Implicit Types (s : rstate S).

Lemma rd_helper_bind {B} p n a b (k : option ptr * Z * Z -> M (rstate S) B) s :
  heads s !! p = Some (Helper n a b) -> (rd_helper p ≫= k) s = k (n, a, b) s.
Proof. intros E. unfold rd_helper. rewrite bind_assoc, get_bind. by rewrite E, ret_bind. Qed.

Lemma rd_hdr_bind {B} p h (k : ip_hdr -> M (rstate S) B) s :
  heads s !! p = Some (Hdr h) -> (rd_hdr p ≫= k) s = k h s.
Proof. intros E. unfold rd_hdr. rewrite bind_assoc, get_bind. by rewrite E, ret_bind. Qed.

Lemma rd_ipr_bind {B} a d (k : ip_reassdata -> M (rstate S) B) s :
  reass s !! a = Some d -> (rd_ipr a ≫= k) s = k d s.
Proof. intros E. unfold rd_ipr. rewrite bind_assoc, get_bind. by rewrite (deref_bind _ d). Qed.

Lemma wr_next_bind {B} p n a b q (k : unit -> M (rstate S) B) s :
  heads s !! p = Some (Helper n a b) ->
  (wr_next_pbuf p q ≫= k) s = k tt (set_heads (insert p (Helper q a b)) s).
Proof.
  intros E. unfold wr_next_pbuf. rewrite bind_assoc. rewrite (rd_helper_bind p n a b) by done.
  unfold wr_head. by rewrite modify_bind.
Qed.

Context `{Packets S}.
Context (ipr : Z) (f : frag).

(** The fragment before the place: its packet and its range. *)
Definition prev_ok s (prev : option frag) (d : ip_reassdata) (q : option ptr) (fs : list frag) : Prop :=
  match prev with
  | Some pv => heads s !! fptr pv = Some (Helper q (fstart pv) (fend pv)) /\ fptr pv <> fptr f /\
      (fptr pv ∉ fptr <$> fs) /\ fend pv <= fstart f
  | None => ipr_p d = q
  end.

Definition placed_at (prev : option frag) (d : ip_reassdata) s s' (l : list frag) : Prop :=
  exists q', frags_at (heads s') q' l /\
    match prev with
    | Some pv => heads s' !! fptr pv = Some (Helper q' (fstart pv) (fend pv)) /\ reass s' = reass s
    | None => reass s' = <[ipr := upd_ipr_p q' d]> (reass s)
    end.

(** Nothing else in memory changes. *)
Definition untouched (prev : option frag) s s' (fs : list frag) : Prop :=
  forall p, p <> fptr f -> p ∉ fptr <$> fs -> (forall pv, prev = Some pv -> p <> fptr pv) ->
    heads s' !! p = heads s !! p.

(** The end of the queue is reached. *)
Lemma place_last s (prev : option frag) valid d :
  heads s !! fptr f = Some (Helper None (fstart f) (fend f)) -> reass s !! ipr = Some d ->
  prev_ok s prev d None [] ->
  exists s', place_end ipr (fptr f) (fstart f) (Placed None (fptr <$> prev) valid) s =
      Done (Some (match prev with Some pv => if fend pv =? fstart f then valid else false | None => valid end), s') /\
    same s s' /\ untouched prev s s' [] /\ placed_at prev d s s' [f].
Proof.
  intros Hf Hd Hprev. destruct prev as [pv|]; simpl in *.
  - destruct Hprev as (Hpv & Hne & _ & Hle). rewrite (rd_helper_bind _ None (fstart pv) (fend pv)) by done.
    rewrite lwip_assert_bind by lia. rewrite (wr_next_bind _ None (fstart pv) (fend pv)) by done.
    eexists. split; [by destruct (_ =? _)|]. split; [by repeat split|]. split.
    + intros p H1 _ H2. simpl. apply lookup_insert_ne. intros E. by apply (H2 pv).
    + exists (Some (fptr f)). split; [|split; [apply lookup_insert_eq|done]].
      exists None. split; [done|]. split; [|done]. simpl. by rewrite lookup_insert_ne.
  - rewrite (rd_ipr_bind _ d) by done. rewrite Hprev. rewrite lwip_assert_bind by done.
    unfold wr_ipr. rewrite modify_bind. eexists. split; [done|]. split; [by repeat split|]. split; [done|].
    exists (Some (fptr f)). split; [|done]. by exists None.
Qed.

(** The place in front of [t] is free. *)
Lemma place_before s (prev : option frag) valid d t fs n :
  heads s !! fptr f = Some (Helper None (fstart f) (fend f)) -> reass s !! ipr = Some d ->
  heads s !! fptr t = Some (Helper n (fstart t) (fend t)) -> fptr f ∉ fptr <$> t :: fs ->
  frags_at (heads s) n fs -> prev_ok s prev d (Some (fptr t)) (t :: fs) ->
  match prev with Some pv => fend pv <= fstart f /\ fend f <= fstart t | None => True end ->
  exists s', (wr_next_pbuf (fptr f) (Some (fptr t));;
       match fptr <$> prev with
       | Some prev =>
           pv ← rd_helper prev;
           let '(_, _, prev_end) := pv in
           if (fstart f <? prev_end) || (fstart t <? fend f) then mret FreePbuf
           else wr_next_pbuf prev (Some (fptr f));; mret (Placed (Some (fptr t)) (Some prev) valid)
       | None =>
           d ← rd_ipr ipr;
           wr_ipr ipr (upd_ipr_p (Some (fptr f)) d);;
           mret (Placed (Some (fptr t)) None valid)
       end) s = Done (Placed (Some (fptr t)) (fptr <$> prev) valid, s') /\
    same s s' /\ untouched prev s s' (t :: fs) /\ placed_at prev d s s' (f :: t :: fs).
Proof.
  intros Hf Hd Ht Hnf Hfs Hprev Hfree. rewrite (wr_next_bind _ None (fstart f) (fend f)) by done.
  set (s1 := set_heads (insert (fptr f) (Helper (Some (fptr t)) (fstart f) (fend f))) s).
  assert (forall p, p ∈ fptr <$> t :: fs -> p <> fptr f) as Hne by (by intros p Hp ->).
  assert (frags_at (heads s1) (Some (fptr f)) (f :: t :: fs)) as Hat.
  { exists (Some (fptr t)). split; [done|]. split; [apply lookup_insert_eq|]. exists n. split; [done|].
    split; [simpl; rewrite lookup_insert_ne by (symmetry; apply Hne; left); done|].
    eapply frags_at_ext; [exact Hfs|]. intros p Hp. apply lookup_insert_ne. symmetry. apply Hne. by right. }
  destruct prev as [pv|]; [change (fptr <$> Some pv) with (Some (fptr pv))|change (fptr <$> None) with (@None ptr)];
    cbv beta iota.
  - destruct Hprev as (Hpv & Hpf & Hpt & _).
    rewrite (rd_helper_bind _ (Some (fptr t)) (fstart pv) (fend pv)) by (simpl; by rewrite lookup_insert_ne).
    rewrite (proj2 (orb_false_iff _ _)) by lia.
    rewrite (wr_next_bind _ (Some (fptr t)) (fstart pv) (fend pv)) by (simpl; by rewrite lookup_insert_ne).
    eexists. split; [done|]. split; [by repeat split|]. split.
    + intros p H1 _ H2. simpl. rewrite lookup_insert_ne by (intros E; by apply (H2 pv)).
      by rewrite lookup_insert_ne.
    + exists (Some (fptr f)). split; [|split; [apply lookup_insert_eq|done]].
      eapply frags_at_ext; [exact Hat|]. intros p Hp. simpl. apply lookup_insert_ne. intros <-.
      rewrite fmap_cons in Hp. by apply elem_of_cons in Hp as [?|?].
  - rewrite (rd_ipr_bind _ d) by done. unfold wr_ipr. rewrite modify_bind.
    eexists. split; [done|]. split; [by repeat split|]. split.
    + intros p H1 _ _. simpl. by rewrite lookup_insert_ne.
    + by exists (Some (fptr f)).
Qed.

Lemma find_place_ok fs : forall fuel s q (prev : option frag) valid d,
  frags_at (heads s) q fs -> (length fs <= fuel)%nat ->
  heads s !! fptr f = Some (Helper None (fstart f) (fend f)) -> fptr f ∉ fptr <$> fs -> NoDup (fptr <$> fs) ->
  reass s !! ipr = Some d -> prev_ok s prev d q fs ->
  exists o s', (find_place fuel ipr (fptr f) (fstart f) (fend f) q (fptr <$> prev) valid ≫=
      place_end ipr (fptr f) (fstart f)) s = Done (o, s') /\ same s s' /\ untouched prev s s' fs /\
    match insert_frag f (fend <$> prev) valid fs with
    | None => o = None /\ reass s' = reass s /\ heads s' = <[fptr f := default (Helper None 0 0) (heads s' !! fptr f)]> (heads s)
    | Some (l, v) => o = Some v /\ placed_at prev d s s' l
    end.
Proof.
  induction fs as [|t fs IH]; intros fuel s q prev valid d Hq Hfuel Hf Hnf Hnd Hd Hprev.
  - simpl in Hq. subst q. destruct (place_last s prev valid d Hf Hd Hprev) as (s' & E & H1 & H2 & H3).
    eexists _, s'. split; [|split; [exact H1|split; [exact H2|]]].
    + destruct fuel; simpl; rewrite ret_bind; exact E.
    + simpl. destruct prev as [pv|]; [split; [reflexivity|exact H3]|split; [reflexivity|exact H3]].
  - destruct Hq as (n & -> & Ht & Hn). destruct fuel as [|fuel]; simpl in Hfuel; [lia|].
    cbn [find_place insert_frag]. rewrite bind_assoc, (rd_helper_bind _ n (fstart t) (fend t)) by done.
    destruct (Z.ltb_spec (fstart f) (fstart t)) as [Hlt|Hge].
    + destruct (match prev with Some pv => (fstart f <? fend pv) || (fstart t <? fend f) | None => false end) eqn:Hov.
      * destruct prev as [pv|]; [|done]. simpl. rewrite Hov. destruct Hprev as (Hpv & Hpf & _).
        rewrite bind_assoc, (wr_next_bind _ None (fstart f) (fend f)) by done.
        rewrite bind_assoc, (rd_helper_bind _ (Some (fptr t)) (fstart pv) (fend pv)) by (simpl; by rewrite lookup_insert_ne).
        rewrite Hov, ret_bind. eexists _, _. split; [done|]. split; [by repeat split|]. split.
        -- intros p H1 _ _. simpl. by rewrite lookup_insert_ne.
        -- split; [done|]. split; [done|]. simpl. by rewrite lookup_insert_eq.
      * destruct (place_before s prev valid d t fs n Hf Hd Ht Hnf Hn Hprev) as (s' & E & H1 & H2 & H3).
        { destruct prev as [pv|]; [|done]. lia. }
        exists (Some valid), s'. split; [|split; [done|split; [done|]]].
        -- rewrite (bind_done _ _ _ _ _ E). by destruct prev.
        -- destruct prev as [pv|]; simpl; [rewrite Hov|]; done.
    + destruct (Z.eqb_spec (fstart f) (fstart t)) as [He|Hne].
      { rewrite ret_bind. exists None, s. split; [done|]. split; [by repeat split|]. split; [done|].
        split; [done|]. split; [done|]. rewrite Hf. simpl. symmetry. by apply insert_id. }
      destruct (Z.ltb_spec (fstart f) (fend t)) as [Hlt|Hge'].
      { rewrite ret_bind. exists None, s. split; [done|]. split; [by repeat split|]. split; [done|].
        split; [done|]. split; [done|]. rewrite Hf. simpl. symmetry. by apply insert_id. }
      set (valid' := match fend <$> prev with Some e => if e =? fstart t then valid else false | None => valid end).
      assert (forall B (k : bool -> M (rstate S) B),
        ((match fptr <$> prev with
          | Some prev => pv ← rd_helper prev; let '(_, _, prev_end) := pv in
              mret (if negb (prev_end =? fstart t) then false else valid)
          | None => mret valid
          end) ≫= k) s = k valid' s) as Hv.
      { intros B k. destruct prev as [pv|]; simpl; [|by rewrite ret_bind]. destruct Hprev as (Hpv & _).
        rewrite bind_assoc, (rd_helper_bind _ (Some (fptr t)) (fstart pv) (fend pv)) by done.
        rewrite ret_bind. unfold valid'. simpl. by destruct (_ =? _). }
      rewrite bind_assoc, Hv. rewrite fmap_cons in Hnf, Hnd. apply not_elem_of_cons in Hnf as [Hft Hnf].
      apply list.NoDup_cons in Hnd as [Htn Hnd].
      destruct (IH fuel s n (Some t) valid' d Hn ltac:(lia) Hf Hnf Hnd Hd) as (o & s' & E & H1 & H2 & H3).
      { repeat split; auto; lia. }
      exists o, s'. split; [exact E|]. split; [done|]. split.
      * intros p Hp1 Hp2 _. rewrite fmap_cons in Hp2. apply not_elem_of_cons in Hp2 as [Hp2 Hp3].
        apply H2; [done|done|]. by intros pv [= <-].
      * simpl in H3. fold valid'. destruct (insert_frag f (Some (fend t)) valid' fs) as [[l v]|]; [|done].
        destruct H3 as [-> (q' & Hl & Ht' & Hr)]. split; [done|].
        exists (Some (fptr t)). split; [by exists q'|]. destruct prev as [pv|].
        -- destruct Hprev as (Hpv & Hpf & Hpt & _). split; [|done]. rewrite fmap_cons in Hpt.
           apply not_elem_of_cons in Hpt as [Hpt Hpfs]. rewrite H2; [done|done|done|].
           by intros ? [= <-].
        -- rewrite Hr. simpl in Hprev. symmetry. apply insert_id. rewrite Hd. f_equal. destruct d. simpl in *. by subst.
Qed.

Lemma place_frag_ok s d fs :
  frags_at (heads s) (ipr_p d) fs -> heads s !! fptr f = Some (Helper None (fstart f) (fend f)) ->
  fptr f ∉ fptr <$> fs -> NoDup (fptr <$> fs) -> reass s !! ipr = Some d -> (length fs <= frag_fuel s)%nat ->
  exists o s', place_frag ipr (fptr f) (fstart f) (fend f) s = Done (o, s') /\ same s s' /\
    (forall p, p <> fptr f -> p ∉ fptr <$> fs -> heads s' !! p = heads s !! p) /\
    match insert_frag f None true fs with
    | None => o = None /\ reass s' = reass s /\ frags_at (heads s') (ipr_p d) fs
    | Some (l, v) => o = Some v /\ exists q', frags_at (heads s') q' l /\
        reass s' = <[ipr := upd_ipr_p q' d]> (reass s)
    end.
Proof.
  intros Hq Hf Hnf Hnd Hd Hfuel. unfold place_frag. rewrite (rd_ipr_bind _ d) by done. rewrite get_bind.
  destruct (find_place_ok fs (frag_fuel s) s (ipr_p d) None true d Hq Hfuel Hf Hnf Hnd Hd eq_refl)
    as (o & s' & E & H1 & H2 & H3).
  exists o, s'. split; [exact E|]. split; [done|]. split.
  - intros p Hp1 Hp2. by apply H2.
  - simpl in H3. destruct (insert_frag f None true fs) as [[l v]|]; [exact H3|].
    destruct H3 as (-> & Hr & Hh). split; [done|]. split; [done|].
    eapply frags_at_ext; [exact Hq|]. intros p Hp. rewrite Hh. apply lookup_insert_ne. by intros <-.
Qed.
End queue.

Lemma frags_in W fs : forall q g, frags_at W q fs -> g ∈ fs -> exists n, W !! fptr g = Some (Helper n (fstart g) (fend g)).
Proof.
  induction fs as [|f fs IH]; intros q g Hq Hg; [by apply elem_of_nil in Hg|].
  destruct Hq as (n & -> & Hf & Hn). apply elem_of_cons in Hg as [->|Hg]; [by exists n|by eapply IH].
Qed.

Lemma frags_length W q fs : frags_at W q fs -> NoDup (fptr <$> fs) -> (length fs <= size W)%nat.
Proof.
  intros Hq Hnd. rewrite <- (length_fmap fptr fs), <- (size_list_to_set (C := gset ptr)) by done.
  rewrite <- size_dom. apply subseteq_size. intros p Hp%elem_of_list_to_set.
  apply list_elem_of_fmap in Hp as (g & -> & Hg). destruct (frags_in _ _ _ _ Hq Hg) as [n Hn].
  apply elem_of_dom. by eexists.
Qed.

(** ** The check for completeness *)

Section complete.
Context {S : Type} `{Packets S}.
Implicit Types (s : rstate S).

Lemma check_rest_ok fs : forall fuel s prev q n ps pe,
  heads s !! prev = Some (Helper n ps pe) -> frags_at (heads s) (Some q) fs -> (length fs <= fuel)%nat ->
  exists z, check_rest fuel prev q s = Done ((z, contiguous pe fs), s) /\
    (contiguous pe fs = true -> exists g l, fs = l ++ [g] /\ z = fptr g).
Proof.
  induction fs as [|g fs IH]; intros fuel s prev q n ps pe Hprev Hq Hf; [done|].
  destruct Hq as (m & E & Hg & Hm). simplify_eq. 
  assert (forall B (k : _ -> M (rstate S) B), (rd_helper prev ≫= k) s = k (n, ps, pe) s) as H1
    by (intros; by apply rd_helper_bind).
  assert (forall B (k : _ -> M (rstate S) B), (rd_helper (fptr g) ≫= k) s = k (m, fstart g, fend g) s) as H2
    by (intros; by apply rd_helper_bind).
  cbn [contiguous]. destruct fuel as [|fuel]; simpl in Hf; [lia|]. cbn [check_rest]. rewrite H1, H2.
  destruct (pe =? fstart g); cbn [negb andb]; [|by exists (fptr g)].
  destruct m as [m|].
  - destruct (IH fuel s (fptr g) m (Some m) (fstart g) (fend g) Hg Hm ltac:(lia)) as (z & E & Hz).
    exists z. split; [exact E|]. intros Hc. destruct (Hz Hc) as (g' & l & -> & ->). by exists g', (g :: l).
  - destruct fs as [|g' fs]; [|by destruct Hm as (? & ? & _)]. exists (fptr g). split; [done|].
    intros _. by exists g, [].
Qed.

(** The test of the second part. *)
Definition complete (flags : Z) (v : bool) (p : ptr) (l : list frag) : bool :=
  nz (Z.land flags IP_REASS_FLAG_LASTFRAG) && v &&
  match l with f :: _ => fstart f =? 0 | [] => false end &&
  match from_frag p l with f :: r => contiguous (fend f) r | [] => false end.

Lemma frags_at_suffix W l : forall q k, frags_at W q (l ++ k) -> exists q', frags_at W q' k.
Proof. induction l as [|g l IH]; intros q k Hq; [by exists q|]. destruct Hq as (n & _ & _ & Hn). by eapply IH. Qed.

Lemma from_frag_mid f l k : NoDup (fptr <$> l ++ f :: k) -> from_frag (fptr f) (l ++ f :: k) = f :: k.
Proof.
  induction l as [|g l IH]; intros Hnd; simpl.
  - by rewrite bool_decide_true.
  - rewrite <- app_comm_cons, fmap_cons in Hnd. apply list.NoDup_cons in Hnd as [Hg Hnd].
    rewrite bool_decide_false; [by apply IH|]. intros E. apply Hg. rewrite E, fmap_app.
    apply elem_of_app. right. by left.
Qed.

Lemma validate_ok s ipr d f l k v :
  reass s !! ipr = Some d -> frags_at (heads s) (ipr_p d) (l ++ f :: k) -> NoDup (fptr <$> l ++ f :: k) ->
  (complete (ipr_flags d) v (fptr f) (l ++ f :: k) = true ->
     (2 <= length (l ++ f :: k))%nat /\ last_end 0 (l ++ f :: k) = datagram_len d) ->
  validate ipr (fptr f) v s = Done (complete (ipr_flags d) v (fptr f) (l ++ f :: k), s).
Proof.
  intros Hd Hq Hnd Hc. unfold validate, complete in *. rewrite (rd_ipr_bind _ d) by done.
  destruct (nz _); cbn [andb] in *; [|done]. destruct v; cbn [andb] in *; [|done].
  rewrite (from_frag_mid f l k Hnd) in *.
  destruct (l ++ f :: k) as [|g r] eqn:El; [by destruct l|].
  destruct Hq as (n & Hp & Hg & Hr). rewrite (deref_bind _ (fptr g)) by done.
  rewrite (rd_helper_bind _ n (fstart g) (fend g)) by done.
  destruct (fstart g =? 0); cbn [negb andb] in *; [|done].
  assert (exists m, heads s !! fptr f = Some (Helper m (fstart f) (fend f)) /\ frags_at (heads s) m k) as (m & Hf & Hk).
  { assert (frags_at (heads s) (Some (fptr g)) (l ++ f :: k)) as Hq by (rewrite El; by exists n).
    apply frags_at_suffix in Hq as (q' & m & _ & Hf & Hk). by exists m. }
  rewrite (rd_helper_bind _ m (fstart f) (fend f)) by done. rewrite get_bind.
  assert (exists z, (match m with None => mret (fptr f, true) | Some q => check_rest (frag_fuel s) (fptr f) q end) s =
      Done ((z, contiguous (fend f) k), s) /\
    (contiguous (fend f) k = true -> exists h (x : frag), g :: r = h ++ [x] /\ z = fptr x)) as (z & E & Hz).
  { destruct m as [q|].
    - destruct k as [|x k]; [done|]. destruct (check_rest_ok (x :: k) (frag_fuel s) s (fptr f) q (Some q) (fstart f)
        (fend f) Hf Hk) as (z & E & Hz).
      { transitivity (length (l ++ f :: x :: k)); [rewrite length_app; simpl; lia|]. rewrite El.
        etransitivity; [eapply (frags_length (heads s) (Some (fptr g))); [by exists n|done]|]. unfold frag_fuel. lia. }
      exists z. split; [exact E|]. intros Hcc. destruct (Hz Hcc) as (y & h & Ek & ->).
      exists (l ++ f :: h), y. split; [|done]. by rewrite <- El, Ek, <- app_assoc.
    - destruct k as [|x k]; [|by destruct Hk as (? & ? & _)]. exists (fptr f). split; [done|].
      intros _. by exists l, f. }
  rewrite (bind_done _ _ _ _ _ E). destruct (contiguous (fend f) k); [|done].
  destruct (Hz eq_refl) as (h & x & Ex & ->). destruct (Hc eq_refl) as [Hlen Hend].
  assert (heads s !! fptr x = Some (Helper None (fstart x) (fend x))) as Hx.
  { assert (frags_at (heads s) (Some (fptr g)) (g :: r)) as Hq by (by exists n).
    rewrite Ex in Hq. apply frags_at_suffix in Hq as (q' & m' & _ & Hq & E'). simpl in E'. by subst m'. }
  rewrite lwip_assert_bind.
  - rewrite (rd_helper_bind _ None (fstart x) (fend x)) by done. rewrite lwip_assert_bind by done.
    rewrite lwip_assert_bind; [done|]. rewrite <- Hend, Ex. unfold last_end. rewrite last_snoc. lia.
  - rewrite bool_decide_false; [done|]. destruct h as [|g' h]; simplify_eq/=; [lia|].
    intros E'. rewrite E' in Hnd. apply list.NoDup_cons in Hnd as [Hnd _]. apply Hnd. rewrite fmap_app.
    apply elem_of_app. right. by left.
Qed.
End complete.
