(* ===== verification/ReassQueue.v ===== *)
(** * The reassembly queue

    The invariant of the static variables of ip_frag.c, against the lists of
    IpReass.v, and what the operations do to these lists: freeing datagrams, the
    reassembly timer, finding and enqueuing a datagram, and the delivery of a
    complete one. *)

From S2P Require Import Prelude ByteOrder Chksum Alloc Pbuf AllocImpl PbufSpec PbufOwn IpHdr IpReass.

(** ** Lists in memory *)

Lemma frags_at_fun W fs : forall q q', frags_at W q fs -> frags_at W q' fs -> q = q'.
Proof. destruct fs as [|f fs]; intros q q' Hq Hq'; simpl in *; [congruence|]. by destruct Hq as (? & -> & _), Hq' as (? & -> & _). Qed.

Lemma addr_of_app l r nxt : addr_of (l ++ r) nxt = addr_of l (addr_of r nxt).
Proof. by destruct l. Qed.

Lemma dlist_app R W l : forall nxt r, dlist R W nxt (l ++ r) <-> dlist R W (addr_of r nxt) l /\ dlist R W nxt r.
Proof.
  induction l as [|g l IH]; intros nxt r; simpl; [tauto|]. rewrite addr_of_app, IH. tauto.
Qed.

Lemma all_frags_app l r : all_frags (l ++ r) = all_frags l ++ all_frags r.
Proof. unfold all_frags. by rewrite fmap_app, concat_app. Qed.

Lemma all_frags_cons g r : all_frags (g :: r) = dg_frags g ++ all_frags r.
Proof. done. Qed.

Lemma dg_at_ext R R' W W' nxt g :
  dg_at R W nxt g -> R' !! dg_addr g = R !! dg_addr g ->
  (forall p, p ∈ fptr <$> dg_frags g -> W' !! p = W !! p) -> dg_at R' W' nxt g.
Proof. intros (q & Hr & Hq) E He. exists q. rewrite E. split; [done|]. by eapply frags_at_ext. Qed.

Lemma dlist_ext R R' W W' nxt ds :
  dlist R W nxt ds -> (forall a, a ∈ dg_addr <$> ds -> R' !! a = R !! a) ->
  (forall p, p ∈ fptr <$> all_frags ds -> W' !! p = W !! p) -> dlist R' W' nxt ds.
Proof.
  induction ds as [|g ds IH]; simpl; [done|]. intros [Hg Hds] HR HW.
  rewrite all_frags_cons, fmap_app in HW. split.
  - eapply dg_at_ext; [exact Hg|apply HR; by left|]. intros p Hp. apply HW, elem_of_app. by left.
  - apply IH; [done| |]; [intros a Ha; apply HR; by right|]. intros p Hp. apply HW, elem_of_app. by right.
Qed.

Lemma dlist_in R W nxt ds g : dlist R W nxt ds -> g ∈ ds -> exists n, dg_at R W n g.
Proof.
  revert nxt. induction ds as [|x ds IH]; intros nxt Hd Hg; [by apply elem_of_nil in Hg|].
  destruct Hd as [Hx Hd]. apply elem_of_cons in Hg as [->|Hg]; [by eexists|by eapply IH].
Qed.

Lemma dlist_length R W nxt ds : dlist R W nxt ds -> NoDup (dg_addr <$> ds) -> (length ds <= size R)%nat.
Proof.
  intros Hd Hnd. rewrite <- (length_fmap dg_addr ds), <- (size_list_to_set (C := gset Z)) by done.
  rewrite <- size_dom. apply subseteq_size. intros a Ha%elem_of_list_to_set.
  apply list_elem_of_fmap in Ha as (g & -> & Hg). destruct (dlist_in _ _ _ _ _ Hd Hg) as (n & q & Hr & _).
  apply elem_of_dom. by eexists.
Qed.

Lemma frags_in_all g (ds : list dgram) f : g ∈ ds -> f ∈ dg_frags g -> f ∈ all_frags ds.
Proof.
  intros Hg Hf. apply list_elem_of_split in Hg as (l & r & ->). rewrite all_frags_app, all_frags_cons.
  apply elem_of_app. right. apply elem_of_app. by left.
Qed.

(** ** Counting pbufs *)

Lemma pcount_cons own f fs : pcount own (f :: fs) = zlen (default [] (own !! fptr f)) + pcount own fs.
Proof. done. Qed.

Lemma pcount_app own l r : pcount own (l ++ r) = pcount own l + pcount own r.
Proof. induction l as [|f l IH]; [done|]. rewrite <- app_comm_cons, !pcount_cons. lia. Qed.

Lemma pcount_nonneg own fs : 0 <= pcount own fs.
Proof. induction fs as [|f fs IH]; [done|]. rewrite pcount_cons. pose proof (zlen_nonneg (default [] (own !! fptr f))). lia. Qed.

Lemma pcount_ext own own' fs :
  (forall p, p ∈ fptr <$> fs -> own' !! p = own !! p) -> pcount own' fs = pcount own fs.
Proof.
  induction fs as [|f fs IH]; intros He; [done|]. rewrite !pcount_cons, IH, He; [done|by left|].
  intros p Hp. apply He. by right.
Qed.

Lemma frag_ok_ext own own' f : own' !! fptr f = own !! fptr f -> frag_ok own f -> frag_ok own' f.
Proof. intros E (x & n & l & Hx & Hr). exists x, n, l. by rewrite E. Qed.

Lemma frags_ok_ext own own' fs :
  (forall p, p ∈ fptr <$> fs -> own' !! p = own !! p) -> Forall (frag_ok own) fs -> Forall (frag_ok own') fs.
Proof.
  intros He. rewrite !list.Forall_forall. intros Hok f Hf. eapply frag_ok_ext, Hok; [|done].
  apply He, list_elem_of_fmap. by exists f.
Qed.

Lemma frag_ok_in own f : frag_ok own f -> exists l, own !! fptr f = Some l /\ 1 <= zlen l.
Proof. intros (x & n & l & Hx & _). eexists. split; [done|]. rewrite zlen_cons. pose proof (zlen_nonneg l). lia. Qed.

(** ** The invariant *)

Section queue_inv.
Context {S : Type} `{PacketsSpec S}.
Implicit Types (s : rstate S) (own : gmap ptr segs) (ds : list dgram).

(** The datagrams [ds] are queued and all packets held are those of [own]; [n]
    pbufs more than those of the queue are counted. *)
Record queue (n : Z) own ds s : Prop := Queue {
  q_pk : pk_inv (packets s) own;
  q_head : reassdatagrams s = addr_of ds None;
  q_list : dlist (reass s) (heads s) None ds;
  q_addrs : NoDup (reass_free s ++ (dg_addr <$> ds));
  q_frags : NoDup (fptr <$> all_frags ds);
  q_ok : Forall (frag_ok own) (all_frags ds);
  q_count : ip_reass_pbufcount s = n + pcount own (all_frags ds);
  q_max : 0 <= n /\ n + pcount own (all_frags ds) <= IP_REASS_MAX_PBUFS
}.

(** The state between two calls: a queued datagram has a fragment. *)
Definition queued own ds s : Prop := queue 0 own ds s /\ Forall (fun g => dg_frags g <> []) ds.

(** ** Freeing *)

Lemma free_packet_ok s own p l :
  pk_inv (packets s) own -> own !! p = Some l ->
  exists k, (forall B (c : unit -> M (rstate S) B), (free_packet p ≫= c) s = c tt (set_heads (delete p) (set_packets k s))) /\
    pk_inv k (delete p own).
Proof.
  intros Hi Hp. destruct (pk_free_ok _ _ _ _ Hi Hp) as (n & k & E & Hi'). exists k. split; [|done].
  intros B c. unfold free_packet, drop_head. rewrite bind_assoc.
  rewrite (bind_done _ _ s n (set_packets k s)) by (unfold on_packets; by rewrite E). by rewrite modify_bind.
Qed.

Lemma clen_bind {B} s own p l (k : Z -> M (rstate S) B) :
  pk_inv (packets s) own -> own !! p = Some l -> zlen l <= IP_REASS_MAX_PBUFS ->
  (on_packets (pk_clen p) ≫= k) s = k (zlen l) s.
Proof.
  intros Hi Hp Hl. rewrite (bind_done _ _ s (zlen l) s); [done|]. unfold on_packets.
  rewrite (pk_clen_ok _ _ _ _ Hi Hp). rewrite (u8_id (zlen l)); [by destruct s|].
  unfold is_u8, IP_REASS_MAX_PBUFS in *. pose proof (zlen_nonneg l). lia.
Qed.

Lemma free_frags_ok fs : forall fuel s q own n,
  frags_at (heads s) q fs -> (length fs <= fuel)%nat -> pk_inv (packets s) own ->
  Forall (frag_ok own) fs -> NoDup (fptr <$> fs) -> 0 <= n -> n + pcount own fs <= IP_REASS_MAX_PBUFS ->
  exists k, free_frags fuel q n s =
      Done (n + pcount own fs, set_heads (fun W => without W (fptr <$> fs)) (set_packets k s)) /\
    pk_inv k (without own (fptr <$> fs)).
Proof.
  induction fs as [|f fs IH]; intros fuel s q own n Hq Hf Hi Hok Hnd Hn Hmax.
  - simpl in Hq. subst q. exists (packets s). split; [|done]. simpl. rewrite Z.add_0_r.
    destruct fuel; simpl; by destruct s.
  - destruct Hq as (m & -> & Hh & Hm). destruct fuel as [|fuel]; simpl in Hf; [lia|]. cbn [free_frags].
    rewrite (rd_helper_bind _ m (fstart f) (fend f)) by done.
    apply list.Forall_cons in Hok as [Hof Hok]. rewrite fmap_cons in Hnd. apply list.NoDup_cons in Hnd as [Hnf Hnd].
    destruct (frag_ok_in _ _ Hof) as (l & Hl & Hl1). rewrite pcount_cons, Hl in *. simpl in Hmax |- *.
    pose proof (pcount_nonneg own fs) as Hp0. rewrite (clen_bind s own _ l) by (done || lia).
    rewrite lwip_assert_bind by (unfold IP_REASS_MAX_PBUFS in *; lia).
    destruct (free_packet_ok s own _ l Hi Hl) as (k & E & Hi'). rewrite E.
    assert (forall p, p ∈ fptr <$> fs -> p <> fptr f) as Hne by (by intros p Hp ->).
    assert (pcount (delete (fptr f) own) fs = pcount own fs) as Hpc.
    { apply pcount_ext. intros p Hp. apply lookup_delete_ne. symmetry. by apply Hne. }
    rewrite (u16_id (n + zlen l)) by (unfold is_u16, IP_REASS_MAX_PBUFS in *; lia).
    destruct (IH fuel (set_heads (delete (fptr f)) (set_packets k s)) m (delete (fptr f) own) (n + zlen l))
      as (k' & E' & Hi''); try done; try lia.
    + eapply frags_at_ext; [exact Hm|]. intros p Hp. simpl. apply lookup_delete_ne. symmetry. by apply Hne.
    + eapply frags_ok_ext; [|exact Hok]. intros p Hp. apply lookup_delete_ne. symmetry. by apply Hne.
    + exists k'. split; [|exact Hi'']. rewrite E', Hpc. do 2 f_equal. lia.
Qed.

Definition last_addr ds : option Z := dg_addr <$> list.last ds.

(** What dequeuing leaves alone. *)
Definition same_data s s' : Prop :=
  packets s' = packets s /\ heads s' = heads s /\ ip_reass_pbufcount s' = ip_reass_pbufcount s /\
  reass_stats s' = reass_stats s /\ icmp_sent s' = icmp_sent s.

Lemma dlist_delete R W nxt l a : dlist R W nxt l -> a ∉ dg_addr <$> l -> dlist (delete a R) W nxt l.
Proof. intros Hd Ha. eapply dlist_ext; [exact Hd| |done]. intros b Hb. apply lookup_delete_ne. by intros ->. Qed.

Lemma dlist_insert R W nxt l a d : dlist R W nxt l -> a ∉ dg_addr <$> l -> dlist (<[a := d]> R) W nxt l.
Proof. intros Hd Ha. eapply dlist_ext; [exact Hd| |done]. intros b Hb. apply lookup_insert_ne. by intros ->. Qed.

Lemma dequeue_ok s l g r d :
  reassdatagrams s = addr_of (l ++ g :: r) None -> dlist (reass s) (heads s) (Some (dg_addr g)) l ->
  dlist (reass s) (heads s) None r -> reass s !! dg_addr g = Some d -> ipr_next d = addr_of r None ->
  NoDup (dg_addr <$> l ++ g :: r) ->
  exists s', (forall B (k : unit -> M (rstate S) B), (ip_reass_dequeue_datagram (dg_addr g) (last_addr l) ≫= k) s = k tt s') /\
    same_data s s' /\ reassdatagrams s' = addr_of (l ++ r) None /\ dlist (reass s') (heads s') None (l ++ r) /\
    reass_free s' = dg_addr g :: reass_free s.
Proof.
  intros Hhd Hl Hr Hd Hn Hnd. rewrite fmap_app, fmap_cons in Hnd. apply list.NoDup_app in Hnd as (Hndl & Hlg & Hndr).
  apply list.NoDup_cons in Hndr as [Hgr Hndr].
  assert (dg_addr g ∉ dg_addr <$> l) as Hgl by (intros Hin; apply (Hlg _ Hin); left).
  destruct (exists_last_inv l) as [->|(l0 & x & ->)].
  - simpl in Hhd. eexists. split.
    + intros B k. unfold ip_reass_dequeue_datagram. rewrite bind_assoc, get_bind, bind_assoc.
      rewrite (rd_ipr_bind _ d) by done. rewrite bind_assoc, bool_decide_true by done.
      unfold set_datagrams. rewrite modify_bind, bind_assoc, modify_bind, bind_assoc, get_bind.
      unfold set_free. rewrite modify_bind. reflexivity.
    + simpl. repeat split; [exact Hn|]. by apply dlist_delete.
  - rewrite fmap_app in Hgl, Hndl. apply not_elem_of_app in Hgl as [Hgl0 Hgx%not_elem_of_cons].
    destruct Hgx as [Hgx _]. apply list.NoDup_app in Hndl as (_ & Hx0 & _).
    assert (dg_addr x ∉ dg_addr <$> l0) as Hxl by (intros Hin; apply (Hx0 _ Hin); left).
    assert (dg_addr x ∉ dg_addr <$> r) as Hxr.
    { intros Hin. apply (Hlg (dg_addr x)); [rewrite fmap_app; apply elem_of_app; right; by left|by right]. }
    apply dlist_app in Hl as [Hl0 [(q & Hx & Hq) _]]. simpl in Hl0, Hx.
    eexists. split.
    + intros B k. unfold ip_reass_dequeue_datagram, last_addr. rewrite last_snoc. simpl fmap.
      rewrite bind_assoc, get_bind, bind_assoc. rewrite (rd_ipr_bind _ d) by done. rewrite bind_assoc.
      rewrite bool_decide_false.
      2:{ rewrite Hhd. destruct l0 as [|y l0]; simpl; [congruence|]. intros [= E]. apply Hgl0. rewrite <- E. by left. }
      cbv iota. rewrite bind_assoc. rewrite (rd_ipr_bind (dg_addr x) _ _ s Hx). unfold wr_ipr.
      rewrite modify_bind, bind_assoc, modify_bind, bind_assoc, get_bind. unfold set_free. rewrite modify_bind. reflexivity.
    + simpl. split; [by repeat split|]. split.
      { rewrite Hhd. rewrite !addr_of_app. by destruct l0. }
      split; [|done]. apply dlist_delete.
      * apply dlist_app. split; [apply dlist_app; split|by apply dlist_insert]; [by apply dlist_insert|].
        split; [|done]. exists q. split; [|done]. rewrite lookup_insert_eq. unfold upd_ipr_next. simpl. by rewrite Hn.
      * rewrite fmap_app, fmap_app. apply not_elem_of_app. split; [|done]. apply not_elem_of_app. split; [done|].
        apply not_elem_of_cons. split; [done|]. apply not_elem_of_nil.
Qed.

Lemma perm_mid (free : list Z) l g r :
  NoDup (free ++ (dg_addr <$> l ++ g :: r)) -> NoDup ((dg_addr g :: free) ++ (dg_addr <$> l ++ r)).
Proof.
  assert ((dg_addr g :: free) ++ (dg_addr <$> l ++ r) ≡ₚ free ++ (dg_addr <$> l ++ g :: r)) as ->; [|done].
  rewrite !fmap_app, fmap_cons, <- app_comm_cons, !app_assoc. apply Permutation_middle.
Qed.

(** The fragments of the other datagrams are not those of [g]. *)
Lemma frags_apart l g r p :
  NoDup (fptr <$> all_frags (l ++ g :: r)) -> p ∈ fptr <$> all_frags (l ++ r) -> p ∉ fptr <$> dg_frags g.
Proof.
  intros Hf Hp Hin. rewrite all_frags_app, all_frags_cons, !fmap_app in Hf.
  apply list.NoDup_app in Hf as (_ & Hlgr & Hf). apply list.NoDup_app in Hf as (_ & Hgr & _).
  rewrite all_frags_app, fmap_app in Hp. apply elem_of_app in Hp as [Hp|Hp]; [|by apply (Hgr p)].
  apply (Hlgr p Hp), elem_of_app. by left.
Qed.

Lemma frags_rest l g r : NoDup (fptr <$> all_frags (l ++ g :: r)) -> NoDup (fptr <$> all_frags (l ++ r)).
Proof.
  rewrite !all_frags_app, all_frags_cons, !fmap_app. rewrite (Permutation_app_comm (fptr <$> dg_frags g)), app_assoc.
  by intros (Hf & _ & _)%list.NoDup_app.
Qed.

(** The queue without the datagram [g]. *)
Lemma queue_removed n own own' l g r s s' :
  queue n own (l ++ g :: r) s -> pk_inv (packets s') own' ->
  (forall p, p ∈ fptr <$> all_frags (l ++ r) -> own' !! p = own !! p) ->
  dlist (reass s') (heads s') None (l ++ r) -> reassdatagrams s' = addr_of (l ++ r) None ->
  reass_free s' = dg_addr g :: reass_free s ->
  ip_reass_pbufcount s' = ip_reass_pbufcount s - (n + pcount own (dg_frags g)) ->
  queue 0 own' (l ++ r) s'.
Proof.
  intros [Hi Hhd Hl Ha Hf Hok Hc [Hn Hm]] Hi' Hw Hl' Hhd' Hf' Hc'.
  assert (pcount own' (all_frags (l ++ r)) = pcount own (all_frags l) + pcount own (all_frags r)) as Hpc.
  { rewrite all_frags_app, <- pcount_app. apply pcount_ext. intros p Hp. apply Hw. by rewrite all_frags_app. }
  rewrite all_frags_app, all_frags_cons in Hok, Hc, Hm. rewrite !pcount_app in Hc, Hm.
  rewrite !Forall_app in Hok. destruct Hok as (Hokl & _ & Hokr). pose proof (pcount_nonneg own (dg_frags g)).
  split; try done.
  - rewrite Hf'. by apply perm_mid.
  - by eapply frags_rest.
  - eapply frags_ok_ext; [exact Hw|]. rewrite all_frags_app. apply Forall_app. by split.
  - rewrite Hpc. lia.
  - rewrite Hpc. lia.
Qed.

(** What freeing a datagram, from the second step on, does: [n] pbufs were freed
    before. *)
Lemma free_rest_ok s own n l g r :
  queue n own (l ++ g :: r) s ->
  exists s', (d ← rd_ipr (dg_addr g);
      s ← get;
      pbufs_freed ← free_frags (frag_fuel s) (ipr_p d) n;
      ip_reass_dequeue_datagram (dg_addr g) (last_addr l);;
      s ← get;
      lwip_assert (pbufs_freed <=? ip_reass_pbufcount s);;
      set_pbufcount (u16 (ip_reass_pbufcount s - pbufs_freed));;
      mret pbufs_freed) s = Done (n + pcount own (dg_frags g), s') /\
    queue 0 (without own (fptr <$> dg_frags g)) (l ++ r) s' /\
    reass_stats s' = reass_stats s /\ icmp_sent s' = icmp_sent s /\
    heads s' = without (heads s) (fptr <$> dg_frags g) /\ reass_free s' = dg_addr g :: reass_free s.
Proof.
  intros Hqu. pose proof Hqu as [Hi Hhd Hl Ha Hf Hok Hc [Hn Hm]]. apply dlist_app in Hl as [Hl [(q & Hg & Hq) Hr]].
  rewrite (rd_ipr_bind _ _ _ s Hg), get_bind. simpl ipr_p.
  assert (forall p V (w : gmap ptr V), p ∈ fptr <$> all_frags (l ++ r) -> without w (fptr <$> dg_frags g) !! p = w !! p)
    as Hw by (intros p V w Hp; by eapply without_lookup_ne, frags_apart).
  rewrite all_frags_app, all_frags_cons in *. rewrite !pcount_app in *. rewrite !Forall_app in Hok.
  destruct Hok as (_ & Hokg & _). rewrite !fmap_app in Hf.
  apply list.NoDup_app in Hf as (_ & _ & Hf). apply list.NoDup_app in Hf as (Hfg & _ & _).
  pose proof (pcount_nonneg own (all_frags l)). pose proof (pcount_nonneg own (all_frags r)).
  pose proof (pcount_nonneg own (dg_frags g)).
  destruct (free_frags_ok (dg_frags g) (frag_fuel s) s q own n) as (k & E & Hk); try done; try lia.
  { etransitivity; [by eapply frags_length|]. unfold frag_fuel. lia. }
  rewrite (bind_done _ _ _ _ _ E). set (s1 := set_heads _ _).
  destruct (dequeue_ok s1 l g r (ReassData (addr_of r None) q (dg_hdr g) (dg_len g) (dg_flags g) (dg_timer g)) Hhd) as (s2 & E2 & (Hpk & Hh2 & Hc2 & Hs2 & Hi2) & Hhd2 & Hl2 & Hf2); try done.
  - eapply dlist_ext; [exact Hl|done|]. intros p Hp. apply Hw. rewrite fmap_app. apply elem_of_app. by left.
  - eapply dlist_ext; [exact Hr|done|]. intros p Hp. apply Hw. rewrite fmap_app. apply elem_of_app. by right.
  - by apply list.NoDup_app in Ha as (_ & _ & Ha).
  - rewrite E2, get_bind. simpl in Hc2. rewrite lwip_assert_bind by lia. unfold set_pbufcount. rewrite modify_bind.
    eexists. split; [done|]. simpl. rewrite Hf2. split; [|done].
    eapply (queue_removed n own _ l g r s); [done|simpl; by rewrite Hpk| |done|done|done|].
    + intros p Hp. apply Hw. by rewrite <- all_frags_app.
    + simpl. rewrite Hc2. apply u16_id. unfold is_u16, IP_REASS_MAX_PBUFS in *. lia.
Qed.

(** The ICMP message for a datagram that is given up: only when its first fragment
    is there. *)
Definition icmp_of g : list (ip_hdr * Z) :=
  match dg_frags g with
  | f :: _ => if fstart f =? 0 then [(dg_hdr g, ICMP_TE_FRAG)] else []
  | [] => []
  end.

Definition set_frags (fs : list frag) g : dgram :=
  Dgram (dg_addr g) (dg_hdr g) (dg_len g) (dg_flags g) (dg_timer g) fs.

(** The first fragment leaves the queue and is freed. *)
Lemma first_freed s own l g r f fs m q k :
  queue 0 own (l ++ g :: r) s -> dg_frags g = f :: fs ->
  heads s !! fptr f = Some (Helper m (fstart f) (fend f)) -> frags_at (heads s) m fs ->
  reass s !! dg_addr g = Some (ReassData (addr_of r None) q (dg_hdr g) (dg_len g) (dg_flags g) (dg_timer g)) ->
  pk_inv k (delete (fptr f) own) ->
  queue (zlen (default [] (own !! fptr f))) (delete (fptr f) own) (l ++ set_frags fs g :: r)
    (RState k (delete (fptr f) (heads s))
       (<[dg_addr g := ReassData (addr_of r None) m (dg_hdr g) (dg_len g) (dg_flags g) (dg_timer g)]> (reass s))
       (reassdatagrams s) (reass_free s) (ip_reass_pbufcount s) (reass_stats s)
       (icmp_sent s ++ [(dg_hdr g, ICMP_TE_FRAG)])).
Proof.
  intros [Hi Hhd Hl Ha Hf Hok Hc [Hn Hm]] Hfs Hh Hm' Hg Hk.
  rewrite all_frags_app, all_frags_cons, Hfs in *. rewrite !fmap_app, fmap_cons in Hf.
  assert (NoDup (fptr f :: (fptr <$> all_frags l ++ fs ++ all_frags r))) as Hnd.
  { rewrite !fmap_app. by rewrite Permutation_middle. }
  apply list.NoDup_cons in Hnd as [Hnf Hnd].
  assert (forall V (w : gmap ptr V) p, p ∈ fptr <$> all_frags l ++ fs ++ all_frags r -> delete (fptr f) w !! p = w !! p) as Hw.
  { intros V w p Hp. apply lookup_delete_ne. by intros <-. }
  assert (pcount (delete (fptr f) own) (all_frags l ++ fs ++ all_frags r) = pcount own (all_frags l ++ fs ++ all_frags r))
    as Hpc by (apply pcount_ext; intros p Hp; by apply Hw).
  assert (NoDup (dg_addr <$> l ++ g :: r)) as Hda by (by apply list.NoDup_app in Ha as (_ & _ & Ha)).
  rewrite fmap_app, fmap_cons in Hda. apply list.NoDup_app in Hda as (_ & Hlg & Hda).
  apply list.NoDup_cons in Hda as [Hgr _].
  assert (dg_addr g ∉ dg_addr <$> l) as Hgl by (intros Hin; apply (Hlg _ Hin); left).
  rewrite !fmap_app in Hw. apply dlist_app in Hl as [Hl [_ Hr]].
  split; simpl; try done.
  - rewrite Hhd, !addr_of_app. done.
  - apply dlist_app. split; [|split].
    + apply dlist_insert; [|done]. eapply dlist_ext; [exact Hl|done|]. intros p Hp. apply Hw, elem_of_app. by left.
    + exists m. split; [apply lookup_insert_eq|]. simpl. eapply frags_at_ext; [exact Hm'|]. intros p Hp.
      apply Hw, elem_of_app. right. apply elem_of_app. by left.
    + apply dlist_insert; [|done]. eapply dlist_ext; [exact Hr|done|]. intros p Hp. apply Hw, elem_of_app. right.
      apply elem_of_app. by right.
  - rewrite fmap_app, fmap_cons in *. done.
  - by rewrite all_frags_app.
  - rewrite all_frags_app. eapply frags_ok_ext; [intros p Hp; by apply Hw; rewrite <- !fmap_app|].
    rewrite !Forall_app in Hok. rewrite all_frags_cons, !Forall_app. destruct Hok as (Hokl & Hokf & Hokr).
    apply list.Forall_cons in Hokf as [_ Hokf]. by split_and!.
  - rewrite all_frags_app, all_frags_cons. cbn [dg_frags set_frags]. rewrite Hpc, Hc, !pcount_app, pcount_cons. lia.
  - rewrite all_frags_app, all_frags_cons. cbn [dg_frags set_frags]. rewrite Hpc. rewrite !pcount_app in Hm |- *.
    rewrite pcount_cons in Hm. split; [apply zlen_nonneg|lia].
Qed.

Lemma free_complete_ok s own l g r :
  queue 0 own (l ++ g :: r) s -> dg_frags g <> [] ->
  exists s', ip_reass_free_complete_datagram (dg_addr g) (last_addr l) s = Done (pcount own (dg_frags g), s') /\
    queue 0 (without own (fptr <$> dg_frags g)) (l ++ r) s' /\
    reass_stats s' = reass_stats s /\ icmp_sent s' = icmp_sent s ++ icmp_of g /\
    heads s' = without (heads s) (fptr <$> dg_frags g) /\ reass_free s' = dg_addr g :: reass_free s.
Proof.
  intros Hqu Hne. pose proof Hqu as [Hi Hhd Hl Ha Hf Hok Hc [Hn Hm]].
  apply dlist_app in Hl as [Hl [(q & Hg & Hq) Hr]].
  assert (dg_addr g ∉ dg_addr <$> l) as Hgl.
  { apply list.NoDup_app in Ha as (_ & _ & Ha). rewrite fmap_app in Ha. apply list.NoDup_app in Ha as (_ & Ha & _).
    intros Hin. apply (Ha _ Hin). by left. }
  unfold ip_reass_free_complete_datagram. rewrite lwip_assert_bind.
  2:{ rewrite bool_decide_false; [done|]. destruct (exists_last_inv l) as [->|(l0 & x & ->)]; [done|].
      unfold last_addr. rewrite last_snoc. intros [= E]. apply Hgl. rewrite fmap_app, <- E.
      apply elem_of_app. right. by left. }
  assert (forall B (k : unit -> M (rstate S) B), ((match last_addr l with
      | None => mret tt
      | Some prev => pd ← rd_ipr prev; lwip_assert (bool_decide (ipr_next pd = Some (dg_addr g)))
      end) ≫= k) s = k tt s) as Hprev.
  { intros B k. destruct (exists_last_inv l) as [->|(l0 & x & ->)]; [done|]. unfold last_addr. rewrite last_snoc.
    simpl fmap. cbv iota. apply dlist_app in Hl as [_ [(qx & Hx & _) _]]. rewrite bind_assoc.
    rewrite (rd_ipr_bind _ _ _ s Hx). simpl. by rewrite lwip_assert_bind by (by rewrite bool_decide_true). }
  rewrite Hprev, (rd_ipr_bind _ _ _ s Hg). cbn [ipr_p].
  destruct (dg_frags g) as [|f fs] eqn:Hfs; [done|]. destruct Hq as (m & -> & Hh & Hm').
  rewrite (deref_bind _ (fptr f)) by done. rewrite (rd_helper_bind _ m (fstart f) (fend f)) by done.
  unfold icmp_of. rewrite Hfs. destruct (fstart f =? 0).
  - unfold wr_ipr, wr_head, icmp_time_exceeded. rewrite bind_assoc, modify_bind, bind_assoc, modify_bind, bind_assoc, modify_bind.
    rewrite all_frags_app, all_frags_cons, Hfs, !pcount_app, pcount_cons in Hm.
    rewrite all_frags_app, all_frags_cons, Hfs in Hok. apply Forall_app in Hok as [_ [Hokf _]%list.Forall_cons].
    destruct (frag_ok_in _ _ Hokf) as (lf & Hlf & Hlf1). rewrite Hlf in Hm. simpl in Hm.
    pose proof (pcount_nonneg own (all_frags l)). pose proof (pcount_nonneg own (all_frags r)).
    pose proof (pcount_nonneg own fs).
    rewrite bind_assoc, (clen_bind _ own _ lf) by (try done; lia).
    rewrite bind_assoc, lwip_assert_bind by (unfold IP_REASS_MAX_PBUFS in *; lia). rewrite bind_assoc.
    destruct (free_packet_ok _ own (fptr f) lf Hi Hlf) as (k & E & Hk).
    match goal with |- context [(free_packet _ ≫= _) ?x] =>
      destruct (free_packet_ok x own (fptr f) lf Hi Hlf) as (k' & E' & Hk') end.
    rewrite E', ret_bind. unfold set_heads, set_packets, set_reass. simpl.
    rewrite delete_insert_eq. unfold upd_ipr_p. simpl.
    pose proof (first_freed s own l g r f fs m _ k' Hqu Hfs Hh Hm' Hg Hk') as Hq1. rewrite Hlf in Hq1. simpl in Hq1.
    destruct (free_rest_ok _ _ _ l (set_frags fs g) r Hq1) as (s' & E2 & Hq2 & Hs2 & Hi2 & Hh2 & Hf2).
    exists s'. simpl in Hi2, Hh2, Hf2. split.
    + etransitivity; [exact E2|]. cbn [dg_frags set_frags]. rewrite Hlf. simpl default. do 3 f_equal.
      apply pcount_ext. intros p Hp. apply lookup_delete_ne. intros <-.
      rewrite all_frags_app, all_frags_cons, Hfs, !fmap_app, fmap_cons in Hf.
      apply list.NoDup_app in Hf as (_ & _ & Hf). apply list.NoDup_app in Hf as (Hf & _ & _).
      by apply list.NoDup_cons in Hf as [Hf _].
    + split; [exact Hq2|]. split; [exact Hs2|]. by split.
  - rewrite ret_bind. destruct (free_rest_ok s own 0 l g r Hqu) as (s' & E2 & Hq2 & Hs2 & Hi2 & Hh2 & Hf2).
    exists s'. rewrite Hfs in *. split; [exact E2|]. rewrite app_nil_r. split; [exact Hq2|]. split; [exact Hs2|]. by split.
Qed.

(** ** Changing one datagram *)

Lemma addrs_apart (free : list Z) l g r :
  NoDup (free ++ (dg_addr <$> l ++ g :: r)) -> (dg_addr g ∉ dg_addr <$> l) /\ (dg_addr g ∉ dg_addr <$> r).
Proof.
  intros Ha. apply list.NoDup_app in Ha as (_ & _ & Ha). rewrite fmap_app, fmap_cons in Ha.
  apply list.NoDup_app in Ha as (_ & Hl & Ha). apply list.NoDup_cons in Ha as [Hr _].
  split; [|done]. intros Hin. apply (Hl _ Hin). by left.
Qed.

Definition data_of (nxt : option Z) (q : option ptr) g : ip_reassdata :=
  ReassData nxt q (dg_hdr g) (dg_len g) (dg_flags g) (dg_timer g).

Lemma queue_replace n n' own l g g' r q s s' :
  queue n own (l ++ g :: r) s -> dg_addr g' = dg_addr g -> frags_at (heads s') q (dg_frags g') ->
  (forall p, p ∈ fptr <$> all_frags (l ++ r) -> heads s' !! p = heads s !! p) ->
  NoDup (fptr <$> all_frags (l ++ g' :: r)) -> Forall (frag_ok own) (dg_frags g') ->
  n' + pcount own (dg_frags g') = n + pcount own (dg_frags g) -> 0 <= n' ->
  same (set_heads (fun _ => heads s') (set_reass (fun _ => reass s') s)) s' ->
  reass s' = <[dg_addr g := data_of (addr_of r None) q g']> (reass s) ->
  queue n' own (l ++ g' :: r) s'.
Proof.
  intros [Hi Hhd Hl Ha Hf Hok Hc [Hn Hm]] Hg' Hq Hw Hnd Hokg Hpc Hn' (Hs1 & Hs2 & Hs3 & Hs4 & _) Hr'. simpl in *.
  destruct (addrs_apart _ _ _ _ Ha) as [Hgl Hgr]. apply dlist_app in Hl as [Hl [_ Hr]].
  rewrite all_frags_app, fmap_app in Hw. rewrite all_frags_app, all_frags_cons in Hok, Hc, Hm.
  rewrite !pcount_app in Hc, Hm. rewrite !Forall_app in Hok. destruct Hok as (Hokl & _ & Hokr).
  split; rewrite ?Hs1, ?Hs2, ?Hs3, ?Hs4; try done.
  - rewrite Hhd, !addr_of_app. destruct l; [simpl; by rewrite Hg'|done].
  - rewrite Hr'. apply dlist_app. split; [|split].
    + simpl. rewrite Hg'. apply dlist_insert; [|done]. eapply dlist_ext; [exact Hl|done|]. intros p Hp. apply Hw, elem_of_app. by left.
    + exists q. rewrite Hg'. split; [apply lookup_insert_eq|done].
    + apply dlist_insert; [|done]. eapply dlist_ext; [exact Hr|done|]. intros p Hp. apply Hw, elem_of_app. by right.
  - rewrite fmap_app, fmap_cons, Hg' in *. done.
  - rewrite all_frags_app, all_frags_cons, !Forall_app. by split_and!.
  - rewrite all_frags_app, all_frags_cons, !pcount_app. lia.
  - rewrite all_frags_app, all_frags_cons, !pcount_app. lia.
Qed.

(** The fields of a datagram change, its fragments do not. *)
Lemma queue_upd n own l g g' r q s :
  queue n own (l ++ g :: r) s -> dg_addr g' = dg_addr g -> dg_frags g' = dg_frags g -> frags_at (heads s) q (dg_frags g) ->
  queue n own (l ++ g' :: r) (set_reass (insert (dg_addr g) (data_of (addr_of r None) q g')) s).
Proof.
  intros Hqu Ha Hf Hq. pose proof Hqu as [_ _ _ _ Hnd Hok _ [Hn _]].
  rewrite all_frags_app, all_frags_cons, !Forall_app in Hok. destruct Hok as (_ & Hok & _).
  eapply queue_replace; try done; rewrite ?Hf; try done.
  rewrite all_frags_app, all_frags_cons, Hf. by rewrite all_frags_app, all_frags_cons in Hnd.
Qed.

(** ** The reassembly timer *)

Definition aged g : dgram :=
  Dgram (dg_addr g) (dg_hdr g) (dg_len g) (dg_flags g) (u8 (dg_timer g - 1)) (dg_frags g).

(** The datagrams after a tick, and those given up by it. *)
Definition tick ds : list dgram := aged <$> List.filter (fun g => 0 <? dg_timer g) ds.

Definition expired ds : list dgram := List.filter (fun g => negb (0 <? dg_timer g)) ds.

Lemma dg_last_snoc l g : last_addr (l ++ [g]) = Some (dg_addr g).
Proof. unfold last_addr. by rewrite last_snoc. Qed.

Lemma reass_tmr_loop_ok ds : forall fuel l own s,
  queued own (l ++ ds) s -> (length ds <= fuel)%nat ->
  exists s', reass_tmr_loop fuel (addr_of ds None) (last_addr l) s = Done (tt, s') /\
    queued (without own (fptr <$> all_frags (expired ds))) (l ++ tick ds) s' /\
    reass_stats s' = reass_stats s /\ icmp_sent s' = icmp_sent s ++ concat (icmp_of <$> expired ds).
Proof.
  induction ds as [|g ds IH]; intros fuel l own s [Hqu Hne] Hf.
  - exists s. split; [by destruct fuel|]. split; [exact (conj Hqu Hne)|]. split; [done|]. symmetry. apply app_nil_r.
  - destruct fuel as [|fuel]; simpl in Hf; [lia|]. cbn [reass_tmr_loop addr_of].
    pose proof (q_list _ _ _ _ Hqu) as Hl. apply dlist_app in Hl as [_ [(q & Hg & Hq) _]].
    rewrite (rd_ipr_bind _ _ _ s Hg). cbn [timer ipr_next]. apply Forall_app in Hne as [Hnel Hneg].
    apply list.Forall_cons in Hneg as [Hneg Hner]. unfold tick, expired. cbn [List.filter].
    destruct (0 <? dg_timer g) eqn:Ht; cbn [negb].
    + unfold wr_ipr. rewrite modify_bind. unfold upd_timer. cbn [ipr_next ipr_p iphdr datagram_len ipr_flags timer].
      pose proof (queue_upd 0 own l g (aged g) ds q s Hqu eq_refl eq_refl Hq) as Hq'.
      rewrite (cons_middle (aged g)), app_assoc in Hq'.
      assert (Forall (fun g => dg_frags g <> []) ((l ++ [aged g]) ++ ds)) as Hne'
        by (rewrite !Forall_app, Forall_singleton; by split_and!).
      destruct (IH fuel (l ++ [aged g]) own _ (conj Hq' Hne') ltac:(lia)) as (s' & E & Hq2 & H2 & H3).
      exists s'. rewrite dg_last_snoc in E. split; [exact E|]. by rewrite <- app_assoc in Hq2.
    + destruct (free_complete_ok s own l g ds Hqu Hneg) as (s1 & E & Hq1 & Hs1 & Hi1 & _).
      rewrite (bind_done _ _ _ _ _ E).
      destruct (IH fuel l _ s1 (conj Hq1 (proj2 (Forall_app _ _ _) (conj Hnel Hner))) ltac:(lia)) as (s' & E' & Hq2 & H2 & H3).
      exists s'. split; [exact E'|]. rewrite all_frags_cons, fmap_app, without_app. split; [exact Hq2|].
      split; [congruence|]. rewrite H3, Hi1, fmap_cons. simpl. by rewrite <- app_assoc.
Qed.

Lemma tmr_ok s own ds :
  queued own ds s ->
  exists s', ip_reass_tmr s = Done (tt, s') /\
    queued (without own (fptr <$> all_frags (expired ds))) (tick ds) s' /\
    reass_stats s' = reass_stats s /\ icmp_sent s' = icmp_sent s ++ concat (icmp_of <$> expired ds).
Proof.
  intros [Hqu Hne]. unfold ip_reass_tmr. rewrite get_bind, (q_head _ _ _ _ Hqu).
  apply (reass_tmr_loop_ok ds (ipr_fuel s) [] own s); [by split|]. unfold ipr_fuel.
  pose proof (dlist_length _ _ _ _ (q_list _ _ _ _ Hqu)) as Hlen. etransitivity; [apply Hlen|lia].
  pose proof (q_addrs _ _ _ _ Hqu) as Ha. by apply list.NoDup_app in Ha as (_ & _ & Ha).
Qed.
End queue_inv.
