(* ===== verification/ReassInput.v ===== *)
(** * ip_reass

    What ip_reass does with a fragment: the search for its datagram, the
    insertion, the test for completeness and the delivery, against the lists of
    IpReass.v. *)

From S2P Require Import Prelude ByteOrder Chksum Alloc Pbuf AllocImpl PbufSpec PbufOwn IpHdr IpReass ReassQueue.

(** ** The datagram of a fragment *)

(** The datagrams before the first one that matches [h], that one, and the others. *)
Fixpoint pick (h : ip_hdr) (ds : list dgram) : option (list dgram * dgram * list dgram) :=
  match ds with
  | [] => None
  | g :: ds =>
      if IP_ADDRESSES_AND_ID_MATCH (dg_hdr g) h then Some ([], g, ds)
      else match pick h ds with Some (l, g', r) => Some (g :: l, g', r) | None => None end
  end.

(** The fragment's header may replace the one kept, and the last fragment says how
    long the datagram is. *)
Definition join (h : ip_hdr) (g : dgram) : dgram :=
  Dgram (dg_addr g)
    (if (Z.land (lwip_ntohs (_offset h)) IP_OFFMASK =? 0) &&
        negb (Z.land (lwip_ntohs (_offset (dg_hdr g))) IP_OFFMASK =? 0) then h else dg_hdr g)
    (if frag_more h then dg_len g else u16 (frag_offset h + frag_len h))
    (if frag_more h then dg_flags g else Z.lor (dg_flags g) IP_REASS_FLAG_LASTFRAG)
    (dg_timer g) (dg_frags g).

Definition new_dgram (a : Z) (h : ip_hdr) : dgram := Dgram a h 0 0 IP_REASS_MAXAGE [].

(** The queue with the datagram the fragment goes to. *)
Definition place_of (a : Z) (h : ip_hdr) (ds : list dgram) : list dgram * dgram * list dgram :=
  default ([], new_dgram a h, ds) (pick h ds).

Lemma pick_split h ds l g r : pick h ds = Some (l, g, r) -> ds = l ++ g :: r.
Proof.
  revert l g r. induction ds as [|x ds IH]; intros l g r E; simpl in E; [done|].
  destruct (IP_ADDRESSES_AND_ID_MATCH _ _); [by simplify_eq|].
  destruct (pick h ds) as [[[l' g'] r']|]; [|done]. simplify_eq. simpl. f_equal. by apply IH.
Qed.

Lemma insert_frag_split f fs : forall e v l w, insert_frag f e v fs = Some (l, w) ->
  exists l1 l2, fs = l1 ++ l2 /\ l = l1 ++ f :: l2.
Proof.
  induction fs as [|t fs IH]; intros e v l w E; cbn [insert_frag] in E.
  - simplify_eq. by exists [], [].
  - destruct (fstart f <? fstart t).
    + destruct e as [e|]; [destruct (_ || _)|]; simplify_eq; by exists [], (t :: fs).
    + destruct (fstart f =? fstart t); [done|]. destruct (fstart f <? fend t); [done|].
      destruct (insert_frag f _ _ fs) as [[k u]|] eqn:E'; [|done]. simplify_eq.
      destruct (IH _ _ _ _ E') as (l1 & l2 & -> & ->). by exists (t :: l1), l2.
Qed.

(** [f] comes behind [u], and does not overlap it. *)
Definition behind (f u : frag) : Prop := fstart u < fstart f /\ fend u <= fstart f.

(** A fragment that is thrown away: behind those in front of it is one that starts where it
    does, one it starts in the middle of, or one it reaches into.  The last is not looked at
    for the fragment with the lowest offset. *)
Definition refused (f : frag) (fs : list frag) : Prop :=
  exists l t r, fs = l ++ t :: r /\ Forall (behind f) l /\
    (fstart t = fstart f \/ fstart t < fstart f < fend t \/ l <> [] /\ fstart f < fstart t < fend f).

(** Where one goes that is kept: behind all that are in front, and, unless it has the lowest
    offset, without overlapping the next. *)
Definition goes_into (f : frag) (fs fs' : list frag) : Prop :=
  exists l r, fs = l ++ r /\ fs' = l ++ f :: r /\ Forall (behind f) l /\
    match r with [] => True | t :: _ => fstart f < fstart t /\ (l = [] \/ fend f <= fstart t) end.

Lemma insert_frag_cases f fs : forall e v, match e with Some e => e <= fstart f | None => True end ->
  match insert_frag f e v fs with
  | None => exists l t r, fs = l ++ t :: r /\ Forall (behind f) l /\
      (fstart t = fstart f \/ fstart t < fstart f < fend t \/ (e <> None \/ l <> []) /\ fstart f < fstart t < fend f)
  | Some (fs', _) => exists l r, fs = l ++ r /\ fs' = l ++ f :: r /\ Forall (behind f) l /\
      match r with [] => True | t :: _ => fstart f < fstart t /\ (e = None /\ l = [] \/ fend f <= fstart t) end
  end.
Proof.
  induction fs as [|t fs IH]; intros e v He; cbn [insert_frag]; [by exists [], []|].
  destruct (Z.ltb_spec (fstart f) (fstart t)) as [Hlt|Hge].
  - destruct e as [e|]; [|exists [], (t :: fs); split; [done|]; split; [done|]; split; [done|]; auto].
    destruct (Z.ltb_spec (fstart f) e); [lia|]. cbn [orb]. destruct (Z.ltb_spec (fstart t) (fend f)).
    + exists [], t, fs. split; [done|]. split; [done|]. right. right. split; [by left|lia].
    + exists [], (t :: fs). split; [done|]. split; [done|]. split; [done|]. auto.
  - destruct (Z.eqb_spec (fstart f) (fstart t)); [exists [], t, fs; split; [done|]; split; [done|]; by left|].
    destruct (Z.ltb_spec (fstart f) (fend t)); [exists [], t, fs; split; [done|]; split; [done|]; right; left; lia|]. cbv zeta.
    assert (behind f t) as Ht by (split; lia). set (v' := match e with Some _ => _ | None => _ end). specialize (IH (Some (fend t)) v' ltac:(lia)).
    destruct (insert_frag f (Some (fend t)) v' fs) as [[fs' w]|].
    + destruct IH as (l & r & -> & -> & Hl & Hr). exists (t :: l), r. split; [done|]. split; [done|]. split; [by constructor|].
      destruct r as [|u r]; [done|]. destruct Hr as [Hu [[? ?]|?]]; [done|]. auto.
    + destruct IH as (l & u & r & -> & Hl & Hor). exists (t :: l), u, r. split; [done|]. split; [by constructor|].
      destruct Hor as [?|[?|[_ ?]]]; auto 6.
Qed.

Lemma insert_frag_place f v fs :
  match insert_frag f None v fs with None => refused f fs | Some (fs', _) => goes_into f fs fs' end.
Proof.
  pose proof (insert_frag_cases f fs None v I) as Hi. destruct (insert_frag f None v fs) as [[fs' w]|].
  - destruct Hi as (l & r & H1 & H2 & H3 & H4). exists l, r. do 3 (split; [done|]). destruct r; [done|]. destruct H4 as [? [[_ ?]|?]]; auto.
  - destruct Hi as (l & t & r & H1 & H2 & H3). exists l, t, r. do 2 (split; [done|]). destruct H3 as [?|[?|[[?|?] ?]]]; auto. done.
Qed.

Section input.
Context {S : Type} `{PacketsSpec S}.
Implicit Types (s : rstate S) (own : gmap ptr segs) (ds : list dgram).

Definition stats_of (f : frag_stats -> frag_stats) s : rstate S :=
  RState (packets s) (heads s) (reass s) (reassdatagrams s) (reass_free s) (ip_reass_pbufcount s) (f (reass_stats s)) (icmp_sent s).

Lemma find_datagram_ok h ds : forall fuel s prev,
  dlist (reass s) (heads s) None ds -> (length ds <= fuel)%nat ->
  find_datagram fuel (addr_of ds None) prev h s =
    match pick h ds with
    | Some (l, g, _) => Done ((Some (dg_addr g), match last_addr l with Some a => Some a | None => prev end), stats_of inc_cachehit s)
    | None => Done ((None, match last_addr ds with Some a => Some a | None => prev end), s)
    end.
Proof.
  induction ds as [|g ds IH]; intros fuel s prev Hd Hf; [by destruct fuel|].
  destruct fuel as [|fuel]; simpl in Hf; [lia|]. destruct Hd as [(q & Hg & _) Hd]. cbn [find_datagram addr_of pick].
  rewrite (rd_ipr_bind _ _ _ s Hg). cbn [iphdr ipr_next].
  destruct (IP_ADDRESSES_AND_ID_MATCH (dg_hdr g) h); [done|].
  rewrite (IH fuel s (Some (dg_addr g)) Hd ltac:(lia)).
  assert (forall l : list dgram, last_addr (g :: l) = match last_addr l with Some a => Some a | None => Some (dg_addr g) end) as Hl.
  { intros l. unfold last_addr. rewrite last_cons. by destruct (list.last l). }
  destruct (pick h ds) as [[[l g'] r]|]; rewrite Hl; by destruct (last_addr _).
Qed.

Lemma queue_stats n own ds f s : queue n own ds s -> queue n own ds (stats_of f s).
Proof. by intros []. Qed.

Lemma enqueue_ok n own ds s a free h c :
  queue n own ds s -> reass_free s = a :: free ->
  exists s', ip_reass_enqueue_new_datagram h c s = Done (Some a, s') /\ queue n own (new_dgram a h :: ds) s' /\
    packets s' = packets s /\ heads s' = heads s /\ ip_reass_pbufcount s' = ip_reass_pbufcount s /\
    reass_stats s' = reass_stats s /\ icmp_sent s' = icmp_sent s.
Proof.
  intros [Hi Hhd Hl Ha Hf Hok Hc Hm] E. unfold ip_reass_enqueue_new_datagram, malloc_reassdata.
  rewrite bind_assoc, get_bind, E. unfold set_free, wr_ipr, set_datagrams. rewrite bind_assoc, modify_bind, ret_bind.
  rewrite ret_bind, get_bind, modify_bind, modify_bind. eexists. split; [done|]. rewrite E in Ha.
  simpl in Ha. apply list.NoDup_cons in Ha as [Haa Ha]. apply not_elem_of_app in Haa as [Haf Had].
  split; [|done]. split; simpl; try done.
  - rewrite Hhd. split; [|by apply dlist_insert]. exists None. split; [apply lookup_insert_eq|done].
  - rewrite <- Permutation_middle. apply list.NoDup_cons. split; [|done]. apply not_elem_of_app. by split.
Qed.

(** ** The insertion *)

Definition frag_of (p : ptr) (h : ip_hdr) : frag := (p, frag_offset h, u16 (frag_offset h + frag_len h)).

Lemma queue_drop c own ds s p k :
  queue c own ds s -> (p ∉ fptr <$> all_frags ds) -> pk_inv k (delete p own) ->
  queue 0 (delete p own) ds (RState k (delete p (heads s)) (reass s) (reassdatagrams s) (reass_free s)
    (u16 (ip_reass_pbufcount s - c)) (reass_stats s) (icmp_sent s)).
Proof.
  intros [Hi Hhd Hl Ha Hf Hok Hc [Hn Hm]] Hp Hk.
  assert (forall V (w : gmap ptr V) q, q ∈ fptr <$> all_frags ds -> delete p w !! q = w !! q) as Hw.
  { intros V w q Hq. apply lookup_delete_ne. by intros <-. }
  assert (pcount (delete p own) (all_frags ds) = pcount own (all_frags ds)) as Hpc
    by (apply pcount_ext; intros q Hq; by apply Hw).
  pose proof (pcount_nonneg own (all_frags ds)).
  split; simpl; try done.
  - eapply dlist_ext; [exact Hl|done|]. intros q Hq. by apply Hw.
  - eapply frags_ok_ext; [|exact Hok]. intros q Hq. by apply Hw.
  - rewrite Hpc, u16_id; [lia|]. unfold is_u16, IP_REASS_MAX_PBUFS in *. lia.
  - rewrite Hpc. lia.
Qed.

(** Behind the insertion of [p] in front of the test for completeness. *)
Definition inserted own l g r p h s s' (o : option bool) : Prop :=
  match insert_frag (frag_of p h) None true (dg_frags g) with
  | Some (fs, v) => o = Some v /\ queue 0 own (l ++ set_frags fs g :: r) s'
  | None => o = None /\ queue (zlen (default [] (own !! p))) own (l ++ g :: r) s'
  end.

Lemma place_queue own l g r p h s :
  queue (zlen (default [] (own !! p))) own (l ++ g :: r) s -> frag_ok own (frag_of p h) ->
  p ∉ fptr <$> all_frags (l ++ g :: r) ->
  exists o s', place_frag (dg_addr g) p (frag_offset h) (u16 (frag_offset h + frag_len h))
      (set_heads (insert p (Helper None (frag_offset h) (u16 (frag_offset h + frag_len h)))) s) = Done (o, s') /\
    packets s' = packets s /\ reass_free s' = reass_free s /\ reass_stats s' = reass_stats s /\ icmp_sent s' = icmp_sent s /\
    inserted own l g r p h s s' o.
Proof.
  intros Hqu Hof Hp. pose proof Hqu as [Hi Hhd Hl Ha Hf Hok Hc [Hn Hm]].
  apply dlist_app in Hl as [_ [(q & Hg & Hq) _]]. set (f := frag_of p h).
  rewrite all_frags_app, all_frags_cons, !fmap_app in Hf, Hp.
  apply not_elem_of_app in Hp as [Hpl [Hpg Hpr]%not_elem_of_app].
  rewrite all_frags_app, all_frags_cons, !Forall_app in Hok. destruct Hok as (_ & Hokg & _).
  assert (NoDup (fptr <$> dg_frags g)) as Hndg.
  { apply list.NoDup_app in Hf as (_ & _ & Hf). by apply list.NoDup_app in Hf as (Hf & _ & _). }
  assert (forall a, a ∈ fptr <$> all_frags (l ++ r) -> a <> p /\ (a ∉ fptr <$> dg_frags g)) as Hout.
  { intros a Hin. rewrite all_frags_app, fmap_app in Hin. apply list.NoDup_app in Hf as (_ & Hlg & Hf).
    apply list.NoDup_app in Hf as (_ & Hgr & _). apply elem_of_app in Hin as [Hin|Hin]; (split; [by intros ->|]).
    - intros Hin'. apply (Hlg a Hin), elem_of_app. by left.
    - intros Hin'. by apply (Hgr a Hin'). }
  set (s1 := set_heads _ s).
  assert (frags_at (heads s1) q (dg_frags g)) as Hq1.
  { eapply frags_at_ext; [exact Hq|]. intros a Hin. simpl. apply lookup_insert_ne. by intros <-. }
  destruct (place_frag_ok (dg_addr g) f s1 (data_of (addr_of r None) q g) (dg_frags g)) as (o & s' & E & Hs & Hw & Hres);
    try done; [apply lookup_insert_eq|etransitivity; [by eapply (frags_length (heads s1))|unfold frag_fuel; lia]|].
  exists o, s'. split; [exact E|]. pose proof Hs as (Hs1 & Hs2 & Hs3 & Hs4 & Hs5 & Hs6). do 4 (split; [done|]).
  unfold inserted. fold f. cbn [ipr_p data_of] in Hres.
  assert (forall a, a ∈ fptr <$> all_frags (l ++ r) -> heads s' !! a = heads s !! a) as Hw'.
  { intros a Hin. destruct (Hout a Hin). rewrite Hw by done. simpl. by rewrite lookup_insert_ne. }
  destruct (insert_frag f None true (dg_frags g)) as [[fs v]|] eqn:Ei.
  - destruct Hres as (-> & q' & Hq' & Hr'). split; [done|].
    destruct (insert_frag_split _ _ _ _ _ _ Ei) as (l1 & l2 & El & ->).
    eapply (queue_replace _ 0 own l g (set_frags (l1 ++ f :: l2) g) r q' s s' Hqu); try done.
    + rewrite all_frags_app, all_frags_cons. cbn [dg_frags set_frags]. rewrite El in Hf, Hpg.
      assert ((fptr <$> all_frags l ++ (l1 ++ f :: l2) ++ all_frags r) ≡ₚ
        p :: ((fptr <$> all_frags l) ++ (fptr <$> l1 ++ l2) ++ (fptr <$> all_frags r))) as ->.
      { rewrite !fmap_app, fmap_cons. change (fptr f) with p. solve_Permutation. }
      apply list.NoDup_cons. split; [|done]. rewrite !not_elem_of_app. by split_and!.
    + cbn [dg_frags set_frags]. rewrite El in Hokg. apply Forall_app in Hokg as [Hok1 Hok2].
      apply Forall_app. split; [done|]. by apply list.Forall_cons.
    + cbn [dg_frags set_frags]. rewrite El, !pcount_app, pcount_cons. change (fptr f) with p. lia.
  - destruct Hres as (-> & Hr' & Hq'). split; [done|].
    eapply (queue_replace _ _ own l g g r q s s' Hqu); try done.
    + by rewrite all_frags_app, all_frags_cons, !fmap_app.
    + rewrite Hr'. simpl. symmetry. by apply insert_id.
Qed.

Lemma chain_ok own l g r p h s lp :
  queue (zlen lp) own (l ++ g :: r) s -> own !! p = Some lp -> heads s !! p = Some (Hdr h) ->
  frag_ok own (frag_of p h) -> p ∉ fptr <$> all_frags (l ++ g :: r) ->
  match insert_frag (frag_of p h) None true (dg_frags g) with
  | None => exists s', ip_reass_chain_frag_into_datagram_and_validate (dg_addr g) p s = Done (false, s') /\
      queue 0 (delete p own) (l ++ g :: r) s' /\ icmp_sent s' = icmp_sent s
  | Some (fs, v) =>
      (complete (dg_flags g) v p fs = true -> (2 <= length fs)%nat /\ last_end 0 fs = dg_len g) ->
      exists s', ip_reass_chain_frag_into_datagram_and_validate (dg_addr g) p s =
          Done (complete (dg_flags g) v p fs, s') /\
        queue 0 own (l ++ set_frags fs g :: r) s' /\ icmp_sent s' = icmp_sent s
  end.
Proof.
  intros Hqu Hlp Hh Hof Hp. pose proof (q_max _ _ _ _ Hqu) as [_ Hmax].
  pose proof (pcount_nonneg own (all_frags (l ++ g :: r))).
  destruct (place_queue own l g r p h s) as (o & s2 & E & Hpk & _ & _ & Hic & Hins); [by rewrite Hlp|done|done|].
  unfold ip_reass_chain_frag_into_datagram_and_validate. rewrite (rd_hdr_bind _ h) by done.
  unfold wr_head. rewrite modify_bind. cbv zeta. rewrite (bind_done _ _ _ _ _ E). unfold inserted in Hins.
  destruct (insert_frag (frag_of p h) None true (dg_frags g)) as [[fs v]|] eqn:Ei.
  - destruct Hins as [-> Hqu2]. intros Hc. exists s2. split; [|done]. cbv iota.
    destruct (insert_frag_split _ _ _ _ _ _ Ei) as (l1 & l2 & El & ->).
    pose proof Hqu2 as [_ _ Hl2 _ Hf2 _ _ _]. apply dlist_app in Hl2 as [_ [(q & Hg & Hq) _]].
    eapply (validate_ok s2 (dg_addr g) _ (frag_of p h) l1 l2 v Hg Hq); [|exact Hc].
    rewrite all_frags_app, all_frags_cons, !fmap_app in Hf2. apply list.NoDup_app in Hf2 as (_ & _ & Hf2).
    by apply list.NoDup_app in Hf2 as (Hf2 & _ & _).
  - destruct Hins as [-> Hqu2]. cbv iota. rewrite Hlp in Hqu2. simpl in Hqu2. pose proof (q_pk _ _ _ _ Hqu2) as Hi2.
    rewrite (clen_bind s2 own p lp) by (done || lia). rewrite get_bind. unfold set_pbufcount. rewrite modify_bind.
    match goal with |- context [(free_packet _ ≫= _) ?x] =>
      destruct (free_packet_ok x own p lp Hi2 Hlp) as (k & E' & Hk) end.
    rewrite E'. eexists. split; [done|]. split; [|exact Hic].
    exact (queue_drop _ _ _ s2 p k Hqu2 Hp Hk).
Qed.

(** ** The delivery *)

(** The data of a queued packet: its segments without the header. *)
Definition hide (l : segs) : segs :=
  match l with (x, n) :: l => (padd x IP_HLEN, n - IP_HLEN) :: l | [] => [] end.

Definition frag_data own (f : frag) : segs := hide (default [] (own !! fptr f)).

Definition frags_len (fs : list frag) : Z := foldr (fun f acc => (fend f - fstart f) + acc) 0 fs.

Lemma segs_len_hide own f : frag_ok own f -> segs_len (frag_data own f) = fend f - fstart f.
Proof.
  intros (x & n & l & Hl & Hn & Hs & _). unfold frag_data. rewrite Hl. simpl in *. lia.
Qed.

Lemma chain_frags_ok p rs : forall fuel s q own lp,
  pk_inv (packets s) own -> frags_at (heads s) q rs -> (length rs <= fuel)%nat -> own !! p = Some lp ->
  Forall (frag_ok own) rs -> NoDup (fptr <$> rs) -> (p ∉ fptr <$> rs) -> segs_len lp + frags_len rs < 65536 ->
  exists k, chain_frags fuel p q s = Done (tt, set_packets k s) /\
    pk_inv k (<[p := lp ++ concat (frag_data own <$> rs)]> (without own (fptr <$> rs))).
Proof.
  induction rs as [|f rs IH]; intros fuel s q own lp Hi Hq Hf Hlp Hok Hnd Hp Hlen.
  - simpl in Hq. subst q. exists (packets s). split; [destruct fuel; simpl; by destruct s|].
    simpl. rewrite app_nil_r. unfold without. simpl. by rewrite insert_id.
  - destruct Hq as (m & -> & Hh & Hm). destruct fuel as [|fuel]; simpl in Hf; [lia|]. cbn [chain_frags].
    rewrite (rd_helper_bind _ m (fstart f) (fend f)) by done.
    apply list.Forall_cons in Hok as [Hof Hok]. rewrite fmap_cons in Hnd, Hp. apply list.NoDup_cons in Hnd as [Hnf Hnd].
    apply not_elem_of_cons in Hp as [Hpf Hp]. pose proof (segs_len_hide _ _ Hof) as Hhide.
    pose proof Hof as (x & n & l & Hl & Hn & Hs & Hr). unfold frag_data in Hhide. rewrite Hl in Hhide. cbn [from_option id hide] in Hhide.
    simpl in Hlen. assert (0 <= frags_len rs) as Hfl.
    { clear -Hok. induction Hok as [|g rs (? & ? & ? & _ & _ & _ & Hg) Hok IH]; simpl; [done|lia]. }
    destruct (pk_hide_ok (packets s) own (fptr f) x n l IP_HLEN Hi Hl) as (k1 & E1 & Hk1); [unfold IP_HLEN in *; lia..|].
    rewrite (bind_done _ _ s 0 (set_packets k1 s)) by (unfold on_packets; by rewrite E1).
    destruct (pk_cat_ok k1 _ p (fptr f) lp ((padd x IP_HLEN, n - IP_HLEN) :: l) Hk1) as (k2 & E2 & Hk2).
    { by rewrite lookup_insert_ne. } { by rewrite lookup_insert_eq. } { done. } { rewrite Hhide. lia. }
    rewrite (bind_done _ _ _ tt (set_packets k2 s)) by (unfold on_packets; simpl; by rewrite E2).
    rewrite delete_insert_eq in Hk2.
    set (own2 := <[p:=_]> (delete (fptr f) own)) in Hk2.
    assert (forall a, a ∈ fptr <$> rs -> own2 !! a = own !! a) as Hw.
    { intros a Ha. unfold own2. rewrite lookup_insert_ne by (by intros <-). apply lookup_delete_ne. by intros <-. }
    destruct (IH fuel (set_packets k2 s) m own2 (lp ++ (padd x IP_HLEN, n - IP_HLEN) :: l)) as (k & E & Hk); try done; try lia.
    { unfold own2. apply lookup_insert_eq. } { by eapply frags_ok_ext. }
    { rewrite segs_len_app, Hhide. lia. }
    exists k. split; [exact E|]. rewrite fmap_cons. cbn [concat].
    replace (concat (frag_data own2 <$> rs)) with (concat (frag_data own <$> rs)) in Hk.
    2:{ f_equal. apply list_fmap_ext. intros i g Hg. unfold frag_data. rewrite Hw; [done|].
        apply list_elem_of_fmap. exists g. split; [done|]. by eapply list_elem_of_lookup_2. }
    unfold own2 in Hk. rewrite without_insert_ne, insert_insert_eq in Hk by done.
    unfold frag_data at 1. rewrite Hl. rewrite <- app_assoc in Hk. exact Hk.
Qed.

(** The header of the whole datagram, built from the one kept. *)
Definition whole_hdr (p : ptr) g : ip_hdr :=
  let h := IPH_CHKSUM_SET 0 (IPH_OFFSET_SET 0 (IPH_LEN_SET (lwip_htons (u16 (dg_len g + IP_HLEN))) (dg_hdr g))) in
  IPH_CHKSUM_SET (inet_chksum p.2 (hdr_bytes h)) h.

Definition whole_data own (f : frag) (fs : list frag) : segs :=
  default [] (own !! fptr f) ++ concat (frag_data own <$> fs).

Lemma zlen_hide l : zlen (hide l) = zlen l.
Proof. by destruct l as [|[x n] l]. Qed.

Lemma zlen_whole own f fs : zlen (whole_data own f fs) = pcount own (f :: fs).
Proof.
  unfold whole_data. rewrite zlen_app, pcount_cons. f_equal.
  induction fs as [|g fs IH]; [done|]. rewrite fmap_cons. cbn [concat]. rewrite zlen_app, pcount_cons, IH.
  unfold frag_data. by rewrite zlen_hide.
Qed.

Lemma finish_ok own l g r f fs s :
  queue 0 own (l ++ g :: r) s -> dg_frags g = f :: fs ->
  IP_HLEN + frags_len (f :: fs) < 65536 ->
  exists s', reass_finish (dg_addr g) (last_addr l) s = Done (Some (fptr f), s') /\
    queue 0 (<[fptr f := whole_data own f fs]> (without own (fptr <$> fs))) (l ++ r) s' /\
    heads s' !! fptr f = Some (Hdr (whole_hdr (fptr f) g)) /\ icmp_sent s' = icmp_sent s.
Proof.
  intros Hqu Hfs Hlen. pose proof Hqu as [Hi Hhd Hl Ha Hf Hok Hc [Hn Hm]]. apply dlist_app in Hl as [Hl [(q & Hg & Hq) Hr]].
  rewrite all_frags_app, all_frags_cons, Hfs in *. rewrite !fmap_app, fmap_cons in Hf.
  rewrite !Forall_app in Hok. destruct Hok as (Hokl & Hokg & Hokr). apply list.Forall_cons in Hokg as [Hof Hokg].
  assert (NoDup ((fptr f :: (fptr <$> fs)) ++ (fptr <$> all_frags (l ++ r)))) as Hnd.
  { rewrite all_frags_app, fmap_app. rewrite (Permutation_app_comm (fptr f :: _)), <- app_assoc.
    by rewrite (Permutation_app_comm (_ <$> all_frags r)). }
  apply list.NoDup_app in Hnd as (Hndg & Hout & Hndlr). apply list.NoDup_cons in Hndg as [Hnf Hndg].
  destruct Hq as (m & -> & Hh & Hmq). destruct (frag_ok_in _ _ Hof) as (lf & Hlf & _).
  unfold reass_finish. rewrite (rd_ipr_bind _ _ _ s Hg). cbn [datagram_len ipr_p iphdr].
  rewrite (deref_bind _ (fptr f)) by done. rewrite (rd_helper_bind _ m (fstart f) (fend f)) by done.
  cbv zeta. unfold wr_head. rewrite modify_bind, get_bind. fold (whole_hdr (fptr f) g). set (s1 := set_heads _ s).
  assert (frags_at (heads s1) m fs) as Hm1.
  { eapply frags_at_ext; [exact Hmq|]. intros p Hp. apply lookup_insert_ne. by intros <-. }
  pose proof Hof as (x & n & l' & Hl' & _ & Hs & _).
  destruct (chain_frags_ok (fptr f) fs (frag_fuel s1) s1 m own lf Hi Hm1) as (k & E & Hk); try done.
  { etransitivity; [by eapply (frags_length (heads s1))|]. unfold frag_fuel. lia. }
  { rewrite Hlf in Hl'. simplify_eq. rewrite Hs. simpl in Hlen. lia. }
  rewrite (bind_done _ _ _ _ _ E).
  assert (forall p, p ∈ fptr <$> all_frags (l ++ r) -> p <> fptr f /\ (p ∉ fptr <$> fs)) as Hne.
  { intros p Hp. apply not_elem_of_cons. intros Hin. by apply (Hout p Hin). }
  assert (forall ds, (forall p, p ∈ fptr <$> all_frags ds -> p ∈ fptr <$> all_frags (l ++ r)) ->
    forall nxt, dlist (reass s) (heads s) nxt ds -> dlist (reass s) (heads s1) nxt ds) as Hd1.
  { intros ds Hin nxt Hd. eapply dlist_ext; [exact Hd|done|]. intros p Hp. apply lookup_insert_ne. intros <-.
    by destruct (Hne _ (Hin _ Hp)). }
  rewrite all_frags_app, fmap_app in Hd1.
  destruct (dequeue_ok (set_packets k s1) l g r (data_of (addr_of r None) (Some (fptr f)) g) Hhd)
    as (s2 & E2 & (Hpk & Hh2 & Hc2 & Hs2 & Hi2) & Hhd2 & Hl2 & Hf2); try done.
  { apply Hd1; [|done]. intros p Hp. apply elem_of_app. by left. }
  { apply Hd1; [|done]. intros p Hp. apply elem_of_app. by right. }
  { by apply list.NoDup_app in Ha as (_ & _ & Ha). }
  set (own' := <[fptr f := _]> (without own (fptr <$> fs))) in Hk |- *.
  simpl in Hpk, Hh2, Hc2, Hf2. pose proof (pcount_nonneg own (all_frags l)). pose proof (pcount_nonneg own (all_frags r)).
  pose proof (pcount_nonneg own (f :: fs)). rewrite !pcount_app in Hm, Hc. unfold whole_data. rewrite Hlf. cbn [from_option id].
  rewrite E2. rewrite (clen_bind s2 own' (fptr f) (whole_data own f fs)).
  - rewrite get_bind. unfold set_pbufcount. rewrite modify_bind. eexists. split; [done|]. simpl.
    split; [|split; [rewrite Hh2; apply lookup_insert_eq|done]].
    eapply (queue_removed 0 own _ l g r s); [done|simpl; by rewrite Hpk| |done|done|done|].
    + intros p Hp. destruct (Hne p Hp). rewrite lookup_insert_ne by done. by apply without_lookup_ne.
    + simpl. rewrite Hc2, Hfs, zlen_whole. apply u16_id. unfold is_u16, IP_REASS_MAX_PBUFS in *. lia.
  - by rewrite Hpk.
  - unfold own'. rewrite lookup_insert_eq. unfold whole_data. by rewrite Hlf.
  - rewrite zlen_whole. lia.
Qed.

(** ** The whole operation *)

(** A packet [p] with the header [h] and the segments [ls] has come in, there is
    room for its pbufs, and [a] is the next free structure if it needs one. *)
Record arrived own ds s (p : ptr) (h : ip_hdr) (ls : segs) (a : Z) : Prop := Arrived {
  ar_own : own !! p = Some ls;
  ar_new : p ∉ fptr <$> all_frags ds;
  ar_hdr : heads s !! p = Some (Hdr h);
  ar_hl : IPH_HL h * 4 = IP_HLEN;
  ar_frag : frag_ok own (frag_of p h);
  ar_room : ip_reass_pbufcount s + zlen ls <= IP_REASS_MAX_PBUFS;
  ar_free : pick h ds = None -> exists free, reass_free s = a :: free
}.

Definition rehead (h : ip_hdr) (g : dgram) : dgram :=
  Dgram (dg_addr g) (dg_hdr (join h g)) (dg_len g) (dg_flags g) (dg_timer g) (dg_frags g).

(** The queue is [ds'], everything else is as in [s]. *)
Definition becomes n own ds' s s' : Prop :=
  queue n own ds' s' /\ heads s' = heads s /\ icmp_sent s' = icmp_sent s.

Lemma becomes_trans n own ds' n' own' ds'' s1 s2 s3 :
  becomes n own ds' s1 s2 -> becomes n' own' ds'' s2 s3 -> becomes n' own' ds'' s1 s3.
Proof. intros (_ & H1 & H2) (? & ? & ?). split; [done|]. split; congruence. Qed.

Lemma rehead_step n own l g r h s :
  queue n own (l ++ g :: r) s ->
  exists s', (d ← rd_ipr (dg_addr g);
      (if (Z.land (lwip_ntohs (_offset h)) IP_OFFMASK =? 0) && negb (Z.land (lwip_ntohs (_offset (iphdr d))) IP_OFFMASK =? 0)
       then wr_ipr (dg_addr g) (upd_iphdr h d) else mret tt);;
      mret (Some (dg_addr g))) s = Done (Some (dg_addr g), s') /\ becomes n own (l ++ rehead h g :: r) s s'.
Proof.
  intros Hqu. pose proof (q_list _ _ _ _ Hqu) as Hl. apply dlist_app in Hl as [_ [(q & Hg & Hq) _]].
  rewrite (rd_ipr_bind _ _ _ s Hg). cbn [iphdr].
  pose proof (queue_upd n own l g (rehead h g) r q s Hqu eq_refl eq_refl Hq) as Hq'.
  unfold rehead, join in Hq' |- *. cbn [dg_hdr] in Hq' |- *.
  destruct (_ && _).
  - unfold wr_ipr. rewrite modify_bind. by eexists.
  - rewrite ret_bind. exists s. split; [done|]. split; [|done]. by destruct g.
Qed.

Lemma lastfrag_step n own l g r h s :
  queue n own (l ++ rehead h g :: r) s ->
  exists s', (forall B (k : unit -> M (rstate S) B), (d ← rd_ipr (dg_addr g);
      (if negb (frag_more h) then
         wr_ipr (dg_addr g) (ReassData (ipr_next d) (ipr_p d) (iphdr d) (u16 (frag_offset h + frag_len h))
                       (Z.lor (ipr_flags d) IP_REASS_FLAG_LASTFRAG) (timer d))
       else mret tt) ≫= k) s = k tt s') /\ becomes n own (l ++ join h g :: r) s s'.
Proof.
  intros Hqu. pose proof (q_list _ _ _ _ Hqu) as Hl. apply dlist_app in Hl as [_ [(q & Hg & Hq) _]].
  pose proof (queue_upd n own l _ (join h g) r q s Hqu eq_refl eq_refl Hq) as Hq'.
  unfold join in Hq' |- *. cbn [dg_hdr] in Hq' |- *. destruct (frag_more h); cbn [negb].
  - exists s. split; [|by split]. intros B k. by rewrite (rd_ipr_bind _ _ _ s Hg), ret_bind.
  - eexists. split; [|split; [exact Hq'|done]]. intros B k. rewrite (rd_ipr_bind _ _ _ s Hg).
    unfold wr_ipr. by rewrite modify_bind.
Qed.

Lemma queue_count own ds s c :
  queue 0 own ds s -> 0 <= c -> ip_reass_pbufcount s + c <= IP_REASS_MAX_PBUFS ->
  queue c own ds (RState (packets s) (heads s) (reass s) (reassdatagrams s) (reass_free s)
    (u16 (ip_reass_pbufcount s + c)) (reass_stats s) (icmp_sent s)).
Proof.
  intros [Hi Hhd Hl Ha Hf Hok Hc [Hn Hm]] Hc0 Hmax. pose proof (pcount_nonneg own (all_frags ds)).
  split; simpl; try done; [|lia]. rewrite u16_id; [lia|]. unfold is_u16, IP_REASS_MAX_PBUFS in *. lia.
Qed.

(** The pbufs are counted and the last fragment noted. *)
Lemma counted own l g r h s c :
  queue 0 own (l ++ rehead h g :: r) s -> 0 <= c -> ip_reass_pbufcount s + c <= IP_REASS_MAX_PBUFS ->
  exists s', (forall B (k : M (rstate S) B), (s ← get;
      set_pbufcount (u16 (ip_reass_pbufcount s + c));;
      d ← rd_ipr (dg_addr g);
      (if negb (frag_more h) then
         wr_ipr (dg_addr g) (ReassData (ipr_next d) (ipr_p d) (iphdr d) (u16 (frag_offset h + frag_len h))
                       (Z.lor (ipr_flags d) IP_REASS_FLAG_LASTFRAG) (timer d))
       else mret tt);;
      k) s = k s') /\ becomes c own (l ++ join h g :: r) s s'.
Proof.
  intros Hqu Hc Hmax. pose proof (queue_count _ _ _ _ Hqu Hc Hmax) as Hq'.
  destruct (lastfrag_step _ _ _ _ _ _ _ Hq') as (s' & E & Hb).
  exists s'. split; [|exact Hb]. intros B k. rewrite get_bind. unfold set_pbufcount. rewrite modify_bind. exact (E B (fun _ => k)).
Qed.

(** Up to the insertion. *)
Lemma arrived_ok own ds s p h ls a :
  queue 0 own ds s -> arrived own ds s p h ls a ->
  let '(l, g, r) := place_of a h ds in
  exists prev s', ip_reass p s =
      (complete ← ip_reass_chain_frag_into_datagram_and_validate (dg_addr g) p;
       if (complete : bool) then reass_finish (dg_addr g) prev else mret None) s' /\
    becomes (zlen ls) own (l ++ join h g :: r) s s' /\ (pick h ds <> None -> prev = last_addr l).
Proof.
  intros Hqu [Hown Hnew Hhdr Hhl Hof Hroom Hfree]. pose proof (q_count _ _ _ _ Hqu) as Hc0.
  pose proof (pcount_nonneg own (all_frags ds)) as Hp0. pose proof (zlen_nonneg ls) as Hls.
  unfold place_of, ip_reass, set_stats. rewrite modify_bind. rewrite (rd_hdr_bind _ h) by done.
  rewrite Hhl, Z.eqb_refl. cbn [negb]. cbv zeta. fold (stats_of inc_recv s).
  pose proof (queue_stats _ _ _ inc_recv _ Hqu) as Hqu1. set (s1 := stats_of inc_recv s) in *.
  rewrite (clen_bind s1 own p ls _ (q_pk _ _ _ _ Hqu1) Hown) by lia.
  unfold reass_room. rewrite bind_assoc, get_bind. change (ip_reass_pbufcount s1) with (ip_reass_pbufcount s).
  rewrite (proj2 (Z.ltb_ge _ _)) by lia. rewrite ret_bind. cbn [negb]. rewrite get_bind.
  rewrite (q_head _ _ _ _ Hqu1).
  pose proof (find_datagram_ok h ds (ipr_fuel s1) s1 None (q_list _ _ _ _ Hqu1)) as Hfind.
  assert (length ds <= ipr_fuel s1)%nat as Hfuel.
  { pose proof (q_addrs _ _ _ _ Hqu1) as Ha. apply list.NoDup_app in Ha as (_ & _ & Ha).
    pose proof (dlist_length _ _ _ _ (q_list _ _ _ _ Hqu1) Ha). unfold ipr_fuel. lia. }
  specialize (Hfind Hfuel).
  destruct (pick h ds) as [[[l g] r]|] eqn:Hpick; rewrite (bind_done _ _ _ _ _ Hfind); cbn [default from_option id] .
  - rewrite (pick_split _ _ _ _ _ Hpick) in Hqu1.
    pose proof (queue_stats _ _ _ inc_cachehit _ Hqu1) as Hqu2. set (s2 := stats_of inc_cachehit s1) in *.
    destruct (rehead_step 0 own l g r h s2 Hqu2) as (s3 & E3 & Hb3). rewrite (bind_done _ _ _ _ _ E3).
    destruct Hb3 as (Hqu3 & Hh3 & Hi3).
    pose proof (q_count _ _ _ _ Hqu3) as Hc3. rewrite (pick_split _ _ _ _ _ Hpick) in Hc0.
    rewrite all_frags_app, all_frags_cons in Hc0, Hc3. cbn [dg_frags rehead] in Hc3.
    destruct (counted own l g r h s3 (zlen ls)) as (s4 & E4 & Hqu4 & Hh4 & Hi4); [done|done|lia|].
    exists (last_addr l), s4. split; [|split; [split; [exact Hqu4|split; [by rewrite Hh4, Hh3|by rewrite Hi4, Hi3]]|done]].
    destruct (last_addr l); apply E4.
  - destruct (Hfree eq_refl) as (free & Hfr).
    destruct (enqueue_ok 0 own ds s1 a free h (zlen ls) Hqu1 Hfr) as (s3 & E3 & Hqu3 & _ & Hh3 & Hc3 & _ & Hi3).
    rewrite (bind_done _ _ _ _ _ E3).
    assert (rehead h (new_dgram a h) = new_dgram a h) as Hre by (unfold rehead, join; simpl; by destruct (_ && _)).
    rewrite <- Hre in Hqu3.
    destruct (counted own [] (new_dgram a h) ds h s3 (zlen ls)) as (s4 & E4 & Hqu4 & Hh4 & Hi4); [done|done|rewrite Hc3; exact Hroom|].
    eexists _, s4. split; [apply E4|]. split; [|done]. split; [exact Hqu4|]. split; [by rewrite Hh4, Hh3|by rewrite Hi4, Hi3].
Qed.

Lemma place_of_split a h ds : let '(l, g, r) := place_of a h ds in
  (exists g0, pick h ds = Some (l, g0, r) /\ g = g0 /\ ds = l ++ g :: r) \/
  (pick h ds = None /\ l = [] /\ g = new_dgram a h /\ r = ds).
Proof.
  unfold place_of. destruct (pick h ds) as [[[l g] r]|] eqn:E; simpl; [|by right].
  left. exists g. apply pick_split in E. by subst.
Qed.

(** [p] stays a new packet, and the others keep a fragment. *)
Lemma placed_facts a h own ds s p ls :
  queued own ds s -> arrived own ds s p h ls a ->
  let '(l, g, r) := place_of a h ds in
  (p ∉ fptr <$> all_frags (l ++ join h g :: r)) /\ Forall (fun g => dg_frags g <> []) (l ++ r) /\
  (pick h ds <> None -> dg_frags g <> []).
Proof.
  intros [Hqu Hne] [Hown Hnew _ _ _ _ _]. pose proof (place_of_split a h ds) as Hp.
  destruct (place_of a h ds) as [[l g] r]. destruct Hp as [(g0 & -> & -> & ->)|(-> & -> & -> & ->)].
  - rewrite all_frags_app, all_frags_cons in Hnew |- *. apply Forall_app in Hne as [H1 H2].
    apply list.Forall_cons in H2 as [H2 H3]. split; [done|]. split; [by apply Forall_app|done].
  - split; [done|]. split; done.
Qed.

Lemma queued_set own l g r s : queue 0 own (l ++ g :: r) s -> Forall (fun g => dg_frags g <> []) (l ++ r) ->
  dg_frags g <> [] -> queued own (l ++ g :: r) s.
Proof.
  intros Hqu Hne Hg. split; [done|]. apply Forall_app in Hne as [H1 H2]. apply Forall_app. split; [done|].
  by apply list.Forall_cons.
Qed.

(** C11: a fragment that does not complete its datagram: ip_reass returns NULL.  It is freed
    when it starts where another one does or in the middle of it, or when it reaches into
    the one behind it; but when no other has a lower offset the last is not looked at, and
    it is put in front although it overlaps.  Any other one is in the queue of its datagram
    (found by addresses and id, or new at the front) at its place, and the length and the
    flag of the datagram are those of [join]. *)
Theorem ip_reass_waits own ds s p h ls a :
  queued own ds s -> arrived own ds s p h ls a ->
  let '(l, g, r) := place_of a h ds in
  match insert_frag (frag_of p h) None true (dg_frags g) with
  | None => refused (frag_of p h) (dg_frags g) /\
      exists s', ip_reass p s = Done (None, s') /\ queued (delete p own) (l ++ join h g :: r) s' /\
        icmp_sent s' = icmp_sent s
  | Some (fs, v) => goes_into (frag_of p h) (dg_frags g) fs /\
      (complete (dg_flags (join h g)) v p fs = false ->
      exists s', ip_reass p s = Done (None, s') /\ queued own (l ++ set_frags fs (join h g) :: r) s' /\
        icmp_sent s' = icmp_sent s)
  end.
Proof.
  intros Hqd Har. pose proof (arrived_ok own ds s p h ls a (proj1 Hqd) Har) as Hs.
  pose proof (placed_facts _ _ _ _ _ _ _ Hqd Har) as Hp. pose proof (place_of_split a h ds) as Hsp.
  destruct (place_of a h ds) as [[l g] r]. destruct Hs as (prev & s1 & E & (Hqu1 & Hh1 & Hi1) & _).
  destruct Hp as (Hnew & Hne & Hg). destruct Har as [Hown _ Hhdr _ Hof _ _].
  pose proof (chain_ok own l (join h g) r p h s1 ls Hqu1 Hown) as Hc. rewrite Hh1 in Hc. specialize (Hc Hhdr Hof Hnew).
  change (dg_frags (join h g)) with (dg_frags g) in Hc.
  pose proof (insert_frag_place (frag_of p h) true (dg_frags g)) as Hpl.
  destruct (insert_frag (frag_of p h) None true (dg_frags g)) as [[fs v]|] eqn:Ei; (split; [exact Hpl|]).
  - intros Hcm. destruct Hc as (s2 & E2 & Hqu2 & Hi2); [by rewrite Hcm|]. exists s2.
    rewrite E, (bind_done _ _ _ _ _ E2), Hcm. split; [done|]. split; [|congruence].
    apply queued_set; [done|done|]. cbn [dg_frags set_frags].
    destruct (insert_frag_split _ _ _ _ _ _ Ei) as (l1 & l2 & _ & ->). by destruct l1.
  - destruct Hc as (s2 & E2 & Hqu2 & Hi2). exists s2. rewrite E, (bind_done _ _ _ _ _ E2).
    split; [done|]. split; [|congruence]. apply queued_set; [done|done|].
    destruct Hsp as [(g0 & Hpick & _ & _)|(_ & _ & -> & _)]; [|done]. apply Hg. by rewrite Hpick.
Qed.

(** C5: a fragment that completes its datagram: ip_reass returns the packet of the
    first fragment, which now has its own data followed by the data of the others
    in the order of their offsets, each without its header, under the header of the
    whole datagram; the datagram has left the queue and all other packets and
    datagrams are as before. *)
Theorem ip_reass_delivers own ds s p h ls a :
  queued own ds s -> arrived own ds s p h ls a ->
  let '(l, g, r) := place_of a h ds in
  forall f fs v, insert_frag (frag_of p h) None true (dg_frags g) = Some (f :: fs, v) -> fs <> [] ->
  complete (dg_flags (join h g)) v p (f :: fs) = true -> last_end 0 (f :: fs) = dg_len (join h g) ->
  IP_HLEN + frags_len (f :: fs) < 65536 ->
  exists s', ip_reass p s = Done (Some (fptr f), s') /\
    queued (<[fptr f := whole_data own f fs]> (without own (fptr <$> fs))) (l ++ r) s' /\
    heads s' !! fptr f = Some (Hdr (whole_hdr (fptr f) (join h g))) /\ icmp_sent s' = icmp_sent s.
Proof.
  intros Hqd Har. pose proof (arrived_ok own ds s p h ls a (proj1 Hqd) Har) as Hs.
  pose proof (placed_facts _ _ _ _ _ _ _ Hqd Har) as Hp. pose proof (place_of_split a h ds) as Hsp.
  destruct (place_of a h ds) as [[l g] r]. destruct Hs as (prev & s1 & E & (Hqu1 & Hh1 & Hi1) & Hprev).
  destruct Hp as (Hnew & Hne & Hg). destruct Har as [Hown _ Hhdr _ Hof _ _].
  pose proof (chain_ok own l (join h g) r p h s1 ls Hqu1 Hown) as Hc. rewrite Hh1 in Hc. specialize (Hc Hhdr Hof Hnew).
  change (dg_frags (join h g)) with (dg_frags g) in Hc. intros f fs v Ei Hfs Hcm Hend Hlen. rewrite Ei in Hc.
  destruct Hc as (s2 & E2 & Hqu2 & Hi2).
  { intros _. split; [|done]. destruct fs; [done|simpl; lia]. }
  rewrite E, (bind_done _ _ _ _ _ E2), Hcm. rewrite Hprev.
  2:{ destruct Hsp as [(g0 & Hpick & _)|(_ & -> & -> & _)]; [by rewrite Hpick|]. simpl in Ei. by simplify_eq. }
  destruct (finish_ok own l _ r f fs s2 Hqu2 eq_refl Hlen) as (s3 & E3 & Hqu3 & Hh3 & Hi3).
  exists s3. split; [exact E3|]. split; [by split|]. split; [exact Hh3|congruence].
Qed.
End input.

(** ** Concrete datagrams *)

(** A fragment of [n] bytes at [off]. *)
Definition frag_hdr (off : Z) (more : bool) (n : Z) : ip_hdr :=
  IpHdr 0x45 0 (lwip_htons (IP_HLEN + n)) 7 (lwip_htons (off / 8 + (if more then IP_MF else 0))) 64 17 0 0x0100000a 0x0200000a.

Lemma alone (k : pstate allocators) own p b l :
  pk_inv k own -> own !! p = Some l -> pbufs k !! p = Some b -> next b = None ->
  l = [(default (RExt, 0) (payload b), len b)].
Proof.
  intros (L & _ & Ho) Hl Hb Hn. destruct (Ho p l Hl) as (c & Hc & <- & _).
  destruct c as [|[p' b'] c]; [done|]. destruct Hc as (E & Hb' & Hc). simplify_eq. rewrite Hn in Hc.
  destruct c as [|[p2 b2] c]; [done|]. by destruct Hc as (? & _).
Qed.

Definition p1 : ptr := (RHeap, 8).

Definition p2 : ptr := (RHeap, 68).

(** Two packets of 28 bytes. *)
Definition two_packets : gmap ptr segs := <[p2 := [((RHeap, 92), 28)]]> (<[p1 := [((RHeap, 32), 28)]]> ∅).

Lemma boot_two_packets : exists k : pstate allocators, pk_inv k two_packets.
Proof.
  destruct (pk_alloc_ok pboot ∅ PBUF_RAW 28 pboot_owned ltac:(unfold max_ram_length; lia)) as (o & s & E & Ho).
  assert (exists s2, (a ← pk_alloc PBUF_RAW 28; b ← pk_alloc PBUF_RAW 28; mret (a, b)) pboot =
    Done ((Some p1, Some p2), s2) /\ pbufs s2 = list_to_map
      [(p2, Pbuf None (Some (RHeap, 92)) 28 28 PBUF_RAM 0 1);
       (p1, Pbuf None (Some (RHeap, 32)) 28 28 PBUF_RAM 0 1)]) as (s2 & E2 & Hs2).
  { apply obs_done. vm_compute. reflexivity. }
  rewrite (bind_done _ _ _ _ _ E) in E2.
  assert (o = Some p1) as ->.
  { destruct (pk_alloc PBUF_RAW 28 s) as [[b s3]|c] eqn:E3.
    - rewrite (bind_done _ _ _ _ _ E3) in E2. by injection E2.
    - unfold mbind, M_bind in E2. by rewrite E3 in E2. }
  destruct Ho as (_ & l1 & _ & Hi).
  destruct (pk_alloc_ok s _ PBUF_RAW 28 Hi ltac:(unfold max_ram_length; lia)) as (o' & s' & E' & Ho').
  rewrite (bind_done _ _ _ _ _ E') in E2. injection E2 as -> ->. destruct Ho' as (_ & l2 & _ & Hi').
  exists s2. pose proof (alone s2 _ p1 _ l1 Hi' eq_refl ltac:(rewrite Hs2; reflexivity) eq_refl) as ->.
  pose proof (alone s2 _ p2 _ l2 Hi' eq_refl ltac:(rewrite Hs2; reflexivity) eq_refl) as ->. exact Hi'.
Qed.

(** The packet at [p1] is queued as the first fragment of a datagram, the one at
    [p2] has come in with the header [h]. *)
Definition one_queued (k : pstate allocators) (h : ip_hdr) : rstate (pstate allocators) :=
  RState k {[p1 := Helper None 0 8; p2 := Hdr h]} {[1 := ReassData None (Some p1) (frag_hdr 0 true 8) 0 0 IP_REASS_MAXAGE]}
    (Some 1) [2; 3; 4; 5] 1 (FragStats 1 0 0 0 0) [].

Definition first_dgram : dgram := Dgram 1 (frag_hdr 0 true 8) 0 0 IP_REASS_MAXAGE [(p1, 0, 8)].

Lemma one_queued_ok k h : pk_inv k two_packets -> queued two_packets [first_dgram] (one_queued k h).
Proof.
  intros Hi. split; [|repeat constructor; done]. split; try done.
  - split; [|done]. exists (Some p1). split; [done|]. exists None. done.
  - apply (bool_decide_unpack _). by vm_compute.
  - apply (bool_decide_unpack _). by vm_compute.
  - constructor; [|done]. exists (RHeap, 32), 28, []. unfold IP_HLEN, fend, fstart. repeat split; simpl; lia.
Qed.

Lemma one_arrived k h :
  IPH_HL h * 4 = IP_HLEN -> pick h [first_dgram] <> None -> frag_len h = 8 -> u16 (frag_offset h + 8) = frag_offset h + 8 ->
  0 <= frag_offset h ->
  arrived two_packets [first_dgram] (one_queued k h) p2 h [((RHeap, 92), 28)] 2.
Proof.
  intros Hhl Hp Hl Hu Ho. split; try done.
  - apply not_elem_of_cons. split; [done|apply not_elem_of_nil].
  - exists (RHeap, 92), 28, []. unfold IP_HLEN, frag_of, fstart, fend. simpl. rewrite Hl, Hu. repeat split; lia.
Qed.

(** The fragment [16, 24) waits for [8, 16). *)
Lemma ip_reass_waits_witness :
  exists k s', ip_reass p2 (one_queued k (frag_hdr 16 false 8)) = Done (None, s') /\
    queued two_packets [Dgram 1 (frag_hdr 0 true 8) 24 1 IP_REASS_MAXAGE [(p1, 0, 8); (p2, 16, 24)]] s'.
Proof.
  destruct boot_two_packets as (k & Hk). exists k. set (h := frag_hdr 16 false 8).
  destruct (ip_reass_waits two_packets [first_dgram] (one_queued k h) p2 h [((RHeap, 92), 28)] 2
    (one_queued_ok k h Hk) ltac:(apply one_arrived; [reflexivity|vm_compute; discriminate|reflexivity|reflexivity|vm_compute; discriminate]))
    as [_ Hw].
  destruct (Hw ltac:(reflexivity)) as (s' & E & Hq & _).
  exists s'. split; [exact E|exact Hq].
Defined.

(** The fragment [8, 16) is the last one. *)
Lemma ip_reass_delivers_witness :
  exists k s', ip_reass p2 (one_queued k (frag_hdr 8 false 8)) = Done (Some p1, s') /\
    queued (<[p1 := [((RHeap, 32), 28); ((RHeap, 112), 8)]]> (delete p2 two_packets)) [] s'.
Proof.
  destruct boot_two_packets as (k & Hk). exists k. set (h := frag_hdr 8 false 8).
  destruct (ip_reass_delivers two_packets [first_dgram] (one_queued k h) p2 h [((RHeap, 92), 28)] 2
    (one_queued_ok k h Hk) ltac:(apply one_arrived; [reflexivity|vm_compute; discriminate|reflexivity|reflexivity|vm_compute; discriminate])
    (p1, 0, 8) [(p2, 8, 16)] true ltac:(reflexivity) ltac:(discriminate) ltac:(reflexivity) ltac:(reflexivity) ltac:(reflexivity))
    as (s' & E & Hq & _).
  exists s'. split; [exact E|exact Hq].
Defined.

(** A packet of the link with the header [h] and [n] bytes of data. *)
Definition receive {S} `{Packets S} (h : ip_hdr) (n : Z) : M (rstate S) (option ptr) :=
  p ← on_packets (pk_alloc PBUF_RAW (IP_HLEN + n));
  match p with
  | Some p => wr_head p (Hdr h);; ip_reass p
  | None => mret None
  end.

Definition reass_boot : rstate (pstate allocators) :=
  RState pboot ∅ ∅ None [1; 2; 3; 4; 5] 0 (FragStats 0 0 0 0 0) [].

(** The test for completeness misses a hole in front of a fragment that goes
    between two others: of a datagram of 32 bytes the fragments [0, 8), [24, 32)
    and [16, 24) come in, and the third call returns the datagram as complete,
    with a header that says 52 bytes, though the packet has 44: bytes 8 to 15
    never came and those behind them are in their place. *)
Theorem ip_reass_hole_delivered :
  match (receive (frag_hdr 0 true 8) 8;; receive (frag_hdr 24 false 8) 8;;
         r ← receive (frag_hdr 16 true 8) 8; s ← get;
         mret (r, p ← r; b ← pbufs (packets s) !! p; mret (tot_len b),
               p ← r; heads s !! p)) reass_boot with
  | Done ((Some _, Some n, Some (Hdr h)), _) => n = 44 /\ lwip_ntohs (_len h) = 52 /\ _offset h = 0
  | _ => False
  end.
Proof. vm_compute. by split_and!. Qed.
