(* ===== verification/ReassTimer.v ===== *)
(** * The reassembly timer

    ip_reass_tmr ages the queued datagrams and gives up the ones whose time is
    over, and a queue nothing comes in for empties. *)

From S2P Require Import Prelude ByteOrder Chksum Alloc Pbuf AllocImpl PbufSpec PbufOwn IpHdr IpReass ReassQueue ReassInput.

Section timer.
Context {S : Type} `{PacketsSpec S}.
Implicit Types (s : rstate S) (own : gmap ptr segs) (ds : list dgram).

(** One call of ip_reass_tmr returns; the datagrams with time left have lost
    one tick and keep their fragments, the others have left the queue with all
    their packets freed, and an ICMP time exceeded message went out for exactly
    those of them whose first fragment was there. *)
Theorem ip_reass_tmr_ticks own ds s :
  queued own ds s ->
  exists s', ip_reass_tmr s = Done (tt, s') /\
    queued (without own (fptr <$> all_frags (expired ds))) (tick ds) s' /\
    reass_stats s' = reass_stats s /\ icmp_sent s' = icmp_sent s ++ concat (icmp_of <$> expired ds).
Proof. apply tmr_ok. Qed.

(** [n] ticks with no fragment between them. *)
Fixpoint ticks (n : nat) : M (rstate S) unit :=
  match n with
  | O => mret tt
  | Datatypes.S n => ip_reass_tmr;; ticks n
  end.

Lemma tick_timers ds (n : Z) :
  Forall (fun g => 0 <= dg_timer g <= n) ds -> n < 256 -> Forall (fun g => 0 <= dg_timer g <= n - 1) (tick ds).
Proof.
  intros Ht Hn. unfold tick. induction Ht as [|g ds Hg Ht IH]; [done|]. cbn [List.filter].
  destruct (Z.ltb_spec 0 (dg_timer g)); [|done]. rewrite fmap_cons. apply list.Forall_cons. split; [|done].
  unfold aged. cbn [dg_timer]. rewrite (u8_id (dg_timer g - 1)); [lia|unfold is_u8; lia].
Qed.

(** The fragments of [ds] are those that expire now and those still queued. *)
Lemma tick_frags ds : all_frags ds ≡ₚ all_frags (expired ds) ++ all_frags (tick ds).
Proof.
  unfold tick, expired. induction ds as [|g ds IH]; [done|]. rewrite all_frags_cons, IH. cbn [List.filter].
  destruct (0 <? dg_timer g); cbn [negb].
  - rewrite fmap_cons, all_frags_cons. cbn [dg_frags aged]. rewrite !app_assoc. apply Permutation_app_tail, Permutation_app_comm.
  - by rewrite all_frags_cons, app_assoc.
Qed.

Lemma ticks_ok n : forall own ds s,
  queued own ds s -> Forall (fun g => 0 <= dg_timer g < Z.of_nat n) ds -> (n <= 256)%nat ->
  exists s' own', ticks n s = Done (tt, s') /\ queued own' [] s' /\
    forall p, own' !! p = if decide (p ∈ fptr <$> all_frags ds) then None else own !! p.
Proof.
  induction n as [|n IH]; intros own ds s Hq Ht Hn.
  - assert (ds = []) as -> by (destruct Ht as [|g ds Hg Ht]; [done|lia]). exists s, own. split; [done|]. split; [done|].
    intros p. rewrite decide_False; [done|]. apply not_elem_of_nil.
  - destruct (tmr_ok s own ds Hq) as (s1 & E1 & Hq1 & _). cbn [ticks]. rewrite (bind_done _ _ _ _ _ E1).
    destruct (IH _ _ _ Hq1) as (s' & own' & E & Hq' & Ho); [|lia|].
    { eapply list.Forall_impl; [apply (tick_timers _ (Z.of_nat n))|].
      - eapply list.Forall_impl; [exact Ht|]. simpl. lia.
      - lia.
      - simpl. lia. }
    exists s', own'. split; [done|]. split; [done|]. intros p. rewrite Ho.
    destruct (decide (p ∈ fptr <$> all_frags ds)) as [Hin|Hnin]; rewrite (tick_frags ds), fmap_app in Hin || rewrite (tick_frags ds), fmap_app in Hnin.
    + case_decide; [done|]. apply elem_of_app in Hin as [Hin|Hin]; [|done]. by apply without_lookup_in.
    + apply not_elem_of_app in Hnin as [H1 H2]. rewrite decide_False by done. by apply without_lookup_ne.
Qed.

(** C34: a reassembly queue nothing comes in for empties: after IP_REASS_MAXAGE + 1
    calls of the timer, which all return, no datagram is left, no pbuf is counted,
    every packet of the queue has been freed and all other packets are untouched. *)
Theorem ip_reass_drains own ds s :
  queued own ds s -> Forall (fun g => 0 <= dg_timer g <= IP_REASS_MAXAGE) ds ->
  exists s' own', ticks (Z.to_nat (IP_REASS_MAXAGE + 1)) s = Done (tt, s') /\ queued own' [] s' /\
    reassdatagrams s' = None /\ ip_reass_pbufcount s' = 0 /\
    forall p, own' !! p = if decide (p ∈ fptr <$> all_frags ds) then None else own !! p.
Proof.
  intros Hq Ht. destruct (ticks_ok (Z.to_nat (IP_REASS_MAXAGE + 1)) own ds s Hq) as (s' & own' & E & Hq' & Ho).
  - eapply list.Forall_impl; [exact Ht|]. unfold IP_REASS_MAXAGE. simpl. lia.
  - unfold IP_REASS_MAXAGE. simpl. lia.
  - exists s', own'. split; [done|]. split; [done|]. destruct Hq' as [Hq' _].
    split; [exact (q_head _ _ _ _ Hq')|]. split; [exact (q_count _ _ _ _ Hq')|done].
Qed.
End timer.

(** The first fragment alone, its time over. *)
Lemma ip_reass_tmr_ticks_witness :
  exists k s', ip_reass_tmr (one_queued k (frag_hdr 16 false 8)) = Done (tt, s') /\
    queued two_packets [aged first_dgram] s' /\ icmp_sent s' = [].
Proof.
  destruct boot_two_packets as (k & Hk). exists k.
  destruct (ip_reass_tmr_ticks two_packets [first_dgram] _ (one_queued_ok k (frag_hdr 16 false 8) Hk)) as (s' & E & Hq & _ & Hi).
  exists s'. split; [exact E|]. split; [exact Hq|exact Hi].
Defined.

Lemma ip_reass_drains_witness :
  exists k s' own', ticks 4 (one_queued k (frag_hdr 16 false 8)) = Done (tt, s') /\ queued own' [] s' /\ own' !! p1 = None.
Proof.
  destruct boot_two_packets as (k & Hk). exists k.
  destruct (ip_reass_drains two_packets [first_dgram] _ (one_queued_ok k (frag_hdr 16 false 8) Hk)) as (s' & own' & E & Hq & _ & _ & Ho).
  - apply list.Forall_cons. split; [|done]. vm_compute. split; discriminate.
  - exists s', own'. split; [exact E|]. split; [exact Hq|]. rewrite Ho. apply decide_True. by left.
Defined.

(** ** Input that aborts *)

(** [n] fragments of 8 bytes of the datagram with the identification [id]. *)
Fixpoint receive_many (n : nat) (id off : Z) : M (rstate (pstate allocators)) unit :=
  match n with
  | O => mret tt
  | Datatypes.S n =>
      let h := frag_hdr off true 8 in
      receive (IpHdr (_v_hl h) (_tos h) (_len h) id (_offset h) (_ttl h) (_proto h) (_chksum h) (src h) (dest h)) 8;;
      receive_many n id (off + 8)
  end.

(** Two kinds of traffic make the reassembly abort on an assertion.  When the
    queue is full and the fragment belongs to the oldest datagram,
    ip_reass_remove_oldest_datagram hands the datagram it frees over as its own
    predecessor; and when a fragment in front of the last one also says it is the
    last, the check of the length of the complete datagram fails. *)
Theorem ip_reass_aborts :
  (receive_many 1 1 0;; receive_many 9 2 0;; receive_many 1 1 8) reass_boot = Crash AssertFailed /\
  (receive (frag_hdr 0 true 8) 8;; receive (frag_hdr 16 false 8) 8;; receive (frag_hdr 8 false 8) 8) reass_boot =
    Crash AssertFailed.
Proof. split; vm_compute; reflexivity. Qed.
