(* ===== verification/Etharp.v ===== *)
(** * The address resolution protocol

    netif/etharp.c: the ARP table, its timer, the resolution of addresses for
    outgoing packets, and the input of Ethernet frames.  The operations on packets
    come through [LinkPackets]; what leaves on the link is recorded in [frames], and
    what goes up to ip_input in [to_ip].  A received frame is given by the packet
    with the headers that are at its payload. *)

From S2P Require Import Prelude ByteOrder Alloc Pbuf PbufData IpAddr.

Definition ARP_TABLE_SIZE : Z := 10.

Definition ARP_MAXAGE : Z := 240.

Definition ARP_AGE_REREQUEST_USED : Z := ARP_MAXAGE - 12.

Definition ARP_MAXPENDING : Z := 2.

Definition HWTYPE_ETHERNET : Z := 1.

Definition ETHARP_FLAG_TRY_HARD : Z := 1.

Definition ETHARP_FLAG_FIND_ONLY : Z := 2.

Definition ETHARP_FLAG_STATIC_ENTRY : Z := 4.

Definition ETHARP_HWADDR_LEN : Z := 6.

Definition SIZEOF_ETH_HDR : Z := 14.

Definition SIZEOF_ETHARP_PACKET : Z := SIZEOF_ETH_HDR + 28.

Definition ETHTYPE_ARP : Z := 0x0806.

Definition ETHTYPE_IP : Z := 0x0800.

Definition ARP_REQUEST : Z := 1.

Definition ARP_REPLY : Z := 2.

Definition PBUF_FLAG_LLBCAST : Z := 0x08.

Definition PBUF_FLAG_LLMCAST : Z := 0x10.

(** struct eth_addr *)
Abbreviation eth_addr := bytes.

Definition ethbroadcast : eth_addr := [0xff; 0xff; 0xff; 0xff; 0xff; 0xff].

Definition ethzero : eth_addr := [0; 0; 0; 0; 0; 0].

(** ** Data *)

Inductive etharp_state :=
| ETHARP_STATE_EMPTY
| ETHARP_STATE_PENDING
| ETHARP_STATE_STABLE
| ETHARP_STATE_STABLE_REREQUESTING
| ETHARP_STATE_STATIC.

#[global] Instance etharp_state_eq_dec : EqDecision etharp_state.
Proof. solve_decision. Defined.

(** state >= ETHARP_STATE_STABLE *)
Definition stable (st : etharp_state) : bool :=
  match st with
  | ETHARP_STATE_EMPTY | ETHARP_STATE_PENDING => false
  | _ => true
  end.

Definition empty (st : etharp_state) : bool := match st with ETHARP_STATE_EMPTY => true | _ => false end.

(** struct etharp_entry; a netif is known by its number. *)
Record etharp_entry := ArpEntry {
  a_q : option ptr;
  a_ipaddr : Z;
  a_netif : option Z;
  a_ethaddr : eth_addr;
  a_state : etharp_state;
  a_ctime : Z
}.

(** struct eth_hdr and struct etharp_hdr: 16-bit fields and addresses in network
    byte order. *)
Record eth_hdr := EthHdr { eth_dest : eth_addr; eth_src : eth_addr; eth_type : Z }.

Record etharp_hdr := EtharpHdr {
  hwtype : Z;
  proto : Z;
  hwlen : Z;
  protolen : Z;
  opcode : Z;
  shwaddr : eth_addr;
  sipaddr : Z;
  dhwaddr : eth_addr;
  dipaddr : Z
}.

(** A frame handed to linkoutput: the packet, its Ethernet header and, for ARP, the
    message. *)
Record frame := Frame { fr_netif : Z; fr_packet : ptr; fr_eth : eth_hdr; fr_arp : option etharp_hdr }.

(** lwip_stats.etharp and lwip_stats.link.lenerr. *)
Inductive arp_stat := Axmit | Arecv | Adrop | Alenerr | Amemerr | Aproterr | Aerr | Acachehit | Llenerr.

#[global] Instance arp_stat_eq_dec : EqDecision arp_stat.
Proof. solve_decision. Defined.

(** The static variables of etharp.c, the packets and the outside. *)
Record arp (S : Type) := Arp {
  a_packets : S;
  arp_table : list etharp_entry;
  etharp_cached_entry : Z;
  frames : list frame;
  to_ip : list (ptr * Z);
  arp_stats : arp_stat -> Z
}.

Arguments Arp {S} _ _ _ _ _ _.
Arguments a_packets {S} _.
Arguments arp_table {S} _.
Arguments etharp_cached_entry {S} _.
Arguments frames {S} _.
Arguments to_ip {S} _.
Arguments arp_stats {S} _.

(** ** The interfaces below *)

(** The operations on packets: pbuf_alloc(PBUF_RAW, n, PBUF_RAM), pbuf_free,
    pbuf_header, and the copy of a packet (or a reference to it) that etharp_query
    queues. *)
Class LinkPackets (S : Type) := {
  lk_alloc : Z -> M S (option ptr);
  lk_free : ptr -> M S Z;
  lk_header : ptr -> Z -> M S Z;
  lk_keep : ptr -> M S (option ptr)
}.

Section etharp.
Context {S : Type} `{LinkPackets S}.
Context (linkoutput : list frame -> frame -> Z).
Context (ip_route : Z -> option netif).

(** ** Access *)

Definition set_a_packets (k : S) (s : arp S) : arp S :=
  Arp k (arp_table s) (etharp_cached_entry s) (frames s) (to_ip s) (arp_stats s).

Definition set_table (f : list etharp_entry -> list etharp_entry) (s : arp S) : arp S :=
  Arp (a_packets s) (f (arp_table s)) (etharp_cached_entry s) (frames s) (to_ip s) (arp_stats s).

Definition set_cached (i : Z) (s : arp S) : arp S :=
  Arp (a_packets s) (arp_table s) i (frames s) (to_ip s) (arp_stats s).

Definition add_frame (f : frame) (s : arp S) : arp S :=
  Arp (a_packets s) (arp_table s) (etharp_cached_entry s) (frames s ++ [f]) (to_ip s) (arp_stats s).

Definition add_to_ip (p : ptr) (flags : Z) (s : arp S) : arp S :=
  Arp (a_packets s) (arp_table s) (etharp_cached_entry s) (frames s) (to_ip s ++ [(p, flags)]) (arp_stats s).

Definition set_arp_stats (f : (arp_stat -> Z) -> arp_stat -> Z) (s : arp S) : arp S :=
  Arp (a_packets s) (arp_table s) (etharp_cached_entry s) (frames s) (to_ip s) (f (arp_stats s)).

(** ETHARP_STATS_INC and LINK_STATS_INC; STAT_COUNTER is a u16_t. *)
Definition arp_inc (k : arp_stat) : M (arp S) unit :=
  modify (set_arp_stats (fun st j => if decide (j = k) then u16 (st j + 1) else st j)).

Definition on_pk {B} (m : M S B) : M (arp S) B := fun s =>
  match m (a_packets s) with
  | Done (b, k) => Done (b, set_a_packets k s)
  | Crash c => Crash c
  end.

Definition rd_entry (i : Z) : M (arp S) etharp_entry :=
  s ← get; if i <? 0 then fail Undefined else deref (arp_table s !! Z.to_nat i).

Definition wr_entry (i : Z) (e : etharp_entry) : M (arp S) unit := modify (set_table (<[Z.to_nat i := e]>)).

Definition upd_a_state (st : etharp_state) (e : etharp_entry) : etharp_entry :=
  ArpEntry (a_q e) (a_ipaddr e) (a_netif e) (a_ethaddr e) st (a_ctime e).

Definition upd_a_q (p : option ptr) (e : etharp_entry) : etharp_entry :=
  ArpEntry p (a_ipaddr e) (a_netif e) (a_ethaddr e) (a_state e) (a_ctime e).

Definition upd_a_ctime (t : Z) (e : etharp_entry) : etharp_entry :=
  ArpEntry (a_q e) (a_ipaddr e) (a_netif e) (a_ethaddr e) (a_state e) t.

(** netif->linkoutput *)
Definition link_out (f : frame) : M (arp S) Z :=
  s ← get; modify (add_frame f);; mret (linkoutput (frames s) f).

(** ** The table *)

Definition etharp_free_entry (i : Z) : M (arp S) unit :=
  e ← rd_entry i;
  match a_q e with
  | Some p => on_pk (lk_free p);; mret tt
  | None => mret tt
  end;;
  wr_entry i (upd_a_state ETHARP_STATE_EMPTY (upd_a_q None e)).

Fixpoint tmr_loop (n : nat) (i : Z) : M (arp S) unit :=
  match n with
  | O => mret tt
  | Datatypes.S n =>
      e ← rd_entry i;
      (match a_state e with
       | ETHARP_STATE_EMPTY | ETHARP_STATE_STATIC => mret tt
       | st =>
           let e := upd_a_ctime (u8 (a_ctime e + 1)) e in
           wr_entry i e;;
           if (ARP_MAXAGE <=? a_ctime e) || (bool_decide (st = ETHARP_STATE_PENDING) && (ARP_MAXPENDING <=? a_ctime e))
           then etharp_free_entry i
           else if bool_decide (st = ETHARP_STATE_STABLE_REREQUESTING)
           then wr_entry i (upd_a_state ETHARP_STATE_STABLE e)
           else mret tt
       end);;
      tmr_loop n (i + 1)
  end.

Definition etharp_tmr : M (arp S) unit := tmr_loop (Z.to_nat ARP_TABLE_SIZE) 0.

(** The candidates etharp_find_entry remembers; ARP_TABLE_SIZE is none. *)
Record candidates := Candidates {
  old_pending : Z;
  old_stable : Z;
  old_queue : Z;
  c_empty : Z;
  age_pending : Z;
  age_stable : Z;
  age_queue : Z
}.

Definition no_candidates : candidates :=
  Candidates ARP_TABLE_SIZE ARP_TABLE_SIZE ARP_TABLE_SIZE ARP_TABLE_SIZE 0 0 0.

(** One round of the search for an entry that is not the one looked for. *)
Definition candidate (i : Z) (e : etharp_entry) (c : candidates) : candidates :=
  match a_state e with
  | ETHARP_STATE_EMPTY =>
      if c_empty c =? ARP_TABLE_SIZE
      then Candidates (old_pending c) (old_stable c) (old_queue c) i (age_pending c) (age_stable c) (age_queue c)
      else c
  | ETHARP_STATE_PENDING =>
      match a_q e with
      | Some _ =>
          if age_queue c <=? a_ctime e
          then Candidates (old_pending c) (old_stable c) i (c_empty c) (age_pending c) (age_stable c) (a_ctime e)
          else c
      | None =>
          if age_pending c <=? a_ctime e
          then Candidates i (old_stable c) (old_queue c) (c_empty c) (a_ctime e) (age_stable c) (age_queue c)
          else c
      end
  | ETHARP_STATE_STABLE | ETHARP_STATE_STABLE_REREQUESTING =>
      if age_stable c <=? a_ctime e
      then Candidates (old_pending c) i (old_queue c) (c_empty c) (age_pending c) (a_ctime e) (age_queue c)
      else c
  | ETHARP_STATE_STATIC => c
  end.

(** The search: the matching entry, or the candidates. *)
Fixpoint find_loop (es : list etharp_entry) (i : Z) (ipaddr : option Z) (c : candidates) : Z + candidates :=
  match es with
  | [] => inr c
  | e :: es =>
      if negb (empty (a_state e)) && bool_decide (ipaddr = Some (a_ipaddr e)) then inl i
      else find_loop es (i + 1) ipaddr (candidate i e c)
  end.

(** The entry to recycle, when none is empty. *)
Definition recycle (c : candidates) : M (arp S) (option Z) :=
  if old_stable c <? ARP_TABLE_SIZE then
    e ← rd_entry (old_stable c);
    lwip_assert (match a_q e with None => true | Some _ => false end);;
    mret (Some (old_stable c))
  else if old_pending c <? ARP_TABLE_SIZE then mret (Some (old_pending c))
  else if old_queue c <? ARP_TABLE_SIZE then mret (Some (old_queue c))
  else mret None.

Definition etharp_find_entry (ipaddr : option Z) (flags : Z) : M (arp S) Z :=
  s ← get;
  match find_loop (arp_table s) 0 ipaddr no_candidates with
  | inl i => mret i
  | inr c =>
      if nz (Z.land flags ETHARP_FLAG_FIND_ONLY) ||
         ((c_empty c =? ARP_TABLE_SIZE) && (Z.land flags ETHARP_FLAG_TRY_HARD =? 0))
      then mret ERR_MEM
      else
        i ← (if c_empty c <? ARP_TABLE_SIZE then mret (Some (c_empty c))
             else
               i ← recycle c;
               match i with
               | Some i => lwip_assert (i <? ARP_TABLE_SIZE);; etharp_free_entry i;; mret (Some i)
               | None => mret None
               end);
        match i with
        | None => mret ERR_MEM
        | Some i =>
            lwip_assert (i <? ARP_TABLE_SIZE);;
            e ← rd_entry i;
            lwip_assert (empty (a_state e));;
            wr_entry i (ArpEntry (a_q e) (default (a_ipaddr e) ipaddr) (a_netif e) (a_ethaddr e) (a_state e) 0);;
            mret i
        end
  end.

(** ** Output *)

Definition etharp_send_ip (nif : netif) (p : ptr) (src dst : eth_addr) : M (arp S) Z :=
  lwip_assert (hwaddr_len nif =? ETHARP_HWADDR_LEN);;
  link_out (Frame (num nif) p (EthHdr dst src (lwip_htons ETHTYPE_IP)) None).

Definition etharp_update_arp_entry (nif : netif) (ipaddr : Z) (ethaddr : eth_addr) (flags : Z) : M (arp S) Z :=
  lwip_assert (hwaddr_len nif =? ETHARP_HWADDR_LEN);;
  if (ipaddr =? IPADDR_ANY) || nz (ip4_addr_isbroadcast ipaddr nif) || ip_addr_ismulticast ipaddr then mret ERR_ARG
  else
    i ← etharp_find_entry (Some ipaddr) flags;
    if i <? 0 then mret i
    else
      e ← rd_entry i;
      let st := if nz (Z.land flags ETHARP_FLAG_STATIC_ENTRY) then ETHARP_STATE_STATIC else ETHARP_STATE_STABLE in
      wr_entry i (ArpEntry None (a_ipaddr e) (Some (num nif)) ethaddr st 0);;
      match a_q e with
      | Some p =>
          etharp_send_ip nif p (hwaddr nif) ethaddr;;
          on_pk (lk_free p);;
          mret ERR_OK
      | None => mret ERR_OK
      end.

Definition etharp_add_static_entry (ipaddr : Z) (ethaddr : eth_addr) : M (arp S) Z :=
  match ip_route ipaddr with
  | None => mret ERR_RTE
  | Some nif => etharp_update_arp_entry nif ipaddr ethaddr (Z.lor ETHARP_FLAG_TRY_HARD ETHARP_FLAG_STATIC_ENTRY)
  end.

Definition etharp_remove_static_entry (ipaddr : Z) : M (arp S) Z :=
  i ← etharp_find_entry (Some ipaddr) ETHARP_FLAG_FIND_ONLY;
  if i <? 0 then mret i
  else
    e ← rd_entry i;
    if negb (bool_decide (a_state e = ETHARP_STATE_STATIC)) then mret ERR_ARG
    else etharp_free_entry i;; mret ERR_OK.

Fixpoint cleanup_loop (n : nat) (i : Z) (nif : Z) : M (arp S) unit :=
  match n with
  | O => mret tt
  | Datatypes.S n =>
      e ← rd_entry i;
      (if negb (empty (a_state e)) && bool_decide (a_netif e = Some nif) then etharp_free_entry i else mret tt);;
      cleanup_loop n (i + 1) nif
  end.

Definition etharp_cleanup_netif (nif : Z) : M (arp S) unit := cleanup_loop (Z.to_nat ARP_TABLE_SIZE) 0 nif.

(** The index, with what eth_ret and ip_ret point to. *)
Definition etharp_find_addr (ipaddr : Z) : M (arp S) (Z * option (eth_addr * Z)) :=
  i ← etharp_find_entry (Some ipaddr) ETHARP_FLAG_FIND_ONLY;
  if 0 <=? i then
    e ← rd_entry i;
    mret (if stable (a_state e) then (i, Some (a_ethaddr e, a_ipaddr e)) else (-1, None))
  else mret (-1, None).

Definition etharp_raw (nif : netif) (ethsrc_addr ethdst_addr hwsrc_addr : eth_addr) (ipsrc_addr : Z)
    (hwdst_addr : eth_addr) (ipdst_addr : Z) (op : Z) : M (arp S) Z :=
  p ← on_pk (lk_alloc SIZEOF_ETHARP_PACKET);
  match p with
  | None => arp_inc Amemerr;; mret ERR_MEM
  | Some p =>
      lwip_assert (hwaddr_len nif =? ETHARP_HWADDR_LEN);;
      result ← link_out (Frame (num nif) p (EthHdr ethdst_addr ethsrc_addr (lwip_htons ETHTYPE_ARP))
        (Some (EtharpHdr (lwip_htons HWTYPE_ETHERNET) (lwip_htons ETHTYPE_IP) ETHARP_HWADDR_LEN 4 (lwip_htons op)
                 hwsrc_addr ipsrc_addr hwdst_addr ipdst_addr)));
      arp_inc Axmit;;
      on_pk (lk_free p);;
      mret result
  end.

Definition etharp_request (nif : netif) (ipaddr : Z) : M (arp S) Z :=
  etharp_raw nif (hwaddr nif) ethbroadcast (hwaddr nif) (ip_addr nif) ethzero ipaddr ARP_REQUEST.

Definition etharp_output_to_arp_index (nif : netif) (q : ptr) (arp_idx : Z) : M (arp S) Z :=
  e ← rd_entry arp_idx;
  lwip_assert (stable (a_state e));;
  (if bool_decide (a_state e = ETHARP_STATE_STABLE) && (ARP_AGE_REREQUEST_USED <=? a_ctime e) then
     r ← etharp_request nif (a_ipaddr e);
     if r =? ERR_OK then wr_entry arp_idx (upd_a_state ETHARP_STATE_STABLE_REREQUESTING e) else mret tt
   else mret tt);;
  etharp_send_ip nif q (hwaddr nif) (a_ethaddr e).

(** What etharp_query does with an entry that is still pending. *)
Definition queue_packet (i : Z) (q : ptr) : M (arp S) Z :=
  p ← on_pk (lk_keep q);
  match p with
  | Some p =>
      e ← rd_entry i;
      match a_q e with
      | Some old => on_pk (lk_free old);; mret tt
      | None => mret tt
      end;;
      wr_entry i (upd_a_q (Some p) e);;
      mret ERR_OK
  | None => arp_inc Amemerr;; mret ERR_MEM
  end.

Definition etharp_query (nif : netif) (ipaddr : Z) (q : option ptr) : M (arp S) Z :=
  if nz (ip4_addr_isbroadcast ipaddr nif) || ip_addr_ismulticast ipaddr || (ipaddr =? IPADDR_ANY) then mret ERR_ARG
  else
    i ← etharp_find_entry (Some ipaddr) ETHARP_FLAG_TRY_HARD;
    if i <? 0 then
      match q with Some _ => arp_inc Amemerr | None => mret tt end;;
      mret i
    else
      e ← rd_entry i;
      (if empty (a_state e) then wr_entry i (upd_a_state ETHARP_STATE_PENDING e) else mret tt);;
      e ← rd_entry i;
      result ← (if bool_decide (a_state e = ETHARP_STATE_PENDING) || bool_decide (q = None)
                then etharp_request nif ipaddr else mret ERR_MEM);
      match q with
      | None => mret result
      | Some q =>
          if stable (a_state e) then
            modify (set_cached i);;
            etharp_send_ip nif q (hwaddr nif) (a_ethaddr e)
          else if bool_decide (a_state e = ETHARP_STATE_PENDING) then queue_packet i q
          else mret result
      end.

(** The octets of an address. *)
Definition ip4_addr2 (ipaddr : Z) : Z := Z.land (Z.shiftr ipaddr 8) 0xff.

Definition ip4_addr3 (ipaddr : Z) : Z := Z.land (Z.shiftr ipaddr 16) 0xff.

Definition ip4_addr4 (ipaddr : Z) : Z := Z.land (Z.shiftr ipaddr 24) 0xff.

Definition mcastaddr (ipaddr : Z) : eth_addr :=
  [0x01; 0x00; 0x5e; Z.land (ip4_addr2 ipaddr) 0x7f; ip4_addr3 ipaddr; ip4_addr4 ipaddr].

(** The first stable entry for the address. *)
Fixpoint find_stable (es : list etharp_entry) (i : Z) (dst_addr : Z) : option Z :=
  match es with
  | [] => None
  | e :: es => if stable (a_state e) && (dst_addr =? a_ipaddr e) then Some i else find_stable es (i + 1) dst_addr
  end.

Definition output_unicast (nif : netif) (q : ptr) (dst_addr : Z) : M (arp S) Z :=
  s ← get;
  c ← rd_entry (etharp_cached_entry s);
  if stable (a_state c) && (dst_addr =? a_ipaddr c) then
    arp_inc Acachehit;;
    etharp_output_to_arp_index nif q (etharp_cached_entry s)
  else
    match find_stable (arp_table s) 0 dst_addr with
    | Some i => modify (set_cached i);; etharp_output_to_arp_index nif q i
    | None => etharp_query nif dst_addr (Some q)
    end.

Definition etharp_output (nif : netif) (q : ptr) (ipaddr : Z) : M (arp S) Z :=
  r ← on_pk (lk_header q SIZEOF_ETH_HDR);
  if negb (r =? 0) then arp_inc Llenerr;; mret ERR_BUF
  else if nz (ip4_addr_isbroadcast ipaddr nif) then etharp_send_ip nif q (hwaddr nif) ethbroadcast
  else if ip_addr_ismulticast ipaddr then etharp_send_ip nif q (hwaddr nif) (mcastaddr ipaddr)
  else if negb (ip_addr_netcmp ipaddr (ip_addr nif) (netmask nif)) && negb (ip_addr_islinklocal ipaddr) then
    if negb (gw nif =? IPADDR_ANY) then output_unicast nif q (gw nif) else mret ERR_RTE
  else output_unicast nif q ipaddr.

(** ** Input *)

Definition etharp_arp_input (nif : netif) (ethaddr : eth_addr) (p : ptr) (plen : Z) (ethhdr : eth_hdr) (hdr : etharp_hdr)
    : M (arp S) unit :=
  if plen <? SIZEOF_ETHARP_PACKET then
    arp_inc Alenerr;; arp_inc Adrop;; on_pk (lk_free p);; mret tt
  else if negb (hwtype hdr =? lwip_htons HWTYPE_ETHERNET) || negb (hwlen hdr =? ETHARP_HWADDR_LEN) ||
          negb (protolen hdr =? 4) || negb (proto hdr =? lwip_htons ETHTYPE_IP) then
    arp_inc Aproterr;; arp_inc Adrop;; on_pk (lk_free p);; mret tt
  else
    arp_inc Arecv;;
    let for_us := if ip_addr nif =? IPADDR_ANY then false else dipaddr hdr =? ip_addr nif in
    etharp_update_arp_entry nif (sipaddr hdr) (shwaddr hdr)
      (if for_us then ETHARP_FLAG_TRY_HARD else ETHARP_FLAG_FIND_ONLY);;
    (if opcode hdr =? lwip_htons ARP_REQUEST then
       if for_us then
         lwip_assert (hwaddr_len nif =? ETHARP_HWADDR_LEN);;
         link_out (Frame (num nif) p (EthHdr (shwaddr hdr) ethaddr (eth_type ethhdr))
           (Some (EtharpHdr (hwtype hdr) (proto hdr) (hwlen hdr) (protolen hdr) (lwip_htons ARP_REPLY)
                    ethaddr (ip_addr nif) (shwaddr hdr) (sipaddr hdr))));;
         mret tt
       else mret tt
     else if opcode hdr =? lwip_htons ARP_REPLY then mret tt
     else arp_inc Aerr);;
    on_pk (lk_free p);;
    mret tt.

(** The flags ethernet_input sets on a packet. *)
Definition ll_flags (dest : eth_addr) (flags : Z) : Z :=
  let b i := nth i dest 0 in
  if nz (Z.land (b 0%nat) 1) then
    if b 0%nat =? 0x01 then
      if (b 1%nat =? 0x00) && (b 2%nat =? 0x5e) then Z.lor flags PBUF_FLAG_LLMCAST else flags
    else if bool_decide (dest = ethbroadcast) then Z.lor flags PBUF_FLAG_LLBCAST else flags
  else flags.

Definition ethernet_input (p : ptr) (plen flags : Z) (ethhdr : eth_hdr) (hdr : etharp_hdr) (nif : netif) : M (arp S) Z :=
  if plen <=? SIZEOF_ETH_HDR then
    arp_inc Aproterr;; arp_inc Adrop;; on_pk (lk_free p);; mret ERR_OK
  else
    let flags := ll_flags (eth_dest ethhdr) flags in
    if eth_type ethhdr =? lwip_htons ETHTYPE_IP then
      if Z.land (netif_flags nif) NETIF_FLAG_ETHARP =? 0 then on_pk (lk_free p);; mret ERR_OK
      else
        r ← on_pk (lk_header p (- SIZEOF_ETH_HDR));
        lwip_assert (r =? 0);;
        modify (add_to_ip p flags);;
        mret ERR_OK
    else if eth_type ethhdr =? lwip_htons ETHTYPE_ARP then
      if Z.land (netif_flags nif) NETIF_FLAG_ETHARP =? 0 then on_pk (lk_free p);; mret ERR_OK
      else etharp_arp_input nif (hwaddr nif) p plen ethhdr hdr;; mret ERR_OK
    else
      arp_inc Aproterr;; arp_inc Adrop;; on_pk (lk_free p);; mret ERR_OK.
End etharp.
