(* ===== verification/EtharpTable.v ===== *)
(** * The ARP table

    What etharp_find_entry chooses, the invariant of the table, and that every
    operation of etharp.c returns and keeps it. *)

From S2P Require Import Prelude ByteOrder Alloc Pbuf PbufData IpAddr Etharp.

(** ** What the packets promise *)

(** What is known of a packet: that it can be copied, or which bytes it holds. *)
Inductive packet_fact := Ready | Holds (d : bytes).

(** [ext] are the references held, and [lk_room] says that pbuf_header can be called on a
    packet.  What is known of a packet of others stays true, and what is queued holds what
    the packet holds that was given. *)
Class LinkPacketsSpec (S : Type) `{LinkPackets S} := {
  lk_inv : S -> list ptr -> Prop;
  lk_is : S -> ptr -> packet_fact -> Prop;
  lk_room : S -> ptr -> Z -> Prop;
  lk_perm s ext ext' : ext ≡ₚ ext' -> lk_inv s ext -> lk_inv s ext';
  lk_alloc_ok s ext n :
    lk_inv s ext -> 0 <= n <= 65452 ->
    wp (lk_alloc n) s (fun o s' => lk_inv s' (option_list o ++ ext) /\
      forall p k, p ∈ ext -> lk_is s p k -> lk_is s' p k);
  lk_free_ok s ext p :
    lk_inv s (p :: ext) ->
    wp (lk_free p) s (fun _ s' => lk_inv s' ext /\ forall q k, q ∈ ext -> lk_is s q k -> lk_is s' q k);
  lk_keep_ok s ext p :
    lk_inv s ext -> p ∈ ext -> lk_is s p Ready ->
    wp (lk_keep p) s (fun o s' => lk_inv s' (option_list o ++ ext) /\
      forall q d, o = Some q -> lk_is s p (Holds d) -> lk_is s' q (Holds d));
  lk_header_ok s ext p k :
    lk_inv s ext -> p ∈ ext -> lk_room s p k ->
    wp (lk_header p k) s (fun r s' => (k < 0 -> r = 0) /\ lk_inv s' ext /\ (0 < k -> lk_is s p Ready -> lk_is s' p Ready))
}.

Abbreviation lk_ready s p := (lk_is s p Ready).

Abbreviation lk_data s p d := (lk_is s p (Holds d)).

(** ** The choice of an entry *)

(** The classes of entries, in the order they are recycled in. *)
Definition class_of (e : etharp_entry) : Z :=
  match a_state e with
  | ETHARP_STATE_EMPTY => 0
  | ETHARP_STATE_STABLE | ETHARP_STATE_STABLE_REREQUESTING => 1
  | ETHARP_STATE_PENDING => match a_q e with None => 2 | Some _ => 3 end
  | ETHARP_STATE_STATIC => 4
  end.

Definition matches (ip : Z) (e : etharp_entry) : bool := negb (empty (a_state e)) && (ip =? a_ipaddr e).

(** [i] is the oldest entry of the class [k], of age [t], among [es]. *)
Definition oldest_of (k : Z) (es : list etharp_entry) (i t : Z) : Prop :=
  (i = ARP_TABLE_SIZE /\ t = 0 /\ forall j e, es !! j = Some e -> class_of e <> k) \/
  (0 <= i /\ exists e, es !! Z.to_nat i = Some e /\ class_of e = k /\ a_ctime e = t /\
    forall j e', es !! j = Some e' -> class_of e' = k -> a_ctime e' <= t).

Definition first_empty (es : list etharp_entry) (i : Z) : Prop :=
  (i = ARP_TABLE_SIZE /\ forall j e, es !! j = Some e -> class_of e <> 0) \/
  (0 <= i /\ exists e, es !! Z.to_nat i = Some e /\ class_of e = 0 /\
    forall j e', (j < Z.to_nat i)%nat -> es !! j = Some e' -> class_of e' <> 0).

Record cand_ok (es : list etharp_entry) (c : candidates) : Prop := CandOk {
  co_empty : first_empty es (c_empty c);
  co_stable : oldest_of 1 es (old_stable c) (age_stable c);
  co_pending : oldest_of 2 es (old_pending c) (age_pending c);
  co_queue : oldest_of 3 es (old_queue c) (age_queue c)
}.

Lemma no_candidates_ok : cand_ok [] no_candidates.
Proof. split; left; by repeat split. Qed.

Lemma lookup_snoc_inv {A} (l : list A) x j y : (l ++ [x]) !! j = Some y -> l !! j = Some y \/ (j = length l /\ y = x).
Proof.
  intros E. apply lookup_app_Some in E as [E|[Hl E]]; [by left|]. right.
  apply list_lookup_singleton_Some in E as [E ->]. split; [lia|done].
Qed.

Lemma oldest_skip k es e i t : class_of e <> k -> oldest_of k es i t -> oldest_of k (es ++ [e]) i t.
Proof.
  intros Hk [(Hi & Ht & Hn)|(Hi & x & Hx & Hc & Ht & Hm)].
  - left. split; [done|]. split; [done|]. intros j e' [He|[_ ->]]%lookup_snoc_inv; [by eapply Hn|done].
  - right. split; [done|]. exists x. split; [by apply lookup_app_l_Some|]. split; [done|]. split; [done|].
    intros j e' [He|[_ ->]]%lookup_snoc_inv Hc'; [by eapply Hm|done].
Qed.

(** A round for an entry of the class. *)
Lemma oldest_step k es e i t :
  class_of e = k -> 0 <= a_ctime e -> oldest_of k es i t ->
  if t <=? a_ctime e then oldest_of k (es ++ [e]) (zlen es) (a_ctime e) else oldest_of k (es ++ [e]) i t.
Proof.
  intros Hk He Ho. destruct (Z.leb_spec t (a_ctime e)) as [Hle|Hlt].
  - right. split; [apply zlen_nonneg|]. exists e. split; [unfold zlen; rewrite Nat2Z.id; by apply list_lookup_middle|].
    split; [done|]. split; [done|]. intros j e' [Hj|[_ ->]]%lookup_snoc_inv Hc; [|done].
    destruct Ho as [(_ & _ & Hn)|(_ & x & _ & _ & _ & Hm)]; [by destruct (Hn j e' Hj)|]. specialize (Hm j e' Hj Hc). lia.
  - destruct Ho as [(_ & -> & _)|(Hi & x & Hx & Hc & Ht & Hm)]; [lia|]. right. split; [done|]. exists x.
    split; [by apply lookup_app_l_Some|]. split; [done|]. split; [done|].
    intros j e' [Hj|[_ ->]]%lookup_snoc_inv Hc'; [by eapply Hm|lia].
Qed.

Lemma first_empty_skip es e i : class_of e <> 0 -> first_empty es i -> first_empty (es ++ [e]) i.
Proof.
  intros Hk [(Hi & Hn)|(Hi & x & Hx & Hc & Hm)].
  - left. split; [done|]. intros j e' [He|[_ ->]]%lookup_snoc_inv; [by eapply Hn|done].
  - right. split; [done|]. exists x. split; [by apply lookup_app_l_Some|]. split; [done|].
    intros j e' Hj [He|[-> _]]%lookup_snoc_inv; [by eapply Hm|]. apply lookup_lt_Some in Hx. lia.
Qed.

Lemma first_empty_step es e i :
  class_of e = 0 -> zlen es < ARP_TABLE_SIZE -> first_empty es i ->
  first_empty (es ++ [e]) (if i =? ARP_TABLE_SIZE then zlen es else i).
Proof.
  intros Hk Hl [(-> & Hn)|(Hi & x & Hx & Hc & Hm)].
  - rewrite Z.eqb_refl. right. split; [apply zlen_nonneg|]. exists e.
    split; [unfold zlen; rewrite Nat2Z.id; by apply list_lookup_middle|]. split; [done|].
    intros j e' Hj [He|[-> _]]%lookup_snoc_inv; [by eapply Hn|]. unfold zlen in Hj. lia.
  - assert (i <> ARP_TABLE_SIZE) as Hne by (apply lookup_lt_Some in Hx; unfold zlen in Hl; lia).
    rewrite (proj2 (Z.eqb_neq _ _) Hne). right. split; [done|]. exists x. split; [by apply lookup_app_l_Some|].
    split; [done|]. intros j e' Hj [He|[-> _]]%lookup_snoc_inv; [by eapply Hm|]. apply lookup_lt_Some in Hx. lia.
Qed.

Lemma candidate_ok es e c :
  cand_ok es c -> 0 <= a_ctime e -> zlen es < ARP_TABLE_SIZE -> cand_ok (es ++ [e]) (candidate (zlen es) e c).
Proof.
  intros [He Hs Hp Hq] Ht Hl.
  pose proof (first_empty_step es e (c_empty c)) as H0.
  pose proof (oldest_step 1 es e (old_stable c) (age_stable c)) as H1.
  pose proof (oldest_step 2 es e (old_pending c) (age_pending c)) as H2.
  pose proof (oldest_step 3 es e (old_queue c) (age_queue c)) as H3.
  pose proof (first_empty_skip es e (c_empty c)) as K0.
  pose proof (fun k => oldest_skip k es e) as K. unfold candidate. unfold class_of in *.
  destruct (a_state e) eqn:Est; [|destruct (a_q e) eqn:Eq| | |];
    repeat match goal with |- cand_ok _ (if ?b then _ else _) => destruct b eqn:? end;
    split; cbn [c_empty old_stable old_pending old_queue age_stable age_pending age_queue];
    first [by apply K0|by apply K|by apply H0|by apply H1|by apply H2|by apply H3|idtac].
Qed.

(** The search as a whole. *)
Lemma find_loop_ok ip es : forall pre c,
  cand_ok pre c -> Forall (fun e => 0 <= a_ctime e) es -> zlen (pre ++ es) <= ARP_TABLE_SIZE ->
  (forall j e, pre !! j = Some e -> matches ip e = false) ->
  match find_loop es (zlen pre) (Some ip) c with
  | inl i => 0 <= i /\ exists e, (pre ++ es) !! Z.to_nat i = Some e /\ matches ip e = true
  | inr c' => cand_ok (pre ++ es) c' /\ forall j e, (pre ++ es) !! j = Some e -> matches ip e = false
  end.
Proof.
  induction es as [|e es IH]; intros pre c Hc Ht Hl Hn; cbn [find_loop].
  - by rewrite app_nil_r.
  - apply list.Forall_cons in Ht as [He Ht]. rewrite zlen_app, zlen_cons in Hl. pose proof (zlen_nonneg es).
    assert (negb (empty (a_state e)) && bool_decide (Some ip = Some (a_ipaddr e)) = matches ip e) as ->.
    { unfold matches. f_equal. destruct (Z.eqb_spec ip (a_ipaddr e)) as [->|Hne]; [by apply bool_decide_true|].
      apply bool_decide_false. congruence. }
    destruct (matches ip e) eqn:Hm.
    + split; [apply zlen_nonneg|]. exists e. split; [|done]. unfold zlen. rewrite Nat2Z.id. by apply list_lookup_middle.
    + rewrite (cons_middle e), app_assoc. replace (zlen pre + 1) with (zlen (pre ++ [e])) by (rewrite zlen_app; done).
      apply IH; [apply candidate_ok; [done|done|lia]|done|rewrite !zlen_app, zlen_cons, zlen_nil; lia|].
      intros j x [Hx|[_ ->]]%lookup_snoc_inv; [by eapply Hn|done].
Qed.

(** What etharp_find_entry does to the table [t]: the result and the table after
    it. *)
Definition find_spec (ip flags : Z) (t : list etharp_entry) (r : Z) (t' : list etharp_entry) : Prop :=
  (0 <= r /\ t' = t /\ exists e, t !! Z.to_nat r = Some e /\ matches ip e = true) \/
  ((forall j e, t !! j = Some e -> matches ip e = false) /\
   ((r = ERR_MEM /\ t' = t /\
     (nz (Z.land flags ETHARP_FLAG_FIND_ONLY) = true \/
      (Z.land flags ETHARP_FLAG_TRY_HARD = 0 /\ forall j e, t !! j = Some e -> class_of e <> 0) \/
      forall j e, t !! j = Some e -> class_of e = 4)) \/
    (Z.land flags ETHARP_FLAG_FIND_ONLY = 0 /\ 0 <= r /\ exists e, t !! Z.to_nat r = Some e /\ class_of e < 4 /\
     (class_of e = 0 \/ Z.land flags ETHARP_FLAG_TRY_HARD <> 0) /\
     t' = <[Z.to_nat r := ArpEntry None ip (a_netif e) (a_ethaddr e) ETHARP_STATE_EMPTY 0]> t /\
     forall j e', t !! j = Some e' -> class_of e < class_of e' \/
       (class_of e = class_of e' /\ if class_of e =? 0 then r <= Z.of_nat j else a_ctime e' <= a_ctime e)))).

(** ** The invariant *)

Definition entry_ok (e : etharp_entry) : Prop :=
  (a_q e <> None -> a_state e = ETHARP_STATE_PENDING) /\ 0 <= a_ctime e /\
  match a_state e with
  | ETHARP_STATE_PENDING => a_ctime e < ARP_MAXPENDING
  | ETHARP_STATE_STABLE | ETHARP_STATE_STABLE_REREQUESTING => a_ctime e < ARP_MAXAGE
  | ETHARP_STATE_EMPTY | ETHARP_STATE_STATIC => True
  end.

(** No address is in the table twice. *)
Definition one_each (t : list etharp_entry) : Prop :=
  forall i j e e', t !! i = Some e -> t !! j = Some e' -> empty (a_state e) = false -> empty (a_state e') = false ->
    a_ipaddr e = a_ipaddr e' -> i = j.

Lemma wp_wr_entry {S} i e (s : arp S) (Q : unit -> arp S -> Prop) :
  Q tt (set_table (<[Z.to_nat i := e]>) s) -> wp (wr_entry i e) s Q.
Proof. apply wp_modify. Qed.

Ltac ar_step := cbv beta zeta; first [wp_step | apply wp_wr_entry]; cbv beta zeta.

Section table.
Context {S : Type} `{LinkPacketsSpec S}.
Implicit Types (s : arp S) (ext : list ptr).

(** [ext] are the references others hold. *)
Record arp_inv s ext : Prop := ArpInv {
  ai_own : lk_inv (a_packets s) (omap a_q (arp_table s) ++ ext);
  ai_len : zlen (arp_table s) = ARP_TABLE_SIZE;
  ai_entries : Forall entry_ok (arp_table s);
  ai_each : one_each (arp_table s);
  ai_cached : 0 <= etharp_cached_entry s < ARP_TABLE_SIZE
}.

(** What is known of the packets of others stays true. *)
Definition keeps ext s s' : Prop :=
  forall p k, p ∈ ext -> lk_is (a_packets s) p k -> lk_is (a_packets s') p k.

Lemma keeps_refl ext s : keeps ext s s.
Proof. by intros p. Qed.

Lemma keeps_trans ext s1 s2 s3 : keeps ext s1 s2 -> keeps ext s2 s3 -> keeps ext s1 s3.
Proof. intros H1 H2 p k Hp Hr. by apply H2, H1. Qed.

(** Everything but the packets, the table and the counters is the same. *)
Definition quiet s s' : Prop :=
  frames s' = frames s /\ to_ip s' = to_ip s /\ etharp_cached_entry s' = etharp_cached_entry s.

Lemma quiet_refl s : quiet s s.
Proof. done. Qed.

Lemma quiet_trans s1 s2 s3 : quiet s1 s2 -> quiet s2 s3 -> quiet s1 s3.
Proof. intros (? & ? & ?) (? & ? & ?). repeat split; congruence. Qed.

Lemma wp_on_pk {B} (m : M S B) s (Q : B -> arp S -> Prop) :
  wp m (a_packets s) (fun b k => Q b (set_a_packets k s)) -> wp (on_pk m) s Q.
Proof. intros (b & k & E & HQ). exists b, (set_a_packets k s). split; [|done]. unfold on_pk. by rewrite E. Qed.

Lemma wp_rd_entry i e s Q : arp_table s !! Z.to_nat i = Some e -> 0 <= i -> Q e s -> wp (rd_entry i) s Q.
Proof.
  intros He Hi HQ. exists e, s. split; [|done]. unfold rd_entry. rewrite get_bind.
  rewrite (proj2 (Z.ltb_ge _ _)) by lia. by rewrite He.
Qed.

Lemma wp_inc k s (Q : unit -> arp S -> Prop) :
  (forall s', a_packets s' = a_packets s -> arp_table s' = arp_table s -> quiet s s' -> Q tt s') -> wp (arp_inc k) s Q.
Proof. intros HQ. apply wp_modify. by apply HQ. Qed.

Lemma delete_list_insert {A} (l : list A) i x : delete i (<[i := x]> l) = delete i l.
Proof. revert i. induction l as [|y l IH]; intros [|i]; simpl; [done|done|done|]. by rewrite IH. Qed.

(** The references of the table, the entry [i] apart. *)
Lemma queued_split (t : list etharp_entry) i e :
  t !! i = Some e -> omap a_q t ≡ₚ option_list (a_q e) ++ omap a_q (delete i t).
Proof.
  intros He. rewrite (delete_Permutation t i e He) at 1. simpl. by destruct (a_q e).
Qed.

Lemma arp_queued_set (t : list etharp_entry) i e e' :
  t !! i = Some e -> omap a_q (<[i := e']> t) ≡ₚ option_list (a_q e') ++ omap a_q (delete i t).
Proof.
  intros He. rewrite (queued_split (<[i := e']> t) i e').
  - by rewrite delete_list_insert.
  - apply list_lookup_insert_eq. by eapply lookup_lt_Some.
Qed.

Lemma one_each_set t i e' :
  one_each t ->
  (empty (a_state e') = false -> forall j x, j <> i -> t !! j = Some x -> empty (a_state x) = false -> a_ipaddr x <> a_ipaddr e') ->
  one_each (<[i := e']> t).
Proof.
  intros H1 Hn a b x y Ha Hb Hx Hy E. apply list_lookup_insert_Some in Ha as [(-> & <- & _)|[Hai Ha]];
    apply list_lookup_insert_Some in Hb as [(-> & <- & _)|[Hbi Hb]]; [done| | |by eapply H1].
  - exfalso. by apply (Hn Hx b y).
  - exfalso. by apply (Hn Hy a x).
Qed.

(** The entry [i] becomes [e'], the packets [k]. *)
Lemma inv_set s ext ext' i e e' s' :
  arp_inv s ext -> arp_table s !! i = Some e -> entry_ok e' ->
  (empty (a_state e') = false -> forall j x, j <> i -> arp_table s !! j = Some x -> empty (a_state x) = false ->
     a_ipaddr x <> a_ipaddr e') ->
  lk_inv (a_packets s') (option_list (a_q e') ++ omap a_q (delete i (arp_table s)) ++ ext') ->
  arp_table s' = <[i := e']> (arp_table s) -> 0 <= etharp_cached_entry s' < ARP_TABLE_SIZE -> arp_inv s' ext'.
Proof.
  intros [Hown Hlen Hent Heach Hcach] He Hok Hn Hk Ht Hc. split; rewrite ?Ht; try done.
  - eapply lk_perm; [|exact Hk]. by rewrite (arp_queued_set _ _ e e' He), app_assoc.
  - unfold zlen in *. by rewrite length_insert.
  - by apply Forall_insert.
  - by apply one_each_set.
Qed.

Lemma own_split s ext i e :
  arp_inv s ext -> arp_table s !! i = Some e ->
  lk_inv (a_packets s) (option_list (a_q e) ++ omap a_q (delete i (arp_table s)) ++ ext).
Proof. intros Hi He. eapply lk_perm; [|apply (ai_own _ _ Hi)]. by rewrite (queued_split _ _ _ He), app_assoc. Qed.

Definition freed (e : etharp_entry) : etharp_entry := upd_a_state ETHARP_STATE_EMPTY (upd_a_q None e).

Lemma freed_ok e : entry_ok e -> entry_ok (freed e).
Proof. intros (_ & Ht & _). by split. Qed.

Lemma entry_ok_at s ext i e : arp_inv s ext -> arp_table s !! i = Some e -> entry_ok e.
Proof. intros Hi He. by eapply Forall_lookup_1; [apply (ai_entries _ _ Hi)|]. Qed.

Lemma free_entry_ok s ext i e :
  arp_inv s ext -> arp_table s !! Z.to_nat i = Some e -> 0 <= i ->
  wp (etharp_free_entry i) s (fun _ s' => arp_inv s' ext /\ quiet s s' /\ keeps ext s s' /\
    arp_table s' = <[Z.to_nat i := freed e]> (arp_table s)).
Proof.
  intros Hinv He Hi. unfold etharp_free_entry. ar_step. apply (wp_rd_entry _ e); [done|done|].
  pose proof (own_split _ _ _ _ Hinv He) as Hown. ar_step.
  destruct (a_q e) as [p|] eqn:Hq; simpl in Hown.
  - ar_step. apply wp_on_pk. eapply wp_mono; [by apply lk_free_ok|]. intros _ k [Hk Hr]. ar_step. ar_step.
    split; [|split; [done|split; [|done]]].
    + eapply (inv_set s ext ext _ e (freed e) _ Hinv He); [by eapply freed_ok, entry_ok_at|done|exact Hk|done|apply Hinv].
    + intros q c Hin. apply Hr. apply elem_of_app. by right.
  - ar_step. ar_step. split; [|split; [done|split; [by intros q|done]]].
    eapply (inv_set s ext ext _ e (freed e) _ Hinv He); [by eapply freed_ok, entry_ok_at|done|exact Hown|done|apply Hinv].
Qed.

(** A new address in an entry that is empty. *)
Lemma claim_ok s ext i e ip :
  arp_inv s ext -> arp_table s !! Z.to_nat i = Some e -> 0 <= i -> a_state e = ETHARP_STATE_EMPTY -> a_q e = None ->
  arp_inv (set_table (<[Z.to_nat i := ArpEntry (a_q e) ip (a_netif e) (a_ethaddr e) (a_state e) 0]>) s) ext.
Proof.
  intros Hinv He Hi Hst Hq.
  eapply (inv_set s ext ext _ e (ArpEntry (a_q e) ip (a_netif e) (a_ethaddr e) (a_state e) 0));
    [exact Hinv|exact He| | |exact (own_split _ _ _ _ Hinv He)|reflexivity|exact (ai_cached _ _ Hinv)].
  - rewrite Hst, Hq. by split.
  - by rewrite Hst.
Qed.

Lemma class_range e : 0 <= class_of e <= 4.
Proof. unfold class_of. destruct (a_state e); try lia. destruct (a_q e); lia. Qed.

Lemma class_0 e : class_of e = 0 -> a_state e = ETHARP_STATE_EMPTY.
Proof. unfold class_of. destruct (a_state e); try done. by destruct (a_q e). Qed.

Lemma empty_no_q e : entry_ok e -> a_state e = ETHARP_STATE_EMPTY -> a_q e = None.
Proof. intros [Hq _] Hst. destruct (a_q e); [|done]. rewrite Hst in Hq. by specialize (Hq ltac:(done)). Qed.

Lemma stable_no_q e : entry_ok e -> stable (a_state e) = true -> a_q e = None.
Proof. intros [Hq _] Hst. destruct (a_q e); [|done]. rewrite Hq in Hst by done. done. Qed.

(** The oldest entry of the lowest class that is there. *)
Definition victim (t : list etharp_entry) (i : Z) (e : etharp_entry) : Prop :=
  0 <= i < ARP_TABLE_SIZE /\ t !! Z.to_nat i = Some e /\ 0 < class_of e < 4 /\
  forall j e', t !! j = Some e' -> class_of e < class_of e' \/ (class_of e = class_of e' /\ a_ctime e' <= a_ctime e).

Lemma oldest_none k t i a : oldest_of k t i a -> ARP_TABLE_SIZE <= i -> zlen t = ARP_TABLE_SIZE ->
  forall j e, t !! j = Some e -> class_of e <> k.
Proof.
  intros [(_ & _ & Hn)|(_ & x & Hx & _)] Hi Hl; [done|]. apply lookup_lt_Some in Hx. unfold zlen in Hl. lia.
Qed.

(** The class [k] is the lowest that is there. *)
Lemma oldest_victim k t i a :
  oldest_of k t i a -> i < ARP_TABLE_SIZE -> 0 < k < 4 ->
  (forall j e, t !! j = Some e -> k <= class_of e) -> exists e, victim t i e /\ class_of e = k.
Proof.
  intros [(-> & _ & _)|(Hi & e & He & Hc & Ht & Hm)] Hlt Hk Hlow; [lia|]. exists e. split; [|done].
  split; [lia|]. split; [done|]. split; [lia|]. intros j e' Hj. specialize (Hlow j e' Hj).
  destruct (decide (class_of e' = k)) as [E|Hne]; [|lia]. specialize (Hm j e' Hj E). lia.
Qed.

Lemma recycle_ok s ext c :
  arp_inv s ext -> cand_ok (arp_table s) c -> (forall j e, arp_table s !! j = Some e -> class_of e <> 0) ->
  wp (recycle c) s (fun o s' => s' = s /\
    match o with
    | Some i => exists e, victim (arp_table s) i e
    | None => forall j e, arp_table s !! j = Some e -> class_of e = 4
    end).
Proof.
  intros Hinv [_ H1 H2 H3] Hne. pose proof (ai_len _ _ Hinv) as Hl. unfold recycle.
  assert (forall j e, arp_table s !! j = Some e -> 1 <= class_of e <= 4) as Hr.
  { intros j e He. pose proof (class_range e). specialize (Hne j e He). lia. }
  destruct (Z.ltb_spec (old_stable c) ARP_TABLE_SIZE) as [Hlt|Hge].
  { destruct (oldest_victim _ _ _ _ H1 Hlt ltac:(lia)) as (e & Hv & Hc); [intros j x Hx; by apply (Hr j)|].
    pose proof Hv as (Hi & He & _). ar_step. apply (wp_rd_entry _ e); [done|lia|]. ar_step.
    assert (a_q e = None) as -> by (apply stable_no_q; [by eapply entry_ok_at|]; unfold class_of in Hc;
      destruct (a_state e); try done; by destruct (a_q e)).
    apply wp_assert; [done|]. ar_step. split; [done|]. by exists e. }
  pose proof (oldest_none _ _ _ _ H1 Hge Hl) as N1.
  destruct (Z.ltb_spec (old_pending c) ARP_TABLE_SIZE) as [Hlt|Hge2].
  { destruct (oldest_victim _ _ _ _ H2 Hlt ltac:(lia)) as (e & Hv & Hc).
    - intros j x Hx. specialize (Hr j x Hx). specialize (N1 j x Hx). lia.
    - ar_step. split; [done|]. by exists e. }
  pose proof (oldest_none _ _ _ _ H2 Hge2 Hl) as N2.
  destruct (Z.ltb_spec (old_queue c) ARP_TABLE_SIZE) as [Hlt|Hge3].
  { destruct (oldest_victim _ _ _ _ H3 Hlt ltac:(lia)) as (e & Hv & Hc).
    - intros j x Hx. specialize (Hr j x Hx). specialize (N1 j x Hx). specialize (N2 j x Hx). lia.
    - ar_step. split; [done|]. by exists e. }
  pose proof (oldest_none _ _ _ _ H3 Hge3 Hl) as N3. ar_step. split; [done|].
  intros j x Hx. specialize (Hr j x Hx). specialize (N1 j x Hx). specialize (N2 j x Hx). specialize (N3 j x Hx). lia.
Qed.

(** The entry [i], freed if it was in use, is claimed for [ip]. *)
Lemma claim_entry_ok s ext i e ip :
  arp_inv s ext -> arp_table s !! Z.to_nat i = Some e -> 0 <= i < ARP_TABLE_SIZE -> a_state e = ETHARP_STATE_EMPTY ->
  wp (lwip_assert (i <? ARP_TABLE_SIZE);;
      e ← rd_entry i;
      lwip_assert (empty (a_state e));;
      wr_entry i (ArpEntry (a_q e) (default (a_ipaddr e) (Some ip)) (a_netif e) (a_ethaddr e) (a_state e) 0);;
      mret i) s (fun r s' => r = i /\ arp_inv s' ext /\ quiet s s' /\ keeps ext s s' /\
        arp_table s' = <[Z.to_nat i := ArpEntry None ip (a_netif e) (a_ethaddr e) ETHARP_STATE_EMPTY 0]> (arp_table s)).
Proof.
  intros Hinv He Hi Hst. ar_step. apply wp_assert; [lia|]. ar_step. apply (wp_rd_entry _ e); [done|lia|].
  ar_step. apply wp_assert; [by rewrite Hst|]. ar_step. ar_step. ar_step. split; [done|].
  pose proof (empty_no_q e (entry_ok_at _ _ _ _ Hinv He) Hst) as Hq.
  split; [by apply claim_ok; [|done|lia| |]|]. split; [done|]. split; [by intros q|]. simpl. by rewrite Hq, Hst.
Qed.

Lemma find_entry_ok s ext ip flags :
  arp_inv s ext ->
  wp (etharp_find_entry (Some ip) flags) s (fun r s' => arp_inv s' ext /\ quiet s s' /\ keeps ext s s' /\
    find_spec ip flags (arp_table s) r (arp_table s')).
Proof.
  intros Hinv. pose proof (ai_len _ _ Hinv) as Hl. unfold etharp_find_entry. ar_step. ar_step.
  pose proof (find_loop_ok ip (arp_table s) [] no_candidates no_candidates_ok) as Hloop.
  specialize (Hloop (list.Forall_impl _ _ _ (ai_entries _ _ Hinv) (fun e He => proj1 (proj2 He)))).
  specialize (Hloop ltac:(simpl; lia) ltac:(by intros j e He)). simpl app in Hloop. change (zlen []) with 0 in Hloop.
  destruct (find_loop (arp_table s) 0 (Some ip) no_candidates) as [i|c].
  { ar_step. split; [done|]. split; [done|]. split; [by intros p|]. left. by destruct Hloop. }
  destruct Hloop as [Hc Hnone].
  assert (forall Q : Prop, (Q -> nz (Z.land flags ETHARP_FLAG_FIND_ONLY) = true \/
      (Z.land flags ETHARP_FLAG_TRY_HARD = 0 /\ forall j e, arp_table s !! j = Some e -> class_of e <> 0) \/
      forall j e, arp_table s !! j = Some e -> class_of e = 4) -> Q ->
    arp_inv s ext /\ quiet s s /\ keeps ext s s /\ find_spec ip flags (arp_table s) ERR_MEM (arp_table s)) as Hfail.
  { intros Q Hwhy HQ. split; [done|]. split; [done|]. split; [by intros p|]. right. split; [done|]. left. auto. }
  destruct (nz (Z.land flags ETHARP_FLAG_FIND_ONLY)) eqn:Hfo; cbn [orb].
  { ar_step. apply (Hfail True); [by left|done]. }
  apply negb_false_iff, Z.eqb_eq in Hfo.
  destruct (co_empty _ _ Hc) as [(Hce & Hne)|(Hi & e & He & Hcl & Hfirst)].
  - rewrite Hce, Z.eqb_refl. cbn [andb]. destruct (Z.eqb_spec (Z.land flags ETHARP_FLAG_TRY_HARD) 0) as [Hth|Hth].
    { ar_step. apply (Hfail True); [by right; left|done]. }
    rewrite (proj2 (Z.ltb_ge _ _)) by lia. ar_step. ar_step.
    eapply wp_mono; [by apply (recycle_ok s ext c)|]. intros o s1 [-> Ho]. destruct o as [i|].
    + destruct Ho as (e & Hi & He & Hcl & Hbest). ar_step. apply wp_assert; [lia|]. ar_step.
      eapply wp_mono; [by apply (free_entry_ok s ext i e); [| |lia]|]. intros _ s1 (Hinv1 & Hq1 & Hk1 & Ht1). ar_step.
      assert (arp_table s1 !! Z.to_nat i = Some (freed e)) as He1.
      { rewrite Ht1. apply list_lookup_insert_eq. by eapply lookup_lt_Some. }
      eapply wp_mono; [by apply (claim_entry_ok s1 ext i (freed e) ip)|].
      intros r s2 (-> & Hinv2 & Hq2 & Hk2 & Ht2). split; [done|]. split; [by eapply quiet_trans|].
      split; [by eapply keeps_trans|]. right. split; [done|]. right. split; [done|]. split; [lia|]. exists e.
      split; [done|]. split; [lia|]. split; [by right|]. split; [by rewrite Ht2, Ht1, list_insert_insert_eq|].
      rewrite (proj2 (Z.eqb_neq (class_of e) 0)) by lia. exact Hbest.
    + ar_step. ar_step. apply (Hfail True); [by right; right|done].
  - assert (c_empty c < ARP_TABLE_SIZE) as Hlt by (apply lookup_lt_Some in He; unfold zlen in Hl; lia).
    rewrite (proj2 (Z.eqb_neq _ _)) by lia. cbn [andb]. rewrite (proj2 (Z.ltb_lt _ _)) by lia. ar_step. ar_step.
    eapply wp_mono; [by apply (claim_entry_ok s ext (c_empty c) e ip); [| |lia|apply class_0]|].
    intros r s2 (-> & Hinv2 & Hq2 & Hk2 & Ht2). split; [done|]. split; [done|]. split; [done|].
    right. split; [done|]. right. split; [done|]. split; [lia|]. exists e. split; [done|]. split; [lia|].
    split; [by left|]. split; [done|]. intros j e' He'. pose proof (class_range e'). rewrite Hcl. simpl.
    destruct (decide (class_of e' = 0)) as [E|]; [|lia]. right. split; [lia|].
    destruct (decide (j < Z.to_nat (c_empty c))%nat) as [Hj|]; [|lia]. by destruct (Hfirst j e' Hj He').
Qed.
End table.
