(* ===== verification/EtharpOps.v ===== *)
(** * The operations of etharp.c

    Every operation returns and keeps the invariant of the table, whatever the
    driver answers; what resolving an address does; and how entries age. *)

From S2P Require Import Prelude ByteOrder Alloc Pbuf PbufData IpAddr Etharp EtharpTable.

Lemma find_spec_cases ip flags t r t' :
  find_spec ip flags t r t' -> one_each t ->
  (r = ERR_MEM /\ t' = t) \/
  (0 <= r /\ exists e, t' !! Z.to_nat r = Some e /\ a_ipaddr e = ip /\
     forall j x, j <> Z.to_nat r -> t' !! j = Some x -> empty (a_state x) = false -> a_ipaddr x <> ip).
Proof.
  intros [(Hr & -> & e & He & Hm)|(Hn & [(-> & -> & _)|(_ & Hr & e & He & _ & _ & -> & _)])] H1.
  - right. split; [done|]. unfold matches in Hm. apply andb_true_iff in Hm as [Hm1 Hm2%Z.eqb_eq].
    apply negb_true_iff in Hm1. exists e. split; [done|]. split; [done|]. intros j x Hj Hx Hne E. apply Hj.
    apply (H1 _ _ x e Hx He Hne Hm1). congruence.
  - by left.
  - right. split; [done|]. eexists. split; [apply list_lookup_insert_eq; by eapply lookup_lt_Some|]. split; [done|].
    intros j x Hj Hx Hne E. rewrite list_lookup_insert_ne in Hx by done. specialize (Hn j x Hx).
    unfold matches in Hn. rewrite Hne, E, Z.eqb_refl in Hn. done.
Qed.

Section ops.
Context {S : Type} `{LinkPacketsSpec S}.
Context (linkoutput : list frame -> frame -> Z).
Context (ip_route : Z -> option netif).
Implicit Types (s : arp S) (ext : list ptr) (nif : netif).

(** The state changes only in what is said, the frames sent are [fs]. *)
Record step ext (fs : list frame) s s' : Prop := Step {
  st_inv : arp_inv s' ext;
  st_keeps : keeps ext s s';
  st_frames : frames s' = frames s ++ fs;
  st_to_ip : to_ip s' = to_ip s
}.

Lemma step_refl ext s : arp_inv s ext -> step ext [] s s.
Proof. intros Hi. split; [done|apply keeps_refl|by rewrite app_nil_r|done]. Qed.

Lemma step_trans ext fs fs' s1 s2 s3 : step ext fs s1 s2 -> step ext fs' s2 s3 -> step ext (fs ++ fs') s1 s3.
Proof.
  intros [_ Hk Hf Ht] [Hi Hk' Hf' Ht']. split; [done|by eapply keeps_trans| |congruence].
  by rewrite Hf', Hf, app_assoc.
Qed.

Lemma step_quiet ext s s' : arp_inv s' ext -> quiet s s' -> keeps ext s s' -> step ext [] s s'.
Proof. intros Hi (Hf & Ht & _) Hk. split; [done|done|by rewrite app_nil_r|done]. Qed.

Lemma step_inc ext k s : arp_inv s ext -> wp (arp_inc k) s (fun _ s' => step ext [] s s' /\ arp_table s' = arp_table s).
Proof.
  intros Hi. apply wp_modify. split; [|done]. split; simpl; [|by intros p|by rewrite app_nil_r|done].
  destruct Hi. by split.
Qed.

Lemma link_out_ok ext f s :
  arp_inv s ext -> wp (link_out linkoutput f) s (fun r s' => r = linkoutput (frames s) f /\ step ext [f] s s' /\
    arp_table s' = arp_table s /\ a_packets s' = a_packets s).
Proof.
  intros Hi. unfold link_out. ar_step. ar_step. ar_step. apply wp_modify. ar_step. split; [done|]. split; [|done].
  split; [destruct Hi; by split|by intros p|done|done].
Qed.

Definition ip_frame nif (p : ptr) (dst : eth_addr) : frame :=
  Frame (num nif) p (EthHdr dst (hwaddr nif) (lwip_htons ETHTYPE_IP)) None.

Lemma send_ip_ok ext nif p dst s :
  arp_inv s ext -> hwaddr_len nif = ETHARP_HWADDR_LEN ->
  wp (etharp_send_ip linkoutput nif p (hwaddr nif) dst) s (fun r s' => r = linkoutput (frames s) (ip_frame nif p dst) /\
    step ext [ip_frame nif p dst] s s' /\ arp_table s' = arp_table s /\ a_packets s' = a_packets s).
Proof. intros Hi Hl. unfold etharp_send_ip. ar_step. apply wp_assert; [lia|]. by apply link_out_ok. Qed.

(** Writing the entry [i]. *)
Lemma write_ok s ext i e e' :
  arp_inv s ext -> arp_table s !! Z.to_nat i = Some e -> entry_ok e' -> a_q e' = a_q e ->
  (empty (a_state e') = false -> forall j x, j <> Z.to_nat i -> arp_table s !! j = Some x -> empty (a_state x) = false ->
     a_ipaddr x <> a_ipaddr e') ->
  wp (wr_entry i e') s (fun _ s' => step ext [] s s' /\ arp_table s' = <[Z.to_nat i := e']> (arp_table s) /\
    a_packets s' = a_packets s).
Proof.
  intros Hi He Hok Hq Hn. ar_step. split; [|done]. split; [|by intros p|by rewrite app_nil_r|done].
  eapply (inv_set s ext ext _ e e' _ Hi He Hok Hn); [|done|apply Hi]. simpl. rewrite Hq. by apply own_split.
Qed.

(** ** Updating an entry *)

Definition unicast nif (ip : Z) : bool :=
  negb ((ip =? IPADDR_ANY) || nz (ip4_addr_isbroadcast ip nif) || ip_addr_ismulticast ip).

Definition resolved (nif : netif) (ip : Z) (eth : eth_addr) (flags : Z) : etharp_entry :=
  ArpEntry None ip (Some (num nif)) eth
    (if nz (Z.land flags ETHARP_FLAG_STATIC_ENTRY) then ETHARP_STATE_STATIC else ETHARP_STATE_STABLE) 0.

(** What etharp_update_arp_entry does: the result, the new table and the frames. *)
Definition update_spec nif (ip : Z) (eth : eth_addr) (flags : Z) (t : list etharp_entry) (r : Z) (t' : list etharp_entry)
    (fs : list frame) : Prop :=
  if unicast nif ip then
    exists i t1, find_spec ip flags t i t1 /\
      ((i = ERR_MEM /\ r = i /\ t' = t /\ fs = []) \/
       (0 <= i /\ r = ERR_OK /\ exists e, t1 !! Z.to_nat i = Some e /\ a_ipaddr e = ip /\
          t' = <[Z.to_nat i := resolved nif ip eth flags]> t1 /\ fs = (fun p => ip_frame nif p eth) <$> option_list (a_q e)))
  else r = ERR_ARG /\ t' = t /\ fs = [].

Lemma update_ok ext nif ip eth flags s :
  arp_inv s ext -> hwaddr_len nif = ETHARP_HWADDR_LEN ->
  wp (etharp_update_arp_entry linkoutput nif ip eth flags) s (fun r s' => exists fs, step ext fs s s' /\
    update_spec nif ip eth flags (arp_table s) r (arp_table s') fs).
Proof.
  intros Hinv Hl. unfold etharp_update_arp_entry, update_spec, unicast. ar_step. apply wp_assert; [lia|].
  destruct (_ || _); cbn [negb].
  { ar_step. exists []. split; [by apply step_refl|done]. }
  ar_step. eapply wp_mono; [by apply find_entry_ok|]. intros i s1 (Hinv1 & Hq1 & Hk1 & Hf).
  pose proof (step_quiet _ _ _ Hinv1 Hq1 Hk1) as Hs1.
  destruct (find_spec_cases _ _ _ _ _ Hf (ai_each _ _ Hinv)) as [(-> & Ht)|(Hi & e & He & Hip & Hother)].
  { change (ERR_MEM <? 0) with true. cbv iota. ar_step. exists []. split; [done|]. exists ERR_MEM, (arp_table s1). split; [done|]. by left. }
  rewrite (proj2 (Z.ltb_ge _ _)) by lia. ar_step. apply (wp_rd_entry _ e); [done|done|]. ar_step. ar_step.
  rewrite Hip. fold (resolved nif ip eth flags). set (s2 := set_table _ s1).
  pose proof (own_split _ _ _ _ Hinv1 He) as Hown.
  assert (arp_inv s2 (option_list (a_q e) ++ ext)) as Hinv2.
  { eapply (inv_set s1 ext (option_list (a_q e) ++ ext) _ e (resolved nif ip eth flags) s2 Hinv1 He).
    - split; [done|]. split; [done|]. unfold resolved. simpl. unfold ARP_MAXAGE. by destruct (nz _).
    - intros _. exact Hother.
    - eapply lk_perm; [|exact Hown]. simpl. rewrite !app_assoc. apply Permutation_app_tail, Permutation_app_comm.
    - done.
    - apply Hinv1. }
  assert (keeps ext s1 s2) as Hk2 by (by intros p).
  destruct (a_q e) as [p|] eqn:Hq.
  - ar_step. eapply wp_mono; [by apply (send_ip_ok (p :: ext) nif p eth s2)|]. intros r s3 (_ & Hs3 & Ht3 & Hp3).
    ar_step. apply wp_on_pk. destruct Hs3 as [Hinv3 Hk3 Hf3 Hi3]. pose proof (ai_own _ _ Hinv3) as Hown3.
    eapply wp_mono; [apply (lk_free_ok _ (omap a_q (arp_table s3) ++ ext) p)|].
    { eapply lk_perm; [|exact Hown3]. by rewrite Permutation_middle. }
    intros n k [Hk Hr]. ar_step. exists [ip_frame nif p eth]. split.
    + split; simpl.
      * split; simpl; [exact Hk|apply Hinv3..].
      * intros q c Hin Hready. apply Hr; [apply elem_of_app; by right|]. apply Hk3; [by right|]. by apply Hk2, Hk1.
      * rewrite Hf3. simpl. by rewrite (proj1 Hq1).
      * rewrite Hi3. simpl. apply Hq1.
    + exists i, (arp_table s1). split; [done|]. right. split; [done|]. split; [done|]. exists e. by rewrite Hq.
  - ar_step. exists []. split.
    + replace (@nil frame) with (@nil frame ++ []) by done. eapply step_trans; [exact Hs1|].
      by split; [|done|rewrite app_nil_r|].
    + exists i, (arp_table s1). split; [done|]. right. split; [done|]. split; [done|]. exists e. by rewrite Hq.
Qed.

(** ** Asking for an address *)

Lemma inv_packets s ext ext' k :
  arp_inv s ext -> lk_inv k (omap a_q (arp_table s) ++ ext') -> arp_inv (set_a_packets k s) ext'.
Proof. intros [_ Hl He H1 Hc] Hk. by split. Qed.

Definition arp_request nif (p : ptr) (ip : Z) : frame :=
  Frame (num nif) p (EthHdr ethbroadcast (hwaddr nif) (lwip_htons ETHTYPE_ARP))
    (Some (EtharpHdr (lwip_htons HWTYPE_ETHERNET) (lwip_htons ETHTYPE_IP) ETHARP_HWADDR_LEN 4 (lwip_htons ARP_REQUEST)
             (hwaddr nif) (ip_addr nif) ethzero ip)).

(** A packet of ours is freed. *)
Lemma free_ours_ok ext p s (Q : Z -> arp S -> Prop) :
  arp_inv s (p :: ext) -> (forall n s', step ext [] s s' -> arp_table s' = arp_table s -> Q n s') ->
  wp (on_pk (lk_free p)) s Q.
Proof.
  intros Hinv HQ. apply wp_on_pk. pose proof (ai_own _ _ Hinv) as Hown.
  eapply wp_mono; [apply (lk_free_ok _ (omap a_q (arp_table s) ++ ext) p)|].
  { eapply lk_perm; [|exact Hown]. by rewrite Permutation_middle. }
  intros n k [Hk Hr]. apply HQ; [|done]. split; [by eapply inv_packets| |by rewrite app_nil_r|done].
  intros q c Hin Hready. apply Hr; [apply elem_of_app; by right|done].
Qed.

Lemma request_ok ext nif ip s :
  arp_inv s ext -> hwaddr_len nif = ETHARP_HWADDR_LEN ->
  wp (etharp_request linkoutput nif ip) s (fun r s' => arp_table s' = arp_table s /\
    ((r = ERR_MEM /\ step ext [] s s') \/
     exists p, r = linkoutput (frames s) (arp_request nif p ip) /\ step ext [arp_request nif p ip] s s')).
Proof.
  intros Hinv Hl. unfold etharp_request, etharp_raw. ar_step. apply wp_on_pk. pose proof (ai_own _ _ Hinv) as Hown.
  eapply wp_mono; [apply (lk_alloc_ok _ _ SIZEOF_ETHARP_PACKET Hown); vm_compute; split; discriminate|].
  intros o k [Hk Hr]. destruct o as [p|].
  - ar_step. apply wp_assert; [lia|]. ar_step. fold (arp_request nif p ip).
    assert (arp_inv (set_a_packets k s) (p :: ext)) as Hinv1.
    { eapply inv_packets; [exact Hinv|]. eapply lk_perm; [|exact Hk]. simpl. by rewrite Permutation_middle. }
    eapply wp_mono; [by apply link_out_ok|]. intros r s2 (-> & Hs2 & Ht2 & _). ar_step.
    eapply wp_mono; [apply step_inc, Hs2|]. intros _ s3 [Hs3 Ht3]. ar_step. apply (free_ours_ok ext); [apply Hs3|].
    intros n s4 Hs4 Ht4. ar_step. split; [by rewrite Ht4, Ht3, Ht2|]. right. exists p. split; [done|].
    destruct Hs2 as [_ Hk2 Hf2 Hi2], Hs3 as [_ Hk3 Hf3 Hi3], Hs4 as [Hinv4 Hk4 Hf4 Hi4]. split; [done| | |].
    + intros q c Hin Hready. apply Hk4; [done|]. apply Hk3; [by right|]. apply Hk2; [by right|]. apply Hr; [|done].
      apply elem_of_app. by right.
    + rewrite Hf4, Hf3, Hf2, !app_nil_r. done.
    + rewrite Hi4, Hi3, Hi2. done.
  - ar_step. assert (step ext [] s (set_a_packets k s)) as Hs.
    { split; [by eapply inv_packets| |by rewrite app_nil_r|done]. intros q c Hin. apply Hr, elem_of_app. by right. }
    eapply wp_mono; [apply step_inc, Hs|]. intros _ s1 [Hs1 Ht1]. ar_step. split; [done|]. left. split; [done|].
    exact (step_trans _ _ _ _ _ _ Hs Hs1).
Qed.

Lemma output_to_index_ok ext nif q i e s :
  arp_inv s ext -> hwaddr_len nif = ETHARP_HWADDR_LEN -> arp_table s !! Z.to_nat i = Some e -> 0 <= i ->
  stable (a_state e) = true ->
  wp (etharp_output_to_arp_index linkoutput nif q i) s (fun r s' => exists fs, step ext (fs ++ [ip_frame nif q (a_ethaddr e)]) s s').
Proof.
  intros Hinv Hl He Hi Hst. unfold etharp_output_to_arp_index. ar_step. apply (wp_rd_entry _ e); [done|done|].
  ar_step. apply wp_assert; [done|]. ar_step.
  assert (forall fs s1, step ext fs s s1 ->
    wp (etharp_send_ip linkoutput nif q (hwaddr nif) (a_ethaddr e)) s1
      (fun _ s' => exists fs, step ext (fs ++ [ip_frame nif q (a_ethaddr e)]) s s')) as Hsend.
  { intros fs s1 Hs1. eapply wp_mono; [apply (send_ip_ok ext), Hl; apply Hs1|]. intros r s2 (_ & Hs2 & _).
    exists fs. by eapply step_trans. }
  destruct (bool_decide (a_state e = ETHARP_STATE_STABLE) && (ARP_AGE_REREQUEST_USED <=? a_ctime e)) eqn:Hre.
  - apply andb_true_iff in Hre as [Hst1%bool_decide_eq_true _]. ar_step.
    eapply wp_mono; [by apply (request_ok ext)|]. intros r s1 (Ht1 & Hr).
    assert (exists fs, step ext fs s s1) as [fs Hs1] by (destruct Hr as [[_ ?]|(p & _ & ?)]; by eexists).
    destruct (r =? ERR_OK).
    + eapply wp_mono; [apply (write_ok s1 ext i e); [apply Hs1|by rewrite Ht1| |done|]|].
      * pose proof (entry_ok_at _ _ _ _ Hinv He) as (Hq & Hc & Ha). rewrite Hst1 in Ha. split; [|by split].
        intros Hne. specialize (Hq Hne). rewrite Hst1 in Hq. done.
      * intros _ j x Hj Hx Hne. rewrite Ht1 in Hx. intros E. apply Hj.
        apply (ai_each _ _ Hinv _ _ x e Hx He Hne); [by rewrite Hst1|done].
      * intros _ s2 (Hs2 & _). eapply Hsend. exact (step_trans _ _ _ _ _ _ Hs1 Hs2).
    + ar_step. by eapply Hsend.
  - ar_step. by eapply (Hsend []), step_refl.
Qed.

(** ** Resolving the address of a packet *)

Lemma inc_stat_ok ext fs k s0 s :
  step ext fs s0 s -> wp (arp_inc k) s (fun _ s' => step ext fs s0 s' /\ arp_table s' = arp_table s).
Proof.
  intros Hs. eapply wp_mono; [apply step_inc, Hs|]. intros _ s1 [Hs1 Ht1]. split; [|done].
  rewrite <- (app_nil_r fs). by eapply step_trans.
Qed.

(** Queueing a packet on the entry [i]; the one that was queued is freed. *)
Lemma queue_packet_ok ext i e q s :
  arp_inv s ext -> arp_table s !! Z.to_nat i = Some e -> 0 <= i -> a_state e = ETHARP_STATE_PENDING ->
  q ∈ ext -> lk_ready (a_packets s) q ->
  wp (queue_packet i q) s (fun r s' => arp_inv s' ext /\ frames s' = frames s /\ to_ip s' = to_ip s /\
    ((r = ERR_MEM /\ arp_table s' = arp_table s) \/
     exists p, r = ERR_OK /\ arp_table s' = <[Z.to_nat i := upd_a_q (Some p) e]> (arp_table s) /\
       forall d, lk_data (a_packets s) q d -> lk_data (a_packets s') p d)).
Proof.
  intros Hinv He Hi Hst Hq Hr. unfold queue_packet. ar_step. apply wp_on_pk. pose proof (ai_own _ _ Hinv) as Hown.
  eapply wp_mono; [apply (lk_keep_ok _ _ q Hown); [apply elem_of_app; by right|done]|]. intros o k [Hk Hkd].
  destruct o as [p|].
  - ar_step. apply (wp_rd_entry _ e); [done|done|]. ar_step.
    set (s1 := set_table (<[Z.to_nat i := upd_a_q (Some p) e]>) s).
    assert (entry_ok (upd_a_q (Some p) e)) as Hok.
    { pose proof (entry_ok_at _ _ _ _ Hinv He) as (_ & Hc & Ha). by split. }
    assert (empty (a_state (upd_a_q (Some p) e)) = false -> forall j x, j <> Z.to_nat i -> arp_table s !! j = Some x ->
      empty (a_state x) = false -> a_ipaddr x <> a_ipaddr (upd_a_q (Some p) e)) as Hone.
    { intros _ j x Hj Hx Hne E. apply Hj. apply (ai_each _ _ Hinv _ _ x e Hx He Hne); [by rewrite Hst|done]. }
    assert (forall k', lk_inv k' (option_list (Some p) ++ omap a_q (delete (Z.to_nat i) (arp_table s)) ++ ext) ->
      arp_inv (set_table (<[Z.to_nat i := upd_a_q (Some p) e]>) (set_a_packets k' s)) ext) as Hset.
    { intros k' Hk'. eapply (inv_set s ext ext _ e (upd_a_q (Some p) e) _ Hinv He Hok Hone); [exact Hk'|done|apply Hinv]. }
    destruct (a_q e) as [old|] eqn:Hqe.
    + ar_step. apply wp_on_pk. eapply wp_mono; [apply (lk_free_ok _ (p :: omap a_q (delete (Z.to_nat i) (arp_table s)) ++ ext) old)|].
      { eapply lk_perm; [|exact Hk]. rewrite (queued_split _ _ _ He), Hqe. simpl. apply perm_swap. }
      intros n k2 [Hk2 Hkd2]. ar_step. ar_step. ar_step. ar_step. split; [by apply Hset|]. split; [done|]. split; [done|].
      right. exists p. split; [done|]. split; [done|]. intros d Hd. apply Hkd2; [by left|]. by apply (Hkd p d eq_refl).
    + ar_step. ar_step. ar_step. ar_step. split; [|split; [done|split; [done|right; exists p; split; [done|]; split; [done|]; intros d; by apply Hkd]]].
      apply Hset. eapply lk_perm; [|exact Hk]. by rewrite (queued_split _ _ _ He), Hqe.
  - ar_step. apply wp_inc. intros s2 Hp2 Ht2 Hq2. ar_step. split; [|split; [apply Hq2|split; [apply Hq2|left; by rewrite Ht2]]].
    split; rewrite ?Ht2, ?Hp2; try apply Hinv; [exact Hk|]. rewrite (proj2 (proj2 Hq2)). apply Hinv.
Qed.

(** What etharp_query does with a packet; one that is queued is [kept]. *)
Definition query_spec nif (ip : Z) (q : option ptr) (kept : ptr -> Prop) (t t' : list etharp_entry) (r : Z) (fs : list frame) : Prop :=
  if unicast nif ip then
    exists i t1, find_spec ip ETHARP_FLAG_TRY_HARD t i t1 /\
      ((i = ERR_MEM /\ r = i /\ t' = t /\ fs = []) \/
       (0 <= i /\ exists e, t1 !! Z.to_nat i = Some e /\ a_ipaddr e = ip /\
          if stable (a_state e) then
            t' = t1 /\ match q with Some q => fs = [ip_frame nif q (a_ethaddr e)] | None => True end
          else
            (fs = [] \/ exists p, fs = [arp_request nif p ip]) /\
            match q with
            | Some _ =>
                (r = ERR_MEM /\ t' = <[Z.to_nat i := upd_a_state ETHARP_STATE_PENDING e]> t1) \/
                exists p, r = ERR_OK /\ t' = <[Z.to_nat i := upd_a_q (Some p) (upd_a_state ETHARP_STATE_PENDING e)]> t1 /\ kept p
            | None => t' = <[Z.to_nat i := upd_a_state ETHARP_STATE_PENDING e]> t1
            end))
  else r = ERR_ARG /\ t' = t /\ fs = [].

(** The entry found is marked as pending when it is fresh. *)
Lemma mark_pending_ok ext i e ip s :
  arp_inv s ext -> arp_table s !! Z.to_nat i = Some e -> 0 <= i -> a_ipaddr e = ip ->
  (a_state e = ETHARP_STATE_EMPTY -> a_ctime e = 0) ->
  (forall j x, j <> Z.to_nat i -> arp_table s !! j = Some x -> empty (a_state x) = false -> a_ipaddr x <> ip) ->
  wp (if empty (a_state e) then wr_entry i (upd_a_state ETHARP_STATE_PENDING e) else mret tt) s
    (fun _ s' => step ext [] s s' /\ a_packets s' = a_packets s /\
       arp_table s' = <[Z.to_nat i := if stable (a_state e) then e else upd_a_state ETHARP_STATE_PENDING e]> (arp_table s)).
Proof.
  intros Hinv He Hi Hip Hct Hother. pose proof (entry_ok_at _ _ _ _ Hinv He) as Hok.
  destruct (a_state e) eqn:Hst; cbn [empty stable].
  - eapply wp_mono; [apply (write_ok s ext i e); [done|done| |done|]|].
    + split; [done|]. simpl. rewrite (Hct eq_refl). unfold ARP_MAXPENDING. lia.
    + intros _. rewrite <- Hip in Hother. exact Hother.
    + intros _ s' (H1 & H2 & H3). done.
  - ar_step. split; [by apply step_refl|]. split; [done|]. symmetry. rewrite list_insert_id; [done|].
    rewrite He. f_equal. destruct e. simpl in *. by subst.
  - ar_step. split; [by apply step_refl|]. split; [done|]. by rewrite list_insert_id.
  - ar_step. split; [by apply step_refl|]. split; [done|]. by rewrite list_insert_id.
  - ar_step. split; [by apply step_refl|]. split; [done|]. by rewrite list_insert_id.
Qed.

Lemma find_spec_fresh ip flags t r t' i e :
  find_spec ip flags t r t' -> 0 <= r -> i = Z.to_nat r -> t' !! i = Some e -> a_state e = ETHARP_STATE_EMPTY ->
  a_ctime e = 0.
Proof.
  intros [(_ & -> & x & Hx & Hm)|(_ & [(-> & -> & _)|(_ & Hr & x & Hx & _ & _ & -> & _)])] Hr0 -> He Hst.
  - rewrite Hx in He. simplify_eq. unfold matches in Hm. by rewrite Hst in Hm.
  - unfold ERR_MEM in Hr0. lia.
  - rewrite list_lookup_insert_eq in He by (by eapply lookup_lt_Some). by simplify_eq.
Qed.

Lemma query_ok ext nif ip q s :
  arp_inv s ext -> hwaddr_len nif = ETHARP_HWADDR_LEN ->
  (forall p, q = Some p -> p ∈ ext /\ lk_ready (a_packets s) p) ->
  wp (etharp_query linkoutput nif ip q) s (fun r s' => arp_inv s' ext /\ to_ip s' = to_ip s /\
    exists fs, frames s' = frames s ++ fs /\
      query_spec nif ip q (fun k => forall p d, q = Some p -> lk_data (a_packets s) p d -> lk_data (a_packets s') k d) (arp_table s) (arp_table s') r fs).
Proof.
  intros Hinv Hl Hready. unfold etharp_query, query_spec, unicast.
  replace (nz (ip4_addr_isbroadcast ip nif) || ip_addr_ismulticast ip || (ip =? IPADDR_ANY))
    with ((ip =? IPADDR_ANY) || nz (ip4_addr_isbroadcast ip nif) || ip_addr_ismulticast ip)
    by (rewrite <- orb_assoc; apply orb_comm).
  destruct (_ || _); cbn [negb].
  { ar_step. split; [done|]. split; [done|]. exists []. by rewrite app_nil_r. }
  ar_step. eapply wp_mono; [by apply find_entry_ok|]. intros i s1 (Hinv1 & Hq1 & Hk1 & Hf).
  pose proof (step_quiet _ _ _ Hinv1 Hq1 Hk1) as Hs1.
  destruct (find_spec_cases _ _ _ _ _ Hf (ai_each _ _ Hinv)) as [(-> & Ht)|(Hi & e & He & Hip & Hother)].
  { change (ERR_MEM <? 0) with true. cbv iota. ar_step.
    eapply (wp_mono _ _ (fun _ s' => step ext [] s s' /\ arp_table s' = arp_table s1)).
    - destruct q; [by apply inc_stat_ok|by ar_step].
    - intros _ s2 [Hs2 Ht2]. ar_step. split; [apply Hs2|]. split; [apply Hs2|]. exists []. split; [apply Hs2|].
      exists ERR_MEM, (arp_table s1). split; [done|]. left. by rewrite Ht2. }
  rewrite (proj2 (Z.ltb_ge _ _)) by lia. ar_step. apply (wp_rd_entry _ e); [done|done|]. ar_step.
  eapply wp_mono; [apply (mark_pending_ok ext i e ip); try done; intros Hst; by eapply find_spec_fresh|].
  intros _ s2 (Hs2 & Hp2 & Ht2). set (e2 := if stable (a_state e) then e else _) in Ht2.
  assert (arp_table s2 !! Z.to_nat i = Some e2) as He2 by (rewrite Ht2; apply list_lookup_insert_eq; by eapply lookup_lt_Some).
  ar_step. apply (wp_rd_entry _ e2); [done|done|]. ar_step.
  assert (step ext [] s s2) as Hs02 by exact (step_trans _ _ _ _ _ _ Hs1 Hs2).
  assert (a_state e2 = ETHARP_STATE_PENDING /\ stable (a_state e) = false \/ e2 = e /\ stable (a_state e) = true) as Hcase.
  { unfold e2. destruct (stable (a_state e)) eqn:Hst; [by right|by left]. }
  eapply (wp_mono _ _ (fun r s3 => exists fs, step ext fs s s3 /\ arp_table s3 = arp_table s2 /\
    ((fs = [] \/ exists p, fs = [arp_request nif p ip]) /\ (stable (a_state e) = true -> q <> None -> fs = [])))).
  { destruct (bool_decide (a_state e2 = ETHARP_STATE_PENDING) || bool_decide (q = None)) eqn:Hreq.
    - eapply wp_mono; [apply (request_ok ext), Hl; apply Hs02|]. intros r s3 (Ht3 & Hr).
      assert (stable (a_state e) = true -> q <> None -> False) as Hno.
      { intros Hst Hqn. apply orb_true_iff in Hreq as [Hreq%bool_decide_eq_true|Hreq%bool_decide_eq_true]; [|done].
        destruct Hcase as [[_ Hst']|[-> _]]; [congruence|]. by rewrite Hreq in Hst. }
      destruct Hr as [[_ Hs3]|(p & _ & Hs3)].
      + exists []. split; [exact (step_trans _ _ _ _ _ _ Hs02 Hs3)|]. split; [done|]. split; [by left|done].
      + exists [arp_request nif p ip]. split; [exact (step_trans _ _ _ _ _ _ Hs02 Hs3)|]. split; [done|].
        split; [right; by exists p|]. intros Hst Hqn. by destruct (Hno Hst Hqn).
    - ar_step. exists []. split; [done|]. split; [done|]. split; [by left|done]. }
  intros r s3 (fs & Hs3 & Ht3 & Hfs & Hfs0). destruct q as [q|].
  2:{ ar_step. split; [apply Hs3|]. split; [apply Hs3|]. exists fs. split; [apply Hs3|]. exists i, (arp_table s1).
      split; [done|]. right. split; [done|]. exists e. split; [done|]. split; [done|]. rewrite Ht3, Ht2. unfold e2.
      destruct (stable (a_state e)); [by rewrite list_insert_id|]. done. }
  destruct (Hready q eq_refl) as [Hin Hrd]. destruct Hcase as [[Hst2 Hst]|[-> Hst]].
  - rewrite Hst2. cbn [stable]. rewrite bool_decide_true by done.
    eapply wp_mono; [apply (queue_packet_ok ext i e2 q s3); [apply Hs3|by rewrite Ht3|done|done|done|by apply Hs3]|].
    intros r' s4 (Hinv4 & Hf4 & Hi4 & Ho). split; [done|]. split; [rewrite Hi4; apply Hs3|]. exists fs.
    split; [rewrite Hf4; apply Hs3|]. exists i, (arp_table s1). split; [done|]. right. split; [done|]. exists e.
    split; [done|]. split; [done|]. rewrite Hst. split; [done|]. unfold e2 in *. rewrite Hst in *.
    destruct Ho as [[-> Ht4]|(p & -> & Ht4 & Hd4)]; [left; split; [done|by rewrite Ht4, Ht3]|right; exists p; split; [done|]].
    split; [by rewrite Ht4, Ht3, Ht2, list_insert_insert_eq|]. intros p' d [= <-] Hd. apply Hd4. by apply (st_keeps _ _ _ _ Hs3).
  - rewrite Hst. rewrite (Hfs0 Hst ltac:(done)) in Hs3. ar_step. ar_step.
    assert (arp_inv (set_cached i s3) ext) as Hinv3.
    { pose proof (st_inv _ _ _ _ Hs3) as Hi3. split; try apply Hi3. simpl. apply lookup_lt_Some in He.
      pose proof (ai_len _ _ Hinv1) as Hl1. unfold zlen in Hl1. lia. }
    eapply wp_mono; [by apply (send_ip_ok ext nif q (a_ethaddr e) (set_cached i s3))|].
    intros r' s4 (_ & Hs4 & Ht4 & _). split; [apply Hs4|]. split; [rewrite (st_to_ip _ _ _ _ Hs4); apply Hs3|].
    exists [ip_frame nif q (a_ethaddr e)]. split.
    { rewrite (st_frames _ _ _ _ Hs4). simpl. by rewrite (st_frames _ _ _ _ Hs3), app_nil_r. }
    exists i, (arp_table s1). split; [done|]. right. split; [done|]. exists e. split; [done|]. split; [done|].
    rewrite Hst. split; [|done]. rewrite Ht4. simpl. rewrite Ht3, Ht2. by rewrite list_insert_id.
Qed.

(** ** Output *)

Lemma find_stable_ok dst es : forall pre,
  (forall j e, pre !! j = Some e -> stable (a_state e) && (dst =? a_ipaddr e) = false) ->
  match find_stable es (zlen pre) dst with
  | Some i => 0 <= i /\ exists e, (pre ++ es) !! Z.to_nat i = Some e /\ stable (a_state e) = true /\ a_ipaddr e = dst
  | None => forall j e, (pre ++ es) !! j = Some e -> stable (a_state e) && (dst =? a_ipaddr e) = false
  end.
Proof.
  induction es as [|e es IH]; intros pre Hn; cbn [find_stable]; [by rewrite app_nil_r|].
  destruct (stable (a_state e) && (dst =? a_ipaddr e)) eqn:Hm.
  - apply andb_true_iff in Hm as [Hst Hip%Z.eqb_eq]. split; [apply zlen_nonneg|]. exists e.
    split; [unfold zlen; rewrite Nat2Z.id; by apply list_lookup_middle|done].
  - rewrite (cons_middle e), app_assoc. replace (zlen pre + 1) with (zlen (pre ++ [e])) by (rewrite zlen_app; done).
    apply IH. intros j x [Hx|[_ ->]]%lookup_snoc_inv; [by eapply Hn|done].
Qed.

(** The frames for a packet to a host of the link. *)
Definition unicast_spec nif (q : ptr) (dst : Z) (t t' : list etharp_entry) (r : Z) (fs : list frame) : Prop :=
  (exists i e, t !! i = Some e /\ stable (a_state e) = true /\ a_ipaddr e = dst /\
     exists asked, fs = asked ++ [ip_frame nif q (a_ethaddr e)]) \/
  ((forall j e, t !! j = Some e -> stable (a_state e) && (dst =? a_ipaddr e) = false) /\
   exists kept, query_spec nif dst (Some q) kept t t' r fs).

Lemma output_unicast_ok ext nif q dst s :
  arp_inv s ext -> hwaddr_len nif = ETHARP_HWADDR_LEN -> q ∈ ext -> lk_ready (a_packets s) q ->
  wp (output_unicast linkoutput nif q dst) s (fun r s' => arp_inv s' ext /\ to_ip s' = to_ip s /\
    exists fs, frames s' = frames s ++ fs /\ unicast_spec nif q dst (arp_table s) (arp_table s') r fs).
Proof.
  intros Hinv Hl Hin Hready. pose proof (ai_cached _ _ Hinv) as Hc. pose proof (ai_len _ _ Hinv) as Hlen.
  unfold output_unicast. ar_step. ar_step. ar_step.
  destruct (lookup_lt_is_Some_2 (arp_table s) (Z.to_nat (etharp_cached_entry s))) as [c Hce]; [unfold zlen in Hlen; lia|].
  apply (wp_rd_entry _ c); [done|lia|]. cbv beta.
  assert (forall i e s1, arp_inv s1 ext -> arp_table s1 = arp_table s -> frames s1 = frames s -> to_ip s1 = to_ip s ->
    0 <= i -> arp_table s !! Z.to_nat i = Some e -> stable (a_state e) = true -> a_ipaddr e = dst ->
    wp (etharp_output_to_arp_index linkoutput nif q i) s1 (fun r s' => arp_inv s' ext /\ to_ip s' = to_ip s /\
      exists fs, frames s' = frames s ++ fs /\ unicast_spec nif q dst (arp_table s) (arp_table s') r fs)) as Hidx.
  { intros i e s1 Hinv1 Ht1 Hf1 Hi1 Hi He Hst Hip. rewrite <- Ht1 in He.
    eapply wp_mono; [by apply (output_to_index_ok ext nif q i e)|]. intros r s2 (fs & Hs2). split; [apply Hs2|].
    split; [rewrite (st_to_ip _ _ _ _ Hs2); done|]. eexists. split; [rewrite (st_frames _ _ _ _ Hs2), Hf1; done|].
    left. exists (Z.to_nat i), e. split; [by rewrite <- Ht1|]. split; [done|]. split; [done|]. by exists fs. }
  destruct (stable (a_state c) && (dst =? a_ipaddr c)) eqn:Hm.
  - apply andb_true_iff in Hm as [Hst Hip%Z.eqb_eq]. ar_step.
    eapply wp_mono; [by apply step_inc|]. intros _ s1 [Hs1 Ht1].
    apply (Hidx _ c); try done; [apply Hs1|rewrite (st_frames _ _ _ _ Hs1); by rewrite app_nil_r|apply Hs1|lia].
  - pose proof (find_stable_ok dst (arp_table s) [] ltac:(by intros j e He)) as Hfs. simpl app in Hfs. change (zlen []) with 0 in Hfs.
    destruct (find_stable (arp_table s) 0 dst) as [i|].
    + destruct Hfs as (Hi & e & He & Hst & Hip). ar_step. ar_step.
      apply (Hidx i e); try done. split; try apply Hinv. simpl. apply lookup_lt_Some in He. unfold zlen in Hlen. lia.
    + eapply wp_mono; [apply (query_ok ext nif dst (Some q)); [done|done|by intros p [= <-]]|].
      intros r s1 (Hinv1 & Hi1 & fs & Hf1 & Hq1). split; [done|]. split; [done|]. exists fs. split; [done|]. right.
      split; [done|]. by eexists.
Qed.

(** Where etharp_output sends a packet. *)
Definition output_spec nif (q : ptr) (ip : Z) (t t' : list etharp_entry) (r : Z) (fs : list frame) : Prop :=
  if nz (ip4_addr_isbroadcast ip nif) then t' = t /\ fs = [ip_frame nif q ethbroadcast]
  else if ip_addr_ismulticast ip then t' = t /\ fs = [ip_frame nif q (mcastaddr ip)]
  else if ip_addr_netcmp ip (ip_addr nif) (netmask nif) || ip_addr_islinklocal ip then unicast_spec nif q ip t t' r fs
  else if gw nif =? IPADDR_ANY then r = ERR_RTE /\ t' = t /\ fs = []
  else unicast_spec nif q (gw nif) t t' r fs.

Lemma output_ok ext nif q ip s :
  arp_inv s ext -> hwaddr_len nif = ETHARP_HWADDR_LEN -> q ∈ ext -> lk_ready (a_packets s) q ->
  lk_room (a_packets s) q SIZEOF_ETH_HDR ->
  wp (etharp_output linkoutput nif q ip) s (fun r s' => arp_inv s' ext /\ to_ip s' = to_ip s /\
    exists fs, frames s' = frames s ++ fs /\
      ((r = ERR_BUF /\ arp_table s' = arp_table s /\ fs = []) \/ output_spec nif q ip (arp_table s) (arp_table s') r fs)).
Proof.
  intros Hinv Hl Hin Hready Hroom. unfold etharp_output. ar_step. apply wp_on_pk.
  eapply wp_mono; [apply (lk_header_ok _ _ q _ (ai_own _ _ Hinv)); [apply elem_of_app; by right|done]|].
  intros h k (_ & Hk & Hr). cbv beta. specialize (Hr ltac:(done) Hready). pose proof (inv_packets _ _ ext _ Hinv Hk) as Hinv1.
  set (s1 := set_a_packets k s) in *. destruct (negb (h =? 0)).
  { ar_step. eapply wp_mono; [by apply (step_inc ext)|]. intros _ s2 [Hs2 Ht2]. ar_step. split; [apply Hs2|].
    split; [apply Hs2|]. exists []. split; [apply Hs2|]. left. by rewrite Ht2. }
  assert (forall dst, wp (etharp_send_ip linkoutput nif q (hwaddr nif) dst) s1 (fun r s' => arp_inv s' ext /\ to_ip s' = to_ip s /\
    exists fs, frames s' = frames s ++ fs /\ arp_table s' = arp_table s /\ fs = [ip_frame nif q dst])) as Hsend.
  { intros dst. eapply wp_mono; [by apply (send_ip_ok ext)|]. intros r s2 (_ & Hs2 & Ht2 & _). split; [apply Hs2|].
    split; [apply Hs2|]. exists [ip_frame nif q dst]. split; [apply Hs2|]. by rewrite Ht2. }
  assert (forall dst, wp (output_unicast linkoutput nif q dst) s1 (fun r s' => arp_inv s' ext /\ to_ip s' = to_ip s /\
    exists fs, frames s' = frames s ++ fs /\ unicast_spec nif q dst (arp_table s) (arp_table s') r fs)) as Huni.
  { intros dst. by apply (output_unicast_ok ext nif q dst s1). }
  unfold output_spec.
  destruct (nz (ip4_addr_isbroadcast ip nif)).
  { eapply wp_mono; [apply Hsend|]. intros r s2 (? & ? & fs & ? & ? & ?). split; [done|]. split; [done|].
    exists fs. split; [done|]. by right. }
  destruct (ip_addr_ismulticast ip).
  { eapply wp_mono; [apply Hsend|]. intros r s2 (? & ? & fs & ? & ? & ?). split; [done|]. split; [done|].
    exists fs. split; [done|]. by right. }
  rewrite <- negb_orb. destruct (ip_addr_netcmp ip (ip_addr nif) (netmask nif) || ip_addr_islinklocal ip); cbn [negb].
  { eapply wp_mono; [apply Huni|]. intros r s2 (? & ? & fs & ? & ?). split; [done|]. split; [done|].
    exists fs. split; [done|]. by right. }
  destruct (gw nif =? IPADDR_ANY); cbn [negb].
  { ar_step. split; [done|]. split; [done|]. exists []. split; [by rewrite app_nil_r|]. by right. }
  eapply wp_mono; [apply Huni|]. intros r s2 (? & ? & fs & ? & ?). split; [done|]. split; [done|].
  exists fs. split; [done|]. by right.
Qed.

(** ** Input *)

Definition arp_reply nif (p : ptr) (ethhdr : eth_hdr) (hdr : etharp_hdr) : frame :=
  Frame (num nif) p (EthHdr (shwaddr hdr) (hwaddr nif) (eth_type ethhdr))
    (Some (EtharpHdr (hwtype hdr) (proto hdr) (hwlen hdr) (protolen hdr) (lwip_htons ARP_REPLY)
             (hwaddr nif) (ip_addr nif) (shwaddr hdr) (sipaddr hdr))).

(** Is a received message an ARP message for IPv4 over Ethernet? *)
Definition well_formed (plen : Z) (hdr : etharp_hdr) : bool :=
  (SIZEOF_ETHARP_PACKET <=? plen) && (hwtype hdr =? lwip_htons HWTYPE_ETHERNET) && (hwlen hdr =? ETHARP_HWADDR_LEN) &&
  (protolen hdr =? 4) && (proto hdr =? lwip_htons ETHTYPE_IP).

Definition for_us nif (hdr : etharp_hdr) : bool := negb (ip_addr nif =? IPADDR_ANY) && (dipaddr hdr =? ip_addr nif).

(** What a received message does: the sender is entered (updated, when the message
    is not for us), a packet queued for it is sent, and a request for our address
    answered. *)
Definition input_spec nif (p : ptr) (plen : Z) (ethhdr : eth_hdr) (hdr : etharp_hdr) (t t' : list etharp_entry)
    (fs : list frame) : Prop :=
  if well_formed plen hdr then
    exists r fs1, update_spec nif (sipaddr hdr) (shwaddr hdr) (if for_us nif hdr then ETHARP_FLAG_TRY_HARD else ETHARP_FLAG_FIND_ONLY)
        t r t' fs1 /\
      fs = fs1 ++ (if (opcode hdr =? lwip_htons ARP_REQUEST) && for_us nif hdr then [arp_reply nif p ethhdr hdr] else [])
  else t' = t /\ fs = [].

Lemma step_drop ext p fs s0 s (Q : Z -> arp S -> Prop) :
  step (p :: ext) fs s0 s -> (forall n s', step ext fs s0 s' -> arp_table s' = arp_table s -> Q n s') ->
  wp (on_pk (lk_free p)) s Q.
Proof.
  intros Hs HQ. apply (free_ours_ok ext); [apply Hs|]. intros n s' Hs' Ht'. apply HQ; [|done].
  destruct Hs as [_ Hk Hf Hi], Hs' as [Hinv' Hk' Hf' Hi']. split; [done| |by rewrite Hf', app_nil_r|congruence].
  intros q c Hin Hr. apply Hk'; [done|]. apply Hk; [by right|done].
Qed.

Lemma arp_input_ok ext nif p plen ethhdr hdr s :
  arp_inv s (p :: ext) -> hwaddr_len nif = ETHARP_HWADDR_LEN ->
  wp (etharp_arp_input linkoutput nif (hwaddr nif) p plen ethhdr hdr) s (fun _ s' => exists fs, step ext fs s s' /\
    input_spec nif p plen ethhdr hdr (arp_table s) (arp_table s') fs).
Proof.
  intros Hinv Hl. unfold etharp_arp_input, input_spec, well_formed. pose proof (step_refl _ _ Hinv) as Hs0.
  assert (forall k1 k2, wp (arp_inc k1;; arp_inc k2;; on_pk (lk_free p);; mret tt) s (fun _ s' => exists fs, step ext fs s s' /\
    arp_table s' = arp_table s /\ fs = [])) as Hdrop.
  { intros k1 k2. ar_step. eapply wp_mono; [by apply (inc_stat_ok _ _ _ _ _ Hs0)|]. intros _ s1 [Hs1 Ht1]. ar_step.
    eapply wp_mono; [by apply (inc_stat_ok _ _ _ _ _ Hs1)|]. intros _ s2 [Hs2 Ht2]. ar_step.
    apply (step_drop ext p [] s); [done|]. intros n s3 Hs3 Ht3. ar_step. exists []. split; [done|]. split; [congruence|done]. }
  rewrite Z.leb_antisym. destruct (plen <? SIZEOF_ETHARP_PACKET); cbn [negb andb]; [apply Hdrop|].
  replace ((hwtype hdr =? lwip_htons HWTYPE_ETHERNET) && (hwlen hdr =? ETHARP_HWADDR_LEN) && (protolen hdr =? 4) &&
    (proto hdr =? lwip_htons ETHTYPE_IP)) with (negb (negb (hwtype hdr =? lwip_htons HWTYPE_ETHERNET) ||
    negb (hwlen hdr =? ETHARP_HWADDR_LEN) || negb (protolen hdr =? 4) || negb (proto hdr =? lwip_htons ETHTYPE_IP)))
    by (by rewrite !negb_orb, !negb_involutive).
  destruct (_ || _); cbn [negb]; [apply Hdrop|].
  ar_step. eapply wp_mono; [by apply (inc_stat_ok _ _ _ _ _ Hs0)|]. intros _ s1 [Hs1 Ht1]. cbv beta zeta.
  replace (if ip_addr nif =? IPADDR_ANY then false else dipaddr hdr =? ip_addr nif) with (for_us nif hdr)
    by (unfold for_us; by destruct (ip_addr nif =? IPADDR_ANY)).
  apply wp_bind. eapply wp_mono; [apply (update_ok (p :: ext)), Hl; apply Hs1|].
  intros r s2 (fs1 & Hs2 & Hu). rewrite Ht1 in Hu. pose proof (step_trans _ _ _ _ _ _ Hs1 Hs2) as Hs02. simpl app in Hs02.
  set (answer := if (opcode hdr =? lwip_htons ARP_REQUEST) && for_us nif hdr then [arp_reply nif p ethhdr hdr] else []).
  cbv beta. apply wp_bind. eapply (wp_mono _ _ (fun _ s3 => step (p :: ext) (fs1 ++ answer) s s3 /\ arp_table s3 = arp_table s2)).
  - unfold answer. destruct (opcode hdr =? lwip_htons ARP_REQUEST); cbn [andb].
    + destruct (for_us nif hdr); [|ar_step; by rewrite app_nil_r]. ar_step. apply wp_assert; [lia|]. ar_step.
      eapply wp_mono; [apply (link_out_ok (p :: ext)), Hs02|]. intros r' s3 (_ & Hs3 & Ht3 & _). ar_step.
      split; [|done]. exact (step_trans _ _ _ _ _ _ Hs02 Hs3).
    + rewrite app_nil_r. destruct (opcode hdr =? lwip_htons ARP_REPLY); [by ar_step|by apply inc_stat_ok].
  - intros _ s3 [Hs3 Ht3]. ar_step. apply (step_drop ext p (fs1 ++ answer) s); [done|]. intros n s4 Hs4 Ht4. ar_step.
    exists (fs1 ++ answer). split; [done|]. exists r, fs1. split; [by rewrite Ht4, Ht3|done].
Qed.

Lemma ethernet_input_ok ext nif p plen flags ethhdr hdr s :
  arp_inv s (p :: ext) -> hwaddr_len nif = ETHARP_HWADDR_LEN ->
  (SIZEOF_ETH_HDR < plen -> lk_room (a_packets s) p (- SIZEOF_ETH_HDR)) ->
  wp (ethernet_input linkoutput p plen flags ethhdr hdr nif) s (fun r s' => r = ERR_OK /\
    (arp_inv s' ext \/ arp_inv s' (p :: ext) /\ to_ip s' = to_ip s ++ [(p, ll_flags (eth_dest ethhdr) flags)])).
Proof.
  intros Hinv Hl Hroom. unfold ethernet_input. pose proof (step_refl _ _ Hinv) as Hs0.
  assert (wp (on_pk (lk_free p);; mret ERR_OK) s (fun r s' => r = ERR_OK /\
    (arp_inv s' ext \/ arp_inv s' (p :: ext) /\ to_ip s' = to_ip s ++ [(p, ll_flags (eth_dest ethhdr) flags)]))) as Hfree.
  { ar_step. apply (step_drop ext p [] s); [done|]. intros n s1 Hs1 _. ar_step. split; [done|]. left. apply Hs1. }
  assert (wp (arp_inc Aproterr;; arp_inc Adrop;; on_pk (lk_free p);; mret ERR_OK) s (fun r s' => r = ERR_OK /\
    (arp_inv s' ext \/ arp_inv s' (p :: ext) /\ to_ip s' = to_ip s ++ [(p, ll_flags (eth_dest ethhdr) flags)]))) as Hdrop.
  { ar_step. eapply wp_mono; [by apply (inc_stat_ok _ _ _ _ _ Hs0)|]. intros _ s1 [Hs1 _]. ar_step.
    eapply wp_mono; [by apply (inc_stat_ok _ _ _ _ _ Hs1)|]. intros _ s2 [Hs2 _]. ar_step.
    apply (step_drop ext p [] s); [done|]. intros n s3 Hs3 _. ar_step. split; [done|]. left. apply Hs3. }
  destruct (Z.leb_spec plen SIZEOF_ETH_HDR) as [Hle|Hgt]; [exact Hdrop|]. cbv zeta.
  destruct (eth_type ethhdr =? lwip_htons ETHTYPE_IP).
  - destruct (Z.land (netif_flags nif) NETIF_FLAG_ETHARP =? 0); [exact Hfree|]. ar_step. apply wp_on_pk.
    destruct (lk_header_ok _ (omap a_q (arp_table s) ++ p :: ext) p (- SIZEOF_ETH_HDR) (ai_own _ _ Hinv)) as (r & k & E & Hr0 & Hk & _);
      [apply elem_of_app; right; by left|by apply Hroom|].
    exists r, k. split; [exact E|]. rewrite Hr0 by done. ar_step. apply wp_assert; [done|]. ar_step. apply wp_modify. ar_step.
    split; [done|]. right. split; [|done]. pose proof (inv_packets _ _ (p :: ext) _ Hinv Hk) as Hi1. by destruct Hi1.
  - destruct (eth_type ethhdr =? lwip_htons ETHTYPE_ARP); [|exact Hdrop].
    destruct (Z.land (netif_flags nif) NETIF_FLAG_ETHARP =? 0); [exact Hfree|]. ar_step.
    eapply wp_mono; [by apply (arp_input_ok ext)|]. intros _ s1 (fs & Hs1 & _). ar_step. split; [done|]. left. apply Hs1.
Qed.

(** ** Removing entries *)

Lemma remove_static_ok ext ip s :
  arp_inv s ext -> wp (etharp_remove_static_entry ip) s (fun _ s' => arp_inv s' ext).
Proof.
  intros Hinv. unfold etharp_remove_static_entry. ar_step. eapply wp_mono; [by apply find_entry_ok|].
  intros i s1 (Hinv1 & _ & _ & Hf).
  destruct (find_spec_cases _ _ _ _ _ Hf (ai_each _ _ Hinv)) as [(-> & Ht)|(Hi & e & He & _ & _)].
  { change (ERR_MEM <? 0) with true. cbv iota. by ar_step. }
  rewrite (proj2 (Z.ltb_ge _ _)) by lia. ar_step. apply (wp_rd_entry _ e); [done|done|].
  destruct (negb _); [by ar_step|]. ar_step. eapply wp_mono; [by apply (free_entry_ok s1 ext i e)|].
  intros _ s2 (Hinv2 & _). by ar_step.
Qed.

Lemma at_index s ext i : arp_inv s ext -> 0 <= i < ARP_TABLE_SIZE -> exists e, arp_table s !! Z.to_nat i = Some e.
Proof. intros Hinv Hi. apply lookup_lt_is_Some_2. pose proof (ai_len _ _ Hinv) as Hl. unfold zlen in Hl. lia. Qed.

Lemma cleanup_ok ext m n : forall i s,
  arp_inv s ext -> 0 <= i -> i + Z.of_nat n <= ARP_TABLE_SIZE ->
  wp (cleanup_loop n i m) s (fun _ s' => arp_inv s' ext /\ frames s' = frames s).
Proof.
  induction n as [|n IH]; intros i s Hinv Hi Hn; cbn [cleanup_loop]; [by ar_step|].
  destruct (at_index s ext i Hinv ltac:(lia)) as [e He]. ar_step. apply (wp_rd_entry _ e); [done|done|]. ar_step.
  destruct (_ && _).
  - eapply wp_mono; [by apply (free_entry_ok s ext i e)|]. intros _ s1 (Hinv1 & Hq1 & _). cbv beta.
    eapply wp_mono; [by apply (IH (i + 1) s1); [|lia|lia]|]. intros _ s2 [H1 H2]. split; [done|]. by rewrite H2, (proj1 Hq1).
  - ar_step. by apply IH; [|lia|lia].
Qed.

(** ** The timer *)

(** An entry after a tick. *)
Definition ticked (e : etharp_entry) : etharp_entry :=
  match a_state e with
  | ETHARP_STATE_EMPTY | ETHARP_STATE_STATIC => e
  | ETHARP_STATE_PENDING =>
      if ARP_MAXPENDING <=? a_ctime e + 1 then freed (upd_a_ctime (a_ctime e + 1) e) else upd_a_ctime (a_ctime e + 1) e
  | _ =>
      if ARP_MAXAGE <=? a_ctime e + 1 then freed (upd_a_ctime (a_ctime e + 1) e)
      else upd_a_state ETHARP_STATE_STABLE (upd_a_ctime (a_ctime e + 1) e)
  end.

(** The entry is rewritten and freed. *)
Lemma age_out_ok s ext i e e1 :
  arp_inv s ext -> arp_table s !! Z.to_nat i = Some e -> 0 <= i -> a_q e1 = a_q e -> entry_ok (freed e1) ->
  wp (wr_entry i e1;; etharp_free_entry i) s (fun _ s' => arp_inv s' ext /\ quiet s s' /\
    arp_table s' = <[Z.to_nat i := freed e1]> (arp_table s)).
Proof.
  intros Hinv He Hi Hq Hok. ar_step. ar_step. unfold etharp_free_entry. ar_step. set (s1 := set_table _ s).
  pose proof (lookup_lt_Some _ _ _ He) as Hlt.
  apply (wp_rd_entry _ e1); [by apply list_lookup_insert_eq|done|]. pose proof (own_split _ _ _ _ Hinv He) as Hown.
  assert (forall k, lk_inv k (option_list (a_q (freed e1)) ++ omap a_q (delete (Z.to_nat i) (arp_table s)) ++ ext) ->
    arp_inv (set_table (<[Z.to_nat i := freed e1]>) (set_a_packets k s1)) ext) as Hset.
  { intros k Hk. eapply (inv_set s ext ext _ e (freed e1) _ Hinv He Hok); [done|exact Hk| |apply Hinv].
    simpl. by rewrite list_insert_insert_eq. }
  rewrite Hq. ar_step. destruct (a_q e) as [p|]; simpl in Hown.
  - ar_step. apply wp_on_pk. eapply wp_mono; [by apply lk_free_ok|]. intros _ k [Hk Hr]. ar_step. ar_step.
    split; [by apply Hset|]. split; [done|]. simpl. by rewrite list_insert_insert_eq.
  - ar_step. ar_step. split; [exact (Hset (a_packets s) Hown)|]. split; [done|]. simpl. by rewrite list_insert_insert_eq.
Qed.

Lemma tmr_entry_ok s ext i e :
  arp_inv s ext -> arp_table s !! Z.to_nat i = Some e -> 0 <= i ->
  wp (match a_state e with
      | ETHARP_STATE_EMPTY | ETHARP_STATE_STATIC => mret tt
      | st =>
          let e := upd_a_ctime (u8 (a_ctime e + 1)) e in
          wr_entry i e;;
          if (ARP_MAXAGE <=? a_ctime e) || (bool_decide (st = ETHARP_STATE_PENDING) && (ARP_MAXPENDING <=? a_ctime e))
          then etharp_free_entry i
          else if bool_decide (st = ETHARP_STATE_STABLE_REREQUESTING)
          then wr_entry i (upd_a_state ETHARP_STATE_STABLE e)
          else mret tt
      end) s (fun _ s1 => arp_inv s1 ext /\ quiet s s1 /\ arp_table s1 = <[Z.to_nat i := ticked e]> (arp_table s)).
Proof.
  intros Hinv He Hi. pose proof (entry_ok_at _ _ _ _ Hinv He) as (Hq & Hc & Ha). unfold ticked.
  assert (entry_ok (freed (upd_a_ctime (a_ctime e + 1) e))) as Hfr by (split; [done|split; [simpl; lia|done]]).
  assert (forall e', entry_ok e' -> a_q e' = a_q e -> a_ipaddr e' = a_ipaddr e -> empty (a_state e) = false ->
    forall s1, s1 = set_table (<[Z.to_nat i := e']>) s ->
    arp_inv s1 ext /\ quiet s s1 /\ arp_table s1 = <[Z.to_nat i := e']> (arp_table s)) as Hset.
  { intros e' Hok Hq' Hip Hne s1 ->. split; [|done]. eapply (inv_set s ext ext _ e e' _ Hinv He Hok); [| |done|apply Hinv].
    - intros _ j x Hj Hx Hnx E. apply Hj. apply (ai_each _ _ Hinv _ _ x e Hx He Hnx Hne). congruence.
    - simpl. rewrite Hq'. by apply own_split. }
  assert (entry_ok e) as Hoke by done.
  destruct (a_state e) eqn:Hst; cbv zeta.
  - ar_step. split; [done|]. split; [done|]. by rewrite list_insert_id.
  - rewrite (u8_id (a_ctime e + 1)) by (unfold is_u8, ARP_MAXPENDING in *; lia). cbn [a_ctime upd_a_ctime].
    rewrite bool_decide_true by done. cbn [andb]. replace (ARP_MAXAGE <=? a_ctime e + 1) with false
      by (unfold ARP_MAXAGE, ARP_MAXPENDING in *; lia). cbn [orb].
    destruct (Z.leb_spec ARP_MAXPENDING (a_ctime e + 1)) as [Hle|Hgt].
    + by apply (age_out_ok s ext i e).
    + ar_step. ar_step. rewrite bool_decide_false by done. ar_step. apply Hset; try done.
      split; [simpl; by rewrite Hst|]. split; [simpl; lia|]. simpl. rewrite Hst. done.
  - rewrite (u8_id (a_ctime e + 1)) by (unfold is_u8, ARP_MAXAGE in *; lia). cbn [a_ctime upd_a_ctime].
    rewrite bool_decide_false by done. cbn [andb]. rewrite orb_false_r.
    destruct (Z.leb_spec ARP_MAXAGE (a_ctime e + 1)) as [Hle|Hgt].
    + by apply (age_out_ok s ext i e).
    + ar_step. ar_step. rewrite bool_decide_false by done. ar_step. apply Hset; try done.
      * split; [|split; [simpl; lia|done]]. intros Hn. specialize (Hq Hn). done.
      * f_equal. f_equal. destruct e. simpl in *. by subst.
  - rewrite (u8_id (a_ctime e + 1)) by (unfold is_u8, ARP_MAXAGE in *; lia). cbn [a_ctime upd_a_ctime].
    rewrite bool_decide_false by done. cbn [andb]. rewrite orb_false_r.
    destruct (Z.leb_spec ARP_MAXAGE (a_ctime e + 1)) as [Hle|Hgt].
    + by apply (age_out_ok s ext i e).
    + ar_step. ar_step. rewrite bool_decide_true by done. ar_step. apply Hset; try done.
      * split; [|split; [simpl; lia|done]]. intros Hn. specialize (Hq Hn). done.
      * unfold set_table. simpl. by rewrite list_insert_insert_eq.
  - ar_step. split; [done|]. split; [done|]. by rewrite list_insert_id.
Qed.

Lemma tmr_loop_ok ext n : forall i s,
  arp_inv s ext -> 0 <= i -> i + Z.of_nat n = ARP_TABLE_SIZE ->
  wp (tmr_loop n i) s (fun _ s' => arp_inv s' ext /\ quiet s s' /\
    arp_table s' = take (Z.to_nat i) (arp_table s) ++ (ticked <$> list.drop (Z.to_nat i) (arp_table s))).
Proof.
  induction n as [|n IH]; intros i s Hinv Hi Hn; cbn [tmr_loop].
  - ar_step. split; [done|]. split; [done|]. pose proof (ai_len _ _ Hinv) as Hl.
    assert (length (arp_table s) <= Z.to_nat i)%nat by (unfold zlen in Hl; lia).
    rewrite drop_ge, take_ge by done. simpl. by rewrite app_nil_r.
  - destruct (at_index s ext i Hinv ltac:(lia)) as [e He]. ar_step. apply (wp_rd_entry _ e); [done|done|]. cbv beta.
    apply wp_bind. eapply wp_mono; [by apply (tmr_entry_ok s ext i e)|]. intros _ s1 (Hinv1 & Hq1 & Ht1). eapply wp_mono; [by apply (IH (i + 1) s1); [|lia|lia]|].
    intros _ s2 (Hinv2 & Hq2 & Ht2). split; [done|]. split; [by eapply quiet_trans|]. rewrite Ht2, Ht1.
    replace (Z.to_nat (i + 1)) with (Datatypes.S (Z.to_nat i)) by lia.
    pose proof (lookup_lt_Some _ _ _ He) as Hlt.
    rewrite (take_S_r _ _ (ticked e)) by (by apply list_lookup_insert_eq). rewrite take_insert_ge by lia.
    rewrite drop_insert_lt by lia. rewrite (drop_S _ _ _ He). by rewrite fmap_cons, <- app_assoc.
Qed.
End ops.
