(* ===== verification/EtharpSpec.v ===== *)
(** * What the ARP module promises

    The choice of entries, the safety of every call, the resolution of an address
    as a whole, where outgoing packets go, and the ageing of the table. *)

From S2P Require Import Prelude ByteOrder Alloc Pbuf PbufData IpAddr Etharp EtharpTable EtharpOps.

Section spec.
Context {S : Type} `{LinkPacketsSpec S}.
Context (linkoutput : list frame -> frame -> Z).
Context (ip_route : Z -> option netif).
Implicit Types (s : arp S) (ext : list ptr) (nif : netif).

(** Etharp_find_entry returns and keeps the invariant.  It gives the entry of
    the address, whatever else is in the table; without one it gives ERR_MEM when it
    may not create one, and else claims, for the address, the first empty entry, or
    the oldest stable one, or the oldest pending one without a packet, or the oldest
    pending one with a packet, in this order, freeing what was queued there.  Static
    entries are never taken. *)
Theorem etharp_find_entry_chooses ext ip flags s :
  arp_inv s ext ->
  exists r s', etharp_find_entry (Some ip) flags s = Done (r, s') /\ arp_inv s' ext /\ frames s' = frames s /\
    find_spec ip flags (arp_table s) r (arp_table s').
Proof.
  intros Hinv. destruct (find_entry_ok s ext ip flags Hinv) as (r & s' & E & Hinv' & (Hf & _) & _ & Hs).
  by exists r, s'.
Qed.

(** ** Calls *)

(** What the stack and the driver call. *)
Inductive arp_call :=
| CTmr
| COutput (nif : netif) (q : ptr) (ip : Z)
| CQuery (nif : netif) (ip : Z) (q : option ptr)
| CAddStatic (ip : Z) (eth : eth_addr)
| CRemoveStatic (ip : Z)
| CCleanup (m : Z)
| CFindAddr (ip : Z)
| CInput (p : ptr) (plen flags : Z) (ethhdr : eth_hdr) (hdr : etharp_hdr) (nif : netif).

Definition run_call (c : arp_call) : M (arp S) unit :=
  match c with
  | CTmr => etharp_tmr
  | COutput nif q ip => etharp_output linkoutput nif q ip;; mret tt
  | CQuery nif ip q => etharp_query linkoutput nif ip q;; mret tt
  | CAddStatic ip eth => etharp_add_static_entry linkoutput ip_route ip eth;; mret tt
  | CRemoveStatic ip => etharp_remove_static_entry ip;; mret tt
  | CCleanup m => etharp_cleanup_netif m
  | CFindAddr ip => etharp_find_addr ip;; mret tt
  | CInput p plen flags ethhdr hdr nif => ethernet_input linkoutput p plen flags ethhdr hdr nif;; mret tt
  end.

Definition is_eth nif : Prop := hwaddr_len nif = ETHARP_HWADDR_LEN.

(** Interfaces are Ethernet ones, packets are held and have the room that is asked
    for; ethernet_input takes a packet over. *)
Definition allowed ext s (c : arp_call) : Prop :=
  match c with
  | CTmr | CRemoveStatic _ | CCleanup _ | CFindAddr _ => True
  | COutput nif q _ =>
      is_eth nif /\ q ∈ ext /\ lk_ready (a_packets s) q /\ lk_room (a_packets s) q SIZEOF_ETH_HDR
  | CQuery nif _ q => is_eth nif /\ forall p, q = Some p -> p ∈ ext /\ lk_ready (a_packets s) p
  | CAddStatic ip _ => forall nif, ip_route ip = Some nif -> is_eth nif
  | CInput p plen _ _ _ nif =>
      is_eth nif /\ p ∈ ext /\ (SIZEOF_ETH_HDR < plen -> lk_room (a_packets s) p (- SIZEOF_ETH_HDR))
  end.

(** C6: whatever the stack and the driver call, in any state that satisfies the
    invariant of the table, and whatever the driver answers, the call returns, no
    assertion fails, and the invariant holds after it: every reference is held by
    the caller or by exactly one pending entry, no address is in the table twice,
    and no entry is over age.  A received packet is given up, or passed to ip_input
    and still held. *)
Theorem etharp_calls_safe ext s c :
  arp_inv s ext -> allowed ext s c ->
  exists s', run_call c s = Done (tt, s') /\
    match c with
    | CInput p _ _ _ _ _ => forall ext', ext ≡ₚ p :: ext' ->
        arp_inv s' ext' \/ arp_inv s' ext /\ exists fl, to_ip s' = to_ip s ++ [(p, fl)]
    | _ => arp_inv s' ext
    end.
Proof.
  intros Hinv Hal.
  assert (forall Q : arp S -> Prop, wp (run_call c) s (fun _ s' => Q s') -> exists s', run_call c s = Done (tt, s') /\ Q s') as Hout
    by (intros Q ([] & s' & E & HQ); by exists s').
  apply Hout. clear Hout. destruct c; cbn [run_call] in *; cbn [allowed] in Hal.
  - eapply wp_mono; [by apply (tmr_loop_ok ext)|]. by intros _ s' (? & _).
  - destruct Hal as (Hl & Hq & Hr & Hroom). ar_step. eapply wp_mono; [by apply (output_ok linkoutput ext)|].
    intros r s' (? & _). by ar_step.
  - destruct Hal as (Hl & Hq). ar_step. eapply wp_mono; [by apply (query_ok linkoutput ext)|].
    intros r s' (? & _). by ar_step.
  - ar_step. unfold etharp_add_static_entry. destruct (ip_route ip) as [nif|]; [|by ar_step; ar_step].
    eapply wp_mono; [by apply (update_ok linkoutput ext), Hal|]. intros r s' (fs & Hs & _). ar_step. apply Hs.
  - ar_step. eapply wp_mono; [by apply (remove_static_ok ext)|]. intros r s' ?. by ar_step.
  - eapply wp_mono; [by apply (cleanup_ok ext)|]. by intros _ s' [? _].
  - ar_step. unfold etharp_find_addr. ar_step. eapply wp_mono; [by apply find_entry_ok|].
    intros i s1 (Hinv1 & _ & _ & Hf).
    destruct (find_spec_cases _ _ _ _ _ Hf (ai_each _ _ Hinv)) as [(-> & Ht)|(Hi & e & He & _ & _)].
    + change (0 <=? ERR_MEM) with false. cbv iota. ar_step. by ar_step.
    + rewrite (proj2 (Z.leb_le _ _)) by lia. ar_step. apply (wp_rd_entry _ e); [done|done|]. ar_step. by ar_step.
  - destruct Hal as (Hl & Hp & Hroom). apply list_elem_of_split in Hp as (l1 & l2 & ->).
    assert (arp_inv s (p :: l1 ++ l2)) as Hinv0.
    { destruct Hinv. split; try done. eapply lk_perm; [|done]. by rewrite <- Permutation_middle. }
    ar_step. eapply wp_mono; [by apply (ethernet_input_ok linkoutput (l1 ++ l2))|]. intros r s' (_ & Ho). ar_step.
    intros ext' Hext. assert (l1 ++ l2 ≡ₚ ext') as Hpe.
    { apply (Permutation_cons_inv (a := p)). by rewrite <- Hext, Permutation_middle. }
    destruct Ho as [Ho|[Ho Hi]]; [left|right].
    + destruct Ho. split; try done. eapply lk_perm; [|done]. by rewrite Hpe.
    + split; [|by eexists]. destruct Ho. split; try done. eapply lk_perm; [|done]. by rewrite Permutation_middle.
Qed.

(** ** Resolution *)

(** The entry of [ip] is at [i]. *)
Lemma find_match ip flags t t' r i e :
  find_spec ip flags t r t' -> one_each t -> t !! i = Some e -> empty (a_state e) = false -> a_ipaddr e = ip ->
  t' = t /\ r = Z.of_nat i.
Proof.
  intros [(Hr & -> & x & Hx & Hm)|(Hn & _)] H1 He Hne Hip.
  - split; [done|]. unfold matches in Hm. apply andb_true_iff in Hm as [Hm1 Hm2%Z.eqb_eq]. apply negb_true_iff in Hm1.
    assert (i = Z.to_nat r) by (eapply (H1 i _ e x He Hx Hne Hm1); congruence). lia.
  - specialize (Hn i e He). unfold matches in Hn. by rewrite Hne, Hip, Z.eqb_refl in Hn.
Qed.

Lemma find_addr_ok ext i e s :
  arp_inv s ext -> arp_table s !! i = Some e -> stable (a_state e) = true ->
  exists s', etharp_find_addr (a_ipaddr e) s = Done ((Z.of_nat i, Some (a_ethaddr e, a_ipaddr e)), s').
Proof.
  intros Hinv He Hst. unfold etharp_find_addr.
  destruct (find_entry_ok s ext (a_ipaddr e) ETHARP_FLAG_FIND_ONLY Hinv) as (r & s' & E & Hinv' & _ & _ & Hs).
  assert (empty (a_state e) = false) as Hne by (by destruct (a_state e)).
  destruct (find_match _ _ _ _ _ i e Hs (ai_each _ _ Hinv) He Hne eq_refl) as [Ht ->].
  rewrite (bind_done _ _ _ _ _ E). rewrite (proj2 (Z.leb_le _ _)) by lia. exists s'.
  destruct (wp_rd_entry (Z.of_nat i) e s' (fun a s1 => a = e /\ s1 = s')) as (? & ? & E2 & -> & ->);
    [rewrite Ht, Nat2Z.id; done|lia|done|]. rewrite (bind_done _ _ _ _ _ E2). by rewrite Hst.
Qed.

(** A queued packet goes out when the host is heard of. *)
Lemma pending_resolves ext nif ip i e k p plen ethhdr hdr s :
  is_eth nif -> unicast nif ip = true -> arp_inv s (p :: ext) -> arp_table s !! i = Some e -> a_state e = ETHARP_STATE_PENDING -> a_ipaddr e = ip -> a_q e = Some k ->
  well_formed plen hdr = true -> sipaddr hdr = ip ->
  exists s3 rest s4, etharp_arp_input linkoutput nif (hwaddr nif) p plen ethhdr hdr s = Done (tt, s3) /\
    arp_inv s3 ext /\ frames s3 = frames s ++ ip_frame nif k (shwaddr hdr) :: rest /\
    etharp_find_addr ip s3 = Done ((Z.of_nat i, Some (shwaddr hdr, ip)), s4).
Proof.
  intros Hl Hu Hinv He Hst Hip Hq Hwf Hsip.
  destruct (arp_input_ok linkoutput ext nif p plen ethhdr hdr s Hinv Hl) as ([] & s3 & E3 & fs3 & Hs3 & Hspec3).
  unfold input_spec in Hspec3. rewrite Hwf, Hsip in Hspec3.
  destruct Hspec3 as (r3 & fs1 & Hupd & ->). unfold update_spec in Hupd. rewrite Hu in Hupd.
  destruct Hupd as (j & t3 & Hfind & Hj).
  destruct (find_match _ _ _ _ _ i e Hfind (ai_each _ _ Hinv) He ltac:(by rewrite Hst) Hip) as [-> ->].
  destruct Hj as [(Hbad & _)|(_ & _ & x & Hx & _ & Ht3 & ->)]; [unfold ERR_MEM in Hbad; lia|].
  rewrite Nat2Z.id in Hx, Ht3. rewrite He in Hx. injection Hx as <-.
  assert (arp_table s3 !! i = Some (resolved nif ip (shwaddr hdr)
    (if for_us nif hdr then ETHARP_FLAG_TRY_HARD else ETHARP_FLAG_FIND_ONLY))) as He3.
  { rewrite Ht3. apply list_lookup_insert_eq. by eapply lookup_lt_Some. }
  destruct (find_addr_ok ext i _ s3 (st_inv _ _ _ _ Hs3) He3) as [s4 E4]; [by destruct (for_us nif hdr)|].
  exists s3, (if (opcode hdr =? lwip_htons ARP_REQUEST) && for_us nif hdr then [arp_reply nif p ethhdr hdr] else []), s4.
  split; [done|]. split; [apply Hs3|]. split; [|exact E4]. rewrite (st_frames _ _ _ _ Hs3), Hq. done.
Qed.

(** C12: an address is resolved.  When etharp_query takes a packet for a unicast address, the
    packet is on the link at once, addressed to the hardware address that the table has for
    the host, or a packet that holds the same bytes is queued; and when any well-formed ARP
    message from that host comes in later, with nothing in between changing the table, the
    queued packet goes to the host's hardware address first of all, and the table answers
    with that address. *)
Theorem etharp_resolves ext nif ip q s :
  arp_inv s ext -> is_eth nif -> unicast nif ip = true -> q ∈ ext -> lk_ready (a_packets s) q ->
  exists r s1, etharp_query linkoutput nif ip (Some q) s = Done (r, s1) /\ arp_inv s1 ext /\
    (r = ERR_OK ->
     (exists i e, arp_table s1 !! i = Some e /\ a_ipaddr e = ip /\ stable (a_state e) = true /\
        frames s1 = frames s ++ [ip_frame nif q (a_ethaddr e)]) \/
     exists i e k, arp_table s1 !! i = Some e /\ a_state e = ETHARP_STATE_PENDING /\ a_ipaddr e = ip /\ a_q e = Some k /\
       (forall d, lk_data (a_packets s) q d -> lk_data (a_packets s1) k d) /\
       forall p plen ethhdr hdr s2, arp_inv s2 (p :: ext) -> arp_table s2 = arp_table s1 ->
         well_formed plen hdr = true -> sipaddr hdr = ip ->
         exists s3 rest s4, etharp_arp_input linkoutput nif (hwaddr nif) p plen ethhdr hdr s2 = Done (tt, s3) /\
           arp_inv s3 ext /\ frames s3 = frames s2 ++ ip_frame nif k (shwaddr hdr) :: rest /\
           etharp_find_addr ip s3 = Done ((Z.of_nat i, Some (shwaddr hdr, ip)), s4)).
Proof.
  intros Hinv Hl Hu Hin Hready.
  destruct (query_ok linkoutput ext nif ip (Some q) s Hinv Hl) as (r & s1 & E & Hinv1 & _ & fs & Hf & Hspec); [by intros p [= <-]|].
  exists r, s1. split; [done|]. split; [done|]. intros ->. unfold query_spec in Hspec. rewrite Hu in Hspec.
  destruct Hspec as (i & t1 & _ & [(-> & Hbad & _)|(Hi & e & He & Hip & Hcase)]); [done|].
  destruct (stable (a_state e)) eqn:Hst; [left; exists (Z.to_nat i), e; destruct Hcase as [-> ->]; done|]. right.
  destruct Hcase as [_ [[? _]|(k & _ & Ht & Hk)]]; [done|].
  exists (Z.to_nat i), (upd_a_q (Some k) (upd_a_state ETHARP_STATE_PENDING e)), k.
  pose proof (lookup_lt_Some _ _ _ He) as Hlt.
  assert (arp_table s1 !! Z.to_nat i = Some (upd_a_q (Some k) (upd_a_state ETHARP_STATE_PENDING e))) as He1
    by (rewrite Ht; by apply list_lookup_insert_eq).
  split; [done|]. split; [done|]. split; [done|]. split; [done|]. split; [intros d; by apply Hk|].
  intros p plen ethhdr hdr s2 Hinv2 Ht2 Hwf Hsip.
  by apply (pending_resolves ext nif ip (Z.to_nat i) (upd_a_q (Some k) (upd_a_state ETHARP_STATE_PENDING e)) k p plen ethhdr hdr s2);
    rewrite ?Ht2.
Qed.

(** Where etharp_output sends a packet: ERR_BUF without any frame when there is
    no room for the Ethernet header; broadcasts to the Ethernet broadcast address,
    multicasts to the address they map to, and everything else to the host itself
    when it is on the link or link-local, to the gateway otherwise, or nowhere
    (ERR_RTE) without a gateway.  A host the table knows gets the packet under the
    hardware address of its entry (an ARP request may go in front), for any other
    one etharp_query does as it says. *)
Theorem etharp_output_destination ext nif q ip s :
  arp_inv s ext -> is_eth nif -> q ∈ ext -> lk_ready (a_packets s) q -> lk_room (a_packets s) q SIZEOF_ETH_HDR ->
  exists r s' fs, etharp_output linkoutput nif q ip s = Done (r, s') /\ arp_inv s' ext /\ frames s' = frames s ++ fs /\
    ((r = ERR_BUF /\ arp_table s' = arp_table s /\ fs = []) \/ output_spec nif q ip (arp_table s) (arp_table s') r fs).
Proof.
  intros Hinv Hl Hin Hready Hroom.
  destruct (output_ok linkoutput ext nif q ip s Hinv Hl Hin Hready Hroom) as (r & s' & E & Hinv' & _ & fs & Hf & Hs).
  by exists r, s', fs.
Qed.

(** ** Ageing *)

Fixpoint arp_ticks (n : nat) : M (arp S) unit :=
  match n with
  | O => mret tt
  | Datatypes.S n => etharp_tmr;; arp_ticks n
  end.

Lemma arp_ticks_ok ext n : forall s, arp_inv s ext ->
  wp (arp_ticks n) s (fun _ s' => arp_inv s' ext /\ frames s' = frames s /\
    arp_table s' = Nat.iter n (fmap ticked) (arp_table s)).
Proof.
  induction n as [|n IH]; intros s Hinv; cbn [arp_ticks]; [by ar_step|]. ar_step.
  eapply wp_mono; [by apply (tmr_loop_ok ext)|]. intros _ s1 (Hinv1 & Hq1 & Ht1). cbv beta.
  eapply wp_mono; [by apply IH|]. intros _ s2 (Hinv2 & Hf2 & Ht2). split; [done|]. split; [by rewrite Hf2, (proj1 Hq1)|].
  rewrite Ht2, Ht1. simpl. by rewrite Nat.iter_swap.
Qed.

Lemma ticked_ok e : entry_ok e -> entry_ok (ticked e).
Proof.
  intros (Hq & Hc & Ha). unfold ticked, entry_ok. destruct (a_state e) eqn:Hst; rewrite ?Hst; try done.
  - destruct (Z.leb_spec ARP_MAXPENDING (a_ctime e + 1)); simpl; rewrite ?Hst; (split; [done|split; [lia|done]]).
  - destruct (Z.leb_spec ARP_MAXAGE (a_ctime e + 1)); simpl;
      (split; [intros Hn; first [done|by specialize (Hq Hn)]|split; [lia|done]]).
  - destruct (Z.leb_spec ARP_MAXAGE (a_ctime e + 1)); simpl;
      (split; [intros Hn; first [done|by specialize (Hq Hn)]|split; [lia|done]]).
Qed.

Lemma omap_nil_pending (t : list etharp_entry) : (forall e, e ∈ t -> a_q e = None) -> omap a_q t = [].
Proof.
  induction t as [|e t IH]; intros Hn; [done|]. cbn. rewrite (Hn e) by left. apply IH. intros x Hx. apply Hn. by right.
Qed.

(** The ticks an entry has left. *)
Definition ticks_left (e : etharp_entry) : Z :=
  match a_state e with
  | ETHARP_STATE_EMPTY | ETHARP_STATE_STATIC => 0
  | ETHARP_STATE_PENDING => ARP_MAXPENDING - a_ctime e
  | ETHARP_STATE_STABLE | ETHARP_STATE_STABLE_REREQUESTING => ARP_MAXAGE - a_ctime e
  end.

Lemma ticks_left_range e : entry_ok e -> 0 <= ticks_left e <= ARP_MAXAGE.
Proof. intros (_ & Hc & Ha). unfold ticks_left, ARP_MAXAGE, ARP_MAXPENDING in *. destruct (a_state e); lia. Qed.

Lemma ticked_left e : entry_ok e -> ticks_left (ticked e) = Z.max 0 (ticks_left e - 1).
Proof.
  intros (_ & Hc & Ha). unfold ticks_left, ticked. destruct (a_state e) eqn:Hst; rewrite ?Hst; try done.
  - destruct (Z.leb_spec ARP_MAXPENDING (a_ctime e + 1)); simpl; rewrite ?Hst; simpl; lia.
  - destruct (Z.leb_spec ARP_MAXAGE (a_ctime e + 1)); simpl; lia.
  - destruct (Z.leb_spec ARP_MAXAGE (a_ctime e + 1)); simpl; lia.
Qed.

Lemma ticks_left_0 e : entry_ok e -> ticks_left e = 0 -> a_state e = ETHARP_STATE_EMPTY \/ a_state e = ETHARP_STATE_STATIC.
Proof. intros (_ & _ & Ha). unfold ticks_left. destruct (a_state e); try tauto; lia. Qed.

Lemma iter_left n e : entry_ok e ->
  entry_ok (Nat.iter n ticked e) /\ ticks_left (Nat.iter n ticked e) = Z.max 0 (ticks_left e - Z.of_nat n).
Proof.
  intros He. induction n as [|n [IH1 IH2]]; [pose proof (ticks_left_range e He); split; [done|simpl; lia]|].
  simpl. split; [by apply ticked_ok|]. rewrite ticked_left by done. lia.
Qed.

Lemma iter_fmap n (t : list etharp_entry) : Nat.iter n (fmap ticked) t = Nat.iter n ticked <$> t.
Proof.
  induction n as [|n IH]; [by rewrite list_fmap_id|]. simpl. rewrite IH. by rewrite <- list_fmap_compose.
Qed.

Lemma ticked_pending e : a_state (ticked e) = ETHARP_STATE_PENDING -> a_state e = ETHARP_STATE_PENDING.
Proof.
  unfold ticked. destruct (a_state e) eqn:Hst; rewrite ?Hst; try done; destruct (_ <=? _); simpl; by rewrite ?Hst.
Qed.

Lemma ticked_static e : a_state (ticked e) = ETHARP_STATE_STATIC -> ticked e = e.
Proof.
  unfold ticked. destruct (a_state e) eqn:Hst; rewrite ?Hst; try done; destruct (_ <=? _); simpl; by rewrite ?Hst.
Qed.

Lemma iter_pending n e : a_state (Nat.iter n ticked e) = ETHARP_STATE_PENDING -> a_state e = ETHARP_STATE_PENDING.
Proof. induction n as [|n IH]; [done|]. simpl. intros Hst. by apply IH, ticked_pending. Qed.

Lemma iter_static n e : a_state (Nat.iter n ticked e) = ETHARP_STATE_STATIC -> Nat.iter n ticked e = e.
Proof.
  induction n as [|n IH]; [done|]. simpl. intros Hst. pose proof (ticked_static _ Hst) as E. rewrite E in Hst |- *. by apply IH.
Qed.

(** C35: the table ages: after ARP_MAXAGE calls of etharp_tmr, which all return, with
    no other call between them, only empty and static entries are left, the static
    ones as they were, nothing was sent, and every packet that was queued has been
    freed (the references held are those of the callers).  Pending entries and their
    packets are gone after ARP_MAXPENDING calls. *)
Theorem etharp_ages_out ext s n :
  arp_inv s ext -> ARP_MAXPENDING <= Z.of_nat n ->
  exists s', arp_ticks n s = Done (tt, s') /\ arp_inv s' ext /\ frames s' = frames s /\ lk_inv (a_packets s') ext /\
    (forall i e, arp_table s' !! i = Some e -> a_state e <> ETHARP_STATE_PENDING) /\
    (ARP_MAXAGE <= Z.of_nat n ->
     forall i e', arp_table s' !! i = Some e' -> a_state e' = ETHARP_STATE_EMPTY \/ arp_table s !! i = Some e' /\ a_state e' = ETHARP_STATE_STATIC).
Proof.
  intros Hinv Hn. destruct (arp_ticks_ok ext n s Hinv) as ([] & s' & E & Hinv' & Hf & Ht). exists s'. split; [done|].
  split; [done|]. split; [done|]. rewrite iter_fmap in Ht.
  assert (forall i e', arp_table s' !! i = Some e' -> exists e, arp_table s !! i = Some e /\ e' = Nat.iter n ticked e /\
    entry_ok e) as Hat.
  { intros i e' He'. rewrite Ht in He'. apply list_lookup_fmap_Some in He' as (e & -> & He). exists e.
    split; [done|]. split; [done|]. exact (entry_ok_at _ _ _ _ Hinv He). }
  assert (forall i e, arp_table s' !! i = Some e -> a_state e <> ETHARP_STATE_PENDING) as Hnp.
  { intros i e' He'. destruct (Hat i e' He') as (e & He & -> & Hok). intros Hst.
    pose proof (iter_pending n e Hst) as Hst0. destruct (iter_left n e Hok) as [(_ & Hc & Ha) Hleft].
    pose proof Hok as (_ & Hc0 & _). unfold ticks_left in Hleft. rewrite Hst, Hst0 in Hleft. rewrite Hst in Ha. lia. }
  split.
  - pose proof (ai_own _ _ Hinv') as Hown. replace (omap a_q (arp_table s')) with (@nil ptr) in Hown; [done|].
    symmetry. apply omap_nil_pending. intros e Hin. apply list_elem_of_lookup_1 in Hin as [i Hi].
    destruct (entry_ok_at _ _ _ _ Hinv' Hi) as [Hq _]. destruct (a_q e) eqn:Hqe; [|done].
    exfalso. by apply (Hnp i e Hi), Hq.
  - split; [done|]. intros Hn2 i e' He'. destruct (Hat i e' He') as (e & He & -> & Hok).
    destruct (iter_left n e Hok) as [Hok' Hleft]. pose proof (ticks_left_range e Hok).
    destruct (ticks_left_0 _ Hok' ltac:(lia)) as [Hst|Hst]; [by left|]. right.
    split; [|done]. rewrite (iter_static n e Hst). exact He.
Qed.
End spec.
