(* ===== verification/EtharpPbuf.v ===== *)
(** * Packet buffers under the ARP module

    The packets etharp.c works on are packet buffers: the part of etharp_query that
    takes a packet over (it copies it, or takes a reference when all of it is in
    ROM), and the proof that the packet buffers keep what LinkPackets promises. *)

From S2P Require Import Prelude ByteOrder Alloc Pbuf AllocImpl PbufSpec PbufData IpAddr Etharp EtharpTable EtharpOps EtharpSpec.

Section pbufs.
Context {A : Type} `{AllocatorSpec A}.
Context (stale_flags : ptr -> Z).
Context (custom : ptr -> option (M (pstate A) unit)).
Implicit Types (s : pstate A).

(** The loop over the packet: the first pbuf that must be copied. *)
Fixpoint copy_needed (fuel : nat) (p : option ptr) : M (pstate A) (option ptr) :=
  match p with
  | None => mret None
  | Some p =>
      match fuel with
      | O => fail OutOfFuel
      | S fuel =>
          b ← rdp p;
          lwip_assert (negb (len b =? tot_len b) || match next b with None => true | Some _ => false end);;
          if negb (bool_decide (type b = PBUF_ROM)) then mret (Some p)
          else copy_needed fuel (next b)
      end
  end.

Definition keep_packet (q : ptr) : M (pstate A) (option ptr) :=
  s ← get;
  c ← copy_needed (pbuf_fuel s) (Some q);
  match c with
  | Some p =>
      b ← rdp p;
      p ← pbuf_alloc stale_flags custom PBUF_RAW (tot_len b) PBUF_RAM;
      match p with
      | None => mret None
      | Some p =>
          r ← pbuf_copy (Some p) (Some q);
          if negb (r =? ERR_OK) then pbuf_free custom (Some p);; mret None
          else mret (Some p)
      end
  | None => pbuf_ref (Some q);; mret (Some q)
  end.

Definition pbuf_link : LinkPackets (pstate A) := {|
  lk_alloc := fun n => pbuf_alloc stale_flags custom PBUF_RAW n PBUF_RAM;
  lk_free := fun p => pbuf_free custom (Some p);
  lk_header := fun p => pbuf_header (Some p);
  lk_keep := keep_packet
|}.

(** ** What copying needs *)

(** The first pbuf is not in ROM, or all are. *)
Definition kind_ok (l : list (ptr * pbuf)) : Prop :=
  match l with
  | (a, b) :: _ => type b <> PBUF_ROM \/ Forall (fun ab => type ab.2 = PBUF_ROM) l /\ ref b < 65535
  | [] => False
  end.

Record copyable (D : gmap ptr Z) (l : list (ptr * pbuf)) : Prop := Copyable {
  cp_pays : pays l;
  cp_solid : solid l;
  cp_kind : kind_ok l;
  cp_outside : Forall outside l;
  cp_len : lsum l <= 65452;
  cp_data : exists data, holds D (addrs l) data
}.

Definition pk_ready s (q : ptr) : Prop := exists l, chain (pbufs s) (Some q) l /\ copyable (pdata s) l.

(** The bytes of a packet. *)
Definition pk_data s (q : ptr) (d : bytes) : Prop := exists l, chain (pbufs s) (Some q) l /\ holds (pdata s) (addrs l) d.

Definition pk_is s (q : ptr) (k : packet_fact) : Prop :=
  match k with Ready => pk_ready s q | Holds d => pk_data s q d end.

Definition link_inv s (ext : list ptr) : Prop := exists L, pinv s L ext.

Lemma wp_rdp s p b Q : pbufs s !! p = Some b -> Q b s -> wp (rdp p) s Q.
Proof. intros Hb HQ. exists b, s. split; [|done]. unfold rdp. by rewrite get_bind, Hb. Qed.

(** ** Frees and allocations leave other packets alone *)

(** The same pbuf with fewer references. *)
Definition fewer (b b' : pbuf) : Prop := b' = upd_ref (ref b') b /\ ref b' <= ref b.

Lemma fewer_refl b : fewer b b.
Proof. split; [by destruct b|done]. Qed.

Lemma drop_fewer l : forall m x b',
  NoDup l.*1 -> (forall a b, (a, b) ∈ l -> m !! a = Some b) -> drop l m !! x = Some b' -> exists b, m !! x = Some b /\ fewer b b'.
Proof.
  induction l as [|[a b] l IH]; intros m x b' Hnd Hin E; [exists b'; split; [done|apply fewer_refl]|].
  rewrite fmap_cons in Hnd. apply list.NoDup_cons in Hnd as [Ha Hnd]. cbn [drop] in E. destruct (ref b =? 1).
  - destruct (IH (delete a m) x b' Hnd) as (c & Hc & Hf); [|done|].
    + intros y c Hy. rewrite lookup_delete_ne; [apply Hin; by right|]. intros <-. apply Ha, list_elem_of_fmap. by exists (a, c).
    + apply lookup_delete_Some in Hc as [_ Hc]. by exists c.
  - destruct (decide (a = x)) as [->|Hne].
    + rewrite lookup_insert_eq in E. simplify_eq. exists b. split; [apply Hin; by left|]. split; [done|]. simpl. lia.
    + rewrite lookup_insert_ne in E by done. exists b'. split; [done|apply fewer_refl].
Qed.

Definition fewer_node (x y : ptr * pbuf) : Prop := x.1 = y.1 /\ fewer x.2 y.2.

Lemma chain_fewer m m' l' : forall (q : option ptr),
  (forall x b', m' !! x = Some b' -> exists b, m !! x = Some b /\ fewer b b') -> chain m' q l' ->
  exists l, chain m q l /\ Forall2 fewer_node l l'.
Proof.
  induction l' as [|[a b'] l' IH]; intros q Hm Hc; [exists []; by split|].
  destruct Hc as (-> & Ha & Hc). destruct (Hm a b' Ha) as (b & Hb & Hf). destruct (IH _ Hm Hc) as (l & Hl & Hll).
  exists ((a, b) :: l). split; [|by constructor]. split; [done|]. split; [done|]. destruct Hf as [E _]. rewrite E in Hl. exact Hl.
Qed.

Lemma fewer_addrs l l' : Forall2 fewer_node l l' -> addrs l' = addrs l /\ lsum l' = lsum l.
Proof.
  induction 1 as [|[a b] [a' b'] l l' [_ [E _]] _ [IH1 IH2]]; [done|]. simpl in E. rewrite E.
  split; simpl; [by rewrite IH1|]. unfold lsum in *. simpl. by rewrite IH2.
Qed.

Lemma fewer_forall (P : ptr * pbuf -> Prop) l l' :
  (forall a b r, P (a, b) -> P (a, upd_ref r b)) -> Forall2 fewer_node l l' -> Forall P l -> Forall P l'.
Proof.
  intros HP. induction 1 as [|[a b] [a' b'] l l' [E1 [E2 _]] _ IH]; intros HF; [done|]. apply list.Forall_cons in HF as [H1 H2].
  apply list.Forall_cons. split; [|by apply IH]. simpl in *. subst a'. rewrite E2. by apply HP.
Qed.

Lemma copyable_fewer D l l' : Forall2 fewer_node l l' -> copyable D l -> copyable D l'.
Proof.
  intros Hf [Hp Hs Hk Ho Hl Hd]. destruct (fewer_addrs _ _ Hf) as [Ea El]. split; rewrite ?Ea, ?El; try done.
  - by eapply fewer_forall; [|exact Hf|exact Hp].
  - unfold solid in *. destruct Hf as [|x y l l' Hx Hf]; [done|]. simpl in *. by eapply fewer_forall; [|exact Hf|exact Hs].
  - pose proof Hf as Hf0. unfold kind_ok in *. destruct Hf as [|[a b] [a' b'] l l' [_ [E Hr]] Hf]; [done|].
    destruct Hk as [Hk|[Hk Hr']]; [left; simpl in E; by rewrite E|right].
    split; [by eapply fewer_forall; [|exact Hf0|exact Hk]|simpl in *; lia].
  - by eapply fewer_forall; [|exact Hf|exact Ho].
Qed.

Lemma ready_free s ext p :
  link_inv s (p :: ext) ->
  wp (pbuf_free custom (Some p)) s (fun _ s' => link_inv s' ext /\ forall q k, q ∈ ext -> pk_is s q k -> pk_is s' q k).
Proof.
  intros (L & Hi). pose proof Hi as (_ & Hn & [_ Hx] & He & _). apply list.Forall_cons in Hx as [[b Hb] _].
  destruct (He p b Hb) as [l Hc]. destruct (pbuf_free_inv custom s L ext p l Hi Hc) as (s' & E & Hs & Hd & Hi').
  exists (u8 (zlen (lead l))), s'. split; [done|]. split; [by eexists|]. intros q k Hq Hk.
  pose proof Hi' as (_ & _ & [_ Hx'] & He' & _). rewrite list.Forall_forall in Hx'. destruct (Hx' q Hq) as [b' Hb'].
  destruct (He' q b' Hb') as [l' Hl'].
  destruct (chain_fewer (pbufs s) (pbufs s') l' (Some q)) as (l0 & Hl0 & Hf); [|done|].
  - intros x c Hc'. rewrite Hs in Hc'. apply (drop_fewer l (pbufs s) x c); [exact (chain_NoDup _ _ _ Hc)| |exact Hc'].
    intros a d Hin. exact (chain_in _ _ _ _ _ Hc Hin).
  - destruct k as [|d]; destruct Hk as (lq & Hcq & Hcp); rewrite (chain_det _ _ _ _ Hl0 Hcq) in Hf; exists l'; (split; [done|]); rewrite Hd.
    + by eapply copyable_fewer.
    + by rewrite (proj1 (fewer_addrs _ _ Hf)).
Qed.

Lemma ready_alloc s ext n :
  link_inv s ext -> 0 <= n <= 65452 ->
  wp (pbuf_alloc stale_flags custom PBUF_RAW n PBUF_RAM) s (fun o s' => link_inv s' (option_list o ++ ext) /\
    forall q k, q ∈ ext -> pk_is s q k -> pk_is s' q k).
Proof.
  intros (L & Hi) Hn. destruct (pbuf_alloc_ram_ok custom stale_flags s L ext PBUF_RAW n Hi) as (o & s' & E & Hd & Hpost);
    [unfold max_ram_length; lia|]. exists o, s'. split; [done|]. destruct o as [p|].
  - destruct Hpost as (l & L' & Hc & _ & Hw & _ & Hi' & Hnew & _). split; [by exists L'|].
    assert (forall q lq, chain (pbufs s) (Some q) lq -> chain (pbufs s') (Some q) lq) as Hch;
      [|intros q [|d] _ (lq & Hcq & Hcp); exists lq; rewrite Hd; (split; [by apply Hch|done])].
    intros q lq Hcq. eapply chain_ext; [|exact Hcq]. intros a Ha.
    apply list_elem_of_fmap in Ha as ([a' b] & -> & Hin). pose proof (chain_in _ _ _ _ _ Hcq Hin) as Hab. simpl.
    rewrite <- Hw. symmetry. apply without_lookup_ne. intros Hin'. apply list_elem_of_fmap in Hin' as ([a2 b2] & Ea & Hin2).
    simpl in Ea. subst a2. destruct (Hnew a' b2 Hin2) as (Hnone & _). congruence.
  - destruct Hpost as [Hp Hi']. split; [by exists L|]. intros q [|d] _ (lq & Hcq & Hcp); exists lq; by rewrite Hp, Hd.
Qed.

(** ** Headers *)

(** What pbuf_header asks for: the room, a packet that is not the tail of another,
    and lengths that stay in range; the bytes uncovered are there. *)
Definition pk_room s (p : ptr) (k : Z) : Prop :=
  exists b x, pbufs s !! p = Some b /\ payload b = Some x /\ nrefs (pbufs s) p = 0 /\
    k <> 0 /\ -32768 < k < 32768 /\ - k <= len b /\ tot_len b + k <= 65452 /\
    forall i, 0 <= i < k -> is_Some (pdata s !! padd x (i - k)).

Lemma fits_less s L ext p b x k :
  pinv s L ext -> pbufs s !! p = Some b -> payload b = Some x -> k < 0 -> header_fits p b x k = true.
Proof.
  intros (_ & Hn & _) Hp Hx Hk. destruct (Hn p b Hp) as ((_ & _ & _ & _ & n & _ & Hpl) & _).
  unfold header_fits. unfold payload_ok in Hpl.
  destruct (type b); try (apply Z.ltb_lt; lia); destruct Hpl as (a & E & ? & _); simplify_eq; simpl; apply Z.leb_le; lia.
Qed.

Lemma present_holds D x n : (forall i, 0 <= i < Z.of_nat n -> is_Some (D !! padd x i)) ->
  exists data, holds D (range x n) data.
Proof.
  intros Hi. assert (Forall (fun a => is_Some (D !! a)) (range x n)) as HF.
  { apply list.Forall_forall. intros a (i & -> & Hr)%range_in. by apply Hi. }
  clear Hi. induction HF as [|a l [v Hv] _ [d IH]]; [exists []; constructor|]. exists (v :: d). by constructor.
Qed.

Lemma copyable_grow D a b x l k :
  copyable D ((a, b) :: l) -> payload b = Some x -> 0 < k -> len b + k < 65536 -> tot_len b + k < 65536 ->
  lsum ((a, b) :: l) + k <= 65452 -> (forall i, 0 <= i < k -> is_Some (D !! padd x (i - k))) ->
  copyable D ((a, moved b x k) :: l).
Proof.
  intros [Hp Hs Hk Ho Hl [d Hd]] Hx Hk0 Hlen Htot Hsum Hin. apply list.Forall_cons in Hp as [(_ & Hu & Hut) Hp].
  apply list.Forall_cons in Ho as [Ho1 Ho2]. unfold is_u16 in *. cbn [fst snd] in *. split.
  - constructor; [|done]. cbn [snd moved upd_payload upd_tot upd_len payload len tot_len].
    split; [by eexists|]. unfold is_u16. lia.
  - exact Hs.
  - destruct Hk as [Hk|[Hk Hr]]; [by left|right]. apply list.Forall_cons in Hk as [Hk1 Hk2].
    split; [by constructor|exact Hr].
  - constructor; [|done]. intros Ht y Hy. simpl in Hy. simplify_eq. exact (Ho1 Ht x Hx).
  - change (lsum ((a, moved b x k) :: l)) with (len b + k + lsum l).
    change (lsum ((a, b) :: l)) with (len b + lsum l) in Hsum. lia.
  - destruct (present_holds D (padd x (- k)) (Z.to_nat k)) as [e He].
    { intros i Hi. rewrite padd_padd. replace (- k + i) with (i - k) by lia. apply Hin. lia. }
    exists (e ++ d). simpl in *. rewrite Hx in Hd. replace (Z.to_nat (len b + k)) with (Z.to_nat k + Z.to_nat (len b))%nat by lia.
    rewrite range_add, padd_padd, Z2Nat.id, <- app_assoc by lia. replace (- k + k) with 0 by lia. rewrite padd_0.
    by apply Forall2_app.
Qed.

Lemma ready_header s ext p k :
  link_inv s ext -> p ∈ ext -> pk_room s p k ->
  wp (pbuf_header (Some p) k) s (fun r s' =>
    (k < 0 -> r = 0) /\ link_inv s' ext /\ (0 < k -> pk_ready s p -> pk_ready s' p)).
Proof.
  intros (L & Hi) _ (b & x & Hb & Hx & Hz & Hk & Hr & Hlen & Htot & Hin). pose proof Hi as (_ & Hn & _ & He & _).
  destruct (Hn p b Hb) as ((_ & _ & Hlu & Htu & _) & _). destruct (He p b Hb) as [l0 Hl0].
  destruct (tot_is_sum _ _ _ _ _ _ Hi Hb Hl0) as [Hts Hlt]. unfold is_u16 in *.
  pose proof (pbuf_header_eq s p b x k Hb Hx Hlu Htu Hk ltac:(lia) ltac:(lia) ltac:(lia) ltac:(lia)) as E.
  destruct (header_fits p b x k) eqn:Hfit.
  - eexists _, _. split; [exact E|]. split; [done|].
    split; [exists L; by apply moved_inv; try done; lia|]. intros Hpos (l & Hc & Hcp).
    rewrite (chain_det _ _ _ _ Hl0 Hc) in Hts. destruct l as [|[a c] l]; [done|]. pose proof Hc as (E1 & Hc1 & Hc2). simplify_eq.
    exists ((a, moved b x k) :: l). split.
    + split; [done|]. split; [apply lookup_insert_eq|]. apply chain_insert_ne; [|exact Hc2].
      pose proof (chain_NoDup _ _ _ Hc) as Hnd. by apply list.NoDup_cons in Hnd as [? _].
    + apply (copyable_grow (pdata s) a b x l k); try done; lia.
  - exists 1, s. split; [exact E|]. split; [|split; [by exists L|done]]. intros Hneg.
    rewrite (fits_less _ _ _ _ _ _ _ Hi Hb Hx Hneg) in Hfit. done.
Qed.

(** ** Copies *)

(** A packet in RAM is one pbuf. *)
Lemma ram_one s p s' layer n :
  pbuf_alloc stale_flags custom layer n PBUF_RAM s = Done (Some p, s') ->
  exists b, pbufs s' !! p = Some b /\ next b = None.
Proof.
  unfold pbuf_alloc. set (size := u16 _). intros E. cbv zeta in E. unfold mbind, M_bind in E.
  destruct (call (al_mem_malloc size) s) as [[[a|] s1]|c] eqn:Ea; [|done|done].
  cbn [wrp modify] in E. unfold lwip_assert in E. destruct (_ =? 0) in E; [|done].
  cbn [mret M_ret] in E. unfold wrp, modify, mret, M_ret in E.
  rewrite (finish_alloc_eq _ _ _ (lookup_insert_eq _ _ _)) in E. simplify_eq.
  eexists. split; [apply lookup_insert_eq|done].
Qed.

(** The loop of etharp_query: the first pbuf when it is not in ROM. *)
Lemma copy_needed_first fuel s p b :
  pbufs s !! p = Some b -> type b <> PBUF_ROM -> (len b = tot_len b -> next b = None) ->
  copy_needed (S fuel) (Some p) s = Done (Some p, s).
Proof.
  intros Hb Ht Hn. cbn [copy_needed]. rewrite (rdp_bind _ _ b) by done. rewrite lwip_assert_bind.
  - by rewrite bool_decide_false.
  - destruct (Z.eqb_spec (len b) (tot_len b)) as [E|]; [by rewrite Hn|done].
Qed.

Lemma copy_needed_rom fuel l : forall s (p : option ptr),
  chain (pbufs s) p l -> Forall (fun ab => type ab.2 = PBUF_ROM) l -> solid l -> tot_ok l -> pays l ->
  (length l <= fuel)%nat -> copy_needed fuel p s = Done (None, s).
Proof.
  revert fuel. induction l as [|[a b] l IH]; intros fuel s p Hc Hr Hs Ht Hp Hf; [simpl in Hc; subst p; by destruct fuel|].
  destruct fuel as [|fuel]; [simpl in Hf; lia|]. destruct Hc as (-> & Ha & Hc). cbn [copy_needed].
  apply list.Forall_cons in Hr as [Hr1 Hr]. rewrite (rdp_bind _ _ b), lwip_assert_bind, bool_decide_true by
    first [done | destruct (Z.eqb_spec (len b) (tot_len b)) as [E|]; [|done];
      destruct Ht as [Ht _]; destruct (solid_lsum _ Hs Hp) as (_ & _ & H1); simpl in H1;
      rewrite H1 in Hc by lia; simpl in Hc; by rewrite Hc].
  apply (IH fuel s (next b)); try done.
  - unfold solid in *. simpl in Hs. destruct Hs; [constructor|done].
  - by destruct Ht.
  - by apply list.Forall_cons in Hp as [_ Hp].
  - simpl in Hf. lia.
Qed.

Lemma first_stops l a b : solid ((a, b) :: l) -> tot_ok ((a, b) :: l) -> pays ((a, b) :: l) -> len b = tot_len b -> l = [].
Proof.
  intros Hs [Ht _] Hp E. destruct (solid_lsum _ Hs Hp) as (_ & _ & H1). simpl in H1. apply H1. lia.
Qed.

Lemma holds_det D l d d' : holds D l d -> holds D l d' -> d = d'.
Proof.
  intros Hd. revert d'. induction Hd as [|a b l d Hab _ IH]; intros d' Hd'; [by inversion Hd'|].
  destruct d' as [|b' d']; inversion Hd' as [|? ? ? ? Hab' Hl]; subst. f_equal; [congruence|by apply IH].
Qed.

Lemma ready_keep s ext q :
  link_inv s ext -> q ∈ ext -> pk_ready s q ->
  wp (keep_packet q) s (fun o s' => link_inv s' (option_list o ++ ext) /\ forall k d, o = Some k -> pk_data s q d -> pk_data s' k d).
Proof.
  intros (L & Hi) Hq (l & Hc & [Hp Hs Hk Ho Hl [d Hd]]). pose proof Hi as (_ & _ & _ & _ & Hts).
  pose proof (tots_chain _ _ _ Hts Hc) as Ht. pose proof (chain_length _ _ _ Hc) as Hlen.
  unfold keep_packet. wp_step. wp_step. wp_step. destruct l as [|[q' b] l]; [done|]. pose proof Hc as (E & Hb & Hcl). simplify_eq.
  destruct Hk as [Hk|[Hk Hr]].
  - eexists _, s. split.
    { apply (copy_needed_first _ s q' b); [done|done|]. intros E. rewrite (first_stops _ _ _ Hs Ht Hp E) in Hcl. exact Hcl. }
    cbv beta iota. wp_step. apply (wp_rdp _ _ b _ Hb). wp_step.
    destruct Ht as [Htot Ht]. change (tot_len b) with (tot_len b) in Htot.
    destruct (pbuf_alloc_ram_ok custom stale_flags s L ext PBUF_RAW (tot_len b) Hi) as (o & s' & E & Hpd & Hpost).
    { destruct (tot_is_sum _ _ _ _ _ _ Hi Hb Hc). unfold max_ram_length. change (lsum ((q', b) :: l)) with (len b + lsum l) in *. lia. }
    exists o, s'. split; [exact E|]. destruct o as [p|]; [|wp_step; destruct Hpost as [_ Hi']; split; [by exists L|done]].
    destruct Hpost as (k & L' & Hck & Hks & Hw & _ & Hi' & Hnew & _). destruct (ram_one _ _ _ _ _ E) as (pb & Hpb & Hnx).
    assert (k = [(p, pb)]) as -> by (apply (chain_det _ _ _ _ Hck); by split; [|split]).
    destruct (Hnew p pb ltac:(left)) as (Hfresh & Htp & _). pose proof Hi' as (_ & Hn' & _).
    destruct (Hn' p pb Hpb) as ((_ & _ & Hlu & Htu & n & _ & Hpl) & _). unfold payload_ok in Hpl. rewrite Htp in Hpl.
    destruct Hpl as (x & Hx & _).
    assert (chain (pbufs s') (Some q') ((q', b) :: l)) as Hc'.
    { eapply chain_ext; [|exact Hc]. intros a Ha. rewrite <- Hw. symmetry. apply without_lookup_ne. intros Hin.
      apply list_elem_of_singleton in Hin as ->. destruct (chain_in_fst _ _ _ _ Hc Ha) as (? & ? & Hin). simpl in Hin. congruence. }
    assert (p ∉ ((q', b) :: l).*1) as Hnp by (intros Hin; destruct (chain_in_fst _ _ _ _ Hc Hin) as (? & ? & ?); congruence).
    pose proof Hi' as (_ & _ & _ & _ & Hts').
    wp_step. exists ERR_OK. eexists. split.
    { apply (pbuf_copy_ok s' p q' [(p, pb)] ((q', b) :: l) d); try done.
      - constructor; [|constructor]. split; [by eexists|done].
      - exact (tots_chain _ _ _ Hts' Hck).
      - constructor.
      - intros a Ha. cbn [addrs] in Ha. rewrite Hx, app_nil_r in Ha. apply range_in in Ha as (i & -> & Hr).
        unfold is_u16 in Hlu. eapply (payload_outside s' L' _ p pb); [exact Hi'|done|by left|done|exact Hnp|exact Hc'|exact Ho|lia].
      - by rewrite Hpd.
      - rewrite Hks. change (lsum ((q', b) :: l)) with (len b + lsum l). lia. }
    change (negb (ERR_OK =? ERR_OK)) with false. cbv iota. wp_step. split; [by exists L'|]. intros k0 d0 [= <-] (l0 & Hc0 & Hd0).
    rewrite (chain_det _ _ _ _ Hc0 Hc) in Hd0. rewrite (holds_det _ _ _ _ Hd0 Hd). exists [(p, pb)]. split; [exact Hck|].
    pose proof (holds_length _ _ _ Hd) as Hdl. assert (pays [(p, pb)]) as Hpp by (constructor; [split; [by eexists|done]|constructor]).
    pose proof (addrs_length _ Hp) as Hz1. pose proof (addrs_length _ Hpp) as Hz2.
    destruct (tot_is_sum _ _ _ _ _ _ Hi Hb Hc) as [Hts2 _]. unfold zlen in Hz1, Hz2. rewrite take_ge by lia.
    apply store_holds; [|lia]. cbn [addrs]. rewrite Hx, app_nil_r. apply range_NoDup.
  - eexists _, s. split.
    { apply (copy_needed_rom _ ((q', b) :: l)); try done. unfold pbuf_fuel. lia. }
    cbv beta iota. wp_step. simpl in Hr. destruct (pbuf_ref_inv s L ext q' b Hi Hb Hr) as [E Hi'].
    eexists _, _. split; [exact E|]. wp_step. split; [by exists L|]. intros k0 d0 [= <-] (l0 & Hc0 & Hd0).
    rewrite (chain_det _ _ _ _ Hc0 Hc) in Hd0. exists ((q', upd_ref (ref b + 1) b) :: l). split; [|exact Hd0].
    split; [done|]. split; [apply lookup_insert_eq|]. apply chain_insert_ne; [|exact Hcl].
    pose proof (chain_NoDup _ _ _ Hc) as Hnd. by apply list.NoDup_cons in Hnd as [? _].
Qed.

Lemma link_perm s ext ext' : ext ≡ₚ ext' -> link_inv s ext -> link_inv s ext'.
Proof. intros HP [L Hi]. exists L. by eapply pinv_perm. Qed.

Definition pbuf_link_spec : @LinkPacketsSpec (pstate A) pbuf_link :=
  @Build_LinkPacketsSpec (pstate A) pbuf_link link_inv pk_is pk_room link_perm
    ready_alloc ready_free ready_keep ready_header.
End pbufs.

(** The packets of the system at boot. *)
#[export] Instance boot_link : LinkPackets (pstate allocators) := pbuf_link zero_flags no_custom.

#[export] Instance boot_link_spec : LinkPacketsSpec (pstate allocators) := pbuf_link_spec zero_flags no_custom.

Lemma pboot_link : lk_inv pboot [].
Proof. exists ∅. exact pboot_inv. Qed.

(** ** At boot *)

Definition no_entry : etharp_entry := ArpEntry None 0 None ethzero ETHARP_STATE_EMPTY 0.

(** The static variables of etharp.c are zero at boot. *)
Definition arp_boot (k : pstate allocators) : arp (pstate allocators) := Arp k (replicate 10 no_entry) 0 [] [] (fun _ => 0).

Definition driver_ok : list frame -> frame -> Z := fun _ _ => ERR_OK.

Lemma arp_boot_inv k ext : lk_inv k ext -> arp_inv (arp_boot k) ext.
Proof.
  intros Hi. split; [exact Hi|reflexivity| | |by compute].
  - apply Forall_replicate. split; [done|]. simpl. lia.
  - intros i j a b Ha _ Hne. apply lookup_replicate in Ha as [-> _]. done.
Qed.

(** A packet of ten bytes at boot, with room for a link header. *)
Definition one_packet : pstate allocators :=
  match pbuf_alloc zero_flags no_custom PBUF_LINK 10 PBUF_RAM pboot with
  | Done (_, k) => set_pdata (fun _ => store (range (RHeap, 34) 24) (replicate 24 7) ∅) k
  | Crash _ => pboot
  end.

Lemma one_packet_ok : exists L, pinv one_packet L [(RHeap, 8)] /\
  pbufs one_packet = {[(RHeap, 8) := Pbuf None (Some (RHeap, 48)) 10 10 PBUF_RAM 0 1]} /\
  holds (pdata one_packet) (range (RHeap, 34) 24) (replicate 24 7).
Proof.
  destruct (pbuf_alloc_ram_ok no_custom zero_flags pboot ∅ [] PBUF_LINK 10 pboot_inv
    ltac:(unfold max_ram_length; lia)) as (o & s & E & _ & Ho).
  assert (obs (pbuf_alloc zero_flags no_custom PBUF_LINK 10 PBUF_RAM pboot) =
    Some (Some (RHeap, 8), [((RHeap, 8), Pbuf None (Some (RHeap, 48)) 10 10 PBUF_RAM 0 1)])) as Hc
    by (vm_compute; reflexivity).
  apply obs_done in Hc as (s' & E' & Hs). unfold one_packet. rewrite E' in E |- *. injection E as <- <-.
  destruct Ho as (l & L & _ & _ & _ & _ & Hi & _). exists L. split; [exact Hi|]. split; [exact Hs|].
  apply store_holds; [exact (range_NoDup 24 (RHeap, 34))|reflexivity].
Qed.

Lemma arp_one : exists s : arp (pstate allocators), arp_inv s [(RHeap, 8)] /\ lk_ready (a_packets s) (RHeap, 8) /\
  lk_room (a_packets s) (RHeap, 8) SIZEOF_ETH_HDR /\ s = arp_boot one_packet /\ lk_data (a_packets s) (RHeap, 8) (replicate 10 7).
Proof.
  destruct one_packet_ok as (L & Hi & Hk' & Hd). set (b := Pbuf None (Some (RHeap, 48)) 10 10 PBUF_RAM 0 1) in Hk'.
  exists (arp_boot one_packet). split; [apply arp_boot_inv; by exists L|]. split; [|split; [|split; [done|]]].
  - exists [((RHeap, 8), b)]. cbn [a_packets arp_boot]. split; [by rewrite Hk'|]. split.
    + constructor; [|constructor]. split; [by eexists|]. unfold is_u16. simpl. lia.
    + constructor.
    + by left.
    + constructor; [|constructor]. by intros [?|?].
    + by compute.
    + exists (replicate 10 7). apply (holds_drop _ _ _ 14) in Hd. exact Hd.
  - exists b, (RHeap, 48). cbn [a_packets arp_boot]. rewrite Hk', lookup_singleton_eq.
    split; [done|]. split; [done|]. split; [apply nrefs_none; by intros x c [<- <-]%lookup_singleton_Some|].
    unfold SIZEOF_ETH_HDR, b. cbn [len tot_len].
    split; [done|]. split; [lia|]. split; [lia|]. split; [lia|]. intros i Hr.
    destruct (Forall2_lookup_l _ _ _ (Z.to_nat i) (padd (RHeap, 48) (i - 14)) Hd) as (v & _ & Hv); [|by eexists].
    clear - Hr. assert (i = 0 \/ i = 1 \/ i = 2 \/ i = 3 \/ i = 4 \/ i = 5 \/ i = 6 \/ i = 7 \/ i = 8 \/ i = 9 \/ i = 10 \/
      i = 11 \/ i = 12 \/ i = 13) as Hi by lia. repeat (destruct Hi as [->|Hi]; [reflexivity|]). by subst i.
  - exists [((RHeap, 8), b)]. cbn [a_packets arp_boot]. split; [by rewrite Hk'|]. apply (holds_drop _ _ _ 14) in Hd. exact Hd.
Qed.

Lemma etharp_find_entry_chooses_witness :
  exists r s', etharp_find_entry (Some (le32 10 0 0 2)) ETHARP_FLAG_TRY_HARD (arp_boot pboot) = Done (r, s') /\ arp_inv s' [].
Proof.
  destruct (etharp_find_entry_chooses [] (le32 10 0 0 2) ETHARP_FLAG_TRY_HARD _ (arp_boot_inv _ _ pboot_link))
    as (r & s' & E & Hi & _). by exists r, s'.
Defined.

Lemma etharp_calls_safe_witness :
  exists s s' : arp (pstate allocators),
    run_call driver_ok (fun _ => None) (COutput nif_demo (RHeap, 8) (le32 10 0 0 2)) s = Done (tt, s') /\ arp_inv s' [(RHeap, 8)].
Proof.
  destruct arp_one as (s & Hi & Hr & Hroom & _).
  destruct (etharp_calls_safe driver_ok (fun _ => None) [(RHeap, 8)] s (COutput nif_demo (RHeap, 8) (le32 10 0 0 2)) Hi)
    as (s' & E & Hi').
  - split; [reflexivity|]. split; [by left|]. by split.
  - by exists s, s'.
Defined.

(** The answer of the host 10.0.0.2. *)
Definition arp_answer : etharp_hdr :=
  EtharpHdr (lwip_htons HWTYPE_ETHERNET) (lwip_htons ETHTYPE_IP) ETHARP_HWADDR_LEN 4 (lwip_htons ARP_REPLY)
    [2; 0; 0; 0; 0; 2] (le32 10 0 0 2) (hwaddr nif_demo) (ip_addr nif_demo).

Lemma etharp_resolves_witness :
  exists (s1 s2 s3 : arp (pstate allocators)) k p rest,
    etharp_query driver_ok nif_demo (le32 10 0 0 2) (Some (RHeap, 8)) (arp_boot one_packet) = Done (ERR_OK, s1) /\
    lk_data (a_packets s1) k (replicate 10 7) /\
    etharp_arp_input driver_ok nif_demo (hwaddr nif_demo) p 42 (EthHdr (hwaddr nif_demo) [2; 0; 0; 0; 0; 2] (lwip_htons ETHTYPE_ARP)) arp_answer s2 = Done (tt, s3) /\
    frames s3 = frames s2 ++ ip_frame nif_demo k [2; 0; 0; 0; 0; 2] :: rest.
Proof.
  destruct arp_one as (s & Hi & Hr & _ & Hs & Hd). subst s.
  destruct (etharp_resolves driver_ok [(RHeap, 8)] nif_demo (le32 10 0 0 2) (RHeap, 8) (arp_boot one_packet) Hi
    ltac:(reflexivity) ltac:(reflexivity) ltac:(by left) Hr) as (r & s1 & E & Hi1 & Hor).
  assert (match etharp_query driver_ok nif_demo (le32 10 0 0 2) (Some (RHeap, 8)) (arp_boot one_packet) with
    | Done (r, s1) => (r =? ERR_OK) && forallb (fun e => negb (stable (a_state e))) (arp_table s1) &&
        match lk_alloc 42 (a_packets s1) with Done (Some _, _) => true | _ => false end
    | Crash _ => false end = true) as Hc by (vm_compute; reflexivity).
  rewrite E in Hc. apply andb_true_iff in Hc as [[->%Z.eqb_eq Hst]%andb_true_iff Hal].
  destruct (Hor eq_refl) as [(i & e & He & _ & Hse & _)|(i & e & k & He & _ & _ & _ & Hk & Hres)].
  { exfalso. rewrite forallb_forall in Hst. specialize (Hst e (proj1 (list_elem_of_In _ _) (list_elem_of_lookup_2 _ _ _ He))). by rewrite Hse in Hst. }
  destruct (lk_alloc_ok (a_packets s1) _ 42 (ai_own _ _ Hi1) ltac:(lia)) as (o & h & Ea & Hown & _).
  rewrite Ea in Hal. destruct o as [p|]; [|discriminate].
  assert (arp_inv (set_a_packets h s1) (p :: [(RHeap, 8)])) as Hi2.
  { eapply inv_packets; [exact Hi1|]. eapply lk_perm; [|exact Hown]. simpl. by rewrite Permutation_middle. }
  destruct (Hres p 42 (EthHdr (hwaddr nif_demo) [2; 0; 0; 0; 0; 2] (lwip_htons ETHTYPE_ARP)) arp_answer (set_a_packets h s1) Hi2
    eq_refl ltac:(reflexivity) ltac:(reflexivity)) as (s3 & rest & s4 & E3 & _ & Hf & _).
  exists s1, (set_a_packets h s1), s3, k, p, rest. split; [exact E|]. split; [exact (Hk _ Hd)|]. split; [exact E3|exact Hf].
Defined.

Lemma etharp_output_destination_witness :
  exists (s s' : arp (pstate allocators)) r, etharp_output driver_ok nif_demo (RHeap, 8) (le32 10 0 0 255) s = Done (r, s') /\
    (r = ERR_BUF \/ frames s' = [ip_frame nif_demo (RHeap, 8) ethbroadcast]).
Proof.
  destruct arp_one as (s & Hi & Hr & Hroom & Hs & _).
  destruct (etharp_output_destination driver_ok [(RHeap, 8)] nif_demo (RHeap, 8) (le32 10 0 0 255) s Hi
    ltac:(reflexivity) ltac:(by left) Hr Hroom) as (r & s' & fs & E & _ & Hf & Ho).
  exists s, s', r. split; [exact E|]. destruct Ho as [[-> _]|Ho]; [by left|]. right. rewrite Hs in Hf.
  assert (nz (ip4_addr_isbroadcast (le32 10 0 0 255) nif_demo) = true) as Hb by reflexivity.
  unfold output_spec in Ho. rewrite Hb in Ho. destruct Ho as [_ ->]. exact Hf.
Defined.

Lemma etharp_ages_out_witness :
  exists s', arp_ticks 240 (arp_boot pboot) = Done (tt, s') /\ lk_inv (a_packets s') [].
Proof.
  destruct (etharp_ages_out [] (arp_boot pboot) 240 (arp_boot_inv _ _ pboot_link) ltac:(by compute))
    as (s' & E & _ & _ & Hi & _). by exists s'.
Defined.
