(* ===== verification/Netif.v ===== *)
(** * Network interfaces

    core/netif.c and ip_route of core/ipv4/ip.c.  A struct netif is known by its
    address; the list of interfaces is threaded through the structs.  The calls into
    etharp.c come through [NetifArp].  The application's TCP lists are empty in this
    program (cwrap/lwip_stubs.c), so the loops of netif_set_ipaddr over them do
    nothing.  [rterr] is lwip_stats.ip.rterr. *)

From S2P Require Import Prelude ByteOrder IpAddr.

(** ** State *)

Record nif_node := NifNode { nn_if : netif; nn_next : option Z }.

Record netifs (E : Type) := Netifs {
  n_arp : E;
  nif_tab : gmap Z nif_node;
  netif_list : option Z;
  netif_default : option Z;
  netif_num : Z;
  rterr : Z
}.

Arguments Netifs {E} _ _ _ _ _ _.
Arguments n_arp {E} _.
Arguments nif_tab {E} _.
Arguments netif_list {E} _.
Arguments netif_default {E} _.
Arguments netif_num {E} _.
Arguments rterr {E} _.

(** etharp_cleanup_netif, of an interface by its number, and etharp_request. *)
Class NetifArp (E : Type) := {
  na_cleanup : Z -> M E unit;
  na_request : netif -> Z -> M E Z
}.

Definition not8 (z : Z) : Z := u8 (Z.lnot z).

Definition netif_is_up (nif : netif) : bool := nz (Z.land (netif_flags nif) NETIF_FLAG_UP).

(** ip_addr_set: a NULL pointer sets zero. *)
Definition addr_of (a : option Z) : Z := default 0 a.

Definition upd_nif_addr (a : Z) (nif : netif) : netif :=
  Netif a (netmask nif) (gw nif) (mtu nif) (hwaddr_len nif) (hwaddr nif) (netif_flags nif) (name nif) (num nif).

Definition upd_nif_mask (a : Z) (nif : netif) : netif :=
  Netif (ip_addr nif) a (gw nif) (mtu nif) (hwaddr_len nif) (hwaddr nif) (netif_flags nif) (name nif) (num nif).

Definition upd_nif_gw (a : Z) (nif : netif) : netif :=
  Netif (ip_addr nif) (netmask nif) a (mtu nif) (hwaddr_len nif) (hwaddr nif) (netif_flags nif) (name nif) (num nif).

Definition upd_nif_flags (f : Z) (nif : netif) : netif :=
  Netif (ip_addr nif) (netmask nif) (gw nif) (mtu nif) (hwaddr_len nif) (hwaddr nif) f (name nif) (num nif).

Definition upd_nif_num (n : Z) (nif : netif) : netif :=
  Netif (ip_addr nif) (netmask nif) (gw nif) (mtu nif) (hwaddr_len nif) (hwaddr nif) (netif_flags nif) (name nif) n.

Section netifs.
Context {E : Type} `{NetifArp E}.

Definition set_n_arp (e : E) (s : netifs E) : netifs E :=
  Netifs e (nif_tab s) (netif_list s) (netif_default s) (netif_num s) (rterr s).

Definition set_nif_tab (f : gmap Z nif_node -> gmap Z nif_node) (s : netifs E) : netifs E :=
  Netifs (n_arp s) (f (nif_tab s)) (netif_list s) (netif_default s) (netif_num s) (rterr s).

Definition set_netif_list (p : option Z) (s : netifs E) : netifs E :=
  Netifs (n_arp s) (nif_tab s) p (netif_default s) (netif_num s) (rterr s).

Definition set_netif_default (p : option Z) (s : netifs E) : netifs E :=
  Netifs (n_arp s) (nif_tab s) (netif_list s) p (netif_num s) (rterr s).

Definition set_netif_num (n : Z) (s : netifs E) : netifs E :=
  Netifs (n_arp s) (nif_tab s) (netif_list s) (netif_default s) n (rterr s).

(** IP_STATS_INC(ip.rterr) *)
Definition inc_rterr : M (netifs E) unit :=
  modify (fun s => Netifs (n_arp s) (nif_tab s) (netif_list s) (netif_default s) (netif_num s) (u16 (rterr s + 1))).

Definition on_arp {B} (m : M E B) : M (netifs E) B := fun s =>
  match m (n_arp s) with
  | Done (b, e) => Done (b, set_n_arp e s)
  | Crash c => Crash c
  end.

Definition rd_node (p : Z) : M (netifs E) nif_node := s ← get; deref (nif_tab s !! p).

Definition wr_node (p : Z) (n : nif_node) : M (netifs E) unit := modify (set_nif_tab (insert p n)).

Definition rd_nif (p : Z) : M (netifs E) netif := n ← rd_node p; mret (nn_if n).

Definition wr_nif (p : Z) (nif : netif) : M (netifs E) unit := n ← rd_node p; wr_node p (NifNode nif (nn_next n)).

Definition nif_fuel (s : netifs E) : nat := S (size (nif_tab s)).

(** ** Configuration *)

Definition netif_set_ipaddr (p : Z) (ipaddr : option Z) : M (netifs E) unit :=
  nif ← rd_nif p; wr_nif p (upd_nif_addr (addr_of ipaddr) nif).

Definition netif_set_gw (p : Z) (gw : option Z) : M (netifs E) unit :=
  nif ← rd_nif p; wr_nif p (upd_nif_gw (addr_of gw) nif).

Definition netif_set_netmask (p : Z) (netmask : option Z) : M (netifs E) unit :=
  nif ← rd_nif p; wr_nif p (upd_nif_mask (addr_of netmask) nif).

Definition netif_set_addr (p : Z) (ipaddr netmask gw : option Z) : M (netifs E) unit :=
  netif_set_ipaddr p ipaddr;; netif_set_netmask p netmask;; netif_set_gw p gw.

Definition netif_set_default (p : option Z) : M (netifs E) unit := modify (set_netif_default p).

(** etharp_gratuitous *)
Definition etharp_gratuitous (nif : netif) : M (netifs E) unit := on_arp (na_request nif (ip_addr nif));; mret tt.

Definition netif_set_up (p : Z) : M (netifs E) unit :=
  nif ← rd_nif p;
  if Z.land (netif_flags nif) NETIF_FLAG_UP =? 0 then
    let nif := upd_nif_flags (Z.lor (netif_flags nif) NETIF_FLAG_UP) nif in
    wr_nif p nif;;
    if nz (Z.land (netif_flags nif) NETIF_FLAG_LINK_UP) && nz (Z.land (netif_flags nif) NETIF_FLAG_ETHARP)
    then etharp_gratuitous nif else mret tt
  else mret tt.

Definition netif_set_down (p : Z) : M (netifs E) unit :=
  nif ← rd_nif p;
  if nz (Z.land (netif_flags nif) NETIF_FLAG_UP) then
    let nif := upd_nif_flags (Z.land (netif_flags nif) (not8 NETIF_FLAG_UP)) nif in
    wr_nif p nif;;
    if nz (Z.land (netif_flags nif) NETIF_FLAG_ETHARP) then on_arp (na_cleanup (num nif)) else mret tt
  else mret tt.

Definition netif_set_link_up (p : Z) : M (netifs E) unit :=
  nif ← rd_nif p;
  if Z.land (netif_flags nif) NETIF_FLAG_LINK_UP =? 0 then
    let nif := upd_nif_flags (Z.lor (netif_flags nif) NETIF_FLAG_LINK_UP) nif in
    wr_nif p nif;;
    if nz (Z.land (netif_flags nif) NETIF_FLAG_UP) && nz (Z.land (netif_flags nif) NETIF_FLAG_ETHARP)
    then etharp_gratuitous nif else mret tt
  else mret tt.

Definition netif_set_link_down (p : Z) : M (netifs E) unit :=
  nif ← rd_nif p;
  if nz (Z.land (netif_flags nif) NETIF_FLAG_LINK_UP)
  then wr_nif p (upd_nif_flags (Z.land (netif_flags nif) (not8 NETIF_FLAG_LINK_UP)) nif)
  else mret tt.

(** ** The list *)

(** [init] is the driver's function: it fills in the struct and returns an err_t. *)
Definition netif_add (p : Z) (ipaddr netmask gw : option Z) (init : netif -> netif * Z) : M (netifs E) (option Z) :=
  nif ← rd_nif p;
  s ← get;
  wr_nif p (upd_nif_num (netif_num s) (upd_nif_flags 0 (upd_nif_gw 0 (upd_nif_mask 0 (upd_nif_addr 0 nif)))));;
  modify (set_netif_num (u8 (netif_num s + 1)));;
  netif_set_addr p ipaddr netmask gw;;
  nif ← rd_nif p;
  let '(nif, err) := init nif in
  wr_nif p nif;;
  if negb (err =? 0) then mret None
  else
    s ← get;
    wr_node p (NifNode nif (netif_list s));;
    modify (set_netif_list (Some p));;
    mret (Some p).

(** The loop of netif_remove: was the interface found and unlinked? *)
Fixpoint unlink_loop (fuel : nat) (tmp : option Z) (p : Z) (next : option Z) : M (netifs E) bool :=
  match tmp with
  | None => mret false
  | Some t =>
      match fuel with
      | O => fail OutOfFuel
      | S fuel =>
          n ← rd_node t;
          if bool_decide (nn_next n = Some p) then wr_node t (NifNode (nn_if n) next);; mret true
          else unlink_loop fuel (nn_next n) p next
      end
  end.

Definition netif_remove (p : option Z) : M (netifs E) unit :=
  match p with
  | None => mret tt
  | Some p =>
      nif ← rd_nif p;
      (if netif_is_up nif then netif_set_down p else mret tt);;
      s ← get;
      n ← rd_node p;
      found ← (if bool_decide (netif_list s = Some p) then modify (set_netif_list (nn_next n));; mret true
               else unlink_loop (nif_fuel s) (netif_list s) p (nn_next n));
      if (found : bool) then
        s ← get;
        if bool_decide (netif_default s = Some p) then netif_set_default None else mret tt
      else mret tt
  end.

Fixpoint find_nif (fuel : nat) (p : option Z) (c0 c1 n : Z) : M (netifs E) (option Z) :=
  match p with
  | None => mret None
  | Some p =>
      match fuel with
      | O => fail OutOfFuel
      | S fuel =>
          nd ← rd_node p;
          let nif := nn_if nd in
          if (n =? num nif) && (c0 =? (name nif).1) && (c1 =? (name nif).2) then mret (Some p)
          else find_nif fuel (nn_next nd) c0 c1 n
      end
  end.

(** [nm] are the first three characters of the name. *)
Definition netif_find (nm : option (Z * Z * Z)) : M (netifs E) (option Z) :=
  match nm with
  | None => mret None
  | Some (c0, c1, c2) => s ← get; find_nif (nif_fuel s) (netif_list s) c0 c1 (u8 (c2 - 48))
  end.

(** ** Routing *)

Fixpoint route_loop (fuel : nat) (p : option Z) (dest : Z) : M (netifs E) (option Z) :=
  match p with
  | None => mret None
  | Some p =>
      match fuel with
      | O => fail OutOfFuel
      | S fuel =>
          nd ← rd_node p;
          let nif := nn_if nd in
          if netif_is_up nif && ip_addr_netcmp dest (ip_addr nif) (netmask nif) then mret (Some p)
          else route_loop fuel (nn_next nd) dest
      end
  end.

Definition ip_route (dest : Z) : M (netifs E) (option Z) :=
  s ← get;
  r ← route_loop (nif_fuel s) (netif_list s) dest;
  match r with
  | Some p => mret (Some p)
  | None =>
      match netif_default s with
      | None => inc_rterr;; mret None
      | Some d =>
          nif ← rd_nif d;
          if netif_is_up nif then mret (Some d) else inc_rterr;; mret None
      end
  end.
End netifs.
