(* ===== verification/NetifSpec.v ===== *)
(** * What the list of network interfaces promises

    The structs threaded into a list refine a list of addresses with a table of
    configurations, for every call of netif.c and for ip_route. *)

From S2P Require Import Prelude ByteOrder IpAddr Netif.

(** What the calls into etharp.c promise. *)
Class NetifArpSpec (E : Type) `{NetifArp E} := {
  na_inv : E -> Prop;
  na_cleanup_ok e n : na_inv e -> wp (na_cleanup n) e (fun _ e' => na_inv e');
  na_request_ok e nif ip : na_inv e -> hwaddr_len nif = 6 -> wp (na_request nif ip) e (fun _ e' => na_inv e')
}.

(** ** The specification *)

(** The interfaces in order, the configuration of every struct, the default
    interface and the two counters. *)
Record nabs := NAbs {
  ab_list : list Z;
  ab_tab : gmap Z netif;
  ab_default : option Z;
  ab_num : Z;
  ab_rterr : Z
}.

Inductive netif_call :=
| NAdd (p : Z) (ipaddr netmask gw : option Z) (init : netif -> netif * Z)
| NRemove (p : option Z)
| NSetAddr (p : Z) (ipaddr netmask gw : option Z)
| NSetDefault (p : option Z)
| NSetUp (p : Z)
| NSetDown (p : Z)
| NSetLinkUp (p : Z)
| NSetLinkDown (p : Z)
| NFind (nm : option (Z * Z * Z))
| NRoute (dest : Z).

Definition abs_tab (f : gmap Z netif -> gmap Z netif) (a : nabs) : nabs :=
  NAbs (ab_list a) (f (ab_tab a)) (ab_default a) (ab_num a) (ab_rterr a).

Definition flag_on (f : Z) (nif : netif) : netif :=
  if Z.land (netif_flags nif) f =? 0 then upd_nif_flags (Z.lor (netif_flags nif) f) nif else nif.

Definition flag_off (f : Z) (nif : netif) : netif :=
  if nz (Z.land (netif_flags nif) f) then upd_nif_flags (Z.land (netif_flags nif) (not8 f)) nif else nif.

Definition configured (ipaddr netmask gw : option Z) (nif : netif) : netif :=
  upd_nif_gw (addr_of gw) (upd_nif_mask (addr_of netmask) (upd_nif_addr (addr_of ipaddr) nif)).

Definition fresh_nif (n : Z) (nif : netif) : netif :=
  upd_nif_num n (upd_nif_flags 0 (upd_nif_gw 0 (upd_nif_mask 0 (upd_nif_addr 0 nif)))).

(** The first interface of the list that satisfies [f]. *)
Fixpoint first_nif (f : netif -> bool) (tab : gmap Z netif) (l : list Z) : option Z :=
  match l with
  | [] => None
  | p :: l => match tab !! p with
              | Some nif => if f nif then Some p else first_nif f tab l
              | None => None
              end
  end.

Definition on_net (dest : Z) (nif : netif) : bool := netif_is_up nif && ip_addr_netcmp dest (ip_addr nif) (netmask nif).

Definition named (c0 c1 n : Z) (nif : netif) : bool := (n =? num nif) && (c0 =? (name nif).1) && (c1 =? (name nif).2).

Definition route_of (a : nabs) (dest : Z) : option Z :=
  match first_nif (on_net dest) (ab_tab a) (ab_list a) with
  | Some p => Some p
  | None => match ab_default a with Some d => first_nif netif_is_up (ab_tab a) [d] | None => None end
  end.

(** netif_add's struct and error code. *)
Definition added (a : nabs) (p : Z) (ipaddr netmask gw : option Z) (init : netif -> netif * Z) : option (netif * Z) :=
  nif ← ab_tab a !! p; Some (init (configured ipaddr netmask gw (fresh_nif (ab_num a) nif))).

Definition abs_result (a : nabs) (c : netif_call) : option Z :=
  match c with
  | NAdd p i m g init => match added a p i m g init with Some (_, err) => if err =? 0 then Some p else None | None => None end
  | NFind (Some (c0, c1, c2)) => first_nif (named c0 c1 (u8 (c2 - 48))) (ab_tab a) (ab_list a)
  | NRoute dest => route_of a dest
  | _ => None
  end.

Definition abs_step (a : nabs) (c : netif_call) : nabs :=
  match c with
  | NAdd p i m g init =>
      match added a p i m g init with
      | Some (nif, err) =>
          NAbs (if err =? 0 then p :: ab_list a else ab_list a) (<[p := nif]> (ab_tab a)) (ab_default a) (u8 (ab_num a + 1)) (ab_rterr a)
      | None => a
      end
  | NRemove (Some p) =>
      NAbs (filter (fun x => x <> p) (ab_list a)) (alter (flag_off NETIF_FLAG_UP) p (ab_tab a))
        (if bool_decide (p ∈ ab_list a /\ ab_default a = Some p) then None else ab_default a) (ab_num a) (ab_rterr a)
  | NSetAddr p i m g => abs_tab (alter (configured i m g) p) a
  | NSetDefault p => NAbs (ab_list a) (ab_tab a) p (ab_num a) (ab_rterr a)
  | NSetUp p => abs_tab (alter (flag_on NETIF_FLAG_UP) p) a
  | NSetDown p => abs_tab (alter (flag_off NETIF_FLAG_UP) p) a
  | NSetLinkUp p => abs_tab (alter (flag_on NETIF_FLAG_LINK_UP) p) a
  | NSetLinkDown p => abs_tab (alter (flag_off NETIF_FLAG_LINK_UP) p) a
  | NRoute dest =>
      match route_of a dest with
      | Some _ => a
      | None => NAbs (ab_list a) (ab_tab a) (ab_default a) (ab_num a) (u16 (ab_rterr a + 1))
      end
  | NRemove None | NFind _ => a
  end.

(** Ethernet interfaces have addresses of six bytes. *)
Definition eth_len (nif : netif) : Prop := Z.land (netif_flags nif) NETIF_FLAG_ETHARP <> 0 -> hwaddr_len nif = 6.

(** The calls the documentation allows: the structs exist, and an interface is added
    when it is not in the list. *)
Definition ncall_ok (a : nabs) (c : netif_call) : Prop :=
  match c with
  | NAdd p i m g init =>
      (p ∉ ab_list a) /\ exists nif, ab_tab a !! p = Some nif /\ eth_len (init (configured i m g (fresh_nif (ab_num a) nif))).1
  | NSetDefault p | NRemove p => forall q, p = Some q -> is_Some (ab_tab a !! q)
  | NSetAddr p _ _ _ | NSetUp p | NSetDown p | NSetLinkUp p | NSetLinkDown p => is_Some (ab_tab a !! p)
  | NFind _ | NRoute _ => True
  end.

(** ** Lists threaded through the structs *)

Fixpoint nlist (m : gmap Z nif_node) (q : option Z) (l : list Z) : Prop :=
  match l with
  | [] => q = None
  | p :: l => q = Some p /\ exists n, m !! p = Some n /\ nlist m (nn_next n) l
  end.

Lemma nlist_ext m m' l : forall q,
  (forall p, p ∈ l -> (nn_next <$> m' !! p) = (nn_next <$> m !! p)) -> nlist m q l -> nlist m' q l.
Proof.
  induction l as [|p l IH]; intros q Hm Hl; [done|]. destruct Hl as (-> & n & Hn & Hl). split; [done|].
  pose proof (Hm p ltac:(left)) as E. rewrite Hn in E. destruct (m' !! p) as [n'|]; [|done]. simplify_eq/=.
  exists n'. split; [done|]. rewrite E. apply IH; [|done]. intros x Hx. apply Hm. by right.
Qed.

Lemma nlist_in m l p : forall q, nlist m q l -> p ∈ l -> is_Some (m !! p).
Proof.
  induction l as [|x l IH]; intros q Hl Hp; [by apply elem_of_nil in Hp|]. destruct Hl as (_ & n & Hn & Hl).
  apply elem_of_cons in Hp as [->|Hp]; [by eexists|by eapply IH].
Qed.

Lemma nlist_length m q l : nlist m q l -> NoDup l -> (length l <= size m)%nat.
Proof.
  intros Hl Hnd. rewrite <- size_dom. rewrite <- (size_list_to_set (C := gset Z)) by done.
  apply subseteq_size. intros p Hp%elem_of_list_to_set. apply elem_of_dom. by eapply nlist_in.
Qed.

Lemma filter_id (l : list Z) p : p ∉ l -> filter (fun x => x <> p) l = l.
Proof.
  induction l as [|x l IH]; intros Hp; [done|]. apply not_elem_of_cons in Hp as [Hx Hp].
  rewrite filter_cons_True by congruence. by rewrite IH.
Qed.

Section spec.
Context {E : Type} `{NetifArpSpec E}.
Implicit Types (s : netifs E) (a : nabs).

Record abs s a : Prop := Abs {
  as_tab : nn_if <$> nif_tab s = ab_tab a;
  as_list : nlist (nif_tab s) (netif_list s) (ab_list a);
  as_nodup : NoDup (ab_list a);
  as_default : netif_default s = ab_default a;
  as_valid : forall d, ab_default a = Some d -> is_Some (ab_tab a !! d);
  as_num : netif_num s = ab_num a;
  as_rterr : rterr s = ab_rterr a;
  as_eth : map_Forall (fun _ => eth_len) (ab_tab a);
  as_arp : na_inv (n_arp s)
}.

Lemma abs_node s a p nif : abs s a -> ab_tab a !! p = Some nif -> exists n, nif_tab s !! p = Some n /\ nn_if n = nif.
Proof.
  intros Ha Hp. rewrite <- (as_tab _ _ Ha), lookup_fmap in Hp. destruct (nif_tab s !! p) as [n|]; [|done].
  simplify_eq/=. by exists n.
Qed.

Lemma wp_rd_nif s a p nif Q : abs s a -> ab_tab a !! p = Some nif -> Q nif s -> wp (rd_nif p) s Q.
Proof.
  intros Ha Hp HQ. destruct (abs_node _ _ _ _ Ha Hp) as (n & Hn & En). exists nif, s. split; [|done].
  unfold rd_nif, rd_node. by rewrite bind_assoc, get_bind, (deref_bind _ n), En.
Qed.

(** Writing a configuration. *)
Lemma wp_wr_nif s a p old nif (Q : unit -> netifs E -> Prop) :
  abs s a -> ab_tab a !! p = Some old -> eth_len nif ->
  (forall s', abs s' (abs_tab (insert p nif) a) -> n_arp s' = n_arp s -> Q tt s') -> wp (wr_nif p nif) s Q.
Proof.
  intros Ha Hp He HQ. destruct (abs_node _ _ _ _ Ha Hp) as (n & Hn & En). eexists tt, _. split.
  { unfold wr_nif, rd_node. rewrite bind_assoc, get_bind, (deref_bind _ n) by done. done. }
  apply HQ; [|done]. destruct Ha as [Ht Hl Hnd Hd Hv Hnum Hr Heth Harp]. split; try done; cbn [abs_tab ab_tab ab_list ab_default set_nif_tab nif_tab netif_list].
  - by rewrite fmap_insert, Ht.
  - eapply nlist_ext; [|exact Hl]. intros x _. destruct (decide (x = p)) as [->|Hne].
    + by rewrite lookup_insert_eq, Hn.
    + by rewrite lookup_insert_ne.
  - intros d Hd'. destruct (decide (d = p)) as [->|Hne]; [rewrite lookup_insert_eq; by eexists|].
    rewrite lookup_insert_ne by done. by apply Hv.
  - by apply map_Forall_insert_2.
Qed.

Lemma wp_on_arp {B} (m : M E B) s (Q : B -> netifs E -> Prop) :
  wp m (n_arp s) (fun b e => Q b (set_n_arp e s)) -> wp (on_arp m) s Q.
Proof. intros (b & e & Eq & HQ). exists b, (set_n_arp e s). split; [|done]. unfold on_arp. by rewrite Eq. Qed.

Lemma abs_arp s a e : abs s a -> na_inv e -> abs (set_n_arp e s) a.
Proof. intros [? ? ? ? ? ? ? ? ?] He. by split. Qed.

Lemma gratuitous_ok s a nif (Q : unit -> netifs E -> Prop) :
  abs s a -> hwaddr_len nif = 6 -> (forall s', abs s' a -> Q tt s') -> wp (etharp_gratuitous nif) s Q.
Proof.
  intros Ha Hl HQ. unfold etharp_gratuitous. wp_step. apply wp_on_arp.
  eapply wp_mono; [apply na_request_ok; [apply (as_arp _ _ Ha)|done]|]. intros r e He. cbv beta. wp_step.
  by apply HQ, abs_arp.
Qed.

Lemma alter_put (f : netif -> netif) p nif (m : gmap Z netif) : m !! p = Some nif -> alter f p m = <[p := f nif]> m.
Proof. intros Hp. apply map_eq. intros x. destruct (decide (x = p)) as [->|Hne].
  - by rewrite lookup_alter_eq, lookup_insert_eq, Hp.
  - by rewrite lookup_alter_ne, lookup_insert_ne.
Qed.

Lemma abs_same s a f p nif : abs s a -> ab_tab a !! p = Some nif -> f nif = nif -> abs s (abs_tab (alter f p) a).
Proof.
  intros Ha Hp Hf. unfold abs_tab. rewrite (alter_put f p nif), Hf, insert_id by done. by destruct a.
Qed.

(** ** The operations *)

Lemma bit_off_on f k : Z.land f k = 0 -> Z.land (Z.lor f k) k = k.
Proof. intros E0. rewrite Z.land_lor_distr_l, E0, Z.land_diag. done. Qed.

Lemma set_ipaddr_ok s a p nif i (Q : unit -> netifs E -> Prop) :
  abs s a -> ab_tab a !! p = Some nif ->
  (forall s', abs s' (abs_tab (insert p (upd_nif_addr (addr_of i) nif)) a) -> Q tt s') -> wp (netif_set_ipaddr p i) s Q.
Proof.
  intros Ha Hp HQ. unfold netif_set_ipaddr. wp_step. apply (wp_rd_nif _ a _ nif); [done|done|].
  apply (wp_wr_nif _ a _ nif); [done|done|exact (as_eth _ _ Ha p nif Hp)|]. intros s' Hs' _. by apply HQ.
Qed.

Lemma set_netmask_ok s a p nif m (Q : unit -> netifs E -> Prop) :
  abs s a -> ab_tab a !! p = Some nif ->
  (forall s', abs s' (abs_tab (insert p (upd_nif_mask (addr_of m) nif)) a) -> Q tt s') -> wp (netif_set_netmask p m) s Q.
Proof.
  intros Ha Hp HQ. unfold netif_set_netmask. wp_step. apply (wp_rd_nif _ a _ nif); [done|done|].
  apply (wp_wr_nif _ a _ nif); [done|done|exact (as_eth _ _ Ha p nif Hp)|]. intros s' Hs' _. by apply HQ.
Qed.

Lemma set_gw_ok s a p nif g (Q : unit -> netifs E -> Prop) :
  abs s a -> ab_tab a !! p = Some nif ->
  (forall s', abs s' (abs_tab (insert p (upd_nif_gw (addr_of g) nif)) a) -> Q tt s') -> wp (netif_set_gw p g) s Q.
Proof.
  intros Ha Hp HQ. unfold netif_set_gw. wp_step. apply (wp_rd_nif _ a _ nif); [done|done|].
  apply (wp_wr_nif _ a _ nif); [done|done|exact (as_eth _ _ Ha p nif Hp)|]. intros s' Hs' _. by apply HQ.
Qed.

Lemma abs_tab_twice f g a : abs_tab f (abs_tab g a) = abs_tab (fun m => f (g m)) a.
Proof. done. Qed.

Lemma abs_tab_eq f g a : f (ab_tab a) = g (ab_tab a) -> abs_tab f a = abs_tab g a.
Proof. unfold abs_tab. by intros ->. Qed.

Lemma set_addr_ok s a p nif i m g (Q : unit -> netifs E -> Prop) :
  abs s a -> ab_tab a !! p = Some nif ->
  (forall s', abs s' (abs_tab (insert p (configured i m g nif)) a) -> Q tt s') -> wp (netif_set_addr p i m g) s Q.
Proof.
  intros Ha Hp HQ. unfold netif_set_addr. wp_step.
  eapply set_ipaddr_ok; [done|done|]. intros s1 H1. cbv beta. wp_step.
  eapply set_netmask_ok; [done|by apply lookup_insert_eq|]. intros s2 H2. cbv beta.
  eapply set_gw_ok; [done|by apply lookup_insert_eq|]. intros s3 H3. apply HQ.
  cbn [ab_tab abs_tab] in H3. rewrite !abs_tab_twice in H3. erewrite abs_tab_eq; [exact H3|]. cbv beta. by rewrite !insert_insert_eq.
Qed.

(** The four functions that change a flag. *)
Lemma abs_flag s a p nif nif' f : abs s (abs_tab (insert p nif') a) -> ab_tab a !! p = Some nif -> f nif = nif' ->
  abs s (abs_tab (alter f p) a).
Proof. intros Ha Hp <-. erewrite abs_tab_eq; [exact Ha|]. by apply alter_put. Qed.

Lemma eth_at s a p nif : abs s a -> ab_tab a !! p = Some nif -> eth_len nif.
Proof. intros Ha Hp. exact (as_eth _ _ Ha p nif Hp). Qed.

Lemma land_on f b k : Z.land b k = 0 -> Z.land (Z.lor f b) k = Z.land f k.
Proof. intros Hb. by rewrite Z.land_lor_distr_l, Hb, Z.lor_0_r. Qed.

Lemma land_off f b k : Z.land b k = k -> Z.land (Z.land f b) k = Z.land f k.
Proof. intros Hb. by rewrite <- Z.land_assoc, Hb. Qed.

Lemma flag_up_ok (b : Z) s a p nif (go : netif -> bool) :
  Z.land b NETIF_FLAG_ETHARP = 0 ->
  (forall nif, go nif = true -> nz (Z.land (netif_flags nif) NETIF_FLAG_ETHARP) = true) ->
  abs s a -> ab_tab a !! p = Some nif ->
  wp (nif ← rd_nif p;
      if Z.land (netif_flags nif) b =? 0 then
        let nif := upd_nif_flags (Z.lor (netif_flags nif) b) nif in
        wr_nif p nif;;
        if go nif then etharp_gratuitous nif else mret tt
      else mret tt) s (fun _ s' => abs s' (abs_tab (alter (flag_on b) p) a)).
Proof.
  intros Hb Hgo Ha Hp. pose proof (eth_at _ _ _ _ Ha Hp) as He. wp_step. apply (wp_rd_nif _ a _ nif); [done|done|].
  destruct (Z.land (netif_flags nif) b =? 0) eqn:Eb.
  - cbv zeta. wp_step. set (nif' := upd_nif_flags _ nif).
    assert (eth_len nif') as He' by (unfold eth_len, nif'; cbn [netif_flags upd_nif_flags hwaddr_len]; by rewrite land_on).
    apply (wp_wr_nif _ a _ nif); [done|done|done|]. intros s' Hs' _.
    assert (abs s' (abs_tab (alter (flag_on b) p) a)) as Hdone
      by (apply (abs_flag _ _ _ nif nif'); [done|done|unfold flag_on; by rewrite Eb]).
    destruct (go nif') eqn:Eg; [|by wp_step]. eapply gratuitous_ok; [done| |by intros ?].
    apply He'. apply Hgo in Eg. unfold nz in Eg. by apply negb_true_iff, Z.eqb_neq in Eg.
  - wp_step. apply (abs_same _ _ _ p nif); [done|done|]. unfold flag_on. by rewrite Eb.
Qed.

Lemma set_down_ok s a p nif :
  abs s a -> ab_tab a !! p = Some nif ->
  wp (netif_set_down p) s (fun _ s' => abs s' (abs_tab (alter (flag_off NETIF_FLAG_UP) p) a)).
Proof.
  intros Ha Hp. unfold netif_set_down. wp_step. apply (wp_rd_nif _ a _ nif); [done|done|].
  destruct (nz (Z.land (netif_flags nif) NETIF_FLAG_UP)) eqn:Eb.
  - cbv zeta. wp_step. set (nif' := upd_nif_flags _ nif).
    apply (wp_wr_nif _ a _ nif); [done|done| |].
    { unfold eth_len, nif'. cbn [netif_flags upd_nif_flags hwaddr_len]. rewrite land_off by done. exact (eth_at _ _ _ _ Ha Hp). }
    intros s' Hs' _.
    assert (abs s' (abs_tab (alter (flag_off NETIF_FLAG_UP) p) a)) as Hdone
      by (apply (abs_flag _ _ _ nif nif'); [done|done|unfold flag_off; by rewrite Eb]).
    cbv beta. destruct (nz (Z.land (netif_flags nif') NETIF_FLAG_ETHARP)); [|by wp_step]. apply wp_on_arp.
    eapply wp_mono; [apply na_cleanup_ok, (as_arp _ _ Hdone)|]. intros ? e He. by apply abs_arp.
  - wp_step. apply (abs_same _ _ _ p nif); [done|done|]. unfold flag_off. by rewrite Eb.
Qed.

Lemma link_down_ok s a p nif :
  abs s a -> ab_tab a !! p = Some nif ->
  wp (netif_set_link_down p) s (fun _ s' => abs s' (abs_tab (alter (flag_off NETIF_FLAG_LINK_UP) p) a)).
Proof.
  intros Ha Hp. unfold netif_set_link_down. wp_step. apply (wp_rd_nif _ a _ nif); [done|done|].
  destruct (nz (Z.land (netif_flags nif) NETIF_FLAG_LINK_UP)) eqn:Eb.
  - apply (wp_wr_nif _ a _ nif); [done|done| |].
    { unfold eth_len. cbn [netif_flags upd_nif_flags hwaddr_len]. rewrite land_off by done. exact (eth_at _ _ _ _ Ha Hp). }
    intros s' Hs' _. apply (abs_flag _ _ _ nif _ _ Hs' Hp). unfold flag_off. by rewrite Eb.
  - wp_step. apply (abs_same _ _ _ p nif); [done|done|]. unfold flag_off. by rewrite Eb.
Qed.

(** ** The list *)

Lemma rd_node_bind {B} s p n (k : nif_node -> M (netifs E) B) : nif_tab s !! p = Some n -> (rd_node p ≫= k) s = k n s.
Proof. intros Hn. unfold rd_node. by rewrite bind_assoc, get_bind, (deref_bind _ n). Qed.

Lemma walk_ok (f : netif -> bool) (loop : nat -> option Z -> M (netifs E) (option Z)) :
  (forall fuel q, loop fuel q = match q with
     | None => mret None
     | Some p => match fuel with
         | O => fail OutOfFuel
         | S fuel => nd ← rd_node p; if f (nn_if nd) then mret (Some p) else loop fuel (nn_next nd)
         end
     end) ->
  forall s l fuel q, nlist (nif_tab s) q l -> (length l <= fuel)%nat ->
  loop fuel q s = Done (first_nif f (nn_if <$> nif_tab s) l, s).
Proof.
  intros Hloop s l. induction l as [|p l IH]; intros fuel q Hl Hf; rewrite Hloop.
  - simpl in Hl. by subst q.
  - destruct Hl as (-> & n & Hn & Hl). destruct fuel as [|fuel]; [simpl in Hf; lia|]. rewrite (rd_node_bind _ _ n) by done.
    cbn [first_nif]. rewrite lookup_fmap, Hn. cbn [fmap option_fmap option_map]. destruct (f (nn_if n)); [done|].
    apply IH; [done|simpl in Hf; lia].
Qed.

Lemma list_fuel s a : abs s a -> (length (ab_list a) <= nif_fuel s)%nat.
Proof. intros Ha. pose proof (nlist_length _ _ _ (as_list _ _ Ha) (as_nodup _ _ Ha)). unfold nif_fuel. lia. Qed.

Lemma find_ok s a nm : abs s a -> netif_find nm s = Done (abs_result a (NFind nm), s).
Proof.
  intros Ha. unfold netif_find. destruct nm as [[[c0 c1] c2]|]; [|done]. rewrite get_bind. cbn [abs_result].
  rewrite <- (as_tab _ _ Ha).
  apply (walk_ok (named c0 c1 (u8 (c2 - 48))) (fun fuel q => find_nif fuel q c0 c1 (u8 (c2 - 48)))).
  - intros [|fuel] [q|]; done.
  - apply Ha.
  - by apply list_fuel.
Qed.

Lemma route_loop_ok s a dest : abs s a ->
  route_loop (nif_fuel s) (netif_list s) dest s = Done (first_nif (on_net dest) (ab_tab a) (ab_list a), s).
Proof.
  intros Ha. rewrite <- (as_tab _ _ Ha).
  apply (walk_ok (on_net dest) (fun fuel q => route_loop fuel q dest)).
  - intros [|fuel] [q|]; done.
  - apply Ha.
  - by apply list_fuel.
Qed.

Lemma no_route s a : abs s a ->
  abs (Netifs (n_arp s) (nif_tab s) (netif_list s) (netif_default s) (netif_num s) (u16 (rterr s + 1)))
    (NAbs (ab_list a) (ab_tab a) (ab_default a) (ab_num a) (u16 (ab_rterr a + 1))).
Proof. intros [? ? ? ? ? ? Hr ? ?]. split; try done. simpl. by rewrite Hr. Qed.

Lemma route_ok s a dest : abs s a ->
  wp (ip_route dest) s (fun r s' => r = abs_result a (NRoute dest) /\ abs s' (abs_step a (NRoute dest))).
Proof.
  intros Ha. unfold ip_route. wp_step. wp_step. wp_step. eexists _, s. split; [by apply route_loop_ok|]. cbv beta.
  cbn [abs_result abs_step]. unfold route_of. destruct (first_nif (on_net dest) _ _) as [p|]; [by wp_step|].
  rewrite (as_default _ _ Ha). destruct (ab_default a) as [d|] eqn:Ed; cbn [first_nif].
  - destruct (as_valid _ _ Ha d Ed) as [nif Hd]. rewrite Hd. wp_step. apply (wp_rd_nif _ a _ nif); [done|done|].
    cbv beta. destruct (netif_is_up nif); [by wp_step|]. unfold inc_rterr. wp_step. wp_step. wp_step. split; [done|].
    pose proof (no_route s a Ha) as Hr. by rewrite Ed in Hr.
  - unfold inc_rterr. wp_step. wp_step. wp_step. split; [done|]. pose proof (no_route s a Ha) as Hr. by rewrite Ed in Hr.
Qed.

(** netif_remove's loop, on a list that does not start with the interface. *)
Lemma unlink_nif_ok p np l : forall fuel q s,
  nlist (nif_tab s) q l -> NoDup l -> head l <> Some p -> nif_tab s !! p = Some np -> (length l <= fuel)%nat ->
  exists m', unlink_loop fuel q p (nn_next np) s = Done (bool_decide (p ∈ l), set_nif_tab (fun _ => m') s) /\
    nlist m' q (filter (fun x => x <> p) l) /\ nn_if <$> m' = nn_if <$> nif_tab s /\
    forall x, x ∉ l -> m' !! x = nif_tab s !! x.
Proof.
  induction l as [|t l IH]; intros fuel q s Hl Hnd Hh Hp Hf.
  - simpl in Hl. subst q. exists (nif_tab s). split; [destruct fuel; by destruct s|done].
  - destruct Hl as (-> & n & Hn & Hl). apply list.NoDup_cons in Hnd as [Ht Hnd]. simpl in Hh.
    assert (t <> p) as Htp by congruence. destruct fuel as [|fuel]; [simpl in Hf; lia|].
    cbn [unlink_loop]. rewrite (rd_node_bind _ _ n) by done. rewrite filter_cons_True by done.
    destruct (decide (nn_next n = Some p)) as [En|En].
    + rewrite bool_decide_true by done. destruct l as [|p' l]; [simpl in Hl; congruence|].
      destruct Hl as (E1 & n' & Hn' & Hl). rewrite En in E1. simplify_eq.
      exists (<[t := NifNode (nn_if n) (nn_next n')]> (nif_tab s)).
      apply list.NoDup_cons in Hnd as [Hpl Hnd]. split; [|split; [|split]].
      * rewrite bool_decide_true by (right; left). by rewrite ?Hn'.
      * rewrite filter_cons_False by auto. rewrite filter_id by done. split; [done|]. eexists.
        split; [apply lookup_insert_eq|]. eapply nlist_ext; [|exact Hl]. intros x Hx. rewrite lookup_insert_ne; [done|].
        intros <-. apply Ht. by right.
      * rewrite fmap_insert. apply insert_id. by rewrite lookup_fmap, Hn.
      * intros x Hx%not_elem_of_cons. by rewrite lookup_insert_ne by (intros <-; by destruct Hx).
    + rewrite bool_decide_false by done.
      destruct (IH fuel (nn_next n) s Hl Hnd) as (m' & E1 & Hl' & Hc & Hx); [|done|simpl in Hf; lia|].
      { intros Eh. destruct l as [|x l]; [done|]. simplify_eq/=. by destruct Hl. }
      exists m'. split; [rewrite E1; f_equal; f_equal|split; [|split; [done|]]].
      * apply bool_decide_ext. rewrite elem_of_cons. split; [by right|]. by intros [->|?].
      * split; [done|]. exists n. split; [by rewrite Hx|done].
      * intros x Hxl%not_elem_of_cons. apply Hx. apply Hxl.
Qed.

(** Taking [p] out of the list. *)
Definition detached s (m : gmap Z nif_node) (p : Z) (n : nif_node) : netifs E :=
  set_netif_list (if bool_decide (netif_list s = Some p) then nn_next n else netif_list s) (set_nif_tab (fun _ => m) s).

Lemma detach_ok s a p n : abs s a -> nif_tab s !! p = Some n ->
  exists m, (if bool_decide (netif_list s = Some p) then modify (set_netif_list (nn_next n));; mret true
    else unlink_loop (nif_fuel s) (netif_list s) p (nn_next n)) s = Done (bool_decide (p ∈ ab_list a), detached s m p n) /\
    nn_if <$> m = nn_if <$> nif_tab s /\ nlist m (netif_list (detached s m p n)) (filter (fun x => x <> p) (ab_list a)).
Proof.
  intros [Ht Hl Hnd Hd Hv Hnum Hr Heth Harp] Hn. unfold detached. destruct (decide (netif_list s = Some p)) as [Eh|Eh].
  - rewrite !bool_decide_true by (done || (destruct (ab_list a); simpl in Hl; [congruence|destruct Hl as [E2 _]; simplify_eq; left])).
    exists (nif_tab s). split; [by destruct s|]. split; [done|]. destruct (ab_list a) as [|p' l]; [simpl in Hl; congruence|].
    destruct Hl as (E2 & n' & Hn' & Hl). assert (p' = p) as -> by congruence. simplify_eq.
    apply list.NoDup_cons in Hnd as [Hp' Hnd]. rewrite filter_cons_False by auto. by rewrite filter_id.
  - rewrite !(bool_decide_false (netif_list s = Some p)) by done.
    destruct (unlink_nif_ok p n (ab_list a) (nif_fuel s) (netif_list s) s Hl Hnd) as (m' & E1 & Hl' & Hc & _); [|done| |].
    + intros E2. destruct (ab_list a) as [|p' l]; [done|]. simplify_eq/=. by destruct Hl as [? _].
    + pose proof (nlist_length _ _ _ Hl Hnd). unfold nif_fuel. lia.
    + exists m'. split; [rewrite E1; by destruct s|done].
Qed.

Lemma detached_abs s a p n m d : abs s a -> nn_if <$> m = nn_if <$> nif_tab s ->
  nlist m (netif_list (detached s m p n)) (filter (fun x => x <> p) (ab_list a)) ->
  (forall x, d = Some x -> is_Some (ab_tab a !! x)) ->
  abs (set_netif_default d (detached s m p n)) (NAbs (filter (fun x => x <> p) (ab_list a)) (ab_tab a) d (ab_num a) (ab_rterr a)).
Proof.
  intros [Ht Hl Hnd Hd Hv Hnum Hr Heth Harp] Hc Hl' Hvd. split; try done; cbn; [by rewrite Hc|]. by apply list.NoDup_filter.
Qed.

Lemma remove_ok s a p nif : abs s a -> ab_tab a !! p = Some nif ->
  wp (netif_remove (Some p)) s (fun _ s' => abs s' (abs_step a (NRemove (Some p)))).
Proof.
  intros Ha Hp. unfold netif_remove. wp_step. apply (wp_rd_nif _ a _ nif); [done|done|]. cbv beta. wp_step.
  apply (wp_mono _ _ (fun _ s1 => abs s1 (abs_tab (alter (flag_off NETIF_FLAG_UP) p) a))).
  { destruct (netif_is_up nif) eqn:Eu; [by eapply set_down_ok|]. wp_step. apply (abs_same _ _ _ p nif); [done|done|].
    unfold flag_off. unfold netif_is_up in Eu. by rewrite Eu. }
  intros ? s1 H1. set (a1 := abs_tab _ a) in H1.
  destruct (abs_node s1 a1 p (flag_off NETIF_FLAG_UP nif) H1) as (n & Hn & _).
  { unfold a1. cbn [abs_tab ab_tab]. by rewrite lookup_alter_eq, Hp. }
  cbv beta. wp_step. wp_step. wp_step. exists n, s1. split; [unfold rd_node; by rewrite get_bind, Hn|]. cbv beta. wp_step.
  destruct (detach_ok s1 a1 p n H1 Hn) as (m & E1 & Hc & Hl). eexists _, _. split; [exact E1|]. cbv beta.
  pose proof (fun d => detached_abs s1 a1 p n m d H1 Hc Hl) as Hfin.
  assert (abs (detached s1 m p n) (NAbs (filter (fun x => x <> p) (ab_list a)) (ab_tab a1) (ab_default a) (ab_num a) (ab_rterr a))) as Hsame.
  { specialize (Hfin (ab_default a1) (as_valid _ _ H1)). rewrite <- (as_default _ _ H1) in Hfin at 1. by destruct s1. }
  change (ab_list a1) with (ab_list a) in *. cbn [abs_step]. destruct (decide (p ∈ ab_list a)) as [Hin|Hin].
  - rewrite (bool_decide_true (p ∈ ab_list a)) by done. wp_step. wp_step.
    change (netif_default (detached s1 m p n)) with (netif_default s1). rewrite (as_default _ _ H1).
    change (ab_default a1) with (ab_default a). destruct (decide (ab_default a = Some p)) as [Ed|Ed].
    + rewrite (bool_decide_true (ab_default a = Some p)), (bool_decide_true (_ /\ _)) by done.
      unfold netif_set_default. wp_step. by apply Hfin.
    + rewrite (bool_decide_false (ab_default a = Some p)), (bool_decide_false (_ /\ _)) by tauto. by wp_step.
  - rewrite (bool_decide_false (p ∈ ab_list a)), (bool_decide_false (_ /\ _)) by tauto. by wp_step.
Qed.

Lemma add_ok s a p i m g init : abs s a -> ncall_ok a (NAdd p i m g init) ->
  wp (netif_add p i m g init) s (fun r s' => r = abs_result a (NAdd p i m g init) /\ abs s' (abs_step a (NAdd p i m g init))).
Proof.
  intros Ha (Hnin & nif & Hp & Heth). cbn [abs_result abs_step]. unfold added. rewrite Hp. cbn [mbind option_bind].
  unfold netif_add. wp_step. apply (wp_rd_nif _ a _ nif); [done|done|]. cbv beta. wp_step. wp_step. wp_step.
  rewrite (as_num _ _ Ha). set (fresh := fresh_nif (ab_num a) nif) in *.
  apply (wp_wr_nif _ a _ nif); [done|done|by intros Hf|]. intros s1 H1 _. cbv beta. wp_step. wp_step. wp_step.
  set (a2 := NAbs (ab_list a) (<[p := fresh]> (ab_tab a)) (ab_default a) (u8 (ab_num a + 1)) (ab_rterr a)).
  assert (abs (set_netif_num (u8 (ab_num a + 1)) s1) a2) as H2 by (destruct H1; by split).
  apply (set_addr_ok _ a2 p fresh); [done|by apply lookup_insert_eq|]. intros s3 H3. cbv beta.
  set (nif3 := configured i m g fresh) in *. wp_step. apply (wp_rd_nif _ _ _ nif3 _ H3); [by apply lookup_insert_eq|]. cbv beta.
  destruct (init nif3) as [nif4 err] eqn:Ei. cbn [fst] in Heth. cbv zeta. wp_step.
  apply (wp_wr_nif _ _ _ nif3 _ _ H3); [by apply lookup_insert_eq|done|]. intros s4 H4 _. cbv beta.
  assert (abs s4 (NAbs (ab_list a) (<[p := nif4]> (ab_tab a)) (ab_default a) (u8 (ab_num a + 1)) (ab_rterr a))) as H4'.
  { rewrite !abs_tab_twice in H4. unfold abs_tab, a2 in H4. cbn in H4. by rewrite !insert_insert_eq in H4. }
  clear H4. destruct (err =? 0); cbn [negb]; [|by wp_step]. wp_step. wp_step. wp_step.
  destruct H4' as [Ht Hl Hnd Hd Hv Hnum Hr He Harp]. cbn [ab_list ab_tab ab_default ab_num ab_rterr] in *.
  unfold wr_node. wp_step. wp_step. wp_step. wp_step. split; [done|]. split; try done; cbn [ab_list ab_tab ab_default set_netif_list set_nif_tab nif_tab netif_list].
  - rewrite fmap_insert, Ht. simpl. by rewrite insert_insert_eq.
  - split; [done|]. eexists. split; [apply lookup_insert_eq|]. cbn [nn_next]. eapply nlist_ext; [|exact Hl].
    intros x Hx. rewrite lookup_insert_ne; [done|]. by intros <-.
  - by apply list.NoDup_cons.
Qed.

(** ** Every call *)

Definition run_ncall (c : netif_call) : M (netifs E) (option Z) :=
  match c with
  | NAdd p i m g init => netif_add p i m g init
  | NRemove p => netif_remove p;; mret None
  | NSetAddr p i m g => netif_set_addr p i m g;; mret None
  | NSetDefault p => netif_set_default p;; mret None
  | NSetUp p => netif_set_up p;; mret None
  | NSetDown p => netif_set_down p;; mret None
  | NSetLinkUp p => netif_set_link_up p;; mret None
  | NSetLinkDown p => netif_set_link_down p;; mret None
  | NFind nm => netif_find nm
  | NRoute dest => ip_route dest
  end.

(** C29: the linked list of struct netifs implements a list with a table, call by
    call: netif_add puts the interface in front (unless the driver's function fails)
    and counts, netif_remove takes it out wherever it is, brings it down and resets
    the default, the setters change the one struct, netif_find gives the first
    interface of the name and number, and ip_route the first one that is up and on
    whose network the address is, else the default if it is up, else none, counted
    as an error.  All calls return. *)
Theorem netif_refines s a c :
  abs s a -> ncall_ok a c ->
  exists r s', run_ncall c s = Done (r, s') /\ r = abs_result a c /\ abs s' (abs_step a c).
Proof.
  intros Ha Hc. change (wp (run_ncall c) s (fun r s' => r = abs_result a c /\ abs s' (abs_step a c))).
  assert (forall (m : M (netifs E) unit) a', abs_result a c = None -> abs_step a c = a' -> wp m s (fun _ s' => abs s' a') ->
    wp (m;; mret None) s (fun r s' => r = abs_result a c /\ abs s' (abs_step a c))) as Hunit.
  { intros m a' -> -> Hw. wp_step. eapply wp_mono; [exact Hw|]. intros ? s' Hs'. cbv beta. by wp_step. }
  destruct c as [p i m g init|p|p i m g|p|p|p|p|p|nm|dest]; cbn [run_ncall ncall_ok] in *.
  - by apply add_ok.
  - destruct p as [p|]; [|by apply (Hunit _ a); [done|done|apply wp_ret]]. destruct (Hc p eq_refl) as [nif Hp].
    eapply Hunit; [done|done|]. by eapply remove_ok.
  - destruct Hc as [nif Hp]. eapply Hunit; [done|done|]. apply (set_addr_ok _ a p nif); [done|done|]. intros s' Hs'.
    exact (abs_flag s' a p nif _ (configured i m g) Hs' Hp eq_refl).
  - eapply Hunit; [done|done|]. unfold netif_set_default. apply wp_modify.
    destruct Ha. by split.
  - destruct Hc as [nif Hp]. eapply Hunit; [done|done|]. apply (flag_up_ok NETIF_FLAG_UP s a p nif (fun n => nz (Z.land (netif_flags n) NETIF_FLAG_LINK_UP) &&
      nz (Z.land (netif_flags n) NETIF_FLAG_ETHARP))); [done| |done|done].
    intros nif' E1. by apply andb_true_iff in E1 as [_ ?].
  - destruct Hc as [nif Hp]. eapply Hunit; [done|done|]. by eapply set_down_ok.
  - destruct Hc as [nif Hp]. eapply Hunit; [done|done|]. apply (flag_up_ok NETIF_FLAG_LINK_UP s a p nif (fun n => nz (Z.land (netif_flags n) NETIF_FLAG_UP) &&
      nz (Z.land (netif_flags n) NETIF_FLAG_ETHARP))); [done| |done|done].
    intros nif' E1. by apply andb_true_iff in E1 as [_ ?].
  - destruct Hc as [nif Hp]. eapply Hunit; [done|done|]. by eapply link_down_ok.
  - eexists _, s. split; [by apply (find_ok _ a)|done].
  - by apply route_ok.
Qed.
End spec.
