(* ===== verification/NetifEtharp.v ===== *)
(** * ARP under the network interfaces

    etharp.c as netif.c calls it, and the interfaces at boot. *)

From S2P Require Import Prelude ByteOrder Alloc Pbuf AllocImpl PbufSpec PbufData IpAddr Etharp EtharpTable EtharpOps EtharpSpec EtharpPbuf Netif NetifSpec.

Section arp.
Context {S : Type} `{LinkPacketsSpec S}.
Context (linkoutput : list frame -> frame -> Z).
Context (ext : list ptr).

Definition etharp_netif : NetifArp (arp S) := {|
  na_cleanup := etharp_cleanup_netif;
  na_request := etharp_request linkoutput
|}.

Lemma arp_cleanup (e : arp S) n : arp_inv e ext -> wp (etharp_cleanup_netif n) e (fun _ e' => arp_inv e' ext).
Proof. intros Hi. eapply wp_mono; [by apply (cleanup_ok ext)|]. by intros ? e' [? _]. Qed.

Lemma arp_request (e : arp S) nif ip : arp_inv e ext -> hwaddr_len nif = 6 ->
  wp (etharp_request linkoutput nif ip) e (fun _ e' => arp_inv e' ext).
Proof. intros Hi Hl. eapply wp_mono; [by apply (request_ok linkoutput ext)|]. by intros r e' (_ & [[_ []]|(p & _ & [])]). Qed.

Definition etharp_netif_spec : @NetifArpSpec (arp S) etharp_netif :=
  @Build_NetifArpSpec (arp S) etharp_netif (fun e => arp_inv e ext) arp_cleanup arp_request.
End arp.

#[export] Instance boot_netif_arp : NetifArp (arp (pstate allocators)) := etharp_netif driver_ok.

#[export] Instance boot_netif_arp_spec : NetifArpSpec (arp (pstate allocators)) := etharp_netif_spec driver_ok [].

(** Two structs the application has, and no interface yet. *)
Definition zero_nif : netif := Netif 0 0 0 0 0 [] 0 (0, 0) 0.

Definition netifs_boot : netifs (arp (pstate allocators)) :=
  Netifs (arp_boot pboot) {[1 := NifNode zero_nif None; 2 := NifNode zero_nif None]} None None 0 0.

Lemma netifs_boot_abs : abs netifs_boot (NAbs [] {[1 := zero_nif; 2 := zero_nif]} None 0 0).
Proof.
  split; try done; [constructor| |exact (arp_boot_inv pboot [] pboot_link)].
  intros p nif Hp. cbn [ab_tab] in Hp. apply lookup_insert_Some in Hp as [[_ <-]|[_ [_ <-]%lookup_singleton_Some]]; by intros ?.
Qed.

(** A driver's init function. *)
Definition ethernetif_init (nif : netif) : netif * Z :=
  (Netif (ip_addr nif) (netmask nif) (gw nif) 1500 6 [2; 0; 0; 0; 0; 1] 0x32 (101, 110) (num nif), ERR_OK).

Lemma netif_refines_witness :
  exists s', run_ncall (NAdd 1 (Some (le32 10 0 0 1)) (Some (le32 255 255 255 0)) None ethernetif_init) netifs_boot = Done (Some 1, s') /\
    netif_list s' = Some 1.
Proof.
  destruct (netif_refines netifs_boot _ (NAdd 1 (Some (le32 10 0 0 1)) (Some (le32 255 255 255 0)) None ethernetif_init)
    netifs_boot_abs) as (r & s' & E & Hr & Ha).
  - split; [by intros ?%elem_of_nil|]. exists zero_nif. split; [reflexivity|]. intros _. reflexivity.
  - exists s'. split; [by rewrite E, Hr|]. destruct (as_list _ _ Ha) as [Hl _]. exact Hl.
Defined.

(** netif_add does not look whether the interface is in the list: added twice, it is
    its own successor, and the loop of ip_route for an address on no network does
    not end. *)
Theorem netif_add_twice_loops :
  exists s', (run_ncall (NAdd 1 (Some (le32 10 0 0 1)) (Some (le32 255 255 255 0)) None ethernetif_init);;
      run_ncall (NAdd 1 (Some (le32 10 0 0 1)) (Some (le32 255 255 255 0)) None ethernetif_init)) netifs_boot = Done (Some 1, s') /\
    forall fuel, route_loop fuel (netif_list s') (le32 192 168 0 1) s' = Crash OutOfFuel.
Proof.
  eexists. split; [vm_compute; reflexivity|]. intros fuel. cbn [netif_list]. induction fuel as [|fuel IH]; [reflexivity|].
  cbn [route_loop]. exact IH.
Qed.
