(* ===== verification/Ip.v ===== *)
(** * IP output

    The variables of core/ipv4/ip.c, the access to headers in packets, ip_output_if
    and ip_output.  Below are the interfaces of Netif.v with the state [E] of what is
    under them, in which the packet buffers are ([PacketHost]).  [output] is
    netif->output of an interface; what it is given is recorded in [ip_out], with the
    bytes of the packet at that time.  [ip_frag], for packets larger than the
    MTU, is the function of core/ipv4/ip_frag.c. *)

From S2P Require Import Prelude ByteOrder Chksum Alloc Pbuf PbufData IpAddr IpHdr Netif.

(** ** State *)

(** The packet buffers inside of a larger state. *)
Class PacketHost (A E : Type) := {
  ph_get : E -> pstate A;
  ph_set : pstate A -> E -> E
}.

#[export] Instance pbuf_host A : PacketHost A (pstate A) := { ph_get := fun e => e; ph_set := fun k _ => k }.

(** A packet handed to netif->output. *)
Record sent := Sent { out_netif : Z; out_dest : Z; out_data : option bytes }.

(** lwip_stats.ip and lwip_stats.icmp, without ip.rterr. *)
Inductive ip_stat := IPxmit | IPrecv | IPdrop | IPchkerr | IPlenerr | IPerr | IPopterr | IPproterr |
  ICxmit | ICrecv | ICdrop | ICchkerr | IClenerr | ICproterr | ICerr.

#[global] Instance ip_stat_eq_dec : EqDecision ip_stat.
Proof. solve_decision. Defined.

Record ipst (E : Type) := IpSt {
  ip_if : netifs E;
  ip_id : Z;
  current_netif : option Z;
  current_header : option ptr;
  current_iphdr_src : Z;
  current_iphdr_dest : Z;
  ip_out : list sent;
  ip_stats : ip_stat -> Z
}.

Arguments IpSt {E} _ _ _ _ _ _ _ _.
Arguments ip_if {E} _.
Arguments ip_id {E} _.
Arguments current_netif {E} _.
Arguments current_header {E} _.
Arguments current_iphdr_src {E} _.
Arguments current_iphdr_dest {E} _.
Arguments ip_out {E} _.
Arguments ip_stats {E} _.

Definition IP_PROTO_ICMP : Z := 1.

Definition IP_PROTO_UDP : Z := 17.

Definition IP_PROTO_TCP : Z := 6.

(** ** Bytes of a packet *)

Section bytes.
Context {A : Type}.

Fixpoint rd_bytes (a : ptr) (n : nat) : M (pstate A) bytes :=
  match n with
  | O => mret []
  | S n => b ← rdb a; bs ← rd_bytes (padd a 1) n; mret (b :: bs)
  end.

Fixpoint wr_bytes (a : ptr) (bs : bytes) : M (pstate A) unit :=
  match bs with
  | [] => mret tt
  | b :: bs => wrb a b;; wr_bytes (padd a 1) bs
  end.

(** Fields, as the processor reads them. *)
Definition rd16 (a : ptr) : M (pstate A) Z := b0 ← rdb a; b1 ← rdb (padd a 1); mret (b0 + 256 * b1).

Definition rd32 (a : ptr) : M (pstate A) Z := lo ← rd16 a; hi ← rd16 (padd a 2); mret (lo + 65536 * hi).

Definition wr16 (a : ptr) (v : Z) : M (pstate A) unit := wr_bytes a (bytes16 v).

Definition wr32 (a : ptr) (v : Z) : M (pstate A) unit := wr_bytes a (bytes32 v).

(** The payload pointer. *)
Definition rd_payload (p : ptr) : M (pstate A) ptr := b ← rdp p; deref (payload b).

(** The bytes of a chain, if all of them are there. *)
Fixpoint chain_from (fuel : nat) (m : gmap ptr pbuf) (q : option ptr) : list (ptr * pbuf) :=
  match fuel, q with
  | S fuel, Some p => match m !! p with Some b => (p, b) :: chain_from fuel m (next b) | None => [] end
  | _, _ => []
  end.

Definition packet_bytes (s : pstate A) (p : ptr) : option bytes :=
  mapM (fun a => pdata s !! a) (addrs (chain_from (pbuf_fuel s) (pbufs s) (Some p))).
End bytes.

(** ** Output *)

Section output.
Context {A E : Type} `{Allocator A} `{PacketHost A E}.
Context (output : netif -> ptr -> Z -> M E Z).
Context (ip_frag : ptr -> Z -> Z -> M (ipst E) Z).

Definition set_ip_if (n : netifs E) (s : ipst E) : ipst E :=
  IpSt n (ip_id s) (current_netif s) (current_header s) (current_iphdr_src s) (current_iphdr_dest s) (ip_out s) (ip_stats s).

Definition set_ip_id (i : Z) (s : ipst E) : ipst E :=
  IpSt (ip_if s) i (current_netif s) (current_header s) (current_iphdr_src s) (current_iphdr_dest s) (ip_out s) (ip_stats s).

Definition set_current (nif : option Z) (h : option ptr) (s : ipst E) : ipst E :=
  IpSt (ip_if s) (ip_id s) nif h (current_iphdr_src s) (current_iphdr_dest s) (ip_out s) (ip_stats s).

Definition set_current_addrs (src dest : Z) (s : ipst E) : ipst E :=
  IpSt (ip_if s) (ip_id s) (current_netif s) (current_header s) src dest (ip_out s) (ip_stats s).

Definition add_sent (x : sent) (s : ipst E) : ipst E :=
  IpSt (ip_if s) (ip_id s) (current_netif s) (current_header s) (current_iphdr_src s) (current_iphdr_dest s) (ip_out s ++ [x]) (ip_stats s).

Definition set_ip_stats (f : (ip_stat -> Z) -> ip_stat -> Z) (s : ipst E) : ipst E :=
  IpSt (ip_if s) (ip_id s) (current_netif s) (current_header s) (current_iphdr_src s) (current_iphdr_dest s) (ip_out s) (f (ip_stats s)).

(** IP_STATS_INC and ICMP_STATS_INC; STAT_COUNTER is a u16_t. *)
Definition ip_bump (k : ip_stat) (st : ip_stat -> Z) : ip_stat -> Z :=
  fun j => if decide (j = k) then u16 (st j + 1) else st j.

Definition ip_inc (k : ip_stat) : M (ipst E) unit := modify (set_ip_stats (ip_bump k)).

Definition on_if {B} (m : M (netifs E) B) : M (ipst E) B := fun s =>
  match m (ip_if s) with
  | Done (b, n) => Done (b, set_ip_if n s)
  | Crash c => Crash c
  end.

(** A computation on the packet buffers, on the state they are in, and here. *)
Definition hosted {B} (m : M (pstate A) B) : M E B := fun e =>
  match m (ph_get e) with
  | Done (b, k) => Done (b, ph_set k e)
  | Crash c => Crash c
  end.

Definition on_pbuf {B} (m : M (pstate A) B) : M (ipst E) B := on_if (on_arp (hosted m)).

Definition host (s : ipst E) : pstate A := ph_get (n_arp (ip_if s)).

(** netif->output *)
Definition netif_output (nif : Z) (p : ptr) (dest : Z) : M (ipst E) Z :=
  s ← get;
  modify (add_sent (Sent nif dest (packet_bytes (host s) p)));;
  n ← on_if (rd_nif nif);
  on_if (on_arp (output n p dest)).

Definition LWIP_MAKE_U16 (a b : Z) : Z := Z.lor (Z.shiftl a 8) b.

(** ip_addr_isany, of an address that may be NULL. *)
Definition ip_addr_isany (a : option Z) : bool := match a with None => true | Some a => a =? IPADDR_ANY end.

(** The header of a new packet at [h], with the checksum computed on the way. *)
Definition fill_header (h : ptr) (tot_len : Z) (src : option Z) (dest ttl tos proto : Z) (nif : netif)
    : M (ipst E) unit :=
  on_pbuf (wrb (padd h 8) ttl);;
  on_pbuf (wrb (padd h 9) proto);;
  let chk_sum := LWIP_MAKE_U16 proto ttl in
  on_pbuf (wr32 (padd h 16) dest);;
  let chk_sum := u32 (chk_sum + Z.land dest 0xFFFF) in
  let chk_sum := u32 (chk_sum + Z.shiftr dest 16) in
  let v_hl := Z.lor (Z.shiftl 4 4) (IP_HLEN / 4) in
  on_pbuf (wrb h v_hl);;
  on_pbuf (wrb (padd h 1) tos);;
  let chk_sum := u32 (chk_sum + LWIP_MAKE_U16 tos v_hl) in
  let len := lwip_htons tot_len in
  on_pbuf (wr16 (padd h 2) len);;
  let chk_sum := u32 (chk_sum + len) in
  on_pbuf (wr16 (padd h 6) 0);;
  s ← get;
  let id := lwip_htons (ip_id s) in
  on_pbuf (wr16 (padd h 4) id);;
  let chk_sum := u32 (chk_sum + id) in
  modify (set_ip_id (u16 (ip_id s + 1)));;
  let src := if ip_addr_isany src then ip_addr nif else addr_of src in
  on_pbuf (wr32 (padd h 12) src);;
  let chk_sum := u32 (chk_sum + Z.land src 0xFFFF) in
  let chk_sum := u32 (chk_sum + Z.shiftr src 16) in
  let chk_sum := u32 (Z.shiftr chk_sum 16 + Z.land chk_sum 0xFFFF) in
  let chk_sum := u32 (Z.shiftr chk_sum 16 + chk_sum) in
  let chk_sum := not32 chk_sum in
  on_pbuf (wr16 (padd h 10) (u16 chk_sum)).

(** [dest] is NULL for IP_HDRINCL. *)
Definition ip_output_if (p : ptr) (src dest : option Z) (ttl tos proto : Z) (nif : Z) : M (ipst E) Z :=
  b ← on_pbuf (rdp p);
  lwip_assert (ref b =? 1);;
  dest ← (match dest with
          | Some dest =>
              r ← on_pbuf (pbuf_header (Some p) IP_HLEN);
              if nz r then ip_inc IPerr;; mret None
              else
                h ← on_pbuf (rd_payload p);
                b ← on_pbuf (rdp p);
                lwip_assert (IP_HLEN <=? len b);;
                n ← on_if (rd_nif nif);
                fill_header h (tot_len b) src dest ttl tos proto n;;
                mret (Some dest)
          | None =>
              h ← on_pbuf (rd_payload p);
              d ← on_pbuf (rd32 (padd h 16));
              mret (Some d)
          end);
  match dest with
  | None => mret ERR_BUF
  | Some dest =>
      ip_inc IPxmit;;
      n ← on_if (rd_nif nif);
      b ← on_pbuf (rdp p);
      if nz (mtu n) && (mtu n <? tot_len b) then ip_frag p nif dest
      else netif_output nif p dest
  end.

Definition ip_output (p : ptr) (src : option Z) (dest ttl tos proto : Z) : M (ipst E) Z :=
  b ← on_pbuf (rdp p);
  lwip_assert (ref b =? 1);;
  r ← on_if (ip_route dest);
  match r with
  | None => on_if inc_rterr;; mret ERR_RTE
  | Some nif => ip_output_if p src (Some dest) ttl tos proto nif
  end.
End output.
