(* ===== verification/IpPacket.v ===== *)
(** * Packets with room for headers

    A packet that IP works on: a chain with one owner whose first pbuf is in RAM or
    in the pool, and the bytes it holds; how they change when a header is put in
    front or taken away. *)

From S2P Require Import Prelude ByteOrder Chksum Alloc Pbuf AllocImpl PbufSpec PbufData PbufOwn IpAddr IpHdr Etharp EtharpTable EtharpOps EtharpSpec EtharpPbuf Netif Ip.

Lemma padd_inj h i j : padd h i = padd h j -> i = j.
Proof. unfold padd. intros E. injection E. lia. Qed.

Lemma range_lookup n : forall h i, (i < n)%nat -> range h n !! i = Some (padd h (Z.of_nat i)).
Proof.
  induction n as [|n IH]; intros h i Hi; [lia|]. destruct i as [|i]; cbn [range lookup list_lookup]; [by rewrite padd_0|].
  rewrite IH by lia. rewrite padd_padd. do 2 f_equal. lia.
Qed.

(** Bytes [bs] written over [data] at offset [o]. *)
Definition splice (o : nat) (bs data : bytes) : bytes := take o data ++ bs ++ list.drop (o + length bs) data.

Section packet.
Context {A : Type} `{AllocatorSpec A}.
Implicit Types (k : pstate A).

(** The chain of [p] starts with [b], whose payload is at [x], goes on with [l], and
    holds [data]. *)
Record packet k (p : ptr) (b : pbuf) (x : ptr) (l : list (ptr * pbuf)) (data : list Z) : Prop := Packet {
  pkt_chain : chain (pbufs k) (Some p) ((p, b) :: l);
  pkt_payload : payload b = Some x;
  pkt_ref : ref b = 1;
  pkt_type : type b = PBUF_RAM \/ type b = PBUF_POOL;
  pkt_pays : Forall (fun ab => is_Some (payload ab.2)) l;
  pkt_solid : Forall (fun ab => 0 < len ab.2) l;
  pkt_outside : Forall outside l;
  pkt_data : holds (pdata k) (addrs ((p, b) :: l)) data
}.

Lemma pkt_lookup k p b x l data : packet k p b x l data -> pbufs k !! p = Some b.
Proof. intros Hp. by destruct (pkt_chain _ _ _ _ _ _ Hp) as (_ & Hb & _). Qed.

Lemma pkt_fresh k p b x l data : packet k p b x l data -> p ∉ l.*1.
Proof. intros Hp. pose proof (chain_NoDup _ _ _ (pkt_chain _ _ _ _ _ _ Hp)) as Hnd. by apply list.NoDup_cons in Hnd as [? _]. Qed.

(** Nobody links to a packet with one reference held. *)
Lemma pkt_unlinked k L ext p b x l data : pinv k L ext -> p ∈ ext -> packet k p b x l data -> nrefs (pbufs k) p = 0.
Proof.
  intros (_ & _ & [Hr _] & _) Hp Hk. pose proof (Hr p b (pkt_lookup _ _ _ _ _ _ Hk)) as E.
  rewrite (pkt_ref _ _ _ _ _ _ Hk) in E. pose proof (held_in p ext Hp). pose proof (nrefs_nonneg (pbufs k) p). lia.
Qed.

Lemma pkt_all_pays k L ext p b x l data : pinv k L ext -> packet k p b x l data -> pays ((p, b) :: l).
Proof.
  intros (_ & Hn & _) Hk. pose proof (pkt_chain _ _ _ _ _ _ Hk) as Hc. apply list.Forall_forall. intros [a c] Hin.
  destruct (Hn a c (chain_in _ _ _ _ _ Hc Hin)) as ((_ & _ & H1 & H2 & _) & _). split; [|done].
  apply elem_of_cons in Hin as [E|Hin]; [simplify_eq; simpl; rewrite (pkt_payload _ _ _ _ _ _ Hk); by eexists|].
  pose proof (pkt_pays _ _ _ _ _ _ Hk) as HF. rewrite list.Forall_forall in HF. exact (HF _ Hin).
Qed.

(** The length of a packet is the number of its bytes. *)
Lemma pkt_tot k L ext p b x l data : pinv k L ext -> packet k p b x l data ->
  tot_len b = zlen data /\ lsum ((p, b) :: l) = zlen data /\ 0 <= len b <= tot_len b /\ tot_len b < 65536.
Proof.
  intros Hi Hk. pose proof (pkt_chain _ _ _ _ _ _ Hk) as Hc. destruct (tot_is_sum _ _ _ _ _ _ Hi (pkt_lookup _ _ _ _ _ _ Hk) Hc) as [Ht Hl].
  pose proof (addrs_length _ (pkt_all_pays _ _ _ _ _ _ _ _ Hi Hk)) as Ha. pose proof (holds_length _ _ _ (pkt_data _ _ _ _ _ _ Hk)) as He.
  unfold zlen in *. rewrite He in Ha. destruct Hi as (_ & Hn & _).
  destruct (Hn p b (pkt_lookup _ _ _ _ _ _ Hk)) as ((_ & _ & H1 & H2 & _) & _). unfold is_u16 in *. lia.
Qed.

(** The header of a packet is in its first pbuf. *)
Lemma pkt_split k p b x l data : packet k p b x l data -> 0 <= len b ->
  holds (pdata k) (range x (Z.to_nat (len b))) (take (Z.to_nat (len b)) data) /\ holds (pdata k) (addrs l) (list.drop (Z.to_nat (len b)) data).
Proof.
  intros Hk Hl. pose proof (pkt_data _ _ _ _ _ _ Hk) as Hd. cbn [addrs] in Hd. rewrite (pkt_payload _ _ _ _ _ _ Hk) in Hd.
  pose proof (holds_take _ _ _ (Z.to_nat (len b)) Hd) as H1x. pose proof (holds_drop _ _ _ (Z.to_nat (len b)) Hd) as H2x.
  rewrite take_app_length' in H1x by (by rewrite range_length). rewrite drop_app_length' in H2x by (by rewrite range_length). done.
Qed.

(** Bytes in the first pbuf. *)
Lemma pkt_slice k p b x l data o n : packet k p b x l data -> 0 <= o -> 0 <= n -> o + n <= len b ->
  holds (pdata k) (range (padd x o) (Z.to_nat n)) (slice o n data).
Proof.
  intros Hk Ho Hn Hl. destruct (pkt_split _ _ _ _ _ _ Hk ltac:(lia)) as [Hd _].
  apply (holds_drop _ _ _ (Z.to_nat o)), (holds_take _ _ _ (Z.to_nat n)) in Hd. rewrite range_drop, range_take in Hd by lia.
  rewrite Z2Nat.id in Hd by lia. unfold slice. rewrite take_drop_commute, take_take, Nat.min_l, <- take_drop_commute in Hd by lia. exact Hd.
Qed.

(** ** Bytes *)

Lemma mapM_holds (D : gmap ptr Z) l bs : holds D l bs -> mapM (fun a => D !! a) l = Some bs.
Proof. intros Hh. by apply mapM_Some. Qed.

Lemma chain_from_chain m l : forall fuel (q : option ptr), chain m q l -> (length l <= fuel)%nat -> chain_from fuel m q = l.
Proof.
  induction l as [|[a b] l IH]; intros fuel q Hc Hf; [simpl in Hc; subst q; by destruct fuel|].
  destruct fuel as [|fuel]; [simpl in Hf; lia|]. destruct Hc as (-> & Ha & Hc). cbn [chain_from]. rewrite Ha. f_equal.
  apply IH; [exact Hc|simpl in Hf; lia].
Qed.

Lemma pkt_bytes k p b x l data : packet k p b x l data -> packet_bytes k p = Some data.
Proof.
  intros Hk. unfold packet_bytes. pose proof (pkt_chain _ _ _ _ _ _ Hk) as Hc.
  rewrite (chain_from_chain _ _ _ _ Hc); [apply mapM_holds, (pkt_data _ _ _ _ _ _ Hk)|].
  pose proof (chain_length _ _ _ Hc). unfold pbuf_fuel. lia.
Qed.

(** ** Headers *)

(** A header of [n] bytes in front: the payload pointer is moved and [hd] is written
    there. *)
Lemma pkt_push k L ext p b x l data n hd D' :
  pinv k L ext -> p ∈ ext -> packet k p b x l data -> header_fits p b x n = true -> zlen hd = n -> 0 < n ->
  tot_len b + n < 65536 -> holds D' (range (padd x (- n)) (length hd)) hd ->
  (forall a, a ∉ range (padd x (- n)) (length hd) -> D' !! a = pdata k !! a) ->
  let k' := set_pdata (fun _ => D') (set_pbufs (insert p (moved b x n)) k) in
  pinv k' L ext /\ packet k' p (moved b x n) (padd x (- n)) l (hd ++ data).
Proof.
  intros Hi Hp Hk Hfit Hn Hpos Htot Hhd Hrest k'. destruct (pkt_tot _ _ _ _ _ _ _ _ Hi Hk) as (Ht & Hs & Hl & _).
  assert (pinv k' L ext) as Hi'.
  { refine (moved_inv k L ext p b x n Hi (pkt_lookup _ _ _ _ _ _ Hk) (pkt_payload _ _ _ _ _ _ Hk) (pkt_unlinked _ _ _ _ _ _ _ _ Hi Hp Hk) _ Hfit _ _ Htot); lia. }
  split; [done|]. pose proof (pkt_chain _ _ _ _ _ _ Hk) as (_ & _ & Hc).
  assert (chain (pbufs k') (Some p) ((p, moved b x n) :: l)) as Hc'.
  { split; [done|]. split; [apply lookup_insert_eq|]. apply chain_insert_ne; [exact (pkt_fresh _ _ _ _ _ _ Hk)|exact Hc]. }
  destruct Hk. split; try done.
  destruct (pkt_split k p b x l data ltac:(by split) ltac:(lia)) as [Hd1 Hd2]. cbn [addrs].
  change (payload (moved b x n)) with (Some (padd x (- n))). change (len (moved b x n)) with (len b + n). cbv iota.
  rewrite <- (take_drop (Z.to_nat (len b)) data), app_assoc. replace (Z.to_nat (len b + n)) with (length hd + Z.to_nat (len b))%nat by (unfold zlen in Hn; lia).
  rewrite range_add, padd_padd. replace (- n + Z.of_nat (length hd)) with 0 by (unfold zlen in Hn; lia). rewrite padd_0.
  apply Forall2_app; [apply Forall2_app; [exact Hhd|]|].
  - eapply holds_ext; [|exact Hd1]. intros a (i & -> & Hr)%range_in. apply Hrest. intros (j & E & Hj)%range_in.
    rewrite padd_padd in E. apply padd_inj in E. unfold zlen in Hn. lia.
  - eapply holds_ext; [|exact Hd2]. intros a Ha. apply Hrest. intros (j & -> & Hj)%range_in. revert Ha.
    eapply (payload_outside k' L ext p (moved b x n)); [exact Hi'|apply lookup_insert_eq|done|done| |exact (proj2 (proj2 Hc'))|done|].
    + pose proof (chain_NoDup _ _ _ Hc') as Hnd. by apply list.NoDup_cons in Hnd as [? _].
    + change (len (moved b x n)) with (len b + n). unfold zlen in Hn. lia.
Qed.

(** The first [n] bytes taken away. *)
Lemma pkt_pop k L ext p b x l data n :
  pinv k L ext -> p ∈ ext -> packet k p b x l data -> 0 < n <= len b ->
  let k' := set_pbufs (insert p (moved b x (- n))) k in
  pinv k' L ext /\ packet k' p (moved b x (- n)) (padd x n) l (list.drop (Z.to_nat n) data).
Proof.
  intros Hi Hp Hk Hn k'. destruct (pkt_tot _ _ _ _ _ _ _ _ Hi Hk) as (Ht & Hs & Hl & Hm).
  assert (pinv k' L ext) as Hi'.
  { refine (moved_inv k L ext p b x (- n) Hi (pkt_lookup _ _ _ _ _ _ Hk) (pkt_payload _ _ _ _ _ _ Hk) (pkt_unlinked _ _ _ _ _ _ _ _ Hi Hp Hk) _ _ _ _ _); try lia.
    eapply fits_less; [exact Hi|exact (pkt_lookup _ _ _ _ _ _ Hk)|exact (pkt_payload _ _ _ _ _ _ Hk)|lia]. }
  split; [done|]. pose proof (pkt_chain _ _ _ _ _ _ Hk) as (_ & _ & Hc).
  destruct (pkt_split k p b x l data Hk ltac:(lia)) as [Hd1 Hd2]. pose proof (pkt_fresh _ _ _ _ _ _ Hk) as Hf.
  pose proof (pkt_data _ _ _ _ _ _ Hk) as Hd. destruct Hk. split; try done.
  - split; [done|]. split; [apply lookup_insert_eq|]. by apply chain_insert_ne.
  - simpl. by rewrite Z.opp_involutive.
  - apply (holds_drop _ _ _ (Z.to_nat n)) in Hd. cbn [addrs] in *. rewrite pkt_payload0 in Hd.
    change (payload (moved b x (- n))) with (Some (padd x (- - n))). change (len (moved b x (- n))) with (len b + - n). cbv iota.
    rewrite Z.opp_involutive. rewrite drop_app_le in Hd by (rewrite range_length; lia). rewrite range_drop in Hd by lia.
    rewrite Z2Nat.id in Hd by lia. replace (Z.to_nat (len b + - n)) with (Z.to_nat (len b) - Z.to_nat n)%nat by lia. exact Hd.
Qed.

Lemma splice_length o bs (data : bytes) : (o + length bs <= length data)%nat -> length (splice o bs data) = length data.
Proof. intros Ho. unfold splice. rewrite !length_app, length_take, length_drop. lia. Qed.

Lemma splice_holds D y n bs (data : bytes) o : holds D (range y n) data -> (o + length bs <= n)%nat ->
  holds (store (range (padd y (Z.of_nat o)) (length bs)) bs D) (range y n) (splice o bs data).
Proof.
  intros Hh Ho. pose proof (holds_length _ _ _ Hh) as Hl. rewrite range_length in Hl.
  replace n with (o + (length bs + (n - o - length bs)))%nat by lia. rewrite !range_add. unfold splice.
  assert (forall i m, (forall j, i <= j < i + Z.of_nat m -> ~ (Z.of_nat o <= j < Z.of_nat o + Z.of_nat (length bs))) -> forall e,
    holds D (range (padd y i) m) e -> holds (store (range (padd y (Z.of_nat o)) (length bs)) bs D) (range (padd y i) m) e) as Hk.
  { intros i m Hi e. apply holds_ext. intros a (j & -> & Hj)%range_in. apply store_lookup_ne. intros (j' & E & Hj')%range_in.
    rewrite !padd_padd in E. apply padd_inj in E. apply (Hi (i + j)); lia. }
  apply Forall2_app; [|apply Forall2_app].
  - pose proof (Hk 0 o ltac:(lia) (take o data)) as Hk0. rewrite padd_0 in Hk0. apply Hk0. rewrite <- (range_take n y o) by lia. by apply holds_take.
  - apply store_holds; [apply range_NoDup|]. by rewrite range_length.
  - rewrite padd_padd. apply Hk; [lia|]. replace (n - o - length bs)%nat with (n - (o + length bs))%nat by lia.
    rewrite <- Nat2Z.inj_add, <- range_drop by lia. by apply holds_drop.
Qed.

(** A write in the first pbuf. *)
Lemma pkt_write k L ext p b x l data o bs :
  pinv k L ext -> packet k p b x l data -> 0 <= o -> o + zlen bs <= len b ->
  packet (set_pdata (store (range (padd x o) (length bs)) bs) k) p b x l (splice (Z.to_nat o) bs data).
Proof.
  intros Hi Hk Ho Hl. destruct (pkt_tot _ _ _ _ _ _ _ _ Hi Hk) as (Ht & _ & Hlen & _). pose proof (zlen_nonneg bs). unfold zlen in *.
  destruct (pkt_split _ _ _ _ _ _ Hk ltac:(lia)) as [Hd1 Hd2]. pose proof (pkt_lookup _ _ _ _ _ _ Hk) as Hb.
  pose proof (pkt_fresh _ _ _ _ _ _ Hk) as Hf. pose proof (pkt_data _ _ _ _ _ _ Hk) as Hd. pose proof Hk as [Hc Hx _ Hty _ _ Hout _].
  destruct Hk. split; try done. cbn [addrs]. rewrite Hx.
  assert (splice (Z.to_nat o) bs data =
    splice (Z.to_nat o) bs (take (Z.to_nat (len b)) data) ++ list.drop (Z.to_nat (len b)) data) as ->.
  { unfold splice. rewrite take_take, Nat.min_l by lia. rewrite <- !app_assoc. do 2 f_equal.
    rewrite <- (take_drop (Z.to_nat (len b)) data) at 1. rewrite drop_app_le; [done|]. rewrite length_take. lia. }
  apply Forall2_app.
  - replace (padd x o) with (padd x (Z.of_nat (Z.to_nat o))) by (f_equal; lia). apply splice_holds; [exact Hd1|lia].
  - eapply holds_ext; [|exact Hd2]. intros a Ha. apply store_lookup_ne. intros (j & -> & Hj)%range_in. revert Ha. rewrite padd_padd.
    eapply payload_outside; [exact Hi|exact Hb|exact Hty|exact Hx|exact Hf|exact (proj2 (proj2 Hc))|exact Hout|lia].
Qed.

(** What the layer below needs of a packet: it may be copied, and has room for an
    Ethernet header. *)
Definition sendable k (p : ptr) : Prop := pk_ready k p /\ pk_room k p SIZEOF_ETH_HDR.

(** The memory in front of a payload that headers go to. *)
Definition room (k : pstate A) (x : ptr) (n : Z) : Prop := forall i, 0 <= i < n -> is_Some (pdata k !! padd x (i - n)).

Lemma pkt_sendable k L ext p b x l data :
  pinv k L ext -> p ∈ ext -> packet k p b x l data -> tot_len b + SIZEOF_ETH_HDR <= 65452 -> room k x SIZEOF_ETH_HDR -> sendable k p.
Proof.
  intros Hi Hp Hk Ht Hr. destruct (pkt_tot _ _ _ _ _ _ _ _ Hi Hk) as (Hz & Hs & Hl & _). unfold SIZEOF_ETH_HDR in *. split.
  - exists ((p, b) :: l). split; [exact (pkt_chain _ _ _ _ _ _ Hk)|]. pose proof (pkt_all_pays _ _ _ _ _ _ _ _ Hi Hk) as Hpays.
    destruct Hk. split; try done.
    + left. by destruct pkt_type0 as [->| ->].
    + constructor; [|done]. unfold outside. simpl. by destruct pkt_type0 as [->| ->]; intros [?|?].
    + rewrite Hs. lia.
    + by exists data.
  - exists b, x. split; [exact (pkt_lookup _ _ _ _ _ _ Hk)|]. split; [exact (pkt_payload _ _ _ _ _ _ Hk)|].
    split; [exact (pkt_unlinked _ _ _ _ _ _ _ _ Hi Hp Hk)|]. unfold SIZEOF_ETH_HDR. split; [done|]. split; [lia|]. split; [lia|]. split; [lia|]. exact Hr.
Qed.
End packet.
