(* ===== verification/IpOut.v ===== *)
(** * What IP output promises

    The header ip_output_if writes, with its checksum, and what reaches
    netif->output. *)

From S2P Require Import Prelude ByteOrder Chksum Alloc Pbuf AllocImpl PbufSpec PbufData PbufOwn IpAddr IpHdr Etharp EtharpTable EtharpOps EtharpSpec EtharpPbuf Netif NetifSpec Ip IpPacket.

(** ** Writes to memory *)

(** Writes relative to [h]: offset and bytes. *)
Definition apply_writes (h : ptr) (ws : list (Z * bytes)) (D : gmap ptr Z) : gmap ptr Z :=
  foldl (fun D w => store (range (padd h w.1) (length w.2)) w.2 D) D ws.

(** The byte the writes leave at an offset. *)
Fixpoint writes_at (ws : list (Z * bytes)) (i : Z) : option Z :=
  match ws with
  | [] => None
  | (o, bs) :: ws =>
      match writes_at ws i with
      | Some b => Some b
      | None => if o <=? i then bs !! Z.to_nat (i - o) else None
      end
  end.

Lemma store_range_lookup bs : forall h o D i,
  store (range (padd h o) (length bs)) bs D !! padd h i =
    if o <=? i then match bs !! Z.to_nat (i - o) with Some b => Some b | None => D !! padd h i end else D !! padd h i.
Proof.
  induction bs as [|b bs IH]; intros h o D i; cbn [length range store].
  - rewrite lookup_nil. by destruct (o <=? i).
  - rewrite padd_padd, IH. destruct (Z.leb_spec (o + 1) i) as [H1|H1]; destruct (Z.leb_spec o i) as [H2|H2]; try lia.
    + replace (Z.to_nat (i - o)) with (S (Z.to_nat (i - (o + 1)))) by lia. cbn [lookup list_lookup].
      destruct (bs !! _); [done|]. rewrite lookup_insert_ne; [done|]. intros E%padd_inj. lia.
    + replace i with o by lia. rewrite Z.sub_diag. cbn. by rewrite lookup_insert_eq.
    + rewrite lookup_insert_ne; [done|]. intros E%padd_inj. lia.
Qed.

Lemma apply_writes_lookup h ws : forall D i,
  apply_writes h ws D !! padd h i = match writes_at ws i with Some b => Some b | None => D !! padd h i end.
Proof.
  induction ws as [|[o bs] ws IH]; intros D i; [done|]. cbn [apply_writes foldl writes_at]. unfold apply_writes in IH. rewrite IH.
  destruct (writes_at ws i) as [b|]; [done|]. cbn [fst snd]. rewrite store_range_lookup.
  destruct (o <=? i); [|done]. by destruct (bs !! Z.to_nat (i - o)).
Qed.

Lemma apply_writes_ne h ws a : forall D,
  (forall o bs, (o, bs) ∈ ws -> a ∉ range (padd h o) (length bs)) -> apply_writes h ws D !! a = D !! a.
Proof.
  induction ws as [|[o bs] ws IH]; intros D Ha; [done|]. cbn [apply_writes foldl]. unfold apply_writes in IH. rewrite IH.
  - apply store_lookup_ne, Ha. by left.
  - intros o' bs' Hin. apply Ha. by right.
Qed.

(** The bytes at [h] after writes that cover them. *)
Lemma apply_writes_holds h ws D bs :
  (forall i b, bs !! i = Some b -> writes_at ws (Z.of_nat i) = Some b) -> holds (apply_writes h ws D) (range h (length bs)) bs.
Proof.
  intros Hb. unfold holds. apply Forall2_same_length_lookup_2; [by rewrite range_length|].
  intros i a b Ha Hi. assert (i < length bs)%nat as Hl by (by eapply lookup_lt_Some). rewrite range_lookup in Ha by done.
  injection Ha as <-.
  by rewrite apply_writes_lookup, (Hb _ _ Hi).
Qed.

Lemma wr_bytes_ok {A} bs : forall a (s : pstate A),
  wr_bytes a bs s = Done (tt, set_pdata (store (range a (length bs)) bs) s).
Proof.
  induction bs as [|b bs IH]; intros a s; [by destruct s|]. cbn [wr_bytes]. unfold wrb. rewrite modify_bind, IH. by destruct s.
Qed.

Lemma rd_bytes_ok {A} n : forall a (s : pstate A) bs, holds (pdata s) (range a n) bs -> rd_bytes a n s = Done (bs, s).
Proof.
  induction n as [|n IH]; intros a s bs Hh; inversion Hh as [|x b l bs' Hb Hr]; subst; [done|].
  cbn [rd_bytes]. rewrite (rdb_bind _ b) by done. by rewrite (bind_done _ _ _ _ _ (IH _ _ _ Hr)).
Qed.

Lemma rd16_ok {A} a (s : pstate A) v : is_u16 v -> holds (pdata s) (range a 2) (bytes16 v) -> rd16 a s = Done (v, s).
Proof.
  intros Hv Hh. unfold bytes16 in Hh. inversion Hh as [|? ? ? ? H0 Hh1]; subst. inversion Hh1 as [|? ? ? ? H1 _]; subst.
  unfold rd16. rewrite (rdb_bind _ _ _ _ H0), (rdb_bind _ _ _ _ H1). unfold mret, M_ret. do 2 f_equal. unfold is_u16 in Hv. zdm.
Qed.

Lemma rd32_ok {A} a (s : pstate A) v : is_u32 v -> holds (pdata s) (range a 4) (bytes32 v) -> rd32 a s = Done (v, s).
Proof.
  intros Hv Hh. unfold is_u32 in Hv. unfold rd32.
  rewrite (bind_done _ _ _ (v mod 65536) s).
  - rewrite (bind_done _ _ _ (v / 65536) s); [unfold mret, M_ret; do 2 f_equal; zdm|].
    apply rd16_ok; [unfold is_u16; zdm|]. apply (holds_drop _ _ _ 2) in Hh. cbn [range list.drop] in Hh. rewrite padd_padd in Hh.
    unfold bytes32 in Hh. cbn [list.drop] in Hh. unfold bytes16. rewrite Z.div_div by lia. exact Hh.
  - apply rd16_ok; [unfold is_u16; zdm|]. apply (holds_take _ _ _ 2) in Hh. unfold bytes32 in Hh. cbn [take range] in Hh.
    unfold bytes16. replace ((v mod 65536) mod 256) with (v mod 256) by zdm.
    replace (v mod 65536 / 256 mod 256) with (v / 256 mod 256) by zdm. exact Hh.
Qed.

(** ** The packet buffers inside of the state *)

(** [ph_own] are the references held inside of [E]. *)
Class PacketHostSpec (A E : Type) `{PacketHost A E} := {
  ph_own : E -> list ptr;
  ph_ok : E -> Prop;
  ph_get_set k e : ph_get (ph_set k e) = k;
  ph_set_get e : ph_set (ph_get e) e = e;
  ph_set_set k k' e : ph_set k (ph_set k' e) = ph_set k e;
  ph_own_set k e : ph_own (ph_set k e) = ph_own e;
  ph_ok_set k e : ph_ok e -> ph_ok (ph_set k e)
}.

#[export] Program Instance pbuf_host_spec A : PacketHostSpec A (pstate A) := {| ph_own := fun _ => []; ph_ok := fun _ => True |}.
Solve All Obligations with done.

(** ** The checksum of a header *)

Definition hdr_ok (h : ip_hdr) : Prop :=
  is_u8 (_v_hl h) /\ is_u8 (_tos h) /\ is_u16 (_len h) /\ is_u16 (_id h) /\ is_u16 (_offset h) /\ is_u8 (_ttl h) /\
  is_u8 (_proto h) /\ is_u16 (_chksum h) /\ is_u32 (src h) /\ is_u32 (dest h).

Lemma bytes16_le v : is_u16 v -> le16 (v mod 256) (v / 256 mod 256) = v.
Proof. unfold is_u16, le16. intros. zdm. Qed.

Lemma bytes32_le v : is_u32 v ->
  le16 (v mod 256) (v / 256 mod 256) = v mod 65536 /\ le16 (v / 65536 mod 256) (v / 16777216 mod 256) = v / 65536.
Proof. unfold is_u32, le16. intros. split; zdm. Qed.

(** The words of a header, the checksum apart. *)
Definition hdr_words (h : ip_hdr) : Z :=
  _v_hl h + 256 * _tos h + _len h + _id h + _offset h + (_ttl h + 256 * _proto h) +
  (src h mod 65536 + src h / 65536) + (dest h mod 65536 + dest h / 65536).

Lemma hdr_bytes_sum h : hdr_ok h -> word_sum (hdr_bytes h) = hdr_words h + _chksum h.
Proof.
  intros (H1 & H2 & H3 & H4 & H5 & H6 & H7 & H8 & H9 & H10). unfold hdr_bytes, bytes16, bytes32. cbn [app word_sum].
  destruct (bytes32_le _ H9) as [-> ->]. destruct (bytes32_le _ H10) as [-> ->]. rewrite !bytes16_le by done.
  unfold hdr_words, is_u8, le16 in *. rewrite (Z.mod_small (_v_hl h)), (Z.mod_small (_tos h)), (Z.mod_small (_ttl h)),
    (Z.mod_small (_proto h)) by lia. lia.
Qed.

Lemma hdr_bytes_u8 h : is_bytes (hdr_bytes h).
Proof. unfold hdr_bytes, bytes16, bytes32, is_bytes. cbn [app]. repeat (constructor; [apply mod256_u8|]). constructor. Qed.

(** A buffer whose words add up to a multiple of 65535 verifies. *)
Lemma chksum_0 addr data : is_bytes data -> zlen data <= 0xffff -> 0 < word_sum data -> word_sum data mod 65535 = 0 ->
  inet_chksum addr data = 0.
Proof.
  intros Hb Hl Hp Hm. unfold inet_chksum. rewrite LWIP_CHKSUM_sum by done. unfold oc_sum, oc_canon.
  rewrite (proj2 (Z.eqb_neq _ _)) by lia. replace ((word_sum data - 1) mod 65535) with 65534 by zdm. done.
Qed.

(** Innermost sums that do not wrap. *)
Ltac small32 := repeat match goal with
  | |- context [u32 ?x] => lazymatch x with context [u32 _] => fail | _ => rewrite (u32_id x) by (unfold is_u32; zdm) end
  end.

(** The checksum ip_output_if computes while it writes the fields. *)
Definition inline_chksum (h : ip_hdr) : Z :=
  let c := LWIP_MAKE_U16 (_proto h) (_ttl h) in
  let c := u32 (c + Z.land (dest h) 0xFFFF) in
  let c := u32 (c + Z.shiftr (dest h) 16) in
  let c := u32 (c + LWIP_MAKE_U16 (_tos h) (_v_hl h)) in
  let c := u32 (c + _len h) in
  let c := u32 (c + _id h) in
  let c := u32 (c + Z.land (src h) 0xFFFF) in
  let c := u32 (c + Z.shiftr (src h) 16) in
  let c := u32 (Z.shiftr c 16 + Z.land c 0xFFFF) in
  let c := u32 (Z.shiftr c 16 + c) in
  u16 (not32 c).

Lemma make_u16 a b : is_u8 b -> LWIP_MAKE_U16 a b = b + 256 * a.
Proof. unfold is_u8. intros Hb. unfold LWIP_MAKE_U16. rewrite Z.shiftl_mul_pow2, (lor_add a b 8) by lia. lia. Qed.

Lemma fold_not S : 0 < S < 0x100000 ->
  let c := u32 (Z.shiftr S 16 + Z.land S 0xFFFF) in
  let c := u32 (Z.shiftr c 16 + c) in
  is_u16 (u16 (not32 c)) /\ (S + u16 (not32 c)) mod 65535 = 0.
Proof.
  intros HS. cbv zeta. autorewrite with bits. rewrite (u32_id (S / 65536 + S mod 65536)) by (unfold is_u32; zdm).
  set (c := S / 65536 + S mod 65536). assert (0 < c <= 65550) as Hc by (subst c; zdm).
  rewrite (u32_id (c / 65536 + c)) by (unfold is_u32; zdm). unfold not32, Z.lnot, u32, u16.
  assert (S mod 65535 = c mod 65535) as E by (subst c; zdm). split; [apply u16_range|].
  rewrite Z.add_mod, E by lia. rewrite <- Z.add_mod by lia. change (2 ^ 32) with 4294967296. change (2 ^ 16) with 65536. zdm.
Qed.

Lemma inline_chksum_ok h : hdr_ok h -> _offset h = 0 -> 0 < _v_hl h ->
  is_u16 (inline_chksum h) /\ (hdr_words h + inline_chksum h) mod 65535 = 0.
Proof.
  intros (H1 & H2 & H3 & H4 & H5 & H6 & H7 & H8 & H9 & H10) Ho Hv. unfold inline_chksum. cbv zeta.
  rewrite !make_u16 by done. set (S := u32 (_ + Z.shiftr (src h) 16)).
  assert (S = hdr_words h) as ->; [subst S|]; unfold is_u8, is_u16, is_u32 in *.
  - autorewrite with bits. unfold hdr_words. small32. lia.
  - apply fold_not. unfold hdr_words. zdm.
Qed.

(** The header of a new packet verifies. *)
Lemma hdr_bytes_len h : zlen (hdr_bytes h) = 20.
Proof. done. Qed.

Lemma checked_header h addr : hdr_ok h -> _offset h = 0 -> 0 < _v_hl h ->
  inet_chksum addr (hdr_bytes (IPH_CHKSUM_SET (inline_chksum h) h)) = 0.
Proof.
  intros Hh Ho Hv. destruct (inline_chksum_ok h Hh Ho Hv) as [Hc Hm]. revert Hc Hm.
  generalize (inline_chksum h). intros c Hc Hm.
  pose proof Hh as (H1 & H2 & H3 & H4 & H5 & H6 & H7 & H8 & H9 & H10).
  assert (hdr_ok (IPH_CHKSUM_SET c h)) as Hh' by
    exact (conj H1 (conj H2 (conj H3 (conj H4 (conj H5 (conj H6 (conj H7 (conj Hc (conj H9 H10))))))))).
  pose proof (hdr_bytes_sum _ Hh') as Hs.
  change (_chksum (IPH_CHKSUM_SET c h)) with c in Hs. change (hdr_words (IPH_CHKSUM_SET c h)) with (hdr_words h) in Hs.
  apply chksum_0; [apply hdr_bytes_u8|by rewrite hdr_bytes_len| |by rewrite Hs].
  rewrite Hs. unfold hdr_words, is_u8, is_u16, is_u32 in *. zdm.
Qed.

(** ** Interfaces, without ARP

    The list of interfaces is what netif.c promises whatever the state of ARP is. *)
Definition no_arp E : NetifArp E := {| na_cleanup := fun _ => mret tt; na_request := fun _ _ => mret 0 |}.

Definition no_arp_spec E : @NetifArpSpec E (no_arp E).
Proof.
  refine (@Build_NetifArpSpec E (no_arp E) (fun _ => True) _ _); intros; by eexists _, _.
Defined.

Definition nifs {E} (n : netifs E) (a : nabs) : Prop := @abs E (no_arp E) (no_arp_spec E) n a.

(** ip_route when it finds an interface. *)
Lemma route_found {E} (n : netifs E) a dst q : nifs n a -> route_of a dst = Some q -> ip_route dst n = Done (Some q, n).
Proof.
  intros Ha Hr. unfold ip_route. rewrite get_bind. rewrite (bind_done _ _ _ _ _ (@route_loop_ok E (no_arp E) (no_arp_spec E) n a dst Ha)).
  unfold route_of in Hr. destruct (first_nif (on_net dst) _ _) as [q'|]; [by simplify_eq|]. rewrite (as_default _ _ Ha).
  destruct (ab_default a) as [d|]; [|done]. cbn [first_nif] in Hr. destruct (ab_tab a !! d) as [nif|] eqn:Hd; [|done].
  destruct (netif_is_up nif) eqn:Hup; simplify_eq.
  destruct (@abs_node E (no_arp E) (no_arp_spec E) n a q nif Ha Hd) as (nd & Hnd & Eq). unfold rd_nif.
  rewrite bind_assoc, (rd_node_bind _ _ nd), ret_bind, Eq by done. by rewrite Hup.
Qed.

Lemma nifs_arp {E} (n : netifs E) a e : nifs n a -> nifs (set_n_arp e n) a.
Proof. intros Hn. by apply (@abs_arp E (no_arp E) (no_arp_spec E)). Qed.

(** The packet buffers and the references held to packets, [ext] by others. *)
Definition host_inv {A E} `{PacketHostSpec A E} `{AllocatorSpec A} (e : E) (ext : list ptr) : Prop :=
  ph_ok e /\ exists L, pinv (ph_get e) L (ph_own e ++ ext).

(** netif->output, for packets that may be queued and given an Ethernet header. *)
Class IpLinkSpec (A E : Type) `{PacketHostSpec A E} `{AllocatorSpec A} (output : netif -> ptr -> Z -> M E Z) := {
  il_nif : netif -> Prop;
  il_output_ok nif p dest e ext : host_inv e ext -> p ∈ ext -> il_nif nif -> sendable (ph_get e) p ->
    wp (output nif p dest) e (fun _ e' => host_inv e' ext)
}.

Section out.
Context {A E : Type} `{AllocatorSpec A} `{PacketHostSpec A E}.
Implicit Types (s : ipst E) (k : pstate A).

(** The state with other packet buffers. *)
Definition with_host (k : pstate A) s : ipst E := set_ip_if (set_n_arp (ph_set k (n_arp (ip_if s))) (ip_if s)) s.

Lemma host_with k s : host (with_host k s) = k.
Proof. apply ph_get_set. Qed.

Lemma with_with k k' s : with_host k (with_host k' s) = with_host k s.
Proof. unfold with_host. cbn. by rewrite ph_set_set. Qed.

Lemma with_set_id k i s : set_ip_id i (with_host k s) = with_host k (set_ip_id i s).
Proof. done. Qed.

Lemma on_pbuf_done {B} (m : M (pstate A) B) s b k : m (host s) = Done (b, k) -> on_pbuf m s = Done (b, with_host k s).
Proof. intros Em. unfold on_pbuf, on_if, on_arp, hosted. unfold host in Em. by rewrite Em. Qed.

Lemma wp_on_pbuf {B} (m : M (pstate A) B) s (Q : B -> ipst E -> Prop) :
  wp m (host s) (fun b k => Q b (with_host k s)) -> wp (on_pbuf m) s Q.
Proof. intros (b & k & Em & HQ). exists b, (with_host k s). split; [by apply on_pbuf_done|done]. Qed.

Lemma wp_on_if {B} (m : M (netifs E) B) s (Q : B -> ipst E -> Prop) :
  wp m (ip_if s) (fun b n => Q b (set_ip_if n s)) -> wp (on_if m) s Q.
Proof. intros (b & n & Em & HQ). exists b, (set_ip_if n s). split; [|done]. unfold on_if. by rewrite Em. Qed.

(** The interfaces are [a], and others hold the references [ext]. *)
Definition ip_inv s (a : nabs) (ext : list ptr) : Prop := nifs (ip_if s) a /\ host_inv (n_arp (ip_if s)) ext.

(** The counters [ks] were incremented; what is known of the packet being received is
    the same. *)
Definition ip_bumps (ks : list ip_stat) (st : ip_stat -> Z) : ip_stat -> Z := foldl (fun st c => ip_bump c st) st ks.

Record quiet (ks : list ip_stat) s s' : Prop := Quiet {
  qu_netif : current_netif s' = current_netif s;
  qu_header : current_header s' = current_header s;
  qu_src : current_iphdr_src s' = current_iphdr_src s;
  qu_dest : current_iphdr_dest s' = current_iphdr_dest s;
  qu_stats : ip_stats s' = ip_bumps ks (ip_stats s)
}.

Lemma ip_quiet_refl s : quiet [] s s.
Proof. done. Qed.

Lemma ip_quiet_trans ks1 ks2 s1 s2 s3 : quiet ks1 s1 s2 -> quiet ks2 s2 s3 -> quiet (ks1 ++ ks2) s1 s3.
Proof. intros [] []. split; try congruence. unfold ip_bumps in *. rewrite foldl_app. congruence. Qed.

Lemma ip_inv_host s a ext k L : ip_inv s a ext -> pinv k L (ph_own (n_arp (ip_if s)) ++ ext) -> ip_inv (with_host k s) a ext.
Proof.
  intros [Hn [Hok _]] Hk. split; [by apply nifs_arp|]. split; [by apply ph_ok_set|]. exists L. cbn. by rewrite ph_get_set, ph_own_set.
Qed.

Lemma wp_rd_nif_ip s a p nif (Q : netif -> ipst E -> Prop) :
  nifs (ip_if s) a -> ab_tab a !! p = Some nif -> Q nif s -> wp (on_if (rd_nif p)) s Q.
Proof.
  intros Ha Hp HQ. apply wp_on_if. apply (@wp_rd_nif E (no_arp E) (no_arp_spec E) _ a _ nif); [done|done|]. by destruct s.
Qed.

(** ** The header *)

Definition written s (h : ptr) (ws : list (Z * bytes)) (s' : ipst E) : Prop :=
  exists id, s' = with_host (set_pdata (apply_writes h ws) (host s)) (set_ip_id id s).

Lemma write_step s0 h ws o bs s (Q : unit -> ipst E -> Prop) id (m : M (pstate A) unit) :
  s = with_host (set_pdata (apply_writes h ws) (host s0)) (set_ip_id id s0) ->
  (forall k, m k = wr_bytes (padd h o) bs k) ->
  (forall s', s' = with_host (set_pdata (apply_writes h (ws ++ [(o, bs)])) (host s0)) (set_ip_id id s0) -> Q tt s') ->
  wp (on_pbuf m) s Q.
Proof.
  intros -> Hm HQ. apply wp_on_pbuf. rewrite host_with. eexists tt, _. split; [by rewrite Hm, wr_bytes_ok|].
  apply HQ. rewrite with_with. f_equal. unfold set_pdata, apply_writes. cbn. by rewrite foldl_app.
Qed.

Definition source (src : option Z) (nif : netif) : Z := if ip_addr_isany src then ip_addr nif else addr_of src.

Definition new_header (tot_len id : Z) (src : option Z) (dest ttl tos proto : Z) (nif : netif) : ip_hdr :=
  let h := IpHdr 0x45 tos (lwip_htons tot_len) (lwip_htons id) 0 ttl proto 0 (source src nif) dest in
  IPH_CHKSUM_SET (inline_chksum h) h.

(** The writes of a header in the order of ip_output_if. *)
Definition header_writes (h : ip_hdr) : list (Z * bytes) :=
  [(8, [_ttl h]); (9, [_proto h]); (16, bytes32 (dest h)); (0, [_v_hl h]); (1, [_tos h]); (2, bytes16 (_len h));
   (6, bytes16 (_offset h)); (4, bytes16 (_id h)); (12, bytes32 (src h)); (10, bytes16 (_chksum h))].

Lemma fill_header_ok s h tot_len src dest ttl tos proto nif (Q : unit -> ipst E -> Prop) :
  (forall ws, ws = header_writes (new_header tot_len (ip_id s) src dest ttl tos proto nif) ->
    Q tt (with_host (set_pdata (apply_writes h ws) (host s)) (set_ip_id (u16 (ip_id s + 1)) s))) ->
  wp (fill_header h tot_len src dest ttl tos proto nif) s Q.
Proof.
  intros HQ. unfold fill_header. cbv zeta. set (v_hl := Z.lor (Z.shiftl 4 4) _). change v_hl with 0x45. clear v_hl.
  assert (s = with_host (set_pdata (apply_writes h []) (host s)) (set_ip_id (ip_id s) s)) as E0.
  { assert (set_pdata (apply_writes h []) (host s) = host s) as -> by (by destruct (host s)).
    unfold with_host, host. rewrite ph_set_get. by destruct s as [[]]. }
  wp_step. apply (write_step s h _ 8 [ttl] _ _ _ _ E0); [done|]. intros s1 E1.
  wp_step. apply (write_step s h _ 9 [proto] _ _ _ _ E1); [done|]. intros s2 E2.
  wp_step. apply (write_step s h _ 16 (bytes32 dest) _ _ _ _ E2); [done|]. intros s3 E3.
  wp_step. apply (write_step s h _ 0 [0x45] _ _ _ _ E3); [by rewrite padd_0|]. intros s4 E4.
  wp_step. apply (write_step s h _ 1 [tos] _ _ _ _ E4); [done|]. intros s5 E5.
  wp_step. apply (write_step s h _ 2 (bytes16 (lwip_htons tot_len)) _ _ _ _ E5); [done|]. intros s6 E6.
  wp_step. apply (write_step s h _ 6 (bytes16 0) _ _ _ _ E6); [done|]. intros s7 E7.
  wp_step. wp_step. assert (ip_id s7 = ip_id s) as -> by (by rewrite E7).
  wp_step. apply (write_step s h _ 4 (bytes16 (lwip_htons (ip_id s))) _ _ _ _ E7); [done|]. intros s8 E8.
  wp_step. wp_step.
  assert (set_ip_id (u16 (ip_id s + 1)) s8 = with_host (set_pdata (apply_writes h [(8, [ttl]); (9, [proto]); (16, bytes32 dest);
    (0, [0x45]); (1, [tos]); (2, bytes16 (lwip_htons tot_len)); (6, bytes16 0); (4, bytes16 (lwip_htons (ip_id s)))]) (host s))
    (set_ip_id (u16 (ip_id s + 1)) s)) as E9 by (by rewrite E8).
  wp_step. eapply (write_step s h _ 12 _ _ _ _ _ E9); [done|]. intros s10 E10.
  eapply (write_step s h _ 10 _ _ _ _ _ E10); [done|]. intros s11 E11. subst s11.
  apply HQ. unfold header_writes, new_header, IPH_CHKSUM_SET, inline_chksum, source.
  cbn [_v_hl _tos _len _id _offset _ttl _proto _chksum IpHdr.src IpHdr.dest app]. cbv zeta. reflexivity.
Qed.

(** The bytes the writes leave are those of the header. *)
Lemma header_writes_bytes hd i b : hdr_bytes hd !! i = Some b -> hdr_ok hd -> writes_at (header_writes hd) (Z.of_nat i) = Some b.
Proof.
  intros Hb (K1 & K2 & _ & _ & _ & K6 & K7 & _). unfold is_u8 in *.
  unfold header_writes. rewrite <- (Z.mod_small (_ttl hd) 256), <- (Z.mod_small (_proto hd) 256), <- (Z.mod_small (_v_hl hd) 256),
    <- (Z.mod_small (_tos hd) 256) by lia.
  do 20 (destruct i as [|i]; [exact Hb|]). discriminate Hb.
Qed.

Lemma header_writes_in hd h o bs a : (o, bs) ∈ header_writes hd -> a ∈ range (padd h o) (length bs) -> a ∈ range h 20.
Proof.
  unfold header_writes. intros Hin (i & -> & Hi)%range_in. apply range_in. exists (o + i). rewrite padd_padd. split; [done|].
  repeat (apply elem_of_cons in Hin as [E0|Hin]; [injection E0 as -> ->; simpl in Hi; lia|]). by apply elem_of_nil in Hin.
Qed.

Lemma new_header_ok tot_len id src dest ttl tos proto nif :
  is_u8 ttl -> is_u8 tos -> is_u8 proto -> is_u32 (source src nif) -> is_u32 dest ->
  hdr_ok (new_header tot_len id src dest ttl tos proto nif) /\
  forall addr, inet_chksum addr (hdr_bytes (new_header tot_len id src dest ttl tos proto nif)) = 0.
Proof.
  intros Ht Hs Hp Hsrc Hd. unfold new_header. cbv zeta. set (h := IpHdr _ _ _ _ _ _ _ _ _ _).
  assert (hdr_ok h) as Hh.
  { subst h. unfold hdr_ok. cbn [_v_hl _tos _len _id _offset _ttl _proto _chksum IpHdr.src IpHdr.dest].
    pose proof (htons_u16 tot_len). pose proof (htons_u16 id). unfold is_u8, is_u16 in *. repeat (split; [done || lia|]). done. }
  split; [|intros addr; by apply checked_header].
  destruct (inline_chksum_ok h Hh) as [Hc _]; [done|done|]. revert Hc. generalize (inline_chksum h). intros c Hc.
  destruct Hh as (K1 & K2 & K3 & K4 & K5 & K6 & K7 & K8 & K9 & K10).
  exact (conj K1 (conj K2 (conj K3 (conj K4 (conj K5 (conj K6 (conj K7 (conj Hc (conj K9 K10))))))))).
Qed.

(** ** Output *)

Lemma with_same s : with_host (host s) s = s.
Proof. unfold with_host, host. rewrite ph_set_get. by destruct s as [[]]. Qed.

Lemma wp_rdp_ip s p b (Q : pbuf -> ipst E -> Prop) : pbufs (host s) !! p = Some b -> Q b s -> wp (on_pbuf (rdp p)) s Q.
Proof. intros Hb HQ. apply wp_on_pbuf, (wp_rdp _ _ b); [done|]. by rewrite with_same. Qed.

Lemma wp_rd_payload s p b x (Q : ptr -> ipst E -> Prop) :
  pbufs (host s) !! p = Some b -> payload b = Some x -> Q x s -> wp (on_pbuf (rd_payload p)) s Q.
Proof.
  intros Hb Hx HQ. apply wp_on_pbuf. exists x, (host s). split; [|by rewrite with_same].
  unfold rd_payload. by rewrite (rdp_bind _ _ b), Hx.
Qed.

Context (output : netif -> ptr -> Z -> M E Z) `{!IpLinkSpec A E output}.

(** A packet small enough for copies and an Ethernet header, on memory that is there. *)
Definition fits_link k (b : pbuf) (x : ptr) (n : Z) : Prop := tot_len b + n <= 65452 /\ room k x n.

Lemma wp_netif_output s a ext n nif p dst b x l data :
  ip_inv s a ext -> p ∈ ext -> ab_tab a !! n = Some nif -> il_nif nif -> packet (host s) p b x l data ->
  fits_link (host s) b x SIZEOF_ETH_HDR ->
  wp (netif_output output n p dst) s (fun _ s' => ip_inv s' a ext /\ quiet [] s s' /\ ip_id s' = ip_id s /\
    ip_out s' = ip_out s ++ [Sent n dst (Some data)]).
Proof.
  intros [Hn Hh] Hp Hnif Hl Hk [Ht Hr]. unfold netif_output. wp_step. wp_step. wp_step. wp_step. rewrite (pkt_bytes _ _ _ _ _ _ Hk).
  wp_step. apply (wp_rd_nif_ip _ a _ nif); [done|done|]. apply wp_on_if, wp_on_arp. pose proof Hh as [_ [L Hi]].
  eapply wp_mono; [apply il_output_ok; [exact Hh|exact Hp|exact Hl|]|].
  - apply (pkt_sendable _ L (ph_own (n_arp (ip_if s)) ++ ext) p b x l data); try done. apply elem_of_app. by right.
  - intros r e He. split; [|done]. split; [by apply nifs_arp|exact He].
Qed.

(** The header in front of the packet. *)
Definition pushed (nif : netif) s (p : ptr) b x l data (src : option Z) (dst ttl tos proto : Z) s' : Prop :=
  let h := new_header (tot_len b + IP_HLEN) (ip_id s) src dst ttl tos proto nif in
  packet (host s') p (moved b x IP_HLEN) (padd x (- IP_HLEN)) l (hdr_bytes h ++ data) /\
  (forall n, room (host s) x (IP_HLEN + n) -> room (host s') (padd x (- IP_HLEN)) n).

Lemma fill_ok s a ext p b x l data src dst ttl tos proto nif :
  ip_inv s a ext -> p ∈ ext -> packet (host s) p b x l data -> header_fits p b x IP_HLEN = true -> tot_len b + IP_HLEN < 65536 ->
  is_u8 ttl -> is_u8 tos -> is_u8 proto -> is_u32 (source src nif) -> is_u32 dst ->
  wp (fill_header (padd x (- IP_HLEN)) (tot_len b + IP_HLEN) src dst ttl tos proto nif)
    (with_host (set_pbufs (insert p (moved b x IP_HLEN)) (host s)) s) (fun _ s' =>
    ip_inv s' a ext /\ quiet [] s s' /\ ip_id s' = u16 (ip_id s + 1) /\ ip_out s' = ip_out s /\
    pushed nif s p b x l data src dst ttl tos proto s').
Proof.
  intros Hs Hp Hk Hfit Ht Httl Htos Hproto Hsrc Hdst. apply fill_header_ok. intros ws ->. rewrite host_with, with_set_id, with_with.
  destruct (new_header_ok (tot_len b + IP_HLEN) (ip_id s) src dst ttl tos proto nif Httl Htos Hproto Hsrc Hdst) as [Hh _].
  change (ip_id (with_host (set_pbufs (insert p (moved b x IP_HLEN)) (host s)) s)) with (ip_id s).
  set (h := new_header _ _ _ _ _ _ _ _) in *. set (D := apply_writes (padd x (- IP_HLEN)) (header_writes h) (pdata (host s))).
  pose proof Hs as [_ [_ [L Hi]]].
  assert (forall a, a ∉ range (padd x (- IP_HLEN)) 20 -> D !! a = pdata (host s) !! a) as Hrest.
  { intros y Hy. apply apply_writes_ne. intros o bs Hin Hy'. by apply Hy, (header_writes_in h _ o bs). }
  destruct (pkt_push (host s) L _ p b x l data IP_HLEN (hdr_bytes h) D Hi) as [Hi' Hk']; try done.
  { apply elem_of_app. by right. }
  { apply (apply_writes_holds _ (header_writes h) _ (hdr_bytes h)). intros i c Hc. by apply header_writes_bytes. }
  split; [by eapply ip_inv_host|]. split; [done|]. split; [done|]. split; [done|]. unfold pushed. rewrite host_with. split; [exact Hk'|].
  intros n Hr i Hin. unfold room in Hr. change (pdata _) with D. rewrite padd_padd.
  destruct (Hr i) as [v Hv]; [unfold IP_HLEN; lia|]. rewrite Hrest.
  - replace (- IP_HLEN + (i - n)) with (i - (IP_HLEN + n)) by lia. by eexists.
  - intros (j & E0 & Hj)%range_in. rewrite padd_padd in E0. apply padd_inj in E0. lia.
Qed.

Context (ip_frag : ptr -> Z -> Z -> M (ipst E) Z).

(** The packet is not larger than the interface takes. *)
Definition fits_mtu (nif : netif) (n : Z) : Prop := mtu nif = 0 \/ n <= mtu nif.

Lemma fits_mtu_test nif n : fits_mtu nif n -> nz (mtu nif) && (mtu nif <? n) = false.
Proof. unfold fits_mtu, nz. intros [->|Hn]; [done|]. destruct (Z.ltb_spec (mtu nif) n); [lia|]. by rewrite andb_false_r. Qed.

Lemma wp_ip_inc kind s a ext (Q : unit -> ipst E -> Prop) : ip_inv s a ext ->
  (forall s', ip_inv s' a ext -> quiet [kind] s s' -> ip_id s' = ip_id s -> ip_out s' = ip_out s -> host s' = host s -> Q tt s') ->
  wp (ip_inc kind) s Q.
Proof. intros Hs HQ. unfold ip_inc. wp_step. by apply HQ. Qed.

(** What ip_output_if does when the destination is known. *)
Lemma wp_send_out s a ext n nif p dst b x l data :
  ip_inv s a ext -> p ∈ ext -> ab_tab a !! n = Some nif -> il_nif nif -> packet (host s) p b x l data ->
  fits_link (host s) b x SIZEOF_ETH_HDR -> fits_mtu nif (tot_len b) ->
  wp (ip_inc IPxmit;;
      n0 ← on_if (rd_nif n);
      b0 ← on_pbuf (rdp p);
      if nz (mtu n0) && (mtu n0 <? tot_len b0) then ip_frag p n dst else netif_output output n p dst) s (fun _ s' =>
    ip_inv s' a ext /\ quiet [IPxmit] s s' /\ ip_id s' = ip_id s /\ ip_out s' = ip_out s ++ [Sent n dst (Some data)]).
Proof.
  intros Hs Hp Hn Hl Hk Hf Hm. wp_step. eapply wp_ip_inc; [exact Hs|]. intros s1 Hs1 H1s H1i H1o H1h. wp_step.
  apply (wp_rd_nif_ip _ a _ nif); [apply Hs1|done|]. rewrite <- H1h in Hk, Hf. wp_step.
  apply (wp_rdp_ip _ _ b); [exact (pkt_lookup _ _ _ _ _ _ Hk)|]. rewrite fits_mtu_test by done.
  eapply wp_mono; [by eapply wp_netif_output|]. intros r s' (Hi & Hsame & Hid & Hout). cbv beta.
  split; [done|]. split; [exact (ip_quiet_trans [IPxmit] [] _ _ _ H1s Hsame)|]. by rewrite Hid, Hout, H1i, H1o.
Qed.

Lemma wp_header_ip s p b x n (Q : Z -> ipst E -> Prop) :
  pbufs (host s) !! p = Some b -> payload b = Some x -> is_u16 (len b) -> is_u16 (tot_len b) -> 0 < n <= 32767 -> len b <= tot_len b ->
  tot_len b + n < 65536 ->
  (if header_fits p b x n then Q 0 (with_host (set_pbufs (insert p (moved b x n)) (host s)) s) else Q 1 s) ->
  wp (on_pbuf (pbuf_header (Some p) n)) s Q.
Proof.
  intros Hb Hx Hl Ht Hn Hle Hmax HQ. apply wp_on_pbuf. pose proof Hl as Hl'. unfold is_u16 in Hl'.
  pose proof (pbuf_header_eq (host s) p b x n Hb Hx Hl Ht ltac:(lia) ltac:(lia) ltac:(lia) ltac:(lia) ltac:(lia)) as E0.
  destruct (header_fits p b x n); eexists _, _; (split; [exact E0|]); [done|]. by rewrite with_same.
Qed.

Lemma ip_output_if_ok s a ext n nif p b x l data src dst ttl tos proto :
  ip_inv s a ext -> p ∈ ext -> ab_tab a !! n = Some nif -> il_nif nif -> packet (host s) p b x l data ->
  fits_link (host s) b x (IP_HLEN + SIZEOF_ETH_HDR) -> fits_mtu nif (tot_len b + IP_HLEN) ->
  is_u8 ttl -> is_u8 tos -> is_u8 proto -> is_u32 (source src nif) -> is_u32 dst ->
  wp (ip_output_if output ip_frag p src (Some dst) ttl tos proto n) s (fun r s' =>
    ip_inv s' a ext /\ quiet [if header_fits p b x IP_HLEN then IPxmit else IPerr] s s' /\
    if header_fits p b x IP_HLEN then
      ip_id s' = u16 (ip_id s + 1) /\
      ip_out s' = ip_out s ++ [Sent n dst (Some (hdr_bytes (new_header (tot_len b + IP_HLEN) (ip_id s) src dst ttl tos proto nif) ++ data))]
    else r = ERR_BUF /\ ip_id s' = ip_id s /\ ip_out s' = ip_out s).
Proof.
  intros Hs Hp Hn Hl Hk [Htot Hroom] Hm Httl Htos Hproto Hsrc Hdst. pose proof Hs as [_ [_ [L Hi]]].
  destruct (pkt_tot _ _ _ _ _ _ _ _ Hi Hk) as (_ & _ & Hlen & Hmax). pose proof (pkt_lookup _ _ _ _ _ _ Hk) as Hb.
  unfold SIZEOF_ETH_HDR in Htot. unfold ip_output_if. wp_step. apply (wp_rdp_ip _ _ b); [done|]. wp_step.
  apply wp_assert; [by rewrite (pkt_ref _ _ _ _ _ _ Hk)|]. wp_step. wp_step.
  apply (wp_header_ip _ _ b x); [done|exact (pkt_payload _ _ _ _ _ _ Hk)|unfold is_u16; lia|unfold is_u16; lia|done|lia|unfold IP_HLEN in *; lia|].
  destruct (header_fits p b x IP_HLEN) eqn:Hfit; cbn [nz negb Z.eqb].
  - set (s1 := with_host _ s). assert (pbufs (host s1) !! p = Some (moved b x IP_HLEN)) as Hb1
      by (unfold s1; rewrite host_with; apply lookup_insert_eq).
    wp_step. apply (wp_rd_payload _ _ (moved b x IP_HLEN) (padd x (- IP_HLEN))); [done|done|]. wp_step.
    apply (wp_rdp_ip _ _ (moved b x IP_HLEN)); [done|]. wp_step.
    apply wp_assert; [apply Z.leb_le; change (len (moved b x IP_HLEN)) with (len b + IP_HLEN); lia|]. wp_step.
    apply (wp_rd_nif_ip _ a _ nif); [apply nifs_arp, Hs|done|]. wp_step.
    eapply wp_mono; [eapply (fill_ok s a ext p b x l data); try done; unfold IP_HLEN in *; lia|].
    intros ? s2 (Hs2 & Hsame & Hid & Hout & Hk2 & Hr2). cbv beta. wp_step.
    eapply wp_mono; [eapply (wp_send_out s2 a ext n nif p dst (moved b x IP_HLEN)); try done|].
    + split; [|by apply Hr2]. change (tot_len (moved b x IP_HLEN)) with (tot_len b + IP_HLEN). unfold SIZEOF_ETH_HDR. lia.
    + intros r s' (Hi' & Hsame' & Hid' & Hout'). cbv beta. split; [done|]. split; [exact (ip_quiet_trans [] [IPxmit] _ _ _ Hsame Hsame')|].
      split; [congruence|]. by rewrite Hout', Hout.
  - wp_step. eapply wp_ip_inc; [exact Hs|]. intros s1 Hs1 H1s H1i H1o H1h. wp_step. wp_step. done.
Qed.

(** The header is in the packet already. *)
Lemma ip_output_if_hdrincl s a ext n nif p b x l data src dst ttl tos proto :
  ip_inv s a ext -> p ∈ ext -> ab_tab a !! n = Some nif -> il_nif nif -> packet (host s) p b x l data ->
  fits_link (host s) b x SIZEOF_ETH_HDR -> fits_mtu nif (tot_len b) -> is_u32 dst -> 20 <= len b ->
  slice 16 4 data = bytes32 dst ->
  wp (ip_output_if output ip_frag p src None ttl tos proto n) s (fun _ s' =>
    ip_inv s' a ext /\ quiet [IPxmit] s s' /\ ip_id s' = ip_id s /\ ip_out s' = ip_out s ++ [Sent n dst (Some data)]).
Proof.
  intros Hs Hp Hn Hl Hk Hf Hm Hdst Hlen Hd. pose proof (pkt_lookup _ _ _ _ _ _ Hk) as Hb.
  unfold ip_output_if. wp_step. apply (wp_rdp_ip _ _ b); [done|]. wp_step.
  apply wp_assert; [by rewrite (pkt_ref _ _ _ _ _ _ Hk)|]. wp_step. wp_step.
  apply (wp_rd_payload _ _ b x); [done|exact (pkt_payload _ _ _ _ _ _ Hk)|]. wp_step. apply wp_on_pbuf.
  exists dst, (host s). split; [|rewrite with_same; wp_step; by eapply wp_send_out].
  apply rd32_ok; [done|]. rewrite <- Hd. exact (pkt_slice _ _ b x l data 16 4 Hk ltac:(lia) ltac:(lia) ltac:(lia)).
Qed.

Lemma ip_output_routed s a ext n nif p b x l data src dst ttl tos proto :
  ip_inv s a ext -> p ∈ ext -> route_of a dst = Some n -> ab_tab a !! n = Some nif -> il_nif nif -> packet (host s) p b x l data ->
  fits_link (host s) b x (IP_HLEN + SIZEOF_ETH_HDR) -> fits_mtu nif (tot_len b + IP_HLEN) ->
  is_u8 ttl -> is_u8 tos -> is_u8 proto -> is_u32 (source src nif) -> is_u32 dst ->
  wp (ip_output output ip_frag p src dst ttl tos proto) s (fun r s' =>
    ip_inv s' a ext /\ quiet [if header_fits p b x IP_HLEN then IPxmit else IPerr] s s' /\
    if header_fits p b x IP_HLEN then
      ip_id s' = u16 (ip_id s + 1) /\
      ip_out s' = ip_out s ++ [Sent n dst (Some (hdr_bytes (new_header (tot_len b + IP_HLEN) (ip_id s) src dst ttl tos proto nif) ++ data))]
    else r = ERR_BUF /\ ip_id s' = ip_id s /\ ip_out s' = ip_out s).
Proof.
  intros Hs Hp Hr Hn Hl Hk Hf Hm Httl Htos Hproto Hsrc Hdst. unfold ip_output. wp_step.
  apply (wp_rdp_ip _ _ b); [exact (pkt_lookup _ _ _ _ _ _ Hk)|]. wp_step. apply wp_assert; [by rewrite (pkt_ref _ _ _ _ _ _ Hk)|].
  wp_step. apply wp_on_if. eexists _, _. split; [exact (route_found _ _ _ _ (proj1 Hs) Hr)|]. cbv beta iota. assert (set_ip_if (ip_if s) s = s) as -> by (by destruct s).
  by eapply ip_output_if_ok.
Qed.

(** C10: ip_output sends a packet that has room for the header on the interface the
    route goes to: what netif->output is given is an IPv4 header with the fields asked
    for (the address of the interface when no source is given, the next
    identification), whose checksum, computed while the fields are written, verifies,
    followed by the bytes of the packet, unchanged; every reference stays as it was.
    Without room it refuses with ERR_BUF and nothing is sent. *)
Theorem ip_output_sends s a ext n nif p b x l data src dst ttl tos proto :
  ip_inv s a ext -> p ∈ ext -> packet (host s) p b x l data ->
  route_of a dst = Some n -> ab_tab a !! n = Some nif -> il_nif nif -> is_u32 (source src nif) -> is_u32 dst ->
  fits_link (host s) b x (IP_HLEN + SIZEOF_ETH_HDR) -> fits_mtu nif (tot_len b + IP_HLEN) ->
  is_u8 ttl -> is_u8 tos -> is_u8 proto ->
  exists r s', ip_output output ip_frag p src dst ttl tos proto s = Done (r, s') /\ ip_inv s' a ext /\ quiet [if header_fits p b x IP_HLEN then IPxmit else IPerr] s s' /\
    if header_fits p b x IP_HLEN then
      exists h, ip_id s' = u16 (ip_id s + 1) /\ ip_out s' = ip_out s ++ [Sent n dst (Some (hdr_bytes h ++ data))] /\
        (forall addr, inet_chksum addr (hdr_bytes h) = 0) /\
        IPH_V h = 4 /\ IPH_HL h = 5 /\ _tos h = tos /\ lwip_ntohs (_len h) = zlen data + IP_HLEN /\
        _id h = lwip_htons (ip_id s) /\ _offset h = 0 /\ _ttl h = ttl /\ _proto h = proto /\
        IpHdr.src h = (if ip_addr_isany src then ip_addr nif else addr_of src) /\ IpHdr.dest h = dst
    else r = ERR_BUF /\ ip_id s' = ip_id s /\ ip_out s' = ip_out s.
Proof.
  intros Hs Hp Hk Hr Hn Hl Hsrc Hdst Hf Hm Httl Htos Hproto. pose proof Hs as [_ [_ [L Hi]]].
  destruct (pkt_tot _ _ _ _ _ _ _ _ Hi Hk) as (Ht & _ & Hlen & _). destruct Hf as [Hf1 Hf2].
  destruct (ip_output_routed s a ext n nif p b x l data src dst ttl tos proto Hs Hp Hr Hn Hl Hk (conj Hf1 Hf2) Hm
    Httl Htos Hproto Hsrc Hdst) as (r & s' & E0 & Hi' & Hsame & Hpost).
  exists r, s'. split; [exact E0|]. split; [exact Hi'|]. split; [exact Hsame|]. destruct (header_fits p b x IP_HLEN); [|exact Hpost].
  destruct Hpost as [Hid Hout]. eexists. split; [exact Hid|]. split; [exact Hout|].
  split; [by apply new_header_ok|]. split; [done|]. split; [done|]. split; [done|]. split; [|done].
  rewrite <- Ht. change (_len _) with (lwip_htons (tot_len b + IP_HLEN)). apply htons_invol. unfold is_u16, IP_HLEN, SIZEOF_ETH_HDR in *. lia.
Qed.
End out.
