(* ===== verification/Icmp.v ===== *)
(** * ICMP

    core/ipv4/icmp.c: echo replies, and the messages sent about packets that are
    dropped. *)

From S2P Require Import Prelude ByteOrder Chksum Alloc Pbuf PbufData IpAddr IpHdr Netif Ip.

Definition ICMP_ER : Z := 0.

Definition ICMP_DUR : Z := 3.

Definition ICMP_ECHO : Z := 8.

Definition ICMP_TE : Z := 11.

Definition ICMP_DUR_PROTO : Z := 2.

Definition ICMP_TTL : Z := 255.

Definition ICMP_DEST_UNREACH_DATASIZE : Z := 8.

(** sizeof(struct icmp_echo_hdr) *)
Definition ICMP_ECHO_HLEN : Z := 8.

(** The checksum after the type changes from ICMP_ECHO to ICMP_ER. *)
Definition echo_chksum (c : Z) : Z :=
  if lwip_htons (0xffff - Z.shiftl ICMP_ECHO 8) <=? c then u16 (c + (lwip_htons (Z.shiftl ICMP_ECHO 8) + 1))
  else u16 (c + lwip_htons (Z.shiftl ICMP_ECHO 8)).

(** The payloads of a chain, as inet_chksum_pbuf reads them. *)
Fixpoint rd_chain {A} (fuel : nat) (q : option ptr) : M (pstate A) Chksum.chain :=
  match q with
  | None => mret []
  | Some p =>
      match fuel with
      | O => fail OutOfFuel
      | S fuel =>
          b ← rdp p;
          x ← (if len b =? 0 then mret (default (RExt, 0) (payload b)) else deref (payload b));
          bs ← rd_bytes x (Z.to_nat (len b));
          rest ← rd_chain fuel (next b);
          mret ((x.2, bs) :: rest)
      end
  end.

Definition chksum_of_pbuf {A} (p : ptr) : M (pstate A) Z :=
  s ← get;
  q ← rd_chain (pbuf_fuel s) (Some p);
  mret (inet_chksum_pbuf q).

(** inet_chksum of the [n] bytes at [a]. *)
Definition chksum_of_mem {A} (a : ptr) (n : Z) : M (pstate A) Z :=
  bs ← rd_bytes a (Z.to_nat n);
  mret (inet_chksum a.2 bs).

Section icmp.
Context {A E : Type} `{Allocator A} `{PacketHost A E}.
Context (stale_flags : ptr -> Z) (custom : ptr -> option (M (pstate A) unit)).
Context (output : netif -> ptr -> Z -> M E Z).
Context (ip_frag : ptr -> Z -> Z -> M (ipst E) Z).

Definition ip_free (p : ptr) : M (ipst E) unit := on_pbuf (pbuf_free custom (Some p));; mret tt.

(** A packet with room for the link header and a new IP header; the address of the IP
    header.  [None] is memerr. *)
Definition echo_room (p : ptr) (iphdr : ptr) (hlen : Z) : M (ipst E) (option (ptr * ptr)) :=
  r ← on_pbuf (pbuf_header (Some p) (PBUF_IP_HLEN + PBUF_LINK_HLEN));
  if nz r then
    r ← on_pbuf (pbuf_header (Some p) hlen);
    if nz r then lwip_assert false;; mret None
    else
      b ← on_pbuf (rdp p);
      r ← on_pbuf (pbuf_alloc stale_flags custom PBUF_LINK (tot_len b) PBUF_RAM);
      match r with
      | None => mret None
      | Some r =>
          rb ← on_pbuf (rdp r);
          lwip_assert (hlen + ICMP_ECHO_HLEN <=? len rb);;
          c ← on_pbuf (pbuf_copy (Some r) (Some p));
          if negb (c =? ERR_OK) then lwip_assert false;; mret None
          else
            iphdr ← on_pbuf (rd_payload r);
            h ← on_pbuf (pbuf_header (Some r) (- hlen));
            if nz h then lwip_assert false;; mret None
            else ip_free p;; mret (Some (r, iphdr))
      end
  else
    r ← on_pbuf (pbuf_header (Some p) (- (PBUF_IP_HLEN + PBUF_LINK_HLEN)));
    if nz r then lwip_assert false;; mret None
    else mret (Some (p, iphdr)).

(** The request turned into the reply, and sent. *)
Definition echo_reply (p iphdr : ptr) (hlen : Z) (inp : Z) : M (ipst E) unit :=
  iecho ← on_pbuf (rd_payload p);
  s ← get;
  on_pbuf (wr32 (padd iphdr 12) (current_iphdr_dest s));;
  on_pbuf (wr32 (padd iphdr 16) (current_iphdr_src s));;
  on_pbuf (wrb iecho ICMP_ER);;
  c ← on_pbuf (rd16 (padd iecho 2));
  on_pbuf (wr16 (padd iecho 2) (echo_chksum c));;
  on_pbuf (wrb (padd iphdr 8) ICMP_TTL);;
  on_pbuf (wr16 (padd iphdr 10) 0);;
  c ← on_pbuf (chksum_of_mem iphdr IP_HLEN);
  on_pbuf (wr16 (padd iphdr 10) c);;
  ip_inc ICxmit;;
  r ← on_pbuf (pbuf_header (Some p) hlen);
  if nz r then lwip_assert false
  else ip_output_if output ip_frag p (Some (current_iphdr_dest s)) None ICMP_TTL 0 IP_PROTO_ICMP inp;; mret tt.

Definition icmp_lenerr (p : ptr) : M (ipst E) unit := ip_free p;; ip_inc IClenerr.

Definition icmp_echo (p iphdr : ptr) (hlen : Z) (inp : Z) : M (ipst E) unit :=
  s ← get;
  n ← on_if (rd_nif inp);
  if ip_addr_ismulticast (current_iphdr_dest s) || nz (ip4_addr_isbroadcast (current_iphdr_dest s) n) then
    ip_inc ICerr;; ip_free p
  else
    b ← on_pbuf (rdp p);
    if tot_len b <? ICMP_ECHO_HLEN then icmp_lenerr p
    else
      c ← on_pbuf (chksum_of_pbuf p);
      if negb (c =? 0) then ip_free p;; ip_inc ICchkerr
      else
        r ← echo_room p iphdr hlen;
        match r with
        | None => ip_free p;; ip_inc ICerr
        | Some (p, iphdr) => echo_reply p iphdr hlen inp;; ip_free p
        end.

Definition icmp_input (p : ptr) (inp : Z) : M (ipst E) unit :=
  ip_inc ICrecv;;
  iphdr ← on_pbuf (rd_payload p);
  v_hl ← on_pbuf (rdb iphdr);
  let hlen := Z.land v_hl 0x0f * 4 in
  r ← on_pbuf (pbuf_header (Some p) (- hlen));
  short ← (if nz r then mret true else b ← on_pbuf (rdp p); mret (tot_len b <? 4));
  if (short : bool) then icmp_lenerr p
  else
    x ← on_pbuf (rd_payload p);
    type ← on_pbuf (rdb x);
    if type =? ICMP_ER then ip_free p
    else if type =? ICMP_ECHO then icmp_echo p iphdr hlen inp
    else ip_inc ICproterr;; ip_inc ICdrop;; ip_free p.

Definition icmp_send_response (p : ptr) (type code : Z) : M (ipst E) unit :=
  let n := ICMP_ECHO_HLEN + IP_HLEN + ICMP_DEST_UNREACH_DATASIZE in
  q ← on_pbuf (pbuf_alloc stale_flags custom PBUF_IP n PBUF_RAM);
  match q with
  | None => mret tt
  | Some q =>
      b ← on_pbuf (rdp q);
      lwip_assert (n <=? len b);;
      iphdr ← on_pbuf (rd_payload p);
      icmphdr ← on_pbuf (rd_payload q);
      on_pbuf (wrb icmphdr type);;
      on_pbuf (wrb (padd icmphdr 1) code);;
      on_pbuf (wr16 (padd icmphdr 4) 0);;
      on_pbuf (wr16 (padd icmphdr 6) 0);;
      bs ← on_pbuf (rd_bytes iphdr (Z.to_nat (IP_HLEN + ICMP_DEST_UNREACH_DATASIZE)));
      on_pbuf (wr_bytes (padd icmphdr ICMP_ECHO_HLEN) bs);;
      on_pbuf (wr16 (padd icmphdr 2) 0);;
      c ← on_pbuf (chksum_of_mem icmphdr (len b));
      on_pbuf (wr16 (padd icmphdr 2) c);;
      ip_inc ICxmit;;
      src ← on_pbuf (rd32 (padd iphdr 12));
      ip_output output ip_frag q None src ICMP_TTL 0 IP_PROTO_ICMP;;
      ip_free q
  end.

Definition icmp_dest_unreach (p : ptr) (t : Z) : M (ipst E) unit := icmp_send_response p ICMP_DUR t.

Definition icmp_time_exceeded (p : ptr) (t : Z) : M (ipst E) unit := icmp_send_response p ICMP_TE t.
End icmp.
