(* ===== verification/IpSteps.v ===== *)
(** * Steps on a packet

    The operations ip.c and icmp.c do on a packet they hold: reading and writing its
    bytes, hiding and revealing its headers, the checksum of its chain, giving it up. *)

From S2P Require Import Prelude ByteOrder Chksum Alloc Pbuf AllocImpl PbufSpec PbufData PbufOwn IpAddr IpHdr Etharp EtharpTable EtharpOps EtharpSpec EtharpPbuf Netif NetifSpec Ip IpPacket IpOut Icmp.

(** ** Headers hidden and revealed *)

Lemma moved_moved b x i j : payload b = Some x -> moved (moved b x i) (padd x (- i)) j = moved b x (i + j).
Proof.
  intros Hx. unfold moved, upd_payload, upd_tot, upd_len. destruct b. cbn.
  rewrite padd_padd. f_equal; [do 2 f_equal; lia|lia|lia].
Qed.

Lemma moved_0 b x : payload b = Some x -> moved b x 0 = b.
Proof.
  intros Hx. unfold moved, upd_payload, upd_tot, upd_len. destruct b. cbn in *. subst. rewrite padd_0. f_equal; lia.
Qed.

Lemma moved_back b x n : payload b = Some x -> moved (moved b x (- n)) (padd x n) n = b.
Proof.
  intros Hx. pose proof (moved_moved b x (- n) n Hx) as E. rewrite Z.opp_involutive, Z.add_opp_diag_l, moved_0 in E by done. exact E.
Qed.

Section steps.
Context {A : Type} `{AllocatorSpec A}.
Implicit Types (k : pstate A).

(** The packet with its first [n] bytes hidden: [b] and [data] are as if they were
    not. *)
Record under k L ext p b x l (data : bytes) n : Prop := Under {
  un_pkt : packet (set_pbufs (insert p b) k) p b x l data;
  un_inv : pinv (set_pbufs (insert p b) k) L ext;
  un_top : pbufs k !! p = Some (moved b x (- n));
  un_in : p ∈ ext;
  un_n : 0 < n <= len b
}.

Lemma set_insert k p b c : set_pbufs (insert p b) (set_pbufs (insert p c) k) = set_pbufs (insert p b) k.
Proof. destruct k as [m]. unfold set_pbufs. cbn. by rewrite insert_insert_eq. Qed.

Lemma set_insert_id k p b : pbufs k !! p = Some b -> set_pbufs (insert p b) k = k.
Proof. intros Hb. destruct k as [m]. unfold set_pbufs. cbn in *. by rewrite insert_id. Qed.

Lemma un_payload k L ext p b x l data n : under k L ext p b x l data n -> payload b = Some x.
Proof. intros Hu. exact (pkt_payload _ _ _ _ _ _ (un_pkt _ _ _ _ _ _ _ _ _ Hu)). Qed.

Lemma un_real k L ext p b x l data n : under k L ext p b x l data n -> pinv k L ext.
Proof.
  intros Hu. pose proof (un_payload _ _ _ _ _ _ _ _ _ Hu) as Hx. destruct Hu as [Hk Hi Ht Hp Hn].
  destruct (pkt_pop _ _ _ _ _ _ _ _ n Hi Hp Hk Hn) as [Hi' _]. by rewrite set_insert, set_insert_id in Hi'.
Qed.

Lemma un_hide k L ext p b x l data n :
  pinv k L ext -> p ∈ ext -> packet k p b x l data -> 0 < n <= len b ->
  under (set_pbufs (insert p (moved b x (- n))) k) L ext p b x l data n.
Proof.
  intros Hi Hp Hk Hn. pose proof (pkt_lookup _ _ _ _ _ _ Hk) as Hb.
  split; try done; rewrite ?set_insert, ?set_insert_id by done; [done|done|]. apply lookup_insert_eq.
Qed.

(** The length of what is not hidden. *)
Lemma un_len k L ext p b x l data n : under k L ext p b x l data n ->
  tot_len b = zlen data /\ 0 <= len b <= tot_len b /\ tot_len b < 65536.
Proof. intros Hu. destruct (pkt_tot _ _ _ _ _ _ _ _ (un_inv _ _ _ _ _ _ _ _ _ Hu) (un_pkt _ _ _ _ _ _ _ _ _ Hu)) as (? & _ & ? & ?). lia. Qed.

Lemma un_visible k L ext p b x l data n : under k L ext p b x l data n ->
  packet k p (moved b x (- n)) (padd x n) l (list.drop (Z.to_nat n) data).
Proof.
  intros Hu. destruct Hu as [Hk Hi Ht Hp Hn].
  destruct (pkt_pop _ _ _ _ _ _ _ _ n Hi Hp Hk Hn) as [_ Hk']. by rewrite set_insert, set_insert_id in Hk'.
Qed.

(** The payload pointer has room for the bytes hidden. *)
Lemma un_fits k L ext p b x l data n : under k L ext p b x l data n -> header_fits p (moved b x (- n)) (padd x n) n = true.
Proof.
  intros Hu. pose proof (un_pkt _ _ _ _ _ _ _ _ _ Hu) as Hk. destruct (un_inv _ _ _ _ _ _ _ _ _ Hu) as (_ & Hno & _).
  destruct (Hno p b (lookup_insert_eq _ _ _)) as ((_ & _ & _ & _ & m & _ & Hpl) & _). pose proof (un_payload _ _ _ _ _ _ _ _ _ Hu) as Hx.
  unfold payload_ok in Hpl. unfold header_fits. change (type (moved b x (- n))) with (type b).
  destruct (pkt_type _ _ _ _ _ _ Hk) as [E|E]; rewrite E in *; destruct Hpl as (a & Ha & Hle & _); rewrite Hx in Ha; injection Ha as ->;
    change (LWIP_MEM_ALIGN_SIZE SIZEOF_STRUCT_PBUF) with 24 in *; change SIZEOF_STRUCT_PBUF with 24 in *; unfold padd; cbn [fst snd]; lia.
Qed.

Lemma un_reveal k L ext p b x l data n : under k L ext p b x l data n -> n <= 32767 ->
  pbuf_header (Some p) n k = Done (0, set_pbufs (insert p b) k).
Proof.
  intros Hu Hn'. destruct (un_len _ _ _ _ _ _ _ _ _ Hu) as (_ & Hl & Hm). pose proof (un_n _ _ _ _ _ _ _ _ _ Hu) as Hn.
  pose proof (un_payload _ _ _ _ _ _ _ _ _ Hu) as Hx.
  assert (pbuf_header (Some p) n k = if header_fits p (moved b x (- n)) (padd x n) n
    then Done (0, set_pbufs (insert p (moved (moved b x (- n)) (padd x n) n)) k) else Done (1, k)) as ->.
  { pose proof (un_top _ _ _ _ _ _ _ _ _ Hu) as Ht. apply pbuf_header_eq; [exact Ht|by rewrite <- (Z.opp_involutive n) at 2| | |lia|lia| | |];
      cbn [moved upd_payload upd_tot upd_len len tot_len]; unfold is_u16; lia. }
  rewrite (un_fits _ _ _ _ _ _ _ _ _ Hu). by rewrite moved_back.
Qed.
End steps.

(** Memory that is there stays there. *)
Lemma store_some l : forall bs D a, is_Some (D !! a) -> is_Some (store l bs D !! a).
Proof.
  induction l as [|y l IH]; intros [|c bs] D a Ha; try done. cbn [store]. apply IH. destruct (decide (y = a)) as [->|Hne].
  - rewrite lookup_insert_eq. by eexists.
  - by rewrite lookup_insert_ne.
Qed.

(** A write in the first pbuf. *)
Lemma un_write {A} `{AllocatorSpec A} (k : pstate A) L ext p b x l data n o bs :
  under k L ext p b x l data n -> 0 <= o -> o + zlen bs <= len b ->
  under (set_pdata (store (range (padd x o) (length bs)) bs) k) L ext p b x l (splice (Z.to_nat o) bs data) n.
Proof. intros [Hk Hi Ht Hp Hn] Ho Hl. split; try done. exact (pkt_write _ _ _ _ _ _ _ _ _ _ Hi Hk Ho Hl). Qed.

(** ** Checksums *)

Lemma rd_chain_ok {A} (k : pstate A) l : forall fuel (q : option ptr) bs,
  chain (pbufs k) q l -> pays l -> holds (pdata k) (addrs l) bs -> is_bytes bs -> (length l <= fuel)%nat ->
  exists c, rd_chain fuel q k = Done (c, k) /\ chain_bytes c = bs /\ Forall (fun s => is_bytes s.2 /\ zlen s.2 <= 0xffff) c.
Proof.
  induction l as [|[a b] l IH]; intros fuel q bs Hc Hp Hh Hb Hf.
  - simpl in Hc. subst q. inversion Hh; subst. exists []. by destruct fuel.
  - destruct Hc as (-> & Ha & Hc). destruct fuel as [|fuel]; [simpl in Hf; lia|].
    apply list.Forall_cons in Hp as [([x Hx] & Hl & _) Hp]. cbn [fst snd] in *. cbn [addrs] in Hh. rewrite Hx in Hh.
    apply Forall2_app_inv_l in Hh as (b1 & b2 & Hh1 & Hh2 & ->). apply is_bytes_app in Hb as [Hb1 Hb2].
    destruct (IH fuel (next b) b2 Hc Hp Hh2 Hb2 ltac:(simpl in Hf; lia)) as (c & E & Hcb & Hcf).
    pose proof (holds_length _ _ _ Hh1) as Hlen. rewrite range_length in Hlen. unfold is_u16 in Hl.
    exists ((x.2, b1) :: c). split; [|split; [by unfold chain_bytes in *; cbn; rewrite Hcb|constructor; [|done]; unfold zlen; cbn; split; [done|lia]]].
    cbn [rd_chain]. rewrite (rdp_bind _ _ b) by done. rewrite Hx.
    assert ((if len b =? 0 then mret (default (RExt, 0) (Some x)) else deref (Some x)) k = Done (x, k)) as Ed by (by destruct (len b =? 0)).
    rewrite (bind_done _ _ _ _ _ Ed), (bind_done _ _ _ _ _ (rd_bytes_ok _ _ _ _ Hh1)), (bind_done _ _ _ _ _ E). done.
Qed.

Lemma pkt_chksum {A} `{AllocatorSpec A} (k : pstate A) L ext p b x l data :
  pinv k L ext -> packet k p b x l data -> is_bytes data ->
  chksum_of_pbuf p k = Done (not16 (oc_sum data), k).
Proof.
  intros Hi Hk Hb. unfold chksum_of_pbuf. rewrite get_bind. pose proof (pkt_chain _ _ _ _ _ _ Hk) as Hc.
  destruct (rd_chain_ok k _ (pbuf_fuel k) _ data Hc (pkt_all_pays _ _ _ _ _ _ _ _ Hi Hk) (pkt_data _ _ _ _ _ _ Hk) Hb) as (c & E & Hcb & Hcf).
  { pose proof (chain_length _ _ _ Hc). unfold pbuf_fuel. lia. }
  rewrite (bind_done _ _ _ _ _ E). rewrite (chksum_pbuf_sum c Hcf), Hcb. done.
Qed.

Lemma chksum_mem_ok {A} (k : pstate A) a n bs : holds (pdata k) (range a (Z.to_nat n)) bs ->
  chksum_of_mem a n k = Done (inet_chksum a.2 bs, k).
Proof. intros Hh. unfold chksum_of_mem. by rewrite (bind_done _ _ _ _ _ (rd_bytes_ok _ _ _ _ Hh)). Qed.

(** ** In the state of IP *)

Section ip.
Context {A E : Type} `{AllocatorSpec A} `{PacketHostSpec A E}.
Implicit Types (s : ipst E).

(** The counters [ks] were incremented and nothing was sent; memory that was there
    still is. *)
Record calm (ks : list ip_stat) s s' : Prop := Calm {
  ca_quiet : quiet ks s s';
  ca_id : ip_id s' = ip_id s;
  ca_out : ip_out s' = ip_out s;
  ca_room y m : room (host s) y m -> room (host s') y m
}.

Lemma calm_refl s : calm [] s s.
Proof. done. Qed.

Lemma calm_trans ks1 ks2 s1 s2 s3 : calm ks1 s1 s2 -> calm ks2 s2 s3 -> calm (ks1 ++ ks2) s1 s3.
Proof. intros [] []. split; [by eapply ip_quiet_trans|congruence|congruence|auto]. Qed.

(** A packet held, with its first [n] bytes hidden. *)
Record holding s (a : nabs) ext p b x l (data : bytes) n : Prop := Holding {
  ho_nifs : nifs (ip_if s) a;
  ho_ok : ph_ok (n_arp (ip_if s));
  ho_un : exists L, under (host s) L (ph_own (n_arp (ip_if s)) ++ ext) p b x l data n
}.

Lemma ho_inv s a ext p b x l data n : holding s a ext p b x l data n -> ip_inv s a ext.
Proof. intros [Hn Ho [L Hu]]. split; [done|]. split; [done|]. exists L. by eapply un_real. Qed.

Lemma wp_at {B} (m : M (pstate A) B) v s (Q : B -> ipst E -> Prop) :
  m (host s) = Done (v, host s) -> Q v s -> wp (on_pbuf m) s Q.
Proof. intros E0 HQ. apply wp_on_pbuf. exists v, (host s). split; [done|]. by rewrite with_same. Qed.

(** Reading [m] bytes at offset [o]. *)
Lemma ho_slice s a ext p b x l data n o m : holding s a ext p b x l data n -> 0 <= o -> 0 <= m -> o + m <= len b ->
  holds (pdata (host s)) (range (padd x o) (Z.to_nat m)) (slice o m data).
Proof. intros [_ _ [L Hu]] ? ? ?. by apply (pkt_slice _ _ _ _ _ _ _ _ (un_pkt _ _ _ _ _ _ _ _ _ Hu)). Qed.

Lemma wp_ho_rdp s a ext p b x l data n (Q : pbuf -> ipst E -> Prop) : holding s a ext p b x l data n ->
  Q (moved b x (- n)) s -> wp (on_pbuf (rdp p)) s Q.
Proof. intros [_ _ [L Hu]] HQ. apply (wp_rdp_ip _ _ (moved b x (- n))); [exact (un_top _ _ _ _ _ _ _ _ _ Hu)|done]. Qed.

Lemma wp_ho_payload s a ext p b x l data n (Q : ptr -> ipst E -> Prop) : holding s a ext p b x l data n ->
  Q (padd x n) s -> wp (on_pbuf (rd_payload p)) s Q.
Proof.
  intros [_ _ [L Hu]] HQ. apply (wp_rd_payload _ _ (moved b x (- n)) (padd x n)); [exact (un_top _ _ _ _ _ _ _ _ _ Hu)| |done].
  cbn. by rewrite Z.opp_involutive.
Qed.

Lemma wp_ho_wr s a ext p b x l data n o bs (m : M (pstate A) unit) y (Q : unit -> ipst E -> Prop) :
  holding s a ext p b x l data n -> (forall k, m k = wr_bytes y bs k) -> y = padd x o -> 0 <= o -> o + zlen bs <= len b ->
  (forall s', holding s' a ext p b x l (splice (Z.to_nat o) bs data) n -> calm [] s s' -> Q tt s') -> wp (on_pbuf m) s Q.
Proof.
  intros [Hn Ho [L Hu]] Hm -> H1' H2' HQ. apply wp_on_pbuf. eexists tt, _. split; [by rewrite Hm, wr_bytes_ok|].
  apply HQ.
  - split; [by apply nifs_arp|by apply ph_ok_set|]. exists L. rewrite host_with. cbn. rewrite ph_own_set. by apply un_write.
  - split; [done|done|done|]. intros y' m' Hr i Hi. rewrite host_with. apply store_some, Hr, Hi.
Qed.

Lemma wp_ho_inc c s a ext p b x l data n (Q : unit -> ipst E -> Prop) : holding s a ext p b x l data n ->
  (forall s', holding s' a ext p b x l data n -> calm [c] s s' -> Q tt s') -> wp (ip_inc c) s Q.
Proof. intros [Hn Ho Hu] HQ. unfold ip_inc. wp_step. by apply HQ. Qed.

(** The header revealed again. *)
Lemma wp_ho_reveal s a ext p b x l data n (Q : Z -> ipst E -> Prop) : holding s a ext p b x l data n -> n <= 32767 ->
  (forall s', ip_inv s' a ext -> packet (host s') p b x l data -> calm [] s s' -> Q 0 s') -> wp (on_pbuf (pbuf_header (Some p) n)) s Q.
Proof.
  intros [Hn Ho [L Hu]] Hn' HQ. apply wp_on_pbuf. eexists _, _. split; [by eapply un_reveal|]. destruct Hu as [Hk Hi _ _ _].
  assert (pdata (host (with_host (set_pbufs (insert p b) (host s)) s)) = pdata (host s)) as Hd by (by rewrite host_with).
  apply HQ; [|by rewrite host_with|split; [done|done|done|intros y m Hr; unfold room; by rewrite Hd]]. split; [by apply nifs_arp|]. split; [by apply ph_ok_set|].
  exists L. cbn. by rewrite ph_get_set, ph_own_set.
Qed.

(** The header hidden. *)
Lemma wp_hide s a ext p b x l data n (Q : Z -> ipst E -> Prop) :
  ip_inv s a ext -> p ∈ ext -> packet (host s) p b x l data -> 0 < n <= len b -> n <= 32767 ->
  (forall s', holding s' a ext p b x l data n -> calm [] s s' -> Q 0 s') -> wp (on_pbuf (pbuf_header (Some p) (- n))) s Q.
Proof.
  intros [Hn [Ho [L Hi]]] Hp Hk Hr Hr' HQ. change (ph_get (n_arp (ip_if s))) with (host s) in Hi.
  destruct (pkt_tot _ _ _ _ _ _ _ _ Hi Hk) as (_ & _ & Hl & Hm). apply wp_on_pbuf.
  assert (p ∈ ph_own (n_arp (ip_if s)) ++ ext) as Hp' by (apply elem_of_app; by right).
  pose proof (un_hide _ _ _ _ _ _ _ _ n Hi Hp' Hk Hr) as Hu.
  eexists _, _. split.
  { rewrite (pbuf_header_eq (host s) p b x (- n) (pkt_lookup _ _ _ _ _ _ Hk) (pkt_payload _ _ _ _ _ _ Hk)) by (unfold is_u16; lia).
    rewrite (fits_less _ _ _ _ _ _ _ Hi (pkt_lookup _ _ _ _ _ _ Hk) (pkt_payload _ _ _ _ _ _ Hk)) by lia. reflexivity. }
  apply HQ.
  - split; [by apply nifs_arp|by apply ph_ok_set|]. exists L. rewrite host_with. cbn. rewrite ph_own_set. exact Hu.
  - split; [done|done|done|]. intros y m Hy. unfold room. by rewrite host_with.
Qed.

(** The packet given up. *)
Context (custom : ptr -> option (M (pstate A) unit)).

Lemma wp_ip_free s a ext ext' p (Q : unit -> ipst E -> Prop) : ip_inv s a ext -> ext ≡ₚ p :: ext' ->
  (forall s', ip_inv s' a ext' -> calm [] s s' -> Q tt s') -> wp (ip_free custom p) s Q.
Proof.
  intros [Hn [Ho [L Hi]]] Hp HQ. set (own := ph_own (n_arp (ip_if s))) in *. change (ph_get (n_arp (ip_if s))) with (host s) in Hi.
  assert (pinv (host s) L (p :: own ++ ext')) as Hi' by (eapply pinv_perm; [|exact Hi]; rewrite Hp; by rewrite <- Permutation_middle).
  pose proof Hi' as (_ & _ & [_ Hx] & He & _). apply list.Forall_cons in Hx as [[b Hb] _]. destruct (He p b Hb) as [l Hc].
  destruct (pbuf_free_inv custom (host s) L _ p l Hi' Hc) as (k' & E0 & _ & Hd & Hi2).
  unfold ip_free. wp_step. apply wp_on_pbuf. eexists _, _. split; [exact E0|]. wp_step. apply HQ; [|split; [done|done|done|intros y m Hr; unfold room; by rewrite host_with, Hd]].
  split; [by apply nifs_arp|]. split; [by apply ph_ok_set|]. eexists. cbn. rewrite ph_get_set, ph_own_set. exact Hi2.
Qed.
End ip.
