(* ===== verification/IcmpSpec.v ===== *)
(** * What ICMP promises

    An echo request is answered in place: what is sent is the request with the
    addresses exchanged, the type changed and both checksums right. *)

From S2P Require Import Prelude ByteOrder Chksum Alloc Pbuf AllocImpl PbufSpec PbufData PbufOwn IpAddr IpHdr Etharp EtharpTable EtharpOps EtharpSpec EtharpPbuf Netif NetifSpec Ip IpPacket IpOut Icmp IpSteps.

(** ** The checksums of the reply *)

Lemma echo_chksum_eq c : is_u16 c -> echo_chksum c = if 0xfff7 <=? c then c + 9 - 65536 else c + 8.
Proof.
  unfold is_u16. intros Hc. unfold echo_chksum. change (lwip_htons (0xffff - Z.shiftl ICMP_ECHO 8)) with 0xfff7.
  change (lwip_htons (Z.shiftl ICMP_ECHO 8)) with 8. destruct (Z.leb_spec 0xfff7 c).
  - unfold u16. replace (c + (8 + 1)) with (c + 9 - 65536 + 1 * 2 ^ 16) by lia. rewrite Z.mod_add by lia. apply Z.mod_small. lia.
  - apply u16_id. unfold is_u16. lia.
Qed.

Lemma echo_chksum_u16 c : is_u16 c -> is_u16 (echo_chksum c).
Proof. intros Hc. rewrite echo_chksum_eq by done. unfold is_u16 in *. destruct (Z.leb_spec 0xfff7 c); lia. Qed.

(** The message of an echo, from the code on. *)
Definition echo_msg (type code c : Z) (rest : bytes) : bytes := type :: code :: bytes16 c ++ rest.

Lemma echo_msg_sum type code c rest : is_u16 c -> word_sum (echo_msg type code c rest) = type + 256 * code + c + word_sum rest.
Proof.
  intros Hc. unfold echo_msg, bytes16. cbn [app word_sum]. rewrite bytes16_le by done. unfold le16. lia.
Qed.

(** A checksum of zero. *)
Lemma chksum_0_inv addr data : is_bytes data -> zlen data <= 0xffff -> inet_chksum addr data = 0 ->
  0 < word_sum data /\ word_sum data mod 65535 = 0.
Proof.
  intros Hb Hl E. unfold inet_chksum in E. rewrite LWIP_CHKSUM_sum in E by done. unfold oc_sum, oc_canon in E.
  pose proof (word_sum_bounds data Hb). destruct (Z.eqb_spec (word_sum data) 0) as [E0|Hne]; [done|].
  rewrite not16_sub in E by (unfold is_u16; zdm). split; [lia|]. zdm.
Qed.

Lemma echo_msg_bytes type code c rest : is_u8 type -> is_u8 code -> is_bytes rest -> is_bytes (echo_msg type code c rest).
Proof.
  intros Ht Hc Hr. unfold echo_msg, bytes16. cbn [app]. repeat (apply is_bytes_cons; split; [done || apply mod256_u8|]). done.
Qed.

(** The reply verifies, except when the whole of it is zero. *)
Lemma reply_msg_ok addr addr' code c rest : is_u8 code -> is_u16 c -> is_bytes rest -> zlen (echo_msg ICMP_ECHO code c rest) <= 0xffff ->
  inet_chksum addr (echo_msg ICMP_ECHO code c rest) = 0 ->
  let reply := echo_msg ICMP_ER code (echo_chksum c) rest in
  word_sum reply = 0 \/ inet_chksum addr' reply = 0.
Proof.
  intros Hcode Hc Hr Hl Hz reply.
  assert (is_bytes (echo_msg ICMP_ECHO code c rest)) as Hb by (by apply echo_msg_bytes).
  destruct (chksum_0_inv addr _ Hb Hl Hz) as [Hp Hm]. rewrite echo_msg_sum in Hp, Hm by done.
  pose proof (echo_chksum_u16 c Hc) as Hu. pose proof (word_sum_bounds rest Hr) as Hw.
  assert (word_sum reply = code * 256 + echo_chksum c + word_sum rest) as Hs by (unfold reply; rewrite echo_msg_sum by done; unfold ICMP_ER; lia).
  assert (zlen reply = zlen (echo_msg ICMP_ECHO code c rest)) as Hlen by (unfold reply, echo_msg; by autorewrite with zlen).
  unfold is_u8, is_u16 in *. destruct (Z.eq_dec (word_sum reply) 0) as [E0|Hne]; [by left|right].
  apply chksum_0; [by apply echo_msg_bytes|lia|lia|]. rewrite Hs. rewrite echo_chksum_eq by done. unfold ICMP_ECHO in *.
  destruct (Z.leb_spec 0xfff7 c); zdm.
Qed.

(** A sum of zero is one of zeros. *)
Lemma word_sum_zero l : is_bytes l -> word_sum l = 0 -> Forall (fun y => y = 0) l.
Proof.
  induction l as [|y|y z l IH] using list_pair_ind; intros Hb Hs; [done| |].
  - cbn in Hs. repeat constructor. unfold le16 in Hs. lia.
  - apply list.Forall_cons in Hb as [Hy Hb]. apply list.Forall_cons in Hb as [Hz Hb]. cbn [word_sum] in Hs.
    pose proof (word_sum_bounds l Hb) as [Hw _]. unfold le16, is_u8 in *. assert (y = 0 /\ z = 0 /\ word_sum l = 0) as (-> & -> & Hl) by lia.
    repeat constructor. by apply IH.
Qed.

Lemma reply_nonzero code c rest : is_u8 code -> is_u16 c -> is_bytes rest -> Exists (fun y => y <> 0) (code :: rest) ->
  word_sum (echo_msg ICMP_ER code (echo_chksum c) rest) <> 0.
Proof.
  intros Hcode Hc Hrest Hne Hs. rewrite echo_msg_sum in Hs by (by apply echo_chksum_u16). pose proof (word_sum_bounds rest Hrest) as [Hw _].
  pose proof (echo_chksum_u16 c Hc). unfold is_u8, is_u16, ICMP_ER in *. assert (code = 0 /\ word_sum rest = 0) as [-> Hr] by lia.
  apply word_sum_zero in Hr; [|done]. apply Exists_cons in Hne as [?|Hne]; [done|]. apply list.Exists_exists in Hne as (y & Hy & Hn).
  rewrite list.Forall_forall in Hr. by apply Hn, Hr.
Qed.

(** The header of the reply. *)
Definition reply_hdr (h : ip_hdr) : ip_hdr :=
  let h := IpHdr (_v_hl h) (_tos h) (_len h) (_id h) (_offset h) ICMP_TTL (_proto h) 0 (IpHdr.dest h) (IpHdr.src h) in
  IPH_CHKSUM_SET (not16 (oc_sum (hdr_bytes h))) h.

Lemma rechecked_header addr h : hdr_ok h -> _chksum h = 0 -> 0 < hdr_words h ->
  inet_chksum addr (hdr_bytes (IPH_CHKSUM_SET (not16 (oc_sum (hdr_bytes h))) h)) = 0.
Proof.
  intros Hh H0 Hw. pose proof (hdr_bytes_sum h Hh) as Hs. rewrite H0, Z.add_0_r in Hs. unfold oc_sum. rewrite Hs.
  pose proof (oc_canon_u16 (hdr_words h) ltac:(lia)) as Hu. destruct (oc_canon_oc (hdr_words h) ltac:(lia)) as (_ & _ & Hmod & _).
  rewrite not16_sub by done. revert Hu Hmod. generalize (oc_canon (hdr_words h)). intros c Hu Hmod. unfold is_u16 in Hu.
  assert (hdr_ok (IPH_CHKSUM_SET (65535 - c) h)) as Hh'.
  { destruct Hh as (H1 & H2 & H3 & H4 & H5 & H6 & H7 & H8 & H9 & H10).
    refine (conj H1 (conj H2 (conj H3 (conj H4 (conj H5 (conj H6 (conj H7 (conj _ (conj H9 H10))))))))).
    change (_chksum _) with (65535 - c). unfold is_u16. lia. }
  pose proof (hdr_bytes_sum _ Hh') as Hs'. change (_chksum (IPH_CHKSUM_SET (65535 - c) h)) with (65535 - c) in Hs'.
  change (hdr_words (IPH_CHKSUM_SET (65535 - c) h)) with (hdr_words h) in Hs'.
  apply chksum_0; [apply hdr_bytes_u8|by rewrite hdr_bytes_len|lia|]. rewrite Hs'.
  rewrite Z.add_mod, <- Hmod, <- Z.add_mod by lia. replace (c + (65535 - c)) with 65535 by lia. done.
Qed.

Lemma reply_hdr_ok addr h : hdr_ok h -> inet_chksum addr (hdr_bytes (reply_hdr h)) = 0.
Proof.
  intros Hh. unfold reply_hdr. cbv zeta. destruct Hh as (H1 & H2 & H3 & H4 & H5 & H6 & H7 & H8 & H9 & H10). apply rechecked_header.
  - unfold hdr_ok. cbn [_v_hl _tos _len _id _offset _ttl _proto _chksum IpHdr.src IpHdr.dest]. unfold is_u8, is_u16, is_u32 in *.
    unfold ICMP_TTL. lia.
  - done.
  - unfold hdr_words. cbn [_v_hl _tos _len _id _offset _ttl _proto _chksum IpHdr.src IpHdr.dest]. unfold is_u8, is_u16, is_u32, ICMP_TTL in *. zdm.
Qed.

Lemma hl_range h : 0 <= IPH_HL h * 4 <= 60.
Proof. unfold IPH_HL. change 0x0f with (2 ^ 4 - 1). rewrite land_mask by lia. pose proof (Z.mod_pos_bound (_v_hl h) (2 ^ 4)). lia. Qed.

(** ** Bytes of the packet *)

Lemma splice_l o bs (u v : bytes) : (o + length bs <= length u)%nat -> splice o bs (u ++ v) = splice o bs u ++ v.
Proof.
  intros Ho. unfold splice. rewrite take_app_le, drop_app_le by lia. by rewrite <- !app_assoc.
Qed.

Lemma splice_r o i bs (u v : bytes) : o = (length u + i)%nat -> splice o bs (u ++ v) = u ++ splice i bs v.
Proof.
  intros ->. unfold splice. rewrite take_app_ge, drop_app_ge by lia. rewrite <- app_assoc.
  replace (length u + i - length u)%nat with i by lia. by replace (length u + i + length bs - length u)%nat with (i + length bs)%nat by lia.
Qed.

Lemma slice_r o i n (u v : bytes) : 0 <= i -> o = zlen u + i -> slice o n (u ++ v) = slice i n v.
Proof.
  intros Hi ->. unfold slice, zlen. rewrite drop_app_ge by lia. do 2 f_equal. lia.
Qed.

Section echo.
Context {A E : Type} `{AllocatorSpec A} `{PacketHostSpec A E}.
Context (stale_flags : ptr -> Z) (custom : ptr -> option (M (pstate A) unit)).
Context (output : netif -> ptr -> Z -> M E Z) `{!IpLinkSpec A E output}.
Context (ip_frag : ptr -> Z -> Z -> M (ipst E) Z).
Implicit Types (s : ipst E).

(** Room in front of the message for a new IP header and a link header. *)
Definition reply_fits (p : ptr) (b : pbuf) (x : ptr) (n : Z) : Prop :=
  header_fits p (moved b x (- n)) (padd x n) (PBUF_IP_HLEN + PBUF_LINK_HLEN) = true.

(** The check for room leaves the packet as it was. *)
Lemma wp_echo_room s a ext p b x l data n iphdr (Q : option (ptr * ptr) -> ipst E -> Prop) :
  holding s a ext p b x l data n -> reply_fits p b x n -> tot_len b + 34 < 65536 -> Q (Some (p, iphdr)) s ->
  wp (echo_room stale_flags custom p iphdr n) s Q.
Proof.
  intros Hs Hfit Ht HQ. pose proof Hs as [_ _ [L Hu]]. destruct (un_len _ _ _ _ _ _ _ _ _ Hu) as (_ & Hl & Hm).
  pose proof (un_n _ _ _ _ _ _ _ _ _ Hu) as Hn. pose proof (un_payload _ _ _ _ _ _ _ _ _ Hu) as Hx.
  pose proof (un_top _ _ _ _ _ _ _ _ _ Hu) as Htop. unfold reply_fits in Hfit. unfold echo_room. set (m := PBUF_IP_HLEN + PBUF_LINK_HLEN) in *.
  assert (m = 34) as Hm34 by done. clearbody m. subst m. set (b1 := moved b x (- n)) in *.
  assert (payload b1 = Some (padd x n)) as Hx1 by (unfold b1; cbn; by rewrite Z.opp_involutive).
  assert (len b1 = len b - n /\ tot_len b1 = tot_len b - n) as [El Et] by (unfold b1; cbn; lia).
  wp_step. apply (wp_header_ip _ _ b1 (padd x n)); unfold is_u16; try done; try lia.
  rewrite Hfit. cbn [nz negb Z.eqb]. set (b2 := moved b1 (padd x n) 34).
  wp_step. apply wp_on_pbuf. rewrite host_with.
  set (k2 := set_pbufs (insert p b2) (host s)).
  assert (payload b2 = Some (padd (padd x n) (- 34))) as Hx2 by done.
  assert (pbuf_header (Some p) (- 34) k2 = if header_fits p b2 (padd (padd x n) (- 34)) (- 34)
    then Done (0, set_pbufs (insert p (moved b2 (padd (padd x n) (- 34)) (- 34))) k2) else Done (1, k2)) as Eh.
  { assert (len b2 = len b1 + 34 /\ tot_len b2 = tot_len b1 + 34) as [El2 Et2] by (unfold b2; cbn; lia).
    apply pbuf_header_eq; try done; unfold is_u16; try lia. apply lookup_insert_eq. }
  assert (header_fits p b2 (padd (padd x n) (- 34)) (- 34) = true) as Hf2.
  { unfold header_fits in *. change (type b2) with (type b1). destruct (type b1); try done; unfold padd in *; cbn [fst snd] in *; lia. }
  rewrite Hf2 in Eh. eexists _, _. split; [exact Eh|]. cbn [nz negb Z.eqb]. wp_step.
  assert (moved b2 (padd (padd x n) (- 34)) (- 34) = b1) as ->.
  { unfold b2. rewrite moved_moved by done. by rewrite Z.add_opp_diag_r, moved_0. }
  unfold k2. rewrite set_insert, set_insert_id by done. rewrite with_with, with_same. exact HQ.
Qed.

(** A field of the IP header written. *)
Lemma wp_hdr_wr s a ext p b x l n h h' rest o bs (m : M (pstate A) unit) (Q : unit -> ipst E -> Prop) :
  holding s a ext p b x l (hdr_bytes h ++ rest) n -> 20 <= len b -> (forall k, m k = wr_bytes (padd x o) bs k) ->
  0 <= o -> o + zlen bs <= 20 -> splice (Z.to_nat o) bs (hdr_bytes h) = hdr_bytes h' ->
  (forall s', holding s' a ext p b x l (hdr_bytes h' ++ rest) n -> calm [] s s' -> Q tt s') -> wp (on_pbuf m) s Q.
Proof.
  intros Hs Hl Hm Ho Hn Hsp HQ. apply (wp_ho_wr s a ext p b x l (hdr_bytes h ++ rest) n o bs m (padd x o)); try done; [lia|].
  intros s' Hs' Hc. rewrite splice_l, Hsp in Hs' by (unfold zlen in Hn; simpl; lia). by apply HQ.
Qed.

(** A field of the message written. *)
Lemma wp_msg_wr s a ext p b x l n u v v' y o bs (m : M (pstate A) unit) (Q : unit -> ipst E -> Prop) :
  holding s a ext p b x l (u ++ v) n -> (forall k, m k = wr_bytes y bs k) -> y = padd x (zlen u + o) ->
  0 <= o -> zlen u + o + zlen bs <= len b -> splice (Z.to_nat o) bs v = v' ->
  (forall s', holding s' a ext p b x l (u ++ v') n -> calm [] s s' -> Q tt s') -> wp (on_pbuf m) s Q.
Proof.
  intros Hs Hm Hy Ho Hn Hsp HQ. pose proof (zlen_nonneg u).
  apply (wp_ho_wr s a ext p b x l (u ++ v) n (zlen u + o) bs m y); try done; [lia|].
  intros s' Hs' Hc. rewrite (splice_r _ (Z.to_nat o)), Hsp in Hs' by (unfold zlen; lia). by apply HQ.
Qed.

Lemma echo_reply_ok s a ext p b x l h opts code c rest n inp nif :
  let u := hdr_bytes h ++ opts in
  holding s a ext p b x l (u ++ echo_msg ICMP_ECHO code c rest) n -> p ∈ ext -> zlen u = n -> n + 8 <= len b -> n <= 60 ->
  hdr_ok h -> is_u16 c -> current_iphdr_src s = IpHdr.src h -> current_iphdr_dest s = IpHdr.dest h ->
  ab_tab a !! inp = Some nif -> il_nif nif -> fits_mtu nif (tot_len b) -> fits_link (host s) b x SIZEOF_ETH_HDR ->
  wp (echo_reply output ip_frag p x n inp) s (fun _ s' => ip_inv s' a ext /\ quiet [ICxmit; IPxmit] s s' /\ ip_id s' = ip_id s /\
    ip_out s' = ip_out s ++ [Sent inp (IpHdr.src h) (Some (hdr_bytes (reply_hdr h) ++ opts ++ echo_msg ICMP_ER code (echo_chksum c) rest))]).
Proof.
  intros u Hs Hp Hu Hl Hn60 Hh Hc Hsrc Hdst Hnif Hil Hmtu [Hf1 Hf2]. pose proof Hh as (K1 & K2 & K3 & K4 & K5 & K6 & K7 & K8 & K9 & K10).
  unfold u in *. clear u. rewrite <- app_assoc in Hs. set (msg := echo_msg ICMP_ECHO code c rest) in *.
  assert (0 <= n) as Hn0 by (rewrite <- Hu; apply zlen_nonneg).
  assert (20 <= len b) as Hl20 by (rewrite zlen_app, hdr_bytes_len in Hu; pose proof (zlen_nonneg opts); lia).
  unfold echo_reply. wp_step. apply (wp_ho_payload _ _ _ _ _ _ _ _ _ _ Hs). wp_step. wp_step. rewrite Hsrc, Hdst.
  set (h1 := IpHdr (_v_hl h) (_tos h) (_len h) (_id h) (_offset h) (_ttl h) (_proto h) (_chksum h) (IpHdr.dest h) (IpHdr.dest h)).
  set (h2 := IpHdr (_v_hl h) (_tos h) (_len h) (_id h) (_offset h) (_ttl h) (_proto h) (_chksum h) (IpHdr.dest h) (IpHdr.src h)).
  set (h3 := IpHdr (_v_hl h) (_tos h) (_len h) (_id h) (_offset h) ICMP_TTL (_proto h) (_chksum h) (IpHdr.dest h) (IpHdr.src h)).
  set (h4 := IpHdr (_v_hl h) (_tos h) (_len h) (_id h) (_offset h) ICMP_TTL (_proto h) 0 (IpHdr.dest h) (IpHdr.src h)).
  wp_step. eapply (wp_hdr_wr s a ext p b x l n h h1 _ 12 (bytes32 (IpHdr.dest h)) _ _ Hs); [done|done|done|by compute|reflexivity|]. intros s1 Hs1 C1.
  wp_step. eapply (wp_hdr_wr s1 a ext p b x l n h1 h2 _ 16 (bytes32 (IpHdr.src h)) _ _ Hs1); [done|done|done|by compute|reflexivity|]. intros s2 Hs2 C2.
  rewrite app_assoc in Hs2. assert (zlen (hdr_bytes h2 ++ opts) = n) as Hu2 by exact Hu.
  wp_step. eapply (wp_msg_wr s2 a ext p b x l n _ msg (echo_msg ICMP_ER code c rest) _ 0 [ICMP_ER] _ _ Hs2);
    [by intros []|f_equal; lia|done|change (zlen [ICMP_ER]) with 1; lia|reflexivity|]. intros s3 Hs3 C3.
  wp_step. apply (wp_at _ c).
  { apply rd16_ok; [done|]. rewrite padd_padd. pose proof (ho_slice _ _ _ _ _ _ _ _ _ (n + 2) 2 Hs3 ltac:(lia) ltac:(lia) ltac:(lia)) as Hsl.
    rewrite (slice_r (n + 2) 2) in Hsl by (rewrite ?Hu2; lia). exact Hsl. }
  wp_step. eapply (wp_msg_wr s3 a ext p b x l n _ _ (echo_msg ICMP_ER code (echo_chksum c) rest) _ 2 (bytes16 (echo_chksum c)) _ _ Hs3);
    [done|rewrite padd_padd; f_equal; lia|done|change (zlen (bytes16 (echo_chksum c))) with 2; lia|reflexivity|]. intros s4 Hs4 C4.
  rewrite <- app_assoc in Hs4.
  wp_step. eapply (wp_hdr_wr s4 a ext p b x l n h2 h3 _ 8 [ICMP_TTL] _ _ Hs4); [done|by intros []|done|by compute|reflexivity|]. intros s5 Hs5 C5.
  wp_step. eapply (wp_hdr_wr s5 a ext p b x l n h3 h4 _ 10 (bytes16 0) _ _ Hs5); [done|done|done|by compute|reflexivity|]. intros s6 Hs6 C6.
  wp_step. apply (wp_at _ (not16 (oc_sum (hdr_bytes h4)))).
  { pose proof (ho_slice _ _ _ _ _ _ _ _ _ 0 20 Hs6 ltac:(lia) ltac:(lia) ltac:(lia)) as Hsl. rewrite padd_0 in Hsl.
    change IP_HLEN with 20. rewrite (chksum_mem_ok _ _ _ _ Hsl). unfold inet_chksum. change (slice 0 20 _) with (hdr_bytes h4).
    by rewrite LWIP_CHKSUM_sum by (done || apply hdr_bytes_u8). }
  wp_step. eapply (wp_hdr_wr s6 a ext p b x l n h4 (reply_hdr h) _ 10 (bytes16 (not16 (oc_sum (hdr_bytes h4)))) _ _ Hs6); [done|done|done|by compute|reflexivity|]. intros s7 Hs7 C7.
  wp_step. eapply (wp_ho_inc ICxmit _ _ _ _ _ _ _ _ _ _ Hs7). intros s8 Hs8 C8.
  wp_step. eapply (wp_ho_reveal _ _ _ _ _ _ _ _ _ _ Hs8); [lia|]. intros s9 Hi9 Hk9 C9. cbn [nz negb Z.eqb].
  pose proof (calm_trans _ _ _ _ _ (calm_trans _ _ _ _ _ C1 C2) (calm_trans _ _ _ _ _ C3 C4)) as C14.
  pose proof (calm_trans _ _ _ _ _ (calm_trans _ _ _ _ _ C5 C6) (calm_trans _ _ _ _ _ C7 (calm_trans _ _ _ _ _ C8 C9))) as C59.
  pose proof (calm_trans _ _ _ _ _ C14 C59) as [Cq Cid Cout Croom]. cbn [app] in Cq.
  wp_step. eapply wp_mono; [eapply (ip_output_if_hdrincl output ip_frag s9 a ext inp nif p b x l _ _ (IpHdr.src h)); try done|].
  - split; [exact Hf1|by apply Croom].
  - intros r s10 (Hi10 & Q10 & Hid10 & Hout10). cbv beta. wp_step. split; [done|].
    split; [exact (ip_quiet_trans _ _ _ _ _ Cq Q10)|]. by rewrite Hid10, Hout10, Cid, Cout.
Qed.

Lemma calm_addrs ks s s' : calm ks s s' ->
  current_iphdr_src s' = current_iphdr_src s /\ current_iphdr_dest s' = current_iphdr_dest s.
Proof. by intros [[] _ _ _]. Qed.

Lemma icmp_echo_ok s a ext ext' p b x l h opts code c rest n inp nif :
  let u := hdr_bytes h ++ opts in
  holding s a ext p b x l (u ++ echo_msg ICMP_ECHO code c rest) n -> ext ≡ₚ p :: ext' -> zlen u = n -> n + 8 <= len b -> n <= 60 ->
  hdr_ok h -> is_u8 code -> is_u16 c -> is_bytes rest -> current_iphdr_src s = IpHdr.src h -> current_iphdr_dest s = IpHdr.dest h ->
  ab_tab a !! inp = Some nif -> il_nif nif -> fits_mtu nif (tot_len b) -> fits_link (host s) b x SIZEOF_ETH_HDR ->
  ip_addr_ismulticast (IpHdr.dest h) = false -> ip4_addr_isbroadcast (IpHdr.dest h) nif = 0 ->
  tot_len b + 34 < 65536 -> reply_fits p b x n -> inet_chksum 0 (echo_msg ICMP_ECHO code c rest) = 0 ->
  wp (icmp_echo stale_flags custom output ip_frag p x n inp) s (fun _ s' => ip_inv s' a ext' /\ quiet [ICxmit; IPxmit] s s' /\ ip_id s' = ip_id s /\
    ip_out s' = ip_out s ++ [Sent inp (IpHdr.src h) (Some (hdr_bytes (reply_hdr h) ++ opts ++ echo_msg ICMP_ER code (echo_chksum c) rest))]).
Proof.
  intros u Hs Hext Hu Hl Hn60 Hh Hcode Hc Hrest Hsrc Hdst Hnif Hil Hmtu Hlink Hmc Hbc Ht Hfit Hz.
  pose proof Hs as [_ _ [L Hun]]. destruct (un_len _ _ _ _ _ _ _ _ _ Hun) as (Htl & Hlt & Hmax).
  set (msg := echo_msg ICMP_ECHO code c rest) in *. assert (is_bytes msg) as Hb by (by apply echo_msg_bytes).
  pose proof (zlen_nonneg u) as Hu0. rewrite zlen_app in Htl.
  unfold icmp_echo. wp_step. wp_step. wp_step. apply (wp_rd_nif_ip _ a _ nif); [apply Hs|done|]. rewrite Hdst, Hmc, Hbc.
  cbn [orb nz negb Z.eqb]. wp_step. apply (wp_ho_rdp _ _ _ _ _ _ _ _ _ _ Hs).
  assert ((tot_len (moved b x (- n)) <? ICMP_ECHO_HLEN) = false) as ->
    by (apply Z.ltb_ge; change (tot_len (moved b x (- n))) with (tot_len b + - n); unfold ICMP_ECHO_HLEN; lia).
  wp_step. apply (wp_at _ (not16 (oc_sum msg))).
  { rewrite (pkt_chksum _ _ _ _ _ _ _ (list.drop (Z.to_nat n) (u ++ msg)) (un_real _ _ _ _ _ _ _ _ _ Hun) (un_visible _ _ _ _ _ _ _ _ _ Hun)).
    - by rewrite drop_app_length' by (unfold zlen in Hu; lia).
    - by rewrite drop_app_length' by (unfold zlen in Hu; lia). }
  assert (not16 (oc_sum msg) = 0) as ->.
  { unfold inet_chksum in Hz. by rewrite LWIP_CHKSUM_sum in Hz by (done || lia). }
  cbn [Z.eqb negb]. wp_step. apply (wp_echo_room _ _ _ _ _ _ _ _ _ _ _ Hs Hfit Ht). wp_step.
  eapply wp_mono; [eapply echo_reply_ok; try done; rewrite Hext; by left|]. intros ? s1 (Hi1 & Q1 & Hid1 & Hout1). cbv beta.
  eapply wp_ip_free; [exact Hi1|exact Hext|]. intros s2 Hi2 [Q2 Hid2 Hout2 _]. split; [done|].
  split; [exact (ip_quiet_trans _ _ _ _ _ Q1 Q2)|]. by rewrite Hid2, Hout2, Hid1, Hout1.
Qed.

(** icmp_input on a request that is answered. *)
Lemma icmp_input_echo s a ext ext' p b x l h opts code c rest inp nif :
  let n := 20 + zlen opts in
  let request := echo_msg ICMP_ECHO code c rest in
  ip_inv s a ext -> ext ≡ₚ p :: ext' -> packet (host s) p b x l (hdr_bytes h ++ opts ++ request) -> hdr_ok h -> IPH_HL h * 4 = n ->
  n + 8 <= len b -> is_u8 code -> is_u16 c -> is_bytes rest -> inet_chksum 0 request = 0 ->
  current_iphdr_src s = IpHdr.src h -> current_iphdr_dest s = IpHdr.dest h ->
  ip_addr_ismulticast (IpHdr.dest h) = false -> ip4_addr_isbroadcast (IpHdr.dest h) nif = 0 ->
  ab_tab a !! inp = Some nif -> il_nif nif -> fits_mtu nif (tot_len b) -> fits_link (host s) b x SIZEOF_ETH_HDR -> reply_fits p b x n ->
  wp (icmp_input stale_flags custom output ip_frag p inp) s (fun _ s' => ip_inv s' a ext' /\
    quiet [ICrecv; ICxmit; IPxmit] s s' /\ ip_id s' = ip_id s /\
    ip_out s' = ip_out s ++ [Sent inp (IpHdr.src h) (Some (hdr_bytes (reply_hdr h) ++ opts ++ echo_msg ICMP_ER code (echo_chksum c) rest))]).
Proof.
  intros n request Hs Hext Hk Hh Hhl Hl Hcode Hc Hrest Hz Hsrc Hdst Hmc Hbc Hnif Hil Hmtu Hlink Hfit.
  assert (p ∈ ext) as Hp by (rewrite Hext; by left).
  assert (is_u8 (_v_hl h)) as Hv by apply Hh. pose proof (zlen_nonneg opts) as Ho0. destruct (hl_range h) as [_ Hn60]. rewrite Hhl in Hn60.
  pose proof Hs as [_ [_ [L Hi]]]. destruct (pkt_tot _ _ _ _ _ _ _ _ Hi Hk) as (Htl & _ & Hlt & Hmax).
  unfold icmp_input. wp_step. eapply wp_ip_inc; [exact Hs|]. intros s1 Hs1 C1 Hid1 Hout1 Hh1. rewrite <- Hh1 in Hk, Hlink.
  wp_step. apply (wp_rd_payload _ _ b x); [exact (pkt_lookup _ _ _ _ _ _ Hk)|exact (pkt_payload _ _ _ _ _ _ Hk)|].
  wp_step. apply (wp_at _ (_v_hl h)).
  { pose proof (pkt_slice _ _ _ _ _ _ 0 1 Hk ltac:(lia) ltac:(lia) ltac:(lia)) as Hsl. rewrite padd_0 in Hsl.
    inversion Hsl as [|? ? ? ? E0 _]; subst. unfold rdb. rewrite get_bind, E0. unfold is_u8 in Hv. by rewrite Z.mod_small. }
  cbv zeta. change (Z.land (_v_hl h) 0x0f * 4) with (IPH_HL h * 4). rewrite Hhl.
  wp_step. eapply wp_hide; [exact Hs1|exact Hp|exact Hk|lia|lia|]. intros s2 Hs2 C2. cbn [nz negb Z.eqb]. wp_step. wp_step.
  apply (wp_ho_rdp _ _ _ _ _ _ _ _ _ _ Hs2). wp_step. change (tot_len (moved b x (- n))) with (tot_len b + - n).
  rewrite (proj2 (Z.ltb_ge _ _)) by lia. wp_step. apply (wp_ho_payload _ _ _ _ _ _ _ _ _ _ Hs2). wp_step. apply (wp_at _ ICMP_ECHO).
  { pose proof (ho_slice _ _ _ _ _ _ _ _ _ n 1 Hs2 ltac:(lia) ltac:(lia) ltac:(lia)) as Hsl.
    rewrite app_assoc, (slice_r n 0) in Hsl by (rewrite ?zlen_app, ?hdr_bytes_len; lia).
    inversion Hsl as [|? ? ? ? E0 _]; subst. unfold rdb. by rewrite get_bind, E0. }
  change (ICMP_ECHO =? ICMP_ER) with false. rewrite Z.eqb_refl. cbv iota.
  destruct (calm_addrs _ _ _ C2) as [Hsrc2 Hdst2]. rewrite app_assoc in Hs2.
  eapply wp_mono; [eapply (icmp_echo_ok s2 a ext ext' p b x l h opts code c rest n inp nif); try done|].
  - rewrite zlen_app, hdr_bytes_len. done.
  - rewrite Hsrc2, <- Hsrc. apply C1.
  - rewrite Hdst2, <- Hdst. apply C1.
  - split; [apply Hlink|]. apply C2, Hlink.
  - destruct Hlink. unfold SIZEOF_ETH_HDR in *. lia.
  - intros ? s3 (Hi3 & Q3 & Hid3 & Hout3). split; [done|].
    split; [exact (ip_quiet_trans _ _ _ _ _ C1 (ip_quiet_trans _ _ _ _ _ (ca_quiet _ _ _ C2) Q3))|].
    by rewrite Hout3, (ca_out _ _ _ C2), Hout1, Hid3, (ca_id _ _ _ C2).
Qed.
End echo.
