(* ===== verification/IpInput.v ===== *)
(** * IP input

    ip_input of core/ipv4/ip.c.  [ip_reass] is the function of core/ipv4/ip_frag.c.
    raw_input, udp_input and tcp_input are those of cwrap/lwip_stubs.c. *)

From S2P Require Import Prelude ByteOrder Chksum Alloc Pbuf PbufData IpAddr IpHdr Netif Ip Icmp.

Section input.
Context {A E : Type} `{Allocator A} `{PacketHost A E}.
Context (stale_flags : ptr -> Z) (custom : ptr -> option (M (pstate A) unit)).
Context (output : netif -> ptr -> Z -> M E Z).
Context (ip_frag : ptr -> Z -> Z -> M (ipst E) Z).
Context (ip_reass : ptr -> M (ipst E) (option ptr)).

Definition raw_input (p : ptr) (inp : Z) : M (ipst E) Z := mret 0.

Definition tcp_input (p : ptr) (inp : Z) : M (ipst E) Z := mret 0.

Definition udp_input (p : ptr) (inp : Z) : M (ipst E) Z := mret 0.

(** Is the packet for the address of this interface? *)
Definition netif_accepts (dest : Z) (n : netif) : bool :=
  netif_is_up n && negb (ip_addr_isany (Some (ip_addr n))) &&
  ((dest =? ip_addr n) || nz (ip4_addr_isbroadcast dest n)).

(** The do-while loop over the interfaces, which starts with [inp]. *)
Fixpoint match_netif (fuel : nat) (first : bool) (netif : Z) (inp dest : Z) : M (netifs E) (option Z) :=
  match fuel with
  | O => fail OutOfFuel
  | S fuel =>
      n ← rd_node netif;
      if netif_accepts dest (nn_if n) then mret (Some netif)
      else
        s ← get;
        let next := if first then netif_list s else nn_next n in
        next ← (if bool_decide (next = Some inp) then i ← rd_node inp; mret (nn_next i) else mret next);
        match next with
        | None => mret None
        | Some q => match_netif fuel false q inp dest
        end
  end.

(** A packet that is dropped. *)
Definition ip_drop (p : ptr) (k : list ip_stat) : M (ipst E) Z :=
  ip_free custom p;;
  foldr (fun c m => ip_inc c;; m) (mret ERR_OK) k.

(** The switch on the protocol. *)
Definition ip_deliver (p iphdr : ptr) (inp : Z) : M (ipst E) unit :=
  r ← raw_input p inp;
  if negb (r =? 0) then mret tt
  else
    proto ← on_pbuf (rdb (padd iphdr 9));
    if proto =? IP_PROTO_UDP then udp_input p inp;; mret tt
    else if proto =? IP_PROTO_TCP then tcp_input p inp;; mret tt
    else if proto =? IP_PROTO_ICMP then icmp_input stale_flags custom output ip_frag p inp
    else
      s ← get;
      n ← on_if (rd_nif inp);
      (if negb (nz (ip4_addr_isbroadcast (current_iphdr_dest s) n)) && negb (ip_addr_ismulticast (current_iphdr_dest s)) then
         b ← on_pbuf (rdp p);
         on_pbuf (wrp p (upd_payload (Some iphdr) b));;
         icmp_dest_unreach stale_flags custom output ip_frag p ICMP_DUR_PROTO
       else mret tt);;
      ip_free custom p;;
      ip_inc IPproterr;;
      ip_inc IPdrop.

(** The packet is for this host: reassembly, and the upper layers. *)
Definition ip_accept (p iphdr : ptr) (inp : Z) : M (ipst E) Z :=
  off ← on_pbuf (rd16 (padd iphdr 6));
  r ← (if nz (Z.land off (lwip_htons (Z.lor IP_OFFMASK IP_MF))) then
         q ← ip_reass p;
         match q with
         | None => mret None
         | Some q => h ← on_pbuf (rd_payload q); mret (Some (q, h))
         end
       else mret (Some (p, iphdr)));
  match r with
  | None => mret ERR_OK
  | Some (p, iphdr) =>
      modify (set_current (Some inp) (Some iphdr));;
      ip_deliver p iphdr inp;;
      modify (set_current None None);;
      modify (set_current_addrs IPADDR_ANY IPADDR_ANY);;
      mret ERR_OK
  end.

Definition ip_input (p : ptr) (inp : Z) : M (ipst E) Z :=
  ip_inc IPrecv;;
  iphdr ← on_pbuf (rd_payload p);
  v_hl ← on_pbuf (rdb iphdr);
  if negb (Z.shiftr v_hl 4 =? 4) then ip_drop p [IPerr; IPdrop]
  else
    let iphdr_hlen := Z.land v_hl 0x0f * 4 in
    iplen ← on_pbuf (rd16 (padd iphdr 2));
    let iphdr_len := lwip_ntohs iplen in
    b ← on_pbuf (rdp p);
    if (len b <? iphdr_hlen) || (tot_len b <? iphdr_len) then ip_drop p [IPlenerr; IPdrop]
    else
      c ← on_pbuf (chksum_of_mem iphdr iphdr_hlen);
      if negb (c =? 0) then ip_drop p [IPchkerr; IPdrop]
      else
        on_pbuf (pbuf_realloc custom p iphdr_len);;
        dest ← on_pbuf (rd32 (padd iphdr 16));
        src ← on_pbuf (rd32 (padd iphdr 12));
        modify (set_current_addrs src dest);;
        s ← get;
        netif ← on_if (match_netif (S (nif_fuel (ip_if s))) true inp inp dest);
        n ← on_if (rd_nif inp);
        if nz (ip4_addr_isbroadcast src n) || ip_addr_ismulticast src then ip_drop p [IPdrop]
        else
          match netif with
          | None => ip_drop p []
          | Some _ => ip_accept p iphdr inp
          end.
End input.
