(* ===== verification/IpInputSpec.v ===== *)
(** * What IP input promises

    Which packets are dropped and counted as what, which are for this host, and what
    becomes of them. *)

From S2P Require Import Prelude ByteOrder Chksum Alloc Pbuf AllocImpl PbufSpec PbufData PbufOwn IpAddr IpHdr Etharp EtharpTable EtharpOps EtharpSpec EtharpPbuf Netif NetifSpec Ip IpPacket IpOut Icmp IpSteps IcmpSpec IpInput.

(** ** The interface a packet is for *)

Definition accepted_by (a : nabs) (inp dest : Z) : option Z :=
  first_nif (netif_accepts dest) (ab_tab a) (inp :: filter (fun q => q <> inp) (ab_list a)).

Lemma filter_notin (l : list Z) p : p ∉ filter (fun x => x <> p) l.
Proof. intros Hp. by apply list_elem_of_filter in Hp as [? _]. Qed.

Section match_netif.
Context {E : Type}.
Implicit Types (n : netifs E).

(** The rest of the list, from [q] on. *)
Definition next_netif (fuel : nat) (q : option Z) (inp dest : Z) : M (netifs E) (option Z) :=
  next ← (if bool_decide (q = Some inp) then i ← rd_node inp; mret (nn_next i) else mret q);
  match next with
  | None => mret None
  | Some q => match_netif fuel false q inp dest
  end.

Lemma match_step fuel first q inp dest n nd : nif_tab n !! q = Some nd ->
  match_netif (S fuel) first q inp dest n =
    if netif_accepts dest (nn_if nd) then Done (Some q, n)
    else next_netif fuel (if first then netif_list n else nn_next nd) inp dest n.
Proof.
  intros Hq. cbn [match_netif]. rewrite (rd_node_bind _ _ nd) by done. by destruct (netif_accepts dest (nn_if nd)).
Qed.

Lemma next_netif_ok inp dest n l : forall fuel q, nlist (nif_tab n) q l -> NoDup l -> (length l <= fuel)%nat ->
  next_netif fuel q inp dest n = Done (first_nif (netif_accepts dest) (nn_if <$> nif_tab n) (filter (fun x => x <> inp) l), n).
Proof.
  induction l as [l IH] using list_len_ind. intros fuel q Hl Hnd Hf. destruct l as [|x l].
  { simpl in Hl. subst q. done. }
  destruct Hl as (-> & nd & Hx & Hl). apply list.NoDup_cons in Hnd as [Hxl Hnd]. unfold next_netif.
  destruct (decide (x = inp)) as [->|Hne].
  - rewrite bool_decide_true by done. rewrite (bind_done _ _ _ (nn_next nd) n) by (by rewrite (rd_node_bind _ _ nd)).
    rewrite filter_cons_False by (intros Hc; by apply Hc). destruct l as [|y l]; [simpl in Hl; by rewrite Hl|].
    destruct Hl as (-> & nd' & Hy & Hl). destruct fuel as [|fuel]; [simpl in Hf; lia|].
    apply list.NoDup_cons in Hnd as [Hyl Hnd]. apply not_elem_of_cons in Hxl as [Hxy Hxl].
    rewrite (match_step _ _ _ _ _ _ nd') by done. rewrite filter_cons_True by congruence. cbn [first_nif].
    rewrite lookup_fmap, Hy. cbn [fmap option_fmap option_map]. destruct (netif_accepts dest (nn_if nd')); [done|].
    apply IH; [simpl; lia|done|done|simpl in Hf; lia].
  - rewrite bool_decide_false by congruence. rewrite ret_bind. destruct fuel as [|fuel]; [simpl in Hf; lia|].
    rewrite (match_step _ _ _ _ _ _ nd) by done. rewrite filter_cons_True by congruence. cbn [first_nif].
    rewrite lookup_fmap, Hx. cbn [fmap option_fmap option_map]. destruct (netif_accepts dest (nn_if nd)); [done|].
    apply IH; [simpl; lia|done|done|simpl in Hf; lia].
Qed.

Lemma match_netif_ok n a inp nif dest : nifs n a -> ab_tab a !! inp = Some nif ->
  match_netif (S (nif_fuel n)) true inp inp dest n = Done (accepted_by a inp dest, n).
Proof.
  intros Ha Hi. destruct (@abs_node E (no_arp E) (no_arp_spec E) n a inp nif Ha Hi) as (nd & Hnd & Eq).
  rewrite (match_step _ _ _ _ _ _ nd) by done. unfold accepted_by. cbn [first_nif]. rewrite Hi, Eq.
  destruct (netif_accepts dest nif); [done|]. rewrite <- (as_tab _ _ Ha).
  apply next_netif_ok; [apply Ha|apply Ha|]. exact (@list_fuel E (no_arp E) (no_arp_spec E) n a Ha).
Qed.
End match_netif.

(** ** Trimming *)

Section trim.
Context {A : Type} `{AllocatorSpec A}.
Context (custom : ptr -> option (M (pstate A) unit)).
Implicit Types (k : pstate A).

(** No pbuf of the packet has a second reference. *)
Definition lone (l : list (ptr * pbuf)) : Prop := Forall (fun ab => ref ab.2 = 1) l.

Lemma lone_unshared k L ext p b x l data :
  pinv k L ext -> p ∈ ext -> packet k p b x l data -> lone l -> unshared (pbufs k) ((p, b) :: l).
Proof.
  intros Hi Hp Hk Hl. pose proof (pkt_chain _ _ _ _ _ _ Hk) as Hc. apply (single_unshared _ p); [exact Hc|by eapply pkt_unlinked|].
  intros y ([y' c] & -> & Hin)%list_elem_of_fmap. cbn [fst]. pose proof Hi as (_ & _ & [Hr _] & _).
  pose proof (Hr y' c (chain_in _ _ _ _ _ Hc Hin)) as E. pose proof (held_nonneg y' ext).
  assert (ref c = 1) as E1; [|lia]. apply elem_of_cons in Hin as [E1|Hin]; [simplify_eq; exact (pkt_ref _ _ _ _ _ _ Hk)|].
  unfold lone in Hl. rewrite list.Forall_forall in Hl. exact (Hl _ Hin).
Qed.

Lemma realloc_ok k L ext p b x l data n :
  pinv k L ext -> p ∈ ext -> packet k p b x l data -> lone l -> 0 <= n ->
  exists k' L', pbuf_realloc custom p n k = Done (tt, k') /\ pinv k' L' ext /\ pdata k' = pdata k /\
    (tot_len b <= n -> k' = k) /\
    (l = [] -> n < tot_len b -> packet k' p (cut_last n b) x [] (take (Z.to_nat n) data)).
Proof.
  intros Hi Hp Hk Hl Hn. pose proof (pkt_chain _ _ _ _ _ _ Hk) as Hc. destruct (pkt_tot _ _ _ _ _ _ _ _ Hi Hk) as (Ht & Hs & Hlen & Hmax).
  destruct (Z.le_gt_cases (tot_len b) n) as [Hle|Hlt].
  - exists k, L. split; [|split; [done|split; [done|split; [done|lia]]]]. unfold pbuf_realloc.
    rewrite (rdp_bind _ _ b) by exact (pkt_lookup _ _ _ _ _ _ Hk). by rewrite (proj2 (Z.leb_le _ _)) by lia.
  - destruct (pbuf_realloc_inv custom k L ext p _ n Hi Hc (lone_unshared _ _ _ _ _ _ _ _ Hi Hp Hk Hl) ltac:(lia))
      as (l1 & z & zb & l2 & k' & L' & El & Hr & _ & E & Hi' & Hd & Hm).
    exists k', (release L' (lead l2)). split; [done|]. split; [done|]. split; [done|]. split; [lia|]. intros -> _.
    destruct l1 as [|y l1]; [|by destruct l1]. injection El as <- <- <-. cbn [drop] in Hm.
    change (lsum []) with 0 in Hm, Hr. change (lsum [(p, b)]) with (len b + 0) in Hs. rewrite Z.sub_0_r in Hm.
    destruct (pkt_split _ _ _ _ _ _ Hk ltac:(lia)) as [Hd1 _]. pose proof (pkt_payload _ _ _ _ _ _ Hk) as Hx.
    destruct Hk. split; try done.
    + rewrite Hm. unfold cut_map, bump. cbn [foldl]. split; [done|]. split; [apply lookup_insert_eq|done].
    + rewrite Hd. cbn [addrs]. change (payload (cut_last n b)) with (payload b). rewrite Hx, app_nil_r.
      change (len (cut_last n b)) with n. apply (holds_take _ _ _ (Z.to_nat n)) in Hd1. rewrite range_take, take_take in Hd1 by lia.
      rewrite Nat.min_l in Hd1 by lia. exact Hd1.
Qed.
End trim.

Section input.
Context {A E : Type} `{AllocatorSpec A} `{PacketHostSpec A E}.
Context (stale_flags : ptr -> Z) (custom : ptr -> option (M (pstate A) unit)).
Context (output : netif -> ptr -> Z -> M E Z) `{!IpLinkSpec A E output}.
Context (ip_frag : ptr -> Z -> Z -> M (ipst E) Z).
Context (ip_reass : ptr -> M (ipst E) (option ptr)).
Implicit Types (s : ipst E).

(** ** Steps *)

(** The counters [ks] were incremented, nothing was sent, the addresses of the packet
    apart. *)
Record counted (ks : list ip_stat) s s' : Prop := Counted {
  ct_stats : ip_stats s' = ip_bumps ks (ip_stats s);
  ct_id : ip_id s' = ip_id s;
  ct_out : ip_out s' = ip_out s;
  ct_room y m : room (host s) y m -> room (host s') y m
}.

Lemma calm_counted ks s s' : calm ks s s' -> counted ks s s'.
Proof. intros [[] ? ? ?]. by split. Qed.

Lemma counted_trans ks1 ks2 s1 s2 s3 : counted ks1 s1 s2 -> counted ks2 s2 s3 -> counted (ks1 ++ ks2) s1 s3.
Proof. intros [] []. split; [unfold ip_bumps in *; rewrite foldl_app; congruence|congruence|congruence|auto]. Qed.

Lemma wp_inc_calm c s a ext (Q : unit -> ipst E -> Prop) : ip_inv s a ext ->
  (forall s', ip_inv s' a ext -> calm [c] s s' -> host s' = host s -> Q tt s') -> wp (ip_inc c) s Q.
Proof. intros Hs HQ. unfold ip_inc. wp_step. by apply HQ. Qed.

Lemma wp_ip_drop ks s a ext ext' p : ip_inv s a ext -> ext ≡ₚ p :: ext' ->
  wp (ip_drop custom p ks) s (fun r s' => r = ERR_OK /\ ip_inv s' a ext' /\ calm ks s s').
Proof.
  intros Hs Hp. unfold ip_drop. wp_step. eapply wp_ip_free; [exact Hs|exact Hp|]. intros s1 Hs1 C1.
  eapply (wp_mono _ _ (fun r s' => r = ERR_OK /\ ip_inv s' a ext' /\ calm ks s1 s')).
  - clear C1. revert s1 Hs1. induction ks as [|c ks IH]; intros s1 Hs1; cbn [foldr]; [by wp_step|].
    wp_step. eapply wp_inc_calm; [exact Hs1|]. intros s2 Hs2 C2 _. eapply wp_mono; [by apply IH|].
    intros r s3 (-> & Hs3 & C3). split; [done|]. split; [done|]. exact (calm_trans _ _ _ _ _ C2 C3).
  - intros r s2 (-> & Hs2 & C2). split; [done|]. split; [done|]. exact (calm_trans _ _ _ _ _ C1 C2).
Qed.

(** A field of the header in memory. *)
Lemma hdr_field (D : gmap ptr Z) x h o m : holds D (range x 20) (hdr_bytes h) -> (o + m <= 20)%nat ->
  holds D (range (padd x (Z.of_nat o)) m) (take m (list.drop o (hdr_bytes h))).
Proof.
  intros Hh Hm. apply (holds_drop _ _ _ o), (holds_take _ _ _ m) in Hh. rewrite range_drop, range_take in Hh by lia. exact Hh.
Qed.

Lemma wp_trim s a ext p b x l data n (Q : unit -> ipst E -> Prop) :
  ip_inv s a ext -> p ∈ ext -> packet (host s) p b x l data -> lone l -> 0 <= n ->
  (forall s', ip_inv s' a ext -> calm [] s s' -> pdata (host s') = pdata (host s) ->
    pbuf_realloc custom p n (host s) = Done (tt, host s') ->
    (tot_len b <= n -> packet (host s') p b x l data) ->
    (l = [] -> n < tot_len b -> packet (host s') p (cut_last n b) x [] (take (Z.to_nat n) data)) -> Q tt s') ->
  wp (on_pbuf (pbuf_realloc custom p n)) s Q.
Proof.
  intros [Hn [Ho [L Hi]]] Hp Hk Hl Hn0 HQ. change (ph_get (n_arp (ip_if s))) with (host s) in Hi.
  assert (p ∈ ph_own (n_arp (ip_if s)) ++ ext) as Hp' by (apply elem_of_app; by right).
  destruct (realloc_ok custom _ L _ _ _ _ _ _ n Hi Hp' Hk Hl Hn0) as (k' & L' & E0 & Hi' & Hd & Hsame & Hcut).
  apply wp_on_pbuf. eexists _, _. split; [exact E0|]. apply HQ; rewrite ?host_with; try done.
  - split; [by apply nifs_arp|]. split; [by apply ph_ok_set|]. exists L'. cbn. by rewrite ph_get_set, ph_own_set.
  - split; [done|done|done|]. intros y m Hy. unfold room. by rewrite host_with, Hd.
  - intros Hle. by rewrite Hsame.
Qed.

(** ** The checks *)

(** The counters of a packet that is dropped by the checks of ip_input; [None] when it
    goes on. *)
Definition dropped_by (a : nabs) (inp : Z) (nif : netif) (h : ip_hdr) (b : pbuf) (x : ptr) (data : bytes) : option (list ip_stat) :=
  if negb (IPH_V h =? 4) then Some [IPerr; IPdrop]
  else if (len b <? IPH_HL h * 4) || (tot_len b <? lwip_ntohs (_len h)) then Some [IPlenerr; IPdrop]
  else if negb (inet_chksum x.2 (slice 0 (IPH_HL h * 4) data) =? 0) then Some [IPchkerr; IPdrop]
  else if nz (ip4_addr_isbroadcast (IpHdr.src h) nif) || ip_addr_ismulticast (IpHdr.src h) then Some [IPdrop]
  else match accepted_by a inp (IpHdr.dest h) with None => Some [] | Some _ => None end.

Lemma ip_input_checks s a ext ext' p b x l h tl inp nif (Q : Z -> ipst E -> Prop) :
  ip_inv s a ext -> ext ≡ₚ p :: ext' -> packet (host s) p b x l (hdr_bytes h ++ tl) -> hdr_ok h -> 20 <= len b -> lone l ->
  ab_tab a !! inp = Some nif ->
  match dropped_by a inp nif h b x (hdr_bytes h ++ tl) with
  | Some ks => forall s', ip_inv s' a ext' -> counted (IPrecv :: ks) s s' -> Q ERR_OK s'
  | None => forall s', ip_inv s' a ext -> counted [IPrecv] s s' ->
      pbuf_realloc custom p (lwip_ntohs (_len h)) (host s) = Done (tt, host s') -> holds (pdata (host s')) (range x 20) (hdr_bytes h) ->
      current_iphdr_src s' = IpHdr.src h -> current_iphdr_dest s' = IpHdr.dest h ->
      (tot_len b = lwip_ntohs (_len h) -> packet (host s') p b x l (hdr_bytes h ++ tl)) ->
      (l = [] -> lwip_ntohs (_len h) < tot_len b ->
        packet (host s') p (cut_last (lwip_ntohs (_len h)) b) x [] (take (Z.to_nat (lwip_ntohs (_len h))) (hdr_bytes h ++ tl))) ->
      wp (ip_accept stale_flags custom output ip_frag ip_reass p x inp) s' Q
  end -> wp (ip_input stale_flags custom output ip_frag ip_reass p inp) s Q.
Proof.
  intros Hs Hext Hk Hh Hl Hlone Hnif HQ. pose proof Hh as (K1 & K2 & K3 & K4 & K5 & K6 & K7 & K8 & K9 & K10).
  assert (p ∈ ext) as Hp by (rewrite Hext; by left).
  unfold dropped_by in HQ. unfold ip_input. wp_step. eapply wp_inc_calm; [exact Hs|]. intros s1 Hs1 C1 Hh1. rewrite <- Hh1 in Hk.
  assert (holds (pdata (host s1)) (range x 20) (hdr_bytes h)) as Hhd.
  { pose proof (pkt_slice _ _ _ _ _ _ 0 20 Hk ltac:(lia) ltac:(lia) ltac:(lia)) as Hsl. rewrite padd_0 in Hsl. exact Hsl. }
  wp_step. apply (wp_rd_payload _ _ b x); [exact (pkt_lookup _ _ _ _ _ _ Hk)|exact (pkt_payload _ _ _ _ _ _ Hk)|].
  wp_step. apply (wp_at _ (_v_hl h)).
  { inversion Hhd as [|? ? ? ? E0 _]; subst. unfold rdb. rewrite get_bind, E0. unfold is_u8 in K1. by rewrite Z.mod_small. }
  change (Z.shiftr (_v_hl h) 4) with (IPH_V h). change (Z.land (_v_hl h) 0x0f * 4) with (IPH_HL h * 4).
  assert (forall ks s2, (forall s', ip_inv s' a ext' -> counted (IPrecv :: ks) s s' -> Q ERR_OK s') -> ip_inv s2 a ext -> counted [IPrecv] s s2 ->
    wp (ip_drop custom p ks) s2 Q) as Hdrop.
  { intros ks s2 HQ2 Hs2 C2. eapply wp_mono; [by eapply wp_ip_drop|]. intros r s3 (-> & Hs3 & C3). apply HQ2; [done|].
    exact (counted_trans [IPrecv] ks _ _ _ C2 (calm_counted _ _ _ C3)). }
  pose proof (calm_counted _ _ _ C1) as C1'.
  destruct (negb (IPH_V h =? 4)); [by eapply Hdrop|]. cbv zeta.
  wp_step. apply (wp_at _ (_len h)); [apply rd16_ok; [done|exact (hdr_field _ _ _ 2 2 Hhd ltac:(lia))]|].
  wp_step. apply (wp_rdp_ip _ _ b); [exact (pkt_lookup _ _ _ _ _ _ Hk)|].
  destruct ((len b <? IPH_HL h * 4) || (tot_len b <? lwip_ntohs (_len h))) eqn:Elen; [by eapply Hdrop|].
  apply orb_false_iff in Elen as [El1%Z.ltb_ge El2%Z.ltb_ge].
  pose proof (hl_range h) as [Hhl0 _].
  wp_step. apply (wp_at _ (inet_chksum x.2 (slice 0 (IPH_HL h * 4) (hdr_bytes h ++ tl)))).
  { apply chksum_mem_ok. rewrite <- (padd_0 x) at 1. by apply (pkt_slice _ _ _ _ _ _ _ _ Hk). }
  destruct (negb (inet_chksum _ _ =? 0)); [by eapply Hdrop|].
  wp_step. pose proof (htons_u16 (_len h)) as Hu16. change (is_u16 (lwip_ntohs (_len h))) in Hu16. unfold is_u16 in Hu16.
  eapply (wp_trim s1 a ext p b x l (hdr_bytes h ++ tl)); [exact Hs1|exact Hp|exact Hk|exact Hlone|lia|].
  intros s2 Hs2 C2 Hd2 Er Hwhole Hcut. rewrite <- Hd2 in Hhd. rewrite Hh1 in Er.
  wp_step. apply (wp_at _ (IpHdr.dest h)); [apply rd32_ok; [done|exact (hdr_field _ _ _ 16 4 Hhd ltac:(lia))]|].
  wp_step. apply (wp_at _ (IpHdr.src h)); [apply rd32_ok; [done|exact (hdr_field _ _ _ 12 4 Hhd ltac:(lia))]|].
  wp_step. wp_step. set (s3 := set_current_addrs _ _ s2). assert (ip_inv s3 a ext) as Hs3 by exact Hs2.
  assert (counted [IPrecv] s s3) as C3.
  { eapply (counted_trans [IPrecv] []); [exact C1'|]. eapply (counted_trans [] []); [exact (calm_counted _ _ _ C2)|]. done. }
  wp_step. wp_step. wp_step. apply wp_on_if. eexists _, _. split; [exact (match_netif_ok (ip_if s3) a inp nif (IpHdr.dest h) (proj1 Hs3) Hnif)|].
  assert (set_ip_if (ip_if s3) s3 = s3) as -> by (by destruct s3). wp_step. apply (wp_rd_nif_ip _ a _ nif); [exact (proj1 Hs3)|done|].
  destruct (nz _ || _); [by eapply Hdrop|].
  destruct (accepted_by a inp (IpHdr.dest h)) as [q|]; [|by eapply Hdrop].
  apply HQ; try done. intros Heq. apply Hwhole. lia.
Qed.

(** ** Delivery *)

Definition fragment (h : ip_hdr) : bool := nz (Z.land (_offset h) (lwip_htons (Z.lor IP_OFFMASK IP_MF))).

(** A datagram in one piece goes to the upper layers, and nothing is known of a current
    packet after that. *)
Lemma ip_accept_whole s p x h inp (Q : Z -> ipst E -> Prop) :
  holds (pdata (host s)) (range x 20) (hdr_bytes h) -> hdr_ok h -> fragment h = false ->
  wp (ip_deliver stale_flags custom output ip_frag p x inp) (set_current (Some inp) (Some x) s) (fun _ s' =>
    Q ERR_OK (set_current_addrs IPADDR_ANY IPADDR_ANY (set_current None None s'))) ->
  wp (ip_accept stale_flags custom output ip_frag ip_reass p x inp) s Q.
Proof.
  intros Hhd Hh Hf HQ. assert (is_u16 (_offset h)) as Ho by apply Hh. unfold ip_accept. wp_step.
  apply (wp_at _ (_offset h)); [apply rd16_ok; [exact Ho|exact (hdr_field _ _ _ 6 2 Hhd ltac:(lia))]|].
  fold (fragment h). rewrite Hf. wp_step. wp_step. wp_step. wp_step. wp_step.
  eapply wp_mono; [exact HQ|]. intros ? s' HQ'. cbv beta. wp_step. wp_step. wp_step. wp_step. by wp_step.
Qed.

(** C27: the packets ip_input drops, and as what it counts them: another version, a
    header longer than the first pbuf or a length beyond the packet, a header that
    does not verify, a broadcast or multicast source, no interface it is for.  Such a
    packet is given up, and no other is sent. *)
Theorem ip_input_drops s a ext p b x l h tl inp nif ks :
  ip_inv s a (p :: ext) -> packet (host s) p b x l (hdr_bytes h ++ tl) -> hdr_ok h -> 20 <= len b -> lone l ->
  ab_tab a !! inp = Some nif -> dropped_by a inp nif h b x (hdr_bytes h ++ tl) = Some ks ->
  exists s', ip_input stale_flags custom output ip_frag ip_reass p inp s = Done (ERR_OK, s') /\ ip_inv s' a ext /\
    ip_stats s' = ip_bumps (IPrecv :: ks) (ip_stats s) /\ ip_out s' = ip_out s.
Proof.
  intros Hs Hk Hh Hl Hlone Hnif Hd.
  destruct (ip_input_checks s a (p :: ext) ext p b x l h tl inp nif
    (fun r s' => r = ERR_OK /\ ip_inv s' a ext /\ ip_stats s' = ip_bumps (IPrecv :: ks) (ip_stats s) /\ ip_out s' = ip_out s))
    as (r & s' & E0 & -> & HQ); try done.
  - rewrite Hd. intros s' Hs' []. done.
  - by exists s'.
Qed.

(** What is left of the packet: the datagram, without the padding. *)
Lemma trimmed (k : pstate A) p b x l data pad : tot_len b = zlen data + zlen pad ->
  (tot_len b = zlen data -> packet k p b x l (data ++ pad)) ->
  (l = [] -> zlen data < tot_len b -> packet k p (cut_last (zlen data) b) x [] (take (Z.to_nat (zlen data)) (data ++ pad))) ->
  pad = [] \/ l = [] ->
  exists b' l', packet k p b' x l' data /\ tot_len b' = zlen data /\ (len b' = len b \/ len b' = zlen data) /\ type b' = type b.
Proof.
  intros Ht Hwhole Hcut Hpad. pose proof (zlen_nonneg pad) as Hp0. destruct (Z.eq_dec (zlen pad) 0) as [E0|Hne].
  - assert (pad = []) as -> by (destruct pad; [done|rewrite zlen_cons in E0; pose proof (zlen_nonneg pad); lia]).
    rewrite app_nil_r in Hwhole. rewrite zlen_nil in Ht. exists b, l. split; [apply Hwhole; lia|]. split; [lia|]. split; [by left|done].
  - destruct Hpad as [->|Hl0]; [done|]. exists (cut_last (zlen data) b), [].
    specialize (Hcut Hl0 ltac:(lia)). rewrite take_app_length' in Hcut by (unfold zlen; lia). split; [exact Hcut|].
    split; [done|]. split; [by right|done].
Qed.

(** An echo request from ip_input to netif->output, trimmed on the way or not. *)
Lemma ip_input_echo s a ext p b x l h opts code c rest pad inp nif :
  let n := 20 + zlen opts in
  let request := echo_msg ICMP_ECHO code c rest in
  let data := hdr_bytes h ++ opts ++ request in
  let reply := echo_msg ICMP_ER code (echo_chksum c) rest in
  ip_inv s a (p :: ext) -> packet (host s) p b x l (data ++ pad) -> pad = [] \/ l = [] -> lone l -> n + 8 <= len b -> 4 <= zlen rest ->
  hdr_ok h -> IPH_HL h * 4 = n -> lwip_ntohs (_len h) = zlen data -> _proto h = IP_PROTO_ICMP -> fragment h = false ->
  dropped_by a inp nif h b x (data ++ pad) = None ->
  is_u8 code -> is_u16 c -> is_bytes rest -> inet_chksum 0 request = 0 ->
  ip_addr_ismulticast (IpHdr.dest h) = false -> ip4_addr_isbroadcast (IpHdr.dest h) nif = 0 ->
  ab_tab a !! inp = Some nif -> il_nif nif -> fits_mtu nif (zlen data) -> fits_link (host s) b x SIZEOF_ETH_HDR -> reply_fits p b x n ->
  wp (ip_input stale_flags custom output ip_frag ip_reass p inp) s (fun r s' => r = ERR_OK /\ ip_inv s' a ext /\
    ip_stats s' = ip_bumps [IPrecv; ICrecv; ICxmit; IPxmit] (ip_stats s) /\
    ip_out s' = ip_out s ++ [Sent inp (IpHdr.src h) (Some (hdr_bytes (reply_hdr h) ++ opts ++ reply))] /\
    current_netif s' = None /\ current_header s' = None).
Proof.
  intros n request data reply Hs Hk Hpad Hlone Hl Hr4 Hh Hhl Hlen Hproto Hfrag Hdrop Hcode Hc Hrest Hz Hmc Hbc Hnif Hil Hmtu [Hf1 Hf2] Hfit.
  pose proof (zlen_nonneg opts) as Ho0. pose proof Hs as [_ [_ [L Hi]]]. destruct (pkt_tot _ _ _ _ _ _ _ _ Hi Hk) as (Htl & _ & Hlt & Hmax).
  rewrite zlen_app in Htl. pose proof (zlen_nonneg pad) as Hp0. unfold data in Hk at 1. rewrite <- app_assoc in Hk.
  assert (zlen data = n + zlen request) as Hzd by (unfold data; rewrite !zlen_app, hdr_bytes_len; lia).
  assert (8 <= zlen request) as Hz8 by (unfold request, echo_msg, bytes16; cbn [app]; autorewrite with zlen; lia).
  eapply (ip_input_checks s a (p :: ext) ext p b x l h ((opts ++ request) ++ pad) inp nif); try done; [lia|].
  change (hdr_bytes h ++ (opts ++ request) ++ pad) with (hdr_bytes h ++ ((opts ++ request) ++ pad)). rewrite app_assoc.
  change (hdr_bytes h ++ opts ++ request) with data. rewrite Hdrop. intros s1 Hs1 C1 _ Hhd Hsrc Hdst Hwhole Hcut. rewrite Hlen in *.
  apply (ip_accept_whole _ _ _ h); [done|done|done|]. set (s2 := set_current _ _ s1).
  destruct (trimmed (host s2) p b x l data pad Htl Hwhole Hcut Hpad) as (b' & l' & Hk' & Ht' & Hle' & Hty).
  assert (n + 8 <= len b') as Hl' by (destruct Hle' as [->| ->]; lia).
  assert (reply_fits p b' x n) as Hfit'.
  { unfold reply_fits, header_fits in *. change (type (moved b' x (- n))) with (type b'). rewrite Hty. exact Hfit. }
  unfold ip_deliver. wp_step. unfold raw_input. wp_step. change (negb (0 =? 0)) with false. cbv iota.
  wp_step. apply (wp_at _ IP_PROTO_ICMP).
  { pose proof (hdr_field _ _ _ 9 1 Hhd ltac:(lia)) as Hf. inversion Hf as [|? ? ? ? E0 _]; subst. unfold rdb.
    change (host s2) with (host s1). change (Z.of_nat 9) with 9 in E0. rewrite get_bind, E0.
    by rewrite Hproto. }
  change (IP_PROTO_ICMP =? IP_PROTO_UDP) with false. change (IP_PROTO_ICMP =? IP_PROTO_TCP) with false.
  change (IP_PROTO_ICMP =? IP_PROTO_ICMP) with true. cbv iota.
  eapply wp_mono; [eapply (icmp_input_echo stale_flags custom output ip_frag s2 a (p :: ext) ext p b' x l' h opts code c rest inp nif); try done|].
  - by rewrite Ht'.
  - split; [rewrite Ht'; unfold SIZEOF_ETH_HDR in *; lia|]. change (host s2) with (host s1). by apply C1.
  - intros ? s3 (Hi3 & Q3 & Hid3 & Hout3). split; [done|]. split; [exact Hi3|]. split; [|split; [|done]].
    + change (ip_stats s3 = ip_bumps [IPrecv; ICrecv; ICxmit; IPxmit] (ip_stats s)).
      rewrite (qu_stats _ _ _ Q3). change (ip_stats s2) with (ip_stats s1). by rewrite (ct_stats _ _ _ C1).
    + change (ip_out s3 = ip_out s ++ [Sent inp (IpHdr.src h) (Some (hdr_bytes (reply_hdr h) ++ opts ++ reply))]).
      rewrite Hout3. change (ip_out s2) with (ip_out s1). by rewrite (ct_out _ _ _ C1).
Qed.

(** C8: a ping is answered.  An echo request without IP options to an address of this host
    that passes the checks of ip_input, with its headers in one pbuf and room in front of
    it, is sent back on the interface it came from: source and destination are exchanged,
    the time to live is 255, the type is echo reply; identifier, sequence number and data
    are unchanged and padding is gone.  The new header verifies, and so does the message,
    whose checksum is updated without summing it again; the code, identifier, sequence
    number and data must not all be zero for that (the answer would be all zero).  The
    packet is given up. *)
Theorem ip_input_answers_ping s a ext p b x l h code c rest pad inp nif :
  let request := echo_msg ICMP_ECHO code c rest in
  let data := hdr_bytes h ++ request in
  let reply := echo_msg ICMP_ER code (echo_chksum c) rest in
  ip_inv s a (p :: ext) -> packet (host s) p b x l (data ++ pad) -> pad = [] \/ l = [] -> lone l -> 28 <= len b -> 4 <= zlen rest ->
  hdr_ok h -> IPH_HL h = 5 -> lwip_ntohs (_len h) = zlen data -> _proto h = IP_PROTO_ICMP -> fragment h = false ->
  dropped_by a inp nif h b x (data ++ pad) = None ->
  is_u8 code -> is_u16 c -> is_bytes rest -> inet_chksum 0 request = 0 -> Exists (fun y => y <> 0) (code :: rest) ->
  ip_addr_ismulticast (IpHdr.dest h) = false -> ip4_addr_isbroadcast (IpHdr.dest h) nif = 0 ->
  ab_tab a !! inp = Some nif -> il_nif nif -> fits_mtu nif (zlen data) -> fits_link (host s) b x SIZEOF_ETH_HDR -> reply_fits p b x 20 ->
  exists s', ip_input stale_flags custom output ip_frag ip_reass p inp s = Done (ERR_OK, s') /\ ip_inv s' a ext /\
    ip_stats s' = ip_bumps [IPrecv; ICrecv; ICxmit; IPxmit] (ip_stats s) /\
    ip_out s' = ip_out s ++ [Sent inp (IpHdr.src h) (Some (hdr_bytes (reply_hdr h) ++ reply))] /\
    current_netif s' = None /\ current_header s' = None /\
    (forall addr, inet_chksum addr (hdr_bytes (reply_hdr h)) = 0) /\
    (forall addr, inet_chksum addr reply = 0).
Proof.
  intros request data reply Hs Hk Hpad Hlone Hl Hr4 Hh Hhl Hlen Hproto Hfrag Hdrop Hcode Hc Hrest Hz Hne Hmc Hbc Hnif Hil Hmtu Hlink Hfit.
  pose proof Hs as [_ [_ [L Hi]]]. destruct (pkt_tot _ _ _ _ _ _ _ _ Hi Hk) as (Htl & _ & Hlt & Hmax).
  assert (zlen request <= 0xffff) as Hzl.
  { unfold data in Htl. rewrite !zlen_app, hdr_bytes_len in Htl. pose proof (zlen_nonneg pad). lia. }
  destruct (ip_input_echo s a ext p b x l h [] code c rest pad inp nif) as (r & s' & E0 & -> & H1' & H2' & H3' & H4' & H5'); try done; [change (zlen (@nil Z)) with 0; lia..|].
  exists s'. split; [exact E0|]. split; [exact H1'|]. split; [exact H2'|]. split; [exact H3'|]. split; [exact H4'|]. split; [exact H5'|].
  split; intros addr; [by apply reply_hdr_ok|]. destruct (reply_msg_ok 0 addr code c rest Hcode Hc Hrest Hzl Hz) as [E1|]; [exfalso|done].
  by apply (reply_nonzero code c rest Hcode Hc Hrest Hne).
Qed.

(** A datagram for UDP or TCP is accepted and nobody frees it: the stubs of
    cwrap/lwip_stubs.c do not. *)
Lemma ip_input_leaks s a ext p b x l h tl inp nif :
  ip_inv s a (p :: ext) -> packet (host s) p b x l (hdr_bytes h ++ tl) -> hdr_ok h -> 20 <= len b -> lone l ->
  ab_tab a !! inp = Some nif -> dropped_by a inp nif h b x (hdr_bytes h ++ tl) = None -> fragment h = false ->
  _proto h = IP_PROTO_UDP \/ _proto h = IP_PROTO_TCP ->
  exists s', ip_input stale_flags custom output ip_frag ip_reass p inp s = Done (ERR_OK, s') /\ ip_inv s' a (p :: ext).
Proof.
  intros Hs Hk Hh Hl Hlone Hnif Hd Hf Hproto.
  destruct (ip_input_checks s a (p :: ext) ext p b x l h tl inp nif (fun r s' => r = ERR_OK /\ ip_inv s' a (p :: ext)))
    as (r & s' & E0 & -> & HQ); try done; [|by exists s'].
  rewrite Hd. intros s1 Hs1 C1 _ Hhd _ _ _ _. apply (ip_accept_whole _ _ _ h); [done|done|done|].
  unfold ip_deliver. wp_step. unfold raw_input. wp_step. change (negb (0 =? 0)) with false. cbv iota.
  wp_step. apply (wp_at _ (_proto h)).
  { pose proof (hdr_field _ _ _ 9 1 Hhd ltac:(lia)) as Hff. inversion Hff as [|? ? ? ? E0 _]; subst. unfold rdb.
    change (Z.of_nat 9) with 9 in E0. change (host (set_current (Some inp) (Some x) s1)) with (host s1). rewrite get_bind, E0.
    by destruct Hproto as [->| ->]. }
  destruct Hproto as [->| ->]; [change (IP_PROTO_UDP =? IP_PROTO_UDP) with true|change (IP_PROTO_TCP =? IP_PROTO_UDP) with false;
    change (IP_PROTO_TCP =? IP_PROTO_TCP) with true]; cbv iota; [unfold udp_input|unfold tcp_input]; wp_step; wp_step; by wp_step.
Qed.
End input.
