(* ===== verification/IcmpError.v ===== *)
(** * Messages about packets

    icmp_send_response: a message about a packet that ip_input drops, with the header
    and the first bytes of that packet in it. *)

From S2P Require Import Prelude ByteOrder Chksum Alloc Pbuf AllocImpl PbufSpec PbufData PbufOwn IpAddr IpHdr Etharp EtharpTable EtharpOps EtharpSpec EtharpPbuf Netif NetifSpec Ip IpPacket IpOut Icmp IpSteps IcmpSpec IpInput IpInputSpec.

(** The message: [orig] are the bytes quoted. *)
Definition error_msg (type code c : Z) (orig : bytes) : bytes := type :: code :: bytes16 c ++ [0; 0; 0; 0] ++ orig.

Definition error_chksum (type code : Z) (orig : bytes) : Z := not16 (oc_sum (error_msg type code 0 orig)).

Lemma error_msg_sum type code c orig : is_u16 c -> word_sum (error_msg type code c orig) = type + 256 * code + c + word_sum orig.
Proof. intros Hc. unfold error_msg, bytes16. cbn [app word_sum]. rewrite bytes16_le by done. unfold le16. lia. Qed.

Lemma error_msg_bytes type code c orig : is_u8 type -> is_u8 code -> is_bytes orig -> is_bytes (error_msg type code c orig).
Proof.
  intros Ht Hc Ho. unfold error_msg, bytes16. cbn [app]. repeat (apply is_bytes_cons; split; [done || apply mod256_u8 || by unfold is_u8|]). done.
Qed.

Lemma error_msg_len type code c orig : zlen (error_msg type code c orig) = 8 + zlen orig.
Proof. unfold error_msg, bytes16. cbn [app]. autorewrite with zlen. lia. Qed.

(** The message verifies. *)
Lemma error_msg_ok addr type code orig : is_u8 type -> is_u8 code -> 0 < type -> is_bytes orig -> zlen orig <= 1000 ->
  is_u16 (error_chksum type code orig) /\ inet_chksum addr (error_msg type code (error_chksum type code orig) orig) = 0.
Proof.
  intros Ht Hc Hp Ho Hl. unfold error_chksum. pose proof (error_msg_sum type code 0 orig ltac:(done)) as Hs.
  pose proof (word_sum_bounds orig Ho) as Hw. unfold is_u8 in Ht, Hc. set (w := type + 256 * code + 0 + word_sum orig) in *.
  unfold oc_sum. rewrite Hs. pose proof (oc_canon_u16 w ltac:(lia)) as Hu. destruct (oc_canon_oc w ltac:(lia)) as (_ & _ & Hmod & _).
  rewrite not16_sub by done. unfold is_u16 in Hu. assert (is_u16 (65535 - oc_canon w)) as Hu' by (unfold is_u16; lia). split; [done|].
  apply chksum_0; [by apply error_msg_bytes|rewrite error_msg_len; lia|rewrite error_msg_sum by done; lia|].
  rewrite error_msg_sum by done. replace (type + 256 * code + (65535 - oc_canon w) + word_sum orig) with (w + (65535 - oc_canon w)) by lia.
  rewrite Z.add_mod, <- Hmod, <- Z.add_mod by lia. replace (oc_canon w + (65535 - oc_canon w)) with 65535 by lia. done.
Qed.

Section error.
Context {A E : Type} `{AllocatorSpec A} `{PacketHostSpec A E}.
Context (stale_flags : ptr -> Z) (custom : ptr -> option (M (pstate A) unit)).
Context (output : netif -> ptr -> Z -> M E Z) `{!IpLinkSpec A E output}.
Context (ip_frag : ptr -> Z -> Z -> M (ipst E) Z).
Implicit Types (s : ipst E).

(** ** A new packet *)

(** The bytes of the heap are memory. *)
Definition heap_there (k : pstate A) : Prop := forall i, 0 <= i < al_heap_size -> is_Some (pdata k !! (RHeap, i)).

Lemma heap_kept (k k' : pstate A) : (forall y m, room k y m -> room k' y m) -> heap_there k -> heap_there k'.
Proof.
  intros Hr Hh i Hi. destruct (Hr (RHeap, i + 1) 1) with (i := 0) as [v Hv]; [|lia|].
  - intros j Hj. replace (padd (RHeap, i + 1) (j - 1)) with (RHeap, i) by (unfold padd; cbn; f_equal; lia). by apply Hh.
  - replace (padd (RHeap, i + 1) (0 - 1)) with (RHeap, i) in Hv by (unfold padd; cbn; f_equal; lia). by exists v.
Qed.

(** A packet of [n] bytes in RAM with [m] bytes of room in front. *)
Record fresh_packet s s' (q : ptr) (b : pbuf) (y : ptr) (n m : Z) : Prop := FreshPacket {
  fp_new : pbufs (host s) !! q = None;
  fp_others p : p <> q -> pbufs (host s') !! p = pbufs (host s) !! p;
  fp_pdata : pdata (host s') = pdata (host s);
  fp_len : len b = n /\ tot_len b = n;
  fp_heap : y.1 = RHeap;
  fp_room : 0 <= q.2 /\ q.2 + 24 + m <= y.2 /\ y.2 + n <= al_heap_size;
  fp_packet : heap_there (host s) -> exists d, zlen d = n /\ packet (host s') q b y [] d
}.

Lemma wp_alloc_ram s a ext layer n (Q : option ptr -> ipst E -> Prop) :
  ip_inv s a ext -> 0 <= n <= max_ram_length ->
  (forall s', ip_inv s' a ext -> calm [] s s' ->
    pbuf_alloc stale_flags custom layer n PBUF_RAM (host s) = Done (None, host s') -> Q None s') ->
  (forall s' q b y, ip_inv s' a (q :: ext) -> calm [] s s' -> fresh_packet s s' q b y n (layer_offset layer) -> Q (Some q) s') ->
  wp (on_pbuf (pbuf_alloc stale_flags custom layer n PBUF_RAM)) s Q.
Proof.
  intros [Hn [Ho [L Hi]]] Hlen HN HS. change (ph_get (n_arp (ip_if s))) with (host s) in Hi.
  destruct (pbuf_alloc_ram_ok custom stale_flags (host s) L _ layer n Hi Hlen) as (o & k' & E0 & Hd & Hpost).
  assert (calm [] s (with_host k' s)) as C by (split; [done|done|done|intros y m Hy; unfold room; by rewrite host_with, Hd]).
  apply wp_on_pbuf. eexists _, _. split; [exact E0|]. destruct o as [q|].
  - destruct Hpost as (l & L' & Hc & Hsum & Hw & _ & Hi' & Hnew & (b & y & Hb & Hy & Hroom)).
    destruct (ram_one _ _ _ _ _ _ _ E0) as (b' & Hb' & Hnx). assert (b' = b) as -> by congruence.
    assert (l = [(q, b)]) as -> by (apply (chain_det _ _ _ _ Hc); split; [done|split; [done|done]]).
    destruct (Hnew q b ltac:(left)) as (Hfresh & Hty & Href).
    pose proof Hi' as (Hal & Hno & _). destruct (Hno q b Hb) as ((Hreg & _ & Hlu & _ & n' & HL & Hpl) & _).
    destruct (tot_is_sum _ _ _ _ _ _ Hi' Hb Hc) as [Ht _]. unfold lsum in Hsum, Ht. cbn [foldr fst snd] in Hsum, Ht.
    unfold home in Hreg, HL. rewrite Hty in Hreg, HL. cbn [fst snd] in Hreg, HL. unfold payload_ok in Hpl. rewrite Hty in Hpl.
    destruct Hpl as (y' & Hy' & _ & Hend). assert (y' = y) as -> by congruence.
    rewrite (surjective_pairing q), Hreg in HL. destruct (al_in_heap _ _ _ _ _ Hal HL) as [Hq0 Hq1]. change SIZEOF_STRUCT_PBUF with 24 in Hroom.
    pose proof (layer_offset_range layer) as Hoff.
    apply (HS _ q b (q.1, y)); [|exact C|].
    + split; [by apply nifs_arp|]. split; [by apply ph_ok_set|]. exists L'. cbn. rewrite ph_get_set, ph_own_set.
      eapply pinv_perm; [|exact Hi']. by rewrite Permutation_middle.
    + split; rewrite ?host_with; try done; [|lia|cbn [snd]; lia|].
      * intros p Hp. rewrite <- Hw. symmetry. apply without_lookup_ne. by intros ?%list_elem_of_singleton.
      * intros Hheap. destruct (present_holds (pdata k') (q.1, y) (Z.to_nat n)) as [d Hd'].
        { intros i Hr. rewrite Hd. unfold padd. cbn [fst snd]. rewrite Hreg. apply Hheap. lia. }
        pose proof (holds_length _ _ _ Hd') as Hdl. rewrite range_length in Hdl. exists d. split; [unfold zlen; lia|].
        split; try done; [by left|]. cbn [addrs]. rewrite Hy, app_nil_r. replace (len b) with n by lia. exact Hd'.
  - destruct Hpost as [Hp Hi']. apply HN; [|exact C|by rewrite host_with]. split; [by apply nifs_arp|]. split; [by apply ph_ok_set|].
    exists L. cbn. by rewrite ph_get_set, ph_own_set.
Qed.

(** A write into the packet. *)
Lemma wp_pk_wr s a ext p b x l data o bs y (m : M (pstate A) unit) (Q : unit -> ipst E -> Prop) :
  ip_inv s a ext -> packet (host s) p b x l data -> (forall k, m k = wr_bytes y bs k) -> y = padd x o -> 0 <= o -> o + zlen bs <= len b ->
  (forall s', ip_inv s' a ext -> packet (host s') p b x l (splice (Z.to_nat o) bs data) -> calm [] s s' ->
    (forall z, z ∉ range x (Z.to_nat (len b)) -> pdata (host s') !! z = pdata (host s) !! z) -> pbufs (host s') = pbufs (host s) -> Q tt s') ->
  wp (on_pbuf m) s Q.
Proof.
  intros [Hn [Ho [L Hi]]] Hk Hm -> H1' H2' HQ. change (ph_get (n_arp (ip_if s))) with (host s) in Hi.
  apply wp_on_pbuf. eexists tt, _. split; [by rewrite Hm, wr_bytes_ok|]. apply HQ; rewrite ?host_with; try done.
  - split; [by apply nifs_arp|]. split; [by apply ph_ok_set|]. exists L. cbn. by rewrite ph_get_set, ph_own_set.
  - exact (pkt_write _ _ _ _ _ _ _ _ _ _ Hi Hk H1' H2').
  - split; [done|done|done|]. intros y m' Hr i Hi'. rewrite host_with. apply store_some, Hr, Hi'.
  - intros z Hz. apply store_lookup_ne. intros (j & -> & Hj)%range_in. apply Hz. rewrite padd_padd. apply range_in.
    exists (o + j). split; [done|]. unfold zlen in H2'. lia.
Qed.

Lemma heap_room k y m : heap_there k -> y.1 = RHeap -> 0 <= y.2 - m -> y.2 <= al_heap_size -> room k y m.
Proof. intros Hh Hy H1' H2' i Hi. destruct y as [r j]. unfold padd. cbn in *. subst r. apply Hh. lia. Qed.

(** ** The message *)

(** Eight bytes and those quoted, written over what was there. *)
Lemma error_splices d type code orig : zlen d = 36 -> zlen orig = 28 ->
  splice 2 (bytes16 0) (splice 8 orig (splice 6 (bytes16 0) (splice 4 (bytes16 0) (splice 1 [code] (splice 0 [type] d))))) =
    error_msg type code 0 orig.
Proof.
  intros Hd Ho. unfold zlen in *. do 8 (destruct d as [|? d]; [discriminate Hd|]).
  assert (list.drop (length orig) (list.drop 0 d) = []) as Hdr by (apply drop_ge; change (length (list.drop 0 d)) with (length d); cbn [length] in Hd; lia).
  unfold splice, error_msg, bytes16. simpl. by rewrite Hdr, app_nil_r.
Qed.

Lemma wp_quote s a ext p b x q bq y d (orig : bytes) o bs z (m : M (pstate A) unit) (Q : unit -> ipst E -> Prop) :
  ip_inv s a ext -> packet (host s) q bq y [] d -> holds (pdata (host s)) (range x 28) orig ->
  pbufs (host s) !! p = Some b -> payload b = Some x -> (type b = PBUF_RAM \/ type b = PBUF_POOL) -> 28 <= len b -> p <> q ->
  (forall k, m k = wr_bytes z bs k) -> z = padd y o -> 0 <= o -> o + zlen bs <= len bq ->
  (forall s', ip_inv s' a ext -> packet (host s') q bq y [] (splice (Z.to_nat o) bs d) -> calm [] s s' ->
    holds (pdata (host s')) (range x 28) orig -> pbufs (host s') !! p = Some b -> Q tt s') -> wp (on_pbuf m) s Q.
Proof.
  intros Hs Hk Ho Hb Hx Hty Hl Hne Hm Hz H1' H2' HQ. pose proof Hs as [_ [_ [L Hi]]].
  eapply (wp_pk_wr s a ext q bq y [] d o bs z m); try done. intros s' Hs' Hk' C Hout Hpb. apply HQ; try done; [|by rewrite Hpb].
  eapply holds_ext; [|exact Ho]. intros w (i & -> & Hr)%range_in. apply Hout. intros (j & E0 & Hj)%range_in. revert E0.
  eapply (payload_apart (host s) L _ p q b bq x y i j Hi Hne Hb (pkt_lookup _ _ _ _ _ _ Hk) Hty (pkt_type _ _ _ _ _ _ Hk) Hx
    (pkt_payload _ _ _ _ _ _ Hk)); lia.
Qed.

(** The heap has no room for the message. *)
Definition no_memory (k : pstate A) : Prop := exists k', pbuf_alloc stale_flags custom PBUF_IP 36 PBUF_RAM k = Done (None, k').

Lemma error_chksum_splice type code c c' orig : splice 2 (bytes16 c') (error_msg type code c orig) = error_msg type code c' orig.
Proof. reflexivity. Qed.

(** The message [data] in the packet [q], sent to the source of the header quoted. *)
Lemma wp_message s a ext q bq y data x orig h tl n nif :
  ip_inv s a (q :: ext) -> packet (host s) q bq y [] data -> len bq = 36 -> tot_len bq = 36 -> header_fits q bq y IP_HLEN = true ->
  room (host s) y (IP_HLEN + SIZEOF_ETH_HDR) -> holds (pdata (host s)) (range x 28) orig -> orig = hdr_bytes h ++ tl ->
  is_u32 (IpHdr.src h) -> route_of a (IpHdr.src h) = Some n -> ab_tab a !! n = Some nif -> il_nif nif -> fits_mtu nif 56 -> is_u32 (ip_addr nif) ->
  wp (ip_inc ICxmit;; src ← on_pbuf (rd32 (padd x 12)); ip_output output ip_frag q None src ICMP_TTL 0 IP_PROTO_ICMP;; ip_free custom q) s
    (fun _ s' => ip_inv s' a ext /\ quiet [ICxmit; IPxmit] s s' /\ ip_out s' = ip_out s ++
      [Sent n (IpHdr.src h) (Some (hdr_bytes (new_header 56 (ip_id s) None (IpHdr.src h) ICMP_TTL 0 IP_PROTO_ICMP nif) ++ data))]).
Proof.
  intros Hs Hk Hlq Htq Hfit Hroom Ho -> Hsrc Hr Hn Hil Hmtu Hadr.
  wp_step. eapply wp_inc_calm; [exact Hs|]. intros s1 Hs1 C1 Hh1. rewrite <- Hh1 in Hk, Ho, Hroom.
  wp_step. apply (wp_at _ (IpHdr.src h)).
  { apply rd32_ok; [done|]. eapply (hdr_field _ _ _ 12 4); [|lia]. apply (holds_take _ _ _ 20) in Ho. exact Ho. }
  wp_step. eapply wp_mono; [eapply (ip_output_routed output ip_frag s1 a (q :: ext) n nif q bq y [] data None (IpHdr.src h)); try done|].
  - by left.
  - split; [rewrite Htq; by compute|exact Hroom].
  - by rewrite Htq.
  - intros r s2 (Hs2 & Q2 & Hpost). rewrite Hfit in Q2, Hpost. destruct Hpost as [_ Hout2]. cbv beta.
    eapply wp_ip_free; [exact Hs2|done|]. intros s3 Hs3 C3. split; [exact Hs3|].
    split; [exact (ip_quiet_trans _ _ _ _ _ (ca_quiet _ _ _ C1) (ip_quiet_trans _ _ _ _ _ Q2 (ca_quiet _ _ _ C3)))|].
    by rewrite (ca_out _ _ _ C3), Hout2, (ca_id _ _ _ C1), (ca_out _ _ _ C1), Htq.
Qed.

(** The message, written and sent, or nothing when there is no memory for it. *)
Lemma send_response_ok s a ext p b x orig h tl t code n nif :
  ip_inv s a ext -> pbufs (host s) !! p = Some b -> payload b = Some x -> (type b = PBUF_RAM \/ type b = PBUF_POOL) -> 28 <= len b ->
  holds (pdata (host s)) (range x 28) orig -> is_bytes orig -> orig = hdr_bytes h ++ tl -> is_u32 (IpHdr.src h) -> heap_there (host s) ->
  route_of a (IpHdr.src h) = Some n -> ab_tab a !! n = Some nif -> il_nif nif -> fits_mtu nif 56 -> is_u32 (ip_addr nif) ->
  is_u8 t -> 0 < t -> is_u8 code ->
  wp (icmp_send_response stale_flags custom output ip_frag p t code) s (fun _ s' => ip_inv s' a ext /\
    (no_memory (host s) /\ calm [] s s' \/ quiet [ICxmit; IPxmit] s s' /\ ip_out s' = ip_out s ++ [Sent n (IpHdr.src h)
      (Some (hdr_bytes (new_header 56 (ip_id s) None (IpHdr.src h) ICMP_TTL 0 IP_PROTO_ICMP nif) ++ error_msg t code (error_chksum t code orig) orig))])).
Proof.
  intros Hs Hb Hx Hty Hl Ho Hob Horig Hsrc Hheap Hr Hn Hil Hmtu Hadr Ht Ht0 Hc. pose proof (holds_length _ _ _ Ho) as Hol.
  rewrite range_length in Hol. assert (zlen orig = 28) as Hoz by (unfold zlen; lia).
  unfold icmp_send_response. cbv zeta. change (ICMP_ECHO_HLEN + IP_HLEN + ICMP_DEST_UNREACH_DATASIZE) with 36.
  wp_step. eapply wp_alloc_ram; [exact Hs|unfold max_ram_length; lia| |].
  { intros s' Hs' C E0. wp_step. split; [exact Hs'|left]. by split; [exists (host s')|]. }
  intros s1 q bq y Hs1 C1 [Hnew Hoth Hpd [Hlq Htq] Hyr Hroom Hpk]. destruct (Hpk Hheap) as (d & Hd & Hk1). change (layer_offset PBUF_IP) with 34 in Hroom.
  assert (p <> q) as Hne by (intros ->; congruence).
  assert (pbufs (host s1) !! p = Some b) as Hb1 by (by rewrite Hoth). rewrite <- Hpd in Ho.
  wp_step. apply (wp_rdp_ip _ _ bq); [exact (pkt_lookup _ _ _ _ _ _ Hk1)|]. wp_step. apply wp_assert; [lia|].
  wp_step. apply (wp_rd_payload _ _ b x); [done|done|]. wp_step. apply (wp_rd_payload _ _ bq y); [exact (pkt_lookup _ _ _ _ _ _ Hk1)|exact (pkt_payload _ _ _ _ _ _ Hk1)|].
  wp_step. eapply (wp_quote s1 a (q :: ext) p b x q bq y d orig 0 [t]); try done; [by rewrite padd_0|rewrite Hlq; by compute|].
  intros s2 Hs2 Hk2 C2 Ho2 Hb2. wp_step.
  eapply (wp_quote s2 a (q :: ext) p b x q bq y _ orig 1 [code] _ _ _ Hs2 Hk2 Ho2 Hb2); try done; [rewrite Hlq; by compute|].
  intros s3 Hs3 Hk3 C3 Ho3 Hb3. wp_step.
  eapply (wp_quote s3 a (q :: ext) p b x q bq y _ orig 4 (bytes16 0) _ _ _ Hs3 Hk3 Ho3 Hb3); try done; [rewrite Hlq; by compute|].
  intros s4 Hs4 Hk4 C4 Ho4 Hb4. wp_step.
  eapply (wp_quote s4 a (q :: ext) p b x q bq y _ orig 6 (bytes16 0) _ _ _ Hs4 Hk4 Ho4 Hb4); try done; [rewrite Hlq; by compute|].
  intros s5 Hs5 Hk5 C5 Ho5 Hb5. wp_step. apply (wp_at _ orig); [exact (rd_bytes_ok 28 _ _ _ Ho5)|]. wp_step.
  eapply (wp_quote s5 a (q :: ext) p b x q bq y _ orig 8 orig _ _ _ Hs5 Hk5 Ho5 Hb5); try done; [rewrite Hlq, Hoz; by compute|].
  intros s6 Hs6 Hk6 C6 Ho6 Hb6. wp_step.
  eapply (wp_quote s6 a (q :: ext) p b x q bq y _ orig 2 (bytes16 0) _ _ _ Hs6 Hk6 Ho6 Hb6); try done; [rewrite Hlq; by compute|].
  intros s7 Hs7 Hk7 C7 Ho7 Hb7. pose proof (error_splices d t code orig Hd Hoz) as E0.
  assert (packet (host s7) q bq y [] (error_msg t code 0 orig)) as Hm7 by (rewrite <- E0; exact Hk7). clear Hk2 Hk3 Hk4 Hk5 Hk6 Hk7 E0.
  wp_step. apply (wp_at _ (error_chksum t code orig)).
  { destruct (pkt_split _ _ _ _ _ _ Hm7 ltac:(lia)) as [Hd7 _]. rewrite (chksum_mem_ok _ _ _ _ Hd7).
    rewrite firstn_all2 by (unfold zlen in *; pose proof (error_msg_len t code 0 orig); unfold zlen in *; lia).
    unfold inet_chksum. rewrite LWIP_CHKSUM_sum; [done|by apply error_msg_bytes|rewrite error_msg_len; lia]. }
  wp_step. eapply (wp_quote s7 a (q :: ext) p b x q bq y _ orig 2 (bytes16 (error_chksum t code orig)) _ _ _ Hs7 Hm7 Ho7 Hb7); try done; [rewrite Hlq; by compute|].
  intros s8 Hs8 Hk8 C8 Ho8 Hb8. rewrite error_chksum_splice in Hk8.
  pose proof (calm_trans _ _ _ _ _ (calm_trans _ _ _ _ _ C1 C2) (calm_trans _ _ _ _ _ C3 C4)) as C14.
  pose proof (calm_trans _ _ _ _ _ (calm_trans _ _ _ _ _ C5 C6) (calm_trans _ _ _ _ _ C7 C8)) as C58.
  pose proof (calm_trans _ _ _ _ _ C14 C58) as C. cbn [app] in C.
  eapply wp_mono; [eapply (wp_message s8 a ext q bq y _ x orig h tl n nif Hs8 Hk8); try done|].
  - unfold header_fits. destruct (pkt_type _ _ _ _ _ _ Hk8) as [->| ->]; change SIZEOF_STRUCT_PBUF with 24; unfold IP_HLEN; lia.
  - apply heap_room; [by apply (heap_kept _ _ (ca_room _ _ _ C))|done|unfold IP_HLEN, SIZEOF_ETH_HDR; lia|lia].
  - intros ? s9 (Hs9 & Q9 & Hout9). split; [exact Hs9|right]. split; [exact (ip_quiet_trans _ _ _ _ _ (ca_quiet _ _ _ C) Q9)|].
    by rewrite Hout9, (ca_id _ _ _ C), (ca_out _ _ _ C).
Qed.

Context (ip_reass : ptr -> M (ipst E) (option ptr)).

(** The default case of the switch on the protocol. *)
Lemma deliver_unknown s a ext p b x l h rest inp nif n out :
  let data := hdr_bytes h ++ rest in
  let msg := error_msg ICMP_DUR ICMP_DUR_PROTO (error_chksum ICMP_DUR ICMP_DUR_PROTO (take 28 data)) (take 28 data) in
  ip_inv s a (p :: ext) -> packet (host s) p b x l data -> 28 <= len b -> hdr_ok h -> is_bytes rest -> heap_there (host s) ->
  ~ _proto h ∈ [IP_PROTO_UDP; IP_PROTO_TCP; IP_PROTO_ICMP] -> current_iphdr_dest s = IpHdr.dest h ->
  ip_addr_ismulticast (IpHdr.dest h) = false -> ip4_addr_isbroadcast (IpHdr.dest h) nif = 0 ->
  ab_tab a !! inp = Some nif -> route_of a (IpHdr.src h) = Some n -> ab_tab a !! n = Some out -> il_nif out -> fits_mtu out 56 -> is_u32 (ip_addr out) ->
  wp (ip_deliver stale_flags custom output ip_frag p x inp) s (fun _ s' => ip_inv s' a ext /\
    (no_memory (host s) /\ calm [IPproterr; IPdrop] s s' \/
     quiet [ICxmit; IPxmit; IPproterr; IPdrop] s s' /\ ip_out s' = ip_out s ++ [Sent n (IpHdr.src h)
       (Some (hdr_bytes (new_header 56 (ip_id s) None (IpHdr.src h) ICMP_TTL 0 IP_PROTO_ICMP out) ++ msg))])).
Proof.
  intros data msg Hs Hk Hl Hh Hb Hheap Hproto Hdst Hmc Hbc Hinp Hr Hn Hil Hmtu Hadr.
  pose proof (pkt_slice _ _ _ _ _ _ 0 28 Hk ltac:(lia) ltac:(lia) ltac:(lia)) as Ho. rewrite padd_0 in Ho.
  change (slice 0 28 data) with (take 28 data) in Ho. pose proof (holds_take _ _ _ 20 Ho) as Hhd. rewrite range_take, take_take in Hhd by lia.
  pose proof (pkt_lookup _ _ _ _ _ _ Hk) as Hpb. pose proof (pkt_payload _ _ _ _ _ _ Hk) as Hx.
  unfold ip_deliver. wp_step. unfold raw_input. wp_step. change (negb (0 =? 0)) with false. cbv iota. wp_step. apply (wp_at _ (_proto h)).
  { pose proof (hdr_field _ _ _ 9 1 Hhd ltac:(lia)) as Hf. inversion Hf as [|? ? ? ? E0 _]; subst. unfold rdb.
    change (Z.of_nat 9) with 9 in E0. rewrite get_bind, E0. assert (is_u8 (_proto h)) as Hu by apply Hh. unfold is_u8 in Hu. by rewrite Z.mod_small. }
  rewrite !(proj2 (Z.eqb_neq _ _)) by (intros Eq; apply Hproto; rewrite Eq; set_solver). wp_step. wp_step. wp_step.
  apply (wp_rd_nif_ip _ a _ nif); [apply Hs|done|]. rewrite Hdst, Hmc, Hbc. cbn [nz negb andb Z.eqb]. wp_step. wp_step.
  apply (wp_rdp_ip _ _ b); [done|]. wp_step. apply wp_on_pbuf. exists tt, (host s). split.
  { assert (upd_payload (Some x) b = b) as -> by (destruct b; cbn in *; by subst). unfold wrp, modify. by rewrite set_insert_id. }
  rewrite with_same. assert (is_bytes (take 28 data)) as Hob.
  { apply Forall_take. apply is_bytes_app. split; [apply hdr_bytes_u8|done]. }
  eapply wp_mono; [eapply (send_response_ok s a (p :: ext) p b x (take 28 data) h (take 8 rest) ICMP_DUR ICMP_DUR_PROTO n out Hs Hpb Hx
    (pkt_type _ _ _ _ _ _ Hk) Hl Ho Hob); try done|].
  - apply Hh.
  - intros ? s1 (Hs1 & Hpost). cbv beta. wp_step. eapply wp_ip_free; [exact Hs1|done|]. intros s2 Hs2 C2.
    wp_step. eapply wp_inc_calm; [exact Hs2|]. intros s3 Hs3 C3 _. eapply wp_inc_calm; [exact Hs3|]. intros s4 Hs4 C4 _.
    pose proof (calm_trans _ _ _ _ _ C2 (calm_trans _ _ _ _ _ C3 C4)) as C. cbn [app] in C. split; [exact Hs4|].
    destruct Hpost as [[Hm C1]|[Q1 Hout]]; [left|right].
    + split; [exact Hm|]. exact (calm_trans _ _ _ _ _ C1 C).
    + split; [exact (ip_quiet_trans _ _ _ _ _ Q1 (ca_quiet _ _ _ C))|]. by rewrite (ca_out _ _ _ C).
Qed.

(** C9: a datagram of a protocol nobody takes is answered.  When it passes the checks of
    ip_input, is in one piece, is for one host and has 28 bytes in its first pbuf, what
    is sent to its source is a protocol unreachable message with these 28 bytes in it:
    the fixed part of the header and the eight bytes behind it, which are data when there
    are no IP options, and otherwise begin with the options.  The checksums of the message
    and of its header verify.  Only without memory for it nothing is sent.  The datagram
    is given up and counted. *)
Theorem ip_input_unreachable s a ext p b x l h rest pad inp nif n out :
  let data := hdr_bytes h ++ rest in
  let quote := hdr_bytes h ++ take 8 rest in
  let msg := error_msg ICMP_DUR ICMP_DUR_PROTO (error_chksum ICMP_DUR ICMP_DUR_PROTO quote) quote in
  ip_inv s a (p :: ext) -> packet (host s) p b x l (data ++ pad) -> pad = [] \/ l = [] -> lone l -> 28 <= len b -> 28 <= zlen data ->
  hdr_ok h -> is_bytes rest -> lwip_ntohs (_len h) = zlen data -> fragment h = false -> dropped_by a inp nif h b x (data ++ pad) = None ->
  ~ _proto h ∈ [IP_PROTO_UDP; IP_PROTO_TCP; IP_PROTO_ICMP] -> heap_there (host s) ->
  ip_addr_ismulticast (IpHdr.dest h) = false -> ip4_addr_isbroadcast (IpHdr.dest h) nif = 0 ->
  ab_tab a !! inp = Some nif -> route_of a (IpHdr.src h) = Some n -> ab_tab a !! n = Some out -> il_nif out -> fits_mtu out 56 -> is_u32 (ip_addr out) ->
  exists s', ip_input stale_flags custom output ip_frag ip_reass p inp s = Done (ERR_OK, s') /\ ip_inv s' a ext /\
    ((exists k, pbuf_realloc custom p (zlen data) (host s) = Done (tt, k) /\ no_memory k) /\
       ip_stats s' = ip_bumps [IPrecv; IPproterr; IPdrop] (ip_stats s) /\ ip_out s' = ip_out s \/
     exists hdr, ip_stats s' = ip_bumps [IPrecv; ICxmit; IPxmit; IPproterr; IPdrop] (ip_stats s) /\
       ip_out s' = ip_out s ++ [Sent n (IpHdr.src h) (Some (hdr_bytes hdr ++ msg))] /\
       IpHdr.src hdr = ip_addr out /\ IpHdr.dest hdr = IpHdr.src h /\ _proto hdr = IP_PROTO_ICMP /\
       (forall addr, inet_chksum addr (hdr_bytes hdr) = 0) /\ (forall addr, inet_chksum addr msg = 0)).
Proof.
  intros data quote. assert (quote = take 28 data) as Eq.
  { unfold quote, data. rewrite take_app. pose proof (hdr_bytes_len h) as Hn. unfold zlen in Hn. rewrite (take_ge (hdr_bytes h)) by lia. do 2 f_equal; lia. }
  rewrite Eq. clearbody quote. clear Eq. intros msg Hs Hk Hpad Hlone Hl Hl' Hh Hb Hlen Hfrag Hdrop Hproto Hheap Hmc Hbc Hinp Hr Hn Hil Hmtu Hadr.
  pose proof Hs as [_ [_ [L Hi]]]. destruct (pkt_tot _ _ _ _ _ _ _ _ Hi Hk) as (Htl & _). rewrite zlen_app in Htl.
  unfold data in Hk. rewrite <- app_assoc in Hk.
  destruct (ip_input_checks stale_flags custom output ip_frag ip_reass s a (p :: ext) ext p b x l h (rest ++ pad) inp nif (fun r s' =>
    r = ERR_OK /\ ip_inv s' a ext /\ ((exists k, pbuf_realloc custom p (zlen data) (host s) = Done (tt, k) /\ no_memory k) /\
      counted [IPrecv; IPproterr; IPdrop] s s' \/ ip_stats s' = ip_bumps [IPrecv; ICxmit; IPxmit; IPproterr; IPdrop] (ip_stats s) /\
      ip_out s' = ip_out s ++ [Sent n (IpHdr.src h) (Some (hdr_bytes (new_header 56 (ip_id s) None (IpHdr.src h) ICMP_TTL 0 IP_PROTO_ICMP out) ++ msg))])))
    as (r & s' & E0 & -> & Hi' & Hpost); try done; [lia| |].
  - rewrite app_assoc. change (hdr_bytes h ++ rest) with data. rewrite Hdrop, Hlen.
    intros s1 Hs1 C1 Er Hhd Hsrc Hdst Hwhole Hcut. apply (ip_accept_whole stale_flags custom output ip_frag ip_reass _ _ _ h); [done|done|done|].
    set (s2 := set_current _ _ s1). destruct (trimmed (host s2) p b x l data pad Htl Hwhole Hcut Hpad) as (b' & l' & Hk' & Ht' & Hle' & Hty).
    eapply wp_mono; [eapply (deliver_unknown s2 a ext p b' x l' h rest inp nif n out Hs1 Hk'); try done|].
    + destruct Hle' as [->| ->]; lia.
    + exact (heap_kept _ _ (ct_room _ _ _ C1) Hheap).
    + intros ? s3 (Hs3 & Hpost). split; [done|]. split; [exact Hs3|]. destruct Hpost as [[Hm C3]|[Q3 Hout]]; [left|right].
      * split; [by exists (host s1)|]. destruct (counted_trans [IPrecv] [IPproterr; IPdrop] s s2 s3) as [K1 K2 K3 K4];
          [by destruct C1; split|exact (calm_counted _ _ _ C3)|by split].
      * split; [|exact (eq_trans Hout (f_equal2 (fun o i => o ++ [Sent n (IpHdr.src h) (Some (hdr_bytes (new_header 56 i None (IpHdr.src h)
          ICMP_TTL 0 IP_PROTO_ICMP out) ++ msg))]) (ct_out _ _ _ C1) (ct_id _ _ _ C1)))].
        change (ip_stats s3 = ip_bumps [IPrecv; ICxmit; IPxmit; IPproterr; IPdrop] (ip_stats s)). rewrite (qu_stats _ _ _ Q3).
        change (ip_stats s2) with (ip_stats s1). by rewrite (ct_stats _ _ _ C1).
  - exists s'. split; [exact E0|]. split; [exact Hi'|]. destruct Hpost as [[Hm C]|[Hst Hout]]; [left|right].
    + split; [exact Hm|]. split; apply C.
    + eexists. split; [exact Hst|]. split; [exact Hout|]. split; [done|]. split; [done|]. split; [done|].
      split; [apply new_header_ok; done || apply Hh|]. intros addr.
      eapply (error_msg_ok addr); try done; [|unfold zlen; rewrite length_take; lia].
      apply Forall_take. apply is_bytes_app. split; [apply hdr_bytes_u8|done].
Qed.
End error.
