(* ===== verification/IpEtharp.v ===== *)
(** * ARP and Ethernet under IP output

    netif->output is etharp_output: what IP needs of the link, from what etharp.c
    promises; and the whole stack at boot. *)

From S2P Require Import Prelude ByteOrder Chksum Alloc Pbuf AllocImpl PbufSpec PbufData PbufOwn IpAddr IpHdr Etharp EtharpTable EtharpOps EtharpSpec EtharpPbuf Netif NetifSpec NetifEtharp Ip IpPacket IpOut Icmp IpSteps IcmpSpec IpInput IpInputSpec IcmpError.

#[export] Instance arp_host A : PacketHost A (arp (pstate A)) := { ph_get := a_packets; ph_set := set_a_packets }.

(** The table of ARP, the packets apart. *)
Definition arp_ok {S} (e : arp S) : Prop :=
  zlen (arp_table e) = ARP_TABLE_SIZE /\ Forall entry_ok (arp_table e) /\ one_each (arp_table e) /\
  0 <= etharp_cached_entry e < ARP_TABLE_SIZE.

#[export] Program Instance arp_host_spec A : PacketHostSpec A (arp (pstate A)) :=
  {| ph_own := fun e => omap a_q (arp_table e); ph_ok := arp_ok |}.
Solve All Obligations with (try done; by intros ? []).

Section link.
Context {A : Type} `{AllocatorSpec A}.
Context (stale_flags : ptr -> Z).
Context (custom : ptr -> option (M (pstate A) unit)).
Context (linkoutput : list frame -> frame -> Z).

Lemma host_arp (e : arp (pstate A)) ext :
  host_inv e ext <-> @arp_inv _ (pbuf_link stale_flags custom) (pbuf_link_spec stale_flags custom) e ext.
Proof.
  split.
  - intros [(H1 & H2 & H3 & H4) Hi]. split; done.
  - intros [Hi H1 H2 H3 H4]. split; [by split|exact Hi].
Qed.

Definition ip_link_output : netif -> ptr -> Z -> M (arp (pstate A)) Z :=
  @etharp_output _ (pbuf_link stale_flags custom) linkoutput.

Lemma arp_output_ok nif p dest (e : arp (pstate A)) ext :
  host_inv e ext -> p ∈ ext -> hwaddr_len nif = ETHARP_HWADDR_LEN -> sendable (ph_get e) p ->
  wp (ip_link_output nif p dest) e (fun _ e' => host_inv e' ext).
Proof.
  intros Hi Hp Hl [Hr Hroom]. apply host_arp in Hi.
  eapply wp_mono; [exact (@output_ok _ (pbuf_link stale_flags custom) (pbuf_link_spec stale_flags custom) linkoutput ext nif p dest e Hi Hl Hp Hr Hroom)|].
  intros r e' [Hi' _]. by apply host_arp.
Qed.

Definition ip_link_spec : IpLinkSpec A (arp (pstate A)) ip_link_output :=
  @Build_IpLinkSpec A (arp (pstate A)) _ _ _ _ ip_link_output (fun nif => hwaddr_len nif = ETHARP_HWADDR_LEN) arp_output_ok.
End link.

(** ** At boot *)

#[export] Instance boot_ip_link : IpLinkSpec allocators (arp (pstate allocators)) (ip_link_output zero_flags no_custom driver_ok) :=
  ip_link_spec zero_flags no_custom driver_ok.

(** A packet allocated at boot, with [data] in it and [m] zeros in front of it. *)
Lemma pboot_packet layer n a data m :
  0 <= n <= max_ram_length -> zlen data = n ->
  obs (pbuf_alloc zero_flags no_custom layer n PBUF_RAM pboot) =
    Some (Some (RHeap, 8), [((RHeap, 8), Pbuf None (Some (RHeap, a)) n n PBUF_RAM 0 1)]) ->
  exists k L, pinv k L [(RHeap, 8)] /\
    packet k (RHeap, 8) (Pbuf None (Some (RHeap, a)) n n PBUF_RAM 0 1) (RHeap, a) [] data /\
    room k (RHeap, a) (Z.of_nat m).
Proof.
  intros Hn Hlen Hobs. apply obs_done in Hobs as (k & E & Hk).
  destruct (pbuf_alloc_ram_ok no_custom zero_flags pboot ∅ [] layer n pboot_inv Hn) as (o & k' & E' & _ & Ho).
  rewrite E in E'. injection E' as <- <-. destruct Ho as (l & L & _ & _ & _ & _ & Hi & _).
  set (r := range (padd (RHeap, a) (- Z.of_nat m)) (m + length data)).
  assert (holds (store r (replicate m 0 ++ data) ∅) r (replicate m 0 ++ data)) as Hd.
  { apply store_holds; [apply range_NoDup|]. unfold r. by rewrite range_length, length_app, length_replicate. }
  exists (set_pdata (fun _ => store r (replicate m 0 ++ data) ∅) k), L. split; [exact Hi|].
  unfold r in Hd at 2. rewrite range_add in Hd. apply Forall2_app_inv in Hd as [Hz Hd]; [|by rewrite range_length, length_replicate].
  rewrite padd_padd in Hd. replace (- Z.of_nat m + Z.of_nat m) with 0 in Hd by lia. rewrite padd_0 in Hd. split.
  - split; try done; cbn [pbufs set_pdata]; rewrite ?Hk; [done|by left|]. cbn [addrs payload len]. rewrite app_nil_r.
    replace (Z.to_nat n) with (length data) by (unfold zlen in Hlen; lia). exact Hd.
  - intros i Hi'. destruct (Forall2_lookup_l _ _ _ (Z.to_nat i) (padd (RHeap, a) (i - Z.of_nat m)) Hz) as (v & _ & Hv); [|by eexists].
    rewrite range_lookup by lia. rewrite padd_padd. do 2 f_equal. lia.
Qed.

(** The stack at boot, with one Ethernet interface up and the packets [k]. *)
Definition ip_boot (k : pstate allocators) : ipst (arp (pstate allocators)) :=
  IpSt (Netifs (arp_boot k) {[1 := NifNode nif_demo None]} (Some 1) (Some 1) 1 0) 0 None None 0 0 [] (fun _ => 0).

Definition abs_boot : nabs := NAbs [1] {[1 := nif_demo]} (Some 1) 1 0.

Lemma ip_boot_inv k L ext : pinv k L ext -> ip_inv (ip_boot k) abs_boot ext.
Proof.
  intros Hi. split.
  - split; try done.
    + cbn [ab_list abs_boot nlist]. split; [done|]. by exists (NifNode nif_demo None).
    + cbn. repeat constructor. by intros ?%elem_of_nil.
    + intros d [= <-]. by exists nif_demo.
    + intros p nif Hp. cbn [ab_tab abs_boot] in Hp. apply lookup_singleton_Some in Hp as [_ <-]. by intros ?.
  - apply (host_arp zero_flags no_custom). apply arp_boot_inv. by exists L.
Qed.

Definition no_frag : ptr -> Z -> Z -> M (ipst (arp (pstate allocators))) Z := fun _ _ _ => mret ERR_OK.

Definition ten_bytes : bytes := [1; 2; 3; 4; 5; 6; 7; 8; 9; 10].

Lemma ip_output_sends_witness :
  exists s h, ip_output (ip_link_output zero_flags no_custom driver_ok) no_frag (RHeap, 8) None (le32 10 0 0 2) 64 0 17 s.1 = Done s.2 /\
    ip_out s.2.2 = [Sent 1 (le32 10 0 0 2) (Some (hdr_bytes h ++ ten_bytes))] /\ inet_chksum 0 (hdr_bytes h) = 0.
Proof.
  destruct (pboot_packet PBUF_IP 10 68 ten_bytes 36 ltac:(unfold max_ram_length; lia) eq_refl ltac:(vm_compute; reflexivity))
    as (k & L & Hi & Hk & Hr).
  destruct (ip_output_sends (ip_link_output zero_flags no_custom driver_ok) no_frag (ip_boot k) abs_boot [(RHeap, 8)] 1 nif_demo (RHeap, 8) _ _ _
    ten_bytes None (le32 10 0 0 2) 64 0 17 (ip_boot_inv k L _ Hi) ltac:(by left) Hk) as (r & s' & E & _ & _ & Hpost).
  - vm_compute. reflexivity.
  - reflexivity.
  - reflexivity.
  - vm_compute. split; congruence.
  - vm_compute. split; congruence.
  - split; [vm_compute; discriminate|]. intros i Hri. replace (i - (IP_HLEN + SIZEOF_ETH_HDR)) with (i + 2 - Z.of_nat 36) by (unfold IP_HLEN, SIZEOF_ETH_HDR; lia).
    apply Hr. unfold IP_HLEN, SIZEOF_ETH_HDR in Hri. lia.
  - right. vm_compute. discriminate.
  - vm_compute. split; congruence.
  - vm_compute. split; congruence.
  - vm_compute. split; congruence.
  - cbn [header_fits type fst snd] in Hpost. destruct Hpost as (h & _ & Hout & Hchk & _).
    exists (ip_boot k, (r, s')), h. cbn [fst snd]. split; [exact E|]. split; [exact Hout|]. apply Hchk.
Defined.

(** ** Packets received at boot *)

Definition no_reass : ptr -> M (ipst (arp (pstate allocators))) (option ptr) := fun _ => mret None.

Definition boot_input : ptr -> Z -> M (ipst (arp (pstate allocators))) Z :=
  ip_input zero_flags no_custom (ip_link_output zero_flags no_custom driver_ok) no_frag no_reass.

(** A header from 10.0.0.2 to 10.0.0.1 for [n] bytes in all, with its checksum right. *)
Definition boot_header (v_hl n proto : Z) : ip_hdr :=
  let h := IpHdr v_hl 0 (lwip_htons n) 0 0 64 proto 0 (le32 10 0 0 2) (le32 10 0 0 1) in
  IPH_CHKSUM_SET (not16 (oc_sum (hdr_bytes h))) h.

(** A ping with identifier 1 and sequence number 1. *)
Definition ping_rest : bytes := [0; 1; 0; 1].

Lemma ip_input_answers_ping_witness :
  exists s h, boot_input (RHeap, 8) 1 s.1 = Done (ERR_OK, s.2) /\
    ip_out s.2 = [Sent 1 (le32 10 0 0 2) (Some (hdr_bytes h ++ echo_msg ICMP_ER 0 (echo_chksum 0xfdf7) ping_rest))] /\
    inet_chksum 0 (hdr_bytes h) = 0 /\ inet_chksum 0 (echo_msg ICMP_ER 0 (echo_chksum 0xfdf7) ping_rest) = 0.
Proof.
  set (h := boot_header 0x45 28 IP_PROTO_ICMP). set (msg := echo_msg ICMP_ECHO 0 0xfdf7 ping_rest).
  destruct (pboot_packet PBUF_LINK 28 48 (hdr_bytes h ++ msg) 16 ltac:(unfold max_ram_length; lia) eq_refl ltac:(vm_compute; reflexivity))
    as (k & L & Hi & Hk & Hr).
  destruct (ip_input_answers_ping zero_flags no_custom (ip_link_output zero_flags no_custom driver_ok) no_frag no_reass (ip_boot k)
    abs_boot [] (RHeap, 8) _ _ _ h 0 0xfdf7 ping_rest [] 1 nif_demo (ip_boot_inv k L _ Hi) ltac:(rewrite app_nil_r; exact Hk)
    ltac:(by left) ltac:(constructor)) as (s' & E & _ & _ & Hout & _ & _ & Hchk & Hmsg).
  - vm_compute. discriminate.
  - vm_compute. discriminate.
  - vm_compute. repeat split; congruence.
  - reflexivity.
  - reflexivity.
  - reflexivity.
  - reflexivity.
  - vm_compute. reflexivity.
  - vm_compute. split; congruence.
  - vm_compute. split; congruence.
  - apply is_bytesb_spec. reflexivity.
  - vm_compute. reflexivity.
  - right. right. left. discriminate.
  - reflexivity.
  - reflexivity.
  - reflexivity.
  - reflexivity.
  - right. vm_compute. discriminate.
  - split; [vm_compute; discriminate|]. intros i Hri. replace (i - SIZEOF_ETH_HDR) with (i + 2 - Z.of_nat 16) by (unfold SIZEOF_ETH_HDR; lia).
    apply Hr. unfold SIZEOF_ETH_HDR in Hri. lia.
  - reflexivity.
  - exists (ip_boot k, s'), (reply_hdr h). cbn [fst snd]. split; [exact E|]. split; [exact Hout|]. split; [apply Hchk|apply Hmsg].
Defined.

Lemma ip_input_drops_witness :
  exists s, boot_input (RHeap, 8) 1 s.1 = Done (ERR_OK, s.2) /\ ip_out s.2 = [] /\ ip_stats s.2 IPchkerr = 1.
Proof.
  set (h := IPH_CHKSUM_SET 0 (boot_header 0x45 28 IP_PROTO_ICMP)). set (msg := echo_msg ICMP_ECHO 0 0xfdf7 ping_rest).
  destruct (pboot_packet PBUF_LINK 28 48 (hdr_bytes h ++ msg) 16 ltac:(unfold max_ram_length; lia) eq_refl ltac:(vm_compute; reflexivity))
    as (k & L & Hi & Hk & Hr).
  destruct (ip_input_drops zero_flags no_custom (ip_link_output zero_flags no_custom driver_ok) no_frag no_reass (ip_boot k)
    abs_boot [] (RHeap, 8) _ _ _ h msg 1 nif_demo [IPchkerr; IPdrop] (ip_boot_inv k L _ Hi) Hk) as (s' & E & _ & Hst & Hout).
  - vm_compute. repeat split; congruence.
  - vm_compute. discriminate.
  - constructor.
  - reflexivity.
  - vm_compute. reflexivity.
  - exists (ip_boot k, s'). cbn [fst snd]. split; [exact E|]. split; [exact Hout|]. rewrite Hst. reflexivity.
Defined.

(** The same packet, with all of the heap there. *)
Lemma with_heap (k : pstate allocators) L ext p b x l data n :
  pinv k L ext -> packet k p b x l data -> room k x n ->
  exists k', pinv k' L ext /\ packet k' p b x l data /\ room k' x n /\ heap_there k'.
Proof.
  intros Hi Hk Hr. set (r := range (RHeap, 0) (Z.to_nat (al_heap_size (A := allocators)))). set (zs := replicate (length r) 0).
  assert (holds (store r zs ∅) r zs) as Hz by (apply store_holds; [apply range_NoDup|by unfold zs; rewrite length_replicate]).
  exists (set_pdata (fun D => D ∪ store r zs ∅) k). split; [exact Hi|]. split; [|split].
  - destruct Hk. split; try done. cbn [pdata set_pdata]. eapply list.Forall2_impl; [exact pkt_data|].
    intros a v Ha. by apply lookup_union_Some_l.
  - intros i Hi'. destruct (Hr i Hi') as [v Hv]. exists v. by apply lookup_union_Some_l.
  - intros i Hi'. change (0 <= i < al_heap_size (A := allocators)) in Hi'. apply lookup_union_is_Some. right.
    destruct (Forall2_lookup_l _ _ _ (Z.to_nat i) (RHeap, i) Hz) as (v & _ & Hv); [|by eexists].
    unfold r. rewrite range_lookup by lia. unfold padd. cbn. do 2 f_equal. lia.
Qed.

Lemma ip_input_unreachable_witness :
  exists s h, boot_input (RHeap, 8) 1 s.1 = Done (ERR_OK, s.2) /\
    (ip_stats s.2 ICxmit = 0 \/ exists rest, ip_out s.2 = [Sent 1 (le32 10 0 0 2) (Some (hdr_bytes h ++ ICMP_DUR :: ICMP_DUR_PROTO :: rest))]).
Proof.
  set (h := boot_header 0x45 28 99). set (rest := [1; 2; 3; 4; 5; 6; 7; 8]).
  destruct (pboot_packet PBUF_LINK 28 48 (hdr_bytes h ++ rest) 16 ltac:(unfold max_ram_length; lia) eq_refl ltac:(vm_compute; reflexivity))
    as (k0 & L & Hi0 & Hk0 & Hr0). destruct (with_heap _ _ _ _ _ _ _ _ _ Hi0 Hk0 Hr0) as (k & Hi & Hk & _ & Hh).
  destruct (ip_input_unreachable zero_flags no_custom (ip_link_output zero_flags no_custom driver_ok) no_frag no_reass (ip_boot k)
    abs_boot [] (RHeap, 8) _ _ _ h rest [] 1 nif_demo 1 nif_demo (ip_boot_inv k L _ Hi) ltac:(rewrite app_nil_r; exact Hk)
    ltac:(by left) ltac:(constructor)) as (s' & E & _ & Hpost).
  - vm_compute. discriminate.
  - vm_compute. discriminate.
  - vm_compute. repeat split; congruence.
  - apply is_bytesb_spec. reflexivity.
  - reflexivity.
  - reflexivity.
  - vm_compute. reflexivity.
  - unfold h. cbn. intros Hin. repeat (apply elem_of_cons in Hin as [Hin|Hin]; [discriminate Hin|]). by apply elem_of_nil in Hin.
  - exact Hh.
  - reflexivity.
  - reflexivity.
  - reflexivity.
  - vm_compute. reflexivity.
  - reflexivity.
  - reflexivity.
  - right. vm_compute. discriminate.
  - vm_compute. split; congruence.
  - destruct Hpost as [(_ & Hst & _)|(hdr & _ & Hout & _)].
    + exists (ip_boot k, s'), h. split; [exact E|left]. cbn [snd]. by rewrite Hst.
    + exists (ip_boot k, s'), hdr. split; [exact E|right]. eexists. exact Hout.
Defined.

(** ** Packets that are not handled right *)

(** The bytes of a packet received into a PBUF_RAM. *)
Definition receive (bs : bytes) : M (ipst (arp (pstate allocators))) Z :=
  p ← on_pbuf (pbuf_alloc zero_flags no_custom PBUF_LINK (zlen bs) PBUF_RAM);
  match p with
  | None => mret ERR_MEM
  | Some p => x ← on_pbuf (rd_payload p); on_pbuf (wr_bytes x bs);; boot_input p 1
  end.

Definition aborts {S B} (r : outcome (B * S)) : bool := match r with Crash AssertFailed => true | _ => false end.

(** Ip_input does not compare the total length in the header with the length of
    the header.  A datagram of protocol ICMP whose total length is shorter than its own
    header, with a checksum that is right, passes the checks, is cut off inside of the
    header, and the stack aborts when icmp_input skips the header. *)
Theorem ip_input_short_length_aborts :
  aborts (receive (hdr_bytes (boot_header 0x45 10 IP_PROTO_ICMP) ++ echo_msg ICMP_ECHO 0 0xfdf7 ping_rest) (ip_boot pboot)) = true /\
  aborts (receive (hdr_bytes (boot_header 0x45 28 IP_PROTO_ICMP) ++ echo_msg ICMP_ECHO 0 0xfdf7 ping_rest) (ip_boot pboot)) = false.
Proof. split; vm_compute; reflexivity. Qed.

(** The checksum of an echo reply is wrong when the rest of the message is zero: the
    update wraps to zero where it has to be 0xffff. *)
Lemma echo_chksum_zero :
  inet_chksum 0 (echo_msg ICMP_ECHO 0 0xfff7 [0; 0; 0; 0]) = 0 /\
  inet_chksum 0 (echo_msg ICMP_ER 0 (echo_chksum 0xfff7) [0; 0; 0; 0]) = 0xffff.
Proof. split; vm_compute; reflexivity. Qed.

(** The header checksum of an echo reply leaves out the IP options. *)
Lemma reply_options_chksum :
  let h := IPH_CHKSUM_SET (not16 (oc_sum (hdr_bytes (IPH_CHKSUM_SET 0 (boot_header 0x46 32 IP_PROTO_ICMP)) ++ [1; 1; 1; 0])))
    (boot_header 0x46 32 IP_PROTO_ICMP) in
  inet_chksum 0 (hdr_bytes h ++ [1; 1; 1; 0]) = 0 /\ inet_chksum 0 (hdr_bytes (reply_hdr h) ++ [1; 1; 1; 0]) <> 0.
Proof. split; vm_compute; [reflexivity|discriminate]. Qed.
