(* ===== verification/SysTimers.v ===== *)
(** * The timers of the port

    cwrap/sys_arch.c keeps the timeouts in a list sorted by the time they are due, and a
    thread that runs those which are.  A timeout is a node from malloc.  What a call does to
    the list it does with g_time_lock, as one step; the node is made, and the clock read,
    before that, and the thread reads its clock before it takes the lock, so that other
    steps come between.  The clock is 32 bits wide. *)

From Stdlib Require Import Sorted.
From S2P Require Import Prelude.

(** time_entry_t; a handler and its argument are numbers, NULL is 0. *)
Record time_entry := Entry { when_ms : Z; handler : Z; arg : Z; te_next : option Z }.

(** g_time_head and the nodes. *)
Record port_timers := PortTimers { g_time_head : option Z; nodes : gmap Z time_entry }.

Implicit Types (s : port_timers).

(** A pointer to a pointer to a node. *)
Inductive link : Set := Head | Next (a : Z).

Definition set_nodes (f : gmap Z time_entry -> gmap Z time_entry) s : port_timers := PortTimers (g_time_head s) (f (nodes s)).

Definition rd_entry (a : Z) : M port_timers time_entry := s ← get; deref (nodes s !! a).

Definition rd_link (pp : link) : M port_timers (option Z) :=
  match pp with
  | Head => s ← get; mret (g_time_head s)
  | Next a => e ← rd_entry a; mret (te_next e)
  end.

Definition wr_link (pp : link) (q : option Z) : M port_timers unit :=
  match pp with
  | Head => modify (fun s => PortTimers q (nodes s))
  | Next a => e ← rd_entry a; modify (set_nodes (insert a (Entry (when_ms e) (handler e) (arg e) q)))
  end.

(** Enough rounds for a walk along the list. *)
Definition walk_fuel s : nat := S (size (nodes s)).

Section ops.
(** malloc gives a node that is not in use, or NULL. *)
Context (malloc : gmap Z time_entry -> option Z).

(** The first link to a node that is due later than [w]. *)
Fixpoint find_link (fuel : nat) (pp : link) (w : Z) : M port_timers link :=
  match fuel with
  | O => fail OutOfFuel
  | S fuel =>
      q ← rd_link pp;
      match q with
      | None => mret pp
      | Some a => e ← rd_entry a; if when_ms e <=? w then find_link fuel (Next a) w else mret pp
      end
  end.

(** What a call does before it takes the lock: a node, the clock, the deadline. *)
Definition new_timeout (now msecs h a : Z) : M port_timers (option Z) :=
  s ← get;
  match malloc (nodes s) with
  | None => mret None
  | Some e => modify (set_nodes (insert e (Entry (u32 (now + msecs)) h a None)));; mret (Some e)
  end.

(** What it does with the lock. *)
Definition link_timeout (e : Z) : M port_timers unit :=
  x ← rd_entry e;
  s ← get;
  pp ← find_link (walk_fuel s) Head (when_ms x);
  q ← rd_link pp;
  wr_link (Next e) q;;
  wr_link pp (Some e).

Definition sys_timeout (now msecs h a : Z) : M port_timers unit :=
  if h =? 0 then mret tt
  else
    e ← new_timeout now msecs h a;
    match e with
    | None => mret tt
    | Some e => link_timeout e
    end.

(** free *)
Definition free_entry (a : Z) : M port_timers unit := rd_entry a;; modify (set_nodes (delete a)).

Fixpoint remove_matching (fuel : nat) (pp : link) (h a : Z) : M port_timers unit :=
  match fuel with
  | O => fail OutOfFuel
  | S fuel =>
      q ← rd_link pp;
      match q with
      | None => mret tt
      | Some d =>
          e ← rd_entry d;
          if (handler e =? h) && (arg e =? a) then
            wr_link pp (te_next e);; free_entry d;; remove_matching fuel pp h a
          else remove_matching fuel (Next d) h a
      end
  end.

Definition sys_untimeout (h a : Z) : M port_timers unit :=
  if h =? 0 then mret tt
  else s ← get; remove_matching (walk_fuel s) Head h a.

(** timer_thread_fn takes the first node off the list when it is due; it belongs to the
    thread then, which runs the handler and frees the node. *)
Definition take_expired (now : Z) : M port_timers (option Z) :=
  s ← get;
  match g_time_head s with
  | None => mret None
  | Some a =>
      e ← rd_entry a;
      if 0 <? s32 (when_ms e - now) then mret None
      else modify (fun s => PortTimers (te_next e) (nodes s));; mret (Some a)
  end.
End ops.

(** ** The list *)

(** When a timeout is due, its handler and its argument. *)
Abbreviation timer := (Z * Z * Z)%type.

Definition due (t : timer) : Z := t.1.1.

Definition view (e : time_entry) : timer := (when_ms e, handler e, arg e).

(** The nodes from [q] to [p]. *)
Fixpoint tseg (m : gmap Z time_entry) (q : option Z) (l : list (Z * timer)) (p : option Z) : Prop :=
  match l with
  | [] => q = p
  | (a, t) :: l => q = Some a /\ exists e, m !! a = Some e /\ view e = t /\ tseg m (te_next e) l p
  end.

(** The list is [l].  The other nodes in use are [own]: those that threads have not linked
    yet, and the one whose handler runs. *)
Record timers_are s (own : gmap Z timer) (l : list (Z * timer)) : Prop := TimersAre {
  ta_seg : tseg (nodes s) (g_time_head s) l None;
  ta_nodup : NoDup l.*1;
  ta_nodes a : is_Some (nodes s !! a) <-> a ∈ l.*1 \/ is_Some (own !! a);
  ta_own a t : own !! a = Some t -> a ∉ l.*1 /\ view <$> nodes s !! a = Some t
}.

Definition has_timers s (own : gmap Z timer) (ts : list timer) : Prop := exists l, timers_are s own l /\ l.*2 = ts.

Lemma tseg_app m l1 : forall q l2 p, tseg m q (l1 ++ l2) p <-> exists r, tseg m q l1 r /\ tseg m r l2 p.
Proof.
  induction l1 as [|[a t] l1 IH]; intros q l2 p; cbn [app tseg].
  - split; [by exists q|]. by intros (r & -> & H).
  - setoid_rewrite IH. split.
    + intros (-> & e & Ha & Ht & r & H1 & H2). exists r. split; [|done]. split; [done|]. by exists e.
    + intros (r & (-> & e & Ha & Ht & H1) & H2). split; [done|]. exists e. split; [done|]. split; [done|]. by exists r.
Qed.

Lemma tseg_ext m m' l : forall q p, (forall a, a ∈ l.*1 -> m' !! a = m !! a) -> tseg m q l p -> tseg m' q l p.
Proof.
  induction l as [|[a t] l IH]; intros q p Hm; [done|]. intros (-> & e & Ha & Ht & H). split; [done|]. exists e.
  split; [rewrite Hm; [done|by left]|]. split; [done|]. apply IH; [|done]. intros x Hx. apply Hm. by right.
Qed.

Lemma tseg_in m l : forall q p a t, tseg m q l p -> (a, t) ∈ l -> exists e, m !! a = Some e /\ view e = t.
Proof.
  induction l as [|[b u] l IH]; intros q p a t; [by intros _ ?%elem_of_nil|].
  intros (-> & e & Hb & Hu & Hl) [E|Hin]%elem_of_cons; [|by eapply IH]. injection E as -> ->. by exists e.
Qed.

Lemma tseg_length m l p q : tseg m q l p -> NoDup l.*1 -> (length l <= size m)%nat.
Proof.
  intros Hs Hnd. rewrite <- (length_fmap fst), <- size_dom, <- (size_list_to_set (C := gset Z)) by done.
  apply subseteq_size. intros a Ha. apply elem_of_list_to_set in Ha. apply list_elem_of_fmap in Ha as ([b t] & -> & Hin).
  destruct (tseg_in _ _ _ _ _ _ Hs Hin) as (e & He & _). apply elem_of_dom. by exists e.
Qed.

(** The link behind [l]. *)
Definition link_after (l : list (Z * timer)) : link := match list.last l with None => Head | Some (a, _) => Next a end.

Lemma rd_entry_ok s a e : nodes s !! a = Some e -> rd_entry a s = Done (e, s).
Proof. intros He. unfold rd_entry. rewrite get_bind, He. done. Qed.

Lemma rd_link_ok s l r : tseg (nodes s) (g_time_head s) l r -> rd_link (link_after l) s = Done (r, s).
Proof.
  unfold link_after. destruct (exists_last_inv l) as [->|(l0 & [a t] & ->)]; [by intros <-|].
  rewrite last_snoc. intros (q & _ & -> & e & He & _ & <-)%tseg_app. cbn [rd_link]. by rewrite (bind_done _ _ _ _ _ (rd_entry_ok _ _ _ He)).
Qed.

(** Another node is linked behind [l]. *)
Lemma wr_link_ok s l r q : tseg (nodes s) (g_time_head s) l r -> NoDup l.*1 ->
  exists s', wr_link (link_after l) q s = Done (tt, s') /\ tseg (nodes s') (g_time_head s') l q /\
    (forall a, a ∉ l.*1 -> nodes s' !! a = nodes s !! a) /\ (forall a, is_Some (nodes s' !! a) <-> is_Some (nodes s !! a)).
Proof.
  unfold link_after. destruct (exists_last_inv l) as [->|(l0 & [a t] & ->)].
  { intros _ _. eexists. split; [reflexivity|]. done. }
  rewrite last_snoc. intros (p & Hl & -> & e & He & Ht & _)%tseg_app Hnd. cbn [wr_link].
  rewrite (bind_done _ _ _ _ _ (rd_entry_ok _ _ _ He)). eexists. split; [reflexivity|].
  rewrite fmap_app in Hnd. apply list.NoDup_app in Hnd as (_ & Hd & _). cbn [nodes set_nodes g_time_head]. split; [|split].
  - apply tseg_app. exists (Some a). split.
    + eapply tseg_ext; [|exact Hl]. intros b Hb. rewrite lookup_insert_ne; [done|]. intros ->. apply (Hd b Hb). by left.
    + split; [done|]. eexists. rewrite lookup_insert_eq. split; [done|]. by split.
  - intros b Hb. rewrite lookup_insert_ne; [done|]. intros ->. apply Hb. rewrite fmap_app. apply elem_of_app. right. by left.
  - intros b. rewrite lookup_insert_is_Some. destruct (decide (a = b)) as [->|Hne]; [|tauto]. rewrite He. split; [by eexists|by left].
Qed.

(** ** The operations on the list *)

(** A timeout goes behind all those that are not due later. *)
Fixpoint insert_timer (t : timer) (ts : list timer) : list timer :=
  match ts with
  | [] => [t]
  | x :: ts => if due x <=? due t then x :: insert_timer t ts else t :: x :: ts
  end.

Definition matches (h a : Z) (t : timer) : bool := (t.1.2 =? h) && (t.2 =? a).

Lemma insert_timer_split t l1 l2 : Forall (fun x => due x <= due t) l1 -> (forall x, head l2 = Some x -> due t < due x) ->
  insert_timer t (l1 ++ l2) = l1 ++ t :: l2.
Proof.
  intros Hl Hr. induction Hl as [|x l1 Hx Hl IH]; cbn [app insert_timer].
  - destruct l2 as [|x l2]; [done|]. cbn [insert_timer]. by rewrite (proj2 (Z.leb_gt _ _)) by (by apply Hr).
  - rewrite (proj2 (Z.leb_le _ _)) by done. by rewrite IH.
Qed.

Lemma find_link_ok s w l2 : forall l1 fuel r, tseg (nodes s) (g_time_head s) l1 r -> tseg (nodes s) r l2 None -> (length l2 < fuel)%nat ->
  exists k1 k2, find_link fuel (link_after l1) w s = Done (link_after (l1 ++ k1), s) /\ l2 = k1 ++ k2 /\
    Forall (fun x => due x.2 <= w) k1 /\ (forall x, head k2 = Some x -> w < due x.2).
Proof.
  induction l2 as [|[a t] l2 IH]; intros l1 fuel r H1 H2 Hf; (destruct fuel as [|fuel]; [simpl in Hf; lia|]); cbn [find_link];
    rewrite (bind_done _ _ _ _ _ (rd_link_ok _ _ _ H1)).
  - simpl in H2. subst r. exists [], []. by rewrite app_nil_r.
  - destruct H2 as (-> & e & He & Ht & H2). rewrite (bind_done _ _ _ _ _ (rd_entry_ok _ _ _ He)).
    assert (due t = when_ms e) as Hd by (by subst t). destruct (Z.leb_spec (when_ms e) w) as [Hle|Hgt].
    + assert (tseg (nodes s) (g_time_head s) (l1 ++ [(a, t)]) (te_next e)) as H1'.
      { apply tseg_app. exists (Some a). split; [done|]. split; [done|]. by exists e. }
      destruct (IH _ fuel _ H1' H2 ltac:(simpl in Hf; lia)) as (k1 & k2 & E & -> & Hk1 & Hk2).
      unfold link_after in E at 1. rewrite last_snoc in E. exists ((a, t) :: k1), k2. rewrite E, <- app_assoc. split; [done|].
      split; [done|]. split; [|done]. constructor; [simpl; lia|done].
    + exists [], ((a, t) :: l2). rewrite app_nil_r. split; [done|]. split; [done|]. split; [done|]. intros x [= <-]. simpl. lia.
Qed.

(** A node unlinked. *)
Lemma timer_unlinked s own l1 d t l2 : timers_are s own (l1 ++ (d, t) :: l2) ->
  exists e, nodes s !! d = Some e /\ view e = t /\ exists s', wr_link (link_after l1) (te_next e) s = Done (tt, s') /\
    timers_are (set_nodes (delete d) s') own (l1 ++ l2) /\ is_Some (nodes s' !! d).
Proof.
  intros [Hs Hnd Hn Hr]. apply tseg_app in Hs as (r & H1 & -> & e & He & Ht & H2). exists e. split; [done|]. split; [done|].
  assert (forall a u, own !! a = Some u -> a <> d /\ a ∉ l1.*1 /\ a ∉ l2.*1 /\ view <$> nodes s !! a = Some u) as Hr'.
  { intros a u Ha. destruct (Hr a u Ha) as [Hx Hv]. rewrite fmap_app, fmap_cons in Hx. cbn [fst] in Hx.
    apply not_elem_of_app in Hx as [? [? ?]%not_elem_of_cons]. done. }
  rewrite fmap_app, fmap_cons in Hnd. cbn [fst] in Hnd. apply list.NoDup_app in Hnd as (Hnd1 & Hd & [Hd2 Hnd2]%list.NoDup_cons).
  destruct (wr_link_ok s l1 _ (te_next e) H1 Hnd1) as (s' & E & Hs' & Hother & Hdom). exists s'. split; [done|].
  assert (d ∉ l1.*1) as Hd1 by (intros Hx; apply (Hd d Hx); by left). split; [split|].
  - apply tseg_app. exists (te_next e). split.
    + eapply tseg_ext; [|exact Hs']. intros x Hx. apply lookup_delete_ne. by intros ->.
    + eapply tseg_ext; [|exact H2]. intros x Hx. cbn [nodes set_nodes]. rewrite lookup_delete_ne by (by intros ->).
      apply Hother. intros Hx1. apply (Hd x Hx1). by right.
  - rewrite fmap_app. apply list.NoDup_app. split; [done|]. split; [|done]. intros x Hx Hx2. apply (Hd x Hx). by right.
  - intros x. cbn [nodes set_nodes]. rewrite lookup_delete_is_Some, Hdom, Hn, !fmap_app, fmap_cons, !elem_of_app, elem_of_cons. cbn [fst].
    split; [intuition congruence|]. intros Hx. split; [|tauto]. intros <-. destruct Hx as [[Hx|Hx]|[u Hx]]; [done|done|].
    by destruct (Hr' d u Hx).
  - intros x u Hx. destruct (Hr' x u Hx) as (? & ? & ? & Hv). split; [rewrite fmap_app; by apply not_elem_of_app|].
    cbn [nodes set_nodes]. rewrite lookup_delete_ne, Hother by done. done.
  - apply Hdom. by exists e.
Qed.

Definition keep (h a : Z) (x : Z * timer) : Prop := matches h a x.2 = false.

#[export] Instance keep_dec h a x : Decision (keep h a x).
Proof. unfold keep. apply _. Defined.

Lemma remove_matching_ok h a own l2 : forall l1 fuel s, timers_are s own (l1 ++ l2) -> (length l2 < fuel)%nat ->
  exists s', remove_matching fuel (link_after l1) h a s = Done (tt, s') /\ timers_are s' own (l1 ++ filter (keep h a) l2).
Proof.
  induction l2 as [|[d t] l2 IH]; intros l1 fuel s Hs Hf; (destruct fuel as [|fuel]; [simpl in Hf; lia|]); cbn [remove_matching];
    pose proof (ta_seg _ _ _ Hs) as Hseg; apply tseg_app in Hseg as (r & H1 & H2); rewrite (bind_done _ _ _ _ _ (rd_link_ok _ _ _ H1)).
  - simpl in H2. subst r. by exists s.
  - destruct H2 as (-> & _). destruct (timer_unlinked _ _ _ _ _ _ Hs) as (e & He & Ht & s' & E & Hs' & Hd).
    rewrite (bind_done _ _ _ _ _ (rd_entry_ok _ _ _ He)). subst t. change ((handler e =? h) && (arg e =? a)) with (matches h a (view e)).
    destruct (matches h a (view e)) eqn:Em.
    + rewrite (bind_done _ _ _ _ _ E). destruct Hd as [e' He']. unfold free_entry. rewrite bind_assoc, (bind_done _ _ _ _ _ (rd_entry_ok _ _ _ He')), modify_bind.
      rewrite filter_cons_False by (unfold keep; cbn [snd]; by rewrite Em). apply IH; [exact Hs'|simpl in Hf; lia].
    + rewrite filter_cons_True by done. destruct (IH (l1 ++ [(d, view e)]) fuel s) as (s2 & E2 & Hs2); [by rewrite <- app_assoc|simpl in Hf; lia|].
      unfold link_after in E2 at 1. rewrite last_snoc in E2. exists s2. split; [exact E2|]. by rewrite <- app_assoc in Hs2.
Qed.

(** Those with another handler or argument. *)
Definition remove_timer (h a : Z) (ts : list timer) : list timer := List.filter (fun t => negb (matches h a t)) ts.

Lemma keep_filter h a (l : list (Z * timer)) : (filter (keep h a) l).*2 = remove_timer h a l.*2.
Proof.
  induction l as [|[d t] l IH]; [done|]. rewrite fmap_cons. unfold remove_timer. cbn [List.filter snd]. destruct (matches h a t) eqn:E.
  - rewrite filter_cons_False by (unfold keep; cbn; by rewrite E). exact IH.
  - rewrite filter_cons_True by done. rewrite fmap_cons. cbn [negb snd]. f_equal. exact IH.
Qed.

Lemma sys_untimeout_ok s own ts h a : has_timers s own ts ->
  exists s', sys_untimeout h a s = Done (tt, s') /\ has_timers s' own (if h =? 0 then ts else remove_timer h a ts).
Proof.
  intros (l & Hl & <-). unfold sys_untimeout. destruct (h =? 0); [exists s; split; [done|]; by exists l|]. rewrite get_bind.
  destruct (remove_matching_ok h a own l [] (walk_fuel s) s Hl) as (s' & E & Hs').
  { pose proof (tseg_length _ _ _ _ (ta_seg _ _ _ Hl) (ta_nodup _ _ _ Hl)). unfold walk_fuel. lia. }
  exists s'. split; [exact E|]. eexists. split; [exact Hs'|]. apply keep_filter.
Qed.

(** The thread looks at the first timeout only. *)
Lemma take_expired_ok s own ts now : has_timers s own ts ->
  match ts with
  | t :: rest => if s32 (due t - now) <=? 0 then
      exists a s', take_expired now s = Done (Some a, s') /\ has_timers s' (<[a := t]> own) rest
    else take_expired now s = Done (None, s)
  | [] => take_expired now s = Done (None, s)
  end.
Proof.
  intros (l & Hl & <-). destruct l as [|[a t] l].
  - unfold take_expired. rewrite get_bind. pose proof (ta_seg _ _ _ Hl) as Hs. simpl in Hs. by rewrite Hs.
  - cbn [fmap list_fmap snd]. pose proof Hl as [(Eh & e & He & Ht & Hs) Hnd Hn Hr]. apply list.NoDup_cons in Hnd as [Ha Hnd]. cbn [fst] in Ha.
    assert (due t = when_ms e) as Hd by (by subst t). unfold take_expired. rewrite get_bind, Eh, (bind_done _ _ _ _ _ (rd_entry_ok _ _ _ He)).
    rewrite Hd, Z.leb_antisym. destruct (0 <? s32 (when_ms e - now)); [done|]. cbn [negb].
    exists a. eexists. split; [reflexivity|]. exists l. split; [|done]. split; [exact Hs|done| |].
    + intros x. cbn [nodes]. rewrite Hn, fmap_cons, elem_of_cons, lookup_insert_is_Some'. cbn [fst]. intuition congruence.
    + intros x u. cbn [nodes]. destruct (decide (x = a)) as [->|Hne].
      * rewrite lookup_insert_eq, He. intros [= <-]. by rewrite <- Ht.
      * rewrite lookup_insert_ne by done. intros Hx. destruct (Hr x u Hx) as [Hx' Hv]. split; [|done]. rewrite fmap_cons in Hx'. by apply not_elem_of_cons in Hx' as [_ ?].
Qed.

(** A node that is not linked is freed. *)
Lemma timer_freed_ok s own a t ts : has_timers s own ts -> own !! a = Some t -> exists s', free_entry a s = Done (tt, s') /\ has_timers s' (delete a own) ts.
Proof.
  intros (l & [Hs Hnd Hn Hr] & <-) Ha. destruct (Hr a t Ha) as [Hal Hv]. apply fmap_Some in Hv as (e & He & _).
  unfold free_entry. rewrite (bind_done _ _ _ _ _ (rd_entry_ok _ _ _ He)). eexists. split; [reflexivity|]. exists l. split; [|done]. split; [|done| |].
  - eapply tseg_ext; [|exact Hs]. intros x Hx. apply lookup_delete_ne. by intros ->.
  - intros x. cbn [nodes set_nodes]. rewrite !lookup_delete_is_Some, Hn. split; [intuition congruence|]. intros [Hx|]; [|tauto]. split; [by intros ->|by left].
  - intros x u. cbn [nodes set_nodes]. rewrite lookup_delete_Some. intros [Hne Hx]. rewrite lookup_delete_ne by done. by apply Hr.
Qed.

(** The lock is taken, and a node that waits for it is linked. *)
Lemma link_timeout_ok s own ts e t : has_timers s own ts -> own !! e = Some t ->
  exists s', link_timeout e s = Done (tt, s') /\ has_timers s' (delete e own) (insert_timer t ts).
Proof.
  intros (l & [Hseg Hnd Hn Hr] & <-) He. destruct (Hr e t He) as [Hel Hv]. apply fmap_Some in Hv as (x & Hx & ->).
  unfold link_timeout. rewrite (bind_done _ _ _ _ _ (rd_entry_ok _ _ _ Hx)), get_bind.
  destruct (find_link_ok s (when_ms x) l [] (walk_fuel s) _ eq_refl Hseg) as (k1 & k2 & E & -> & Hk1 & Hk2).
  { pose proof (tseg_length _ _ _ _ Hseg Hnd). unfold walk_fuel. lia. }
  change (link_after []) with Head in E. rewrite (bind_done _ _ _ _ _ E). cbn [app].
  apply tseg_app in Hseg as (r & H1 & H2). rewrite (bind_done _ _ _ _ _ (rd_link_ok _ _ _ H1)). cbn [wr_link]. rewrite bind_assoc, (bind_done _ _ _ _ _ (rd_entry_ok _ _ _ Hx)), modify_bind.
  set (s2 := set_nodes _ s). rewrite fmap_app in Hnd, Hel. apply not_elem_of_app in Hel as [He1 He2].
  apply list.NoDup_app in Hnd as (Hnd1 & Hd & Hnd2).
  assert (tseg (nodes s2) (g_time_head s2) k1 r) as H1'.
  { eapply tseg_ext; [|exact H1]. intros y Hy. apply lookup_insert_ne. by intros ->. }
  destruct (wr_link_ok s2 k1 r (Some e) H1' Hnd1) as (s3 & E3 & Hs3 & Hother & Hdom). exists s3. split; [exact E3|].
  exists (k1 ++ (e, view x) :: k2). split; [split|].
  - apply tseg_app. exists (Some e). split; [exact Hs3|]. split; [done|]. exists (Entry (when_ms x) (handler x) (arg x) r). split; [|split; [done|]].
    + rewrite Hother by done. apply lookup_insert_eq.
    + cbn [te_next]. eapply tseg_ext; [|exact H2]. intros y Hy. rewrite Hother.
      * apply lookup_insert_ne. by intros ->.
      * intros Hy'. by apply (Hd y).
  - rewrite fmap_app, fmap_cons. apply list.NoDup_app. split; [done|]. split.
    + intros y Hy [->|Hy']%elem_of_cons; [done|]. by apply (Hd y).
    + by apply list.NoDup_cons.
  - intros y. rewrite Hdom. cbn [nodes s2 set_nodes]. rewrite lookup_insert_is_Some', Hn, lookup_delete_is_Some, !fmap_app, fmap_cons.
    rewrite !elem_of_app, elem_of_cons. cbn [fst]. destruct (decide (e = y)) as [<-|Hne]; [|intuition congruence]. split; [by auto|by left].
  - intros y u. rewrite lookup_delete_Some. intros [Hne Hy]. destruct (Hr y u Hy) as [Hyl Hyv]. rewrite fmap_app, fmap_cons in *.
    apply not_elem_of_app in Hyl as [? ?]. split.
    + apply not_elem_of_app. split; [done|]. apply not_elem_of_cons. by split.
    + rewrite Hother by done. cbn [nodes s2 set_nodes]. by rewrite lookup_insert_ne.
  - rewrite !fmap_app, fmap_cons. cbn [snd]. symmetry. apply insert_timer_split.
    + by apply list.Forall_fmap.
    + intros y Hy. destruct k2 as [|z k2]; [done|]. injection Hy as <-. by apply Hk2.
Qed.

Section client.
Context (malloc : gmap Z time_entry -> option Z).
Context (malloc_fresh : forall m a, malloc m = Some a -> m !! a = None).

Lemma new_timeout_ok s own ts now msecs h a : has_timers s own ts ->
  exists s', new_timeout malloc now msecs h a s = Done (malloc (nodes s), s') /\
    match malloc (nodes s) with
    | None => s' = s
    | Some e => own !! e = None /\ has_timers s' (<[e := (u32 (now + msecs), h, a)]> own) ts
    end.
Proof.
  intros (l & [Hseg Hnd Hn Hr] & <-). unfold new_timeout. rewrite get_bind. destruct (malloc (nodes s)) as [e|] eqn:Em; [|by exists s].
  pose proof (malloc_fresh _ _ Em) as He. rewrite modify_bind. eexists. split; [reflexivity|].
  assert (own !! e = None) as Hoe by (apply eq_None_not_Some; intros Ho; assert (is_Some (nodes s !! e)) as [? ?] by (apply Hn; by right); congruence).
  assert (e ∉ l.*1) as Hel by (intros Hin; assert (is_Some (nodes s !! e)) as [? ?] by (apply Hn; by left); congruence).
  split; [done|]. exists l. split; [|done]. split; [|done| |].
  - eapply tseg_ext; [|exact Hseg]. intros x Hx. apply lookup_insert_ne. by intros ->.
  - intros x. cbn [nodes set_nodes]. rewrite !lookup_insert_is_Some', Hn. tauto.
  - intros x u. cbn [nodes set_nodes]. destruct (decide (x = e)) as [->|Hne].
    + rewrite !lookup_insert_eq. by intros [= <-].
    + rewrite !lookup_insert_ne by done. apply Hr.
Qed.

(** A call that is not interrupted. *)
Lemma sys_timeout_ok s own ts now msecs h a : has_timers s own ts ->
  exists s', sys_timeout malloc now msecs h a s = Done (tt, s') /\
    has_timers s' own (if (h =? 0) || bool_decide (malloc (nodes s) = None) then ts else insert_timer (u32 (now + msecs), h, a) ts).
Proof.
  intros Hs. unfold sys_timeout. destruct (h =? 0); [by exists s|]. cbn [orb].
  destruct (new_timeout_ok s own ts now msecs h a Hs) as (s1 & E1 & H1). rewrite (bind_done _ _ _ _ _ E1).
  destruct (malloc (nodes s)) as [e|]; [|subst s1; by exists s]. destruct H1 as [Hoe H1]. rewrite bool_decide_false by done.
  destruct (link_timeout_ok s1 _ _ e _ H1 (lookup_insert_eq _ _ _)) as (s2 & E2 & H2). exists s2. split; [exact E2|].
  by rewrite delete_insert_id in H2.
Qed.

(** ** The port running

    What happens to the list: a timeout is linked, a call cancels those with a handler and
    an argument, and the thread calls the first, when its clock shows a time. *)
Inductive event : Set := Linked (t : timer) | Cancelled (h a : Z) | Called (t : timer) (now : Z).

(** The service a client relies on: the pending timeouts in the order of their deadlines,
    the first set in front of others for the same time, and those cancelled. *)
Definition play (ev : event) (st : list timer * list timer) : option (list timer * list timer) :=
  match ev with
  | Linked t => Some (insert_timer t st.1, st.2)
  | Cancelled h a => Some (remove_timer h a st.1, st.2 ++ List.filter (matches h a) st.1)
  | Called t now =>
      match st.1 with
      | x :: rest => if bool_decide (x = t) && (due t <=? now) then Some (rest, st.2) else None
      | [] => None
      end
  end.

Fixpoint plays (log : list event) (st : list timer * list timer) : option (list timer * list timer) :=
  match log with
  | [] => Some st
  | ev :: log => play ev st ≫= plays log
  end.

Definition linked (log : list event) : list timer := omap (fun ev => match ev with Linked t => Some t | _ => None end) log.

Definition called (log : list event) : list timer := omap (fun ev => match ev with Called t _ => Some t | _ => None end) log.

(** The time in milliseconds since the clock was 0, the timeouts, the nodes that are not in
    the list with their deadlines, the time the thread has read and not used, the node
    whose handler is running, and what happened. *)
Record world := World {
  w_now : Z;
  w_timers : port_timers;
  w_own : gmap Z timer;
  w_read : option Z;
  w_run : option Z;
  w_log : list event
}.

Definition clock (w : world) : Z := u32 (w_now w).

(** Any number of threads are in sys_timeout, between the clock and the lock, or call
    sys_untimeout; the timer thread reads the clock, takes a node with the lock, runs its
    handler and frees it.  Time passes between any two of these.  No deadline is beyond
    [horizon]. *)
Inductive port_step (horizon : Z) : world -> world -> Prop :=
| ps_tick w d : 0 <= d -> w_now w + d <= horizon ->
    port_step horizon w (World (w_now w + d) (w_timers w) (w_own w) (w_read w) (w_run w) (w_log w))
| ps_new w msecs h a e s' : 0 <= msecs -> w_now w + msecs <= horizon -> h <> 0 ->
    new_timeout malloc (clock w) msecs h a (w_timers w) = Done (Some e, s') ->
    port_step horizon w (World (w_now w) s' (<[e := (w_now w + msecs, h, a)]> (w_own w)) (w_read w) (w_run w) (w_log w))
| ps_link w e t s' : w_own w !! e = Some t -> w_run w <> Some e -> link_timeout e (w_timers w) = Done (tt, s') ->
    port_step horizon w (World (w_now w) s' (delete e (w_own w)) (w_read w) (w_run w) (w_log w ++ [Linked t]))
| ps_untimeout w h a s' : h <> 0 -> sys_untimeout h a (w_timers w) = Done (tt, s') ->
    port_step horizon w (World (w_now w) s' (w_own w) (w_read w) (w_run w) (w_log w ++ [Cancelled h a]))
| ps_clock w : w_read w = None -> w_run w = None ->
    port_step horizon w (World (w_now w) (w_timers w) (w_own w) (Some (w_now w)) (w_run w) (w_log w))
| ps_take w r a e s' : w_read w = Some r -> take_expired (u32 r) (w_timers w) = Done (Some a, s') -> nodes s' !! a = Some e ->
    port_step horizon w (World (w_now w) s' (<[a := view e]> (w_own w)) None (Some a) (w_log w ++ [Called (view e) r]))
| ps_wait w r s' : w_read w = Some r -> take_expired (u32 r) (w_timers w) = Done (None, s') ->
    port_step horizon w (World (w_now w) s' (w_own w) None (w_run w) (w_log w))
| ps_return w a s' : w_run w = Some a -> free_entry a (w_timers w) = Done (tt, s') ->
    port_step horizon w (World (w_now w) s' (delete a (w_own w)) (w_read w) None (w_log w)).

Definition port_boot : world := World 0 (PortTimers None ∅) ∅ None None [].

Definition due_order : list timer -> Prop := StronglySorted (fun t u => due t <= due u).

(** A deadline, and a time of a call. *)
Definition in_time (now : Z) (ev : event) : Prop := match ev with Called _ r => 0 <= r <= now | _ => True end.

(** What holds of the port while the clock does not wrap. *)
Record port_inv (w : world) (ts cs : list timer) : Prop := PortInv {
  pi_timers : has_timers (w_timers w) (w_own w) ts;
  pi_now : 0 <= w_now w < 2 ^ 31;
  pi_own a t : w_own w !! a = Some t -> 0 <= due t < 2 ^ 31;
  pi_due : Forall (fun t => 0 <= due t < 2 ^ 31) ts;
  pi_read r : w_read w = Some r -> 0 <= r <= w_now w;
  pi_run a : w_run w = Some a -> is_Some (w_own w !! a) /\ w_read w = None;
  pi_log : plays (w_log w) ([], []) = Some (ts, cs);
  pi_times : Forall (in_time (w_now w)) (w_log w)
}.

Lemma due_order_insert t ts : due_order ts -> due_order (insert_timer t ts).
Proof.
  induction 1 as [|x ts Hs IH Hx]; cbn [insert_timer]; [by repeat constructor|]. destruct (Z.leb_spec (due x) (due t)) as [Hle|Hgt].
  - constructor; [done|]. clear -Hx Hle. induction Hx as [|y ts Hy Hx IH]; cbn [insert_timer]; [by constructor|].
    destruct (due y <=? due t); repeat (constructor; try done).
  - constructor; [by constructor|]. constructor; [lia|]. eapply list.Forall_impl; [exact Hx|]. intros y Hy. cbn in Hy. lia.
Qed.

Lemma insert_perm t ts : insert_timer t ts ≡ₚ t :: ts.
Proof. induction ts as [|x ts IH]; cbn [insert_timer]; [done|]. destruct (_ <=? _); [|done]. rewrite IH. apply Permutation_swap. Qed.

Lemma remove_perm h a ts : ts ≡ₚ List.filter (matches h a) ts ++ remove_timer h a ts.
Proof.
  induction ts as [|x ts IH]; [done|]. unfold remove_timer in *. cbn [List.filter]. destruct (matches h a x); cbn [negb app].
  - by rewrite <- IH.
  - rewrite <- Permutation_middle. by rewrite <- IH.
Qed.

Lemma remove_forall (P : timer -> Prop) h a ts : Forall P ts -> Forall P (remove_timer h a ts).
Proof.
  induction 1 as [|x ts Hx Hs IH]; [by constructor|]. unfold remove_timer. cbn [List.filter]. destruct (negb _); [by constructor|done].
Qed.

Lemma due_order_remove h a ts : due_order ts -> due_order (remove_timer h a ts).
Proof.
  induction 1 as [|x ts Hs IH Hx]; [by constructor|]. unfold remove_timer. cbn [List.filter]. destruct (negb _); [|done].
  constructor; [done|by apply remove_forall].
Qed.

(** ** What the service does *)

Lemma plays_app log1 log2 st : plays (log1 ++ log2) st = plays log1 st ≫= plays log2.
Proof. revert st. induction log1 as [|ev log1 IH]; intros st; [done|]. cbn [app plays]. destruct (play ev st); [apply IH|done]. Qed.

(** Played so far, one event more. *)
Lemma plays_snoc log ev st st' : plays log st = Some st' -> plays (log ++ [ev]) st = play ev st'.
Proof. intros E. rewrite plays_app, E. cbn. by destruct (play ev st'). Qed.

Lemma play_called t now st st' : play (Called t now) st = Some st' -> st.1 = t :: st'.1 /\ st'.2 = st.2 /\ due t <= now.
Proof.
  destruct st as [[|x rest] cs]; [done|]. cbn. case_bool_decide as Ex; [|done]. destruct (Z.leb_spec (due t) now); [|done]. by intros [= <-]; subst x.
Qed.

(** The list is always in the order of the deadlines. *)
Lemma plays_order log : forall st st', plays log st = Some st' -> due_order st.1 -> due_order st'.1.
Proof.
  induction log as [|ev log IH]; intros st st'; [by intros [= <-]|]. cbn [plays]. destruct (play ev st) as [st1|] eqn:E; [|done].
  intros Hp Ho. apply (IH _ _ Hp). destruct ev as [t|h a|t now]; [injection E as <-; by apply due_order_insert|injection E as <-; by apply due_order_remove|].
  destruct (play_called _ _ _ _ E) as (E1 & _). rewrite E1 in Ho. by apply StronglySorted_inv in Ho as [? _].
Qed.

(** A timeout that was linked was called, cancelled or is pending. *)
Lemma plays_all log : forall st st', plays log st = Some st' -> st.1 ++ st.2 ++ linked log ≡ₚ called log ++ st'.2 ++ st'.1.
Proof.
  induction log as [|ev log IH]; intros st st'; [intros [= <-]; cbn; rewrite app_nil_r; apply Permutation_app_comm|].
  cbn [plays]. destruct (play ev st) as [st1|] eqn:E; [|done]. intros Hp%IH. destruct ev as [t|h a|t now]; cbn [linked called omap list_omap]; fold (linked log) (called log).
  - injection E as <-. rewrite <- Hp. cbn [fst snd]. rewrite insert_perm. rewrite <- !Permutation_middle. done.
  - injection E as <-. rewrite <- Hp. cbn [fst snd]. rewrite (remove_perm h a st.1) at 1. solve_Permutation.
  - destruct (play_called _ _ _ _ E) as (E1 & E2 & _). rewrite E1, <- E2. cbn [app]. by rewrite Hp.
Qed.

(** The one called is due and no other is due before it. *)
Lemma plays_called log1 t now log2 st' : plays (log1 ++ Called t now :: log2) ([], []) = Some st' ->
  exists later cs, plays log1 ([], []) = Some (t :: later, cs) /\ due t <= now /\ Forall (fun x => due t <= due x) later.
Proof.
  rewrite plays_app. destruct (plays log1 ([], [])) as [[p cs]|] eqn:E; [|done]. cbn [option_bind mbind plays]. intros H.
  destruct (play (Called t now) (p, cs)) as [st1|] eqn:E1; [|done]. destruct (play_called _ _ _ _ E1) as (Ep & _ & Hd). cbn in Ep. subst p.
  exists st1.1, cs. split; [done|]. split; [done|]. pose proof (plays_order _ _ _ E ltac:(by constructor)) as Ho. by apply StronglySorted_inv in Ho as [_ ?].
Qed.

Lemma port_boot_inv : port_inv port_boot [] [].
Proof.
  split; try done; try (by constructor). exists []. split; [|done]. split; [done|constructor| |done].
  intros a. cbn. rewrite !lookup_empty, elem_of_nil. split; [by intros []|by intros [|[]]].
Qed.

Lemma in_time_later now now' log : now <= now' -> Forall (in_time now) log -> Forall (in_time now') log.
Proof. intros Hn Hl. eapply list.Forall_impl; [exact Hl|]. intros []; cbn; lia. Qed.

Lemma in_time_snoc now log ev : Forall (in_time now) log -> in_time now ev -> Forall (in_time now) (log ++ [ev]).
Proof. intros Hl He. apply list.Forall_app. split; [done|by repeat constructor]. Qed.

(** The node the thread runs is not linked by another. *)
Lemma delete_own_ok (own : gmap Z timer) e : (forall a t, own !! a = Some t -> 0 <= due t < 2 ^ 31) ->
  forall a t, delete e own !! a = Some t -> 0 <= due t < 2 ^ 31.
Proof. intros Ho a t [_ Ha]%lookup_delete_Some. by eapply Ho. Qed.

Lemma insert_own_ok (own : gmap Z timer) e u : (forall a t, own !! a = Some t -> 0 <= due t < 2 ^ 31) -> 0 <= due u < 2 ^ 31 ->
  forall a t, <[e := u]> own !! a = Some t -> 0 <= due t < 2 ^ 31.
Proof. intros Ho Hu a t [[_ <-]|[_ Ha]]%lookup_insert_Some; [done|]. by eapply Ho. Qed.

Lemma port_step_inv horizon w w' ts cs : horizon < 2 ^ 31 -> port_step horizon w w' -> port_inv w ts cs -> exists ts' cs', port_inv w' ts' cs'.
Proof.
  intros Hz Hstep [Ht Hn Ho Hd Hr Hrun Hl Hti].
  destruct Hstep as [w d Hd0 Hd1|w msecs h a e s' Hm Hh Hh0 E|w e t s' He Hne E|w h a s' Hh0 E|w Hr0 Hr1|w r a e s' Hw E He|w r s' Hw E|w a s' Hw E];
    cbn [w_now w_timers w_own w_read w_run w_log] in *.
  - exists ts, cs. split; cbn; try done; [lia| |by eapply in_time_later; [|exact Hti]; lia]. intros r Hx%Hr. lia.
  - destruct (new_timeout_ok _ _ _ (clock w) msecs h a Ht) as (s2 & E2 & Ht2). rewrite E in E2. injection E2 as Em <-. rewrite <- Em in Ht2.
    destruct Ht2 as [Hoe Ht2]. assert (u32 (clock w + msecs) = w_now w + msecs) as Eu.
    { unfold clock. rewrite (u32_id (w_now w)) by (unfold is_u32; lia). apply u32_id. unfold is_u32. lia. }
    rewrite Eu in Ht2. exists ts, cs. split; cbn; try done; [apply insert_own_ok; [done|cbn; lia]|].
    intros b Hb. destruct (Hrun b Hb). split; [|done]. rewrite lookup_insert_is_Some'. by right.
  - destruct (link_timeout_ok _ _ _ e t Ht He) as (s2 & E2 & Ht2). rewrite E in E2. injection E2 as <-.
    exists (insert_timer t ts), cs. split; cbn; try done; [by apply delete_own_ok| | | |by apply in_time_snoc].
    + rewrite insert_perm. constructor; [by eapply Ho|done].
    + intros b Hb. destruct (Hrun b Hb). split; [|done]. rewrite lookup_delete_is_Some. split; [congruence|done].
    + by rewrite (plays_snoc _ _ _ _ Hl).
  - destruct (sys_untimeout_ok _ _ _ h a Ht) as (s2 & E2 & Ht2). rewrite E in E2. injection E2 as <-.
    rewrite (proj2 (Z.eqb_neq h 0)) in Ht2 by done. exists (remove_timer h a ts), (cs ++ List.filter (matches h a) ts). split; cbn; try done; [by apply remove_forall|by rewrite (plays_snoc _ _ _ _ Hl)|by apply in_time_snoc].
  - exists ts, cs. split; cbn; try done; [intros r [= <-]; lia|]. intros a Ha. congruence.
  - pose proof (Hr r Hw) as Hr'. rewrite u32_id in E by (unfold is_u32; lia). pose proof (take_expired_ok _ _ _ r Ht) as Htake.
    destruct ts as [|t ts]; [by rewrite E in Htake|]. apply list.Forall_cons in Hd as [Hdt Hd].
    destruct (Z.leb_spec (s32 (due t - r)) 0) as [Hle|Hgt]; [|by rewrite E in Htake].
    destruct Htake as (a' & s2 & E2 & Ht2). rewrite E in E2. injection E2 as <- <-.
    assert (view e = t) as Hv.
    { destruct Ht2 as (l & [_ _ _ Hown] & _). destruct (Hown a t (lookup_insert_eq _ _ _)) as [_ Hx]. rewrite He in Hx. by injection Hx. }
    rewrite Hv. assert (due t <= r) as Hdue by (unfold s32 in Hle; zdm). exists ts, cs. split; cbn; try done; [by apply insert_own_ok| | |].
    + intros b [= <-]. rewrite lookup_insert_eq. by split.
    + rewrite (plays_snoc _ _ _ _ Hl). cbn. rewrite bool_decide_true by done. by rewrite (proj2 (Z.leb_le _ _)).
    + apply in_time_snoc; [done|]. cbn. lia.
  - assert (s' = w_timers w) as ->.
    { pose proof (take_expired_ok _ _ _ (u32 r) Ht) as Htake. destruct ts as [|t ts]; [by rewrite E in Htake; injection Htake|].
      destruct (_ <=? 0); [destruct Htake as (? & ? & E2 & _); congruence|]. rewrite E in Htake. by injection Htake. }
    exists ts, cs. split; cbn; try done. intros a Ha. destruct (Hrun a Ha). congruence.
  - destruct (Hrun a Hw) as [[t Ha] _]. destruct (timer_freed_ok _ _ _ _ _ Ht Ha) as (s2 & E2 & Ht2). rewrite E in E2. injection E2 as <-.
    exists ts, cs. split; cbn; try done. by apply delete_own_ok.
Qed.

Lemma reachable_inv horizon w : horizon < 2 ^ 31 -> rtc (port_step horizon) port_boot w -> exists ts cs, port_inv w ts cs.
Proof.
  intros Hz Hw. assert (exists ts cs, port_inv port_boot ts cs) as Hi by (exists [], []; apply port_boot_inv).
  induction Hw as [w|w w1 w2 H1 _ IH]; [done|]. destruct Hi as (ts & cs & Hi). apply IH, (port_step_inv _ _ _ _ _ Hz H1 Hi).
Qed.

End client.

(** Nodes at consecutive addresses. *)
Definition bump_malloc (m : gmap Z time_entry) : option Z := Some (free_key m).

Lemma bump_fresh m a : bump_malloc m = Some a -> m !! a = None.
Proof. intros [= <-]. apply free_key_fresh. Qed.

Ltac next_world := cbn [w_now w_timers w_own w_read w_run w_log app].

(** A thread reads the clock for a timeout of 5 ms and is delayed.  Another sets one of
    10 ms, which is called after 10 ms; the first is linked then, and called 15 ms too late. *)
Definition slow_call : Z * Z * Z := (5, 1, 0).
Definition fast_call : Z * Z * Z := (10, 2, 0).

Definition late_log : list event := [Linked fast_call; Called fast_call 10; Linked slow_call; Called slow_call 20].


(** The list is ordered by deadlines as 32-bit numbers, but a deadline is tested by its
    difference to the clock.  Ten milliseconds before the clock wraps, a timeout of
    100 ms gets in front of one of 5 ms, and the thread finds nothing to run when that
    one is overdue; the same calls at another time run it. *)
Theorem port_timers_wrap :
  let calls now := (sys_timeout bump_malloc now 5 1 0;; sys_timeout bump_malloc now 100 2 0;; take_expired (u32 (now + 9))) (PortTimers None ∅) in
  (exists s, calls (2 ^ 32 - 10) = Done (None, s)) /\ (exists a s, calls 10 = Done (Some a, s)).
Proof. split; repeat eexists; vm_compute; reflexivity. Qed.
