(* ===== verification/SysMbox.v ===== *)
(** * The mailboxes of the port

    cwrap/sys_arch.c, as built for Windows: a queue of messages in nodes from malloc, a
    lock, and two condition variables, cond_nonempty for threads that fetch and cond_nonfull
    for threads that post.  A thread holds the lock from EnterCriticalSection, or from its
    waking in SleepConditionVariableCS, to LeaveCriticalSection or the next sleep, so what
    it does in between is one step.  A sleeping thread wakes when it is chosen by
    WakeConditionVariable, when its time is over, or for no reason. *)

From S2P Require Import Prelude.

Definition ERR_MEM : Z := -1.

(** mbox_node_t *)
Record mbox_node := Node { n_msg : Z; n_next : option Z }.

(** mbox_t; the nodes in use. *)
Record mbox := Mbox {
  capacity : Z;
  count : Z;
  mb_head : option Z;
  mb_tail : option Z;
  valid : bool;
  mb_nodes : gmap Z mbox_node
}.

Implicit Types (m : mbox).

Definition sys_mbox_new (size : Z) : mbox := Mbox (if 0 <? size then size else 32) 0 None None true ∅.

Definition set_mb_nodes (f : gmap Z mbox_node -> gmap Z mbox_node) m : mbox :=
  Mbox (capacity m) (count m) (mb_head m) (mb_tail m) (valid m) (f (mb_nodes m)).

Definition set_ends (h t : option Z) (c : Z) m : mbox := Mbox (capacity m) c h t (valid m) (mb_nodes m).

Definition rd_node (a : Z) : M mbox mbox_node := m ← get; deref (mb_nodes m !! a).

(** What a fetch does before it releases the lock. *)
Inductive fetch_result : Set := Sleeps | TimedOut | Got (msg : Z).

Section ops.
Context (malloc : gmap Z mbox_node -> option Z).

(** A message at the end of the queue. *)
Definition enqueue (msg : Z) : M mbox unit :=
  m ← get;
  n ← deref (malloc (mb_nodes m));
  modify (set_mb_nodes (insert n (Node msg None)));;
  (match mb_tail m with
   | Some t => x ← rd_node t; modify (set_mb_nodes (insert t (Node (n_msg x) (Some n))))
   | None => mret tt
   end);;
  modify (fun m => set_ends (match mb_tail m with Some _ => mb_head m | None => Some n end) (Some n) (count m + 1) m).

(** sys_mbox_post with the lock held: false when the thread goes to sleep. *)
Definition post_section (msg : Z) : M mbox bool :=
  m ← get;
  if capacity m <=? count m then mret false else enqueue msg;; mret true.

Definition sys_mbox_trypost (msg : Z) : M mbox Z :=
  m ← get;
  if capacity m <=? count m then mret ERR_MEM else enqueue msg;; mret 0.

(** The message at the front. *)
Definition dequeue : M mbox Z :=
  m ← get;
  n ← deref (mb_head m);
  x ← rd_node n;
  modify (fun m => set_ends (n_next x) (match n_next x with None => None | Some _ => mb_tail m end) (count m - 1) m);;
  modify (set_mb_nodes (delete n));;
  mret (n_msg x).

(** sys_arch_mbox_fetch with the lock held; a thread that woke up looks at the
    condition again only when it waits without a timeout. *)
Definition fetch_section (looks : bool) : M mbox fetch_result :=
  m ← get;
  if looks && (count m =? 0) && valid m then mret Sleeps
  else if count m =? 0 then mret TimedOut
  else x ← dequeue; mret (Got x).
End ops.

(** The loop of sys_mbox_free. *)
Fixpoint drain (fuel : nat) (q : option Z) : M mbox unit :=
  match q with
  | None => mret tt
  | Some n =>
      match fuel with
      | O => fail OutOfFuel
      | S fuel => x ← rd_node n; modify (set_mb_nodes (delete n));; drain fuel (n_next x)
      end
  end.

Definition sys_mbox_free : M mbox unit :=
  m ← get;
  modify (fun m => Mbox (capacity m) (count m) (mb_head m) (mb_tail m) false (mb_nodes m));;
  drain (size (mb_nodes m)) (mb_head m);;
  modify (set_ends None None 0).

(** ** The queue *)

(** The nodes from [q] on. *)
Fixpoint nseg (nodes : gmap Z mbox_node) (q : option Z) (l : list (Z * Z)) (p : option Z) : Prop :=
  match l with
  | [] => q = p
  | (a, v) :: l => q = Some a /\ exists r, nodes !! a = Some (Node v r) /\ nseg nodes r l p
  end.

Record nodes_are m (l : list (Z * Z)) : Prop := NodesAre {
  na_seg : nseg (mb_nodes m) (mb_head m) l None;
  na_nodup : NoDup l.*1;
  na_nodes a : is_Some (mb_nodes m !! a) <-> a ∈ l.*1;
  na_tail : mb_tail m = fst <$> list.last l;
  na_count : count m = zlen l
}.

(** The messages in the box. *)
Definition holds_msgs m (msgs : list Z) : Prop := exists l, nodes_are m l /\ l.*2 = msgs.

Lemma nseg_app nodes l1 : forall q l2 p, nseg nodes q (l1 ++ l2) p <-> exists r, nseg nodes q l1 r /\ nseg nodes r l2 p.
Proof.
  induction l1 as [|[a v] l1 IH]; intros q l2 p; cbn [app nseg].
  - split; [by exists q|]. by intros (r & -> & H).
  - setoid_rewrite IH. split.
    + intros (-> & r & Ha & r' & H1 & H2). exists r'. split; [|done]. split; [done|]. by exists r.
    + intros (r & (-> & r' & Ha & H1) & H2). split; [done|]. exists r'. split; [done|]. by exists r.
Qed.

Lemma nseg_ext nodes nodes' l : forall q p, (forall a, a ∈ l.*1 -> nodes' !! a = nodes !! a) -> nseg nodes q l p -> nseg nodes' q l p.
Proof.
  induction l as [|[a v] l IH]; intros q p Hm; [done|]. intros (-> & r & Ha & H). split; [done|]. exists r.
  split; [rewrite Hm; [done|by left]|]. apply IH; [|done]. intros x Hx. apply Hm. by right.
Qed.

Lemma rd_node_ok m a x : mb_nodes m !! a = Some x -> rd_node a m = Done (x, m).
Proof. intros Hx. unfold rd_node. by rewrite get_bind, Hx. Qed.

Lemma node_taken_ok m v msgs : holds_msgs m (v :: msgs) ->
  exists m', dequeue m = Done (v, m') /\ holds_msgs m' msgs /\ capacity m' = capacity m /\ valid m' = valid m.
Proof.
  intros (l & [Hs Hnd Hn Ht Hc] & E). destruct l as [|[a w] l]; [done|]. injection E as -> <-.
  destruct Hs as (Hh & r & Ha & Hs). apply list.NoDup_cons in Hnd as [Hal Hnd]. cbn [fst] in Hal.
  unfold dequeue. rewrite get_bind, Hh, (deref_bind _ _ _ _ eq_refl), (bind_done _ _ _ _ _ (rd_node_ok _ _ _ Ha)), !modify_bind.
  eexists. split; [reflexivity|]. split; [|done]. exists l. split; [|done]. split; cbn.
  - eapply nseg_ext; [|exact Hs]. intros x Hx. apply lookup_delete_ne. by intros ->.
  - done.
  - intros x. rewrite lookup_delete_is_Some, Hn, fmap_cons, elem_of_cons. cbn [fst]. split; [intuition congruence|].
    intros Hx. split; [by intros ->|by right].
  - destruct l as [|[b u] l]; [simpl in Hs; by subst r|]. destruct Hs as (-> & _). by rewrite Ht.
  - rewrite Hc. autorewrite with zlen. lia.
Qed.

Section laws.
Context (malloc : gmap Z mbox_node -> option Z).
Context (malloc_fresh : forall nodes a, malloc nodes = Some a -> nodes !! a = None).

Lemma node_put_ok m msg msgs n : holds_msgs m msgs -> malloc (mb_nodes m) = Some n ->
  exists m', enqueue malloc msg m = Done (tt, m') /\ holds_msgs m' (msgs ++ [msg]) /\ capacity m' = capacity m /\ valid m' = valid m.
Proof.
  intros (l & [Hs Hnd Hn Ht Hc] & <-) Em. pose proof (malloc_fresh _ _ Em) as Hfresh.
  assert (n ∉ l.*1) as Hnl by (intros Hx; apply Hn in Hx as [? ?]; congruence).
  assert (NoDup (l ++ [(n, msg)]).*1) as Hnd'.
  { rewrite fmap_app. apply list.NoDup_app. split; [done|]. split; [|apply list.NoDup_singleton]. intros x Hx Hx'.
    apply list_elem_of_singleton in Hx' as ->. done. }
  unfold enqueue. rewrite get_bind, (deref_bind _ _ _ _ Em), modify_bind. cbn [mb_tail set_mb_nodes]. rewrite Ht. destruct (exists_last_inv l) as [->|(l0 & [t w] & ->)].
  - cbn [list.last fmap option_fmap option_map]. rewrite ret_bind. eexists. split; [reflexivity|]. split; [|done]. exists [(n, msg)]. split; [|done].
    split; cbn; [|done| | |].
    + split; [by rewrite Ht|]. exists None. split; [apply lookup_insert_eq|done].
    + intros x. rewrite lookup_insert_is_Some', Hn. cbn. rewrite elem_of_cons, elem_of_nil. intuition congruence.
    + done.
    + by rewrite Hc.
  - rewrite last_snoc. cbn [fmap option_fmap option_map fst].
    apply nseg_app in Hs as (r & H1 & -> & r' & Htn & E'). simpl in E'. subst r'.
    assert (t <> n) as Hne by (intros ->; congruence).
    assert (t ∉ l0.*1) as Htl.
    { rewrite fmap_app in Hnd. apply list.NoDup_app in Hnd as (_ & Hd & _). intros Hx. apply (Hd t Hx). by left. }
    rewrite bind_assoc. rewrite (bind_done _ _ _ _ _ (rd_node_ok (set_mb_nodes _ m) _ _ (eq_trans (lookup_insert_ne _ _ _ _ (not_eq_sym Hne)) Htn))).
    rewrite modify_bind. eexists. split; [reflexivity|]. split; [|done]. exists ((l0 ++ [(t, w)]) ++ [(n, msg)]). split; [|by rewrite fmap_app].
    split; cbn [mb_nodes set_mb_nodes set_ends mb_head mb_tail count n_msg]; [|done| | |].
    + rewrite Ht, last_snoc. cbn [fmap option_fmap option_map]. rewrite <- app_assoc. apply nseg_app. exists (Some t). split.
      * eapply nseg_ext; [|exact H1]. intros x Hx. rewrite lookup_insert_ne by (by intros ->). apply lookup_insert_ne. intros ->. apply Hnl.
        rewrite fmap_app. apply elem_of_app. by left.
      * split; [done|]. exists (Some n). split; [apply lookup_insert_eq|]. split; [done|]. exists None.
        split; [|done]. rewrite lookup_insert_ne by done. apply lookup_insert_eq.
    + intros x. rewrite !lookup_insert_is_Some', Hn, !fmap_app, !elem_of_app. cbn. rewrite !elem_of_cons, !elem_of_nil. clear -Hne. intuition congruence.
    + by rewrite last_snoc.
    + rewrite Hc. autorewrite with zlen. lia.
Qed.
(** ** Threads

    The threads asleep in a fetch, with the timeout they gave, those that were woken and
    have not the lock yet, the same for posts with the message; what was posted and what
    was fetched. *)
Record mworld := MWorld {
  mb : mbox;
  f_asleep : list (Z * Z);
  f_woken : list (Z * Z);
  p_asleep : list (Z * Z);
  p_woken : list (Z * Z);
  posted : list Z;
  fetched : list Z
}.

(** WakeConditionVariable: one of those asleep, if there is one. *)
Definition wake_one (sl wk sl' wk' : list (Z * Z)) : Prop :=
  sl = [] /\ sl' = [] /\ wk' = wk \/ exists x, sl ≡ₚ x :: sl' /\ wk' = x :: wk.

(** The thread [x] has the lock: it just called, or was woken. *)
Inductive enters (x : Z * Z) (wk : list (Z * Z)) : bool -> list (Z * Z) -> Prop :=
| en_call : enters x wk true wk
| en_woken wk' : wk ≡ₚ x :: wk' -> enters x wk false wk'.

Inductive mbox_step : mworld -> mworld -> Prop :=
| ms_post_sleep m fa fw pa pw ps fs t msg first pw' m' :
    enters (t, msg) pw first pw' -> post_section malloc msg m = Done (false, m') ->
    mbox_step (MWorld m fa fw pa pw ps fs) (MWorld m' fa fw ((t, msg) :: pa) pw' ps fs)
| ms_post m fa fw pa pw ps fs t msg first pw' m' fa' fw' :
    enters (t, msg) pw first pw' -> post_section malloc msg m = Done (true, m') -> wake_one fa fw fa' fw' ->
    mbox_step (MWorld m fa fw pa pw ps fs) (MWorld m' fa' fw' pa pw' (ps ++ [msg]) fs)
| ms_trypost m fa fw pa pw ps fs msg m' fa' fw' :
    sys_mbox_trypost malloc msg m = Done (0, m') -> wake_one fa fw fa' fw' ->
    mbox_step (MWorld m fa fw pa pw ps fs) (MWorld m' fa' fw' pa pw (ps ++ [msg]) fs)
| ms_trypost_full m fa fw pa pw ps fs msg m' :
    sys_mbox_trypost malloc msg m = Done (ERR_MEM, m') ->
    mbox_step (MWorld m fa fw pa pw ps fs) (MWorld m' fa fw pa pw ps fs)
| ms_fetch_sleep m fa fw pa pw ps fs t timeout first fw' m' :
    enters (t, timeout) fw first fw' -> fetch_section (first || (timeout =? 0)) m = Done (Sleeps, m') ->
    mbox_step (MWorld m fa fw pa pw ps fs) (MWorld m' ((t, timeout) :: fa) fw' pa pw ps fs)
| ms_fetch_timeout m fa fw pa pw ps fs t timeout first fw' m' :
    enters (t, timeout) fw first fw' -> fetch_section (first || (timeout =? 0)) m = Done (TimedOut, m') ->
    mbox_step (MWorld m fa fw pa pw ps fs) (MWorld m' fa fw' pa pw ps fs)
| ms_fetch m fa fw pa pw ps fs t timeout first fw' m' msg pa' pw' :
    enters (t, timeout) fw first fw' -> fetch_section (first || (timeout =? 0)) m = Done (Got msg, m') -> wake_one pa pw pa' pw' ->
    mbox_step (MWorld m fa fw pa pw ps fs) (MWorld m' fa fw' pa' pw' ps (fs ++ [msg]))
| ms_fetcher_wakes m fa fw pa pw ps fs x fa' : fa ≡ₚ x :: fa' ->
    mbox_step (MWorld m fa fw pa pw ps fs) (MWorld m fa' (x :: fw) pa pw ps fs)
| ms_poster_wakes m fa fw pa pw ps fs x pa' : pa ≡ₚ x :: pa' ->
    mbox_step (MWorld m fa fw pa pw ps fs) (MWorld m fa fw pa' (x :: pw) ps fs).

Definition mbox_boot (size : Z) : mworld := MWorld (sys_mbox_new size) [] [] [] [] [] [].

(** What holds of a mailbox of [n] places: messages leave in the order they came; as
    long as a thread sleeps, there are enough woken ones for the messages (the places). *)
Record mbox_inv (n : Z) (w : mworld) (msgs : list Z) : Prop := MboxInv {
  mi_msgs : holds_msgs (mb w) msgs;
  mi_cap : capacity (mb w) = n /\ valid (mb w) = true;
  mi_bound : zlen msgs <= n;
  mi_fifo : posted w = fetched w ++ msgs;
  mi_fetchers : f_asleep w <> [] -> zlen msgs <= zlen (f_woken w);
  mi_posters : p_asleep w <> [] -> n - zlen msgs <= zlen (p_woken w)
}.

Lemma msgs_count m msgs : holds_msgs m msgs -> count m = zlen msgs.
Proof. intros (l & [_ _ _ _ Hc] & <-). rewrite Hc. unfold zlen. by rewrite length_fmap. Qed.

Lemma post_section_inv m msg msgs b m' : holds_msgs m msgs -> post_section malloc msg m = Done (b, m') ->
  capacity m' = capacity m /\ valid m' = valid m /\
  if b then zlen msgs < capacity m /\ holds_msgs m' (msgs ++ [msg]) else capacity m <= zlen msgs /\ m' = m.
Proof.
  intros Hm. unfold post_section. rewrite get_bind, (msgs_count _ _ Hm). destruct (Z.leb_spec (capacity m) (zlen msgs)) as [Hle|Hlt].
  - by intros [= <- <-].
  - intros ([] & m1 & E & [= <- <-])%bind_inv. destruct (malloc (mb_nodes m)) as [n|] eqn:Em.
    + destruct (node_put_ok m msg msgs n Hm Em) as (m2 & E2 & Hm2 & Hc & Hv). rewrite E in E2. by injection E2 as <-.
    + unfold enqueue in E. by rewrite get_bind, Em in E.
Qed.

Lemma trypost_inv m msg msgs r m' : holds_msgs m msgs -> sys_mbox_trypost malloc msg m = Done (r, m') ->
  capacity m' = capacity m /\ valid m' = valid m /\
  if r =? 0 then zlen msgs < capacity m /\ holds_msgs m' (msgs ++ [msg]) else capacity m <= zlen msgs /\ m' = m.
Proof.
  intros Hm E. unfold sys_mbox_trypost in E. rewrite get_bind in E. pose proof (post_section_inv m msg msgs) as Hp. unfold post_section in Hp.
  destruct (capacity m <=? count m) eqn:Ef.
  - injection E as <- <-. apply (Hp false m Hm). by rewrite get_bind, Ef.
  - apply bind_inv in E as ([] & m1 & E & [= <- <-]). apply (Hp true m1 Hm). by rewrite get_bind, Ef, (bind_done _ _ _ _ _ E).
Qed.

Lemma fetch_section_inv m looks msgs r m' : holds_msgs m msgs -> valid m = true -> fetch_section looks m = Done (r, m') ->
  capacity m' = capacity m /\ valid m' = valid m /\
  match r with
  | Got v => exists rest, msgs = v :: rest /\ holds_msgs m' rest
  | Sleeps => msgs = [] /\ m' = m
  | TimedOut => msgs = [] /\ m' = m
  end.
Proof.
  intros Hm Hv. unfold fetch_section. rewrite get_bind, (msgs_count _ _ Hm), Hv, andb_true_r. destruct msgs as [|v msgs].
  - change (zlen [] =? 0) with true. rewrite andb_true_r. by destruct looks; intros [= <- <-].
  - rewrite (proj2 (Z.eqb_neq (zlen (v :: msgs)) 0)) by (rewrite zlen_cons; pose proof (zlen_nonneg msgs); lia). rewrite andb_false_r.
    destruct (node_taken_ok _ _ _ Hm) as (m1 & E & Hm1 & Hc & Hv1). rewrite (bind_done _ _ _ _ _ E). intros [= <- <-].
    split; [done|]. split; [congruence|]. by exists msgs.
Qed.
Lemma wake_one_count sl wk sl' wk' : wake_one sl wk sl' wk' -> sl' <> [] -> sl <> [] /\ zlen wk' = zlen wk + 1.
Proof.
  intros [(-> & -> & ->)|(x & Hp & ->)] Hne; [done|]. split; [|rewrite zlen_cons; lia]. intros ->. by apply Permutation_nil_cons in Hp.
Qed.

Lemma enters_count x wk first wk' : enters x wk first wk' -> zlen wk - 1 <= zlen wk'.
Proof. intros [|wk0 Hp]; [lia|]. unfold zlen. rewrite Hp. simpl. lia. Qed.

Lemma asleep_nonempty (x : Z * Z) l l' : l ≡ₚ x :: l' -> l <> [].
Proof. intros Hp ->. by apply Permutation_nil_cons in Hp. Qed.

Lemma mbox_step_inv n w w' msgs : mbox_inv n w msgs -> mbox_step w w' -> exists msgs', mbox_inv n w' msgs'.
Proof.
  intros [Hm [Hcap Hv] Hb Hfifo Hf Hp] Hstep. destruct Hstep as [m fa fw pa pw ps fs t msg first pw' m' He E|m fa fw pa pw ps fs t msg first pw' m' fa' fw' He E Hw
    |m fa fw pa pw ps fs msg m' fa' fw' E Hw|m fa fw pa pw ps fs msg m' E|m fa fw pa pw ps fs t timeout first fw' m' He E|m fa fw pa pw ps fs t timeout first fw' m' He E
    |m fa fw pa pw ps fs t timeout first fw' m' msg pa' pw' He E Hw|m fa fw pa pw ps fs x fa' Hx|m fa fw pa pw ps fs x pa' Hx];
    cbn [mb f_asleep f_woken p_asleep p_woken posted fetched] in *.
  - destruct (post_section_inv _ _ _ _ _ Hm E) as (_ & _ & Hle & ->). exists msgs. split; try done; cbn [p_woken]. intros _.
    pose proof (zlen_nonneg pw'). lia.
  - destruct (post_section_inv _ _ _ _ _ Hm E) as (Hc & Hv' & Hlt & Hm'). pose proof (enters_count _ _ _ _ He). exists (msgs ++ [msg]).
    split; cbn [mb f_asleep f_woken p_asleep p_woken posted fetched]; rewrite ?zlen_app; change (zlen [msg]) with 1; [done|split; congruence|lia| | |].
    + by rewrite Hfifo, app_assoc.
    + intros Hne. destruct (wake_one_count _ _ _ _ Hw Hne) as [Hne' ->]. specialize (Hf Hne'). lia.
    + intros Hne. specialize (Hp Hne). lia.
  - destruct (trypost_inv _ _ _ _ _ Hm E) as (Hc & Hv' & Hlt & Hm'). exists (msgs ++ [msg]).
    split; cbn [mb f_asleep f_woken p_asleep p_woken posted fetched]; rewrite ?zlen_app; change (zlen [msg]) with 1; [done|split; congruence|lia| | |].
    + by rewrite Hfifo, app_assoc.
    + intros Hne. destruct (wake_one_count _ _ _ _ Hw Hne) as [Hne' ->]. specialize (Hf Hne'). lia.
    + intros Hne. specialize (Hp Hne). lia.
  - destruct (trypost_inv _ _ _ _ _ Hm E) as (_ & _ & _ & ->). by exists msgs.
  - destruct (fetch_section_inv _ _ _ _ _ Hm Hv E) as (_ & _ & -> & ->). exists []. by split.
  - destruct (fetch_section_inv _ _ _ _ _ Hm Hv E) as (_ & _ & -> & ->). exists []. by split.
  - destruct (fetch_section_inv _ _ _ _ _ Hm Hv E) as (Hc & Hv' & rest & -> & Hm'). rewrite zlen_cons in *. pose proof (enters_count _ _ _ _ He). exists rest.
    split; cbn [mb f_asleep f_woken p_asleep p_woken posted fetched]; [done|split; congruence|lia| | |].
    + by rewrite Hfifo, <- app_assoc.
    + intros Hne. specialize (Hf Hne). lia.
    + intros Hne. destruct (wake_one_count _ _ _ _ Hw Hne) as [Hne' ->]. specialize (Hp Hne'). lia.
  - exists msgs. split; try done; cbn [f_woken]. intros _. rewrite zlen_cons. specialize (Hf (asleep_nonempty _ _ _ Hx)). lia.
  - exists msgs. split; try done; cbn [p_woken]. intros _. rewrite zlen_cons. specialize (Hp (asleep_nonempty _ _ _ Hx)). lia.
Qed.

(** The places of a mailbox. *)
Definition places (size : Z) : Z := if 0 <? size then size else 32.

Lemma mbox_boot_inv size : mbox_inv (places size) (mbox_boot size) [].
Proof.
  split; try done; [|rewrite zlen_nil; unfold places; destruct (Z.ltb_spec 0 size); lia]. exists []. split; [|done]. split; [done|constructor| |done|done].
  intros a. cbn. rewrite lookup_empty. split; [by intros []|by intros ?%elem_of_nil].
Qed.

Lemma mbox_reachable size w : rtc mbox_step (mbox_boot size) w -> exists msgs, mbox_inv (places size) w msgs.
Proof.
  intros Hw. pose proof (mbox_boot_inv size) as H0. revert H0. generalize (@nil Z). induction Hw as [w|w w1 w2 H1 _ IH]; intros msgs Hi; [by exists msgs|].
  destruct (mbox_step_inv _ _ _ _ Hi H1) as [msgs' Hi']. by apply (IH msgs').
Qed.

Lemma drain_ok l : forall m q, nseg (mb_nodes m) q l None -> NoDup l.*1 -> (forall a, is_Some (mb_nodes m !! a) <-> a ∈ l.*1) ->
  exists m', drain (length l) q m = Done (tt, m') /\ mb_nodes m' = ∅.
Proof.
  induction l as [|[a v] l IH]; intros m q Hs Hnd Hn.
  - simpl in Hs. subst q. exists m. split; [done|]. apply map_eq. intros i. rewrite lookup_empty. destruct (mb_nodes m !! i) eqn:E; [|done].
    assert (i ∈ ([] : list (Z * Z)).*1) as Hi by (apply Hn; by eexists). by apply elem_of_nil in Hi.
  - destruct Hs as (-> & r & Ha & Hs). apply list.NoDup_cons in Hnd as [Hal Hnd]. cbn [length drain]. cbn [fst] in Hal.
    rewrite (bind_done _ _ _ _ _ (rd_node_ok _ _ _ Ha)), modify_bind. apply IH; [|done|].
    + eapply nseg_ext; [|exact Hs]. intros x Hx. apply lookup_delete_ne. by intros ->.
    + intros x. cbn [mb_nodes set_mb_nodes]. rewrite lookup_delete_is_Some, Hn, fmap_cons, elem_of_cons. cbn [fst]. split; [intuition congruence|].
      intros Hx. split; [by intros ->|by right].
Qed.

Lemma nseg_size m l : nodes_are m l -> length l = size (mb_nodes m).
Proof.
  intros [Hs Hnd Hn _ _]. rewrite <- (length_fmap fst), <- size_dom, <- (size_list_to_set (C := gset Z)) by done. f_equal. apply set_eq.
  intros a. rewrite elem_of_list_to_set, elem_of_dom. by rewrite Hn.
Qed.

(** C18: messages are fetched in the order they were posted, none is lost or made up, the
    box never holds more than its places, and freeing it frees every node. *)
Theorem mbox_fifo size w : rtc mbox_step (mbox_boot size) w ->
  exists msgs, holds_msgs (mb w) msgs /\ posted w = fetched w ++ msgs /\ zlen msgs <= places size /\
    exists m', sys_mbox_free (mb w) = Done (tt, m') /\ mb_nodes m' = ∅.
Proof.
  intros Hw. destruct (mbox_reachable _ _ Hw) as [msgs [Hm Hc Hb Hfifo _ _]]. exists msgs. split; [done|]. split; [done|]. split; [done|].
  destruct Hm as (l & Hl & _). pose proof (nseg_size _ _ Hl) as Hsz. destruct Hl as [Hs Hnd Hn _ _].
  unfold sys_mbox_free. rewrite get_bind, modify_bind, <- Hsz. set (m1 := Mbox _ _ _ _ _ _).
  destruct (drain_ok l m1 (mb_head (mb w)) Hs Hnd Hn) as (m2 & E2 & Hm2). rewrite (bind_done _ _ _ _ _ E2). by eexists.
Qed.

(** C19: no wake-up is lost.  When no woken thread is left to run, threads sleep in a fetch
    only while the box is empty, and in a post only while it is full; so never both. *)
Theorem mbox_no_lost_wakeup size w : rtc mbox_step (mbox_boot size) w ->
  (f_woken w = [] -> f_asleep w <> [] -> holds_msgs (mb w) []) /\
  (p_woken w = [] -> p_asleep w <> [] -> exists msgs, holds_msgs (mb w) msgs /\ zlen msgs = places size) /\
  (f_woken w = [] -> p_woken w = [] -> f_asleep w = [] \/ p_asleep w = []).
Proof.
  intros Hw. destruct (mbox_reachable _ _ Hw) as [msgs [Hm Hc Hb _ Hf Hp]]. assert (0 < places size) as Hpl by (unfold places; destruct (Z.ltb_spec 0 size); lia).
  assert (f_woken w = [] -> f_asleep w <> [] -> msgs = []) as H1.
  { intros E Hne. specialize (Hf Hne). rewrite E, zlen_nil in Hf. destruct msgs; [done|]. rewrite zlen_cons in Hf. pose proof (zlen_nonneg msgs). lia. }
  assert (p_woken w = [] -> p_asleep w <> [] -> zlen msgs = places size) as H2.
  { intros E Hne. specialize (Hp Hne). rewrite E, zlen_nil in Hp. lia. }
  split; [|split].
  - intros E Hne. by rewrite <- (H1 E Hne).
  - intros E Hne. exists msgs. split; [done|]. by apply H2.
  - intros E1 E2. destruct (f_asleep w) eqn:Ea; [by left|]. destruct (p_asleep w) eqn:Eb; [by right|].
    rewrite H1 in H2 by done. rewrite zlen_nil in H2. specialize (H2 E2 ltac:(done)). lia.
Qed.
End laws.

(** Nodes at consecutive addresses. *)
Definition node_malloc (nodes : gmap Z mbox_node) : option Z := Some (free_key nodes).

Lemma node_malloc_fresh nodes a : node_malloc nodes = Some a -> nodes !! a = None.
Proof. intros [= <-]. apply free_key_fresh. Qed.

(** A box with one place, and a message in it. *)
Definition one_message : mbox := Mbox 1 1 (Some 1) (Some 1) true {[1 := Node 7 None]}.

Lemma mbox_fifo_witness : exists w, mb w = one_message /\ exists m', sys_mbox_free (mb w) = Done (tt, m') /\ mb_nodes m' = ∅.
Proof.
  destruct (mbox_fifo node_malloc node_malloc_fresh 1 (MWorld one_message [] [] [] [] [7] [])) as (_ & _ & _ & _ & Hf).
  - eapply rtc_l; [|apply rtc_refl].
    apply (ms_post _ (sys_mbox_new 1) [] [] [] [] [] [] 1 7 true [] one_message); [constructor|vm_compute; reflexivity|by left].
  - exists (MWorld one_message [] [] [] [] [7] []). split; [reflexivity|exact Hf].
Defined.

(** A second post sleeps: the box is full. *)
Lemma mbox_no_lost_wakeup_witness : exists w, p_asleep w = [(2, 8)] /\ exists msgs, holds_msgs (mb w) msgs /\ zlen msgs = places 1.
Proof.
  destruct (mbox_no_lost_wakeup node_malloc node_malloc_fresh 1 (MWorld one_message [] [] [(2, 8)] [] [7] [])) as (_ & Hp & _).
  - apply (rtc_l _ _ (MWorld one_message [] [] [] [] [7] [])).
    { apply (ms_post _ (sys_mbox_new 1) [] [] [] [] [] [] 1 7 true [] one_message); [constructor|vm_compute; reflexivity|by left]. }
    eapply rtc_l; [|apply rtc_refl].
    apply (ms_post_sleep _ one_message [] [] [] [] [7] [] 2 8 true [] one_message); [constructor|vm_compute; reflexivity].
  - exists (MWorld one_message [] [] [(2, 8)] [] [7] []). split; [reflexivity|]. by apply Hp.
Defined.
