(* ===== verification/PppFsm.v ===== *)
(** * The option negotiation automaton of PPP

    netif/ppp/fsm.c: the state machine under LCP and IPCP.  The protocol above is a
    record of callbacks; below are the link (pppWrite) and the timers.  All of them work
    on one state that holds the struct fsm, [FsmHost]. *)

From S2P Require Import Prelude.

(** Link states. *)
Inductive ls_state : Set :=
| LS_INITIAL | LS_STARTING | LS_CLOSED | LS_STOPPED | LS_CLOSING | LS_STOPPING | LS_REQSENT | LS_ACKRCVD | LS_ACKSENT | LS_OPENED.

#[global] Instance ls_state_eq_dec : EqDecision ls_state.
Proof. solve_decision. Defined.

(** Codes of packets. *)
Definition CONFREQ : Z := 1.

Definition CONFACK : Z := 2.

Definition CONFNAK : Z := 3.

Definition CONFREJ : Z := 4.

Definition TERMREQ : Z := 5.

Definition TERMACK : Z := 6.

Definition CODEREJ : Z := 7.

Definition HEADERLEN : Z := 4.

(** Flags. *)
Definition OPT_PASSIVE : Z := 1.

Definition OPT_RESTART : Z := 2.

Definition OPT_SILENT : Z := 4.

(** Timeout in seconds, and numbers of transmissions. *)
Definition FSM_DEFTIMEOUT : Z := 6.

Definition FSM_DEFMAXCONFREQS : Z := 10.

Definition FSM_DEFMAXTERMREQS : Z := 2.

Definition FSM_DEFMAXNAKLOOPS : Z := 5.

(** struct fsm, the callbacks apart. *)
Record fsm := Fsm {
  protocol : Z;
  state : ls_state;
  flags : Z;
  id : Z;
  reqid : Z;
  seen_ack : bool;
  timeouttime : Z;
  maxconfreqtransmits : Z;
  retransmits : Z;
  maxtermtransmits : Z;
  nakloops : Z;
  maxnakloops : Z;
  term_reason : bytes
}.

Implicit Types (f : fsm).

Definition set_state v f : fsm := Fsm (protocol f) v (flags f) (id f) (reqid f) (seen_ack f) (timeouttime f) (maxconfreqtransmits f) (retransmits f) (maxtermtransmits f) (nakloops f) (maxnakloops f) (term_reason f).

Definition set_id v f : fsm := Fsm (protocol f) (state f) (flags f) v (reqid f) (seen_ack f) (timeouttime f) (maxconfreqtransmits f) (retransmits f) (maxtermtransmits f) (nakloops f) (maxnakloops f) (term_reason f).

Definition set_reqid v f : fsm := Fsm (protocol f) (state f) (flags f) (id f) v (seen_ack f) (timeouttime f) (maxconfreqtransmits f) (retransmits f) (maxtermtransmits f) (nakloops f) (maxnakloops f) (term_reason f).

Definition set_seen_ack v f : fsm := Fsm (protocol f) (state f) (flags f) (id f) (reqid f) v (timeouttime f) (maxconfreqtransmits f) (retransmits f) (maxtermtransmits f) (nakloops f) (maxnakloops f) (term_reason f).

Definition set_retransmits v f : fsm := Fsm (protocol f) (state f) (flags f) (id f) (reqid f) (seen_ack f) (timeouttime f) (maxconfreqtransmits f) v (maxtermtransmits f) (nakloops f) (maxnakloops f) (term_reason f).

Definition set_nakloops v f : fsm := Fsm (protocol f) (state f) (flags f) (id f) (reqid f) (seen_ack f) (timeouttime f) (maxconfreqtransmits f) (retransmits f) (maxtermtransmits f) v (maxnakloops f) (term_reason f).

Definition set_term_reason v f : fsm := Fsm (protocol f) (state f) (flags f) (id f) (reqid f) (seen_ack f) (timeouttime f) (maxconfreqtransmits f) (retransmits f) (maxtermtransmits f) (nakloops f) (maxnakloops f) v.

(** ** What is around the automaton *)

(** A state with the struct fsm in it; the calls of sys_timeout and sys_untimeout for
    fsm_timeout, pppWrite, and peer_mru of the unit. *)
Class FsmHost (S : Type) := {
  fh_get : S -> fsm;
  fh_set : fsm -> S -> S;
  fh_timeout : Z -> M S unit;
  fh_untimeout : M S unit;
  fh_write : bytes -> M S unit;
  fh_peer_mru : S -> Z
}.

(** struct fsm_callbacks; [None] is NULL.  addci gives the bytes it left in the packet,
    reqci the code, and the options as it left them. *)
Record fsm_callbacks (S : Type) := FsmCallbacks {
  resetci : option (M S unit);
  cilen : option (M S Z);
  addci : option (Z -> M S bytes);
  ackci : option (bytes -> M S Z);
  nakci : option (bytes -> M S Z);
  rejci : option (bytes -> M S Z);
  reqci : option (bytes -> bool -> M S (Z * bytes));
  up : option (M S unit);
  down : option (M S unit);
  starting : option (M S unit);
  finished : option (M S unit);
  retransmit : option (M S unit);
  extcode : option (Z -> Z -> bytes -> M S Z)
}.

Arguments FsmCallbacks {S}.
Arguments resetci {S}.
Arguments cilen {S}.
Arguments addci {S}.
Arguments ackci {S}.
Arguments nakci {S}.
Arguments rejci {S}.
Arguments reqci {S}.
Arguments up {S}.
Arguments down {S}.
Arguments starting {S}.
Arguments finished {S}.
Arguments retransmit {S}.
Arguments extcode {S}.

(** ** Operations *)

Section ops.
Context {S : Type} `{FsmHost S}.
Context (callbacks : fsm_callbacks S).

Definition getf : M S fsm := s ← get; mret (fh_get s).

Definition modf (g : fsm -> fsm) : M S unit := modify (fun s => fh_set (g (fh_get s)) s).

(** A callback that may be NULL. *)
Definition call_if (c : option (M S unit)) : M S unit := default (mret tt) c.

Definition UNTIMEOUT : M S unit := fh_untimeout.

Definition TIMEOUT (t : Z) : M S unit := fh_untimeout;; fh_timeout (t * 1000).

(** ++f->id *)
Definition next_id : M S Z := f ← getf; modf (set_id (u8 (id f + 1)));; mret (u8 (id f + 1)).

Definition fsm_init : M S unit :=
  modf (fun f => Fsm (protocol f) LS_INITIAL 0 0 (reqid f) (seen_ack f) FSM_DEFTIMEOUT FSM_DEFMAXCONFREQS (retransmits f) FSM_DEFMAXTERMREQS (nakloops f) FSM_DEFMAXNAKLOOPS []).

(** The packet of fsm_sdata, from the PPP header on. *)
Definition sdata_packet (protocol code id : Z) (data : bytes) : bytes :=
  let outlen := zlen data + HEADERLEN in
  [0xff; 0x03; u8 (Z.shiftr protocol 8); Z.land protocol 0xff; u8 code; u8 id; u8 (Z.shiftr outlen 8); Z.land outlen 0xff] ++ data.

Definition fsm_sdata (code id : Z) (data : bytes) : M S unit :=
  s ← get;
  let room := fh_peer_mru s - HEADERLEN in
  let data := if room <? zlen data then take (Z.to_nat room) data else data in
  fh_write (sdata_packet (protocol (fh_get s)) code id data).

Definition fsm_sconfreq (again : bool) : M S unit :=
  f ← getf;
  (match state f with
   | LS_REQSENT | LS_ACKRCVD | LS_ACKSENT => mret tt
   | _ => call_if (resetci callbacks);; modf (set_nakloops 0)
   end);;
  (if again then mret tt
   else
     f ← getf;
     modf (set_retransmits (maxconfreqtransmits f));;
     i ← next_id;
     modf (set_reqid i));;
  modf (set_seen_ack false);;
  ci ← match cilen callbacks, addci callbacks with
       | Some cilen, Some addci =>
           n ← cilen;
           s ← get;
           addci (Z.min n (fh_peer_mru s - HEADERLEN))
       | _, _ => mret []
       end;
  f ← getf;
  fsm_sdata CONFREQ (reqid f) ci;;
  modf (fun f => set_retransmits (retransmits f - 1) f);;
  TIMEOUT (timeouttime f).

(** Terminate-Request with a new identifier; the timer; one transmission less. *)
Definition send_termreq : M S unit :=
  i ← next_id;
  modf (set_reqid i);;
  f ← getf;
  fsm_sdata TERMREQ i (term_reason f);;
  TIMEOUT (timeouttime f);;
  modf (fun f => set_retransmits (retransmits f - 1) f).

Definition fsm_lowerup : M S unit :=
  f ← getf;
  match state f with
  | LS_INITIAL => modf (set_state LS_CLOSED)
  | LS_STARTING =>
      if nz (Z.land (flags f) OPT_SILENT) then modf (set_state LS_STOPPED)
      else fsm_sconfreq false;; modf (set_state LS_REQSENT)
  | _ => mret tt
  end.

Definition fsm_lowerdown : M S unit :=
  f ← getf;
  match state f with
  | LS_CLOSED => modf (set_state LS_INITIAL)
  | LS_STOPPED => modf (set_state LS_STARTING);; call_if (starting callbacks)
  | LS_CLOSING => modf (set_state LS_INITIAL);; UNTIMEOUT
  | LS_STOPPING | LS_REQSENT | LS_ACKRCVD | LS_ACKSENT => modf (set_state LS_STARTING);; UNTIMEOUT
  | LS_OPENED => call_if (down callbacks);; modf (set_state LS_STARTING)
  | _ => mret tt
  end.

Definition fsm_open : M S unit :=
  f ← getf;
  let restart := if nz (Z.land (flags f) OPT_RESTART) then fsm_lowerdown;; fsm_lowerup else mret tt in
  match state f with
  | LS_INITIAL => modf (set_state LS_STARTING);; call_if (starting callbacks)
  | LS_CLOSED =>
      if nz (Z.land (flags f) OPT_SILENT) then modf (set_state LS_STOPPED)
      else fsm_sconfreq false;; modf (set_state LS_REQSENT)
  | LS_CLOSING => modf (set_state LS_STOPPING);; restart
  | LS_STOPPED | LS_OPENED => restart
  | _ => mret tt
  end.

Definition fsm_close (reason : bytes) : M S unit :=
  modf (set_term_reason reason);;
  f ← getf;
  match state f with
  | LS_STARTING => modf (set_state LS_INITIAL)
  | LS_STOPPED => modf (set_state LS_CLOSED)
  | LS_STOPPING => modf (set_state LS_CLOSING)
  | LS_REQSENT | LS_ACKRCVD | LS_ACKSENT | LS_OPENED =>
      (if bool_decide (state f = LS_OPENED) then call_if (down callbacks) else UNTIMEOUT);;
      modf (fun f => set_retransmits (maxtermtransmits f) f);;
      send_termreq;;
      modf (set_state LS_CLOSING)
  | _ => mret tt
  end.

Definition fsm_timeout : M S unit :=
  f ← getf;
  match state f with
  | LS_CLOSING | LS_STOPPING =>
      if retransmits f <=? 0 then
        modf (set_state (if bool_decide (state f = LS_CLOSING) then LS_CLOSED else LS_STOPPED));;
        call_if (finished callbacks)
      else send_termreq
  | LS_REQSENT | LS_ACKRCVD | LS_ACKSENT =>
      if retransmits f <=? 0 then
        modf (set_state LS_STOPPED);;
        if nz (Z.land (flags f) OPT_PASSIVE) then mret tt else call_if (finished callbacks)
      else
        call_if (retransmit callbacks);;
        fsm_sconfreq true;;
        f ← getf;
        if bool_decide (state f = LS_ACKRCVD) then modf (set_state LS_REQSENT) else mret tt
  | _ => mret tt
  end.

(** fsm_rconfreq once its switch has let the request through: the protocol's verdict on the
    options, and the answer. *)
Definition answer_confreq (id : Z) (inp : bytes) : M S unit :=
  f ← getf;
  r ← match reqci callbacks with
      | Some reqci => reqci inp (maxnakloops f <=? nakloops f)
      | None => mret (if zlen inp =? 0 then CONFACK else CONFREJ, inp)
      end;
  let code := r.1 in
  fsm_sdata code id r.2;;
  f ← getf;
  if code =? CONFACK then
    (if bool_decide (state f = LS_ACKRCVD) then UNTIMEOUT;; modf (set_state LS_OPENED);; call_if (up callbacks)
     else modf (set_state LS_ACKSENT));;
    modf (set_nakloops 0)
  else
    (if bool_decide (state f = LS_ACKRCVD) then mret tt else modf (set_state LS_REQSENT));;
    if code =? CONFNAK then modf (fun f => set_nakloops (nakloops f + 1) f) else mret tt.

Definition fsm_rconfreq (id : Z) (inp : bytes) : M S unit :=
  f ← getf;
  match state f with
  | LS_CLOSED => fsm_sdata TERMACK id []
  | LS_CLOSING | LS_STOPPING => mret tt
  | LS_OPENED => call_if (down callbacks);; fsm_sconfreq false;; answer_confreq id inp
  | LS_STOPPED => fsm_sconfreq false;; modf (set_state LS_REQSENT);; answer_confreq id inp
  | _ => answer_confreq id inp
  end.

Definition fsm_rconfack (id : Z) (inp : bytes) : M S unit :=
  f ← getf;
  if negb (id =? reqid f) || seen_ack f then mret tt
  else
    ok ← match ackci callbacks with
         | Some ackci => r ← ackci inp; mret (nz r)
         | None => mret (zlen inp =? 0)
         end;
    if negb ok then mret tt
    else
      modf (set_seen_ack true);;
      f ← getf;
      match state f with
      | LS_CLOSED | LS_STOPPED => fsm_sdata TERMACK id []
      | LS_REQSENT => modf (set_state LS_ACKRCVD);; modf (fun f => set_retransmits (maxconfreqtransmits f) f)
      | LS_ACKRCVD => UNTIMEOUT;; fsm_sconfreq false;; modf (set_state LS_REQSENT)
      | LS_ACKSENT =>
          UNTIMEOUT;; modf (set_state LS_OPENED);; modf (fun f => set_retransmits (maxconfreqtransmits f) f);; call_if (up callbacks)
      | LS_OPENED => call_if (down callbacks);; fsm_sconfreq false;; modf (set_state LS_REQSENT)
      | _ => mret tt
      end.

Definition fsm_rconfnakrej (code id : Z) (inp : bytes) : M S unit :=
  f ← getf;
  if negb (id =? reqid f) || seen_ack f then mret tt
  else
    ret ← match (if code =? CONFNAK then nakci callbacks else rejci callbacks) with
          | Some proc => proc inp
          | None => mret 0
          end;
    if ret =? 0 then mret tt
    else
      modf (set_seen_ack true);;
      f ← getf;
      match state f with
      | LS_CLOSED | LS_STOPPED => fsm_sdata TERMACK id []
      | LS_REQSENT | LS_ACKSENT => UNTIMEOUT;; if ret <? 0 then modf (set_state LS_STOPPED) else fsm_sconfreq false
      | LS_ACKRCVD => UNTIMEOUT;; fsm_sconfreq false;; modf (set_state LS_REQSENT)
      | LS_OPENED => call_if (down callbacks);; fsm_sconfreq false;; modf (set_state LS_REQSENT)
      | _ => mret tt
      end.

Definition fsm_rtermreq (id : Z) : M S unit :=
  f ← getf;
  match state f with
  | LS_ACKRCVD | LS_ACKSENT => modf (set_state LS_REQSENT)
  | LS_OPENED =>
      call_if (down callbacks);;
      modf (set_retransmits 0);;
      modf (set_state LS_STOPPING);;
      f ← getf;
      TIMEOUT (timeouttime f)
  | _ => mret tt
  end;;
  fsm_sdata TERMACK id [].

Definition fsm_rtermack : M S unit :=
  f ← getf;
  match state f with
  | LS_CLOSING => UNTIMEOUT;; modf (set_state LS_CLOSED);; call_if (finished callbacks)
  | LS_STOPPING => UNTIMEOUT;; modf (set_state LS_STOPPED);; call_if (finished callbacks)
  | LS_ACKRCVD => modf (set_state LS_REQSENT)
  | LS_OPENED => call_if (down callbacks);; fsm_sconfreq false
  | _ => mret tt
  end.

Definition fsm_rcoderej (inp : bytes) : M S unit :=
  if zlen inp <? HEADERLEN then mret tt
  else
    f ← getf;
    if bool_decide (state f = LS_ACKRCVD) then modf (set_state LS_REQSENT) else mret tt.

Definition fsm_protreject : M S unit :=
  f ← getf;
  match state f with
  | LS_CLOSING => UNTIMEOUT;; modf (set_state LS_CLOSED);; call_if (finished callbacks)
  | LS_CLOSED => modf (set_state LS_CLOSED);; call_if (finished callbacks)
  | LS_STOPPING | LS_REQSENT | LS_ACKRCVD | LS_ACKSENT => UNTIMEOUT;; modf (set_state LS_STOPPED);; call_if (finished callbacks)
  | LS_STOPPED => modf (set_state LS_STOPPED);; call_if (finished callbacks)
  | LS_OPENED =>
      call_if (down callbacks);;
      modf (fun f => set_retransmits (maxtermtransmits f) f);;
      send_termreq;;
      modf (set_state LS_STOPPING)
  | _ => mret tt
  end.

(** The switch on the code. *)
Definition fsm_dispatch (code id : Z) (inp inpacket : bytes) : M S unit :=
  if code =? CONFREQ then fsm_rconfreq id inp
  else if code =? CONFACK then fsm_rconfack id inp
  else if (code =? CONFNAK) || (code =? CONFREJ) then fsm_rconfnakrej code id inp
  else if code =? TERMREQ then fsm_rtermreq id
  else if code =? TERMACK then fsm_rtermack
  else if code =? CODEREJ then fsm_rcoderej inp
  else
    r ← match extcode callbacks with Some extcode => extcode code id inp | None => mret 0 end;
    if r =? 0 then i ← next_id; fsm_sdata CODEREJ i inpacket else mret tt.

Definition fsm_input (inpacket : bytes) : M S unit :=
  match inpacket with
  | code :: id :: l1 :: l0 :: inp =>
      let len := Z.lor (Z.shiftl l1 8) l0 in
      if (len <? HEADERLEN) || (zlen inpacket <? len) then mret tt
      else
        f ← getf;
        match state f with
        | LS_INITIAL | LS_STARTING => mret tt
        | _ => fsm_dispatch code id (take (Z.to_nat (len - HEADERLEN)) inp) (take (Z.to_nat len) inpacket)
        end
  | _ => mret tt
  end.
End ops.
