(* ===== verification/PppFsmSpec.v ===== *)
(** * What the automaton promises

    When its timer runs, that it gives up on a silent peer, and that it takes the
    transitions of RFC 1661, two of them apart. *)

From S2P Require Import Prelude PppFsm.

(** The timer runs in these states. *)
Definition timed (st : ls_state) : bool :=
  match st with
  | LS_CLOSING | LS_STOPPING | LS_REQSENT | LS_ACKRCVD | LS_ACKSENT => true
  | _ => false
  end.

(** Packets are looked at in these. *)
Definition takes_packets (st : ls_state) : bool :=
  match st with LS_INITIAL | LS_STARTING => false | _ => true end.

(** Identifiers are bytes. *)
Definition typed f : Prop := is_u8 (id f) /\ is_u8 (reqid f).

(** The fields a call does not change but for fsm_init. *)
Definition same_limits f f' : Prop :=
  flags f' = flags f /\ timeouttime f' = timeouttime f /\ maxconfreqtransmits f' = maxconfreqtransmits f /\
  maxtermtransmits f' = maxtermtransmits f.

(** What the automaton relies on: a timeout is pending or not, and only the calls for it
    change that. *)
Class FsmHostSpec (S : Type) `{FsmHost S} := {
  fh_inv : S -> Prop;
  armed : S -> bool;
  fh_get_set f s : fh_get (fh_set f s) = f;
  fh_set_inv f s : fh_inv s -> fh_inv (fh_set f s);
  fh_set_armed f s : armed (fh_set f s) = armed s;
  fh_untimeout_ok s : fh_inv s ->
    wp fh_untimeout s (fun _ s' => fh_inv s' /\ fh_get s' = fh_get s /\ armed s' = false);
  fh_timeout_ok s t : fh_inv s -> armed s = false ->
    wp (fh_timeout t) s (fun _ s' => fh_inv s' /\ fh_get s' = fh_get s /\ armed s' = true);
  fh_write_ok s bs : fh_inv s ->
    wp (fh_write bs) s (fun _ s' => fh_inv s' /\ fh_get s' = fh_get s /\ armed s' = armed s)
}.

Section spec.
Context {S : Type} `{FsmHostSpec S}.
Context (callbacks : fsm_callbacks S).
Implicit Types (s : S).

(** The struct is [f], and the timer is pending or not. *)
Definition holds_fsm s f (b : bool) : Prop := fh_inv s /\ fh_get s = f /\ armed s = b.

(** A callback that returns and leaves this automaton and its timer alone. *)
Definition polite {B} (c : M S B) : Prop := forall s f b, holds_fsm s f b -> wp c s (fun _ s' => holds_fsm s' f b).

(** The timer is pending exactly in the states that have one. *)
Definition fsm_ok s : Prop := exists f, typed f /\ holds_fsm s f (timed (state f)).

(** A callback that may call this automaton again: it returns, and leaves the timer pending
    exactly in the states that have one if it finds it so. *)
Definition sound {B} (c : M S B) : Prop := forall s, fsm_ok s -> wp c s (fun _ s' => fsm_ok s').

(** Callbacks that are asked in the middle of a step leave the automaton alone.  The others
    may call it: lcp_nakci and lcp_up close the connection, lcp_extcode passes a
    Protocol-Reject to fsm_protreject, and ipcp_finished closes the link, which takes
    IPCP down. *)
Record good_callbacks : Prop := GoodCallbacks {
  gc_resetci c : resetci callbacks = Some c -> polite c;
  gc_cilen c : cilen callbacks = Some c -> polite c;
  gc_addci c n : addci callbacks = Some c -> polite (c n);
  gc_reqci c bs r : reqci callbacks = Some c -> polite (c bs r);
  gc_down c : down callbacks = Some c -> polite c;
  gc_retransmit c : retransmit callbacks = Some c -> polite c;
  gc_ackci c bs : ackci callbacks = Some c -> sound (c bs);
  gc_nakci c bs : nakci callbacks = Some c -> sound (c bs);
  gc_rejci c bs : rejci callbacks = Some c -> sound (c bs);
  gc_up c : up callbacks = Some c -> sound c;
  gc_starting c : starting callbacks = Some c -> sound c;
  gc_finished c : finished callbacks = Some c -> sound c;
  gc_extcode c code id bs : extcode callbacks = Some c -> sound (c code id bs)
}.

Context (good : good_callbacks).

(** ** Steps *)

Lemma wp_getf s f b (Q : fsm -> S -> Prop) : holds_fsm s f b -> Q f s -> wp getf s Q.
Proof. intros (_ & Hf & _) HQ. unfold getf. wp_step. wp_step. wp_step. by rewrite Hf. Qed.

Lemma wp_modf g s f b (Q : unit -> S -> Prop) : holds_fsm s f b -> (forall s', holds_fsm s' (g f) b -> Q tt s') -> wp (modf g) s Q.
Proof.
  intros (Hi & Hf & Hb) HQ. unfold modf. wp_step. apply HQ. rewrite Hf.
  split; [by apply fh_set_inv|]. split; [apply fh_get_set|]. by rewrite fh_set_armed.
Qed.

Lemma wp_polite {B} (c : M S B) s f b (Q : B -> S -> Prop) : polite c -> holds_fsm s f b -> (forall v s', holds_fsm s' f b -> Q v s') -> wp c s Q.
Proof. intros Hc Hs HQ. eapply wp_mono; [by apply Hc|]. auto. Qed.

Lemma wp_call_if c s f b (Q : unit -> S -> Prop) : (forall m, c = Some m -> polite m) -> holds_fsm s f b ->
  (forall s', holds_fsm s' f b -> Q tt s') -> wp (call_if c) s Q.
Proof.
  intros Hc Hs HQ. destruct c as [m|]; cbn [call_if default]; [|wp_step; by apply HQ].
  eapply wp_polite; [by apply Hc|exact Hs|]. intros []. apply HQ.
Qed.

(** The last thing a call does may be such a callback. *)
Lemma wp_call_sound c s : (forall m, c = Some m -> sound m) -> fsm_ok s -> wp (call_if c) s (fun _ s' => fsm_ok s').
Proof. intros Hc Hs. destruct c as [m|]; cbn [call_if default]; [by apply Hc|by wp_step]. Qed.

Lemma wp_untimeout s f b (Q : unit -> S -> Prop) : holds_fsm s f b -> (forall s', holds_fsm s' f false -> Q tt s') -> wp UNTIMEOUT s Q.
Proof.
  intros (Hi & Hf & Hb) HQ. eapply wp_mono; [by apply fh_untimeout_ok|]. intros [] s' (Hi' & Hf' & Hb'). apply HQ.
  split; [done|]. split; [congruence|done].
Qed.

Lemma wp_timeout t s f b (Q : unit -> S -> Prop) : holds_fsm s f b -> (forall s', holds_fsm s' f true -> Q tt s') -> wp (TIMEOUT t) s Q.
Proof.
  intros Hs HQ. unfold TIMEOUT. wp_step. eapply wp_untimeout; [exact Hs|]. intros s1 (Hi & Hf & Hb).
  eapply wp_mono; [by apply fh_timeout_ok|]. intros [] s' (Hi' & Hf' & Hb'). apply HQ. split; [done|]. split; [congruence|done].
Qed.

Lemma wp_sdata code i data s f b (Q : unit -> S -> Prop) : holds_fsm s f b -> (forall s', holds_fsm s' f b -> Q tt s') -> wp (fsm_sdata code i data) s Q.
Proof.
  intros (Hi & Hf & Hb) HQ. unfold fsm_sdata. wp_step. wp_step. cbv zeta. eapply wp_mono; [by apply fh_write_ok|].
  intros [] s' (Hi' & Hf' & Hb'). apply HQ. split; [done|]. split; congruence.
Qed.

Lemma wp_next_id s f b (Q : Z -> S -> Prop) : holds_fsm s f b -> (forall s', holds_fsm s' (set_id (u8 (id f + 1)) f) b -> Q (u8 (id f + 1)) s') -> wp next_id s Q.
Proof.
  intros Hs HQ. unfold next_id. wp_step. eapply wp_getf; [exact Hs|]. wp_step. eapply wp_modf; [exact Hs|]. intros s' Hs'. wp_step. by apply HQ.
Qed.

(** A Configure-Request: the timer is pending, the counter one less, the state the same. *)
Lemma wp_sconfreq (again : bool) s f b (Q : unit -> S -> Prop) : holds_fsm s f b -> typed f ->
  (forall s' f', holds_fsm s' f' true -> typed f' -> state f' = state f -> same_limits f f' ->
    retransmits f' = (if again then retransmits f else maxconfreqtransmits f) - 1 -> Q tt s') ->
  wp (fsm_sconfreq callbacks again) s Q.
Proof.
  intros Hs Ht HQ. unfold fsm_sconfreq. wp_step. eapply wp_getf; [exact Hs|]. wp_step.
  apply (wp_mono _ _ (fun _ s' => exists n, holds_fsm s' (set_nakloops n f) b)).
  { assert (wp (call_if (resetci callbacks);; modf (set_nakloops 0)) s (fun _ s' => exists n, holds_fsm s' (set_nakloops n f) b)) as Hr.
    { wp_step. eapply wp_call_if; [apply (gc_resetci good)|exact Hs|]. intros s1 Hs1. eapply wp_modf; [exact Hs1|]. intros s2 Hs2. by exists 0. }
    destruct (state f); try exact Hr; wp_step; exists (nakloops f); by destruct f. }
  intros [] s1 [n Hs1]. wp_step.
  apply (wp_mono _ _ (fun _ s' => exists f', holds_fsm s' f' b /\ typed f' /\ state f' = state f /\ same_limits f f' /\
    retransmits f' = if again then retransmits f else maxconfreqtransmits f)).
  { destruct again; [wp_step; by exists (set_nakloops n f)|]. wp_step. eapply wp_getf; [exact Hs1|]. wp_step. eapply wp_modf; [exact Hs1|]. intros s2 Hs2.
    wp_step. eapply wp_next_id; [exact Hs2|]. intros s3 Hs3. eapply wp_modf; [exact Hs3|]. intros s4 Hs4. eexists. split; [exact Hs4|].
    split; [split; apply u8_range|]. done. }
  intros [] s2 (f2 & Hs2 & Ht2 & Hst & Hl & Hr). wp_step. eapply wp_modf; [exact Hs2|]. intros s3 Hs3. wp_step.
  apply (wp_mono _ _ (fun _ s' => holds_fsm s' (set_seen_ack false f2) b)).
  { destruct (cilen callbacks) as [cl|] eqn:E1; [|by wp_step]. destruct (addci callbacks) as [ac|] eqn:E2; [|by wp_step].
    wp_step. eapply wp_polite; [by apply (gc_cilen good)|exact Hs3|]. intros v s4 Hs4. wp_step. wp_step. by eapply (gc_addci good). }
  intros ci s4 Hs4. wp_step. eapply wp_getf; [exact Hs4|]. wp_step. eapply wp_sdata; [exact Hs4|]. intros s5 Hs5.
  wp_step. eapply wp_modf; [exact Hs5|]. intros s6 Hs6. eapply wp_timeout; [exact Hs6|]. intros s7 Hs7.
  eapply HQ; [exact Hs7|done|done|done|]. cbn. by rewrite Hr.
Qed.

Lemma wp_send_termreq s f b (Q : unit -> S -> Prop) : holds_fsm s f b ->
  (forall s' f', holds_fsm s' f' true -> typed f' -> state f' = state f -> same_limits f f' -> retransmits f' = retransmits f - 1 -> Q tt s') ->
  wp send_termreq s Q.
Proof.
  intros Hs HQ. unfold send_termreq. wp_step. eapply wp_next_id; [exact Hs|]. intros s1 Hs1. wp_step. eapply wp_modf; [exact Hs1|]. intros s2 Hs2.
  wp_step. eapply wp_getf; [exact Hs2|]. wp_step. eapply wp_sdata; [exact Hs2|]. intros s3 Hs3. wp_step. eapply wp_timeout; [exact Hs3|]. intros s4 Hs4.
  eapply wp_modf; [exact Hs4|]. intros s5 Hs5. eapply HQ; [exact Hs5| |done|done|done]. split; apply u8_range.
Qed.

Lemma ok_intro s f b : holds_fsm s f b -> typed f -> b = timed (state f) -> fsm_ok s.
Proof. intros Hs Ht ->. by exists f. Qed.

Ltac typed_tac := solve [assumption | split; cbn; first [assumption | apply u8_range | match goal with Ht : typed _ |- _ => apply Ht end] | match goal with Ht : typed _ |- _ => exact Ht end].

(** A step of the automaton, from a state known as [holds_fsm]. *)
Ltac fsm_step :=
  lazymatch goal with
  | Hs : holds_fsm ?s _ _ |- wp _ ?s _ =>
      first
        [ wp_step
        | eapply wp_getf; [exact Hs|]
        | eapply wp_modf; [exact Hs|]
        | eapply wp_untimeout; [exact Hs|]
        | eapply wp_timeout; [exact Hs|]
        | eapply wp_sdata; [exact Hs|]
        | eapply wp_next_id; [exact Hs|]
        | eapply wp_send_termreq; [exact Hs|]
        | eapply wp_sconfreq; [exact Hs|typed_tac|]
        | eapply wp_call_if; [apply good|exact Hs|] ]; intros
  end.

Ltac states_tac := cbn in *; repeat match goal with Hst : state _ = _ |- _ => rewrite Hst; clear Hst end; done.

(** The end of a call: the state is known, and so is the timer. *)
Ltac fsm_done :=
  eapply ok_intro; [eassumption|typed_tac|states_tac].

Ltac fsm_run := repeat (fsm_step || case_match); try first [fsm_done | apply wp_call_sound; [apply good|fsm_done]].

Lemma lowerup_ok s : fsm_ok s -> wp (fsm_lowerup callbacks) s (fun _ s' => fsm_ok s').
Proof. intros (f & Ht & Hs). unfold fsm_lowerup. fsm_step. fsm_step. destruct (state f) eqn:Est; fsm_run. Qed.

Lemma lowerdown_ok s : fsm_ok s -> wp (fsm_lowerdown callbacks) s (fun _ s' => fsm_ok s').
Proof. intros (f & Ht & Hs). unfold fsm_lowerdown. fsm_step. fsm_step. destruct (state f) eqn:Est; fsm_run. Qed.
Lemma open_ok s : fsm_ok s -> wp (fsm_open callbacks) s (fun _ s' => fsm_ok s').
Proof.
  intros (f & Ht & Hs). unfold fsm_open. fsm_step. fsm_step. cbv zeta.
  assert (forall s', fsm_ok s' -> wp (if nz (Z.land (flags f) OPT_RESTART) then fsm_lowerdown callbacks;; fsm_lowerup callbacks else mret tt) s' (fun _ s' => fsm_ok s')) as Hr.
  { intros s' Hs'. case_match; [|by wp_step]. wp_step. eapply wp_mono; [by apply lowerdown_ok|]. intros [] s1 Hs1. by apply lowerup_ok. }
  destruct (state f) eqn:Est; try (apply Hr; fsm_done); try solve [fsm_run].
  fsm_step. fsm_step. apply Hr. fsm_done.
Qed.

Lemma close_ok reason s : fsm_ok s -> wp (fsm_close callbacks reason) s (fun _ s' => fsm_ok s').
Proof.
  intros (f & Ht & Hs). unfold fsm_close. fsm_step. fsm_step. fsm_step. fsm_step. cbn [state set_term_reason].
  destruct (state f) eqn:Est; cbn [bool_decide decide]; try solve [fsm_run].
  all: fsm_step; case_bool_decide; try congruence; fsm_run.
Qed.

Lemma protreject_ok s : fsm_ok s -> wp (fsm_protreject callbacks) s (fun _ s' => fsm_ok s').
Proof. intros (f & Ht & Hs). unfold fsm_protreject. fsm_step. fsm_step. destruct (state f) eqn:Est; fsm_run. Qed.

(** When the timer goes off, it is no longer pending. *)
Definition goes_off s : Prop := exists f, typed f /\ holds_fsm s f false /\ timed (state f) = true.

Lemma timeout_ok s : goes_off s -> wp (fsm_timeout callbacks) s (fun _ s' => fsm_ok s').
Proof.
  intros (f & Ht & Hs & Htm). unfold fsm_timeout. fsm_step. fsm_step. destruct (state f) eqn:Est; try done.
  all: case_match; fsm_run.
Qed.
Lemma nakloops_ok n s : fsm_ok s -> wp (modf (set_nakloops n)) s (fun _ s' => fsm_ok s').
Proof. intros (f & Ht & Hs). fsm_run. Qed.

(** The protocol's answer to a Configure-Request. *)
Lemma wp_reqci inp s f b (Q : Z * bytes -> S -> Prop) : holds_fsm s f b -> (forall r s', holds_fsm s' f b -> Q r s') ->
  wp (match reqci callbacks with
      | Some reqci => reqci inp (maxnakloops f <=? nakloops f)
      | None => mret (if zlen inp =? 0 then CONFACK else CONFREJ, inp)
      end) s Q.
Proof.
  intros Hs HQ. destruct (reqci callbacks) as [c|] eqn:Hc; [|wp_step; by apply HQ].
  eapply wp_polite; [by eapply gc_reqci|exact Hs|done].
Qed.

Lemma answer_confreq_ok i inp s f : holds_fsm s f true -> typed f -> wp (answer_confreq callbacks i inp) s (fun _ s' => fsm_ok s').
Proof.
  intros Hs Ht. unfold answer_confreq. fsm_step. fsm_step. fsm_step. eapply wp_reqci; [exact Hs|]. intros [code opts] s1 Hs1. cbv zeta. cbn [fst snd].
  fsm_step. fsm_step. fsm_step. fsm_step. case_match.
  - fsm_step. apply (wp_mono _ _ (fun _ s' => fsm_ok s')); [|by intros [] s3; apply nakloops_ok].
    case_bool_decide; [|fsm_run]. fsm_step. fsm_step. fsm_step. fsm_step. apply wp_call_sound; [apply good|fsm_done].
  - fsm_step. case_bool_decide; repeat (fsm_step || case_match); fsm_done.
Qed.

Lemma rconfreq_ok i inp s : fsm_ok s -> takes_packets (state (fh_get s)) = true -> wp (fsm_rconfreq callbacks i inp) s (fun _ s' => fsm_ok s').
Proof.
  intros (f & Ht & Hs) Hn. assert (fh_get s = f) as Hf by apply Hs. rewrite Hf in Hn. unfold fsm_rconfreq. fsm_step. fsm_step.
  destruct (state f) eqn:Est; try done; try solve [fsm_run].
  all: repeat fsm_step; eapply answer_confreq_ok; [eassumption|typed_tac].
Qed.
Definition negotiates s : Prop := fsm_ok s /\ takes_packets (state (fh_get s)) = true.

Lemma negotiates_open s : negotiates s -> exists f, typed f /\ holds_fsm s f (timed (state f)) /\ takes_packets (state f) = true.
Proof. intros [(f & Ht & Hs) Hn]. exists f. split; [done|]. split; [done|]. by destruct Hs as (_ & <- & _). Qed.

(** The verdict on an answer. *)
Lemma rconfack_ok i inp s : negotiates s -> wp (fsm_rconfack callbacks i inp) s (fun _ s' => fsm_ok s').
Proof.
  intros (f & Ht & Hs & Hn)%negotiates_open. unfold fsm_rconfack. fsm_step. fsm_step. case_match; [fsm_run|]. fsm_step.
  apply (wp_mono _ _ (fun _ s' => fsm_ok s')).
  { destruct (ackci callbacks) as [c|] eqn:Hc; [|wp_step; fsm_done]. wp_step. eapply wp_mono; [apply (gc_ackci good c inp Hc); fsm_done|]. intros. by wp_step. }
  clear Ht Hs Hn. intros ok s1 (f1 & Ht & Hs). destruct ok; cbn [negb]; [|fsm_run]. fsm_step. fsm_step. fsm_step. fsm_step. cbn [state set_seen_ack] in *.
  destruct (state f1) eqn:Est; try done; fsm_run.
Qed.

Lemma rconfnakrej_ok code i inp s : negotiates s -> wp (fsm_rconfnakrej callbacks code i inp) s (fun _ s' => fsm_ok s').
Proof.
  intros (f & Ht & Hs & Hn)%negotiates_open. unfold fsm_rconfnakrej. fsm_step. fsm_step. case_match; [fsm_run|]. fsm_step.
  apply (wp_mono _ _ (fun _ s' => fsm_ok s')).
  { destruct (code =? CONFNAK); [destruct (nakci callbacks) as [c|] eqn:Hc|destruct (rejci callbacks) as [c|] eqn:Hc]; try (wp_step; fsm_done).
    - apply (gc_nakci good c inp Hc). fsm_done. - apply (gc_rejci good c inp Hc). fsm_done. }
  clear Ht Hs Hn. intros ret s1 (f1 & Ht & Hs). case_match; [fsm_run|]. fsm_step. fsm_step. fsm_step. fsm_step. cbn [state set_seen_ack] in *.
  destruct (state f1) eqn:Est; try done; fsm_run.
Qed.

Lemma rtermreq_ok i s : negotiates s -> wp (fsm_rtermreq callbacks i) s (fun _ s' => fsm_ok s').
Proof. intros (f & Ht & Hs & Hn)%negotiates_open. unfold fsm_rtermreq. fsm_step. fsm_step. destruct (state f) eqn:Est; fsm_run. Qed.

Lemma rtermack_ok s : negotiates s -> state (fh_get s) <> LS_OPENED -> wp (fsm_rtermack callbacks) s (fun _ s' => fsm_ok s').
Proof.
  intros (f & Ht & Hs & Hn)%negotiates_open Ho. assert (fh_get s = f) as Hf by apply Hs. rewrite Hf in Ho.
  unfold fsm_rtermack. fsm_step. fsm_step. destruct (state f) eqn:Est; try done; fsm_run.
Qed.

Lemma rcoderej_ok inp s : negotiates s -> wp (fsm_rcoderej inp) s (fun _ s' => fsm_ok s').
Proof. intros (f & Ht & Hs & Hn)%negotiates_open. unfold fsm_rcoderej. case_match; [wp_step; fsm_done|]. fsm_step. fsm_step. case_bool_decide as Est; fsm_run. Qed.

Lemma unknown_code_ok code i inp packet s : negotiates s ->
  wp (r ← match extcode callbacks with Some extcode => extcode code i inp | None => mret 0 end;
      if r =? 0 then i ← next_id; fsm_sdata CODEREJ i packet else mret tt) s (fun _ s' => fsm_ok s').
Proof.
  intros (f & Ht & Hs & Hn)%negotiates_open. fsm_step. apply (wp_mono _ _ (fun _ s' => fsm_ok s')).
  { destruct (extcode callbacks) as [c|] eqn:Hc; [|wp_step; fsm_done]. apply (gc_extcode good c code i inp Hc). fsm_done. }
  clear Ht Hs Hn. intros r s1 (f1 & Ht & Hs). fsm_run.
Qed.

(** A Terminate-Ack for a connection that is open. *)
Definition stray_termack (packet : bytes) s : Prop := head packet = Some TERMACK /\ state (fh_get s) = LS_OPENED.

Lemma input_ok packet s : fsm_ok s -> ~ stray_termack packet s -> wp (fsm_input callbacks packet) s (fun _ s' => fsm_ok s').
Proof.
  intros Hok Hstray. unfold fsm_input. destruct packet as [|code [|i [|l1 [|l0 inp]]]]; try by wp_step. cbv zeta.
  case_match; [by wp_step|]. pose proof Hok as (f & Ht & Hs). assert (fh_get s = f) as Hf by apply Hs. fsm_step. fsm_step.
  assert (takes_packets (state f) = true -> wp (fsm_dispatch callbacks code i (take (Z.to_nat (Z.lor (Z.shiftl l1 8) l0 - HEADERLEN)) inp)
    (take (Z.to_nat (Z.lor (Z.shiftl l1 8) l0)) (code :: i :: l1 :: l0 :: inp))) s (fun _ s' => fsm_ok s')) as Hd.
  { intros Hn. assert (negotiates s) as Hg by (split; [done|congruence]). unfold fsm_dispatch.
    destruct (code =? CONFREQ); [by apply rconfreq_ok; [|apply Hg]|]. destruct (code =? CONFACK); [by apply rconfack_ok|].
    destruct ((code =? CONFNAK) || (code =? CONFREJ)); [by apply rconfnakrej_ok|]. destruct (code =? TERMREQ); [by apply rtermreq_ok|].
    destruct (Z.eqb_spec code TERMACK) as [->|_]; [apply rtermack_ok; [done|]; intros Ho; by apply Hstray|].
    destruct (code =? CODEREJ); [by apply rcoderej_ok|]. by apply unknown_code_ok. }
  destruct (state f) eqn:Est; first [by wp_step | by apply Hd].
Qed.
(** ** Every call *)

Inductive fsm_call :=
| CallInit
| CallLowerup
| CallLowerdown
| CallOpen
| CallClose (reason : bytes)
| CallInput (packet : bytes)
| CallProtreject
| TimerGoesOff.

Definition run_call (c : fsm_call) : M S unit :=
  match c with
  | CallInit => fsm_init
  | CallLowerup => fsm_lowerup callbacks
  | CallLowerdown => fsm_lowerdown callbacks
  | CallOpen => fsm_open callbacks
  | CallClose reason => fsm_close callbacks reason
  | CallInput packet => fsm_input callbacks packet
  | CallProtreject => fsm_protreject callbacks
  | TimerGoesOff => fsm_timeout callbacks
  end.

(** Where a call may be made: fsm_init before anything else, fsm_timeout from the timer. *)
Definition may_call (c : fsm_call) s : Prop :=
  match c with
  | CallInit => exists f, is_u8 (reqid f) /\ holds_fsm s f false
  | CallInput packet => fsm_ok s /\ ~ stray_termack packet s
  | TimerGoesOff => goes_off s
  | _ => fsm_ok s
  end.

(** C22: The calls of netif/ppp/fsm.c keep the timer and the state of the automaton
    together, whatever the callbacks up, starting, finished, ackci, nakci, rejci and
    extcode do with the automaton, as long as they do so too (they may call it again), and
    with resetci, cilen, addci, reqci, down and retransmit that leave it alone.  After
    fsm_init, every call (the link going up or down, open and close, any packet whatever
    its bytes, a protocol reject, the timer going off) returns, and leaves a timeout
    pending exactly in the states Closing, Stopping, Req-Sent, Ack-Rcvd and Ack-Sent, so
    that it neither waits for ever in one of them nor is woken in another; identifiers
    stay bytes.  The one exception is a Terminate-Ack for a connection that is open, see
    [termack_opened]. *)
Theorem fsm_timer_discipline c s : may_call c s -> wp (run_call c) s (fun _ s' => fsm_ok s').
Proof.
  destruct c; cbn [may_call run_call].
  - intros (f & Hr & Hs). unfold fsm_init. fsm_step. eapply ok_intro; [eassumption| |done]. by split.
  - apply lowerup_ok.
  - apply lowerdown_ok.
  - apply open_ok.
  - apply close_ok.
  - intros [Hok Hn]. by apply input_ok.
  - apply protreject_ok.
  - apply timeout_ok.
Qed.

(** A Terminate-Ack for an open connection: the layer above is told that the connection is
    down and a Configure-Request goes out, but the state stays Opened: the timer runs in
    it, and when it goes off fsm_timeout does nothing. *)
Lemma termack_opened s f : typed f -> holds_fsm s f false -> state f = LS_OPENED ->
  wp (fsm_rtermack callbacks) s (fun _ s' => exists f', holds_fsm s' f' true /\ state f' = LS_OPENED /\
    forall s2, holds_fsm s2 f' false -> fsm_timeout callbacks s2 = Done (tt, s2)).
Proof.
  intros Ht Hs Ho. unfold fsm_rtermack. fsm_step. fsm_step. rewrite Ho. fsm_step. fsm_step. fsm_step. eexists. split; [eassumption|].
  split; [congruence|]. intros s2 (_ & Hf2 & _). unfold fsm_timeout, getf. rewrite bind_assoc, get_bind, ret_bind, Hf2.
  assert (state f' = LS_OPENED) as -> by congruence. done.
Qed.

(** ** A silent peer *)

(** The timer of [s] has gone off in [s']. *)
Definition fires s s' : Prop := exists f, holds_fsm s f true /\ holds_fsm s' f false.

(** The automaton was Closed or Stopped without a timer in [s0], and what has happened
    since is the callback finished, which is not called by a passive one that waits. *)
Definition stopped s : Prop :=
  exists s0 f, holds_fsm s0 f false /\ (state f = LS_CLOSED \/ state f = LS_STOPPED) /\ fsm_ok s /\
    (call_if (finished callbacks) s0 = Done (tt, s) \/ nz (Z.land (flags f) OPT_PASSIVE) = true /\ state f = LS_STOPPED /\ s = s0).

(** After [n] timeouts the automaton has stopped. *)
Fixpoint gives_up (n : nat) s : Prop :=
  match n with
  | O => stopped s
  | Datatypes.S n => armed s = true /\ forall s', fires s s' -> wp (fsm_timeout callbacks) s' (fun _ s2 => gives_up n s2)
  end.

Lemma wp_finished s f : typed f -> holds_fsm s f false -> state f = LS_CLOSED \/ state f = LS_STOPPED ->
  wp (call_if (finished callbacks)) s (fun _ s' => stopped s').
Proof.
  intros Ht Hs Hst. destruct (wp_call_sound (finished callbacks) s (gc_finished good)) as ([] & s' & E & Hok).
  { eapply ok_intro; [exact Hs|done|]. by destruct Hst as [->| ->]. }
  exists tt, s'. split; [exact E|]. exists s, f. split; [done|]. split; [done|]. split; [done|]. by left.
Qed.

Lemma gives_up_from n s f : typed f -> holds_fsm s f true -> timed (state f) = true -> Z.to_nat (retransmits f) = n -> gives_up (Datatypes.S n) s.
Proof.
  revert s f. induction n as [|n IH]; intros s f Ht Hs Htm Hn; (split; [by apply Hs|]); intros s' (f0 & (_ & Hf0 & _) & Hs').
  all: assert (f0 = f) as -> by (destruct Hs as (_ & Hf & _); congruence).
  all: unfold fsm_timeout; fsm_step; fsm_step.
  - destruct (state f) eqn:Est; try done; rewrite (proj2 (Z.leb_le _ _)) by lia.
    all: fsm_step; fsm_step; try (eapply wp_finished; [|eassumption|cbn; auto]; typed_tac).
    all: case_match eqn:Ep; [|eapply wp_finished; [|eassumption|cbn; auto]; typed_tac].
    all: wp_step; eexists _, _; split; [eassumption|]; split; [cbn; auto|]; split; [fsm_done|by right].
  - assert (forall s2 f2, holds_fsm s2 f2 true -> typed f2 -> timed (state f2) = true -> retransmits f2 = retransmits f - 1 -> gives_up (Datatypes.S n) s2) as Hgo.
    { intros s2 f2 Hs2 Ht2 Htm2 Hr2. eapply IH; [exact Ht2|exact Hs2|done|lia]. }
    destruct (state f) eqn:Est; try done; rewrite (proj2 (Z.leb_gt _ _)) by lia.
    all: repeat (fsm_step || case_match); (eapply Hgo; [eassumption|typed_tac|states_tac|cbn in *; congruence]).
Qed.

(** C24: The automaton gives up on a peer that is silent: with its timer running and
    [retransmits] transmissions left, every timeout before the last sets the timer again,
    and one more than [retransmits] of them bring the automaton to Closed or Stopped with no
    timer pending.  There it calls finished, unless it is passive and was negotiating; what
    that callback makes of the automaton (ipcp_finished may take it down, to Initial) is
    the result. *)
Theorem fsm_gives_up s : fsm_ok s -> timed (state (fh_get s)) = true -> gives_up (Datatypes.S (Z.to_nat (retransmits (fh_get s)))) s.
Proof.
  intros (f & Ht & Hs) Htm. assert (fh_get s = f) as Hf by apply Hs. rewrite Hf in *. rewrite Htm in Hs. by eapply gives_up_from.
Qed.
End spec.
