(* ===== verification/PppRfc.v ===== *)
(** * The automaton of PPP and RFC 1661

    The state transition table of RFC 1661, 4.1, and fsm.c run next to it on a host that
    records what the automaton does. *)

From S2P Require Import Prelude PppFsm PppFsmSpec.

(** The actions of the table: what is sent, by the code of the packet, and what the layers
    around are told. *)
Inductive action := Sent (code : Z) | tlu | tld | tls | tlf.

Abbreviation scr := (Sent CONFREQ).

Abbreviation sca := (Sent CONFACK).

Abbreviation scn := (Sent CONFNAK).

Abbreviation str := (Sent TERMREQ).

Abbreviation sta := (Sent TERMACK).

Abbreviation scj := (Sent CODEREJ).

(** The events of the table; a Nak and a Reject are one, and so are the two kinds of
    Code-Reject that are permitted. *)
Inductive rfc_event := RFC_Up | RFC_Down | RFC_Open | RFC_Close | TO_plus | TO_minus | RCR_plus | RCR_minus | RFC_RCA | RFC_RCN | RFC_RTR | RFC_RTA | RFC_RUC | RXJ_plus | RXJ_minus.

(** The table, its actions on the restart counter apart; [None] is an event that cannot
    occur in the state. *)
Definition rfc1661 (e : rfc_event) (st : ls_state) : option (list action * ls_state) :=
  match e, st with
  | RFC_Up, LS_INITIAL => Some ([], LS_CLOSED)
  | RFC_Up, LS_STARTING => Some ([scr], LS_REQSENT)
  | RFC_Down, LS_CLOSED => Some ([], LS_INITIAL)
  | RFC_Down, LS_STOPPED => Some ([tls], LS_STARTING)
  | RFC_Down, LS_CLOSING => Some ([], LS_INITIAL)
  | RFC_Down, (LS_STOPPING | LS_REQSENT | LS_ACKRCVD | LS_ACKSENT) => Some ([], LS_STARTING)
  | RFC_Down, LS_OPENED => Some ([tld], LS_STARTING)
  | RFC_Open, LS_INITIAL => Some ([tls], LS_STARTING)
  | RFC_Open, LS_CLOSED => Some ([scr], LS_REQSENT)
  | RFC_Open, LS_CLOSING => Some ([], LS_STOPPING)
  | RFC_Open, st => Some ([], st)
  | RFC_Close, LS_STARTING => Some ([tlf], LS_INITIAL)
  | RFC_Close, LS_STOPPED => Some ([], LS_CLOSED)
  | RFC_Close, LS_STOPPING => Some ([], LS_CLOSING)
  | RFC_Close, (LS_REQSENT | LS_ACKRCVD | LS_ACKSENT) => Some ([str], LS_CLOSING)
  | RFC_Close, LS_OPENED => Some ([tld; str], LS_CLOSING)
  | RFC_Close, st => Some ([], st)
  | TO_plus, (LS_CLOSING | LS_STOPPING) => Some ([str], st)
  | TO_plus, (LS_REQSENT | LS_ACKRCVD) => Some ([scr], LS_REQSENT)
  | TO_plus, LS_ACKSENT => Some ([scr], LS_ACKSENT)
  | TO_minus, LS_CLOSING => Some ([tlf], LS_CLOSED)
  | TO_minus, (LS_STOPPING | LS_REQSENT | LS_ACKRCVD | LS_ACKSENT) => Some ([tlf], LS_STOPPED)
  | (RFC_Up | RFC_Down | TO_plus | TO_minus), _ => None
  | RXJ_minus, (LS_CLOSED | LS_CLOSING) => Some ([tlf], LS_CLOSED)
  | RXJ_minus, (LS_STOPPED | LS_STOPPING | LS_REQSENT | LS_ACKRCVD | LS_ACKSENT) => Some ([tlf], LS_STOPPED)
  | RXJ_minus, LS_OPENED => Some ([tld; str], LS_STOPPING)
  | _, (LS_INITIAL | LS_STARTING) => None
  | (RCR_plus | RCR_minus | RFC_RCA | RFC_RCN), LS_CLOSED => Some ([sta], LS_CLOSED)
  | (RFC_RCA | RFC_RCN), LS_STOPPED => Some ([sta], LS_STOPPED)
  | (RCR_plus | RCR_minus | RFC_RCA | RFC_RCN), (LS_CLOSING | LS_STOPPING) => Some ([], st)
  | RCR_plus, LS_STOPPED => Some ([scr; sca], LS_ACKSENT)
  | RCR_plus, (LS_REQSENT | LS_ACKSENT) => Some ([sca], LS_ACKSENT)
  | RCR_plus, LS_ACKRCVD => Some ([sca; tlu], LS_OPENED)
  | RCR_plus, LS_OPENED => Some ([tld; scr; sca], LS_ACKSENT)
  | RCR_minus, LS_STOPPED => Some ([scr; scn], LS_REQSENT)
  | RCR_minus, (LS_REQSENT | LS_ACKSENT) => Some ([scn], LS_REQSENT)
  | RCR_minus, LS_ACKRCVD => Some ([scn], LS_ACKRCVD)
  | RCR_minus, LS_OPENED => Some ([tld; scr; scn], LS_REQSENT)
  | RFC_RCA, LS_REQSENT => Some ([], LS_ACKRCVD)
  | RFC_RCA, LS_ACKRCVD => Some ([scr], LS_REQSENT)
  | RFC_RCA, LS_ACKSENT => Some ([tlu], LS_OPENED)
  | RFC_RCA, LS_OPENED => Some ([tld; scr], LS_REQSENT)
  | RFC_RCN, (LS_REQSENT | LS_ACKRCVD) => Some ([scr], LS_REQSENT)
  | RFC_RCN, LS_ACKSENT => Some ([scr], LS_ACKSENT)
  | RFC_RCN, LS_OPENED => Some ([tld; scr], LS_REQSENT)
  | RFC_RTR, (LS_REQSENT | LS_ACKRCVD | LS_ACKSENT) => Some ([sta], LS_REQSENT)
  | RFC_RTR, LS_OPENED => Some ([tld; sta], LS_STOPPING)
  | RFC_RTR, st => Some ([sta], st)
  | RFC_RTA, LS_CLOSING => Some ([tlf], LS_CLOSED)
  | RFC_RTA, LS_STOPPING => Some ([tlf], LS_STOPPED)
  | RFC_RTA, LS_ACKRCVD => Some ([], LS_REQSENT)
  | RFC_RTA, LS_OPENED => Some ([tld; scr], LS_REQSENT)
  | RFC_RTA, st => Some ([], st)
  | RFC_RUC, st => Some ([scj], st)
  | RXJ_plus, LS_ACKRCVD => Some ([], LS_REQSENT)
  | RXJ_plus, st => Some ([], st)
  end.

(** ** The events in the code *)

Record recorder := Recorder { rec_fsm : fsm; rec_log : list action; rec_mru : Z }.

Definition record_action (a : action) : M recorder unit := modify (fun r => Recorder (rec_fsm r) (rec_log r ++ [a]) (rec_mru r)).

(** A packet sent is recorded by its code, behind the PPP header. *)
#[local] Instance recorder_host : FsmHost recorder := {
  fh_get := rec_fsm;
  fh_set f r := Recorder f (rec_log r) (rec_mru r);
  fh_timeout _ := mret tt;
  fh_untimeout := mret tt;
  fh_write bs := record_action (Sent (List.nth 4 bs 0));
  fh_peer_mru := rec_mru
}.

(** A protocol without options that likes the peer's or not, and takes its answers. *)
Definition recording (likes : bool) : fsm_callbacks recorder :=
  FsmCallbacks None None None (Some (fun _ => mret 1)) (Some (fun _ => mret 1)) (Some (fun _ => mret 1))
    (Some (fun opts _ => mret (if likes then CONFACK else CONFNAK, opts)))
    (Some (record_action tlu)) (Some (record_action tld)) (Some (record_action tls)) (Some (record_action tlf)) None None.

(** A packet of the protocol. *)
Definition packet_of (code id : Z) (data : bytes) : bytes :=
  [code; id; u8 (Z.shiftr (zlen data + HEADERLEN) 8); Z.land (zlen data + HEADERLEN) 0xff] ++ data.

Inductive event :=
| EUp | EDown | EOpen | EClose (reason : bytes) | ETimeout
| EConfReq (likes : bool) (id : Z) (opts : bytes)
| EConfAck (opts : bytes)
| EConfNakRej (rejects : bool) (opts : bytes)
| ETermReq (id : Z) (data : bytes)
| ETermAck (id : Z) (data : bytes)
| EUnknown (code id : Z) (data : bytes)
| ECodeRej (id : Z) (data : bytes)
| EProtRej.

(** The data of the packet that an event brings. *)
Definition event_data (e : event) : bytes :=
  match e with
  | EConfReq _ _ d | EConfAck d | EConfNakRej _ d | ETermReq _ d | ETermAck _ d | EUnknown _ _ d | ECodeRej _ d => d
  | _ => []
  end.

Definition rfc_of (f : fsm) (e : event) : rfc_event :=
  match e with
  | EUp => RFC_Up
  | EDown => RFC_Down
  | EOpen => RFC_Open
  | EClose _ => RFC_Close
  | ETimeout => if 0 <? retransmits f then TO_plus else TO_minus
  | EConfReq likes _ _ => if likes then RCR_plus else RCR_minus
  | EConfAck _ => RFC_RCA
  | EConfNakRej _ _ => RFC_RCN
  | ETermReq _ _ => RFC_RTR
  | ETermAck _ _ => RFC_RTA
  | EUnknown _ _ _ => RFC_RUC
  | ECodeRej _ _ => RXJ_plus
  | EProtRej => RXJ_minus
  end.

(** The call that an event is. *)
Definition event_call (f : fsm) (e : event) : M recorder unit :=
  match e with
  | EUp => fsm_lowerup (recording true)
  | EDown => fsm_lowerdown (recording true)
  | EOpen => fsm_open (recording true)
  | EClose reason => fsm_close (recording true) reason
  | ETimeout => fsm_timeout (recording true)
  | EConfReq likes i d => fsm_input (recording likes) (packet_of CONFREQ i d)
  | EConfAck d => fsm_input (recording true) (packet_of CONFACK (reqid f) d)
  | EConfNakRej rejects d => fsm_input (recording true) (packet_of (if rejects then CONFREJ else CONFNAK) (reqid f) d)
  | ETermReq i d => fsm_input (recording true) (packet_of TERMREQ i d)
  | ETermAck i d => fsm_input (recording true) (packet_of TERMACK i d)
  | EUnknown code i d => fsm_input (recording true) (packet_of code i d)
  | ECodeRej i d => fsm_input (recording true) (packet_of CODEREJ i d)
  | EProtRej => fsm_protreject (recording true)
  end.

(** What the recorder saw. *)
Definition seen (r : outcome (unit * recorder)) : option (list action * ls_state) :=
  match r with
  | Done (_, r) => Some (rec_log r, state (rec_fsm r))
  | Crash _ => None
  end.

(** Where the code is not the table: Close in Starting, and a Terminate-Ack in Opened. *)
Definition code_table (e : rfc_event) (st : ls_state) : list action * ls_state :=
  match e, st with
  | RFC_Close, LS_STARTING => ([], LS_INITIAL)
  | RFC_RTA, LS_OPENED => ([tld; scr], LS_OPENED)
  | _, _ => default ([], st) (rfc1661 e st)
  end.

(** The packet is a good one: it fits, an answer is awaited, a code is unknown. *)
Definition good_event (f : fsm) (e : event) : Prop :=
  zlen (event_data e) + HEADERLEN < 65536 /\
  match e with
  | EConfAck _ | EConfNakRej _ _ => seen_ack f = false
  | EUnknown code _ _ => CODEREJ < code
  | ECodeRej _ d => HEADERLEN <= zlen d
  | _ => True
  end.

(** fsm_input finds what packet_of put together. *)
Lemma input_packet {S} `{FsmHost S} (callbacks : fsm_callbacks S) code i d (s : S) : zlen d + HEADERLEN < 65536 ->
  fsm_input callbacks (packet_of code i d) s =
    if takes_packets (state (fh_get s)) then fsm_dispatch callbacks code i d (packet_of code i d) s else Done (tt, s).
Proof.
  unfold HEADERLEN. intros Hd. unfold packet_of, fsm_input. cbn [app]. unfold HEADERLEN.
  assert (Z.lor (Z.shiftl (u8 (Z.shiftr (zlen d + 4) 8)) 8) (Z.land (zlen d + 4) 255) = zlen d + 4) as ->.
  { pose proof (zlen_nonneg d). rewrite shiftr_8, land_ff, Z.shiftl_mul_pow2, (lor_add _ _ 8), u8_id by (unfold is_u8; zdm). zdm. }
  cbv zeta. rewrite !zlen_cons. pose proof (zlen_nonneg d).
  replace ((zlen d + 4 <? 4) || (_ <? zlen d + 4)) with false by (symmetry; apply orb_false_iff; split; apply Z.ltb_ge; lia).
  unfold getf. rewrite bind_assoc, get_bind, ret_bind.
  rewrite (take_ge d) by (unfold zlen; lia). rewrite (take_ge (code :: _)) by (cbn [length]; unfold zlen; lia).
  by destruct (state (fh_get s)).
Qed.

Lemma getf_bind {S A} `{FsmHost S} (k : fsm -> M S A) (s : S) : (getf ≫= k) s = k (fh_get s) s.
Proof. unfold getf. by rewrite bind_assoc, get_bind, ret_bind. Qed.

(** C20: The calls of fsm.c take the transitions of RFC 1661 (options passive, restart and
    silent off): in each of the ten states each event has the actions of the table, in
    their order, and leads to the state of the table; events that cannot occur in a state
    change nothing.  Two transitions are not the table's: Close in Starting does not
    report that the layer is finished, and a Terminate-Ack in Opened stays in Opened. *)
Theorem fsm_follows_rfc1661 f mru e : flags f = 0 -> good_event f e ->
  seen (event_call f e (Recorder f [] mru)) = Some (code_table (rfc_of f e) (state f)).
Proof.
  intros Hfl [Hd Hg]. destruct f as [p st fl i r sa t mc rt mt nl mn tr]. cbn [flags] in Hfl. subst fl.
  destruct e; cbn [event_call event_data] in *; try rewrite input_packet by done.
  - destruct st; reflexivity.
  - destruct st; reflexivity.
  - destruct st; reflexivity.
  - destruct st; reflexivity.
  - cbn [rfc_of retransmits state]. rewrite Z.ltb_antisym. destruct st; lazy -[Z.leb Z.ltb zlen u8 take Z.to_nat Z.sub Z.add Z.mul Z.land Z.shiftr Z.min]; destruct (rt <=? 0); reflexivity.
  - destruct likes, st; reflexivity.
  - cbn in Hg. subst sa. cbn [fh_get recorder_host rec_fsm state reqid].
    change (fsm_dispatch _ CONFACK) with (fun i inp (_ : bytes) => fsm_rconfack (recording true) i inp). cbv beta.
    unfold fsm_rconfack. rewrite getf_bind. cbn [fh_get recorder_host rec_fsm reqid]. rewrite Z.eqb_refl. destruct st; reflexivity.
  - cbn in Hg. subst sa. cbn [fh_get recorder_host rec_fsm state reqid].
    assert (fsm_dispatch (recording true) (if rejects then CONFREJ else CONFNAK) = fun i inp _ => fsm_rconfnakrej (recording true) (if rejects then CONFREJ else CONFNAK) i inp) as ->.
    { by destruct rejects. }
    unfold fsm_rconfnakrej. rewrite getf_bind. cbn [fh_get recorder_host rec_fsm reqid]. rewrite Z.eqb_refl. destruct rejects, st; reflexivity.
  - destruct st; reflexivity.
  - destruct st; reflexivity.
  - unfold CODEREJ in Hg. unfold fsm_dispatch, CONFREQ, CONFACK, CONFNAK, CONFREJ, TERMREQ, TERMACK, CODEREJ.
    rewrite !(proj2 (Z.eqb_neq code _)) by lia. destruct st; reflexivity.
  - cbn in Hg. change (fsm_dispatch _ CODEREJ) with (fun (_ : Z) inp (_ : bytes) => fsm_rcoderej (S := recorder) inp). cbv beta.
    unfold fsm_rcoderej. rewrite (proj2 (Z.ltb_ge _ _)) by done. destruct st; reflexivity.
  - destruct st; reflexivity.
Qed.

(** A Configure-Request that is liked, in Ack-Rcvd: the layer above is up. *)
Lemma fsm_follows_rfc1661_witness : exists f e, state f = LS_ACKRCVD /\ seen (event_call f e (Recorder f [] 1500)) = Some ([sca; tlu], LS_OPENED).
Proof.
  set (f := Fsm 0xc021 LS_ACKRCVD 0 1 1 true 6 10 9 2 0 5 []). exists f, (EConfReq true 7 [1; 4; 5; 220]). split; [reflexivity|].
  exact (fsm_follows_rfc1661 f 1500 (EConfReq true 7 [1; 4; 5; 220]) eq_refl (conj eq_refl I)).
Defined.
