(* ===== verification/PppHost.v ===== *)
(** * The automaton on the timers of the port

    sys_timeout and sys_untimeout of cwrap/sys_arch.c give the automaton the timer it
    relies on.  Packets sent are kept in their order. *)

From S2P Require Import Prelude SysTimers PppFsm PppFsmSpec.

(** The struct fsm, the timers and their clock, what pppWrite was given, and peer_mru. *)
Record ppp_port := PppPort { pp_fsm : fsm; pp_timers : port_timers; pp_now : Z; pp_sent : list bytes; pp_mru : Z }.

Definition on_timers {A} (m : M port_timers A) : M ppp_port A :=
  fun s => match m (pp_timers s) with
           | Done (a, t) => Done (a, PppPort (pp_fsm s) t (pp_now s) (pp_sent s) (pp_mru s))
           | Crash c => Crash c
           end.

Section port.
(** malloc never fails; the number of fsm_timeout, which is not NULL, and the address of
    the struct. *)
Context (malloc : gmap Z time_entry -> option Z).
Context (malloc_fresh : forall m a, malloc m = Some a -> m !! a = None).
Context (malloc_room : forall m, malloc m <> None).
Context (h a : Z).
Context (h_nz : h <> 0).
Implicit Types (s : ppp_port).

#[local] Instance port_host : FsmHost ppp_port := {
  fh_get := pp_fsm;
  fh_set f s := PppPort f (pp_timers s) (pp_now s) (pp_sent s) (pp_mru s);
  fh_timeout t := s ← get; on_timers (sys_timeout malloc (pp_now s) t h a);
  fh_untimeout := on_timers (sys_untimeout h a);
  fh_write bs := modify (fun s => PppPort (pp_fsm s) (pp_timers s) (pp_now s) (pp_sent s ++ [bs]) (pp_mru s));
  fh_peer_mru := pp_mru
}.

(** The nodes of the list from [q] on. *)
Fixpoint timers_from (fuel : nat) (m : gmap Z time_entry) (q : option Z) : list timer :=
  match fuel, q with
  | Datatypes.S fuel, Some p => match m !! p with Some e => view e :: timers_from fuel m (te_next e) | None => [] end
  | _, _ => []
  end.

Definition timers_list (t : port_timers) : list timer := timers_from (size (nodes t)) (nodes t) (g_time_head t).

Lemma timers_from_ok m l : forall fuel q, tseg m q l None -> (length l <= fuel)%nat -> timers_from fuel m q = l.*2.
Proof.
  induction l as [|[p t] l IH]; intros fuel q Hs Hf; [simpl in Hs; subst q; by destruct fuel|].
  destruct fuel as [|fuel]; [simpl in Hf; lia|]. destruct Hs as (-> & e & He & <- & Hs). cbn [timers_from]. rewrite He.
  rewrite fmap_cons. cbn [snd]. f_equal. apply IH; [done|simpl in Hf; lia].
Qed.

Lemma timers_list_ok t own ts : has_timers t own ts -> timers_list t = ts.
Proof. intros (l & [Hs Hnd _ _] & <-). apply timers_from_ok; [done|]. by eapply tseg_length. Qed.

Definition fsm_armed s : bool := existsb (matches h a) (timers_list (pp_timers s)).

Lemma matches_inserted t ts : existsb (matches h a) (insert_timer t ts) = matches h a t || existsb (matches h a) ts.
Proof.
  induction ts as [|x ts IH]; cbn [insert_timer existsb]; [done|]. destruct (_ <=? _); cbn [existsb]; [rewrite IH|done].
  destruct (matches h a x), (matches h a t); done.
Qed.

Lemma matches_removed ts : existsb (matches h a) (remove_timer h a ts) = false.
Proof.
  induction ts as [|x ts IH]; [done|]. unfold remove_timer. cbn [List.filter]. destruct (matches h a x) eqn:Hx; [done|]. cbn [negb existsb].
  by rewrite Hx.
Qed.

(** The timers of the port keep what the automaton relies on. *)
#[local] Instance port_host_spec : FsmHostSpec ppp_port.
Proof.
  refine {| fh_inv s := exists own ts, has_timers (pp_timers s) own ts; armed := fsm_armed |}.
  - done.
  - done.
  - done.
  - intros s (own & ts & Hs). destruct (sys_untimeout_ok _ _ _ h a Hs) as (t & E & Ht). rewrite (proj2 (Z.eqb_neq h 0)) in Ht by done.
    exists tt. eexists. cbn [fh_untimeout port_host]. unfold on_timers. rewrite E. split; [reflexivity|]. split; [by eexists _, _|].
    split; [done|]. unfold fsm_armed. cbn [pp_timers]. rewrite (timers_list_ok _ _ _ Ht). apply matches_removed.
  - intros s t (own & ts & Hs) Ha. destruct (sys_timeout_ok malloc malloc_fresh _ _ _ (pp_now s) t h a Hs) as (t' & E & Ht).
    rewrite (proj2 (Z.eqb_neq h 0)), bool_decide_false in Ht by done. cbn [orb] in Ht.
    exists tt. eexists. cbn [fh_timeout port_host]. rewrite get_bind. unfold on_timers. rewrite E. split; [reflexivity|]. split; [by eexists _, _|].
    split; [done|]. unfold fsm_armed. cbn [pp_timers]. rewrite (timers_list_ok _ _ _ Ht), matches_inserted. apply orb_true_iff. left.
    unfold matches. cbn. by rewrite !Z.eqb_refl.
  - intros s bs Hi. exists tt. eexists. split; [reflexivity|]. by split.
Defined.
End port.

(** ** An automaton on the port *)

#[local] Instance demo_host : FsmHost ppp_port := port_host bump_malloc 1 100.

Lemma bump_room m : bump_malloc m <> None.
Proof. done. Qed.

#[local] Instance demo_spec : FsmHostSpec ppp_port := port_host_spec bump_malloc bump_fresh bump_room 1 100 ltac:(done).

(** A protocol with one option, which agrees to everything; with callbacks that call the
    automaton again. *)
Definition demo_callbacks (nakci : option (bytes -> M ppp_port Z)) (finished : option (M ppp_port unit)) (extcode : option (Z -> Z -> bytes -> M ppp_port Z)) :
    fsm_callbacks ppp_port :=
  FsmCallbacks None (Some (mret 4)) (Some (fun n => mret (take (Z.to_nat n) [1; 4; 5; 220]))) (Some (fun _ => mret 1)) nakci None
    (Some (fun opts _ => mret (CONFACK, opts))) None (Some (mret tt)) None finished None extcode.

Definition quiet : fsm_callbacks ppp_port := demo_callbacks None None None.

(** A Nak closes the connection, as lcp_nakci does for a loopback; the end takes the link
    down, as that of IPCP does when it is the only network protocol; an unknown code is a
    Protocol-Reject for this one. *)
Definition agreeable : fsm_callbacks ppp_port :=
  demo_callbacks (Some (fun _ => fsm_close quiet [];; mret 1)) (Some (fsm_lowerdown quiet;; fsm_close quiet []))
    (Some (fun _ _ _ => fsm_protreject quiet;; mret 1)).

Lemma polite_ret {B} (v : B) : polite (mret v : M ppp_port B).
Proof. intros s f b Hs. by wp_step. Qed.

Lemma sound_ret {B} (v : B) : sound (mret v : M ppp_port B).
Proof. intros s Hs. by wp_step. Qed.

Lemma sound_bind {B D} (m : M ppp_port B) (k : B -> M ppp_port D) : sound m -> (forall v, sound (k v)) -> sound (m ≫= k).
Proof. intros Hm Hk s Hs. wp_step. eapply wp_mono; [by apply Hm|]. intros v s' Hs'. by apply Hk. Qed.

Ltac given := intros; try done; repeat match goal with E : _ = Some _ |- _ => injection E as <- end.

Lemma quiet_good : good_callbacks quiet.
Proof. split; given; first [apply polite_ret | apply sound_ret]. Qed.

Lemma agreeable_good : good_callbacks agreeable.
Proof.
  split; given; try first [apply polite_ret | apply sound_ret].
  all: apply sound_bind; [|intros; first [apply sound_ret | intros ??; by apply (close_ok _ quiet_good)]].
  - intros ??. by apply (close_ok _ quiet_good).
  - intros ??. by apply (lowerdown_ok _ quiet_good).
  - intros ??. by apply (protreject_ok _ quiet_good).
Qed.

Definition closed_port : ppp_port := PppPort (Fsm 0xc021 LS_CLOSED 0 0 0 false 6 10 0 2 0 5 []) (PortTimers None ∅) 0 [] 1500.

Lemma closed_port_ok : fsm_ok closed_port.
Proof.
  exists (pp_fsm closed_port). split; [done|]. split; [|done]. exists ∅, []. exists []. split; [|done].
  split; [done|constructor| |done]. intros x. cbn. rewrite !lookup_empty. split; [by intros []|by intros [?%elem_of_nil|[]]].
Qed.

Lemma fsm_timer_discipline_witness : exists s', run_call agreeable CallOpen closed_port = Done (tt, s') /\ fsm_ok s'.
Proof.
  destruct (fsm_timer_discipline agreeable agreeable_good CallOpen closed_port closed_port_ok) as ([] & s' & E & Hs'). by exists s'.
Defined.

(** Opened, the automaton sends ten Configure-Requests and gives up. *)
Lemma fsm_gives_up_witness : exists s', fsm_open agreeable closed_port = Done (tt, s') /\ gives_up agreeable 10 s'.
Proof.
  destruct (open_ok agreeable agreeable_good closed_port closed_port_ok) as ([] & s' & E & Hs'). exists s'. split; [exact E|].
  assert (match fsm_open agreeable closed_port with Done (_, s) => (timed (state (pp_fsm s)), retransmits (pp_fsm s)) | Crash _ => (false, 0) end = (true, 9)) as Hv by (vm_compute; reflexivity).
  rewrite E in Hv. injection Hv as Htm Hr. pose proof (fsm_gives_up agreeable agreeable_good s' Hs' Htm) as Hg.
  change (retransmits (fh_get s')) with (retransmits (pp_fsm s')) in Hg. rewrite Hr in Hg. exact Hg.
Defined.
