(* ===== verification/PppFcs.v ===== *)
(** * The frame check sequence of PPP

    The table of netif/ppp/ppp.c, the macro PPP_FCS of ppp_impl.h, and the CRC they
    compute. *)

From S2P Require Import Prelude.

Definition fcstab : list Z := [
  0x0000; 0x1189; 0x2312; 0x329b; 0x4624; 0x57ad; 0x6536; 0x74bf;
  0x8c48; 0x9dc1; 0xaf5a; 0xbed3; 0xca6c; 0xdbe5; 0xe97e; 0xf8f7;
  0x1081; 0x0108; 0x3393; 0x221a; 0x56a5; 0x472c; 0x75b7; 0x643e;
  0x9cc9; 0x8d40; 0xbfdb; 0xae52; 0xdaed; 0xcb64; 0xf9ff; 0xe876;
  0x2102; 0x308b; 0x0210; 0x1399; 0x6726; 0x76af; 0x4434; 0x55bd;
  0xad4a; 0xbcc3; 0x8e58; 0x9fd1; 0xeb6e; 0xfae7; 0xc87c; 0xd9f5;
  0x3183; 0x200a; 0x1291; 0x0318; 0x77a7; 0x662e; 0x54b5; 0x453c;
  0xbdcb; 0xac42; 0x9ed9; 0x8f50; 0xfbef; 0xea66; 0xd8fd; 0xc974;
  0x4204; 0x538d; 0x6116; 0x709f; 0x0420; 0x15a9; 0x2732; 0x36bb;
  0xce4c; 0xdfc5; 0xed5e; 0xfcd7; 0x8868; 0x99e1; 0xab7a; 0xbaf3;
  0x5285; 0x430c; 0x7197; 0x601e; 0x14a1; 0x0528; 0x37b3; 0x263a;
  0xdecd; 0xcf44; 0xfddf; 0xec56; 0x98e9; 0x8960; 0xbbfb; 0xaa72;
  0x6306; 0x728f; 0x4014; 0x519d; 0x2522; 0x34ab; 0x0630; 0x17b9;
  0xef4e; 0xfec7; 0xcc5c; 0xddd5; 0xa96a; 0xb8e3; 0x8a78; 0x9bf1;
  0x7387; 0x620e; 0x5095; 0x411c; 0x35a3; 0x242a; 0x16b1; 0x0738;
  0xffcf; 0xee46; 0xdcdd; 0xcd54; 0xb9eb; 0xa862; 0x9af9; 0x8b70;
  0x8408; 0x9581; 0xa71a; 0xb693; 0xc22c; 0xd3a5; 0xe13e; 0xf0b7;
  0x0840; 0x19c9; 0x2b52; 0x3adb; 0x4e64; 0x5fed; 0x6d76; 0x7cff;
  0x9489; 0x8500; 0xb79b; 0xa612; 0xd2ad; 0xc324; 0xf1bf; 0xe036;
  0x18c1; 0x0948; 0x3bd3; 0x2a5a; 0x5ee5; 0x4f6c; 0x7df7; 0x6c7e;
  0xa50a; 0xb483; 0x8618; 0x9791; 0xe32e; 0xf2a7; 0xc03c; 0xd1b5;
  0x2942; 0x38cb; 0x0a50; 0x1bd9; 0x6f66; 0x7eef; 0x4c74; 0x5dfd;
  0xb58b; 0xa402; 0x9699; 0x8710; 0xf3af; 0xe226; 0xd0bd; 0xc134;
  0x39c3; 0x284a; 0x1ad1; 0x0b58; 0x7fe7; 0x6e6e; 0x5cf5; 0x4d7c;
  0xc60c; 0xd785; 0xe51e; 0xf497; 0x8028; 0x91a1; 0xa33a; 0xb2b3;
  0x4a44; 0x5bcd; 0x6956; 0x78df; 0x0c60; 0x1de9; 0x2f72; 0x3efb;
  0xd68d; 0xc704; 0xf59f; 0xe416; 0x90a9; 0x8120; 0xb3bb; 0xa232;
  0x5ac5; 0x4b4c; 0x79d7; 0x685e; 0x1ce1; 0x0d68; 0x3ff3; 0x2e7a;
  0xe70e; 0xf687; 0xc41c; 0xd595; 0xa12a; 0xb0a3; 0x8238; 0x93b1;
  0x6b46; 0x7acf; 0x4854; 0x59dd; 0x2d62; 0x3ceb; 0x0e70; 0x1ff9;
  0xf78f; 0xe606; 0xd49d; 0xc514; 0xb1ab; 0xa022; 0x92b9; 0x8330;
  0x7bc7; 0x6a4e; 0x58d5; 0x495c; 0x3de3; 0x2c6a; 0x1ef1; 0x0f78
].

Definition PPP_INITFCS : Z := 0xffff.

Definition PPP_GOODFCS : Z := 0xf0b8.

Definition PPP_FCS (fcs c : Z) : Z :=
  Z.lxor (Z.shiftr fcs 8) (List.nth (Z.to_nat (Z.land (Z.lxor fcs c) 0xff)) fcstab 0).

(** The FCS after some bytes. *)
Definition fcs_over (fcs : Z) (bs : bytes) : Z := List.fold_left PPP_FCS bs fcs.

(** The bytes a sender puts behind a frame. *)
Definition fcs_bytes (fcs : Z) : bytes := [Z.land (Z.lnot fcs) 0xff; Z.land (Z.shiftr (Z.lnot fcs) 8) 0xff].

(** ** The CRC

    Division by x^16 + x^12 + x^5 + 1, least significant bit first (RFC 1662, C.2). *)

Definition crc_shift (v : Z) : Z := if Z.odd v then Z.lxor (Z.shiftr v 1) 0x8408 else Z.shiftr v 1.

Definition crc_byte (fcs c : Z) : Z := Nat.iter 8 crc_shift (Z.lxor fcs c).

Lemma fcstab_crc : fcstab = (fun i => Nat.iter 8 crc_shift (Z.of_nat i)) <$> seq 0 256.
Proof. vm_compute. reflexivity. Qed.

Lemma fcstab_nth z : is_u8 z -> List.nth (Z.to_nat z) fcstab 0 = Nat.iter 8 crc_shift z.
Proof.
  unfold is_u8. intros Hz. rewrite fcstab_crc, nth_lookup, list_lookup_fmap, lookup_seq_lt by lia. cbn [fmap option_fmap option_map default].
  by rewrite Nat.add_0_l, Z2Nat.id by lia.
Qed.

(** Shifting is linear, and bits above the low ones shift out unseen. *)
Lemma crc_shift_lxor a b : crc_shift (Z.lxor a b) = Z.lxor (crc_shift a) (crc_shift b).
Proof.
  unfold crc_shift. rewrite <- !Z.bit0_odd, Z.lxor_spec, Z.shiftr_lxor.
  destruct (Z.testbit a 0), (Z.testbit b 0); cbn [xorb]; rewrite <- ?Z.lxor_assoc; try done.
  - rewrite (Z.lxor_assoc (Z.shiftr a 1)), (Z.lxor_comm 0x8408 (Z.shiftr b 1)), <- !Z.lxor_assoc, (Z.lxor_assoc _ 0x8408), Z.lxor_nilpotent, Z.lxor_0_r. done.
  - rewrite !Z.lxor_assoc. f_equal. apply Z.lxor_comm.
Qed.

Lemma crc_iter_lxor n a b : Nat.iter n crc_shift (Z.lxor a b) = Z.lxor (Nat.iter n crc_shift a) (Nat.iter n crc_shift b).
Proof. induction n as [|n IH]; [done|]. by rewrite !Nat.iter_succ, IH, crc_shift_lxor. Qed.

Lemma crc_iter_high n z : Nat.iter n crc_shift (z * 2 ^ Z.of_nat n) = z.
Proof.
  revert z. induction n as [|n IH]; intros z; [cbn; lia|]. rewrite Nat.iter_succ_r. unfold crc_shift at 2.
  replace (z * 2 ^ Z.of_nat (S n)) with (2 * (z * 2 ^ Z.of_nat n)) by (rewrite Nat2Z.inj_succ, Z.pow_succ_r by lia; lia).
  rewrite Z.odd_mul. cbn [Z.odd andb]. rewrite Z.shiftr_div_pow2, Z.mul_comm, Z.div_mul by lia. apply IH.
Qed.

Lemma crc_byte_split v : Nat.iter 8 crc_shift v = Z.lxor (Z.shiftr v 8) (Nat.iter 8 crc_shift (Z.land v 0xff)).
Proof.
  assert (v = Z.lxor (Z.shiftr v 8 * 2 ^ 8) (Z.land v 0xff)) as E.
  { rewrite <- Z.shiftl_mul_pow2, <- (Z.ldiff_ones_r v 8) by done. apply Z.bits_inj'. intros n _. rewrite Z.lxor_spec, Z.ldiff_spec, Z.land_spec.
    change (Z.ones 8) with 0xff. by destruct (Z.testbit v n), (Z.testbit 0xff n). }
  rewrite E at 1. by rewrite crc_iter_lxor, (crc_iter_high 8).
Qed.

Lemma PPP_FCS_crc fcs c : is_u8 c -> PPP_FCS fcs c = crc_byte fcs c.
Proof.
  intros Hc. unfold PPP_FCS, crc_byte. rewrite (crc_byte_split (Z.lxor fcs c)), fcstab_nth.
  - f_equal. rewrite Z.shiftr_lxor, (shiftr_8 c), (Z.div_small c) by done. by rewrite Z.lxor_0_r.
  - rewrite land_ff. unfold is_u8. apply Z.mod_pos_bound. lia.
Qed.

(** ** Frames that pass *)

Lemma fcs_over_app fcs bs1 bs2 : fcs_over fcs (bs1 ++ bs2) = fcs_over (fcs_over fcs bs1) bs2.
Proof. apply fold_left_app. Qed.

Lemma lxor_u16 a b : is_u16 a -> is_u16 b -> is_u16 (Z.lxor a b).
Proof.
  unfold is_u16. change 65536 with (2 ^ 16). intros Ha Hb. assert (0 <= Z.lxor a b) as H0 by (apply Z.lxor_nonneg; lia). split; [done|].
  assert (Z.lxor a b mod 2 ^ 16 = Z.lxor a b) as E; [|rewrite <- E; apply Z.mod_pos_bound; lia]. apply Z.bits_inj'. intros n Hn. destruct (Z.ltb_spec n 16) as [Hl|Hl].
  - by rewrite Z.mod_pow2_bits_low by lia.
  - rewrite Z.mod_pow2_bits_high by lia. rewrite Z.lxor_spec. rewrite <- (Z.mod_small a (2 ^ 16)), <- (Z.mod_small b (2 ^ 16)) by lia.
    by rewrite !Z.mod_pow2_bits_high by lia.
Qed.

Lemma fcstab_u16 i : is_u16 (List.nth i fcstab 0).
Proof.
  assert (forallb (fun t => (0 <=? t) && (t <? 65536)) fcstab = true) as Ht by (vm_compute; reflexivity).
  destruct (nth_in_or_default i fcstab 0) as [Hin| ->]; [|done]. pose proof (proj1 (forallb_forall _ _) Ht _ Hin). unfold is_u16. lia.
Qed.

Lemma PPP_FCS_u16 fcs c : is_u16 fcs -> is_u16 (PPP_FCS fcs c).
Proof. intros Hf. apply lxor_u16; [|apply fcstab_u16]. rewrite shiftr_8. unfold is_u16 in *. zdm. Qed.

Lemma fcs_over_u16 bs fcs : is_u16 fcs -> is_u16 (fcs_over fcs bs).
Proof. revert fcs. induction bs as [|c bs IH]; intros fcs Hf; [done|]. apply IH. by apply PPP_FCS_u16. Qed.

(** The bytes a sender appends lead to one value, whatever the frame. *)
Lemma fcs_bytes_good fcs : is_u16 fcs -> fcs_over fcs (fcs_bytes fcs) = PPP_GOODFCS.
Proof.
  intros Hf. unfold fcs_over, fcs_bytes. cbn [List.fold_left]. unfold PPP_FCS at 2.
  assert (Z.land (Z.lxor fcs (Z.land (Z.lnot fcs) 255)) 255 = 255) as ->.
  { apply Z.bits_inj'. intros n Hn. rewrite Z.land_spec, Z.lxor_spec, Z.land_spec, Z.lnot_spec by done. by destruct (Z.testbit fcs n), (Z.testbit 255 n). }
  change (List.nth _ fcstab 0) with 0x0f78. unfold PPP_FCS.
  assert (Z.land (Z.lxor (Z.lxor (Z.shiftr fcs 8) 0x0f78) (Z.land (Z.shiftr (Z.lnot fcs) 8) 255)) 255 = 0x87) as ->.
  { transitivity (Z.land (Z.lnot 0x0f78) 255); [|done]. apply Z.bits_inj'. intros n Hn.
    rewrite !Z.land_spec, !Z.lxor_spec, Z.land_spec, !Z.shiftr_spec, !Z.lnot_spec by lia.
    by destruct (Z.testbit fcs (n + 8)), (Z.testbit 0x0f78 n), (Z.testbit 255 n). }
  change (List.nth _ fcstab 0) with 0xf0b7. rewrite Z.shiftr_lxor, Z.shiftr_shiftr, (Z.shiftr_div_pow2 fcs) by lia.
  rewrite Z.div_small by (unfold is_u16 in Hf; lia). done.
Qed.

(** A step of the FCS can be undone. *)
Lemma fcstab_inj i j : is_u8 i -> is_u8 j -> Z.shiftr (List.nth (Z.to_nat i) fcstab 0) 8 = Z.shiftr (List.nth (Z.to_nat j) fcstab 0) 8 -> i = j.
Proof.
  unfold is_u8. intros Hi Hj E. assert (NoDup ((fun t => Z.shiftr t 8) <$> fcstab)) as Hnd.
  { apply (bool_decide_unpack _). vm_compute. exact I. }
  assert (forall k, 0 <= k < 256 -> ((fun t => Z.shiftr t 8) <$> fcstab) !! Z.to_nat k = Some (Z.shiftr (List.nth (Z.to_nat k) fcstab 0) 8)) as Hk.
  { intros k Hk. rewrite list_lookup_fmap. destruct (nth_lookup_or_length fcstab (Z.to_nat k) 0) as [->|Hl]; [done|].
    change (length fcstab) with 256%nat in Hl. lia. }
  apply Z2Nat.inj; [lia|lia|]. eapply NoDup_lookup; [exact Hnd|by apply Hk|]. rewrite E. by apply Hk.
Qed.

Lemma PPP_FCS_inv f f' c c' : is_u16 f -> is_u16 f' -> PPP_FCS f c = PPP_FCS f' c' ->
  Z.shiftr f 8 = Z.shiftr f' 8 /\ Z.land (Z.lxor f c) 0xff = Z.land (Z.lxor f' c') 0xff.
Proof.
  intros Hf Hf' E. unfold PPP_FCS in E. set (i := Z.land (Z.lxor f c) 0xff) in *. set (j := Z.land (Z.lxor f' c') 0xff) in *.
  assert (forall z, is_u8 (Z.land z 0xff)) as H8 by (intros z; rewrite land_ff; unfold is_u8; zdm).
  assert (forall z, is_u16 z -> Z.shiftr (Z.shiftr z 8) 8 = 0) as H0.
  { intros z Hz. rewrite !shiftr_8. unfold is_u16 in Hz. zdm. }
  assert (i = j) as Eij.
  { apply fcstab_inj; [apply H8..|]. pose proof (f_equal (fun z => Z.shiftr z 8) E) as E8. cbn beta in E8. rewrite !Z.shiftr_lxor, !H0, !Z.lxor_0_l in E8 by done. done. }
  split; [|done]. rewrite Eij in E. apply (f_equal (fun z => Z.lxor z (List.nth (Z.to_nat j) fcstab 0))) in E.
  by rewrite !Z.lxor_assoc, !Z.lxor_nilpotent, !Z.lxor_0_r in E.
Qed.

Lemma land_lxor_cancel f c c' : Z.land (Z.lxor f c) 0xff = Z.land (Z.lxor f c') 0xff -> Z.land c 0xff = Z.land c' 0xff.
Proof.
  intros E. apply Z.bits_inj'. intros n Hn. pose proof (f_equal (fun z => Z.testbit z n) E) as En. cbn beta in En.
  rewrite !Z.land_spec, !Z.lxor_spec in En. rewrite !Z.land_spec. by destruct (Z.testbit f n), (Z.testbit c n), (Z.testbit c' n), (Z.testbit 0xff n).
Qed.

Lemma PPP_FCS_inj_byte f c c' : is_u16 f -> is_u8 c -> is_u8 c' -> PPP_FCS f c = PPP_FCS f c' -> c = c'.
Proof.
  intros Hf Hc Hc' E. destruct (PPP_FCS_inv f f c c' Hf Hf E) as [_ El%land_lxor_cancel]. rewrite !land_ff in El. unfold is_u8 in *.
  rewrite !Z.mod_small in El by lia. done.
Qed.

Lemma PPP_FCS_inj_fcs f f' c : is_u16 f -> is_u16 f' -> PPP_FCS f c = PPP_FCS f' c -> f = f'.
Proof.
  intros Hf Hf' E. destruct (PPP_FCS_inv f f' c c Hf Hf' E) as [Eh El]. rewrite (Z.lxor_comm f), (Z.lxor_comm f') in El. apply land_lxor_cancel in El.
  rewrite !shiftr_8 in Eh. rewrite !land_ff in El. zdm.
Qed.

Lemma fcs_over_inj bs : forall f f', is_u16 f -> is_u16 f' -> fcs_over f bs = fcs_over f' bs -> f = f'.
Proof.
  induction bs as [|c bs IH]; intros f f' Hf Hf' E; [done|]. eapply PPP_FCS_inj_fcs; [done..|]. by apply IH; [apply PPP_FCS_u16..|].
Qed.

(** Two bytes next to each other. *)
Lemma fcs_pair_inj f a b a' b' : is_u16 f -> is_bytes [a; b] -> is_bytes [a'; b'] -> fcs_over f [a; b] = fcs_over f [a'; b'] -> [a; b] = [a'; b'].
Proof.
  intros Hf [Ha [Hb _]%list.Forall_cons]%list.Forall_cons [Ha' [Hb' _]%list.Forall_cons]%list.Forall_cons E. unfold fcs_over in E. cbn [List.fold_left] in E.
  destruct (PPP_FCS_inv _ _ _ _ (PPP_FCS_u16 f a Hf) (PPP_FCS_u16 f a' Hf) E) as [Eh _].
  assert (a = a') as <-.
  { assert (forall x, Z.shiftr (PPP_FCS f x) 8 = Z.shiftr (List.nth (Z.to_nat (Z.land (Z.lxor f x) 255)) fcstab 0) 8) as Hx.
    { intros x. unfold PPP_FCS. rewrite Z.shiftr_lxor, (shiftr_8 (Z.shiftr f 8)), (shiftr_8 f), (Z.div_small (f / 256)) by (unfold is_u16 in Hf; zdm). apply Z.lxor_0_l. }
    rewrite !Hx in Eh. apply fcstab_inj in Eh; [|rewrite land_ff; unfold is_u8; zdm..]. apply land_lxor_cancel in Eh. rewrite !land_ff in Eh.
    unfold is_u8 in *. rewrite !Z.mod_small in Eh by lia. done. }
  f_equal. f_equal. eapply PPP_FCS_inj_byte; [by apply (PPP_FCS_u16 f a)|done..].
Qed.

(** C25: The frame check sequence of PPP: PPP_FCS and its table are the CRC of RFC 1662, byte
    by byte; a frame passes exactly with the two bytes a sender appends; and of two frames
    that differ in two bytes next to each other, or in one, at most one passes. *)
Theorem fcs_protects_frames frame : is_bytes frame ->
  fcs_over PPP_INITFCS frame = List.fold_left crc_byte frame PPP_INITFCS /\
  (forall a b, is_bytes [a; b] -> fcs_over PPP_INITFCS (frame ++ [a; b]) = PPP_GOODFCS <-> [a; b] = fcs_bytes (fcs_over PPP_INITFCS frame)) /\
  (forall a b a' b' rest, is_bytes [a; b] -> is_bytes [a'; b'] ->
    fcs_over PPP_INITFCS (frame ++ [a; b] ++ rest) = PPP_GOODFCS -> fcs_over PPP_INITFCS (frame ++ [a'; b'] ++ rest) = PPP_GOODFCS -> [a; b] = [a'; b']).
Proof.
  intros Hb. assert (is_u16 PPP_INITFCS) as Hi by done. set (f := fcs_over PPP_INITFCS frame). assert (is_u16 f) as Hf by by apply fcs_over_u16. split; [|split].
  - clear Hi Hf. subst f. generalize PPP_INITFCS. induction Hb as [|c bs Hc Hb IH]; intros z; [done|]. unfold fcs_over in *. cbn [List.fold_left]. by rewrite IH, PPP_FCS_crc.
  - intros a b Hab. rewrite fcs_over_app. fold f. split; intros E; [|rewrite E; by apply fcs_bytes_good]. apply (fcs_pair_inj f); [done|done| |].
    + unfold fcs_bytes. rewrite !land_ff. repeat constructor; zdm.
    + change (fcs_over f (fcs_bytes f)) with (fcs_over f (fcs_bytes f)). rewrite E. symmetry. by apply fcs_bytes_good.
  - intros a b a' b' rest Hab Hab' E E'. rewrite !fcs_over_app in E, E'. fold f in E, E'. apply (fcs_pair_inj f); [done..|].
    eapply fcs_over_inj; [by apply fcs_over_u16..|]. by rewrite E, E'.
Qed.

(** "123456789", the check value of the CRC, and its complement. *)
Lemma fcs_protects_frames_witness : exists frame, frame = [49; 50; 51; 52; 53; 54; 55; 56; 57] /\
  List.fold_left crc_byte frame PPP_INITFCS = 0x6f91 /\ fcs_over PPP_INITFCS (frame ++ [0x6e; 0x90]) = PPP_GOODFCS.
Proof.
  exists [49; 50; 51; 52; 53; 54; 55; 56; 57]. split; [done|]. split; [vm_compute; reflexivity|].
  apply (fcs_protects_frames [49; 50; 51; 52; 53; 54; 55; 56; 57]); [repeat constructor; done|repeat constructor; done|]. vm_compute. reflexivity.
Defined.
