(* ===== verification/PppFrame.v ===== *)
(** * PPP frames on a serial line

    netif/ppp/ppp.c with PPPOS_SUPPORT, one unit, no VJ compression, and pppInProc called
    with the bytes of the line (NO_SYS): what it sends and what it makes of what it
    receives.  A packet buffer is its bytes, a chain of them a list; the pool is the number
    of buffers that are free.  The pool has fewer than 65536 bytes, so no tot_len wraps. *)

From S2P Require Import Prelude Alloc PppFcs.

Definition PPP_ALLSTATIONS : Z := 0xff.

Definition PPP_UI : Z := 0x03.

Definition PPP_FLAG : Z := 0x7e.

Definition PPP_ESCAPE : Z := 0x7d.

Definition PPP_TRANS : Z := 0x20.

Definition PPP_IP : Z := 0x21.

Definition PPP_VJC_COMP : Z := 0x2d.

Definition PPP_VJC_UNCOMP : Z := 0x2f.

Definition PPP_IPCP : Z := 0x8021.

Definition PPP_LCP : Z := 0xc021.

Definition PPP_PAP : Z := 0xc023.

Definition PPP_LQR : Z := 0xc025.

Definition PPP_CHAP : Z := 0xc223.

(** Phases of the link. *)
Definition PHASE_DEAD : Z := 0.

Definition PHASE_AUTHENTICATE : Z := 3.

Definition PPP_MAXIDLEFLAG : Z := 100.

Abbreviation PBUF_POOL_BUFSIZE := PBUF_POOL_BUFSIZE_ALIGNED.

(** struct pppInputHeader: an int, a u16_t and padding. *)
Definition SIZEOF_PIH : Z := 8.

Inductive PPPDevStates : Set := PDIDLE | PDSTART | PDADDRESS | PDCONTROL | PDPROTOCOL1 | PDPROTOCOL2 | PDDATA.

#[global] Instance dev_eq_dec : EqDecision PPPDevStates.
Proof. solve_decision. Defined.

Definition dev_num (st : PPPDevStates) : Z :=
  match st with PDIDLE => 0 | PDSTART => 1 | PDADDRESS => 2 | PDCONTROL => 3 | PDPROTOCOL1 => 4 | PDPROTOCOL2 => 5 | PDDATA => 6 end.

(** A buffer of the input packet: the header in front, in the first one, the bytes stored
    behind it, and len. *)
Record rxbuf := RxBuf { rb_pih : option (Z * Z); rb_bytes : bytes; rb_len : Z }.

Definition rb_hdr (b : rxbuf) : Z := match rb_pih b with Some _ => SIZEOF_PIH | None => 0 end.

(** inTail: NULL, the same buffer as inHead, or another one, not linked yet. *)
Inductive in_tail := NoTail | TailIsHead | Tail (b : rxbuf).

(** struct PPPControlRx; inHead is the chain that hangs off it, [] when it is NULL. *)
Record ppp_rx := Rx {
  inHead : list rxbuf;
  inTail : in_tail;
  inProtocol : Z;
  inFCS : Z;
  inState : PPPDevStates;
  inEscaped : bool;
  inACCM : bytes
}.

Implicit Types (r : ppp_rx).

Definition set_bufs h t r : ppp_rx := Rx h t (inProtocol r) (inFCS r) (inState r) (inEscaped r) (inACCM r).

Definition set_protocol v r : ppp_rx := Rx (inHead r) (inTail r) v (inFCS r) (inState r) (inEscaped r) (inACCM r).

Definition set_fcs v r : ppp_rx := Rx (inHead r) (inTail r) (inProtocol r) v (inState r) (inEscaped r) (inACCM r).

Definition set_dev v r : ppp_rx := Rx (inHead r) (inTail r) (inProtocol r) (inFCS r) v (inEscaped r) (inACCM r).

Definition set_escaped v r : ppp_rx := Rx (inHead r) (inTail r) (inProtocol r) (inFCS r) (inState r) v (inACCM r).

(** The counters of LINK_STATS_INC. *)
Inductive link_stat : Set := lk_xmit | lk_recv | lk_drop | lk_chkerr | lk_lenerr | lk_memerr | lk_rterr | lk_proterr | lk_opterr | lk_err.

(** PPPControl and lcp_phase, with the free buffers of the pool, the time of sys_jiffies,
    the counters incremented, and what is around. *)
Record ppp_link (E : Type) := Ppp {
  rx : ppp_rx;
  openFlag : bool;
  pcomp : bool;
  accomp : bool;
  lastXMit : Z;
  outACCM : bytes;
  netif_input : bool;
  lcp_phase : Z;
  pool : Z;
  now : Z;
  link_stats : list link_stat;
  env : E
}.

Arguments Ppp {E}.
Arguments rx {E}.
Arguments openFlag {E}.
Arguments pcomp {E}.
Arguments accomp {E}.
Arguments lastXMit {E}.
Arguments outACCM {E}.
Arguments netif_input {E}.
Arguments lcp_phase {E}.
Arguments pool {E}.
Arguments now {E}.
Arguments link_stats {E}.
Arguments env {E}.

(** What pppInput hands to the protocols: a packet for IP, in its buffers, one for a
    protocol of the table, or one whose protocol is to be rejected. *)
Inductive ppp_upcall := UpIp (bufs : list bytes) | UpProtocol (protocol : Z) (data : bytes) | UpReject (data : bytes).

(** ppp_protocols: LCP and IPCP, both enabled. *)
Definition ppp_protocols : list Z := [PPP_LCP; PPP_IPCP].

Definition pppACCMMask : list Z := [0x01; 0x02; 0x04; 0x08; 0x10; 0x20; 0x40; 0x80].

Definition ESCAPE_P (accm : bytes) (c : Z) : bool :=
  nz (Z.land (List.nth (Z.to_nat (Z.shiftr c 3)) accm 0) (List.nth (Z.to_nat (Z.land c 0x07)) pppACCMMask 0)).

Section ops.
Context {E : Type}.
Implicit Types (s : ppp_link E).

Definition set_rx v s : ppp_link E := Ppp v (openFlag s) (pcomp s) (accomp s) (lastXMit s) (outACCM s) (netif_input s) (lcp_phase s) (pool s) (now s) (link_stats s) (env s).

Definition set_last v s : ppp_link E := Ppp (rx s) (openFlag s) (pcomp s) (accomp s) v (outACCM s) (netif_input s) (lcp_phase s) (pool s) (now s) (link_stats s) (env s).

Definition set_pool v s : ppp_link E := Ppp (rx s) (openFlag s) (pcomp s) (accomp s) (lastXMit s) (outACCM s) (netif_input s) (lcp_phase s) v (now s) (link_stats s) (env s).

Definition add_stat v s : ppp_link E := Ppp (rx s) (openFlag s) (pcomp s) (accomp s) (lastXMit s) (outACCM s) (netif_input s) (lcp_phase s) (pool s) (now s) (link_stats s ++ [v]) (env s).

Definition set_env v s : ppp_link E := Ppp (rx s) (openFlag s) (pcomp s) (accomp s) (lastXMit s) (outACCM s) (netif_input s) (lcp_phase s) (pool s) (now s) (link_stats s) v.

Definition modr (f : ppp_rx -> ppp_rx) : M (ppp_link E) unit := modify (fun s => set_rx (f (rx s)) s).

Definition getr : M (ppp_link E) ppp_rx := s ← get; mret (rx s).

Definition inc (v : link_stat) : M (ppp_link E) unit := modify (add_stat v).

(** pbuf_alloc(PBUF_RAW, 0, PBUF_POOL), and pbuf_free of a chain of [n]. *)
Definition alloc_pool : M (ppp_link E) bool :=
  s ← get;
  if 0 <? pool s then modify (set_pool (pool s - 1));; mret true else mret false.

Definition free_pool (n : Z) : M (ppp_link E) unit := modify (fun s => set_pool (pool s + n) s).

(** ** Sending *)

(** The device: how many bytes it takes.  The heap: whether it has room.  The protocols. *)
Context (sio_write : bytes -> E -> Z * E).
Context (heap_room : Z -> ppp_link E -> bool).
Context (upcall : ppp_upcall -> M (ppp_link E) unit).

(** The frame being sent: its buffers, the last one apart, and whether tailMB is not NULL. *)
Record outbuf := OutBuf { ob_chain : list bytes; ob_last : bytes; ob_ok : bool }.

(** Room for the byte and an escape: another buffer when the last one is full. *)
Definition append_room (nb : outbuf) : M (ppp_link E) outbuf :=
  if PBUF_POOL_BUFSIZE - zlen (ob_last nb) <? 2 then
    ok ← alloc_pool;
    if ok : bool then mret (OutBuf (ob_chain nb ++ [ob_last nb]) [] true)
    else inc lk_memerr;; mret (OutBuf (ob_chain nb) (ob_last nb) false)
  else mret nb.

Definition pppAppend (c : Z) (nb : outbuf) (accm : option bytes) : M (ppp_link E) outbuf :=
  if negb (ob_ok nb) then mret nb
  else
    nb ← append_room nb;
    mret (if ob_ok nb then
            OutBuf (ob_chain nb)
              (ob_last nb ++ if match accm with Some accm => ESCAPE_P accm c | None => false end then [PPP_ESCAPE; Z.lxor c PPP_TRANS] else [c]) true
          else nb).

(** The buffers of nPut are written one after the other until the device does not take one
    whole. *)
Fixpoint nput_write (bufs : list bytes) : M (ppp_link E) bool :=
  match bufs with
  | [] => mret true
  | b :: bufs =>
      s ← get;
      let w := sio_write b (env s) in
      modify (set_env w.2);;
      if w.1 =? zlen b then nput_write bufs else inc lk_err;; modify (set_last 0);; mret false
  end.

Definition nPut (bufs : list bytes) : M (ppp_link E) unit :=
  ok ← nput_write bufs;
  free_pool (zlen bufs);;
  if ok : bool then inc lk_xmit else mret tt.

(** Bytes of a frame that are checked and escaped. *)
Fixpoint append_bytes (bs : bytes) (fcs : Z) (nb : outbuf) : M (ppp_link E) (Z * outbuf) :=
  match bs with
  | [] => mret (fcs, nb)
  | c :: bs =>
      s ← get;
      nb ← pppAppend c nb (Some (outACCM s));
      append_bytes bs (PPP_FCS fcs c) nb
  end.

(** A flag first when the line has been idle. *)
Definition start_frame : M (ppp_link E) outbuf :=
  s ← get;
  nb ← (if PPP_MAXIDLEFLAG <=? u64 (now s - lastXMit s) then pppAppend PPP_FLAG (OutBuf [] [] true) None else mret (OutBuf [] [] true));
  modify (set_last (now s));;
  mret nb.

(** The check sequence and the flag at the end. *)
Definition end_frame (fcs : Z) (nb : outbuf) : M (ppp_link E) outbuf :=
  s ← get;
  nb ← pppAppend (Z.land (Z.lnot fcs) 0xff) nb (Some (outACCM s));
  nb ← pppAppend (Z.land (Z.shiftr (Z.lnot fcs) 8) 0xff) nb (Some (outACCM s));
  pppAppend PPP_FLAG nb None.

Definition out_bufs (nb : outbuf) : list bytes := ob_chain nb ++ [ob_last nb].

(** pppWrite of what is behind [bs]; true for PPPERR_NONE, false for PPPERR_ALLOC. *)
Definition pppWrite (bs : bytes) : M (ppp_link E) bool :=
  ok ← alloc_pool;
  if negb (ok : bool) then inc lk_memerr;; inc lk_proterr;; mret false
  else
    nb ← start_frame;
    r ← append_bytes bs PPP_INITFCS nb;
    nb ← end_frame r.1 r.2;
    if negb (ob_ok nb) then free_pool (zlen (out_bufs nb));; inc lk_memerr;; inc lk_proterr;; mret false
    else nPut (out_bufs nb);; mret true.

(** err_t of pppifOutput. *)
Inductive ppp_err : Set := PppOk | PppArg | PppRte | PppMem.

(** The PPP header of an IP packet: the first two bytes unless the peer can do without,
    then the protocol. *)
Definition ppp_header (s : ppp_link E) : bytes :=
  (if accomp s then [] else [PPP_ALLSTATIONS; PPP_UI]) ++ (if pcomp s then [] else [Z.land (Z.shiftr PPP_IP 8) 0xff]) ++ [Z.land PPP_IP 0xff].

(** [None] is a NULL packet. *)
Definition pppifOutput (pb : option (list bytes)) : M (ppp_link E) ppp_err :=
  s ← get;
  match pb with
  | Some bufs =>
      if negb (openFlag s) then inc lk_opterr;; inc lk_drop;; mret PppArg
      else if lcp_phase s =? PHASE_DEAD then inc lk_rterr;; inc lk_drop;; mret PppRte
      else
        ok ← alloc_pool;
        if negb (ok : bool) then inc lk_memerr;; inc lk_drop;; mret PppMem
        else
          nb ← start_frame;
          r ← append_bytes (ppp_header s) PPP_INITFCS nb;
          r ← append_bytes (concat bufs) r.1 r.2;
          nb ← end_frame r.1 r.2;
          if negb (ob_ok nb) then free_pool (zlen (out_bufs nb));; inc lk_memerr;; inc lk_drop;; mret PppMem
          else nPut (out_bufs nb);; mret PppOk
  | None => inc lk_opterr;; inc lk_drop;; mret PppArg
  end.

(** ** Receiving *)

(** The bytes a buffer shows behind the header in front. *)
Definition body (b : rxbuf) : bytes := take (Z.to_nat (rb_len b - rb_hdr b)) (rb_bytes b).

(** pppSingleBuf: the bytes in the first buffer afterwards, and the buffers of the pool that
    are left. *)
Definition pppSingleBuf (nb : list bytes) : M (ppp_link E) (bytes * Z) :=
  let first := default [] (head nb) in
  if zlen (concat nb) =? zlen first then mret (first, zlen nb)
  else
    s ← get;
    if heap_room (zlen (concat nb)) s then free_pool (zlen nb);; mret (concat nb, 0)
    else mret (first, zlen nb).

(** Whether a packet of the protocol is taken in the phase of the link. *)
Definition phase_allows (phase protocol : Z) : bool :=
  negb ((phase <=? PHASE_AUTHENTICATE) && negb (protocol =? PPP_LCP) &&
    (negb ((protocol =? PPP_LQR) || (protocol =? PPP_PAP) || (protocol =? PPP_CHAP)) || negb (phase =? PHASE_AUTHENTICATE))).

Definition pppInput (chain : list rxbuf) : M (ppp_link E) unit :=
  b ← deref (head chain);
  pih ← deref (rb_pih b);
  lwip_assert (SIZEOF_PIH <=? rb_len b);;
  inc lk_recv;;
  s ← get;
  let nb := map body chain in
  let protocol := pih.2 in
  let drop := inc lk_drop;; free_pool (zlen chain) in
  if negb (phase_allows (lcp_phase s) protocol) then drop
  else if (protocol =? PPP_VJC_COMP) || (protocol =? PPP_VJC_UNCOMP) then drop
  else if protocol =? PPP_IP then if netif_input s then upcall (UpIp nb) else drop
  else if existsb (Z.eqb protocol) ppp_protocols then
    q ← pppSingleBuf nb;
    upcall (UpProtocol protocol q.1);;
    free_pool q.2
  else
    upcall (UpReject ([Z.land (Z.shiftr protocol 8) 0xff; Z.land protocol 0xff] ++ default [] (head nb)));;
    drop.

Definition pppFreeCurrentInputPacket : M (ppp_link E) unit :=
  r ← getr;
  match inHead r with
  | [] => mret tt
  | _ =>
      match inTail r with Tail _ => free_pool 1 | _ => mret tt end;;
      free_pool (zlen (inHead r))
  end;;
  modr (set_bufs [] NoTail).

Definition pppDrop : M (ppp_link E) unit := pppFreeCurrentInputPacket;; inc lk_drop.

(** pbuf_realloc to [n] bytes. *)
Fixpoint cut_chain (n : Z) (chain : list rxbuf) : list rxbuf :=
  match chain with
  | [] => []
  | b :: chain => if rb_len b <? n then b :: cut_chain (n - rb_len b) chain else [RxBuf (rb_pih b) (rb_bytes b) n]
  end.

Definition chain_len (chain : list rxbuf) : Z := foldr (fun b n => rb_len b + n) 0 chain.

(** A good packet is cut by the two bytes of the FCS and passed on. *)
Definition accept_frame : M (ppp_link E) unit :=
  r ← getr;
  t ← (match inTail r with NoTail => fail Undefined | TailIsHead => deref (list.last (inHead r)) | Tail b => mret b end);
  let linked b := match inTail r with Tail _ => inHead r ++ [b] | _ => [b] end in
  chain ← (if 2 <=? rb_len t then mret (linked (RxBuf (rb_pih t) (rb_bytes t) (rb_len t - 2)))
           else
             let chain := linked t in
             let cut := cut_chain (chain_len chain - 2) chain in
             free_pool (zlen chain - zlen cut);; mret cut);
  modr (set_bufs [] NoTail);;
  pppInput chain.

(** A flag that is not escaped. *)
Definition flag_char : M (ppp_link E) unit :=
  r ← getr;
  (if dev_num (inState r) <=? dev_num PDADDRESS then mret tt
   else if dev_num (inState r) <? dev_num PDDATA then inc lk_lenerr;; pppDrop
   else if negb (inFCS r =? PPP_GOODFCS) then inc lk_chkerr;; pppDrop
   else accept_frame);;
  modr (fun r => set_escaped false (set_dev PDADDRESS (set_fcs PPP_INITFCS r))).

(** The buffer that has room for another byte: the last one, or a new one. *)
Definition make_room : M (ppp_link E) bool :=
  r ← getr;
  let full b := rb_len b =? PBUF_POOL_BUFSIZE in
  let needs := match inTail r with
               | NoTail => true
               | TailIsHead => match list.last (inHead r) with Some b => full b | None => true end
               | Tail b => full b
               end in
  if negb needs then mret true
  else
    match inTail r with Tail b => modr (set_bufs (inHead r ++ [b]) NoTail) | _ => mret tt end;;
    ok ← alloc_pool;
    if ok : bool then
      r ← getr;
      (match inHead r with
       | [] => modr (set_bufs [RxBuf (Some (0, inProtocol r)) [] SIZEOF_PIH] TailIsHead)
       | h => modr (set_bufs h (Tail (RxBuf None [] 0)))
       end);;
      mret true
    else inc lk_memerr;; pppDrop;; modr (set_dev PDSTART);; mret false.

Definition push (c : Z) (b : rxbuf) : rxbuf := RxBuf (rb_pih b) (rb_bytes b ++ [c]) (rb_len b + 1).

(** A byte of the packet. *)
Definition data_char (c : Z) : M (ppp_link E) unit :=
  ok ← make_room;
  if ok : bool then
    modr (fun r => match inTail r with
                   | Tail b => set_bufs (inHead r) (Tail (push c b)) r
                   | _ => set_bufs (map (push c) (inHead r)) (inTail r) r
                   end)
  else mret tt.

Definition protocol1_char (c : Z) : M (ppp_link E) unit :=
  if nz (Z.land c 1) then modr (fun r => set_dev PDDATA (set_protocol c r))
  else modr (fun r => set_dev PDPROTOCOL2 (set_protocol (u16 (Z.shiftl c 8)) r)).

Definition control_char (c : Z) : M (ppp_link E) unit :=
  if c =? PPP_UI then modr (set_dev PDPROTOCOL1) else protocol1_char c.

Definition address_char (c : Z) : M (ppp_link E) unit :=
  if c =? PPP_ALLSTATIONS then modr (set_dev PDCONTROL) else control_char c.

(** The switch on the state. *)
Definition frame_char (c : Z) : M (ppp_link E) unit :=
  r ← getr;
  match inState r with
  | PDIDLE => if negb (c =? PPP_ALLSTATIONS) then mret tt else modr (set_fcs PPP_INITFCS);; address_char c
  | PDSTART => modr (set_fcs PPP_INITFCS);; address_char c
  | PDADDRESS => address_char c
  | PDCONTROL => control_char c
  | PDPROTOCOL1 => protocol1_char c
  | PDPROTOCOL2 => modr (fun r => set_dev PDDATA (set_protocol (Z.lor (inProtocol r) c) r))
  | PDDATA => data_char c
  end.

(** One round of the loop. *)
Definition in_char (curChar : Z) : M (ppp_link E) unit :=
  r ← getr;
  if ESCAPE_P (inACCM r) curChar then
    if curChar =? PPP_ESCAPE then modr (set_escaped true)
    else if curChar =? PPP_FLAG then flag_char
    else mret tt
  else
    let c := if inEscaped r then Z.lxor curChar PPP_TRANS else curChar in
    modr (set_escaped false);;
    frame_char c;;
    modr (fun r => set_fcs (PPP_FCS (inFCS r) c) r).

Fixpoint pppInProc (bs : bytes) : M (ppp_link E) unit :=
  match bs with
  | [] => mret tt
  | c :: bs => in_char c;; pppInProc bs
  end.
End ops.

(** ** Configuration *)

(** The bytes of a character map: bit [c] of the 32 bits, and the escape and flag
    characters in byte 15. *)
Definition accm_of (asyncmap : Z) (old : bytes) : bytes :=
  [Z.land asyncmap 0xff; Z.land (Z.shiftr asyncmap 8) 0xff; Z.land (Z.shiftr asyncmap 16) 0xff; Z.land (Z.shiftr asyncmap 24) 0xff] ++ drop 4 old.

(** The maps pppOverSerialOpen sets up. *)
Definition default_accm : bytes := replicate 15 0 ++ [0x60] ++ replicate 16 0.

Definition ppp_send_config {E} (asyncmap : Z) (pcomp accomp : bool) : M (ppp_link E) unit :=
  modify (fun s => Ppp (rx s) (openFlag s) pcomp accomp (lastXMit s) (accm_of asyncmap (outACCM s)) (netif_input s) (lcp_phase s) (pool s) (now s) (link_stats s) (env s)).

Definition ppp_set_xaccm {E} (accm : bytes) : M (ppp_link E) unit :=
  modify (fun s => Ppp (rx s) (openFlag s) (pcomp s) (accomp s) (lastXMit s) accm (netif_input s) (lcp_phase s) (pool s) (now s) (link_stats s) (env s)).

Definition ppp_recv_config {E} (asyncmap : Z) : M (ppp_link E) unit :=
  modr (fun r => Rx (inHead r) (inTail r) (inProtocol r) (inFCS r) (inState r) (inEscaped r) (accm_of asyncmap (inACCM r))).
