(* ===== verification/PppFrameSpec.v ===== *)
(** * What the frames of PPP promise

    A frame that is sent is received as it was, between any two maps of escaped characters
    of which the sender's has the receiver's; buffers are given back; and what bytes from
    the line do to the receiver. *)

From S2P Require Import Prelude Alloc PppFcs PppFrame.

(** ** Escapes *)

Lemma nz_land_pow2 x k : 0 <= k -> nz (Z.land x (2 ^ k)) = Z.testbit x k.
Proof.
  intros Hk. unfold nz. destruct (Z.testbit x k) eqn:Ht.
  - apply negb_true_iff, Z.eqb_neq. intros E. pose proof (f_equal (fun z => Z.testbit z k) E) as Ek. cbn beta in Ek.
    by rewrite Z.land_spec, Z.pow2_bits_true, Ht, Z.bits_0 in Ek by done.
  - apply negb_false_iff, Z.eqb_eq. apply Z.bits_inj'. intros n Hn. rewrite Z.land_spec, Z.bits_0. destruct (decide (n = k)) as [->|Hne].
    + by rewrite Ht.
    + by rewrite Z.pow2_bits_false, andb_false_r by congruence.
Qed.

(** The characters that a map marks. *)
Definition marked (asyncmap c : Z) : bool := if c <? 32 then Z.testbit asyncmap c else (c =? PPP_ESCAPE) || (c =? PPP_FLAG).

Lemma accm_marks m c : is_u8 c -> ESCAPE_P (accm_of m default_accm) c = marked m c.
Proof.
  unfold is_u8. intros Hc. unfold marked. destruct (Z.ltb_spec c 32) as [Hl|Hl].
  - unfold ESCAPE_P. assert (Z.land c 7 = c mod 8) as -> by exact (land_mask c 3 ltac:(lia)). rewrite Z.shiftr_div_pow2 by done. change (2 ^ 3) with 8.
    assert (List.nth (Z.to_nat (c mod 8)) pppACCMMask 0 = 2 ^ (c mod 8)) as ->.
    { assert (c mod 8 ∈ [0; 1; 2; 3; 4; 5; 6; 7]) as Hin by (assert (0 <= c mod 8 < 8) by (apply Z.mod_pos_bound; lia); rewrite !elem_of_cons; lia).
      revert Hin. generalize (c mod 8). intros z Hin. repeat (apply elem_of_cons in Hin as [->|Hin]; [done|]). by apply elem_of_nil in Hin. }
    rewrite nz_land_pow2 by (apply Z.mod_pos_bound; lia).
    assert (List.nth (Z.to_nat (c / 8)) (accm_of m default_accm) 0 = Z.land (Z.shiftr m (8 * (c / 8))) 0xff) as ->.
    { assert (c / 8 ∈ [0; 1; 2; 3]) as Hin by (assert (0 <= c / 8 < 4) by zdm; rewrite !elem_of_cons; lia).
      revert Hin. generalize (c / 8). intros z Hin. repeat (apply elem_of_cons in Hin as [->|Hin]; [done|]). by apply elem_of_nil in Hin. }
    assert (0 <= c mod 8 < 8) as Hm by (apply Z.mod_pos_bound; lia). rewrite Z.land_spec, Z.shiftr_spec by lia. change 0xff with (Z.ones 8).
    rewrite Z.ones_spec_low, andb_true_r by lia. f_equal. zdm.
  - assert (forallb (fun k => Bool.eqb (ESCAPE_P (accm_of m default_accm) (Z.of_nat k)) ((Z.of_nat k =? PPP_ESCAPE) || (Z.of_nat k =? PPP_FLAG))) (seq 32 224) = true) as Hall by reflexivity.
    rewrite forallb_forall in Hall. specialize (Hall (Z.to_nat c)). rewrite Z2Nat.id in Hall by lia. apply Bool.eqb_prop, Hall. apply in_seq. lia.
Qed.

(** How a byte goes over the line. *)
Definition enc (accm : bytes) (c : Z) : bytes := if ESCAPE_P accm c then [PPP_ESCAPE; Z.lxor c PPP_TRANS] else [c].

Definition enc_list (accm : bytes) (cs : bytes) : bytes := concat (map (enc accm) cs).

(** A sender escapes what the receiver would take for a control character, and no escaped
    byte is one. *)
Record accm_ok (out inn : bytes) : Prop := AccmOk {
  ao_escape : ESCAPE_P inn PPP_ESCAPE = true;
  ao_flag : ESCAPE_P inn PPP_FLAG = true;
  ao_sub c : is_u8 c -> ESCAPE_P inn c = true -> ESCAPE_P out c = true;
  ao_trans c : is_u8 c -> ESCAPE_P out c = true -> ESCAPE_P inn (Z.lxor c PPP_TRANS) = false
}.

Lemma accm_of_ok out inn : (forall c, 0 <= c < 32 -> Z.testbit inn c = true -> Z.testbit out c = true) ->
  accm_ok (accm_of out default_accm) (accm_of inn default_accm).
Proof.
  intros Hsub. split; try reflexivity.
  - intros c Hc. rewrite !accm_marks by done. unfold marked. destruct (Z.ltb_spec c 32); [|done]. apply Hsub. unfold is_u8 in Hc. lia.
  - intros c Hc. rewrite accm_marks by done. unfold marked. destruct (Z.ltb_spec c 32) as [Hl|Hl].
    + intros _. assert (Z.lxor c PPP_TRANS = c + 32) as Et.
      { unfold PPP_TRANS. rewrite <- Z.add_nocarry_lxor; [done|]. unfold is_u8 in Hc. change 32 with (2 ^ 5). apply Z.bits_inj'. intros n Hn.
        rewrite Z.land_spec, Z.bits_0. destruct (decide (n = 5)) as [->|Hne]; [|by rewrite Z.pow2_bits_false, andb_false_r by congruence].
        rewrite <- (Z.mod_small c (2 ^ 5)) by lia. by rewrite Z.mod_pow2_bits_high by lia. }
      rewrite Et, accm_marks by (unfold is_u8 in *; lia). unfold marked, PPP_ESCAPE, PPP_FLAG, is_u8 in *. rewrite (proj2 (Z.ltb_ge _ _)) by lia. lia.
    + intros [->%Z.eqb_eq| ->%Z.eqb_eq]%orb_true_iff; reflexivity.
Qed.

(** ** Sending *)

Section send.
Context {E : Type}.
Context (sio_write : bytes -> E -> Z * E).
Implicit Types (s : ppp_link E).

(** The bytes in the buffers of a frame. *)
Definition out_bytes (nb : outbuf) : bytes := concat (out_bufs nb).

(** [s'] is [s] but for the pool, the counters and the time of the last transmission. *)
Definition same_link s s' : Prop :=
  rx s' = rx s /\ outACCM s' = outACCM s /\ env s' = env s /\ pcomp s' = pcomp s /\ accomp s' = accomp s /\ now s' = now s /\
  openFlag s' = openFlag s /\ netif_input s' = netif_input s /\ lcp_phase s' = lcp_phase s.

Lemma same_link_refl s : same_link s s.
Proof. done. Qed.

Lemma same_link_trans s1 s2 s3 : same_link s1 s2 -> same_link s2 s3 -> same_link s1 s3.
Proof. unfold same_link. intuition congruence. Qed.

(** A frame being sent from [s0]: its buffers are from the pool, and all but the last are
    full. *)
Record sending s0 s (nb : outbuf) (line : bytes) : Prop := Sending {
  sd_same : same_link s0 s;
  sd_pool : 0 <= pool s /\ pool s + zlen (out_bufs nb) = pool s0;
  sd_full : Forall (fun b => 591 <= zlen b) (ob_chain nb);
  sd_bytes : ob_ok nb = true -> out_bytes nb = line;
  sd_room : ob_ok nb = false -> 591 * pool s0 <= zlen line
}.

Lemma out_bytes_len nb : Forall (fun b => 591 <= zlen b) (ob_chain nb) -> 591 * (zlen (out_bufs nb) - 1) + zlen (ob_last nb) <= zlen (out_bytes nb).
Proof.
  unfold out_bytes, out_bufs. rewrite concat_app, !zlen_app. cbn [concat]. rewrite app_nil_r, zlen_cons, zlen_nil.
  induction 1 as [|b bs Hb Hbs IH]; cbn [concat]; unfold zlen in *; rewrite ?length_app; cbn [length]; lia.
Qed.

Lemma append_ok s0 s nb line c accm : sending s0 s nb line ->
  wp (pppAppend c nb accm) s (fun nb' s' => sending s0 s' nb' (line ++ match accm with Some accm => enc accm c | None => [c] end)).
Proof.
  intros [Hs [Hp0 Hp] Hf Hb Hr]. unfold pppAppend. destruct (ob_ok nb) eqn:Hok; cbn [negb].
  2: { wp_step. split; try done; [by rewrite Hok|]. intros _. rewrite zlen_app. pose proof (zlen_nonneg (match accm with Some accm => enc accm c | None => [c] end)). specialize (Hr eq_refl). lia. }
  assert (forall pre, pre ++ (if match accm with Some accm => ESCAPE_P accm c | None => false end then [PPP_ESCAPE; Z.lxor c PPP_TRANS] else [c]) =
    pre ++ match accm with Some accm => enc accm c | None => [c] end) as Henc.
  { intros pre. unfold enc. by destruct accm as [accm|]; [destruct (ESCAPE_P accm c)|]. }
  wp_step. unfold append_room. change PBUF_POOL_BUFSIZE_ALIGNED with 592. destruct (Z.ltb_spec (592 - zlen (ob_last nb)) 2) as [Hfull|Hroom].
  - wp_step. unfold alloc_pool. wp_step. wp_step. destruct (Z.ltb_spec 0 (pool s)) as [Hpos|Hnone].
    + repeat wp_step. cbn [ob_ok ob_chain ob_last]. rewrite Henc. cbn [app]. split; try done; cbn [ob_chain ob_last ob_ok pool set_pool] in *.
      * split; [lia|]. revert Hp. unfold out_bufs. cbn [ob_chain ob_last]. rewrite !zlen_app, !zlen_cons, zlen_nil. lia.
      * apply list.Forall_app. split; [done|]. constructor; [lia|done].
      * intros _. rewrite <- (Hb eq_refl). unfold out_bytes, out_bufs. cbn [ob_chain ob_last]. rewrite !concat_app. cbn [concat]. by rewrite !app_nil_r.
    + unfold inc. repeat wp_step. cbn [ob_ok]. split; try done; cbn [pool add_stat]. intros _. pose proof (out_bytes_len nb Hf) as Hl. rewrite (Hb eq_refl) in Hl.
      rewrite zlen_app. pose proof (zlen_nonneg (match accm with Some accm => enc accm c | None => [c] end)). lia.
  - repeat wp_step. rewrite Hok, Henc. split; try done; cbn [ob_chain ob_last ob_ok] in *.
    { split; [done|]. revert Hp. unfold out_bufs. cbn [ob_chain ob_last]. by rewrite !zlen_app, !zlen_cons. }
    intros _. rewrite <- (Hb eq_refl). unfold out_bytes, out_bufs. cbn [ob_chain ob_last]. rewrite !concat_app. cbn [concat]. by rewrite !app_nil_r, !app_assoc.
Qed.

Lemma append_bytes_ok s0 bs : forall s nb line fcs, sending s0 s nb line ->
  wp (append_bytes bs fcs nb) s (fun r s' => r.1 = fcs_over fcs bs /\ sending s0 s' r.2 (line ++ enc_list (outACCM s0) bs)).
Proof.
  induction bs as [|c bs IH]; intros s nb line fcs Hs; cbn [append_bytes].
  - wp_step. split; [done|]. by rewrite app_nil_r.
  - wp_step. wp_step. wp_step. destruct (sd_same _ _ _ _ Hs) as (_ & Ha & _). rewrite Ha. eapply wp_mono; [by apply (append_ok s0 s nb line c (Some (outACCM s0)))|].
    intros nb' s' Hs'. eapply wp_mono; [exact (IH s' nb' _ (PPP_FCS fcs c) Hs')|]. intros r s2 [Hr Hs2]. split; [done|].
    unfold enc_list in *. cbn [map concat]. by rewrite app_assoc.
Qed.

Definition idle s : bool := PPP_MAXIDLEFLAG <=? u64 (now s - lastXMit s).

Lemma start_ok s0 : 0 < pool s0 ->
  wp start_frame (set_pool (pool s0 - 1) s0) (fun nb s' => sending s0 s' nb (if idle s0 then [PPP_FLAG] else [])).
Proof.
  intros Hp. assert (sending s0 (set_pool (pool s0 - 1) s0) (OutBuf [] [] true) []) as Hs.
  { split; try done; cbn [pool set_pool]. split; [lia|]. change (zlen _) with 1. lia. }
  unfold start_frame. wp_step. wp_step. wp_step.
  apply (wp_mono _ _ (fun nb s' => sending s0 s' nb (if idle s0 then [PPP_FLAG] else []))).
  { unfold idle. cbn [now lastXMit set_pool]. destruct (PPP_MAXIDLEFLAG <=? _); [|by wp_step]. exact (append_ok s0 _ _ [] PPP_FLAG None Hs). }
  intros nb s' [H1 H2 H3 H4 H5]. wp_step. wp_step. wp_step. by split.
Qed.

Lemma end_ok s0 s nb line fcs : sending s0 s nb line ->
  wp (end_frame fcs nb) s (fun nb' s' => sending s0 s' nb' (line ++ enc_list (outACCM s0) (fcs_bytes fcs) ++ [PPP_FLAG])).
Proof.
  intros Hs. unfold end_frame. destruct (sd_same _ _ _ _ Hs) as (_ & Ha & _). wp_step. wp_step. rewrite Ha. wp_step.
  eapply wp_mono; [by apply (append_ok s0 s nb line)|]. intros nb1 s1 Hs1. wp_step. eapply wp_mono; [exact (append_ok _ _ _ _ _ _ Hs1)|]. intros nb2 s2 Hs2.
  eapply wp_mono; [exact (append_ok _ _ _ _ _ None Hs2)|]. intros nb3 s3 Hs3. unfold enc_list, fcs_bytes. cbn [map concat]. rewrite app_nil_r, <- !app_assoc. cbn beta in Hs3. by rewrite <- !app_assoc in Hs3.
Qed.

(** The device takes all it is given, and its line is what it was given. *)
Context (wire : E -> bytes).
Context (sio_all : forall bs e, (sio_write bs e).1 = zlen bs /\ wire (sio_write bs e).2 = wire e ++ bs).

Lemma nput_write_ok bufs : forall s, wp (nput_write sio_write bufs) s (fun ok s' => ok = true /\ s' = set_env (env s') s /\ wire (env s') = wire (env s) ++ concat bufs).
Proof.
  induction bufs as [|b bufs IH]; intros s; cbn [nput_write].
  - wp_step. split; [done|]. split; [by destruct s|]. by rewrite app_nil_r.
  - wp_step. wp_step. cbv zeta. wp_step. wp_step. destruct (sio_all b (env s)) as [Hn Hw]. rewrite Hn, Z.eqb_refl.
    eapply wp_mono; [apply IH|]. intros ok s' (Hok & Hs' & Hw'). split; [done|]. split; [by rewrite Hs'|]. rewrite Hw'. cbn [env set_env concat]. by rewrite Hw, app_assoc.
Qed.

Lemma nPut_ok bufs s : wp (nPut sio_write bufs) s (fun _ s' => same_link (set_env (env s') s) s' /\ pool s' = pool s + zlen bufs /\ wire (env s') = wire (env s) ++ concat bufs).
Proof.
  unfold nPut. wp_step. eapply wp_mono; [apply nput_write_ok|]. intros ok s1 (-> & Hs1 & Hw). unfold free_pool, inc. wp_step. wp_step. wp_step.
  rewrite Hs1. by split.
Qed.

(** The line of a frame: a flag when it was idle, the bytes and their check sequence
    escaped, a flag. *)
Definition frame_line s (bs : bytes) : bytes :=
  (if idle s then [PPP_FLAG] else []) ++ enc_list (outACCM s) (bs ++ fcs_bytes (fcs_over PPP_INITFCS bs)) ++ [PPP_FLAG].

Lemma enc_list_app accm bs1 bs2 : enc_list accm (bs1 ++ bs2) = enc_list accm bs1 ++ enc_list accm bs2.
Proof. unfold enc_list. by rewrite map_app, concat_app. Qed.

Lemma frame_room s bs line : line = frame_line s bs -> 0 <= pool s -> zlen line < 591 * pool s -> 0 < pool s.
Proof. intros -> Hp Hl. pose proof (zlen_nonneg (frame_line s bs)). lia. Qed.

(** pppWrite: the frame goes out whole, or nothing does; the buffers are given back; and it
    does go out when the pool has a buffer for every 591 bytes of it. *)
Lemma ppp_write_ok s bs : 0 <= pool s ->
  wp (pppWrite sio_write bs) s (fun ok s' =>
    same_link (set_env (env s') s) s' /\ pool s' = pool s /\
    wire (env s') = wire (env s) ++ (if ok then frame_line s bs else []) /\
    (ok = false -> 591 * pool s <= zlen (frame_line s bs))).
Proof.
  intros Hp. unfold pppWrite, alloc_pool, inc, free_pool. wp_step. wp_step. wp_step. destruct (Z.ltb_spec 0 (pool s)) as [Hpos|Hnone].
  2: { repeat wp_step. cbn [negb]. repeat wp_step. split; [by destruct s|]. split; [done|]. rewrite app_nil_r. split; [done|]. intros _.
       pose proof (zlen_nonneg (frame_line s bs)). lia. }
  wp_step. wp_step. wp_step. cbn [negb]. wp_step. eapply wp_mono; [by apply start_ok|]. intros nb s1 Hs1. wp_step.
  eapply wp_mono; [exact (append_bytes_ok _ _ _ _ _ _ Hs1)|]. intros [fcs nb2] s2 [Hfcs Hs2]. cbn [fst snd] in *. subst fcs. wp_step.
  eapply wp_mono; [exact (end_ok _ _ _ _ _ Hs2)|]. intros nb3 s3 Hs3. rewrite <- !app_assoc in Hs3. rewrite (app_assoc (enc_list _ bs)), <- enc_list_app in Hs3.
  change (_ ++ _ ++ [PPP_FLAG]) with (frame_line s bs) in Hs3. destruct Hs3 as [Hl [Hp3 Hpool] _ Hb Hr]. destruct (ob_ok nb3); cbn [negb].
  - wp_step. eapply wp_mono; [apply nPut_ok|]. intros [] s4 (Hl4 & Hp4 & Hw4). wp_step. split; [|split; [lia|split; [|done]]].
    + eapply same_link_trans; [|exact Hl4]. unfold same_link in *. cbn [rx outACCM env pcomp accomp now openFlag netif_input lcp_phase set_env]. intuition congruence.
    + rewrite Hw4. destruct Hl as (_ & _ & -> & _). f_equal. by apply Hb.
  - repeat wp_step. split; [|split; [cbn; lia|split; [|intros _; by apply Hr]]].
    + unfold same_link in *. cbn in *. intuition congruence.
    + cbn. rewrite app_nil_r. by destruct Hl as (_ & _ & -> & _).
Qed.
End send.

(** ** Receiving *)

Section receive.
Context {E : Type}.
Context (heap_room : Z -> ppp_link E -> bool).
Context (upcall : ppp_upcall -> M (ppp_link E) unit).
Implicit Types (s : ppp_link E).

(** A byte once the escapes are off. *)
Definition take_char (c : Z) : M (ppp_link E) unit := frame_char c;; modr (fun r => set_fcs (PPP_FCS (inFCS r) c) r).

Definition plain (accm : bytes) s : Prop := inEscaped (rx s) = false /\ inACCM (rx s) = accm.

Lemma set_rx_id s : set_rx (rx s) s = s.
Proof. by destruct s. Qed.

Lemma escaped_id r : inEscaped r = false -> set_escaped false r = r.
Proof. destruct r. cbn. by intros ->. Qed.

Lemma getr_bind {A} (k : ppp_rx -> M (ppp_link E) A) s : (getr ≫= k) s = k (rx s) s.
Proof. unfold getr. by rewrite bind_assoc, get_bind, ret_bind. Qed.

Lemma modr_bind {A} f (k : unit -> M (ppp_link E) A) s : (modr f ≫= k) s = k tt (set_rx (f (rx s)) s).
Proof. done. Qed.

Lemma in_char_escape s : ESCAPE_P (inACCM (rx s)) PPP_ESCAPE = true ->
  in_char heap_room upcall PPP_ESCAPE s = Done (tt, set_rx (set_escaped true (rx s)) s).
Proof. intros He. unfold in_char. by rewrite getr_bind, He. Qed.

Lemma in_char_plain c s : ESCAPE_P (inACCM (rx s)) c = false ->
  in_char heap_room upcall c s = take_char (if inEscaped (rx s) then Z.lxor c PPP_TRANS else c) (set_rx (set_escaped false (rx s)) s).
Proof. intros He. unfold in_char. rewrite getr_bind, He, modr_bind. done. Qed.

Lemma inproc_one c s : pppInProc heap_room upcall [c] s = in_char heap_room upcall c s.
Proof. cbn [pppInProc]. unfold mbind, M_bind. by destruct (in_char _ _ c s) as [[[] s']|]. Qed.

Lemma inproc_cons c bs s : pppInProc heap_room upcall (c :: bs) s = (in_char heap_room upcall c;; pppInProc heap_room upcall bs) s.
Proof. done. Qed.

(** The bytes of one character on the line are one step of the receiver. *)
Lemma enc_step out inn c s : accm_ok out inn -> is_u8 c -> plain inn s -> pppInProc heap_room upcall (enc out c) s = take_char c s.
Proof.
  intros Hok Hc [He Ha]. unfold enc. destruct (ESCAPE_P out c) eqn:Hout.
  - rewrite inproc_cons, (bind_done _ _ _ _ _ (in_char_escape s ltac:(by rewrite Ha, (ao_escape _ _ Hok)))), inproc_one, in_char_plain.
    + cbn [rx set_rx inEscaped set_escaped]. rewrite Z.lxor_assoc, Z.lxor_nilpotent, Z.lxor_0_r. f_equal.
      destruct s as [[] ? ? ? ? ? ? ? ? ? ? ?]. cbn in *. by rewrite He.
    + cbn [rx set_rx inACCM set_escaped]. rewrite Ha. by apply (ao_trans _ _ Hok).
  - rewrite inproc_one, in_char_plain, He, escaped_id, set_rx_id; [done|done|]. rewrite Ha.
    destruct (ESCAPE_P inn c) eqn:Hin; [|done]. by rewrite (ao_sub _ _ Hok) in Hout.
Qed.

Lemma inproc_app bs1 bs2 s : pppInProc heap_room upcall (bs1 ++ bs2) s = (pppInProc heap_room upcall bs1;; pppInProc heap_room upcall bs2) s.
Proof.
  revert s. induction bs1 as [|c bs1 IH]; intros s; cbn [app pppInProc]; [done|]. rewrite bind_assoc. unfold mbind, M_bind in *.
  destruct (in_char _ _ c s) as [[[] s']|]; [apply IH|done].
Qed.
(** *** The packet under construction *)

Definition buf_ok (b : rxbuf) : Prop := rb_len b = rb_hdr b + zlen (rb_bytes b) /\ rb_len b <= 592 /\ 0 < zlen (rb_bytes b).

Definition full_buf (b : rxbuf) : Prop := buf_ok b /\ rb_len b = 592 /\ rb_pih b = None.

(** The buffers hold the bytes [ds] of a packet: all but the last are full, and the first
    has the header. *)
Inductive holding (proto : Z) : list rxbuf -> in_tail -> bytes -> Prop :=
| hold_none : holding proto [] NoTail []
| hold_one b : buf_ok b -> rb_pih b = Some (0, proto) -> holding proto [b] TailIsHead (rb_bytes b)
| hold_more b h t : buf_ok b -> rb_len b = 592 -> rb_pih b = Some (0, proto) -> Forall full_buf h -> buf_ok t -> rb_pih t = None ->
    holding proto (b :: h) (Tail t) (concat (map rb_bytes (b :: h)) ++ rb_bytes t).

Definition nbufs (h : list rxbuf) (t : in_tail) : Z := zlen h + match t with Tail _ => 1 | _ => 0 end.

(** The buffers that are free or in the packet. *)
Definition total s : Z := pool s + nbufs (inHead (rx s)) (inTail (rx s)).

(** [s'] is [s] but for the receiver, the pool and the counters. *)
Definition around s s' : Prop := same_link (set_rx (rx s') s) s'.

Lemma full_bytes h : Forall full_buf h -> zlen (concat (map rb_bytes h)) = 592 * zlen h.
Proof.
  induction 1 as [|b h [[Hl _] [Hf Hn]] _ IH]; [done|]. cbn [map concat]. rewrite zlen_app, zlen_cons, IH. unfold rb_hdr in Hl. rewrite Hn in Hl. lia.
Qed.

Lemma holding_len proto h t ds : holding proto h t ds ->
  match t with NoTail => nbufs h t = 0 | TailIsHead => nbufs h t = 1 | Tail b => 592 * (nbufs h t - 1) + rb_len b = SIZEOF_PIH + zlen ds end.
Proof.
  intros [|b Hb Hp|b h' t' Hb Hl Hp Hh Ht Hn]; try done. unfold nbufs. cbn [map concat]. rewrite zlen_cons, !zlen_app, full_bytes by done.
  destruct Hb as [Hb _], Ht as [Ht _]. unfold rb_hdr, SIZEOF_PIH in *. rewrite Hp in Hb. rewrite Hn in Ht. lia.
Qed.

Lemma push_ok c b : buf_ok b -> rb_len b <> 592 -> buf_ok (push c b).
Proof. intros (Hl & Hm & Hp) Hn. unfold buf_ok, push, rb_hdr in *. cbn [rb_pih rb_bytes rb_len]. rewrite zlen_app. change (zlen [c]) with 1. lia. Qed.

(** A new buffer with its first byte. *)
Lemma new_buf_ok pih c : buf_ok (push c (RxBuf pih [] (match pih with Some _ => SIZEOF_PIH | None => 0 end))).
Proof. unfold buf_ok, push, rb_hdr, SIZEOF_PIH. cbn [rb_pih rb_bytes rb_len app]. change (zlen [c]) with 1. destruct pih; lia. Qed.

Definition data_done (c : Z) s proto ds s' : Prop :=
  around s s' /\ 0 <= pool s' /\ total s' = total s /\
  ((exists h t, rx s' = set_bufs h t (rx s) /\ holding proto h t (ds ++ [c])) \/
   (rx s' = set_dev PDSTART (set_bufs [] NoTail (rx s)) /\ 592 * total s <= SIZEOF_PIH + zlen ds)).

(** Room is there already. *)
Lemma data_char_fits c s proto ds : holding proto (inHead (rx s)) (inTail (rx s)) ds -> 0 <= pool s ->
  match inTail (rx s) with NoTail => False | TailIsHead => Forall (fun b => rb_len b <> 592) (inHead (rx s)) | Tail b => rb_len b <> 592 end ->
  wp (data_char c) s (fun _ s' => data_done c s proto ds s').
Proof.
  intros Hh Hp Hroom. unfold data_char, make_room. wp_step. wp_step. unfold getr. wp_step. wp_step. wp_step. cbv zeta.
  destruct s as [[h t pr fcs dev esc accm] op pc ac lx oa ni ph po nw ls ev]. cbn [rx inHead inTail] in *.
  destruct Hh as [|b Hb Hpih|b h t Hb Hl Hpih Hfull Ht Hn]; [done| |].
  - apply list.Forall_cons in Hroom as [Hroom _]. cbn beta in Hroom. cbn [list.last]. change PBUF_POOL_BUFSIZE_ALIGNED with 592.
    assert ((rb_len b =? 592) = false) as -> by lia. cbn [negb].
    wp_step. cbv iota. unfold modr. wp_step. unfold data_done, total. cbn [rx set_rx pool inHead inTail set_bufs map]. split; [done|]. split; [done|]. split; [done|].
    left. exists [push c b], TailIsHead. split; [done|]. apply (hold_one proto (push c b)); [by apply push_ok|done].
  - change PBUF_POOL_BUFSIZE_ALIGNED with 592. assert ((rb_len t =? 592) = false) as -> by lia. cbn [negb].
    wp_step. cbv iota. unfold modr. wp_step. unfold data_done, total. cbn [rx set_rx pool inHead inTail set_bufs map]. split; [done|]. split; [done|]. split; [done|].
    left. exists (b :: h), (Tail (push c t)). split; [done|]. rewrite <- app_assoc. apply (hold_more proto b h (push c t)); try done. by apply push_ok.
Qed.
Lemma drop_ok s : (inHead (rx s) = [] -> inTail (rx s) = NoTail) ->
  wp pppDrop s (fun _ s' => around s s' /\ rx s' = set_bufs [] NoTail (rx s) /\ pool s' = total s).
Proof.
  intros Ht. unfold pppDrop, pppFreeCurrentInputPacket, getr, free_pool, modr, inc, total, nbufs. repeat wp_step.
  destruct s as [[h t pr fcs dev esc accm] op pc ac lx oa ni ph po nw ls ev]. cbn [rx inHead inTail] in *. destruct h as [|b h].
  - rewrite Ht by done. repeat wp_step. cbn. split; [done|]. split; [done|]. unfold zlen. cbn. lia.
  - destruct t as [| |t]; repeat wp_step; cbn [rx set_rx pool set_pool add_stat inHead]; (split; [done|]); (split; [done|]); lia.
Qed.

(** Another buffer is needed. *)
Lemma data_char_grows c s ds : holding (inProtocol (rx s)) (inHead (rx s)) (inTail (rx s)) ds -> 0 <= pool s ->
  match inTail (rx s) with NoTail => True | TailIsHead => Forall (fun b => rb_len b = 592) (inHead (rx s)) | Tail b => rb_len b = 592 end ->
  wp (data_char c) s (fun _ s' => data_done c s (inProtocol (rx s)) ds s').
Proof.
  intros Hh Hp Hfull. pose proof (holding_len _ _ _ _ Hh) as Hlen. unfold data_char, make_room. wp_step. wp_step. unfold getr. wp_step. wp_step. wp_step. cbv zeta.
  set (needs := match inTail (rx s) with NoTail => true | _ => _ end). assert (needs = true) as Hneeds.
  { subst needs. change PBUF_POOL_BUFSIZE_ALIGNED with 592. destruct Hh as [|b Hb Hpih|b h t Hb Hl Hpih Hf Ht Hn]; [done| |by rewrite Hfull].
    apply list.Forall_cons in Hfull as [Hf _]. cbn [list.last]. by rewrite Hf. }
  rewrite Hneeds. cbn [negb]. clear needs Hneeds. wp_step.
  set (h1 := match inTail (rx s) with Tail b => inHead (rx s) ++ [b] | _ => inHead (rx s) end).
  set (t1 := match inTail (rx s) with Tail _ => NoTail | t => t end).
  apply (wp_mono _ _ (fun _ s1 => s1 = set_rx (set_bufs h1 t1 (rx s)) s)).
  { subst h1 t1. destruct s as [[h t pr fcs dev esc accm] op pc ac lx oa ni ph po nw ls ev]. cbn [rx inHead inTail] in *. destruct t; unfold modr; by wp_step. }
  intros [] s1 ->. wp_step. unfold alloc_pool. wp_step. wp_step. cbn [pool set_rx]. destruct (Z.ltb_spec 0 (pool s)) as [Hpos|Hnone].
  - wp_step. wp_step. wp_step. cbv iota. wp_step. wp_step. wp_step. wp_step. unfold modr.
    destruct s as [[h t pr fcs dev esc accm] op pc ac lx oa ni ph po nw ls ev]. cbn [rx inHead inTail inProtocol set_rx set_bufs set_pool pool] in *. subst h1 t1.
    destruct Hh as [|b Hb Hpih|b h t Hb Hl Hpih Hf Ht Hn]; cbn [app]; repeat wp_step; cbv iota; unfold data_done, total, nbufs;
      cbn [rx set_rx set_bufs set_pool pool inHead inTail]; (split; [done|]); (split; [lia|]); (split; [unfold zlen; cbn [length map]; rewrite ?length_app; cbn [length]; lia|]); left.
    + exists [push c (RxBuf (Some (0, pr)) [] SIZEOF_PIH)], TailIsHead. split; [done|]. apply (hold_one pr); [apply (new_buf_ok (Some (0, pr)))|done].
    + apply list.Forall_cons in Hfull as [Hfl _]. exists [b], (Tail (push c (RxBuf None [] 0))). split; [done|].
      replace (rb_bytes b ++ [c]) with (concat (map rb_bytes [b]) ++ rb_bytes (push c (RxBuf None [] 0))) by (cbn [map concat push rb_bytes app]; by rewrite app_nil_r).
      apply hold_more; try done.
    + exists (b :: h ++ [t]), (Tail (push c (RxBuf None [] 0))). split; [done|].
      replace ((concat (map rb_bytes (b :: h)) ++ rb_bytes t) ++ [c]) with (concat (map rb_bytes (b :: h ++ [t])) ++ rb_bytes (push c (RxBuf None [] 0))).
      2: { cbn [map concat push rb_bytes app]. rewrite map_app, concat_app. cbn [map concat]. by rewrite app_nil_r, <- !app_assoc. }
      apply hold_more; try done. apply list.Forall_app. split; [done|]. apply list.Forall_cons; split; [done|by apply list.Forall_nil].
  - wp_step. cbv iota. unfold inc. wp_step. wp_step. wp_step.
    assert (inHead (rx (add_stat lk_memerr (set_rx (set_bufs h1 t1 (rx s)) s))) = [] -> inTail (rx (add_stat lk_memerr (set_rx (set_bufs h1 t1 (rx s)) s))) = NoTail) as Hnil.
    { cbn [rx add_stat set_rx inHead inTail set_bufs]. subst h1 t1. by destruct Hh. }
    eapply wp_mono; [by apply drop_ok|]. intros [] s2 (Ha2 & Hr2 & Hp2). unfold modr. wp_step. wp_step. wp_step. cbv iota. wp_step.
    assert (total (add_stat lk_memerr (set_rx (set_bufs h1 t1 (rx s)) s)) = total s) as Htot.
    { unfold total, nbufs. cbn [rx add_stat set_rx inHead inTail set_bufs pool]. subst h1 t1. destruct (inTail (rx s)); rewrite ?zlen_app; try lia. change (zlen [b]) with 1. lia. }
    unfold data_done. split; [|split; [|split]].
    + unfold around, same_link in *. cbn in *. intuition congruence.
    + cbn [pool set_rx]. rewrite Hp2, Htot. unfold total, nbufs. pose proof (zlen_nonneg (inHead (rx s))). destruct (inTail (rx s)); lia.
    + unfold total at 1. cbn [pool set_rx rx]. rewrite Hr2, Hp2, Htot. change (nbufs _ _) with 0. lia.
    + right. split; [cbn [rx set_rx]; by rewrite Hr2|]. unfold total. destruct Hh as [|b Hb Hpih|b h t Hb Hl Hpih Hf Ht Hn]; unfold nbufs, SIZEOF_PIH in *.
      * unfold zlen; cbn [length]; lia.
      * apply list.Forall_cons in Hfull as [Hfl _]. destruct Hb as [Hb _]. unfold rb_hdr, SIZEOF_PIH in Hb. rewrite Hpih in Hb. change (zlen [b]) with 1. lia.
      * lia.
Qed.
Lemma data_char_ok c s ds : holding (inProtocol (rx s)) (inHead (rx s)) (inTail (rx s)) ds -> 0 <= pool s ->
  wp (data_char c) s (fun _ s' => data_done c s (inProtocol (rx s)) ds s').
Proof.
  intros Hh Hp. destruct (inTail (rx s)) as [| |t] eqn:Ht.
  - apply data_char_grows; [by rewrite Ht|done|by rewrite Ht].
  - assert (exists b, inHead (rx s) = [b]) as [b Hb] by (inversion Hh; by eexists). destruct (decide (rb_len b = 592)) as [Hf|Hf].
    + apply data_char_grows; [by rewrite Ht|done|]. rewrite Ht, Hb. by apply list.Forall_cons.
    + apply data_char_fits; [by rewrite Ht|done|]. rewrite Ht, Hb. by apply list.Forall_cons.
  - destruct (decide (rb_len t = 592)) as [Hf|Hf].
    + apply data_char_grows; [by rewrite Ht|done|by rewrite Ht].
    + apply data_char_fits; [by rewrite Ht|done|by rewrite Ht].
Qed.

(** *** A frame *)

(** Between frames. *)
Definition ready s : Prop :=
  inHead (rx s) = [] /\ inTail (rx s) = NoTail /\ inEscaped (rx s) = false /\
  match inState (rx s) with PDIDLE | PDSTART => True | PDADDRESS => inFCS (rx s) = PPP_INITFCS | _ => False end.

(** The header is in, and so are the bytes [ds]; the FCS of the header is [f]. *)
Definition receiving s0 (proto f : Z) (ds : bytes) s : Prop :=
  around s0 s /\ 0 <= pool s /\ total s = total s0 /\
  exists h t, rx s = Rx h t proto (fcs_over f ds) PDDATA false (inACCM (rx s0)) /\ holding proto h t ds.

Lemma around_trans s1 s2 s3 : around s1 s2 -> around s2 s3 -> around s1 s3.
Proof. unfold around, same_link. cbn. intuition congruence. Qed.

Lemma take_data s0 proto f ds c s : receiving s0 proto f ds s -> SIZEOF_PIH + zlen ds < 592 * total s0 ->
  wp (take_char c) s (fun _ s' => receiving s0 proto f (ds ++ [c]) s').
Proof.
  intros (Ha & Hp & Ht & h & t & Hr & Hh) Hroom. unfold take_char, frame_char, getr. repeat wp_step. rewrite Hr. cbn [inState].
  eapply wp_mono; [apply (data_char_ok c s ds)|].
  { by rewrite Hr. }
  { done. }
  rewrite Hr. cbn [inProtocol]. intros [] s1 (Ha1 & Hp1 & Ht1 & [(h1 & t1 & Hr1 & Hh1)|[_ Hno]]); [|lia]. unfold modr. wp_step.
  split; [|split; [done|split; [|]]].
  - eapply around_trans; [exact Ha|]. eapply around_trans; [exact Ha1|]. done.
  - rewrite <- Ht, <- Ht1. done.
  - exists h1, t1. split; [|done]. cbn [rx set_rx]. rewrite Hr1, Hr, fcs_over_app. done.
Qed.

Lemma inproc_data out s0 proto f cs : accm_ok out (inACCM (rx s0)) -> is_bytes cs -> forall ds s, receiving s0 proto f ds s ->
  SIZEOF_PIH + zlen ds + zlen cs <= 592 * total s0 ->
  wp (pppInProc heap_room upcall (enc_list out cs)) s (fun _ s' => receiving s0 proto f (ds ++ cs) s').
Proof.
  intros Hok. induction 1 as [|c cs Hc Hcs IH]; intros ds s Hs Hroom.
  - unfold enc_list. cbn [map concat pppInProc]. wp_step. by rewrite app_nil_r.
  - unfold enc_list. cbn [map concat]. fold (enc_list out cs). rewrite zlen_cons in Hroom. pose proof (zlen_nonneg cs).
    pose proof Hs as (_ & _ & _ & h & t & Hr & _).
    destruct (take_data s0 proto f ds c s Hs ltac:(lia)) as ([] & s1 & E1 & Hs1).
    assert (pppInProc heap_room upcall (enc out c) s = Done (tt, s1)) as E1'.
    { rewrite (enc_step out (inACCM (rx s0))); [done|done|done|]. unfold plain. by rewrite Hr. }
    unfold wp. rewrite inproc_app, (bind_done _ _ _ _ _ E1'). change (wp (pppInProc heap_room upcall (enc_list out cs)) s1 (fun _ s' => receiving s0 proto f (ds ++ c :: cs) s')).
    replace (ds ++ c :: cs) with ((ds ++ [c]) ++ cs) by (by rewrite <- app_assoc). apply IH; [done|]. rewrite zlen_app. change (zlen [c]) with 1. lia.
Qed.
(** Characters one after the other. *)
Inductive takes (accm : bytes) : bytes -> ppp_link E -> ppp_link E -> Prop :=
| takes_nil s : takes accm [] s s
| takes_cons c cs s s1 s2 : plain accm s -> is_u8 c -> take_char c s = Done (tt, s1) -> takes accm cs s1 s2 -> takes accm (c :: cs) s s2.

Lemma takes_inproc out accm cs s s' : accm_ok out accm -> takes accm cs s s' -> pppInProc heap_room upcall (enc_list out cs) s = Done (tt, s').
Proof.
  intros Hok. induction 1 as [s|c cs s s1 s2 Hp Hc E1 _ IH]; [done|]. unfold enc_list. cbn [map concat]. rewrite inproc_app.
  rewrite <- (enc_step out accm c s Hok Hc Hp) in E1. by rewrite (bind_done _ _ _ _ _ E1).
Qed.

Definition proto_of (p1 p2 : Z) : Z := Z.lor (u16 (Z.shiftl p1 8)) p2.

(** The header of a frame. *)
Lemma header_ok out s0 p1 p2 : accm_ok out (inACCM (rx s0)) -> ready s0 -> 0 <= pool s0 -> is_u8 p1 -> is_u8 p2 -> Z.land p1 1 = 0 ->
  wp (pppInProc heap_room upcall (enc_list out [PPP_ALLSTATIONS; PPP_UI; p1; p2])) s0
    (fun _ s' => receiving s0 (proto_of p1 p2) (fcs_over PPP_INITFCS [PPP_ALLSTATIONS; PPP_UI; p1; p2]) [] s').
Proof.
  intros Hok (Hh & Ht & He & Hst) Hp Hp1 Hp2 Hev. set (fr := fcs_over PPP_INITFCS).
  exists tt, (set_rx (Rx [] NoTail (proto_of p1 p2) (fr [PPP_ALLSTATIONS; PPP_UI; p1; p2]) PDDATA false (inACCM (rx s0))) s0). split.
  2: { split; [done|]. split; [done|]. split; [unfold total; cbn [pool set_rx rx inHead inTail]; by rewrite Hh, Ht|]. exists [], NoTail. split; [done|constructor]. }
  apply (takes_inproc out (inACCM (rx s0))); [done|].
  destruct s0 as [[h t pr fcs dev esc accm] op pc ac lx oa ni ph po nw ls ev]. cbn [rx inHead inTail inEscaped inState inFCS inACCM] in *. subst h t esc.
  apply (takes_cons _ _ _ _ (set_rx (Rx [] NoTail pr (fr [PPP_ALLSTATIONS]) PDCONTROL false accm) (Ppp (Rx [] NoTail pr fcs dev false accm) op pc ac lx oa ni ph po nw ls ev))); [done|done| |].
  { destruct dev; try done. by subst fcs. }
  eapply takes_cons; [done|done|reflexivity|]. eapply takes_cons; [done|done| |].
  { unfold take_char, frame_char. rewrite bind_assoc, getr_bind. cbn [rx set_rx inState set_dev set_fcs]. unfold protocol1_char. rewrite Hev. reflexivity. }
  eapply takes_cons; [done|done|reflexivity|]. constructor.
Qed.

(** A flag between frames. *)
Lemma flag_ready s : ready s -> ESCAPE_P (inACCM (rx s)) PPP_FLAG = true ->
  in_char heap_room upcall PPP_FLAG s = Done (tt, set_rx (set_escaped false (set_dev PDADDRESS (set_fcs PPP_INITFCS (rx s)))) s) /\
  ready (set_rx (set_escaped false (set_dev PDADDRESS (set_fcs PPP_INITFCS (rx s)))) s).
Proof.
  intros (Hh & Ht & He & Hst) Hf. split; [|by repeat split]. unfold in_char. rewrite getr_bind, Hf. change (PPP_FLAG =? PPP_ESCAPE) with false. change (PPP_FLAG =? PPP_FLAG) with true. cbv iota.
  unfold flag_char. rewrite getr_bind. by destruct (inState (rx s)).
Qed.
(** *** Accepting a packet *)

Definition head_hdr (chain : list rxbuf) : Z := match chain with b :: _ => rb_hdr b | [] => 0 end.

(** Lengths are right, and only the first buffer has a header. *)
Definition chain_ok (chain : list rxbuf) : Prop :=
  Forall (fun b => rb_len b = rb_hdr b + zlen (rb_bytes b)) chain /\ Forall (fun b => rb_pih b = None) (List.tl chain).

Lemma body_all b : rb_len b = rb_hdr b + zlen (rb_bytes b) -> body b = rb_bytes b.
Proof. intros Hb. unfold body. apply take_ge. unfold zlen in *. lia. Qed.

Lemma bodies_all chain : Forall (fun b => rb_len b = rb_hdr b + zlen (rb_bytes b)) chain -> concat (map body chain) = concat (map rb_bytes chain).
Proof. induction 1 as [|b chain Hb _ IH]; [done|]. cbn [map concat]. by rewrite IH, body_all. Qed.

Lemma cut_bodies chain : forall n, chain_ok chain -> head_hdr chain <= n ->
  concat (map body (cut_chain n chain)) = take (Z.to_nat (n - head_hdr chain)) (concat (map rb_bytes chain)).
Proof.
  induction chain as [|b chain IH]; intros n [Hl Hn] Hle; [cbn [cut_chain map concat]; by destruct (Z.to_nat _)|]. apply list.Forall_cons in Hl as [Hb Hl]. cbn [cut_chain head_hdr List.tl] in *.
  assert (head_hdr chain = 0) as H0 by (destruct chain as [|c chain]; [done|]; apply list.Forall_cons in Hn as [Hn _]; cbn; unfold rb_hdr; by rewrite Hn).
  destruct (Z.ltb_spec (rb_len b) n) as [Hlt|Hge]; cbn [map concat].
  - rewrite body_all, IH; [|split; [done|]|lia|done].
    + rewrite take_app_ge by (unfold zlen in *; lia). f_equal. f_equal. unfold zlen in *. lia.
    + destruct chain; [done|]. by apply list.Forall_cons in Hn as [_ Hn].
  - rewrite app_nil_r. unfold body. cbn [rb_len rb_bytes]. change (rb_hdr (RxBuf (rb_pih b) (rb_bytes b) n)) with (rb_hdr b).
    rewrite take_app_le by (unfold zlen in *; lia). done.
Qed.

Lemma cut_head chain n : head_hdr chain <= n -> Forall (fun b => rb_hdr b <= rb_len b) chain ->
  match chain, cut_chain n chain with
  | b :: _, c :: _ => rb_pih c = rb_pih b /\ rb_hdr c <= rb_len c
  | [], [] => True
  | _, _ => False
  end.
Proof. destruct chain as [|b chain]; intros Hn Hc; [done|]. apply list.Forall_cons in Hc as [Hb _]. cbn [cut_chain head_hdr] in *. by destruct (_ <? n). Qed.

Lemma chain_len_bytes chain : chain_ok chain -> chain_len chain = head_hdr chain + zlen (concat (map rb_bytes chain)).
Proof.
  induction chain as [|b chain IH]; [done|]. intros [Hl Hn]. apply list.Forall_cons in Hl as [Hb Hl]. cbn [chain_len foldr map concat head_hdr List.tl] in *. fold (chain_len chain).
  assert (head_hdr chain = 0) as H0 by (destruct chain as [|c chain]; [done|]; apply list.Forall_cons in Hn as [Hn _]; cbn; unfold rb_hdr; by rewrite Hn).
  rewrite zlen_app, IH, H0; [lia|]. split; [done|]. destruct chain; [done|]. by apply list.Forall_cons in Hn as [_ Hn].
Qed.

(** The chain that holds a packet. *)
Lemma holding_chain proto h t ds : holding proto h t ds ->
  let chain := h ++ match t with Tail b => [b] | _ => [] end in
  chain_ok chain /\ concat (map rb_bytes chain) = ds /\ nbufs h t = zlen chain /\
  match head chain with Some b => rb_pih b = Some (0, proto) | None => ds = [] end.
Proof.
  intros [|b Hb Hp|b h' t' Hb Hl Hp Hh Ht Hn]; cbn [app]; cbv zeta.
  - by repeat split.
  - cbn [map concat head]. rewrite app_nil_r. unfold nbufs. repeat split; try done. apply list.Forall_cons. split; [apply Hb|done].
  - cbn [head]. split; [split|split; [|split; [|done]]].
    + apply list.Forall_cons. split; [apply Hb|]. apply list.Forall_app. split; [|apply list.Forall_cons; split; [apply Ht|done]].
      eapply list.Forall_impl; [exact Hh|]. intros x Hx. apply Hx.
    + cbn [List.tl]. apply list.Forall_app. split; [|by apply list.Forall_cons]. eapply list.Forall_impl; [exact Hh|]. intros x Hx. apply Hx.
    + cbn [map concat]. rewrite map_app, concat_app. cbn [map concat]. by rewrite app_nil_r, app_assoc.
    + unfold nbufs. rewrite !zlen_cons, zlen_app. change (zlen [t']) with 1. lia.
Qed.
(** What a packet of two bytes or more becomes. *)
Definition accepts s proto ds chain s3 : Prop :=
  accept_frame heap_room upcall s = pppInput heap_room upcall chain s3 /\
  concat (map body chain) = take (length ds - 2) ds /\
  (exists b, head chain = Some b /\ rb_pih b = Some (0, proto) /\ SIZEOF_PIH <= rb_len b) /\
  around s s3 /\ rx s3 = set_bufs [] NoTail (rx s) /\ pool s3 + zlen chain = total s /\ pool s <= pool s3.

Lemma accept_one s proto b : inHead (rx s) = [b] -> inTail (rx s) = TailIsHead -> buf_ok b -> rb_pih b = Some (0, proto) -> 2 <= zlen (rb_bytes b) ->
  exists chain s3, accepts s proto (rb_bytes b) chain s3.
Proof.
  intros Hh Ht (Hl & _ & _) Hp Hd. unfold rb_hdr, SIZEOF_PIH in Hl. rewrite Hp in Hl.
  exists [RxBuf (rb_pih b) (rb_bytes b) (rb_len b - 2)], (set_rx (set_bufs [] NoTail (rx s)) s). unfold accepts, accept_frame. split.
  { rewrite getr_bind, Ht, Hh. cbn [list.last deref]. rewrite ret_bind. assert ((2 <=? rb_len b) = true) as -> by lia. rewrite ret_bind, modr_bind. done. }
  split; [|split; [|split; [done|split; [done|split; [|done]]]]].
  - cbn [map concat]. rewrite app_nil_r. unfold body, rb_hdr, SIZEOF_PIH. cbn [rb_pih rb_bytes rb_len]. rewrite Hp. f_equal. unfold zlen in *. lia.
  - eexists. split; [done|]. split; [done|]. cbn [rb_len]. unfold SIZEOF_PIH. lia.
  - unfold total, nbufs. rewrite Ht, Hh. cbn [pool set_rx]. unfold zlen. cbn [length]. lia.
Qed.

Lemma accept_long s proto b h t : inHead (rx s) = b :: h -> inTail (rx s) = Tail t -> holding proto (b :: h) (Tail t) (concat (map rb_bytes (b :: h)) ++ rb_bytes t) ->
  2 <= rb_len t -> exists chain s3, accepts s proto (concat (map rb_bytes (b :: h)) ++ rb_bytes t) chain s3.
Proof.
  intros Eh Et Hh H2. inversion Hh as [| |b' h' t' Hb Hl Hp Hf Ht Hn]; subst. destruct Ht as [Ht _]. unfold rb_hdr in Ht. rewrite Hn in Ht.
  exists ((b :: h) ++ [RxBuf (rb_pih t) (rb_bytes t) (rb_len t - 2)]), (set_rx (set_bufs [] NoTail (rx s)) s). unfold accepts, accept_frame. split.
  { rewrite getr_bind, Et, Eh, ret_bind. assert ((2 <=? rb_len t) = true) as -> by lia. rewrite ret_bind, modr_bind. done. }
  split; [|split; [|split; [done|split; [done|split; [|done]]]]].
  - rewrite map_app, concat_app, bodies_all.
    + cbn [map concat]. rewrite app_nil_r. set (pre := rb_bytes b ++ _). rewrite length_app, take_app_ge by (unfold zlen in *; lia). f_equal.
      unfold body, rb_hdr. cbn [rb_pih rb_bytes rb_len]. rewrite Hn. f_equal. unfold zlen in *. lia.
    + apply list.Forall_cons. split; [apply Hb|]. eapply list.Forall_impl; [exact Hf|]. intros x Hx. apply Hx.
  - eexists. split; [done|]. split; [done|]. unfold SIZEOF_PIH. lia.
  - unfold total, nbufs. rewrite Et, Eh. cbn [pool set_rx]. rewrite zlen_app. change (zlen [_]) with 1. lia.
Qed.

(** One byte of the FCS is in the last buffer, the other in the one before. *)
Lemma accept_split s proto b h t : inHead (rx s) = b :: h -> inTail (rx s) = Tail t -> holding proto (b :: h) (Tail t) (concat (map rb_bytes (b :: h)) ++ rb_bytes t) ->
  rb_len t < 2 -> exists chain s3, accepts s proto (concat (map rb_bytes (b :: h)) ++ rb_bytes t) chain s3.
Proof.
  intros Eh Et Hh H2. pose proof (holding_chain _ _ _ _ Hh) as (Hc & Hbytes & Hn & Hhead). cbv zeta in *. set (chain := (b :: h) ++ [t]) in *.
  set (ds := concat (map rb_bytes (b :: h)) ++ rb_bytes t) in *. pose proof (chain_len_bytes _ Hc) as Hlen. rewrite Hbytes in Hlen.
  inversion Hh as [| |b' h' t' Hb Hl Hp Hf Ht Hnt]; subst b' h' t'. assert (head_hdr chain = 8) as Hhd by (cbn; unfold rb_hdr, SIZEOF_PIH; by rewrite Hp).
  assert (584 <= zlen ds) as Hds.
  { subst ds. rewrite zlen_app. cbn [map concat]. rewrite zlen_app. destruct Hb as [Hb _]. unfold rb_hdr, SIZEOF_PIH in Hb. rewrite Hp in Hb.
    pose proof (zlen_nonneg (concat (map rb_bytes h))). pose proof (zlen_nonneg (rb_bytes t)). lia. }
  remember (cut_chain (chain_len chain - 2) chain) as cut eqn:Ecut. exists cut, (set_rx (set_bufs [] NoTail (rx s)) (set_pool (pool s + (zlen chain - zlen cut)) s)).
  assert (Forall (fun x => rb_hdr x <= rb_len x) chain) as Hpos.
  { eapply list.Forall_impl; [apply Hc|]. intros x Hx. cbn in Hx. pose proof (zlen_nonneg (rb_bytes x)). lia. }
  pose proof (cut_head chain (chain_len chain - 2) ltac:(lia) Hpos) as Hch. subst chain. cbn [app] in Hch.
  change (b :: h ++ [t]) with ((b :: h) ++ [t]) in Hch. rewrite <- Ecut in Hch.
  unfold accepts, accept_frame. split.
  { rewrite getr_bind, Et, Eh, ret_bind. assert ((2 <=? rb_len t) = false) as -> by lia. cbv zeta. rewrite bind_assoc. unfold free_pool. rewrite modify_bind, ret_bind, modr_bind. by rewrite <- Ecut. }
  split; [|split; [|split; [done|split; [done|]]]].
  - subst cut. rewrite cut_bodies, Hbytes, Hhd by (done || lia). f_equal. unfold zlen in *. lia.
  - destruct cut as [|c cut]; [done|]. exists c. split; [done|]. destruct Hch as [Hcp Hcl]. split; [by rewrite Hcp|]. unfold rb_hdr in Hcl. by rewrite Hcp, Hp in Hcl.
  - cbn [pool set_rx set_pool]. unfold total. rewrite Et, Eh, Hn. split; [lia|]. assert (zlen cut <= zlen ((b :: h) ++ [t])); [|lia].
    subst cut. generalize ((b :: h) ++ [t]) as l. clear. intros l. generalize (chain_len l - 2). induction l as [|x l IH]; intros n; cbn [cut_chain]; [lia|].
    destruct (_ <? n); rewrite !zlen_cons; [specialize (IH (n - rb_len x)); lia|]. pose proof (zlen_nonneg l). change (zlen []) with 0. lia.
Qed.

Lemma accept_ok s proto ds : holding proto (inHead (rx s)) (inTail (rx s)) ds -> 2 <= zlen ds -> exists chain s3, accepts s proto ds chain s3.
Proof.
  intros Hh Hd. remember (inHead (rx s)) as hh eqn:Eh. remember (inTail (rx s)) as tt eqn:Et. pose proof Hh as Hh'. destruct Hh as [|b Hb Hp|b h t Hb Hl Hp Hf Ht Hn]; [unfold zlen in Hd; cbn in Hd; lia| |].
  - by apply accept_one.
  - destruct (Z.le_gt_cases 2 (rb_len t)); [by apply accept_long|by apply accept_split].
Qed.

(** A packet of fewer than two bytes. *)
Lemma accept_short s proto ds : holding proto (inHead (rx s)) (inTail (rx s)) ds -> zlen ds < 2 ->
  accept_frame heap_room upcall s = Crash (if zlen ds =? 0 then Undefined else AssertFailed).
Proof.
  intros Hh Hd. unfold accept_frame. rewrite getr_bind. remember (inHead (rx s)) as hh eqn:Eh. remember (inTail (rx s)) as tt eqn:Et.
  destruct Hh as [|b Hb Hp|b h t Hb Hl Hp Hf Ht Hn].
  - done.
  - destruct Hb as (Hb & _ & Hb0). unfold rb_hdr, SIZEOF_PIH in Hb. rewrite Hp in Hb. cbn [list.last deref]. rewrite ret_bind. assert ((2 <=? rb_len b) = true) as -> by lia.
    rewrite ret_bind, modr_bind. unfold pppInput. cbn [head deref]. rewrite ret_bind. cbn [rb_pih]. rewrite Hp. cbn [deref]. rewrite ret_bind. cbn [rb_len]. unfold SIZEOF_PIH.
    assert ((8 <=? rb_len b - 2) = false) as -> by lia. assert ((zlen (rb_bytes b) =? 0) = false) as -> by lia. done.
  - exfalso. rewrite zlen_app in Hd. cbn [map concat] in Hd. rewrite zlen_app in Hd. destruct Hb as [Hb _]. unfold rb_hdr, SIZEOF_PIH in Hb. rewrite Hp in Hb.
    pose proof (zlen_nonneg (concat (map rb_bytes h))). pose proof (zlen_nonneg (rb_bytes t)). lia.
Qed.
End receive.

(** ** From one end of the line to the other *)

(** What the receiver does after a flag that ended a packet. *)
Definition next_frame {E} : M (ppp_link E) unit := modr (fun r => set_escaped false (set_dev PDADDRESS (set_fcs PPP_INITFCS r))).

(** The flag at the end of a packet that is whole. *)
Lemma flag_accepts {E} heap_room upcall (s : ppp_link E) s0 proto f d : receiving s0 proto f (d ++ fcs_bytes (fcs_over f d)) s -> is_u16 f ->
  ESCAPE_P (inACCM (rx s0)) PPP_FLAG = true ->
  exists chain s3, in_char heap_room upcall PPP_FLAG s = (pppInput heap_room upcall chain;; next_frame) s3 /\ concat (map body chain) = d /\
    (exists b, head chain = Some b /\ rb_pih b = Some (0, proto) /\ SIZEOF_PIH <= rb_len b) /\ around s0 s3 /\
    pool s3 + zlen chain = total s0 /\ inHead (rx s3) = [] /\ inTail (rx s3) = NoTail.
Proof.
  intros (Ha & Hp & Ht & h & t & Hr & Hh) Hf He. set (ds := d ++ fcs_bytes (fcs_over f d)) in *.
  destruct (accept_ok heap_room upcall s proto ds) as (chain & s3 & Eacc & Hd & Hb & Ha3 & Hr3 & Hp3 & _).
  { by rewrite Hr. }
  { subst ds. rewrite zlen_app. pose proof (zlen_nonneg d). change (zlen (fcs_bytes _)) with 2. lia. }
  exists chain, s3. split; [|split; [|split; [done|split; [|split; [lia|by rewrite Hr3]]]]].
  - unfold in_char. rewrite getr_bind, Hr. cbn [inACCM]. rewrite He. change (PPP_FLAG =? PPP_ESCAPE) with false. change (PPP_FLAG =? PPP_FLAG) with true. cbv iota.
    unfold flag_char. rewrite getr_bind, Hr. cbn [inState inFCS dev_num]. cbn [Z.leb Z.ltb Z.compare Pos.compare Pos.compare_cont].
    subst ds. rewrite fcs_over_app, fcs_bytes_good by (by apply fcs_over_u16). rewrite Z.eqb_refl. cbn [negb]. unfold mbind at 1, M_bind. by rewrite Eacc.
  - rewrite Hd. subst ds. rewrite length_app. change (length (fcs_bytes _)) with 2%nat. rewrite Nat.add_sub, take_app_le, take_ge by lia. done.
  - eapply around_trans; [exact Ha|exact Ha3].
Qed.

(** C21: A frame arrives as it was sent: when the sender escapes what the receiver's map of
    control characters has, the line of pppWrite, whatever its bytes, makes pppInProc call
    pppInput once, with the protocol and the bytes of the packet, in as many buffers as it
    took from the pool; the sender has its buffers back. *)
Theorem ppp_frame_roundtrip {E1 E2} (sio_write : bytes -> E1 -> Z * E1) (wire : E1 -> bytes) heap_room upcall (s1 : ppp_link E1) (s2 : ppp_link E2) p1 p2 d :
  (forall bs e, (sio_write bs e).1 = zlen bs /\ wire (sio_write bs e).2 = wire e ++ bs) ->
  accm_ok (outACCM s1) (inACCM (rx s2)) -> is_u8 p1 -> is_u8 p2 -> Z.land p1 1 = 0 -> is_bytes d ->
  let frame := [PPP_ALLSTATIONS; PPP_UI; p1; p2] ++ d in
  0 <= pool s1 -> zlen (frame_line s1 frame) < 591 * pool s1 ->
  ready s2 -> 0 <= pool s2 -> SIZEOF_PIH + zlen d + 2 <= 592 * pool s2 ->
  exists s1' line, pppWrite sio_write frame s1 = Done (true, s1') /\ pool s1' = pool s1 /\ wire (env s1') = wire (env s1) ++ line /\
  exists chain s3, pppInProc heap_room upcall line s2 = (pppInput heap_room upcall chain;; next_frame) s3 /\
    concat (map body chain) = d /\ (exists b, head chain = Some b /\ rb_pih b = Some (0, proto_of p1 p2) /\ SIZEOF_PIH <= rb_len b) /\
    around s2 s3 /\ pool s3 + zlen chain = pool s2 /\ inHead (rx s3) = [] /\ inTail (rx s3) = NoTail.
Proof.
  intros Hsio Hok Hp1 Hp2 Hev Hd frame Hpool1 Hroom1 Hready Hpool2 Hroom2.
  destruct (ppp_write_ok sio_write wire Hsio s1 frame Hpool1) as (ok & s1' & E1' & _ & Hp1' & Hw & Hno). destruct ok; [|specialize (Hno eq_refl); lia].
  exists s1', (frame_line s1 frame). do 3 (split; [done|]). set (accm := inACCM (rx s2)) in *. set (hdr := [PPP_ALLSTATIONS; PPP_UI; p1; p2]) in *.
  (* the flag of an idle line *)
  assert (exists s2', pppInProc heap_room upcall (if idle s1 then [PPP_FLAG] else []) s2 = Done (tt, s2') /\ ready s2' /\ around s2 s2' /\ pool s2' = pool s2 /\ inACCM (rx s2') = accm)
    as (s2' & Eidle & Hready' & Haround & Hpool2' & Haccm).
  { destruct (idle s1); [|by exists s2]. destruct (flag_ready heap_room upcall s2 Hready (ao_flag _ _ Hok)) as [Ef Hr]. eexists. by rewrite inproc_one. }
  unfold frame_line. rewrite inproc_app, (bind_done _ _ _ _ _ Eidle). subst frame. rewrite <- app_assoc, enc_list_app, <- app_assoc.
  rewrite <- Haccm in Hok. destruct (header_ok heap_room upcall _ s2' p1 p2 Hok Hready' ltac:(lia) Hp1 Hp2 Hev) as ([] & s4 & Eh & Hs4).
  rewrite inproc_app, (bind_done _ _ _ _ _ Eh). set (f := fcs_over PPP_INITFCS hdr) in *. rewrite fcs_over_app. fold f.
  assert (is_u16 f) as Hf by (by apply fcs_over_u16). assert (total s2' = pool s2) as Htot by (unfold total; destruct Hready' as (-> & -> & _); change (nbufs [] NoTail) with 0; lia).
  destruct (inproc_data heap_room upcall (outACCM s1) s2' (proto_of p1 p2) f (d ++ fcs_bytes (fcs_over f d)) Hok) with (ds := @nil Z) (s := s4) as ([] & s5 & Ed & Hs5).
  { apply list.Forall_app. split; [done|]. unfold fcs_bytes. rewrite !land_ff. repeat constructor; zdm. }
  { exact Hs4. }
  { rewrite Htot, zlen_app. change (zlen (fcs_bytes _)) with 2. change (zlen []) with 0. lia. }
  rewrite inproc_app, (bind_done _ _ _ _ _ Ed), inproc_one. cbn [app] in Hs5.
  destruct (flag_accepts heap_room upcall s5 s2' _ f d Hs5 Hf (ao_flag _ _ Hok)) as (chain & s3 & Eacc & Hb & Hc & Ha3 & Hp3 & Hnil).
  exists chain, s3. split; [done|]. split; [done|]. split; [done|]. split; [by eapply around_trans|]. split; [lia|done].
Qed.

(** ** Whatever comes in *)

Section any_bytes.
Context {E : Type}.
Context (heap_room : Z -> ppp_link E -> bool).
Context (upcall : ppp_upcall -> M (ppp_link E) unit).
Context (owned : E -> Z).
Implicit Types (s : ppp_link E).

(** The buffers that IP was given with a packet. *)
Definition given (u : ppp_upcall) : Z := match u with UpIp bufs => zlen bufs | _ => 0 end.

(** The buffers that are free, in the packet that comes in, or with IP. *)
Definition all_bufs s : Z := total s + owned (env s).

Definition empty_rx s : Prop := inHead (rx s) = [] /\ inTail (rx s) = NoTail /\ 0 <= pool s.

(** The protocols above return, do not touch the packet that comes in, and IP gives the
    buffers of its packets back or keeps them. *)
Context (upcall_ok : forall u s, empty_rx s -> wp (upcall u) s (fun _ s' => empty_rx s' /\ all_bufs s' = all_bufs s + given u)).

Lemma total_empty s : empty_rx s -> total s = pool s.
Proof. intros (Hh & Ht & _). unfold total. rewrite Hh, Ht. change (nbufs [] NoTail) with 0. lia. Qed.

Definition rx_ok s : Prop :=
  0 <= pool s /\ exists ds, holding (inProtocol (rx s)) (inHead (rx s)) (inTail (rx s)) ds /\ (inState (rx s) <> PDDATA -> ds = []).

Lemma upcall_after u s n : empty_rx s -> wp (upcall u) s (fun _ s' => empty_rx s' /\ all_bufs s' + n = all_bufs s + given u + n).
Proof. intros Hs. eapply wp_mono; [by apply upcall_ok|]. intros [] s' [Hs' Ha]. split; [done|lia]. Qed.

Lemma pool_change s n : empty_rx s -> 0 <= pool s + n -> empty_rx (set_pool (pool s + n) s) /\ all_bufs (set_pool (pool s + n) s) = all_bufs s + n.
Proof. intros (Hh & Ht & _) Hn. split; [done|]. unfold all_bufs, total. cbn. lia. Qed.

Lemma input_safe chain b proto s : empty_rx s -> head chain = Some b -> rb_pih b = Some (0, proto) -> SIZEOF_PIH <= rb_len b ->
  wp (pppInput heap_room upcall chain) s (fun _ s' => empty_rx s' /\ all_bufs s' = all_bufs s + zlen chain).
Proof.
  intros Hs Hb Hp Hl. unfold pppInput. rewrite Hb. cbn [deref]. wp_step. wp_step. rewrite Hp. cbn [deref]. wp_step. wp_step. wp_step.
  apply wp_assert; [lia|]. unfold inc. wp_step. wp_step. wp_step. wp_step. cbv zeta. cbn [snd]. set (s1 := add_stat lk_recv s).
  assert (empty_rx s1) as Hs1 by exact Hs. assert (all_bufs s1 = all_bufs s) as Ha1 by done. pose proof (zlen_nonneg chain) as Hn.
  assert (forall s2, empty_rx s2 -> wp (inc lk_drop;; free_pool (zlen chain)) s2 (fun _ s' => empty_rx s' /\ all_bufs s' = all_bufs s2 + zlen chain)) as Hdrop.
  { intros s2 Hs2. unfold inc, free_pool. wp_step. wp_step. wp_step. apply (pool_change (add_stat lk_drop s2)); [done|]. destruct Hs2 as (_ & _ & ?). cbn. lia. }
  unfold inc in Hdrop. rewrite <- Ha1. case_match; [by apply Hdrop|]. case_match; [by apply Hdrop|]. case_match.
  { case_match; [|by apply Hdrop]. eapply wp_mono; [by apply upcall_ok|]. intros [] s2 [Hs2 Ha2]. split; [done|]. rewrite Ha2. cbn [given]. unfold zlen. by rewrite length_map. }
  case_match.
  - wp_step. set (nb := map body chain). assert (zlen nb = zlen chain) as Hnb by (subst nb; unfold zlen; by rewrite length_map).
    apply (wp_mono _ _ (fun q s' => empty_rx s' /\ 0 <= q.2 /\ all_bufs s' + q.2 = all_bufs s1 + zlen chain)).
    { unfold pppSingleBuf. case_match; [wp_step; cbn [snd]; split; [done|split; lia]|]. wp_step. wp_step. case_match; [|wp_step; cbn [snd]; split; [done|split; lia]].
      unfold free_pool. wp_step. wp_step. wp_step. cbn [snd]. destruct (pool_change s1 (zlen nb) Hs1) as [Hp1 Hp2]; [destruct Hs1 as (_ & _ & ?); lia|]. split; [done|]. split; lia. }
    intros q s2 (Hs2 & Hq & Ha2). wp_step. eapply wp_mono; [by apply upcall_ok|]. intros [] s3 [Hs3 Ha3]. cbn [given] in Ha3. unfold free_pool. wp_step.
    destruct (pool_change s3 q.2 Hs3) as [Hp1 Hp2]; [destruct Hs3 as (_ & _ & ?); lia|]. split; [done|]. lia.
  - wp_step. eapply wp_mono; [by apply upcall_ok|]. intros [] s2 [Hs2 Ha2]. cbn [given] in Ha2. eapply wp_mono; [by apply Hdrop|]. intros [] s3 [Hs3 Ha3]. split; [done|lia].
Qed.

(** The bytes of the packet so far. *)
Definition packet_bytes s : bytes := concat (map rb_bytes (inHead (rx s) ++ match inTail (rx s) with Tail b => [b] | _ => [] end)).

(** A packet that passes the check with fewer than two bytes behind its header. *)
Definition short_packet s : Prop := inState (rx s) = PDDATA /\ inFCS (rx s) = PPP_GOODFCS /\ zlen (packet_bytes s) < 2.

Definition goes_on s s' : Prop := rx_ok s' /\ all_bufs s' = all_bufs s.

Lemma rx_ok_empty s : empty_rx s -> rx_ok s.
Proof. intros (Hh & Ht & Hp). split; [done|]. exists []. rewrite Hh, Ht. split; [constructor|done]. Qed.

Lemma env_around s s' : around s s' -> env s' = env s.
Proof. unfold around, same_link. cbn. tauto. Qed.

Lemma drop_safe s : rx_ok s -> wp pppDrop s (fun _ s' => empty_rx s' /\ all_bufs s' = all_bufs s).
Proof.
  intros (Hp & ds & Hh & _). eapply wp_mono; [apply drop_ok; by destruct Hh|]. intros [] s' (Ha & Hr & Hp').
  assert (empty_rx s') as He.
  { split; [by rewrite Hr|]. split; [by rewrite Hr|]. rewrite Hp'. unfold total, nbufs. pose proof (zlen_nonneg (inHead (rx s))). destruct (inTail (rx s)); lia. }
  split; [done|]. unfold all_bufs. rewrite (total_empty s' He), Hp', (env_around s s' Ha). done.
Qed.

Lemma next_ready s s' : empty_rx s' -> all_bufs s' = all_bufs s -> wp next_frame s' (fun _ s2 => goes_on s s2).
Proof. intros He Ha. unfold next_frame, modr. wp_step. split; [|exact Ha]. by apply rx_ok_empty. Qed.

Lemma holding_nil proto h t ds : holding proto h t ds -> ds = [] -> h = [] /\ t = NoTail.
Proof.
  intros Hh Hds. destruct Hh as [|b (_ & _ & Hb) _|b h t (_ & _ & Hb) _ _ _ _ _]; [done| |].
  - by rewrite Hds in Hb.
  - cbn [map concat] in Hds. apply app_eq_nil in Hds as [Hds _]. apply app_eq_nil in Hds as [Hds _]. by rewrite Hds in Hb.
Qed.

(** A flag. *)
Lemma flag_safe s : rx_ok s -> ~ short_packet s -> wp (flag_char heap_room upcall) s (fun _ s' => goes_on s s').
Proof.
  intros Hok Hshort. pose proof Hok as (Hp & ds & Hh & Hds). pose proof (holding_chain _ _ _ _ Hh) as (_ & Hbytes & _). cbv zeta in Hbytes. change (packet_bytes s = ds) in Hbytes.
  unfold flag_char. wp_step. unfold getr. wp_step. wp_step. wp_step. wp_step. fold (@next_frame E).
  apply (wp_mono _ _ (fun _ s' => empty_rx s' /\ all_bufs s' = all_bufs s)); [|intros [] s' [He Ha]; by apply next_ready].
  assert (inState (rx s) <> PDDATA -> empty_rx s) as Hempty.
  { intros Hst. destruct (holding_nil _ _ _ _ Hh (Hds Hst)) as [Hi Hn]. by split. }
  unfold inc. destruct (inState (rx s)) eqn:Est; cbn [dev_num]; cbn [Z.leb Z.ltb Z.compare Pos.compare Pos.compare_cont].
  all: try (wp_step; split; [by apply Hempty|done]).
  all: try (wp_step; wp_step; by apply (drop_safe (add_stat lk_lenerr s))).
  destruct (Z.eqb_spec (inFCS (rx s)) PPP_GOODFCS) as [Hg|Hg]; cbn [negb]; [|wp_step; wp_step; by apply (drop_safe (add_stat lk_chkerr s))].
  destruct (Z.lt_ge_cases (zlen ds) 2) as [Hlt|Hge]; [exfalso; apply Hshort; split; [done|split; [done|by rewrite Hbytes]]|].
  destruct (accept_ok heap_room upcall s _ _ Hh Hge) as (chain & s3 & Eacc & _ & (b & Hb & Hpih & Hl) & Ha3 & Hr3 & Hp3 & Hle).
  unfold wp. rewrite Eacc. change (wp (pppInput heap_room upcall chain) s3 (fun _ s' => empty_rx s' /\ all_bufs s' = all_bufs s)).
  assert (empty_rx s3) as He3 by (split; [by rewrite Hr3|split; [by rewrite Hr3|lia]]).
  eapply wp_mono; [by eapply input_safe|]. intros [] s4 [He4 Ha4]. split; [done|]. rewrite Ha4. unfold all_bufs. rewrite (total_empty s3 He3), (env_around s s3 Ha3). lia.
Qed.
(** The receiver's own fields do not matter for the buffers. *)
Lemma goes_on_rx s r : rx_ok s -> inHead r = inHead (rx s) -> inTail r = inTail (rx s) ->
  (inState (rx s) = PDDATA -> inProtocol r = inProtocol (rx s)) -> (inState (rx s) = PDDATA <-> inState r = PDDATA) \/ inHead r = [] -> goes_on s (set_rx r s).
Proof.
  intros (Hp & ds & Hh & Hds) Eh Et Hpr Hst. split; [|by unfold all_bufs, total; cbn; rewrite Eh, Et]. split; [done|].
  cbn [rx set_rx]. rewrite Eh, Et. destruct (decide (ds = [])) as [->|Hne].
  - exists []. destruct (holding_nil _ _ _ _ Hh eq_refl) as [-> ->]. split; [constructor|done].
  - destruct Hst as [Hst|Hnil]; [|rewrite Eh in Hnil; rewrite Hnil in Hh; by inversion Hh; subst].
    exists ds. destruct (decide (inState (rx s) = PDDATA)) as [Hd|Hd]; [|by destruct Hne; apply Hds]. rewrite Hpr by done. split; [done|].
    intros Hd'. destruct Hd'. by apply Hst.
Qed.

Lemma goes_on_trans s1 s2 s3 : goes_on s1 s2 -> goes_on s2 s3 -> goes_on s1 s3.
Proof. intros [_ H1] [H2 H3]. split; [done|congruence]. Qed.

Lemma rx_ok_idle s : rx_ok s -> inState (rx s) <> PDDATA -> inHead (rx s) = [] /\ inTail (rx s) = NoTail.
Proof. intros (_ & ds & Hh & Hds) Hst. by eapply holding_nil, Hds. Qed.

(** A byte that is not special. *)
Lemma frame_safe c s : rx_ok s -> wp (frame_char c) s (fun _ s' => goes_on s s').
Proof.
  intros Hok. unfold frame_char, getr. repeat wp_step. destruct (inState (rx s)) eqn:Est.
  7: { destruct Hok as (Hp & ds & Hh & _). eapply wp_mono; [by apply data_char_ok|]. intros [] s' (Ha & Hp' & Ht' & Hr).
       split; [|unfold all_bufs; by rewrite Ht', (env_around s s' Ha)]. split; [done|]. destruct Hr as [(h & t & -> & Hh')|[-> _]].
       - exists (ds ++ [c]). split; [done|]. intros Hn. by destruct Hn.
       - exists []. split; [constructor|done]. }
  all: destruct (rx_ok_idle s Hok ltac:(congruence)) as [Eh Et].
  all: assert (forall r, inHead r = [] -> inTail r = NoTail -> goes_on s (set_rx r s)) as Hgo by (intros r Hh Ht; apply goes_on_rx; [done|congruence|congruence|congruence|by right]).
  all: unfold address_char, control_char, protocol1_char, modr; repeat first [wp_step | case_match].
  all: first [by split | eapply Hgo; done].
Qed.

Lemma in_char_safe c s : rx_ok s -> (c = PPP_FLAG -> ~ short_packet s) -> wp (in_char heap_room upcall c) s (fun _ s' => goes_on s s').
Proof.
  intros Hok Hshort. unfold in_char. wp_step. unfold getr. wp_step. wp_step. wp_step. case_match.
  - case_match.
    + unfold modr. wp_step. by apply goes_on_rx; try done; left.
    + destruct (Z.eqb_spec c PPP_FLAG) as [->|_]; [by apply flag_safe; [|apply Hshort]|]. wp_step. by split.
  - wp_step. unfold modr at 1. wp_step. wp_step. set (s1 := set_rx (set_escaped false (rx s)) s).
    assert (goes_on s s1) as Hs1 by (by apply goes_on_rx; try done; left). eapply wp_mono; [apply frame_safe, Hs1|]. intros [] s2 Hs2. unfold modr. wp_step.
    eapply goes_on_trans; [exact Hs1|]. eapply goes_on_trans; [exact Hs2|]. apply goes_on_rx; try done; [apply Hs2|by left].
Qed.

(** C23: Whatever bytes come in, over however many calls, pppInProc returns, keeps the
    packet it puts together in buffers that are full but for the last and never beyond
    their end, and loses no buffer: each is free, in that packet or with IP.  The one way
    out is a flag behind a packet that passes the check but has fewer than two bytes after
    its protocol: see [short_packets_crash]. *)
Theorem ppp_input_safe bs s : rx_ok s ->
  (exists s', pppInProc heap_room upcall bs s = Done (tt, s') /\ rx_ok s' /\ all_bufs s' = all_bufs s) \/
  (exists bs1 bs2 s', bs = bs1 ++ PPP_FLAG :: bs2 /\ pppInProc heap_room upcall bs1 s = Done (tt, s') /\ rx_ok s' /\ short_packet s').
Proof.
  revert s. induction bs as [|c bs IH]; intros s Hok; [left; by exists s|].
  assert (Decision (short_packet s)) as Hdec by (unfold short_packet; apply _).
  destruct (decide (c = PPP_FLAG /\ short_packet s)) as [[-> Hsh]|Hsh]; [right; by exists [], bs, s|].
  destruct (in_char_safe c s Hok) as ([] & s1 & E1 & Hok1 & Ha1); [tauto|]. destruct (IH s1 Hok1) as [(s' & E' & Hok' & Ha')|(bs1 & bs2 & s' & -> & E' & Hok' & Hsh')].
  - left. exists s'. rewrite inproc_cons, (bind_done _ _ _ _ _ E1). split; [done|]. split; [done|congruence].
  - right. exists (c :: bs1), bs2, s'. rewrite inproc_cons, (bind_done _ _ _ _ _ E1). done.
Qed.
End any_bytes.

(** A frame whose check sequence is right takes the process down when there are fewer
    than two bytes behind its protocol: with the flag, pppInProc follows inTail, which is
    NULL, when there are none, and has pppInput fail its assertion when there is one. *)
Theorem short_packets_crash {E} heap_room upcall (s : ppp_link E) : rx_ok s -> short_packet s -> ESCAPE_P (inACCM (rx s)) PPP_FLAG = true ->
  in_char heap_room upcall PPP_FLAG s = Crash (if zlen (packet_bytes s) =? 0 then Undefined else AssertFailed).
Proof.
  intros (Hp & ds & Hh & _) (Hst & Hf & Hlen) He. pose proof (holding_chain _ _ _ _ Hh) as (_ & Hbytes & _). cbv zeta in Hbytes. change (packet_bytes s = ds) in Hbytes.
  unfold in_char. rewrite getr_bind, He. change (PPP_FLAG =? PPP_ESCAPE) with false. change (PPP_FLAG =? PPP_FLAG) with true. cbv iota.
  unfold flag_char. rewrite getr_bind, Hst, Hf. cbn [dev_num]. cbn [Z.leb Z.ltb Z.compare Pos.compare Pos.compare_cont]. rewrite Z.eqb_refl. cbn [negb].
  rewrite Hbytes in *. apply bind_crash. by eapply accept_short.
Qed.

(** ** A line *)

(** What was written, and what the protocols were given. *)
Abbreviation demo_env := (bytes * list ppp_upcall)%type.

Definition demo_write (bs : bytes) (e : demo_env) : Z * demo_env := (zlen bs, (e.1 ++ bs, e.2)).

Definition demo_upcall (u : ppp_upcall) : M (ppp_link demo_env) unit := modify (fun s => set_env ((env s).1, (env s).2 ++ [u]) s).

Definition demo_room (n : Z) (s : ppp_link demo_env) : bool := true.

Definition demo_owned (e : demo_env) : Z := foldr (fun u n => given u + n) 0 e.2.

(** After pppOverSerialOpen, in the phase where LCP opens the link. *)
Definition demo_link (dev : PPPDevStates) (fcs : Z) : ppp_link demo_env :=
  Ppp (Rx [] NoTail 0 fcs dev false default_accm) true false false 0 default_accm false 2 16 1000 [] ([], []).

Lemma demo_write_all bs e : (demo_write bs e).1 = zlen bs /\ (demo_write bs e).2.1 = e.1 ++ bs.
Proof. done. Qed.

Lemma demo_upcall_ok u s : empty_rx s -> wp (demo_upcall u) s (fun _ s' => empty_rx s' /\ all_bufs demo_owned s' = all_bufs demo_owned s + given u).
Proof.
  intros Hs. unfold demo_upcall. wp_step. split; [done|]. unfold all_bufs. change (total (set_env _ s)) with (total s).
  assert (forall l, foldr (fun u n => given u + n) 0 (l ++ [u]) = foldr (fun u n => given u + n) 0 l + given u) as Hl.
  { induction l as [|v l IH]; cbn [app foldr]; lia. }
  unfold demo_owned. cbn [env set_env snd]. rewrite Hl. lia.
Qed.

(** A Configure-Request of LCP. *)
Lemma ppp_frame_roundtrip_witness : exists line s1' chain s3,
  pppWrite demo_write ([PPP_ALLSTATIONS; PPP_UI; 0xc0; 0x21] ++ [1; 1; 0; 4]) (demo_link PDIDLE 0) = Done (true, s1') /\ (env s1').1 = line /\
  pppInProc demo_room demo_upcall line (demo_link PDIDLE 0) = (pppInput demo_room demo_upcall chain;; next_frame) s3 /\ concat (map body chain) = [1; 1; 0; 4].
Proof.
  destruct (ppp_frame_roundtrip demo_write fst demo_room demo_upcall (demo_link PDIDLE 0) (demo_link PDIDLE 0) 0xc0 0x21 [1; 1; 0; 4])
    as (s1' & line & E1 & _ & Hw & chain & s3 & E2 & Hb & _).
  - intros bs e. apply demo_write_all.
  - by apply (accm_of_ok 0 0).
  - done.
  - done.
  - done.
  - by repeat constructor.
  - done.
  - vm_compute. reflexivity.
  - by repeat split.
  - done.
  - vm_compute. discriminate.
  - exists line, s1', chain, s3. split; [exact E1|]. split; [exact Hw|]. split; [exact E2|exact Hb].
Defined.

Lemma ppp_input_safe_witness : exists s', pppInProc demo_room demo_upcall [0xff; 0x03; 0x00; 0x21; 0x45] (demo_link PDIDLE 0) = Done (tt, s') /\ rx_ok s'.
Proof.
  destruct (ppp_input_safe demo_room demo_upcall demo_owned demo_upcall_ok [0xff; 0x03; 0x00; 0x21; 0x45] (demo_link PDIDLE 0)) as [(s' & E & Hok & _)|(bs1 & bs2 & s' & E & _)].
  - split; [done|]. exists []. split; [constructor|done].
  - by exists s'.
  - exfalso. assert (existsb (Z.eqb PPP_FLAG) [0xff; 0x03; 0x00; 0x21; 0x45] = true) as H; [|done]. rewrite E. apply existsb_exists. exists PPP_FLAG. split; [|done].
    apply in_or_app. right. by left.
Defined.

(** The line 7e 00 00 7e. *)
Lemma short_packets_crash_witness : exists s, pppInProc demo_room demo_upcall [0x7e; 0x00; 0x00] (demo_link PDIDLE 0) = Done (tt, s) /\
  in_char demo_room demo_upcall 0x7e s = Crash Undefined.
Proof.
  exists (demo_link PDDATA PPP_GOODFCS). split; [vm_compute; reflexivity|].
  apply (short_packets_crash demo_room demo_upcall (demo_link PDDATA PPP_GOODFCS)).
  - split; [done|]. exists []. split; [constructor|done].
  - by repeat split.
  - reflexivity.
Defined.
