(* ===== verification/UdpPcb.v ===== *)
(** * UDP protocol control blocks

    The list of PCBs of core/udp.c and the calls on it: udp_new_port, udp_bind,
    udp_connect, udp_disconnect, udp_recv, udp_remove, udp_new, and the loop of udp_input
    that looks for the PCB of a datagram.  A PCB is known by its address; [pool] are the
    free elements of MEMP_UDP_PCB.  SO_REUSE, LWIP_IGMP, LWIP_DHCP, LWIP_UDPLITE and
    IP_SOF_BROADCAST_RECV are 0. *)

From S2P Require Import Prelude ByteOrder IpAddr Pbuf PbufData Netif Ip.

(** ** State *)

(** struct udp_pcb, without the pointer to the next one. *)
Record udp_pcb := UdpPcb {
  local_ip : Z;
  remote_ip : Z;
  so_options : Z;
  tos : Z;
  ttl : Z;
  flags : Z;
  local_port : Z;
  remote_port : Z;
  recv : option Z;
  recv_arg : Z
}.

Record pcb_node := PcbNode { pn_pcb : udp_pcb; pn_next : option Z }.

Record udps := Udps {
  pcbs : gmap Z pcb_node;
  pool : list Z;
  udp_pcbs : option Z;
  udp_port : Z
}.

Definition UDP_LOCAL_PORT_RANGE_START : Z := 0xc000.

Definition UDP_LOCAL_PORT_RANGE_END : Z := 0xffff.

Definition UDP_FLAGS_NOCHKSUM : Z := 0x01.

Definition UDP_FLAGS_CONNECTED : Z := 0x04.

Definition UDP_TTL : Z := 255.

Definition ERR_VAL : Z := -6.

Definition ERR_USE : Z := -8.

Definition set_local_ip (a : Z) (x : udp_pcb) : udp_pcb :=
  UdpPcb a (remote_ip x) (so_options x) (tos x) (ttl x) (flags x) (local_port x) (remote_port x) (recv x) (recv_arg x).

Definition set_local_port (n : Z) (x : udp_pcb) : udp_pcb :=
  UdpPcb (local_ip x) (remote_ip x) (so_options x) (tos x) (ttl x) (flags x) n (remote_port x) (recv x) (recv_arg x).

Definition set_remote (a n : Z) (x : udp_pcb) : udp_pcb :=
  UdpPcb (local_ip x) a (so_options x) (tos x) (ttl x) (flags x) (local_port x) n (recv x) (recv_arg x).

Definition set_pcb_flags (f : Z) (x : udp_pcb) : udp_pcb :=
  UdpPcb (local_ip x) (remote_ip x) (so_options x) (tos x) (ttl x) f (local_port x) (remote_port x) (recv x) (recv_arg x).

Definition set_recv (f : option Z) (arg : Z) (x : udp_pcb) : udp_pcb :=
  UdpPcb (local_ip x) (remote_ip x) (so_options x) (tos x) (ttl x) (flags x) (local_port x) (remote_port x) f arg.

Definition set_pcbs (f : gmap Z pcb_node -> gmap Z pcb_node) (s : udps) : udps :=
  Udps (f (pcbs s)) (pool s) (udp_pcbs s) (udp_port s).

Definition set_pool (l : list Z) (s : udps) : udps := Udps (pcbs s) l (udp_pcbs s) (udp_port s).

Definition set_udp_pcbs (p : option Z) (s : udps) : udps := Udps (pcbs s) (pool s) p (udp_port s).

Definition set_udp_port (n : Z) (s : udps) : udps := Udps (pcbs s) (pool s) (udp_pcbs s) n.

Definition rd_pnode (p : Z) : M udps pcb_node := s ← get; deref (pcbs s !! p).

Definition wr_pnode (p : Z) (n : pcb_node) : M udps unit := modify (set_pcbs (insert p n)).

Definition rd_pcb (p : Z) : M udps udp_pcb := n ← rd_pnode p; mret (pn_pcb n).

Definition wr_pcb (p : Z) (x : udp_pcb) : M udps unit := n ← rd_pnode p; wr_pnode p (PcbNode x (pn_next n)).

Definition wr_next (p : Z) (q : option Z) : M udps unit := n ← rd_pnode p; wr_pnode p (PcbNode (pn_pcb n) q).

Definition pcb_fuel (s : udps) : nat := S (size (pcbs s)).

(** ** Local ports *)

(** Does a PCB of the list have the port? *)
Fixpoint port_used (fuel : nat) (q : option Z) (port : Z) : M udps bool :=
  match q with
  | None => mret false
  | Some p =>
      match fuel with
      | O => fail OutOfFuel
      | S fuel => n ← rd_pnode p; if local_port (pn_pcb n) =? port then mret true else port_used fuel (pn_next n) port
      end
  end.

(** udp_port++, and back to the start of the range after its end. *)
Definition step_port : M udps unit :=
  s ← get;
  modify (set_udp_port (u16 (udp_port s + 1)));;
  if udp_port s =? UDP_LOCAL_PORT_RANGE_END then modify (set_udp_port UDP_LOCAL_PORT_RANGE_START) else mret tt.

(** From the label again. *)
Fixpoint new_port_loop (fuel : nat) (n : Z) : M udps Z :=
  match fuel with
  | O => fail OutOfFuel
  | S fuel =>
      step_port;;
      s ← get;
      used ← port_used (pcb_fuel s) (udp_pcbs s) (udp_port s);
      if (used : bool) then
        let n := u16 (n + 1) in
        if UDP_LOCAL_PORT_RANGE_END - UDP_LOCAL_PORT_RANGE_START <? n then mret 0 else new_port_loop fuel n
      else mret (udp_port s)
  end.

Definition udp_new_port : M udps Z := new_port_loop (Z.to_nat 0x4000) 0.

(** ** Binding and connecting *)

(** The loop over the PCBs: [None] is ERR_USE, otherwise rebind. *)
Fixpoint bind_scan (fuel : nat) (q : option Z) (pcb : Z) (ipaddr : option Z) (port : Z) (rebind : bool) : M udps (option bool) :=
  match q with
  | None => mret (Some rebind)
  | Some i =>
      match fuel with
      | O => fail OutOfFuel
      | S fuel =>
          n ← rd_pnode i;
          let x := pn_pcb n in
          if pcb =? i then lwip_assert (negb rebind);; bind_scan fuel (pn_next n) pcb ipaddr port true
          else if (local_port x =? port) &&
              (ip_addr_isany (Some (local_ip x)) || ip_addr_isany ipaddr || (local_ip x =? addr_of ipaddr)) then mret None
          else bind_scan fuel (pn_next n) pcb ipaddr port rebind
      end
  end.

(** A NULL address is IP_ADDR_ANY. *)
Definition udp_bind (pcb : Z) (ipaddr : option Z) (port : Z) : M udps Z :=
  s ← get;
  r ← bind_scan (pcb_fuel s) (udp_pcbs s) pcb ipaddr port false;
  match r with
  | None => mret ERR_USE
  | Some rebind =>
      x ← rd_pcb pcb;
      wr_pcb pcb (set_local_ip (addr_of ipaddr) x);;
      port ← (if port =? 0 then udp_new_port else mret port);
      if port =? 0 then mret ERR_USE
      else
        x ← rd_pcb pcb;
        wr_pcb pcb (set_local_port port x);;
        (if (rebind : bool) then mret tt
         else s ← get; wr_next pcb (udp_pcbs s);; modify (set_udp_pcbs (Some pcb)));;
        mret ERR_OK
  end.

Fixpoint on_list (fuel : nat) (q : option Z) (pcb : Z) : M udps bool :=
  match q with
  | None => mret false
  | Some i =>
      match fuel with
      | O => fail OutOfFuel
      | S fuel => if pcb =? i then mret true else n ← rd_pnode i; on_list fuel (pn_next n) pcb
      end
  end.

Definition udp_connect (pcb : Z) (ipaddr : option Z) (port : Z) : M udps Z :=
  x ← rd_pcb pcb;
  err ← (if local_port x =? 0 then udp_bind pcb (Some (local_ip x)) (local_port x) else mret ERR_OK);
  if negb (err =? ERR_OK) then mret err
  else
    x ← rd_pcb pcb;
    wr_pcb pcb (set_pcb_flags (Z.lor (flags x) UDP_FLAGS_CONNECTED) (set_remote (addr_of ipaddr) port x));;
    s ← get;
    found ← on_list (pcb_fuel s) (udp_pcbs s) pcb;
    if (found : bool) then mret ERR_OK
    else wr_next pcb (udp_pcbs s);; modify (set_udp_pcbs (Some pcb));; mret ERR_OK.

Definition udp_disconnect (pcb : Z) : M udps unit :=
  x ← rd_pcb pcb;
  wr_pcb pcb (set_pcb_flags (Z.land (flags x) (not8 UDP_FLAGS_CONNECTED)) (set_remote IPADDR_ANY 0 x)).

Definition udp_recv (pcb : Z) (f : option Z) (arg : Z) : M udps unit :=
  x ← rd_pcb pcb; wr_pcb pcb (set_recv f arg x).

(** ** PCBs made and removed *)

(** memp_malloc(MEMP_UDP_PCB), and the memset. *)
Definition udp_new : M udps (option Z) :=
  s ← get;
  match pool s with
  | [] => mret None
  | p :: l =>
      modify (set_pool l);;
      wr_pnode p (PcbNode (UdpPcb 0 0 0 0 0 0 0 0 None 0) None);;
      x ← rd_pcb p;
      wr_pcb p (UdpPcb (local_ip x) (remote_ip x) (so_options x) (tos x) UDP_TTL (flags x) (local_port x) (remote_port x) (recv x) (recv_arg x));;
      mret (Some p)
  end.

Fixpoint unlink_pcb (fuel : nat) (q : option Z) (pcb : Z) : M udps unit :=
  match q with
  | None => mret tt
  | Some p2 =>
      match fuel with
      | O => fail OutOfFuel
      | S fuel =>
          n ← rd_pnode p2;
          (if bool_decide (pn_next n = Some pcb) then x ← rd_pnode pcb; wr_next p2 (pn_next x) else mret tt);;
          n ← rd_pnode p2;
          unlink_pcb fuel (pn_next n) pcb
      end
  end.

Definition udp_remove (pcb : Z) : M udps unit :=
  s ← get;
  (if bool_decide (udp_pcbs s = Some pcb) then n ← rd_pnode pcb; modify (set_udp_pcbs (pn_next n))
   else unlink_pcb (pcb_fuel s) (udp_pcbs s) pcb);;
  s ← get;
  _ ← deref (pcbs s !! pcb);
  modify (set_pcbs (delete pcb));;
  modify (set_pool (pcb :: pool s)).

(** ** The PCB of a datagram *)

(** The addresses and ports of a datagram, in host byte order; does the destination count
    as a broadcast on the interface, and the netmask there. *)
Record dgram := Dgram { dg_src : Z; dg_sport : Z; dg_dst : Z; dg_dport : Z; dg_broadcast : bool; dg_mask : Z }.

Definition local_match (d : dgram) (x : udp_pcb) : bool :=
  (local_port x =? dg_dport d) &&
  ((negb (dg_broadcast d) && ip_addr_isany (Some (local_ip x))) ||
   (local_ip x =? dg_dst d) ||
   (dg_broadcast d && (ip_addr_isany (Some (local_ip x)) || ip_addr_netcmp (local_ip x) (dg_dst d) (dg_mask d)))).

Definition remote_match (d : dgram) (x : udp_pcb) : bool :=
  (remote_port x =? dg_sport d) && (ip_addr_isany (Some (remote_ip x)) || (remote_ip x =? dg_src d)).

Definition unconnected (x : udp_pcb) : bool := Z.land (flags x) UDP_FLAGS_CONNECTED =? 0.

(** The loop of udp_input: the PCB, if there is one, and was it the first of the list
    (UDP_STATS_INC(udp.cachehit))? *)
Fixpoint demux_loop (fuel : nat) (q prev uncon : option Z) (d : dgram) : M udps (option Z * bool) :=
  match q with
  | None => mret (uncon, false)
  | Some p =>
      match fuel with
      | O => fail OutOfFuel
      | S fuel =>
          n ← rd_pnode p;
          let x := pn_pcb n in
          let lm := local_match d x in
          let uncon := if lm && bool_decide (uncon = None) && unconnected x then Some p else uncon in
          if lm && remote_match d x then
            match prev with
            | Some pv =>
                wr_next pv (pn_next n);;
                s ← get;
                wr_next p (udp_pcbs s);;
                modify (set_udp_pcbs (Some p));;
                mret (Some p, false)
            | None => mret (Some p, true)
            end
          else demux_loop fuel (pn_next n) (Some p) uncon d
      end
  end.

Definition udp_demux (d : dgram) : M udps (option Z * bool) :=
  s ← get; demux_loop (pcb_fuel s) (udp_pcbs s) None None d.
