(* ===== verification/UdpPcbSpec.v ===== *)
(** * What the list of UDP PCBs promises

    The PCBs threaded into a list refine a list of addresses with a table, for every call
    of core/udp.c on them; in every history of calls two PCBs never accept the same
    unicast datagram, and local ports are found while there are any. *)

From S2P Require Import Prelude ByteOrder IpAddr Pbuf PbufData Netif Ip UdpPcb.

(** ** The specification *)

Record uabs := UAbs { ua_list : list Z; ua_tab : gmap Z udp_pcb; ua_port : Z; ua_pool : list Z }.

Definition ua_set (f : gmap Z udp_pcb -> gmap Z udp_pcb) (a : uabs) : uabs := UAbs (ua_list a) (f (ua_tab a)) (ua_port a) (ua_pool a).

(** Does the PCB [i] satisfy [f]? *)
Definition pcb_is (f : udp_pcb -> bool) (tab : gmap Z udp_pcb) (i : Z) : bool :=
  match tab !! i with Some x => f x | None => false end.

Fixpoint first_pcb (f : udp_pcb -> bool) (tab : gmap Z udp_pcb) (l : list Z) : option Z :=
  match l with
  | [] => None
  | p :: l => if pcb_is f tab p then Some p else first_pcb f tab l
  end.

Definition has_port (n : Z) (x : udp_pcb) : bool := local_port x =? n.

Definition port_taken (a : uabs) (n : Z) : bool := existsb (pcb_is (has_port n) (ua_tab a)) (ua_list a).

Definition next_port (n : Z) : Z := if n =? UDP_LOCAL_PORT_RANGE_END then UDP_LOCAL_PORT_RANGE_START else u16 (n + 1).

(** The first port that is free of the [k] after [n]; and the last one tried. *)
Fixpoint pick_port (taken : Z -> bool) (k : nat) (n : Z) : Z * Z :=
  match k with
  | O => (0, n)
  | S k => if taken (next_port n) then pick_port taken k (next_port n) else (next_port n, next_port n)
  end.

(** Addresses that cannot be bound to one port. *)
Definition clashes (ip port : Z) (x : udp_pcb) : bool :=
  (local_port x =? port) && ((local_ip x =? IPADDR_ANY) || (ip =? IPADDR_ANY) || (local_ip x =? ip)).

Definition clash (a : uabs) (p ip port : Z) : bool :=
  existsb (fun i => negb (p =? i) && pcb_is (clashes ip port) (ua_tab a) i) (ua_list a).

Definition ua_link (p : Z) (a : uabs) : uabs :=
  if bool_decide (p ∈ ua_list a) then a else UAbs (p :: ua_list a) (ua_tab a) (ua_port a) (ua_pool a).

Definition spec_new_port (a : uabs) : Z * uabs :=
  let '(r, n) := pick_port (port_taken a) (Z.to_nat 0x4000) (ua_port a) in (r, UAbs (ua_list a) (ua_tab a) n (ua_pool a)).

Definition spec_bind (p ip port : Z) (a : uabs) : uabs * Z :=
  if clash a p ip port then (a, ERR_USE)
  else
    let a := ua_set (alter (set_local_ip ip) p) a in
    let '(port, a) := if port =? 0 then spec_new_port a else (port, a) in
    if port =? 0 then (a, ERR_USE) else (ua_link p (ua_set (alter (set_local_port port) p) a), ERR_OK).

Definition spec_connect (p ip port : Z) (x : udp_pcb) (a : uabs) : uabs * Z :=
  let '(a, err) := if local_port x =? 0 then spec_bind p (local_ip x) 0 a else (a, ERR_OK) in
  if err =? ERR_OK then
    (ua_link p (ua_set (alter (fun x => set_pcb_flags (Z.lor (flags x) UDP_FLAGS_CONNECTED) (set_remote ip port x)) p) a), ERR_OK)
  else (a, err).

Definition perfect_match (d : dgram) (x : udp_pcb) : bool := local_match d x && remote_match d x.

Definition open_match (d : dgram) (x : udp_pcb) : bool := local_match d x && unconnected x.

(** A full match moves to the front of the list. *)
Definition spec_demux (d : dgram) (a : uabs) : uabs * (option Z * bool) :=
  match first_pcb (perfect_match d) (ua_tab a) (ua_list a) with
  | Some p => (UAbs (p :: filter (fun x => x <> p) (ua_list a)) (ua_tab a) (ua_port a) (ua_pool a),
               (Some p, bool_decide (head (ua_list a) = Some p)))
  | None => (a, (first_pcb (open_match d) (ua_tab a) (ua_list a), false))
  end.

Definition new_pcb : udp_pcb := UdpPcb 0 0 0 0 UDP_TTL 0 0 0 None 0.

Inductive udp_call :=
| UNew
| URemove (p : Z)
| UBind (p : Z) (ip : option Z) (port : Z)
| UConnect (p : Z) (ip : option Z) (port : Z)
| UDisconnect (p : Z)
| URecv (p : Z) (f : option Z) (arg : Z)
| UDemux (d : dgram).

(** What a call returns. *)
Inductive udp_ret := RPcb (p : option Z) | RErr (e : Z) | RFound (r : option Z * bool) | RNone.

Definition run_call (c : udp_call) : M udps udp_ret :=
  match c with
  | UNew => r ← udp_new; mret (RPcb r)
  | URemove p => udp_remove p;; mret RNone
  | UBind p ip port => r ← udp_bind p ip port; mret (RErr r)
  | UConnect p ip port => r ← udp_connect p ip port; mret (RErr r)
  | UDisconnect p => udp_disconnect p;; mret RNone
  | URecv p f arg => udp_recv p f arg;; mret RNone
  | UDemux d => r ← udp_demux d; mret (RFound r)
  end.

Definition spec_call (c : udp_call) (a : uabs) : uabs * udp_ret :=
  match c with
  | UNew =>
      match ua_pool a with
      | [] => (a, RPcb None)
      | p :: l => (UAbs (ua_list a) (<[p := new_pcb]> (ua_tab a)) (ua_port a) l, RPcb (Some p))
      end
  | URemove p => (UAbs (filter (fun x => x <> p) (ua_list a)) (delete p (ua_tab a)) (ua_port a) (p :: ua_pool a), RNone)
  | UBind p ip port => let '(a, r) := spec_bind p (addr_of ip) port a in (a, RErr r)
  | UConnect p ip port =>
      match ua_tab a !! p with
      | Some x => let '(a, r) := spec_connect p (addr_of ip) port x a in (a, RErr r)
      | None => (a, RNone)
      end
  | UDisconnect p =>
      (ua_set (alter (fun x => set_pcb_flags (Z.land (flags x) (not8 UDP_FLAGS_CONNECTED)) (set_remote IPADDR_ANY 0 x)) p) a, RNone)
  | URecv p f arg => (ua_set (alter (set_recv f arg) p) a, RNone)
  | UDemux d => let '(a, r) := spec_demux d a in (a, RFound r)
  end.

(** The PCB of a call is one that udp_new gave and udp_remove did not take back. *)
Definition ucall_ok (a : uabs) (c : udp_call) : Prop :=
  match c with
  | UNew | UDemux _ => True
  | UBind p _ port | UConnect p _ port => is_Some (ua_tab a !! p) /\ is_u16 port
  | URemove p | UDisconnect p | URecv p _ _ => is_Some (ua_tab a !! p)
  end.

(** ** Lists threaded through the nodes *)

(** From [q] through the nodes of [l] to [r]. *)
Fixpoint seg (m : gmap Z pcb_node) (q : option Z) (l : list Z) (r : option Z) : Prop :=
  match l with
  | [] => q = r
  | p :: l => q = Some p /\ exists n, m !! p = Some n /\ seg m (pn_next n) l r
  end.

Lemma seg_ext m m' l r : forall q, (forall p, p ∈ l -> (pn_next <$> m' !! p) = (pn_next <$> m !! p)) -> seg m q l r -> seg m' q l r.
Proof.
  induction l as [|p l IH]; intros q Hm Hl; [done|]. destruct Hl as (-> & n & Hn & Hl). split; [done|].
  pose proof (Hm p ltac:(left)) as E. rewrite Hn in E. destruct (m' !! p) as [n'|]; [|done]. simplify_eq/=.
  exists n'. split; [done|]. rewrite E. apply IH; [|done]. intros x Hx. apply Hm. by right.
Qed.

Lemma seg_insert m q l r p n : p ∉ l -> seg m q l r -> seg (<[p := n]> m) q l r.
Proof. intros Hp. apply seg_ext. intros x Hx. rewrite lookup_insert_ne; [done|]. by intros ->. Qed.

Lemma pseg_app m l k r : forall q, seg m q (l ++ k) r <-> exists o, seg m q l o /\ seg m o k r.
Proof.
  induction l as [|p l IH]; intros q; cbn [app seg].
  - split; [intros Hk; by exists q|by intros (o & -> & Hk)].
  - split.
    + intros (-> & n & Hn & (o & Hl & Hk)%IH). exists o. split; [|done]. split; [done|]. by exists n.
    + intros (o & (-> & n & Hn & Hl) & Hk). split; [done|]. exists n. split; [done|]. apply IH. by exists o.
Qed.

Lemma seg_in m l r p : forall q, seg m q l r -> p ∈ l -> is_Some (m !! p).
Proof.
  induction l as [|x l IH]; intros q Hl Hp; [by apply elem_of_nil in Hp|]. destruct Hl as (_ & n & Hn & Hl).
  apply elem_of_cons in Hp as [->|Hp]; [by eexists|by eapply IH].
Qed.

Lemma seg_length m q l r : seg m q l r -> NoDup l -> (length l <= size m)%nat.
Proof.
  intros Hl Hnd. rewrite <- size_dom. rewrite <- (size_list_to_set (C := gset Z)) by done.
  apply subseteq_size. intros p Hp%elem_of_list_to_set. apply elem_of_dom. by eapply seg_in.
Qed.

(** The last node made to point to something else. *)
Lemma seg_retarget m q l pv n r r' : seg m q (l ++ [pv]) r -> m !! pv = Some n -> pv ∉ l ->
  seg (<[pv := PcbNode (pn_pcb n) r']> m) q (l ++ [pv]) r'.
Proof.
  intros (o & Hl & -> & _)%pseg_app Hn Hp. apply pseg_app. exists (Some pv). split; [by apply seg_insert|].
  split; [done|]. eexists. split; [apply lookup_insert_eq|done].
Qed.

Lemma without_id (l : list Z) p : p ∉ l -> filter (fun x => x <> p) l = l.
Proof.
  induction l as [|x l IH]; intros Hp; [done|]. apply not_elem_of_cons in Hp as [Hx Hp].
  rewrite filter_cons_True by congruence. by rewrite IH.
Qed.

Lemma without_mid (l k : list Z) p : p ∉ l -> p ∉ k -> filter (fun x => x <> p) (l ++ p :: k) = l ++ k.
Proof. intros Hl Hk. rewrite list.filter_app, filter_cons_False by naive_solver. by rewrite !without_id. Qed.

Lemma in_cons_ne (p i : Z) l : p <> i -> p ∈ i :: l <-> p ∈ l.
Proof. intros Hne. rewrite elem_of_cons. split; [by intros [?|?]|by right]. Qed.

(** ** Concrete and abstract states *)

Record uabs_of (s : udps) (a : uabs) : Prop := UabsOf {
  uo_tab : pn_pcb <$> pcbs s = ua_tab a;
  uo_list : seg (pcbs s) (udp_pcbs s) (ua_list a) None;
  uo_nodup : NoDup (ua_list a);
  uo_port : udp_port s = ua_port a;
  uo_pool : pool s = ua_pool a;
  uo_fresh : NoDup (ua_pool a) /\ forall p, p ∈ ua_pool a -> ua_tab a !! p = None
}.

Lemma uo_node s a p x : uabs_of s a -> ua_tab a !! p = Some x -> exists n, pcbs s !! p = Some n /\ pn_pcb n = x.
Proof.
  intros Ha Hp. rewrite <- (uo_tab _ _ Ha), lookup_fmap in Hp. destruct (pcbs s !! p) as [n|]; [|done]. simplify_eq/=. by exists n.
Qed.

Lemma uo_fuel s a : uabs_of s a -> (length (ua_list a) <= pcb_fuel s)%nat.
Proof. intros Ha. pose proof (seg_length _ _ _ _ (uo_list _ _ Ha) (uo_nodup _ _ Ha)). unfold pcb_fuel. lia. Qed.

Lemma rd_pnode_bind {B} s p n (k : pcb_node -> M udps B) : pcbs s !! p = Some n -> (rd_pnode p ≫= k) s = k n s.
Proof. intros Hn. unfold rd_pnode. by rewrite bind_assoc, get_bind, (deref_bind _ n). Qed.

Lemma wp_rd_pnode s p n (Q : pcb_node -> udps -> Prop) : pcbs s !! p = Some n -> Q n s -> wp (rd_pnode p) s Q.
Proof. intros Hn HQ. exists n, s. split; [|done]. unfold rd_pnode. by rewrite get_bind, Hn. Qed.

Lemma wp_wr_next s p n q (Q : unit -> udps -> Prop) : pcbs s !! p = Some n ->
  Q tt (set_pcbs (insert p (PcbNode (pn_pcb n) q)) s) -> wp (wr_next p q) s Q.
Proof. intros Hn HQ. unfold wr_next, wr_pnode. wp_step. apply (wp_rd_pnode _ _ n); [done|]. by wp_step. Qed.

Lemma wp_rd_pcb s a p x (Q : udp_pcb -> udps -> Prop) : uabs_of s a -> ua_tab a !! p = Some x -> Q x s -> wp (rd_pcb p) s Q.
Proof.
  intros Ha Hp HQ. destruct (uo_node _ _ _ _ Ha Hp) as (n & Hn & <-). unfold rd_pcb. wp_step.
  apply (wp_rd_pnode _ _ n); [done|]. by wp_step.
Qed.

Lemma alter_at {V} (f : V -> V) p x (m : gmap Z V) : m !! p = Some x -> alter f p m = <[p := f x]> m.
Proof.
  intros Hp. apply map_eq. intros y. destruct (decide (y = p)) as [->|Hne].
  - by rewrite lookup_alter_eq, lookup_insert_eq, Hp.
  - by rewrite lookup_alter_ne, lookup_insert_ne.
Qed.

(** A PCB is written. *)
Lemma wp_wr_pcb s a p x y (f : udp_pcb -> udp_pcb) (Q : unit -> udps -> Prop) :
  uabs_of s a -> ua_tab a !! p = Some x -> f x = y ->
  (forall s', uabs_of s' (ua_set (alter f p) a) -> Q tt s') -> wp (wr_pcb p y) s Q.
Proof.
  intros Ha Hp <- HQ. destruct (uo_node _ _ _ _ Ha Hp) as (n & Hn & <-). unfold wr_pcb. wp_step.
  apply (wp_rd_pnode _ _ n); [done|]. unfold wr_pnode. wp_step. apply HQ. destruct Ha as [Ht Hl Hd Hpt Hpl [Hf1 Hf2]].
  split; cbn; rewrite ?(alter_at _ _ _ _ Hp); try done.
  - by rewrite fmap_insert, Ht.
  - eapply seg_ext; [|exact Hl]. intros z _. destruct (decide (z = p)) as [->|Hne].
    + by rewrite lookup_insert_eq, Hn.
    + by rewrite lookup_insert_ne.
  - split; [done|]. intros z Hz. rewrite lookup_insert_ne; [by apply Hf2|]. intros ->. rewrite (Hf2 z Hz) in Hp. done.
Qed.

(** ** Local ports *)

Lemma pcb_is_node (f : udp_pcb -> bool) s a p n : uabs_of s a -> pcbs s !! p = Some n -> pcb_is f (ua_tab a) p = f (pn_pcb n).
Proof. intros Ha Hn. unfold pcb_is. by rewrite <- (uo_tab _ _ Ha), lookup_fmap, Hn. Qed.

Lemma port_used_ok s a port : uabs_of s a -> forall l fuel q, seg (pcbs s) q l None -> (length l <= fuel)%nat ->
  port_used fuel q port s = Done (existsb (pcb_is (has_port port) (ua_tab a)) l, s).
Proof.
  intros Ha. induction l as [|p l IH]; intros fuel q Hl Hf.
  - simpl in Hl. subst q. by destruct fuel.
  - destruct Hl as (-> & n & Hn & Hl). destruct fuel as [|fuel]; [simpl in Hf; lia|]. cbn [port_used existsb].
    rewrite (rd_pnode_bind _ _ n), (pcb_is_node _ s a p n) by done. unfold has_port at 1.
    destruct (local_port (pn_pcb n) =? port); [done|]. apply IH; [done|simpl in Hf; lia].
Qed.

Definition at_port (a : uabs) (n : Z) : uabs := UAbs (ua_list a) (ua_tab a) n (ua_pool a).

Lemma abs_at_port s a n : uabs_of s a -> uabs_of (set_udp_port n s) (at_port a n).
Proof. intros []. by split. Qed.

Lemma port_taken_at a n : port_taken (at_port a n) = port_taken a.
Proof. done. Qed.

Lemma step_port_ok s a : uabs_of s a -> step_port s = Done (tt, set_udp_port (next_port (ua_port a)) s).
Proof.
  intros Ha. unfold step_port. rewrite get_bind, modify_bind, (uo_port _ _ Ha). unfold next_port. destruct (_ =? _); by destruct s.
Qed.

Lemma new_port_loop_ok k : forall s a n, uabs_of s a -> n + Z.of_nat k = 0x4000 -> 0 <= n -> (0 < k)%nat ->
  exists r m, new_port_loop k n s = Done (r, set_udp_port m s) /\ pick_port (port_taken a) k (ua_port a) = (r, m).
Proof.
  induction k as [|k IH]; intros s a n Ha Hn Hn0 Hk; [lia|]. cbn [new_port_loop pick_port].
  rewrite (bind_done _ _ _ _ _ (step_port_ok s a Ha)), get_bind. pose proof (abs_at_port s a (next_port (ua_port a)) Ha) as Ha1.
  set (s1 := set_udp_port _ s) in *. rewrite (bind_done _ _ _ _ _ (port_used_ok _ _ (udp_port s1) Ha1 _ _ _ (uo_list _ _ Ha1) (uo_fuel _ _ Ha1))).
  change (udp_port s1) with (next_port (ua_port a)). change (existsb _ _) with (port_taken a (next_port (ua_port a))).
  destruct (port_taken a (next_port (ua_port a))); [|by eexists _, _].
  rewrite u16_id by (unfold is_u16; lia). unfold UDP_LOCAL_PORT_RANGE_END, UDP_LOCAL_PORT_RANGE_START.
  destruct (Z.ltb_spec (0xffff - 0xc000) (n + 1)) as [Hlt|Hge].
  - assert (k = 0%nat) as -> by lia. by eexists _, _.
  - destruct (IH s1 _ (n + 1) Ha1 ltac:(lia) ltac:(lia) ltac:(lia)) as (r & m & E1 & E2). exists r, m. split; [|done].
    rewrite E1. subst s1. by destruct s.
Qed.

Lemma new_port_eq s a : uabs_of s a ->
  exists r m, udp_new_port s = Done (r, set_udp_port m s) /\ spec_new_port a = (r, at_port a m).
Proof.
  intros Ha. unfold udp_new_port, spec_new_port. assert (Z.of_nat (Z.to_nat 0x4000) = 0x4000) as Hk by lia.
  revert Hk. generalize (Z.to_nat 0x4000). intros k Hk.
  destruct (new_port_loop_ok k s a 0 Ha) as (r & m & E1 & E2); [lia|lia|lia|]. exists r, m. split; [exact E1|]. by rewrite E2.
Qed.

Lemma new_port_ok s a : uabs_of s a -> wp udp_new_port s (fun r s' => r = (spec_new_port a).1 /\ uabs_of s' (spec_new_port a).2).
Proof.
  intros Ha. destruct (new_port_eq s a Ha) as (r & m & E1 & E2). exists r, (set_udp_port m s). split; [exact E1|].
  rewrite E2. split; [done|]. by apply abs_at_port.
Qed.

(** What the search finds. *)
Lemma next_port_range n : 0xc000 <= n <= 0xffff -> 0xc000 <= next_port n <= 0xffff.
Proof.
  intros Hn. unfold next_port, UDP_LOCAL_PORT_RANGE_END, UDP_LOCAL_PORT_RANGE_START. destruct (Z.eqb_spec n 0xffff); [lia|].
  rewrite u16_id; [lia|unfold is_u16; lia].
Qed.

(** The [i]th port after [n], around the range. *)
Definition port_after (n i : Z) : Z := 0xc000 + (n - 0xc000 + i) mod 0x4000.

Lemma port_after_next n i : 0xc000 <= n <= 0xffff -> port_after (next_port n) i = port_after n (i + 1).
Proof.
  intros Hn. unfold port_after, next_port, UDP_LOCAL_PORT_RANGE_END, UDP_LOCAL_PORT_RANGE_START. destruct (Z.eqb_spec n 0xffff) as [->|].
  - f_equal. replace (0xffff - 0xc000 + (i + 1)) with (i + 1 * 0x4000) by lia. rewrite Z.mod_add by lia. f_equal; lia.
  - rewrite u16_id by (unfold is_u16; lia). do 2 f_equal. lia.
Qed.

Lemma port_after_0 n : 0xc000 <= n <= 0xffff -> port_after n 0 = n.
Proof. intros Hn. unfold port_after. rewrite Z.mod_small; lia. Qed.

Lemma pick_port_ok taken k : forall n, 0xc000 <= n <= 0xffff ->
  exists i, (i <= k)%nat /\ (forall j, 1 <= j <= Z.of_nat i -> taken (port_after n j) = true) /\
    ((i < k)%nat /\ taken (port_after n (Z.of_nat i + 1)) = false /\
       pick_port taken k n = (port_after n (Z.of_nat i + 1), port_after n (Z.of_nat i + 1)) \/
     i = k /\ pick_port taken k n = (0, port_after n (Z.of_nat k))).
Proof.
  induction k as [|k IH]; intros n Hn.
  - exists 0%nat. split; [lia|]. split; [lia|]. right. split; [done|]. cbn [pick_port]. by rewrite port_after_0.
  - cbn [pick_port]. pose proof (port_after_next n 0 Hn) as E1. rewrite port_after_0 in E1 by (by apply next_port_range).
    change (0 + 1) with 1 in E1. symmetry in E1.
    destruct (taken (next_port n)) eqn:Et.
    + destruct (IH (next_port n) (next_port_range _ Hn)) as (i & Hi & Hall & Hres). exists (S i). split; [lia|]. split.
      * intros j Hj. destruct (decide (j = 1)) as [->|]; [by rewrite E1|]. replace j with (j - 1 + 1) by lia.
        rewrite <- port_after_next by done. apply Hall. lia.
      * rewrite !Nat2Z.inj_succ, <- !Z.add_1_r. rewrite !port_after_next in Hres by done. destruct Hres as [(? & ? & ?)|[-> ?]].
        -- left. split; [lia|done].
        -- by right.
    + exists 0%nat. split; [lia|]. split; [lia|]. left. change (Z.of_nat 0 + 1) with 1. rewrite E1. by split; [lia|].
Qed.

(** ** Binding and connecting *)

(** NULL and IP_ADDR_ANY are the same. *)
Lemma isany_addr_of ip : ip_addr_isany ip = (addr_of ip =? IPADDR_ANY).
Proof. by destruct ip. Qed.

Lemma bind_scan_ok s a p ip port : uabs_of s a -> forall l fuel q rb, seg (pcbs s) q l None -> NoDup l -> (rb = true -> p ∉ l) ->
  (length l <= fuel)%nat ->
  bind_scan fuel q p ip port rb s =
    Done (if existsb (fun i => negb (p =? i) && pcb_is (clashes (addr_of ip) port) (ua_tab a) i) l then None
          else Some (rb || bool_decide (p ∈ l)), s).
Proof.
  intros Ha. induction l as [|i l IH]; intros fuel q rb Hl Hnd Hrb Hf.
  - simpl in Hl. subst q. rewrite bool_decide_false by (by intros ?%elem_of_nil). rewrite orb_false_r. by destruct fuel.
  - destruct Hl as (-> & n & Hn & Hl). apply list.NoDup_cons in Hnd as [Hi Hnd]. destruct fuel as [|fuel]; [simpl in Hf; lia|].
    cbn [bind_scan existsb]. rewrite (rd_pnode_bind _ _ n), (pcb_is_node _ s a i n) by done. simpl in Hf. destruct (Z.eqb_spec p i) as [->|Hne].
    + cbn [negb andb orb]. destruct rb; [exfalso; apply Hrb; [done|by left]|]. rewrite lwip_assert_bind by done.
      rewrite (IH fuel _ true Hl Hnd (fun _ => Hi) ltac:(lia)). rewrite (bool_decide_true (i ∈ i :: l) (list_elem_of_here _ _)). done.
    + cbn [negb andb]. unfold clashes at 1. rewrite !isany_addr_of. cbn [addr_of default from_option].
      destruct ((local_port (pn_pcb n) =? port) && _); [done|]. cbn [orb].
      rewrite (IH fuel _ rb Hl Hnd) by (try lia; intros Hr Hp; apply (Hrb Hr); by right).
      by rewrite (bool_decide_ext (p ∈ i :: l) (p ∈ l)) by by apply in_cons_ne.
Qed.

(** The PCB put in front of the list. *)
Lemma pcb_linked s a p (Q : unit -> udps -> Prop) : uabs_of s a -> is_Some (ua_tab a !! p) -> p ∉ ua_list a ->
  (forall s', uabs_of s' (ua_link p a) -> Q tt s') -> wp (wr_next p (udp_pcbs s);; modify (set_udp_pcbs (Some p))) s Q.
Proof.
  intros Ha [x Hp] Hni HQ. destruct (uo_node _ _ _ _ Ha Hp) as (n & Hn & Hx). wp_step. apply (wp_wr_next _ _ n); [done|].
  wp_step. apply HQ. unfold ua_link. rewrite bool_decide_false by done.
  destruct Ha as [Ht Hl Hd Hpt Hpl Hf]. split; cbn; try done.
  - rewrite fmap_insert. cbn. rewrite Hx, Ht. by rewrite insert_id.
  - split; [done|]. eexists. split; [apply lookup_insert_eq|]. cbn. by apply seg_insert.
  - by apply list.NoDup_cons.
Qed.

Lemma ua_link_in p a : p ∈ ua_list a -> ua_link p a = a.
Proof. intros Hp. unfold ua_link. by rewrite bool_decide_true. Qed.

Lemma ua_set_some f p q a : is_Some (ua_tab a !! q) -> is_Some (ua_tab (ua_set (alter f p) a) !! q).
Proof. intros Hq. cbn. destruct (decide (q = p)) as [->|]; [rewrite lookup_alter_eq, fmap_is_Some|rewrite lookup_alter_ne by done]; done. Qed.

Lemma spec_new_port_same a : ua_list (spec_new_port a).2 = ua_list a /\ ua_tab (spec_new_port a).2 = ua_tab a /\ ua_pool (spec_new_port a).2 = ua_pool a.
Proof. unfold spec_new_port. by destruct (pick_port _ _ _). Qed.

Lemma bind_ok s a p ip port : uabs_of s a -> is_Some (ua_tab a !! p) ->
  wp (udp_bind p ip port) s (fun r s' => r = (spec_bind p (addr_of ip) port a).2 /\ uabs_of s' (spec_bind p (addr_of ip) port a).1).
Proof.
  intros Ha [x Hp]. unfold udp_bind, spec_bind. wp_step. wp_step. wp_step. eexists _, s.
  split; [apply (bind_scan_ok s a p ip port Ha _ _ _ false (uo_list _ _ Ha) (uo_nodup _ _ Ha)); [done|by apply uo_fuel]|].
  fold (clash a p (addr_of ip) port). destruct (clash a p (addr_of ip) port); [by wp_step|]. cbn [orb].
  wp_step. apply (wp_rd_pcb _ a _ x); [done|done|]. wp_step. apply (wp_wr_pcb _ a _ x _ (set_local_ip (addr_of ip))); [done|done|done|].
  intros s1 Hs1. set (a1 := ua_set _ a) in *. wp_step.
  assert (is_Some (ua_tab a1 !! p)) as Hp1 by (by apply ua_set_some; rewrite Hp).
  enough (forall port1 s2 a2, uabs_of s2 a2 -> ua_list a2 = ua_list a -> ua_tab a2 = ua_tab a1 ->
    wp (if port1 =? 0 then mret ERR_USE else x ← rd_pcb p; wr_pcb p (set_local_port port1 x);;
        (if bool_decide (p ∈ ua_list a) then mret tt else s ← get; wr_next p (udp_pcbs s);; modify (set_udp_pcbs (Some p)));; mret ERR_OK) s2
      (fun r s' => r = (if port1 =? 0 then (a2, ERR_USE) else (ua_link p (ua_set (alter (set_local_port port1) p) a2), ERR_OK)).2 /\
        uabs_of s' (if port1 =? 0 then (a2, ERR_USE) else (ua_link p (ua_set (alter (set_local_port port1) p) a2), ERR_OK)).1)) as Hrest.
  { destruct (port =? 0) eqn:E0.
    - destruct (spec_new_port_same a1) as (El & Et & _). pose proof (new_port_ok s1 a1 Hs1) as Hnp. destruct (spec_new_port a1) as [r a2].
      eapply wp_mono; [exact Hnp|]. intros r' s2 [-> Hs2]. exact (Hrest _ _ _ Hs2 El Et).
    - wp_step. exact (Hrest port s1 a1 Hs1 eq_refl eq_refl). }
  intros port1 s2 a2 Hs2 El Et. destruct (port1 =? 0); [by wp_step|]. rewrite <- Et in Hp1. destruct Hp1 as [y Hy].
  wp_step. apply (wp_rd_pcb _ a2 _ y); [done|done|]. wp_step. apply (wp_wr_pcb _ a2 _ y _ (set_local_port port1)); [done|done|done|].
  intros s3 Hs3. wp_step. destruct (bool_decide_reflect (p ∈ ua_list a)) as [Hin|Hni].
  - wp_step. wp_step. rewrite ua_link_in by (cbn; by rewrite El). done.
  - wp_step. wp_step. eapply pcb_linked; [exact Hs3|apply ua_set_some; by rewrite Hy|cbn; by rewrite El|]. intros s4 Hs4. by wp_step.
Qed.

Lemma on_list_ok s p : forall l fuel q, seg (pcbs s) q l None -> (length l <= fuel)%nat ->
  on_list fuel q p s = Done (bool_decide (p ∈ l), s).
Proof.
  induction l as [|i l IH]; intros fuel q Hl Hf.
  - simpl in Hl. subst q. rewrite bool_decide_false by (by intros ?%elem_of_nil). by destruct fuel.
  - destruct Hl as (-> & n & Hn & Hl). destruct fuel as [|fuel]; [simpl in Hf; lia|]. cbn [on_list].
    destruct (Z.eqb_spec p i) as [->|Hne]; [by rewrite (bool_decide_true (i ∈ i :: l) (list_elem_of_here _ _))|].
    rewrite (rd_pnode_bind _ _ n) by done. rewrite (IH fuel _ Hl) by (simpl in Hf; lia).
    by rewrite (bool_decide_ext (p ∈ i :: l) (p ∈ l)) by by apply in_cons_ne.
Qed.

Lemma spec_bind_some p ip port a q : is_Some (ua_tab a !! q) -> is_Some (ua_tab (spec_bind p ip port a).1 !! q).
Proof.
  intros Hq. unfold spec_bind. destruct (clash a p ip port); [done|].
  assert (forall b n, is_Some (ua_tab b !! q) -> is_Some (ua_tab (ua_link p (ua_set (alter (set_local_port n) p) b)) !! q)) as Hk.
  { intros b n Hb. unfold ua_link. destruct (bool_decide _); by apply ua_set_some. }
  destruct (port =? 0).
  - destruct (spec_new_port_same (ua_set (alter (set_local_ip ip) p) a)) as (_ & Et & _). destruct (spec_new_port _) as [r a2]. cbn [snd] in Et.
    assert (is_Some (ua_tab a2 !! q)) by (rewrite Et; by apply ua_set_some). destruct (r =? 0); [done|by apply Hk].
  - destruct (port =? 0); [by apply ua_set_some|by apply Hk, ua_set_some].
Qed.

Lemma connect_ok s a p ip port x : uabs_of s a -> ua_tab a !! p = Some x ->
  wp (udp_connect p ip port) s
    (fun r s' => r = (spec_connect p (addr_of ip) port x a).2 /\ uabs_of s' (spec_connect p (addr_of ip) port x a).1).
Proof.
  intros Ha Hp. unfold udp_connect, spec_connect. wp_step. apply (wp_rd_pcb _ a _ x); [done|done|]. wp_step.
  assert (is_Some (ua_tab (if local_port x =? 0 then spec_bind p (local_ip x) 0 a else (a, ERR_OK)).1 !! p)) as Hsome
    by (destruct (local_port x =? 0); [apply spec_bind_some|cbn [fst]]; rewrite Hp; by eexists).
  apply wp_mono with (fun r s1 => r = (if local_port x =? 0 then spec_bind p (local_ip x) 0 a else (a, ERR_OK)).2 /\
    uabs_of s1 (if local_port x =? 0 then spec_bind p (local_ip x) 0 a else (a, ERR_OK)).1).
  { destruct (Z.eqb_spec (local_port x) 0) as [E0|E0]; [|by wp_step]. rewrite E0. apply (bind_ok s a p (Some (local_ip x)) 0 Ha). by rewrite Hp. }
  destruct (if local_port x =? 0 then _ else _) as [a1 err]. cbn [fst snd] in *. intros r s1 [-> Hs1].
  destruct (err =? ERR_OK); cbn [negb]; [|by wp_step]. destruct Hsome as [y Hy].
  wp_step. apply (wp_rd_pcb _ a1 _ y); [done|done|]. wp_step.
  eapply (wp_wr_pcb _ a1 _ y _ (fun x => set_pcb_flags (Z.lor (flags x) UDP_FLAGS_CONNECTED) (set_remote (addr_of ip) port x))); [done|done|done|].
  intros s2 Hs2. set (a2 := ua_set _ a1) in *. wp_step. wp_step. wp_step. eexists _, s2.
  split; [apply (on_list_ok s2 p _ _ _ (uo_list _ _ Hs2)); by apply uo_fuel|].
  destruct (bool_decide_reflect (p ∈ ua_list a2)) as [Hin|Hni].
  - wp_step. by rewrite ua_link_in.
  - destruct (pcb_linked s2 a2 p (fun _ s' => uabs_of s' (ua_link p a2)) Hs2) as (u & s3 & E3 & H3); [apply ua_set_some; by rewrite Hy|done|done|].
    destruct (bind_inv _ _ _ _ E3) as (v & s4 & E4 & E5). wp_step. exists v, s4. split; [exact E4|]. wp_step. exists u, s3. split; [exact E5|]. by wp_step.
Qed.

(** ** PCBs made and removed *)

Lemma new_ok s a : uabs_of s a ->
  wp udp_new s (fun r s' => RPcb r = (spec_call UNew a).2 /\ uabs_of s' (spec_call UNew a).1).
Proof.
  intros Ha. unfold udp_new, spec_call. wp_step. wp_step. rewrite (uo_pool _ _ Ha). destruct (ua_pool a) as [|p l] eqn:Ep; [by wp_step|].
  destruct (uo_fresh _ _ Ha) as [Hnd Hfree]. rewrite Ep in Hnd, Hfree. pose proof (Hfree p ltac:(left)) as Hp.
  apply list.NoDup_cons in Hnd as [Hpl Hnd].
  assert (p ∉ ua_list a) as Hni.
  { intros Hin. destruct (seg_in _ _ _ _ _ (uo_list _ _ Ha) Hin) as [n Hn]. rewrite <- (uo_tab _ _ Ha), lookup_fmap, Hn in Hp. done. }
  wp_step. wp_step. unfold wr_pnode. wp_step. wp_step. wp_step. unfold rd_pcb. wp_step.
  eapply wp_rd_pnode; [apply lookup_insert_eq|]. wp_step. wp_step. unfold wr_pcb. wp_step.
  eapply wp_rd_pnode; [apply lookup_insert_eq|]. unfold wr_pnode. wp_step. wp_step. split; [done|].
  destruct Ha as [Ht Hl Hd Hpt Hpo _]. split; cbn; try done.
  - rewrite insert_insert_eq, fmap_insert, Ht. done.
  - rewrite insert_insert_eq. by apply seg_insert.
  - split; [done|]. intros q Hq. rewrite lookup_insert_ne by (by intros ->). apply Hfree. by right.
Qed.

Lemma unlink_absent s p : forall l fuel q, seg (pcbs s) q l None -> p ∉ tail l -> (length l <= fuel)%nat ->
  unlink_pcb fuel q p s = Done (tt, s).
Proof.
  induction l as [|t l IH]; intros fuel q Hl Hp Hf.
  - simpl in Hl. subst q. by destruct fuel.
  - destruct Hl as (-> & n & Hn & Hl). destruct fuel as [|fuel]; [simpl in Hf; lia|]. cbn [unlink_pcb tail] in *.
    rewrite (rd_pnode_bind _ _ n) by done. rewrite bool_decide_false.
    2:{ intros E. destruct l as [|t2 l]; [simpl in Hl; congruence|]. destruct Hl as [E2 _]. apply Hp. rewrite E in E2. injection E2 as ->. left. }
    rewrite ret_bind, (rd_pnode_bind _ _ n) by done. apply IH; [done| |simpl in Hf; lia]. destruct l; [done|]. intros Hin. apply Hp. by right.
Qed.

(** The node behind one of [l] is unlinked. *)
Lemma unlink_found np p l2 : forall l1 fuel q s, seg (pcbs s) q (l1 ++ p :: l2) None -> NoDup (l1 ++ p :: l2) -> l1 <> [] ->
  pcbs s !! p = Some np -> (length (l1 ++ p :: l2) <= fuel)%nat ->
  exists m', unlink_pcb fuel q p s = Done (tt, set_pcbs (fun _ => m') s) /\ seg m' q (l1 ++ l2) None /\
    pn_pcb <$> m' = pn_pcb <$> pcbs s /\ forall x, x ∉ l1 -> m' !! x = pcbs s !! x.
Proof.
  induction l1 as [|t l1 IH]; intros fuel q s Hl Hnd Hne Hp Hf; [done|]. destruct Hl as (-> & n & Hn & Hl).
  destruct fuel as [|fuel]; [simpl in Hf; lia|]. cbn [unlink_pcb]. rewrite (rd_pnode_bind _ _ n) by done.
  change ((t :: l1) ++ p :: l2) with (t :: (l1 ++ p :: l2)) in Hnd. apply list.NoDup_cons in Hnd as [Ht Hnd]. simpl in Hf.
  assert (t <> p) as Htp by (intros ->; apply Ht, elem_of_app; right; left). destruct l1 as [|t2 l1].
  - destruct Hl as (E1 & n' & Hn' & Hl). assert (n' = np) as -> by congruence. rewrite bool_decide_true by done.
    apply list.NoDup_cons in Hnd as [Hp2 Hnd]. rewrite bind_assoc, (rd_pnode_bind _ _ np) by done.
    set (m' := <[t := PcbNode (pn_pcb n) (pn_next np)]> (pcbs s)).
    assert ((wr_next t (pn_next np)) s = Done (tt, set_pcbs (fun _ => m') s)) as Ew by (unfold wr_next; by rewrite (rd_pnode_bind _ _ n)).
    rewrite (bind_done _ _ _ _ _ Ew). assert (m' !! t = Some (PcbNode (pn_pcb n) (pn_next np))) as Ht' by apply lookup_insert_eq.
    rewrite (rd_pnode_bind (set_pcbs (fun _ => m') s) t (PcbNode (pn_pcb n) (pn_next np))) by done.
    assert (seg m' (pn_next np) l2 None) as Hl2 by (apply seg_insert; [intros Hi; apply Ht; by right|done]).
    exists m'. split; [|split; [|split]].
    + apply (unlink_absent (set_pcbs (fun _ => m') s) p l2); [exact Hl2| |simpl in Hf; lia]. destruct l2; [done|]. intros Hi. apply Hp2. by right.
    + split; [done|]. by exists (PcbNode (pn_pcb n) (pn_next np)).
    + unfold m'. rewrite fmap_insert. cbn. apply insert_id. by rewrite lookup_fmap, Hn.
    + intros x Hx. unfold m'. rewrite lookup_insert_ne; [done|]. intros ->. apply Hx. left.
  - rewrite bool_decide_false.
    2:{ destruct Hl as [E1 _]. rewrite E1. intros [= ->]. apply list.NoDup_cons in Hnd as [Hx _]. apply Hx, elem_of_app. right. left. }
    rewrite ret_bind, (rd_pnode_bind _ _ n) by done.
    destruct (IH fuel (pn_next n) s Hl Hnd ltac:(done) Hp ltac:(simpl in *; lia)) as (m' & E1 & Hs & Ht' & Hout).
    exists m'. split; [done|]. split; [|split; [done|]].
    + split; [done|]. exists n. split; [|done]. rewrite Hout; [done|]. intros Hi. apply Ht, elem_of_app. by left.
    + intros x Hx. apply Hout. intros Hi. apply Hx. by right.
Qed.

(** The node is out of the list; it is still a node. *)
Lemma unlinked_ok s a p x : uabs_of s a -> ua_tab a !! p = Some x ->
  wp (if bool_decide (udp_pcbs s = Some p) then n ← rd_pnode p; modify (set_udp_pcbs (pn_next n))
      else unlink_pcb (pcb_fuel s) (udp_pcbs s) p) s
    (fun _ s' => uabs_of s' (UAbs (filter (fun x => x <> p) (ua_list a)) (ua_tab a) (ua_port a) (ua_pool a))).
Proof.
  intros Ha Hp. destruct (uo_node _ _ _ _ Ha Hp) as (np & Hnp & _). pose proof (uo_fuel _ _ Ha) as Hf.
  destruct Ha as [Ht Hl Hd Hpt Hpo Hfr]. destruct (decide (p ∈ ua_list a)) as [(l1 & l2 & E)%list_elem_of_split|Hni].
  - rewrite E in *. pose proof Hd as Hd'. apply list.NoDup_app in Hd' as (Hd1 & Hdis & [Hp2 Hd2]%list.NoDup_cons).
    assert (p ∉ l1) as Hp1 by (intros Hi; apply (Hdis p Hi); left). rewrite without_mid by done.
    assert (NoDup (l1 ++ l2)) as Hnd12 by (apply list.NoDup_app; split; [done|split; [|done]]; intros y Hy Hy2; apply (Hdis y Hy); by right).
    destruct l1 as [|t l1].
    + destruct Hl as (Hh & n & Hn & Hl). rewrite bool_decide_true by done. wp_step. apply (wp_rd_pnode _ _ n); [done|]. wp_step.
      by split.
    + rewrite bool_decide_false. 2:{ destruct Hl as [Hh _]. rewrite Hh. intros [= ->]. apply Hp1. left. }
      destruct (unlink_found np p l2 (t :: l1) (pcb_fuel s) _ s Hl Hd ltac:(done) Hnp Hf) as (m' & E1 & Hs & Ht' & _).
      eexists tt, _. split; [exact E1|]. split; try done. cbn. by rewrite Ht'.
  - rewrite without_id by done. rewrite bool_decide_false.
    2:{ intros Hh. destruct (ua_list a) as [|t l]; [simpl in Hl; congruence|]. destruct Hl as [Hh' _]. apply Hni. rewrite Hh in Hh'. injection Hh' as ->. left. }
    eexists tt, s. split; [|by split]. apply (unlink_absent s p (ua_list a)); [done| |done]. destruct (ua_list a); [done|]. intros Hi. apply Hni. by right.
Qed.

Lemma udp_remove_ok s a p x : uabs_of s a -> ua_tab a !! p = Some x ->
  wp (udp_remove p) s (fun _ s' => uabs_of s' (spec_call (URemove p) a).1).
Proof.
  intros Ha Hp. unfold udp_remove. wp_step. wp_step. wp_step. eapply wp_mono; [exact (unlinked_ok s a p x Ha Hp)|].
  intros [] s1 Hs1. wp_step. wp_step. destruct (uo_node _ _ _ _ Hs1 Hp) as (n & Hn & _). wp_step. apply (wp_deref _ n); [done|].
  wp_step. wp_step. wp_step. destruct Hs1 as [Ht Hl Hd Hpt Hpo [Hf1 Hf2]]. split; cbn in *; try done.
  - by rewrite fmap_delete, Ht.
  - eapply seg_ext; [|exact Hl]. intros y [Hy _]%list_elem_of_filter. by rewrite lookup_delete_ne.
  - by rewrite Hpo.
  - split.
    + apply list.NoDup_cons. split; [|done]. intros Hi. rewrite (Hf2 p Hi) in Hp. done.
    + intros q Hq. destruct (decide (q = p)) as [->|Hne]; [apply lookup_delete_eq|]. rewrite lookup_delete_ne by done.
      apply elem_of_cons in Hq as [?|Hq]; [done|]. by apply Hf2.
Qed.

(** ** The PCB of a datagram *)

Definition to_front (p : Z) (a : uabs) : uabs := UAbs (p :: filter (fun x => x <> p) (ua_list a)) (ua_tab a) (ua_port a) (ua_pool a).

Lemma to_front_head p l a : ua_list a = p :: l -> NoDup (ua_list a) -> to_front p a = a.
Proof.
  intros E Hnd. unfold to_front. rewrite E in *. apply list.NoDup_cons in Hnd as [Hp _]. rewrite filter_cons_False by (intros Hx; by apply Hx).
  rewrite without_id by done. rewrite <- E. by destruct a.
Qed.

Lemma move_front_ok {B} s a p n l1 pv l2 (r : B) : uabs_of s a -> ua_list a = l1 ++ pv :: p :: l2 -> pcbs s !! p = Some n ->
  wp (wr_next pv (pn_next n);; s ← get; wr_next p (udp_pcbs s);; modify (set_udp_pcbs (Some p));; mret r) s
    (fun r' s' => r' = r /\ uabs_of s' (to_front p a)).
Proof.
  intros Ha E Hn. pose proof (uo_nodup _ _ Ha) as Hd. pose proof (uo_list _ _ Ha) as Hl. unfold to_front. rewrite E in *.
  assert (l1 ++ pv :: p :: l2 = (l1 ++ [pv]) ++ p :: l2) as E2 by (by rewrite <- app_assoc). rewrite E2 in *. clear E2.
  apply list.NoDup_app in Hd as (Hd1 & Hdis & [Hp2 Hd2]%list.NoDup_cons).
  assert (p ∉ l1 ++ [pv]) as Hp1 by (intros Hi; apply (Hdis p Hi); left). rewrite without_mid by done.
  assert (pv ∉ l1) as Hpv by (apply list.NoDup_app in Hd1 as (_ & Hx & _); intros Hi; apply (Hx pv Hi); left).
  assert (pv <> p) as Hne by (intros ->; apply Hp1, elem_of_app; right; left).
  apply pseg_app in Hl as (o & Hl1 & Hl2). destruct Hl2 as (-> & n' & Hn' & Hl2). assert (n' = n) as -> by congruence.
  assert (is_Some (pcbs s !! pv)) as [nv Hnv] by (eapply (seg_in _ _ _ pv); [exact Hl1|apply elem_of_app; right; left]).
  wp_step. apply (wp_wr_next _ _ nv); [done|]. wp_step. wp_step. wp_step. apply (wp_wr_next _ _ n); [cbn; by rewrite lookup_insert_ne|].
  wp_step. wp_step. wp_step. split; [done|]. destruct Ha as [Ht _ _ Hpt Hpo Hf]. split; cbn; try done.
  - rewrite !fmap_insert. cbn. rewrite (insert_id (pn_pcb <$> pcbs s)) by (by rewrite lookup_fmap, Hnv).
    rewrite insert_id by (by rewrite lookup_fmap, Hn). done.
  - split; [done|]. eexists. split; [apply lookup_insert_eq|]. cbn [pn_next].
    assert (p ∉ (l1 ++ [pv]) ++ l2) as Hp12 by (intros [?|?]%elem_of_app; done). apply seg_insert; [done|]. apply pseg_app. exists (pn_next n). split.
    + eapply seg_retarget; done.
    + apply seg_insert; [|done]. intros Hi. apply (Hdis pv); [apply elem_of_app; right; left|by right].
  - apply list.NoDup_cons. split; [by intros [?|?]%elem_of_app|]. apply list.NoDup_app. split; [done|split; [|done]].
    intros y Hy Hy2. apply (Hdis y Hy). by right.
Qed.

Lemma demux_loop_ok d s a : uabs_of s a -> forall l2 l1 fuel q uncon, ua_list a = l1 ++ l2 -> seg (pcbs s) q l2 None -> (length l2 <= fuel)%nat ->
  wp (demux_loop fuel q (list.last l1) uncon d) s (fun r s' =>
    match first_pcb (perfect_match d) (ua_tab a) l2 with
    | Some p => r = (Some p, bool_decide (head (ua_list a) = Some p)) /\ uabs_of s' (to_front p a)
    | None => r = (match uncon with Some u => Some u | None => first_pcb (open_match d) (ua_tab a) l2 end, false) /\ s' = s
    end).
Proof.
  intros Ha. induction l2 as [|p l2 IH]; intros l1 fuel q uncon E Hl Hf.
  - simpl in Hl. subst q. cbn [first_pcb]. destruct fuel; (exists (uncon, false), s; split; [done|]; by destruct uncon).
  - destruct Hl as (-> & n & Hn & Hl). destruct fuel as [|fuel]; [simpl in Hf; lia|]. cbn [demux_loop first_pcb]. simpl in Hf.
    wp_step. apply (wp_rd_pnode _ _ n); [done|]. rewrite !(pcb_is_node _ s a p n) by done. unfold perfect_match at 1, open_match at 1.
    destruct (local_match d (pn_pcb n) && remote_match d (pn_pcb n)) eqn:Em.
    + destruct l1 as [|pv l1 _] using rev_ind.
      * cbn [list.last]. wp_step. rewrite E. cbn [app head]. rewrite bool_decide_true by done. split; [done|].
        rewrite (to_front_head p l2) by (done || apply (uo_nodup _ _ Ha)). done.
      * rewrite last_snoc. rewrite bool_decide_false.
        2:{ rewrite E. intros Hh. pose proof (uo_nodup _ _ Ha) as Hd. rewrite E in Hd. apply list.NoDup_app in Hd as (_ & Hx & _).
            apply (Hx p); [|left]. destruct l1; cbn in Hh; injection Hh as ->; left. }
        apply (move_front_ok s a p n l1 pv l2 (Some p, false) Ha); [by rewrite E, <- app_assoc|done].
    + replace (Some p) with (list.last (l1 ++ [p])) by (by rewrite last_snoc).
      eapply wp_mono; [apply (IH (l1 ++ [p])); [by rewrite E, <- app_assoc|done|lia]|]. cbv beta. intros r s' Hr.
      destruct (first_pcb (perfect_match d) (ua_tab a) l2); [exact Hr|]. destruct Hr as [-> ->]. split; [|done]. rewrite last_snoc.
      destruct uncon as [u|]; [by rewrite andb_false_r|]. rewrite bool_decide_true, andb_true_r by done.
      by destruct (local_match d (pn_pcb n) && unconnected (pn_pcb n)).
Qed.

Lemma demux_ok s a d : uabs_of s a -> wp (udp_demux d) s (fun r s' => r = (spec_demux d a).2 /\ uabs_of s' (spec_demux d a).1).
Proof.
  intros Ha. unfold udp_demux, spec_demux. wp_step. wp_step.
  eapply wp_mono; [apply (demux_loop_ok d s a Ha (ua_list a) [] _ _ None eq_refl (uo_list _ _ Ha) (uo_fuel _ _ Ha))|]. cbv beta.
  intros r s' Hr. destruct (first_pcb (perfect_match d) (ua_tab a) (ua_list a)) as [p|]; [exact Hr|]. destruct Hr as [-> ->]. by split.
Qed.

(** ** Every call *)

Lemma run_call_ok s a c : uabs_of s a -> ucall_ok a c ->
  wp (run_call c) s (fun r s' => r = (spec_call c a).2 /\ uabs_of s' (spec_call c a).1).
Proof.
  intros Ha Hc. destruct c as [|p|p ip port|p ip port|p|p f arg|d]; cbn [run_call spec_call ucall_ok] in *.
  - wp_step. eapply wp_mono; [exact (new_ok s a Ha)|]. intros r s' [Hr Hs']. wp_step. by split.
  - destruct Hc as [x Hp]. wp_step. eapply wp_mono; [exact (udp_remove_ok s a p x Ha Hp)|]. intros u s' Hs'. wp_step. by split.
  - destruct Hc as [Hp _]. wp_step. eapply wp_mono; [exact (bind_ok s a p ip port Ha Hp)|]. intros r s' [-> Hs']. wp_step.
    by destruct (spec_bind p (addr_of ip) port a).
  - destruct Hc as [[x Hp] _]. wp_step. eapply wp_mono; [exact (connect_ok s a p ip port x Ha Hp)|]. intros r s' [-> Hs']. wp_step.
    rewrite Hp. by destruct (spec_connect p (addr_of ip) port x a).
  - destruct Hc as [x Hp]. wp_step. unfold udp_disconnect. wp_step. apply (wp_rd_pcb _ a _ x); [done|done|].
    eapply (wp_wr_pcb _ a _ x _ (fun x => set_pcb_flags (Z.land (flags x) (not8 UDP_FLAGS_CONNECTED)) (set_remote IPADDR_ANY 0 x))); [done|done|done|]. intros s' Hs'. by wp_step.
  - destruct Hc as [x Hp]. wp_step. unfold udp_recv. wp_step. apply (wp_rd_pcb _ a _ x); [done|done|].
    eapply (wp_wr_pcb _ a _ x _ (set_recv f arg)); [done|done|done|]. intros s' Hs'. by wp_step.
  - wp_step. eapply wp_mono; [exact (demux_ok s a d Ha)|]. intros r s' [-> Hs']. wp_step. by destruct (spec_demux d a).
Qed.

(** A history of calls and what they return. *)
Fixpoint run_calls (cs : list udp_call) : M udps (list udp_ret) :=
  match cs with
  | [] => mret []
  | c :: cs => r ← run_call c; rs ← run_calls cs; mret (r :: rs)
  end.

Fixpoint spec_calls (cs : list udp_call) (a : uabs) : list udp_ret * uabs :=
  match cs with
  | [] => ([], a)
  | c :: cs => let '(rs, a') := spec_calls cs (spec_call c a).1 in ((spec_call c a).2 :: rs, a')
  end.

(** Every call is one the caller may make when its turn comes. *)
Fixpoint ucalls_ok (a : uabs) (cs : list udp_call) : Prop :=
  match cs with
  | [] => True
  | c :: cs => ucall_ok a c /\ ucalls_ok (spec_call c a).1 cs
  end.

(** C15: the PCBs threaded into the list of core/udp.c refine a list of addresses with a
    table: every call of a history returns, with the results of the specification. *)
Theorem udp_refines s a cs : uabs_of s a -> ucalls_ok a cs ->
  wp (run_calls cs) s (fun rs s' => rs = (spec_calls cs a).1 /\ uabs_of s' (spec_calls cs a).2).
Proof.
  revert s a. induction cs as [|c cs IH]; intros s a Ha Hc; cbn [run_calls spec_calls ucalls_ok] in *; [by wp_step|].
  destruct Hc as [Hc Hcs]. wp_step. eapply wp_mono; [exact (run_call_ok s a c Ha Hc)|]. intros r s1 [-> Hs1]. wp_step.
  eapply wp_mono; [exact (IH s1 _ Hs1 Hcs)|]. intros rs s2 [-> Hs2]. wp_step. by destruct (spec_calls cs (spec_call c a).1).
Qed.

(** ** Free ports *)

Lemma port_after_range n i : 0xc000 <= port_after n i <= 0xffff.
Proof. unfold port_after. pose proof (Z.mod_pos_bound (n - 0xc000 + i) 0x4000). lia. Qed.

(** Every port of the range is reached. *)
Lemma port_after_onto n m : 0xc000 <= n <= 0xffff -> 0xc000 <= m <= 0xffff -> exists j, 1 <= j <= 0x4000 /\ port_after n j = m.
Proof.
  intros Hn Hm. unfold port_after. destruct (decide (m <= n)).
  - exists (m - n + 0x4000). split; [lia|]. replace (n - 0xc000 + (m - n + 0x4000)) with (m - 0xc000 + 1 * 0x4000) by lia.
    rewrite Z.mod_add, Z.mod_small; lia.
  - exists (m - n). split; [lia|]. rewrite Z.mod_small; lia.
Qed.

Lemma port_taken_spec a n : port_taken a n = true <-> exists p x, p ∈ ua_list a /\ ua_tab a !! p = Some x /\ local_port x = n.
Proof.
  unfold port_taken, pcb_is, has_port. rewrite existsb_exists. split.
  - intros (p & Hp%list_elem_of_In & E). destruct (ua_tab a !! p) as [x|] eqn:Ex; [|done]. exists p, x. split; [done|]. split; [done|lia].
  - intros (p & x & Hp & Ex & <-). exists p. split; [by apply list_elem_of_In|]. rewrite Ex. lia.
Qed.

(** As many PCBs as ports. *)
Lemma all_taken a : (forall m, 0xc000 <= m <= 0xffff -> port_taken a m = true) -> 0x4000 <= zlen (ua_list a).
Proof.
  intros Hall. set (port := fun p => match ua_tab a !! p with Some x => local_port x | None => 0 end).
  unfold zlen. rewrite <- (length_fmap port (ua_list a)). enough (length (seqZ 0xc000 0x4000) <= length (port <$> ua_list a))%nat as Hl by (rewrite length_seqZ in Hl; lia).
  apply NoDup_incl_length; [apply NoDup_ListNoDup, NoDup_seqZ|]. intros m Hm%list_elem_of_In%elem_of_seqZ.
  apply list_elem_of_In, list_elem_of_fmap. destruct (proj1 (port_taken_spec a m) (Hall m ltac:(lia))) as (p & x & Hp & Ex & <-).
  exists p. split; [|done]. unfold port. by rewrite Ex.
Qed.

Lemma spec_new_port_ok a : 0xc000 <= ua_port a <= 0xffff ->
  exists r m, spec_new_port a = (r, at_port a m) /\ 0xc000 <= m <= 0xffff /\
    (r = 0 /\ 0x4000 <= zlen (ua_list a) \/
     exists j, 1 <= j <= 0x4000 /\ r = port_after (ua_port a) j /\ m = r /\ port_taken a r = false /\
       forall i, 1 <= i < j -> port_taken a (port_after (ua_port a) i) = true).
Proof.
  intros Hr. unfold spec_new_port. assert (Z.of_nat (Z.to_nat 0x4000) = 0x4000) as Hk by lia.
  revert Hk. generalize (Z.to_nat 0x4000). intros k Hk. destruct (pick_port_ok (port_taken a) k (ua_port a) Hr) as (i & Hi & Hall & Hres).
  destruct Hres as [(Hlt & Hfree & ->)|[-> ->]]; (eexists _, _; split; [done|]; split; [apply port_after_range|]).
  - right. exists (Z.of_nat i + 1). split; [lia|]. split; [done|]. split; [done|]. split; [done|].
    intros j Hj. apply Hall. lia.
  - left. split; [done|]. apply all_taken. intros m Hm. destruct (port_after_onto (ua_port a) m Hr Hm) as (j & Hj & <-). apply Hall. lia.
Qed.

(** Udp_new_port returns after at most 16384 rounds: with the first port after the
    last one given, around the range, that no PCB of the list has, and which the next
    search starts from; with 0 when every port of the range is taken, and then there are as many PCBs. *)
Theorem udp_new_port_free s a : uabs_of s a -> 0xc000 <= udp_port s <= 0xffff ->
  exists r s', udp_new_port s = Done (r, s') /\ pcbs s' = pcbs s /\ udp_pcbs s' = udp_pcbs s /\ 0xc000 <= udp_port s' <= 0xffff /\
    (r = 0 /\ 0x4000 <= zlen (ua_list a) \/
     exists j, 1 <= j <= 0x4000 /\ r = port_after (udp_port s) j /\ udp_port s' = r /\ port_taken a r = false /\
       forall i, 1 <= i < j -> port_taken a (port_after (udp_port s) i) = true).
Proof.
  intros Ha. rewrite (uo_port _ _ Ha). intros Hr. destruct (new_port_eq s a Ha) as (r & m & E1 & E2).
  destruct (spec_new_port_ok a Hr) as (r' & m' & E3 & Hm & Hex). rewrite E2 in E3. injection E3 as <- <-.
  by exists r, (set_udp_port m s).
Qed.

(** ** Histories *)

Definition MEMP_NUM_UDP_PCB : nat := 4.

(** After memp_init, before the first call. *)
Definition udp_boot (l : list Z) : udps := Udps ∅ l None UDP_LOCAL_PORT_RANGE_START.

Definition ucall_live (s : udps) (c : udp_call) : Prop :=
  match c with
  | UNew | UDemux _ => True
  | UBind p _ port | UConnect p _ port => is_Some (pcbs s !! p) /\ is_u16 port
  | URemove p | UDisconnect p | URecv p _ _ => is_Some (pcbs s !! p)
  end.

Inductive ureach : udps -> Prop :=
| ureach_boot l : NoDup l -> length l = MEMP_NUM_UDP_PCB -> ureach (udp_boot l)
| ureach_call s c r s' : ureach s -> ucall_live s c -> run_call c s = Done (r, s') -> ureach s'.

(** A bound PCB is on the list, and no two clash. *)
Record uinv (a : uabs) : Prop := Uinv {
  ui_count : (size (ua_tab a) + length (ua_pool a) <= MEMP_NUM_UDP_PCB)%nat;
  ui_nodup : NoDup (ua_list a);
  ui_in p : p ∈ ua_list a -> is_Some (ua_tab a !! p);
  ui_pool : NoDup (ua_pool a);
  ui_fresh p : p ∈ ua_pool a -> ua_tab a !! p = None;
  ui_bound p x : ua_tab a !! p = Some x -> p ∈ ua_list a <-> local_port x <> 0;
  ui_u16 p x : ua_tab a !! p = Some x -> is_u16 (local_port x);
  ui_excl p q x y : p <> q -> ua_tab a !! p = Some x -> ua_tab a !! q = Some y -> local_port x <> 0 -> clashes (local_ip x) (local_port x) y = false;
  ui_port : 0xc000 <= ua_port a <= 0xffff
}.

Lemma size_alter_at {V} (f : V -> V) p (m : gmap Z V) : size (alter f p m) = size m.
Proof. by rewrite <- !size_dom, dom_alter_L. Qed.

Lemma alter_inv {V} (f : V -> V) p q (m : gmap Z V) y : alter f p m !! q = Some y ->
  exists x, m !! q = Some x /\ y = (if bool_decide (q = p) then f x else x).
Proof.
  destruct (bool_decide_reflect (q = p)) as [->|Hne]; [rewrite lookup_alter_eq|rewrite lookup_alter_ne by done; by exists y].
  destruct (m !! p) as [x|]; [|done]. intros [= <-]. by exists x.
Qed.

Lemma clashes_sym x y : clashes (local_ip x) (local_port x) y = clashes (local_ip y) (local_port y) x.
Proof. unfold clashes. rewrite (Z.eqb_sym (local_port y)), (Z.eqb_sym (local_ip y) (local_ip x)). f_equal. by rewrite (orb_comm (local_ip y =? IPADDR_ANY)). Qed.

(** A change that keeps the local address and port. *)
Lemma uinv_edit a p f : uinv a -> (forall x, local_ip (f x) = local_ip x /\ local_port (f x) = local_port x) -> uinv (ua_set (alter f p) a).
Proof.
  intros [Hc Hnd Hin Hpo Hfr Hb H16 Hex Hp] Hf. assert (forall q y, alter f p (ua_tab a) !! q = Some y -> exists x, ua_tab a !! q = Some x /\
    local_ip y = local_ip x /\ local_port y = local_port x) as Hal.
  { intros q y (x & Hx & ->)%alter_inv. exists x. split; [done|]. destruct (bool_decide (q = p)); [apply Hf|done]. }
  split; cbn; try done.
  - by rewrite size_alter_at.
  - intros q Hq. by apply (ua_set_some f p q a), Hin.
  - intros q Hq. destruct (decide (q = p)) as [->|]; [rewrite lookup_alter_eq, (Hfr p Hq)|rewrite lookup_alter_ne, Hfr]; done.
  - intros q y (x & Hx & _ & ->)%Hal. by apply Hb.
  - intros q y (x & Hx & _ & ->)%Hal. by apply (H16 q).
  - intros q1 q2 y1 y2 Hne (x1 & Hx1 & Hi1 & Hp1)%Hal (x2 & Hx2 & Hi2 & Hp2)%Hal Hy. pose proof (Hex q1 q2 x1 x2 Hne Hx1 Hx2) as He.
    unfold clashes in *. rewrite Hi1, Hi2, Hp1, Hp2. apply He. congruence.
Qed.

Lemma uinv_at_port a m : uinv a -> 0xc000 <= m <= 0xffff -> uinv (at_port a m).
Proof. intros [] Hm. by split. Qed.

(** A PCB bound to an address and port that do not clash. *)
Lemma uinv_bound a p x ip port f : uinv a -> ua_tab a !! p = Some x -> port <> 0 -> is_u16 port -> local_ip (f x) = ip -> local_port (f x) = port ->
  (forall q y, q <> p -> ua_tab a !! q = Some y -> clashes ip port y = false) -> uinv (ua_link p (ua_set (alter f p) a)).
Proof.
  intros [Hc Hnd Hin Hpo Hfr Hb H16 Hex Hp] Hx H0 Hpu Hip Hport Hcl.
  assert (forall q y, alter f p (ua_tab a) !! q = Some y -> q <> p /\ ua_tab a !! q = Some y \/ q = p /\ y = f x) as Hal.
  { intros q y (z & Hz & ->)%alter_inv. destruct (bool_decide_reflect (q = p)) as [->|Hne]; [right|by left]. split; [done|]. congruence. }
  assert (forall q, q ∈ ua_list (ua_link p (ua_set (alter f p) a)) <-> q = p \/ q ∈ ua_list a) as Hlist.
  { intros q. unfold ua_link. destruct (bool_decide_reflect (p ∈ ua_list (ua_set (alter f p) a))) as [Hi|Hi]; cbn in *.
    - split; [by right|]. by intros [->|].
    - by rewrite elem_of_cons. }
  assert (ua_tab (ua_link p (ua_set (alter f p) a)) = alter f p (ua_tab a)) as Ht by (unfold ua_link; by destruct (bool_decide _)).
  assert (ua_pool (ua_link p (ua_set (alter f p) a)) = ua_pool a) as Hpl by (unfold ua_link; by destruct (bool_decide _)).
  split; rewrite ?Ht, ?Hpl; try done.
  - by rewrite size_alter_at.
  - unfold ua_link. destruct (bool_decide_reflect (p ∈ ua_list (ua_set (alter f p) a))); [done|]. by apply list.NoDup_cons.
  - intros q [->|Hq]%Hlist; apply (ua_set_some f p _ a); [by rewrite Hx|by apply Hin].
  - intros q Hq. destruct (decide (q = p)) as [->|]; [rewrite (Hfr p Hq) in Hx; done|rewrite lookup_alter_ne by done; by apply Hfr].
  - intros q y [[Hne Hy]|[-> ->]]%Hal; rewrite Hlist; [|rewrite Hport; split; [done|by left]].
    rewrite <- (Hb q y Hy). split; [by intros [?|?]|by right].
  - intros q y [[Hne Hy]|[-> ->]]%Hal; [by apply (H16 q)|by rewrite Hport].
  - intros q1 q2 y1 y2 Hne Hy1 Hy2 Hy0. destruct (Hal _ _ Hy1) as [[Hn1 Hz1]|[-> ->]], (Hal _ _ Hy2) as [[Hn2 Hz2]|[-> ->]].
    + by apply (Hex q1 q2).
    + rewrite clashes_sym, Hip, Hport. by apply (Hcl q1).
    + rewrite Hip, Hport. by apply (Hcl q2).
    + done.
  - unfold ua_link. by destruct (bool_decide _).
Qed.

Lemma clash_false a p ip port : uinv a -> port <> 0 -> clash a p ip port = false ->
  forall q y, q <> p -> ua_tab a !! q = Some y -> clashes ip port y = false.
Proof.
  intros Hi H0 Hc q y Hne Hy. destruct (decide (q ∈ ua_list a)) as [Hq|Hq].
  - unfold clash in Hc. destruct (clashes ip port y) eqn:Ec; [|done]. exfalso. rewrite <- not_true_iff_false in Hc. apply Hc, existsb_exists.
    exists q. split; [by apply list_elem_of_In|]. unfold pcb_is. rewrite Hy, Ec. rewrite (proj2 (Z.eqb_neq p q)); [done|congruence].
  - rewrite (ui_bound _ Hi q y Hy) in Hq. unfold clashes. destruct (Z.eqb_spec (local_port y) port); [|done]. exfalso. apply Hq. congruence.
Qed.

Lemma list_few a : uinv a -> zlen (ua_list a) <= 4.
Proof.
  intros Hi. pose proof (ui_count _ Hi) as Hc. unfold MEMP_NUM_UDP_PCB in Hc. unfold zlen.
  enough (length (ua_list a) <= size (ua_tab a))%nat by lia. rewrite <- size_dom, <- (size_list_to_set (C := gset Z)) by apply Hi.
  apply subseteq_size. intros p Hp%elem_of_list_to_set. by apply elem_of_dom, (ui_in _ Hi).
Qed.

(** Binding keeps the invariant, and always finds a port. *)
Lemma bind_inv_ok a p ip port x : uinv a -> ua_tab a !! p = Some x -> is_u16 port -> uinv (spec_bind p ip port a).1 /\
  (port = 0 -> clash a p ip 0 = false /\ (spec_bind p ip port a).2 = ERR_OK) /\
  ((spec_bind p ip port a).2 = ERR_OK -> p ∈ ua_list (spec_bind p ip port a).1).
Proof.
  intros Hi Hp Hpu. unfold spec_bind. assert (port = 0 -> clash a p ip port = false) as Hc0.
  { intros ->. apply not_true_iff_false. intros (q & Hq%list_elem_of_In & Hc)%existsb_exists. unfold pcb_is in Hc.
    destruct (ua_tab a !! q) as [y|] eqn:Ey; [|lia]. rewrite (ui_bound _ Hi q y Ey) in Hq. unfold clashes in Hc. lia. }
  assert (forall q b, q ∈ ua_list (ua_link q b)) as Hlk.
  { intros q b. unfold ua_link. destruct (bool_decide_reflect (q ∈ ua_list b)); [done|left]. }
  destruct (clash a p ip port) eqn:Ec.
  { split; [done|]. split; [by intros ?%Hc0|done]. }
  assert (forall n m, 0xc000 <= m <= 0xffff -> n <> 0 -> is_u16 n -> (forall q y, q <> p -> ua_tab a !! q = Some y -> clashes ip n y = false) ->
    uinv (ua_link p (ua_set (alter (set_local_port n) p) (at_port (ua_set (alter (set_local_ip ip) p) a) m)))) as Hbound.
  { intros n m Hm Hn Hnu Hcl. pose proof (uinv_bound (at_port a m) p x ip n (fun x => set_local_port n (set_local_ip ip x)) (uinv_at_port _ _ Hi Hm) Hp Hn Hnu eq_refl eq_refl Hcl) as Hu.
    assert (ua_set (alter (fun x => set_local_port n (set_local_ip ip x)) p) (at_port a m) =
      ua_set (alter (set_local_port n) p) (at_port (ua_set (alter (set_local_ip ip) p) a) m)) as Eq; [|by rewrite Eq in Hu].
    unfold ua_set, at_port. cbn. f_equal. rewrite (alter_at (fun x => _) p x) by done.
    rewrite (alter_at (set_local_ip ip) p x), (alter_at _ p (set_local_ip ip x)) by (done || apply lookup_insert_eq). by rewrite insert_insert_eq. }
  destruct (Z.eqb_spec port 0) as [->|Hn0].
  - set (a1 := ua_set _ a) in *. destruct (spec_new_port_ok a1 (ui_port _ Hi)) as (r & m & -> & Hm & [[-> Hfull]|(j & Hj & -> & -> & Hfree & _)]).
    { pose proof (list_few a Hi). change (ua_list a1) with (ua_list a) in Hfull. lia. }
    set (r := port_after _ j) in *. destruct (Z.eqb_spec r 0) as [E0|E0]; [pose proof (port_after_range (ua_port a1) j); lia|].
    cbn [fst snd]. split; [|split; [intros _; by split|by intros _]]. apply (Hbound r r Hm E0); [unfold is_u16; lia|]. intros q y Hne Hy. unfold clashes.
    destruct (Z.eqb_spec (local_port y) r) as [Er|]; [|done]. exfalso. rewrite <- not_true_iff_false in Hfree. apply Hfree, port_taken_spec.
    exists q, y. split; [apply (ui_bound _ Hi q y Hy); congruence|]. split; [|done]. cbn. by rewrite lookup_alter_ne.
  - cbn [fst snd]. rewrite (proj2 (Z.eqb_neq _ _) Hn0). cbn [fst snd]. split; [|split; [done|by intros _]].
    apply (Hbound port (ua_port a) (ui_port _ Hi) Hn0 Hpu). by apply (clash_false _ _ _ _ Hi Hn0).
Qed.

Lemma first_pcb_in f tab l p : first_pcb f tab l = Some p -> p ∈ l /\ pcb_is f tab p = true.
Proof.
  induction l as [|q l IH]; [done|]. cbn [first_pcb]. destruct (pcb_is f tab q) eqn:E.
  - intros [= ->]. split; [left|done].
  - intros [? ?]%IH. split; [by right|done].
Qed.

Lemma link_in_inv p a : uinv a -> p ∈ ua_list a -> uinv (ua_link p a).
Proof. intros Hi Hp. by rewrite ua_link_in. Qed.

Lemma connect_inv_ok a p ip port x : uinv a -> ua_tab a !! p = Some x ->
  uinv (spec_connect p ip port x a).1 /\ (spec_connect p ip port x a).2 = ERR_OK.
Proof.
  intros Hi Hp. unfold spec_connect. destruct (bind_inv_ok a p (local_ip x) 0 x Hi Hp ltac:(done)) as (Hb & Hok & Hin). specialize (Hok eq_refl).
  assert (exists b, (if local_port x =? 0 then spec_bind p (local_ip x) 0 a else (a, ERR_OK)) = (b, ERR_OK) /\ uinv b /\ p ∈ ua_list b) as (b & -> & Hub & Hpb).
  { destruct (Z.eqb_spec (local_port x) 0) as [E0|E0].
    - destruct Hok as [_ Hok]. exists (spec_bind p (local_ip x) 0 a).1. rewrite <- Hok. split; [apply surjective_pairing|]. split; [done|by apply Hin].
    - exists a. split; [done|]. split; [done|]. by apply (ui_bound _ Hi p x Hp). }
  change (ERR_OK =? ERR_OK) with true. cbn [fst snd]. split; [|done]. apply link_in_inv; [|done]. by apply uinv_edit.
Qed.

Lemma uinv_call a c : uinv a -> ucall_ok a c -> uinv (spec_call c a).1.
Proof.
  intros Hi Hc. destruct c as [|p|p ip port|p ip port|p|p f arg|d]; cbn [spec_call ucall_ok] in *.
  - destruct (ua_pool a) as [|p l] eqn:Ep; [done|]. cbn [fst]. destruct Hi as [Hn Hnd Hin Hpo Hfr Hb H16 Hex Hpt]. rewrite Ep in *.
    pose proof (Hfr p ltac:(left)) as Hp. assert (p ∉ ua_list a) as Hpl by (intros [y Hy]%Hin; congruence).
    assert (forall q y, <[p := new_pcb]> (ua_tab a) !! q = Some y -> q = p /\ y = new_pcb \/ q <> p /\ ua_tab a !! q = Some y) as Hl.
    { intros q y [[<- <-]|[? ?]]%lookup_insert_Some; [by left|right]. by split. }
    split; cbn [ua_tab ua_pool ua_list ua_port]; try done.
    + rewrite map_size_insert_None by done. simpl in Hn. lia.
    + intros q Hq. destruct (decide (q = p)) as [->|]; [done|]. rewrite lookup_insert_ne by done. by apply Hin.
    + by apply list.NoDup_cons in Hpo as [_ Hpo].
    + intros q Hq. apply list.NoDup_cons in Hpo as [Hpo _]. rewrite lookup_insert_ne by (by intros ->). apply Hfr. by right.
    + intros q y [[-> ->]|[Hne Hy]]%Hl; [by split|by apply Hb].
    + intros q y [[-> ->]|[Hne Hy]]%Hl; [by split|by apply (H16 q)].
    + intros q1 q2 y1 y2 Hne [[-> ->]|[? Hy1]]%Hl [[-> ->]|[? Hy2]]%Hl Hy0; [done|done| |by apply (Hex q1 q2)].
      unfold clashes. destruct (Z.eqb_spec (local_port new_pcb) (local_port y1)) as [E0|]; [|done]. cbn in E0. congruence.
  - destruct Hc as [x Hp]. cbn [fst]. destruct Hi as [Hn Hnd Hin Hpo Hfr Hb H16 Hex Hpt].
    assert (forall q y, delete p (ua_tab a) !! q = Some y -> q <> p /\ ua_tab a !! q = Some y) as Hl.
    { intros q y [? ?]%lookup_delete_Some. by split. }
    split; cbn [ua_tab ua_pool ua_list ua_port]; try done.
    + rewrite map_size_delete_Some by (by exists x). assert (size (ua_tab a) <> 0%nat) by (intros E0%map_size_empty_iff; rewrite E0 in Hp; done). simpl. lia.
    + by apply list.NoDup_filter.
    + intros q [Hne Hq]%list_elem_of_filter. rewrite lookup_delete_ne by done. by apply Hin.
    + apply list.NoDup_cons. split; [|done]. intros Hq%Hfr. congruence.
    + intros q [->|Hq]%elem_of_cons; [apply lookup_delete_eq|]. rewrite lookup_delete_None. right. by apply Hfr.
    + intros q y [Hne Hy]%Hl. rewrite list_elem_of_filter, <- (Hb q y Hy). by split; [intros []|].
    + intros q y [_ Hy]%Hl. by apply (H16 q).
    + intros q1 q2 y1 y2 Hne [_ Hy1]%Hl [_ Hy2]%Hl. by apply (Hex q1 q2).
  - destruct Hc as [[x Hp] Hpu]. pose proof (proj1 (bind_inv_ok a p (addr_of ip) port x Hi Hp Hpu)). by destruct (spec_bind p (addr_of ip) port a).
  - destruct Hc as [[x Hp] _]. rewrite Hp. pose proof (proj1 (connect_inv_ok a p (addr_of ip) port x Hi Hp)). by destruct (spec_connect p (addr_of ip) port x a).
  - by apply uinv_edit.
  - by apply uinv_edit.
  - unfold spec_demux. destruct (first_pcb (perfect_match d) (ua_tab a) (ua_list a)) as [p|] eqn:Ef; [|done]. cbn [fst].
    destruct (first_pcb_in _ _ _ _ Ef) as [Hp _].
    assert (forall q, q ∈ p :: filter (fun x => x <> p) (ua_list a) <-> q ∈ ua_list a) as Hl.
    { intros q. rewrite elem_of_cons, list_elem_of_filter. split; [by intros [->|[_ ?]]|]. intros Hq. destruct (decide (q = p)); [by left|by right]. }
    destruct Hi as [Hn Hnd Hin Hpo Hfr Hb H16 Hex Hpt]. split; cbn; try done.
    + apply list.NoDup_cons. split; [by intros [? _]%list_elem_of_filter|by apply list.NoDup_filter].
    + intros q Hq%Hl. by apply Hin.
    + intros q y Hy. rewrite Hl. by apply Hb.
Qed.

(** ** One receiver *)

Lemma ureach_inv s : ureach s -> exists a, uabs_of s a /\ uinv a.
Proof.
  induction 1 as [l Hl Hn|s c r s' _ (a & Ha & Hi) Hc E].
  - exists (UAbs [] ∅ UDP_LOCAL_PORT_RANGE_START l). split; split; cbn; try done; try (by constructor); try (intros p Hp; by apply elem_of_nil in Hp).
    + by rewrite map_size_empty, Hn.
  - assert (ucall_ok a c) as Hca.
    { destruct c; cbn in *; rewrite <- ?(uo_tab _ _ Ha), ?lookup_fmap, ?fmap_is_Some; done. }
    destruct (run_call_ok s a c Ha Hca) as (r' & s'' & E' & _ & Hs''). rewrite E in E'. injection E' as -> ->.
    eexists. split; [exact Hs''|]. by apply uinv_call.
Qed.

Lemma local_match_clash d x y : dg_broadcast d = false -> local_match d x = true -> local_match d y = true ->
  clashes (local_ip x) (local_port x) y = true.
Proof.
  unfold local_match, clashes. cbn [ip_addr_isany]. intros -> Hx Hy. cbn [negb andb] in *. rewrite !orb_false_r in *. lia.
Qed.

(** The only PCB that matches is the one found. *)
Lemma first_pcb_only f tab l p : p ∈ l -> (forall q, pcb_is f tab q = true -> q = p) -> first_pcb f tab l = if pcb_is f tab p then Some p else None.
Proof.
  intros Hp Honly. induction l as [|q l IH]; [by apply elem_of_nil in Hp|]. cbn [first_pcb]. destruct (pcb_is f tab q) eqn:E.
  - rewrite <- (Honly q E). by rewrite E.
  - apply elem_of_cons in Hp as [->|Hp]; [|by apply IH]. rewrite E. clear IH. induction l as [|r l IH]; [done|]. cbn [first_pcb].
    destruct (pcb_is f tab r) eqn:Er; [|done]. rewrite (Honly r Er) in Er. congruence.
Qed.

(** A PCB that matches a unicast datagram is the only one, and the search finds it. *)
Lemma demux_only s d p n : ureach s -> dg_broadcast d = false -> dg_dport d <> 0 -> pcbs s !! p = Some n -> local_match d (pn_pcb n) = true ->
  (forall q m, pcbs s !! q = Some m -> local_match d (pn_pcb m) = true -> q = p) /\
  exists hit s', udp_demux d s = Done ((if unconnected (pn_pcb n) || remote_match d (pn_pcb n) then Some p else None, hit), s').
Proof.
  intros Hr Hd H0 Hn Hm. destruct (ureach_inv s Hr) as (a & Ha & Hi).
  assert (ua_tab a !! p = Some (pn_pcb n)) as Hp by (by rewrite <- (uo_tab _ _ Ha), lookup_fmap, Hn).
  assert (forall q x, ua_tab a !! q = Some x -> local_match d x = true -> q = p) as Honly.
  { intros q x Hq Hmx. destruct (decide (q = p)) as [|Hne]; [done|]. exfalso.
    pose proof (ui_excl _ Hi q p x (pn_pcb n) Hne Hq Hp) as He. rewrite (local_match_clash d x (pn_pcb n) Hd Hmx Hm) in He.
    assert (local_port x = dg_dport d) as Hx by (unfold local_match in Hmx; lia). specialize (He ltac:(congruence)). done. }
  split; [intros q m Hq Hmm; apply (Honly q (pn_pcb m)); [by rewrite <- (uo_tab _ _ Ha), lookup_fmap, Hq|done]|].
  assert (p ∈ ua_list a) as Hpl by (apply (ui_bound _ Hi p _ Hp); assert (local_port (pn_pcb n) = dg_dport d) by (unfold local_match in Hm; lia); congruence).
  destruct (demux_ok s a d Ha) as (r & s' & E & -> & _). rewrite E. unfold spec_demux.
  assert (forall f, (forall x, f x = true -> local_match d x = true) -> first_pcb f (ua_tab a) (ua_list a) = if f (pn_pcb n) then Some p else None) as Hf.
  { intros f Hf. rewrite (first_pcb_only f _ _ p Hpl); [unfold pcb_is; by rewrite Hp|]. intros q Hq. unfold pcb_is in Hq.
    destruct (ua_tab a !! q) as [x|] eqn:Ex; [|done]. by apply (Honly q x Ex), Hf. }
  rewrite !Hf by (intros x; unfold perfect_match, open_match; by intros [? ?]%andb_true_iff). unfold perfect_match, open_match. rewrite Hm. cbn [andb].
  destruct (remote_match d (pn_pcb n)), (unconnected (pn_pcb n)); cbn; by eexists _, _.
Qed.

(** C14: after any history of calls on core/udp.c, every call that may be made returns;
    udp_bind without a port, and udp_connect, succeed; at most one PCB accepts a unicast datagram, and the search finds that PCB
    unless it is connected to another peer, whatever the order of the list. *)
Theorem udp_one_receiver s : ureach s ->
  (forall c, ucall_live s c -> exists r s', run_call c s = Done (r, s')) /\
  (forall p ip, is_Some (pcbs s !! p) -> exists s', udp_bind p ip 0 s = Done (ERR_OK, s')) /\
  (forall p ip port, is_Some (pcbs s !! p) -> exists s', udp_connect p ip port s = Done (ERR_OK, s')) /\
  forall d p n, dg_broadcast d = false -> dg_dport d <> 0 -> pcbs s !! p = Some n -> local_match d (pn_pcb n) = true ->
    (forall q m, pcbs s !! q = Some m -> local_match d (pn_pcb m) = true -> q = p) /\
    exists hit s', udp_demux d s = Done ((if unconnected (pn_pcb n) || remote_match d (pn_pcb n) then Some p else None, hit), s').
Proof.
  intros Hr. destruct (ureach_inv s Hr) as (a & Ha & Hi).
  assert (forall p, is_Some (pcbs s !! p) -> is_Some (ua_tab a !! p)) as Hlive by (intros p; by rewrite <- (uo_tab _ _ Ha), lookup_fmap, fmap_is_Some).
  split; [|split; [|split]].
  - intros c Hc. assert (ucall_ok a c) as Hca by (destruct c; cbn in *; try done; try (by apply Hlive); destruct Hc; split; try done; by apply Hlive).
    destruct (run_call_ok s a c Ha Hca) as (r & s' & E & _). by exists r, s'.
  - intros p ip [x Hp]%Hlive. destruct (bind_ok s a p ip 0 Ha ltac:(by exists x)) as (r & s' & E & -> & _). exists s'. rewrite E.
    by rewrite (proj2 (proj1 (proj2 (bind_inv_ok a p (addr_of ip) 0 x Hi Hp ltac:(done))) eq_refl)).
  - intros p ip port [x Hp]%Hlive. destruct (connect_ok s a p ip port x Ha Hp) as (r & s' & E & -> & _). exists s'. rewrite E.
    by rewrite (proj2 (connect_inv_ok a p (addr_of ip) port x Hi Hp)).
  - intros d p n. by apply demux_only.
Qed.

(** ** A port for a PCB that has none *)

Lemma ua_link_tab p a : ua_tab (ua_link p a) = ua_tab a.
Proof. unfold ua_link. by destruct (bool_decide _). Qed.

(** What udp_bind leaves in the table. *)
Lemma spec_bind_tab p ip port a x : ua_tab a !! p = Some x -> (spec_bind p ip port a).2 = ERR_OK ->
  exists n, n <> 0 /\ (port <> 0 -> n = port) /\ ua_tab (spec_bind p ip port a).1 = <[p := set_local_port n (set_local_ip ip x)]> (ua_tab a).
Proof.
  intros Hp. unfold spec_bind. destruct (clash a p ip port); [done|].
  assert (forall n b, ua_tab b = ua_tab (ua_set (alter (set_local_ip ip) p) a) ->
    ua_tab (ua_link p (ua_set (alter (set_local_port n) p) b)) = <[p := set_local_port n (set_local_ip ip x)]> (ua_tab a)) as Hk.
  { intros n b Hb. rewrite ua_link_tab. cbn in *. rewrite Hb, (alter_at (set_local_ip ip) p x), (alter_at _ p (set_local_ip ip x)) by (done || apply lookup_insert_eq).
    by rewrite insert_insert_eq. }
  destruct (Z.eqb_spec port 0) as [->|Hn0].
  - destruct (spec_new_port_same (ua_set (alter (set_local_ip ip) p) a)) as (_ & Et & _). destruct (spec_new_port _) as [r b]. cbn [snd] in Et.
    destruct (Z.eqb_spec r 0) as [|Hr]; [done|]. intros _. exists r. split; [done|]. split; [done|]. by apply Hk.
  - rewrite (proj2 (Z.eqb_neq _ _) Hn0). intros _. exists port. split; [done|]. split; [done|]. by apply Hk.
Qed.

Lemma ureach_u16 l p n : ureach l -> pcbs l !! p = Some n -> is_u16 (local_port (pn_pcb n)).
Proof. intros Hr Hn. destruct (ureach_inv l Hr) as (a & Ha & Hi). apply (ui_u16 _ Hi p). by rewrite <- (uo_tab _ _ Ha), lookup_fmap, Hn. Qed.

(** Before it is used, a PCB gets a port when it has none. *)
Lemma autobind_ok l p n : ureach l -> pcbs l !! p = Some n ->
  let x := pn_pcb n in
  wp (if local_port x =? 0 then udp_bind p (Some (local_ip x)) (local_port x) else mret ERR_OK) l (fun r l' =>
    r = ERR_OK /\ ureach l' /\ (local_port x <> 0 -> l' = l) /\
    exists n', pcbs l' !! p = Some n' /\ local_port (pn_pcb n') <> 0 /\ is_u16 (local_port (pn_pcb n')) /\ pn_pcb n' = set_local_port (local_port (pn_pcb n')) x).
Proof.
  intros Hr Hn x. destruct (Z.eqb_spec (local_port x) 0) as [E0|E0].
  - rewrite E0. destruct (ureach_inv l Hr) as (a & Ha & Hi). assert (ua_tab a !! p = Some x) as Hp by (by rewrite <- (uo_tab _ _ Ha), lookup_fmap, Hn).
    destruct (bind_ok l a p (Some (local_ip x)) 0 Ha ltac:(by exists x)) as (r & l' & E & Er & Hl'). change (addr_of (Some (local_ip x))) with (local_ip x) in Er, Hl'.
    pose proof (proj2 (proj1 (proj2 (bind_inv_ok a p (local_ip x) 0 x Hi Hp ltac:(done))) eq_refl)) as Hok. rewrite Hok in Er. subst r.
    assert (ureach l') as Hr'.
    { apply (ureach_call l (UBind p (Some (local_ip x)) 0) (RErr ERR_OK)); [done|split; [by exists n|by split]|]. cbn [run_call]. by rewrite (bind_done _ _ _ _ _ E). }
    exists ERR_OK, l'. split; [exact E|]. split; [done|]. split; [exact Hr'|]. split; [done|].
    destruct (spec_bind_tab p (local_ip x) 0 a x Hp Hok) as (m & Hm & _ & Ht).
    assert (ua_tab (spec_bind p (local_ip x) 0 a).1 !! p = Some (set_local_port m x)) as Hq.
    { rewrite Ht. assert (set_local_ip (local_ip x) x = x) as -> by (by destruct x). apply lookup_insert_eq. }
    destruct (uo_node _ _ _ _ Hl' Hq) as (n' & Hn' & En'). exists n'. split; [done|]. pose proof (ureach_u16 _ _ _ Hr' Hn') as Hu. by rewrite En' in *.
  - wp_step. split; [done|]. split; [done|]. split; [done|]. exists n. split; [done|]. split; [done|]. split; [by eapply ureach_u16|]. by destruct (pn_pcb n).
Qed.

(** What the search returns. *)
Lemma first_pcb_none f tab l p : first_pcb f tab l = None -> p ∈ l -> pcb_is f tab p = false.
Proof.
  induction l as [|q l IH]; intros E Hp; [by apply elem_of_nil in Hp|]. cbn [first_pcb] in E. destruct (pcb_is f tab q) eqn:Eq; [done|].
  apply elem_of_cons in Hp as [->|Hp]; [done|by apply IH].
Qed.

Definition accepts (d : dgram) (x : udp_pcb) : bool := local_match d x && (unconnected x || remote_match d x).

Lemma demux_live l d : ureach l -> exists o hit l', udp_demux d l = Done ((o, hit), l') /\ ureach l' /\ pn_pcb <$> pcbs l' = pn_pcb <$> pcbs l /\
  match o with
  | Some p => exists nd, pcbs l' !! p = Some nd /\ accepts d (pn_pcb nd) = true
  | None => forall p nd, pcbs l !! p = Some nd -> dg_dport d <> 0 -> accepts d (pn_pcb nd) = false
  end.
Proof.
  intros Hr. destruct (ureach_inv l Hr) as (a & Ha & Hi). destruct (demux_ok l a d Ha) as ([o hit] & l' & E & Eo & Hl').
  exists o, hit, l'. split; [exact E|]. split; [|split].
  - apply (ureach_call l (UDemux d) (RFound (o, hit))); [done|done|]. cbn [run_call]. by rewrite (bind_done _ _ _ _ _ E).
  - rewrite (uo_tab _ _ Ha), (uo_tab _ _ Hl'). unfold spec_demux. by destruct (first_pcb _ _ _).
  - unfold spec_demux in Eo, Hl'. assert (forall p f, first_pcb f (ua_tab a) (ua_list a) = Some p -> (forall x, f x = true -> accepts d x = true) ->
      forall b, uabs_of l' b -> ua_tab b = ua_tab a -> exists nd, pcbs l' !! p = Some nd /\ accepts d (pn_pcb nd) = true) as Hsome.
    { intros p f Hp Hf b Hb Et. destruct (first_pcb_in _ _ _ _ Hp) as [_ Hx]. unfold pcb_is in Hx. destruct (ua_tab a !! p) as [x|] eqn:Ex; [|done].
      rewrite <- Et in Ex. destruct (uo_node _ _ _ _ Hb Ex) as (nd & Hnd & <-). exists nd. split; [done|by apply Hf]. }
    destruct (first_pcb (perfect_match d) (ua_tab a) (ua_list a)) as [p|] eqn:E1; cbn [fst snd] in *.
    + injection Eo as -> _. refine (Hsome p _ E1 _ _ Hl' eq_refl). intros x. unfold perfect_match, accepts. by destruct (local_match d x), (remote_match d x), (unconnected x).
    + destruct (first_pcb (open_match d) (ua_tab a) (ua_list a)) as [p|] eqn:E2; injection Eo as -> _.
      * refine (Hsome p _ E2 _ _ Hl' eq_refl). intros x. unfold open_match, accepts. by destruct (local_match d x), (remote_match d x), (unconnected x).
      * intros p nd Hnd H0. assert (ua_tab a !! p = Some (pn_pcb nd)) as Hp by (by rewrite <- (uo_tab _ _ Ha), lookup_fmap, Hnd).
        unfold accepts. destruct (local_match d (pn_pcb nd)) eqn:El; [|done]. assert (p ∈ ua_list a) as Hin.
        { apply (ui_bound _ Hi p _ Hp). assert (local_port (pn_pcb nd) = dg_dport d) by (unfold local_match in El; lia). congruence. }
        pose proof (first_pcb_none _ _ _ p E1 Hin) as K1. pose proof (first_pcb_none _ _ _ p E2 Hin) as K2. unfold pcb_is, perfect_match, open_match in K1, K2.
        rewrite Hp, El in K1, K2. cbn [andb] in *. by rewrite K1, K2.
Qed.

(** ** Witnesses *)

(** A PCB bound to port 53. *)
Definition demo_pcb : udp_pcb := UdpPcb 0 0 0 0 UDP_TTL 0 53 0 None 0.

Definition demo_udps : udps := Udps {[ 1 := PcbNode demo_pcb None ]} [2; 3; 4] (Some 1) UDP_LOCAL_PORT_RANGE_START.

Definition demo_uabs : uabs := UAbs [1] {[ 1 := demo_pcb ]} UDP_LOCAL_PORT_RANGE_START [2; 3; 4].

(** From 10.0.0.2, port 5000, to 10.0.0.1, port 53. *)
Definition demo_dgram : dgram := Dgram 0x0200000a 5000 0x0100000a 53 false 0x00ffffff.

Lemma demo_reach : ureach demo_udps.
Proof.
  apply (ureach_call (Udps {[ 1 := PcbNode new_pcb None ]} [2; 3; 4] None UDP_LOCAL_PORT_RANGE_START) (UBind 1 None 53) (RErr ERR_OK));
    [|split; [by eexists|by split]|vm_compute; reflexivity].
  apply (ureach_call (udp_boot [1; 2; 3; 4]) UNew (RPcb (Some 1))); [|done|vm_compute; reflexivity].
  apply ureach_boot; [apply (bool_decide_eq_true_1 (NoDup _)); vm_compute; reflexivity|done].
Defined.

Lemma demo_uabs_of : uabs_of demo_udps demo_uabs.
Proof.
  split; try done.
  - split; [done|]. by eexists.
  - apply NoDup_singleton.
  - split; [apply (bool_decide_eq_true_1 (NoDup _)); vm_compute; reflexivity|].
    intros p Hp. apply lookup_singleton_ne. intros <-. by apply (bool_decide_eq_true_2 _) in Hp.
Defined.

(** A second PCB that asks for a port, and for the one that is taken. *)
Lemma udp_refines_witness : let cs := [UNew; UBind 2 None 53; UConnect 2 (Some 0x0200000a) 5000; UDemux demo_dgram; URemove 1] in
  ucalls_ok demo_uabs cs /\ exists s', run_calls cs demo_udps =
    Done ([RPcb (Some 2); RErr ERR_USE; RErr ERR_OK; RFound (Some 1, false); RNone], s').
Proof.
  cbv zeta. assert (ucalls_ok demo_uabs [UNew; UBind 2 None 53; UConnect 2 (Some 0x0200000a) 5000; UDemux demo_dgram; URemove 1]) as Hc.
  { cbn [ucalls_ok ucall_ok]. repeat split; try (vm_compute; by eexists); by compute. }
  split; [exact Hc|]. destruct (udp_refines demo_udps demo_uabs _ demo_uabs_of Hc) as (rs & s' & E & Hrs & _).
  exists s'. rewrite E, Hrs. vm_compute. reflexivity.
Defined.

Lemma udp_new_port_free_witness : exists s', udp_new_port demo_udps = Done (0xc001, s').
Proof.
  destruct (udp_new_port_free demo_udps demo_uabs demo_uabs_of) as (r & s' & E & _ & _ & _ & Hr); [by compute|].
  exists s'. rewrite E. destruct Hr as [[_ Hl]|(j & Hj & Hr & _ & _ & Hall)]; [by compute in Hl|].
  destruct (decide (j = 1)) as [->|Hne]; [by rewrite Hr|]. specialize (Hall 1 ltac:(lia)). vm_compute in Hall. discriminate.
Defined.

Lemma udp_one_receiver_witness : ureach demo_udps /\ exists hit s', udp_demux demo_dgram demo_udps = Done ((Some 1, hit), s').
Proof.
  split; [exact demo_reach|]. destruct (udp_one_receiver demo_udps demo_reach) as (_ & _ & _ & Hd).
  destruct (Hd demo_dgram 1 (PcbNode demo_pcb None)) as [_ Hres]; [done|done|done|done|]. exact Hres.
Defined.
