(* ===== verification/Udp.v ===== *)
(** * UDP

    udp_input, udp_sendto_if, udp_sendto and udp_send of core/udp.c, over the IP layer of
    Ip.v and the PCBs of UdpPcb.v.  [recv_fn] are the functions that the application sets
    with udp_recv; what they are given is recorded in [u_calls], with the bytes of the
    packet at that time.  LWIP_UDPLITE, LWIP_CHECKSUM_ON_COPY and IP_SOF_BROADCAST are 0,
    CHECKSUM_GEN_UDP and CHECKSUM_CHECK_UDP 1. *)

From S2P Require Import Prelude ByteOrder Chksum Alloc Pbuf PbufData IpAddr IpHdr Netif Ip Icmp UdpPcb.

(** ** State *)

(** A call of a receive function. *)
Record delivery := Delivery { dl_recv : Z; dl_arg : Z; dl_pcb : Z; dl_data : option bytes; dl_addr : Z; dl_port : Z }.

(** lwip_stats.udp *)
Inductive udp_stat := UDxmit | UDrecv | UDdrop | UDchkerr | UDlenerr | UDrterr | UDproterr | UDcachehit.

#[global] Instance udp_stat_eq_dec : EqDecision udp_stat.
Proof. solve_decision. Defined.

Record udpst (E : Type) := UdpSt {
  u_ip : ipst E;
  u_pcbs : udps;
  u_calls : list delivery;
  u_stats : udp_stat -> Z
}.

Arguments UdpSt {E} _ _ _ _.
Arguments u_ip {E} _.
Arguments u_pcbs {E} _.
Arguments u_calls {E} _.
Arguments u_stats {E} _.

(** sizeof(struct udp_hdr) *)
Definition UDP_HLEN : Z := 8.

Definition ICMP_DUR_PORT : Z := 3.

Section udp.
Context {A E : Type} `{Allocator A} `{PacketHost A E}.
Context (stale_flags : ptr -> Z) (custom : ptr -> option (M (pstate A) unit)).
Context (output : netif -> ptr -> Z -> M E Z).
Context (ip_frag : ptr -> Z -> Z -> M (ipst E) Z).
Context (recv_fn : Z -> Z -> Z -> ptr -> Z -> Z -> M (udpst E) unit).

Definition set_u_ip (i : ipst E) (s : udpst E) : udpst E := UdpSt i (u_pcbs s) (u_calls s) (u_stats s).

Definition set_u_pcbs (l : udps) (s : udpst E) : udpst E := UdpSt (u_ip s) l (u_calls s) (u_stats s).

Definition add_call (d : delivery) (s : udpst E) : udpst E := UdpSt (u_ip s) (u_pcbs s) (u_calls s ++ [d]) (u_stats s).

(** UDP_STATS_INC *)
Definition udp_inc (k : udp_stat) : M (udpst E) unit :=
  modify (fun s => UdpSt (u_ip s) (u_pcbs s) (u_calls s) (fun j => if decide (j = k) then u16 (u_stats s j + 1) else u_stats s j)).

Definition on_ip {B} (m : M (ipst E) B) : M (udpst E) B := fun s =>
  match m (u_ip s) with
  | Done (b, i) => Done (b, set_u_ip i s)
  | Crash c => Crash c
  end.

Definition on_pcbs {B} (m : M udps B) : M (udpst E) B := fun s =>
  match m (u_pcbs s) with
  | Done (b, l) => Done (b, set_u_pcbs l s)
  | Crash c => Crash c
  end.

Definition on_pkt {B} (m : M (pstate A) B) : M (udpst E) B := on_ip (on_pbuf m).

Definition udp_free (p : ptr) : M (udpst E) unit := on_ip (ip_free custom p).

(** inet_chksum_pseudo of the packet. *)
Definition pseudo_of_pbuf (p : ptr) (src dest proto proto_len : Z) : M (pstate A) Z :=
  s ← get;
  q ← rd_chain (pbuf_fuel s) (Some p);
  mret (inet_chksum_pseudo q src dest proto proto_len).

(** ** Input *)

Definition udp_drop (p : ptr) (k : udp_stat) : M (udpst E) unit := udp_inc k;; udp_inc UDdrop;; udp_free p.

(** pcb->recv, or pbuf_free when there is none. *)
Definition udp_deliver (pcb : Z) (p : ptr) (src : Z) : M (udpst E) unit :=
  x ← on_pcbs (rd_pcb pcb);
  match recv x with
  | Some f =>
      s ← get;
      let addr := current_iphdr_src (u_ip s) in
      modify (add_call (Delivery f (recv_arg x) pcb (packet_bytes (host (u_ip s)) p) addr src));;
      recv_fn f (recv_arg x) pcb p addr src
  | None => udp_free p
  end.

(** No PCB: ICMP port unreachable, unless the destination was broadcast or multicast. *)
Definition udp_no_port (p iphdr : ptr) (hlen : Z) (broadcast : bool) : M (udpst E) unit :=
  s ← get;
  (if negb broadcast && negb (ip_addr_ismulticast (current_iphdr_dest (u_ip s))) then
     on_pkt (pbuf_header (Some p) (hlen + UDP_HLEN));;
     b ← on_pkt (rdp p);
     lwip_assert (bool_decide (payload b = Some iphdr));;
     on_ip (icmp_dest_unreach stale_flags custom output ip_frag p ICMP_DUR_PORT)
   else mret tt);;
  udp_inc UDproterr;;
  udp_inc UDdrop;;
  udp_free p.

(** The datagram is for a PCB or for this host: the checksum, and where it goes. *)
Definition udp_accept (p iphdr udphdr : ptr) (hlen : Z) (pcb : option Z) (src : Z) (broadcast : bool) : M (udpst E) unit :=
  c ← on_pkt (rd16 (padd udphdr 6));
  bad ← (if nz c then
           s ← get;
           b ← on_pkt (rdp p);
           v ← on_pkt (pseudo_of_pbuf p (current_iphdr_src (u_ip s)) (current_iphdr_dest (u_ip s)) IP_PROTO_UDP (tot_len b));
           mret (nz v)
         else mret false);
  if (bad : bool) then udp_drop p UDchkerr
  else
    r ← on_pkt (pbuf_header (Some p) (- UDP_HLEN));
    if nz r then lwip_assert false;; udp_inc UDdrop;; udp_free p
    else
      match pcb with
      | Some pcb => udp_deliver pcb p src
      | None => udp_no_port p iphdr hlen broadcast
      end.

Definition udp_input (p : ptr) (inp : Z) : M (udpst E) unit :=
  udp_inc UDrecv;;
  iphdr ← on_pkt (rd_payload p);
  b ← on_pkt (rdp p);
  v_hl ← on_pkt (rdb iphdr);
  let hlen := Z.land v_hl 0x0f * 4 in
  short ← (if tot_len b <? hlen + UDP_HLEN then mret true else r ← on_pkt (pbuf_header (Some p) (- hlen)); mret (nz r));
  if (short : bool) then udp_drop p UDlenerr
  else
    udphdr ← on_pkt (rd_payload p);
    n ← on_ip (on_if (rd_nif inp));
    s ← get;
    let broadcast := nz (ip4_addr_isbroadcast (current_iphdr_dest (u_ip s)) n) in
    src ← on_pkt (rd16 udphdr);
    dest ← on_pkt (rd16 (padd udphdr 2));
    let src := lwip_ntohs src in
    r ← on_pcbs (udp_demux (Dgram (current_iphdr_src (u_ip s)) src (current_iphdr_dest (u_ip s)) (lwip_ntohs dest) broadcast (netmask n)));
    let '(pcb, hit) := (r : option Z * bool) in
    (if hit then udp_inc UDcachehit else mret tt);;
    if negb (bool_decide (pcb = None)) || (ip_addr n =? current_iphdr_dest (u_ip s))
    then udp_accept p iphdr udphdr hlen pcb src broadcast
    else udp_free p.

(** ** Output *)

(** Room for the header: in the packet, or in a pbuf in front of it; [None] is ERR_MEM. *)
Definition udp_header (p : ptr) : M (udpst E) (option ptr) :=
  r ← on_pkt (pbuf_header (Some p) UDP_HLEN);
  if nz r then
    q ← on_pkt (pbuf_alloc stale_flags custom PBUF_IP UDP_HLEN PBUF_RAM);
    match q with
    | None => mret None
    | Some q =>
        b ← on_pkt (rdp p);
        (if nz (tot_len b) then on_pkt (pbuf_chain (Some q) (Some p)) else mret tt);;
        mret (Some q)
    end
  else mret (Some p).

(** The header in front is given up again. *)
Definition udp_unheader (q p : ptr) : M (udpst E) unit := if bool_decide (q = p) then mret tt else udp_free q.

(** The source address; [None] is ERR_VAL. *)
Definition udp_source (x : udp_pcb) (n : netif) : option Z :=
  if ip_addr_isany (Some (local_ip x)) then Some (ip_addr n)
  else if local_ip x =? ip_addr n then Some (local_ip x) else None.

(** The length and the checksum of the header, and ip_output_if. *)
Definition udp_transmit (x : udp_pcb) (q p udphdr : ptr) (src dst_ip netif : Z) : M (udpst E) Z :=
  b ← on_pkt (rdp q);
  on_pkt (wr16 (padd udphdr 4) (lwip_htons (tot_len b)));;
  (if Z.land (flags x) UDP_FLAGS_NOCHKSUM =? 0 then
     c ← on_pkt (pseudo_of_pbuf q src dst_ip IP_PROTO_UDP (tot_len b));
     on_pkt (wr16 (padd udphdr 6) (if c =? 0 then 0xffff else c))
   else mret tt);;
  err ← on_ip (ip_output_if output ip_frag q (Some src) (Some dst_ip) (ttl x) (tos x) IP_PROTO_UDP netif);
  udp_unheader q p;;
  udp_inc UDxmit;;
  mret err.

Definition udp_sendto_if (pcb : Z) (p : ptr) (dst_ip dst_port : Z) (netif : Z) : M (udpst E) Z :=
  x ← on_pcbs (rd_pcb pcb);
  err ← (if local_port x =? 0 then on_pcbs (udp_bind pcb (Some (local_ip x)) (local_port x)) else mret ERR_OK);
  if negb (err =? ERR_OK) then mret err
  else
    q ← udp_header p;
    match q with
    | None => mret ERR_MEM
    | Some q =>
        b ← on_pkt (rdp q);
        lwip_assert (UDP_HLEN <=? len b);;
        udphdr ← on_pkt (rd_payload q);
        x ← on_pcbs (rd_pcb pcb);
        on_pkt (wr16 udphdr (lwip_htons (local_port x)));;
        on_pkt (wr16 (padd udphdr 2) (lwip_htons dst_port));;
        on_pkt (wr16 (padd udphdr 6) 0);;
        n ← on_ip (on_if (rd_nif netif));
        match udp_source x n with
        | None => udp_unheader q p;; mret ERR_VAL
        | Some src => udp_transmit x q p udphdr src dst_ip netif
        end
    end.

Definition udp_sendto (pcb : Z) (p : ptr) (dst_ip dst_port : Z) : M (udpst E) Z :=
  r ← on_ip (on_if (ip_route dst_ip));
  match r with
  | None => udp_inc UDrterr;; mret ERR_RTE
  | Some netif => udp_sendto_if pcb p dst_ip dst_port netif
  end.

Definition udp_send (pcb : Z) (p : ptr) : M (udpst E) Z :=
  x ← on_pcbs (rd_pcb pcb);
  udp_sendto pcb p (remote_ip x) (remote_port x).
End udp.
