(* ===== verification/UdpSend.v ===== *)
(** * What UDP sends

    A datagram is the bytes it was given behind a header whose checksum verifies, over the
    pseudo header of RFC 768; it leaves through ip_output_if. *)

From S2P Require Import Prelude ByteOrder Chksum Alloc Pbuf AllocImpl PbufSpec PbufData PbufOwn IpAddr IpHdr Etharp EtharpTable EtharpOps EtharpSpec EtharpPbuf Netif NetifSpec Ip IpPacket IpOut Icmp IpSteps IcmpSpec IpInput IpInputSpec IcmpError UdpPcb UdpPcbSpec Udp.

(** ** Datagrams *)

(** A header and data; the checksum is as it is in memory. *)
Definition udp_bytes (sport dport len c : Z) (data : bytes) : bytes :=
  bytes16 (lwip_htons sport) ++ bytes16 (lwip_htons dport) ++ bytes16 (lwip_htons len) ++ bytes16 c ++ data.

Lemma udp_bytes_len sport dport len c data : zlen (udp_bytes sport dport len c data) = 8 + zlen data.
Proof. unfold udp_bytes, bytes16. autorewrite with zlen. unfold zlen. cbn [length]. lia. Qed.

Lemma bytes16_bytes v : is_bytes (bytes16 v).
Proof. unfold bytes16. repeat (apply is_bytes_cons; split; [apply mod256_u8|]). constructor. Qed.

Lemma udp_bytes_bytes sport dport len c data : is_bytes data -> is_bytes (udp_bytes sport dport len c data).
Proof. intros Hd. unfold udp_bytes. rewrite !is_bytes_app. repeat (split; [apply bytes16_bytes|]). done. Qed.

(** The sum over the pseudo header and the datagram. *)
Definition udp_sum (src dst : Z) (w : bytes) : Z := oc_sum (pseudo_hdr src dst IP_PROTO_UDP (zlen w) ++ w).

(** The checksum of a datagram: zero stands for none. *)
Definition udp_chksum (src dst sport dport : Z) (data : bytes) : Z :=
  let c := not16 (udp_sum src dst (udp_bytes sport dport (8 + zlen data) 0 data)) in if c =? 0 then 0xffff else c.

Definition datagram (src dst sport dport : Z) (data : bytes) : bytes :=
  udp_bytes sport dport (8 + zlen data) (udp_chksum src dst sport dport data) data.

Lemma pseudo_app src dst n w : word_sum (pseudo_hdr src dst IP_PROTO_UDP n ++ w) = word_sum (pseudo_hdr src dst IP_PROTO_UDP n) + word_sum w.
Proof. unfold pseudo_hdr, u32_wire. cbn [app word_sum]. lia. Qed.

Lemma pseudo_pos src dst n : is_u16 n -> 0 < word_sum (pseudo_hdr src dst IP_PROTO_UDP n).
Proof.
  intros Hn. unfold pseudo_hdr, u32_wire. cbn [app word_sum]. unfold le16, IP_PROTO_UDP, is_u16 in *.
  assert (forall x, 0 <= x mod 256) as Hm by (intros x; apply Z.mod_pos_bound; lia). pose proof (Hm src). pose proof (Hm (src / 256)).
  pose proof (Hm (src / 65536)). pose proof (Hm (src / 16777216)). pose proof (Hm dst). pose proof (Hm (dst / 256)).
  pose proof (Hm (dst / 65536)). pose proof (Hm (dst / 16777216)). pose proof (Hm n). assert (0 <= n / 256) by zdm. lia.
Qed.

Lemma udp_bytes_sum sport dport len c data : is_u16 c ->
  word_sum (udp_bytes sport dport len c data) = word_sum (udp_bytes sport dport len 0 data) + c.
Proof.
  intros Hc. unfold udp_bytes, bytes16. cbn [app word_sum]. rewrite (bytes16_le c) by done. change (le16 (0 mod 256) (0 / 256 mod 256)) with 0. lia.
Qed.

Lemma udp_chksum_u16 src dst sport dport data : is_u16 (udp_chksum src dst sport dport data) /\ udp_chksum src dst sport dport data <> 0.
Proof.
  unfold udp_chksum. set (c := not16 _). assert (is_u16 c) as Hc by apply u16_range. unfold is_u16 in *.
  destruct (Z.eqb_spec c 0); lia.
Qed.

(** A sum and its complement. *)
Lemma complement_ok w : 0 < w -> let c := not16 (oc_canon w) in not16 (oc_canon (w + if c =? 0 then 0xffff else c)) = 0.
Proof.
  intros Hw c. pose proof (oc_canon_u16 w ltac:(lia)) as Hu. destruct (oc_canon_oc w ltac:(lia)) as (_ & _ & Hmod & _).
  unfold c. rewrite (not16_sub (oc_canon w)) by done. unfold is_u16 in Hu. revert Hu Hmod. generalize (oc_canon w). clear c. intros c Hu Hmod.
  set (d := if 65535 - c =? 0 then 65535 else 65535 - c). assert (0 <= d /\ (w + d) mod 65535 = 0) as [Hd Hz].
  { assert ((w + (65535 - c)) mod 65535 = 0) as Hz.
    { rewrite Z.add_mod, <- Hmod, <- Z.add_mod by lia. replace (c + (65535 - c)) with 65535 by lia. done. }
    unfold d. destruct (Z.eqb_spec (65535 - c) 0) as [E0|]; [|lia]. split; [lia|]. rewrite E0, Z.add_0_r in Hz. rewrite <- Z.add_mod_idemp_r by lia.
    by rewrite Z.mod_same, Z.add_0_r by lia. }
  unfold oc_canon. rewrite (proj2 (Z.eqb_neq (w + d) 0)) by lia. replace ((w + d - 1) mod 65535) with 65534 by zdm. done.
Qed.

(** The datagram verifies. *)
Lemma datagram_ok src dst sport dport data : is_bytes data -> zlen data <= 0xffff - 8 ->
  not16 (udp_sum src dst (datagram src dst sport dport data)) = 0.
Proof.
  intros Hb Hl. destruct (udp_chksum_u16 src dst sport dport data) as [Hc _]. unfold datagram. set (n := 8 + zlen data) in *.
  pose proof (zlen_nonneg data) as Hz. assert (is_u16 n) as Hn by (unfold is_u16, n; lia). unfold udp_sum, oc_sum. rewrite udp_bytes_len. fold n.
  rewrite pseudo_app, udp_bytes_sum by done. unfold udp_chksum. fold n. unfold udp_sum, oc_sum. rewrite udp_bytes_len. fold n. rewrite pseudo_app.
  pose proof (pseudo_pos src dst n Hn) as Hp. assert (0 <= word_sum (udp_bytes sport dport n 0 data)) as Hw by apply word_sum_bounds, udp_bytes_bytes, Hb.
  rewrite Z.add_assoc. apply complement_ok. lia.
Qed.

Lemma pkt_pseudo {A} `{AllocatorSpec A} (k : pstate A) L ext p b x l data src dst proto n :
  pinv k L ext -> packet k p b x l data -> is_bytes data -> is_u32 src -> is_u32 dst -> is_u8 proto -> is_u16 n ->
  pseudo_of_pbuf p src dst proto n k = Done (not16 (oc_sum (pseudo_hdr src dst proto n ++ data)), k).
Proof.
  intros Hi Hk Hb Hs Hd Hp Hn. unfold pseudo_of_pbuf. rewrite get_bind. pose proof (pkt_chain _ _ _ _ _ _ Hk) as Hc.
  destruct (rd_chain_ok k _ (pbuf_fuel k) _ data Hc (pkt_all_pays _ _ _ _ _ _ _ _ Hi Hk) (pkt_data _ _ _ _ _ _ Hk) Hb) as (c & E & Hcb & Hcf).
  { pose proof (chain_length _ _ _ Hc). unfold pbuf_fuel. lia. }
  rewrite (bind_done _ _ _ _ _ E). by rewrite (inet_chksum_pseudo_wire c), Hcb.
Qed.

(** ** Computations in the state of UDP *)

Section lift.
Context {E : Type}.
Implicit Types (s : udpst E).

Lemma wp_on_ip {B} (m : M (ipst E) B) s (Q : B -> udpst E -> Prop) : wp m (u_ip s) (fun b i => Q b (set_u_ip i s)) -> wp (on_ip m) s Q.
Proof. intros (b & i & E0 & HQ). exists b, (set_u_ip i s). split; [|done]. unfold on_ip. by rewrite E0. Qed.

Lemma wp_on_pcbs {B} (m : M udps B) s (Q : B -> udpst E -> Prop) : wp m (u_pcbs s) (fun b l => Q b (set_u_pcbs l s)) -> wp (on_pcbs m) s Q.
Proof. intros (b & l & E0 & HQ). exists b, (set_u_pcbs l s). split; [|done]. unfold on_pcbs. by rewrite E0. Qed.

(** A computation that ends in [m']. *)
Definition tail {B} (m : M (udpst E) B) s (m' : M (udpst E) B) (P : udpst E -> Prop) : Prop := exists s1, P s1 /\ m s = m' s1.

Lemma tail_bind {B C} (m : M (udpst E) B) (k : B -> M (udpst E) C) s m' P :
  wp m s (fun b s' => tail (k b) s' m' P) -> tail (m ≫= k) s m' P.
Proof. intros (b & s' & E0 & s1 & HP & E1). exists s1. split; [done|]. by rewrite (bind_done _ _ _ _ _ E0). Qed.

Lemma tail_here {B} (m : M (udpst E) B) s (P : udpst E -> Prop) : P s -> tail m s m P.
Proof. intros HP. by exists s. Qed.

Lemma tail_mono {B} (m m' : M (udpst E) B) s (P Q : udpst E -> Prop) : tail m s m' P -> (forall s1, P s1 -> Q s1) -> tail m s m' Q.
Proof. intros (s1 & HP & E1) HPQ. exists s1. split; [by apply HPQ|done]. Qed.
End lift.

Section send.
Context {A E : Type} `{AllocatorSpec A} `{PacketHostSpec A E}.
Context (stale_flags : ptr -> Z) (custom : ptr -> option (M (pstate A) unit)).
Context (output : netif -> ptr -> Z -> M E Z) `{!IpLinkSpec A E output}.
Context (ip_frag : ptr -> Z -> Z -> M (ipst E) Z).
Implicit Types (s : ipst E).

(** Bytes in front of the packet, not written yet. *)
Lemma wp_push s a ext p b x l data n m (Q : Z -> ipst E -> Prop) :
  ip_inv s a ext -> p ∈ ext -> packet (host s) p b x l data -> header_fits p b x n = true -> 0 < n <= 32767 -> tot_len b + n < 65536 ->
  0 <= m -> room (host s) x (n + m) ->
  (forall s' d, ip_inv s' a ext -> packet (host s') p (moved b x n) (padd x (- n)) l (d ++ data) -> zlen d = n -> room (host s') (padd x (- n)) m ->
    calm [] s s' -> Q 0 s') -> wp (on_pbuf (pbuf_header (Some p) n)) s Q.
Proof.
  intros Hs Hp Hk Hfit Hn Ht Hm Hr HQ. pose proof Hs as [Hnf [Hho [L Hi]]]. destruct (pkt_tot _ _ _ _ _ _ _ _ Hi Hk) as (_ & _ & Hl & _).
  apply (wp_header_ip _ _ b x); [exact (pkt_lookup _ _ _ _ _ _ Hk)|exact (pkt_payload _ _ _ _ _ _ Hk)|unfold is_u16; lia|unfold is_u16; lia|done|lia|done|].
  rewrite Hfit. destruct (present_holds (pdata (host s)) (padd x (- n)) (Z.to_nat n)) as [d Hd].
  { intros i Hir. rewrite padd_padd. destruct (Hr (m + i)) as [v Hv]; [lia|]. replace (m + i - (n + m)) with (- n + i) in Hv by lia. by eexists. }
  pose proof (holds_length _ _ _ Hd) as Hdl. rewrite range_length in Hdl. assert (zlen d = n) as Hdz by (unfold zlen; lia).
  destruct (pkt_push (host s) L _ p b x l data n d (pdata (host s)) Hi) as [Hi' Hk']; try done; [apply elem_of_app; by right|lia|by rewrite <- Hdl|].
  assert (set_pdata (fun _ => pdata (host s)) (set_pbufs (insert p (moved b x n)) (host s)) = set_pbufs (insert p (moved b x n)) (host s)) as Eq by done.
  rewrite Eq in Hi', Hk'. apply (HQ _ d).
  - by apply (ip_inv_host s a ext _ L).
  - by rewrite host_with.
  - done.
  - intros i Hir. rewrite host_with. cbn. rewrite padd_padd. destruct (Hr i) as [v Hv]; [lia|]. replace (- n + (i - m)) with (i - (n + m)) by lia. by eexists.
  - split; [done|done|done|]. intros y j Hy. unfold room. by rewrite host_with.
Qed.

(** The header over what was there. *)
Lemma udp_splices sport dport len c d data : zlen d = 8 ->
  splice 6 (bytes16 c) (splice 4 (bytes16 (lwip_htons len)) (splice 6 (bytes16 0) (splice 2 (bytes16 (lwip_htons dport)) (splice 0 (bytes16 (lwip_htons sport)) (d ++ data))))) =
    udp_bytes sport dport len c data /\
  splice 4 (bytes16 (lwip_htons len)) (splice 6 (bytes16 0) (splice 2 (bytes16 (lwip_htons dport)) (splice 0 (bytes16 (lwip_htons sport)) (d ++ data)))) =
    udp_bytes sport dport len 0 data.
Proof.
  intros Hd. unfold zlen in Hd. do 8 (destruct d as [|? d]; [discriminate Hd|]). destruct d as [|? d]; [|exfalso; cbn [length] in Hd; lia]. split; reflexivity.
Qed.

Lemma fits_split p b x n m : header_fits p b x (n + m) = true -> 0 < n -> 0 < m ->
  header_fits p b x n = true /\ header_fits p (moved b x n) (padd x (- n)) m = true.
Proof.
  intros Hf Hn Hm. unfold header_fits in *. change (type (moved b x n)) with (type b). destruct (type b); try (split; lia);
    unfold padd; cbn [fst snd] in *; split; lia.
Qed.

(** UDP_FLAGS_NOCHKSUM *)
Definition unchecked (x : udp_pcb) : bool := negb (Z.land (flags x) UDP_FLAGS_NOCHKSUM =? 0).

(** The header as it is sent: without a checksum when the PCB says so. *)
Definition sent_chksum (x : udp_pcb) (src dst dport : Z) (data : bytes) : Z :=
  if unchecked x then 0 else udp_chksum src dst (local_port x) dport data.

(** What becomes of the packet buffers is in [ip_inv]; nothing else changes but the PCBs. *)
Lemma udp_transmit_ok (t : udpst E) a ext n nif p b y l data xp src dst dport :
  ip_inv (u_ip t) a ext -> p ∈ ext -> ab_tab a !! n = Some nif -> il_nif nif -> is_u32 src -> src <> IPADDR_ANY -> is_u32 dst ->
  is_u8 (ttl xp) -> is_u8 (tos xp) -> is_bytes data -> tot_len b = 8 + zlen data -> 8 <= len b ->
  (exists d, zlen d = 8 /\ packet (host (u_ip t)) p b y l
     (splice 6 (bytes16 0) (splice 2 (bytes16 (lwip_htons dport)) (splice 0 (bytes16 (lwip_htons (local_port xp))) (d ++ data))))) ->
  header_fits p b y IP_HLEN = true -> fits_link (host (u_ip t)) b y (IP_HLEN + SIZEOF_ETH_HDR) -> fits_mtu nif (tot_len b + IP_HLEN) ->
  wp (udp_transmit custom output ip_frag xp p p y src dst n) t (fun _ (s' : udpst E) => ip_inv (u_ip s') a ext /\ u_pcbs s' = u_pcbs t /\
    u_calls s' = u_calls t /\ ip_out (u_ip s') = ip_out (u_ip t) ++ [Sent n dst (Some (hdr_bytes (new_header (8 + zlen data + IP_HLEN) (ip_id (u_ip t))
       (Some src) dst (ttl xp) (tos xp) IP_PROTO_UDP nif) ++ udp_bytes (local_port xp) dport (8 + zlen data) (sent_chksum xp src dst dport data) data))]).
Proof.
  intros Hs Hp Hn Hil Hsrc Hsrc0 Hdst Httl Htos Hb Ht Hl (d & Hd & Hk) Hfit [Hlk Hroom] Hmtu.
  pose proof Hs as [_ [_ [L Hi]]]. destruct (pkt_tot _ _ _ _ _ _ _ _ Hi Hk) as (_ & _ & _ & Hmax).
  unfold udp_transmit. wp_step. apply wp_on_ip. apply (wp_rdp_ip _ _ b); [exact (pkt_lookup _ _ _ _ _ _ Hk)|]. rewrite Ht.
  wp_step. apply wp_on_ip. eapply (wp_pk_wr _ a ext p b y l _ 4 (bytes16 (lwip_htons (8 + zlen data)))); [exact Hs|exact Hk|done|done|done|change (zlen (bytes16 _)) with 2; lia|].
  destruct (udp_splices (local_port xp) dport (8 + zlen data) 0 d data Hd) as [_ Hsp].
  intros s1 Hs1 Hk1 C1 _ _. change (Z.to_nat 4) with 4%nat in Hk1. rewrite Hsp in Hk1. clear Hsp Hk.
  wp_step. eapply (wp_mono _ _ (fun _ (s2 : udpst E) => u_pcbs s2 = u_pcbs t /\ u_calls s2 = u_calls t /\ ip_inv (u_ip s2) a ext /\
    packet (host (u_ip s2)) p b y l (udp_bytes (local_port xp) dport (8 + zlen data) (sent_chksum xp src dst dport data) data) /\ calm [] (u_ip t) (u_ip s2))).
  { unfold sent_chksum, unchecked. destruct (Z.land (flags xp) UDP_FLAGS_NOCHKSUM =? 0).
    - wp_step. apply wp_on_ip. cbn [u_ip set_u_ip].
      pose proof Hs1 as [_ [_ [L1 Hi1]]]. apply (wp_at _ (not16 (udp_sum src dst (udp_bytes (local_port xp) dport (8 + zlen data) 0 data)))).
      { unfold udp_sum. rewrite udp_bytes_len. apply (pkt_pseudo _ _ _ _ _ _ _ _ _ _ _ _ Hi1 Hk1); [by apply udp_bytes_bytes|done|done|by compute|].
        unfold is_u16. pose proof (zlen_nonneg data). lia. }
      apply wp_on_ip. cbn [u_ip set_u_ip]. eapply (wp_pk_wr s1 a ext p b y l _ 6 (bytes16 _)); [exact Hs1|exact Hk1|done|done|done|change (zlen (bytes16 _)) with 2; lia|].
      intros s2 Hs2 Hk2 C2 _ _. split; [done|]. split; [done|]. split; [exact Hs2|]. split; [exact Hk2|exact (calm_trans _ _ _ _ _ C1 C2)].
    - wp_step. split; [done|]. split; [done|]. split; [exact Hs1|]. by split. }
  intros [] s2 (Ep & Ec & Hs2 & Hk2 & C2). pose proof C2 as [_ Hid Hout Hrm]. wp_step. apply wp_on_ip.
  eapply wp_mono; [eapply (ip_output_if_ok output ip_frag (u_ip s2) a ext n nif p b y l); try done|].
  { split; [done|by apply Hrm]. }
  { unfold source. cbn. by rewrite (proj2 (Z.eqb_neq _ _) Hsrc0). }
  cbv beta. rewrite Hfit. intros r s3 (Hs3 & _ & _ & Hout3). wp_step. unfold udp_unheader. rewrite bool_decide_true by done. wp_step.
  wp_step. unfold udp_inc. wp_step. wp_step. cbn. split; [exact Hs3|]. split; [exact Ep|]. split; [exact Ec|].
  by rewrite Hout3, Ht, Hid, Hout.
Qed.

(** The datagram that a PCB [x] sends, behind its IP header. *)
Definition sent_bytes (x : udp_pcb) (id : Z) (dst dport : Z) (nif : netif) (data : bytes) : bytes :=
  hdr_bytes (new_header (8 + zlen data + IP_HLEN) id (Some (ip_addr nif)) dst (ttl x) (tos x) IP_PROTO_UDP nif) ++
  udp_bytes (local_port x) dport (8 + zlen data) (sent_chksum x (ip_addr nif) dst dport data) data.

(** An address a PCB can send from. *)
Definition source_ok (x : udp_pcb) (nif : netif) : Prop := local_ip x = IPADDR_ANY \/ local_ip x = ip_addr nif.

Lemma udp_source_ok x nif : source_ok x nif -> udp_source x nif = Some (ip_addr nif).
Proof.
  unfold source_ok, udp_source, ip_addr_isany. intros [->| ->]; [done|]. destruct (_ =? IPADDR_ANY); [done|]. by rewrite Z.eqb_refl.
Qed.

(** A packet with room for all the headers. *)
Record sendable_data (s : ipst E) a ext p b x l data : Prop := SendableData {
  sd_inv : ip_inv s a ext;
  sd_in : p ∈ ext;
  sd_packet : packet (host s) p b x l data;
  sd_bytes : is_bytes data;
  sd_fits : header_fits p b x (UDP_HLEN + IP_HLEN) = true;
  sd_tot : tot_len b + 42 <= 65452;
  sd_room : room (host s) x (UDP_HLEN + (IP_HLEN + SIZEOF_ETH_HDR))
}.

(** An interface datagrams of [n] bytes to [dst] can be sent on. *)
Record udp_link_ok (a : nabs) (i : Z) nif (dst n : Z) : Prop := LinkOk {
  lk_nif : ab_tab a !! i = Some nif;
  lk_il : il_nif nif;
  lk_addr : is_u32 (ip_addr nif) /\ ip_addr nif <> IPADDR_ANY;
  lk_dst : is_u32 dst;
  lk_mtu : fits_mtu nif (n + UDP_HLEN + IP_HLEN)
}.

Lemma udp_sendto_if_ok (t : udpst E) a ext p b x l data i nif pcb n dst dport :
  sendable_data (u_ip t) a ext p b x l data -> udp_link_ok a i nif dst (zlen data) -> ureach (u_pcbs t) -> pcbs (u_pcbs t) !! pcb = Some n ->
  source_ok (pn_pcb n) nif -> is_u8 (ttl (pn_pcb n)) -> is_u8 (tos (pn_pcb n)) ->
  wp (udp_sendto_if stale_flags custom output ip_frag pcb p dst dport i) t (fun _ (t' : udpst E) => ip_inv (u_ip t') a ext /\
    u_calls t' = u_calls t /\ ureach (u_pcbs t') /\ (local_port (pn_pcb n) <> 0 -> u_pcbs t' = u_pcbs t) /\
    exists n', pcbs (u_pcbs t') !! pcb = Some n' /\ local_port (pn_pcb n') <> 0 /\ is_u16 (local_port (pn_pcb n')) /\ pn_pcb n' = set_local_port (local_port (pn_pcb n')) (pn_pcb n) /\
      ip_out (u_ip t') = ip_out (u_ip t) ++ [Sent i dst (Some (sent_bytes (pn_pcb n') (ip_id (u_ip t)) dst dport nif data))]).
Proof.
  intros [Hs Hp Hk Hb Hfit Htot Hroom] [Hn Hil [Hadr Hadr0] Hdst Hmtu] Hr Hpcb Hsrc Httl Htos.
  pose proof Hs as [_ [_ [L Hi]]]. destruct (pkt_tot _ _ _ _ _ _ _ _ Hi Hk) as (Htz & _ & Hl & _). unfold UDP_HLEN, IP_HLEN in Hfit.
  destruct (fits_split p b x 8 20 Hfit ltac:(lia) ltac:(lia)) as [Hf1 Hf2].
  unfold udp_sendto_if. wp_step. apply wp_on_pcbs. unfold rd_pcb at 1. wp_step. apply (wp_rd_pnode _ _ n); [done|]. wp_step.
  assert (set_u_pcbs (u_pcbs t) t = t) as -> by (by destruct t). wp_step.
  destruct (autobind_ok (u_pcbs t) pcb n Hr Hpcb) as (r0 & l0 & E0 & -> & Hr0 & Hkeep & n' & Hn' & Hport & Hpu & Epcb).
  apply (wp_mono _ _ (fun r t1 => r = ERR_OK /\ t1 = set_u_pcbs l0 t)).
  { destruct (local_port (pn_pcb n) =? 0); [apply wp_on_pcbs; by exists ERR_OK, l0|]. wp_step. injection E0 as <-. split; [done|by destruct t]. }
  intros r t1 [-> ->]. change (ERR_OK =? ERR_OK) with true. cbn [negb]. wp_step. unfold udp_header. wp_step. apply wp_on_ip. cbn [u_ip set_u_pcbs].
  eapply (wp_push _ a ext p b x l data UDP_HLEN (IP_HLEN + SIZEOF_ETH_HDR)); [exact Hs|exact Hp|exact Hk|exact Hf1|done|unfold UDP_HLEN; lia|done|exact Hroom|].
  intros s1 d Hs1 Hk1 Hd Hrm1 C1. cbn [nz negb Z.eqb]. wp_step. set (b1 := moved b x UDP_HLEN) in *. set (y := padd x (- UDP_HLEN)) in *.
  assert (len b1 = len b + 8 /\ tot_len b1 = tot_len b + 8) as [Hl1 Ht1] by done.
  pose proof (pkt_lookup _ _ _ _ _ _ Hk1) as Hlk1. pose proof (pkt_payload _ _ _ _ _ _ Hk1) as Hpy1.
  wp_step. apply wp_on_ip. apply (wp_rdp_ip _ _ b1); [exact Hlk1|]. wp_step. apply wp_assert; [unfold UDP_HLEN; lia|].
  wp_step. apply wp_on_ip. apply (wp_rd_payload _ _ b1 y); [exact Hlk1|exact Hpy1|]. wp_step. apply wp_on_pcbs. unfold rd_pcb. wp_step.
  apply (wp_rd_pnode _ _ n'); [exact Hn'|]. wp_step. set (xp := pn_pcb n') in *.
  wp_step. apply wp_on_ip. eapply (wp_pk_wr s1 a ext p b1 y l _ 0 (bytes16 (lwip_htons (local_port xp)))); [exact Hs1|exact Hk1|done|by rewrite padd_0|done|change (zlen (bytes16 _)) with 2; lia|].
  intros s2 Hs2 Hk2 C2 _ _. wp_step. apply wp_on_ip.
  eapply (wp_pk_wr s2 a ext p b1 y l _ 2 (bytes16 (lwip_htons dport))); [exact Hs2|exact Hk2|done|done|done|change (zlen (bytes16 _)) with 2; lia|].
  intros s3 Hs3 Hk3 C3 _ _. wp_step. apply wp_on_ip.
  eapply (wp_pk_wr s3 a ext p b1 y l _ 6 (bytes16 0)); [exact Hs3|exact Hk3|done|done|done|change (zlen (bytes16 _)) with 2; lia|].
  intros s4 Hs4 Hk4 C4 _ _. pose proof (calm_trans _ _ _ _ _ (calm_trans _ _ _ _ _ C1 C2) (calm_trans _ _ _ _ _ C3 C4)) as [_ Hid Hout Hrm].
  wp_step. apply wp_on_ip. apply (wp_rd_nif_ip _ a _ nif); [apply Hs4|done|].
  assert (source_ok xp nif /\ ttl xp = ttl (pn_pcb n) /\ tos xp = tos (pn_pcb n)) as (Hsrc' & Ettl & Etos) by (rewrite Epcb; by split).
  rewrite udp_source_ok by done.
  eapply wp_mono; [eapply (udp_transmit_ok _ a ext i nif p b1 y l data xp (ip_addr nif) dst dport); try done|].
  - by rewrite Ettl.
  - by rewrite Etos.
  - lia.
  - lia.
  - by exists d.
  - split; [unfold IP_HLEN, SIZEOF_ETH_HDR; lia|].
    by apply (ca_room _ _ _ C4), (ca_room _ _ _ C3), (ca_room _ _ _ C2).
  - replace (tot_len b1 + IP_HLEN) with (zlen data + UDP_HLEN + IP_HLEN) by (unfold UDP_HLEN; lia). done.
  - intros r t' (Hs' & Ep & Ec & Hout'). split; [exact Hs'|]. split; [exact Ec|]. rewrite Ep. split; [exact Hr0|]. split; [exact Hkeep|].
    exists n'. split; [exact Hn'|]. split; [exact Hport|]. split; [exact Hpu|]. split; [exact Epcb|]. rewrite Hout'. cbn [u_ip set_u_ip set_u_pcbs]. by rewrite Hid, Hout.
Qed.

Lemma udp_sendto_ok (t : udpst E) a ext p b x l data i nif pcb n dst dport :
  sendable_data (u_ip t) a ext p b x l data -> route_of a dst = Some i -> udp_link_ok a i nif dst (zlen data) ->
  ureach (u_pcbs t) -> pcbs (u_pcbs t) !! pcb = Some n -> source_ok (pn_pcb n) nif -> is_u8 (ttl (pn_pcb n)) -> is_u8 (tos (pn_pcb n)) ->
  wp (udp_sendto stale_flags custom output ip_frag pcb p dst dport) t (fun _ (t' : udpst E) => ip_inv (u_ip t') a ext /\
    u_calls t' = u_calls t /\ ureach (u_pcbs t') /\ (local_port (pn_pcb n) <> 0 -> u_pcbs t' = u_pcbs t) /\
    exists n', pcbs (u_pcbs t') !! pcb = Some n' /\ local_port (pn_pcb n') <> 0 /\ is_u16 (local_port (pn_pcb n')) /\ pn_pcb n' = set_local_port (local_port (pn_pcb n')) (pn_pcb n) /\
      ip_out (u_ip t') = ip_out (u_ip t) ++ [Sent i dst (Some (sent_bytes (pn_pcb n') (ip_id (u_ip t)) dst dport nif data))]).
Proof.
  intros Hsd Hroute. unfold udp_sendto. intros. wp_step. apply wp_on_ip, wp_on_if. eexists _, _.
  split; [exact (route_found _ _ _ _ (proj1 (sd_inv _ _ _ _ _ _ _ _ Hsd)) Hroute)|]. cbv beta iota.
  assert (set_u_ip (set_ip_if (ip_if (u_ip t)) (u_ip t)) t = t) as -> by (by destruct t as [[]]). by eapply udp_sendto_if_ok.
Qed.
End send.
