(* ===== verification/UdpRecv.v ===== *)
(** * What becomes of a received datagram

    udp_input on a packet whose UDP header is in its first pbuf: it is dropped with the
    counters that say why, answered by ICMP, or handed to the receive function of the PCB
    that the search finds. *)

From S2P Require Import Prelude ByteOrder Chksum Alloc Pbuf AllocImpl PbufSpec PbufData PbufOwn IpAddr IpHdr Etharp EtharpTable EtharpOps EtharpSpec EtharpPbuf Netif NetifSpec Ip IpPacket IpOut Icmp IpSteps IcmpSpec IpInput IpInputSpec IcmpError UdpPcb UdpPcbSpec Udp UdpSend.

Definition udp_bump (k : udp_stat) (st : udp_stat -> Z) : udp_stat -> Z := fun j => if decide (j = k) then u16 (st j + 1) else st j.

Definition udp_bumps (ks : list udp_stat) (st : udp_stat -> Z) : udp_stat -> Z := foldl (fun st k => udp_bump k st) st ks.

Section recv.
Context {A E : Type} `{AllocatorSpec A} `{PacketHostSpec A E}.
Context (stale_flags : ptr -> Z) (custom : ptr -> option (M (pstate A) unit)).
Context (output : netif -> ptr -> Z -> M E Z) `{!IpLinkSpec A E output}.
Context (ip_frag : ptr -> Z -> Z -> M (ipst E) Z).
Context (recv_fn : Z -> Z -> Z -> ptr -> Z -> Z -> M (udpst E) unit).
Implicit Types (s : ipst E) (t : udpst E).

(** More of the packet hidden. *)
Lemma wp_hide_more s a ext p b x l data n m (Q : Z -> ipst E -> Prop) :
  holding s a ext p b x l data n -> 0 < m -> n + m <= len b -> n + m <= 32767 ->
  (forall s', holding s' a ext p b x l data (n + m) -> calm [] s s' -> Q 0 s') -> wp (on_pbuf (pbuf_header (Some p) (- m))) s Q.
Proof.
  intros Hs Hm Hl Hmax HQ. pose proof Hs as [Hn Ho [L Hu]]. destruct (un_len _ _ _ _ _ _ _ _ _ Hu) as (_ & Hlen & Htot).
  pose proof (un_n _ _ _ _ _ _ _ _ _ Hu) as Hn0. pose proof (un_payload _ _ _ _ _ _ _ _ _ Hu) as Hx. pose proof (un_top _ _ _ _ _ _ _ _ _ Hu) as Htop.
  assert (payload (moved b x (- n)) = Some (padd x n)) as Hx' by (cbn; by rewrite Z.opp_involutive). apply wp_on_pbuf. eexists _, _. split.
  { rewrite (pbuf_header_eq (host s) p _ (padd x n) (- m) Htop Hx') by (unfold is_u16; cbn; lia).
    rewrite (fits_less _ _ _ _ _ _ _ (un_real _ _ _ _ _ _ _ _ _ Hu) Htop Hx') by lia. reflexivity. }
  pose proof (moved_moved b x (- n) (- m) Hx) as Em. rewrite Z.opp_involutive in Em. rewrite Em. replace (- n + - m) with (- (n + m)) by lia. apply HQ.
  - split; [by apply nifs_arp|by apply ph_ok_set|]. exists L. rewrite host_with. cbn. rewrite ph_own_set. destruct Hu as [K1 K2 _ K4 K5].
    split; rewrite ?set_insert; try done; [apply lookup_insert_eq|lia].
  - split; [done|done|done|]. intros y j Hy. unfold room. by rewrite host_with.
Qed.

(** What is visible of the packet. *)
Lemma ho_visible s a ext p b x l data n : holding s a ext p b x l data n ->
  ip_inv s a ext /\ packet (host s) p (moved b x (- n)) (padd x n) l (list.drop (Z.to_nat n) data).
Proof. intros Hs. split; [by eapply ho_inv|]. destruct Hs as [_ _ [L Hu]]. by eapply un_visible. Qed.

(** ** Steps *)

(** What changed: the PCBs, the calls and the counters; nothing was sent. *)
Record upd (ks : list udp_stat) (l : udps) (cs : list delivery) t t1 : Prop := Upd {
  up_pcbs : u_pcbs t1 = l;
  up_calls : u_calls t1 = cs;
  up_stats : u_stats t1 = udp_bumps ks (u_stats t);
  up_calm : calm [] (u_ip t) (u_ip t1)
}.

Lemma upd_refl t : upd [] (u_pcbs t) (u_calls t) t t.
Proof. by split. Qed.

Lemma upd_ip ks l cs t t1 i : upd ks l cs t t1 -> calm [] (u_ip t1) i -> upd ks l cs t (set_u_ip i t1).
Proof. intros [K1 K2 K3 K4] Hc. split; try done. exact (calm_trans _ _ _ _ _ K4 Hc). Qed.

Lemma upd_set_pcbs ks l l' cs t t1 : upd ks l cs t t1 -> upd ks l' cs t (set_u_pcbs l' t1).
Proof. intros [K1 K2 K3 K4]. by split. Qed.

Lemma upd_trans ks1 ks2 l1 cs1 l cs t t1 t2 : upd ks1 l1 cs1 t t1 -> upd ks2 l cs t1 t2 -> upd (ks1 ++ ks2) l cs t t2.
Proof.
  intros [K1 K2 K3 K4] [K1' K2' K3' K4']. split; [done|done| |exact (calm_trans _ _ _ _ _ K4 K4')].
  rewrite K3', K3. unfold udp_bumps. by rewrite foldl_app.
Qed.

Lemma wp_udp_inc k ks l cs t t1 (Q : unit -> udpst E -> Prop) : upd ks l cs t t1 ->
  (forall t2, upd (ks ++ [k]) l cs t t2 -> u_ip t2 = u_ip t1 -> Q tt t2) -> wp (udp_inc k) t1 Q.
Proof.
  intros [K1 K2 K3 K4] HQ. unfold udp_inc. wp_step. apply HQ; [|done]. split; try done. cbn. unfold udp_bumps. rewrite foldl_app. cbn.
  unfold udp_bumps in K3. by rewrite <- K3.
Qed.

(** A step of IP. *)
Lemma wp_ip_step {B} ks l cs t t1 (m : M (ipst E) B) (P : B -> ipst E -> Prop) (Q : B -> udpst E -> Prop) :
  upd ks l cs t t1 -> wp m (u_ip t1) (fun b i => calm [] (u_ip t1) i /\ P b i) ->
  (forall b t2, upd ks l cs t t2 -> P b (u_ip t2) -> Q b t2) -> wp (on_ip m) t1 Q.
Proof.
  intros Hu Hm HQ. apply wp_on_ip. eapply wp_mono; [exact Hm|]. intros b i [Hc HP]. apply HQ; [by apply upd_ip|done].
Qed.

Lemma tail_wp {B} (m m' : M (udpst E) B) t P Q : tail m t m' P -> (forall t1, P t1 -> wp m' t1 Q) -> wp m t Q.
Proof. intros (t1 & HP & E0) Hw. destruct (Hw t1 HP) as (b & t2 & E1 & HQ). exists b, t2. by rewrite E0. Qed.

Lemma tail_trans {B} (m m' m2 : M (udpst E) B) t P Q : tail m t m' P -> (forall t1, P t1 -> tail m' t1 m2 Q) -> tail m t m2 Q.
Proof. intros (t1 & HP & E0) Hw. destruct (Hw t1 HP) as (t2 & HQ & E1). exists t2. by rewrite E0. Qed.

Lemma wp_udp_free ks l cs t t1 a ext ext' p (Q : unit -> udpst E -> Prop) : upd ks l cs t t1 -> ip_inv (u_ip t1) a ext -> ext ≡ₚ p :: ext' ->
  (forall t2, upd ks l cs t t2 -> ip_inv (u_ip t2) a ext' -> Q tt t2) -> wp (udp_free custom p) t1 Q.
Proof.
  intros Hu Hi He HQ. unfold udp_free. eapply wp_ip_step; [exact Hu|apply (wp_ip_free custom (u_ip t1) a ext ext' p (fun _ i => calm [] (u_ip t1) i /\ ip_inv i a ext') Hi He)|].
  - by intros i Hi' Hc.
  - intros [] t2 Hu2 Hi2. by apply HQ.
Qed.

Lemma wp_udp_drop k ks l cs t t1 a ext ext' p (Q : unit -> udpst E -> Prop) : upd ks l cs t t1 -> ip_inv (u_ip t1) a ext -> ext ≡ₚ p :: ext' ->
  (forall t2, upd (ks ++ [k; UDdrop]) l cs t t2 -> ip_inv (u_ip t2) a ext' -> Q tt t2) -> wp (udp_drop custom p k) t1 Q.
Proof.
  intros Hu Hi He HQ. unfold udp_drop. wp_step. eapply wp_udp_inc; [exact Hu|]. intros t2 Hu2 E2. wp_step. eapply wp_udp_inc; [exact Hu2|].
  intros t3 Hu3 E3. rewrite <- E2, <- E3 in Hi. rewrite <- app_assoc in Hu3. eapply wp_udp_free; [exact Hu3|exact Hi|exact He|done].
Qed.

(** ** A datagram that was received *)

(** The packet [p] that ip_input hands over holds the header [h], [opts] and [dg]. *)
Record received t a ext ext' p b x l h opts (dg : bytes) inp nif : Prop := Received {
  rc_inv : ip_inv (u_ip t) a ext;
  rc_ext : ext ≡ₚ p :: ext';
  rc_packet : packet (host (u_ip t)) p b x l ((hdr_bytes h ++ opts) ++ dg);
  rc_hdr : hdr_ok h;
  rc_hlen : IPH_HL h * 4 = zlen (hdr_bytes h ++ opts);
  rc_src : current_iphdr_src (u_ip t) = IpHdr.src h;
  rc_dst : current_iphdr_dest (u_ip t) = IpHdr.dest h;
  rc_nif : ab_tab a !! inp = Some nif;
  rc_first : zlen (hdr_bytes h ++ opts) <= len b
}.

(** Is the destination a broadcast address of the interface? *)
Definition is_broadcast (h : ip_hdr) (nif : netif) : bool := nz (ip4_addr_isbroadcast (IpHdr.dest h) nif).

Definition dgram_of (h : ip_hdr) (nif : netif) (sport dport : Z) : dgram :=
  Dgram (IpHdr.src h) sport (IpHdr.dest h) dport (is_broadcast h nif) (netmask nif).

(** A field of the UDP header, behind [u]. *)
Lemma ho_rd16 s a ext p b x l u w o v n : holding s a ext p b x l (u ++ w) n -> is_u16 v -> 0 <= o -> zlen u + o + 2 <= len b ->
  slice o 2 w = bytes16 v -> rd16 (padd x (zlen u + o)) (host s) = Done (v, host s).
Proof.
  intros Hs Hv Ho Hl Hw. apply rd16_ok; [done|]. pose proof (zlen_nonneg u).
  pose proof (ho_slice _ _ _ _ _ _ _ _ _ (zlen u + o) 2 Hs ltac:(lia) ltac:(lia) ltac:(lia)) as Hsl.
  rewrite (slice_r (zlen u + o) o) in Hsl by lia. rewrite Hw in Hsl. exact Hsl.
Qed.

Lemma udp_slices sport dport len c data :
  slice 0 2 (udp_bytes sport dport len c data) = bytes16 (lwip_htons sport) /\ slice 2 2 (udp_bytes sport dport len c data) = bytes16 (lwip_htons dport) /\
  slice 6 2 (udp_bytes sport dport len c data) = bytes16 c.
Proof. by split. Qed.

(** Steps that read, or change nothing of the packet. *)
Lemma wp_same {B} (m : M (ipst E) B) t (Q : B -> udpst E -> Prop) : wp m (u_ip t) (fun b i => i = u_ip t /\ Q b t) -> wp (on_ip m) t Q.
Proof. intros Hm. apply wp_on_ip. eapply wp_mono; [exact Hm|]. intros b i [-> HQ]. by destruct t. Qed.

(** The first byte of the IP header. *)
Lemma hl_byte s p b x l h opts dg : packet (host s) p b x l ((hdr_bytes h ++ opts) ++ dg) -> is_u8 (_v_hl h) -> 1 <= len b ->
  rdb x (host s) = Done (_v_hl h, host s).
Proof.
  intros Hk Hv Hl. pose proof (pkt_slice _ _ _ _ _ _ 0 1 Hk ltac:(lia) ltac:(lia) ltac:(lia)) as Hsl. rewrite padd_0 in Hsl.
  inversion Hsl as [|? ? ? ? E0 _]; subst. unfold rdb. rewrite get_bind, E0. unfold is_u8 in Hv. by rewrite Z.mod_small.
Qed.

(** udp_input as far as the search, on a datagram whose header is in the first pbuf. *)
Lemma front_ok t a ext ext' p b x l h opts sport dport ulen c data inp nif o hit l' :
  let u := hdr_bytes h ++ opts in
  let dg := udp_bytes sport dport ulen c data in
  received t a ext ext' p b x l h opts dg inp nif -> is_u16 sport -> is_u16 dport -> zlen u + 8 <= len b ->
  udp_demux (dgram_of h nif sport dport) (u_pcbs t) = Done ((o, hit), l') ->
  tail (udp_input stale_flags custom output ip_frag recv_fn p inp) t
    (if negb (bool_decide (o = None)) || (ip_addr nif =? IpHdr.dest h)
     then udp_accept stale_flags custom output ip_frag recv_fn p x (padd x (zlen u)) (zlen u) o sport (is_broadcast h nif) else udp_free custom p)
    (fun t1 => upd (UDrecv :: if hit then [UDcachehit] else []) l' (u_calls t) t t1 /\ holding (u_ip t1) a ext p b x l (u ++ dg) (zlen u)).
Proof.
  intros u dg [Hs Hext Hk Hh Hhl Hsrc Hdst Hnif _] Hsp Hdp Hl Hdemux. fold u in Hk, Hhl. assert (is_u8 (_v_hl h)) as Hv by apply Hh.
  assert (20 <= zlen u) as Hu20 by (unfold u; rewrite zlen_app, hdr_bytes_len; pose proof (zlen_nonneg opts); lia).
  destruct (hl_range h) as [_ Hu60]. rewrite Hhl in Hu60.
  assert (p ∈ ext) as Hp by (rewrite Hext; by left). pose proof Hs as [_ [_ [L Hi]]]. destruct (pkt_tot _ _ _ _ _ _ _ _ Hi Hk) as (Htl & _ & Hlt & _).
  unfold udp_input. apply tail_bind. eapply wp_udp_inc; [apply upd_refl|]. intros t1 Hu1 E1. rewrite <- E1 in Hs, Hk, Hsrc, Hdst. cbn [app] in Hu1.
  pose proof (pkt_lookup _ _ _ _ _ _ Hk) as Hb.
  apply tail_bind, wp_same. apply (wp_rd_payload _ _ b x); [exact Hb|exact (pkt_payload _ _ _ _ _ _ Hk)|]. split; [done|].
  apply tail_bind, wp_same. apply (wp_rdp_ip _ _ b); [exact Hb|]. split; [done|].
  apply tail_bind, wp_same. apply (wp_at _ (_v_hl h)); [apply (hl_byte _ p b x l h opts dg Hk Hv); lia|]. split; [done|].
  cbv zeta. change (Z.land (_v_hl h) 0x0f * 4) with (IPH_HL h * 4). rewrite Hhl. rewrite zlen_app in Htl. unfold dg in Htl at 1. rewrite udp_bytes_len in Htl.
  rewrite (proj2 (Z.ltb_ge _ _)) by (unfold UDP_HLEN; pose proof (zlen_nonneg data); lia). apply tail_bind. wp_step.
  eapply wp_ip_step; [exact Hu1|eapply (wp_hide _ a ext p b x l (u ++ dg) (zlen u) (fun r i => calm [] (u_ip t1) i /\ r = 0 /\ holding i a ext p b x l (u ++ dg) (zlen u)) Hs Hp Hk); try lia; by intros i Hi' Hc|].
  intros r t2 Hu2 [-> Hh2]. cbn [nz negb Z.eqb]. wp_step. apply tail_bind, wp_same. apply (wp_ho_payload _ _ _ _ _ _ _ _ _ _ Hh2). split; [done|].
  apply tail_bind, wp_same. apply (wp_rd_nif_ip _ a _ nif); [apply Hh2|done|]. split; [done|].
  assert (current_iphdr_src (u_ip t2) = IpHdr.src h /\ current_iphdr_dest (u_ip t2) = IpHdr.dest h) as [Hsrc2 Hdst2].
  { destruct (calm_addrs _ _ _ (up_calm _ _ _ _ _ Hu2)) as [-> ->]. by rewrite <- E1. }
  apply tail_bind. wp_step. rewrite Hsrc2, Hdst2. fold (is_broadcast h nif). destruct (udp_slices sport dport ulen c data) as (Hf0 & Hf2 & _).
  apply tail_bind, wp_same. apply (wp_at _ (lwip_htons sport)).
  { pose proof (ho_rd16 _ _ _ _ _ _ _ _ _ 0 _ _ Hh2 (htons_u16 sport) ltac:(lia) ltac:(lia) Hf0) as Hrd. by rewrite Z.add_0_r in Hrd. }
  split; [done|]. apply tail_bind, wp_same. apply (wp_at _ (lwip_htons dport)).
  { rewrite padd_padd. exact (ho_rd16 _ _ _ _ _ _ _ _ _ 2 _ _ Hh2 (htons_u16 dport) ltac:(lia) ltac:(lia) Hf2). }
  split; [done|]. unfold lwip_ntohs. rewrite !htons_invol by done. apply tail_bind, wp_on_pcbs. rewrite (up_pcbs _ _ _ _ _ Hu2).
  exists (o, hit), l'. split; [exact Hdemux|]. cbv beta iota zeta. apply tail_bind. pose proof (upd_set_pcbs _ _ l' _ _ _ Hu2) as Hu3.
  destruct hit; [eapply wp_udp_inc; [exact Hu3|]; intros t4 Hu4 E4|wp_step]; (destruct (negb _ || _); apply tail_here; (split; [done|])); by rewrite ?E4.
Qed.

(** The checksum of a datagram is right, or there is none. *)
Definition verified (src dst c : Z) (dg : bytes) : bool := (c =? 0) || (not16 (udp_sum src dst dg) =? 0).

Lemma wp_checksum ks l cs t t1 a ext p b x lst u sport dport ulen c data src dst :
  let dg := udp_bytes sport dport ulen c data in
  upd ks l cs t t1 -> holding (u_ip t1) a ext p b x lst (u ++ dg) (zlen u) -> current_iphdr_src (u_ip t1) = src -> current_iphdr_dest (u_ip t1) = dst ->
  is_u32 src -> is_u32 dst -> is_u16 c -> is_bytes data -> zlen u + 8 <= len b ->
  wp (c ← on_pkt (rd16 (padd (padd x (zlen u)) 6));
      (if nz c then s ← get; b ← on_pkt (rdp p);
         v ← on_pkt (pseudo_of_pbuf p (current_iphdr_src (u_ip s)) (current_iphdr_dest (u_ip s)) IP_PROTO_UDP (tot_len b)); mret (nz v)
       else mret false)) t1 (fun bad t2 => t2 = t1 /\ bad = negb (verified src dst c dg)).
Proof.
  intros dg Hu Hh Hsrc Hdst Hs32 Hd32 Hc Hb Hl. destruct (udp_slices sport dport ulen c data) as (_ & _ & Hf6).
  wp_step. apply wp_same. apply (wp_at _ c); [rewrite padd_padd; exact (ho_rd16 _ _ _ _ _ _ _ _ _ 6 _ _ Hh Hc ltac:(lia) ltac:(lia) Hf6)|].
  split; [done|]. unfold verified, nz. destruct (Z.eqb_spec c 0) as [E0|E0]; cbn [negb orb]; [by wp_step|].
  wp_step. wp_step. rewrite Hsrc, Hdst. wp_step. apply wp_same. apply (wp_ho_rdp _ _ _ _ _ _ _ _ _ _ Hh). split; [done|].
  destruct (ho_visible _ _ _ _ _ _ _ _ _ Hh) as [[_ [_ [L Hi]]] Hk]. rewrite drop_app_length' in Hk by (unfold zlen; lia).
  destruct (pkt_tot _ _ _ _ _ _ _ _ Hi Hk) as (-> & _ & _ & Hmax). wp_step. apply wp_same. apply (wp_at _ (not16 (udp_sum src dst dg))).
  { apply (pkt_pseudo _ _ _ _ _ _ _ _ _ _ _ _ Hi Hk); try done. by apply udp_bytes_bytes. }
  split; [done|]. wp_step. split; [done|]. unfold nz. done.
Qed.

Lemma udp_accept_ok ks l cs t t1 a ext p b x lst u sport dport ulen c data src dst o bc :
  let dg := udp_bytes sport dport ulen c data in
  upd ks l cs t t1 -> holding (u_ip t1) a ext p b x lst (u ++ dg) (zlen u) -> current_iphdr_src (u_ip t1) = src -> current_iphdr_dest (u_ip t1) = dst ->
  is_u32 src -> is_u32 dst -> is_u16 c -> is_bytes data -> zlen u + 8 <= len b -> zlen u <= 60 ->
  tail (udp_accept stale_flags custom output ip_frag recv_fn p x (padd x (zlen u)) (zlen u) o sport bc) t1
    (if verified src dst c dg then
       match o with
       | Some pcb => udp_deliver custom recv_fn pcb p sport
       | None => udp_no_port stale_flags custom output ip_frag p x (zlen u) bc
       end
     else udp_drop custom p UDchkerr)
    (fun t2 => upd ks l cs t t2 /\ holding (u_ip t2) a ext p b x lst (u ++ dg) (if verified src dst c dg then zlen u + 8 else zlen u)).
Proof.
  intros dg Hu Hh Hsrc Hdst Hs32 Hd32 Hc Hb Hl Hu60. unfold udp_accept.
  destruct (wp_checksum ks l cs t t1 a ext p b x lst u sport dport ulen c data src dst Hu Hh Hsrc Hdst Hs32 Hd32 Hc Hb Hl) as (bad & t2 & E0 & -> & Eb).
  destruct (bind_inv _ _ _ _ E0) as (c' & t2 & E1 & E2). apply tail_bind. exists c', t2. split; [exact E1|]. apply tail_bind.
  exists bad, t1. split; [exact E2|]. fold dg in Eb. rewrite Eb. destruct (verified src dst c dg); cbn [negb]; [|by apply tail_here].
  apply tail_bind.
  eapply wp_ip_step; [exact Hu|eapply (wp_hide_more _ a ext p b x lst (u ++ dg) (zlen u) UDP_HLEN (fun r i => calm [] (u_ip t1) i /\ r = 0 /\
    holding i a ext p b x lst (u ++ dg) (zlen u + 8)) Hh); [done|done|unfold UDP_HLEN; lia|by intros i Hi' Hc']|].
  intros r t3 Hu3 [-> Hh3]. cbn [nz negb Z.eqb]. destruct o; by apply tail_here.
Qed.

(** The receive function is called with the data. *)
Lemma deliver_ok ks l cs t t1 a ext p b x lst (w : bytes) n (data : bytes) pcb nd f sport src :
  upd ks l cs t t1 -> holding (u_ip t1) a ext p b x lst w n -> list.drop (Z.to_nat n) w = data -> pcbs l !! pcb = Some nd ->
  recv (pn_pcb nd) = Some f -> current_iphdr_src (u_ip t1) = src ->
  tail (udp_deliver custom recv_fn pcb p sport) t1 (recv_fn f (recv_arg (pn_pcb nd)) pcb p src sport)
    (fun t2 => upd ks l (cs ++ [Delivery f (recv_arg (pn_pcb nd)) pcb (Some data) src sport]) t t2 /\ ip_inv (u_ip t2) a ext /\
       packet (host (u_ip t2)) p (moved b x (- n)) (padd x n) lst data).
Proof.
  intros Hu Hh Hd Hn Hf Hsrc. unfold udp_deliver. apply tail_bind, wp_on_pcbs. rewrite (up_pcbs _ _ _ _ _ Hu). unfold rd_pcb. wp_step.
  apply (wp_rd_pnode _ _ nd); [done|]. wp_step. rewrite Hf. assert (set_u_pcbs l t1 = t1) as -> by (destruct Hu as [<- _ _ _]; by destruct t1).
  apply tail_bind. wp_step. apply tail_bind. wp_step. rewrite Hsrc. apply tail_here.
  destruct (ho_visible _ _ _ _ _ _ _ _ _ Hh) as [Hi Hk]. rewrite Hd in Hk. rewrite (pkt_bytes _ _ _ _ _ _ Hk). destruct Hu as [K1 K2 K3 K4].
  split; [|by split]. split; try done. cbn. by rewrite K2.
Qed.

Lemma no_recv_ok ks l cs t t1 a ext ext' p pcb nd sport : upd ks l cs t t1 -> ip_inv (u_ip t1) a ext -> ext ≡ₚ p :: ext' ->
  pcbs l !! pcb = Some nd -> recv (pn_pcb nd) = None ->
  wp (udp_deliver custom recv_fn pcb p sport) t1 (fun _ t2 => upd ks l cs t t2 /\ ip_inv (u_ip t2) a ext').
Proof.
  intros Hu Hi He Hn Hf. unfold udp_deliver. wp_step. apply wp_on_pcbs. rewrite (up_pcbs _ _ _ _ _ Hu). unfold rd_pcb. wp_step.
  apply (wp_rd_pnode _ _ nd); [done|]. wp_step. rewrite Hf. assert (set_u_pcbs l t1 = t1) as -> by (destruct Hu as [<- _ _ _]; by destruct t1).
  by eapply wp_udp_free.
Qed.

(** Nobody has the port: an ICMP message with the start of the datagram, when there is
    memory for it and the destination is one host. *)
Definition port_unreachable (h : ip_hdr) (w : bytes) (id : Z) (n : Z) (out : netif) : sent :=
  let orig := take 28 w in
  Sent n (IpHdr.src h) (Some (hdr_bytes (new_header 56 id None (IpHdr.src h) ICMP_TTL 0 IP_PROTO_ICMP out) ++
    error_msg ICMP_DUR ICMP_DUR_PORT (error_chksum ICMP_DUR ICMP_DUR_PORT orig) orig)).

(** The source of the datagram can be answered. *)
Record answerable (a : nabs) (h : ip_hdr) n out : Prop := Answerable {
  an_route : route_of a (IpHdr.src h) = Some n;
  an_nif : ab_tab a !! n = Some out;
  an_il : il_nif out;
  an_mtu : fits_mtu out 56;
  an_addr : is_u32 (ip_addr out)
}.

Lemma counters_free ks1 t t1 l cs a ext ext' p ks (Q : unit -> udpst E -> Prop) :
  u_pcbs t1 = l -> u_calls t1 = cs -> u_stats t1 = udp_bumps ks (u_stats t) -> ip_inv (u_ip t1) a ext -> ext ≡ₚ p :: ext' -> ks1 = ks ++ [UDproterr; UDdrop] ->
  (forall t2, u_pcbs t2 = l -> u_calls t2 = cs -> u_stats t2 = udp_bumps ks1 (u_stats t) -> ip_inv (u_ip t2) a ext' ->
     calm [] (u_ip t1) (u_ip t2) -> Q tt t2) ->
  wp (udp_inc UDproterr;; udp_inc UDdrop;; udp_free custom p) t1 Q.
Proof.
  intros Kp Kc Ks Hi He -> HQ. wp_step. eapply wp_udp_inc; [apply upd_refl|]. intros t2 Hu2 E2. wp_step. eapply wp_udp_inc; [exact Hu2|].
  intros t3 Hu3 E3. rewrite <- E2, <- E3 in Hi. eapply wp_udp_free; [exact Hu3|exact Hi|exact He|]. intros t4 [K1 K2 K3 K4] Hi4.
  apply HQ; [congruence|congruence| |done|done]. rewrite K3, Ks. unfold udp_bumps. by rewrite !foldl_app.
Qed.

Lemma no_port_ok ks l cs t t1 a ext ext' p b x lst h opts sport dport ulen c data n out bc :
  let u := hdr_bytes h ++ opts in
  let w := u ++ udp_bytes sport dport ulen c data in
  upd ks l cs t t1 -> holding (u_ip t1) a ext p b x lst w (zlen u + 8) -> ext ≡ₚ p :: ext' -> is_bytes w -> zlen u <= 60 -> hdr_ok h ->
  current_iphdr_dest (u_ip t1) = IpHdr.dest h -> heap_there (host (u_ip t1)) -> answerable a h n out ->
  wp (udp_no_port stale_flags custom output ip_frag p x (zlen u) bc) t1 (fun _ t2 => ip_inv (u_ip t2) a ext' /\
    u_pcbs t2 = l /\ u_calls t2 = cs /\ u_stats t2 = udp_bumps (ks ++ [UDproterr; UDdrop]) (u_stats t) /\
    if bc || ip_addr_ismulticast (IpHdr.dest h) then ip_out (u_ip t2) = ip_out (u_ip t)
    else (exists k, no_memory stale_flags custom k /\ ip_out (u_ip t2) = ip_out (u_ip t)) \/
         ip_out (u_ip t2) = ip_out (u_ip t) ++ [port_unreachable h w (ip_id (u_ip t)) n out]).
Proof.
  intros u w Hu Hh Hext Hb Hu60 Hhdr Hdst Hheap [Hr Hn Hil Hmtu Hadr]. pose proof (zlen_nonneg opts) as Ho0.
  assert (20 <= zlen u) as Hu20 by (unfold u; rewrite zlen_app, hdr_bytes_len; lia). pose proof (up_calm _ _ _ _ _ Hu) as [_ Hid Hout _].
  unfold udp_no_port. wp_step. wp_step. rewrite Hdst. destruct Hu as [K1 K2 K3 K4].
  destruct (bc || ip_addr_ismulticast (IpHdr.dest h)) eqn:Em.
  - apply orb_true_iff in Em. wp_step. assert (negb bc && negb (ip_addr_ismulticast (IpHdr.dest h)) = false) as -> by (destruct bc, (ip_addr_ismulticast _), Em; done).
    wp_step. eapply (counters_free _ t t1 l cs a ext ext' p ks); try done; [exact (proj1 (ho_visible _ _ _ _ _ _ _ _ _ Hh))|].
    intros t2 Kp Kc Ks Hi [_ _ Ho _]. split; [done|]. split; [done|]. split; [done|]. split; [done|]. by rewrite Ho.
  - apply orb_false_iff in Em as [-> ->]. cbn [negb andb]. wp_step. wp_step. apply wp_on_ip.
    eapply (wp_ho_reveal _ _ _ _ _ _ _ _ _ _ Hh); [unfold UDP_HLEN; lia|]. intros s2 Hs2 Hk2 C2. unfold on_pkt. wp_step. apply wp_on_ip.
    pose proof (pkt_lookup _ _ _ _ _ _ Hk2) as Hlk. pose proof (pkt_payload _ _ _ _ _ _ Hk2) as Hpy.
    apply (wp_rdp_ip _ _ b); [exact Hlk|]. wp_step. apply wp_assert; [by rewrite bool_decide_true|]. apply wp_on_ip. cbn [u_ip set_u_ip].
    assert (zlen u + 8 <= len b) as Hlen by (destruct Hh as [_ _ [L Hun]]; pose proof (un_n _ _ _ _ _ _ _ _ _ Hun); lia).
    pose proof (pkt_slice _ _ _ _ _ _ 0 28 Hk2 ltac:(lia) ltac:(lia) ltac:(lia)) as Ho. rewrite padd_0 in Ho. change (slice 0 28 w) with (take 28 w) in Ho.
    unfold icmp_dest_unreach. eapply wp_mono; [eapply (send_response_ok stale_flags custom output ip_frag s2 a ext p b x (take 28 w) h (take 8 (opts ++ udp_bytes sport dport ulen c data))
      ICMP_DUR ICMP_DUR_PORT n out Hs2 Hlk Hpy (pkt_type _ _ _ _ _ _ Hk2) ltac:(lia) Ho (Forall_take _ 28 _ Hb)); try done|].
    + apply Hhdr.
    + exact (heap_kept _ _ (ca_room _ _ _ C2) Hheap).
    + intros [] s3 (Hs3 & Hpost). cbv beta.
      eapply (counters_free _ t _ l cs a ext ext' p ks); [done|done|done|exact Hs3|exact Hext|done|]. intros t2 Kp Kc Ks Hi [_ _ Ho2 _].
      split; [done|]. split; [done|]. split; [done|]. split; [done|]. rewrite Ho2. cbn [u_ip set_u_ip]. destruct Hpost as [[Hm [_ _ Ho3 _]]|[_ Ho3]]; [left|right].
      * exists (host s2). split; [exact Hm|]. by rewrite Ho3, (ca_out _ _ _ C2).
      * by rewrite Ho3, (ca_out _ _ _ C2), (ca_id _ _ _ C2), Hid, Hout.
Qed.

(** Less than a header. *)
Lemma short_ok t a ext ext' p b x l h opts dg inp nif :
  received t a ext ext' p b x l h opts dg inp nif -> zlen dg < 8 ->
  wp (udp_input stale_flags custom output ip_frag recv_fn p inp) t (fun _ t1 =>
    upd [UDrecv; UDlenerr; UDdrop] (u_pcbs t) (u_calls t) t t1 /\ ip_inv (u_ip t1) a ext').
Proof.
  intros [Hs Hext Hk Hh Hhl Hsrc Hdst Hnif Hl] Hdg. set (u := hdr_bytes h ++ opts) in *. assert (is_u8 (_v_hl h)) as Hv by apply Hh.
  assert (20 <= zlen u) as Hu20 by (unfold u; rewrite zlen_app, hdr_bytes_len; pose proof (zlen_nonneg opts); lia).
  pose proof Hs as [_ [_ [L Hi]]]. destruct (pkt_tot _ _ _ _ _ _ _ _ Hi Hk) as (Htl & _ & Hlt & _).
  unfold udp_input. wp_step. eapply wp_udp_inc; [apply upd_refl|]. intros t1 Hu1 E1. rewrite <- E1 in Hs, Hk. cbn [app] in Hu1.
  pose proof (pkt_lookup _ _ _ _ _ _ Hk) as Hb.
  wp_step. apply wp_same. apply (wp_rd_payload _ _ b x); [exact Hb|exact (pkt_payload _ _ _ _ _ _ Hk)|]. split; [done|].
  wp_step. apply wp_same. apply (wp_rdp_ip _ _ b); [exact Hb|]. split; [done|].
  wp_step. apply wp_same. apply (wp_at _ (_v_hl h)); [apply (hl_byte _ p b x l h opts dg Hk Hv); lia|]. split; [done|].
  cbv zeta. change (Z.land (_v_hl h) 0x0f * 4) with (IPH_HL h * 4). rewrite Hhl. rewrite zlen_app in Htl.
  rewrite (proj2 (Z.ltb_lt _ _)) by (unfold UDP_HLEN; lia). wp_step. wp_step.
  eapply wp_udp_drop; [exact Hu1|exact Hs|exact Hext|]. by intros t2 Hu2 Hi2.
Qed.

Lemma wp_unit {S} (m : M S unit) (k : S) (P : S -> Prop) : wp m k (fun _ k' => P k') -> exists k', m k = Done (tt, k') /\ P k'.
Proof. intros ([] & k' & E0 & HP). by exists k'. Qed.

(** A datagram that is taken by a PCB. *)
Lemma input_delivers t a ext ext' p b x l h opts sport dport ulen c data inp nif pcb hit l' nd f :
  let u := hdr_bytes h ++ opts in
  let dg := udp_bytes sport dport ulen c data in
  received t a ext ext' p b x l h opts dg inp nif -> is_u16 sport -> is_u16 dport -> is_u16 c -> is_bytes data -> zlen u + 8 <= len b ->
  udp_demux (dgram_of h nif sport dport) (u_pcbs t) = Done ((Some pcb, hit), l') -> verified (IpHdr.src h) (IpHdr.dest h) c dg = true ->
  pcbs l' !! pcb = Some nd -> recv (pn_pcb nd) = Some f ->
  exists t1, upd (UDrecv :: if hit then [UDcachehit] else []) l' (u_calls t ++ [Delivery f (recv_arg (pn_pcb nd)) pcb (Some data) (IpHdr.src h) sport]) t t1 /\
    ip_inv (u_ip t1) a ext /\ packet_bytes (host (u_ip t1)) p = Some data /\
    udp_input stale_flags custom output ip_frag recv_fn p inp t = recv_fn f (recv_arg (pn_pcb nd)) pcb p (IpHdr.src h) sport t1.
Proof.
  intros u dg Hrc Hsp Hdp Hc Hbd Hl Ed Hv Hnd Hf.
  destruct (front_ok t a ext ext' p b x l h opts sport dport ulen c data inp nif (Some pcb) hit l' Hrc Hsp Hdp Hl Ed) as (t1 & [Hu1 Hh1] & E1).
  cbn [negb orb] in E1. rewrite bool_decide_false in E1 by done. cbn [negb orb] in E1. pose proof Hrc as [Hs Hext Hk Hh Hhl Hsrc Hdst Hnif _].
  fold u dg in Hk, Hhl, E1, Hh1. assert (zlen u <= 60) as Hu60 by (destruct (hl_range h) as [_ Hu60]; rewrite Hhl in Hu60; done).
  assert (is_u32 (IpHdr.src h) /\ is_u32 (IpHdr.dest h)) as [Hs32 Hd32] by (by split; apply Hh).
  destruct (calm_addrs _ _ _ (up_calm _ _ _ _ _ Hu1)) as [Es Ed1]. rewrite Hsrc in Es. rewrite Hdst in Ed1.
  destruct (udp_accept_ok _ l' _ t t1 a ext p b x l u sport dport ulen c data (IpHdr.src h) (IpHdr.dest h) (Some pcb) (is_broadcast h nif) Hu1 Hh1 Es Ed1 Hs32 Hd32 Hc Hbd Hl Hu60)
    as (t2 & [Hu2 Hh2] & E2). rewrite E2 in E1. fold dg in E1, Hh2. rewrite Hv in E1, Hh2. clear E2.
  destruct (calm_addrs _ _ _ (up_calm _ _ _ _ _ Hu2)) as [Es2 _]. rewrite Hsrc in Es2.
  destruct (deliver_ok _ l' _ t t2 a ext p b x l (u ++ dg) (zlen u + 8) data pcb nd f sport (IpHdr.src h) Hu2 Hh2) as (t3 & (Hu3 & Hi3 & Hk3) & E3); try done.
  { rewrite Z2Nat.inj_add by (lia || apply zlen_nonneg). rewrite <- drop_drop, drop_app_length' by (unfold zlen; lia). reflexivity. }
  exists t3. split; [exact Hu3|]. split; [exact Hi3|]. split; [exact (pkt_bytes _ _ _ _ _ _ Hk3)|]. by rewrite E1.
Qed.

(** ** What becomes of a datagram *)

(** C13: udp_input on a datagram whose header is in the first pbuf.  The search runs on the PCBs that there
    are.  Without a PCB, a datagram that is not for the address of the interface is
    given up; one whose checksum is there and wrong is given up and counted; otherwise
    the receive function of the PCB gets the packet with the data of the datagram and
    nothing else, the address and the port of the sender; and when there is no PCB, what is sent is a
    port unreachable message with the start of the datagram, unless the destination is
    broadcast or multicast or there is no memory. *)
Theorem udp_input_fate t a ext ext' p b x l h opts sport dport ulen c data inp nif :
  let u := hdr_bytes h ++ opts in
  let dg := udp_bytes sport dport ulen c data in
  received t a ext ext' p b x l h opts dg inp nif -> ureach (u_pcbs t) -> is_u16 sport -> is_u16 dport -> is_u16 c -> is_bytes opts -> is_bytes data ->
  zlen u + 8 <= len b ->
  exists o hit l', udp_demux (dgram_of h nif sport dport) (u_pcbs t) = Done ((o, hit), l') /\ ureach l' /\
  let ks := UDrecv :: if hit then [UDcachehit] else [] in
  let run := udp_input stale_flags custom output ip_frag recv_fn p inp t in
  if bool_decide (o = None) && negb (ip_addr nif =? IpHdr.dest h) then
    exists t', run = Done (tt, t') /\ upd ks l' (u_calls t) t t' /\ ip_inv (u_ip t') a ext'
  else if negb (verified (IpHdr.src h) (IpHdr.dest h) c dg) then
    exists t', run = Done (tt, t') /\ upd (ks ++ [UDchkerr; UDdrop]) l' (u_calls t) t t' /\ ip_inv (u_ip t') a ext'
  else
    match o with
    | Some pcb => exists nd, pcbs l' !! pcb = Some nd /\ accepts (dgram_of h nif sport dport) (pn_pcb nd) = true /\
        match recv (pn_pcb nd) with
        | Some f => exists t1, upd ks l' (u_calls t ++ [Delivery f (recv_arg (pn_pcb nd)) pcb (Some data) (IpHdr.src h) sport]) t t1 /\
            ip_inv (u_ip t1) a ext /\ packet_bytes (host (u_ip t1)) p = Some data /\
            run = recv_fn f (recv_arg (pn_pcb nd)) pcb p (IpHdr.src h) sport t1
        | None => exists t', run = Done (tt, t') /\ upd ks l' (u_calls t) t t' /\ ip_inv (u_ip t') a ext'
        end
    | None => forall n out, heap_there (host (u_ip t)) -> answerable a h n out ->
        exists t', run = Done (tt, t') /\ ip_inv (u_ip t') a ext' /\ u_pcbs t' = l' /\ u_calls t' = u_calls t /\
          u_stats t' = udp_bumps (ks ++ [UDproterr; UDdrop]) (u_stats t) /\
          if is_broadcast h nif || ip_addr_ismulticast (IpHdr.dest h) then ip_out (u_ip t') = ip_out (u_ip t)
          else (exists k, no_memory stale_flags custom k /\ ip_out (u_ip t') = ip_out (u_ip t)) \/
               ip_out (u_ip t') = ip_out (u_ip t) ++ [port_unreachable h (u ++ dg) (ip_id (u_ip t)) n out]
    end.
Proof.
  intros u dg Hrc Hr Hsp Hdp Hc Hbo Hbd Hl. destruct (demux_live _ (dgram_of h nif sport dport) Hr) as (o & hit & l' & Ed & Hr' & _ & Ho).
  exists o, hit, l'. split; [exact Ed|]. split; [exact Hr'|]. intros ks run.
  destruct (front_ok t a ext ext' p b x l h opts sport dport ulen c data inp nif o hit l' Hrc Hsp Hdp Hl Ed) as (t1 & [Hu1 Hh1] & E1).
  fold run in E1. pose proof Hrc as [Hs Hext Hk Hh Hhl Hsrc Hdst Hnif _]. fold u dg in Hk, Hhl, E1, Hh1.
  assert (zlen u <= 60) as Hu60 by (destruct (hl_range h) as [_ Hu60]; rewrite Hhl in Hu60; done). assert (is_u32 (IpHdr.src h) /\ is_u32 (IpHdr.dest h)) as [Hs32 Hd32] by (by split; apply Hh).
  assert (negb (bool_decide (o = None)) || (ip_addr nif =? IpHdr.dest h) = negb (bool_decide (o = None) && negb (ip_addr nif =? IpHdr.dest h))) as Et
    by (by rewrite negb_andb, negb_involutive). rewrite Et in E1.
  destruct (bool_decide (o = None) && negb (ip_addr nif =? IpHdr.dest h)); cbn [negb] in E1.
  { rewrite E1. apply wp_unit. eapply wp_udp_free; [exact Hu1|exact (proj1 (ho_visible _ _ _ _ _ _ _ _ _ Hh1))|exact Hext|]. by intros t2 Hu2 Hi2. }
  destruct (calm_addrs _ _ _ (up_calm _ _ _ _ _ Hu1)) as [Es Ed1]. rewrite Hsrc in Es. rewrite Hdst in Ed1.
  destruct (udp_accept_ok ks l' _ t t1 a ext p b x l u sport dport ulen c data (IpHdr.src h) (IpHdr.dest h) o (is_broadcast h nif) Hu1 Hh1 Es Ed1 Hs32 Hd32 Hc Hbd Hl Hu60)
    as (t2 & [Hu2 Hh2] & E2). rewrite E2 in E1. fold dg in E1, Hh2. clear E2.
  destruct (verified (IpHdr.src h) (IpHdr.dest h) c dg) eqn:Ev; cbn [negb].
  2:{ rewrite E1. apply wp_unit. eapply wp_udp_drop; [exact Hu2|exact (proj1 (ho_visible _ _ _ _ _ _ _ _ _ Hh2))|exact Hext|]. by intros t3 Hu3 Hi3. }
  destruct (calm_addrs _ _ _ (up_calm _ _ _ _ _ Hu2)) as [Es2 Ed2]. rewrite Hsrc in Es2. rewrite Hdst in Ed2.
  destruct o as [pcb|].
  - destruct Ho as (nd & Hnd & Hacc). exists nd. split; [exact Hnd|]. split; [exact Hacc|]. destruct (recv (pn_pcb nd)) as [f|] eqn:Ef.
    + by apply (input_delivers t a ext ext' p b x l h opts sport dport ulen c data inp nif).
    + rewrite E1. apply wp_unit. eapply no_recv_ok; [exact Hu2|exact (proj1 (ho_visible _ _ _ _ _ _ _ _ _ Hh2))|exact Hext|exact Hnd|exact Ef].
  - intros n out Hheap Han. rewrite E1. apply wp_unit, (no_port_ok ks l' (u_calls t) t t2 a ext ext' p b x l h opts sport dport ulen c data n out); try done.
    + apply is_bytes_app. split; [apply is_bytes_app; split; [apply hdr_bytes_u8|done]|by apply udp_bytes_bytes].
    + exact (heap_kept _ _ (ca_room _ _ _ (up_calm _ _ _ _ _ Hu2)) Hheap).
Qed.
End recv.
