(* ===== verification/UdpTrip.v ===== *)
(** * From one host to the other

    What udp_sendto hands to the interface makes udp_input on the host it is for call the
    receive function of the PCB bound there, with the same data; and witnesses, over the
    stack at boot. *)

From S2P Require Import Prelude ByteOrder Chksum Memp Alloc Pbuf AllocImpl PbufSpec PbufData PbufOwn IpAddr IpHdr Etharp EtharpTable EtharpOps EtharpSpec EtharpPbuf Netif NetifSpec NetifEtharp Ip IpPacket IpOut Icmp IpSteps IcmpSpec IpInput IpInputSpec IcmpError IpEtharp UdpPcb UdpPcbSpec Udp UdpSend UdpRecv.

Section trip.
Context {A E : Type} `{AllocatorSpec A} `{PacketHostSpec A E}.
Context (stale_flags : ptr -> Z) (custom : ptr -> option (M (pstate A) unit)).
Context (output : netif -> ptr -> Z -> M E Z) `{!IpLinkSpec A E output}.
Context (ip_frag : ptr -> Z -> Z -> M (ipst E) Z).
Context (recv_fn : Z -> Z -> Z -> ptr -> Z -> Z -> M (udpst E) unit).
Implicit Types (t : udpst E).

(** A host with a PCB bound to the destination of a datagram from [src]:[sport], for one
    host, that it has a receive function for. *)
Record listens t h nif sport dport pcb nd f : Prop := Listens {
  li_reach : ureach (u_pcbs t);
  li_pcb : pcbs (u_pcbs t) !! pcb = Some nd;
  li_recv : recv (pn_pcb nd) = Some f;
  li_unicast : is_broadcast h nif = false;
  li_match : accepts (dgram_of h nif sport dport) (pn_pcb nd) = true
}.

(** C7: UDP carries data from host to host.  What udp_sendto hands to the interface on the route
    is an IPv4 header with a right checksum, from the address of the interface to the
    destination, and a datagram.  When a host receives that datagram, behind any IP header
    with those addresses, and has a PCB bound to its destination that takes datagrams
    from this sender, udp_input calls the receive function of that PCB, once, with exactly
    the bytes that were given to udp_sendto, the address and the local port of the
    sender.  A PCB without a local port gets one first. *)
Theorem udp_roundtrip t a ext p b x l data i nif pcb n dst dport :
  sendable_data (u_ip t) a ext p b x l data -> route_of a dst = Some i -> udp_link_ok output a i nif dst (zlen data) ->
  ureach (u_pcbs t) -> pcbs (u_pcbs t) !! pcb = Some n -> source_ok (pn_pcb n) nif -> is_u8 (ttl (pn_pcb n)) -> is_u8 (tos (pn_pcb n)) ->
  is_u16 dport -> dport <> 0 ->
  exists r t' n' hdr c dg, udp_sendto stale_flags custom output ip_frag pcb p dst dport t = Done (r, t') /\
    ip_inv (u_ip t') a ext /\ pcbs (u_pcbs t') !! pcb = Some n' /\ local_port (pn_pcb n') <> 0 /\
    (local_port (pn_pcb n) <> 0 -> n' = n) /\
    ip_out (u_ip t') = ip_out (u_ip t) ++ [Sent i dst (Some (hdr_bytes hdr ++ dg))] /\
    dg = udp_bytes (local_port (pn_pcb n')) dport (8 + zlen data) c data /\
    (forall addr, inet_chksum addr (hdr_bytes hdr) = 0) /\ _proto hdr = IP_PROTO_UDP /\ IpHdr.src hdr = ip_addr nif /\ IpHdr.dest hdr = dst /\
    forall t2 a2 ext2 ext2' q bq y lq h opts inp nif2 pcb2 nd f,
      received t2 a2 ext2 ext2' q bq y lq h opts dg inp nif2 -> is_bytes opts -> IpHdr.src h = IpHdr.src hdr -> IpHdr.dest h = IpHdr.dest hdr ->
      zlen (hdr_bytes h ++ opts) + 8 <= len bq -> listens t2 h nif2 (local_port (pn_pcb n')) dport pcb2 nd f ->
      exists t3, udp_input stale_flags custom output ip_frag recv_fn q inp t2 =
          recv_fn f (recv_arg (pn_pcb nd)) pcb2 q (ip_addr nif) (local_port (pn_pcb n')) t3 /\
        u_calls t3 = u_calls t2 ++ [Delivery f (recv_arg (pn_pcb nd)) pcb2 (Some data) (ip_addr nif) (local_port (pn_pcb n'))] /\
        ip_inv (u_ip t3) a2 ext2 /\ packet_bytes (host (u_ip t3)) q = Some data.
Proof.
  intros Hsd Hroute Hlk Hr Hn Hsrc Httl Htos Hdp Hdp0. pose proof Hsd as [Hs _ Hk Hb _ Htot _]. pose proof Hs as [_ [_ [L Hi]]].
  destruct (pkt_tot _ _ _ _ _ _ _ _ Hi Hk) as (Htz & _). pose proof Hlk as [_ _ [Hadr _] Hdst _].
  destruct (udp_sendto_ok stale_flags custom output ip_frag t a ext p b x l data i nif pcb n dst dport Hsd Hroute Hlk Hr Hn Hsrc Httl Htos)
    as (r & t' & E0 & Hs' & _ & _ & Hkeep & n' & Hn' & Hp0 & Hpu & Epcb & Hout).
  assert (zlen data <= 0xffff - 8) as Hl by lia. set (c := sent_chksum (pn_pcb n') (ip_addr nif) dst dport data).
  exists r, t', n', (new_header (8 + zlen data + IP_HLEN) (ip_id (u_ip t)) (Some (ip_addr nif)) dst (ttl (pn_pcb n')) (tos (pn_pcb n')) IP_PROTO_UDP nif), c,
    (udp_bytes (local_port (pn_pcb n')) dport (8 + zlen data) c data).
  assert (ttl (pn_pcb n') = ttl (pn_pcb n) /\ tos (pn_pcb n') = tos (pn_pcb n)) as [Ettl Etos] by (rewrite Epcb; by split).
  assert (source (Some (ip_addr nif)) nif = ip_addr nif) as Esrc by (unfold source; by destruct (ip_addr_isany _)).
  split; [exact E0|]. split; [exact Hs'|]. split; [exact Hn'|]. split; [exact Hp0|].
  split; [intros Hq; specialize (Hkeep Hq); congruence|]. split.
  { exact Hout. }
  split; [done|].
  split; [apply new_header_ok; rewrite ?Ettl, ?Etos, ?Esrc; done|]. split; [done|]. split; [exact Esrc|]. split; [done|].
  intros t2 a2 ext2 ext2' q bq y lq h opts inp nif2 pcb2 nd f Hrc Hbo Hsh Hdh Hlen [Lr Lp Lf Lu Lm].
  change (IpHdr.src h = source (Some (ip_addr nif)) nif) in Hsh. rewrite Esrc in Hsh. change (IpHdr.dest h = dst) in Hdh.
  assert (is_u16 c /\ verified (IpHdr.src h) (IpHdr.dest h) c (udp_bytes (local_port (pn_pcb n')) dport (8 + zlen data) c data) = true) as [Hc Hv].
  { unfold verified, c, sent_chksum. destruct (unchecked (pn_pcb n')); [done|]. destruct (udp_chksum_u16 (ip_addr nif) dst (local_port (pn_pcb n')) dport data) as [Hcu _].
    split; [exact Hcu|]. rewrite Hsh, Hdh. fold (datagram (ip_addr nif) dst (local_port (pn_pcb n')) dport data). rewrite datagram_ok by done. apply orb_true_r. }
  set (d := dgram_of h nif2 (local_port (pn_pcb n')) dport) in *. unfold accepts in Lm. apply andb_true_iff in Lm as [Lm1 Lm2].
  destruct (demux_only _ d pcb2 nd Lr Lu Hdp0 Lp Lm1) as [_ (hit & l2 & Ed)]. rewrite Lm2 in Ed.
  destruct (demux_live _ d Lr) as (o & hit' & l2' & Ed' & _ & Etab & _). rewrite Ed in Ed'. injection Ed' as <- <- <-.
  assert (exists nd', pcbs l2 !! pcb2 = Some nd' /\ pn_pcb nd' = pn_pcb nd) as (nd' & Hnd' & End).
  { assert ((pn_pcb <$> pcbs l2) !! pcb2 = Some (pn_pcb nd)) as Hx by (by rewrite Etab, lookup_fmap, Lp). rewrite lookup_fmap in Hx.
    destruct (pcbs l2 !! pcb2) as [nd'|]; [|done]. injection Hx as Hx. by exists nd'. }
  destruct (input_delivers stale_flags custom output ip_frag recv_fn t2 a2 ext2 ext2' q bq y lq h opts _ dport (8 + zlen data) c data inp nif2 pcb2 hit l2 nd' f Hrc Hpu Hdp Hc Hb Hlen Ed Hv Hnd'
    ltac:(by rewrite End)) as (t3 & Hu3 & Hi3 & Hb3 & E3).
  exists t3. rewrite Hsh, End in E3, Hu3. split; [exact E3|]. split; [by rewrite (up_calls _ _ _ _ _ Hu3)|]. by split.
Qed.
End trip.

(** ** Witnesses *)

Abbreviation stack := (arp (pstate allocators)).

(** The application frees what it is given. *)
Definition free_recv : Z -> Z -> Z -> ptr -> Z -> Z -> M (udpst stack) unit := fun _ _ _ p _ _ => udp_free no_custom p.

(** A PCB bound to port 53, with a receive function. *)
Definition server_pcb : udp_pcb := UdpPcb 0 0 0 0 UDP_TTL 0 53 0 (Some 7) 9.

Definition server : udps := Udps {[ 1 := PcbNode server_pcb None ]} [2; 3; 4] (Some 1) UDP_LOCAL_PORT_RANGE_START.

Lemma server_reach : ureach server.
Proof. apply (ureach_call demo_udps (URecv 1 (Some 7) 9) RNone); [exact demo_reach|by eexists|vm_compute; reflexivity]. Defined.

(** A host at boot, receiving a packet from [src]. *)
Definition udp_boot_host (k : pstate allocators) (src dst : Z) : udpst stack :=
  UdpSt (set_current_addrs src dst (ip_boot k)) server [] (fun _ => 0).

(** A header of [n] bytes in all, from 10.0.0.[i] to 10.0.0.[j]. *)
Definition trip_header (i j n : Z) : ip_hdr :=
  let h := IpHdr 0x45 0 (lwip_htons n) 0 0 64 IP_PROTO_UDP 0 (le32 10 0 0 i) (le32 10 0 0 j) in
  IPH_CHKSUM_SET (not16 (oc_sum (hdr_bytes h))) h.

(** The packet received at boot. *)
Lemma boot_received i j n dg : zlen dg = n -> 0 <= n -> n + 20 <= max_ram_length -> is_u8 i -> is_u8 j ->
  obs (pbuf_alloc zero_flags no_custom PBUF_LINK (20 + n) PBUF_RAM pboot) =
    Some (Some (RHeap, 8), [((RHeap, 8), Pbuf None (Some (RHeap, 48)) (20 + n) (20 + n) PBUF_RAM 0 1)]) ->
  exists k, heap_there k /\ received (udp_boot_host k (le32 10 0 0 i) (le32 10 0 0 j)) abs_boot [(RHeap, 8)] [] (RHeap, 8)
    (Pbuf None (Some (RHeap, 48)) (20 + n) (20 + n) PBUF_RAM 0 1) (RHeap, 48) [] (trip_header i j (20 + n)) [] dg 1 nif_demo.
Proof.
  intros Hn Hn0 Hmax Hi8 Hj8 Hobs. set (h := trip_header i j (20 + n)).
  destruct (pboot_packet PBUF_LINK (20 + n) 48 ((hdr_bytes h ++ []) ++ dg) 16 ltac:(lia)
    ltac:(rewrite app_nil_r, zlen_app, hdr_bytes_len; lia) Hobs) as (k0 & L & Hi0 & Hk0 & Hr0).
  destruct (with_heap _ _ _ _ _ _ _ _ _ Hi0 Hk0 Hr0) as (k & Hi & Hk & _ & Hh). exists k. split; [exact Hh|]. split; try done.
  - exact (ip_boot_inv k L _ Hi).
  - unfold h, trip_header. assert (forall z, is_u8 z -> is_u32 (le32 10 0 0 z)) as Hle.
    { intros z Hz. unfold le32, is_u32, is_u8 in *. lia. }
    pose proof (htons_u16 (20 + n)). unfold hdr_ok. cbn [_v_hl _tos _len _id _offset _ttl _proto _chksum IpHdr.src IpHdr.dest IPH_CHKSUM_SET].
    repeat split; try done; try apply u16_range; by apply Hle.
  - rewrite app_nil_r, hdr_bytes_len. cbn. lia.
Qed.

(** Two bytes from 10.0.0.1 to 10.0.0.2, port 53. *)
Lemma udp_roundtrip_witness :
  exists k k2 r t' t3 hdr dg,
    udp_sendto zero_flags no_custom (ip_link_output zero_flags no_custom driver_ok) no_frag 1 (RHeap, 8) (le32 10 0 0 2) 53
      (udp_boot_host k 0 0) = Done (r, t') /\
    ip_out (u_ip t') = [Sent 1 (le32 10 0 0 2) (Some (hdr_bytes hdr ++ dg))] /\
    packet_bytes (host (u_ip (udp_boot_host k2 (le32 10 0 0 1) (le32 10 0 0 2)))) (RHeap, 8) = Some (hdr_bytes (trip_header 1 2 30) ++ dg) /\
    udp_input zero_flags no_custom (ip_link_output zero_flags no_custom driver_ok) no_frag free_recv (RHeap, 8) 1
      (udp_boot_host k2 (le32 10 0 0 1) (le32 10 0 0 2)) = free_recv 7 9 1 (RHeap, 8) (le32 10 0 0 1) 53 t3 /\
    u_calls t3 = [Delivery 7 9 1 (Some [104; 105]) (le32 10 0 0 1) 53].
Proof.
  destruct (pboot_packet PBUF_TRANSPORT 2 88 [104; 105] 56 ltac:(unfold max_ram_length; lia) eq_refl ltac:(vm_compute; reflexivity))
    as (k & L & Hi & Hk & Hr).
  destruct (udp_roundtrip zero_flags no_custom (ip_link_output zero_flags no_custom driver_ok) no_frag free_recv (udp_boot_host k 0 0) abs_boot
    [(RHeap, 8)] (RHeap, 8) (Pbuf None (Some (RHeap, 88)) 2 2 PBUF_RAM 0 1) (RHeap, 88) [] [104; 105] 1 nif_demo 1 (PcbNode server_pcb None) (le32 10 0 0 2) 53)
    as (r & t' & n' & hdr & c & dg & E & _ & _ & _ & Hn' & Hout & Edg & _ & _ & Hsrc & Hdst & Hrecv).
  - split; [exact (ip_boot_inv k L _ Hi)|by left|exact Hk|by apply is_bytesb_spec|reflexivity|vm_compute; discriminate|].
    intros i Hri. change (UDP_HLEN + (IP_HLEN + SIZEOF_ETH_HDR)) with 42 in *. replace (i - 42) with (i + 14 - Z.of_nat 56) by lia. apply Hr. lia.
  - vm_compute. reflexivity.
  - split; [reflexivity|reflexivity|by split|by compute|right; vm_compute; discriminate].
  - exact server_reach.
  - reflexivity.
  - by left.
  - by compute.
  - by compute.
  - by compute.
  - done.
  - rewrite (Hn' ltac:(done)) in *. cbn [pn_pcb] in *.
    destruct (boot_received 1 2 10 dg) as (k2 & _ & Hrc); [by rewrite Edg, udp_bytes_len|lia|unfold max_ram_length; lia|by compute|by compute|vm_compute; reflexivity|].
    destruct (Hrecv _ _ _ _ _ _ _ _ _ _ _ _ 1 (PcbNode server_pcb None) 7 Hrc ltac:(constructor)) as (t3 & E3 & Hc & _).
    + by rewrite Hsrc.
    + by rewrite Hdst.
    + rewrite app_nil_r, hdr_bytes_len. cbn. lia.
    + split; [exact server_reach|reflexivity|reflexivity|vm_compute; reflexivity|vm_compute; reflexivity].
    + exists k, k2, r, t', t3, hdr, dg. split; [exact E|]. split; [exact Hout|]. split; [|split; [exact E3|exact Hc]].
      rewrite (pkt_bytes _ _ _ _ _ _ (rc_packet _ _ _ _ _ _ _ _ _ _ _ _ _ Hrc)). by rewrite app_nil_r.
Defined.

(** A datagram for port 54, which nobody has. *)
Lemma udp_input_fate_witness :
  exists k t', udp_input zero_flags no_custom (ip_link_output zero_flags no_custom driver_ok) no_frag free_recv (RHeap, 8) 1
      (udp_boot_host k (le32 10 0 0 2) (le32 10 0 0 1)) = Done (tt, t') /\ u_calls t' = [] /\ u_stats t' UDproterr = 1.
Proof.
  destruct (boot_received 2 1 10 (udp_bytes 5000 54 10 0 [1; 2])) as (k & Hheap & Hrc);
    [by rewrite udp_bytes_len|lia|unfold max_ram_length; lia|by compute|by compute|vm_compute; reflexivity|].
  destruct (udp_input_fate zero_flags no_custom (ip_link_output zero_flags no_custom driver_ok) no_frag free_recv _ _ _ _ _ _ _ _ _ _
    5000 54 10 0 [1; 2] _ _ Hrc server_reach) as (o & hit & l' & E & _ & Hfate).
  - by split.
  - by split.
  - by split.
  - constructor.
  - by apply is_bytesb_spec.
  - rewrite app_nil_r, hdr_bytes_len. cbn. lia.
  - assert (udp_demux (dgram_of (trip_header 2 1 30) nif_demo 5000 54) server = Done ((None, false), server)) as E' by (vm_compute; reflexivity).
    change (20 + 10) with 30 in *. change (u_pcbs _) with server in E. rewrite E' in E. injection E as <- <- <-.
    destruct (Hfate 1 nif_demo Hheap) as (t' & Er & _ & _ & Hc & Hst & _).
    + split; [vm_compute; reflexivity|reflexivity|reflexivity|right; vm_compute; discriminate|by compute].
    + exists k, t'. split; [exact Er|]. split; [exact Hc|]. rewrite Hst. reflexivity.
Defined.
