(* ===== verification/Lseg.v ===== *)
(** * Segments of linked lists

    The program threads its structures into singly linked lists through a next pointer.
    A structure is known by its address; [lseg m q l p] says that the list that starts at
    [q] in the memory [m] is [l] and goes on at [p]. *)

From S2P Require Import Prelude.

Section lseg.
(** The structure, what is kept of it in the list, and its next pointer. *)
Context {N V : Type} (nxt : N -> option Z) (val : N -> V).

Implicit Types (m : gmap Z N) (l : list (Z * V)) (p q : option Z).

Fixpoint lseg m q l p : Prop :=
  match l with
  | [] => q = p
  | (a, v) :: l => q = Some a /\ exists n, m !! a = Some n /\ val n = v /\ lseg m (nxt n) l p
  end.

Lemma lseg_app m l1 : forall q l2 p, lseg m q (l1 ++ l2) p <-> exists r, lseg m q l1 r /\ lseg m r l2 p.
Proof.
  induction l1 as [|[a v] l1 IH]; intros q l2 p; cbn [app lseg].
  - split; [by exists q|]. by intros (r & -> & H).
  - setoid_rewrite IH. split.
    + intros (-> & n & Ha & Hv & r & H1 & H2). exists r. split; [|done]. split; [done|]. by exists n.
    + intros (r & (-> & n & Ha & Hv & H1) & H2). split; [done|]. exists n. split; [done|]. split; [done|]. by exists r.
Qed.

Lemma lseg_ext m m' l : forall q p, (forall a, a ∈ l.*1 -> m' !! a = m !! a) -> lseg m q l p -> lseg m' q l p.
Proof.
  induction l as [|[a v] l IH]; intros q p Hm; [done|]. intros (-> & n & Ha & Hv & H). split; [done|]. exists n.
  split; [rewrite Hm; [done|by left]|]. split; [done|]. apply IH; [|done]. intros x Hx. apply Hm. by right.
Qed.

Lemma lseg_insert m q l p a n : a ∉ l.*1 -> lseg m q l p -> lseg (<[a := n]> m) q l p.
Proof. intros Ha. apply lseg_ext. intros x Hx. apply lookup_insert_ne. by intros ->. Qed.

Lemma lseg_delete m q l p a : a ∉ l.*1 -> lseg m q l p -> lseg (delete a m) q l p.
Proof. intros Ha. apply lseg_ext. intros x Hx. apply lookup_delete_ne. by intros ->. Qed.

Lemma lseg_in m l : forall q p a v, lseg m q l p -> (a, v) ∈ l -> exists n, m !! a = Some n /\ val n = v.
Proof.
  induction l as [|[b u] l IH]; intros q p a v; [by intros _ ?%elem_of_nil|].
  intros (-> & n & Hb & Hu & Hl) [E|Hin]%elem_of_cons; [|by eapply IH]. injection E as -> ->. by exists n.
Qed.

Lemma lseg_live m q l p a : lseg m q l p -> a ∈ l.*1 -> is_Some (m !! a).
Proof. intros Hl ([x v] & -> & Hin)%list_elem_of_fmap. destruct (lseg_in _ _ _ _ _ _ Hl Hin) as (n & Hn & _). by exists n. Qed.

(** A walk along the list takes no more steps than there are structures. *)
Lemma lseg_length m l p q : lseg m q l p -> NoDup l.*1 -> (length l <= size m)%nat.
Proof.
  intros Hs Hnd. rewrite <- (length_fmap fst), <- size_dom, <- (size_list_to_set (C := gset Z)) by done.
  apply subseteq_size. intros a Ha. apply elem_of_list_to_set in Ha. by apply elem_of_dom, (lseg_live _ _ _ _ _ Hs).
Qed.

(** The structure in the middle of a list. *)
Lemma lseg_mid m q l1 a v l2 p : lseg m q (l1 ++ (a, v) :: l2) p <->
  exists n, lseg m q l1 (Some a) /\ m !! a = Some n /\ val n = v /\ lseg m (nxt n) l2 p.
Proof.
  rewrite lseg_app. split.
  - intros (r & H1 & -> & n & Ha & Hv & H2). by exists n.
  - intros (n & H1 & Ha & Hv & H2). exists (Some a). split; [done|]. split; [done|]. by exists n.
Qed.

(** It is written: its value and its next pointer may change. *)
Lemma lseg_write m q l1 a v l2 p n' : NoDup (l1 ++ (a, v) :: l2).*1 -> lseg m q (l1 ++ (a, v) :: l2) p -> forall l2',
  (forall n, m !! a = Some n -> lseg m (nxt n) l2 p -> lseg (<[a := n']> m) (nxt n') l2' p) ->
  lseg (<[a := n']> m) q (l1 ++ (a, val n') :: l2') p.
Proof.
  intros Hnd (n & H1 & Ha & Hv & H2)%lseg_mid l2' Hk. rewrite fmap_app in Hnd. apply list.NoDup_app in Hnd as (_ & Hd & _).
  apply lseg_mid. exists n'. rewrite lookup_insert_eq. split; [|split; [done|split; [done|by apply (Hk n)]]].
  apply lseg_insert; [|done]. intros Hin. apply (Hd a Hin). by left.
Qed.
End lseg.
