(* ===== verification/Timeouts.v ===== *)
(** * Timeouts

    core/timers.c keeps the pending timeouts in a list of struct sys_timeo in which every
    entry holds the time behind the entry in front of it.  sys_timeout and sys_untimeout
    work on that list, sys_check_timeouts runs the handlers of those that have expired, and
    the stack's own timers set themselves again.  A structure is known by its address;
    [free_timeos] are the free elements of the pool MEMP_SYS_TIMEOUT.  [env] is the rest of
    the stack, which the handlers work on. *)

From S2P Require Import Prelude Lseg.

(** The functions timers.c hands to sys_timeout, and those of a user. *)
Inductive sys_timeout_handler : Set :=
| TcpipTcpTimer
| IpReassTimer
| ArpTimer
| UserHandler (n : Z).

#[export] Instance sys_timeout_handler_eq_dec : EqDecision sys_timeout_handler.
Proof. solve_decision. Defined.

(** struct sys_timeo; a handler may be NULL. *)
Record sys_timeo := SysTimeo {
  st_next : option Z;
  st_time : Z;
  st_h : option sys_timeout_handler;
  st_arg : Z
}.

Record timeouts (E : Type) := Timeouts {
  timeos : gmap Z sys_timeo;
  free_timeos : list Z;
  next_timeout : option Z;
  timeouts_last_time : Z;
  tcpip_tcp_timer_active : bool;
  env : E
}.

Arguments Timeouts {E} _ _ _ _ _ _.
Arguments timeos {E} _.
Arguments free_timeos {E} _.
Arguments next_timeout {E} _.
Arguments timeouts_last_time {E} _.
Arguments tcpip_tcp_timer_active {E} _.
Arguments env {E} _.

Definition TCP_TMR_INTERVAL : Z := 250.

Definition IP_TMR_INTERVAL : Z := 1000.

Definition ARP_TMR_INTERVAL : Z := 5000.

(** What the timers call in the rest of the stack: tcp_tmr, whether there are active or
    time-wait PCBs, ip_reass_tmr, etharp_tmr, and the freeing of out-of-sequence data that
    sys_check_timeouts does when the packet pool has run empty. *)
Class TimerClients (E : Type) := {
  tcp_tmr : E -> E;
  tcp_pcbs_left : E -> bool;
  ip_reass_tmr : E -> E;
  etharp_tmr : E -> E;
  pbuf_check_free_ooseq : E -> E
}.

Section ops.
Context {E : Type} `{TimerClients E}.

Implicit Types (s : timeouts E).

Definition set_timeos (f : gmap Z sys_timeo -> gmap Z sys_timeo) s : timeouts E :=
  Timeouts (f (timeos s)) (free_timeos s) (next_timeout s) (timeouts_last_time s) (tcpip_tcp_timer_active s) (env s).

Definition set_free_timeos (l : list Z) s : timeouts E :=
  Timeouts (timeos s) l (next_timeout s) (timeouts_last_time s) (tcpip_tcp_timer_active s) (env s).

Definition set_next_timeout (q : option Z) s : timeouts E :=
  Timeouts (timeos s) (free_timeos s) q (timeouts_last_time s) (tcpip_tcp_timer_active s) (env s).

Definition set_last_time (t : Z) s : timeouts E :=
  Timeouts (timeos s) (free_timeos s) (next_timeout s) t (tcpip_tcp_timer_active s) (env s).

Definition set_active (b : bool) s : timeouts E :=
  Timeouts (timeos s) (free_timeos s) (next_timeout s) (timeouts_last_time s) b (env s).

Definition set_env (f : E -> E) s : timeouts E :=
  Timeouts (timeos s) (free_timeos s) (next_timeout s) (timeouts_last_time s) (tcpip_tcp_timer_active s) (f (env s)).

Definition rd_timeo (t : Z) : M (timeouts E) sys_timeo := s ← get; deref (timeos s !! t).

Definition wr_time (t : Z) (z : Z) : M (timeouts E) unit :=
  e ← rd_timeo t; modify (set_timeos (insert t (SysTimeo (st_next e) z (st_h e) (st_arg e)))).

Definition wr_next (t : Z) (q : option Z) : M (timeouts E) unit :=
  e ← rd_timeo t; modify (set_timeos (insert t (SysTimeo q (st_time e) (st_h e) (st_arg e)))).

(** memp_free(MEMP_SYS_TIMEOUT, t) *)
Definition memp_free_timeo (t : Z) : M (timeouts E) unit :=
  rd_timeo t;;
  modify (set_timeos (delete t));;
  s ← get; modify (set_free_timeos (t :: free_timeos s)).

(** The loop that looks for the place of [timeout] behind [t]. *)
Fixpoint insert_behind (fuel : nat) (timeout t : Z) : M (timeouts E) unit :=
  match fuel with
  | O => fail OutOfFuel
  | Datatypes.S fuel =>
      e ← rd_timeo timeout; te ← rd_timeo t;
      wr_time timeout (u32 (st_time e - st_time te));;
      e ← rd_timeo timeout; te ← rd_timeo t;
      match st_next te with
      | None => wr_next timeout None;; wr_next t (Some timeout)
      | Some n =>
          ne ← rd_timeo n;
          if st_time e <? st_time ne then
            wr_time n (u32 (st_time ne - st_time e));;
            wr_next timeout (Some n);; wr_next t (Some timeout)
          else insert_behind fuel timeout n
      end
  end.

Definition walk_fuel s : nat := Datatypes.S (size (timeos s)).

Definition sys_timeout (msecs : Z) (handler : option sys_timeout_handler) (arg : Z) : M (timeouts E) unit :=
  s ← get;
  match free_timeos s with
  | [] => fail AssertFailed
  | timeout :: rest =>
      modify (set_free_timeos rest);;
      modify (set_timeos (insert timeout (SysTimeo None msecs handler arg)));;
      s ← get;
      match next_timeout s with
      | None => modify (set_next_timeout (Some timeout))
      | Some t =>
          te ← rd_timeo t;
          if msecs <? st_time te then
            wr_time t (u32 (st_time te - msecs));;
            wr_next timeout (Some t);;
            modify (set_next_timeout (Some timeout))
          else insert_behind (walk_fuel s) timeout t
      end
  end.

(** The loop of sys_untimeout; [prev] is the entry in front of [t]. *)
Fixpoint untimeout_loop (fuel : nat) (prev t : option Z) (handler : option sys_timeout_handler) (arg : Z) : M (timeouts E) unit :=
  match fuel with
  | O => fail OutOfFuel
  | Datatypes.S fuel =>
      match t with
      | None => mret tt
      | Some t =>
          e ← rd_timeo t;
          if bool_decide (st_h e = handler) && (st_arg e =? arg) then
            match prev with
            | None => modify (set_next_timeout (st_next e))
            | Some p => wr_next p (st_next e)
            end;;
            match st_next e with
            | None => mret tt
            | Some n => ne ← rd_timeo n; wr_time n (u32 (st_time ne + st_time e))
            end;;
            memp_free_timeo t
          else untimeout_loop fuel (Some t) (st_next e) handler arg
      end
  end.

Definition sys_untimeout (handler : option sys_timeout_handler) (arg : Z) : M (timeouts E) unit :=
  s ← get;
  match next_timeout s with
  | None => mret tt
  | Some t => untimeout_loop (walk_fuel s) None (Some t) handler arg
  end.

Definition tcpip_tcp_timer : M (timeouts E) unit :=
  modify (set_env tcp_tmr);;
  s ← get;
  if tcp_pcbs_left (env s) then sys_timeout TCP_TMR_INTERVAL (Some TcpipTcpTimer) 0
  else modify (set_active false).

Definition tcp_timer_needed : M (timeouts E) unit :=
  s ← get;
  if negb (tcpip_tcp_timer_active s) && tcp_pcbs_left (env s) then
    modify (set_active true);; sys_timeout TCP_TMR_INTERVAL (Some TcpipTcpTimer) 0
  else mret tt.

Definition ip_reass_timer : M (timeouts E) unit :=
  modify (set_env ip_reass_tmr);; sys_timeout IP_TMR_INTERVAL (Some IpReassTimer) 0.

Definition arp_timer : M (timeouts E) unit :=
  modify (set_env etharp_tmr);; sys_timeout ARP_TMR_INTERVAL (Some ArpTimer) 0.

Definition sys_timeouts_init (now : Z) : M (timeouts E) unit :=
  sys_timeout IP_TMR_INTERVAL (Some IpReassTimer) 0;;
  sys_timeout ARP_TMR_INTERVAL (Some ArpTimer) 0;;
  modify (set_last_time now).

Definition sys_restart_timeouts (now : Z) : M (timeouts E) unit := modify (set_last_time now).

(** One round of sys_check_timeouts: the first timeout is taken off when it has expired,
    with what is left of [diff]. *)
Definition check_round (now diff : Z) : M (timeouts E) (option (option sys_timeout_handler * Z * Z)) :=
  modify (set_env pbuf_check_free_ooseq);;
  s ← get;
  match next_timeout s with
  | None => mret None
  | Some tmptimeout =>
      e ← rd_timeo tmptimeout;
      if st_time e <=? diff then
        modify (set_last_time now);;
        modify (set_next_timeout (st_next e));;
        memp_free_timeo tmptimeout;;
        mret (Some (st_h e, st_arg e, u32 (diff - st_time e)))
      else mret None
  end.

Section check.
(** The handlers of users. *)
Context (user : Z -> Z -> M (timeouts E) unit).

Definition call_handler (h : option sys_timeout_handler) (arg : Z) : M (timeouts E) unit :=
  match h with
  | None => mret tt
  | Some TcpipTcpTimer => tcpip_tcp_timer
  | Some IpReassTimer => ip_reass_timer
  | Some ArpTimer => arp_timer
  | Some (UserHandler n) => user n arg
  end.

Fixpoint check_loop (fuel : nat) (now diff : Z) : M (timeouts E) unit :=
  match fuel with
  | O => fail OutOfFuel
  | Datatypes.S fuel =>
      r ← check_round now diff;
      match r with
      | None => mret tt
      | Some (h, arg, diff) => call_handler h arg;; check_loop fuel now diff
      end
  end.

Definition sys_check_timeouts (fuel : nat) (now : Z) : M (timeouts E) unit :=
  s ← get;
  match next_timeout s with
  | None => mret tt
  | Some _ => check_loop fuel now (u32 (now - timeouts_last_time s))
  end.
End check.
End ops.
