(* ===== verification/TimeoutsSpec.v ===== *)
(** * The list of timeouts

    What the operations of core/timers.c do to the list, as a list of the times at which
    the timeouts are due. *)

From Stdlib Require Import Sorted.
From S2P Require Import Prelude Lseg Timeouts.

(** A time, a handler and its argument: in the list of the program the time behind the
    entry in front, in the list of the specification the time it is due. *)
Abbreviation timer := (Z * option sys_timeout_handler * Z)%type.

Definition tm (t : timer) : Z := t.1.1.

Lemma tm_mk d h a : tm (d, h, a) = d.
Proof. done. Qed.

Definition tview (e : sys_timeo) : timer := (st_time e, st_h e, st_arg e).

Abbreviation tseg := (lseg st_next tview).

(** The times the entries are due, when the first one counts from [base]. *)
Fixpoint dues (base : Z) (ds : list timer) : list timer :=
  match ds with
  | [] => []
  | (d, h, a) :: ds => (base + d, h, a) :: dues (base + d) ds
  end.

Definition total (ds : list timer) : Z := foldr (fun t z => tm t + z) 0 ds.

(** A timeout goes behind those that are not due later. *)
Fixpoint insert_by {A} (key : A -> Z) (x : A) (l : list A) : list A :=
  match l with
  | [] => [x]
  | y :: l => if key x <? key y then x :: y :: l else y :: insert_by key x l
  end.

Abbreviation insert_due := (insert_by tm).

(** The same, for the times the program keeps. *)
Fixpoint insert_delta (t : timer) (ds : list timer) : list timer :=
  match ds with
  | [] => [t]
  | x :: ds =>
      if tm t <? tm x then t :: (tm x - tm t, x.1.2, x.2) :: ds
      else x :: insert_delta (tm t - tm x, t.1.2, t.2) ds
  end.

Definition matches (h : option sys_timeout_handler) (a : Z) (t : timer) : bool := bool_decide (t.1.2 = h) && (t.2 =? a).

(** The first that matches is taken out. *)
Fixpoint drop_first {A} (p : A -> bool) (l : list A) : list A :=
  match l with
  | [] => []
  | x :: l => if p x then l else x :: drop_first p l
  end.

Definition cancel (h : option sys_timeout_handler) (a : Z) (ts : list timer) : list timer := drop_first (matches h a) ts.

Definition add_head (z : Z) (ds : list timer) : list timer :=
  match ds with
  | [] => []
  | (d, h, a) :: ds => (d + z, h, a) :: ds
  end.

Fixpoint cancel_delta (h : option sys_timeout_handler) (a : Z) (ds : list timer) : list timer :=
  match ds with
  | [] => []
  | x :: ds => if matches h a x then add_head (tm x) ds else x :: cancel_delta h a ds
  end.

Lemma dues_add_head b z ds : dues b (add_head z ds) = dues (b + z) ds.
Proof. destruct ds as [|[[d h] a] ds]; [done|]. cbn [add_head dues]. by replace (b + (d + z)) with (b + z + d) by lia. Qed.

Lemma dues_insert t ds : forall b, dues b (insert_delta t ds) = insert_due (b + tm t, t.1.2, t.2) (dues b ds).
Proof.
  revert t. induction ds as [|[[d h] a] ds IH]; intros [[m ht] at_] b; [done|]. cbn [insert_delta dues insert_by tm fst snd].
  destruct (Z.ltb_spec m d) as [Hlt|Hge].
  - rewrite (proj2 (Z.ltb_lt _ _)) by lia. cbn [dues]. by replace (b + m + (d - m)) with (b + d) by lia.
  - rewrite (proj2 (Z.ltb_ge _ _)) by lia. cbn [dues]. rewrite IH. cbn [tm fst snd]. by replace (b + d + (m - d)) with (b + m) by lia.
Qed.

Lemma dues_cancel h a ds : forall b, dues b (cancel_delta h a ds) = cancel h a (dues b ds).
Proof.
  induction ds as [|[[d k] x] ds IH]; intros b; [done|]. unfold cancel. cbn [cancel_delta dues drop_first].
  change (matches h a (b + d, k, x)) with (matches h a (d, k, x)). destruct (matches h a (d, k, x)); [apply dues_add_head|].
  cbn [dues]. rewrite IH. done.
Qed.

Lemma dues_shift c ds : forall b, dues (b + c) ds = (fun t => (tm t + c, t.1.2, t.2)) <$> dues b ds.
Proof.
  induction ds as [|[[d h] a] ds IH]; intros b; [done|]. cbn [dues fmap list_fmap tm fst snd].
  replace (b + c + d) with (b + d + c) by lia. by rewrite IH.
Qed.

(** The totals stay below the range of a u32_t. *)
Definition deltas_ok (ds : list timer) : Prop := Forall (fun t => 0 <= tm t) ds /\ total ds < 2 ^ 32.

Lemma total_cons t ds : total (t :: ds) = tm t + total ds.
Proof. done. Qed.

Lemma total_nonneg ds : Forall (fun t => 0 <= tm t) ds -> 0 <= total ds.
Proof. induction 1 as [|t ds Ht Hds IH]; [done|]. rewrite total_cons. lia. Qed.

Lemma deltas_tail t ds : deltas_ok (t :: ds) -> 0 <= tm t < 2 ^ 32 /\ deltas_ok ds /\ tm t + total ds < 2 ^ 32.
Proof.
  intros [Hf Htot]. apply Forall_cons_iff in Hf as [Ht Hds]. rewrite total_cons in Htot. pose proof (total_nonneg _ Hds). split; [lia|]. split; [|done].
  split; [done|lia].
Qed.

Lemma insert_delta_ok t ds : 0 <= tm t < 2 ^ 32 -> deltas_ok ds -> deltas_ok (insert_delta t ds).
Proof.
  intros Ht Hds. cut (Forall (fun t => 0 <= tm t) (insert_delta t ds) /\ total (insert_delta t ds) = Z.max (tm t) (total ds)).
  { intros [H1 H2]. split; [done|]. rewrite H2. destruct Hds. lia. }
  revert t Ht Hds. induction ds as [|x ds IH]; intros t Ht Hds.
  - cbn [insert_delta total foldr]. split; [|lia]. constructor; [lia|done].
  - apply deltas_tail in Hds as (Hx & Hds & Htot). pose proof (total_nonneg _ (proj1 Hds)). cbn [insert_delta].
    destruct (Z.ltb_spec (tm t) (tm x)) as [Hlt|Hge].
    + split; [|rewrite !total_cons, tm_mk; lia]. constructor; [lia|]. constructor; [rewrite tm_mk; lia|apply Hds].
    + destruct (IH (tm t - tm x, t.1.2, t.2)) as [H1 H2]; [rewrite tm_mk; lia|done|].
      split; [constructor; [lia|done]|]. rewrite !total_cons, H2, tm_mk. lia.
Qed.

Lemma total_app ds ds' : total (ds ++ ds') = total ds + total ds'.
Proof. induction ds as [|t ds IH]; [done|]. cbn [app]. rewrite !total_cons, IH. lia. Qed.

Lemma deltas_app ds ds' : deltas_ok (ds ++ ds') <-> Forall (fun t => 0 <= tm t) ds /\ Forall (fun t => 0 <= tm t) ds' /\ total ds + total ds' < 2 ^ 32.
Proof. unfold deltas_ok. rewrite Forall_app, total_app. tauto. Qed.

Lemma cancel_delta_le h a ds : Forall (fun t => 0 <= tm t) ds ->
  Forall (fun t => 0 <= tm t) (cancel_delta h a ds) /\ total (cancel_delta h a ds) <= total ds.
Proof.
  induction 1 as [|x ds Hx Hds IH]; [done|]. cbn [cancel_delta]. rewrite total_cons.
  destruct (matches h a x); [|rewrite total_cons; split; [constructor; [done|apply IH]|lia]].
  destruct Hds as [|[[d k] y] ds Hd Hds]; [split; [done|cbn [add_head total foldr]; lia]|].
  cbn [add_head]. rewrite !total_cons, !tm_mk in *. split; [constructor; [rewrite tm_mk; lia|done]|lia].
Qed.

Lemma cancel_delta_ok h a ds1 ds2 : deltas_ok (ds1 ++ ds2) -> deltas_ok (ds1 ++ cancel_delta h a ds2).
Proof. intros (H1 & H2 & H3)%deltas_app. destruct (cancel_delta_le h a ds2 H2) as [H4 H5]. apply deltas_app. split; [done|]. split; [done|lia]. Qed.

Section list.
Context {E : Type} `{TimerClients E}.

Implicit Types (s : timeouts E).

(** The list is [l]; the pool has [n] elements. *)
Record tlist (n : nat) s (l : list (Z * timer)) : Prop := TList {
  tl_seg : tseg (timeos s) (next_timeout s) l None;
  tl_nodup : NoDup (l.*1 ++ free_timeos s);
  tl_live a : is_Some (timeos s !! a) <-> a ∈ l.*1;
  tl_count : (length l + length (free_timeos s) = n)%nat;
  tl_ok : deltas_ok l.*2
}.

(** The timeouts that are pending, when the list counts from [base]. *)
Definition pending (n : nat) s (base : Z) (ts : list timer) : Prop := exists l, tlist n s l /\ dues base l.*2 = ts.

Lemma rd_ok s t e : timeos s !! t = Some e -> rd_timeo t s = Done (e, s).
Proof. intros He. unfold rd_timeo. rewrite get_bind, He. done. Qed.

Lemma wr_time_ok s t e z : timeos s !! t = Some e -> wr_time t z s = Done (tt, set_timeos (insert t (SysTimeo (st_next e) z (st_h e) (st_arg e))) s).
Proof. intros He. unfold wr_time. by rewrite (bind_done _ _ _ _ _ (rd_ok _ _ _ He)). Qed.

Lemma wr_next_ok s t e q : timeos s !! t = Some e -> wr_next t q s = Done (tt, set_timeos (insert t (SysTimeo q (st_time e) (st_h e) (st_arg e))) s).
Proof. intros He. unfold wr_next. by rewrite (bind_done _ _ _ _ _ (rd_ok _ _ _ He)). Qed.

Lemma free_ok s t e : timeos s !! t = Some e -> memp_free_timeo t s = Done (tt, set_free_timeos (t :: free_timeos s) (set_timeos (delete t) s)).
Proof. intros He. unfold memp_free_timeo. rewrite (bind_done _ _ _ _ _ (rd_ok _ _ _ He)). done. Qed.

(** Only the structures change. *)
Definition with_timeos s (m : gmap Z sys_timeo) : timeouts E := set_timeos (fun _ => m) s.

(** What stands behind a structure is replaced. *)
Lemma in_tail (m mm : gmap Z sys_timeo) q l1 t dt l2 k e' timeout :
  tseg m q (l1 ++ (t, dt) :: l2) None -> NoDup (l1 ++ (t, dt) :: l2).*1 -> timeout ∉ (l1 ++ (t, dt) :: l2).*1 ->
  (forall x, x <> timeout -> x ∉ ((t, dt) :: l2).*1 -> mm !! x = m !! x) -> mm !! t = Some e' -> tview e' = dt ->
  tseg mm (st_next e') k None -> tseg mm q (l1 ++ (t, dt) :: k) None.
Proof.
  intros (e & H1 & _)%lseg_mid Hnd Hni Hm He Hv Hk. apply lseg_mid. exists e'. split; [|done]. rewrite fmap_app in Hnd, Hni.
  apply list.NoDup_app in Hnd as (_ & Hd & _). eapply lseg_ext; [|exact H1]. intros x Hx. apply Hm; [|by apply Hd].
  intros ->. apply Hni, elem_of_app. by left.
Qed.

(** The loop links the new structure behind [t]; the list behind it is [l2]. *)
Lemma insert_behind_ok l2 : forall l1 s timeout t dt q m h a fuel,
  timeos s !! timeout = Some (SysTimeo q m h a) -> timeout ∉ (l1 ++ (t, dt) :: l2).*1 ->
  NoDup (l1 ++ (t, dt) :: l2).*1 -> tseg (timeos s) (next_timeout s) (l1 ++ (t, dt) :: l2) None ->
  0 <= tm dt <= m -> m < 2 ^ 32 -> deltas_ok l2.*2 -> (length l2 < fuel)%nat ->
  exists mm k, insert_behind fuel timeout t s = Done (tt, with_timeos s mm) /\
    tseg mm (next_timeout s) (l1 ++ (t, dt) :: k) None /\ k.*2 = insert_delta (m - tm dt, h, a) l2.*2 /\
    k.*1 ≡ₚ timeout :: l2.*1 /\ (forall x, is_Some (mm !! x) <-> is_Some (timeos s !! x)).
Proof.
  induction l2 as [|[n dn] l2 IH]; intros l1 s timeout t dt q m h a fuel Hnew Hni Hnd Hseg Hdt Hm Hok Hf;
    (destruct fuel as [|fuel]; [simpl in Hf; lia|]); cbn [insert_behind].
  all: pose proof Hseg as (te & Hs1 & Ht & Htv & Hs2)%lseg_mid.
  all: assert (timeout <> t) as Hne by (intros ->; apply Hni; rewrite fmap_app; apply elem_of_app; right; by left).
  all: assert (st_time te = tm dt) as Htm by (by subst dt).
  all: rewrite (bind_done _ _ _ _ _ (rd_ok _ _ _ Hnew)), (bind_done _ _ _ _ _ (rd_ok _ _ _ Ht)), (bind_done _ _ _ _ _ (wr_time_ok _ _ _ _ Hnew)).
  all: cbn [st_time st_next st_h st_arg]; rewrite Htm, u32_id by (unfold is_u32; lia).
  all: rewrite (bind_done _ _ _ _ _ (rd_ok (set_timeos _ s) _ _ (lookup_insert_eq _ _ _))).
  all: rewrite (bind_done _ _ _ _ _ (rd_ok (set_timeos _ s) t te ltac:(cbn [timeos set_timeos]; by rewrite lookup_insert_ne))).
  all: cbn [st_time].
  - simpl in Hs2. rewrite Hs2. rewrite (bind_done _ _ _ _ _ (wr_next_ok (set_timeos _ s) _ _ _ (lookup_insert_eq _ _ _))).
    erewrite wr_next_ok by (cbn [timeos set_timeos]; by rewrite !lookup_insert_ne).
    eexists _, [(timeout, (m - tm dt, h, a))]. split; [reflexivity|]. cbn [timeos set_timeos st_time st_h st_arg]. split; [|split; [done|split; [done|]]].
    + eapply in_tail; [exact Hseg|exact Hnd|exact Hni| |apply lookup_insert_eq|done|].
      * intros x Hx1 Hx2. cbn [fmap list_fmap fst] in Hx2. apply not_elem_of_cons in Hx2 as [? _]. by rewrite !lookup_insert_ne.
      * cbn [st_next]. split; [done|]. eexists. split; [rewrite lookup_insert_ne by done; apply lookup_insert_eq|done].
    + intros x. rewrite !lookup_insert_is_Some'. intuition (subst; eauto).
  - destruct Hs2 as (-> & ne & Hn & Hnv & Hs2). pose proof Hnd as Hnd'. pose proof Hni as Hni'. rewrite fmap_app, !fmap_cons in Hnd', Hni'.
    apply list.NoDup_app in Hnd' as (_ & _ & [Htn Hnd2]%list.NoDup_cons). apply list.NoDup_cons in Hnd2 as [Hnl Hnd2].
    apply not_elem_of_app in Hni' as [_ [_ [Hne2 Hni2]%not_elem_of_cons]%not_elem_of_cons]. apply not_elem_of_cons in Htn as [Htn Htl].
    cbn [fst] in *. apply deltas_tail in Hok as (Hd0 & Hok & Htot). cbn [snd] in *.
    rewrite (bind_done _ _ _ _ _ (rd_ok (set_timeos _ s) n ne ltac:(cbn [timeos set_timeos]; by rewrite lookup_insert_ne))).
    assert (st_time ne = tm dn) as Htmn by (by subst dn). rewrite Htmn. cbn [fmap list_fmap insert_delta snd]. rewrite tm_mk.
    destruct (Z.ltb_spec (m - tm dt) (tm dn)) as [Hlt|Hge].
    + rewrite u32_id by (unfold is_u32; lia).
      erewrite (bind_done (wr_time _ _)) by (apply wr_time_ok; cbn [timeos set_timeos]; by rewrite lookup_insert_ne).
      erewrite (bind_done (wr_next _ _)) by (apply wr_next_ok; cbn [timeos set_timeos]; rewrite lookup_insert_ne by done; apply lookup_insert_eq).
      erewrite wr_next_ok by (cbn [timeos set_timeos]; by rewrite !lookup_insert_ne).
      eexists _, ((timeout, (m - tm dt, h, a)) :: (n, (tm dn - (m - tm dt), dn.1.2, dn.2)) :: l2). split; [reflexivity|].
      cbn [timeos set_timeos st_time st_h st_arg st_next]. split; [|split; [done|split; [done|]]].
      * eapply in_tail; [exact Hseg|exact Hnd|exact Hni| |apply lookup_insert_eq|done|].
        -- intros x Hx1 Hx2. rewrite !fmap_cons in Hx2. apply not_elem_of_cons in Hx2 as [? [? ?]%not_elem_of_cons]. cbn [fst] in *. by rewrite !lookup_insert_ne.
        -- cbn [st_next]. split; [done|]. eexists. split; [rewrite lookup_insert_ne by done; apply lookup_insert_eq|]. split; [done|].
           cbn [st_next]. split; [done|]. eexists. split; [rewrite !lookup_insert_ne by done; apply lookup_insert_eq|]. split; [by subst dn|].
           cbn [st_next]. by do 4 (apply lseg_insert; [done|]).
      * intros x. rewrite !lookup_insert_is_Some'. intuition (subst; eauto).
    + destruct (IH (l1 ++ [(t, dt)]) (set_timeos (insert timeout (SysTimeo q (m - tm dt) h a)) s) timeout n dn q (m - tm dt) h a fuel)
        as (mm & k & Ek & Hk1 & Hk2 & Hk3 & Hk4); cbn [timeos set_timeos next_timeout]; rewrite <- ?app_assoc; cbn [app].
      1: apply lookup_insert_eq. 1, 2: done. 1: by apply lseg_insert. 1, 2: lia. 1: done. 1: simpl in Hf; lia.
      exists mm, ((n, dn) :: k). rewrite Ek. split; [done|]. rewrite <- app_assoc in Hk1. split; [exact Hk1|]. rewrite !fmap_cons. cbn [fst snd].
      split; [by rewrite Hk2|]. split; [rewrite Hk3; apply Permutation_swap|]. intros x. rewrite Hk4. cbn [timeos set_timeos].
      rewrite lookup_insert_is_Some'. intuition (subst; eauto).
Qed.

(** The rest of the state is left alone. *)
Definition same_rest s s' : Prop :=
  timeouts_last_time s' = timeouts_last_time s /\ tcpip_tcp_timer_active s' = tcpip_tcp_timer_active s /\ env s' = env s.

Lemma tlist_make n s l (s' : timeouts E) l' timeout rest : tlist n s l -> free_timeos s = timeout :: rest -> free_timeos s' = rest ->
  tseg (timeos s') (next_timeout s') l' None -> l'.*1 ≡ₚ timeout :: l.*1 ->
  (forall x, is_Some (timeos s' !! x) <-> x = timeout \/ is_Some (timeos s !! x)) -> deltas_ok l'.*2 -> tlist n s' l'.
Proof.
  intros [_ Hnd Hl Hc _] Hf Hf' Hseg Hp Hlive Hok. split; [done| | | |done].
  - rewrite Hp, Hf'. rewrite Hf in Hnd. cbn [app]. by rewrite Permutation_middle.
  - intros x. rewrite Hlive, Hl, Hp. by rewrite elem_of_cons.
  - rewrite Hf in Hc. rewrite Hf'. apply Permutation_length in Hp. rewrite length_fmap in Hp. cbn [length] in *. rewrite length_fmap in Hp. lia.
Qed.

Lemma timeo_insert_ok n s l timeout rest m h a : tlist n s l -> free_timeos s = timeout :: rest -> 0 <= m < 2 ^ 32 ->
  exists s' l', sys_timeout m h a s = Done (tt, s') /\ tlist n s' l' /\ l'.*2 = insert_delta (m, h, a) l.*2 /\
    free_timeos s' = rest /\ same_rest s s'.
Proof.
  intros Hs Hf Hm. pose proof Hs as [Hseg Hnd Hl Hc Hok]. unfold sys_timeout. rewrite get_bind, Hf, !modify_bind, get_bind.
  rewrite Hf in Hnd. apply list.NoDup_app in Hnd as (Hnd & Hd & _).
  assert (timeout ∉ l.*1) as Hni by (intros Hx; apply (Hd _ Hx); by left).
  set (s1 := set_timeos _ _). assert (timeos s1 !! timeout = Some (SysTimeo None m h a)) as H1 by apply lookup_insert_eq.
  change (next_timeout s1) with (next_timeout s).
  assert (tseg (timeos s1) (next_timeout s) l None) as Hseg1 by (by apply lseg_insert).
  assert (forall x, is_Some (timeos s1 !! x) <-> x = timeout \/ is_Some (timeos s !! x)) as Hd1.
  { intros x. cbn [s1 timeos set_timeos]. rewrite lookup_insert_is_Some'. cbn [timeos set_free_timeos]. intuition congruence. }
  destruct l as [|[t dt] l].
  { simpl in Hseg. rewrite Hseg. eexists _, [(timeout, (m, h, a))]. split; [reflexivity|]. split; [|done].
    eapply tlist_make; [exact Hs|exact Hf|done| |done|exact Hd1|]; [by repeat econstructor|]. split; [constructor; [cbn; lia|done]|cbn; lia]. }
  pose proof Hseg1 as (Eh & te & Ht & Htv & Hs2). rewrite Eh. rewrite (bind_done _ _ _ _ _ (rd_ok s1 t te Ht)).
  assert (st_time te = tm dt) as Htm by (by subst dt). rewrite Htm. cbn [fmap list_fmap snd insert_delta]. rewrite tm_mk.
  pose proof Hok as (Hdt & Hok2 & Htot)%deltas_tail. cbn [snd fmap list_fmap] in *. apply list.NoDup_cons in Hnd as [Htl Hnd].
  apply not_elem_of_cons in Hni as [Hne Hni]. destruct (Z.ltb_spec m (tm dt)) as [Hlt|Hge].
  - rewrite (bind_done _ _ _ _ _ (wr_time_ok s1 t te _ Ht)).
    erewrite (bind_done (wr_next _ _)) by (apply wr_next_ok; cbn [timeos set_timeos]; rewrite lookup_insert_ne by done; exact H1).
    eexists _, ((timeout, (m, h, a)) :: (t, (tm dt - m, dt.1.2, dt.2)) :: l). split; [reflexivity|]. cbn [st_time st_h st_arg st_next].
    split; [|done]. eapply tlist_make; [exact Hs|exact Hf|done| |done| |].
    + cbn [next_timeout set_next_timeout timeos set_timeos lseg]. split; [done|]. eexists. split; [apply lookup_insert_eq|]. split; [done|].
      split; [done|]. eexists. split; [rewrite lookup_insert_ne by done; apply lookup_insert_eq|]. split; [subst dt; cbn; by rewrite u32_id by (unfold is_u32; lia)|].
      by do 2 (apply lseg_insert; [done|]).
    + intros x. cbn [timeos set_timeos set_next_timeout]. rewrite !lookup_insert_is_Some'. rewrite Hd1. pose proof (Hd1 t) as [Hdt' _]. intuition (subst; eauto).
    + cbn [fmap list_fmap snd]. pose proof (insert_delta_ok (m, h, a) (dt :: l.*2)) as Hi. cbn [insert_delta] in Hi. rewrite tm_mk, (proj2 (Z.ltb_lt _ _) Hlt) in Hi.
      by apply Hi.
  - destruct (insert_behind_ok l [] s1 timeout t dt None m h a (walk_fuel s1) H1) as (mm & k & Ek & Hk1 & Hk2 & Hk3 & Hk4); [..|].
    1: by apply not_elem_of_cons. 1: by apply list.NoDup_cons. 1: exact Hseg1. 1, 2: lia. 1: done.
    { pose proof (lseg_length _ _ _ _ _ _ Hs2 Hnd). unfold walk_fuel. lia. }
    exists (with_timeos s1 mm), ((t, dt) :: k). cbn [app] in Hk1. split; [exact Ek|]. split; [|split; [cbn [fmap list_fmap snd]; by rewrite Hk2|done]].
    eapply tlist_make; [exact Hs|exact Hf|done|exact Hk1| | |].
    + rewrite !fmap_cons, Hk3. cbn [fst]. apply Permutation_swap.
    + intros x. cbn [timeos with_timeos set_timeos]. by rewrite Hk4.
    + cbn [fmap list_fmap snd]. rewrite Hk2. pose proof (insert_delta_ok (m, h, a) (dt :: l.*2)) as Hi. cbn [insert_delta] in Hi.
      rewrite tm_mk, (proj2 (Z.ltb_ge _ _) Hge) in Hi. by apply Hi.
Qed.

Definition last_addr (l : list (Z * timer)) : option Z := fst <$> list.last l.

(** The structure behind [l1] is taken out of the list. *)
Lemma timeo_unlink_ok s l1 t dt l2 e : tseg (timeos s) (next_timeout s) (l1 ++ (t, dt) :: l2) None -> NoDup (l1 ++ (t, dt) :: l2).*1 ->
  timeos s !! t = Some e ->
  exists s', match last_addr l1 with None => modify (set_next_timeout (st_next e)) | Some p => wr_next p (st_next e) end s = Done (tt, s') /\
    tseg (timeos s') (next_timeout s') (l1 ++ l2) None /\ tseg (timeos s') (st_next e) l2 None /\ timeos s' !! t = Some e /\ free_timeos s' = free_timeos s /\
    (forall x, is_Some (timeos s' !! x) <-> is_Some (timeos s !! x)) /\ same_rest s s'.
Proof.
  intros (e' & H1 & He' & _ & H2)%lseg_mid Hnd He. assert (e' = e) as -> by congruence. unfold last_addr.
  destruct (exists_last_inv l1) as [->|(l0 & [p dp] & ->)].
  { eexists. split; [reflexivity|]. split; [exact H2|]. done. }
  rewrite last_snoc. apply lseg_mid in H1 as (ep & H0 & Hp & Hpv & _). change (fst <$> Some (p, dp)) with (Some p). cbv beta iota. rewrite (wr_next_ok s p ep _ Hp). eexists. split; [reflexivity|].
  rewrite !fmap_app in Hnd. apply list.NoDup_app in Hnd as (Hnd1 & Hd & _). apply list.NoDup_app in Hnd1 as (_ & Hd0 & _).
  assert (p <> t /\ p ∉ l2.*1) as [Hpt Hpl].
  { apply not_elem_of_cons. intros Hx. apply (Hd p); [|exact Hx]. apply elem_of_app. right. by left. }
  cbn [timeos set_timeos next_timeout free_timeos]. split; [|split; [by apply lseg_insert|split; [by rewrite lookup_insert_ne|split; [done|split; [|done]]]]].
  - rewrite <- app_assoc. apply lseg_mid. eexists. split; [|split; [apply lookup_insert_eq|split; [exact Hpv|]]].
    + apply lseg_insert; [|done]. intros Hx. apply (Hd0 p Hx). by left.
    + by apply lseg_insert.
  - intros x. rewrite lookup_insert_is_Some'. intuition (subst; eauto).
Qed.

Lemma exists_last_addr (l : list (Z * timer)) a d : last_addr (l ++ [(a, d)]) = Some a.
Proof. unfold last_addr. by rewrite last_snoc. Qed.

(** The time of the first structure behind [l1] grows; it is as far behind as before. *)
Lemma bump_ok s l1 l2 z : tseg (timeos s) (next_timeout s) (l1 ++ l2) None -> NoDup (l1 ++ l2).*1 -> 0 <= z -> z + total l2.*2 < 2 ^ 32 ->
  Forall (fun t => 0 <= tm t) l2.*2 -> forall q, tseg (timeos s) q l2 None ->
  exists s' l2', match q with None => mret tt | Some n => ne ← rd_timeo n; wr_time n (u32 (st_time ne + z)) end s = Done (tt, s') /\
    tseg (timeos s') (next_timeout s') (l1 ++ l2') None /\ l2'.*1 = l2.*1 /\ l2'.*2 = add_head z l2.*2 /\
    (forall x, x ∉ l2.*1 -> timeos s' !! x = timeos s !! x) /\ free_timeos s' = free_timeos s /\
    (forall x, is_Some (timeos s' !! x) <-> is_Some (timeos s !! x)) /\ same_rest s s'.
Proof.
  intros Hseg Hnd Hz Htot Hpos q Hq. destruct l2 as [|[n [[d h] a]] l2].
  { simpl in Hq. subst q. exists s, []. done. }
  pose proof Hq as (-> & ne & Hn & Hnv & _). rewrite (bind_done _ _ _ _ _ (rd_ok _ _ _ Hn)), (wr_time_ok _ _ _ _ Hn).
  injection Hnv as Ed Eh Ea. cbn [fmap list_fmap snd] in Htot, Hpos. rewrite total_cons, tm_mk in Htot. apply Forall_cons_iff in Hpos as [Hd Hpos].
  rewrite tm_mk in Hd. pose proof (total_nonneg _ Hpos). rewrite Ed, u32_id by (unfold is_u32; lia).
  eexists _, ((n, (d + z, h, a)) :: l2). split; [reflexivity|]. cbn [timeos set_timeos next_timeout]. split; [|split; [done|split; [done|split; [|split; [done|split; [|done]]]]]].
  - rewrite <- Eh, <- Ea. apply (lseg_write _ _ _ _ _ _ _ _ _ (SysTimeo (st_next ne) (d + z) (st_h ne) (st_arg ne)) Hnd Hseg l2).
    intros n0 Hn0 H2. assert (n0 = ne) as -> by congruence. apply lseg_insert; [|done].
    rewrite fmap_app in Hnd. apply list.NoDup_app in Hnd as (_ & _ & [? _]%list.NoDup_cons). done.
  - intros x Hx. rewrite lookup_insert_ne; [done|]. intros ->. apply Hx. by left.
  - intros x. rewrite lookup_insert_is_Some'. intuition (subst; eauto).
Qed.

Lemma same_rest_trans (s1 s2 s3 : timeouts E) : same_rest s1 s2 -> same_rest s2 s3 -> same_rest s1 s3.
Proof. intros (E1 & E2 & E3) (F1 & F2 & F3). repeat split; congruence. Qed.

(** A structure that is out of the list is freed. *)
Lemma timeo_freed_ok n s l0 l t e : tlist n s l0 -> l0.*1 ≡ₚ t :: l.*1 -> forall s', tseg (timeos s') (next_timeout s') l None -> timeos s' !! t = Some e ->
  free_timeos s' = free_timeos s -> (forall x, is_Some (timeos s' !! x) <-> is_Some (timeos s !! x)) -> deltas_ok l.*2 ->
  exists s2, memp_free_timeo t s' = Done (tt, s2) /\ tlist n s2 l /\ free_timeos s2 = t :: free_timeos s /\ same_rest s' s2.
Proof.
  intros [_ Hnd Hl Hc _] Hp s' Hseg Ht Hf Hlive Hok. rewrite (free_ok _ _ _ Ht). eexists. split; [reflexivity|].
  rewrite Hp in Hnd. pose proof Hnd as [Hni Hnd2]%list.NoDup_cons. apply not_elem_of_app in Hni as [Hni _].
  split; [|split; [by cbn; rewrite Hf|done]]. split; cbn [timeos next_timeout free_timeos set_free_timeos set_timeos]; [by apply lseg_delete| | | |done].
  - rewrite Hf. by rewrite <- Permutation_middle.
  - intros x. rewrite lookup_delete_is_Some, Hlive, Hl, Hp, elem_of_cons. split; [intuition congruence|]. intros Hx. split; [by intros ->|by right].
  - rewrite Hf. apply Permutation_length in Hp. cbn [length] in *. rewrite !length_fmap in Hp. lia.
Qed.

Lemma untimeout_ok n h a l2 : forall l1 s fuel, tlist n s (l1 ++ l2) -> (length l2 < fuel)%nat -> forall t, tseg (timeos s) t l2 None ->
  exists s' l', untimeout_loop fuel (last_addr l1) t h a s = Done (tt, s') /\ tlist n s' l' /\ l'.*2 = l1.*2 ++ cancel_delta h a l2.*2 /\
    same_rest s s' /\ (free_timeos s' = free_timeos s \/ exists x, free_timeos s' = x :: free_timeos s).
Proof.
  induction l2 as [|[t d] l2 IH]; intros l1 s fuel Hs Hf q Hq; (destruct fuel as [|fuel]; [simpl in Hf; lia|]); cbn [untimeout_loop].
  { simpl in Hq. subst q. exists s, (l1 ++ []). split; [done|]. split; [done|]. rewrite fmap_app. split; [done|]. split; [done|by left]. }
  pose proof Hq as (-> & e & He & Hv & H2). rewrite (bind_done _ _ _ _ _ (rd_ok _ _ _ He)).
  change (bool_decide (st_h e = h) && (st_arg e =? a)) with (matches h a (tview e)). rewrite Hv. cbn [fmap list_fmap snd cancel_delta].
  pose proof Hs as [Hseg Hnd Hl Hc Hok]. destruct (matches h a d) eqn:Em.
  - pose proof Hnd as (Hnd1 & _ & _)%list.NoDup_app.
    destruct (timeo_unlink_ok s l1 t d l2 e Hseg Hnd1 He) as (s1 & E1 & Hs1 & Hq1 & Ht1 & Hf1 & Hd1 & Hr1). rewrite (bind_done _ _ _ _ _ E1).
    assert (NoDup (l1 ++ l2).*1 /\ t ∉ (l1 ++ l2).*1) as [Hnd2 Hni].
    { rewrite fmap_app, fmap_cons, <- Permutation_middle in Hnd1. apply list.NoDup_cons in Hnd1 as [? ?]. by rewrite fmap_app. }
    pose proof Hok as Hok'. rewrite fmap_app in Hok'. cbn [fmap list_fmap snd] in Hok'. pose proof Hok' as (Hp1 & Hp2 & Htot)%deltas_app.
    apply Forall_cons_iff in Hp2 as [Hpd Hp2]. rewrite total_cons in Htot. pose proof (total_nonneg _ Hp1).
    assert (st_time e = tm d) as Hte by (by subst d).
    destruct (bump_ok s1 l1 l2 (st_time e) Hs1 Hnd2 ltac:(lia) ltac:(lia) Hp2 _ Hq1) as (s2 & l2' & E2 & Hs2 & Ha2 & Hv2 & Ho2 & Hf2 & Hd2 & Hr2).
    rewrite (bind_done _ _ _ _ _ E2). rewrite Hte in Hv2.
    destruct (timeo_freed_ok n s _ (l1 ++ l2') t e Hs) with (s' := s2) as (s3 & E3 & Hs3 & Hf3 & Hr3); [|done| |congruence| | |].
    + rewrite !fmap_app, fmap_cons, Ha2. cbn [fst]. symmetry. apply Permutation_middle.
    + rewrite Ho2; [done|]. intros Hx. apply Hni. rewrite fmap_app. apply elem_of_app. by right.
    + intros x. by rewrite Hd2.
    + rewrite fmap_app, Hv2. apply (cancel_delta_ok h a) in Hok'. cbn [cancel_delta] in Hok'. by rewrite Em in Hok'.
    + exists s3, (l1 ++ l2'). split; [exact E3|]. split; [done|]. split; [by rewrite fmap_app, Hv2|]. split; [by eapply same_rest_trans; [|eapply same_rest_trans]|].
      right. by exists t.
  - destruct (IH (l1 ++ [(t, d)]) s fuel) with (t := st_next e) as (s' & l' & E' & Hs' & Hl' & Hr' & Hf'); [by rewrite <- app_assoc|simpl in Hf; lia|done|].
    rewrite exists_last_addr in E'. exists s', l'. split; [exact E'|]. split; [done|]. split; [|done]. rewrite Hl', fmap_app, <- app_assoc. done.
Qed.

(** ** The operations on the pending timeouts *)

Lemma pending_timeout n s base ts m h a : pending n s base ts -> free_timeos s <> [] -> 0 <= m < 2 ^ 32 ->
  exists s', sys_timeout m h a s = Done (tt, s') /\ pending n s' base (insert_due (base + m, h, a) ts) /\ same_rest s s'.
Proof.
  intros (l & Hl & <-) Hf Hm. destruct (free_timeos s) as [|b rest] eqn:Ef; [done|].
  destruct (timeo_insert_ok n s l b rest m h a Hl Ef Hm) as (s' & l' & E1 & Hl' & Hv & _ & Hr). exists s'. split; [done|]. split; [|done].
  exists l'. split; [done|]. by rewrite Hv, dues_insert.
Qed.

Lemma pending_untimeout n s base ts h a : pending n s base ts ->
  exists s', sys_untimeout h a s = Done (tt, s') /\ pending n s' base (cancel h a ts) /\ same_rest s s' /\
    (free_timeos s <> [] -> free_timeos s' <> []).
Proof.
  intros (l & Hl & <-). pose proof (tl_seg _ _ _ Hl) as Hs. unfold sys_untimeout. rewrite get_bind.
  destruct (next_timeout s) as [t|] eqn:En.
  - destruct (untimeout_ok n h a l [] s (walk_fuel s) Hl) with (t := Some t) as (s' & l' & E1 & Hl' & Hv & Hr & Hf); [|exact Hs|].
    { pose proof (lseg_length _ _ _ _ _ _ Hs) as Hlen. pose proof (tl_nodup _ _ _ Hl) as (? & _ & _)%list.NoDup_app. unfold walk_fuel. specialize (Hlen ltac:(done)). lia. }
    exists s'. split; [exact E1|]. split; [|split; [done|]].
    + exists l'. split; [done|]. rewrite Hv. exact (dues_cancel h a _ base).
    + destruct Hf as [->|[x ->]]; done.
  - destruct l as [|[t d] l]; [|by destruct Hs]. exists s. split; [done|]. split; [by exists []|]. done.
Qed.

(** A round fires the first timeout exactly when it has expired. *)
Lemma check_round_ok n s base ts now diff : pending n s base ts -> 0 <= diff < 2 ^ 32 ->
  match ts with
  | t :: rest =>
      if tm t <=? base + diff then
        exists s', check_round now diff s = Done (Some (t.1.2, t.2, base + diff - tm t), s') /\ pending n s' (tm t) rest /\
          free_timeos s' <> [] /\ base <= tm t /\ timeouts_last_time s' = now
      else exists s', check_round now diff s = Done (None, s') /\ pending n s' base ts /\ timeouts_last_time s' = timeouts_last_time s
  | [] => exists s', check_round now diff s = Done (None, s') /\ pending n s' base ts /\ timeouts_last_time s' = timeouts_last_time s
  end.
Proof.
  intros (l & Hl & <-) Hdiff. set (s1 := set_env pbuf_check_free_ooseq s).
  assert (tlist n s1 l) as Hl1 by (destruct Hl; by split). pose proof (tl_seg _ _ _ Hl1) as Hs.
  destruct l as [|[t [[d h] a]] l].
  - exists s1. split; [|split; [by exists []|done]]. unfold check_round. rewrite modify_bind, get_bind. change (set_env _ s) with s1. by rewrite (Hs : next_timeout s1 = None).
  - cbn [fmap list_fmap snd dues]. rewrite tm_mk. cbn [fst snd]. pose proof Hs as (En & e & He & Hv & H2). injection Hv as Ed Eh Ea.
    pose proof (tl_ok _ _ _ Hl1) as Hok. cbn [fmap list_fmap snd] in Hok. pose proof Hok as (Hd & Hok2 & _)%deltas_tail. rewrite tm_mk in Hd.
    unfold check_round. rewrite modify_bind, get_bind. change (set_env _ s) with s1. rewrite En, (bind_done _ _ _ _ _ (rd_ok _ _ _ He)), Ed.
    destruct (Z.leb_spec d diff) as [Hle|Hgt].
    + rewrite (proj2 (Z.leb_le _ _)) by lia. rewrite !modify_bind. set (s2 := set_next_timeout (st_next e) (set_last_time now s1)).
      destruct (timeo_freed_ok n s1 _ l t e Hl1) with (s' := s2) as (s3 & E3 & Hs3 & Hf3 & Hr3 & _); [done|done|done|done|done|done|].
      exists s3. rewrite (bind_done _ _ _ _ _ E3). rewrite Eh, Ea, u32_id by (unfold is_u32; lia). replace (base + diff - (base + d)) with (diff - d) by lia.
      split; [done|]. split; [by exists l|]. rewrite Hf3. split; [done|]. split; [lia|]. by rewrite Hr3.
    + rewrite (proj2 (Z.leb_gt _ _)) by lia. exists s1. split; [done|]. split; [|done]. by exists ((t, (d, h, a)) :: l).
Qed.

(** The pending timeouts are in order. *)
Lemma dues_sorted ds : Forall (fun t => 0 <= tm t) ds -> forall b, Forall (fun t => b <= tm t) (dues b ds) /\ StronglySorted (fun t u => tm t <= tm u) (dues b ds).
Proof.
  induction 1 as [|[[d h] a] ds Hd Hds IH]; intros b; [by repeat constructor|]. cbn [dues]. rewrite tm_mk in Hd. destruct (IH (b + d)) as [H1 H2].
  split; constructor; rewrite ?tm_mk; [lia| |done|exact H1]. eapply list.Forall_impl; [exact H1|]. intros t Ht. cbn in Ht. lia.
Qed.

Lemma pending_sorted n s base ts : pending n s base ts -> Forall (fun t => base <= tm t) ts /\ StronglySorted (fun t u => tm t <= tm u) ts.
Proof. intros (l & Hl & <-). apply dues_sorted, (tl_ok _ _ _ Hl). Qed.

Lemma pending_shift n s base ts c : pending n s base ts -> pending n s (base + c) ((fun t => (tm t + c, t.1.2, t.2)) <$> ts).
Proof. intros (l & Hl & <-). exists l. split; [done|]. apply dues_shift. Qed.
End list.
