(* ===== verification/TimeoutsRun.v ===== *)
(** * The timeouts running

    The histories of core/timers.c: the clock ticks, timeouts are set and cancelled, by
    handlers and by others, the main loop calls sys_check_timeouts, which runs one handler
    after the other, and sys_restart_timeouts. *)

From Stdlib Require Import Sorted.
From S2P Require Import Prelude Lseg Timeouts TimeoutsSpec.

(** ** Lists of timeouts with something attached *)

Section attached.
Context {B : Type}.

Implicit Types (l : list (timer * B)).

Lemma insert_by_fst x l : (insert_by (fun y => tm y.1) x l).*1 = insert_due x.1 l.*1.
Proof.
  induction l as [|y l IH]; [done|]. cbn [insert_by fmap list_fmap]. destruct (tm x.1 <? tm y.1); [done|]. cbn [fmap list_fmap].
  by rewrite <- IH.
Qed.

Lemma insert_by_perm {A} (key : A -> Z) x (l : list A) : insert_by key x l ≡ₚ x :: l.
Proof. induction l as [|y l IH]; cbn [insert_by]; [done|]. destruct (key x <? key y); [done|]. rewrite IH. apply Permutation_swap. Qed.

Lemma drop_first_fst (p : timer -> bool) l : (drop_first (fun y => p y.1) l).*1 = drop_first p l.*1.
Proof. induction l as [|y l IH]; [done|]. cbn [drop_first fmap list_fmap]. destruct (p y.1); [done|]. cbn [fmap list_fmap]. by rewrite <- IH. Qed.

Lemma drop_first_perm {A} (p : A -> bool) (l : list A) : l ≡ₚ option_list (List.find p l) ++ drop_first p l.
Proof.
  induction l as [|y l IH]; [done|]. cbn [List.find drop_first]. destruct (p y); [done|]. rewrite IH at 1. by rewrite Permutation_middle.
Qed.

End attached.

Section run.
Context {E : Type} `{TimerClients E}.

(** A pending timeout: when it is due as the list has it, its handler and argument, and
    the deadline it got when it was set. *)
Abbreviation entry := (timer * Z)%type.

(** The time since the start, the module, the time its list counts from, the time in
    timeouts_last_time, the check that is running (its time and what is left of diff), the
    pending timeouts, and what happened: the timeouts set with their deadlines, those
    cancelled, and those called with the time of the check. *)
Record world := World {
  w_now : Z;
  w_tm : timeouts E;
  w_base : Z;
  w_last : Z;
  w_check : option (Z * Z);
  w_pend : list entry;
  w_set : list timer;
  w_cancelled : list entry;
  w_called : list (entry * Z)
}.

(** The list moves when it counts from a later time. *)
Definition shift (c : Z) (l : list entry) : list entry := (fun x => ((tm x.1 + c, x.1.1.2, x.1.2), x.2)) <$> l.

Inductive timer_step : world -> world -> Prop :=
| ts_tick w d : 0 <= d ->
    timer_step w (World (w_now w + d) (w_tm w) (w_base w) (w_last w) (w_check w) (w_pend w) (w_set w) (w_cancelled w) (w_called w))
| ts_timeout w m h a s' : 0 <= m < 2 ^ 32 -> sys_timeout m h a (w_tm w) = Done (tt, s') ->
    timer_step w (World (w_now w) s' (w_base w) (w_last w) (w_check w)
      (insert_by (fun y => tm y.1) ((w_base w + m, h, a), w_base w + m) (w_pend w))
      (w_set w ++ [(w_base w + m, h, a)]) (w_cancelled w) (w_called w))
| ts_untimeout w h a s' : sys_untimeout h a (w_tm w) = Done (tt, s') ->
    timer_step w (World (w_now w) s' (w_base w) (w_last w) (w_check w)
      (drop_first (fun y => matches h a y.1) (w_pend w)) (w_set w)
      (w_cancelled w ++ option_list (List.find (fun y => matches h a y.1) (w_pend w))) (w_called w))
| ts_restart w s' : w_check w = None -> sys_restart_timeouts (u32 (w_now w)) (w_tm w) = Done (tt, s') ->
    timer_step w (World (w_now w) s' (w_now w) (w_now w) None
      (shift (w_now w - w_base w) (w_pend w)) (w_set w) (w_cancelled w) (w_called w))
| ts_check w : w_check w = None -> w_now w - w_last w < 2 ^ 32 -> next_timeout (w_tm w) <> None ->
    timer_step w (World (w_now w) (w_tm w) (w_base w) (w_last w) (Some (w_now w, u32 (u32 (w_now w) - timeouts_last_time (w_tm w))))
      (w_pend w) (w_set w) (w_cancelled w) (w_called w))
| ts_call w now diff diff' s' x rest : w_check w = Some (now, diff) -> w_pend w = x :: rest ->
    check_round (u32 now) diff (w_tm w) = Done (Some (x.1.1.2, x.1.2, diff'), s') ->
    timer_step w (World (w_now w) s' (tm x.1) now (Some (now, diff')) rest (w_set w) (w_cancelled w) (w_called w ++ [(x, now)]))
| ts_end w now diff s' : w_check w = Some (now, diff) -> check_round (u32 now) diff (w_tm w) = Done (None, s') ->
    timer_step w (World (w_now w) s' (w_last w) (w_last w) None
      (shift (w_last w - w_base w) (w_pend w)) (w_set w) (w_cancelled w) (w_called w)).

(** Before sys_timeouts_init; timeouts_last_time is 0. *)
Definition boot (now : Z) (pool : list Z) (e : E) : world := World now (Timeouts ∅ pool None 0 false e) 0 0 None [] [] [] [].

Definition origin (x : entry) : timer := (x.2, x.1.1.2, x.1.2).

Definition due_order : list timer -> Prop := StronglySorted (fun t u => tm t <= tm u).

Record timer_inv (n : nat) (w : world) : Prop := TimerInv {
  ti_pending : pending n (w_tm w) (w_base w) (w_pend w).*1;
  ti_last : timeouts_last_time (w_tm w) = u32 (w_last w);
  ti_base : w_base w <= w_last w <= w_now w /\
    match w_check w with
    | None => w_base w = w_last w
    | Some (now, diff) => diff = now - w_base w /\ 0 <= diff < 2 ^ 32 /\ w_last w <= now <= w_now w
    end;
  ti_floor : Forall (fun x => x.2 <= tm x.1) (w_pend w);
  ti_called : Forall (fun c => c.1.2 <= tm c.1.1 <= c.2 /\ c.2 <= w_now w) (w_called w);
  ti_called_base : Forall (fun c => tm c.1.1 <= w_base w) (w_called w);
  ti_called_order : due_order (w_called w).*1.*1;
  ti_all : w_set w ≡ₚ origin <$> ((w_called w).*1 ++ w_cancelled w ++ w_pend w)
}.

Lemma boot_inv now pool e : 0 <= now -> NoDup pool -> timer_inv (length pool) (boot now pool e).
Proof.
  intros Hn Hp. split; cbn; [|done|lia|done|done|done|constructor|done]. exists []. split; [|done]. split; cbn; [done|done| |done|].
  - intros a. rewrite lookup_empty. split; [by intros [? ?]|by intros ?%elem_of_nil].
  - split; [done|]. cbn. lia.
Qed.

Lemma shift_pending n (s : timeouts E) base l c : pending n s base l.*1 -> pending n s (base + c) (shift c l).*1.
Proof.
  intros Hp%(pending_shift _ _ _ _ c). unfold shift. rewrite <- list_fmap_compose. rewrite <- list_fmap_compose in Hp. exact Hp.
Qed.

Lemma shift_origin c l : origin <$> shift c l = origin <$> l.
Proof. unfold shift. rewrite <- list_fmap_compose. done. Qed.

Lemma shift_floor c l : 0 <= c -> Forall (fun x => x.2 <= tm x.1) l -> Forall (fun x => x.2 <= tm x.1) (shift c l).
Proof.
  intros Hc Hl. unfold shift. apply list.Forall_fmap. eapply list.Forall_impl; [exact Hl|]. intros x Hx. cbn in *. lia.
Qed.

Lemma sorted_snoc ts t : due_order ts -> Forall (fun u => tm u <= tm t) ts -> due_order (ts ++ [t]).
Proof.
  induction 1 as [|x ts Hs IH Hx]; intros Ht; cbn [app]; [by repeat constructor|]. apply Forall_cons_iff in Ht as [H1 H2].
  constructor; [by apply IH|]. apply Forall_app. by repeat constructor.
Qed.

Lemma sorted_app ts us b : due_order ts -> due_order us -> Forall (fun t => tm t <= b) ts -> Forall (fun t => b <= tm t) us -> due_order (ts ++ us).
Proof.
  intros Hts Hus Ht Hu. induction Hts as [|x ts Hs IH Hx]; [done|]. apply Forall_cons_iff in Ht as [Hxb Ht]. cbn [app].
  constructor; [by apply IH|]. apply Forall_app. split; [done|]. eapply list.Forall_impl; [exact Hu|]. intros u Hub. cbn in *. lia.
Qed.

Lemma step_inv n w w' : timer_step w w' -> timer_inv n w -> timer_inv n w'.
Proof.
  intros Hst [Hp Hl Hb Hf Hc Hcb Ho Ha]. destruct Hst as [w d Hd|w m h a s' Hm E1|w h a s' E1|w s' Hn E1|w Hn Hlt Hne|w now diff diff' s' x rest Hr Hw E1|w now diff s' Hr E1];
    cbn in *.
  - split; cbn; try done.
    + destruct (w_check w) as [[now diff]|]; lia.
    + eapply list.Forall_impl; [exact Hc|]. intros c. cbn. lia.
  - destruct (free_timeos (w_tm w)) as [|b rest] eqn:Ef; [by unfold sys_timeout in E1; rewrite get_bind, Ef in E1|].
    destruct (pending_timeout n _ _ _ m h a Hp ltac:(by rewrite Ef) Hm) as (s2 & E2 & Hp2 & Hr2 & _). rewrite E1 in E2. injection E2 as <-.
    split; cbn; try done; [by rewrite insert_by_fst|by rewrite Hr2| |].
    + rewrite insert_by_perm. constructor; [cbn; lia|done].
    + rewrite Ha, insert_by_perm, !fmap_app. cbn [fmap list_fmap]. unfold origin at 6. cbn. solve_Permutation.
  - destruct (pending_untimeout n _ _ _ h a Hp) as (s2 & E2 & Hp2 & (Hr2 & _) & _). rewrite E1 in E2. injection E2 as <-.
    split; cbn; try done; [by rewrite drop_first_fst|by rewrite Hr2| |].
    + rewrite (drop_first_perm (fun y => matches h a y.1)) in Hf. apply Forall_app in Hf as [_ Hf]. done.
    + rewrite Ha. rewrite (drop_first_perm (fun y => matches h a y.1) (w_pend w)) at 1. by rewrite <- !app_assoc.
  - rewrite Hn in Hb. injection E1 as <-. split; cbn; try done; [| | |].
    + pose proof (shift_pending n _ _ _ (w_now w - w_base w) Hp) as Hs. replace (w_base w + (w_now w - w_base w)) with (w_now w) in Hs by lia.
      destruct Hs as (l0 & Hl0 & Hd0). exists l0. split; [by destruct Hl0|done].
    + apply shift_floor; [lia|done].
    + eapply list.Forall_impl; [exact Hcb|]. intros c. cbn. lia.
    + by rewrite Ha, !fmap_app, shift_origin.
  - rewrite Hn in Hb. split; cbn; try done. rewrite Hl. destruct Hb as [Hb1 Hb2]. split; [lia|].
    assert (u32 (u32 (w_now w) - u32 (w_last w)) = w_now w - w_last w) as -> by (unfold u32; rewrite <- Zminus_mod; apply Z.mod_small; lia). lia.
  - rewrite Hr in Hb. destruct Hb as (Hb1 & -> & Hb2 & Hb3). rewrite Hw in Hp, Hf, Ha. cbn [fmap list_fmap] in Hp.
    pose proof (check_round_ok n _ _ _ (u32 now) _ Hp Hb2) as Hk. cbn in Hk. destruct (Z.leb_spec (tm x.1) (w_base w + (now - w_base w))) as [Hle|Hgt];
      [|destruct Hk as (s2 & E2 & _); rewrite E1 in E2; done].
    destruct Hk as (s2 & E2 & Hp2 & _ & Hbt & Hlt). rewrite E1 in E2. injection E2 as -> <-. apply Forall_cons_iff in Hf as [Hxf Hf].
    split; cbn; try done; [lia| | | |].
    + apply Forall_app. split; [done|]. constructor; [cbn; lia|done].
    + apply Forall_app. split; [|by constructor]. eapply list.Forall_impl; [exact Hcb|]. intros c. cbn. lia.
    + rewrite !fmap_app. apply sorted_snoc; [done|]. do 2 apply list.Forall_fmap. eapply list.Forall_impl; [exact Hcb|]. intros c. cbn. lia.
    + rewrite Ha, !fmap_app. cbn [fmap list_fmap fst]. solve_Permutation.
  - rewrite Hr in Hb. destruct Hb as (Hb1 & -> & Hb2 & Hb3). pose proof (check_round_ok n _ _ _ (u32 now) _ Hp Hb2) as Hk.
    assert (pending n s' (w_base w) (w_pend w).*1 /\ timeouts_last_time s' = timeouts_last_time (w_tm w)) as [Hp' Hl'].
    { destruct ((w_pend w).*1) as [|t ts]; [destruct Hk as (s2 & E2 & Hp2 & Hl2); rewrite E1 in E2; by injection E2 as <-|].
      destruct (tm t <=? _); [destruct Hk as (s2 & E2 & _); rewrite E1 in E2; done|]. destruct Hk as (s2 & E2 & Hp2 & Hl2). rewrite E1 in E2. by injection E2 as <-. }
    split; cbn; try done; [|by rewrite Hl'|lia| | |].
    + pose proof (shift_pending n _ _ _ (w_last w - w_base w) Hp') as Hs. by replace (w_base w + (w_last w - w_base w)) with (w_last w) in Hs by lia.
    + apply shift_floor; [lia|done].
    + eapply list.Forall_impl; [exact Hcb|]. intros c. cbn. lia.
    + by rewrite Ha, !fmap_app, shift_origin.
Qed.

Lemma reach_inv now pool e w : 0 <= now -> NoDup pool -> rtc timer_step (boot now pool e) w -> timer_inv (length pool) w.
Proof.
  intros Hn Hp Hr. pose proof (boot_inv now pool e Hn Hp) as Hi. remember (boot now pool e) as w0 eqn:Ew. clear Ew.
  induction Hr as [|w0 w1 w2 Hst _ IH]; [done|]. by apply IH, (step_inv _ _ _ Hst).
Qed.

(** A timeout set while none was pending, longer ago than it is to wait since the last
    check that found one: the next check takes it. *)
Lemma early_call n s base now m h a : pending n s base [] -> free_timeos s <> [] -> 0 <= m <= u32 (now - timeouts_last_time s) ->
  exists s1 s2, sys_timeout m h a s = Done (tt, s1) /\
    check_round now (u32 (now - timeouts_last_time s1)) s1 = Done (Some (h, a, u32 (now - timeouts_last_time s) - m), s2) /\
    next_timeout s1 <> None /\ pending n s2 (base + m) [].
Proof.
  intros Hp Hf Hm. pose proof (u32_range (now - timeouts_last_time s)) as Hu. unfold is_u32 in Hu.
  destruct (pending_timeout n s base [] m h a Hp Hf) as (s1 & E1 & Hp1 & (Hl1 & _)); [lia|]. exists s1. rewrite Hl1.
  pose proof (check_round_ok n s1 base _ now (u32 (now - timeouts_last_time s)) Hp1 ltac:(lia)) as Hk. cbn [insert_by] in Hk. rewrite tm_mk in Hk. cbn [fst snd] in Hk.
  rewrite (proj2 (Z.leb_le _ _)) in Hk by lia. destruct Hk as (s2 & E2 & Hp2 & _). exists s2. split; [done|].
  replace (base + u32 (now - timeouts_last_time s) - (base + m)) with (u32 (now - timeouts_last_time s) - m) in E2 by lia. split; [done|]. split; [|done]. destruct Hp1 as (l & [Hs _ _ _ _] & Hd). intros En.
  destruct l as [|[x v] l]; [done|]. destruct Hs as [Hs _]. congruence.
Qed.

(** ** A check ends *)

(** The timeouts that are due when the list counts from. *)
Definition due_at (base : Z) (ts : list timer) : nat := length (List.filter (fun t => tm t =? base) ts).

Lemma due_at_le base ts : (due_at base ts <= length ts)%nat.
Proof. unfold due_at. induction ts as [|t ts IH]; [done|]. cbn [List.filter length]. destruct (tm t =? base); cbn [length]; lia. Qed.

Lemma due_at_cons base t ts : due_at base (t :: ts) = if tm t =? base then Datatypes.S (due_at base ts) else due_at base ts.
Proof. unfold due_at. cbn [List.filter]. by destruct (tm t =? base). Qed.

Lemma due_at_insert base t ts : base < tm t -> due_at base (insert_due t ts) = due_at base ts.
Proof.
  intros Ht. unfold due_at. induction ts as [|x ts IH]; cbn [insert_by List.filter]; [by rewrite (proj2 (Z.eqb_neq _ _)) by lia|].
  destruct (tm t <? tm x); cbn [List.filter]; [by rewrite (proj2 (Z.eqb_neq (tm t) base)) by lia|]. destruct (tm x =? base); [cbn [length]; by rewrite IH|done].
Qed.

Lemma due_at_cancel base h a ts : (due_at base (cancel h a ts) <= due_at base ts)%nat.
Proof.
  unfold due_at, cancel. induction ts as [|x ts IH]; [done|]. cbn [drop_first List.filter].
  destruct (matches h a x); [destruct (tm x =? base); cbn [length]; lia|]. cbn [List.filter]. destruct (tm x =? base); cbn [length]; lia.
Qed.

Lemma pending_count n (s : timeouts E) base ts : pending n s base ts -> (length ts <= n)%nat.
Proof.
  intros (l & [_ _ _ Hc _] & <-). assert (length (dues base l.*2) = length l) as ->; [|lia].
  generalize l.*2, base, (length_fmap snd l). intros ds. generalize (length l). induction ds as [|[[d h] a] ds IH]; intros k b <-; [done|].
  cbn [dues length]. f_equal. by apply IH.
Qed.

(** What the handlers of users may do: set timeouts that wait, one at least being free,
    and cancel others. *)
Class HandlersOk (n : nat) (user : Z -> Z -> M (timeouts E) unit) : Prop :=
  user_ok k arg s base ts : pending n s base ts -> free_timeos s <> [] ->
    exists s' ts', user k arg s = Done (tt, s') /\ pending n s' base ts' /\ (due_at base ts' <= due_at base ts)%nat.

Section checks.
Context (n : nat) (user : Z -> Z -> M (timeouts E) unit) `{!HandlersOk n user}.

Lemma pending_env f (s : timeouts E) base ts : pending n s base ts -> pending n (set_env f s) base ts.
Proof. intros (l & Hl & Hd). exists l. split; [by destruct Hl; split|done]. Qed.

(** The stack's own timers do so. *)
Lemma call_handler_ok h arg (s : timeouts E) base ts : pending n s base ts -> free_timeos s <> [] ->
  exists s' ts', call_handler user h arg s = Done (tt, s') /\ pending n s' base ts' /\ (due_at base ts' <= due_at base ts)%nat.
Proof.
  assert (forall f (s : timeouts E) m k, pending n s base ts -> free_timeos s <> [] -> 0 < m < 2 ^ 32 -> exists s' ts', sys_timeout m k 0 (set_env f s) = Done (tt, s') /\
    pending n s' base ts' /\ (due_at base ts' <= due_at base ts)%nat) as Hagain.
  { intros f s0 m k Hp Hf Hm. destruct (pending_timeout n (set_env f s0) base ts m k 0 (pending_env f s0 base ts Hp) Hf ltac:(lia)) as (s' & E1 & Hp' & _).
    exists s', (insert_due (base + m, k, 0) ts). split; [done|]. split; [done|]. by rewrite due_at_insert by (rewrite tm_mk; lia). }
  intros Hp Hf. destruct h as [[| | |k]|]; cbn [call_handler].
  - unfold tcpip_tcp_timer. rewrite modify_bind, get_bind. destruct (tcp_pcbs_left _); [by apply Hagain|].
    exists (set_active false (set_env tcp_tmr s)), ts. split; [done|]. split; [|done]. destruct Hp as (l & Hl & Hd). exists l. split; [by destruct Hl; split|done].
  - unfold ip_reass_timer. rewrite modify_bind. by apply Hagain.
  - unfold arp_timer. rewrite modify_bind. by apply Hagain.
  - by apply user_ok.
  - by exists s, ts.
Qed.

Lemma check_loop_ok fuel : forall now diff s base ts, pending n s base ts -> 0 <= diff < 2 ^ 32 ->
  (Z.to_nat diff * (n + 1) + due_at base ts < fuel)%nat ->
  exists s' base' ts', check_loop user fuel now diff s = Done (tt, s') /\ pending n s' base' ts' /\ Forall (fun t => base + diff < tm t) ts'.
Proof.
  induction fuel as [|fuel IH]; intros now diff s base ts Hp Hd Hf; [lia|]. cbn [check_loop].
  pose proof (check_round_ok n s base ts now diff Hp Hd) as Hk. destruct ts as [|t rest].
  { destruct Hk as (s' & E1 & Hp' & _). rewrite (bind_done _ _ _ _ _ E1). by exists s', base, []. }
  destruct (Z.leb_spec (tm t) (base + diff)) as [Hle|Hgt].
  - destruct Hk as (s1 & E1 & Hp1 & Hf1 & Hb & _). rewrite (bind_done _ _ _ _ _ E1). cbv beta iota.
    destruct (call_handler_ok t.1.2 t.2 s1 (tm t) rest Hp1 Hf1) as (s2 & ts2 & E2 & Hp2 & Hn2). rewrite (bind_done _ _ _ _ _ E2).
    destruct (IH now (base + diff - tm t) s2 (tm t) ts2 Hp2) as (s' & base' & ts' & E3 & Hp3 & Hts); [lia| |].
    + pose proof (due_at_le (tm t) rest) as Hl. pose proof (pending_count _ _ _ _ Hp) as Hc. cbn [length] in Hc. rewrite due_at_cons in Hf.
      destruct (Z.eqb_spec (tm t) base) as [Hb'|Hne]; [rewrite Hb' in *; replace (base + diff - base) with diff by lia; lia|].
      assert (Z.to_nat (base + diff - tm t) + 1 <= Z.to_nat diff)%nat as Hlt by lia. nia.
    + exists s', base', ts'. split; [done|]. split; [done|]. by replace (base + diff) with (tm t + (base + diff - tm t)) by lia.
  - destruct Hk as (s1 & E1 & Hp1 & _). rewrite (bind_done _ _ _ _ _ E1). exists s1, base, (t :: rest). split; [done|]. split; [done|].
    destruct (pending_sorted _ _ _ _ Hp) as [_ Hs]. apply StronglySorted_inv in Hs as [_ Hs]. constructor; [done|].
    eapply list.Forall_impl; [exact Hs|]. intros u. cbn. lia.
Qed.
End checks.

(** C16: in every history the list is the pending timeouts in the order they are due, and the
    handlers are called in that order.  The deadline that sys_timeout gives a timeout of
    [m] ms is [m] ms behind the time the list counts from, which is timeouts_last_time
    between checks and at most the time of the call: it is not [m] ms behind the call, and
    a handler can be called before [m] ms have passed since.  A handler is not called
    before that deadline; every timeout that was set is called once, cancelled, or pending.
    No call aborts unless the pool is empty, and a round of a check fires the first timeout
    exactly when it is due at the time of the check. *)
Theorem timeouts_in_order now pool e w : 0 <= now -> NoDup pool -> rtc timer_step (boot now pool e) w ->
  let n := length pool in
  pending n (w_tm w) (w_base w) (w_pend w).*1 /\ due_order ((w_called w).*1.*1 ++ (w_pend w).*1) /\
  Forall (fun c => c.1.2 <= tm c.1.1 <= c.2 /\ c.2 <= w_now w) (w_called w) /\
  w_set w ≡ₚ origin <$> ((w_called w).*1 ++ w_cancelled w ++ w_pend w) /\
  timeouts_last_time (w_tm w) = u32 (w_last w) /\ w_base w <= w_last w <= w_now w /\ (w_check w = None -> w_base w = w_last w) /\
  (forall m h a, 0 <= m < 2 ^ 32 -> free_timeos (w_tm w) <> [] -> exists s', sys_timeout m h a (w_tm w) = Done (tt, s') /\
    pending n s' (w_base w) (insert_due (w_base w + m, h, a) (w_pend w).*1)) /\
  (forall h a, exists s', sys_untimeout h a (w_tm w) = Done (tt, s')) /\
  (forall at_ diff, w_check w = Some (at_, diff) -> exists r s', check_round (u32 at_) diff (w_tm w) = Done (r, s') /\
    (r = None <-> Forall (fun x => at_ < tm x.1) (w_pend w))).
Proof.
  intros Hn Hnd Hr n. destruct (reach_inv _ _ _ _ Hn Hnd Hr) as [Hp Hl Hb Hf Hc Hcb Ho Ha]. fold n in Hp.
  destruct (pending_sorted _ _ _ _ Hp) as [Hge Hs]. split; [done|]. split; [|split; [done|split; [done|split; [done|split; [lia|split; [|split; [|split]]]]]]].
  - apply (sorted_app _ _ (w_base w)); [done|done| |done]. by do 2 apply list.Forall_fmap.
  - intros E1. rewrite E1 in Hb. by destruct Hb.
  - intros m h a Hm Hfree. destruct (pending_timeout n _ _ _ m h a Hp Hfree Hm) as (s' & E1 & Hp' & _). by exists s'.
  - intros h a. destruct (pending_untimeout n _ _ _ h a Hp) as (s' & E1 & _). by exists s'.
  - intros at_ diff Hck. rewrite Hck in Hb. destruct Hb as (_ & -> & Hd & _). pose proof (check_round_ok n _ _ _ (u32 at_) _ Hp Hd) as Hk.
    destruct (w_pend w) as [|x rest]; [destruct Hk as (s' & E1 & _); by exists None, s'|]. cbn [fmap list_fmap] in Hk.
    replace (w_base w + (at_ - w_base w)) with at_ in Hk by lia. destruct (Z.leb_spec (tm x.1) at_) as [Hle|Hgt]; destruct Hk as (s' & E1 & _).
    + eexists _, s'. split; [exact E1|]. split; [done|]. intros [Hx _]%Forall_cons_iff. lia.
    + exists None, s'. split; [done|]. split; [|done]. intros _. constructor; [done|]. cbn [fmap list_fmap] in Hs. apply StronglySorted_inv in Hs as [_ Hs].
      apply (proj1 (list.Forall_fmap _ _ _)) in Hs. eapply list.Forall_impl; [exact Hs|]. intros y. cbn. lia.
Qed.

(** C37: sys_check_timeouts returns when the handlers only set timeouts that wait: the rounds
    are bounded by the time since the last check that fired and the elements of the pool.
    Afterwards nothing that was due is pending, and nothing that the handlers made due. *)
Theorem sys_check_timeouts_returns n user `{!HandlersOk n user} s base ts now fuel : pending n s base ts ->
  let diff := u32 (now - timeouts_last_time s) in (Z.to_nat diff * (n + 1) + n < fuel)%nat ->
  exists s' base' ts', sys_check_timeouts user fuel now s = Done (tt, s') /\ pending n s' base' ts' /\ Forall (fun t => base + diff < tm t) ts'.
Proof.
  intros Hp diff Hf. pose proof (u32_range (now - timeouts_last_time s)) as Hd. unfold is_u32 in Hd. unfold sys_check_timeouts. rewrite get_bind.
  destruct (next_timeout s) as [t|] eqn:En.
  - apply (check_loop_ok n user fuel now diff s base ts Hp); [done|]. pose proof (due_at_le base ts). pose proof (pending_count _ _ _ _ Hp). lia.
  - destruct Hp as (l & Hl & <-). pose proof (tl_seg _ _ _ Hl) as Hs. rewrite En in Hs. destruct l as [|[x v] l]; [|by destruct Hs].
    exists s, base, []. split; [done|]. split; [by exists []|done].
Qed.

(** A timeout counts from the last check that fired one, not from the call: when nothing
    is pending and that check is longer ago than the timeout is to wait, a check that
    follows at once calls the handler. *)
Theorem sys_timeout_early n s base now m h a : pending n s base [] -> free_timeos s <> [] -> 0 <= m <= u32 (now - timeouts_last_time s) ->
  exists s1 s2, sys_timeout m h a s = Done (tt, s1) /\
    check_round now (u32 (now - timeouts_last_time s1)) s1 = Done (Some (h, a, u32 (now - timeouts_last_time s) - m), s2) /\
    next_timeout s1 <> None /\ pending n s2 (base + m) [].
Proof. apply early_call. Qed.
End run.

(** ** Examples *)

(** A stack that does nothing, and users that do nothing. *)
#[local] Instance idle : TimerClients unit := Build_TimerClients unit (fun e => e) (fun _ => false) (fun e => e) (fun e => e) (fun e => e).

Definition no_user (k arg : Z) : M (timeouts unit) unit := mret tt.

#[local] Instance no_user_ok n : HandlersOk n no_user.
Proof. intros k arg s base ts Hp _. by exists s, ts. Qed.

Definition empty_list (now : Z) : timeouts unit := Timeouts ∅ [1; 2; 3] None now false tt.

Lemma empty_list_pending now base : pending 3 (empty_list now) base [].
Proof.
  exists []. split; [|done]. split; cbn; [done| | |done|split; [done|cbn; lia]].
  - apply (bool_decide_eq_true_1 (NoDup _)). by vm_compute.
  - intros a. rewrite lookup_empty. split; [by intros [? ?]|by intros ?%elem_of_nil].
Qed.

(** A minute after the start a timeout of half a second is called at once. *)
Lemma sys_timeout_early_witness : exists s1 s2,
  sys_timeout 500 (Some (UserHandler 7)) 1 (empty_list 0) = Done (tt, s1) /\
  check_round 60000 (u32 (60000 - timeouts_last_time s1)) s1 = Done (Some (Some (UserHandler 7), 1, 59500), s2).
Proof.
  destruct (sys_timeout_early 3 (empty_list 0) 0 60000 500 (Some (UserHandler 7)) 1 (empty_list_pending 0 0)) as (s1 & s2 & E1 & E2 & _).
  - done.
  - vm_compute. split; discriminate.
  - exists s1, s2. split; [exact E1|exact E2].
Defined.

(** What sys_timeouts_init leaves behind. *)
Definition stack_timers : timeouts unit :=
  Timeouts {[ 1 := SysTimeo (Some 2) 1000 (Some IpReassTimer) 0; 2 := SysTimeo None 4000 (Some ArpTimer) 0 ]} [3] (Some 1) 0 false tt.

Example init_sets_timers : sys_timeouts_init 0 (empty_list 0) = Done (tt, stack_timers).
Proof. vm_compute. reflexivity. Qed.

Definition reass_and_arp : list timer := [(1000, Some IpReassTimer, 0); (5000, Some ArpTimer, 0)].

Lemma stack_timers_pending : pending 3 stack_timers 0 reass_and_arp.
Proof.
  exists [(1, (1000, Some IpReassTimer, 0)); (2, (4000, Some ArpTimer, 0))]. split; [|done]. split; cbn; [| | |done|].
  - split; [done|]. eexists. split; [reflexivity|]. split; [done|]. split; [done|]. eexists. split; [reflexivity|]. by split.
  - apply (bool_decide_eq_true_1 (NoDup _)). by vm_compute.
  - intros a. rewrite lookup_insert_is_Some', lookup_singleton_is_Some, !elem_of_cons, elem_of_nil. intuition congruence.
  - split; [repeat constructor; done|]. cbn. unfold tm. cbn. lia.
Qed.

Lemma sys_check_timeouts_returns_witness : exists s' base' ts',
  sys_check_timeouts no_user (Z.to_nat 10004) 2500 stack_timers = Done (tt, s') /\ pending 3 s' base' ts' /\ Forall (fun t => 2500 < tm t) ts'.
Proof.
  apply (sys_check_timeouts_returns 3 no_user stack_timers 0 reass_and_arp 2500 (Z.to_nat 10004) stack_timers_pending).
  change (u32 (2500 - timeouts_last_time stack_timers)) with 2500. lia.
Defined.

(** A user's timeout of 500 ms, set at 0, is called by a check after 600 ms. *)
Definition one_timer : timer := (500, Some (UserHandler 7), 1).

Definition one_set : timeouts unit := Timeouts {[ 1 := SysTimeo None 500 (Some (UserHandler 7)) 1 ]} [2; 3] (Some 1) 0 false tt.

Definition called_late : world (E := unit) :=
  World 600 (Timeouts ∅ [1; 2; 3] None 600 false tt) 500 600 (Some (600, 100)) [] [one_timer] [] [((one_timer, 500), 600)].

Lemma timeouts_in_order_witness :
  rtc timer_step (boot 0 [1; 2; 3] tt) called_late /\
  Forall (fun c => c.1.2 <= tm c.1.1 <= c.2 /\ c.2 <= 600) [((one_timer, 500), 600)] /\
  [one_timer] ≡ₚ origin <$> [(one_timer, 500)].
Proof.
  assert (rtc timer_step (boot 0 [1; 2; 3] tt) called_late) as Hr.
  { eapply rtc_l; [eapply (ts_timeout _ 500 (Some (UserHandler 7)) 1 one_set); [done|by vm_compute]|].
    eapply rtc_l; [eapply (ts_tick _ 600); done|].
    eapply rtc_l; [eapply ts_check; [done|cbn; lia|done]|].
    eapply rtc_l; [|apply rtc_refl].
    exact (ts_call (World 600 one_set 0 0 (Some (600, 600)) [(one_timer, 500)] [one_timer] [] []) 600 600 100
      (Timeouts ∅ [1; 2; 3] None 600 false tt) (one_timer, 500) [] eq_refl eq_refl ltac:(by vm_compute)). }
  split; [exact Hr|].
  destruct (timeouts_in_order 0 [1; 2; 3] tt called_late ltac:(done) ltac:(apply (bool_decide_eq_true_1 (NoDup _)); by vm_compute) Hr) as (_ & _ & Hc & Hs & _).
  split; [exact Hc|exact Hs].
Defined.
