(* ===== verification/TcpPcb.v ===== *)
(** * TCP: the protocol control block

    The data of tcp.h and tcp_impl.h: sequence numbers, segments, the PCB of a connection,
    the variables of tcp_in.c about the segment that is processed, and the functions about
    the receive window and acknowledgements.  A chain of pbufs is the list of its payloads;
    sending goes through an interface. *)

From S2P Require Import Prelude.

(** ** Sequence numbers *)

Definition TCP_SEQ_LT (a b : Z) : bool := s32 (a - b) <? 0.

Definition TCP_SEQ_LEQ (a b : Z) : bool := s32 (a - b) <=? 0.

Definition TCP_SEQ_GT (a b : Z) : bool := 0 <? s32 (a - b).

Definition TCP_SEQ_GEQ (a b : Z) : bool := 0 <=? s32 (a - b).

Definition TCP_SEQ_BETWEEN (a b c : Z) : bool := TCP_SEQ_GEQ a b && TCP_SEQ_LEQ a c.

(** ** Constants *)

Definition TCP_FIN : Z := 0x01.

Definition TCP_SYN : Z := 0x02.

Definition TCP_RST : Z := 0x04.

Definition TCP_PSH : Z := 0x08.

Definition TCP_ACK : Z := 0x10.

Definition TF_ACK_DELAY : Z := 0x01.

Definition TF_ACK_NOW : Z := 0x02.

Definition TF_INFR : Z := 0x04.

Definition TF_RXCLOSED : Z := 0x10.

Definition TF_FIN : Z := 0x20.

Definition TF_NODELAY : Z := 0x40.

Definition TF_NAGLEMEMERR : Z := 0x80.

Definition TF_RESET : Z := 0x08.

Definition TF_CLOSED : Z := 0x10.

Definition TF_GOT_FIN : Z := 0x20.

Definition TCP_MSS : Z := 536.

Definition TCP_WND : Z := 10 * TCP_MSS.

Definition TCP_SND_BUF : Z := 12 * TCP_MSS.

Definition TCP_SND_QUEUELEN : Z := 40.

Definition TCP_SNDQUEUELEN_OVERFLOW : Z := 0xffff - 3.

Definition TCP_WND_UPDATE_THRESHOLD : Z := TCP_WND / 4.

(** A bit mask is tested, set and cleared. *)
Definition has (fl m : Z) : bool := nz (Z.land fl m).

Definition set_bits (m fl : Z) : Z := Z.lor fl m.

Definition clear_bits (m fl : Z) : Z := Z.ldiff fl m.

(** Results (err.h). *)
Definition ERR_OK : Z := 0.

Definition ERR_MEM : Z := -1.

Definition ERR_BUF : Z := -2.

Definition ERR_ABRT : Z := -10.

Definition ERR_RST : Z := -11.

Definition ERR_CLSD : Z := -12.

Definition ERR_CONN : Z := -13.

(** ** Data *)

Inductive tcp_state : Set :=
| CLOSED | LISTEN | SYN_SENT | SYN_RCVD | ESTABLISHED | FIN_WAIT_1 | FIN_WAIT_2 | CLOSE_WAIT | CLOSING | LAST_ACK | TIME_WAIT.

#[export] Instance tcp_state_eq_dec : EqDecision tcp_state.
Proof. solve_decision. Defined.

(** The order of the enumeration. *)
Definition state_num (s : tcp_state) : Z :=
  match s with
  | CLOSED => 0 | LISTEN => 1 | SYN_SENT => 2 | SYN_RCVD => 3 | ESTABLISHED => 4 | FIN_WAIT_1 => 5
  | FIN_WAIT_2 => 6 | CLOSE_WAIT => 7 | CLOSING => 8 | LAST_ACK => 9 | TIME_WAIT => 10
  end.

(** A chain of pbufs, and its tot_len. *)
Abbreviation chain := (list bytes).

Definition tot_len (p : chain) : Z := zlen (concat p).

(** struct tcp_seg, with the sequence number and the flags of its header in host order; the
    last field is its own flags. *)
Record tcp_seg := TcpSeg {
  sg_p : option chain;
  sg_len : Z;
  sg_seqno : Z;
  sg_flags : Z;
  sg_opts : Z
}.

Definition TCP_TCPLEN (seg : tcp_seg) : Z := sg_len seg + (if has (sg_flags seg) (Z.lor TCP_FIN TCP_SYN) then 1 else 0).

(** pbuf_clen *)
Definition clen (seg : tcp_seg) : Z := zlen (default [] (sg_p seg)).

Definition TF_SEG_OPTS_MSS : Z := 0x01.

Definition LWIP_TCP_OPT_LENGTH (flags : Z) : Z := if has flags TF_SEG_OPTS_MSS then 4 else 0.

(** The receiver variables of struct tcp_pcb. *)
Record tcp_rcv := TcpRcv {
  rcv_nxt : Z;
  rcv_wnd : Z;
  rcv_ann_wnd : Z;
  rcv_ann_right_edge : Z;
  ooseq : list tcp_seg
}.

(** The sender's sequence numbers, its buffer and its queues. *)
Record tcp_snd := TcpSnd {
  snd_nxt : Z;
  lastack : Z;
  snd_lbb : Z;
  acked : Z;
  snd_buf : Z;
  snd_queuelen : Z;
  unsent_oversize : Z;
  unsent : list tcp_seg;
  unacked : list tcp_seg
}.

(** The sender's window, and the persist timer. *)
Record tcp_win := TcpWin {
  snd_wnd : Z;
  snd_wnd_max : Z;
  snd_wl1 : Z;
  snd_wl2 : Z;
  persist_cnt : Z;
  persist_backoff : Z
}.

(** Congestion control, retransmission, and the measurement of the round trip. *)
Record tcp_ctl := TcpCtl {
  cwnd : Z;
  ssthresh : Z;
  dupacks : Z;
  rtime : Z;
  rto : Z;
  nrtx : Z;
  rttest : Z;
  rtseq : Z;
  sa : Z;
  sv : Z
}.

(** What is left: the address, options, timers, and data the application has refused,
    with its PBUF_FLAG_TCP_FIN. *)
Record tcp_misc := TcpMisc {
  local_ip : Z;
  so_options : Z;
  tmr : Z;
  polltmr : Z;
  pollinterval : Z;
  keep_idle : Z;
  keep_cnt_sent : Z;
  refused_data : option (chain * bool)
}.

(** struct tcp_pcb. *)
Record tcp_pcb := TcpPcb {
  state : tcp_state;
  pcb_flags : Z;
  mss : Z;
  misc : tcp_misc;
  rcv : tcp_rcv;
  snd_q : tcp_snd;
  win : tcp_win;
  ctl : tcp_ctl
}.

(** The header of the segment that is processed, in host order. *)
Record tcp_hdr := TcpHdr { hd_seqno : Z; hd_ackno : Z; hd_flags : Z; hd_wnd : Z; hd_opts : bytes }.

(** The variables of tcp_in.c about the segment, what it has for the application, and
    whether tcp_input_pcb is the PCB. *)
Record tcp_in := TcpIn {
  seqno : Z;
  ackno : Z;
  flags : Z;
  tcplen : Z;
  tcphdr : tcp_hdr;
  inseg : tcp_seg;
  recv_flags : Z;
  recv_data : option chain;
  tcp_input_pcb : bool
}.

(** A segment as it is sent; of the options there is only the MSS. *)
Record tcp_out := TcpOut {
  out_seqno : Z;
  out_ackno : Z;
  out_flags : Z;
  out_wnd : Z;
  out_mss : option Z;
  out_data : bytes
}.

Record tcp (E : Type) := Tcp { the_pcb : tcp_pcb; the_in : tcp_in; env : E }.

Arguments Tcp {E} _ _ _.
Arguments the_pcb {E} _.
Arguments the_in {E} _.
Arguments env {E} _.

(** What TCP needs: memory for a pbuf of a number of bytes, for one that refers to data of
    the application, and for a segment; ip_output to the other end; ip_route to it, with the
    address and the MTU of the interface; the clock of tcp_slowtmr, and its step; and the
    byte that is in a new pbuf as long as nothing is written there. *)
Class TcpHost (E : Type) := {
  alloc_ram : Z -> E -> option E;
  alloc_rom : E -> option E;
  alloc_seg : E -> option E;
  ip_output : tcp_out -> E -> E;
  ip_route : E -> option (Z * Z);
  tcp_ticks : E -> Z;
  tick : E -> E;
  tick_ticks e : tcp_ticks (tick e) = u32 (tcp_ticks e + 1);
  garbage : E -> Z
}.

Section ops.
Context {E : Type} `{TcpHost E}.

Implicit Types (t : tcp E).

Definition set_pcb (f : tcp_pcb -> tcp_pcb) t : tcp E := Tcp (f (the_pcb t)) (the_in t) (env t).

Definition set_in (f : tcp_in -> tcp_in) t : tcp E := Tcp (the_pcb t) (f (the_in t)) (env t).

Definition set_env (e : E) t : tcp E := Tcp (the_pcb t) (the_in t) e.

Definition set_state (s : tcp_state) (p : tcp_pcb) : tcp_pcb :=
  TcpPcb s (pcb_flags p) (mss p) (misc p) (rcv p) (snd_q p) (win p) (ctl p).

Definition set_flags (f : Z -> Z) (p : tcp_pcb) : tcp_pcb :=
  TcpPcb (state p) (f (pcb_flags p)) (mss p) (misc p) (rcv p) (snd_q p) (win p) (ctl p).

Definition set_mss (z : Z) (p : tcp_pcb) : tcp_pcb :=
  TcpPcb (state p) (pcb_flags p) z (misc p) (rcv p) (snd_q p) (win p) (ctl p).

Definition set_misc (f : tcp_misc -> tcp_misc) (p : tcp_pcb) : tcp_pcb :=
  TcpPcb (state p) (pcb_flags p) (mss p) (f (misc p)) (rcv p) (snd_q p) (win p) (ctl p).

Definition set_rcv (f : tcp_rcv -> tcp_rcv) (p : tcp_pcb) : tcp_pcb :=
  TcpPcb (state p) (pcb_flags p) (mss p) (misc p) (f (rcv p)) (snd_q p) (win p) (ctl p).

Definition set_snd (f : tcp_snd -> tcp_snd) (p : tcp_pcb) : tcp_pcb :=
  TcpPcb (state p) (pcb_flags p) (mss p) (misc p) (rcv p) (f (snd_q p)) (win p) (ctl p).

Definition set_win (f : tcp_win -> tcp_win) (p : tcp_pcb) : tcp_pcb :=
  TcpPcb (state p) (pcb_flags p) (mss p) (misc p) (rcv p) (snd_q p) (f (win p)) (ctl p).

Definition set_ctl (f : tcp_ctl -> tcp_ctl) (p : tcp_pcb) : tcp_pcb :=
  TcpPcb (state p) (pcb_flags p) (mss p) (misc p) (rcv p) (snd_q p) (win p) (f (ctl p)).

Definition set_local_ip (z : Z) (m : tcp_misc) : tcp_misc :=
  TcpMisc z (so_options m) (tmr m) (polltmr m) (pollinterval m) (keep_idle m) (keep_cnt_sent m) (refused_data m).

Definition set_tmr (z : Z) (m : tcp_misc) : tcp_misc :=
  TcpMisc (local_ip m) (so_options m) z (polltmr m) (pollinterval m) (keep_idle m) (keep_cnt_sent m) (refused_data m).

Definition set_polltmr (z : Z) (m : tcp_misc) : tcp_misc :=
  TcpMisc (local_ip m) (so_options m) (tmr m) z (pollinterval m) (keep_idle m) (keep_cnt_sent m) (refused_data m).

Definition set_keep_cnt_sent (z : Z) (m : tcp_misc) : tcp_misc :=
  TcpMisc (local_ip m) (so_options m) (tmr m) (polltmr m) (pollinterval m) (keep_idle m) z (refused_data m).

Definition set_refused_data (d : option (chain * bool)) (m : tcp_misc) : tcp_misc :=
  TcpMisc (local_ip m) (so_options m) (tmr m) (polltmr m) (pollinterval m) (keep_idle m) (keep_cnt_sent m) d.

Definition set_rcv_nxt (z : Z) (r : tcp_rcv) : tcp_rcv := TcpRcv z (rcv_wnd r) (rcv_ann_wnd r) (rcv_ann_right_edge r) (ooseq r).

Definition set_rcv_wnd (z : Z) (r : tcp_rcv) : tcp_rcv := TcpRcv (rcv_nxt r) z (rcv_ann_wnd r) (rcv_ann_right_edge r) (ooseq r).

Definition set_ann_wnd (z : Z) (r : tcp_rcv) : tcp_rcv := TcpRcv (rcv_nxt r) (rcv_wnd r) z (rcv_ann_right_edge r) (ooseq r).

Definition set_right_edge (z : Z) (r : tcp_rcv) : tcp_rcv := TcpRcv (rcv_nxt r) (rcv_wnd r) (rcv_ann_wnd r) z (ooseq r).

Definition set_ooseq (l : list tcp_seg) (r : tcp_rcv) : tcp_rcv := TcpRcv (rcv_nxt r) (rcv_wnd r) (rcv_ann_wnd r) (rcv_ann_right_edge r) l.

Definition on_rcv (f : tcp_rcv -> tcp_rcv) : M (tcp E) unit := modify (set_pcb (set_rcv f)).

Definition tcp_ack_now : M (tcp E) unit := modify (set_pcb (set_flags (set_bits TF_ACK_NOW))).

Definition tcp_ack : M (tcp E) unit :=
  t ← get;
  if has (pcb_flags (the_pcb t)) TF_ACK_DELAY then
    modify (set_pcb (set_flags (fun fl => set_bits TF_ACK_NOW (clear_bits TF_ACK_DELAY fl))))
  else modify (set_pcb (set_flags (set_bits TF_ACK_DELAY))).

(** tcp_update_rcv_ann_wnd; what it writes and what it returns. *)
Definition tcp_update_rcv_ann_wnd : M (tcp E) Z :=
  t ← get;
  let r := rcv (the_pcb t) in
  let new_right_edge := u32 (rcv_nxt r + rcv_wnd r) in
  if TCP_SEQ_GEQ new_right_edge (rcv_ann_right_edge r + Z.min (TCP_WND / 2) (mss (the_pcb t))) then
    on_rcv (set_ann_wnd (rcv_wnd r));; mret (u32 (new_right_edge - rcv_ann_right_edge r))
  else if TCP_SEQ_GT (rcv_nxt r) (rcv_ann_right_edge r) then
    on_rcv (set_ann_wnd 0);; mret 0
  else
    let new_rcv_ann_wnd := u32 (rcv_ann_right_edge r - rcv_nxt r) in
    lwip_assert (new_rcv_ann_wnd <=? 0xffff);;
    on_rcv (set_ann_wnd (u16 new_rcv_ann_wnd));; mret 0.

(** tcp_output_alloc_header without options: the header for [seq], unless there is no
    memory for it and [datalen] bytes. *)
Definition tcp_output_alloc_header (datalen seq : Z) : M (tcp E) (option tcp_out) :=
  t ← get;
  match alloc_ram (20 + datalen) (env t) with
  | None => mret None
  | Some e =>
      modify (set_env e);;
      let r := rcv (the_pcb t) in
      on_rcv (set_right_edge (u32 (rcv_nxt r + rcv_ann_wnd r)));;
      mret (Some (TcpOut seq (rcv_nxt r) TCP_ACK (rcv_ann_wnd r) None []))
  end.

Definition emit (h : tcp_out) : M (tcp E) unit := t ← get; modify (set_env (ip_output h (env t))).

(** ERR_OK or ERR_BUF. *)
Definition tcp_send_empty_ack : M (tcp E) Z :=
  t ← get;
  h ← tcp_output_alloc_header 0 (snd_nxt (snd_q (the_pcb t)));
  match h with
  | None => mret ERR_BUF
  | Some h =>
      modify (set_pcb (set_flags (clear_bits (Z.lor TF_ACK_DELAY TF_ACK_NOW))));;
      emit h;;
      mret ERR_OK
  end.

Section output.
(** tcp_output, which sends the acknowledgement that is asked for and what may be sent. *)
Context (tcp_output : M (tcp E) Z).

Definition tcp_recved (len : Z) : M (tcp E) unit :=
  t ← get;
  lwip_assert (negb (bool_decide (state (the_pcb t) = LISTEN)));;
  lwip_assert (len <=? 0xffff - rcv_wnd (rcv (the_pcb t)));;
  on_rcv (fun r => set_rcv_wnd (Z.min (u16 (rcv_wnd r + len)) TCP_WND) r);;
  wnd_inflation ← tcp_update_rcv_ann_wnd;
  if TCP_WND_UPDATE_THRESHOLD <=? s32 wnd_inflation then tcp_ack_now;; tcp_output;; mret tt else mret tt.
End output.
End ops.
