(* ===== verification/TcpRecv.v ===== *)
(** * TCP: the data of a segment

    The half of tcp_receive in tcp_in.c that takes the data of a segment: what is in front
    of the window is cut off, data in sequence goes to the application together with what
    was queued behind it, and data out of sequence is queued in pcb->ooseq. *)

From S2P Require Import Prelude TcpPcb.

Section recv.
Context {E : Type} `{TcpHost E}.

Implicit Types (t : tcp E).

Definition set_seqno (z : Z) (i : tcp_in) : tcp_in :=
  TcpIn z (ackno i) (flags i) (tcplen i) (tcphdr i) (inseg i) (recv_flags i) (recv_data i) (tcp_input_pcb i).

Definition set_tcplen (z : Z) (i : tcp_in) : tcp_in :=
  TcpIn (seqno i) (ackno i) (flags i) z (tcphdr i) (inseg i) (recv_flags i) (recv_data i) (tcp_input_pcb i).

Definition set_inseg (f : tcp_seg -> tcp_seg) (i : tcp_in) : tcp_in :=
  TcpIn (seqno i) (ackno i) (flags i) (tcplen i) (tcphdr i) (f (inseg i)) (recv_flags i) (recv_data i) (tcp_input_pcb i).

Definition set_recv_flags (f : Z -> Z) (i : tcp_in) : tcp_in :=
  TcpIn (seqno i) (ackno i) (flags i) (tcplen i) (tcphdr i) (inseg i) (f (recv_flags i)) (recv_data i) (tcp_input_pcb i).

Definition set_recv_data (p : option chain) (i : tcp_in) : tcp_in :=
  TcpIn (seqno i) (ackno i) (flags i) (tcplen i) (tcphdr i) (inseg i) (recv_flags i) p (tcp_input_pcb i).

Definition set_input_pcb (b : bool) (i : tcp_in) : tcp_in :=
  TcpIn (seqno i) (ackno i) (flags i) (tcplen i) (tcphdr i) (inseg i) (recv_flags i) (recv_data i) b.

Definition on_in (f : tcp_in -> tcp_in) : M (tcp E) unit := modify (set_in f).

Definition set_p (p : option chain) (s : tcp_seg) : tcp_seg := TcpSeg p (sg_len s) (sg_seqno s) (sg_flags s) (sg_opts s).

Definition set_len (n : Z) (s : tcp_seg) : tcp_seg := TcpSeg (sg_p s) n (sg_seqno s) (sg_flags s) (sg_opts s).

Definition set_seg_seqno (n : Z) (s : tcp_seg) : tcp_seg := TcpSeg (sg_p s) (sg_len s) n (sg_flags s) (sg_opts s).

Definition set_seg_flags (f : Z -> Z) (s : tcp_seg) : tcp_seg := TcpSeg (sg_p s) (sg_len s) (sg_seqno s) (f (sg_flags s)) (sg_opts s).

(** pbuf_realloc: the chain is cut behind [n] bytes; it never grows. *)
Fixpoint cut_chain (p : chain) (n : Z) : chain :=
  match p with
  | [] => []
  | c :: p => if zlen c <? n then c :: cut_chain p (n - zlen c) else [slice 0 n c]
  end.

Definition pbuf_realloc (p : chain) (n : Z) : chain := if tot_len p <=? n then p else cut_chain p n.

(** The pbufs in front of [off] become empty, and the payload of the one that holds it is
    moved. *)
Fixpoint trim_front (p : chain) (off : Z) : option chain :=
  match p with
  | [] => None
  | c :: p => if zlen c <? off then cons [] <$> trim_front p (off - zlen c) else Some (drop (Z.to_nat off) c :: p)
  end.

(** A segment cut to [n] bytes. *)
Definition cut_seg (n : Z) (s : tcp_seg) : tcp_seg := set_p ((fun p => pbuf_realloc p n) <$> sg_p s) (set_len n s).

(** The segments tcp_oos_insert_segment frees in front of [next], with the flags of [cseg]. *)
Fixpoint drop_covered (seqno : Z) (cseg : tcp_seg) (next : list tcp_seg) : tcp_seg * list tcp_seg :=
  match next with
  | n :: rest =>
      if TCP_SEQ_GEQ (seqno + sg_len cseg) (sg_seqno n + sg_len n) then
        drop_covered seqno (if has (sg_flags n) TCP_FIN then set_seg_flags (set_bits TCP_FIN) cseg else cseg) rest
      else (cseg, next)
  | [] => (cseg, [])
  end.

(** [cseg] and what is behind it. *)
Definition tcp_oos_insert_segment (seqno : Z) (cseg : tcp_seg) (next : list tcp_seg) : list tcp_seg :=
  if has (sg_flags cseg) TCP_FIN then [cseg]
  else
    let '(cseg, next) := drop_covered seqno cseg next in
    match next with
    | n :: _ =>
        if TCP_SEQ_GT (seqno + sg_len cseg) (sg_seqno n) then cut_seg (u16 (sg_seqno n - seqno)) cseg :: next else cseg :: next
    | [] => [cseg]
    end.

(** tcp_seg_copy(&inseg) *)
Definition tcp_seg_copy : M (tcp E) (option tcp_seg) :=
  t ← get;
  match alloc_seg (env t) with
  | None => mret None
  | Some e => modify (set_env e);; mret (Some (inseg (the_in t)))
  end.

(** The end of [next], the last segment of the queue, is trimmed and [cseg] comes behind it,
    cut to the window. *)
Definition append_last (next cseg : tcp_seg) : M (tcp E) (list tcp_seg) :=
  t ← get;
  let r := rcv (the_pcb t) in let seqno := seqno (the_in t) in
  let next := if TCP_SEQ_GT (sg_seqno next + sg_len next) seqno then cut_seg (u16 (seqno - sg_seqno next)) next else next in
  if u32 (rcv_nxt r + rcv_wnd r) <? u32 (tcplen (the_in t) + seqno) then
    let cseg := if has (sg_flags cseg) TCP_FIN then set_seg_flags (clear_bits TCP_FIN) cseg else cseg in
    let cseg := cut_seg (u16 (rcv_nxt r + rcv_wnd r - seqno)) cseg in
    on_in (set_tcplen (u16 (TCP_TCPLEN cseg)));;
    t ← get;
    lwip_assert (u32 (seqno + tcplen (the_in t)) =? u32 (rcv_nxt r + rcv_wnd r));;
    mret [next; cseg]
  else mret [next; cseg].

(** The walk along the queue: what [prev] and the rest become. *)
Fixpoint oos_walk (prev : option tcp_seg) (l : list tcp_seg) : M (tcp E) (list tcp_seg) :=
  match l with
  | [] => mret (option_list prev)
  | next :: rest =>
      t ← get;
      let seqno := seqno (the_in t) in
      let at_end : M (tcp E) (list tcp_seg) :=
        if match rest with [] => TCP_SEQ_GT seqno (sg_seqno next) | _ :: _ => false end then
          if has (sg_flags next) TCP_FIN then mret (option_list prev ++ [next])
          else
            c ← tcp_seg_copy;
            match c with
            | None => mret (option_list prev ++ [next])
            | Some cseg => k ← append_last next cseg; mret (option_list prev ++ k)
            end
        else k ← oos_walk (Some next) rest; mret (option_list prev ++ k) in
      if seqno =? sg_seqno next then
        if sg_len next <? sg_len (inseg (the_in t)) then
          c ← tcp_seg_copy;
          match c with
          | None => mret (option_list prev ++ l)
          | Some cseg => mret (option_list prev ++ tcp_oos_insert_segment seqno cseg l)
          end
        else mret (option_list prev ++ l)
      else
        match prev with
        | None =>
            if TCP_SEQ_LT seqno (sg_seqno next) then
              c ← tcp_seg_copy;
              match c with
              | None => mret l
              | Some cseg => mret (tcp_oos_insert_segment seqno cseg l)
              end
            else at_end
        | Some p =>
            if TCP_SEQ_BETWEEN seqno (sg_seqno p + 1) (sg_seqno next - 1) then
              c ← tcp_seg_copy;
              match c with
              | None => mret (p :: l)
              | Some cseg =>
                  let p := if TCP_SEQ_GT (sg_seqno p + sg_len p) seqno then cut_seg (u16 (seqno - sg_seqno p)) p else p in
                  mret (p :: tcp_oos_insert_segment seqno cseg l)
              end
            else at_end
        end
  end.

(** A segment out of sequence is queued. *)
Definition recv_ooseq : M (tcp E) unit :=
  tcp_send_empty_ack;;
  t ← get;
  match ooseq (rcv (the_pcb t)) with
  | [] => c ← tcp_seg_copy; on_rcv (set_ooseq (option_list c))
  | l => k ← oos_walk None l; on_rcv (set_ooseq k)
  end.

(** The front of the segment that was received before is cut off. *)
Definition trim_edge : M (tcp E) unit :=
  t ← get;
  let i := the_in t in let nxt := rcv_nxt (rcv (the_pcb t)) in
  if TCP_SEQ_BETWEEN nxt (seqno i + 1) (seqno i + tcplen i - 1) then
    let off := s32 (nxt - seqno i) in
    p ← deref (sg_p (inseg i));
    lwip_assert (off <? 0x7fff);;
    lwip_assert ((zlen (default [] (head p)) >=? off) || (tot_len p >=? off));;
    p ← deref (trim_front p off);
    on_in (set_inseg (fun s => set_seg_seqno nxt (set_len (u16 (sg_len s - u16 (nxt - seqno i))) (set_p (Some p) s))));;
    on_in (set_seqno nxt)
  else if TCP_SEQ_LT (seqno i) nxt then tcp_ack_now
  else mret tt.

Definition update_tcplen : M (tcp E) unit := on_in (fun i => set_tcplen (u16 (TCP_TCPLEN (inseg i))) i).

(** inseg.len is set and the chain is cut; a SYN takes one off. *)
Definition cut_inseg (n : Z) : M (tcp E) unit :=
  on_in (set_inseg (fun s => set_len (u16 (if has (sg_flags s) TCP_SYN then n - 1 else n)) s));;
  t ← get; p ← deref (sg_p (inseg (the_in t)));
  on_in (set_inseg (fun s => set_p (Some (pbuf_realloc p (sg_len s))) s));;
  update_tcplen.

(** The end of the segment beyond the window is cut off. *)
Definition trim_window : M (tcp E) unit :=
  t ← get;
  let r := rcv (the_pcb t) in
  if rcv_wnd r <? tcplen (the_in t) then
    (if has (sg_flags (inseg (the_in t))) TCP_FIN then on_in (set_inseg (set_seg_flags (clear_bits TCP_FIN))) else mret tt);;
    cut_inseg (rcv_wnd r);;
    t ← get;
    lwip_assert (u32 (seqno (the_in t) + tcplen (the_in t)) =? u32 (rcv_nxt r + rcv_wnd r))
  else mret tt.

(** The queued segments the segment covers are freed; their FIN becomes its own. *)
Fixpoint free_covered (l : list tcp_seg) : M (tcp E) (list tcp_seg) :=
  match l with
  | [] => mret []
  | next :: rest =>
      t ← get;
      let i := the_in t in
      if TCP_SEQ_GEQ (seqno i + tcplen i) (sg_seqno next + sg_len next) then
        (if has (sg_flags next) TCP_FIN && negb (has (sg_flags (inseg i)) TCP_SYN) then
          on_in (set_inseg (set_seg_flags (set_bits TCP_FIN)));; update_tcplen
        else mret tt);;
        free_covered rest
      else mret l
  end.

(** pcb->ooseq is adjusted to a segment in sequence. *)
Definition adjust_ooseq : M (tcp E) unit :=
  t ← get;
  match ooseq (rcv (the_pcb t)) with
  | [] => mret tt
  | l =>
      if has (sg_flags (inseg (the_in t))) TCP_FIN then on_rcv (set_ooseq [])
      else
        l ← free_covered l;
        t ← get;
        let i := the_in t in
        match l with
        | next :: _ =>
            if TCP_SEQ_GT (seqno i + tcplen i) (sg_seqno next) then
              cut_inseg (u16 (sg_seqno next - seqno i));;
              t ← get;
              lwip_assert (u32 (seqno (the_in t) + tcplen (the_in t)) =? sg_seqno next)
            else mret tt
        | [] => mret tt
        end;;
        on_rcv (set_ooseq l)
  end.

(** rcv_nxt and the window move by [n]. *)
Definition advance (n : Z) : M (tcp E) unit :=
  t ← get;
  lwip_assert (n <=? rcv_wnd (rcv (the_pcb t)));;
  on_rcv (fun r => set_rcv_wnd (u16 (rcv_wnd r - n)) r);;
  tcp_update_rcv_ann_wnd;;
  mret tt.

(** The queued segments that are in sequence now; the structures go back to the pool. *)
Fixpoint dequeue_ooseq (l : list tcp_seg) : M (tcp E) unit :=
  match l with
  | [] => mret tt
  | cseg :: rest =>
      t ← get;
      if sg_seqno cseg =? rcv_nxt (rcv (the_pcb t)) then
        on_in (set_seqno (sg_seqno cseg));;
        on_rcv (fun r => set_rcv_nxt (u32 (rcv_nxt r + TCP_TCPLEN cseg)) r);;
        advance (TCP_TCPLEN cseg);;
        p ← deref (sg_p cseg);
        (if 0 <? tot_len p then on_in (fun i => set_recv_data (Some (default [] (recv_data i) ++ p)) i) else mret tt);;
        (if has (sg_flags cseg) TCP_FIN then
          on_in (set_recv_flags (set_bits TF_GOT_FIN));;
          modify (set_pcb (fun p => if bool_decide (state p = ESTABLISHED) then set_state CLOSE_WAIT p else p))
        else mret tt);;
        on_rcv (set_ooseq rest);;
        dequeue_ooseq rest
      else mret tt
  end.

(** A segment in sequence. *)
Definition recv_inseq : M (tcp E) unit :=
  update_tcplen;;
  trim_window;;
  adjust_ooseq;;
  t ← get;
  let n := tcplen (the_in t) in
  on_rcv (set_rcv_nxt (u32 (seqno (the_in t) + n)));;
  advance n;;
  t ← get;
  p ← deref (sg_p (inseg (the_in t)));
  (if 0 <? tot_len p then on_in (fun i => set_recv_data (Some p) (set_inseg (set_p None) i)) else mret tt);;
  (if has (sg_flags (inseg (the_in t))) TCP_FIN then on_in (set_recv_flags (set_bits TF_GOT_FIN)) else mret tt);;
  t ← get;
  dequeue_ooseq (ooseq (rcv (the_pcb t)));;
  tcp_ack.

(** tcp_receive behind the acknowledgements. *)
Definition recv_text : M (tcp E) unit :=
  t ← get;
  let in_window t := TCP_SEQ_BETWEEN (seqno (the_in t)) (rcv_nxt (rcv (the_pcb t))) (rcv_nxt (rcv (the_pcb t)) + rcv_wnd (rcv (the_pcb t)) - 1) in
  if (0 <? tcplen (the_in t)) && (state_num (state (the_pcb t)) <? state_num CLOSE_WAIT) then
    trim_edge;;
    t ← get;
    if in_window t then
      if rcv_nxt (rcv (the_pcb t)) =? seqno (the_in t) then recv_inseq else recv_ooseq
    else tcp_send_empty_ack;; mret tt
  else if in_window t then mret tt
  else tcp_ack_now.
End recv.

(** What tcp_input sets for a segment of a connection; [p] is its data. *)
Definition set_segment (h : tcp_hdr) (p : chain) : tcp_in :=
  TcpIn (hd_seqno h) (hd_ackno h) (hd_flags h) (u16 (tot_len p + (if has (hd_flags h) (Z.lor TCP_FIN TCP_SYN) then 1 else 0))) h
    (TcpSeg (Some p) (u16 (tot_len p)) (hd_seqno h) (hd_flags h) 0) 0 None false.
