(* ===== verification/TcpOut.v ===== *)
(** * TCP: sending

    tcp_write, tcp_enqueue_flags and tcp_send_fin put data and FIN on pcb->unsent;
    tcp_output and tcp_output_segment send what the windows allow and move it to
    pcb->unacked; tcp_rexmit and its relatives move it back (tcp_out.c).  The pbuf in front
    of a segment holds its header, so its list of payloads starts with what is behind the
    header. *)

From S2P Require Import Prelude Alloc TcpPcb TcpRecv.

Definition TCP_WRITE_FLAG_COPY : Z := 0x01.

Definition TCP_WRITE_FLAG_MORE : Z := 0x02.

Definition TCP_OVERSIZE : Z := TCP_MSS.

Definition seg_data (s : tcp_seg) : bytes := concat (default [] (sg_p s)).

Section fields.
(** Fields of the sender. *)
Definition set_unsent (l : list tcp_seg) (s : tcp_snd) : tcp_snd :=
  TcpSnd (snd_nxt s) (lastack s) (snd_lbb s) (acked s) (snd_buf s) (snd_queuelen s) (unsent_oversize s) l (unacked s).

Definition set_unacked (l : list tcp_seg) (s : tcp_snd) : tcp_snd :=
  TcpSnd (snd_nxt s) (lastack s) (snd_lbb s) (acked s) (snd_buf s) (snd_queuelen s) (unsent_oversize s) (unsent s) l.

Definition set_oversize (z : Z) (s : tcp_snd) : tcp_snd :=
  TcpSnd (snd_nxt s) (lastack s) (snd_lbb s) (acked s) (snd_buf s) (snd_queuelen s) z (unsent s) (unacked s).

Definition set_snd_nxt (z : Z) (s : tcp_snd) : tcp_snd :=
  TcpSnd z (lastack s) (snd_lbb s) (acked s) (snd_buf s) (snd_queuelen s) (unsent_oversize s) (unsent s) (unacked s).

Definition set_lastack (z : Z) (s : tcp_snd) : tcp_snd :=
  TcpSnd (snd_nxt s) z (snd_lbb s) (acked s) (snd_buf s) (snd_queuelen s) (unsent_oversize s) (unsent s) (unacked s).

Definition set_lbb (z : Z) (s : tcp_snd) : tcp_snd :=
  TcpSnd (snd_nxt s) (lastack s) z (acked s) (snd_buf s) (snd_queuelen s) (unsent_oversize s) (unsent s) (unacked s).

Definition set_acked (z : Z) (s : tcp_snd) : tcp_snd :=
  TcpSnd (snd_nxt s) (lastack s) (snd_lbb s) z (snd_buf s) (snd_queuelen s) (unsent_oversize s) (unsent s) (unacked s).

Definition set_snd_buf (z : Z) (s : tcp_snd) : tcp_snd :=
  TcpSnd (snd_nxt s) (lastack s) (snd_lbb s) (acked s) z (snd_queuelen s) (unsent_oversize s) (unsent s) (unacked s).

Definition set_queuelen (z : Z) (s : tcp_snd) : tcp_snd :=
  TcpSnd (snd_nxt s) (lastack s) (snd_lbb s) (acked s) (snd_buf s) z (unsent_oversize s) (unsent s) (unacked s).

Definition set_cwnd (z : Z) (c : tcp_ctl) : tcp_ctl :=
  TcpCtl z (ssthresh c) (dupacks c) (rtime c) (rto c) (nrtx c) (rttest c) (rtseq c) (sa c) (sv c).

Definition set_ssthresh (z : Z) (c : tcp_ctl) : tcp_ctl :=
  TcpCtl (cwnd c) z (dupacks c) (rtime c) (rto c) (nrtx c) (rttest c) (rtseq c) (sa c) (sv c).

Definition set_dupacks (z : Z) (c : tcp_ctl) : tcp_ctl :=
  TcpCtl (cwnd c) (ssthresh c) z (rtime c) (rto c) (nrtx c) (rttest c) (rtseq c) (sa c) (sv c).

Definition set_rtime (z : Z) (c : tcp_ctl) : tcp_ctl :=
  TcpCtl (cwnd c) (ssthresh c) (dupacks c) z (rto c) (nrtx c) (rttest c) (rtseq c) (sa c) (sv c).

Definition set_rto (z : Z) (c : tcp_ctl) : tcp_ctl :=
  TcpCtl (cwnd c) (ssthresh c) (dupacks c) (rtime c) z (nrtx c) (rttest c) (rtseq c) (sa c) (sv c).

Definition set_nrtx (z : Z) (c : tcp_ctl) : tcp_ctl :=
  TcpCtl (cwnd c) (ssthresh c) (dupacks c) (rtime c) (rto c) z (rttest c) (rtseq c) (sa c) (sv c).

Definition set_rtt (test seq : Z) (c : tcp_ctl) : tcp_ctl :=
  TcpCtl (cwnd c) (ssthresh c) (dupacks c) (rtime c) (rto c) (nrtx c) test seq (sa c) (sv c).

Definition set_sa_sv (a v : Z) (c : tcp_ctl) : tcp_ctl :=
  TcpCtl (cwnd c) (ssthresh c) (dupacks c) (rtime c) (rto c) (nrtx c) (rttest c) (rtseq c) a v.
End fields.

Section out.
Context {E : Type} `{TcpHost E}.

Implicit Types (t : tcp E).

Definition on_pcb (f : tcp_pcb -> tcp_pcb) : M (tcp E) unit := modify (set_pcb f).

Definition on_snd (f : tcp_snd -> tcp_snd) : M (tcp E) unit := on_pcb (set_snd f).

Definition on_win (f : tcp_win -> tcp_win) : M (tcp E) unit := on_pcb (set_win f).

Definition on_ctl (f : tcp_ctl -> tcp_ctl) : M (tcp E) unit := on_pcb (set_ctl f).

Definition on_misc (f : tcp_misc -> tcp_misc) : M (tcp E) unit := on_pcb (set_misc f).

Definition set_flag (m : Z) : M (tcp E) unit := on_pcb (set_flags (set_bits m)).

Definition clear_flag (m : Z) : M (tcp E) unit := on_pcb (set_flags (clear_bits m)).

Definition get_pcb : M (tcp E) tcp_pcb := t ← get; mret (the_pcb t).

(** Memory of some kind; whether there was some. *)
Definition take (a : E -> option E) : M (tcp E) bool :=
  t ← get;
  match a (env t) with
  | None => mret false
  | Some e => modify (set_env e);; mret true
  end.

(** ** Data and flags to send *)

Definition queues_checked (s : tcp_snd) : bool :=
  if snd_queuelen s =? 0 then match unsent s, unacked s with [], [] => true | _, _ => false end
  else match unsent s, unacked s with [], [] => false | _, _ => true end.

(** The assertion behind a change of snd_queuelen. *)
Definition valid_queue_length : M (tcp E) unit :=
  p ← get_pcb; let s := snd_q p in
  if snd_queuelen s =? 0 then mret tt else lwip_assert (queues_checked s).

Definition queue_too_long (n : Z) : bool := (TCP_SND_QUEUELEN <=? n) || (TCP_SNDQUEUELEN_OVERFLOW <? n).

Definition tcp_write_checks (len : Z) : M (tcp E) Z :=
  p ← get_pcb; let s := snd_q p in
  if negb (bool_decide (state p = ESTABLISHED) || bool_decide (state p = CLOSE_WAIT) || bool_decide (state p = SYN_SENT) || bool_decide (state p = SYN_RCVD))
  then mret ERR_CONN
  else if len =? 0 then mret ERR_OK
  else if snd_buf s <? len then set_flag TF_NAGLEMEMERR;; mret ERR_MEM
  else if queue_too_long (snd_queuelen s) then set_flag TF_NAGLEMEMERR;; mret ERR_MEM
  else lwip_assert (queues_checked s);; mret ERR_OK.

(** tcp_pbuf_prealloc: the extra bytes of the pbuf, unless there is no memory. *)
Definition tcp_pbuf_prealloc (length max_length apiflags : Z) (first_seg : bool) : M (tcp E) (option Z) :=
  p ← get_pcb;
  let alloc :=
    if length <? max_length then
      if has apiflags TCP_WRITE_FLAG_MORE ||
         (negb (has (pcb_flags p) TF_NODELAY) &&
          (negb first_seg || negb (bool_decide (unsent (snd_q p) = [])) || negb (bool_decide (unacked (snd_q p) = []))))
      then Z.min max_length (u16 (LWIP_MEM_ALIGN_SIZE (length + TCP_OVERSIZE)))
      else length
    else length in
  ok ← take (alloc_ram alloc);
  mret (if ok : bool then Some (alloc - length) else None).

(** tcp_create_segment *)
Definition tcp_create_segment (c : chain) (flags seqno optflags : Z) : M (tcp E) (option tcp_seg) :=
  ok ← take alloc_seg;
  mret (if ok : bool then Some (TcpSeg (Some c) (u16 (tot_len c)) (u32 seqno) flags optflags) else None).

(** What the phases of tcp_write have found: how much goes to the end of the last pbuf of
    pcb->unsent, the pbuf that comes behind it, the extra bytes, the position in the data and
    the number of pbufs. *)
Record tail_plan := TailPlan { oversize_used : Z; concat_p : option bytes; oversize : Z; pos : Z; queuelen : Z }.

(** Phases 1 and 2: the last segment of pcb->unsent takes data; [None] is memerr. *)
Definition extend_last (arg : bytes) (apiflags mss_local : Z) (p : tcp_pcb) : M (tcp E) (option tail_plan) :=
  let len := zlen arg in let n := snd_queuelen (snd_q p) in
  match list.last (unsent (snd_q p)) with
  | None => lwip_assert (unsent_oversize (snd_q p) =? 0);; mret (Some (TailPlan 0 None 0 0 n))
  | Some last_unsent =>
      let space := u16 (mss_local - (sg_len last_unsent + LWIP_TCP_OPT_LENGTH (sg_opts last_unsent))) in
      let over := unsent_oversize (snd_q p) in
      let used := if 0 <? over then Z.min over len else 0 in
      let space := u16 (space - used) in
      let over := over - used in
      lwip_assert ((over =? 0) || (used =? len));;
      if (used <? len) && (0 <? space) && (0 <? sg_len last_unsent) then
        let seglen := Z.min space (len - used) in
        let c := slice used seglen arg in
        if has apiflags TCP_WRITE_FLAG_COPY then
          o ← tcp_pbuf_prealloc seglen space apiflags true;
          mret ((fun o => TailPlan used (Some c) o (used + seglen) (u16 (n + 1))) <$> o)
        else
          ok ← take alloc_rom;
          mret (if ok : bool then Some (TailPlan used (Some c) over (used + seglen) (u16 (n + 1))) else None)
      else mret (Some (TailPlan used None over used n))
  end.

(** The pbufs of a new segment, and the extra bytes. *)
Definition new_pbufs (c : bytes) (apiflags mss_local over : Z) (first_seg : bool) : M (tcp E) (option (chain * Z)) :=
  if has apiflags TCP_WRITE_FLAG_COPY then
    o ← tcp_pbuf_prealloc (zlen c) mss_local apiflags first_seg;
    mret ((fun o => ([c], o)) <$> o)
  else
    lwip_assert (over =? 0);;
    ok ← take alloc_rom;
    if ok : bool then
      ok ← take (alloc_ram 0);
      mret (if ok : bool then Some ([[]; c], over) else None)
    else mret None.

(** Phase 3: new segments for what is left; the queue of them, the extra bytes of the last
    and the number of pbufs.  The number of pbufs grows with every round, so that
    TCP_SND_QUEUELEN + 1 rounds are enough. *)
Fixpoint new_segments (fuel : nat) (arg : bytes) (apiflags mss_local lbb : Z) (queue : list tcp_seg) (over pos n : Z) : M (tcp E) (option (list tcp_seg * Z * Z)) :=
  match fuel with
  | O => fail OutOfFuel
  | S fuel =>
      if pos <? zlen arg then
        let seglen := Z.min (zlen arg - pos) mss_local in
        let c := slice pos seglen arg in
        r ← new_pbufs c apiflags mss_local over (bool_decide (queue = []));
        match r with
        | None => mret None
        | Some (ch, over) =>
            let n := u16 (n + zlen ch) in
            if (TCP_SND_QUEUELEN <? n) || (TCP_SNDQUEUELEN_OVERFLOW <? n) then mret None
            else
              s ← tcp_create_segment ch 0 (lbb + pos) 0;
              match s with
              | None => mret None
              | Some s => new_segments fuel arg apiflags mss_local lbb (queue ++ [s]) over (u16 (pos + seglen)) n
              end
        end
      else mret (Some (queue, over, n))
  end.

(** A chain with data in the room behind its last pbuf. *)
Definition append_to_last (c : chain) (d : bytes) : chain :=
  match list.last c with
  | None => c
  | Some l => removelast c ++ [l ++ d]
  end.

(** The last segment with the data of phases 1 and 2. *)
Definition extended (arg : bytes) (pl : tail_plan) (s : tcp_seg) : tcp_seg :=
  let s := if 0 <? oversize_used pl then
      TcpSeg ((fun c => append_to_last c (slice 0 (oversize_used pl) arg)) <$> sg_p s) (u16 (sg_len s + oversize_used pl)) (sg_seqno s) (sg_flags s) (sg_opts s)
    else s in
  match concat_p pl with
  | None => s
  | Some d => TcpSeg ((fun c => c ++ [d]) <$> sg_p s) (u16 (sg_len s + zlen d)) (sg_seqno s) (sg_flags s) (sg_opts s)
  end.

(** The last of a list is changed. *)
Definition on_last {A} (f : A -> A) (l : list A) : list A :=
  match list.last l with
  | None => l
  | Some x => removelast l ++ [f x]
  end.

Definition memerr : M (tcp E) Z := set_flag TF_NAGLEMEMERR;; valid_queue_length;; mret ERR_MEM.

(** tcp_write; [None] is a NULL pointer. *)
Definition tcp_write (arg : option bytes) (apiflags : Z) : M (tcp E) Z :=
  arg ← match arg with Some a => mret a | None => fail AssertFailed end;
  p ← get_pcb;
  let mss_local := Z.min (mss p) (snd_wnd_max (win p) / 2) in
  let len := zlen arg in
  err ← tcp_write_checks len;
  if negb (err =? ERR_OK) then mret err
  else
    pl ← extend_last arg apiflags mss_local p;
    match pl with
    | None => memerr
    | Some pl =>
        r ← new_segments (Z.to_nat (TCP_SND_QUEUELEN + 2)) arg apiflags mss_local (snd_lbb (snd_q p)) [] (oversize pl) (pos pl) (queuelen pl);
        match r with
        | None => memerr
        | Some (queue, over, n) =>
            let seg := negb (bool_decide (queue = [])) || bool_decide (is_Some (concat_p pl)) || (0 <? unsent_oversize (snd_q p)) in
            let psh := set_seg_flags (if seg && negb (has apiflags TCP_WRITE_FLAG_MORE) then set_bits TCP_PSH else id) in
            on_snd (fun s => TcpSnd (snd_nxt s) (lastack s) (u32 (snd_lbb s + len)) (acked s) (u16 (snd_buf s - len)) n over
              (on_last psh (on_last (extended arg pl) (unsent s) ++ queue)) (unacked s));;
            valid_queue_length;;
            mret ERR_OK
        end
    end.

Definition tcp_enqueue_flags (fl : Z) : M (tcp E) Z :=
  lwip_assert (has fl (Z.lor TCP_SYN TCP_FIN));;
  p ← get_pcb; let s := snd_q p in
  if queue_too_long (snd_queuelen s) then set_flag TF_NAGLEMEMERR;; mret ERR_MEM
  else
    let optflags := if has fl TCP_SYN then TF_SEG_OPTS_MSS else 0 in
    if snd_buf s =? 0 then mret ERR_MEM
    else
      ok ← take (alloc_ram (LWIP_TCP_OPT_LENGTH optflags));
      if negb ok then set_flag TF_NAGLEMEMERR;; mret ERR_MEM
      else
        r ← tcp_create_segment [[]] fl (snd_lbb s) optflags;
        match r with
        | None => set_flag TF_NAGLEMEMERR;; mret ERR_MEM
        | Some seg =>
            on_snd (fun s => TcpSnd (snd_nxt s) (lastack s) (u32 (snd_lbb s + 1)) (acked s) (u16 (snd_buf s - 1)) (snd_queuelen s) 0 (unsent s ++ [seg]) (unacked s));;
            (if has fl TCP_FIN then set_flag TF_FIN else mret tt);;
            on_snd (fun s => set_queuelen (u16 (snd_queuelen s + clen seg)) s);;
            valid_queue_length;;
            mret ERR_OK
        end.

Definition tcp_send_fin : M (tcp E) Z :=
  p ← get_pcb;
  match list.last (unsent (snd_q p)) with
  | Some l =>
      if has (sg_flags l) (Z.lor TCP_SYN (Z.lor TCP_FIN TCP_RST)) then tcp_enqueue_flags TCP_FIN
      else
        on_snd (fun s => set_unsent (on_last (set_seg_flags (set_bits TCP_FIN)) (unsent s)) s);;
        set_flag TF_FIN;;
        mret ERR_OK
  | None => tcp_enqueue_flags TCP_FIN
  end.

(** ** Output *)

Definition tcp_eff_send_mss (sendmss : Z) : M (tcp E) Z :=
  t ← get;
  mret match ip_route (env t) with
       | Some (_, mtu) => if mtu =? 0 then sendmss else Z.min sendmss (u16 (mtu - 20 - 20))
       | None => sendmss
       end.

(** A segment goes to IP, unless there is no route for a PCB without address. *)
Definition tcp_output_segment (seg : tcp_seg) : M (tcp E) unit :=
  p ← get_pcb; let r := rcv p in
  on_rcv (set_right_edge (u32 (rcv_nxt r + rcv_ann_wnd r)));;
  m ← (if has (sg_opts seg) TF_SEG_OPTS_MSS then z ← tcp_eff_send_mss TCP_MSS; mret (Some z) else mret None);
  (if rtime (ctl p) =? -1 then on_ctl (set_rtime 0) else mret tt);;
  t ← get;
  routed ← (if local_ip (misc p) =? 0 then
      match ip_route (env t) with
      | None => mret false
      | Some (a, _) => on_misc (set_local_ip a);; mret true
      end
    else mret true);
  if negb routed then mret tt
  else
    (if rttest (ctl p) =? 0 then on_ctl (set_rtt (tcp_ticks (env t)) (sg_seqno seg)) else mret tt);;
    emit (TcpOut (sg_seqno seg) (rcv_nxt r) (sg_flags seg) (rcv_ann_wnd r) m (seg_data seg)).

Definition tcp_do_output_nagle (p : tcp_pcb) : bool :=
  let s := snd_q p in
  bool_decide (unacked s = []) ||
  has (pcb_flags p) (Z.lor TF_NODELAY TF_INFR) ||
  match unsent s with
  | [] => false
  | _ :: _ :: _ => true
  | [x] => mss p <=? sg_len x
  end ||
  (snd_buf s =? 0) || (TCP_SND_QUEUELEN <=? snd_queuelen s).

(** The bytes from the first that is not acknowledged to the end of a segment. *)
Definition effwnd (s : tcp_snd) (seg : tcp_seg) : Z := u32 (sg_seqno seg - lastack s + sg_len seg).

(** A segment is put in front of the first with a later number. *)
Fixpoint insert_seg (seg : tcp_seg) (l : list tcp_seg) : list tcp_seg :=
  match l with
  | x :: l' => if TCP_SEQ_LT (sg_seqno x) (sg_seqno seg) then x :: insert_seg seg l' else seg :: l
  | [] => [seg]
  end.

(** A segment that was sent goes to pcb->unacked. *)
Definition put_unacked (seg : tcp_seg) (l : list tcp_seg) : list tcp_seg :=
  match list.last l with
  | None => [seg]
  | Some useg => if TCP_SEQ_LT (sg_seqno seg) (sg_seqno useg) then insert_seg seg l else l ++ [seg]
  end.

Fixpoint output_loop (wnd : Z) (l : list tcp_seg) : M (tcp E) unit :=
  match l with
  | [] => mret tt
  | seg :: rest =>
      p ← get_pcb;
      if effwnd (snd_q p) seg <=? wnd then
        lwip_assert (negb (has (sg_flags seg) TCP_RST));;
        if negb (tcp_do_output_nagle p) && negb (has (pcb_flags p) (Z.lor TF_NAGLEMEMERR TF_FIN)) then mret tt
        else
          on_snd (set_unsent rest);;
          seg ← (if bool_decide (state p = SYN_SENT) then mret seg
                 else clear_flag (Z.lor TF_ACK_DELAY TF_ACK_NOW);; mret (set_seg_flags (set_bits TCP_ACK) seg));
          tcp_output_segment seg;;
          on_snd (fun s => let nxt := u32 (sg_seqno seg + TCP_TCPLEN seg) in if TCP_SEQ_LT (snd_nxt s) nxt then set_snd_nxt nxt s else s);;
          (if 0 <? TCP_TCPLEN seg then on_snd (fun s => set_unacked (put_unacked seg (unacked s)) s) else mret tt);;
          output_loop wnd rest
      else mret tt
  end.

Definition tcp_output : M (tcp E) Z :=
  t ← get; let p := the_pcb t in
  lwip_assert (negb (bool_decide (state p = LISTEN)));;
  if tcp_input_pcb (the_in t) then mret ERR_OK
  else
    let wnd := Z.min (snd_wnd (win p)) (cwnd (ctl p)) in
    if has (pcb_flags p) TF_ACK_NOW && match unsent (snd_q p) with [] => true | seg :: _ => wnd <? effwnd (snd_q p) seg end
    then tcp_send_empty_ack
    else
      output_loop wnd (unsent (snd_q p));;
      on_snd (fun s => match unsent s with [] => set_oversize 0 s | _ => s end);;
      clear_flag TF_NAGLEMEMERR;;
      mret ERR_OK.

(** ** Retransmission *)

Definition tcp_rexmit_rto : M (tcp E) unit :=
  p ← get_pcb;
  match unacked (snd_q p) with
  | [] => mret tt
  | l =>
      on_snd (fun s => set_unsent (l ++ unsent s) (set_unacked [] s));;
      on_ctl (fun c => set_rtt 0 (rtseq c) (set_nrtx (u8 (nrtx c + 1)) c));;
      tcp_output;;
      mret tt
  end.

Definition tcp_rexmit : M (tcp E) unit :=
  p ← get_pcb;
  match unacked (snd_q p) with
  | [] => mret tt
  | seg :: rest =>
      let last := forallb (fun x => TCP_SEQ_LT (sg_seqno x) (sg_seqno seg)) (unsent (snd_q p)) in
      on_snd (fun s => set_unsent (insert_seg seg (unsent s)) (set_unacked rest s));;
      (if last then on_snd (set_oversize 0) else mret tt);;
      on_ctl (fun c => set_rtt 0 (rtseq c) (set_nrtx (u8 (nrtx c + 1)) c))
  end.

Definition tcp_rexmit_fast : M (tcp E) unit :=
  p ← get_pcb;
  match unacked (snd_q p) with
  | [] => mret tt
  | _ :: _ =>
      if has (pcb_flags p) TF_INFR then mret tt
      else
        tcp_rexmit;;
        on_ctl (fun c => set_ssthresh (if snd_wnd (win p) <? cwnd c then snd_wnd (win p) / 2 else cwnd c / 2) c);;
        on_ctl (fun c => if ssthresh c <? 2 * mss p then set_ssthresh (u16 (2 * mss p)) c else c);;
        on_ctl (fun c => set_cwnd (u16 (ssthresh c + 3 * mss p)) c);;
        set_flag TF_INFR
  end.

(** One number beyond the window is sent when a lost window update may keep it closed. *)
Definition tcp_zero_window_probe : M (tcp E) unit :=
  p ← get_pcb; let s := snd_q p in
  match unacked s ++ unsent s with
  | [] => mret tt
  | seg :: _ =>
      let is_fin := has (sg_flags seg) TCP_FIN && (sg_len seg =? 0) in
      h ← tcp_output_alloc_header (if is_fin then 0 else 1) (sg_seqno seg);
      match h with
      | None => mret tt
      | Some h =>
          t ← get;
          emit (if is_fin then TcpOut (out_seqno h) (out_ackno h) (Z.lor TCP_ACK TCP_FIN) (out_wnd h) None []
                else TcpOut (out_seqno h) (out_ackno h) (out_flags h) (out_wnd h) None
                       (match seg_data seg with [] => [garbage (env t)] | b :: _ => [b] end))
      end
  end.

Definition tcp_keepalive : M (tcp E) unit :=
  p ← get_pcb;
  h ← tcp_output_alloc_header 0 (u32 (snd_nxt (snd_q p) - 1));
  match h with
  | None => mret tt
  | Some h => emit h
  end.

(** A reset for a connection; it is sent without the PCB. *)
Definition tcp_rst (seqno ackno : Z) : M (tcp E) unit :=
  ok ← take (alloc_ram 20);
  if ok : bool then emit (TcpOut seqno ackno (Z.lor TCP_RST TCP_ACK) TCP_WND None []) else mret tt.
End out.
