(* ===== verification/TcpAck.v ===== *)
(** * TCP: acknowledgements

    The other half of tcp_receive in tcp_in.c: an acknowledgement updates the sender's
    window, counts duplicates, frees what it acknowledges, and measures the round trip. *)

From S2P Require Import Prelude TcpPcb TcpRecv TcpOut.

Section ack.
Context {E : Type} `{TcpHost E}.

Implicit Types (t : tcp E).

(** The window of the segment is taken; the persist timer runs while it is 0. *)
Definition update_window : M (tcp E) unit :=
  t ← get;
  let i := the_in t in let w := win (the_pcb t) in let wnd := hd_wnd (tcphdr i) in
  if TCP_SEQ_LT (snd_wl1 w) (seqno i) ||
     ((snd_wl1 w =? seqno i) && TCP_SEQ_LT (snd_wl2 w) (ackno i)) ||
     ((snd_wl2 w =? ackno i) && (snd_wnd w <? wnd))
  then
    let '(cnt, backoff) :=
      if wnd =? 0 then if persist_backoff w =? 0 then (0, 1) else (persist_cnt w, persist_backoff w)
      else (persist_cnt w, 0) in
    on_win (fun w => TcpWin wnd (Z.max (snd_wnd_max w) wnd) (seqno i) (ackno i) cnt backoff)
  else mret tt.

(** An acknowledgement of nothing new. *)
Definition dup_ack (right_wnd_edge : Z) : M (tcp E) unit :=
  on_snd (set_acked 0);;
  t ← get;
  let i := the_in t in let p := the_pcb t in
  let found := (tcplen i =? 0) && (u32 (snd_wl2 (win p) + snd_wnd (win p)) =? right_wnd_edge) &&
               (0 <=? rtime (ctl p)) && (lastack (snd_q p) =? ackno i) in
  if found then
    on_ctl (fun c => if dupacks c <? u8 (dupacks c + 1) then set_dupacks (dupacks c + 1) c else c);;
    p ← get_pcb;
    if 3 <? dupacks (ctl p) then
      on_ctl (fun c => if cwnd c <? u16 (cwnd c + mss p) then set_cwnd (cwnd c + mss p) c else c)
    else if dupacks (ctl p) =? 3 then tcp_rexmit_fast
    else mret tt
  else on_ctl (set_dupacks 0).

(** The congestion window grows: slow start, or congestion avoidance. *)
Definition grow_cwnd : M (tcp E) unit :=
  p ← get_pcb;
  let c := ctl p in
  if cwnd c <? ssthresh c then
    if cwnd c <? u16 (cwnd c + mss p) then on_ctl (set_cwnd (cwnd c + mss p)) else mret tt
  else if cwnd c =? 0 then fail Undefined
  else
    let new_cwnd := u16 (cwnd c + mss p * mss p / cwnd c) in
    if cwnd c <? new_cwnd then on_ctl (set_cwnd new_cwnd) else mret tt.

(** A segment that is acknowledged is freed. *)
Definition free_acked (next : tcp_seg) : M (tcp E) unit :=
  p ← get_pcb;
  lwip_assert (clen next <=? snd_queuelen (snd_q p));;
  on_snd (fun s => if negb (acked s =? 0) && has (sg_flags next) TCP_FIN then set_acked (acked s - 1) s else s);;
  on_snd (fun s => set_queuelen (snd_queuelen s - clen next) s);;
  valid_queue_length.

Fixpoint free_unacked (ackno : Z) (l : list tcp_seg) : M (tcp E) unit :=
  match l with
  | [] => mret tt
  | next :: rest =>
      if TCP_SEQ_LEQ (sg_seqno next + TCP_TCPLEN next) ackno then
        on_snd (set_unacked rest);; free_acked next;; free_unacked ackno rest
      else mret tt
  end.

(** A retransmitted segment may be on pcb->unsent. *)
Fixpoint free_unsent (ackno : Z) (l : list tcp_seg) : M (tcp E) unit :=
  match l with
  | [] => mret tt
  | next :: rest =>
      p ← get_pcb;
      if TCP_SEQ_BETWEEN ackno (sg_seqno next + TCP_TCPLEN next) (snd_nxt (snd_q p)) then
        on_snd (fun s => set_unsent rest (match rest with [] => set_oversize 0 s | _ => s end));; free_acked next;; free_unsent ackno rest
      else mret tt
  end.

(** An acknowledgement of new data. *)
Definition new_ack : M (tcp E) unit :=
  t ← get; let ack := ackno (the_in t) in
  (if has (pcb_flags (the_pcb t)) TF_INFR then clear_flag TF_INFR;; on_ctl (fun c => set_cwnd (ssthresh c) c) else mret tt);;
  on_ctl (fun c => set_rto (s16 (Z.shiftr (sa c) 3 + sv c)) (set_nrtx 0 c));;
  on_snd (fun s => set_acked (u16 (ack - lastack s)) s);;
  on_snd (fun s => set_snd_buf (u16 (snd_buf s + acked s)) s);;
  on_ctl (set_dupacks 0);;
  on_snd (set_lastack ack);;
  p ← get_pcb;
  (if 4 <=? state_num (state p) then grow_cwnd else mret tt);;
  free_unacked ack (unacked (snd_q p));;
  p ← get_pcb;
  on_ctl (set_rtime (match unacked (snd_q p) with [] => -1 | _ => 0 end));;
  on_misc (set_polltmr 0).

(** The round trip of the segment that is timed; Van Jacobson's estimate. *)
Definition estimate_rtt : M (tcp E) unit :=
  t ← get;
  let c := ctl (the_pcb t) in
  if negb (rttest c =? 0) && TCP_SEQ_LT (rtseq c) (ackno (the_in t)) then
    let m := s16 (tcp_ticks (env t) - rttest c) in
    let m := s16 (m - Z.shiftr (sa c) 3) in
    let sa' := s16 (sa c + m) in
    let m := if m <? 0 then s16 (- m) else m in
    let m := s16 (m - Z.shiftr (sv c) 2) in
    let sv' := s16 (sv c + m) in
    on_ctl (fun c => set_rtt 0 (rtseq c) (set_rto (s16 (Z.shiftr sa' 3 + sv')) (set_sa_sv sa' sv' c)))
  else mret tt.

(** The half of tcp_receive for a segment with an acknowledgement. *)
Definition recv_ack : M (tcp E) unit :=
  t ← get;
  let w := win (the_pcb t) in
  let right_wnd_edge := u32 (snd_wnd w + snd_wl2 w) in
  update_window;;
  t ← get;
  let ack := ackno (the_in t) in let s := snd_q (the_pcb t) in
  (if TCP_SEQ_LEQ ack (lastack s) then dup_ack right_wnd_edge
   else if TCP_SEQ_BETWEEN ack (lastack s + 1) (snd_nxt s) then new_ack
   else on_snd (set_acked 0));;
  p ← get_pcb;
  free_unsent ack (unsent (snd_q p));;
  estimate_rtt.

Definition tcp_receive : M (tcp E) unit :=
  t ← get;
  lwip_assert (4 <=? state_num (state (the_pcb t)));;
  (if has (flags (the_in t)) TCP_ACK then recv_ack else mret tt);;
  recv_text.
End ack.
