(* ===== verification/TcpProcess.v ===== *)
(** * TCP: the state machine

    tcp_parseopt, tcp_process and the part of tcp_input behind the search for the PCB
    (tcp_in.c), tcp_timewait_input, and what tcp.c does to a connection: purging, removing,
    aborting and closing it, refused data, and what the timers do for one PCB.  The
    callbacks of the application are parameters.  A PCB in state CLOSED has been freed. *)

From S2P Require Import Prelude TcpPcb TcpRecv TcpOut TcpAck.

Definition SOF_KEEPALIVE : Z := 0x08.

Definition TCP_MAXRTX : Z := 12.

Definition TCP_SYNMAXRTX : Z := 6.

Definition TCP_SLOW_INTERVAL : Z := 500.

Definition TCP_FIN_WAIT_TIMEOUT : Z := 20000.

Definition TCP_SYN_RCVD_TIMEOUT : Z := 20000.

Definition TCP_OOSEQ_TIMEOUT : Z := 6.

Definition TCP_MSL : Z := 60000.

Definition TCP_KEEPINTVL_DEFAULT : Z := 75000.

Definition TCP_MAXIDLE : Z := 9 * TCP_KEEPINTVL_DEFAULT.

Definition tcp_backoff : list Z := [1; 2; 3; 4; 5; 6; 7; 7; 7; 7; 7; 7; 7].

Definition tcp_persist_backoff : list Z := [3; 6; 12; 24; 48; 96; 120].

(** What tcp_slowtmr decides about a PCB. *)
Inductive slow_verdict := PcbStays | PcbRemoved | PcbReset.

(** ** Options *)

(** The options from [c] on; a byte behind them reads as 0, whatever it is the option is the
    last.  Every round moves [c], so that a round for each byte and one more are enough. *)
Fixpoint parse_opts (fuel : nat) (opts : bytes) (c : Z) (m : Z) : outcome Z :=
  match fuel with
  | O => Crash OutOfFuel
  | S fuel =>
      let opt (k : Z) := default 0 (opts !! Z.to_nat (c + k)) in
      let max_c := zlen opts in
      if c <? max_c then
        if opt 0 =? 0x00 then Done m
        else if opt 0 =? 0x01 then parse_opts fuel opts (c + 1) m
        else if opt 0 =? 0x02 then
          if negb (opt 1 =? 0x04) || (max_c <? c + 0x04) then Done m
          else
            let mss := Z.lor (Z.shiftl (opt 2) 8) (opt 3) in
            parse_opts fuel opts (c + 0x04) (if (TCP_MSS <? mss) || (mss =? 0) then TCP_MSS else mss)
        else if opt 1 =? 0 then Done m
        else parse_opts fuel opts (c + opt 1) m
      else Done m
  end.

Section process.
Context {E : Type} `{TcpHost E}.

Implicit Types (t : tcp E).

Definition tcp_parseopt : M (tcp E) unit := fun t =>
  match parse_opts (S (length (hd_opts (tcphdr (the_in t))))) (hd_opts (tcphdr (the_in t))) 0 (mss (the_pcb t)) with
  | Done m => Done (tt, set_pcb (set_mss m) t)
  | Crash c => Crash c
  end.

(** ** Removing a connection *)

Definition tcp_pcb_purge : M (tcp E) unit :=
  p ← get_pcb;
  if bool_decide (state p = CLOSED) || bool_decide (state p = TIME_WAIT) || bool_decide (state p = LISTEN) then mret tt
  else
    on_misc (set_refused_data None);;
    on_rcv (set_ooseq []);;
    on_ctl (set_rtime (-1));;
    on_snd (fun s => set_oversize 0 (set_unacked [] (set_unsent [] s))).

Definition tcp_pcb_remove : M (tcp E) unit :=
  tcp_pcb_purge;;
  p ← get_pcb;
  (if negb (bool_decide (state p = TIME_WAIT)) && negb (bool_decide (state p = LISTEN)) && has (pcb_flags p) TF_ACK_DELAY then
    set_flag TF_ACK_NOW;; tcp_output;; mret tt
  else mret tt);;
  p ← get_pcb;
  (if bool_decide (state p = LISTEN) then mret tt
   else
     lwip_assert (bool_decide (unsent (snd_q p) = []));;
     lwip_assert (bool_decide (unacked (snd_q p) = []));;
     lwip_assert (bool_decide (ooseq (rcv p) = [])));;
  on_pcb (set_state CLOSED).

(** A PCB moves from the active ones to those in TIME_WAIT. *)
Definition to_time_wait : M (tcp E) unit := tcp_pcb_purge;; on_pcb (set_state TIME_WAIT).

Section callbacks.
Context (ev_connected ev_accept : M (tcp E) Z) (ev_sent : Z -> M (tcp E) Z) (ev_recv : option chain -> M (tcp E) Z)
  (ev_poll : M (tcp E) Z) (ev_err : Z -> M (tcp E) unit).

Definition tcp_abandon (reset : bool) : M (tcp E) unit :=
  p ← get_pcb;
  lwip_assert (negb (bool_decide (state p = LISTEN)));;
  if bool_decide (state p = TIME_WAIT) then tcp_pcb_remove
  else
    tcp_pcb_remove;;
    (if reset then tcp_rst (snd_nxt (snd_q p)) (rcv_nxt (rcv p)) else mret tt);;
    ev_err ERR_ABRT.

Definition tcp_abort : M (tcp E) unit := tcp_abandon true.

(** tcp_close_shutdown in a state of a connection. *)
Definition tcp_close_shutdown (rst_on_unacked_data : bool) : M (tcp E) Z :=
  p ← get_pcb;
  if rst_on_unacked_data && (bool_decide (state p = ESTABLISHED) || bool_decide (state p = CLOSE_WAIT)) &&
     (negb (bool_decide (refused_data (misc p) = None)) || negb (rcv_wnd (rcv p) =? TCP_WND))
  then
    lwip_assert (has (pcb_flags p) TF_RXCLOSED);;
    tcp_rst (snd_nxt (snd_q p)) (rcv_nxt (rcv p));;
    tcp_pcb_purge;;
    on_pcb (set_state (if bool_decide (state p = ESTABLISHED) then TIME_WAIT else CLOSED));;
    mret ERR_OK
  else
    match state p with
    | CLOSED => mret ERR_OK
    | LISTEN => on_pcb (set_state CLOSED);; mret ERR_OK
    | SYN_SENT => tcp_pcb_remove;; mret ERR_OK
    | SYN_RCVD | ESTABLISHED | CLOSE_WAIT =>
        err ← tcp_send_fin;
        if err =? ERR_OK then
          on_pcb (set_state (if bool_decide (state p = CLOSE_WAIT) then LAST_ACK else FIN_WAIT_1));;
          tcp_output;;
          mret ERR_OK
        else mret err
    | _ => mret ERR_OK
    end.

Definition tcp_close : M (tcp E) Z :=
  p ← get_pcb;
  (if bool_decide (state p = LISTEN) then mret tt else set_flag TF_RXCLOSED);;
  tcp_close_shutdown true.

Definition tcp_shutdown (shut_rx shut_tx : bool) : M (tcp E) Z :=
  p ← get_pcb;
  if bool_decide (state p = LISTEN) then mret ERR_CONN
  else if shut_rx && shut_tx then set_flag TF_RXCLOSED;; tcp_close_shutdown true
  else
    (if shut_rx then set_flag TF_RXCLOSED;; on_misc (set_refused_data None) else mret tt);;
    if shut_tx then
      if bool_decide (state p = SYN_RCVD) || bool_decide (state p = ESTABLISHED) || bool_decide (state p = CLOSE_WAIT)
      then tcp_close_shutdown shut_rx
      else mret ERR_CONN
    else mret ERR_OK.

(** ** tcp_process *)

(** The FIN of the other end has come. *)
Definition got_fin : M (tcp E) bool := t ← get; mret (has (recv_flags (the_in t)) TF_GOT_FIN).

Definition process_rst : M (tcp E) Z :=
  t ← get;
  let p := the_pcb t in let i := the_in t in
  let acceptable :=
    if bool_decide (state p = SYN_SENT) then ackno i =? snd_nxt (snd_q p)
    else TCP_SEQ_BETWEEN (seqno i) (rcv_nxt (rcv p)) (rcv_nxt (rcv p) + rcv_wnd (rcv p)) in
  if acceptable then
    lwip_assert (negb (bool_decide (state p = CLOSED)));;
    on_in (set_recv_flags (set_bits TF_RESET));;
    clear_flag TF_ACK_DELAY;;
    mret ERR_RST
  else mret ERR_OK.

Definition process_syn_sent : M (tcp E) Z :=
  t ← get;
  let i := the_in t in let p := the_pcb t in
  if has (flags i) TCP_ACK then
    ok ← (if has (flags i) TCP_SYN then
        seg ← deref (head (unacked (snd_q p)));
        mret (ackno i =? u32 (sg_seqno seg + 1))
      else mret false);
    if ok : bool then
      on_snd (fun s => set_lastack (ackno i) (set_snd_buf (u16 (snd_buf s + 1)) s));;
      on_rcv (fun r => set_right_edge (u32 (seqno i + 1)) (set_rcv_nxt (u32 (seqno i + 1)) r));;
      on_win (fun w => TcpWin (hd_wnd (tcphdr i)) (hd_wnd (tcphdr i)) (u32 (seqno i - 1)) (snd_wl2 w) (persist_cnt w) (persist_backoff w));;
      on_pcb (set_state ESTABLISHED);;
      m ← tcp_eff_send_mss (mss p);
      on_pcb (set_mss m);;
      on_ctl (set_ssthresh (u16 (m * 10)));;
      on_ctl (fun c => set_cwnd (if cwnd c =? 1 then u16 (m * 2) else m) c);;
      lwip_assert (0 <? snd_queuelen (snd_q p));;
      on_snd (fun s => set_unacked (tail (unacked s)) (set_queuelen (snd_queuelen s - 1) s));;
      p ← get_pcb;
      on_ctl (fun c => match unacked (snd_q p) with [] => set_rtime (-1) c | _ => set_rtime 0 (set_nrtx 0 c) end);;
      err ← ev_connected;
      if err =? ERR_ABRT then mret ERR_ABRT
      else tcp_ack_now;; mret ERR_OK
    else
      tcp_rst (ackno i) (u32 (seqno i + tcplen i));;
      mret ERR_OK
  else mret ERR_OK.

Definition process_syn_rcvd : M (tcp E) Z :=
  t ← get;
  let i := the_in t in let s := snd_q (the_pcb t) in
  if has (flags i) TCP_ACK then
    if TCP_SEQ_BETWEEN (ackno i) (lastack s + 1) (snd_nxt s) then
      on_pcb (set_state ESTABLISHED);;
      err ← ev_accept;
      if negb (err =? ERR_OK) then
        (if err =? ERR_ABRT then mret tt else tcp_abort);;
        mret ERR_ABRT
      else
        p ← get_pcb;
        let old_cwnd := cwnd (ctl p) in
        tcp_receive;;
        on_snd (fun s => if acked s =? 0 then s else set_acked (acked s - 1) s);;
        p ← get_pcb;
        on_ctl (set_cwnd (if old_cwnd =? 1 then u16 (mss p * 2) else mss p));;
        fin ← got_fin;
        (if fin : bool then tcp_ack_now;; on_pcb (set_state CLOSE_WAIT) else mret tt);;
        mret ERR_OK
    else
      tcp_rst (ackno i) (u32 (seqno i + tcplen i));;
      mret ERR_OK
  else
    (if has (flags i) TCP_SYN && (seqno i =? u32 (rcv_nxt (rcv (the_pcb t)) - 1)) then tcp_rexmit else mret tt);;
    mret ERR_OK.

(** Our FIN is acknowledged, as far as it was sent. *)
Definition all_acked : M (tcp E) bool :=
  t ← get; mret (has (flags (the_in t)) TCP_ACK && (ackno (the_in t) =? snd_nxt (snd_q (the_pcb t)))).

(** The states in which data is received. *)
Definition process_synchronized : M (tcp E) unit :=
  p ← get_pcb;
  tcp_receive;;
  fin ← got_fin;
  done ← all_acked;
  match state p with
  | ESTABLISHED | CLOSE_WAIT => if fin : bool then tcp_ack_now;; on_pcb (set_state CLOSE_WAIT) else mret tt
  | FIN_WAIT_1 =>
      if fin : bool then
        tcp_ack_now;;
        if done : bool then to_time_wait else on_pcb (set_state CLOSING)
      else if done : bool then on_pcb (set_state FIN_WAIT_2) else mret tt
  | FIN_WAIT_2 => if fin : bool then tcp_ack_now;; to_time_wait else mret tt
  | CLOSING => if done : bool then to_time_wait else mret tt
  | LAST_ACK => if done : bool then on_in (set_recv_flags (set_bits TF_CLOSED)) else mret tt
  | _ => mret tt
  end.

Definition tcp_process : M (tcp E) Z :=
  t ← get;
  let i := the_in t in let p := the_pcb t in
  if has (flags i) TCP_RST then process_rst
  else if has (flags i) TCP_SYN && negb (bool_decide (state p = SYN_SENT)) && negb (bool_decide (state p = SYN_RCVD)) then
    tcp_ack_now;; mret ERR_OK
  else
    (if has (pcb_flags p) TF_RXCLOSED then mret tt else on_misc (set_tmr (tcp_ticks (env t))));;
    on_misc (set_keep_cnt_sent 0);;
    tcp_parseopt;;
    match state p with
    | SYN_SENT => process_syn_sent
    | SYN_RCVD => process_syn_rcvd
    | ESTABLISHED | CLOSE_WAIT | FIN_WAIT_1 | FIN_WAIT_2 | CLOSING | LAST_ACK => process_synchronized;; mret ERR_OK
    | CLOSED | LISTEN | TIME_WAIT => mret ERR_OK
    end.

(** A segment for a PCB in TIME_WAIT. *)
Definition tcp_timewait_input : M (tcp E) Z :=
  t ← get;
  let i := the_in t in let p := the_pcb t in
  if has (flags i) TCP_RST then mret ERR_OK
  else if has (flags i) TCP_SYN && TCP_SEQ_BETWEEN (seqno i) (rcv_nxt (rcv p)) (rcv_nxt (rcv p) + rcv_wnd (rcv p)) then
    tcp_rst (ackno i) (u32 (seqno i + tcplen i));; mret ERR_OK
  else
    (if negb (has (flags i) TCP_SYN) && has (flags i) TCP_FIN then on_misc (set_tmr (tcp_ticks (env t))) else mret tt);;
    if 0 <? tcplen i then set_flag TF_ACK_NOW;; tcp_output else mret ERR_OK.

(** ** tcp_input *)

(** The application is told that the stream has ended; the FIN does not count in the
    window. *)
Definition event_closed : M (tcp E) Z :=
  on_rcv (fun r => if rcv_wnd r =? TCP_WND then r else set_rcv_wnd (rcv_wnd r + 1) r);;
  ev_recv None.

Definition tcp_process_refused_data : M (tcp E) Z :=
  p ← get_pcb;
  r ← deref (refused_data (misc p));
  let '(d, fin) := r in
  on_misc (set_refused_data None);;
  err ← ev_recv (Some d);
  if err =? ERR_OK then
    if fin : bool then
      err ← event_closed;
      mret (if err =? ERR_ABRT then ERR_ABRT else ERR_OK)
    else mret ERR_OK
  else if err =? ERR_ABRT then mret ERR_ABRT
  else on_misc (set_refused_data (Some (d, fin)));; mret ERR_OK.

(** Data for the application; whether the PCB is still there. *)
Definition deliver_data (p : chain) : M (tcp E) bool :=
  q ← get_pcb;
  lwip_assert (bool_decide (refused_data (misc q) = None));;
  if has (pcb_flags q) TF_RXCLOSED then tcp_abort;; mret false
  else
    err ← ev_recv (Some p);
    if err =? ERR_ABRT then mret false
    else
      (if err =? ERR_OK then mret tt else on_misc (set_refused_data (Some (p, false))));;
      mret true.

Definition deliver_fin : M (tcp E) bool :=
  p ← get_pcb;
  match refused_data (misc p) with
  | Some (d, _) => on_misc (set_refused_data (Some (d, true)));; mret true
  | None => err ← event_closed; mret (negb (err =? ERR_ABRT))
  end.

(** What the application is told about a segment; whether the PCB is still there. *)
Definition tell_application : M (tcp E) bool :=
  p ← get_pcb;
  ok ← (if 0 <? acked (snd_q p) then err ← ev_sent (acked (snd_q p)); mret (negb (err =? ERR_ABRT)) else mret true);
  if negb ok then mret false
  else
    t ← get;
    ok ← match recv_data (the_in t) with None => mret true | Some d => deliver_data d end;
    if negb ok then mret false
    else
      fin ← got_fin;
      if fin : bool then deliver_fin else mret true.

(** The end of tcp_input, at its label aborted. *)
Definition input_done : M (tcp E) unit :=
  on_in (fun i => set_inseg (set_p None) (set_recv_data None (set_input_pcb false i))).

(** What tcp_input does behind tcp_process. *)
Definition input_events (err : Z) : M (tcp E) unit :=
  t ← get;
  let fl := recv_flags (the_in t) in let p := the_pcb t in
  if err =? ERR_ABRT then mret tt
  else if has fl TF_RESET then ev_err ERR_RST;; tcp_pcb_remove
  else if has fl TF_CLOSED then
    (if has (pcb_flags p) TF_RXCLOSED then mret tt else ev_err ERR_CLSD);;
    tcp_pcb_remove
  else
    ok ← tell_application;
    if ok : bool then on_in (set_input_pcb false);; tcp_output;; mret tt else mret tt.

(** tcp_input for a segment of a connection that is found among the active PCBs. *)
Definition tcp_input (h : tcp_hdr) (c : chain) : M (tcp E) unit :=
  on_in (fun _ => set_segment h c);;
  t ← get;
  dropped ← match refused_data (misc (the_pcb t)) with
    | None => mret false
    | Some _ =>
        err ← tcp_process_refused_data;
        p ← get_pcb;
        mret ((err =? ERR_ABRT) || (negb (bool_decide (refused_data (misc p) = None)) && (0 <? tcplen (the_in t))))
    end;
  (if dropped : bool then mret tt
   else
     on_in (set_input_pcb true);;
     err ← tcp_process;
     input_events err);;
  input_done.

(** ** Timers *)

(** The retransmission timer, or the persist timer, of a PCB. *)
Definition slow_retransmit : M (tcp E) unit :=
  p ← get_pcb;
  if 0 <? persist_backoff (win p) then
    on_win (fun w => TcpWin (snd_wnd w) (snd_wnd_max w) (snd_wl1 w) (snd_wl2 w) (u8 (persist_cnt w + 1)) (persist_backoff w));;
    p ← get_pcb; let w := win p in
    b ← deref (tcp_persist_backoff !! Z.to_nat (persist_backoff w - 1));
    if b <=? persist_cnt w then
      on_win (fun w => TcpWin (snd_wnd w) (snd_wnd_max w) (snd_wl1 w) (snd_wl2 w) 0 (if persist_backoff w <? 7 then persist_backoff w + 1 else persist_backoff w));;
      tcp_zero_window_probe
    else mret tt
  else
    (if 0 <=? rtime (ctl p) then on_ctl (fun c => set_rtime (s16 (rtime c + 1)) c) else mret tt);;
    p ← get_pcb; let c := ctl p in
    if negb (bool_decide (unacked (snd_q p) = [])) && (rto c <=? rtime c) then
      (if bool_decide (state p = SYN_SENT) then mret tt
       else
         b ← deref (tcp_backoff !! Z.to_nat (nrtx c));
         on_ctl (set_rto (s16 (Z.shiftl (Z.shiftr (sa c) 3 + sv c) b))));;
      on_ctl (set_rtime 0);;
      let eff_wnd := Z.min (cwnd c) (snd_wnd (win p)) in
      let th := Z.shiftr eff_wnd 1 in
      on_ctl (set_ssthresh (if th <? Z.shiftl (mss p) 1 then u16 (Z.shiftl (mss p) 1) else th));;
      on_ctl (set_cwnd (mss p));;
      tcp_rexmit_rto
    else mret tt.

(** The keepalive timer; whether the connection is given up. *)
Definition slow_keepalive : M (tcp E) bool :=
  t ← get;
  let p := the_pcb t in let m := misc p in let idle := u32 (tcp_ticks (env t) - tmr m) in
  if has (so_options m) SOF_KEEPALIVE && (bool_decide (state p = ESTABLISHED) || bool_decide (state p = CLOSE_WAIT)) then
    if u32 (keep_idle m + TCP_MAXIDLE) / TCP_SLOW_INTERVAL <? idle then mret true
    else
      (if u32 (keep_idle m + keep_cnt_sent m * TCP_KEEPINTVL_DEFAULT) / TCP_SLOW_INTERVAL <? idle then
        tcp_keepalive;; on_misc (fun m => set_keep_cnt_sent (u8 (keep_cnt_sent m + 1)) m)
      else mret tt);;
      mret false
  else mret false.

(** What tcp_slowtmr does for an active PCB, up to its removal. *)
Definition slow_pcb : M (tcp E) slow_verdict :=
  p ← get_pcb;
  let given_up := (bool_decide (state p = SYN_SENT) && (nrtx (ctl p) =? TCP_SYNMAXRTX)) || (nrtx (ctl p) =? TCP_MAXRTX) in
  (if given_up then mret tt else slow_retransmit);;
  t ← get;
  let p := the_pcb t in let idle := u32 (tcp_ticks (env t) - tmr (misc p)) in
  let stuck_fin := bool_decide (state p = FIN_WAIT_2) && has (pcb_flags p) TF_RXCLOSED && (TCP_FIN_WAIT_TIMEOUT / TCP_SLOW_INTERVAL <? idle) in
  dead ← slow_keepalive;
  on_rcv (fun r => if u32 (rto (ctl p) * TCP_OOSEQ_TIMEOUT) <=? idle then set_ooseq [] r else r);;
  let stuck_syn := bool_decide (state p = SYN_RCVD) && (TCP_SYN_RCVD_TIMEOUT / TCP_SLOW_INTERVAL <? idle) in
  let stuck_ack := bool_decide (state p = LAST_ACK) && (2 * TCP_MSL / TCP_SLOW_INTERVAL <? idle) in
  mret (if (dead : bool) then PcbReset else if given_up || stuck_fin || stuck_syn || stuck_ack then PcbRemoved else PcbStays).

(** tcp_slowtmr for an active PCB. *)
Definition slowtmr_active : M (tcp E) unit :=
  v ← slow_pcb;
  match v with
  | PcbStays =>
      on_misc (fun m => set_polltmr (u8 (polltmr m + 1)) m);;
      p ← get_pcb;
      if pollinterval (misc p) <=? polltmr (misc p) then
        on_misc (set_polltmr 0);;
        err ← ev_poll;
        if err =? ERR_OK then tcp_output;; mret tt else mret tt
      else mret tt
  | PcbRemoved | PcbReset =>
      tcp_pcb_purge;;
      p ← get_pcb;
      (if match v with PcbReset => true | _ => false end then tcp_rst (snd_nxt (snd_q p)) (rcv_nxt (rcv p)) else mret tt);;
      on_pcb (set_state CLOSED);;
      ev_err ERR_ABRT
  end.

(** tcp_slowtmr for a PCB in TIME_WAIT. *)
Definition slowtmr_timewait : M (tcp E) unit :=
  t ← get;
  if 2 * TCP_MSL / TCP_SLOW_INTERVAL <? u32 (tcp_ticks (env t) - tmr (misc (the_pcb t))) then
    tcp_pcb_purge;; on_pcb (set_state CLOSED)
  else mret tt.

(** tcp_slowtmr when the connection is the only one. *)
Definition tcp_slowtmr : M (tcp E) unit :=
  modify (fun t => set_env (tick (env t)) t);;
  p ← get_pcb;
  if bool_decide (state p = TIME_WAIT) then slowtmr_timewait
  else
    lwip_assert (negb (bool_decide (state p = CLOSED)));;
    lwip_assert (negb (bool_decide (state p = LISTEN)));;
    slowtmr_active.

(** tcp_fasttmr for a PCB. *)
Definition fasttmr_pcb : M (tcp E) unit :=
  p ← get_pcb;
  (if has (pcb_flags p) TF_ACK_DELAY then
    tcp_ack_now;; tcp_output;; clear_flag (Z.lor TF_ACK_DELAY TF_ACK_NOW)
  else mret tt);;
  p ← get_pcb;
  match refused_data (misc p) with
  | None => mret tt
  | Some _ => tcp_process_refused_data;; mret tt
  end.
End callbacks.
End process.
