(* ===== verification/TcpStream.v ===== *)
(** * TCP: the stream and the queue

    Sequence numbers as positions of a stream, the pieces of the stream that segments
    carry, and the queue of the segments out of sequence: whatever piece is queued, the
    queue is one of pieces of the stream in order that do not overlap. *)

From S2P Require Import Prelude TcpPcb TcpRecv.

(** ** Sequence numbers

    [seq_of a x]: the 32-bit number [a] stands for the position [x] of the stream. *)

Definition seq_of (a x : Z) : Prop := exists k, a = x + k * 2 ^ 32.

Create HintDb seq.

Lemma seq_of_refl x : seq_of x x.
Proof. exists 0. lia. Qed.

Lemma seq_of_u32 a x : seq_of a x -> seq_of (u32 a) x.
Proof. intros [k ->]. exists (k - (x + k * 2 ^ 32) / 2 ^ 32). unfold u32. rewrite Z.mod_eq by lia. lia. Qed.

Lemma seq_of_add a x b y : seq_of a x -> seq_of b y -> seq_of (a + b) (x + y).
Proof. intros [k ->] [j ->]. exists (k + j). lia. Qed.

Lemma seq_of_sub a x b y : seq_of a x -> seq_of b y -> seq_of (a - b) (x - y).
Proof. intros [k ->] [j ->]. exists (k - j). lia. Qed.

#[export] Hint Resolve seq_of_refl seq_of_u32 seq_of_add seq_of_sub : seq.

Lemma seq_of_eq a x y : seq_of a x -> x = y -> seq_of a y.
Proof. by intros ? <-. Qed.

Lemma s32_seq a x : seq_of a x -> - 2 ^ 31 <= x < 2 ^ 31 -> s32 a = x.
Proof.
  intros [k ->] Hx. unfold s32. replace (x + k * 2 ^ 32 + 2 ^ 31) with (x + 2 ^ 31 + k * 2 ^ 32) by lia.
  rewrite Z.mod_add, Z.mod_small by lia. lia.
Qed.

Lemma u32_seq a x : seq_of a x -> u32 a = u32 x.
Proof. intros [k ->]. unfold u32. by rewrite Z.mod_add by lia. Qed.

Lemma u16_seq a x : seq_of a x -> is_u16 x -> u16 a = x.
Proof.
  intros [k ->] Hx. unfold u16, is_u16 in *. replace (x + k * 2 ^ 32) with (x + (k * 2 ^ 16) * 2 ^ 16) by lia.
  rewrite Z.mod_add by lia. by apply Z.mod_small.
Qed.

(** The comparisons of the program are those of the positions, when these are less than
    2^31 apart. *)
Section compare.
Context (a b x y : Z) (Ha : seq_of a x) (Hb : seq_of b y) (Hxy : - 2 ^ 31 < x - y < 2 ^ 31).

Lemma seq_diff : s32 (a - b) = x - y.
Proof. apply s32_seq; [by apply seq_of_sub|lia]. Qed.

Lemma seq_lt : TCP_SEQ_LT a b = (x <? y).
Proof. unfold TCP_SEQ_LT. rewrite seq_diff. lia. Qed.

Lemma seq_leq : TCP_SEQ_LEQ a b = (x <=? y).
Proof. unfold TCP_SEQ_LEQ. rewrite seq_diff. lia. Qed.

Lemma seq_gt : TCP_SEQ_GT a b = (y <? x).
Proof. unfold TCP_SEQ_GT. rewrite seq_diff. lia. Qed.

Lemma seq_geq : TCP_SEQ_GEQ a b = (y <=? x).
Proof. unfold TCP_SEQ_GEQ. rewrite seq_diff. lia. Qed.
End compare.

Lemma seq_between a b c x y z : seq_of a x -> seq_of b y -> seq_of c z -> - 2 ^ 31 < x - y < 2 ^ 31 -> - 2 ^ 31 < x - z < 2 ^ 31 ->
  TCP_SEQ_BETWEEN a b c = (y <=? x) && (x <=? z).
Proof. intros Ha Hb Hc H1 H2. unfold TCP_SEQ_BETWEEN. by rewrite (seq_geq a b x y), (seq_leq a c x z). Qed.

Lemma seq_eqb x y : - 2 ^ 31 < x - y < 2 ^ 31 -> (u32 x =? u32 y) = (x =? y).
Proof. intros Hxy. unfold u32. destruct (Z.eqb_spec x y) as [->|Hne]; [apply Z.eqb_refl|]. apply Z.eqb_neq. intros E. apply Hne. Z.div_mod_to_equations. lia. Qed.

(** ** Chains *)

Lemma zlen_drop {A} (n : Z) (l : list A) : 0 <= n <= zlen l -> zlen (drop (Z.to_nat n) l) = zlen l - n.
Proof. unfold zlen. rewrite length_drop. lia. Qed.

Lemma cut_chain_ok p : forall n, 0 <= n -> concat (cut_chain p n) = slice 0 n (concat p).
Proof.
  induction p as [|c p IH]; intros n Hn; cbn [cut_chain concat]; [by rewrite slice_nil|]. destruct (Z.ltb_spec (zlen c) n) as [Hlt|Hge]; cbn [concat].
  - rewrite IH by lia. rewrite slice_app_ge by lia. done.
  - rewrite app_nil_r, slice_app_le by lia. done.
Qed.

Lemma pbuf_realloc_ok p n : 0 <= n -> concat (pbuf_realloc p n) = slice 0 n (concat p).
Proof.
  intros Hn. unfold pbuf_realloc, tot_len. destruct (Z.leb_spec (zlen (concat p)) n) as [Hle|Hgt]; [|by apply cut_chain_ok].
  unfold slice. rewrite drop_0, take_ge; [done|]. unfold zlen in Hle. lia.
Qed.

Lemma trim_front_ok p : forall off, 0 <= off <= tot_len p -> (p <> [] \/ 0 < off) ->
  exists p', trim_front p off = Some p' /\ concat p' = drop (Z.to_nat off) (concat p).
Proof.
  unfold tot_len. induction p as [|c p IH]; intros off Hoff Hne; cbn [trim_front concat].
  { cbn in Hoff. unfold zlen in Hoff. cbn in Hoff. destruct Hne as [|]; [done|lia]. }
  cbn [concat] in Hoff. rewrite zlen_app in Hoff. destruct (Z.ltb_spec (zlen c) off) as [Hlt|Hge].
  - destruct (IH (off - zlen c)) as (p' & -> & Hp'); [lia|right; lia|]. exists ([] :: p'). split; [done|]. cbn [concat app]. rewrite Hp'.
    rewrite drop_app_ge by (unfold zlen in *; lia). f_equal. unfold zlen in *. lia.
  - eexists. split; [done|]. cbn [concat]. rewrite drop_app_le by (unfold zlen in *; lia). done.
Qed.

(** ** The stream *)

(** A piece of the stream: its position, the number of its bytes, and whether the FIN is
    behind them. *)
Abbreviation piece := (Z * Z * bool)%type.

Definition fin_len (b : bool) : Z := if b then 1 else 0.

(** The sequence numbers it takes, and the position behind it. *)
Definition piece_end (x : piece) : Z := x.1.1 + x.1.2 + fin_len x.2.

Section stream.
(** The bytes of the stream and, when it ends, the position of its FIN. *)
Context {f : Z -> Z} {fin : option Z}.

Definition bytes_of (s n : Z) : bytes := f <$> seqZ s n.

Lemma bytes_of_app s n m : 0 <= n -> 0 <= m -> bytes_of s (n + m) = bytes_of s n ++ bytes_of (s + n) m.
Proof. intros. unfold bytes_of. by rewrite seqZ_app, fmap_app by lia. Qed.

Lemma zlen_bytes_of s n : 0 <= n -> zlen (bytes_of s n) = n.
Proof. intros. unfold zlen, bytes_of. rewrite length_fmap, length_seqZ. lia. Qed.

Lemma drop_bytes_of s n k : 0 <= k <= n -> drop (Z.to_nat k) (bytes_of s n) = bytes_of (s + k) (n - k).
Proof.
  intros Hk. replace n with (k + (n - k)) at 1 by lia. rewrite bytes_of_app by lia. apply drop_app_length'.
  pose proof (zlen_bytes_of s k ltac:(lia)). unfold zlen in *. lia.
Qed.

Lemma slice_bytes_of s n k : 0 <= k <= n -> slice 0 k (bytes_of s n) = bytes_of s k.
Proof.
  intros Hk. replace n with (k + (n - k)) by lia. rewrite bytes_of_app by lia. unfold slice. rewrite drop_0. apply take_app_length'.
  pose proof (zlen_bytes_of s k ltac:(lia)). unfold zlen in *. lia.
Qed.

(** A piece that is one of the stream. *)
Definition piece_ok (x : piece) : Prop :=
  0 <= x.1.2 /\ 1 <= x.1.2 + fin_len x.2 /\ (x.2 = true -> fin = Some (x.1.1 + x.1.2)) /\ (forall e, fin = Some e -> x.1.1 + x.1.2 <= e).

(** The segment that carries a piece. *)
Record seg_is (seg : tcp_seg) (x : piece) : Prop := SegIs {
  si_p : exists p, sg_p seg = Some p /\ concat p = bytes_of x.1.1 x.1.2;
  si_len : sg_len seg = x.1.2;
  si_seqno : sg_seqno seg = u32 x.1.1;
  si_fin : has (sg_flags seg) TCP_FIN = x.2;
  si_syn : has (sg_flags seg) TCP_SYN = false
}.

(** The queue: pieces from [lo] on, none behind [e], the FIN only at the end. *)
Fixpoint queue_ok (lo e : Z) (l : list piece) : Prop :=
  match l with
  | [] => True
  | x :: l => lo <= x.1.1 /\ piece_ok x /\ piece_end x <= e /\ (x.2 = true -> l = []) /\ queue_ok (x.1.1 + x.1.2) e l
  end.

Lemma queue_lo lo lo' e l : lo' <= lo -> queue_ok lo e l -> queue_ok lo' e l.
Proof. destruct l as [|x l]; [done|]. intros Hlo (H1 & H2). split; [lia|done]. Qed.

Lemma queue_e e e' l : e <= e' -> forall lo, queue_ok lo e l -> queue_ok lo e' l.
Proof. intros He. induction l as [|x l IH]; intros lo; [done|]. intros (H1 & H2 & H3 & H4 & H5). do 4 (split; [done || lia|]). by apply IH. Qed.

Lemma has_fin_syn fl : has fl (Z.lor TCP_FIN TCP_SYN) = has fl TCP_FIN || has fl TCP_SYN.
Proof.
  unfold has, nz. rewrite Z.land_lor_distr_r. destruct (Z.eqb_spec (Z.land fl TCP_FIN) 0) as [->|H1]; cbn [negb orb]; [by rewrite Z.lor_0_l|].
  destruct (Z.eqb_spec (Z.lor (Z.land fl TCP_FIN) (Z.land fl TCP_SYN)) 0) as [H0|H0]; [|done]. by apply Z.lor_eq_0_iff in H0 as [? _].
Qed.

Lemma seg_tcplen seg x : seg_is seg x -> TCP_TCPLEN seg = x.1.2 + fin_len x.2.
Proof. intros [_ Hl _ Hf Hs]. unfold TCP_TCPLEN. rewrite has_fin_syn, Hf, Hs, Hl, orb_false_r. done. Qed.

(** Bits that are set and cleared. *)
Lemma has_set_same m fl : m <> 0 -> has (set_bits m fl) m = true.
Proof.
  intros Hm. unfold has, set_bits, nz. rewrite Z.land_lor_distr_l, Z.land_diag. destruct (Z.eqb_spec (Z.lor (Z.land fl m) m) 0) as [H0|]; [|done].
  by apply Z.lor_eq_0_iff in H0 as [_ ?].
Qed.

Lemma has_set_other m k fl : Z.land m k = 0 -> has (set_bits m fl) k = has fl k.
Proof. intros Hm. unfold has, set_bits. by rewrite Z.land_lor_distr_l, Hm, Z.lor_0_r. Qed.

Lemma has_clear_same m fl : has (clear_bits m fl) m = false.
Proof.
  unfold has, clear_bits, nz. assert (Z.land (Z.ldiff fl m) m = 0) as ->; [|done]. apply Z.bits_inj'. intros n Hn.
  rewrite Z.land_spec, Z.ldiff_spec, Z.bits_0. by destruct (Z.testbit fl n), (Z.testbit m n).
Qed.

Lemma has_clear_other m k fl : Z.land m k = 0 -> has (clear_bits m fl) k = has fl k.
Proof.
  intros Hm. unfold has, clear_bits. f_equal. apply Z.bits_inj'. intros n Hn. rewrite !Z.land_spec, Z.ldiff_spec.
  assert (Z.testbit (Z.land m k) n = false) as Hb by (rewrite Hm; apply Z.bits_0). rewrite Z.land_spec in Hb.
  destruct (Z.testbit fl n), (Z.testbit m n), (Z.testbit k n); done.
Qed.

(** A segment cut to a shorter piece without the FIN. *)
Lemma cut_seg_is seg s n b k : seg_is seg (s, n, b) -> b = false -> 0 <= k <= n -> seg_is (cut_seg k seg) (s, k, false).
Proof.
  intros [(p & Hp & Hc) Hl Hs Hf Hy] -> Hk. cbn in *. split; cbn; [|done|done|done|done]. exists (pbuf_realloc p k). rewrite Hp. split; [done|].
  by rewrite pbuf_realloc_ok, Hc, slice_bytes_of by lia.
Qed.

(** ** The queue of the segments out of sequence *)

Lemma queue_in lo e l x : queue_ok lo e l -> x ∈ l -> lo <= x.1.1 /\ piece_ok x /\ piece_end x <= e.
Proof.
  revert lo. induction l as [|y l IH]; intros lo; [by intros _ ?%elem_of_nil|]. intros (H1 & H2 & H3 & H4 & H5) [->|Hin]%elem_of_cons; [done|].
  destruct (IH _ H5 Hin) as (H6 & H7). destruct H2 as (H2 & _). split; [lia|done].
Qed.

Section far.
(** Everything is between [lo] and [e]. *)
Context (e : Z).

Abbreviation near lo := (e - lo < 2 ^ 16).

Lemma drop_covered_ok l : forall lo segs s n b cseg, Forall2 seg_is segs l -> queue_ok lo e l -> s <= lo -> near s ->
  seg_is cseg (s, n, b) -> piece_ok (s, n, b) -> piece_end (s, n, b) <= e -> (b = true -> l = []) ->
  exists c' segs' b' l', drop_covered (u32 s) cseg segs = (c', segs') /\ seg_is c' (s, n, b') /\ piece_ok (s, n, b') /\ piece_end (s, n, b') <= e /\
    Forall2 seg_is segs' l' /\ queue_ok lo e l' /\ (b' = true -> l' = []) /\ match l' with [] => True | x :: _ => s + n < x.1.1 + x.1.2 /\ x ∈ l end.
Proof.
  induction l as [|x l IH]; intros lo segs s n b cseg Hseg Hq Hs Hnear Hc Hok He Hb; inversion Hseg as [|seg x' segs' l' Hx Hsegs]; subst; cbn [drop_covered].
  { exists cseg, [], b, []. done. }
  destruct Hq as (Hlo & Hxok & Hxe & Hxf & Hq). pose proof Hxok as (Hx0 & Hx1 & Hx2 & Hx3). pose proof Hok as (Hn0 & Hn1 & Hn2 & Hn3).
  destruct b; [by specialize (Hb eq_refl)|]. unfold piece_end in *. cbn [fst snd fin_len] in *.
  assert (0 <= fin_len x.2) by (destruct x.2; done).
  rewrite (seq_geq _ _ (s + n) (x.1.1 + x.1.2)); [| | |lia]; cycle 1.
  { rewrite (si_len _ _ Hc). cbn [fst snd]. auto with seq. }
  { rewrite (si_len _ _ Hx), (si_seqno _ _ Hx). auto with seq. }
  rewrite (si_fin _ _ Hx). destruct (Z.leb_spec (x.1.1 + x.1.2) (s + n)) as [Hle|Hgt].
  - set (c := if x.2 then _ else cseg).
    destruct (IH (x.1.1 + x.1.2) segs' s n x.2 c) as (c' & segs2 & b' & l2 & E1 & Hc' & Hok' & He' & Hsegs2 & Hq2 & Hb' & Hlt); [done|done|lia|done| | | |done|].
    + subst c. destruct Hc as [Hp Hl Hsq Hf Hy]. destruct x.2; split; cbn; [done|done|done|by apply has_set_same|by rewrite has_set_other|done|done|done|done|done].
    + split; [cbn; lia|]. cbn. split; [lia|]. split; [|done]. intros Hx4. rewrite Hx4 in Hx2. specialize (Hx2 eq_refl). pose proof (Hn3 _ Hx2). rewrite Hx2. f_equal. lia.
    + cbn. destruct x.2 eqn:Ex; cbn [fin_len] in *; [|lia]. specialize (Hx2 eq_refl). pose proof (Hn3 _ Hx2). lia.
    + exists c', segs2, b', l2. split; [done|]. split; [done|]. split; [done|]. split; [done|]. split; [done|]. split; [apply (queue_lo (x.1.1 + x.1.2)); [lia|done]|].
      split; [done|]. destruct l2 as [|y l2]; [done|]. split; [apply Hlt|]. right. apply Hlt.
  - exists cseg, (seg :: segs'), false, (x :: l). split; [done|]. split; [done|]. split; [done|]. split; [cbn; lia|]. split; [done|]. split; [|split; [done|split; [lia|by left]]].
    split; [done|]. split; [done|]. split; [done|]. done.
Qed.

(** A copy of a piece is put in front of the queue. *)
Lemma oos_insert_ok l lo segs s n b cseg : Forall2 seg_is segs l -> queue_ok lo e l -> s <= lo -> near s ->
  seg_is cseg (s, n, b) -> piece_ok (s, n, b) -> piece_end (s, n, b) <= e -> (forall x, x ∈ l -> x.1.1 = s -> x.1.2 <= n) ->
  exists k, Forall2 seg_is (tcp_oos_insert_segment (u32 s) cseg segs) k /\ queue_ok s e k.
Proof.
  intros Hseg Hq Hs Hnear Hc Hok He Hsame. unfold tcp_oos_insert_segment. rewrite (si_fin _ _ Hc). cbn [snd].
  destruct b; [exists [(s, n, true)]; split; [by constructor|]; split; [cbn; lia|done]|].
  destruct (drop_covered_ok l lo segs s n false cseg Hseg Hq Hs Hnear Hc Hok He ltac:(done)) as (c' & segs' & b' & l' & -> & Hc' & Hok' & He' & Hsegs' & Hq' & Hb' & Hlt).
  destruct l' as [|x l']; inversion Hsegs' as [|seg y segs2 ly Hx Hsegs2]; subst.
  { exists [(s, n, b')]. split; [by constructor|]. split; [cbn; lia|done]. }
  destruct b'; [by specialize (Hb' eq_refl)|]. destruct Hlt as [Hlt Hin]. pose proof Hq' as (Hlo & Hxok & Hxe & Hxf & Hq2).
  pose proof Hok' as (Hn0 & Hn1 & _ & Hn3). pose proof Hxok as (Hx0 & Hx1 & Hx2 & Hx3). unfold piece_end in *. cbn [fst snd fin_len] in *.
  assert (s < x.1.1) as Hsx by (destruct (decide (x.1.1 = s)) as [E1|]; [specialize (Hsame _ Hin E1); lia|lia]).
  assert (0 <= fin_len x.2) by (destruct x.2; done).
  rewrite (seq_gt _ _ (s + n) x.1.1); [|rewrite (si_len _ _ Hc'); auto with seq|rewrite (si_seqno _ _ Hx); auto with seq|lia].
  destruct (Z.ltb_spec x.1.1 (s + n)) as [Hgt|Hle].
  - rewrite (u16_seq _ (x.1.1 - s)); [|rewrite (si_seqno _ _ Hx); auto with seq|unfold is_u16; lia].
    exists ((s, x.1.1 - s, false) :: x :: l'). split; [constructor; [|done]; apply (cut_seg_is _ s n false); [done|done|lia]|].
    split; [cbn; lia|]. split; [split; [cbn; lia|split; [cbn; lia|split; [done|]]]; intros e' He2; specialize (Hx3 _ He2); cbn; lia|].
    split; [unfold piece_end; cbn; lia|]. split; [done|]. cbn [fst snd]. replace (s + (x.1.1 - s)) with x.1.1 by lia. split; [lia|]. done.
  - exists ((s, n, false) :: x :: l'). split; [by constructor|]. split; [cbn; lia|]. split; [done|]. split; [done|]. split; [done|]. cbn [fst snd].
    split; [lia|]. done.
Qed.

(** The end of a segment that reaches behind [s] is cut off. *)
Lemma cut_before_ok seg ps pn s : seg_is seg (ps, pn, false) -> piece_ok (ps, pn, false) -> ps + pn <= e -> ps < s <= e -> near ps ->
  exists n', seg_is (if TCP_SEQ_GT (sg_seqno seg + sg_len seg) (u32 s) then cut_seg (u16 (u32 s - sg_seqno seg)) seg else seg) (ps, n', false) /\
    piece_ok (ps, n', false) /\ ps + n' <= s /\ n' <= pn.
Proof.
  intros Hseg (H0 & H1 & _ & H3) Hpe Hs Hnear. cbn [fst snd fin_len] in *. destruct (decide (s < ps + pn)) as [Hlt|Hge].
  - rewrite (seq_gt _ _ (ps + pn) s); [|rewrite (si_len _ _ Hseg), (si_seqno _ _ Hseg); auto with seq|auto with seq|lia].
    rewrite (proj2 (Z.ltb_lt _ _)) by done. rewrite (u16_seq _ (s - ps)); [|rewrite (si_seqno _ _ Hseg); auto with seq|unfold is_u16; lia].
    exists (s - ps). split; [apply (cut_seg_is _ ps pn false); [done|done|lia]|]. split; [|lia]. split; [cbn; lia|]. split; [cbn; lia|]. split; [done|].
    intros e' He. specialize (H3 _ He). cbn. lia.
  - rewrite (seq_gt _ _ (ps + pn) s); [|rewrite (si_len _ _ Hseg), (si_seqno _ _ Hseg); auto with seq|auto with seq|lia].
    rewrite (proj2 (Z.ltb_ge _ _)) by lia. exists pn. split; [done|]. split; [done|]. lia.
Qed.

Context {E : Type} `{TcpHost E}.

Implicit Types (t : tcp E).

(** Only the memory changes. *)
Definition env_only t t' : Prop := exists e', t' = set_env e' t.

Lemma env_only_refl t : env_only t t.
Proof. exists (env t). by destruct t. Qed.

Lemma env_only_trans t1 t2 t3 : env_only t1 t2 -> env_only t2 t3 -> env_only t1 t3.
Proof. intros [e1 ->] [e2 ->]. by exists e2. Qed.

Lemma tcp_seg_copy_ok t : exists c t', tcp_seg_copy t = Done (c, t') /\ env_only t t' /\ (c = None \/ c = Some (inseg (the_in t))).
Proof.
  unfold tcp_seg_copy. rewrite get_bind. destruct (alloc_seg (env t)) as [e'|].
  - eexists _, _. split; [reflexivity|]. split; [by exists e'|]. by right.
  - exists None, t. split; [done|]. split; [apply env_only_refl|]. by left.
Qed.

(** The segment at hand is the piece [s, n, b], in the window and in front of its end. *)
Record arrived t (R s n : Z) (b : bool) : Prop := Arrived {
  ar_seqno : seqno (the_in t) = u32 s;
  ar_tcplen : tcplen (the_in t) = n + fin_len b;
  ar_inseg : seg_is (inseg (the_in t)) (s, n, b);
  ar_nxt : rcv_nxt (rcv (the_pcb t)) = u32 R
}.

Lemma arrived_env t t' R s n b : env_only t t' -> arrived t R s n b -> arrived t' R s n b.
Proof. intros [e' ->] [H1 H2 H3 H4]. by split. Qed.

(** The end of the window and that of the segment are not on two sides of a multiple of
    2^32. *)
Definition no_straddle t (s n : Z) (b : bool) : Prop := u32 (s + n + fin_len b) <= u32 (rcv_nxt (rcv (the_pcb t)) + rcv_wnd (rcv (the_pcb t))).

Lemma append_last_ok t R lo s n b seg x : arrived t R s n b -> no_straddle t s n b -> piece_ok (s, n, b) -> piece_end (s, n, b) <= e ->
  seg_is seg x -> piece_ok x -> piece_end x <= e -> x.2 = false -> lo <= x.1.1 -> x.1.1 < s -> near lo ->
  exists k kl, append_last seg (inseg (the_in t)) t = Done (k, t) /\ Forall2 seg_is k kl /\ queue_ok lo e kl.
Proof.
  intros [H1 H2 H3 H4] Hst Hok He Hseg Hxok Hxe Hxf Hlo Hxs Hnear. destruct x as [[ps pn] pb]. cbn in Hxf. subst pb. unfold piece_end in *. cbn [fst snd fin_len] in *.
  unfold append_last. rewrite get_bind, H1, H2. destruct Hok as (Hn0 & Hn1 & Hn2 & Hn3). cbn [fst snd] in *. assert (0 <= fin_len b) by (destruct b; done).
  rewrite (u32_seq (n + fin_len b + u32 s) (s + n + fin_len b)) by (replace (s + n + fin_len b) with (n + fin_len b + s) by lia; auto with seq).
  rewrite (proj2 (Z.ltb_ge _ _)) by exact Hst.
  destruct (cut_before_ok seg ps pn s Hseg Hxok ltac:(lia) ltac:(lia) ltac:(lia)) as (n' & Hc & Hcok & Hle & _).
  eexists _, [(ps, n', false); (s, n, b)]. split; [reflexivity|]. split; [by do 2 (constructor; [done|])|]. split; [done|]. split; [done|].
  split; [unfold piece_end; cbn; lia|]. split; [done|]. split; [done|]. done.
Qed.

(** The queue behind at most one segment. *)
Definition behind (lo : Z) (pl : list piece) : Z := match pl with [] => lo | y :: _ => y.1.1 + y.1.2 end.

Lemma behind_queue lo pl l : (length pl <= 1)%nat -> l <> [] -> queue_ok lo e (pl ++ l) ->
  queue_ok (behind lo pl) e l /\ lo <= behind lo pl /\ forall k, queue_ok (behind lo pl) e k -> queue_ok lo e (pl ++ k).
Proof.
  intros Hlen Hl Hq. destruct pl as [|y [|? ?]]; [cbn; by split; [|split; [lia|]]| |simpl in Hlen; lia]. cbn [app behind] in *.
  destruct Hq as (H1 & H2 & H3 & H4 & H5). split; [done|]. split; [destruct H2; lia|]. intros k Hk.
  split; [done|]. split; [done|]. split; [done|]. split; [intros Hy; by specialize (H4 Hy)|done].
Qed.

Lemma oos_walk_ok l : forall pl prev segs t R lo s n b, Forall2 seg_is (option_list prev) pl -> Forall2 seg_is segs l -> queue_ok lo e (pl ++ l) ->
  arrived t R s n b -> no_straddle t s n b -> piece_ok (s, n, b) -> piece_end (s, n, b) <= e -> lo <= s -> near lo -> (forall x, x ∈ pl -> x.1.1 < s) ->
  (prev = None \/ l <> []) ->
  exists k t' kl, oos_walk prev segs t = Done (k, t') /\ env_only t t' /\ Forall2 seg_is k kl /\ queue_ok lo e kl.
Proof.
  induction l as [|x l IH]; intros pl prev segs t R lo s n b Hprev Hsegs Hq Ha Hst Hok He Hlo Hnear Hps Hne; inversion Hsegs as [|next x' rest l' Hx Hrest]; subst; cbn [oos_walk].
  { destruct Hne as [->|]; [|done]. inversion Hprev; subst. exists [], t, []. split; [done|]. split; [apply env_only_refl|]. done. }
  rewrite get_bind, (ar_seqno _ _ _ _ _ Ha), (si_seqno _ _ Hx), (si_len _ _ Hx), (si_len _ _ (ar_inseg _ _ _ _ _ Ha)). cbn [fst snd].
  set (at_end := if match rest with [] => _ | _ :: _ => false end then _ else _).
  pose proof (Forall2_length Hprev) as Hlen. assert (length pl <= 1)%nat as Hpl by (destruct prev; simpl in Hlen; lia).
  destruct (behind_queue lo pl (x :: l) Hpl ltac:(done) Hq) as (Hqx & Hlob & Hback). pose proof Hqx as (Hbx & Hxok & Hxe & Hxf & Hql).
  pose proof Hxok as (Hx0 & _). pose proof Hok as (Hn0 & _). unfold piece_end in Hxe, He. cbn [fst snd] in *.
  assert (0 <= fin_len x.2 /\ 0 <= fin_len b) as [? ?] by (destruct x.2, b; done).
  assert (forall K t' kl, env_only t t' -> Forall2 seg_is K kl -> queue_ok (behind lo pl) e kl ->
    exists k t'' kl', Done (option_list prev ++ K, t') = Done (k, t'') /\ env_only t t'' /\ Forall2 seg_is k kl' /\ queue_ok lo e kl') as Hret.
  { intros K t' kl He' HK Hk. exists (option_list prev ++ K), t', (pl ++ kl). split; [done|]. split; [done|].
    split; [by apply Forall2_app|by apply Hback]. }
  assert (Forall2 seg_is (next :: rest) (x :: l)) as Hall by (by constructor).
  assert (x.1.1 < s -> exists k t' kl, at_end t = Done (k, t') /\ env_only t t' /\ Forall2 seg_is k kl /\ queue_ok lo e kl) as Hend.
  { intros Hlt. subst at_end. destruct rest as [|n2 rest].
    - inversion Hrest; subst. rewrite (seq_gt _ _ s x.1.1); [|auto with seq|auto with seq|lia]. rewrite (proj2 (Z.ltb_lt _ _)) by done.
      rewrite (si_fin _ _ Hx). destruct x.2 eqn:Ex; [by apply (Hret [next] t [x]); [apply env_only_refl| |]|].
      destruct (tcp_seg_copy_ok t) as (c & t1 & E1 & Ht1 & Hc). rewrite (bind_done _ _ _ _ _ E1).
      destruct Hc as [->| ->]; [by apply (Hret [next] t1 [x])|]. destruct Ht1 as [e1 ->].
      destruct (append_last_ok (set_env e1 t) R (behind lo pl) s n b next x) as (k & kl & Ek & Hk & Hkq);
        [by apply (arrived_env t); [exists e1|]|done|done|done|done|done|by unfold piece_end; rewrite Ex|done|done|done|lia|].
      change (inseg (the_in t)) with (inseg (the_in (set_env e1 t))). rewrite (bind_done _ _ _ _ _ Ek). apply (Hret k _ kl); [by exists e1|done|done].
    - destruct (IH [x] (Some next) (n2 :: rest) t R (behind lo pl) s n b) as (k & t1 & kl & Ek & Ht1 & Hk & Hkq);
        [by constructor|done|done|done|done|done|done|lia|lia|by intros y ->%list_elem_of_singleton|right; by intros ->; inversion Hrest|].
      rewrite (bind_done _ _ _ _ _ Ek). by apply (Hret k t1 kl). }
  rewrite (seq_eqb s x.1.1) by lia. destruct (Z.eqb_spec s x.1.1) as [Heq|Hneq].
  { destruct (Z.ltb_spec x.1.2 n) as [Hlt|Hge]; [|by apply (Hret (next :: rest) t (x :: l)); [apply env_only_refl| |]].
    destruct (tcp_seg_copy_ok t) as (c & t1 & E1 & Ht1 & Hc). rewrite (bind_done _ _ _ _ _ E1).
    destruct Hc as [->| ->]; [by apply (Hret (next :: rest) t1 (x :: l))|].
    destruct (oos_insert_ok (x :: l) s (next :: rest) s n b (inseg (the_in t))) as (k & Hk & Hkq); [done| |lia|lia|apply Ha|done|done| |].
    - rewrite Heq. split; [lia|done].
    - intros y [->|Hy]%elem_of_cons Hys; [lia|]. pose proof (queue_in _ _ _ _ Hql Hy) as (? & (? & _) & _).
      destruct Hxok as (_ & Hx1 & _). destruct x.2; [by rewrite (Hxf eq_refl) in Hy; apply elem_of_nil in Hy|]. cbn in Hx1. lia.
    - apply (Hret _ t1 k); [done|done|]. apply (queue_lo s); [lia|done]. }
  assert (s < x.1.1 -> exists k, Forall2 seg_is (tcp_oos_insert_segment (u32 s) (inseg (the_in t)) (next :: rest)) k /\ queue_ok s e k) as Hins.
  { intros Hlt. apply (oos_insert_ok (x :: l) x.1.1 (next :: rest) s n b); [done|split; [lia|done]|lia|lia|apply Ha|done|done|].
    intros y Hy Hys. assert (queue_ok x.1.1 e (x :: l)) as Hqx' by (split; [lia|done]). pose proof (queue_in _ _ _ _ Hqx' Hy) as (? & _). lia. }
  destruct prev as [p|].
  - cbn [option_list] in Hprev. inversion Hprev as [|p' y ps pl' Hy Hnil]; subst. inversion Hnil; subst. cbn [behind app] in *.
    pose proof Hq as (Hly & Hyok & Hye & Hyf & _). assert (y.2 = false) as Ey by (destruct y.2; [by specialize (Hyf eq_refl)|done]).
    pose proof (Hps y ltac:(by left)) as Hys. unfold piece_end in Hye. rewrite Ey in Hye. cbn [fin_len] in Hye. pose proof Hyok as (Hy0 & _).
    rewrite (seq_between _ _ _ s (y.1.1 + 1) (x.1.1 - 1)); [|auto with seq|rewrite (si_seqno _ _ Hy); auto with seq|auto with seq|lia|lia].
    destruct (Z.leb_spec (y.1.1 + 1) s) as [_|]; [|lia]. destruct (Z.leb_spec s (x.1.1 - 1)) as [Hle|Hgt]; cbn [andb]; [|apply Hend; lia].
    destruct (tcp_seg_copy_ok t) as (c & t1 & E1 & Ht1 & Hc). rewrite (bind_done _ _ _ _ _ E1).
    destruct Hc as [->| ->]; [by apply (Hret (next :: rest) t1 (x :: l))|].
    destruct y as [[ys yn] yb]. cbn in Ey. subst yb. cbn [fst snd] in *.
    destruct (cut_before_ok p ys yn s Hy Hyok ltac:(lia) ltac:(lia) ltac:(lia)) as (n' & Hcut & Hcok & Hcle & Hn').
    destruct (Hins ltac:(lia)) as (k & Hk & Hkq).
    eexists _, t1, ((ys, n', false) :: k). split; [reflexivity|]. split; [done|]. split; [by constructor|].
    split; [done|]. split; [done|]. split; [unfold piece_end; cbn; lia|]. split; [done|]. cbn [fst snd]. apply (queue_lo s); [lia|done].
  - inversion Hprev; subst. cbn [behind app option_list] in *. rewrite (seq_lt _ _ s x.1.1); [|auto with seq|auto with seq|lia].
    destruct (Z.ltb_spec s x.1.1) as [Hlt|Hge]; [|apply Hend; lia]. destruct (tcp_seg_copy_ok t) as (c & t1 & E1 & Ht1 & Hc). rewrite (bind_done _ _ _ _ _ E1).
    destruct Hc as [->| ->]; [by apply (Hret (next :: rest) t1 (x :: l))|]. destruct (Hins Hlt) as (k & Hk & Hkq).
    apply (Hret _ t1 k); [done|done|]. by apply (queue_lo s).
Qed.
End far.
End stream.

Arguments bytes_of f s n : clear implicits.
Arguments seg_is f seg x : clear implicits.
Arguments piece_ok fin x : clear implicits.
Arguments queue_ok fin lo e l : clear implicits.
Arguments arrived f {E} t R s n b.
