(* ===== verification/TcpRecvSpec.v ===== *)
(** * TCP: segments in sequence

    What the data half of tcp_receive does with a segment of the stream: the window moves,
    and the application gets the stream from where it was. *)

From S2P Require Import Prelude TcpPcb TcpRecv TcpStream.

Section stream.
Context (f : Z -> Z) (fin : option Z).

#[local] Abbreviation seg_is := (TcpStream.seg_is f).

#[local] Abbreviation piece_ok := (TcpStream.piece_ok fin).

#[local] Abbreviation queue_ok := (TcpStream.queue_ok fin).

#[local] Abbreviation bytes_of := (TcpStream.bytes_of f).

(** ** The window *)

Section window.
Context {E : Type} `{TcpHost E}.

Implicit Types (t : tcp E).

(** The next position is [R], the window [W], and the end of the announced window [A]. *)
Record window t (R W A : Z) : Prop := Window {
  wi_nxt : rcv_nxt (rcv (the_pcb t)) = u32 R;
  wi_wnd : rcv_wnd (rcv (the_pcb t)) = W;
  wi_range : 0 <= W < 2 ^ 16;
  wi_edge : seq_of (rcv_ann_right_edge (rcv (the_pcb t))) A;
  wi_ann : 0 <= rcv_ann_wnd (rcv (the_pcb t)) <= W;
  wi_right : A <= R + rcv_ann_wnd (rcv (the_pcb t));
  wi_near : R <= A + 1;
  wi_mss : 0 <= mss (the_pcb t) < 2 ^ 16
}.

Lemma on_in_bind {B} f0 (k : unit -> M (tcp E) B) t : (on_in f0 ≫= k) t = k tt (set_in f0 t).
Proof. done. Qed.

Lemma on_rcv_bind {B} f0 (k : unit -> M (tcp E) B) t : (on_rcv f0 ≫= k) t = k tt (set_pcb (set_rcv f0) t).
Proof. done. Qed.

Lemma update_ann_ok t R W A : rcv_nxt (rcv (the_pcb t)) = u32 R -> rcv_wnd (rcv (the_pcb t)) = W -> 0 <= W < 2 ^ 16 ->
  seq_of (rcv_ann_right_edge (rcv (the_pcb t))) A -> A <= R + W -> R <= A + 1 -> 0 <= mss (the_pcb t) < 2 ^ 16 ->
  exists a z, tcp_update_rcv_ann_wnd t = Done (z, set_pcb (set_rcv (set_ann_wnd a)) t) /\ 0 <= a <= W /\ A <= R + a.
Proof.
  intros Hn HW Hr HA H1 H2 Hm. unfold tcp_update_rcv_ann_wnd. rewrite get_bind. cbv zeta. rewrite Hn, HW.
  assert (0 <= Z.min (TCP_WND / 2) (mss (the_pcb t)) < 2 ^ 16) as Hmin by (change (TCP_WND / 2) with 2680; lia).
  rewrite (seq_geq _ _ (R + W) (A + Z.min (TCP_WND / 2) (mss (the_pcb t)))); [|auto with seq|auto with seq|lia].
  destruct (Z.leb_spec (A + Z.min (TCP_WND / 2) (mss (the_pcb t))) (R + W)) as [Hle|Hgt].
  { exists W. eexists. split; [reflexivity|]. lia. }
  rewrite (seq_gt _ _ R A); [|auto with seq|done|lia]. destruct (Z.ltb_spec A R) as [Hlt|Hge].
  { exists 0. eexists. split; [reflexivity|]. lia. }
  assert (u32 (rcv_ann_right_edge (rcv (the_pcb t)) - u32 R) = A - R) as ->.
  { rewrite (u32_seq _ (A - R)) by auto with seq. apply u32_id. unfold is_u32. lia. }
  rewrite lwip_assert_bind by lia. exists (A - R). eexists. rewrite u16_id by (unfold is_u16; lia). split; [reflexivity|]. lia.
Qed.

(** What has been received moves the window. *)
Lemma advance_ok t R W A n : rcv_nxt (rcv (the_pcb t)) = u32 (R + n) -> rcv_wnd (rcv (the_pcb t)) = W -> 0 <= W < 2 ^ 16 -> 0 <= n <= W ->
  seq_of (rcv_ann_right_edge (rcv (the_pcb t))) A -> A <= R + W -> R + n <= A + 1 -> 0 <= mss (the_pcb t) < 2 ^ 16 ->
  exists a, advance n t = Done (tt, set_pcb (set_rcv (fun r => set_ann_wnd a (set_rcv_wnd (W - n) r))) t) /\ 0 <= a <= W - n /\ A <= R + n + a.
Proof.
  intros Hn HW Hr Hnw HA H1 H2 Hm. unfold advance. rewrite get_bind, HW, lwip_assert_bind by lia. rewrite on_rcv_bind. set (t1 := set_pcb _ t).
  destruct (update_ann_ok t1 (R + n) (W - n) A) as (a & z & E1 & Ha1 & Ha2); [done| |lia|done|lia|lia|done|].
  { cbn. rewrite HW. apply u16_id. unfold is_u16. lia. }
  rewrite (bind_done _ _ _ _ _ E1). exists a. rewrite ret_done. split; [|done]. subst t1. unfold set_pcb, set_rcv, set_rcv_wnd, set_ann_wnd. cbn.
  by rewrite HW, u16_id by (unfold is_u16; lia).
Qed.

Lemma send_empty_ack_ok t R W A : window t R W A ->
  exists r t' A', tcp_send_empty_ack t = Done (r, t') /\ window t' R W A' /\ A <= A' /\
    ooseq (rcv (the_pcb t')) = ooseq (rcv (the_pcb t)) /\ the_in t' = the_in t /\ state (the_pcb t') = state (the_pcb t).
Proof.
  intros [Hn HW Hr HA Hann Hri Hne Hm]. unfold tcp_send_empty_ack, tcp_output_alloc_header, emit. rewrite get_bind, bind_assoc, get_bind.
  destruct (alloc_ram (20 + 0) (env t)) as [e|].
  - rewrite !bind_assoc, modify_bind. unfold on_rcv. rewrite bind_assoc, modify_bind, ret_bind, modify_bind, bind_assoc, get_bind, modify_bind.
    eexists _, _, (R + rcv_ann_wnd (rcv (the_pcb t))). split; [reflexivity|]. split; [|done]. split; cbn; [done|done|done| |done|lia|lia|done].
    rewrite Hn. auto with seq.
  - rewrite ret_bind. exists ERR_BUF, t, A. split; [done|]. split; [done|]. done.
Qed.

(** ** What the application gets *)

(** The bytes in front of a position, which may be behind the FIN. *)
Definition text_end (R : Z) : Z := match fin with Some e => Z.min R e | None => R end.

(** The FIN is in front of a position. *)
Definition past_fin (R : Z) : bool := match fin with Some e => e <? R | None => false end.

Lemma piece_text s n b : piece_ok (s, n, b) -> text_end s = s /\ text_end (s + n + fin_len b) = s + n /\ past_fin s = false /\ past_fin (s + n + fin_len b) = b.
Proof.
  intros (H0 & H1 & H2 & H3). cbn in *. unfold text_end, past_fin. destruct fin as [e|].
  - specialize (H3 _ eq_refl). destruct b; cbn [fin_len].
    + injection (H2 eq_refl) as ->. repeat split; lia.
    + assert (s + n + 0 = s + n) as -> by lia. repeat split; lia.
  - destruct b; [by specialize (H2 eq_refl)|]. cbn. repeat split; lia.
Qed.

(** The data for the application so far. *)
Definition data_of (i : tcp_in) : bytes := concat (default [] (recv_data i)).

(** From the position [R] on, [t'] has taken the stream up to [R']. *)
Record taken t t' (R R' W A : Z) (l : list piece) : Prop := Taken {
  tk_window : window t' R' (W - (R' - R)) A;
  tk_le : R <= R' <= R + W;
  tk_queue : Forall2 seg_is (ooseq (rcv (the_pcb t'))) l;
  tk_data : data_of (the_in t') = data_of (the_in t) ++ bytes_of (text_end R) (text_end R' - text_end R);
  tk_fin : has (recv_flags (the_in t')) TF_GOT_FIN = has (recv_flags (the_in t)) TF_GOT_FIN || (past_fin R' && negb (past_fin R));
  tk_state : state (the_pcb t') = state (the_pcb t) \/ past_fin R' = true /\ state (the_pcb t) = ESTABLISHED /\ state (the_pcb t') = CLOSE_WAIT
}.

Lemma text_end_mono R R' : R <= R' -> text_end R <= text_end R'.
Proof. intros. unfold text_end. destruct fin; lia. Qed.

Lemma past_fin_mono R R' : R <= R' -> past_fin R = true -> past_fin R' = true.
Proof. intros. unfold past_fin in *. destruct fin; [lia|done]. Qed.

Lemma bool_steps (a p1 p2 p3 : bool) : (p1 = true -> p2 = true) -> (p2 = true -> p3 = true) ->
  a || (p2 && negb p1) || (p3 && negb p2) = a || (p3 && negb p1).
Proof. destruct a, p1, p2, p3; intros H12 H23; try done; try (by specialize (H12 eq_refl)); try (by specialize (H23 eq_refl)). Qed.

Lemma taken_refl t R W A l : window t R W A -> Forall2 seg_is (ooseq (rcv (the_pcb t))) l -> taken t t R R W A l.
Proof.
  intros Hw Hl. split; [by replace (W - (R - R)) with W by lia| |done| | |].
  - destruct Hw. lia.
  - rewrite Z.sub_diag. unfold bytes_of. cbn. by rewrite app_nil_r.
  - by rewrite andb_negb_r, orb_false_r.
  - by left.
Qed.

Lemma taken_trans t1 t2 t3 R1 R2 R3 W A l l' : taken t1 t2 R1 R2 W A l -> taken t2 t3 R2 R3 (W - (R2 - R1)) A l' -> taken t1 t3 R1 R3 W A l'.
Proof.
  intros [Hw1 Hle1 Hq1 Hd1 Hf1 Hs1] [Hw2 Hle2 Hq2 Hd2 Hf2 Hs2].
  pose proof (text_end_mono R1 R2 ltac:(lia)). pose proof (text_end_mono R2 R3 ltac:(lia)). split; [|lia|done| | |].
  - by replace (W - (R3 - R1)) with (W - (R2 - R1) - (R3 - R2)) by lia.
  - rewrite Hd2, Hd1, <- app_assoc. f_equal. replace (text_end R3 - text_end R1) with ((text_end R2 - text_end R1) + (text_end R3 - text_end R2)) by lia.
    rewrite bytes_of_app by lia. do 2 f_equal. lia.
  - rewrite Hf2, Hf1. apply bool_steps; apply past_fin_mono; lia.
  - pose proof (past_fin_mono R2 R3 ltac:(lia)). intuition congruence.
Qed.

(** Data, and the FIN, for the application. *)
Lemma give_data_ok p t : exists t', (if 0 <? tot_len p then on_in (fun i => set_recv_data (Some (default [] (recv_data i) ++ p)) i) else mret tt) t = Done (tt, t') /\
  the_pcb t' = the_pcb t /\ data_of (the_in t') = data_of (the_in t) ++ concat p /\ recv_flags (the_in t') = recv_flags (the_in t).
Proof.
  destruct (Z.ltb_spec 0 (tot_len p)) as [Hp|Hp].
  - eexists. split; [reflexivity|]. split; [done|]. split; [|done]. unfold data_of. cbn. by rewrite concat_app.
  - exists t. split; [done|]. split; [done|]. split; [|done]. unfold tot_len, zlen in Hp. destruct (concat p); [by rewrite app_nil_r|simpl in Hp; lia].
Qed.

Definition close_established (p : tcp_pcb) : tcp_pcb := if bool_decide (state p = ESTABLISHED) then set_state CLOSE_WAIT p else p.

Lemma give_fin_ok (b : bool) t : exists t', ((if b then on_in (set_recv_flags (set_bits TF_GOT_FIN));; modify (set_pcb close_established) else mret tt) : M (tcp E) unit) t = Done (tt, t') /\
  the_pcb t' = (if b then close_established (the_pcb t) else the_pcb t) /\ data_of (the_in t') = data_of (the_in t) /\
  has (recv_flags (the_in t')) TF_GOT_FIN = has (recv_flags (the_in t)) TF_GOT_FIN || b.
Proof.
  destruct b; eexists; (split; [reflexivity|]); (split; [done|]); (split; [done|]); [|by rewrite orb_false_r].
  cbn. rewrite has_set_same by done. by rewrite orb_true_r.
Qed.

Lemma close_rcv p : rcv (close_established p) = rcv p /\ mss (close_established p) = mss p.
Proof. unfold close_established. by case_bool_decide. Qed.

Lemma tcp_dequeue_ok e l : forall segs t R W A, window t R W A -> ooseq (rcv (the_pcb t)) = segs -> Forall2 seg_is segs l -> queue_ok R e l ->
  e <= R + W -> e <= A + 1 ->
  exists t' R' l', dequeue_ooseq segs t = Done (tt, t') /\ taken t t' R R' W A l' /\ queue_ok (R' + 1) e l' /\
    match l with x :: _ => x.1.1 = R -> piece_end x <= R' | [] => R' = R end.
Proof.
  induction l as [|x l IH]; intros segs t R W A Hw Hoo Hsegs Hq He HeA; inversion Hsegs as [|cseg x' rest l' Hx Hrest]; cbn [dequeue_ooseq].
  { exists t, R, []. subst segs. split; [done|]. split; [|done]. apply taken_refl; [done|]. by rewrite <- H0. }
  assert (Forall2 seg_is (ooseq (rcv (the_pcb t))) (x :: l)) as Hoo2 by (by rewrite Hoo). clear Hsegs. subst x' l' segs.
  rewrite get_bind. pose proof Hw as [Hn HW Hr HA Hann Hri Hne Hm]. pose proof Hq as (Hlo & Hxok & Hxe & Hxf & Hql).
  unfold piece_end in *. rewrite (si_seqno _ _ Hx), Hn. pose proof Hxok as (Hx0 & Hx1 & _). assert (0 <= fin_len x.2) by (destruct x.2; done).
  rewrite seq_eqb by lia. destruct (Z.eqb_spec x.1.1 R) as [Hxr|Hxr].
  2:{ exists t, R, (x :: l). split; [done|]. split; [by apply taken_refl|]. split; [|done]. split; [lia|done]. }
  destruct x as [[s n] b]. cbn [fst snd] in *. subst s. rewrite (seg_tcplen _ _ Hx). cbn [fst snd].
  rewrite on_in_bind, on_rcv_bind. set (t1 := set_pcb _ _).
  destruct (advance_ok t1 R W A (n + fin_len b)) as (a & E1 & Ha1 & Ha2); [|done|done|lia|done|lia|lia|done|].
  { cbn. rewrite Hn. apply u32_seq. auto with seq. }
  rewrite (bind_done _ _ _ _ _ E1). destruct (si_p _ _ Hx) as (p & Hp & Hc). cbn [fst snd] in Hc. rewrite Hp. erewrite deref_bind by reflexivity.
  set (t2 := set_pcb _ t1). destruct (give_data_ok p t2) as (t3 & E3 & Hp3 & Hd3 & Hf3). rewrite (bind_done _ _ _ _ _ E3).
  rewrite (si_fin _ _ Hx). cbn [snd]. destruct (give_fin_ok b t3) as (t4 & E4 & Hp4 & Hd4 & Hf4). rewrite (bind_done _ _ _ _ _ E4), on_rcv_bind.
  set (t5 := set_pcb _ t4). destruct (piece_text R n b Hxok) as (T1 & T2 & T3 & T4).
  assert (rcv (the_pcb t5) = set_ooseq rest (rcv (the_pcb t2)) /\ mss (the_pcb t5) = mss (the_pcb t)) as [Hr5 Hm5].
  { cbn. rewrite Hp4, Hp3. destruct b; [|done]. destruct (close_rcv (the_pcb t2)) as [-> ->]. done. }
  assert (taken t t5 R (R + n + fin_len b) W A l) as Htk.
  { split; [|lia| | | |].
    - split; rewrite ?Hr5, ?Hm5; cbn; [|lia|lia|done|lia|lia|lia|done]. rewrite Hn. rewrite (u32_seq _ (R + (n + fin_len b))) by auto with seq. f_equal. lia.
    - by rewrite Hr5.
    - rewrite T1, T2. change (the_in t5) with (the_in t4). rewrite Hd4, Hd3, Hc. cbn. f_equal. f_equal. lia.
    - change (the_in t5) with (the_in t4). rewrite Hf4, Hf3, T3, T4. cbn. by rewrite andb_true_r.
    - rewrite T4. cbn. rewrite Hp4, Hp3. destruct b; [|by left]. unfold close_established. cbn. case_bool_decide; [by right|by left]. }
  destruct (IH rest t5 (R + n + fin_len b) (W - (R + n + fin_len b - R)) A) as (t' & R' & l' & E' & Htk' & Hq' & _);
    [apply Htk|by rewrite Hr5|done| |lia|lia|].
  - destruct b; [by rewrite (Hxf eq_refl)|]. cbn. by rewrite Z.add_0_r.
  - exists t', R', l'. split; [exact E'|]. split; [by apply (taken_trans t t5 t' R (R + n + fin_len b) R' W A l)|]. split; [done|].
    intros _. cbn. apply Htk'.
Qed.
End window.
End stream.
