(* ===== verification/TcpInseq.v ===== *)
(** * TCP: a segment of the stream arrives

    The cutting of the segment at hand to what is new and fits, and what recv_text does with
    it altogether. *)

From S2P Require Import Prelude TcpPcb TcpRecv TcpStream TcpRecvSpec.

Section stream.
Context (f : Z -> Z) (fin : option Z).

#[local] Abbreviation seg_is := (TcpStream.seg_is f).

#[local] Abbreviation piece_ok := (TcpStream.piece_ok fin).

#[local] Abbreviation queue_ok := (TcpStream.queue_ok fin).

Context {E : Type} `{TcpHost E}.

Implicit Types (t : tcp E).

(** Only the segment at hand and the flags of the PCB change. *)
Record keeps t t' : Prop := Keeps {
  kp_rcv : rcv (the_pcb t') = rcv (the_pcb t);
  kp_state : state (the_pcb t') = state (the_pcb t);
  kp_mss : mss (the_pcb t') = mss (the_pcb t);
  kp_data : recv_data (the_in t') = recv_data (the_in t);
  kp_flags : recv_flags (the_in t') = recv_flags (the_in t);
  kp_env : env t' = env t
}.

Lemma tcp_keeps_trans t1 t2 t3 : keeps t1 t2 -> keeps t2 t3 -> keeps t1 t3.
Proof. intros [] []. split; congruence. Qed.

Lemma tcp_keeps_refl t : keeps t t.
Proof. by split. Qed.

Lemma keeps_window t t' R W A : keeps t t' -> window t R W A -> window t' R W A.
Proof. intros [E1 _ E2 _ _ _] []. split; by rewrite ?E1, ?E2. Qed.

(** The segment at hand is a piece. *)
Definition at_hand t (x : piece) : Prop := seqno (the_in t) = u32 x.1.1 /\ seg_is (inseg (the_in t)) x.

Definition room (t : tcp E) (x : piece) : Prop := tcplen (the_in t) = x.1.2 + fin_len x.2.

Lemma update_tcplen_ok t x : at_hand t x -> 0 <= x.1.2 + fin_len x.2 < 2 ^ 16 ->
  exists t', update_tcplen t = Done (tt, t') /\ keeps t t' /\ at_hand t' x /\ room t' x.
Proof.
  intros [H1 H2] Hx. eexists. split; [reflexivity|]. split; [by split|]. split; [done|]. unfold room. cbn.
  rewrite (seg_tcplen _ _ H2). apply u16_id. unfold is_u16. lia.
Qed.

(** The data in front of [R] is cut off. *)
Lemma trim_edge_ok t R s n b : at_hand t (s, n, b) -> room t (s, n, b) -> piece_ok (s, n, b) -> rcv_nxt (rcv (the_pcb t)) = u32 R ->
  - 2 ^ 30 < s - R < 2 ^ 17 -> n < 0x7fff ->
  exists t' x, trim_edge t = Done (tt, t') /\ keeps t t' /\ at_hand t' x /\ piece_ok x /\
    (s < R -> R < s + n + fin_len b -> x = (R, s + n - R, b)) /\ (s < R -> s + n + fin_len b <= R -> x.1.1 = s) /\
    (R <= s -> x = (s, n, b) /\ t' = t).
Proof.
  intros [H1 H2] Hroom Hok Hn Hs Hlen. unfold trim_edge. rewrite get_bind. cbv zeta. rewrite Hn, H1, Hroom. cbn [fst snd].
  pose proof Hok as (Hn0 & Hn1 & Hn2 & Hn3). cbn [fst snd] in *. assert (0 <= fin_len b <= 1) by (destruct b; cbn; lia).
  rewrite (seq_between _ _ _ R (s + 1) (s + (n + fin_len b) - 1)); [|auto with seq|auto with seq|auto with seq|lia|lia].
  destruct (Z.leb_spec (s + 1) R) as [Hle|Hgt]; cbn [andb].
  2:{ rewrite (seq_lt _ _ s R) by (auto with seq || lia). destruct (Z.ltb_spec s R); [lia|]. exists t, (s, n, b). split; [done|]. split; [apply tcp_keeps_refl|].
      split; [done|]. split; [done|]. split; [lia|]. split; [lia|]. done. }
  destruct (Z.leb_spec R (s + (n + fin_len b) - 1)) as [Hov|Hold].
  - rewrite (s32_seq _ (R - s)) by (auto with seq || lia). destruct (si_p _ _ H2) as (p & Hp & Hc). cbn [fst snd] in Hc. rewrite Hp.
    rewrite (deref_bind _ p) by done. rewrite lwip_assert_bind by lia.
    assert (tot_len p = n) as Htot by (unfold tot_len; rewrite Hc; apply zlen_bytes_of; lia).
    rewrite lwip_assert_bind by (rewrite Htot; apply orb_true_iff; right; rewrite Z.geb_leb; apply Z.leb_le; lia).
    destruct (trim_front_ok p (R - s)) as (p' & -> & Hp'); [lia|right; lia|]. rewrite (deref_bind _ p') by done.
    eexists _, (R, s + n - R, b). split; [reflexivity|]. split; [by split|]. split; [|split; [|split; [done|split; [lia|lia]]]].
    + split; [done|]. destruct H2 as [_ Hl Hsq Hf Hy]. split; cbn; [|cbn in Hl; rewrite Hl|done|done|done].
      * exists p'. split; [done|]. rewrite Hp', Hc, drop_bytes_of by lia. f_equal; lia.
      * rewrite (u16_seq (u32 R - u32 s) (R - s)) by (auto with seq || (unfold is_u16; lia)). rewrite u16_id by (unfold is_u16; lia). lia.
    + split; [cbn; lia|]. cbn. split; [lia|]. split; [intros Hb; rewrite (Hn2 Hb); f_equal; lia|]. intros e He. specialize (Hn3 _ He). lia.
  - rewrite (seq_lt _ _ s R) by (auto with seq || lia). destruct (Z.ltb_spec s R); [|lia].
    eexists _, (s, n, b). split; [reflexivity|]. split; [by split|]. split; [done|]. split; [done|]. split; [lia|]. split; [done|lia].
Qed.

(** The segment is cut to [k] bytes and loses its FIN. *)
Lemma cut_inseg_ok t s n k : at_hand t (s, n, false) -> 0 <= k <= n -> k < 2 ^ 16 ->
  exists t', cut_inseg k t = Done (tt, t') /\ keeps t t' /\ at_hand t' (s, k, false) /\ room t' (s, k, false).
Proof.
  intros [H1 H2] Hk Hk2. unfold cut_inseg. rewrite on_in_bind, get_bind. destruct H2 as [(p & Hp & Hc) Hl Hsq Hf Hy]. cbn in Hp, Hc, Hf, Hy, Hsq.
  cbn [the_in set_in inseg set_inseg set_len sg_p]. rewrite Hp, (deref_bind _ p) by done. rewrite on_in_bind.
  match goal with |- context [update_tcplen ?u] => set (t1 := u) end.
  assert (at_hand t1 (s, k, false)) as Hh.
  { split; [done|]. subst t1. split; cbn; rewrite ?Hy; [|by rewrite u16_id by (unfold is_u16; lia)|done|done|done].
    exists (pbuf_realloc p k). rewrite u16_id by (unfold is_u16; lia). split; [done|]. by rewrite pbuf_realloc_ok, Hc, slice_bytes_of by lia. }
  destruct (update_tcplen_ok t1 (s, k, false) Hh) as (t' & E1 & Hkp & Hh' & Hr'); [cbn; lia|]. exists t'. split; [exact E1|].
  split; [|done]. apply (tcp_keeps_trans _ t1); [by subst t1; split|done].
Qed.

(** What does not fit into the window is cut off. *)
Lemma trim_window_ok t R W A n b : window t R W A -> at_hand t (R, n, b) -> room t (R, n, b) -> piece_ok (R, n, b) -> 1 <= W -> n < 0x7fff ->
  exists t' n' b', trim_window t = Done (tt, t') /\ keeps t t' /\ at_hand t' (R, n', b') /\ room t' (R, n', b') /\ piece_ok (R, n', b') /\
    n' <= n /\ n' + fin_len b' = Z.min (n + fin_len b) W.
Proof.
  intros Hw Hh Hroom Hok HW Hn. unfold trim_window. rewrite get_bind. cbv zeta. rewrite (wi_wnd _ _ _ _ Hw), Hroom. cbn [fst snd].
  pose proof Hok as (Hn0 & Hn1 & Hn2 & Hn3). cbn [fst snd] in *. assert (0 <= fin_len b <= 1) by (destruct b; cbn; lia). pose proof (wi_range _ _ _ _ Hw).
  destruct (Z.ltb_spec W (n + fin_len b)) as [Hlt|Hge].
  2:{ exists t, n, b. split; [done|]. split; [apply tcp_keeps_refl|]. do 3 (split; [done|]). lia. }
  rewrite (si_fin _ _ (proj2 Hh)). cbn [snd].
  assert (exists t1, (if b then on_in (set_inseg (set_seg_flags (clear_bits TCP_FIN))) else mret tt : M (tcp E) unit) t = Done (tt, t1) /\
    keeps t t1 /\ at_hand t1 (R, n, false)) as (t1 & E1 & Hk1 & Hh1).
  { destruct b; [|exists t; split; [done|]; split; [apply tcp_keeps_refl|done]]. eexists. split; [reflexivity|]. split; [by split|].
    destruct Hh as [Hs [Hp Hl Hsq Hf Hy]]. split; [done|]. split; cbn; [done|done|done|apply has_clear_same|by rewrite has_clear_other]. }
  rewrite (bind_done _ _ _ _ _ E1). destruct (cut_inseg_ok t1 R n W Hh1) as (t2 & E2 & Hk2 & Hh2 & Hr2); [lia|lia|]. rewrite (bind_done _ _ _ _ _ E2), get_bind.
  unfold room in Hr2. cbn [fst snd fin_len] in Hr2. rewrite (proj1 Hh2), Hr2, Z.add_0_r, (wi_nxt _ _ _ _ Hw). cbn [fst].
  exists t2, W, false. split; [unfold lwip_assert; by rewrite Z.eqb_refl|]. split; [by apply (tcp_keeps_trans _ t1)|]. split; [done|].
  split; [unfold room; cbn; lia|]. split; [|cbn; lia]. split; [cbn; lia|]. cbn. split; [lia|]. split; [done|]. intros e He. specialize (Hn3 _ He). lia.
Qed.

(** The queued segments that the segment covers go away. *)
Lemma free_covered_ok e l : forall lo segs t R n b, at_hand t (R, n, b) -> room t (R, n, b) -> piece_ok (R, n, b) -> (b = true -> l = []) ->
  Forall2 seg_is segs l -> queue_ok lo e l -> R <= lo -> e < R + 2 ^ 17 -> n < 0x7fff ->
  exists segs' l' t' b', free_covered segs t = Done (segs', t') /\ keeps t t' /\ at_hand t' (R, n, b') /\ room t' (R, n, b') /\ piece_ok (R, n, b') /\
    Forall2 seg_is segs' l' /\ queue_ok lo e l' /\ (b = true -> b' = true) /\ (b' = true -> l' = []) /\
    match l' with [] => True | x :: _ => R + n < x.1.1 + x.1.2 end /\ (b' = true -> b = true \/ R + n + fin_len b' <= e).
Proof.
  induction l as [|x l IH]; intros lo segs t R n b Hh Hr Hok Hb Hsegs Hq Hlo He Hn; inversion Hsegs as [|seg x' rest l' Hx Hrest]; subst; cbn [free_covered].
  { exists [], [], t, b. split; [done|]. split; [apply tcp_keeps_refl|]. repeat (split; [done|]). by left. }
  destruct b; [by specialize (Hb eq_refl)|]. rewrite get_bind. cbv zeta. rewrite (proj1 Hh), Hr, (si_seqno _ _ Hx), (si_len _ _ Hx). cbn [fst snd fin_len].
  pose proof Hq as (Hxlo & Hxok & Hxe & Hxf & Hql). pose proof Hxok as (Hx0 & Hx1 & Hx2 & Hx3). pose proof Hok as (Hn0 & Hn1 & Hn2 & Hn3).
  unfold piece_end in Hxe. cbn [fst snd fin_len] in *. assert (0 <= fin_len x.2 <= 1) by (destruct x.2; cbn; lia).
  rewrite (seq_geq _ _ (R + (n + 0)) (x.1.1 + x.1.2)) by (auto with seq || lia).
  destruct (Z.leb_spec (x.1.1 + x.1.2) (R + (n + 0))) as [Hle|Hgt].
  2:{ exists (seg :: rest), (x :: l), t, false. split; [done|]. split; [apply tcp_keeps_refl|]. repeat (split; [done|]). split; [lia|done]. }
  rewrite (si_fin _ _ Hx), (si_syn _ _ (proj2 Hh)), andb_true_r.
  assert (exists t1, (if x.2 then on_in (set_inseg (set_seg_flags (set_bits TCP_FIN)));; update_tcplen else mret tt : M (tcp E) unit) t = Done (tt, t1) /\
    keeps t t1 /\ at_hand t1 (R, n, x.2) /\ room t1 (R, n, x.2)) as (t1 & E1 & Hk1 & Hh1 & Hr1).
  { destruct x.2; [|exists t; split; [done|]; split; [apply tcp_keeps_refl|done]]. rewrite on_in_bind.
    match goal with |- context [update_tcplen ?u] => set (t1 := u) end.
    assert (at_hand t1 (R, n, true)) as Hh1.
    { destruct Hh as [Hs [Hp Hl Hsq Hf Hy]]. split; [done|]. subst t1. split; cbn; [done|done|done|by apply has_set_same|by rewrite has_set_other]. }
    destruct (update_tcplen_ok t1 _ Hh1) as (t2 & E2 & Hk2 & Hh2 & Hr2); [cbn; lia|]. exists t2. split; [exact E2|]. split; [|done].
    apply (tcp_keeps_trans _ t1); [by subst t1; split|done]. }
  rewrite (bind_done _ _ _ _ _ E1). assert (x.2 = true -> fin = Some (R + n)) as Hfin.
  { intros Hx4. pose proof (Hx2 Hx4) as Hf. rewrite Hf. f_equal. pose proof (Hn3 _ Hf). lia. }
  destruct (IH (x.1.1 + x.1.2) rest t1 R n x.2) as (segs' & l' & t' & b' & E' & Hk' & Hh' & Hr' & Hok' & Hs' & Hq' & Hb1 & Hb2 & Hl' & Hb3);
    [done|done| |done|done|done|lia|done|done|].
  { split; [done|]. cbn. split; [lia|]. split; [done|]. intros e' He'. by apply Hn3. }
  exists segs', l', t', b'. split; [done|]. split; [by apply (tcp_keeps_trans _ t1)|]. do 4 (split; [done|]). split; [apply (queue_lo (x.1.1 + x.1.2)); [lia|done]|].
  split; [done|]. split; [done|]. split; [done|]. intros Hb4. right. destruct (Hb3 Hb4) as [Hx4|]; [|done].
  specialize (Hfin Hx4). rewrite (Hx2 Hx4) in Hfin. injection Hfin as Hfin. rewrite Hb4. rewrite Hx4 in Hxe. cbn [fin_len] in *. lia.
Qed.

(** The segment and the queue are made not to overlap; what both of them hold is still
    there. *)
Lemma adjust_ooseq_ok e l t R n b : at_hand t (R, n, b) -> room t (R, n, b) -> piece_ok (R, n, b) -> n < 0x7fff -> R + n + fin_len b <= e ->
  Forall2 seg_is (ooseq (rcv (the_pcb t))) l -> queue_ok (R + 1) e l -> e < R + 2 ^ 16 ->
  exists t' n' b' l' segs', adjust_ooseq t = Done (tt, t') /\ (exists t1, keeps t t1 /\ (t' = t1 \/ t' = set_pcb (set_rcv (set_ooseq segs')) t1)) /\
    ooseq (rcv (the_pcb t')) = segs' /\ at_hand t' (R, n', b') /\ room t' (R, n', b') /\ piece_ok (R, n', b') /\ R + n' + fin_len b' <= e /\
    Forall2 seg_is segs' l' /\ queue_ok (R + n' + fin_len b') e l' /\
    match l' with [] => R + n + fin_len b <= R + n' + fin_len b' | x :: _ => R + n + fin_len b <= R + n' + fin_len b' \/ x.1.1 = R + n' + fin_len b' /\ R + n + fin_len b <= piece_end x end.
Proof.
  intros Hh Hr Hok Hn Hne Hsegs Hq He. pose proof Hok as (Hn0 & Hn1 & Hn2 & Hn3). cbn [fst snd] in *. assert (0 <= fin_len b <= 1) by (destruct b; cbn; lia).
  unfold adjust_ooseq. rewrite get_bind. destruct (ooseq (rcv (the_pcb t))) as [|sg sgs] eqn:Eo.
  { inversion Hsegs; subst. exists t, n, b, [], []. split; [done|]. split; [exists t; split; [apply tcp_keeps_refl|by left]|]. repeat (split; [done|]). lia. }
  rewrite (si_fin _ _ (proj2 Hh)). cbn [snd]. destruct b.
  { eexists _, n, true, [], []. split; [reflexivity|]. split; [exists t; split; [apply tcp_keeps_refl|by right]|]. repeat (split; [done|]). lia. }
  destruct (free_covered_ok e l (R + 1) (sg :: sgs) t R n false Hh Hr Hok ltac:(done) Hsegs Hq ltac:(lia) ltac:(lia) Hn)
    as (segs' & l' & t1 & b' & E1 & Hk1 & Hh1 & Hr1 & Hok1 & Hs1 & Hq1 & _ & Hb2 & Hl1 & Hb3).
  rewrite (bind_done _ _ _ _ _ E1), get_bind. cbv zeta. pose proof Hs1 as Hs1'. destruct l' as [|x l']; inversion Hs1 as [|next x' rest lx Hx Hrest]; subst.
  - rewrite ret_bind. eexists _, n, b', [], []. split; [reflexivity|]. split; [exists t1; split; [done|by right]|]. repeat (split; [done|]).
    split; [destruct b'; [destruct (Hb3 eq_refl); [done|lia]|cbn in *; lia]|]. split; [constructor|]. split; [done|]. destruct b'; cbn; lia.
  - destruct b'; [by specialize (Hb2 eq_refl)|]. pose proof Hq1 as (Hxlo & Hxok & Hxe & Hxf & Hql). pose proof Hxok as (Hx0 & _).
    unfold piece_end in *. cbn [fst snd fin_len] in *. assert (0 <= fin_len x.2 <= 1) by (destruct x.2; cbn; lia).
    rewrite (proj1 Hh1), Hr1, (si_seqno _ _ Hx). cbn [fst snd fin_len]. rewrite (seq_gt _ _ (R + (n + 0)) x.1.1) by (auto with seq || lia).
    destruct (Z.ltb_spec x.1.1 (R + (n + 0))) as [Hov|Hno].
    + rewrite (u16_seq _ (x.1.1 - R)) by (auto with seq || (unfold is_u16; lia)).
      destruct (cut_inseg_ok t1 R n (x.1.1 - R) Hh1) as (t2 & E2 & Hk2 & Hh2 & Hr2); [lia|lia|]. rewrite bind_assoc, (bind_done _ _ _ _ _ E2), bind_assoc, get_bind.
      pose proof Hr2 as Hr2'. unfold room in Hr2'. cbn [fst snd fin_len] in Hr2'. rewrite (proj1 Hh2), Hr2'. cbn [fst].
      rewrite lwip_assert_bind.
      2:{ apply Z.eqb_eq. rewrite (u32_seq _ (R + (x.1.1 - R + 0))) by auto with seq. f_equal. lia. }
      eexists _, (x.1.1 - R), false, (x :: l'), (next :: rest). split; [reflexivity|]. split; [exists t2; split; [by apply (tcp_keeps_trans _ t1)|by right]|].
      split; [done|]. split; [done|]. split; [done|]. split; [split; [cbn; lia|split; [cbn; lia|split; [done|]]]; intros e' He'; specialize (Hn3 _ He'); cbn; lia|].
      cbn [fin_len]. split; [lia|]. split; [by constructor|]. split; [split; [lia|done]|]. right. lia.
    + rewrite ret_bind. eexists _, n, false, (x :: l'), (next :: rest). split; [reflexivity|]. split; [exists t1; split; [done|by right]|].
      do 4 (split; [done|]). cbn [fin_len]. split; [lia|]. split; [by constructor|]. split; [split; [lia|done]|]. left. lia.
Qed.

Lemma window_rcv t t' R W A : rcv_nxt (rcv (the_pcb t')) = rcv_nxt (rcv (the_pcb t)) -> rcv_wnd (rcv (the_pcb t')) = rcv_wnd (rcv (the_pcb t)) ->
  rcv_ann_wnd (rcv (the_pcb t')) = rcv_ann_wnd (rcv (the_pcb t)) -> rcv_ann_right_edge (rcv (the_pcb t')) = rcv_ann_right_edge (rcv (the_pcb t)) ->
  mss (the_pcb t') = mss (the_pcb t) -> window t R W A -> window t' R W A.
Proof. intros E1 E2 E3 E4 E5 []. split; by rewrite ?E1, ?E2, ?E3, ?E4, ?E5. Qed.

(** The segment itself goes to the application. *)
Lemma give_inseg_ok t p n b R : at_hand t (R, n, b) -> recv_data (the_in t) = None -> sg_p (inseg (the_in t)) = Some p -> concat p = bytes_of f R n -> 0 <= n ->
  exists t', (if 0 <? tot_len p then on_in (fun i => set_recv_data (Some p) (set_inseg (set_p None) i)) else mret tt) t = Done (tt, t') /\
    the_pcb t' = the_pcb t /\ data_of (the_in t') = bytes_of f R n /\ recv_flags (the_in t') = recv_flags (the_in t).
Proof.
  intros Hh Hd Hp Hc Hn. destruct (Z.ltb_spec 0 (tot_len p)) as [Hlt|Hge].
  - eexists. split; [reflexivity|]. split; [done|]. split; [|done]. unfold data_of. cbn. exact Hc.
  - exists t. split; [done|]. split; [done|]. split; [|done]. unfold data_of. rewrite Hd. cbn. unfold tot_len in Hge. rewrite Hc, zlen_bytes_of in Hge by done.
    assert (n = 0) as -> by lia. done.
Qed.

Lemma recv_inseq_ok e l t R W A n b : window t R W A -> at_hand t (R, n, b) -> piece_ok (R, n, b) -> n < 0x7fff -> 1 <= W ->
  recv_data (the_in t) = None -> Forall2 seg_is (ooseq (rcv (the_pcb t))) l -> queue_ok (R + 1) e l -> e <= R + W -> e <= A + 1 -> Z.min (R + n + fin_len b) (R + W) <= e ->
  exists t' R' l', recv_inseq t = Done (tt, t') /\ taken f fin t t' R R' W A l' /\ queue_ok (R' + 1) e l' /\ Z.min (R + n + fin_len b) (R + W) <= R'.
Proof.
  intros Hw Hh Hok Hn HW1 Hnone Hsegs Hq He HeA Hne. unfold recv_inseq. pose proof Hok as (Hn0 & Hn1 & Hn2 & Hn3). cbn [fst snd] in *.
  assert (0 <= fin_len b <= 1) by (destruct b; cbn; lia). pose proof (wi_range _ _ _ _ Hw) as HWr.
  destruct (update_tcplen_ok t (R, n, b) Hh) as (t1 & E1 & K1 & Hh1 & Hr1); [cbn; lia|]. rewrite (bind_done _ _ _ _ _ E1).
  pose proof (keeps_window _ _ _ _ _ K1 Hw) as Hw1.
  destruct (trim_window_ok t1 R W A n b Hw1 Hh1 Hr1 Hok HW1 Hn) as (t2 & n2 & b2 & E2 & K2 & Hh2 & Hr2 & Hok2 & Hle2 & Hmin). rewrite (bind_done _ _ _ _ _ E2).
  pose proof (tcp_keeps_trans _ _ _ K1 K2) as K12. pose proof Hok2 as (Hn20 & _). assert (0 <= fin_len b2 <= 1) by (destruct b2; cbn; lia). cbn [fst snd] in Hn20.
  destruct (adjust_ooseq_ok e l t2 R n2 b2 Hh2 Hr2 Hok2) as (t3 & n3 & b3 & l3 & segs3 & E3 & (t3k & K3 & Ht3) & Ho3 & Hh3 & Hr3 & Hok3 & Hne3 & Hs3 & Hq3 & Hprog);
    [lia|lia|by rewrite (kp_rcv _ _ K12)|done|lia|]. rewrite (bind_done _ _ _ _ _ E3), get_bind. cbv zeta.
  pose proof (tcp_keeps_trans _ _ _ K12 K3) as K123.
  assert (window t3 R W A /\ state (the_pcb t3) = state (the_pcb t) /\ recv_data (the_in t3) = None /\ recv_flags (the_in t3) = recv_flags (the_in t)) as (Hw3 & Hst3 & Hnone3 & Hfl3).
  { pose proof (keeps_window _ _ _ _ _ K123 Hw) as Hwk. destruct K123 as [Kr Ks Km Kd Kf _].
    destruct Ht3 as [->| ->]; [by rewrite Kd|]. split; [by apply (window_rcv t3k)|]. cbn. by rewrite Kd. }
  rewrite (proj1 Hh3), Hr3, on_rcv_bind. cbn [fst snd]. pose proof Hok3 as (Hn30 & Hn31 & _). cbn [fst snd] in *. assert (0 <= fin_len b3 <= 1) by (destruct b3; cbn; lia).
  set (t4 := set_pcb _ t3). pose proof Hw3 as [V1 V2 V3 V4 V5 V6 V7 V8].
  destruct (advance_ok t4 R W A (n3 + fin_len b3)) as (a & E5 & Ha1 & Ha2); [|done|done|lia|done|lia|lia|done|].
  { cbn. apply u32_seq. auto with seq. }
  rewrite (bind_done _ _ _ _ _ E5). set (t5 := set_pcb _ t4). rewrite get_bind. destruct (si_p _ _ (proj2 Hh3)) as (p & Hp & Hc). cbn [fst snd] in Hc.
  change (the_in t5) with (the_in t3). rewrite Hp, (deref_bind _ p) by done.
  destruct (give_inseg_ok t5 p n3 b3 R) as (t6 & E6 & Hp6 & Hd6 & Hf6); [exact Hh3|exact Hnone3|exact Hp|done|done|]. rewrite (bind_done _ _ _ _ _ E6).
  rewrite (si_fin _ _ (proj2 Hh3)). cbn [snd].
  assert (exists t7, (if b3 then on_in (set_recv_flags (set_bits TF_GOT_FIN)) else mret tt : M (tcp E) unit) t6 = Done (tt, t7) /\ the_pcb t7 = the_pcb t6 /\
    data_of (the_in t7) = data_of (the_in t6) /\ has (recv_flags (the_in t7)) TF_GOT_FIN = has (recv_flags (the_in t6)) TF_GOT_FIN || b3) as (t7 & E7 & Hp7 & Hd7 & Hf7).
  { destruct b3; eexists; (split; [reflexivity|]); (split; [done|]); (split; [done|]); [|by rewrite orb_false_r]. cbn. rewrite has_set_same by done. by rewrite orb_true_r. }
  rewrite (bind_done _ _ _ _ _ E7), get_bind. set (R1 := R + n3 + fin_len b3).
  destruct (piece_text fin R n3 b3 Hok3) as (T1 & T2 & T3 & T4).
  assert (taken f fin t t7 R R1 W A l3) as Htk.
  { split; [|lia| | | |].
    - split; rewrite ?Hp7, ?Hp6; cbn; [|lia|lia|done|lia|lia|lia|done]. rewrite (u32_seq _ (R + (n3 + fin_len b3))) by auto with seq. f_equal. lia.
    - rewrite Hp7, Hp6. cbn. by rewrite Ho3.
    - rewrite Hd7, Hd6. unfold data_of. rewrite Hnone, T1. subst R1. rewrite T2. cbn. f_equal. lia.
    - rewrite Hf7, Hf6. change (the_in t5) with (the_in t3). rewrite Hfl3, T3. subst R1. rewrite T4. by rewrite andb_true_r.
    - left. rewrite Hp7, Hp6. exact Hst3. }
  destruct (tcp_dequeue_ok f fin e l3 (ooseq (rcv (the_pcb t7))) t7 R1 (W - (R1 - R)) A) as (t8 & R8 & l8 & E8 & Htk8 & Hq8 & Hd8);
    [apply Htk|done|apply Htk|done|lia|lia|]. rewrite (bind_done _ _ _ _ _ E8).
  pose proof (taken_trans f fin t t7 t8 R R1 R8 W A l3 l8 Htk Htk8) as [X1 X2 X3 X4 X5 X6].
  assert (exists t9, tcp_ack t8 = Done (tt, t9) /\ rcv (the_pcb t9) = rcv (the_pcb t8) /\ state (the_pcb t9) = state (the_pcb t8) /\ mss (the_pcb t9) = mss (the_pcb t8) /\
    the_in t9 = the_in t8) as (t9 & E9 & Y1 & Y2 & Y3 & Y4).
  { unfold tcp_ack. rewrite get_bind. destruct (has (pcb_flags (the_pcb t8)) TF_ACK_DELAY); (eexists; split; [reflexivity|done]). }
  exists t9, R8, l8. split; [exact E9|]. split; [split; rewrite ?Y1, ?Y2, ?Y4; try done; by apply (window_rcv t8); rewrite ?Y1|].
  split; [done|]. destruct l3 as [|x l3]; [subst R8; lia|]. pose proof (tk_le _ _ _ _ _ _ _ _ _ Htk8). destruct Hprog as [|[Hx Hxe]]; [lia|].
  specialize (Hd8 Hx). lia.
Qed.
End stream.
