(* ===== verification/TcpFrame.v ===== *)
(** * TCP: what a function leaves alone

    A relation between the states around a computation that holds for its parts holds for
    the whole; the tactic [respects] goes through the computation.  With it: what the data
    of a segment does not touch, and what is sent for it. *)

From S2P Require Import Prelude TcpPcb TcpRecv TcpOut TcpStream.

Section respects.
Context {S : Type} (Q : S -> S -> Prop) `{!PreOrder Q}.

(** Whenever [m] returns, [Q] relates the states in front of it and behind it. *)
Definition respects {A} (m : M S A) : Prop := forall t a t', m t = Done (a, t') -> Q t t'.

Lemma respects_ret {A} (a : A) : respects (mret a).
Proof. intros t a' t' E1. injection E1 as _ <-. reflexivity. Qed.

Lemma respects_get : respects get.
Proof. intros t a t' E1. injection E1 as _ <-. reflexivity. Qed.

Lemma respects_modify f : (forall t, Q t (f t)) -> respects (modify f).
Proof. intros Hf t a t' E1. injection E1 as _ <-. apply Hf. Qed.

Lemma respects_fail {A} c : respects (fail (A := A) c).
Proof. intros t a t' E1. discriminate. Qed.

Lemma respects_bind {A B} (m : M S A) (k : A -> M S B) : respects m -> (forall a, respects (k a)) -> respects (m ≫= k).
Proof.
  intros Hm Hk t b t' E1. unfold mbind, M_bind in E1. destruct (m t) as [[a t1]|c] eqn:E2; [|discriminate].
  transitivity t1; [by eapply Hm|by eapply Hk].
Qed.

(** The state that is read is the one the rest starts in. *)
Lemma respects_get_bind {B} (k : S -> M S B) : (forall t b t', k t t = Done (b, t') -> Q t t') -> respects (get ≫= k).
Proof. intros Hk t b t' E1. by apply (Hk t b). Qed.

Lemma respects_assert b : respects (lwip_assert b).
Proof. destruct b; [apply respects_ret|apply respects_fail]. Qed.

Lemma respects_deref {A} (o : option A) : respects (deref o).
Proof. destruct o; [apply respects_ret|apply respects_fail]. Qed.
End respects.

Lemma respects_mono {S A} (Q Q' : S -> S -> Prop) (m : M S A) : (forall t t', Q t t' -> Q' t t') -> respects Q m -> respects Q' m.
Proof. intros HQ Hm t a t' E1. by eapply HQ, Hm. Qed.

Create HintDb respects.

Ltac respects_step :=
  match goal with
  | |- respects _ (mret _) => apply respects_ret
  | |- respects _ get => apply respects_get
  | |- respects _ (fail _) => apply respects_fail
  | |- respects _ (lwip_assert _) => apply respects_assert
  | |- respects _ (deref _) => apply respects_deref
  | |- respects _ (let '(_, _) := ?x in _) => destruct x
  | |- respects _ (if ?b then _ else _) => destruct b
  | |- respects _ (match ?x with _ => _ end) => destruct x
  | |- respects _ _ => solve [eauto 1 with respects nocore]
  | |- respects _ (_ ≫= _) => apply respects_bind; [| |intros ?]
  | |- respects _ (modify _) => apply respects_modify; intros ?
  | |- respects _ (on_in _) => apply respects_modify; intros ?
  | |- respects _ (on_rcv _) => apply respects_modify; intros ?
  | |- respects _ (on_pcb _) => apply respects_modify; intros ?
  | |- respects _ (on_snd _) => apply respects_modify; intros ?
  | |- respects _ (on_ctl _) => apply respects_modify; intros ?
  | |- respects _ (on_win _) => apply respects_modify; intros ?
  | |- respects _ (on_misc _) => apply respects_modify; intros ?
  | |- respects _ (set_flag _) => apply respects_modify; intros ?
  | |- respects _ (clear_flag _) => apply respects_modify; intros ?
  end; try exact _.

Ltac respects := repeat (cbv zeta; respects_step).

Section frame.
Context {E : Type} `{TcpHost E}.

(** The sender is the same; of the flags, only those about acknowledgements may change. *)
Record frame (t t' : tcp E) : Prop := Frame {
  fr_snd : snd_q (the_pcb t') = snd_q (the_pcb t);
  fr_win : win (the_pcb t') = win (the_pcb t);
  fr_ctl : ctl (the_pcb t') = ctl (the_pcb t);
  fr_misc : misc (the_pcb t') = misc (the_pcb t);
  fr_mss : mss (the_pcb t') = mss (the_pcb t);
  fr_flags : forall m, Z.land (Z.lor TF_ACK_DELAY TF_ACK_NOW) m = 0 -> has (pcb_flags (the_pcb t')) m = has (pcb_flags (the_pcb t)) m;
  fr_input : tcp_input_pcb (the_in t') = tcp_input_pcb (the_in t);
  fr_recv_flags : forall m, Z.land TF_GOT_FIN m = 0 -> has (recv_flags (the_in t')) m = has (recv_flags (the_in t)) m
}.

#[global] Instance frame_preorder : PreOrder frame.
Proof. split; [by split|]. intros t1 t2 t3 [] []. split; intros; etransitivity; eauto. Qed.

Lemma land_sub m a b : Z.land (Z.lor a b) m = 0 -> Z.land a m = 0 /\ Z.land b m = 0.
Proof. rewrite Z.land_lor_distr_l. apply Z.lor_eq_0_iff. Qed.

Lemma frame_flags t g : (forall fl m, Z.land (Z.lor TF_ACK_DELAY TF_ACK_NOW) m = 0 -> has (g fl) m = has fl m) -> frame t (set_pcb (set_flags g) t).
Proof. intros Hg. split; try done. intros m Hm. by apply Hg. Qed.

Ltac frame_tac := first [by split | apply frame_flags; intros ? ? [? ?]%land_sub; rewrite ?has_set_other, ?has_clear_other by done; done
  | apply frame_flags; intros; by apply has_clear_other
  | split; try done; intros; cbn; by apply has_set_other].

Lemma ack_now_frame : respects frame tcp_ack_now.
Proof. unfold tcp_ack_now. respects. frame_tac. Qed.

Lemma ack_frame : respects frame tcp_ack.
Proof. unfold tcp_ack. respects; frame_tac. Qed.

#[local] Hint Resolve ack_now_frame ack_frame : respects.

Lemma update_ann_frame : respects frame tcp_update_rcv_ann_wnd.
Proof. unfold tcp_update_rcv_ann_wnd. respects; frame_tac. Qed.

Lemma empty_ack_frame : respects frame tcp_send_empty_ack.
Proof. unfold tcp_send_empty_ack, tcp_output_alloc_header, emit. respects; frame_tac. Qed.

Lemma seg_copy_frame : respects frame tcp_seg_copy.
Proof. unfold tcp_seg_copy. respects; frame_tac. Qed.

#[local] Hint Resolve update_ann_frame empty_ack_frame seg_copy_frame : respects.

Lemma append_last_frame n c : respects frame (append_last n c).
Proof. unfold append_last. respects; frame_tac. Qed.

#[local] Hint Resolve append_last_frame : respects.

Lemma oos_walk_frame l : forall prev, respects frame (oos_walk prev l).
Proof. induction l as [|n l IH]; intros prev; cbn [oos_walk]; respects; try apply IH; frame_tac. Qed.

#[local] Hint Resolve oos_walk_frame : respects.

Lemma trim_edge_frame : respects frame trim_edge.
Proof. unfold trim_edge. respects; frame_tac. Qed.

Lemma recv_ooseq_frame : respects frame recv_ooseq.
Proof. unfold recv_ooseq. respects; frame_tac. Qed.

Lemma cut_inseg_frame n : respects frame (cut_inseg n).
Proof. unfold cut_inseg, update_tcplen. respects; frame_tac. Qed.

#[local] Hint Resolve trim_edge_frame recv_ooseq_frame cut_inseg_frame : respects.

Lemma free_covered_frame l : respects frame (free_covered l).
Proof. induction l as [|n l IH]; cbn [free_covered]; unfold update_tcplen; respects; try apply IH; frame_tac. Qed.

#[local] Hint Resolve free_covered_frame : respects.

Lemma advance_frame n : respects frame (advance n).
Proof. unfold advance. respects; frame_tac. Qed.

#[local] Hint Resolve advance_frame : respects.

Lemma dequeue_frame l : respects frame (dequeue_ooseq l).
Proof.
  induction l as [|s l IH]; cbn [dequeue_ooseq]; respects; try apply IH; try frame_tac. 
  destruct t as [p i e]; unfold set_pcb; cbn -[bool_decide]; destruct (bool_decide _); by split.
Qed.

#[local] Hint Resolve dequeue_frame : respects.

Lemma recv_inseq_frame : respects frame recv_inseq.
Proof. unfold recv_inseq, update_tcplen, trim_window, adjust_ooseq. respects; frame_tac. Qed.

#[local] Hint Resolve recv_inseq_frame : respects.

Lemma recv_text_frame : respects frame recv_text.
Proof. unfold recv_text. respects; frame_tac. Qed.
End frame.

(** ** What goes out *)

(** An application that takes whatever arrives, on a host whose output is kept: what it got,
    whether it was told the end of the stream, and the segments that went to IP. *)
Class TcpApp (E : Type) `{TcpHost E} := {
  app_recv : option chain -> E -> E;
  got : E -> bytes;
  eof : E -> bool;
  outs : E -> list tcp_out;
  ram_quiet n e e' : alloc_ram n e = Some e' -> got e' = got e /\ eof e' = eof e /\ outs e' = outs e;
  rom_quiet e e' : alloc_rom e = Some e' -> got e' = got e /\ eof e' = eof e /\ outs e' = outs e;
  seg_quiet e e' : alloc_seg e = Some e' -> got e' = got e /\ eof e' = eof e /\ outs e' = outs e;
  tick_quiet e : got (tick e) = got e /\ eof (tick e) = eof e /\ outs (tick e) = outs e;
  output_said o e : got (ip_output o e) = got e /\ eof (ip_output o e) = eof e /\ outs (ip_output o e) = outs e ++ [o];
  recv_got c e : got (app_recv (Some c) e) = got e ++ concat c /\ eof (app_recv (Some c) e) = eof e /\ outs (app_recv (Some c) e) = outs e;
  recv_eof e : got (app_recv None e) = got e /\ eof (app_recv None e) = true /\ outs (app_recv None e) = outs e
}.

Section said.
Context {E : Type} `{TcpApp E}.

(** Nothing went out, and the application was not called. *)
Record hushed (t t' : tcp E) : Prop := Hushed {
  hu_got : got (env t') = got (env t);
  hu_eof : eof (env t') = eof (env t);
  hu_outs : outs (env t') = outs (env t)
}.

#[export] Instance hushed_preorder : PreOrder hushed.
Proof. split; [by split|]. intros t1 t2 t3 [] []. split; congruence. Qed.

(** Besides, the numbers of the receiver are the same. *)
Record calm (t t' : tcp E) : Prop := Calm {
  ca_hushed : hushed t t';
  ca_nxt : rcv_nxt (rcv (the_pcb t')) = rcv_nxt (rcv (the_pcb t));
  ca_ann : rcv_ann_wnd (rcv (the_pcb t')) = rcv_ann_wnd (rcv (the_pcb t));
  ca_edge : rcv_ann_right_edge (rcv (the_pcb t')) = rcv_ann_right_edge (rcv (the_pcb t));
  ca_snd : snd_nxt (snd_q (the_pcb t')) = snd_nxt (snd_q (the_pcb t))
}.

#[export] Instance calm_preorder : PreOrder calm.
Proof. split; [by split|]. intros t1 t2 t3 [] []. split; etransitivity; eauto. Qed.

Lemma take_hushed a : (forall e e', a e = Some e' -> got e' = got e /\ eof e' = eof e /\ outs e' = outs e) -> respects hushed (take a).
Proof.
  intros Ha t b t' E1. unfold take in E1. rewrite get_bind in E1. destruct (a (env t)) as [e|] eqn:E2.
  - injection E1 as _ <-. destruct (Ha _ _ E2) as (? & ? & ?). by split.
  - injection E1 as _ <-. reflexivity.
Qed.

Lemma seg_copy_calm : respects calm tcp_seg_copy.
Proof.
  intros t c t' E1. unfold tcp_seg_copy in E1. rewrite get_bind in E1. destruct (alloc_seg (env t)) as [e|] eqn:E2.
  - injection E1 as _ <-. destruct (seg_quiet _ _ E2) as (? & ? & ?). by split.
  - injection E1 as _ <-. reflexivity.
Qed.

#[local] Hint Resolve seg_copy_calm : respects.

Ltac calm_tac := by split.

Lemma oos_walk_calm l : forall prev, respects calm (oos_walk prev l).
Proof.
  induction l as [|n l IH]; intros prev; cbn [oos_walk]; unfold append_last; respects; try apply IH; calm_tac.
Qed.

Lemma trim_edge_calm : respects calm trim_edge.
Proof. unfold trim_edge, tcp_ack_now. respects; calm_tac. Qed.

Lemma update_ann_hushed : respects hushed tcp_update_rcv_ann_wnd.
Proof. unfold tcp_update_rcv_ann_wnd. respects; calm_tac. Qed.

#[local] Hint Resolve update_ann_hushed : respects.

Lemma recv_inseq_hushed : respects hushed recv_inseq.
Proof.
  assert (forall l, respects hushed (free_covered l)) as Hf.
  { induction l as [|n l IH]; cbn [free_covered]; unfold update_tcplen; respects; try apply IH; calm_tac. }
  assert (forall l, respects hushed (dequeue_ooseq l)) as Hd.
  { induction l as [|n l IH]; cbn [dequeue_ooseq]; unfold advance; respects; try apply IH; calm_tac. }
  unfold recv_inseq, update_tcplen, trim_window, adjust_ooseq, cut_inseg, update_tcplen, advance, tcp_ack. respects; try apply Hf; try apply Hd; calm_tac.
Qed.

(** The acknowledgement a PCB would send. *)
Definition ack_of (p : tcp_pcb) : tcp_out := TcpOut (snd_nxt (snd_q p)) (rcv_nxt (rcv p)) TCP_ACK (rcv_ann_wnd (rcv p)) None [].

(** One acknowledgement went out, and has announced the window. *)
Record acked_once (t t' : tcp E) : Prop := AckedOnce {
  ao_got : got (env t') = got (env t);
  ao_eof : eof (env t') = eof (env t);
  ao_outs : outs (env t') = outs (env t) ++ [ack_of (the_pcb t)];
  ao_nxt : rcv_nxt (rcv (the_pcb t')) = rcv_nxt (rcv (the_pcb t));
  ao_ann : rcv_ann_wnd (rcv (the_pcb t')) = rcv_ann_wnd (rcv (the_pcb t));
  ao_edge : rcv_ann_right_edge (rcv (the_pcb t')) = u32 (rcv_nxt (rcv (the_pcb t)) + rcv_ann_wnd (rcv (the_pcb t)))
}.

Lemma calm_acked t1 t2 t3 : calm t1 t2 -> acked_once t2 t3 -> acked_once t1 t3.
Proof. intros [[] ? ? ? ?] []. split; unfold ack_of in *; congruence. Qed.

Lemma acked_calm t1 t2 t3 : acked_once t1 t2 -> calm t2 t3 -> acked_once t1 t3.
Proof. intros [] [[] ? ? ? ?]. split; congruence. Qed.

Lemma empty_ack_said t r t' : tcp_send_empty_ack t = Done (r, t') -> calm t t' \/ acked_once t t'.
Proof.
  unfold tcp_send_empty_ack, tcp_output_alloc_header, emit. rewrite get_bind, bind_assoc, get_bind. destruct (alloc_ram _ (env t)) as [e|] eqn:E1.
  - rewrite !bind_assoc, modify_bind. unfold on_rcv. rewrite bind_assoc, modify_bind, ret_bind, modify_bind, bind_assoc, get_bind, modify_bind.
    intros E2. injection E2 as _ <-. right. destruct (ram_quiet _ _ _ E1) as (G1 & G2 & G3).
    destruct (output_said (ack_of (the_pcb t)) e) as (O1 & O2 & O3). unfold ack_of in *. split; cbn; try congruence. by rewrite O3, G3.
  - rewrite ret_bind. intros E2. injection E2 as _ <-. left. reflexivity.
Qed.

Lemma respects_after {A B} (m : M (tcp E) A) (k : A -> M (tcp E) B) t b t' : respects calm m ->
  (forall a t1, (k a) t1 = Done (b, t') -> hushed t1 t' \/ acked_once t1 t') -> (m ≫= k) t = Done (b, t') -> hushed t t' \/ acked_once t t'.
Proof.
  intros Hm Hk E1. unfold mbind, M_bind in E1. destruct (m t) as [[a t1]|c] eqn:E2; [|discriminate]. pose proof (Hm _ _ _ E2) as Hc.
  destruct (Hk _ _ E1) as [Hh|Ha]; [left; etransitivity; [apply Hc|done]|right; by eapply calm_acked].
Qed.

Lemma ack_before {B} (k : Z -> M (tcp E) B) t b t' : (forall a, respects calm (k a)) -> (tcp_send_empty_ack ≫= k) t = Done (b, t') ->
  hushed t t' \/ acked_once t t'.
Proof.
  intros Hk E1. unfold mbind, M_bind in E1. destruct (tcp_send_empty_ack t) as [[a t1]|c] eqn:E2; [|discriminate]. pose proof (Hk _ _ _ _ E1) as Hc.
  destruct (empty_ack_said _ _ _ E2) as [Hh|Ha]; [left; apply (transitivity (y := t1)); [apply Hh|apply Hc]|right; by eapply acked_calm].
Qed.

(** The data of a segment makes TCP send one acknowledgement at most, and then rcv_nxt does
    not move. *)
Lemma recv_text_said t a t' : recv_text t = Done (a, t') -> hushed t t' \/ acked_once t t'.
Proof.
  unfold recv_text. rewrite get_bind. cbv zeta. destruct (_ && _).
  - apply respects_after; [apply trim_edge_calm|]. intros _ t1. rewrite get_bind. destruct (TCP_SEQ_BETWEEN _ _ _); [destruct (_ =? _)|].
    + intros E1. left. by apply (recv_inseq_hushed _ _ _ E1).
    + unfold recv_ooseq. apply ack_before. intros _. respects; try apply oos_walk_calm; calm_tac.
    + apply ack_before. intros _. respects.
  - destruct (TCP_SEQ_BETWEEN _ _ _); intros E1; injection E1 as _ <-; left; by split.
Qed.
End said.
