(* ===== verification/TcpSend.v ===== *)
(** * TCP: the queues of the sender

    What is on pcb->unacked and pcb->unsent are adjacent pieces of the stream that the
    application writes, from the first byte that is not acknowledged to the last that was
    written; the numbers of the sender, its buffer and its windows are about them.  After a
    fast retransmission, and up to the output that follows, the first piece is in front of
    pcb->unsent. *)

From S2P Require Import Prelude TcpPcb TcpRecv TcpOut TcpAck TcpProcess TcpStream TcpFrame.

(** ** Adjacent pieces *)

(** The position of a piece and the number of its bytes. *)
Abbreviation span := (Z * Z)%type.

Definition span_end (x : span) : Z := x.1 + x.2.

Fixpoint contig (x : Z) (l : list span) (y : Z) : Prop :=
  match l with
  | [] => x = y
  | p :: l => p.1 = x /\ 1 <= p.2 /\ contig (span_end p) l y
  end.

Lemma contig_app x l k y : contig x (l ++ k) y <-> exists z, contig x l z /\ contig z k y.
Proof.
  revert x. induction l as [|p l IH]; intros x; cbn [app contig].
  - split; [by exists x|by intros (z & -> & ?)].
  - rewrite IH. split; [intros (? & ? & z & ? & ?); by exists z|intros (z & (? & ? & ?) & ?); naive_solver].
Qed.

Lemma contig_le x l y : contig x l y -> x <= y.
Proof. revert x. induction l as [|p l IH]; intros x; [cbn; lia|]. intros (<- & ? & H1). apply IH in H1. unfold span_end in *. lia. Qed.

Lemma contig_in x l y p : contig x l y -> p ∈ l -> x <= p.1 /\ 1 <= p.2 /\ span_end p <= y.
Proof.
  revert x. induction l as [|q l IH]; intros x; [by intros _ ?%elem_of_nil|]. intros (<- & H1 & H2) [->|Hp]%elem_of_cons.
  - pose proof (contig_le _ _ _ H2). lia.
  - destruct (IH _ H2 Hp) as (? & ? & ?). unfold span_end in *. lia.
Qed.

(** The first piece is not acknowledged as a whole. *)
Definition fresh (U : Z) (l : list span) : Prop := match l with [] => True | p :: _ => U < span_end p end.

Lemma fresh_all x l y U : contig x l y -> fresh U l -> Forall (fun p => U < span_end p) l.
Proof.
  intros Hc Hf. apply list.Forall_forall. intros p Hp. destruct l as [|q l]; [by apply elem_of_nil in Hp|]. cbn in Hf.
  destruct Hc as (<- & H1 & H2). apply elem_of_cons in Hp as [->|Hp]; [done|]. destruct (contig_in _ _ _ _ H2 Hp) as (? & ? & _). unfold span_end in *. lia.
Qed.

(** Pieces in front of a position are dropped. *)
Lemma contig_drop U k l y : forall x, contig x (k ++ l) y -> Forall (fun p => span_end p <= U) k -> x <= U -> exists x', contig x' l y /\ x <= x' <= U.
Proof.
  induction k as [|p k IH]; intros x Hc Hk Hx; cbn in Hc; [by exists x|]. destruct Hc as (<- & H1 & Hc). apply list.Forall_cons in Hk as [Hp Hk].
  destruct (IH _ Hc Hk Hp) as (x' & Hc' & Hx'). exists x'. split; [done|]. unfold span_end in *. lia.
Qed.

Section stream.
Context (f : Z -> Z).

#[local] Abbreviation bytes_of := (TcpStream.bytes_of f).

(** A segment that carries a piece, which is not longer than [lim]. *)
Record carried (lim : Z) (seg : tcp_seg) (x : span) : Prop := Carried {
  ca_seg : seg_is f seg (x.1, x.2, false);
  ca_rst : has (sg_flags seg) TCP_RST = false;
  ca_opts : sg_opts seg = 0;
  ca_size : 1 <= x.2 <= lim;
  ca_clen : 1 <= clen seg
}.

Fixpoint clens (l : list tcp_seg) : Z := match l with [] => 0 | s :: l => clen s + clens l end.

Lemma clens_app l k : clens (l ++ k) = clens l + clens k.
Proof. induction l as [|s l IH]; cbn; [done|]. lia. Qed.

Lemma clens_nonneg l : 0 <= clens l.
Proof. induction l as [|s l IH]; cbn; [done|]. pose proof (zlen_nonneg (default [] (sg_p s))). unfold clen. lia. Qed.

Lemma clens_pos lim l k : Forall2 (carried lim) l k -> l <> [] -> 1 <= clens l.
Proof. intros Hl Hne. destruct Hl as [|s x l k Hs Hl]; [done|]. cbn. pose proof (clens_nonneg l). pose proof (ca_clen _ _ _ Hs). lia. Qed.

Lemma carried_len lim seg x : carried lim seg x -> sg_len seg = x.2.
Proof. intros Hc. apply (ca_seg _ _ _ Hc). Qed.

Lemma carried_tcplen lim seg x : carried lim seg x -> TCP_TCPLEN seg = x.2.
Proof. intros Hc. rewrite (seg_tcplen (f := f) _ _ (ca_seg _ _ _ Hc)). cbn. lia. Qed.

Lemma carried_start lim seg x : carried lim seg x -> seq_of (sg_seqno seg) x.1.
Proof. intros Hc. rewrite (si_seqno _ _ (ca_seg _ _ _ Hc)). auto with seq. Qed.

Lemma carried_end lim seg x : carried lim seg x -> seq_of (sg_seqno seg + TCP_TCPLEN seg) (span_end x).
Proof. intros Hc. rewrite (carried_tcplen _ _ _ Hc). apply seq_of_add; [by eapply carried_start|auto with seq]. Qed.

Lemma carried_mono lim lim' seg x : lim <= lim' -> carried lim seg x -> carried lim' seg x.
Proof. intros Hl []. split; try done. lia. Qed.

(** The header does not matter beyond the flags that are looked at. *)
Lemma carried_flags lim seg x g : (forall m, m = TCP_FIN \/ m = TCP_SYN \/ m = TCP_RST -> has (g (sg_flags seg)) m = has (sg_flags seg) m) ->
  carried lim seg x -> carried lim (set_seg_flags g seg) x.
Proof.
  intros Hg [[H1 H2 H3 H4 H5] Hr Ho Hs Hc]. split; [split|..]; cbn in *; try done; rewrite Hg; auto.
Qed.

Lemma carried_data lim seg x : carried lim seg x -> seg_data seg = bytes_of x.1 x.2.
Proof. intros Hc. destruct (si_p _ _ (ca_seg _ _ _ Hc)) as (p & Hp & E1). unfold seg_data. by rewrite Hp. Qed.

(** ** The sender *)

(** The sender's part of the PCB: everything in front of [U] is acknowledged, [N] is the
    next position to send, and [L] the next to write; [la] and [lu] are on the queues. *)
Record sendq (s : tcp_snd) (lim U N L : Z) (la lu : list span) : Prop := SendQ {
  sq_lastack : lastack s = u32 U;
  sq_nxt : snd_nxt s = u32 N;
  sq_lbb : snd_lbb s = u32 L;
  sq_pos : U <= N <= L /\ L - U <= TCP_SND_BUF;
  sq_buf : snd_buf s = TCP_SND_BUF - (L - U);
  sq_unacked : Forall2 (carried lim) (unacked s) la;
  sq_unsent : Forall2 (carried lim) (unsent s) lu;
  sq_sent : Forall (fun x => span_end x <= N) la;
  sq_queuelen : snd_queuelen s = clens (unacked s) + clens (unsent s) /\ snd_queuelen s <= TCP_SND_QUEUELEN;
  sq_oversize : 0 <= unsent_oversize s /\ (forall x, list.last lu = Some x -> x.2 + unsent_oversize s <= lim);
  sq_acked : 0 <= acked s < 2 ^ 16
}.

Lemma sendq_lim s lim lim' U N L la lu : lim <= lim' -> sendq s lim U N L la lu -> sendq s lim' U N L la lu.
Proof.
  intros Hl [H1 H2 H3 H4 H5 H6 H7 H8 H9 [H10 H11] H12]. split; try done.
  - eapply Forall2_impl; [|exact H6]. intros. by eapply carried_mono.
  - eapply Forall2_impl; [|exact H7]. intros. by eapply carried_mono.
  - split; [done|]. intros x Hx. specialize (H11 x Hx). lia.
Qed.

(** The queues are not both empty when there are pbufs on them. *)
Lemma sendq_checked s lim U N L la lu : sendq s lim U N L la lu -> queues_checked s = true.
Proof.
  intros Hq. destruct (sq_queuelen _ _ _ _ _ _ _ Hq) as [Hn _]. unfold queues_checked.
  pose proof (sq_unacked _ _ _ _ _ _ _ Hq) as Ha. pose proof (sq_unsent _ _ _ _ _ _ _ Hq) as Hu.
  pose proof (clens_nonneg (unacked s)). pose proof (clens_nonneg (unsent s)).
  destruct (unsent s) as [|x l] eqn:E1; [destruct (unacked s) as [|y k] eqn:E2|].
  - by rewrite Hn.
  - pose proof (clens_pos _ _ _ Ha ltac:(done)). destruct (Z.eqb_spec (snd_queuelen s) 0); [lia|done].
  - pose proof (clens_pos _ _ _ Hu ltac:(done)). destruct (Z.eqb_spec (snd_queuelen s) 0); [lia|]. by destruct (unacked s).
Qed.

(** The longest segment that tcp_write makes. *)
Definition limit (p : tcp_pcb) : Z := Z.min (mss p) (snd_wnd_max (win p) / 2).

(** The pieces in the order of the stream: those that are unacknowledged in front, but in
    the middle of a fast retransmission the first is the first of the unsent. *)
Definition arranged (mid : bool) (p : tcp_pcb) (N : Z) (la lu o : list span) : Prop :=
  if mid then exists x l, lu = x :: l /\ o = x :: la ++ l /\ span_end x <= N /\ has (pcb_flags p) TF_INFR = true /\ mss p <= cwnd (ctl p)
  else o = la ++ lu.

(** What the rest of the PCB is like: windows and the MSS are numbers that can be worked with,
    the connection has not been closed, and nothing was refused. *)
Record sane (p : tcp_pcb) : Prop := Sane {
  sn_win : 0 <= snd_wnd (win p) < 2 ^ 16 /\ snd_wnd (win p) <= snd_wnd_max (win p) < 2 ^ 16;
  sn_mss : 1 <= mss p <= TCP_MSS;
  sn_cwnd : 1 <= cwnd (ctl p) < 2 ^ 16;
  sn_ssthresh : 1 <= ssthresh (ctl p) < 2 ^ 16;
  sn_nrtx : 0 <= nrtx (ctl p);
  sn_open : has (pcb_flags p) TF_RXCLOSED = false;
  sn_refused : refused_data (misc p) = None;
  sn_keep : has (so_options (misc p)) SOF_KEEPALIVE = false;
  sn_persist : 0 <= persist_backoff (win p) <= 7;
  sn_max : 2 <= snd_wnd_max (win p)
}.

(** The invariant of a sender whose stream starts at [S0]. *)
Record sends (mid : bool) (p : tcp_pcb) (S0 U N L : Z) (la lu o : list span) : Prop := Sends {
  sn_q : sendq (snd_q p) (limit p) U N L la lu;
  sn_order : arranged mid p N la lu o;
  sn_contig : exists x, S0 <= x <= U /\ contig x o L;
  sn_fresh : fresh U o;
  sn_over : unsent (snd_q p) = [] -> unsent_oversize (snd_q p) = 0;
  sn_sane : sane p
}.

(** What was sent is in the window. *)
Definition roomy (p : tcp_pcb) (U N : Z) : Prop := N <= U + snd_wnd (win p).

Lemma sends_near mid p S0 U N L la lu o : sends mid p S0 U N L la lu o -> Forall (fun x => U - 2 ^ 16 < x.1 /\ 1 <= x.2 <= 2 ^ 16 /\ U < span_end x <= L /\ L <= U + 2 ^ 16) o.
Proof.
  intros Hs. destruct (sn_contig _ _ _ _ _ _ _ _ _ Hs) as (x & Hx & Hc). pose proof (fresh_all _ _ _ _ Hc (sn_fresh _ _ _ _ _ _ _ _ _ Hs)) as Hf.
  pose proof (sn_q _ _ _ _ _ _ _ _ _ Hs) as Hq. pose proof (sq_pos _ _ _ _ _ _ _ Hq) as Hp. change TCP_SND_BUF with 6432 in *.
  assert (limit p <= 536) as Hl by (pose proof (sn_mss _ (sn_sane _ _ _ _ _ _ _ _ _ Hs)); unfold limit; change TCP_MSS with 536 in *; lia).
  apply list.Forall_forall. intros y Hy. rewrite list.Forall_forall in Hf. specialize (Hf y Hy). destruct (contig_in _ _ _ _ Hc Hy) as (? & ? & ?).
  assert (y.2 <= limit p); [|unfold span_end in *; lia].
  assert (y ∈ la ++ lu) as Hin.
  { pose proof (sn_order _ _ _ _ _ _ _ _ _ Hs) as Ho. unfold arranged in Ho. destruct mid; [|by subst]. destruct Ho as (z & l & -> & -> & _). apply elem_of_cons in Hy as [->|[Hy|Hy]%elem_of_app]; rewrite elem_of_app, elem_of_cons; auto. }
  assert (forall k l, Forall2 (carried (limit p)) l k -> y ∈ k -> y.2 <= limit p) as Hin2.
  { intros k l Hk Hyk. destruct (list_elem_of_lookup_1 _ _ Hyk) as [i Hi]. destruct (Forall2_lookup_r _ _ _ _ _ Hk Hi) as (sg & _ & [_ _ _ Hsz _]). lia. }
  apply elem_of_app in Hin as [Hin|Hin]; [apply (Hin2 la (unacked (snd_q p)))|apply (Hin2 lu (unsent (snd_q p)))]; by apply Hq || done.
Qed.

Section same.
Context {E : Type} `{TcpHost E}.

Implicit Types (t : tcp E).

(** What the receiver is made of, and everything around the connection. *)
Record same t t' : Prop := Same {
  sm_rcv : rcv (the_pcb t') = rcv (the_pcb t);
  sm_state : state (the_pcb t') = state (the_pcb t);
  sm_mss : mss (the_pcb t') = mss (the_pcb t);
  sm_in : the_in t' = the_in t;
  sm_env : env t' = env t;
  sm_nxt : snd_nxt (snd_q (the_pcb t')) = snd_nxt (snd_q (the_pcb t))
}.

#[export] Instance same_preorder : PreOrder same.
Proof. split; [by split|]. intros t1 t2 t3 [] []. split; congruence. Qed.
End same.
End stream.
