(* ===== verification/TcpAckSpec.v ===== *)
(** * TCP: what acknowledgements do to the sender

    Whatever the number and the window of an acknowledgement, as long as the number is less
    than 2^30 away and the window covers what was sent: the pieces it acknowledges leave the
    queues, and the sender keeps its invariant. *)

From S2P Require Import Prelude TcpPcb TcpRecv TcpOut TcpAck TcpProcess TcpStream TcpFrame TcpSend.

Section stream.
Context (f : Z -> Z).

#[local] Abbreviation carried := (TcpSend.carried f).

#[local] Abbreviation sendq := (TcpSend.sendq f).

#[local] Abbreviation sends := (TcpSend.sends f).

Section ack.
Context {E : Type} `{TcpHost E}.

Implicit Types (t : tcp E).

(** Only the sender's queues and numbers change. *)
Record snd_only t t' : Prop := SndOnly {
  so_state : state (the_pcb t') = state (the_pcb t);
  so_flags : pcb_flags (the_pcb t') = pcb_flags (the_pcb t);
  so_mss : mss (the_pcb t') = mss (the_pcb t);
  so_misc : misc (the_pcb t') = misc (the_pcb t);
  so_rcv : rcv (the_pcb t') = rcv (the_pcb t);
  so_win : win (the_pcb t') = win (the_pcb t);
  so_ctl : ctl (the_pcb t') = ctl (the_pcb t);
  so_in : the_in t' = the_in t;
  so_env : env t' = env t
}.

#[export] Instance snd_only_preorder : PreOrder snd_only.
Proof. split; [by split|]. intros t1 t2 t3 [] []. split; congruence. Qed.

Lemma valid_queue_ok t lim U N L la lu : sendq (snd_q (the_pcb t)) lim U N L la lu -> valid_queue_length t = Done (tt, t).
Proof.
  intros Hq. unfold valid_queue_length, get_pcb. rewrite bind_assoc, get_bind, ret_bind. cbv zeta.
  rewrite (sendq_checked f _ _ _ _ _ _ _ Hq). by destruct (_ =? 0).
Qed.

(** A segment that has left the queues is freed. *)
Lemma free_acked_ok t next lim x U N L la lu : carried lim next x -> clen next <= snd_queuelen (snd_q (the_pcb t)) ->
  sendq (set_queuelen (snd_queuelen (snd_q (the_pcb t)) - clen next) (snd_q (the_pcb t))) lim U N L la lu ->
  exists t', free_acked next t = Done (tt, t') /\ snd_only t t' /\
    snd_q (the_pcb t') = set_queuelen (snd_queuelen (snd_q (the_pcb t)) - clen next) (snd_q (the_pcb t)).
Proof.
  intros Hc Hl Hq. unfold free_acked, get_pcb. rewrite bind_assoc, get_bind, ret_bind, lwip_assert_bind by lia.
  unfold on_snd, on_pcb. rewrite !modify_bind. set (t2 := set_pcb _ _).
  assert (snd_q (the_pcb t2) = set_queuelen (snd_queuelen (snd_q (the_pcb t)) - clen next) (snd_q (the_pcb t))) as E1.
  { subst t2. cbn. rewrite (si_fin _ _ (ca_seg _ _ _ _ Hc)). cbn. by rewrite andb_false_r. }
  rewrite (valid_queue_ok t2 lim U N L la lu) by (by rewrite E1). exists t2. by split.
Qed.

(** The head of a queue is taken off. *)
Lemma sendq_free_unacked s lim U N L x la lu next rest : unacked s = next :: rest -> sendq s lim U N L (x :: la) lu ->
  carried lim next x /\ clen next <= snd_queuelen s /\ sendq (set_queuelen (snd_queuelen s - clen next) (set_unacked rest s)) lim U N L la lu.
Proof.
  intros E1 [H1 H2 H3 H4 H5 H6 H7 H8 [H9 H9'] H10 H11]. rewrite E1 in *. inversion H6; subst. inversion H8; subst.
  cbn [clens] in H9. pose proof (clens_nonneg rest). pose proof (clens_nonneg (unsent s)).
  assert (1 <= clen next) by (by eapply ca_clen). split; [done|]. split; [lia|].
  split; cbn; try done. lia.
Qed.

Lemma sendq_free_unsent s lim U N L x la lu next rest g : unsent s = next :: rest -> sendq s lim U N L la (x :: lu) -> (g = unsent_oversize s \/ lu = [] /\ g = 0) ->
  carried lim next x /\ clen next <= snd_queuelen s /\ sendq (set_queuelen (snd_queuelen s - clen next) (set_oversize g (set_unsent rest s))) lim U N L la lu.
Proof.
  intros E1 [H1 H2 H3 H4 H5 H6 H7 H8 [H9 H9'] [H10 H10'] H11] Hg. rewrite E1 in *. inversion H7; subst.
  cbn [clens] in H9. pose proof (clens_nonneg rest). pose proof (clens_nonneg (unacked s)).
  assert (1 <= clen next) by (by eapply ca_clen). split; [done|]. split; [lia|]. split; cbn; try done; [lia|].
  destruct Hg as [->|[-> ->]]; [|done]. split; [done|]. intros y Hy. apply H10'. by destruct lu.
Qed.

Lemma free_unacked_ok ack l : forall t lim U N L la lu, unacked (snd_q (the_pcb t)) = l -> sendq (snd_q (the_pcb t)) lim U N L la lu -> seq_of ack U ->
  Forall (fun x => U - 2 ^ 30 < span_end x < U + 2 ^ 30) la ->
  exists t' k la', free_unacked ack l t = Done (tt, t') /\ snd_only t t' /\ sendq (snd_q (the_pcb t')) lim U N L la' lu /\
    unsent (snd_q (the_pcb t')) = unsent (snd_q (the_pcb t)) /\ unsent_oversize (snd_q (the_pcb t')) = unsent_oversize (snd_q (the_pcb t)) /\
    la = k ++ la' /\ Forall (fun x => span_end x <= U) k /\ fresh U la'.
Proof.
  induction l as [|next rest IH]; intros t lim U N L la lu El Hq Ha Hn; cbn [free_unacked].
  { exists t, [], la. split; [done|]. split; [done|]. split; [done|]. repeat (split; [done|]).
    pose proof (sq_unacked _ _ _ _ _ _ _ _ Hq) as H1. rewrite El in H1. by inversion H1; subst. }
  pose proof (sq_unacked _ _ _ _ _ _ _ _ Hq) as H1. rewrite El in H1. inversion H1 as [|? x ? la0 Hx Hl]; subst. apply list.Forall_cons in Hn as [Hn1 Hn2].
  rewrite (seq_leq _ _ (span_end x) U) by (by eapply carried_end || done || lia). destruct (Z.leb_spec (span_end x) U) as [Hle|Hgt].
  - destruct (sendq_free_unacked _ _ _ _ _ _ _ _ _ _ El Hq) as (_ & Hcl & Hq1). unfold on_snd at 1, on_pcb at 1. rewrite modify_bind. set (t1 := set_pcb _ t).
    destruct (free_acked_ok t1 next lim x U N L la0 lu Hx Hcl Hq1) as (t2 & E2 & S2 & Q2). rewrite (bind_done _ _ _ _ _ E2).
    destruct (IH t2 lim U N L la0 lu) as (t' & k & la' & E3 & S3 & Q3 & U3 & O3 & -> & Hk & Hf); [by rewrite Q2|by rewrite Q2|done|done|].
    exists t', (x :: k), la'. split; [done|]. split; [transitivity t2; [|done]; transitivity t1; [by split|done]|]. split; [done|].
    rewrite U3, O3, Q2. repeat (split; [done|]). split; [by constructor|done].
  - exists t, [], (x :: la0). repeat (split; [done|]). done.
Qed.

Lemma free_unsent_ok ack l : forall t lim U N L la lu, unsent (snd_q (the_pcb t)) = l -> sendq (snd_q (the_pcb t)) lim U N L la lu -> seq_of ack U ->
  Forall (fun x => U - 2 ^ 30 < span_end x < U + 2 ^ 30) lu -> (l = [] -> unsent_oversize (snd_q (the_pcb t)) = 0) ->
  exists t' k lu', free_unsent ack l t = Done (tt, t') /\ snd_only t t' /\ sendq (snd_q (the_pcb t')) lim U N L la lu' /\
    unacked (snd_q (the_pcb t')) = unacked (snd_q (the_pcb t)) /\ (unsent (snd_q (the_pcb t')) = [] -> unsent_oversize (snd_q (the_pcb t')) = 0) /\
    lu = k ++ lu' /\ Forall (fun x => span_end x <= U) k /\ fresh U lu'.
Proof.
  induction l as [|next rest IH]; intros t lim U N L la lu El Hq Ha Hn Ho; cbn [free_unsent].
  { exists t, [], lu. split; [done|]. split; [done|]. split; [done|]. split; [done|]. split; [intros _; by apply Ho|]. repeat (split; [done|]).
    pose proof (sq_unsent _ _ _ _ _ _ _ _ Hq) as H1. rewrite El in H1. by inversion H1; subst. }
  pose proof (sq_unsent _ _ _ _ _ _ _ _ Hq) as H1. rewrite El in H1. inversion H1 as [|? x ? lu0 Hx Hl]; subst. apply list.Forall_cons in Hn as [Hn1 Hn2].
  destruct (sq_pos _ _ _ _ _ _ _ _ Hq) as [HUN HL]. change TCP_SND_BUF with 6432 in *.
  unfold get_pcb. rewrite bind_assoc, get_bind, ret_bind, (sq_nxt _ _ _ _ _ _ _ _ Hq).
  rewrite (seq_between _ _ _ U (span_end x) N) by (by eapply carried_end || auto with seq || lia). rewrite (proj2 (Z.leb_le U N)), andb_true_r by lia.
  destruct (Z.leb_spec (span_end x) U) as [Hle|Hgt].
  - set (g := match rest with [] => 0 | _ => unsent_oversize (snd_q (the_pcb t)) end).
    destruct (sendq_free_unsent _ _ _ _ _ _ _ _ _ _ g El Hq) as (_ & Hcl & Hq1).
    { subst g. destruct rest; [right; by inversion Hl; subst|by left]. }
    unfold on_snd at 1, on_pcb at 1. rewrite modify_bind. set (t1 := set_pcb _ t).
    assert (set_oversize g (set_unsent rest (snd_q (the_pcb t))) = snd_q (the_pcb t1)) as E1 by (subst g t1; cbn; by destruct rest).
    destruct (free_acked_ok t1 next lim x U N L la lu0 Hx) as (t2 & E2 & S2 & Q2); [rewrite <- E1; exact Hcl|rewrite <- E1; exact Hq1|].
    rewrite (bind_done _ _ _ _ _ E2).
    destruct (IH t2 lim U N L la lu0) as (t' & k & lu' & E3 & S3 & Q3 & U3 & O3 & -> & Hk & Hf);
      [rewrite Q2, <- E1; done|rewrite Q2, <- E1; exact Hq1|done|done|rewrite Q2, <- E1; by intros ->|].
    exists t', (x :: k), lu'. split; [done|]. split; [transitivity t2; [|done]; transitivity t1; [by split|done]|]. split; [done|].
    rewrite U3, Q2, <- E1. repeat (split; [done|]). split; [by constructor|done].
  - exists t, [], (x :: lu0). split; [done|]. split; [done|]. split; [done|]. split; [done|]. split; [by rewrite El|]. done.
Qed.

(** ** Retransmission *)

Lemma insert_front lim seg x l k : carried lim seg x -> Forall2 (carried lim) l k -> Forall (fun y => x.1 < y.1 < x.1 + 2 ^ 30) k -> insert_seg seg l = seg :: l.
Proof.
  intros Hx [|sg y l' k' Hy Hl] Hn; [done|]. apply list.Forall_cons in Hn as [Hn _]. cbn [insert_seg].
  rewrite (seq_lt _ _ y.1 x.1) by (by eapply carried_start || lia). by rewrite (proj2 (Z.ltb_ge _ _)) by lia.
Qed.

(** The pieces behind the first. *)
Lemma sends_behind p S0 U N L x la lu o : sends false p S0 U N L (x :: la) lu o -> Forall (fun y => x.1 < y.1 < x.1 + 2 ^ 30) (la ++ lu).
Proof.
  intros Hs. pose proof (sends_near f _ _ _ _ _ _ _ _ _ Hs) as Hn. destruct (sn_contig _ _ _ _ _ _ _ _ _ _ Hs) as (x0 & Hx0 & Hc).
  pose proof (sn_order _ _ _ _ _ _ _ _ _ _ Hs) as Ho. cbn in Ho. subst o. destruct Hc as (<- & H1 & H2).
  apply list.Forall_cons in Hn as [Hx Hn]. apply list.Forall_forall. intros y Hy. rewrite list.Forall_forall in Hn. specialize (Hn y Hy).
  destruct (contig_in _ _ _ _ H2 Hy) as (? & ? & ?). unfold span_end in *. lia.
Qed.

(** The first segment goes back to the front of pcb->unsent. *)
Lemma rexmit_ok t S0 U N L x la lu o seg rest : sends false (the_pcb t) S0 U N L (x :: la) lu o -> unacked (snd_q (the_pcb t)) = seg :: rest ->
  exists t', tcp_rexmit t = Done (tt, t') /\ sendq (snd_q (the_pcb t')) (limit (the_pcb t)) U N L la (x :: lu) /\ unsent (snd_q (the_pcb t')) <> [] /\
    the_pcb t' = TcpPcb (state (the_pcb t)) (pcb_flags (the_pcb t)) (mss (the_pcb t)) (misc (the_pcb t)) (rcv (the_pcb t)) (snd_q (the_pcb t')) (win (the_pcb t))
      (set_rtt 0 (rtseq (ctl (the_pcb t))) (set_nrtx (u8 (nrtx (ctl (the_pcb t)) + 1)) (ctl (the_pcb t)))).
Proof.
  intros Hs Eu. pose proof (sn_q _ _ _ _ _ _ _ _ _ _ Hs) as Hq. pose proof (sq_unacked _ _ _ _ _ _ _ _ Hq) as Ha. rewrite Eu in Ha.
  inversion Ha as [|? ? ? ? Hx Hl]; subst. pose proof (sends_behind _ _ _ _ _ _ _ _ _ Hs) as Hb. apply list.Forall_app in Hb as [_ Hb].
  pose proof (sq_unsent _ _ _ _ _ _ _ _ Hq) as Hun. pose proof (insert_front _ _ _ _ _ Hx Hun Hb) as Ei.
  unfold tcp_rexmit, get_pcb. rewrite bind_assoc, get_bind, ret_bind, Eu. set (last := forallb _ _).
  assert (last = true -> lu = []) as Hlast.
  { subst last. destruct Hun as [|sg y l k Hy Hk]; [done|]. apply list.Forall_cons in Hb as [Hb _]. cbn [forallb].
    rewrite (seq_lt _ _ y.1 x.1) by (by eapply carried_start || lia). by rewrite (proj2 (Z.ltb_ge _ _)) by lia. }
  unfold on_snd, on_ctl, on_pcb. rewrite modify_bind.
  exists (set_pcb (set_ctl (fun c => set_rtt 0 (rtseq c) (set_nrtx (u8 (nrtx c + 1)) c)))
    (set_pcb (set_snd (fun s => (if last then set_oversize 0 else id) (set_unsent (insert_seg seg (unsent s)) (set_unacked rest s)))) t)).
  split; [by destruct last|]. cbn. destruct Hq as [H1 H2 H3 H4 H5 H6 H7 H8 [H9 H9'] [H10 H10'] H11]. apply list.Forall_cons in H8 as [H8 H8'].
  assert (unsent_oversize (snd_q (the_pcb t)) = 0 \/ lu <> []) as Hov.
  { destruct lu as [|y lu]; [left|by right]. apply (sn_over _ _ _ _ _ _ _ _ _ _ Hs). by inversion Hun. }
  split; [|split; [destruct last; cbn; by rewrite Ei|done]].
  rewrite Eu in H9. cbn [clens] in H9.
  destruct last; split; cbn; rewrite ?Ei; try done; cbn [clens]; try lia; try (by constructor).
  - split; [done|]. intros y Hy. rewrite (Hlast eq_refl) in Hy. injection Hy as <-. pose proof (ca_size _ _ _ _ Hx). lia.
  - split; [done|]. intros y Hy. destruct lu as [|z lu]; [|by apply H10']. injection Hy as <-. pose proof (ca_size _ _ _ _ Hx). destruct Hov; [lia|done].
Qed.

(** The windows after a fast retransmission. *)
Definition fast_ctl (w m : Z) (c : tcp_ctl) : tcp_ctl :=
  let c := set_ssthresh (if w <? cwnd c then w / 2 else cwnd c / 2) c in
  let c := if ssthresh c <? 2 * m then set_ssthresh (u16 (2 * m)) c else c in
  set_cwnd (u16 (ssthresh c + 3 * m)) c.

Lemma fast_ctl_ok w m c : 0 <= w < 2 ^ 16 -> 1 <= cwnd c < 2 ^ 16 -> 1 <= m <= TCP_MSS ->
  1 <= ssthresh (fast_ctl w m c) < 2 ^ 16 /\ m <= cwnd (fast_ctl w m c) < 2 ^ 16 /\ nrtx (fast_ctl w m c) = nrtx c.
Proof.
  intros Hw Hc Hm. change TCP_MSS with 536 in *. unfold fast_ctl.
  assert (0 <= (if w <? cwnd c then w / 2 else cwnd c / 2) < 2 ^ 15) as Hth by (destruct (w <? cwnd c); Z.div_mod_to_equations; lia).
  set (th := if w <? cwnd c then _ else _) in *. clearbody th. cbn [set_ssthresh ssthresh].
  destruct (Z.ltb_spec th (2 * m)); cbn; rewrite !u16_id by (unfold is_u16; rewrite ?u16_id by (unfold is_u16; lia); lia); lia.
Qed.

Lemma rexmit_fast_ok t S0 U N L la lu o : sends false (the_pcb t) S0 U N L la lu o ->
  exists t' mid la' lu', tcp_rexmit_fast t = Done (tt, t') /\ sends mid (the_pcb t') S0 U N L la' lu' o /\ win (the_pcb t') = win (the_pcb t).
Proof.
  intros Hs. pose proof (sq_unacked _ _ _ _ _ _ _ _ (sn_q _ _ _ _ _ _ _ _ _ _ Hs)) as Ha.
  unfold tcp_rexmit_fast, get_pcb. rewrite bind_assoc, get_bind, ret_bind.
  destruct (unacked (snd_q (the_pcb t))) as [|seg rest] eqn:Eu; [by exists t, false, la, lu|].
  destruct (has _ TF_INFR); [by exists t, false, la, lu|]. inversion Ha as [|? x ? la' Hx Hl]; subst.
  destruct (rexmit_ok t S0 U N L x la' lu o seg rest Hs Eu) as (t2 & E2 & Q2 & Hne & P2). rewrite (bind_done _ _ _ _ _ E2).
  unfold on_ctl, set_flag, on_pcb. rewrite !modify_bind. eexists _, true, la', (x :: lu). split; [reflexivity|]. cbn [the_pcb set_pcb].
  pose proof (sq_sent _ _ _ _ _ _ _ _ (sn_q _ _ _ _ _ _ _ _ _ _ Hs)) as Hsent. apply list.Forall_cons in Hsent as [Hsx _].
  rewrite P2. clear P2. destruct Hs as [_ V2 V3 V4 V5 V6]. pose proof V6 as [V7 V8 V9 V10 V11 V12 V13 V14 V15 V16]. cbn in V2. subst o.
  pose proof (fast_ctl_ok (snd_wnd (win (the_pcb t))) (mss (the_pcb t)) (set_rtt 0 (rtseq (ctl (the_pcb t))) (set_nrtx (u8 (nrtx (ctl (the_pcb t)) + 1)) (ctl (the_pcb t))))) as Hc.
  specialize (Hc ltac:(lia) ltac:(cbn; lia) ltac:(lia)). destruct Hc as (C1 & C2 & C3).
  split; [|done]. split; try done.
  - exists x, lu. split; [done|]. split; [done|]. split; [done|]. split; [cbn; by apply has_set_same|]. apply C2.
  - split; try done.
    + split; [|apply C2]. etransitivity; [|apply C2]. lia.
    + change (0 <= nrtx (fast_ctl (snd_wnd (win (the_pcb t))) (mss (the_pcb t)) (set_rtt 0 (rtseq (ctl (the_pcb t))) (set_nrtx (u8 (nrtx (ctl (the_pcb t)) + 1)) (ctl (the_pcb t)))))).
      rewrite C3. cbn. apply Z.mod_pos_bound. lia.
    + cbn. by rewrite has_set_other.
Qed.

(** ** Windows and duplicates *)

(** The header of an acknowledgement has a newer window than that of [w]. *)
Definition takes_window (h : tcp_hdr) (w : tcp_win) : bool :=
  TCP_SEQ_LT (snd_wl1 w) (hd_seqno h) ||
  ((snd_wl1 w =? hd_seqno h) && TCP_SEQ_LT (snd_wl2 w) (hd_ackno h)) ||
  ((snd_wl2 w =? hd_ackno h) && (snd_wnd w <? hd_wnd h)).

Definition took (h : tcp_hdr) (w : tcp_win) : tcp_win :=
  if takes_window h w then
    let '(cnt, backoff) :=
      if hd_wnd h =? 0 then if persist_backoff w =? 0 then (0, 1) else (persist_cnt w, persist_backoff w)
      else (persist_cnt w, 0) in
    TcpWin (hd_wnd h) (Z.max (snd_wnd_max w) (hd_wnd h)) (hd_seqno h) (hd_ackno h) cnt backoff
  else w.

(** The segment at hand is as its header says. *)
Definition of_header t : Prop := seqno (the_in t) = hd_seqno (tcphdr (the_in t)) /\ ackno (the_in t) = hd_ackno (tcphdr (the_in t)).

Lemma took_win h w : 0 <= hd_wnd h < 2 ^ 16 -> 0 <= snd_wnd w < 2 ^ 16 /\ snd_wnd w <= snd_wnd_max w < 2 ^ 16 -> 0 <= persist_backoff w <= 7 ->
  (0 <= snd_wnd (took h w) < 2 ^ 16 /\ snd_wnd (took h w) <= snd_wnd_max (took h w) < 2 ^ 16) /\ 0 <= persist_backoff (took h w) <= 7 /\
  snd_wnd_max w <= snd_wnd_max (took h w) /\ snd_wnd (took h w) = if takes_window h w then hd_wnd h else snd_wnd w.
Proof.
  intros Hh Hw Hp. unfold took. destruct (takes_window h w); [|split; [done|]; split; [done|]; split; [lia|done]].
  destruct (hd_wnd h =? 0); [destruct (persist_backoff w =? 0)|]; cbn; lia.
Qed.

Lemma update_window_ok t S0 U N L la lu o : sends false (the_pcb t) S0 U N L la lu o -> of_header t -> 0 <= hd_wnd (tcphdr (the_in t)) < 2 ^ 16 ->
  exists t', update_window t = Done (tt, t') /\ sends false (the_pcb t') S0 U N L la lu o /\ win (the_pcb t') = took (tcphdr (the_in t)) (win (the_pcb t)).
Proof.
  intros Hs [H1 H2] Hh. unfold update_window. rewrite get_bind. cbv zeta. rewrite H1, H2. destruct Hs as [Hq V2 V3 V4 V5 [V7 V8 V9 V10 V11 V12 V13 V14 V15 V16]].
  destruct (took_win (tcphdr (the_in t)) (win (the_pcb t)) Hh V7 V15) as (W1 & W2 & W3 & W4).
  change (_ || _ || _) with (takes_window (tcphdr (the_in t)) (win (the_pcb t))). destruct (takes_window _ _) eqn:Et.
  - exists (set_pcb (set_win (took (tcphdr (the_in t)))) t). split.
    { unfold took. rewrite Et || idtac. unfold on_win, on_pcb, modify, set_pcb, set_win. rewrite Et.
      destruct (hd_wnd _ =? 0); [destruct (persist_backoff _ =? 0)|]; done. }
    split; [|done]. split; try done; [|split; try done; cbn; lia]. eapply sendq_lim; [|exact Hq]. unfold limit. cbn. Z.div_mod_to_equations. lia.
  - exists t. split; [done|]. split; [done|]. unfold took. by rewrite Et.
Qed.

Lemma sends_acked mid p S0 U N L la lu o a : 0 <= a < 2 ^ 16 -> sends mid p S0 U N L la lu o -> sends mid (set_snd (set_acked a) p) S0 U N L la lu o.
Proof. intros Ha [[] V2 V3 V4 V5 []]. by split. Qed.

(** Numbers of the congestion control that do not matter. *)
Lemma sends_ctl mid p S0 U N L la lu o g : (forall c, cwnd c <= cwnd (g c) /\ (1 <= cwnd c < 2 ^ 16 -> 1 <= ssthresh c < 2 ^ 16 -> 0 <= nrtx c -> 1 <= cwnd (g c) < 2 ^ 16 /\ 1 <= ssthresh (g c) < 2 ^ 16 /\ 0 <= nrtx (g c))) ->
  sends mid p S0 U N L la lu o -> sends mid (set_ctl g p) S0 U N L la lu o.
Proof.
  intros Hg [V1 V2 V3 V4 V5 [V7 V8 V9 V10 V11 V12 V13 V14 V15 V16]]. destruct (Hg (ctl p)) as (G1 & G2). specialize (G2 V9 V10 V11). destruct G2 as (G2 & G3 & G4).
  split; try done. destruct mid; [|done]. destruct V2 as (x & l & ? & ? & ? & ? & ?). exists x, l. repeat (split; [done|]). cbn. lia.
Qed.

Lemma dup_ack_ok t S0 U N L la lu o e : sends false (the_pcb t) S0 U N L la lu o ->
  exists t' mid la' lu', dup_ack e t = Done (tt, t') /\ sends mid (the_pcb t') S0 U N L la' lu' o /\ win (the_pcb t') = win (the_pcb t).
Proof.
  intros Hs. unfold dup_ack, on_snd, on_pcb. rewrite modify_bind. apply (sends_acked _ _ _ _ _ _ _ _ _ 0) in Hs; [|done]. set (t1 := set_pcb _ t).
  assert (sends false (the_pcb t1) S0 U N L la lu o) as Hs1 by done. assert (win (the_pcb t1) = win (the_pcb t)) as <- by done. clearbody t1. clear Hs t. rename t1 into t.
  rewrite get_bind. cbv zeta. destruct (_ && _ && _ && _).
  - unfold on_ctl, on_pcb, get_pcb. rewrite modify_bind. set (t1 := set_pcb _ t).
    assert (sends false (the_pcb t1) S0 U N L la lu o) as Hs2.
    { apply sends_ctl; [|done]. intros c. destruct (_ <? _); cbn; lia. }
    assert (win (the_pcb t1) = win (the_pcb t)) as <- by done. clearbody t1. rewrite bind_assoc, get_bind, ret_bind. destruct (3 <? _).
    + eexists _, false, la, lu. split; [reflexivity|]. split; [|done]. apply sends_ctl; [|done]. intros c.
      pose proof (u16_range (cwnd c + mss (the_pcb t1))) as Hr. unfold is_u16 in Hr. pose proof (sn_mss _ (sn_sane _ _ _ _ _ _ _ _ _ _ Hs2)). destruct (Z.ltb_spec (cwnd c) (u16 (cwnd c + mss (the_pcb t1)))); cbn; [|lia].
      split; [lia|]. intros C1 C2 C3. split; [|lia]. split; [lia|]. unfold u16 in *. change TCP_MSS with 536 in *. Z.div_mod_to_equations. lia.
    + destruct (_ =? 3); [by eapply rexmit_fast_ok|]. by exists t1, false, la, lu.
  - eexists _, false, la, lu. split; [reflexivity|]. split; [|done]. apply sends_ctl; [|done]. intros c. cbn. lia.
Qed.

Lemma estimate_rtt_ok t mid S0 U N L la lu o : sends mid (the_pcb t) S0 U N L la lu o ->
  exists t', estimate_rtt t = Done (tt, t') /\ sends mid (the_pcb t') S0 U N L la lu o /\ win (the_pcb t') = win (the_pcb t).
Proof.
  intros Hs. unfold estimate_rtt. rewrite get_bind. cbv zeta. destruct (_ && _); [|by exists t].
  eexists. split; [reflexivity|]. split; [|done]. apply sends_ctl; [|done]. intros c. cbn. lia.
Qed.

(** ** New acknowledgements *)

(** The queues and the windows are the same. *)
Record stable t t' : Prop := Stable {
  st_snd : snd_q (the_pcb t') = snd_q (the_pcb t);
  st_win : win (the_pcb t') = win (the_pcb t);
  st_mss : mss (the_pcb t') = mss (the_pcb t);
  st_in : the_in t' = the_in t
}.

Lemma grow_cwnd_ok t : sane (the_pcb t) -> exists t', grow_cwnd t = Done (tt, t') /\ sane (the_pcb t') /\ stable t t'.
Proof.
  intros Hs. pose proof (sn_cwnd _ Hs) as Hc. pose proof (sn_mss _ Hs) as Hm. change TCP_MSS with 536 in *. unfold grow_cwnd, get_pcb. rewrite bind_assoc, get_bind, ret_bind. cbv zeta.
  assert (forall c, 1 <= c < 2 ^ 16 -> exists t', on_ctl (set_cwnd c) t = Done (tt, t') /\ sane (the_pcb t') /\ stable t t') as Hgo.
  { intros c Hc2. eexists. split; [reflexivity|]. split; [|by split]. destruct Hs. by split. }
  assert (exists t', (mret tt : M (tcp E) unit) t = Done (tt, t') /\ sane (the_pcb t') /\ stable t t') as Hstay by (by exists t).
  destruct (_ <? ssthresh _).
  - destruct (Z.ltb_spec (cwnd (ctl (the_pcb t))) (u16 (cwnd (ctl (the_pcb t)) + mss (the_pcb t)))) as [Hlt|]; [|done]. apply Hgo. unfold u16 in Hlt. Z.div_mod_to_equations. lia.
  - destruct (Z.eqb_spec (cwnd (ctl (the_pcb t))) 0); [lia|].
    destruct (Z.ltb_spec (cwnd (ctl (the_pcb t))) (u16 (cwnd (ctl (the_pcb t)) + mss (the_pcb t) * mss (the_pcb t) / cwnd (ctl (the_pcb t))))) as [Hlt|]; [|done].
    apply Hgo. pose proof (u16_range (cwnd (ctl (the_pcb t)) + mss (the_pcb t) * mss (the_pcb t) / cwnd (ctl (the_pcb t)))) as Hr. unfold is_u16 in Hr. lia.
Qed.

Lemma new_ack_ok t S0 U N L la lu o P : sends false (the_pcb t) S0 U N L la lu o -> ackno (the_in t) = u32 P -> U < P <= N ->
  exists t' k la', new_ack t = Done (tt, t') /\ sendq (snd_q (the_pcb t')) (limit (the_pcb t')) P N L la' lu /\ sane (the_pcb t') /\
    win (the_pcb t') = win (the_pcb t) /\ (unsent (snd_q (the_pcb t')) = [] -> unsent_oversize (snd_q (the_pcb t')) = 0) /\
    la = k ++ la' /\ Forall (fun x => span_end x <= P) k /\ fresh P la'.
Proof.
  intros Hs Ha HP. pose proof (sends_near f _ _ _ _ _ _ _ _ _ Hs) as Hn. destruct Hs as [Hq V2 V3 V4 V5 V6]. cbn in V2. subst o.
  apply list.Forall_app in Hn as [Hn _]. pose proof (sq_pos _ _ _ _ _ _ _ _ Hq) as [Hp1 Hp2]. change TCP_SND_BUF with 6432 in *.
  unfold new_ack. rewrite get_bind. cbv zeta. rewrite Ha.
  match goal with |- context [(?m ≫= ?k) t] => set (m1 := m) end.
  assert (exists t1, m1 t = Done (tt, t1) /\ sane (the_pcb t1) /\ stable t t1) as (t1 & E1 & Hs1 & S1).
  { subst m1. destruct (has _ TF_INFR); [|by exists t]. eexists. split; [reflexivity|]. split; [|by split]. destruct V6. split; try done. cbn. by rewrite has_clear_other. }
  rewrite (bind_done _ _ _ _ _ E1). clear E1 m1. unfold on_ctl, on_snd, on_misc, on_pcb. rewrite !modify_bind.
  match goal with |- context [(_ ≫= _) ?x] => set (t2 := x) end.
  assert (sane (the_pcb t2)) as Hs2 by (destruct Hs1; by split).
  destruct S1 as [S1 W1 M1 I1].
  assert (sendq (snd_q (the_pcb t2)) (limit (the_pcb t2)) P N L la lu) as Hq2.
  { change (limit (the_pcb t2)) with (limit (the_pcb t1)). unfold limit. rewrite W1, M1. fold (limit (the_pcb t)). destruct Hq as [H1 H2 H3 H4 H5 H6 H7 H8 H9 H10 H11].
    assert (u16 (u32 P - u32 U) = P - U) as Hu by (apply u16_seq; [auto with seq|unfold is_u16; lia]).
    subst t2. split; cbn; rewrite ?S1, ?H1, ?Hu; try done; change TCP_SND_BUF with 6432 in *; [lia|rewrite H5, u16_id; unfold is_u16; lia|lia]. }
  assert (unsent (snd_q (the_pcb t2)) = unsent (snd_q (the_pcb t)) /\ unsent_oversize (snd_q (the_pcb t2)) = unsent_oversize (snd_q (the_pcb t))) as [U2 O2] by (subst t2; cbn; by rewrite S1).
  assert (win (the_pcb t2) = win (the_pcb t)) as W2 by done. clearbody t2. clear t1 Hs1 S1 W1 M1 I1.
  unfold get_pcb. rewrite bind_assoc, get_bind, ret_bind.
  match goal with |- context [(?m ≫= ?k) t2] => set (m3 := m) end.
  assert (exists t3, m3 t2 = Done (tt, t3) /\ sane (the_pcb t3) /\ stable t2 t3) as (t3 & E3 & Hs3 & [S3 W3 M3 I3]).
  { subst m3. destruct (4 <=? _); [by apply grow_cwnd_ok|by exists t2]. }
  rewrite (bind_done _ _ _ _ _ E3). clear E3 m3. rewrite <- S3.
  assert (sendq (snd_q (the_pcb t3)) (limit (the_pcb t3)) P N L la lu) as Hq3 by (unfold limit; rewrite S3, W3, M3; exact Hq2).
  destruct (free_unacked_ok (u32 P) _ t3 (limit (the_pcb t3)) P N L la lu eq_refl Hq3) as (t4 & k & la' & E4 & S4 & Q4 & U4 & O4 & Ek & Hk & Hf);
    [auto with seq|eapply list.Forall_impl; [exact Hn|]; cbn; intros x Hx; lia|].
  rewrite (bind_done _ _ _ _ _ E4), bind_assoc, get_bind, ret_bind. rewrite modify_bind.
  eexists _, k, la'. split; [reflexivity|]. cbn. destruct S4 as [S41 S42 S43 S44 S45 S46 S47 S48 S49].
  split; [unfold limit in *; cbn; rewrite S46, S43; exact Q4|]. split.
  { destruct Hs3. split; cbn; rewrite ?S42, ?S43, ?S44, ?S46, ?S47; done. }
  split; [by rewrite S46, W3, W2|]. split; [|done]. rewrite U4, O4, S3, U2, O2. exact V5.
Qed.

(** An acknowledgement of nothing new frees nothing. *)
Lemma free_unsent_none P t mid S0 U N L la lu o : sends mid (the_pcb t) S0 U N L la lu o -> U - 2 ^ 30 < P < U + 2 ^ 30 -> P <= U \/ N < P ->
  free_unsent (u32 P) (unsent (snd_q (the_pcb t))) t = Done (tt, t).
Proof.
  intros Hs Hnear HP. pose proof (sn_q _ _ _ _ _ _ _ _ _ _ Hs) as Hq. pose proof (sq_unsent _ _ _ _ _ _ _ _ Hq) as Hu.
  pose proof (sq_pos _ _ _ _ _ _ _ _ Hq) as [Hp1 Hp2]. change TCP_SND_BUF with 6432 in *. destruct Hu as [|next x rest lu' Hx Hu]; [done|]. cbn [free_unsent].
  assert (U < span_end x <= L) as Hend.
  { pose proof (sends_near f _ _ _ _ _ _ _ _ _ Hs) as Hn. rewrite list.Forall_forall in Hn. apply Hn.
    pose proof (sn_order _ _ _ _ _ _ _ _ _ _ Hs) as Ho. destruct mid; cbn in Ho; [destruct Ho as (y & l & [= -> ->] & -> & _)|subst o]; rewrite ?elem_of_app, ?elem_of_cons; auto. }
  unfold get_pcb. rewrite bind_assoc, get_bind, ret_bind, (sq_nxt _ _ _ _ _ _ _ _ Hq).
  rewrite (seq_between _ _ _ P (span_end x) N) by (by eapply carried_end || auto with seq || lia).
  destruct (Z.leb_spec (span_end x) P); [|done]. destruct (Z.leb_spec P N); [lia|done].
Qed.

Lemma update_window_in t a t' : update_window t = Done (a, t') -> the_in t' = the_in t.
Proof.
  unfold update_window. rewrite get_bind. cbv zeta. destruct (_ || _ || _); [|by intros [= _ <-]].
  destruct (hd_wnd _ =? 0); [destruct (persist_backoff _ =? 0)|]; by intros [= _ <-].
Qed.

(** What is acknowledged behind an acknowledgement of the position [P]. *)
Definition acks (U N P : Z) : Z := if decide (U < P <= N) then P else U.

(** The half of tcp_receive that is about the sender.  An acknowledgement is fair when its
    number is not far away and its window does not take back what was sent. *)
Record fair (h : tcp_hdr) (w : tcp_win) (U N P : Z) : Prop := Fair {
  fa_ack : hd_ackno h = u32 P;
  fa_near : U - 2 ^ 30 < P < U + 2 ^ 30;
  fa_wnd : 0 <= hd_wnd h < 2 ^ 16;
  fa_kept : takes_window h w = true -> N <= acks U N P + hd_wnd h
}.

Lemma recv_ack_ok t S0 U N L la lu o P : sends false (the_pcb t) S0 U N L la lu o -> roomy (the_pcb t) U N -> of_header t -> fair (tcphdr (the_in t)) (win (the_pcb t)) U N P ->
  exists t' mid la' lu' o', recv_ack t = Done (tt, t') /\ sends mid (the_pcb t') S0 (acks U N P) N L la' lu' o' /\ roomy (the_pcb t') (acks U N P) N /\ win (the_pcb t') = took (tcphdr (the_in t)) (win (the_pcb t)).
Proof.
  intros Hs Hroom Hh [F1 F2 F3 F4]. unfold recv_ack. rewrite get_bind. cbv zeta.
  destruct (update_window_ok t S0 U N L la lu o Hs Hh F3) as (t1 & E1 & Hs1 & W1). rewrite (bind_done _ _ _ _ _ E1), get_bind.
  pose proof (update_window_in _ _ _ E1) as I1. unfold acks in *. set (U' := if decide (U < P <= N) then P else U) in *.
  assert (roomy (the_pcb t1) U' N) as Hroom1.
  { unfold roomy. rewrite W1. destruct (took_win (tcphdr (the_in t)) (win (the_pcb t))) as (_ & _ & _ & ->); [done|apply Hs|apply Hs|].
    destruct (takes_window _ _); [by apply F4|]. unfold roomy in Hroom. subst U'. destruct (decide _); lia. }
  assert (ackno (the_in t1) = u32 P) as Ha by (by rewrite I1, (proj2 Hh), F1).
  pose proof (sn_q _ _ _ _ _ _ _ _ _ _ Hs1) as Hq1. pose proof (sq_pos _ _ _ _ _ _ _ _ Hq1) as [Hp1 Hp2]. change TCP_SND_BUF with 6432 in *.
  rewrite (sq_lastack _ _ _ _ _ _ _ _ Hq1), (sq_nxt _ _ _ _ _ _ _ _ Hq1), Ha.
  rewrite (seq_leq _ _ P U) by (auto with seq || lia). rewrite (seq_between _ _ _ P (U + 1) N) by (auto with seq || lia).
  assert (forall t2 mid la2 lu2, sends mid (the_pcb t2) S0 U N L la2 lu2 o -> win (the_pcb t2) = win (the_pcb t1) -> U' = U ->
    exists t' mid la' lu' o', (p ← get_pcb; free_unsent (u32 P) (unsent (snd_q p));; estimate_rtt) t2 = Done (tt, t') /\
      sends mid (the_pcb t') S0 U' N L la' lu' o' /\ roomy (the_pcb t') U' N /\ win (the_pcb t') = took (tcphdr (the_in t)) (win (the_pcb t))) as Hold.
  { intros t2 mid la2 lu2 Hs2 W2 EU. unfold get_pcb. rewrite bind_assoc, get_bind, ret_bind.
    rewrite (bind_done _ _ _ _ _ (free_unsent_none P t2 mid S0 U N L la2 lu2 o Hs2 ltac:(lia) ltac:(subst U'; destruct (decide _); lia))).
    destruct (estimate_rtt_ok t2 mid S0 U N L la2 lu2 o Hs2) as (t' & E2 & Hs' & W'). exists t', mid, la2, lu2, o.
    rewrite EU in *. split; [done|]. split; [done|]. unfold roomy in *. rewrite W', W2. done. }
  destruct (Z.leb_spec P U) as [Hle|Hgt]; [|destruct (Z.leb_spec P N) as [HleN|HgtN]].
  - destruct (dup_ack_ok t1 S0 U N L la lu o (u32 (snd_wnd (win (the_pcb t)) + snd_wl2 (win (the_pcb t)))) Hs1) as (t2 & mid & la2 & lu2 & E2 & Hs2 & W2).
    rewrite (bind_done _ _ _ _ _ E2). apply (Hold t2 mid la2 lu2 Hs2 W2). subst U'. by rewrite decide_False by lia.
  - rewrite (proj2 (Z.leb_le (U + 1) P)) by lia. cbn [andb].
    assert (U' = P) as EU by (subst U'; by rewrite decide_True by lia). rewrite EU in *.
    destruct (new_ack_ok t1 S0 U N L la lu o P Hs1 Ha ltac:(lia)) as (t2 & k & la2 & E2 & Q2 & Hsane2 & W2 & O2 & Ek & Hk & Hf).
    rewrite (bind_done _ _ _ _ _ E2). unfold get_pcb. rewrite bind_assoc, get_bind, ret_bind.
    destruct (sn_contig _ _ _ _ _ _ _ _ _ _ Hs1) as (x0 & Hx0 & Hc). pose proof (sends_near f _ _ _ _ _ _ _ _ _ Hs1) as Hn.
    pose proof (sn_order _ _ _ _ _ _ _ _ _ _ Hs1) as Ho. cbn in Ho. subst o la.
    destruct (free_unsent_ok (u32 P) _ t2 (limit (the_pcb t2)) P N L la2 lu eq_refl Q2) as (t3 & k3 & lu3 & E3 & S3 & Q3 & U3 & O3 & Ek3 & Hk3 & Hf3);
      [auto with seq|apply list.Forall_app in Hn as [_ Hn]; eapply list.Forall_impl; [exact Hn|]; cbn; intros x Hx; lia|done|].
    rewrite (bind_done _ _ _ _ _ E3). clear E3.
    assert (sends false (the_pcb t3) S0 P N L la2 lu3 (la2 ++ lu3)) as Hs3.
    { destruct S3 as [S31 S32 S33 S34 S35 S36 S37 S38 S39]. subst lu. rewrite <- app_assoc in Hc.
      destruct (contig_drop P k (la2 ++ k3 ++ lu3) L x0 Hc Hk ltac:(lia)) as (x1 & Hc1 & Hx1).
      assert ((exists x, S0 <= x <= P /\ contig x (la2 ++ lu3) L) /\ fresh P (la2 ++ lu3)) as [Hc3 Hf4].
      { destruct la2 as [|y la2].
        - destruct (contig_drop P k3 lu3 L x1 Hc1 Hk3 ltac:(lia)) as (x2 & Hc2 & Hx2). split; [exists x2; split; [lia|done]|done].
        - assert (k3 = []) as ->; [|split; [exists x1; split; [lia|done]|done]].
          pose proof (fresh_all _ _ _ _ Hc1 Hf) as Hall. apply list.Forall_app in Hall as [_ Hall]. apply list.Forall_app in Hall as [Hall _].
          destruct k3 as [|z k3]; [done|]. apply list.Forall_cons in Hall as [? _]. apply list.Forall_cons in Hk3 as [? _]. lia. }
      split; [unfold limit in *; rewrite S33, S36; exact Q3|done|done|done|done|destruct Hsane2; split; by rewrite ?S32, ?S33, ?S34, ?S36, ?S37]. }
    destruct (estimate_rtt_ok t3 false S0 P N L la2 lu3 _ Hs3) as (t' & E4 & Hs' & W'). exists t', false, la2, lu3, (la2 ++ lu3).
    split; [done|]. split; [done|]. unfold roomy in *. rewrite W', (so_win _ _ S3), W2. done.
  - rewrite (proj2 (Z.leb_le (U + 1) P)) by lia. cbn [andb]. unfold on_snd, on_pcb. rewrite modify_bind.
    apply (Hold _ false la lu); [|done|subst U'; by rewrite decide_False by lia]. by apply sends_acked.
Qed.

(** ** What stays *)

Ltac same_tac := by split.

Lemma free_unacked_same ack l : respects (same (E := E)) (free_unacked ack l).
Proof. induction l as [|x l IH]; cbn [free_unacked]; unfold free_acked, valid_queue_length, get_pcb; respects; try apply IH; split; try done; cbn; by destruct (_ && _). Qed.

Lemma free_unsent_same ack l : respects (same (E := E)) (free_unsent ack l).
Proof.
  induction l as [|x l IH]; cbn [free_unsent]; unfold free_acked, valid_queue_length, get_pcb; respects; try apply IH; split; try done; cbn; [by destruct l|by destruct (_ && _)].
Qed.

#[local] Hint Resolve free_unacked_same free_unsent_same : respects.

Lemma recv_ack_same : respects (same (E := E)) recv_ack.
Proof.
  assert (respects (same (E := E)) new_ack) by (unfold new_ack, grow_cwnd, get_pcb; respects; same_tac).
  assert (forall r, respects (same (E := E)) (dup_ack r)) by (intros r; unfold dup_ack, tcp_rexmit_fast, tcp_rexmit, get_pcb; respects; same_tac).
  unfold recv_ack, update_window, estimate_rtt, get_pcb. respects; try (by auto); same_tac.
Qed.
End ack.
End stream.
