(* ===== verification/TcpFlush.v ===== *)
(** * TCP: output

    tcp_output sends pieces of the stream, no further than the window, and moves them to
    pcb->unacked; behind a fast retransmission it puts the queues in order again.  So does
    what the retransmission timer and the persist timer do. *)

From S2P Require Import Prelude TcpPcb TcpRecv TcpOut TcpAck TcpProcess TcpStream TcpFrame TcpSend TcpAckSpec.

Section stream.
Context (f : Z -> Z).

#[local] Abbreviation bytes_of := (TcpStream.bytes_of f).

#[local] Abbreviation carried := (TcpSend.carried f).

#[local] Abbreviation sendq := (TcpSend.sendq f).

#[local] Abbreviation sends := (TcpSend.sends f).

Section flush.
Context {E : Type} `{TcpApp E}.

Implicit Types (t : tcp E).

(** A PCB in whose state data is sent and received. *)
Definition receiving t : Prop := state (the_pcb t) = ESTABLISHED \/ state (the_pcb t) = CLOSE_WAIT.

(** A segment that was sent: bytes of the stream that starts at [S0], up to [V]. *)
Definition says (S0 V : Z) (h : tcp_out) : Prop :=
  exists s n, 0 <= n /\ S0 <= s /\ s + n <= V /\ out_seqno h = u32 s /\ out_data h = bytes_of s n /\
    has (out_flags h) TCP_FIN = false /\ has (out_flags h) TCP_SYN = false /\ has (out_flags h) TCP_RST = false.

Lemma says_mono S0 V V' h : V <= V' -> says S0 V h -> says S0 V' h.
Proof. intros HV (s & n & H1 & H2 & H3 & H4). exists s, n. split; [done|]. split; [done|]. split; [lia|done]. Qed.

(** The acknowledgement and the window of a segment are those of the receiver. *)
Definition tells (r : tcp_rcv) (h : tcp_out) : Prop := out_ackno h = rcv_nxt r /\ out_wnd h = rcv_ann_wnd r.

(** The end of the window has been announced. *)
Definition announced (r : tcp_rcv) : tcp_rcv := set_right_edge (u32 (rcv_nxt r + rcv_ann_wnd r)) r.

(** What the other end has offered, and with which segment. *)
Definition offer (w : tcp_win) : Z * Z * Z * Z := (snd_wnd w, snd_wnd_max w, snd_wl1 w, snd_wl2 w).

(** Output: segments of the stream up to [V] went to IP, which may have announced the window. *)
Record flushes (S0 V : Z) t t' : Prop := Flushes {
  fl_state : state (the_pcb t') = state (the_pcb t);
  fl_mss : mss (the_pcb t') = mss (the_pcb t);
  fl_offer : offer (win (the_pcb t')) = offer (win (the_pcb t));
  fl_in : the_in t' = the_in t;
  fl_got : got (env t') = got (env t);
  fl_eof : eof (env t') = eof (env t);
  fl_rcv : rcv (the_pcb t') = rcv (the_pcb t) \/ rcv (the_pcb t') = announced (rcv (the_pcb t));
  fl_outs : exists l, outs (env t') = outs (env t) ++ l /\ Forall (says S0 V) l /\ Forall (tells (rcv (the_pcb t))) l /\
    (l <> [] -> rcv (the_pcb t') = announced (rcv (the_pcb t)))
}.

Lemma flushes_limit S0 V t t' : flushes S0 V t t' -> limit (the_pcb t') = limit (the_pcb t).
Proof. intros [_ H1 H2 _ _ _ _ _]. unfold limit, offer in *. congruence. Qed.

Lemma flushes_wnd S0 V t t' : flushes S0 V t t' -> snd_wnd (win (the_pcb t')) = snd_wnd (win (the_pcb t)).
Proof. intros [_ _ H2 _ _ _ _ _]. unfold offer in *. congruence. Qed.

Lemma flushes_refl S0 V t : flushes S0 V t t.
Proof. split; try done; [by left|]. exists []. rewrite app_nil_r. by repeat split. Qed.

Lemma flushes_trans S0 V V' t1 t2 t3 : V <= V' -> flushes S0 V t1 t2 -> flushes S0 V' t2 t3 -> flushes S0 V' t1 t3.
Proof.
  intros HV [A1 A2 A3 A4 A5 A6 A7 (l & A8 & A9 & A10 & A11)] [B1 B2 B3 B4 B5 B6 B7 (k & B8 & B9 & B10 & B11)]. split; try congruence.
  - destruct A7 as [A7|A7], B7 as [B7|B7]; rewrite B7, A7; [by left|by right|by right|by right].
  - exists (l ++ k). rewrite B8, A8, app_assoc. split; [done|]. split; [|split].
    + apply list.Forall_app. split; [|done]. eapply list.Forall_impl; [exact A9|]. intros h. by apply says_mono.
    + apply list.Forall_app. split; [done|]. eapply list.Forall_impl; [exact B10|]. intros h [H1 H2]. split; destruct A7 as [A7|A7]; rewrite A7 in *; done.
    + intros Hne. destruct k as [|h k].
      * rewrite app_nil_r in Hne. specialize (A11 Hne). destruct B7 as [B7|B7]; by rewrite B7, A11.
      * rewrite B11 by done. by destruct A7 as [-> | ->].
Qed.

(** A segment goes to IP. *)
Lemma output_segment_ok t lim seg x S0 V : carried lim seg x -> sane (the_pcb t) -> S0 <= x.1 -> span_end x <= V ->
  exists t', tcp_output_segment seg t = Done (tt, t') /\ sane (the_pcb t') /\ flushes S0 V t t' /\ snd_q (the_pcb t') = snd_q (the_pcb t) /\
    pcb_flags (the_pcb t') = pcb_flags (the_pcb t) /\ cwnd (ctl (the_pcb t')) = cwnd (ctl (the_pcb t)).
Proof.
  intros Hx Hs Hlo HV. unfold tcp_output_segment, get_pcb, on_rcv, on_ctl, on_misc, on_pcb. rewrite bind_assoc, get_bind, ret_bind. cbv zeta. rewrite modify_bind, (ca_opts _ _ _ _ Hx).
  change (has 0 TF_SEG_OPTS_MSS) with false. cbv iota. rewrite ret_bind. set (t1 := set_pcb _ t).
  pose (good := fun t' => sane (the_pcb t') /\ ((env t' = env t /\ rcv (the_pcb t') = announced (rcv (the_pcb t))) /\ flushes S0 V t t') /\ snd_q (the_pcb t') = snd_q (the_pcb t) /\
    pcb_flags (the_pcb t') = pcb_flags (the_pcb t) /\ cwnd (ctl (the_pcb t')) = cwnd (ctl (the_pcb t))).
  assert (good t1) as G1.
  { split; [destruct Hs; by split|]. split; [|done]. split; [done|]. split; try done; [by right|]. exists []. rewrite app_nil_r. by repeat split. }
  assert (forall g, (forall c, cwnd (g c) = cwnd c /\ ssthresh (g c) = ssthresh c /\ nrtx (g c) = nrtx c) -> forall t0, good t0 -> good (set_pcb (set_ctl g) t0)) as Gctl.
  { intros g Hg t0 ([] & [He []] & ?). split; [|split; [split; [done|by split]|cbn; by rewrite (proj1 (Hg _))]].
    destruct (Hg (ctl (the_pcb t0))) as (G2 & G3 & G4). split; cbn; rewrite ?G2, ?G3, ?G4; done. }
  clearbody t1.
  match goal with |- context [(?m ≫= ?k) t1] => set (m1 := m) end.
  assert (exists t2, m1 t1 = Done (tt, t2) /\ good t2) as (t2 & E2 & G2) by (subst m1; destruct (_ =? -1); eexists; (split; [reflexivity|]); [by apply Gctl|done]).
  rewrite (bind_done _ _ _ _ _ E2), get_bind. clear E2 m1. clear t1 G1.
  match goal with |- context [(?m ≫= ?k) t2] => set (m1 := m) end.
  assert (exists b t3, m1 t2 = Done (b, t3) /\ good t3) as (b & t3 & E3 & G3).
  { subst m1. destruct (_ =? 0); [|by exists true, t2]. destruct (ip_route _) as [[a mt]|]; [|by exists false, t2]. exists true. eexists. split; [reflexivity|].
    destruct G2 as ([] & [He []] & ?). split; [by split|]. split; [split; [done|by split]|done]. }
  rewrite (bind_done _ _ _ _ _ E3). clear E3 m1. destruct b; cbn [negb].
  2: { exists t3. destruct G3 as (? & [? ?] & ?). done. }
  match goal with |- context [(?m ≫= ?k) t3] => set (m1 := m) end.
  assert (exists t4, m1 t3 = Done (tt, t4) /\ good t4) as (t4 & E4 & G4) by (subst m1; destruct (_ =? 0); eexists; (split; [reflexivity|]); [by apply Gctl|done]).
  rewrite (bind_done _ _ _ _ _ E4). clear E4 m1. unfold emit. rewrite get_bind. eexists. split; [reflexivity|]. cbn.
  match goal with |- context [ip_output ?o _] => set (h := o) end. destruct (output_said h (env t4)) as (O1 & O2 & O3).
  destruct G4 as (G4 & [[He Hrcv] [F1 F2 F3 F4 F5 F6 F7 (l & F8 & F9 & _)]] & G5 & G6 & G7). split; [exact G4|]. split; [|done].
  assert (says S0 V h).
  { exists x.1, x.2. pose proof (ca_size _ _ _ _ Hx). unfold span_end in HV. split; [lia|]. split; [lia|]. split; [lia|]. split; [apply (ca_seg _ _ _ _ Hx)|].
    split; [by apply (carried_data f lim)|]. destruct (ca_seg _ _ _ _ Hx) as [_ _ _ C1 C2]. cbn in *. pose proof (ca_rst _ _ _ _ Hx). done. }
  split; cbn; try done; [by rewrite O1, He|by rewrite O2, He|]. exists [h]. split; [by rewrite O3, He|]. split; [by constructor|]. split; [by constructor|done].
Qed.

Lemma Forall2_last {A B} (R : A -> B -> Prop) l k : Forall2 R l k -> match list.last l, list.last k with Some a, Some b => R a b | None, None => True | _, _ => False end.
Proof. induction 1 as [|a b l k Hab Hl IH]; [done|]. destruct Hl as [|a' b' l k Hab' Hl]; [done|]. exact IH. Qed.

Lemma put_behind lim seg x l k : carried lim seg x -> Forall2 (carried lim) l k -> Forall (fun y => y.1 <= x.1 < y.1 + 2 ^ 30) k -> put_unacked seg l = l ++ [seg].
Proof.
  intros Hx Hl Hk. unfold put_unacked. pose proof (Forall2_last _ _ _ Hl) as Hlast. destruct (list.last l) as [u|] eqn:El; [|by apply last_None in El as ->].
  destruct (list.last k) as [y|] eqn:Ek; [|done]. apply last_Some_elem_of in Ek. rewrite list.Forall_forall in Hk. specialize (Hk y Ek).
  rewrite (seq_lt _ _ x.1 y.1) by (by eapply carried_start || lia). by rewrite (proj2 (Z.ltb_ge _ _)) by lia.
Qed.

Lemma put_before lim seg x l k : carried lim seg x -> Forall2 (carried lim) l k -> Forall (fun y => x.1 < y.1 < x.1 + 2 ^ 30) k -> put_unacked seg l = seg :: l.
Proof.
  intros Hx Hl Hk. unfold put_unacked. pose proof (Forall2_last _ _ _ Hl) as Hlast. destruct (list.last l) as [u|] eqn:El; [|by apply last_None in El as ->].
  destruct (list.last k) as [y|] eqn:Ek; [|done]. pose proof (last_Some_elem_of _ _ Ek) as Ey. pose proof Hk as Hk2. rewrite list.Forall_forall in Hk2. specialize (Hk2 y Ey).
  rewrite (seq_lt _ _ x.1 y.1) by (by eapply carried_start || lia). rewrite (proj2 (Z.ltb_lt _ _)) by lia. by apply (insert_front f lim seg x l k).
Qed.

(** What is where, but for the bytes behind the last segment. *)
Record flow (mid : bool) (p : tcp_pcb) (U N L : Z) (la lu o : list span) : Prop := Flow {
  fw_q : sendq (snd_q p) (limit p) U N L la lu;
  fw_order : arranged mid p N la lu o;
  fw_sane : sane p;
  fw_room : roomy p U N
}.

(** The pieces are in the order of the stream, around the window. *)
Record ordered (S0 U L : Z) (o : list span) : Prop := Ordered {
  od_contig : exists x, S0 <= x <= U /\ contig x o L;
  od_fresh : fresh U o;
  od_near : Forall (fun x => U - 2 ^ 16 < x.1 /\ 1 <= x.2 <= 2 ^ 16 /\ U < span_end x <= L /\ L <= U + 2 ^ 16) o
}.

Lemma sends_flow mid p S0 U N L la lu o : sends mid p S0 U N L la lu o -> roomy p U N -> flow mid p U N L la lu o /\ ordered S0 U L o.
Proof. intros Hs Hr. pose proof (sends_near f _ _ _ _ _ _ _ _ _ Hs). destruct Hs. by split. Qed.

(** The pieces around one of them. *)
Lemma ordered_around S0 U L l x k : ordered S0 U L (l ++ x :: k) ->
  Forall (fun y => y.1 <= x.1 < y.1 + 2 ^ 30) l /\ Forall (fun y => x.1 < y.1 < x.1 + 2 ^ 30) k /\ S0 <= x.1.
Proof.
  intros [(x0 & Hx0 & Hc) _ Hn]. apply contig_app in Hc as (z & Hl & Hk). destruct Hk as (<- & Hx & Hk).
  rewrite list.Forall_forall in Hn. assert (x ∈ l ++ x :: k) as Hin by (rewrite elem_of_app, elem_of_cons; auto). pose proof (Hn x Hin) as Hnx.
  pose proof (contig_le _ _ _ Hl). split; [|split; [|lia]]; apply list.Forall_forall; intros y Hy.
  - destruct (contig_in _ _ _ _ Hl Hy) as (? & ? & ?). specialize (Hn y ltac:(rewrite elem_of_app; auto)). unfold span_end in *. lia.
  - destruct (contig_in _ _ _ _ Hk Hy) as (? & ? & ?). specialize (Hn y ltac:(rewrite elem_of_app, elem_of_cons; auto)). unfold span_end in *. lia.
Qed.

(** The queues when the first unsent piece goes to the unacknowledged ones. *)
Lemma sendq_move s lim U N L la x lu la' seg rest l' : sendq s lim U N L la (x :: lu) -> unsent s = seg :: rest -> U < span_end x <= L -> span_end x - 2 ^ 30 < N ->
  Forall2 (carried lim) l' la' -> clens l' = clens (unacked s) + clen seg -> (forall y, y ∈ la' -> y ∈ la \/ y = x) ->
  sendq (set_unacked l' (let s := set_unsent rest s in if TCP_SEQ_LT (snd_nxt s) (u32 (span_end x)) then set_snd_nxt (u32 (span_end x)) s else s)) lim U (Z.max N (span_end x)) L la' lu.
Proof.
  intros [H1 H2 H3 H4 H5 H6 H7 H8 [H9 H9'] [H10 H10'] H11] Eu Hx Hn Hl' Hcl Hin. rewrite Eu in *. inversion H7; subst. cbn [clens] in H9. cbv zeta. cbn [set_unsent snd_nxt].
  change TCP_SND_BUF with 6432 in *. rewrite H2, (seq_lt _ _ N (span_end x)) by (auto with seq || lia).
  assert (Forall (fun y => span_end y <= Z.max N (span_end x)) la') as Hsent.
  { apply list.Forall_forall. intros y Hy. rewrite list.Forall_forall in H8. destruct (Hin y Hy) as [Hy2| ->]; [specialize (H8 y Hy2)|]; lia. }
  destruct (Z.ltb_spec N (span_end x)) as [Hlt|Hge]; [rewrite Z.max_r in * by lia|rewrite Z.max_l in * by lia]; split; cbn; try done; try (change TCP_SND_BUF with 6432; lia);
    split; try done; intros y Hy; apply H10'; by destruct lu.
Qed.

Lemma send_one_ok t mid S0 U N L la lu o seg rest : receiving t -> flow mid (the_pcb t) U N L la lu o -> ordered S0 U L o -> unsent (snd_q (the_pcb t)) = seg :: rest ->
  (forall x, head lu = Some x -> span_end x <= U + snd_wnd (win (the_pcb t))) ->
  exists t' N' la' lu', (forall k : M (tcp E) unit, (on_snd (set_unsent rest);;
      seg ← (if bool_decide (state (the_pcb t) = SYN_SENT) then mret seg
             else clear_flag (Z.lor TF_ACK_DELAY TF_ACK_NOW);; mret (set_seg_flags (set_bits TCP_ACK) seg));
      tcp_output_segment seg;;
      on_snd (fun s => let nxt := u32 (sg_seqno seg + TCP_TCPLEN seg) in if TCP_SEQ_LT (snd_nxt s) nxt then set_snd_nxt nxt s else s);;
      (if 0 <? TCP_TCPLEN seg then on_snd (fun s => set_unacked (put_unacked seg (unacked s)) s) else mret tt);; k) t = k t') /\
    N <= N' /\ flow false (the_pcb t') U N' L la' lu' o /\ flushes S0 N' t t' /\ unsent (snd_q (the_pcb t')) = rest /\
    unsent_oversize (snd_q (the_pcb t')) = unsent_oversize (snd_q (the_pcb t)) /\ cwnd (ctl (the_pcb t')) = cwnd (ctl (the_pcb t)).
Proof.
  intros Hrec [Hq Ho Hs Hroom] Hord Eu Hwnd. pose proof (sq_unsent _ _ _ _ _ _ _ _ Hq) as Hu. rewrite Eu in Hu. inversion Hu as [|? x ? lu' Hx Hrest]; subst. specialize (Hwnd x eq_refl).
  assert (exists la', o = la' ++ lu' /\ (forall y, y ∈ la' -> y ∈ la \/ y = x) /\ S0 <= x.1 /\
    forall s', carried (limit (the_pcb t)) s' x -> Forall2 (carried (limit (the_pcb t))) (put_unacked s' (unacked (snd_q (the_pcb t)))) la' /\
      clens (put_unacked s' (unacked (snd_q (the_pcb t)))) = clens (unacked (snd_q (the_pcb t))) + clen s') as (la' & -> & Hin & Hlo & Hput).
  { pose proof (sq_unacked _ _ _ _ _ _ _ _ Hq) as Ha. destruct mid; cbn in Ho.
    - destruct Ho as (y & l & [= <- <-] & -> & _). exists (x :: la). split; [done|]. split; [intros y [->|Hy]%elem_of_cons; auto|].
      destruct (ordered_around S0 U L [] x (la ++ lu') Hord) as (_ & Hb & Hlo). apply list.Forall_app in Hb as [Hb _]. split; [done|].
      intros s' Hs'. rewrite (put_before _ _ _ _ _ Hs' Ha Hb). split; [by constructor|]. cbn [clens]. lia.
    - subst o. exists (la ++ [x]). split; [by rewrite <- app_assoc|]. split; [intros y [Hy|Hy]%elem_of_app; [auto|apply list_elem_of_singleton in Hy; auto]|].
      destruct (ordered_around S0 U L la x lu' Hord) as (Hb & _ & Hlo). split; [done|].
      intros s' Hs'. rewrite (put_behind _ _ _ _ _ Hs' Ha Hb). split; [by apply Forall2_app; [|constructor]|]. rewrite clens_app. cbn [clens]. lia. }
  assert (U < span_end x <= L /\ L <= U + 2 ^ 16) as [Hxe HL].
  { pose proof (od_near _ _ _ _ Hord) as Hn. rewrite list.Forall_forall in Hn. apply (Hn x). destruct mid; cbn in Ho.
    - destruct Ho as (y & l & [= <- <-] & -> & _). by left.
    - rewrite Ho. rewrite elem_of_app, elem_of_cons. auto. }
  rewrite bool_decide_eq_false_2 by (by destruct Hrec as [-> | ->]). unfold on_snd, clear_flag, on_pcb.
  set (seg' := set_seg_flags (set_bits TCP_ACK) seg). assert (carried (limit (the_pcb t)) seg' x) as Hx' by (apply carried_flags; [|done]; intros m [->|[-> | ->]]; by apply has_set_other).
  set (t2 := set_pcb (set_flags (clear_bits (Z.lor TF_ACK_DELAY TF_ACK_NOW))) (set_pcb (set_snd (set_unsent rest)) t)).
  destruct (output_segment_ok t2 (limit (the_pcb t)) seg' x S0 (Z.max N (span_end x)) Hx') as (t3 & E3 & Hs3 & F3 & S3 & P3 & C3); [|done|lia|].
  { destruct Hs; split; try done. cbn. by rewrite has_clear_other. }
  assert (TCP_TCPLEN seg' = x.2) as Elen by (by apply (carried_tcplen f (limit (the_pcb t)))). pose proof (ca_size _ _ _ _ Hx') as Hsz.
  assert (u32 (sg_seqno seg' + TCP_TCPLEN seg') = u32 (span_end x)) as Eend by (apply u32_seq; by eapply carried_end).
  set (t4 := set_pcb (set_snd (fun s => set_unacked (put_unacked seg' (unacked s)) s)) (set_pcb (set_snd (fun s => let nxt := u32 (sg_seqno seg' + TCP_TCPLEN seg') in if TCP_SEQ_LT (snd_nxt s) nxt then set_snd_nxt nxt s else s)) t3)).
  exists t4, (Z.max N (span_end x)), la', lu'. split.
  { intros k. rewrite modify_bind, bind_assoc, modify_bind, ret_bind. fold seg' t2. rewrite (bind_done _ _ _ _ _ E3), modify_bind. assert (0 <? TCP_TCPLEN seg' = true) as -> by lia. done. }
  split; [lia|]. pose proof (flushes_limit _ _ _ _ F3) as L3. pose proof (flushes_wnd _ _ _ _ F3) as W3. cbn in L3, W3.
  assert (snd_q (the_pcb t4) = set_unacked (put_unacked seg' (unacked (snd_q (the_pcb t)))) (let s := set_unsent rest (snd_q (the_pcb t)) in if TCP_SEQ_LT (snd_nxt s) (u32 (span_end x)) then set_snd_nxt (u32 (span_end x)) s else s)) as Q4.
  { transitivity ((fun s => set_unacked (put_unacked seg' (unacked s)) s) ((fun s => if TCP_SEQ_LT (snd_nxt s) (u32 (sg_seqno seg' + TCP_TCPLEN seg')) then set_snd_nxt (u32 (sg_seqno seg' + TCP_TCPLEN seg')) s else s) (snd_q (the_pcb t3)))); [done|].
    cbv beta. rewrite Eend, S3. cbn. by destruct (TCP_SEQ_LT _ _). }
  split.
  - split.
    + rewrite Q4. change (limit (the_pcb t4)) with (limit (the_pcb t3)). rewrite L3. change (limit (the_pcb t2)) with (limit (the_pcb t)).
      destruct (Hput seg' Hx') as [Hp1 Hp2]. pose proof (sq_pos _ _ _ _ _ _ _ _ Hq) as Hp. change TCP_SND_BUF with 6432 in *. by apply (sendq_move _ _ _ _ _ la x lu' _ seg); [done|done|lia|lia|done| |].
    + done.
    + destruct Hs3. by split.
    + unfold roomy in *. change (win (the_pcb t4)) with (win (the_pcb t3)). rewrite W3. lia.
  - split; [destruct F3; by split|]. rewrite Q4. cbv zeta. split; [by destruct (TCP_SEQ_LT (snd_nxt _) _)|]. split; [by destruct (TCP_SEQ_LT (snd_nxt _) _)|]. change (cwnd (ctl (the_pcb t4))) with (cwnd (ctl (the_pcb t3))). by rewrite C3.
Qed.

Lemma effwnd_ok s lim U N L la lu seg x : sendq s lim U N L la lu -> carried lim seg x -> 0 <= span_end x - U < 2 ^ 32 -> effwnd s seg = span_end x - U.
Proof.
  intros Hq Hx Hr. unfold effwnd. rewrite (sq_lastack _ _ _ _ _ _ _ _ Hq), (carried_len _ _ _ _ Hx).
  rewrite (u32_seq _ (span_end x - U)); [by apply u32_id|]. unfold span_end. replace (x.1 + x.2 - U) with (x.1 - U + x.2) by lia.
  apply seq_of_add; [|auto with seq]. apply seq_of_sub; [by eapply carried_start|auto with seq].
Qed.

Lemma output_loop_ok wnd S0 U L o : ordered S0 U L o -> forall l t mid N la lu, unsent (snd_q (the_pcb t)) = l -> receiving t -> flow mid (the_pcb t) U N L la lu o ->
  wnd <= snd_wnd (win (the_pcb t)) -> (mid = true -> wnd = Z.min (snd_wnd (win (the_pcb t))) (cwnd (ctl (the_pcb t)))) ->
  exists t' N' la' lu', output_loop wnd l t = Done (tt, t') /\ N <= N' /\ flow false (the_pcb t') U N' L la' lu' o /\ flushes S0 N' t t' /\
    unsent_oversize (snd_q (the_pcb t')) = unsent_oversize (snd_q (the_pcb t)).
Proof.
  intros Hord. induction l as [|seg rest IH]; intros t mid N la lu Eu Hrec Hfl Hw Hmid; cbn [output_loop].
  { exists t, N, la, lu. split; [done|]. split; [done|]. split; [|by split; [apply flushes_refl|]]. destruct mid; [|done]. exfalso.
    destruct Hfl as [Hq Ho _ _]. pose proof (sq_unsent _ _ _ _ _ _ _ _ Hq) as Hu. rewrite Eu in Hu. inversion Hu; subst. by destruct Ho as (? & ? & ? & _). }
  pose proof Hfl as [Hq Ho Hs Hroom]. pose proof (sq_unsent _ _ _ _ _ _ _ _ Hq) as Hu. rewrite Eu in Hu. inversion Hu as [|? x ? lu' Hx Hrest]; subst.
  assert (x ∈ o) as Hxo.
  { destruct mid; cbn in Ho; [destruct Ho as (y & l & [= <- <-] & -> & _); by left|rewrite Ho, elem_of_app, elem_of_cons; auto]. }
  assert (U < span_end x <= L /\ L <= U + 2 ^ 16) as [Hxe HL] by (pose proof (od_near _ _ _ _ Hord) as Hn; rewrite list.Forall_forall in Hn; by apply (Hn x)).
  unfold get_pcb. rewrite bind_assoc, get_bind, ret_bind, (effwnd_ok _ _ _ _ _ _ _ _ _ Hq Hx) by lia.
  assert (mid = true -> span_end x - U <= wnd /\ has (pcb_flags (the_pcb t)) TF_INFR = true) as Hgo.
  { intros ->. cbn in Ho. destruct Ho as (y & l & [= <- <-] & -> & HN & Hfr & Hc). split; [|done]. rewrite Hmid by done. unfold roomy in Hroom.
    pose proof (ca_size _ _ _ _ Hx). unfold limit in *. destruct (od_contig _ _ _ _ Hord) as (x0 & Hx0 & <- & _). unfold span_end in *. lia. }
  assert (mid = false -> exists t' N' la' lu2, (mret tt : M (tcp E) unit) t = Done (tt, t') /\ N <= N' /\ flow false (the_pcb t') U N' L la' lu2 o /\ flushes S0 N' t t' /\
    unsent_oversize (snd_q (the_pcb t')) = unsent_oversize (snd_q (the_pcb t))) as Hstop.
  { intros ->. exists t, N, la, (x :: lu'). split; [done|]. split; [done|]. split; [done|]. by split; [apply flushes_refl|]. }
  destruct (Z.leb_spec (span_end x - U) wnd) as [Hle|Hgt].
  2: { apply Hstop. destruct mid; [|done]. specialize (Hgo eq_refl). lia. }
  rewrite lwip_assert_bind by (by rewrite (ca_rst _ _ _ _ Hx)).
  destruct (negb (tcp_do_output_nagle (the_pcb t)) && _) eqn:En.
  { apply Hstop. destruct mid; [|done]. destruct (Hgo eq_refl) as [_ Hfr]. apply andb_true_iff in En as [En _]. apply negb_true_iff in En.
    unfold tcp_do_output_nagle in En. apply orb_false_iff in En as [En _]. apply orb_false_iff in En as [En _]. apply orb_false_iff in En as [En _].
    apply orb_false_iff in En as [_ En]. unfold has, nz in En, Hfr. rewrite Z.land_lor_distr_r in En. apply negb_false_iff, Z.eqb_eq, Z.lor_eq_0_iff in En as [_ En]. by rewrite En in Hfr. }
  destruct (send_one_ok t mid S0 U N L la (x :: lu') o seg rest Hrec Hfl Hord Eu) as (t1 & N1 & la1 & lu1 & E1 & HN1 & Hfl1 & F1 & U1 & O1 & C1).
  { intros y [= <-]. unfold roomy in Hroom. lia. }
  rewrite (E1 (output_loop wnd rest)). destruct (IH t1 false N1 la1 lu1) as (t' & N' & la' & lu2 & E2 & HN' & Hfl' & F' & O'); [done| |done| |done|].
  - destruct F1 as [Fs _ _ _ _ _ _ _]. unfold receiving in *. by rewrite Fs.
  - by rewrite (flushes_wnd _ _ _ _ F1).
  - exists t', N', la', lu2. split; [done|]. split; [lia|]. split; [done|]. split; [by apply (flushes_trans S0 N1 N' t t1 t')|]. by rewrite O'.
Qed.

(** What happens to acknowledgements and to the window does not matter. *)
Lemma sends_frame t t' mid S0 U N L la lu o : frame t t' -> sends mid (the_pcb t) S0 U N L la lu o -> sends mid (the_pcb t') S0 U N L la lu o.
Proof.
  intros [F1 F2 F3 F4 F5 F6 _ _] [V1 V2 V3 V4 V5 []]. split; unfold limit in *; rewrite ?F1, ?F2, ?F5; try done.
  - destruct mid; [|done]. destruct V2 as (x & l & H1 & H2 & H3 & H4 & H5). exists x, l. by rewrite F6, F3, F5.
  - split; by rewrite ?F1, ?F2, ?F3, ?F4, ?F5, ?F6.
Qed.

Lemma empty_ack_flushes t S0 U N L la lu o : sends false (the_pcb t) S0 U N L la lu o ->
  exists r t', tcp_send_empty_ack t = Done (r, t') /\ sends false (the_pcb t') S0 U N L la lu o /\ flushes S0 N t t'.
Proof.
  intros Hs. assert (exists r t', tcp_send_empty_ack t = Done (r, t') /\ flushes S0 N t t') as (r & t' & E1 & F1).
  { unfold tcp_send_empty_ack, tcp_output_alloc_header, emit. rewrite get_bind, bind_assoc, get_bind. destruct (alloc_ram _ (env t)) as [e|] eqn:E1.
    - rewrite !bind_assoc, modify_bind. unfold on_rcv. rewrite bind_assoc, modify_bind, ret_bind, modify_bind, bind_assoc, get_bind, modify_bind.
      eexists _, _. split; [reflexivity|]. destruct (ram_quiet _ _ _ E1) as (G1 & G2 & G3).
      destruct (output_said (ack_of (the_pcb t)) e) as (O1 & O2 & O3). unfold ack_of in *. split; cbn; try done; [by rewrite O1|by rewrite O2|by right|].
      eexists. rewrite O3, G3. split; [reflexivity|]. split; [|split; [by constructor|done]]. constructor; [|constructor]. exists N, 0. pose proof (sn_q _ _ _ _ _ _ _ _ _ _ Hs) as Hq.
      destruct (sn_contig _ _ _ _ _ _ _ _ _ _ Hs) as (x0 & Hx0 & _). pose proof (sq_pos _ _ _ _ _ _ _ _ Hq). cbn. rewrite (sq_nxt _ _ _ _ _ _ _ _ Hq).
      split; [lia|]. split; [lia|]. split; [lia|]. done.
    - rewrite ret_bind. exists ERR_BUF, t. split; [done|]. apply flushes_refl. }
  exists r, t'. split; [done|]. split; [|done]. by apply (sends_frame t); [apply (empty_ack_frame _ _ _ E1)|].
Qed.

(** tcp_output, which resolves a fast retransmission. *)
Lemma tcp_output_ok t mid S0 U N L la lu o : receiving t -> sends mid (the_pcb t) S0 U N L la lu o -> roomy (the_pcb t) U N -> tcp_input_pcb (the_in t) = false ->
  exists r t' N' la' lu', tcp_output t = Done (r, t') /\ N <= N' /\ sends false (the_pcb t') S0 U N' L la' lu' o /\ roomy (the_pcb t') U N' /\ flushes S0 N' t t'.
Proof.
  intros Hrec Hs Hroom Hin. unfold tcp_output. rewrite get_bind. cbv zeta. rewrite lwip_assert_bind by (by destruct Hrec as [-> | ->]). rewrite Hin.
  destruct (sends_flow _ _ _ _ _ _ _ _ _ Hs Hroom) as [Hfl Hord]. pose proof Hfl as [Hq Ho Hsane _]. set (wnd := Z.min _ _).
  destruct (has _ TF_ACK_NOW && _) eqn:Eack.
  - assert (mid = false) as ->.
    { destruct mid; [|done]. exfalso. cbn in Ho. destruct Ho as (x & l & -> & -> & HN & Hfr & Hc). pose proof (sq_unsent _ _ _ _ _ _ _ _ Hq) as Hu. inversion Hu as [|seg ? rest ? Hx Hrest E1]; subst.
      rewrite <- E1 in Eack. apply andb_true_iff in Eack as [_ Eack]. pose proof (od_near _ _ _ _ Hord) as Hn. apply list.Forall_cons in Hn as [Hn _].
      rewrite (effwnd_ok _ _ _ _ _ _ _ _ _ Hq Hx) in Eack by lia. pose proof (ca_size _ _ _ _ Hx). unfold limit, roomy in *. destruct (od_contig _ _ _ _ Hord) as (x0 & Hx0 & <- & _). unfold span_end in *. lia. }
    destruct (empty_ack_flushes t S0 U N L la lu o Hs) as (r & t' & E1 & Hs' & F1). exists r, t', N, la, lu. split; [done|]. split; [done|]. split; [done|]. split; [|done].
    unfold roomy in *. by rewrite (flushes_wnd _ _ _ _ F1).
  - destruct (output_loop_ok wnd S0 U L o Hord _ t mid N la lu eq_refl Hrec Hfl) as (t1 & N1 & la1 & lu1 & E1 & HN1 & Hfl1 & F1 & O1); [lia|done|].
    rewrite (bind_done _ _ _ _ _ E1). unfold on_snd, clear_flag, on_pcb. rewrite !modify_bind. eexists _, _, N1, la1, lu1. split; [reflexivity|]. split; [done|].
    destruct Hfl1 as [Q1 Ho1 Hs1 R1]. split; [|split; [done|by destruct F1; split]]. destruct Hord as [K1 K2 _].
    split; [| |done|done| |].
    + cbn. destruct Q1 as [H1 H2 H3 H4 H5 H6 H7 H8 H9 [H10 H10'] H11]. unfold limit in *. cbn. destruct (unsent (snd_q (the_pcb t1))) eqn:Eu; [|split; rewrite ?Eu; try done].
      inversion H7; subst. split; cbn; rewrite ?Eu; done.
    + done.
    + cbn. by destruct (unsent (snd_q (the_pcb t1))) eqn:Eu; cbn; rewrite ?Eu.
    + destruct Hs1. split; try done. cbn. by rewrite has_clear_other.
Qed.

(** ** Timers *)

(** Everything goes back to pcb->unsent, and from there out. *)
Lemma rexmit_rto_ok t S0 U N L la lu o : receiving t -> sends false (the_pcb t) S0 U N L la lu o -> roomy (the_pcb t) U N -> tcp_input_pcb (the_in t) = false ->
  exists t' N' la' lu', tcp_rexmit_rto t = Done (tt, t') /\ N <= N' /\ sends false (the_pcb t') S0 U N' L la' lu' o /\ roomy (the_pcb t') U N' /\ flushes S0 N' t t'.
Proof.
  intros Hrec Hs Hroom Hin. unfold tcp_rexmit_rto, get_pcb. rewrite bind_assoc, get_bind, ret_bind. destruct (unacked _) as [|seg rest] eqn:Eu.
  { exists t, N, la, lu. split; [done|]. split; [done|]. split; [done|]. split; [done|apply flushes_refl]. }
  unfold on_snd, on_ctl, on_pcb. rewrite !modify_bind. set (t1 := set_pcb _ _).
  assert (sends false (the_pcb t1) S0 U N L [] (la ++ lu) o) as Hs1.
  { destruct Hs as [[H1 H2 H3 H4 H5 H6 H7 H8 [H9 H9'] [H10 H10'] H11] V2 V3 V4 V5 []]. cbn in V2. subst o. rewrite Eu in *. split; [| |done|done|done|].
    - split; cbn; try done; [exact (Forall2_app H6 H7)|rewrite clens_app; cbn [clens] in H9; split; [lia|done]|].
      split; [done|]. intros y Hy. destruct lu as [|z lu].
      + rewrite app_nil_r in Hy. inversion H7 as [E0|]; subst. rewrite V5 by done. apply last_Some_elem_of in Hy. destruct (list_elem_of_lookup_1 _ _ Hy) as [i Hi].
        destruct (Forall2_lookup_r _ _ _ _ _ H6 Hi) as (sg & _ & [_ _ _ Hsz _]). unfold limit in *. cbn. lia.
      + apply H10'. rewrite last_app in Hy. by destruct (list.last (z :: lu)) eqn:El; [|by apply last_None in El].
    - done.
    - split; try done. cbn. apply Z.mod_pos_bound. lia. }
  destruct (tcp_output_ok t1 false S0 U N L [] (la ++ lu) o Hrec Hs1 Hroom Hin) as (r & t' & N' & la' & lu' & E1 & HN & Hs' & R' & F').
  rewrite (bind_done _ _ _ _ _ E1). exists t', N', la', lu'. split; [done|]. split; [done|]. split; [done|]. split; [done|]. destruct F'. by split.
Qed.

(** The probe of a closed window is the first byte that is not acknowledged, or one in front. *)
Lemma zero_window_probe_ok t S0 U N L la lu o : sends false (the_pcb t) S0 U N L la lu o ->
  exists t', tcp_zero_window_probe t = Done (tt, t') /\ sends false (the_pcb t') S0 U N L la lu o /\ flushes S0 (Z.max N (U + 1)) t t'.
Proof.
  intros Hs. pose proof (sn_q _ _ _ _ _ _ _ _ _ _ Hs) as Hq. unfold tcp_zero_window_probe, get_pcb. rewrite bind_assoc, get_bind, ret_bind. cbv zeta.
  destruct (unacked (snd_q (the_pcb t)) ++ unsent (snd_q (the_pcb t))) as [|seg rest] eqn:Eq; [exists t; split; [done|]; split; [done|apply flushes_refl]|].
  pose proof (sn_order _ _ _ _ _ _ _ _ _ _ Hs) as Ho. cbn in Ho. pose proof (Forall2_app (sq_unacked _ _ _ _ _ _ _ _ Hq) (sq_unsent _ _ _ _ _ _ _ _ Hq)) as Hall.
  rewrite Eq, <- Ho in Hall. inversion Hall as [|? x ? o' Hx Ho' E3 E4]. destruct (sn_contig _ _ _ _ _ _ _ _ _ _ Hs) as (y & Hy & Hc). rewrite <- E4 in Hc. destruct Hc as (Ex & Hx1 & _). rewrite E4. clear E3.
  rewrite (si_fin _ _ (ca_seg _ _ _ _ Hx)). cbn [snd andb].
  unfold tcp_output_alloc_header. rewrite bind_assoc, get_bind. destruct (alloc_ram _ (env t)) as [e|] eqn:E1.
  2: { rewrite ret_bind. exists t. split; [done|]. split; [done|apply flushes_refl]. }
  unfold emit, on_rcv. rewrite !bind_assoc, modify_bind, bind_assoc, modify_bind, ret_bind, get_bind. eexists. split; [reflexivity|].
  split; [by apply (sends_frame t); [by split|]|]. cbn. destruct (ram_quiet _ _ _ E1) as (G1 & G2 & G3).
  match goal with |- context [ip_output ?h e] => destruct (output_said h e) as (O1 & O2 & O3); set (h0 := h) in * end.
  split; cbn; try done; [by rewrite O1|by rewrite O2|by right|]. exists [h0]. rewrite O3, G3. split; [done|]. split; [|split; [by constructor|done]]. constructor; [|constructor].
  exists x.1, 1. split; [done|]. split; [lia|]. split; [lia|]. split; [apply (ca_seg _ _ _ _ Hx)|]. split; [|done].
  subst h0. cbn. rewrite (carried_data _ _ _ _ Hx). replace x.2 with (1 + (x.2 - 1)) by lia. by rewrite bytes_of_app by lia.
Qed.

(** ** What output leaves *)

(** Nothing is waiting, or the first that waits is behind the window, or Nagle's algorithm
    holds it back. *)
Definition waits (wnd : Z) (p : tcp_pcb) : Prop :=
  match unsent (snd_q p) with
  | [] => True
  | seg :: _ => wnd < effwnd (snd_q p) seg \/ tcp_do_output_nagle p = false
  end.

(** The queues are the same. *)
Definition queued t t' : Prop := snd_q (the_pcb t') = snd_q (the_pcb t).

#[local] Instance queued_preorder : PreOrder queued.
Proof. split; [done|]. intros t1 t2 t3. unfold queued. congruence. Qed.

Lemma output_segment_queued seg : respects queued (tcp_output_segment seg).
Proof. unfold tcp_output_segment, tcp_eff_send_mss, emit, get_pcb. respects; try done. Qed.

Lemma empty_ack_queued : respects queued tcp_send_empty_ack.
Proof. unfold tcp_send_empty_ack, tcp_output_alloc_header, emit, tcp_ack_now. respects; try done. Qed.

Lemma done_bind {A B} (m : M (tcp E) A) (k : A -> M (tcp E) B) t b t' : (m ≫= k) t = Done (b, t') -> exists a t1, m t = Done (a, t1) /\ k a t1 = Done (b, t').
Proof. unfold mbind, M_bind. destruct (m t) as [[a t1]|c]; [|done]. intros. by exists a, t1. Qed.

Lemma output_loop_waits wnd l : forall t t', output_loop wnd l t = Done (tt, t') -> unsent (snd_q (the_pcb t)) = l -> waits wnd (the_pcb t').
Proof.
  induction l as [|seg rest IH]; intros t t' E1 Eu; cbn [output_loop] in E1; [injection E1 as <-; unfold waits; by rewrite Eu|].
  unfold get_pcb in E1. rewrite bind_assoc, get_bind, ret_bind in E1. destruct (Z.leb_spec (effwnd (snd_q (the_pcb t)) seg) wnd); [|injection E1 as <-; unfold waits; rewrite Eu; by left].
  apply done_bind in E1 as (? & t1 & E2 & E1). unfold lwip_assert in E2. destruct (negb (has (sg_flags seg) TCP_RST)); [injection E2 as _ <-|done].
  destruct (negb (tcp_do_output_nagle _) && _) eqn:En; [injection E1 as <-; unfold waits; rewrite Eu; right; by apply andb_true_iff in En as [En%negb_true_iff _]|].
  unfold on_snd, on_pcb in E1. rewrite modify_bind in E1. set (t1 := set_pcb _ t) in E1.
  apply done_bind in E1 as (seg' & t2 & E2 & E1). assert (queued t1 t2) as Q2 by (revert E2; destruct (bool_decide _); [|unfold clear_flag, on_pcb; rewrite modify_bind]; intros [= _ <-]; done).
  apply done_bind in E1 as (? & t3 & E3 & E1). pose proof (output_segment_queued _ _ _ _ E3) as Q3. rewrite modify_bind in E1. set (t4 := set_pcb _ t3) in E1.
  apply done_bind in E1 as (? & t5 & E5 & E1). apply (IH _ _ E1). unfold queued in *.
  assert (unsent (snd_q (the_pcb t3)) = rest) as U3 by (by rewrite Q3, Q2). assert (unsent (snd_q (the_pcb t4)) = rest) as U4 by (cbn; by destruct (TCP_SEQ_LT _ _)).
  destruct (0 <? _); by injection E5 as _ <-.
Qed.

Lemma tcp_output_waits t r t' : tcp_output t = Done (r, t') -> tcp_input_pcb (the_in t) = false -> waits (Z.min (snd_wnd (win (the_pcb t))) (cwnd (ctl (the_pcb t)))) (the_pcb t').
Proof.
  intros E1 Hin. unfold tcp_output in E1. rewrite get_bind in E1. cbv zeta in E1. apply done_bind in E1 as (? & t1 & E2 & E1). unfold lwip_assert in E2.
  destruct (negb _); [injection E2 as _ <-|done]. rewrite Hin in E1. set (wnd := Z.min _ _) in *. destruct (has _ TF_ACK_NOW && _) eqn:Ea.
  - pose proof (empty_ack_queued _ _ _ E1) as Q. unfold queued in Q. apply andb_true_iff in Ea as [_ Ea]. unfold waits. rewrite Q. destruct (unsent _); [done|]. left. lia.
  - apply done_bind in E1 as ([] & t2 & E2 & E1). pose proof (output_loop_waits _ _ _ _ E2 eq_refl) as Hw. unfold on_snd, clear_flag, on_pcb in E1. rewrite !modify_bind in E1. injection E1 as _ <-.
    unfold waits in *. cbn. destruct (unsent (snd_q (the_pcb t2))) eqn:Eu; cbn; rewrite ?Eu; [done|]. destruct Hw as [Hw|Hw]; [by left|right].
    unfold tcp_do_output_nagle in *. cbn. rewrite ?Eu in *. rewrite has_clear_other by done. exact Hw.
Qed.
End flush.
End stream.
