(* ===== verification/TcpWriteSpec.v ===== *)
(** * TCP: writing

    tcp_write puts the bytes of the application behind what is queued, in the last segment as
    far as there is room and in new segments, or it changes nothing and says ERR_MEM. *)

From S2P Require Import Prelude TcpPcb TcpRecv TcpOut TcpAck TcpProcess TcpStream TcpFrame TcpSend TcpAckSpec TcpFlush.

(** The same, whatever memory was taken; of the flags only TF_NAGLEMEMERR is set. *)
Section write.
Context (f : Z -> Z).

#[local] Abbreviation bytes_of := (TcpStream.bytes_of f).

#[local] Abbreviation carried := (TcpSend.carried f).

#[local] Abbreviation sendq := (TcpSend.sendq f).

#[local] Abbreviation sends := (TcpSend.sends f).

Context {E : Type} `{TcpApp E}.

Implicit Types (t : tcp E).

Record quiet t t' : Prop := Quiet {
  qt_state : state (the_pcb t') = state (the_pcb t);
  qt_mss : mss (the_pcb t') = mss (the_pcb t);
  qt_win : win (the_pcb t') = win (the_pcb t);
  qt_ctl : ctl (the_pcb t') = ctl (the_pcb t);
  qt_misc : misc (the_pcb t') = misc (the_pcb t);
  qt_rcv : rcv (the_pcb t') = rcv (the_pcb t);
  qt_flags : forall m, Z.land TF_NAGLEMEMERR m = 0 -> has (pcb_flags (the_pcb t')) m = has (pcb_flags (the_pcb t)) m;
  qt_in : the_in t' = the_in t;
  qt_hushed : hushed t t'
}.

#[export] Instance quiet_preorder : PreOrder quiet.
Proof. split; [by split|]. intros t1 t2 t3 [] []. split; intros; etransitivity; eauto. Qed.

Ltac quiet_tac := by split.

Lemma take_quiet a : (forall e e', a e = Some e' -> got e' = got e /\ eof e' = eof e /\ outs e' = outs e) -> respects quiet (take a).
Proof.
  intros Ha t b t' E1. pose proof (take_hushed a Ha _ _ _ E1) as Hh. unfold take in E1. rewrite get_bind in E1. destruct (a (env t)); injection E1 as _ <-; by split.
Qed.

Lemma ram_respects n : respects quiet (take (alloc_ram n)).
Proof. apply take_quiet. intros ? ?. apply ram_quiet. Qed.

Lemma rom_respects : respects quiet (take alloc_rom).
Proof. apply take_quiet, rom_quiet. Qed.

Lemma segment_respects : respects quiet (take alloc_seg).
Proof. apply take_quiet, seg_quiet. Qed.

Lemma memflag_quiet : respects quiet (set_flag TF_NAGLEMEMERR).
Proof. unfold set_flag, on_pcb. apply respects_modify. intros t. split; try done. intros m Hm. by apply has_set_other. Qed.

Hint Resolve ram_respects rom_respects segment_respects memflag_quiet : respects.

Lemma prealloc_quiet a b c d : respects quiet (tcp_pbuf_prealloc a b c d).
Proof. unfold tcp_pbuf_prealloc, get_pcb. respects; quiet_tac. Qed.

Lemma create_quiet a b c d : respects quiet (tcp_create_segment a b c d).
Proof. unfold tcp_create_segment. respects; quiet_tac. Qed.

Hint Resolve prealloc_quiet create_quiet : respects.

Lemma new_segments_quiet fuel : forall a fl m l q ov ps n, respects quiet (new_segments fuel a fl m l q ov ps n).
Proof. induction fuel as [|fuel IH]; intros; cbn [new_segments]; unfold new_pbufs; respects; try apply IH; quiet_tac. Qed.

Hint Resolve new_segments_quiet : respects.

Lemma write_quiet a fl : respects quiet (tcp_write a fl).
Proof. unfold tcp_write, extend_last, memerr, valid_queue_length, tcp_write_checks, get_pcb. respects; quiet_tac. Qed.

(** ** Memory *)

Lemma take_ok a t : exists b t', take a t = Done (b, t') /\ env_only t t'.
Proof.
  unfold take. rewrite get_bind. destruct (a (env t)) as [e|]; [|exists false, t; split; [done|apply env_only_refl]].
  exists true. eexists. split; [reflexivity|]. by exists e.
Qed.

Lemma prealloc_ok t len lim fl first : 0 <= len <= lim -> lim <= TCP_MSS ->
  exists r t', tcp_pbuf_prealloc len lim fl first t = Done (r, t') /\ env_only t t' /\ match r with None => True | Some o => 0 <= o /\ len + o <= lim end.
Proof.
  intros Hlen Hlim. change TCP_MSS with 536 in *. unfold tcp_pbuf_prealloc, get_pcb. rewrite bind_assoc, get_bind, ret_bind. cbv zeta. set (alloc := if len <? lim then _ else _).
  assert (len <= alloc <= lim) as Ha.
  { subst alloc. destruct (len <? lim); [|lia]. destruct (_ || _); [|lia]. rewrite align_arith. change TCP_OVERSIZE with 536.
    assert (len <= u16 ((len + 536 + 3) / 4 * 4)); [|lia]. rewrite u16_id; [|unfold is_u16]; Z.div_mod_to_equations; lia. }
  destruct (take_ok (alloc_ram alloc) t) as (b & t' & E1 & Ht). rewrite (bind_done _ _ _ _ _ E1). destruct b.
  - exists (Some (alloc - len)), t'. split; [done|]. split; [done|]. lia.
  - exists None, t'. done.
Qed.

Lemma slice_stream L len k n : 0 <= k -> 0 <= n -> k + n <= len -> slice k n (bytes_of L len) = bytes_of (L + k) n.
Proof.
  intros Hk Hn Hl. unfold slice. rewrite drop_bytes_of by lia. pose proof (slice_bytes_of (f := f) (L + k) (len - k) n ltac:(lia)) as Hs. unfold slice in Hs. by rewrite drop_0 in Hs.
Qed.

(** ** The last segment *)

(** What phases 1 and 2 may find for the last unsent piece, [None] when there is none. *)
Record plan_ok (lim len n : Z) (copy : bool) (over : Z) (last : option span) (arg : bytes) (pl : tail_plan) : Prop := PlanOk {
  pn_used : 0 <= oversize_used pl <= over;
  pn_pos : 0 <= pos pl <= len;
  pn_over : 0 <= oversize pl;
  pn_rom : copy = false -> oversize pl = 0 \/ pos pl = len;
  pn_last : match last with
            | None => pos pl = 0 /\ oversize_used pl = 0 /\ concat_p pl = None /\ queuelen pl = n /\ oversize pl = 0
            | Some x => x.2 + pos pl + oversize pl <= lim /\
                match concat_p pl with
                | None => pos pl = oversize_used pl /\ queuelen pl = n
                | Some d => d = slice (oversize_used pl) (pos pl - oversize_used pl) arg /\ oversize_used pl <= pos pl /\ queuelen pl = n + 1 /\ n < TCP_SND_QUEUELEN
                end
            end
}.

Lemma extend_last_ok t lim U N L la lu arg fl n : sendq (snd_q (the_pcb t)) lim U N L la lu -> (unsent (snd_q (the_pcb t)) = [] -> unsent_oversize (snd_q (the_pcb t)) = 0) -> 1 <= lim <= TCP_MSS ->
  snd_queuelen (snd_q (the_pcb t)) = n -> (zlen arg = 0 \/ n < TCP_SND_QUEUELEN) ->
  exists r t', extend_last arg fl lim (the_pcb t) t = Done (r, t') /\ env_only t t' /\
    match r with None => True | Some pl => plan_ok lim (zlen arg) n (has fl TCP_WRITE_FLAG_COPY) (unsent_oversize (snd_q (the_pcb t))) (list.last lu) arg pl end.
Proof.
  intros Hq Hov Hlim Hn Hnn. pose proof (zlen_nonneg arg) as Hlen. pose proof (sq_unsent _ _ _ _ _ _ _ _ Hq) as Hu. pose proof (Forall2_last _ _ _ Hu) as Hlast.
  pose proof (sq_queuelen _ _ _ _ _ _ _ _ Hq) as [Hn1 Hn2]. pose proof (clens_nonneg (unacked (snd_q (the_pcb t)))). pose proof (clens_nonneg (unsent (snd_q (the_pcb t)))).
  unfold extend_last. cbv zeta. rewrite Hn. change TCP_SND_QUEUELEN with 40 in *. destruct (list.last (unsent _)) as [seg|] eqn:El.
  2: { apply last_None in El. destruct (list.last lu) as [x|]; [done|]. rewrite Hov by done. rewrite lwip_assert_bind by done. eexists _, t. split; [reflexivity|].
       split; [apply env_only_refl|]. by split; cbn; try lia; auto. }
  destruct (list.last lu) as [x|] eqn:Ex; [|done]. destruct (sq_oversize _ _ _ _ _ _ _ _ Hq) as [Ho1 Ho2]. specialize (Ho2 x Ex). set (over := unsent_oversize _) in *.
  rewrite (ca_opts _ _ _ _ Hlast), (carried_len _ _ _ _ Hlast). change (LWIP_TCP_OPT_LENGTH 0) with 0. pose proof (ca_size _ _ _ _ Hlast) as Hsz. change TCP_MSS with 536 in *.
  set (used := if 0 <? over then Z.min over (zlen arg) else 0). assert (used = Z.min over (zlen arg)) as Hused by (subst used; destruct (Z.ltb_spec 0 over); lia). clearbody used.
  rewrite (u16_id (lim - (x.2 + 0))) by (unfold is_u16; lia). rewrite u16_id by (unfold is_u16; lia). rewrite lwip_assert_bind by lia.
  destruct ((used <? zlen arg) && _ && _) eqn:Eb.
  2: { eexists _, t. split; [reflexivity|]. split; [apply env_only_refl|]. split; cbn; try lia. }
  assert (used < zlen arg /\ 0 < lim - (x.2 + 0) - used) as [Hb1 Hb2] by lia. set (seglen := Z.min _ _). assert (1 <= seglen) by lia.
  destruct (has fl TCP_WRITE_FLAG_COPY).
  - destruct (prealloc_ok t seglen (lim - (x.2 + 0) - used) fl true) as (r & t' & E1 & Ht & Hr); [lia|change TCP_MSS with 536; lia|].
    rewrite (bind_done _ _ _ _ _ E1). eexists _, t'. split; [reflexivity|]. split; [done|]. destruct r as [o|]; cbn; [|done].
    split; cbn; try lia; try done. rewrite u16_id by (unfold is_u16; lia). replace (used + seglen - used) with seglen by lia. change TCP_SND_QUEUELEN with 40. split; [lia|]. split; [done|]. lia.
  - destruct (take_ok alloc_rom t) as (b & t' & E1 & Ht). rewrite (bind_done _ _ _ _ _ E1). eexists _, t'. split; [reflexivity|]. split; [done|]. destruct b; [|done].
    split; cbn; try lia. rewrite u16_id by (unfold is_u16; lia). replace (used + seglen - used) with seglen by lia. change TCP_SND_QUEUELEN with 40. split; [lia|]. split; [done|]. lia.
Qed.

Lemma append_to_last_ok c d : c <> [] -> concat (append_to_last c d) = concat c ++ d /\ zlen (append_to_last c d) = zlen c.
Proof.
  intros Hc. destruct (exists_last_inv c) as [->|(c0 & b & ->)]; [done|]. unfold append_to_last. rewrite last_snoc, removelast_last.
  rewrite !concat_app, !zlen_app. cbn. by rewrite !app_nil_r, app_assoc.
Qed.

(** The last segment with what is put behind it. *)
Lemma extended_ok lim len n copy over x L pl seg : carried lim seg x -> span_end x = L -> lim <= TCP_MSS -> plan_ok lim len n copy over (Some x) (bytes_of L len) pl ->
  carried lim (extended (bytes_of L len) pl seg) (x.1, x.2 + pos pl) /\ clen (extended (bytes_of L len) pl seg) - clen seg = queuelen pl - n.
Proof.
  intros Hx HL Hlim [P1 P2 P3 P4 [P5 P6]]. pose proof (ca_size _ _ _ _ Hx) as Hsz. pose proof (ca_clen _ _ _ _ Hx) as Hcl. change TCP_MSS with 536 in *.
  destruct Hx as [[(p & Hp & Hc) S2 S3 S4 S5] Hr Ho _ _]. cbn [fst snd] in *. unfold clen in *. rewrite Hp in Hcl. cbn in Hcl. assert (p <> []) as Hne by (by intros ->).
  set (u := oversize_used pl) in *.
  assert (exists p1 s1, (if 0 <? u then TcpSeg ((fun c => append_to_last c (slice 0 u (bytes_of L len))) <$> sg_p seg) (u16 (sg_len seg + u)) (sg_seqno seg) (sg_flags seg) (sg_opts seg) else seg) = s1 /\
    sg_p s1 = Some p1 /\ concat p1 = bytes_of x.1 (x.2 + u) /\ zlen p1 = zlen p /\ sg_len s1 = x.2 + u /\ sg_seqno s1 = sg_seqno seg /\ sg_flags s1 = sg_flags seg /\ sg_opts s1 = sg_opts seg) as
    (p1 & s1 & E1 & Hp1 & Hc1 & Hz1 & Hl1 & Hn1 & Hf1 & Ho1).
  { destruct (Z.ltb_spec 0 u).
    - exists (append_to_last p (slice 0 u (bytes_of L len))). eexists. split; [reflexivity|]. cbn. rewrite Hp. destruct (append_to_last_ok p (slice 0 u (bytes_of L len)) Hne) as [A1 A2].
      split; [done|]. rewrite A1, A2, Hc. assert (u <= pos pl) by (destruct (concat_p pl); lia). rewrite slice_stream, S2, Z.add_0_r by lia. split; [|split; [done|split; [apply u16_id; unfold is_u16; lia|done]]].
      rewrite bytes_of_app by lia. by rewrite <- HL.
    - exists p, seg. assert (u = 0) as -> by lia. rewrite !Z.add_0_r. repeat (split; [done|]). done. }
  unfold extended. fold u. rewrite E1. destruct (concat_p pl) as [d|].
  - destruct P6 as (-> & P7 & P8 & P9). rewrite slice_stream by lia. rewrite zlen_bytes_of by lia. cbn. rewrite Hp1, Hp. cbn. split; [|rewrite zlen_app, Hz1; change (zlen [bytes_of (L + u) (pos pl - u)]) with 1; lia].
    split; cbn; [split; cbn| | | |]; rewrite ?Hn1, ?Hf1, ?Ho1; try done; try lia.
    + eexists. split; [reflexivity|]. rewrite concat_app, Hc1. cbn. rewrite app_nil_r. replace (x.2 + pos pl) with ((x.2 + u) + (pos pl - u)) by lia.
      rewrite (bytes_of_app x.1 (x.2 + u) (pos pl - u)) by lia. by replace (x.1 + (x.2 + u)) with (L + u) by (unfold span_end in HL; lia).
    + rewrite Hl1, u16_id; [lia|unfold is_u16; lia].
    + unfold clen. cbn. rewrite zlen_app. pose proof (zlen_nonneg p1). change (zlen [bytes_of (L + u) (pos pl - u)]) with 1. lia.
  - destruct P6 as [P6 P7]. rewrite Hp1, Hp. cbn. split; [|lia]. split; cbn; [split; cbn| | | |]; rewrite ?Hn1, ?Hf1, ?Ho1; try done; try lia.
    + exists p1. split; [done|]. rewrite Hc1. f_equal. lia.
    + unfold clen. rewrite Hp1. cbn. lia.
Qed.

(** ** New segments *)

Lemma new_pbufs_ok t c fl lim over first : 1 <= zlen c <= lim -> lim <= TCP_MSS -> (has fl TCP_WRITE_FLAG_COPY = false -> over = 0) -> 0 <= over ->
  exists r t', new_pbufs c fl lim over first t = Done (r, t') /\ env_only t t' /\
    match r with
    | None => True
    | Some (ch, o) => concat ch = c /\ 1 <= zlen ch <= 2 /\ 0 <= o /\ zlen c + o <= lim /\ (has fl TCP_WRITE_FLAG_COPY = false -> o = 0)
    end.
Proof.
  intros Hc Hlim Hov Ho. unfold new_pbufs. destruct (has fl TCP_WRITE_FLAG_COPY).
  - destruct (prealloc_ok t (zlen c) lim fl first) as (r & t' & E1 & Ht & Hr); [lia|done|]. rewrite (bind_done _ _ _ _ _ E1). eexists _, t'. split; [reflexivity|]. split; [done|].
    destruct r as [o|]; cbn; [|done]. rewrite app_nil_r. repeat split; try lia; done.
  - rewrite Hov, lwip_assert_bind by done. destruct (take_ok alloc_rom t) as (b & t1 & E1 & Ht1). rewrite (bind_done _ _ _ _ _ E1). destruct b; [|by exists None, t1].
    destruct (take_ok (alloc_ram 0) t1) as (b & t2 & E2 & Ht2). rewrite (bind_done _ _ _ _ _ E2). eexists _, t2. split; [reflexivity|]. split; [by eapply env_only_trans|].
    destruct b; [|done]. cbn. rewrite app_nil_r. change (zlen [[]; c]) with 2. repeat split; try lia; done.
Qed.

Lemma new_segments_ok lim L len fl : 1 <= lim <= TCP_MSS -> 0 <= len < 2 ^ 16 ->
  forall fuel t queue lq over pos n y, Forall2 (carried lim) queue lq -> contig y lq (L + pos) -> 0 <= pos <= len -> 0 <= n <= TCP_SND_QUEUELEN -> TCP_SND_QUEUELEN + 2 <= n + Z.of_nat fuel ->
  0 <= over -> (has fl TCP_WRITE_FLAG_COPY = false -> over = 0 \/ pos = len) -> (forall x, list.last lq = Some x -> x.2 + over <= lim) ->
  exists r t', new_segments fuel (bytes_of L len) fl lim (u32 L) queue over pos n t = Done (r, t') /\ env_only t t' /\
    match r with
    | None => True
    | Some (queue', over', n') => exists k, let lq' := lq ++ k in Forall2 (carried lim) queue' lq' /\ contig y lq' (L + len) /\ n' - n = clens queue' - clens queue /\ 0 <= n' <= TCP_SND_QUEUELEN /\
        0 <= over' /\ (forall x, list.last lq' = Some x -> x.2 + over' <= lim) /\ (k = [] -> over' = over)
    end.
Proof.
  intros Hlim Hlen. change TCP_SND_QUEUELEN with 40. change TCP_MSS with 536 in *. induction fuel as [|fuel IH]; intros t queue lq over pos n y Hq Hc Hpos Hn Hf Ho Hrom Hlast; [lia|].
  cbn [new_segments]. rewrite zlen_bytes_of by lia. destruct (Z.ltb_spec pos len) as [Hlt|Hge].
  2: { eexists _, t. split; [reflexivity|]. split; [apply env_only_refl|]. exists []. cbv zeta. rewrite app_nil_r. assert (pos = len) as -> by lia. repeat (split; [done || lia|]). done. }
  cbv zeta. set (seglen := Z.min (len - pos) lim). assert (1 <= seglen <= lim /\ seglen <= len - pos) as [Hsl1 Hsl2] by lia. rewrite slice_stream by lia. clearbody seglen.
  destruct (new_pbufs_ok t (bytes_of (L + pos) seglen) fl lim over (bool_decide (queue = []))) as (r & t1 & E1 & Ht1 & Hr);
    [rewrite zlen_bytes_of; lia|change TCP_MSS with 536; lia|intros Hcp; destruct (Hrom Hcp); lia|lia|].
  rewrite (bind_done _ _ _ _ _ E1). destruct r as [[ch o]|]; [|by exists None, t1]. destruct Hr as (Hch & Hz & Ho1 & Ho2 & Ho3). rewrite zlen_bytes_of in Ho2 by lia.
  rewrite u16_id by (unfold is_u16; lia). destruct (_ || _) eqn:Eb; [by exists None, t1|].
  unfold tcp_create_segment. rewrite bind_assoc. destruct (take_ok alloc_seg t1) as (b & t2 & E2 & Ht2). rewrite (bind_done _ _ _ _ _ E2), ret_bind. destruct b; [|exists None, t2; split; [done|]; split; [by eapply env_only_trans|done]].
  set (s := TcpSeg (Some ch) (u16 (tot_len ch)) (u32 (u32 L + pos)) 0 0).
  assert (carried lim s (L + pos, seglen)) as Hs.
  { assert (tot_len ch = seglen) as Ht by (unfold tot_len; rewrite Hch; apply zlen_bytes_of; lia). split; cbn; [split; cbn| | | |]; try done; try lia.
    - by exists ch.
    - rewrite Ht. apply u16_id. unfold is_u16. lia.
    - apply u32_seq. auto with seq.
    - unfold clen. cbn. lia. }
  rewrite u16_id by (unfold is_u16; lia).
  destruct (IH t2 (queue ++ [s]) (lq ++ [(L + pos, seglen)]) o (pos + seglen) (n + zlen ch) y) as (r & t3 & E3 & Ht3 & Hr); try lia.
  - by apply Forall2_app; [|constructor].
  - apply contig_app. exists (L + pos). split; [done|]. split; [done|]. split; [cbn; lia|]. cbn. unfold span_end. cbn. lia.
  - apply orb_false_iff in Eb as [Eb _]. change TCP_SND_QUEUELEN with 40 in Eb. lia.
  - intros x. rewrite last_snoc. intros [= <-]. cbn. lia.
  - exists r, t3. split; [done|]. split; [eapply env_only_trans; [exact Ht1|by eapply env_only_trans]|].
    destruct r as [[[queue' over'] n']|]; [|done]. destruct Hr as (k & R1 & R2 & R3 & R4 & R5 & R6 & R7). exists ((L + pos, seglen) :: k). cbv zeta in *.
    rewrite <- app_assoc in R1, R2, R6. split; [done|]. split; [done|]. split; [|done]. rewrite clens_app in R3. cbn [clens] in R3. change (clen s) with (zlen ch) in R3. lia.
Qed.

(** ** tcp_write *)

Lemma on_last_snoc {A} (g : A -> A) l x : on_last g (l ++ [x]) = l ++ [g x].
Proof. unfold on_last. by rewrite last_snoc, removelast_last. Qed.

Lemma on_last_carried lim g l k : (forall seg x, carried lim seg x -> carried lim (g seg) x /\ clen (g seg) = clen seg) -> Forall2 (carried lim) l k ->
  Forall2 (carried lim) (on_last g l) k /\ clens (on_last g l) = clens l.
Proof.
  intros Hg Hl. destruct (exists_last_inv l) as [->|(l0 & s & ->)]; [by inversion Hl|]. apply Forall2_app_inv_l in Hl as (k0 & k1 & H1 & H2 & ->).
  inversion H2 as [|? x ? ? Hx Hn]; subst. inversion Hn; subst. destruct (Hg _ _ Hx) as [Hg1 Hg2]. rewrite on_last_snoc. split; [by apply Forall2_app; [|constructor]|].
  rewrite !clens_app. cbn [clens]. lia.
Qed.

(** The unsent queue behind the phases. *)
Lemma unsent_extended lim U N L la lu len s pl copy over queue lq psh : sendq s lim U N L la lu -> lim <= TCP_MSS ->
  plan_ok lim len (snd_queuelen s) copy over (list.last lu) (bytes_of L len) pl -> (forall x, list.last lu = Some x -> span_end x = L) ->
  Forall2 (carried lim) queue lq -> (forall seg x, carried lim seg x -> carried lim (psh seg) x /\ clen (psh seg) = clen seg) ->
  exists lu', Forall2 (carried lim) (on_last psh (on_last (extended (bytes_of L len) pl) (unsent s) ++ queue)) (lu' ++ lq) /\
    clens (on_last psh (on_last (extended (bytes_of L len) pl) (unsent s) ++ queue)) = clens (unsent s) + (queuelen pl - snd_queuelen s) + clens queue /\
    (lu = [] /\ lu' = [] /\ pos pl = 0 \/ exists l x, lu = l ++ [x] /\ lu' = l ++ [(x.1, x.2 + pos pl)]).
Proof.
  intros Hq Hlim Hpl HL Hlq Hpsh. pose proof (sq_unsent _ _ _ _ _ _ _ _ Hq) as Hu.
  destruct (exists_last_inv lu) as [->|(l & x & ->)].
  - inversion Hu as [E1|]. destruct Hpl as [_ _ _ _ (P1 & P2 & P3 & P4 & _)]. exists []. cbn [on_last list.last app]. change (on_last (extended (bytes_of L len) pl) []) with (@nil tcp_seg). cbn [app].
    destruct (on_last_carried lim psh queue lq Hpsh Hlq) as [C1 C2]. rewrite C2. cbn [clens]. split; [done|]. split; [lia|]. by left.
  - rewrite last_snoc in *. apply Forall2_app_inv_r in Hu as (k & k1 & H1 & H2 & E1). inversion H2 as [|seg ? ? ? Hx Hn]; subst. inversion Hn; subst. rewrite E1.
    destruct (extended_ok lim len (snd_queuelen s) copy over x L pl seg Hx (HL x eq_refl) Hlim Hpl) as [X1 X2].
    exists (l ++ [(x.1, x.2 + pos pl)]). rewrite on_last_snoc.
    assert (Forall2 (carried lim) ((k ++ [extended (bytes_of L len) pl seg]) ++ queue) ((l ++ [(x.1, x.2 + pos pl)]) ++ lq)) as Hall by (apply Forall2_app; [apply Forall2_app; [done|by constructor]|done]).
    destruct (on_last_carried lim psh _ _ Hpsh Hall) as [C1 C2]. split; [done|]. rewrite C2, !clens_app. cbn [clens]. split; [lia|]. right. by exists l, x.
Qed.

Lemma contig_last x l y z : contig x (l ++ [y]) z -> span_end y = z.
Proof. intros (w & _ & _ & _ & Hz)%contig_app. exact Hz. Qed.

(** Nothing but the memory and TF_NAGLEMEMERR changes. *)
Lemma sends_quiet t t' mid S0 U N L la lu o : quiet t t' -> snd_q (the_pcb t') = snd_q (the_pcb t) -> sends mid (the_pcb t) S0 U N L la lu o -> sends mid (the_pcb t') S0 U N L la lu o.
Proof.
  intros [Q1 Q2 Q3 Q4 Q5 Q6 Q7 Q8 Q9] Hs [V1 V2 V3 V4 V5 []]. split; unfold limit in *; rewrite ?Hs, ?Q2, ?Q3; try done.
  - destruct mid; [|done]. destruct V2 as (x & l & H1 & H2 & H3 & H4 & H5). exists x, l. by rewrite Q7, Q4, Q2.
  - split; by rewrite ?Q2, ?Q3, ?Q4, ?Q5, ?Q7.
Qed.

Lemma write_checks_ok t S0 U N L la lu o len : receiving t -> sends false (the_pcb t) S0 U N L la lu o -> 0 <= len ->
  (exists t', tcp_write_checks len t = Done (ERR_MEM, t') /\ snd_q (the_pcb t') = snd_q (the_pcb t)) \/
  tcp_write_checks len t = Done (ERR_OK, t) /\ (len = 0 \/ len <= snd_buf (snd_q (the_pcb t)) /\ snd_queuelen (snd_q (the_pcb t)) < TCP_SND_QUEUELEN).
Proof.
  intros Hrec Hs Hlen. unfold tcp_write_checks, get_pcb. rewrite bind_assoc, get_bind, ret_bind. cbv zeta. assert (bool_decide (state (the_pcb t) = ESTABLISHED) || bool_decide (state (the_pcb t) = CLOSE_WAIT) = true) as Hst by (by destruct Hrec as [-> | ->]).
  rewrite Hst. cbn [negb orb]. destruct (Z.eqb_spec len 0); [by right; split; [|left]|]. destruct (Z.ltb_spec (snd_buf (snd_q (the_pcb t))) len); [left; eexists; by split|].
  destruct (queue_too_long _) eqn:Eq; [left; eexists; by split|]. right. rewrite lwip_assert_bind by (by eapply sendq_checked; apply Hs). split; [done|]. right. split; [done|].
  apply orb_false_iff in Eq as [Eq _]. lia.
Qed.

Lemma memerr_ok t lim U N L la lu : sendq (snd_q (the_pcb t)) lim U N L la lu -> exists t', memerr t = Done (ERR_MEM, t') /\ snd_q (the_pcb t') = snd_q (the_pcb t).
Proof.
  intros Hq. unfold memerr, set_flag, on_pcb. rewrite modify_bind. set (t1 := set_pcb _ t).
  rewrite (bind_done _ _ _ _ _ (valid_queue_ok f t1 lim U N L la lu Hq)). by exists t1.
Qed.

(** The sender's part of the PCB behind a write. *)
Definition written (len : Z) (pl : tail_plan) (queue : list tcp_seg) (over n : Z) (psh : tcp_seg -> tcp_seg) (arg : bytes) (s : tcp_snd) : tcp_snd :=
  TcpSnd (snd_nxt s) (lastack s) (u32 (snd_lbb s + len)) (acked s) (u16 (snd_buf s - len)) n over
    (on_last psh (on_last (extended arg pl) (unsent s) ++ queue)) (unacked s).

Lemma written_ok s lim U N L la lu len copy pl queue lq over n psh x0 : sendq s lim U N L la lu -> contig x0 (la ++ lu) L -> 1 <= lim <= TCP_MSS -> 0 <= len ->
  (len = 0 \/ len <= snd_buf s) -> plan_ok lim len (snd_queuelen s) copy (unsent_oversize s) (list.last lu) (bytes_of L len) pl ->
  Forall2 (carried lim) queue lq -> contig (L + pos pl) lq (L + len) -> n - queuelen pl = clens queue -> n <= TCP_SND_QUEUELEN -> 0 <= over ->
  (forall x, list.last lq = Some x -> x.2 + over <= lim) -> (lq = [] -> over = oversize pl) ->
  (forall seg x, carried lim seg x -> carried lim (psh seg) x /\ clen (psh seg) = clen seg) ->
  exists lu', sendq (written len pl queue over n psh (bytes_of L len) s) lim U N (L + len) la lu' /\ contig x0 (la ++ lu') (L + len) /\
    (fresh U (la ++ lu) -> U <= L -> (la ++ lu = [] -> U = L) -> fresh U (la ++ lu')) /\ (lu' = [] -> over = 0).
Proof.
  intros Hq Hc Hlim Hlen Hbuf Hpl Hlq Hcq Hn Hn2 Ho Hlast Hempty Hpsh.
  destruct (unsent_extended lim U N L la lu len s pl copy _ queue lq psh Hq ltac:(lia) Hpl) as (lu0 & U1 & U2 & U3).
  { intros x Hx. destruct (exists_last_inv lu) as [->|(l & y & ->)]; [done|]. rewrite last_snoc in Hx. injection Hx as <-. rewrite app_assoc in Hc. by eapply contig_last. }
  all: auto. pose proof Hq as [H1 H2 H3 H4 H5 H6 H7 H8 [H9 H9'] [H10 H10'] H11]. change TCP_SND_BUF with 6432 in *. pose proof (pn_pos _ _ _ _ _ _ _ _ Hpl) as Hpos.
  assert (forall x, list.last (lu0 ++ lq) = Some x -> x.2 + over <= lim) as Hov.
  { intros x Hx. destruct (exists_last_inv lq) as [->|(lq1 & z & ->)]; [|apply Hlast; rewrite app_assoc, last_snoc in Hx; by rewrite last_snoc].
    rewrite app_nil_r in Hx. rewrite Hempty by done. destruct U3 as [(-> & -> & _)|(l & y & -> & ->)]; [done|]. rewrite last_snoc in Hx. injection Hx as <-.
    destruct Hpl as [_ _ _ _ Hp]. rewrite last_snoc in Hp. cbn. lia. }
  exists (lu0 ++ lq). split; [|split; [|split]].
  - unfold written. split; cbn; try done; rewrite ?H3; try (change TCP_SND_BUF with 6432; lia).
    + apply u32_seq. auto with seq.
    + change TCP_SND_BUF with 6432. rewrite u16_id; [lia|unfold is_u16; lia].
  - destruct U3 as [(-> & -> & Hp)|(l & y & -> & ->)].
    + rewrite app_nil_r in Hc. cbn [app]. apply contig_app. exists L. split; [done|]. by rewrite Hp, Z.add_0_r in Hcq.
    + rewrite <- app_assoc. apply contig_app in Hc as (z & Hc1 & Hc2). apply contig_app. exists z. split; [done|].
      apply contig_app in Hc2 as (w & Hc2 & <- & Hy & Hc3). apply contig_app. exists y.1. split; [done|]. cbn. split; [done|]. split; [lia|]. unfold span_end in *. cbn in *. by replace (y.1 + (y.2 + pos pl)) with (L + pos pl) by lia.
  - intros Hf HUL Hnil. destruct la as [|a la]; [|done]. cbn [app] in *. destruct U3 as [(-> & -> & Hp)|(l & y & -> & ->)]; cbn [app] in *.
    + rewrite Hnil by done. rewrite Hp, Z.add_0_r in Hcq. destruct lq as [|z lq]; [done|]. destruct Hcq as (<- & Hz & _). cbn. unfold span_end. lia.
    + destruct l as [|b l]; [|done]. cbn in *. unfold span_end in *. cbn. lia.
  - intros Hnil. apply app_nil in Hnil as [-> ->]. rewrite Hempty by done. destruct U3 as [(-> & _ & _)|(l & y & _ & Hl)]; [|by destruct l]. by destruct Hpl as [_ _ _ _ (_ & _ & _ & _ & ?)].
Qed.

Lemma env_only_pcb t t' : env_only t t' -> the_pcb t' = the_pcb t.
Proof. by intros [e ->]. Qed.

(** A run of tcp_write: it gives up, or it is as planned. *)
Lemma write_run t lim S0 U N L la lu o len fl : receiving t -> sends false (the_pcb t) S0 U N L la lu o -> 0 <= len -> lim = limit (the_pcb t) -> 1 <= lim <= TCP_MSS ->
  (exists t', tcp_write (Some (bytes_of L len)) fl t = Done (ERR_MEM, t') /\ snd_q (the_pcb t') = snd_q (the_pcb t)) \/
  exists t' pl queue over n (psh : tcp_seg -> tcp_seg) lq, tcp_write (Some (bytes_of L len)) fl t = Done (ERR_OK, t') /\
    snd_q (the_pcb t') = written len pl queue over n psh (bytes_of L len) (snd_q (the_pcb t)) /\
    (len = 0 \/ len <= snd_buf (snd_q (the_pcb t))) /\
    plan_ok lim len (snd_queuelen (snd_q (the_pcb t))) (has fl TCP_WRITE_FLAG_COPY) (unsent_oversize (snd_q (the_pcb t))) (list.last lu) (bytes_of L len) pl /\
    Forall2 (carried lim) queue lq /\ contig (L + pos pl) lq (L + len) /\ n - queuelen pl = clens queue /\ n <= TCP_SND_QUEUELEN /\ 0 <= over /\
    (forall x, list.last lq = Some x -> x.2 + over <= lim) /\ (lq = [] -> over = oversize pl) /\
    (forall seg x, carried lim seg x -> carried lim (psh seg) x /\ clen (psh seg) = clen seg).
Proof.
  intros Hrec Hs Hlen Elim Hlim. pose proof (sn_q _ _ _ _ _ _ _ _ _ _ Hs) as Hq. rewrite <- Elim in Hq. pose proof Hq as [H1 H2 H3 H4 H5 H6 H7 H8 [H9 H9'] H10 H11].
  pose proof (clens_nonneg (unacked (snd_q (the_pcb t)))). pose proof (clens_nonneg (unsent (snd_q (the_pcb t)))).
  unfold tcp_write. rewrite ret_bind. unfold get_pcb. rewrite bind_assoc, get_bind, ret_bind. cbv zeta. rewrite zlen_bytes_of by done.
  change (Z.min (mss (the_pcb t)) (snd_wnd_max (win (the_pcb t)) / 2)) with (limit (the_pcb t)). rewrite <- Elim.
  destruct (write_checks_ok t S0 U N L la lu o len Hrec Hs Hlen) as [(t' & E1 & Q1)|[E1 Hck]]; rewrite (bind_done _ _ _ _ _ E1); cbn [Z.eqb negb ERR_OK ERR_MEM]; [left; by exists t'|].
  destruct (extend_last_ok t lim U N L la lu (bytes_of L len) fl _ Hq (sn_over _ _ _ _ _ _ _ _ _ _ Hs) Hlim eq_refl) as (r & t1 & E2 & Ht1 & Hpl); [rewrite zlen_bytes_of by done; destruct Hck as [?|[_ ?]]; [by left|by right]|].
  rewrite (bind_done _ _ _ _ _ E2). rewrite zlen_bytes_of in Hpl by done.
  assert (forall t2, env_only t t2 -> exists t', memerr t2 = Done (ERR_MEM, t') /\ snd_q (the_pcb t') = snd_q (the_pcb t)) as Herr.
  { intros t2 Ht2. rewrite <- (env_only_pcb _ _ Ht2). apply (memerr_ok t2 lim U N L la lu). by rewrite (env_only_pcb _ _ Ht2). }
  destruct r as [pl|]; [|left; by apply Herr]. rewrite H3. assert (0 <= len < 2 ^ 16) as Hlen2 by (change TCP_SND_BUF with 6432 in *; lia).
  assert (0 <= queuelen pl <= TCP_SND_QUEUELEN) as Hqn.
  { destruct Hpl as [_ _ _ _ Hp]. destruct (list.last lu); [|lia]. destruct Hp as [_ Hp]. destruct (concat_p pl); lia. }
  destruct (new_segments_ok lim L len fl Hlim Hlen2 (Z.to_nat (TCP_SND_QUEUELEN + 2)) t1 [] [] (oversize pl) (pos pl) (queuelen pl) (L + pos pl)) as (r & t2 & E3 & Ht2 & Hr);
    [constructor|done|apply Hpl|done|lia|apply Hpl|apply Hpl|done|].
  rewrite (bind_done _ _ _ _ _ E3). destruct r as [[[queue over] n]|]; [|left; apply Herr; by eapply env_only_trans].
  destruct Hr as (lq & R1 & R2 & R3 & R4 & R5 & R6 & R7). cbn [app clens] in R1, R2, R3, R6. right. set (psh := set_seg_flags _).
  assert (forall seg x, carried lim seg x -> carried lim (psh seg) x /\ clen (psh seg) = clen seg) as Hpsh.
  { intros seg x Hx. split; [|done]. apply carried_flags; [|done]. intros m Hm. destruct (_ && _); [|done]. apply has_set_other. by destruct Hm as [->|[-> | ->]]. }
  clearbody psh. unfold on_snd, on_pcb. rewrite modify_bind. set (t3 := set_pcb _ t2).
  assert (the_pcb t2 = the_pcb t) as Hp2 by (apply env_only_pcb; by eapply env_only_trans).
  assert (snd_q (the_pcb t3) = written len pl queue over n psh (bytes_of L len) (snd_q (the_pcb t))) as Q3 by (subst t3; unfold written; cbn; by rewrite Hp2).
  destruct (sn_contig _ _ _ _ _ _ _ _ _ _ Hs) as (x0 & _ & Hc). pose proof (sn_order _ _ _ _ _ _ _ _ _ _ Hs) as Ho. cbn in Ho. subst o.
  assert (len = 0 \/ len <= snd_buf (snd_q (the_pcb t))) as Hfit by (destruct Hck as [?|[? _]]; [by left|by right]).
  assert (n - queuelen pl = clens queue) as Hn1 by lia. assert (n <= TCP_SND_QUEUELEN) as Hn2 by lia.
  destruct (written_ok (snd_q (the_pcb t)) lim U N L la lu len (has fl TCP_WRITE_FLAG_COPY) pl queue lq over n psh x0 Hq Hc Hlim Hlen Hfit Hpl R1 R2 Hn1 Hn2 R5 R6 R7 Hpsh) as (lu' & Hq3 & _).
  rewrite <- Q3 in Hq3. rewrite (bind_done _ _ _ _ _ (valid_queue_ok f t3 lim U N (L + len) la lu' Hq3)).
  exists t3, pl, queue, over, n, psh, lq. do 11 (split; [assumption || reflexivity|]). exact Hpsh.
Qed.

(** tcp_write puts everything on the queue, or nothing. *)
Lemma tcp_write_ok t S0 U N L la lu o len fl : receiving t -> sends false (the_pcb t) S0 U N L la lu o -> 0 <= len ->
  exists r t' L' lu', tcp_write (Some (bytes_of L len)) fl t = Done (r, t') /\ quiet t t' /\ sends false (the_pcb t') S0 U N L' la lu' (la ++ lu') /\
    (r = ERR_OK /\ L' = L + len \/ r = ERR_MEM /\ L' = L /\ snd_q (the_pcb t') = snd_q (the_pcb t)).
Proof.
  intros Hrec Hs Hlen. pose proof (sn_q _ _ _ _ _ _ _ _ _ _ Hs) as Hq. pose proof (sn_order _ _ _ _ _ _ _ _ _ _ Hs) as Ho. cbn in Ho. subst o.
  assert (1 <= limit (the_pcb t) <= TCP_MSS) as Hlim.
  { destruct Hs as [_ _ _ _ _ [V1 V2 V3 V4 V5 V6 V7 V8 V9 V10]]. unfold limit. change TCP_MSS with 536 in *. Z.div_mod_to_equations. lia. }
  destruct (write_run t _ S0 U N L la lu _ len fl Hrec Hs Hlen eq_refl Hlim) as [(t' & E1 & Q1)|(t' & pl & queue & over & n & psh & lq & E1 & Q1 & W1 & W2 & W3 & W4 & W5 & W6 & W7 & W8 & W9 & W10)];
    pose proof (write_quiet _ _ _ _ _ E1) as Hqt.
  - exists ERR_MEM, t', L, lu. split; [done|]. split; [done|]. split; [by apply (sends_quiet t)|]. by right.
  - destruct (sn_contig _ _ _ _ _ _ _ _ _ _ Hs) as (x0 & Hx0 & Hc).
    destruct (written_ok (snd_q (the_pcb t)) (limit (the_pcb t)) U N L la lu len (has fl TCP_WRITE_FLAG_COPY) pl queue lq over n psh x0 Hq Hc Hlim Hlen W1 W2 W3 W4 W5 W6 W7 W8 W9 W10) as (lu' & Hq3 & Hc3 & Hf3 & Ho3).
    exists ERR_OK, t', (L + len), lu'. split; [done|]. split; [done|]. split; [|by left]. pose proof Hqt as [Q21 Q22 Q23 Q24 Q25 Q26 Q27 Q28 Q29]. pose proof (sq_pos _ _ _ _ _ _ _ _ Hq) as [Hp _].
    split; [rewrite Q1; unfold limit in *; rewrite Q22, Q23; exact Hq3|done|by exists x0| | |].
    + apply Hf3; [apply Hs|lia|]. intros Hnil. rewrite Hnil in Hc. cbn in Hc. lia.
    + rewrite Q1. intros Hnil. apply Ho3. pose proof (sq_unsent _ _ _ _ _ _ _ _ Hq3) as Hu. rewrite Hnil in Hu. by inversion Hu.
    + destruct (sn_sane _ _ _ _ _ _ _ _ _ _ Hs). split; by rewrite ?Q22, ?Q23, ?Q24, ?Q25, ?Q27.
Qed.
End write.
