(* ===== verification/TcpReceive.v ===== *)
(** * TCP: what recv_text does with a segment of the stream

    In sequence or not, in front of the window or in it, overlapping what is queued or not. *)

From S2P Require Import Prelude TcpPcb TcpRecv TcpStream TcpRecvSpec TcpInseq.

Section stream.
Context (f : Z -> Z) (fin : option Z).

#[local] Abbreviation seg_is := (TcpStream.seg_is f).

#[local] Abbreviation piece_ok := (TcpStream.piece_ok fin).

#[local] Abbreviation queue_ok := (TcpStream.queue_ok fin).

#[local] Abbreviation taken := (TcpRecvSpec.taken f fin).

Section segment.
Context {E : Type} `{TcpHost E}.

Implicit Types (t : tcp E).

(** How far what is queued may reach. *)
Definition reach (R W A : Z) : Z := Z.min (R + W) (A + 1).

Lemma taken_edge t t' R R' W A A' l : taken t t' R R' W A l -> forall t2, window t2 R' (W - (R' - R)) A' -> ooseq (rcv (the_pcb t2)) = ooseq (rcv (the_pcb t')) ->
  the_in t2 = the_in t' -> state (the_pcb t2) = state (the_pcb t') -> taken t t2 R R' W A' l.
Proof. intros [H1 H2 H3 H4 H5 H6] t2 Hw Ho Hi Hs. split; rewrite ?Ho, ?Hi, ?Hs; done. Qed.

Lemma recv_ooseq_ok t R W A s n b l : window t R W A -> arrived f t R s n b -> no_straddle t s n b -> piece_ok (s, n, b) -> R < s ->
  piece_end (s, n, b) <= reach R W A -> Forall2 seg_is (ooseq (rcv (the_pcb t))) l -> queue_ok (R + 1) (reach R W A) l ->
  exists t' A' l', recv_ooseq t = Done (tt, t') /\ taken t t' R R W A' l' /\ A <= A' /\ queue_ok (R + 1) (reach R W A) l'.
Proof.
  intros Hw Ha Hst Hok Hs He Hsegs Hq. unfold recv_ooseq. destruct (send_empty_ack_ok t R W A Hw) as (r & t1 & A1 & E1 & Hw1 & HA1 & Ho1 & Hi1 & Hs1).
  rewrite (bind_done _ _ _ _ _ E1), get_bind, Ho1. pose proof (wi_range _ _ _ _ Hw). unfold reach in *.
  assert (arrived f t1 R s n b) as Ha1 by (destruct Ha; split; rewrite ?Hi1; try done; apply Hw1).
  assert (no_straddle t1 s n b) as Hst1 by (unfold no_straddle in *; by rewrite (wi_nxt _ _ _ _ Hw1), (wi_wnd _ _ _ _ Hw1), <- (wi_nxt _ _ _ _ Hw), <- (wi_wnd _ _ _ _ Hw)).
  assert (forall t2 k kl, env_only t1 t2 -> Forall2 seg_is k kl -> queue_ok (R + 1) (Z.min (R + W) (A + 1)) kl ->
    exists t' A' l', on_rcv (set_ooseq k) t2 = Done (tt, t') /\ taken t t' R R W A' l' /\ A <= A' /\ queue_ok (R + 1) (Z.min (R + W) (A + 1)) l') as Hend.
  { intros t2 k kl [e2 ->] Hk Hkl. eexists _, A1, kl. split; [reflexivity|]. split; [|done].
    apply (taken_edge t (set_pcb (set_rcv (set_ooseq k)) t1) R R W A1); [|by apply (window_rcv t1); [..|replace (W - (R - R)) with W by lia]|done|done|done].
    pose proof (taken_refl f fin (set_pcb (set_rcv (set_ooseq k)) t1) R W A1 kl) as Hr. destruct Hr as [X1 X2 X3 X4 X5 X6]; [by apply (window_rcv t1)|done|].
    split; try done; cbn in *; rewrite Hi1 in *; try done. by left. }
  destruct (ooseq (rcv (the_pcb t))) as [|sg sgs] eqn:Eo.
  - destruct (tcp_seg_copy_ok t1) as (c & t2 & E2 & Ht2 & Hc). rewrite (bind_done _ _ _ _ _ E2).
    destruct Hc as [->| ->]; [by apply (Hend t2 [] [])|]. apply (Hend t2 _ [(s, n, b)]); [done|by constructor; [apply Ha1|]|].
    split; [cbn; lia|]. done.
  - inversion Hsegs as [|? x ? l' Hx Hl]; subst. destruct (oos_walk_ok (f := f) (fin := fin) (Z.min (R + W) (A + 1)) (x :: l') [] None (sg :: sgs) t1 R (R + 1) s n b)
      as (k & t2 & kl & E2 & Ht2 & Hk & Hkl); [done|done|done|done|done|done|done|lia|lia|by intros ? ?%elem_of_nil|by left|].
    rewrite (bind_done _ _ _ _ _ E2). by apply (Hend t2 k kl).
Qed.

(** A segment of the stream: what may be outside of the window, what the sender may do. *)
Record segment_ok t (R W A s n : Z) (b : bool) : Prop := SegmentOk {
  so_piece : piece_ok (s, n, b);
  so_len : n < 0x7fff;
  so_old : - 2 ^ 30 < s - R;
  so_announced : piece_end (s, n, b) <= A + 1;
  so_window : R < s -> piece_end (s, n, b) <= R + W /\ no_straddle t s n b
}.

Lemma recv_text_ok t R W A s n b l : window t R W A -> arrived f t R s n b -> segment_ok t R W A s n b -> state_num (state (the_pcb t)) < state_num CLOSE_WAIT ->
  recv_data (the_in t) = None -> Forall2 seg_is (ooseq (rcv (the_pcb t))) l -> queue_ok (R + 1) (reach R W A) l ->
  exists t' R' A' l', recv_text t = Done (tt, t') /\ taken t t' R R' W A' l' /\ A <= A' /\ queue_ok (R' + 1) (reach R W A') l' /\
    (s <= R -> Z.min (piece_end (s, n, b)) (R + W) <= Z.max R R').
Proof.
  intros Hw Ha [Hok Hn Hold Hann Hwin] Hst Hnone Hsegs Hq. pose proof Hok as (Hn0 & Hn1 & _). pose proof (wi_range _ _ _ _ Hw) as HW.
  unfold piece_end, reach in *. cbn [fst snd] in *. assert (0 <= fin_len b <= 1) by (destruct b; cbn; lia). pose proof (wi_near _ _ _ _ Hw). pose proof (wi_right _ _ _ _ Hw). pose proof (wi_ann _ _ _ _ Hw).
  unfold recv_text. rewrite get_bind. cbv zeta. rewrite (ar_tcplen _ _ _ _ _ Ha). destruct (Z.ltb_spec 0 (n + fin_len b)) as [_|]; [|lia].
  rewrite (proj2 (Z.ltb_lt _ _)) by done. cbn [andb].
  destruct (trim_edge_ok f fin t R s n b) as (t1 & x & E1 & K1 & Hh1 & Hok1 & Hnew & Holds & Hsame);
    [split; apply Ha|apply Ha|done|apply Hw|lia|done|]. rewrite (bind_done _ _ _ _ _ E1), get_bind.
  pose proof (keeps_window _ _ _ _ _ K1 Hw) as Hw1. rewrite (wi_nxt _ _ _ _ Hw1), (wi_wnd _ _ _ _ Hw1), (proj1 Hh1).
  assert (Forall2 seg_is (ooseq (rcv (the_pcb t1))) l) as Hsegs1 by (by rewrite (kp_rcv _ _ K1)).
  assert (recv_data (the_in t1) = None) as Hnone1 by (by rewrite (kp_data _ _ K1)).
  assert (- 2 ^ 30 < x.1.1 - R < 2 ^ 17) as Hx.
  { destruct (Z_lt_ge_dec s R) as [Hlt|Hge]; [|destruct (Hsame ltac:(lia)) as [-> _]; cbn; lia].
    destruct (Z_lt_ge_dec R (s + n + fin_len b)) as [Hov|Hno]; [rewrite Hnew by lia; cbn; lia|]. rewrite Holds by lia. lia. }
  rewrite (seq_between _ _ _ x.1.1 R (R + W - 1)) by (auto with seq || lia).
  (* Nothing is taken, and the window is told. *)
  assert (forall t2, keeps t t2 -> window t2 R W A -> exists t' A', (tcp_send_empty_ack;; mret tt) t2 = Done (tt, t') /\ taken t t' R R W A' l /\ A <= A') as Hack.
  { intros t2 K2 Hw2. destruct (send_empty_ack_ok t2 R W A Hw2) as (r & t3 & A3 & E3 & Hw3 & HA3 & Ho3 & Hi3 & Hs3). exists t3, A3.
    rewrite (bind_done _ _ _ _ _ E3). split; [done|]. split; [|done]. split; [by replace (W - (R - R)) with W by lia|lia| | | |].
    - by rewrite Ho3, (kp_rcv _ _ K2).
    - rewrite Hi3. unfold data_of. rewrite (kp_data _ _ K2), Z.sub_diag. unfold bytes_of. cbn. by rewrite app_nil_r.
    - by rewrite Hi3, (kp_flags _ _ K2), andb_negb_r, orb_false_r.
    - left. by rewrite Hs3, (kp_state _ _ K2). }
  destruct (Z.leb_spec R x.1.1) as [Hge|Hlt]; cbn [andb].
  2:{ destruct (Hack t1 K1 Hw1) as (t' & A' & E' & Htk & HA'). exists t', R, A', l. split; [done|]. split; [done|]. split; [done|].
      split; [apply (queue_e (Z.min (R + W) (A + 1))); [lia|done]|]. intros HsR.
      destruct (Z_lt_ge_dec s R) as [Hs|Hs]; [|destruct (Hsame ltac:(lia)) as [-> _]; cbn in Hlt; lia].
      destruct (Z_lt_ge_dec R (s + n + fin_len b)) as [Hov|Hno]; [rewrite Hnew in Hlt by lia; cbn in Hlt; lia|lia]. }
  destruct (Z.leb_spec x.1.1 (R + W - 1)) as [Hin|Hout].
  2:{ destruct (Hack t1 K1 Hw1) as (t' & A' & E' & Htk & HA'). exists t', R, A', l. split; [done|]. split; [done|]. split; [done|].
      split; [apply (queue_e (Z.min (R + W) (A + 1))); [lia|done]|]. intros HsR.
      destruct (Z_lt_ge_dec s R) as [Hs|Hs]; [|destruct (Hsame ltac:(lia)) as [-> _]; cbn in Hout; lia].
      destruct (Z_lt_ge_dec R (s + n + fin_len b)) as [Hov|Hno]; [rewrite Hnew in Hout by lia; cbn in Hout; lia|lia]. }
  rewrite seq_eqb by lia. destruct (Z.eqb_spec R x.1.1) as [Heq|Hne].
  - (* In sequence *)
    assert (exists n', x = (R, n', b) /\ R + n' = s + n /\ n' <= n) as (n' & -> & Hn' & Hle).
    { destruct (Z_lt_ge_dec s R) as [Hs|Hs].
      - destruct (Z_lt_ge_dec R (s + n + fin_len b)) as [Hov|Hno]; [exists (s + n - R); split; [by apply Hnew|lia]|]. rewrite Holds in Heq by lia. lia.
      - destruct (Hsame ltac:(lia)) as [-> _]. cbn in Heq. subst s. exists n. split; [done|lia]. }
    destruct (recv_inseq_ok f fin (Z.min (R + W) (A + 1)) l t1 R W A n' b Hw1 Hh1 Hok1) as (t' & R' & l' & E' & Htk & Hq' & HR'); [lia|lia|done|done|done|lia|lia|lia|].
    exists t', R', A, l'. split; [exact E'|]. split; [|split; [lia|]].
    + destruct Htk as [X1 X2 X3 X4 X5 X6]. split; try done.
      * rewrite X4. unfold data_of. by rewrite (kp_data _ _ K1).
      * by rewrite X5, (kp_flags _ _ K1).
      * by rewrite <- (kp_state _ _ K1).
    + split; [done|]. intros _. lia.
  - (* Out of sequence *)
    assert (x = (s, n, b) /\ t1 = t /\ R < s) as (-> & -> & HRs).
    { destruct (Z_lt_ge_dec s R) as [Hs|Hs].
      - destruct (Z_lt_ge_dec R (s + n + fin_len b)) as [Hov|Hno]; [rewrite Hnew in Hne by lia; done|]. rewrite Holds in Hge by lia. lia.
      - destruct (Hsame ltac:(lia)) as [-> ->]. cbn in Hne. split; [done|]. split; [done|lia]. }
    destruct (Hwin HRs) as [Hwe Hns].
    destruct (recv_ooseq_ok t R W A s n b l Hw Ha Hns Hok HRs) as (t' & A' & l' & E' & Htk & HA' & Hq'); [unfold piece_end, reach; cbn; lia|done|done|].
    exists t', R, A', l'. split; [exact E'|]. split; [done|]. split; [done|]. split; [apply (queue_e (Z.min (R + W) (A + 1))); [lia|done]|]. lia.
Qed.
End segment.
End stream.
