(* ===== verification/TcpInput.v ===== *)
(** * TCP: a segment for an open connection

    tcp_input from the PCB on: the acknowledgement goes to the sender, the text to
    recv_text, the application is told what came, and output follows. *)

From S2P Require Import Prelude TcpPcb TcpRecv TcpOut TcpAck TcpProcess TcpStream TcpRecvSpec TcpInseq TcpFrame TcpSend TcpAckSpec TcpFlush.

(** tcp_parseopt returns for any options, and the MSS is one it can work with. *)
Lemma parse_opts_ok opts : is_bytes opts -> forall fuel c m, 0 <= c -> (Z.to_nat (zlen opts - c) < fuel)%nat ->
  exists m', parse_opts fuel opts c m = Done m' /\ (m' = m \/ 1 <= m' <= TCP_MSS).
Proof.
  intros Ho. assert (forall k, 0 <= default 0 (opts !! k) < 2 ^ 8) as Hb.
  { intros k. destruct (opts !! k) as [x|] eqn:Ek; [|done]. apply (Forall_lookup_1 _ _ _ _ Ho Ek). }
  induction fuel as [|fuel IH]; intros c m Hc Hf; [lia|]. cbn [parse_opts]. cbv zeta.
  destruct (Z.ltb_spec c (zlen opts)) as [Hlt|]; [|exists m; by split; [|left]].
  assert (forall x d, 1 <= d -> (x = m \/ 1 <= x <= TCP_MSS) -> exists m', parse_opts fuel opts (c + d) x = Done m' /\ (m' = m \/ 1 <= m' <= TCP_MSS)) as Hgo.
  { intros x d Hd Hx. destruct (IH (c + d) x) as (m' & E1 & Hm'); [lia|lia|]. exists m'. split; [done|]. destruct Hm' as [->|]; [done|by right]. }
  assert (exists m', Done m = Done m' /\ (m' = m \/ 1 <= m' <= TCP_MSS)) as Hret by (exists m; by split; [|left]).
  destruct (_ =? 0); [done|]. destruct (_ =? 1); [apply Hgo; [lia|by left]|]. destruct (_ =? 2).
  - destruct (_ || _); [done|]. apply Hgo; [lia|]. right. destruct (_ || _) eqn:Em; [done|].
    apply orb_false_iff in Em as [E1%Z.ltb_ge E2%Z.eqb_neq]. split; [|done].
    assert (0 <= Z.lor (Z.shiftl (default 0 (opts !! Z.to_nat (c + 2))) 8) (default 0 (opts !! Z.to_nat (c + 3)))); [|lia].
    apply Z.lor_nonneg. split; [apply Z.shiftl_nonneg|]; apply Hb.
  - destruct (Z.eqb_spec (default 0 (opts !! Z.to_nat (c + 1))) 0); [done|]. apply Hgo; [|by left]. pose proof (Hb (Z.to_nat (c + 1))). lia.
Qed.

(** The calls of an application that takes what arrives. *)
Section app.
Context {E : Type} `{TcpApp E}.

Definition ev_done : M (tcp E) Z := mret ERR_OK.

Definition ev_take (d : option chain) : M (tcp E) Z := modify (fun t => set_env (app_recv d (env t)) t);; mret ERR_OK.

Definition app_input : tcp_hdr -> chain -> M (tcp E) unit := tcp_input ev_done ev_done (fun _ => ev_done) ev_take (fun _ => mret tt).

Definition app_slowtmr : M (tcp E) unit := tcp_slowtmr ev_done (fun _ => mret tt).

Definition app_fasttmr : M (tcp E) unit := fasttmr_pcb ev_take.
End app.

Section stream.
(** The stream that is sent. *)
Context (g : Z -> Z).

#[local] Abbreviation sends := (TcpSend.sends g).

Context {E : Type} `{TcpApp E}.

Implicit Types (t : tcp E).

Lemma parseopt_ok t : is_bytes (hd_opts (tcphdr (the_in t))) -> exists m, tcp_parseopt t = Done (tt, set_pcb (set_mss m) t) /\ (m = mss (the_pcb t) \/ 1 <= m <= TCP_MSS).
Proof.
  intros Hb. destruct (parse_opts_ok _ Hb (S (length (hd_opts (tcphdr (the_in t))))) 0 (mss (the_pcb t))) as (m & E1 & Hm'); [lia|unfold zlen; lia|].
  exists m. unfold tcp_parseopt. by rewrite E1.
Qed.

(** The options of a header do not make the MSS smaller. *)
Definition mss_kept (h : tcp_hdr) (p : tcp_pcb) : Prop := forall m, parse_opts (S (length (hd_opts h))) (hd_opts h) 0 (mss p) = Done m -> mss p <= m.

Lemma sends_mss mid p S0 U N L la lu o m : sends mid p S0 U N L la lu o -> mss p <= m <= TCP_MSS -> mid = false -> sends mid (set_mss m p) S0 U N L la lu o.
Proof.
  intros [V1 V2 V3 V4 V5 []] Hm ->. split; try done; [|split; try done; cbn; lia]. eapply sendq_lim; [|exact V1]. unfold limit. cbn. Z.div_mod_to_equations. lia.
Qed.

(** What tcp_process notes about the segment does not matter. *)
Lemma sends_misc mid p S0 U N L la lu o h : (forall m, refused_data (h m) = refused_data m /\ so_options (h m) = so_options m) ->
  sends mid p S0 U N L la lu o -> sends mid (set_misc h p) S0 U N L la lu o.
Proof. intros Hh [V1 V2 V3 V4 V5 []]. destruct (Hh (misc p)) as [H1 H2]. split; try done. split; cbn; by rewrite ?H1, ?H2. Qed.

(** tcp_process up to the states. *)
Lemma process_receiving t S0 U N L la lu o : receiving t -> sends false (the_pcb t) S0 U N L la lu o ->
  has (flags (the_in t)) TCP_RST = false -> has (flags (the_in t)) TCP_SYN = false -> is_bytes (hd_opts (tcphdr (the_in t))) -> mss_kept (tcphdr (the_in t)) (the_pcb t) ->
  exists t1, tcp_process ev_done ev_done (fun _ => mret tt) t = (process_synchronized;; mret ERR_OK) t1 /\ sends false (the_pcb t1) S0 U N L la lu o /\
    the_in t1 = the_in t /\ env t1 = env t /\ rcv (the_pcb t1) = rcv (the_pcb t) /\ state (the_pcb t1) = state (the_pcb t) /\ win (the_pcb t1) = win (the_pcb t).
Proof.
  intros Hst Hs Hr Hsy Hb Hm. unfold tcp_process. rewrite get_bind. cbv zeta. rewrite Hr, Hsy. cbn [andb]. rewrite (sn_open _ (sn_sane _ _ _ _ _ _ _ _ _ _ Hs)).
  unfold on_misc, on_pcb. rewrite !modify_bind. set (t1 := set_pcb _ _).
  assert (sends false (the_pcb t1) S0 U N L la lu o) as Hs1 by (by apply sends_misc; [|apply sends_misc]).
  destruct (parseopt_ok t1 Hb) as (m & E1 & Hm1). rewrite (bind_done _ _ _ _ _ E1). exists (set_pcb (set_mss m) t1).
  split; [by destruct Hst as [-> | ->]|]. split; [|done].
  apply sends_mss; [done| |done]. pose proof (sn_mss _ (sn_sane _ _ _ _ _ _ _ _ _ _ Hs1)). assert (mss (the_pcb t1) <= m); [|lia].
  apply (Hm m). unfold tcp_parseopt in E1. change (mss (the_pcb t1)) with (mss (the_pcb t)) in E1. change (the_in t1) with (the_in t) in E1.
  destruct (parse_opts _ _ _ _) as [m'|]; [|done]. injection E1 as E1. by rewrite E1.
Qed.

(** The window and the number of an acknowledgement, if there is one. *)
Definition ack_fair (h : tcp_hdr) (w : tcp_win) (U N P : Z) : Prop := if has (hd_flags h) TCP_ACK then fair h w U N P else P = U.

(** tcp_receive of a segment, up to its text. *)
Lemma receive_sends t S0 U N L la lu o P : receiving t -> sends false (the_pcb t) S0 U N L la lu o -> roomy (the_pcb t) U N -> of_header t ->
  flags (the_in t) = hd_flags (tcphdr (the_in t)) -> ack_fair (tcphdr (the_in t)) (win (the_pcb t)) U N P ->
  exists t' mid la' lu' o', tcp_receive t = recv_text t' /\ sends mid (the_pcb t') S0 (acks U N P) N L la' lu' o' /\ roomy (the_pcb t') (acks U N P) N /\ same t t' /\
    win (the_pcb t') = if has (hd_flags (tcphdr (the_in t))) TCP_ACK then took (tcphdr (the_in t)) (win (the_pcb t)) else win (the_pcb t).
Proof.
  intros Hst Hs Hroom Hh Hfl Hfair. unfold tcp_receive. rewrite get_bind, lwip_assert_bind by (by destruct Hst as [-> | ->]). unfold ack_fair in Hfair. rewrite Hfl.
  destruct (has (hd_flags _) TCP_ACK).
  - destruct (recv_ack_ok g t S0 U N L la lu o P Hs Hroom Hh Hfair) as (t' & mid & la' & lu' & o' & E1 & Hs' & Hr' & W').
    rewrite (bind_done _ _ _ _ _ E1). exists t', mid, la', lu', o'. split; [done|]. split; [done|]. split; [done|]. split; [|done]. by apply (recv_ack_same _ _ _ E1).
  - rewrite ret_bind. subst P. assert (acks U N U = U) as -> by (unfold acks; by rewrite decide_False by lia). by exists t, false, la, lu, o.
Qed.

(** A FIN that has come closes the other end's half. *)
Definition close_wait (b : bool) t : tcp E := if b then set_pcb (set_state CLOSE_WAIT) (set_pcb (set_flags (set_bits TF_ACK_NOW)) t) else t.

Lemma process_text t t1 t2 : receiving t -> tcp_receive t = recv_text t1 -> recv_text t1 = Done (tt, t2) ->
  process_synchronized t = Done (tt, close_wait (has (recv_flags (the_in t2)) TF_GOT_FIN) t2).
Proof.
  intros Hst E1 E2. unfold process_synchronized, get_pcb. rewrite bind_assoc, get_bind, ret_bind.
  rewrite (bind_done _ _ _ _ _ (eq_trans E1 E2)). unfold got_fin, all_acked. rewrite !bind_assoc, get_bind, ret_bind, bind_assoc, get_bind, ret_bind.
  unfold close_wait. destruct Hst as [-> | ->]; by destruct (has (recv_flags _) TF_GOT_FIN).
Qed.

(** What tcp_input tells the application, and sends, when the connection goes on. *)
Definition delivered t : tcp E :=
  let t := match recv_data (the_in t) with None => t | Some d => set_env (app_recv (Some d) (env t)) t end in
  if has (recv_flags (the_in t)) TF_GOT_FIN then
    let t := set_pcb (set_rcv (fun r => if rcv_wnd r =? TCP_WND then r else set_rcv_wnd (rcv_wnd r + 1) r)) t in
    set_env (app_recv None (env t)) t
  else t.

Lemma tell_ok t : sane (the_pcb t) -> tell_application (fun _ => ev_done) ev_take (fun _ => mret tt) t = Done (true, delivered t).
Proof.
  intros Hi. unfold tell_application, get_pcb. rewrite bind_assoc, get_bind, ret_bind.
  match goal with |- context [(?m ≫= _) t] => assert (m t = Done (true, t)) as E0 by (by destruct (0 <? acked (snd_q (the_pcb t)))) end.
  rewrite (bind_done _ _ _ _ _ E0). clear E0. cbn [negb]. rewrite get_bind. unfold delivered. destruct (recv_data (the_in t)) as [d|].
  - assert (deliver_data ev_take (fun _ => mret tt) d t = Done (true, set_env (app_recv (Some d) (env t)) t)) as E1.
    { unfold deliver_data, get_pcb. rewrite bind_assoc, get_bind, ret_bind, lwip_assert_bind by (by rewrite (sn_refused _ Hi)). by rewrite (sn_open _ Hi). }
    rewrite (bind_done _ _ _ _ _ E1). cbn [negb]. unfold got_fin. rewrite bind_assoc, get_bind, ret_bind. set (t1 := set_env _ t).
    destruct (has (recv_flags _) TF_GOT_FIN); [|done]. unfold deliver_fin, get_pcb. rewrite bind_assoc, get_bind, ret_bind. assert (refused_data (misc (the_pcb t1)) = None) as -> by apply Hi. done.
  - rewrite ret_bind. cbn [negb]. unfold got_fin. rewrite bind_assoc, get_bind, ret_bind. destruct (has (recv_flags _) TF_GOT_FIN); [|done].
    unfold deliver_fin, get_pcb. rewrite bind_assoc, get_bind, ret_bind, (sn_refused _ Hi). done.
Qed.

(** tcp_input as far as the application has been told. *)
Lemma input_told h c t t1 t2 t3 : sane (the_pcb t) -> receiving t -> has (hd_flags h) TCP_RST = false -> has (hd_flags h) TCP_SYN = false ->
  tcp_process ev_done ev_done (fun _ => mret tt) (set_in (fun _ => set_input_pcb true (set_segment h c)) t) = (process_synchronized;; mret ERR_OK) t1 ->
  process_synchronized t1 = Done (tt, t2) -> sane (the_pcb t2) -> has (recv_flags (the_in t2)) TF_RESET = false ->
  has (recv_flags (the_in t2)) TF_CLOSED = false -> (exists r, tcp_output (set_in (set_input_pcb false) (delivered t2)) = Done (r, t3)) ->
  app_input h c t = Done (tt, set_in (fun i => set_inseg (set_p None) (set_recv_data None (set_input_pcb false i))) t3).
Proof.
  intros Hi Hst Hr Hs E1 E2 Hi2 Hr2 Hc2 [r E3]. unfold app_input, tcp_input. rewrite on_in_bind, get_bind.
  assert (refused_data (misc (the_pcb (set_in (fun _ => set_segment h c) t))) = None) as -> by apply Hi. rewrite ret_bind, bind_assoc, on_in_bind, bind_assoc.
  match goal with |- context [tcp_process _ _ _ ≫= ?k] => set (K := k) end.
  assert (tcp_process ev_done ev_done (fun _ => mret tt) (set_in (set_input_pcb true) (set_in (fun _ => set_segment h c) t)) = Done (ERR_OK, t2)) as E4.
  { change (set_in (set_input_pcb true) (set_in (fun _ => set_segment h c) t)) with (set_in (fun _ => set_input_pcb true (set_segment h c)) t). rewrite E1. by rewrite (bind_done _ _ _ _ _ E2). }
  rewrite (bind_done _ _ _ _ _ E4). subst K. cbv beta. unfold input_events. rewrite bind_assoc, get_bind. cbv zeta. cbn [Z.eqb ERR_OK ERR_ABRT].
  rewrite Hr2, Hc2, bind_assoc, (bind_done _ _ _ _ _ (tell_ok t2 Hi2)), bind_assoc, on_in_bind, bind_assoc, (bind_done _ _ _ _ _ E3), ret_bind. done.
Qed.
End stream.
