(* ===== verification/TcpSim.v ===== *)
(** * TCP: connections to try

    The PCB of an open connection, and a host with memory whose output is kept, on which the
    examples and witnesses of the other files run. *)

From S2P Require Import Prelude TcpPcb TcpRecv TcpOut TcpAck TcpProcess TcpStream TcpFrame TcpInput.

(** Nothing has arrived yet. *)
Definition no_segment : tcp_in := TcpIn 0 0 0 0 (TcpHdr 0 0 0 0 []) (TcpSeg None 0 0 0 0) 0 None false.

(** The connection is open: the next byte to send is at [S0], the next to receive at [R0],
    both windows are whole and have been announced, and the congestion window is [c]. *)
Definition open_pcb (S0 R0 m c : Z) : tcp_pcb :=
  TcpPcb ESTABLISHED 0 m (TcpMisc 1 0 0 0 0 0 0 None)
    (TcpRcv (u32 R0) TCP_WND TCP_WND (u32 (R0 + TCP_WND)) [])
    (TcpSnd (u32 S0) (u32 S0) (u32 S0) 0 TCP_SND_BUF 0 0 [] [])
    (TcpWin TCP_WND TCP_WND (u32 (R0 - 1)) (u32 S0) 0 0)
    (TcpCtl c (10 * TCP_MSS) 0 (-1) 6 0 0 0 0 6).

(** The bytes 0, 1, 2, ... of a stream. *)
Definition counting (x : Z) : Z := u8 x.

Record sim := Sim { sim_got : bytes; sim_eof : bool; sim_outs : list tcp_out; sim_ticks : Z }.

#[export, refine] Instance sim_host : TcpHost sim := {
  alloc_ram := fun _ e => Some e;
  alloc_rom := fun e => Some e;
  alloc_seg := fun e => Some e;
  ip_output := fun o e => Sim (sim_got e) (sim_eof e) (sim_outs e ++ [o]) (sim_ticks e);
  ip_route := fun _ => None;
  tcp_ticks := sim_ticks;
  tick := fun e => Sim (sim_got e) (sim_eof e) (sim_outs e) (u32 (sim_ticks e + 1));
  garbage := fun _ => 0
}.
Proof. done. Defined.

#[export, refine] Instance sim_app : TcpApp sim := {
  app_recv := fun d e => match d with Some c => Sim (sim_got e ++ concat c) (sim_eof e) (sim_outs e) (sim_ticks e) | None => Sim (sim_got e) true (sim_outs e) (sim_ticks e) end;
  got := sim_got;
  eof := sim_eof;
  outs := sim_outs
}.
Proof. all: try done; by intros ? ? ? [= ->] || intros ? ? [= ->]. Defined.

Definition silence : sim := Sim [] false [] 1.

Definition sim_pcb (p : tcp_pcb) : tcp sim := Tcp p no_segment silence.

(** Segments arrive. *)
Definition arrives (o : tcp_out) : M (tcp sim) unit :=
  app_input (TcpHdr (out_seqno o) (out_ackno o) (out_flags o) (out_wnd o) []) [out_data o].

Fixpoint all_arrive (l : list tcp_out) : M (tcp sim) unit :=
  match l with
  | [] => mret tt
  | o :: l => arrives o;; all_arrive l
  end.

(** A segment with [n] bytes of the counting stream. *)
Definition segment (s n : Z) : tcp_out := TcpOut (u32 s) 1 TCP_ACK TCP_WND None (bytes_of counting s n).

(** A run that returns is looked at by evaluating it. *)
Lemma done_with {S} (m : M S unit) s (P : S -> Prop) : match m s with Done (_, t) => P t | Crash _ => False end -> exists t, m s = Done (tt, t) /\ P t.
Proof. destruct (m s) as [[[] t]|]; [by exists t|done]. Qed.
