(* ===== verification/TcpConn.v ===== *)
(** * TCP: an open connection in both directions

    The positions of the receiver and of the sender at one moment, what has gone out so far
    and which windows were announced with it; and that input, output, the timers and the
    calls of the application keep them in order. *)

From Stdlib Require Import Sorted.
From S2P Require Import Prelude TcpPcb TcpRecv TcpOut TcpAck TcpProcess TcpStream TcpRecvSpec TcpInseq TcpFrame TcpSend TcpAckSpec TcpFlush TcpWriteSpec TcpReceive TcpInput.

(** ** What was announced *)

(** A segment acknowledges everything in front of the first position, and announces a
    window up to the second. *)
Definition announces (h : tcp_out) (x : Z * Z) : Prop := out_ackno h = u32 x.1 /\ out_wnd h = x.2 - x.1.

Definition not_behind (x y : Z * Z) : Prop := x.1 <= y.1 /\ x.2 <= y.2.

(** The announcements of the segments that were sent behind [base], in their order: neither
    the acknowledgement nor the end of the window ever moves back, from [lo] on. *)
Section logged.
Context (base : list tcp_out) (lo : Z * Z).

Record logged (l : list tcp_out) (k : list (Z * Z)) (R A : Z) : Prop := Logged {
  lg_all : exists l', l = base ++ l' /\ Forall2 announces l' k;
  lg_order : StronglySorted not_behind k;
  lg_first : Forall (not_behind lo) k /\ not_behind lo (R, A);
  lg_last : Forall (fun x => not_behind x (R, A) /\ 0 <= x.2 - x.1 <= TCP_WND) k
}.

Lemma logged_mono l k R A R' A' : logged l k R A -> R <= R' -> A <= A' -> logged l k R' A'.
Proof.
  intros [H1 H2 [H3 H4] H5] HR HA. split; [done|done| |].
  - split; [done|]. unfold not_behind in *. cbn in *. lia.
  - eapply list.Forall_impl; [exact H5|]. intros x [[? ?] ?]. unfold not_behind in *. cbn in *. lia.
Qed.

Lemma logged_snoc l k R A h w : logged l k R A -> announces h (R, R + w) -> 0 <= w <= TCP_WND -> A <= R + w -> logged (l ++ [h]) (k ++ [(R, R + w)]) R (R + w).
Proof.
  intros [(l' & -> & H1) H2 [H3 H4] H5] Hh Hw HA. assert (not_behind lo (R, R + w)) as Hlo by (unfold not_behind in *; cbn in *; lia). split.
  - exists (l' ++ [h]). rewrite app_assoc. split; [done|]. by apply Forall2_app; [|constructor].
  - clear H1 H3. induction H2 as [|x k Hk IH Hx]; cbn [app]; [by repeat constructor|]. apply list.Forall_cons in H5 as [[Hx3 _] H5]. constructor; [by apply IH|].
    apply list.Forall_app. split; [done|]. constructor; [|done]. unfold not_behind in *. cbn in *. lia.
  - split; [|done]. apply list.Forall_app. split; [done|by constructor].
  - apply list.Forall_app. split; [|constructor; [unfold not_behind; cbn; lia|done]]. eapply list.Forall_impl; [exact H5|]. intros x [[? ?] ?]. unfold not_behind in *. cbn in *. lia.
Qed.

Lemma logged_app l' : forall l k R A w, logged l k R A -> Forall (fun h => announces h (R, R + w)) l' -> 0 <= w <= TCP_WND -> A <= R + w -> l' <> [] ->
  exists k', logged (l ++ l') k' R (R + w).
Proof.
  induction l' as [|h l' IH]; intros l k R A w Hr Hl Hw HA Hne; [done|]. apply list.Forall_cons in Hl as [Hh Hl].
  pose proof (logged_snoc _ _ _ _ _ _ Hr Hh Hw HA) as Hr1. destruct l' as [|h' l']; [by eexists|].
  destruct (IH _ _ _ _ w Hr1 Hl Hw ltac:(lia) ltac:(done)) as (k' & Hk'). exists k'. by rewrite <- app_assoc in Hk'.
Qed.
End logged.

Section stream.
(** The stream that is sent, from its first position on; what had gone out before, and the
    positions of the receiver then. *)
Context (g : Z -> Z) (S0 : Z) (base : list tcp_out) (lo : Z * Z).

#[local] Abbreviation logged := (TcpConn.logged base lo).

#[local] Abbreviation sends := (TcpSend.sends g).

#[local] Abbreviation says := (TcpFlush.says g).

#[local] Abbreviation flushes := (TcpFlush.flushes g).

Context {E : Type} `{TcpApp E}.

Implicit Types (t : tcp E).

(** The receiver: the next byte at [R], [W] bytes of room, and the window announced up to
    [A].  The sender: everything in front of [U] is acknowledged, [N] is the next position to
    send, and [L] the next to write. *)
Record conn (mid b : bool) t (R W A U N L : Z) : Prop := Conn {
  cn_window : window t R W A;
  cn_wnd : W <= TCP_WND;
  cn_receiving : receiving t;
  cn_input : tcp_input_pcb (the_in t) = b;
  cn_sends : exists la lu o, sends mid (the_pcb t) S0 U N L la lu o;
  cn_roomy : roomy (the_pcb t) U N;
  cn_said : Forall (says S0 (Z.max N (U + 1))) (outs (env t));
  cn_record : exists k, logged (outs (env t)) k R A
}.

Lemma conn_pos mid b t R W A U N L : conn mid b t R W A U N L -> S0 <= U <= N /\ N <= L <= U + TCP_SND_BUF.
Proof.
  intros [_ _ _ _ (la & lu & o & Hs) _ _ _]. destruct (sn_contig _ _ _ _ _ _ _ _ _ _ Hs) as (x & Hx & _).
  pose proof (sq_pos _ _ _ _ _ _ _ _ (sn_q _ _ _ _ _ _ _ _ _ _ Hs)). lia.
Qed.

Lemma conn_sane mid b t R W A U N L : conn mid b t R W A U N L -> sane (the_pcb t).
Proof. intros [_ _ _ _ (la & lu & o & Hs) _ _ _]. apply Hs. Qed.

(** The sender and what has gone out are the same. *)
Lemma conn_frame mid b t t' R W A U N L R' W' A' : conn mid b t R W A U N L -> frame t t' -> outs (env t') = outs (env t) ->
  window t' R' W' A' -> W' <= TCP_WND -> R <= R' -> A <= A' -> receiving t' -> conn mid b t' R' W' A' U N L.
Proof.
  intros [V1 V2 V3 V4 (la & lu & o & V5) V6 V7 (k & V8)] Hf Ho Hw HW HR HA Hrec. split; try done.
  - by rewrite (fr_input _ _ Hf).
  - exists la, lu, o. by apply (sends_frame g t).
  - unfold roomy. by rewrite (fr_win _ _ Hf).
  - by rewrite Ho.
  - exists k. rewrite Ho. by apply (logged_mono base lo _ _ R A).
Qed.

(** Output. *)
Lemma conn_flushes mid mid' b t t' R W A U N L N' V la lu o : conn mid b t R W A U N L -> flushes S0 V t t' -> V <= Z.max N' (U + 1) -> N <= N' ->
  sends mid' (the_pcb t') S0 U N' L la lu o -> roomy (the_pcb t') U N' ->
  exists A', conn mid' b t' R W A' U N' L /\ A <= A'.
Proof.
  intros [V1 V2 V3 V4 _ V6 V7 (k & V8)] [F1 F2 F3 F4 F5 F6 F7 (l & F8 & F9 & F10 & F11)] HV HN Hs Hroom.
  pose proof V1 as [W1 W2 W3 W4 W5 W6 W7 W8]. set (a := rcv_ann_wnd (rcv (the_pcb t))) in *.
  assert (Forall (says S0 (Z.max N' (U + 1))) (outs (env t'))) as Hsaid.
  { rewrite F8. apply list.Forall_app. split; [eapply list.Forall_impl; [exact V7|]|eapply list.Forall_impl; [exact F9|]]; intros h Hh; (eapply says_mono; [|exact Hh]); lia. }
  assert (forall A' k', window t' R W A' -> logged (outs (env t')) k' R A' -> A <= A' -> exists A', conn mid' b t' R W A' U N' L /\ A <= A') as Hgo.
  { intros A' k' Hw' Hk' HA'. exists A'. split; [|done]. split; try done; [unfold receiving in *; by rewrite F1|by rewrite F4|by exists la, lu, o|by exists k']. }
  assert (rcv (the_pcb t') = announced (rcv (the_pcb t)) -> window t' R W (R + a)) as Hann.
  { intros Er. split; rewrite ?Er, ?F2; cbn; fold a; try done; try lia. rewrite W1. auto with seq. }
  assert (forall A', window t' R W A' -> window t' R W A') as _ by done.
  destruct l as [|h l].
  - rewrite app_nil_r in F8. destruct F7 as [Er|Er].
    + apply (Hgo A k); [by split; rewrite ?Er, ?F2|by rewrite F8|lia].
    + apply (Hgo (R + a) k); [by apply Hann|rewrite F8; apply (logged_mono base lo _ _ R A); (done || lia)|lia].
  - destruct (logged_app base lo (h :: l) _ _ _ _ a V8) as (k' & Hk'); [|lia|lia|done|].
    + eapply list.Forall_impl; [exact F10|]. intros h' [T1 T2]. split; [by rewrite T1|rewrite T2; cbn; lia].
    + apply (Hgo (R + a) k'); [by apply Hann, F11|by rewrite F8|lia].
Qed.

Lemma output_conn mid t R W A U N L : conn mid false t R W A U N L ->
  exists r t' A' N', tcp_output t = Done (r, t') /\ conn false false t' R W A' U N' L /\ A <= A' /\ N <= N' /\ flushes S0 N' t t'.
Proof.
  intros Hc. pose proof Hc as [V1 V2 V3 V4 (la & lu & o & V5) V6 V7 V8].
  destruct (tcp_output_ok g t mid S0 U N L la lu o V3 V5 V6 V4) as (r & t' & N' & la' & lu' & E1 & HN & Hs & Hroom & F).
  destruct (conn_flushes mid false false t t' R W A U N L N' N' la' lu' o Hc F) as (A' & Hc' & HA); [lia|done|done|done|]. by exists r, t', A', N'.
Qed.

(** One acknowledgement. *)
Lemma conn_acked mid b t t' R W A U N L R' W' A' : conn mid b t R W A U N L -> frame t t' -> acked_once t t' ->
  window t' R' W' A' -> W' <= TCP_WND -> R <= R' < R + 2 ^ 17 -> A <= A' -> receiving t' -> conn mid b t' R' W' A' U N L.
Proof.
  intros Hc Hf Hao Hw HW HR HA Hrec. pose proof Hc as [V1 V2 V3 V4 (la & lu & o & V5) V6 V7 (k & V8)].
  destruct Hao as [O1 O2 O3 O4 O5 O6]. pose proof (conn_pos _ _ _ _ _ _ _ _ _ Hc) as [HU HL]. pose proof (sq_nxt _ _ _ _ _ _ _ _ (sn_q _ _ _ _ _ _ _ _ _ _ V5)) as Hnxt.
  pose proof V1 as [W1 W2 W3 W4 W5 W6 W7 W8]. pose proof Hw as [X1 X2 X3 X4 X5 X6 X7 X8]. set (a := rcv_ann_wnd (rcv (the_pcb t))) in *.
  assert (R' = R) as ->.
  { rewrite O4, W1 in X1. symmetry. apply (f_equal (fun z => u32 (z - R))) in X1. rewrite (u32_seq _ 0), (u32_seq (u32 R' - R) (R' - R)) in X1; [| |].
    - rewrite !u32_id in X1 by (unfold is_u32; lia). lia.
    - auto with seq.
    - replace 0 with (R - R) by lia. auto with seq. }
  assert (A' = R + a) as ->.
  { rewrite O6, W1 in X4. assert (seq_of (u32 (u32 R + a)) (R + a)) as Y by auto with seq. destruct X4 as [i Hi], Y as [j Hj]. lia. }
  split; try done.
  - by rewrite (fr_input _ _ Hf).
  - exists la, lu, o. by apply (sends_frame g t).
  - unfold roomy. by rewrite (fr_win _ _ Hf).
  - rewrite O3. apply list.Forall_app. split; [done|]. constructor; [|done]. exists N, 0. split; [done|]. split; [lia|]. split; [lia|]. unfold ack_of. cbn. done.
  - rewrite O3. eexists. apply (logged_snoc base lo _ _ _ _ _ a V8); [|lia|lia]. split; [done|]. cbn. fold a. lia.
Qed.

(** What the text of a segment does besides being taken. *)
Lemma conn_text mid t a t' R W A U N L R' W' A' : conn mid true t R W A U N L -> recv_text t = Done (a, t') ->
  window t' R' W' A' -> W' <= TCP_WND -> R <= R' < R + 2 ^ 17 -> A <= A' -> receiving t' -> conn mid true t' R' W' A' U N L /\ got (env t') = got (env t) /\ eof (env t') = eof (env t).
Proof.
  intros Hc E1 Hw HW HR HA Hrec. pose proof (recv_text_frame _ _ _ E1) as Hf. destruct (recv_text_said _ _ _ E1) as [[G1 G2 G3]|Hao].
  - split; [|done]. by apply (conn_frame mid true t t' R W A); try done; lia.
  - split; [|by split; apply Hao]. by apply (conn_acked mid true t t' R W A).
Qed.

(** ** The end of tcp_input *)

(** A FIN takes a byte of the window, which the application gives back at once. *)
Definition after_fin (b : bool) (W : Z) : Z := if b then if W =? TCP_WND then W else W + 1 else W.

Lemma delivered_conn mid t R W A U N L : conn mid true t R W A U N L ->
  exists W', conn mid false (set_in (set_input_pcb false) (delivered t)) R W' A U N L /\ W <= W' /\
    ooseq (rcv (the_pcb (delivered t))) = ooseq (rcv (the_pcb t)) /\ state (the_pcb (delivered t)) = state (the_pcb t) /\
    got (env (delivered t)) = got (env t) ++ data_of (the_in t) /\ eof (env (delivered t)) = eof (env t) || has (recv_flags (the_in t)) TF_GOT_FIN.
Proof.
  intros [V1 V2 V3 V4 (la & lu & o & V5) V6 V7 (k & V8)]. set (b := has (recv_flags (the_in t)) TF_GOT_FIN). exists (after_fin b W). unfold after_fin.
  pose proof V1 as [W1 W2 W3 W4 W5 W6 W7 W8]. change TCP_WND with 5360 in *.
  set (t1 := match recv_data (the_in t) with None => t | Some d => set_env (app_recv (Some d) (env t)) t end).
  assert (the_pcb t1 = the_pcb t /\ the_in t1 = the_in t /\ got (env t1) = got (env t) ++ data_of (the_in t) /\ eof (env t1) = eof (env t) /\ outs (env t1) = outs (env t)) as (P1 & P2 & P3 & P4 & P5).
  { subst t1. unfold data_of. destruct (recv_data (the_in t)) as [d|]; [destruct (recv_got d (env t)) as (? & ? & ?); done|]. cbn. by rewrite app_nil_r. }
  assert (delivered t = if b then set_env (app_recv None (env t1)) (set_pcb (set_rcv (fun r => if rcv_wnd r =? TCP_WND then r else set_rcv_wnd (rcv_wnd r + 1) r)) t1) else t1) as Ed.
  { unfold delivered. fold t1. by rewrite P2. }
  rewrite Ed. clearbody t1. destruct t1 as [p1 i1 e1]. cbn in P1, P2, P3, P4, P5. subst p1 i1. destruct b.
  - destruct (recv_eof e1) as (F1 & F2 & F3). cbn. rewrite F1, F2, P3, orb_true_r. change TCP_WND with 5360. split; [|split; [destruct (W =? 5360); lia|split; [by destruct (_ =? _)|done]]].
    split; cbn; try done.
    + split; cbn; rewrite ?W2; destruct (Z.eqb_spec W 5360); cbn; rewrite ?W2; try done; lia.
    + change TCP_WND with 5360. destruct (Z.eqb_spec W 5360); lia.
    + exists la, lu, o. destruct V5 as [Q1 Q2 Q3 Q4 Q5 []]. split; try done.
    + by rewrite F3, P5.
    + exists k. by rewrite F3, P5.
  - rewrite orb_false_r. cbn. split; [|split; [lia|done]]. split; cbn; try done; [by exists la, lu, o|by rewrite P5|exists k; by rewrite P5].
Qed.

Lemma close_wait_conn mid c t R W A U N L : conn mid true t R W A U N L -> conn mid true (close_wait c t) R W A U N L.
Proof.
  destruct c; [|done]. intros [V1 V2 V3 V4 (la & lu & o & V5) V6 V7 V8]. split; try done; [by destruct V1|by right|].
  exists la, lu, o. destruct V5 as [Q1 Q2 Q3 Q4 Q5 [Y1 Y2 Y3 Y4 Y5 Y6 Y7 Y8 Y9 Y10]]. split; try done.
  - destruct mid; [|done]. destruct Q2 as (x & l & ? & ? & ? & ? & ?). exists x, l. repeat (split; [done|]). split; [|done]. cbn. by rewrite has_set_other.
  - split; try done. cbn. by rewrite has_set_other.
Qed.

(** A segment up to its text, and from there on. *)
Lemma input_conn h c t R W A U N L P : conn false false t R W A U N L -> has (hd_flags h) TCP_RST = false -> has (hd_flags h) TCP_SYN = false -> is_bytes (hd_opts h) ->
  ack_fair h (win (the_pcb t)) U N P -> mss_kept h (the_pcb t) ->
  exists t1 mid, conn mid true t1 R W A (acks U N P) N L /\ the_in t1 = set_input_pcb true (set_segment h c) /\ env t1 = env t /\ rcv (the_pcb t1) = rcv (the_pcb t) /\
    state (the_pcb t1) = state (the_pcb t) /\
    forall t2 R' W' A', recv_text t1 = Done (tt, t2) -> window t2 R' W' A' -> W' <= TCP_WND -> R <= R' < R + 2 ^ 17 -> A <= A' -> receiving t2 ->
      exists t' W'' A'' N', app_input h c t = Done (tt, t') /\ conn false false t' R' W'' A'' (acks U N P) N' L /\ W' <= W'' /\ A' <= A'' /\ N <= N' /\
        ooseq (rcv (the_pcb t')) = ooseq (rcv (the_pcb t2)) /\ state (the_pcb t') = (if has (recv_flags (the_in t2)) TF_GOT_FIN then CLOSE_WAIT else state (the_pcb t2)) /\
        got (env t') = got (env t) ++ data_of (the_in t2) /\ eof (env t') = eof (env t) || has (recv_flags (the_in t2)) TF_GOT_FIN.
Proof.
  intros Hc Hr Hsy Hb Hfair Hmss. pose proof Hc as [V1 V2 V3 V4 (la & lu & o & V5) V6 V7 (k & V8)]. set (t0 := set_in (fun _ => set_input_pcb true (set_segment h c)) t).
  pose proof (sn_order _ _ _ _ _ _ _ _ _ _ V5) as Ho. cbn in Ho. subst o. pose proof (conn_pos _ _ _ _ _ _ _ _ _ Hc) as [HU HL].
  destruct (process_receiving g t0 S0 U N L la lu _ V3 V5 Hr Hsy Hb Hmss) as (ta & Ea & Hsa & Hina & Hea & Hra & Hsta & Hwa).
  assert (receiving ta) as Hreca by (unfold receiving; by rewrite Hsta).
  destruct (receive_sends g ta S0 U N L la lu _ P Hreca Hsa) as (t1 & mid & la' & lu' & o' & E1 & Hs1 & Hroom1 & [S1 S2 S3 S4 S5 S6] & Hw1);
    [unfold roomy in *; by rewrite Hwa|unfold of_header; by rewrite Hina|by rewrite Hina|by rewrite Hina, Hwa|].
  assert (U <= acks U N P) as HU1 by (unfold acks; destruct (decide _); lia).
  assert (receiving t1) as Hrec1 by (unfold receiving; by rewrite S2).
  assert (conn mid true t1 R W A (acks U N P) N L) as Hc1.
  { split; try done.
    - pose proof (sn_mss _ (sn_sane _ _ _ _ _ _ _ _ _ _ Hs1)) as Hm. change TCP_MSS with 536 in Hm. destruct V1. split; rewrite ?S1, ?Hra; try done. lia.
    - by rewrite S4, Hina.
    - by exists la', lu', o'.
    - rewrite S5, Hea. eapply list.Forall_impl; [exact V7|]. intros h'. apply says_mono. lia.
    - exists k. by rewrite S5, Hea. }
  exists t1, mid. rewrite S1, S2, S4, S5, Hina, Hea, Hra, Hsta. do 5 (split; [done|]).
  intros t2 R' W' A' E2 Hw2 HW2 HR2 HA2 Hrec2. destruct (conn_text _ _ _ _ _ _ _ _ _ _ _ _ _ Hc1 E2 Hw2 HW2 HR2 HA2 Hrec2) as (Hc2 & G1 & G2).
  pose proof (recv_text_frame _ _ _ E2) as Hf. set (fl := has (recv_flags (the_in t2)) TF_GOT_FIN) in *.
  pose proof (process_text ta t1 t2 Hreca E1 E2) as E3. fold fl in E3.
  assert (forall m, Z.land TF_GOT_FIN m = 0 -> has (recv_flags (the_in t2)) m = false) as Hfl.
  { intros m Hm0. rewrite (fr_recv_flags _ _ Hf) by done. by rewrite S4, Hina. }
  assert (the_in (close_wait fl t2) = the_in t2 /\ env (close_wait fl t2) = env t2 /\ rcv (the_pcb (close_wait fl t2)) = rcv (the_pcb t2) /\
    state (the_pcb (close_wait fl t2)) = (if fl then CLOSE_WAIT else state (the_pcb t2))) as (C1 & C2 & C3 & C4) by (by destruct fl).
  pose proof (close_wait_conn _ fl _ _ _ _ _ _ _ Hc2) as Hc3. destruct (delivered_conn _ _ _ _ _ _ _ _ Hc3) as (W'' & Hc4 & HW'' & D1 & D2 & D3 & D4).
  destruct (output_conn _ _ _ _ _ _ _ _ Hc4) as (r & t' & A'' & N' & E4 & Hc5 & HA'' & HN' & [F1 F2 F3 F4 F5 F6 F7 _]).
  eexists _, W'', A'', N'. split.
  { apply (input_told h c t ta (close_wait fl t2) t'); try done; [by eapply conn_sane|by eapply conn_sane|by rewrite C1; apply Hfl|by rewrite C1; apply Hfl|by exists r]. }
  split; [|split; [done|]; split; [done|]; split; [done|]].
  - destruct Hc5 as [Y1 Y2 Y3 Y4 Y5 Y6 Y7 Y8]. split; try done. by destruct Y1.
  - cbn in *. rewrite C1, C2, C3, C4, G1, G2, S5, Hea in *. rewrite D2 in F1. rewrite D3 in F5. rewrite D4 in F6. split; [|done].
    by destruct F7 as [-> | ->].
Qed.
End stream.
