(* ===== verification/TcpCalls.v ===== *)
(** * TCP: what the application and the timers do to an open connection

    Reading, writing, output, and the two timers.  They leave what has arrived as it is. *)

From S2P Require Import Prelude TcpPcb TcpRecv TcpOut TcpAck TcpProcess TcpStream TcpRecvSpec TcpInseq TcpFrame TcpSend TcpAckSpec TcpFlush TcpWriteSpec TcpReceive TcpInput TcpConn.

Section stream.
Context (g : Z -> Z) (S0 : Z) (base : list tcp_out) (lo : Z * Z).

#[local] Abbreviation conn := (TcpConn.conn g S0 base lo).

#[local] Abbreviation bytes_of := (TcpStream.bytes_of g).

Context {E : Type} `{TcpApp E}.

Implicit Types (t : tcp E).

(** What has arrived is as it was. *)
Record undisturbed t t' : Prop := Undisturbed {
  ud_ooseq : ooseq (rcv (the_pcb t')) = ooseq (rcv (the_pcb t));
  ud_state : state (the_pcb t') = state (the_pcb t);
  ud_got : got (env t') = got (env t);
  ud_eof : eof (env t') = eof (env t)
}.

#[export] Instance undisturbed_preorder : PreOrder undisturbed.
Proof. split; [by split|]. intros t1 t2 t3 [] []. split; congruence. Qed.

Lemma flushes_undisturbed V t t' : TcpFlush.flushes g S0 V t t' -> undisturbed t t'.
Proof. intros [F1 F2 F3 F4 F5 F6 F7 _]. split; try done. by destruct F7 as [-> | ->]. Qed.

(** A call that goes on as [t'] from [t]: the receiver has read up to the same position, and
    nothing moves back. *)
Definition goes_on t t' (R W A U N L : Z) : Prop :=
  exists A' N', conn false false t' R W A' U N' L /\ A <= A' /\ N <= N' /\ undisturbed t t'.

Lemma goes_on_after t0 t t' R W A U N L A0 N0 : A0 <= A -> N0 <= N -> undisturbed t0 t -> goes_on t t' R W A U N L -> goes_on t0 t' R W A0 U N0 L.
Proof.
  intros HA HN Hu (A' & N' & Hc & HA' & HN' & Hu'). exists A', N'. split; [done|]. split; [lia|]. split; [lia|]. by etransitivity.
Qed.

Lemma output_goes_on mid t R W A U N L : conn mid false t R W A U N L -> exists r t', tcp_output t = Done (r, t') /\ goes_on t t' R W A U N L.
Proof.
  intros Hc. destruct (output_conn g S0 base lo mid t R W A U N L Hc) as (r & t' & A' & N' & E1 & Hc' & HA & HN & F). exists r, t'. split; [done|].
  exists A', N'. split; [done|]. split; [done|]. split; [done|]. by eapply flushes_undisturbed.
Qed.

(** Changes of the flags about acknowledgements. *)
Lemma conn_ack_flags mid b t R W A U N L h : conn mid b t R W A U N L -> (forall fl m, Z.land (Z.lor TF_ACK_DELAY TF_ACK_NOW) m = 0 -> has (h fl) m = has fl m) ->
  conn mid b (set_pcb (set_flags h) t) R W A U N L.
Proof. intros Hc Hh. apply (conn_frame g S0 base lo mid b t _ R W A); try done; [by apply frame_flags|by destruct (cn_window _ _ _ _ _ _ _ _ _ _ _ _ _ Hc)|apply Hc|apply Hc]. Qed.

Lemma ack_now_flag fl m : Z.land (Z.lor TF_ACK_DELAY TF_ACK_NOW) m = 0 -> has (set_bits TF_ACK_NOW fl) m = has fl m.
Proof. intros [? ?]%land_sub. by apply has_set_other. Qed.

(** tcp_recved *)
Lemma recved_goes_on t R W A U N L k : conn false false t R W A U N L -> 0 <= k <= 0xffff - W ->
  exists t', tcp_recved tcp_output k t = Done (tt, t') /\ goes_on t t' R (Z.min (W + k) TCP_WND) A U N L.
Proof.
  intros Hc Hk. pose proof Hc as [Hw HW Hrec Hin Hs Hroom Hsaid Hlog]. pose proof Hw as [Hn HWd HWr HA Hann Hri Hne Hm].
  unfold tcp_recved. rewrite get_bind, !lwip_assert_bind; cycle 1.
  { rewrite HWd. lia. }
  { apply negb_true_iff, bool_decide_eq_false. by destruct Hrec as [-> | ->]. }
  rewrite on_rcv_bind. set (t1 := set_pcb _ t). change TCP_WND with 5360 in *.
  set (W' := Z.min (W + k) 5360). assert (rcv_wnd (rcv (the_pcb t1)) = W') as HW1.
  { cbn. rewrite HWd, u16_id by (unfold is_u16; lia). done. }
  destruct (update_ann_ok t1 R W' A) as (a & z & E1 & Ha1 & Ha2); [done|done|lia|done|lia|lia|done|]. rewrite (bind_done _ _ _ _ _ E1).
  set (t2 := set_pcb _ t1). assert (conn false false t2 R W' A U N L) as Hc2.
  { apply (conn_frame g S0 base lo false false t t2 R W A); try done; [by split; cbn; try done; lia|change TCP_WND with 5360; lia]. }
  destruct (_ <=? _).
  - unfold tcp_ack_now. rewrite modify_bind. destruct (output_goes_on _ _ _ _ _ _ _ _ (conn_ack_flags _ _ _ _ _ _ _ _ _ _ Hc2 ack_now_flag)) as (r & t' & E3 & Hgo).
    rewrite (bind_done _ _ _ _ _ E3). exists t'. split; [done|]. by apply (goes_on_after t (set_pcb (set_flags (set_bits TF_ACK_NOW)) t2) t' _ _ A _ N).
  - exists t2. split; [done|]. by exists A, N.
Qed.

(** The fast timer sends the acknowledgement that was delayed. *)
Lemma fasttmr_goes_on t R W A U N L : conn false false t R W A U N L -> exists t', app_fasttmr t = Done (tt, t') /\ goes_on t t' R W A U N L.
Proof.
  intros Hc. unfold app_fasttmr, fasttmr_pcb, get_pcb. rewrite bind_assoc, get_bind, ret_bind.
  assert (exists t', (if has (pcb_flags (the_pcb t)) TF_ACK_DELAY then tcp_ack_now;; tcp_output;; clear_flag (Z.lor TF_ACK_DELAY TF_ACK_NOW) else mret tt) t = Done (tt, t') /\
    goes_on t t' R W A U N L) as (t' & E1 & Hgo).
  { destruct (has _ TF_ACK_DELAY); [|exists t; split; [done|]; by exists A, N].
    unfold tcp_ack_now. rewrite modify_bind. destruct (output_goes_on _ _ _ _ _ _ _ _ (conn_ack_flags _ _ _ _ _ _ _ _ _ _ Hc ack_now_flag)) as (r & t1 & E3 & A' & N' & Hc1 & HA & HN & Hu).
    rewrite (bind_done _ _ _ _ _ E3). eexists. split; [reflexivity|]. exists A', N'. split; [|split; [done|]; split; [done|by destruct Hu]].
    apply conn_ack_flags; [done|]. intros. by apply has_clear_other. }
  rewrite (bind_done _ _ _ _ _ E1), bind_assoc, get_bind, ret_bind. destruct Hgo as (A' & N' & Hc' & Hrest). rewrite (sn_refused _ (conn_sane _ _ _ _ _ _ _ _ _ _ _ _ _ Hc')).
  exists t'. split; [done|]. by exists A', N'.
Qed.

(** tcp_write *)
Lemma write_goes_on t R W A U N L len fl : conn false false t R W A U N L -> 0 <= len ->
  exists r t' L', tcp_write (Some (bytes_of L len)) fl t = Done (r, t') /\ conn false false t' R W A U N L' /\ undisturbed t t' /\
    (r = ERR_OK /\ L' = L + len \/ r = ERR_MEM /\ L' = L /\ snd_q (the_pcb t') = snd_q (the_pcb t)).
Proof.
  intros [V1 V2 V3 V4 (la & lu & o & V5) V6 V7 V8] Hlen.
  destruct (tcp_write_ok g t S0 U N L la lu o len fl V3 V5 Hlen) as (r & t' & L' & lu' & E1 & [Q1 Q2 Q3 Q4 Q5 Q6 Q7 Q8 [Q9 Q10 Q11]] & Hs & Hor).
  exists r, t', L'. split; [done|]. split; [|split; [by split; rewrite ?Q6|done]]. split; try done.
  - destruct V1. by split; rewrite ?Q6, ?Q2.
  - unfold receiving. by rewrite Q1.
  - by rewrite Q8.
  - by exists la, lu', (la ++ lu').
  - unfold roomy. by rewrite Q3.
  - by rewrite Q11.
  - by rewrite Q11.
Qed.

(** ** The slow timer *)

Lemma conn_env mid b t e R W A U N L : conn mid b t R W A U N L -> got e = got (env t) /\ eof e = eof (env t) /\ outs e = outs (env t) -> conn mid b (set_env e t) R W A U N L /\ undisturbed t (set_env e t).
Proof.
  intros Hc (G1 & G2 & G3). split; [|by split].
  apply (conn_frame g S0 base lo mid b t _ R W A); try done; [by destruct (cn_window _ _ _ _ _ _ _ _ _ _ _ _ _ Hc)|apply Hc|apply Hc].
Qed.

(** The read behind the end of tcp_backoff. *)
Definition overrun {A} (m : M (tcp E) A) t : Prop := TCP_MAXRTX < nrtx (ctl (the_pcb t)) /\ m t = Crash Undefined.

(** Numbers of the sender that its invariant does not depend on. *)
Lemma conn_numbers b t h R W A U N L : conn false b t R W A U N L ->
  (let p := the_pcb t in let p' := h p in
    state p' = state p /\ pcb_flags p' = pcb_flags p /\ mss p' = mss p /\ rcv p' = rcv p /\ snd_q p' = snd_q p /\ offer (win p') = offer (win p) /\
    (refused_data (misc p') = refused_data (misc p) /\ so_options (misc p') = so_options (misc p)) /\
    1 <= cwnd (ctl p') < 2 ^ 16 /\ 1 <= ssthresh (ctl p') < 2 ^ 16 /\ 0 <= nrtx (ctl p') /\ 0 <= persist_backoff (win p') <= 7) ->
  conn false b (set_pcb h t) R W A U N L /\ undisturbed t (set_pcb h t).
Proof.
  intros [V1 V2 V3 V4 (la & lu & o & [Q1 Q2 Q3 Q4 Q5 [Y1 Y2 Y3 Y4 Y5 Y6 Y7 Y8 Y9 Y10]]) V6 V7 V8] (H1 & H2 & H3 & H4 & H5 & H6 & [H7 H8] & H9 & H10 & H11 & H12).
  unfold offer in H6. injection H6 as X1 X2 X3 X4. split; [|by split; cbn; rewrite ?H4]. split; try done.
  - destruct V1. by split; cbn; rewrite ?H4, ?H3.
  - unfold receiving. cbn. by rewrite H1.
  - exists la, lu, o. split; cbn; rewrite ?H5; try done; [by unfold limit in *; rewrite H3, X2|]. split; by rewrite ?X1, ?X2, ?H2, ?H3, ?H7, ?H8.
  - unfold roomy. cbn. by rewrite X1.
Qed.

Lemma persist_goes_on t R W A U N L : conn false false t R W A U N L -> 0 < persist_backoff (win (the_pcb t)) -> exists t', slow_retransmit t = Done (tt, t') /\ goes_on t t' R W A U N L.
Proof.
  intros Hc Hp. pose proof (conn_sane _ _ _ _ _ _ _ _ _ _ _ _ _ Hc) as Hsane. pose proof (sn_persist _ Hsane) as Hb.
  unfold slow_retransmit, get_pcb. rewrite bind_assoc, get_bind, ret_bind, (proj2 (Z.ltb_lt _ _)) by done.
  unfold on_win, on_pcb. rewrite modify_bind. match goal with |- context [set_pcb ?h t] => destruct (conn_numbers _ _ h _ _ _ _ _ _ Hc) as [Hc1 Hu1]; [destruct Hsane; cbn; repeat (split; [done|]); lia|set (t1 := set_pcb h t) in *] end.
  rewrite bind_assoc, get_bind, ret_bind. cbv zeta.
  assert (exists b, tcp_persist_backoff !! Z.to_nat (persist_backoff (win (the_pcb t1)) - 1) = Some b) as [b ->].
  { apply lookup_lt_is_Some_2. change (length tcp_persist_backoff) with 7%nat. cbn. lia. }
  rewrite (deref_bind _ b) by done. destruct (b <=? _); [|exists t1; split; [done|]; by exists A, N].
  rewrite modify_bind. pose proof (conn_sane _ _ _ _ _ _ _ _ _ _ _ _ _ Hc1) as Hsane1.
  match goal with |- context [set_pcb ?h t1] => destruct (conn_numbers _ _ h _ _ _ _ _ _ Hc1) as [Hc2 Hu2]; [destruct Hsane1; cbn; repeat (split; [done|]); cbn in *; destruct (Z.ltb_spec (persist_backoff (win (the_pcb t))) 7); lia|set (t2 := set_pcb h t1) in *] end.
  destruct (cn_sends _ _ _ _ _ _ _ _ _ _ _ _ _ Hc2) as (la & lu & o & Hs2). destruct (zero_window_probe_ok g t2 S0 U N L la lu o Hs2) as (t' & E1 & Hs' & F).
  exists t'. split; [done|]. destruct (conn_flushes g S0 base lo false false false t2 t' R W A U N L N (Z.max N (U + 1)) la lu o Hc2 F) as (A' & Hc' & HA'); [lia|lia|done| |].
  - unfold roomy. rewrite (flushes_wnd _ _ _ _ _ F). apply Hc2.
  - exists A', N. split; [done|]. split; [done|]. split; [lia|]. etransitivity; [exact Hu1|]. etransitivity; [exact Hu2|]. by eapply flushes_undisturbed.
Qed.

Lemma rto_goes_on t R W A U N L : conn false false t R W A U N L -> persist_backoff (win (the_pcb t)) <= 0 ->
  (exists t', slow_retransmit t = Done (tt, t') /\ goes_on t t' R W A U N L) \/ overrun slow_retransmit t.
Proof.
  intros Hc Hp. unfold overrun. unfold slow_retransmit, get_pcb. rewrite bind_assoc, get_bind, ret_bind, (proj2 (Z.ltb_ge _ _)) by done.
  assert (exists t1, (if 0 <=? rtime (ctl (the_pcb t)) then on_ctl (fun c => set_rtime (s16 (rtime c + 1)) c) else mret tt) t = Done (tt, t1) /\ conn false false t1 R W A U N L /\ undisturbed t t1 /\
    nrtx (ctl (the_pcb t1)) = nrtx (ctl (the_pcb t))) as (t1 & E1 & Hc1 & Hu1 & Hn1).
  { destruct (0 <=? _); [|by exists t]. eexists. split; [reflexivity|]. split; [|split; [|done]]; apply conn_numbers with (1 := Hc); destruct (conn_sane _ _ _ _ _ _ _ _ _ _ _ _ _ Hc); done. }
  rewrite (bind_done _ _ _ _ _ E1), bind_assoc, get_bind, ret_bind. cbv zeta. pose proof (conn_sane _ _ _ _ _ _ _ _ _ _ _ _ _ Hc1) as Hsane.
  destruct (negb _ && _); [|left; exists t1; split; [done|]; by exists A, N].
  pose proof (cn_receiving _ _ _ _ _ _ _ _ _ _ _ _ _ Hc1) as Hrec1. rewrite bool_decide_eq_false_2 by (by destruct Hrec1 as [-> | ->]).
  destruct (tcp_backoff !! Z.to_nat (nrtx (ctl (the_pcb t1)))) as [b|] eqn:Hb.
  2: { right. split; [|done]. apply lookup_ge_None_1 in Hb. change (length tcp_backoff) with 13%nat in Hb. change TCP_MAXRTX with 12. rewrite Hn1 in Hb. lia. }
  left. assert (exists t2, (b ← deref (Some b); on_ctl (set_rto (s16 (Z.shiftl (Z.shiftr (sa (ctl (the_pcb t1))) 3 + sv (ctl (the_pcb t1))) b)))) t1 = Done (tt, t2) /\
    conn false false t2 R W A U N L /\ undisturbed t1 t2) as (t2 & E2 & Hc2 & Hu2).
  { eexists. split; [reflexivity|]. apply conn_numbers with (1 := Hc1). destruct Hsane. done. }
  rewrite (bind_done _ _ _ _ _ E2). unfold on_ctl, on_pcb. rewrite !modify_bind.
  match goal with |- context [tcp_rexmit_rto ?t3] => assert (conn false false t3 R W A U N L /\ undisturbed t2 t3) as [Hc3 Hu3]; [|set (t3' := t3) in *; clearbody t3'] end.
  { pose proof (conn_sane _ _ _ _ _ _ _ _ _ _ _ _ _ Hc2) as [Y1 Y2 Y3 Y4 Y5 Y6 Y7 Y8 Y9 Y10].
    match goal with |- context [set_pcb ?h3 (set_pcb ?h2 (set_pcb ?h1 t2))] => apply (conn_numbers _ t2 (fun p => h3 (h2 (h1 p))) _ _ _ _ _ _ Hc2) end.
    pose proof (sn_win _ Hsane) as [Hwin _]. pose proof (sn_cwnd _ Hsane) as Hcw. pose proof (sn_mss _ Hsane) as Hm. change TCP_MSS with 536 in *.
    set (m1 := mss (the_pcb t1)) in *. set (e := Z.min _ _). assert (0 <= e < 2 ^ 16) as He by (subst e; lia). clearbody e m1.
    cbn. repeat (split; [done|]). rewrite Z.shiftr_div_pow2, Z.shiftl_mul_pow2 by lia. change (2 ^ 1) with 2.
    split; [lia|]. split; [|done]. destruct (Z.ltb_spec (e / 2) (m1 * 2)); [rewrite u16_id by (unfold is_u16; lia); lia|]. Z.div_mod_to_equations. lia. }
  destruct (cn_sends _ _ _ _ _ _ _ _ _ _ _ _ _ Hc3) as (la & lu & o & Hs3).
  destruct (rexmit_rto_ok g t3' S0 U N L la lu o) as (t' & N' & la' & lu' & E4 & HN & Hs' & Hroom & F); [apply Hc3|done|apply Hc3|apply Hc3|].
  exists t'. split; [done|]. destruct (conn_flushes g S0 base lo false false false t3' t' R W A U N L N' N' la' lu' o Hc3 F) as (A' & Hc' & HA'); [lia|done|done|done|].
  exists A', N'. split; [done|]. split; [done|]. split; [done|]. etransitivity; [exact Hu1|]. etransitivity; [exact Hu2|]. etransitivity; [exact Hu3|]. by eapply flushes_undisturbed.
Qed.

(** What is queued out of sequence is kept, or dropped as a whole. *)
Record aged t t' : Prop := Aged {
  ag_ooseq : ooseq (rcv (the_pcb t')) = ooseq (rcv (the_pcb t)) \/ ooseq (rcv (the_pcb t')) = [];
  ag_state : state (the_pcb t') = state (the_pcb t);
  ag_got : got (env t') = got (env t);
  ag_eof : eof (env t') = eof (env t)
}.

Lemma aged_disturbed t t1 t2 t3 : undisturbed t t1 -> aged t1 t2 -> undisturbed t2 t3 -> aged t t3.
Proof.
  intros [] [[Ho|Ho] ? ? ?] [].
  - split; [left|..]; congruence.
  - split; [right|..]; congruence.
Qed.

Lemma retransmit_goes_on t R W A U N L : conn false false t R W A U N L ->
  (exists t', slow_retransmit t = Done (tt, t') /\ goes_on t t' R W A U N L) \/ overrun slow_retransmit t.
Proof. intros Hc. destruct (Z_lt_ge_dec 0 (persist_backoff (win (the_pcb t)))); [left; by apply persist_goes_on|apply rto_goes_on; (done || lia)]. Qed.

(** The rest of what the slow timer does for a PCB. *)
Lemma slow_pcb_ok t R W A U N L : conn false false t R W A U N L ->
  (exists t' A' N', slow_pcb t = Done (if nrtx (ctl (the_pcb t)) =? TCP_MAXRTX then PcbRemoved else PcbStays, t') /\
    conn false false t' R W A' U N' L /\ A <= A' /\ N <= N' /\ aged t t') \/ overrun slow_pcb t.
Proof.
  intros Hc. pose proof (cn_receiving _ _ _ _ _ _ _ _ _ _ _ _ _ Hc) as Hrec.
  assert ((exists t1, (if nrtx (ctl (the_pcb t)) =? TCP_MAXRTX then mret tt else slow_retransmit) t = Done (tt, t1) /\ goes_on t t1 R W A U N L) \/
    overrun (if nrtx (ctl (the_pcb t)) =? TCP_MAXRTX then mret tt else slow_retransmit) t) as [(t1 & E1 & A' & N' & Hc1 & HA & HN & Hu1)|[Hn Ec]].
  { destruct (_ =? _); [left; exists t; split; [done|]; by exists A, N|by apply retransmit_goes_on]. }
  2: { right. split; [done|]. unfold slow_pcb, get_pcb. rewrite bind_assoc, get_bind, ret_bind. cbv zeta.
    rewrite (bool_decide_eq_false_2 (state (the_pcb t) = SYN_SENT)) by (by destruct Hrec as [-> | ->]). cbn [andb orb]. by apply bind_crash. }
  left. unfold slow_pcb, get_pcb. rewrite bind_assoc, get_bind, ret_bind. cbv zeta.
  rewrite (bool_decide_eq_false_2 (state (the_pcb t) = SYN_SENT)) by (by destruct Hrec as [-> | ->]). cbn [andb orb].
  rewrite (bind_done _ _ _ _ _ E1), get_bind. cbv zeta.
  assert (slow_keepalive t1 = Done (false, t1)) as E2 by (unfold slow_keepalive; rewrite get_bind; cbv zeta; by rewrite (sn_keep _ (conn_sane _ _ _ _ _ _ _ _ _ _ _ _ _ Hc1))).
  rewrite (bind_done _ _ _ _ _ E2), on_rcv_bind. pose proof (cn_receiving _ _ _ _ _ _ _ _ _ _ _ _ _ Hc1) as Hrec1.
  rewrite !(bool_decide_eq_false_2 (state (the_pcb t1) = _)) by (by destruct Hrec1 as [-> | ->]). cbn [andb orb]. rewrite !orb_false_r.
  eexists _, A', N'. split; [reflexivity|]. split; [|split; [done|]; split; [done|]].
  - apply (conn_frame g S0 base lo false false t1 _ R W A'); try done; [|apply Hc1].
    destruct (cn_window _ _ _ _ _ _ _ _ _ _ _ _ _ Hc1). split; cbn; try done; by destruct (_ <=? _).
  - eapply aged_disturbed; [exact Hu1| |reflexivity]. split; try done. cbn. destruct (_ <=? _); [by right|by left].
Qed.

(** The slow timer: after TCP_MAXRTX retransmissions the connection is closed, and otherwise
    it goes on; fast retransmissions are counted as well, and may take the count behind the
    end of tcp_backoff. *)
Lemma slowtmr_goes_on t R W A U N L : conn false false t R W A U N L ->
  (exists t', app_slowtmr t = Done (tt, t') /\
    (nrtx (ctl (the_pcb t)) = TCP_MAXRTX /\ state (the_pcb t') = CLOSED \/
     nrtx (ctl (the_pcb t)) <> TCP_MAXRTX /\ exists A' N', conn false false t' R W A' U N' L /\ A <= A' /\ N <= N' /\ aged t t')) \/ overrun app_slowtmr t.
Proof.
  intros Hc. unfold overrun, app_slowtmr, tcp_slowtmr. rewrite modify_bind. destruct (conn_env _ _ _ (tick (env t)) _ _ _ _ _ _ Hc) as [Hc0 Hu0]; [apply tick_quiet|].
  set (t0 := set_env _ t) in *. change (nrtx (ctl (the_pcb t))) with (nrtx (ctl (the_pcb t0))) in *. clearbody t0. unfold get_pcb. rewrite bind_assoc, get_bind, ret_bind.
  pose proof (cn_receiving _ _ _ _ _ _ _ _ _ _ _ _ _ Hc0) as Hrec. rewrite !(bool_decide_eq_false_2 (state (the_pcb t0) = _)) by (by destruct Hrec as [-> | ->]).
  rewrite !lwip_assert_bind by done. unfold slowtmr_active. destruct (slow_pcb_ok t0 _ _ _ _ _ _ Hc0) as [(t1 & A1 & N1 & E1 & Hc1 & HA & HN & Hag)|[Hn Ec]]; [left|right; split; [done|by apply bind_crash]].
  rewrite (bind_done _ _ _ _ _ E1). destruct (Z.eqb_spec (nrtx (ctl (the_pcb t0))) TCP_MAXRTX) as [Heq|Hne].
  - pose proof (cn_receiving _ _ _ _ _ _ _ _ _ _ _ _ _ Hc1) as Hrec1. unfold tcp_pcb_purge, get_pcb. rewrite !bind_assoc, get_bind, ret_bind.
    rewrite !(bool_decide_eq_false_2 (state (the_pcb t1) = _)) by (by destruct Hrec1 as [-> | ->]). eexists. split; [reflexivity|]. by left.
  - unfold on_misc, on_pcb. rewrite modify_bind. pose proof (conn_sane _ _ _ _ _ _ _ _ _ _ _ _ _ Hc1) as Hs1.
    match goal with |- context [set_pcb ?h t1] => destruct (conn_numbers _ _ h _ _ _ _ _ _ Hc1) as [Hc2 Hu2]; [by destruct Hs1|set (t2 := set_pcb h t1) in *; clearbody t2] end.
    unfold get_pcb. rewrite bind_assoc, get_bind, ret_bind. destruct (_ <=? _).
    + rewrite modify_bind. pose proof (conn_sane _ _ _ _ _ _ _ _ _ _ _ _ _ Hc2) as Hs2.
      match goal with |- context [set_pcb ?h t2] => destruct (conn_numbers _ _ h _ _ _ _ _ _ Hc2) as [Hc3 Hu3]; [by destruct Hs2|set (t3 := set_pcb h t2) in *; clearbody t3] end.
      unfold ev_done. rewrite ret_bind. cbn [Z.eqb ERR_OK]. destruct (output_goes_on _ _ _ _ _ _ _ _ Hc3) as (r & t' & E3 & A' & N' & Hc' & HA' & HN' & Hu').
      rewrite (bind_done _ _ _ _ _ E3). exists t'. split; [done|]. right. split; [done|]. exists A', N'. split; [done|]. split; [lia|]. split; [lia|].
      eapply aged_disturbed; [exact Hu0|exact Hag|]. etransitivity; [exact Hu2|]. by etransitivity.
    + exists t2. split; [done|]. right. split; [done|]. exists A1, N1. split; [done|]. split; [done|]. split; [done|]. by eapply aged_disturbed.
Qed.
End stream.
