(* ===== verification/TcpDeliver.v ===== *)
(** * TCP: the streams of an open connection

    The histories of a connection that is open in both directions.  The application gets the
    stream of the other end from its first byte on without a gap, and the end of it when
    everything in front of the FIN has come; what it writes is sent at the numbers it has in
    its own stream, and is kept until it is acknowledged. *)

From Stdlib Require Import Sorted.
From S2P Require Import Prelude TcpPcb TcpRecv TcpOut TcpAck TcpProcess TcpStream TcpRecvSpec TcpInseq TcpFrame TcpSend TcpAckSpec TcpFlush TcpWriteSpec TcpReceive TcpInput TcpConn TcpCalls TcpSim.

Section deliver.
(** The stream that is received, which [fin] ends when it is there, from [R0] on; the stream
    that is sent, from [S0] on. *)
Context (f : Z -> Z) (fin : option Z) (R0 : Z) (g : Z -> Z) (S0 : Z).

#[local] Abbreviation seg_is := (TcpStream.seg_is f).

#[local] Abbreviation queue_ok := (TcpStream.queue_ok fin).

(** What had gone out, and where the receiver was, when a part of the history began. *)
Context (base : list tcp_out) (lo : Z * Z).

#[local] Abbreviation conn := (TcpConn.conn g S0 base lo).

Context {E : Type} `{TcpApp E}.

Implicit Types (t : tcp E).

(** The segment that carries the piece [s, n, b] of the stream in the chain [p]. *)
Definition carries (s n : Z) (b : bool) (h : tcp_hdr) (p : chain) : Prop :=
  hd_seqno h = u32 s /\ concat p = bytes_of f s n /\ has (hd_flags h) TCP_FIN = b /\ has (hd_flags h) TCP_SYN = false /\ has (hd_flags h) TCP_RST = false /\ is_bytes (hd_opts h).

Lemma segment_arrived t R s n b h p : carries s n b h p -> 0 <= n < 0x7fff -> rcv_nxt (rcv (the_pcb t)) = u32 R ->
  the_in t = set_input_pcb true (set_segment h p) -> arrived f t R s n b.
Proof.
  intros (Hseq & Hc & Hf & Hs & _) Hn HR Hin. assert (tot_len p = n) as Ht by (unfold tot_len; rewrite Hc; apply zlen_bytes_of; lia).
  split; rewrite ?Hin; cbn; [done| | |done].
  - rewrite Ht, has_fin_syn, Hf, Hs, orb_false_r. rewrite u16_id; [done|]. unfold is_u16. destruct b; lia.
  - split; cbn; [by exists p|rewrite Ht; apply u16_id; unfold is_u16; lia|done|done|done].
Qed.

(** recv_text that takes nothing: the stream has ended, or there is no text. *)
Lemma no_text t : state (the_pcb t) = CLOSE_WAIT \/ tcplen (the_in t) = 0 -> exists t', recv_text t = Done (tt, t') /\ keeps t t'.
Proof.
  intros Hor. unfold recv_text. rewrite get_bind. cbv zeta.
  assert ((0 <? tcplen (the_in t)) && (state_num (state (the_pcb t)) <? state_num CLOSE_WAIT) = false) as ->.
  { destruct Hor as [-> | ->]; [by rewrite andb_false_r|done]. }
  destruct (TCP_SEQ_BETWEEN _ _ _); eexists; (split; [reflexivity|by split]).
Qed.

(** ** Histories *)

(** The position behind [x] that a sequence number stands for. *)
Definition track (x a : Z) : Z := x + u32 (a - x).

(** The connection, and the positions of rcv_nxt, of the end of the announced window, of
    lastack, snd_nxt and snd_lbb. *)
Record world := World { w_tcp : tcp E; w_nxt : Z; w_edge : Z; w_una : Z; w_snd : Z; w_lbb : Z }.

Definition follow (w : world) t : world :=
  let r := rcv (the_pcb t) in let s := snd_q (the_pcb t) in
  World t (track (w_nxt w) (rcv_nxt r)) (track (w_edge w) (rcv_ann_right_edge r)) (track (w_una w) (lastack s)) (track (w_snd w) (snd_nxt s)) (track (w_lbb w) (snd_lbb s)).

Definition wnd_of (w : world) : Z := rcv_wnd (rcv (the_pcb (w_tcp w))).

(** What the header of a segment may say: it acknowledges the position [P], which is not far
    away, does not take back a window that was used, and has no smaller MSS. *)
Definition fair_to (w : world) (h : tcp_hdr) (P : Z) : Prop :=
  ack_fair h (win (the_pcb (w_tcp w))) (w_una w) (w_snd w) P /\ mss_kept h (the_pcb (w_tcp w)).

(** Segments of the stream arrive in any order, and so do segments without text; the
    application reads and writes, and the timers run. *)
Inductive tcp_step : world -> world -> Prop :=
| st_segment w s n b h p P t' : carries s n b h p -> segment_ok fin (w_tcp w) (w_nxt w) (wnd_of w) (w_edge w) s n b -> fair_to w h P ->
    app_input h p (w_tcp w) = Done (tt, t') -> tcp_step w (follow w t')
| st_no_text w s h p P t' : carries s 0 false h p -> fair_to w h P -> app_input h p (w_tcp w) = Done (tt, t') -> tcp_step w (follow w t')
| st_recved w k t' : 0 <= k <= 0xffff - wnd_of w -> tcp_recved tcp_output k (w_tcp w) = Done (tt, t') -> tcp_step w (follow w t')
| st_write w len fl r t' : 0 <= len < 2 ^ 16 -> tcp_write (Some (bytes_of g (w_lbb w) len)) fl (w_tcp w) = Done (r, t') -> tcp_step w (follow w t')
| st_output w r t' : tcp_output (w_tcp w) = Done (r, t') -> tcp_step w (follow w t')
| st_fasttmr w t' : app_fasttmr (w_tcp w) = Done (tt, t') -> tcp_step w (follow w t')
| st_slowtmr w t' : app_slowtmr (w_tcp w) = Done (tt, t') -> state (the_pcb t') <> CLOSED -> tcp_step w (follow w t').

Record tcp_inv (w : world) (l : list piece) : Prop := TcpInv {
  ti_conn : conn false false (w_tcp w) (w_nxt w) (wnd_of w) (w_edge w) (w_una w) (w_snd w) (w_lbb w);
  ti_queue : Forall2 seg_is (ooseq (rcv (the_pcb (w_tcp w)))) l;
  ti_ok : queue_ok (w_nxt w + 1) (reach (w_nxt w) (wnd_of w) (w_edge w)) l;
  ti_start : R0 <= text_end fin R0 /\ R0 <= w_nxt w;
  ti_got : got (env (w_tcp w)) = bytes_of f R0 (text_end fin (w_nxt w) - R0);
  ti_eof : eof (env (w_tcp w)) = past_fin fin (w_nxt w);
  ti_state : state (the_pcb (w_tcp w)) = if past_fin fin (w_nxt w) then CLOSE_WAIT else ESTABLISHED
}.

Lemma track_ok x y a : seq_of a y -> x <= y < x + 2 ^ 32 -> track x a = y.
Proof.
  intros Ha Hy. unfold track. rewrite (u32_seq _ (y - x)) by (apply seq_of_sub; [done|apply seq_of_refl]). rewrite u32_id by (unfold is_u32; lia). lia.
Qed.

(** The world follows the positions. *)
Lemma follow_ok w l t R W A U N L : tcp_inv w l -> conn false false t R W A U N L -> w_nxt w <= R < w_nxt w + 2 ^ 17 -> w_edge w <= A -> w_una w <= U <= w_snd w -> w_snd w <= N -> w_lbb w <= L ->
  follow w t = World t R A U N L /\ rcv_wnd (rcv (the_pcb t)) = W.
Proof.
  intros [Hc _ _ _ _ _ _] Hc' HR HA HU HN HL. pose proof (conn_pos _ _ _ _ _ _ _ _ _ _ _ _ _ Hc) as [P1 P2]. pose proof (conn_pos _ _ _ _ _ _ _ _ _ _ _ _ _ Hc') as [P3 P4].
  change TCP_SND_BUF with 6432 in *. destruct (cn_window _ _ _ _ _ _ _ _ _ _ _ _ _ Hc) as [V1 V2 V3 V4 V5 V6 V7 V8], (cn_window _ _ _ _ _ _ _ _ _ _ _ _ _ Hc') as [U1 U2 U3 U4 U5 U6 U7 U8].
  destruct (cn_sends _ _ _ _ _ _ _ _ _ _ _ _ _ Hc') as (la & lu & o & Hs). pose proof (sn_q _ _ _ _ _ _ _ _ _ _ Hs) as [S1 S2 S3 _ _ _ _ _ _ _ _].
  split; [|done]. unfold follow. f_equal; apply track_ok; rewrite ?U1, ?S1, ?S2, ?S3; (done || lia || auto with seq).
Qed.

Lemma inv_follow w l t R W A U N L l' : tcp_inv w l -> conn false false t R W A U N L -> w_nxt w <= R < w_nxt w + 2 ^ 17 -> w_edge w <= A -> w_una w <= U <= w_snd w -> w_snd w <= N -> w_lbb w <= L ->
  Forall2 seg_is (ooseq (rcv (the_pcb t))) l' -> queue_ok (R + 1) (reach R W A) l' -> got (env t) = bytes_of f R0 (text_end fin R - R0) ->
  eof (env t) = past_fin fin R -> state (the_pcb t) = (if past_fin fin R then CLOSE_WAIT else ESTABLISHED) ->
  tcp_inv (follow w t) l' /\ follow w t = World t R A U N L.
Proof.
  intros Hi Hc HR HA HU HN HL. destruct (follow_ok w l t R W A U N L Hi Hc HR HA HU HN HL) as [Ef Ew]. intros. split; [|done].
  pose proof (ti_start _ _ Hi). rewrite Ef. split; unfold wnd_of; cbn; rewrite ?Ew; try done. lia.
Qed.

(** The same, when nothing is taken. *)
Lemma inv_same w l t W A U N L : tcp_inv w l -> conn false false t (w_nxt w) W A U N L -> wnd_of w <= W -> w_edge w <= A -> w_una w <= U <= w_snd w -> w_snd w <= N -> w_lbb w <= L -> aged (w_tcp w) t ->
  exists l', tcp_inv (follow w t) l' /\ follow w t = World t (w_nxt w) A U N L.
Proof.
  intros Hi Hc HW HA HU HN HL [Ho Hs Hg He].
  assert (exists l', Forall2 seg_is (ooseq (rcv (the_pcb t))) l' /\ queue_ok (w_nxt w + 1) (reach (w_nxt w) W A) l') as (l' & Hl' & Hq').
  { destruct Ho as [-> | ->]; [exists l; split; [apply Hi|]|by exists []]. apply (queue_e (reach (w_nxt w) (wnd_of w) (w_edge w))); [unfold reach; lia|apply Hi]. }
  exists l'. apply (inv_follow w l t (w_nxt w) W A U N L l'); try done; [lia|rewrite Hg; apply Hi|rewrite He; apply Hi|rewrite Hs; apply Hi].
Qed.

Lemma undisturbed_aged t t' : undisturbed t t' -> aged t t'.
Proof. intros []. split; try done. by left. Qed.

Lemma text_joined R R1 : R0 <= R -> R <= R1 ->
  bytes_of f R0 (text_end fin R - R0) ++ bytes_of f (text_end fin R) (text_end fin R1 - text_end fin R) = bytes_of f R0 (text_end fin R1 - R0).
Proof.
  intros H1 H2. destruct (Z_le_gt_dec R0 (text_end fin R0)) as [H3|H3].
  - pose proof (text_end_mono fin R0 R H1). pose proof (text_end_mono fin R R1 H2).
    replace (text_end fin R1 - R0) with ((text_end fin R - R0) + (text_end fin R1 - text_end fin R)) by lia. rewrite bytes_of_app by lia. do 2 f_equal. lia.
  - unfold text_end in *. destruct fin as [e|]; [|lia]. rewrite !Z.min_r by lia. rewrite Z.sub_diag. unfold bytes_of at 2. cbn. by rewrite app_nil_r.
Qed.

Lemma acks_between U N P : U <= N -> U <= acks U N P <= N.
Proof. intros. unfold acks. destruct (decide _); lia. Qed.

(** A segment whose text is not looked at. *)
Lemma skip_step w l s n b h p P : tcp_inv w l -> carries s n b h p -> fair_to w h P -> past_fin fin (w_nxt w) = true \/ n = 0 /\ b = false ->
  exists t' l', app_input h p (w_tcp w) = Done (tt, t') /\ tcp_inv (follow w t') l' /\ w_una (follow w t') = acks (w_una w) (w_snd w) P.
Proof.
  intros Hl (Hseq & Hc & Hfin & Hsyn & Hrst & Hb) [Hfair Hmss] Hor. pose proof Hl as [Hcn Hq Hok _ Hgot Heof Hstate].
  destruct (input_conn g S0 base lo h p (w_tcp w) _ _ _ _ _ _ P Hcn Hrst Hsyn Hb Hfair Hmss) as (t1 & mid & Hc1 & Hin1 & He1 & Hr1 & Hs1 & Hrest).
  destruct (no_text t1) as (t2 & E2 & K2).
  { destruct Hor as [Hp|[-> ->]]; [left; by rewrite Hs1, Hstate, Hp|right]. rewrite Hin1. cbn. unfold tot_len. rewrite Hc, has_fin_syn, Hfin, Hsyn. done. }
  destruct (Hrest t2 (w_nxt w) (wnd_of w) (w_edge w) E2) as (t' & W' & A' & N' & E' & Hc' & HW' & HA' & HN' & Ho' & Hs' & Hg' & He');
    [apply (keeps_window t1); [done|apply Hc1]|apply Hcn|lia|lia|unfold receiving; rewrite (kp_state _ _ K2); apply Hc1|].
  assert (has (recv_flags (the_in t2)) TF_GOT_FIN = false /\ data_of (the_in t2) = []) as [Hfl Hd] by (unfold data_of; by rewrite (kp_flags _ _ K2), (kp_data _ _ K2), Hin1).
  rewrite Hfl in Hs', He'. rewrite Hd, app_nil_r in Hg'. rewrite orb_false_r in He'. pose proof (conn_pos _ _ _ _ _ _ _ _ _ _ _ _ _ Hcn) as [HU _].
  destruct (inv_same w l t' W' A' _ N' _ Hl Hc') as (l' & Hl' & Ef); [lia|lia|apply acks_between; lia|lia|lia|split; rewrite ?Ho', ?Hs', ?(kp_rcv _ _ K2), ?(kp_state _ _ K2), ?Hr1; auto|].
  exists t', l'. split; [done|]. split; [done|]. by rewrite Ef.
Qed.

(** What a segment of the stream does. *)
Lemma segment_step w l s n b h p P : tcp_inv w l -> carries s n b h p -> segment_ok fin (w_tcp w) (w_nxt w) (wnd_of w) (w_edge w) s n b -> fair_to w h P ->
  exists t' l', app_input h p (w_tcp w) = Done (tt, t') /\ tcp_inv (follow w t') l' /\
    (past_fin fin (w_nxt w) = false -> s <= w_nxt w -> Z.min (piece_end (s, n, b)) (w_nxt w + wnd_of w) <= Z.max (w_nxt w) (w_nxt (follow w t'))).
Proof.
  intros Hl Hc Hso Hfair. destruct (past_fin fin (w_nxt w)) eqn:Ef.
  { destruct (skip_step w l s n b h p P Hl Hc Hfair) as (t' & l' & E1 & Hl' & _); [by left|]. by exists t', l'. }
  pose proof Hl as [Hcn Hq Hok [Hst1 Hst2] Hgot Heof Hstate]. rewrite Ef in Hstate.
  set (R := w_nxt w) in *. set (W := wnd_of w) in *. set (A := w_edge w) in *. pose proof Hc as (_ & _ & _ & Hsyn & Hrst & Hb). destruct Hfair as [Hfair Hmss].
  pose proof (so_piece _ _ _ _ _ _ _ _ Hso) as (Hn0 & _). cbn [fst snd] in Hn0. pose proof (so_len _ _ _ _ _ _ _ _ Hso) as Hlen.
  destruct (input_conn g S0 base lo h p (w_tcp w) _ _ _ _ _ _ P Hcn Hrst Hsyn Hb Hfair Hmss) as (t1 & mid & Hc1 & Hin1 & He1 & Hr1 & Hs1 & Hrest).
  pose proof (cn_window _ _ _ _ _ _ _ _ _ _ _ _ _ Hc1) as Hw1. pose proof (cn_wnd _ _ _ _ _ _ _ _ _ _ _ _ _ Hcn) as HW. pose proof (wi_range _ _ _ _ Hw1) as HWr.
  pose proof (wi_near _ _ _ _ Hw1). pose proof (wi_right _ _ _ _ Hw1). pose proof (wi_ann _ _ _ _ Hw1). change TCP_WND with 5360 in *.
  pose proof (segment_arrived t1 R s n b h p Hc ltac:(lia) (wi_nxt _ _ _ _ Hw1) Hin1) as Harr.
  assert (segment_ok fin t1 R W A s n b) as Hso1.
  { destruct Hso as [X1 X2 X3 X4 X5]. split; try done. intros Hx. destruct (X5 Hx) as [Y1 Y2]. split; [done|]. unfold no_straddle in *. by rewrite Hr1. }
  destruct (recv_text_ok f fin t1 R W A s n b l Hw1 Harr Hso1) as (t2 & R1 & A1 & l1 & E2 & [X1 X2 X3 X4 X5 X6] & HA1 & Hq1 & Hprog);
    [by rewrite Hs1, Hstate|by rewrite Hin1|by rewrite Hr1|done|].
  assert (has (recv_flags (the_in t2)) TF_GOT_FIN = past_fin fin R1) as Hfl.
  { rewrite X5, Hin1, Ef. cbn. by rewrite andb_true_r. }
  destruct (Hrest t2 R1 (W - (R1 - R)) A1 E2 X1) as (t' & W' & A' & N' & E' & Hc' & HW' & HA' & HN' & Ho' & Hs' & Hg' & He'); [lia|lia|lia| |].
  { unfold receiving. destruct X6 as [->|(_ & _ & ->)]; [|by right]. rewrite Hs1, Hstate. by left. }
  rewrite Hfl in Hs', He'. pose proof (text_joined R R1 Hst2 (proj1 X2)) as Hjoin. pose proof (conn_pos _ _ _ _ _ _ _ _ _ _ _ _ _ Hcn) as [HU _].
  assert (R <= R1 < R + 2 ^ 17 /\ A <= A' /\ reach R W A1 <= reach R1 W' A') as (HR1 & HA & Hreach).
  { clear - X2 HA1 HA' HW' HWr. unfold reach. change TCP_WND with 5360 in *. lia. }
  destruct (inv_follow w l t' R1 W' A' _ N' _ l1 Hl Hc' HR1 HA) as [Hi' Ef'];
    [apply acks_between; lia|done|lia|by rewrite Ho'|by apply (queue_e (reach R W A1))| |by rewrite He', Heof, Ef| |].
  - rewrite Hg', Hgot, X4, Hin1. exact Hjoin.
  - rewrite Hs'. destruct (past_fin fin R1); [done|]. destruct X6 as [->|(? & _)]; [by rewrite Hs1|done].
  - exists t', l1. split; [exact E'|]. split; [exact Hi'|]. intros _ HsR. rewrite Ef'. cbn. by apply Hprog.
Qed.

(** The other calls. *)
Lemma goes_on_step w l t' : tcp_inv w l -> goes_on g S0 base lo (w_tcp w) t' (w_nxt w) (wnd_of w) (w_edge w) (w_una w) (w_snd w) (w_lbb w) -> exists l', tcp_inv (follow w t') l'.
Proof.
  intros Hl (A' & N' & Hc & HA & HN & Hu). pose proof (conn_pos _ _ _ _ _ _ _ _ _ _ _ _ _ (ti_conn _ _ Hl)).
  destruct (inv_same w l t' _ A' _ N' _ Hl Hc) as (l' & Hl' & _); [lia|lia|lia|lia|lia|by apply undisturbed_aged|]. by exists l'.
Qed.

Lemma recved_step w l k : tcp_inv w l -> 0 <= k <= 0xffff - wnd_of w -> exists t' l', tcp_recved tcp_output k (w_tcp w) = Done (tt, t') /\ tcp_inv (follow w t') l'.
Proof.
  intros Hl Hk. destruct (recved_goes_on g S0 base lo (w_tcp w) _ _ _ _ _ _ k (ti_conn _ _ Hl) Hk) as (t' & E1 & A' & N' & Hc & HA & HN & Hu).
  pose proof (conn_pos _ _ _ _ _ _ _ _ _ _ _ _ _ (ti_conn _ _ Hl)). pose proof (cn_wnd _ _ _ _ _ _ _ _ _ _ _ _ _ (ti_conn _ _ Hl)).
  destruct (inv_same w l t' _ A' _ N' _ Hl Hc) as (l' & Hl' & _); [lia|lia|lia|lia|lia|by apply undisturbed_aged|]. by exists t', l'.
Qed.

Lemma output_step w l : tcp_inv w l -> exists r t' l', tcp_output (w_tcp w) = Done (r, t') /\ tcp_inv (follow w t') l' /\ waits (Z.min (snd_wnd (win (the_pcb (w_tcp w)))) (cwnd (ctl (the_pcb (w_tcp w))))) (the_pcb t').
Proof.
  intros Hl. destruct (output_goes_on g S0 base lo false (w_tcp w) _ _ _ _ _ _ (ti_conn _ _ Hl)) as (r & t' & E1 & Hgo). destruct (goes_on_step w l t' Hl Hgo) as [l' Hl'].
  exists r, t', l'. split; [done|]. split; [done|]. apply (tcp_output_waits _ _ _ E1), Hl.
Qed.

Lemma tcp_write_step w l len fl : tcp_inv w l -> 0 <= len -> exists r t' l', tcp_write (Some (bytes_of g (w_lbb w) len)) fl (w_tcp w) = Done (r, t') /\ tcp_inv (follow w t') l' /\
  (r = ERR_OK /\ w_lbb (follow w t') = w_lbb w + len \/ r = ERR_MEM /\ w_lbb (follow w t') = w_lbb w /\ snd_q (the_pcb t') = snd_q (the_pcb (w_tcp w))).
Proof.
  intros Hl Hlen. destruct (write_goes_on g S0 base lo (w_tcp w) _ _ _ _ _ _ len fl (ti_conn _ _ Hl) Hlen) as (r & t' & L' & E1 & Hc & Hu & Hor).
  pose proof (conn_pos _ _ _ _ _ _ _ _ _ _ _ _ _ (ti_conn _ _ Hl)).
  destruct (inv_same w l t' _ _ _ _ L' Hl Hc) as (l' & Hl' & Ef); [lia|lia|lia|lia|destruct Hor as [[_ ->]|(_ & -> & _)]; lia|by apply undisturbed_aged|].
  exists r, t', l'. split; [done|]. split; [done|]. rewrite Ef. cbn. destruct Hor as [[-> ->]|(-> & -> & ?)]; auto.
Qed.

Lemma fasttmr_step w l : tcp_inv w l -> exists t' l', app_fasttmr (w_tcp w) = Done (tt, t') /\ tcp_inv (follow w t') l'.
Proof.
  intros Hl. destruct (fasttmr_goes_on g S0 base lo (w_tcp w) _ _ _ _ _ _ (ti_conn _ _ Hl)) as (t' & E1 & Hgo). destruct (goes_on_step w l t' Hl Hgo) as [l' Hl']. by exists t', l'.
Qed.

Lemma slowtmr_step w l : tcp_inv w l ->
  (exists t', app_slowtmr (w_tcp w) = Done (tt, t') /\ (state (the_pcb t') = CLOSED \/ exists l', tcp_inv (follow w t') l')) \/ overrun app_slowtmr (w_tcp w).
Proof.
  intros Hl. destruct (slowtmr_goes_on g S0 base lo (w_tcp w) _ _ _ _ _ _ (ti_conn _ _ Hl)) as [(t' & E1 & Hor)|]; [left|by right].
  exists t'; (split; [done|]); destruct Hor as [[_ Hs]|(_ & A' & N' & Hc & HA & HN & Hag)]; [by left|right].
  pose proof (conn_pos _ _ _ _ _ _ _ _ _ _ _ _ _ (ti_conn _ _ Hl)).
  destruct (inv_same w l t' _ A' _ N' _ Hl Hc) as (l' & Hl' & _); [lia|lia|lia|lia|lia|done|]. by exists l'.
Qed.

Lemma tcp_step_inv w w' l : tcp_inv w l -> tcp_step w w' -> exists l', tcp_inv w' l'.
Proof.
  intros Hl Hst. destruct Hst as [w s n b h p P t' Hc Hso Hf E1|w s h p P t' Hc Hf E1|w k t' Hk E1|w len fl r t' Hlen E1|w r t' E1|w t' E1|w t' E1 Hne].
  - destruct (segment_step w l s n b h p P Hl Hc Hso Hf) as (t2 & l2 & E2 & Hl2 & _). rewrite E1 in E2. injection E2 as <-. by exists l2.
  - destruct (skip_step w l s 0 false h p P Hl Hc Hf) as (t2 & l2 & E2 & Hl2 & _); [by right|]. rewrite E1 in E2. injection E2 as <-. by exists l2.
  - destruct (recved_step w l k Hl Hk) as (t2 & l2 & E2 & Hl2). rewrite E1 in E2. injection E2 as <-. by exists l2.
  - destruct (tcp_write_step w l len fl Hl) as (r2 & t2 & l2 & E2 & Hl2 & _); [lia|]. rewrite E1 in E2. injection E2 as _ <-. by exists l2.
  - destruct (output_step w l Hl) as (r2 & t2 & l2 & E2 & Hl2 & _). rewrite E1 in E2. injection E2 as _ <-. by exists l2.
  - destruct (fasttmr_step w l Hl) as (t2 & l2 & E2 & Hl2). rewrite E1 in E2. injection E2 as <-. by exists l2.
  - destruct (slowtmr_step w l Hl) as [(t2 & E2 & [Hs|(l2 & Hl2)])|[_ E2]]; rewrite E1 in E2; [injection E2 as <-; done|injection E2 as <-; by exists l2|done].
Qed.

End deliver.

(** ** From the beginning *)

Section histories.
Context (f : Z -> Z) (fin : option Z) (R0 : Z) (g : Z -> Z) (S0 : Z).

Context {E : Type} `{TcpApp E}.

#[local] Abbreviation tcp_inv := (tcp_inv f fin R0 g S0 [] (R0, R0 + TCP_WND)).

#[local] Abbreviation carries := (carries f).

#[local] Abbreviation tcp_step := (tcp_step f fin g).

(** The connection is open, the windows are whole, and the MSS is [m]. *)
Definition established (m c : Z) (e : E) : world := World (Tcp (open_pcb S0 R0 m c) no_segment e) R0 (R0 + TCP_WND) S0 S0 S0.

(** A world that the connection can get to, when nothing has been heard or said yet. *)
Record reached (m c : Z) (e : E) (w : world) : Prop := Reached {
  rd_mss : 1 <= m <= TCP_MSS;
  rd_cwnd : 1 <= c < 2 ^ 16;
  rd_fin : forall x, fin = Some x -> R0 <= x;
  rd_quiet : got e = [] /\ eof e = false /\ outs e = [];
  rd_steps : rtc tcp_step (established m c e) w
}.

Lemma established_conn m c e : 1 <= m <= TCP_MSS -> 1 <= c < 2 ^ 16 -> outs e = [] -> TcpConn.conn g S0 [] (R0, R0 + TCP_WND) false false (Tcp (open_pcb S0 R0 m c) no_segment e) R0 TCP_WND (R0 + TCP_WND) S0 S0 S0.
Proof.
  intros Hm Hc He. change TCP_WND with 5360. change TCP_MSS with 536 in *. split; cbn; try done; try lia.
  - split; cbn; try done; try lia. auto with seq.
  - by left.
  - exists [], [], []. split; cbn; try done; [|by exists S0].
    split; cbn; try done; change TCP_SND_BUF with 6432; change TCP_SND_QUEUELEN with 40; try done; lia.
  - unfold roomy. cbn. change TCP_WND with 5360. lia.
  - by rewrite He.
  - rewrite He. exists []. split; [by exists []|constructor|by split; [constructor|]|constructor].
Qed.

Lemma established_inv m c e : 1 <= m <= TCP_MSS -> 1 <= c < 2 ^ 16 -> (forall x, fin = Some x -> R0 <= x) -> got e = [] /\ eof e = false /\ outs e = [] -> tcp_inv (established m c e) [].
Proof.
  intros Hm Hc Hf (Hg & He & Ho). assert (text_end fin R0 = R0 /\ past_fin fin R0 = false) as [Ht Hp].
  { unfold text_end, past_fin. destruct fin as [x|]; [|done]. specialize (Hf x eq_refl). split; lia. }
  split; cbn [established w_tcp w_nxt w_edge w_una w_snd w_lbb]; [by apply established_conn|constructor|done|rewrite Ht; lia| | |].
  - cbn. by rewrite Hg, Ht, Z.sub_diag.
  - cbn. by rewrite He, Hp.
  - by rewrite Hp.
Qed.

Lemma reached_inv m c e w : reached m c e w -> exists l, tcp_inv w l.
Proof.
  intros [Hm Hc Hf He Hr]. assert (exists l, tcp_inv (established m c e) l) as Hi by (exists []; by apply established_inv).
  remember (established m c e) as w0 eqn:Ew. clear Ew. induction Hr as [|w0 w1 w2 Hst _ IH]; [done|]. apply IH. destruct Hi as [l Hl]. by apply (tcp_step_inv f fin R0 g S0 _ _ w0 w1 l).
Qed.


(** What has gone out and where the receiver is may be looked at from any moment on. *)
Lemma inv_rebase w l : tcp_inv w l -> TcpDeliver.tcp_inv f fin R0 g S0 (outs (env (w_tcp w))) (w_nxt w, w_edge w) w l.
Proof.
  intros [[V1 V2 V3 V4 V5 V6 V7 (k & [K1 K2 K3 K4])] H2 H3 H4 H5 H6 H7]. split; try done. split; try done.
  exists []. split; [exists []; by rewrite app_nil_r|constructor| |constructor]. split; [constructor|]. by split.
Qed.

(** C26: what an open connection sends about its own window, in every history of the kind of
    the stream that is delivered.  The end of the window that is announced never moves back,
    nor is it ever beyond what there is room for, and the window is at most TCP_WND.  Each
    segment that was sent acknowledges a position and announces the end of a window of at
    most TCP_WND bytes behind it; in the order of sending neither of the two moves back, and
    what a call sends is between where the receiver was before and where it is afterwards. *)
Theorem tcp_window_bounds m c e w : reached m c e w ->
  let r := rcv (the_pcb (w_tcp w)) in
  seq_of (rcv_ann_right_edge r) (w_edge w) /\ w_nxt w <= w_edge w + 1 /\
  w_edge w <= w_nxt w + rcv_ann_wnd r /\ 0 <= rcv_ann_wnd r <= rcv_wnd r /\ rcv_wnd r <= TCP_WND /\
  (exists k, Forall2 announces (outs (env (w_tcp w))) k /\ StronglySorted not_behind k /\
    Forall (fun x => R0 <= x.1 <= w_nxt w /\ x.2 <= w_edge w /\ 0 <= x.2 - x.1 <= TCP_WND) k) /\
  (forall w', tcp_step w w' -> w_nxt w <= w_nxt w' /\ w_edge w <= w_edge w' /\
    exists l k, outs (env (w_tcp w')) = outs (env (w_tcp w)) ++ l /\ Forall2 announces l k /\ StronglySorted not_behind k /\
      Forall (fun x => w_nxt w <= x.1 <= w_nxt w' /\ w_edge w <= x.2 <= w_edge w' /\ 0 <= x.2 - x.1 <= TCP_WND) k).
Proof.
  intros Hr r. destruct (reached_inv m c e w Hr) as [l Hl]. pose proof Hl as [[[H1 H2 H3 H4 H5 H6 H7 H8] HW _ _ _ _ _ (k & [(l1 & E1 & K1) K2 [K3 _] K4])] _ _ _ _ _ _].
  split; [done|]. split; [lia|]. split; [done|]. split; [by rewrite <- H2 in H5|]. split; [by rewrite <- H2 in HW|]. split.
  - exists k. rewrite E1. split; [done|]. split; [done|]. apply list.Forall_forall. intros x Hx. rewrite list.Forall_forall in K3, K4. destruct (K3 x Hx), (K4 x Hx) as [[? ?] ?]. cbn in *. lia.
  - intros w' Hst. destruct (tcp_step_inv f fin R0 g S0 _ _ w w' l (inv_rebase w l Hl) Hst) as [l' [[_ _ _ _ _ _ _ (k' & [(l2 & E2 & J1) J2 [J3 J4] J5])] _ _ _ _ _ _]].
    destruct J4 as [? ?]. cbn in *. split; [done|]. split; [done|]. exists l2, k'. do 3 (split; [done|]). apply list.Forall_forall. intros x Hx.
    rewrite list.Forall_forall in J3, J5. destruct (J3 x Hx), (J5 x Hx) as [[? ?] ?]. cbn in *. lia.
Qed.

(** C4: what an open connection sends of what the application writes, in the same histories.
    The numbers of the PCB are those of the first byte that is not acknowledged, of the next
    byte to send and of the next to write; on the queues are all the bytes from the first of
    these to the last, in order and in segments of at most the MSS and half the largest
    window, and snd_buf is what is left of the buffer.  What was sent is in the window of the
    other end.  Every segment that went out carries the bytes of the stream that belong at
    its number, none behind the next to send, the byte of a window probe apart.  tcp_write
    takes all or nothing; tcp_output leaves only what is behind the window or held back by
    Nagle's algorithm; an acknowledgement of something that was sent takes it off. *)
Theorem tcp_sends_stream m c e w : reached m c e w ->
  let p := the_pcb (w_tcp w) in let s := snd_q p in
  lastack s = u32 (w_una w) /\ snd_nxt s = u32 (w_snd w) /\ snd_lbb s = u32 (w_lbb w) /\
  S0 <= w_una w <= w_snd w /\ w_snd w <= w_lbb w /\ snd_buf s = TCP_SND_BUF - (w_lbb w - w_una w) /\ w_snd w <= w_una w + snd_wnd (win p) /\
  (exists x o, S0 <= x <= w_una w /\ contig x o (w_lbb w) /\ fresh (w_una w) o /\ Forall2 (carried g (limit p)) (unacked s ++ unsent s) o) /\
  Forall (says g S0 (Z.max (w_snd w) (w_una w + 1))) (outs (env (w_tcp w))) /\
  (forall len fl, 0 <= len < 2 ^ 16 -> exists r t', tcp_write (Some (bytes_of g (w_lbb w) len)) fl (w_tcp w) = Done (r, t') /\
    (r = ERR_OK /\ w_lbb (follow w t') = w_lbb w + len \/ r = ERR_MEM /\ w_lbb (follow w t') = w_lbb w /\ snd_q (the_pcb t') = s)) /\
  (exists r t', tcp_output (w_tcp w) = Done (r, t') /\ waits (Z.min (snd_wnd (win p)) (cwnd (ctl p))) (the_pcb t')) /\
  (forall q h d P, carries q 0 false h d -> fair_to w h P ->
    exists t', app_input h d (w_tcp w) = Done (tt, t') /\ w_una (follow w t') = acks (w_una w) (w_snd w) P).
Proof.
  intros Hr p s. destruct (reached_inv m c e w Hr) as [l Hl]. pose proof (ti_conn _ _ _ _ _ _ _ _ _ Hl) as Hc. destruct (conn_pos _ _ _ _ _ _ _ _ _ _ _ _ _ Hc) as [HU HL].
  pose proof Hc as [_ _ _ _ (la & lu & o & Hs) Hroom Hsaid _]. destruct Hs as [[Q1 Q2 Q3 Q4 Q5 Q6 Q7 _ _ _ _] Ho (x & Hx & Hcon) Hfresh _ _]. cbn in Ho. subst o.
  do 3 (split; [done|]). split; [done|]. split; [lia|]. split; [done|]. split; [done|]. split; [|split; [done|]; split; [|split]].
  - exists x, (la ++ lu). split; [done|]. split; [done|]. split; [done|]. by apply Forall2_app.
  - intros len fl Hlen. destruct (tcp_write_step f fin R0 g S0 _ _ w l len fl Hl) as (r & t' & l' & E1 & _ & Hor); [lia|]. by exists r, t'.
  - destruct (output_step f fin R0 g S0 _ _ w l Hl) as (r & t' & l' & E1 & _ & Hw). by exists r, t'.
  - intros q h d P Hcar Hf. destruct (skip_step f fin R0 g S0 _ _ w l q 0 false h d P Hl Hcar Hf) as (t' & l' & E1 & _ & Ha); [by right|]. by exists t'.
Qed.
End histories.

(** ** Examples *)

(** The comparison with the end of the window is one of 32-bit numbers, not of sequence
    numbers: when the window reaches over 2^32, a queued segment gets the length of the rest
    of the window, and rcv_nxt moves over bytes that never came.  Here 1300 bytes arrive and
    are delivered, and 5360 are acknowledged. *)
Theorem tcp_wrap_acks_lost_data :
  exists t, all_arrive [segment (2 ^ 32 - 2000) 100; segment (2 ^ 32 - 1800) 100; segment (2 ^ 32 - 3000) 1000; segment (2 ^ 32 - 1900) 100]
      (sim_pcb (open_pcb 1 (2 ^ 32 - 3000) TCP_MSS 1072)) = Done (tt, t) /\
    zlen (got (env t)) = 1300 /\ rcv_nxt (rcv (the_pcb t)) = u32 (2 ^ 32 - 3000 + 5360).
Proof. apply done_with. vm_compute. split; reflexivity. Qed.

(** A segment out of sequence that reaches behind the window is queued whole when the queue
    is empty; when the gap in front of it is filled, the assertion on the window fails. *)
Theorem tcp_overrun_aborts : all_arrive [segment 5000 400; segment 1 4999] (sim_pcb (open_pcb 1 1 TCP_MSS 1072)) = Crash AssertFailed.
Proof. vm_compute. reflexivity. Qed.

(** A call, and what follows it. *)
Definition stepped {A} (m : M (tcp sim) A) (w : world (E := sim)) : world :=
  match m (w_tcp w) with Done (_, t) => follow w t | Crash _ => w end.

Definition returns {A} (m : M (tcp sim) A) (w : world (E := sim)) : bool := match m (w_tcp w) with Done _ => true | Crash _ => false end.

Lemma stepped_ok {A} (m : M (tcp sim) A) (w : world (E := sim)) : returns m w = true -> exists a t, m (w_tcp w) = Done (a, t) /\ stepped m w = follow w t.
Proof. unfold returns, stepped. destruct (m (w_tcp w)) as [[a t]|c]; [by exists a, t|done]. Qed.

(** Both ends send the counting stream, from position 1 on. *)
#[local] Abbreviation step := (tcp_step counting None counting).

Definition opened : world (E := sim) := established 1 1 TCP_MSS 1072 silence.

Lemma segment_carries s n : carries counting s n false (TcpHdr (u32 s) 1 TCP_ACK TCP_WND []) [bytes_of counting s n].
Proof. split; [done|]. split; [apply app_nil_r|]. do 3 (split; [done|]). constructor. Qed.

Lemma kept_without_options h p : hd_opts h = [] -> mss_kept h p.
Proof. intros Ho m. rewrite Ho. cbn. intros [= ->]. done. Qed.

(** Two segments of two bytes in the wrong order. *)
Definition swapped : world := stepped (arrives (segment 1 2)) (stepped (arrives (segment 3 2)) opened).

Lemma arrives_step s n w P : returns (arrives (segment s n)) w = true -> segment_ok None (w_tcp w) (w_nxt w) (wnd_of w) (w_edge w) s n false ->
  fair (TcpHdr (u32 s) 1 TCP_ACK TCP_WND []) (win (the_pcb (w_tcp w))) (w_una w) (w_snd w) P -> step w (stepped (arrives (segment s n)) w).
Proof.
  intros Hd Hso Hf. destruct (stepped_ok _ _ Hd) as ([] & t & E1 & ->).
  apply (st_segment counting None counting w s n false _ _ P t (segment_carries s n) Hso); [|exact E1]. split; [exact Hf|by apply kept_without_options].
Qed.

Lemma swapped_reached : reached counting None 1 counting 1 TCP_MSS 1072 silence swapped.
Proof.
  split; [done|done|done|done|]. apply (rtc_l _ _ (stepped (arrives (segment 3 2)) opened)); [|apply (rtc_l _ _ swapped); [|apply rtc_refl]].
  - apply (arrives_step 3 2 opened 1); [vm_compute; reflexivity| |].
    + split; [split; [cbn; lia|split; [cbn; lia|done]]|lia|vm_compute; done|vm_compute; done|intros _; split; vm_compute; done].
    + split; [done|vm_compute; done|vm_compute; done|intros _; vm_compute; done].
  - apply (arrives_step 1 2 _ 1); [vm_compute; reflexivity| |].
    + split; [split; [cbn; lia|split; [cbn; lia|done]]|lia|vm_compute; done|vm_compute; done|intros Hx; vm_compute in Hx; done].
    + split; [done|vm_compute; done|vm_compute; done|intros _; vm_compute; done].
Qed.


(** 1000 bytes are written, and sent in two segments; the first of them is acknowledged. *)
Definition written : world := stepped (tcp_write (Some (bytes_of counting 1 1000)) TCP_WRITE_FLAG_COPY) opened.

Definition sent : world := stepped tcp_output written.

#[local] Abbreviation ack_537 := (app_input (TcpHdr 1 537 TCP_ACK TCP_WND []) [] : M (tcp sim) unit).

Definition half_acked : world := stepped ack_537 sent.

Lemma written_step : step opened written.
Proof.
  destruct (stepped_ok (tcp_write (Some (bytes_of counting 1 1000)) TCP_WRITE_FLAG_COPY) opened) as (r & t & E1 & E2); [vm_compute; reflexivity|].
  unfold written. rewrite E2. by apply (st_write counting None counting opened 1000 TCP_WRITE_FLAG_COPY r).
Qed.

Lemma sent_step : step written sent.
Proof.
  destruct (stepped_ok tcp_output written) as (r & t & E1 & E2); [vm_compute; reflexivity|]. unfold sent. rewrite E2. by apply (st_output counting None counting written r).
Qed.

Lemma ack_fair_sent : fair_to sent (TcpHdr 1 537 TCP_ACK TCP_WND []) 537.
Proof.
  split; [|by apply kept_without_options]. unfold ack_fair. change (has (hd_flags (TcpHdr 1 537 TCP_ACK TCP_WND [])) TCP_ACK) with true. cbv iota.
  split; [reflexivity|vm_compute; split; reflexivity|vm_compute; split; [discriminate|reflexivity]|intros _; vm_compute; discriminate].
Qed.

Lemma acked_step : step sent half_acked.
Proof.
  destruct (stepped_ok ack_537 sent) as ([] & t & E1 & E2); [vm_compute; reflexivity|]. unfold half_acked. rewrite E2.
  apply (st_no_text counting None counting sent 1 (TcpHdr 1 537 TCP_ACK TCP_WND []) [] 537 t); [|exact ack_fair_sent|exact E1].
  split; [done|]. split; [done|]. do 3 (split; [done|]). constructor.
Qed.

Lemma half_acked_reached : reached counting None 1 counting 1 TCP_MSS 1072 silence half_acked.
Proof.
  split; [done|done|done|done|]. exact (rtc_l _ _ _ _ written_step (rtc_l _ _ _ _ sent_step (rtc_l _ _ _ _ acked_step (rtc_refl _ _)))).
Qed.

Lemma tcp_window_bounds_witness : exists k, Forall2 announces (outs (env (w_tcp half_acked))) k /\ StronglySorted not_behind k /\ length (outs (env (w_tcp half_acked))) = 2%nat.
Proof.
  destruct (tcp_window_bounds counting None 1 counting 1 TCP_MSS 1072 silence half_acked half_acked_reached) as (_ & _ & _ & _ & _ & (k & Hk & Ho & _) & _).
  exists k. split; [exact Hk|]. split; [exact Ho|]. vm_compute. reflexivity.
Defined.

Lemma tcp_sends_stream_witness : Forall (says counting 1 1001) (outs (env (w_tcp half_acked))) /\ length (outs (env (w_tcp half_acked))) = 2%nat /\
  w_una half_acked = 537 /\ snd_buf (snd_q (the_pcb (w_tcp half_acked))) = TCP_SND_BUF - 464.
Proof.
  destruct (tcp_sends_stream counting None 1 counting 1 TCP_MSS 1072 silence half_acked half_acked_reached) as (_ & _ & _ & _ & _ & Hb & _ & _ & Hs & _).
  assert (w_una half_acked = 537 /\ w_snd half_acked = 1001 /\ w_lbb half_acked = 1001) as (E1 & E2 & E3) by (vm_compute; repeat split; reflexivity).
  rewrite E1, E2 in Hs. rewrite E1, E3 in Hb. split; [exact Hs|]. split; [vm_compute; reflexivity|]. split; [exact E1|exact Hb].
Defined.
