(* ===== verification/TcpExamples.v ===== *)
(** * TCP: four ways to lose

    Runs of open connections that end in an abort, in lost or wrong data, or in an access
    outside of an array. *)

From S2P Require Import Prelude TcpPcb TcpRecv TcpOut TcpAck TcpProcess TcpStream TcpFrame TcpInput TcpSim.

Definition some_bytes (n : Z) : bytes := bytes_of counting 1 n.

Definition write (n : Z) : M (tcp sim) unit := tcp_write (Some (some_bytes n)) TCP_WRITE_FLAG_COPY;; mret tt.

Definition output : M (tcp sim) unit := tcp_output;; mret tt.

Definition close : M (tcp sim) unit := tcp_close;; mret tt.

(** A segment of the other end, with [n] bytes. *)
Definition peer (seqno ackno wnd n : Z) : tcp_out := TcpOut seqno ackno TCP_ACK wnd None (some_bytes n).

Fixpoint times (n : nat) (m : M (tcp sim) unit) : M (tcp sim) unit :=
  match n with
  | O => mret tt
  | S n => m;; times n m
  end.

(** The bytes of a segment, and where it says they are. *)
Definition shape (o : tcp_out) : Z * bytes := (out_seqno o, out_data o).

(** An application writes as much as the window of the other end holds and closes: the
    last segment has the FIN, whose number is behind the window.  When the other end, which
    is lwIP too, gets that segment first, it aborts on an assertion; in order they do no
    harm. *)
Theorem tcp_fin_behind_window_aborts :
  exists t, (write 5360;; close) (sim_pcb (open_pcb 1 1 TCP_MSS 5360)) = Done (tt, t) /\
    all_arrive (skipn 9 (outs (env t)) ++ firstn 9 (outs (env t))) (sim_pcb (open_pcb 1 1 TCP_MSS 1072)) = Crash AssertFailed /\
    exists t', all_arrive (outs (env t)) (sim_pcb (open_pcb 1 1 TCP_MSS 1072)) = Done (tt, t') /\ zlen (got (env t')) = 5360.
Proof. apply done_with. vm_compute. split; [reflexivity|]. eexists. split; reflexivity. Qed.

(** The connection is taken for closed when everything that was sent is acknowledged,
    although the FIN and data in front of it have not been sent: in LAST_ACK the PCB goes
    away with them.  Here 3000 bytes are written, 1072 are sent and acknowledged, and that
    is the end. *)
Theorem tcp_last_ack_drops_unsent :
  exists t, (write 3000;; output;; close;; arrives (peer 1 1073 TCP_WND 0)) (sim_pcb (set_state CLOSE_WAIT (open_pcb 1 1 TCP_MSS 1072))) = Done (tt, t) /\
    state (the_pcb t) = CLOSED /\ concat (map out_data (outs (env t))) = some_bytes 1072.
Proof. apply done_with. vm_compute. split; reflexivity. Qed.

(** A segment that was sent and is to be sent again is extended by tcp_write when it is alone
    on pcb->unsent, with data whose place is behind the segments that are still
    unacknowledged.  For that the other end takes back a part of its window, and three
    duplicate acknowledgements arrive: the bytes of a third write are sent as a part of the first
    segment. *)
Theorem tcp_write_corrupts_stream :
  exists t, (write 100;; output;; write 100;; output;;
      arrives (peer 1 1 50 1);; arrives (peer 2 1 50 0);; arrives (peer 2 1 50 0);; arrives (peer 2 1 50 0);;
      write 100;; arrives (peer 2 1 TCP_WND 0)) (sim_pcb (set_flags (set_bits TF_NODELAY) (open_pcb 1 1 TCP_MSS 1072))) = Done (tt, t) /\
    map shape (outs (env t)) = [(1, some_bytes 100); (101, some_bytes 100); (1, some_bytes 100 ++ some_bytes 100)].
Proof. apply done_with. vm_compute. reflexivity. Qed.

(** Each copy of the SYN counts as a retransmission, and tcp_slowtmr gives a connection
    up only when the count is exactly TCP_MAXRTX: after thirteen copies the next expiry of
    the retransmission timer reads behind the end of tcp_backoff. *)
Theorem tcp_syns_overrun_backoff :
  (tcp_enqueue_flags (Z.lor TCP_SYN TCP_ACK);; output;; times 13 (arrives (TcpOut 0 0 TCP_SYN TCP_WND None []));; times 6 app_slowtmr)
    (sim_pcb (set_state SYN_RCVD (open_pcb 1 1 TCP_MSS 1072))) = Crash Undefined.
Proof. vm_compute. reflexivity. Qed.
